(* ===== verification/_CoqProject ===== *)
-Q . S2P
Prelude.v
PyDict.v
PyStr.v
PyVal.v
PyJson.v
PayloadBudget.v
PyTime.v
Leases.v
Requirements.v
NodeBudget.v
StartupGate.v
HostAdvisor.v
Admission.v
AdmissionContext.v
Canonical.v
Transitions.v
Ledger.v
Reducer.v
Facade.v
LedgerChain.v
LedgerInvariant.v
LedgerRuns.v
LedgerTheorems.v
Controls.v
ControlTheorems.v
Redis.v
RunnerQueue.v
RunnerQueueTheorems.v
RedisLeases.v
OwnershipRelease.v
RedisNodeBudget.v
TaskTable.v
TaskClaims.v
TaskClaimTheorems.v
TaskTheorems.v
AccessControl.v
AccessTheorems.v
Traces.v
Scheduling.v
PlaybookRun.v
Handoff.v
WorkflowSample.v
PlaybookTrace.v
PlaybookTheorems.v
PlaybookResume.v
RetryTheorems.v
HandoffTheorems.v
KnowledgeContracts.v
KnowledgeStore.v
KnowledgeRetrieval.v
KnowledgeIndex.v
KnowledgeFacts.v
KnowledgeSample.v
KnowledgeTheorems.v
KnowledgeSearch.v
KnowledgeAccess.v
OwnerReceipts.v
ReleasePolicy.v
ReleaseSample.v
ReleaseFacts.v
ReleaseTheorems.v
IncidentModels.v
IncidentJournal.v
IncidentGate.v
IncidentRuns.v
IncidentFacts.v
IncidentAdmission.v
IncidentClosure.v
IncidentSample.v
IncidentTheorems.v
MigrationOrder.v
MigrationGraph.v
MigrationOrderTheorems.v
MigrationCatalog.v
MigrationExecutors.v
MigrationOrchestrator.v
MigrationLogic.v
MigrationRuns.v
MigrationSample.v
MigrationTheorems.v
