(* ===== verification/Prelude.v ===== *)
(** * Mindscape local core: durable workflows, resource admission, task queue,
    access, knowledge, incidents and migrations

    A verification library for the parts of the Python back end
    (src/backend/app/) that decide who may act, whether work may run, who owns
    what it runs on, and what is recorded of it.  Paths below are relative to
    src/backend/app/services/ unless they start with src/ or runner/.

    ** How the program's parts interact

    A task is a row of the task table, which names its place in the scheduler's
    frontier.  A runner takes its identifier from a Redis queue, asks the
    admission whether its resources are free, claims the row, and holds leases
    and a share of the node's memory budget while it runs; the reaper fails the
    tasks whose runner has died, and the owner of a dead or finished task gives
    its resources back.  Long-running work leaves a signed, hash-chained history in the
    durable workflow ledger, whose side tables hold approvals, checkpoints and
    side-effect receipts.  What a task runs is a playbook, a graph of steps with
    conditions, gates and nested playbooks, or a plan that hands work from one
    playbook to the next.  Every request runs under an identity, whose effective
    roles the access tables decide.  What a request may find in the indexed
    knowledge is decided by the grants and masks of each resource, in the vector
    database.  While the database has failed and the incident is not closed, the
    mutation gate admits only what the journal of the incident permits; the
    migration runner asks it before every upgrade.

      TaskTable --> TaskClaims      PayloadBudget (what a row may hold)
           |              |
      RunnerQueue --> Admission --> Leases, NodeBudget, StartupGate
                          |              ^
                     HostAdvisor         |
                                    OwnershipRelease, RedisLeases, RedisNodeBudget
      Controls --> Facade --> Ledger, Reducer, Transitions, Canonical
      AccessControl (catalog, commands, tables, facade, routes)
      Handoff --> Scheduling (retries, ready steps) --> PlaybookRun (steps, gates)
      KnowledgeContracts --> KnowledgeStore --> KnowledgeRetrieval, KnowledgeIndex
      OwnerReceipts --> ReleasePolicy
      IncidentModels --> IncidentJournal --> IncidentGate
      IncidentGate --> MigrationExecutors --> MigrationOrchestrator
      MigrationOrder, MigrationCatalog --> MigrationOrchestrator

    ** The language layer

    - [PyDict]: insertion-ordered dictionaries; [PyStr]: text (Latin-1) and the
      string methods the code calls; [PyVal]: the JSON values with truthiness,
      [str], [int], equality; [PyJson]: [json.dumps] in the two forms the code
      uses, UTF-8 and SHA-256, evaluated on test vectors; [PyTime]: datetimes
      in microseconds and the binary64 clocks in ticks of 2^-22 s.
    - This file: the error monad [res], the state-and-error monad [stres] (a
      raised exception keeps the state reached, as in Python), tactics and the
      generic lemmas.

    ** Runner resources (runner_resources/, host_resources/)

    - [Requirements] (requirements.py, requirement_variants.py,
      contract_variants.py): what a task needs, from its context, playbook and
      profile.  Theorems: the precedence of the sources for memory, bounds of
      every resolved requirement, the choice of a variant does not depend on
      the order in which the variants are declared.
    - [Leases] (lease_keys.py, leases.py): the [ResourceLeaseStore] protocol as
      a class with laws, and the in-memory store as an instance.  Theorem: a
      held lease excludes every other owner until it expires or is released.
    - [NodeBudget] (node_budget_contract.py, node_budget_test_store.py): the
      byte budget of the node, its protocol as a class, the in-memory store as
      an instance.  Theorems: reservations never exceed the allocatable bytes;
      a released or superseded handle is dead; a reservation survives the trip
      through the task context.
    - [StartupGate] (browser_startup_gate.py): slots and spacing from measured
      headroom.  [HostAdvisor] (host_resources/advisor.py): the advice about a
      lane, never a permission the snapshot does not support.
    - [Admission], [AdmissionContext] (admission.py): the admission stage by
      stage, over any instances of the two classes.  Theorems: over stores that
      keep their laws a blocked admission holds nothing, whichever guard blocked
      it, and a release undoes an admission; an admitted task has passed every
      guard; the context updates read back to what is held; the assertions of
      the code never fire.
    - [RedisLeases] (leases.py): the Redis store is an instance of the lease
      class as long as the server is reached, so the admission's theorems hold
      for it; the two ways in which it departs otherwise are findings.
    - [OwnershipRelease] (ownership_release.py): a release never raises,
      accounts for every key, and one that calls itself complete leaves the
      owner nothing.

    ** The durable workflow ledger (workflow/durable_state/)

    - [Canonical] (canonical_json.py), [Transitions] (transitions.py),
      [Ledger] (repository.py over the tables of
      src/backend/alembic_migrations/postgres/durable_workflow_v1.py),
      [Reducer] (reducers.py, projections.py, replay.py), [Facade] (facade.py,
      facade_append.py, events.py, compatibility.py, typed and terminal
      receipts): each public writer is an operation on a [ledger].
    - [LedgerChain], [LedgerInvariant], [LedgerRuns]: the chain of one
      workflow, the invariant of the ledger and its preservation by every
      writer, runs of writers ([writer_step], [reachable]).
    - [LedgerTheorems]: events numbered without gap, signed and chained; the
      projection is the replay of the events; every page of a history verifies;
      a verified history cannot be rewritten without exhibiting a SHA-256
      collision; of two writers of one sequence number
      one is refused; a retried transition answers the event it wrote; one
      terminal outcome per execution, after which nothing is appended.
    - [Controls], [ControlTheorems] (approvals.py, checkpoints.py,
      side_effects.py, controls.py): a consumed approval rests on a quorum of
      distinct approvers, is consumed once, never after a veto, and is granted
      when agreed; checkpoints form one lineage over the ledger's hashes; an
      effect settles once.  The runs interleave control and ledger writes.

    ** The runner's queue (stores/redis/, runner/)

    - [Redis]: the server as a class.  [exec] is a parameter; the laws say that
      it follows the documented meaning of each command on a keyspace.  A round
      trip may fail before or after it has run ([fault]).
    - [RunnerQueue] (runner_queue_store.py, route_identity_projection.py):
      every method and Lua script as command sequences; and the repair of the
      transport (runner/redis_transport_repair.py, runner/reaper_transport.py).
    - [RunnerQueueTheorems]: under any loss of requests and replies a queued
      task stays somewhere in the queue family until it is acknowledged or
      given up; service is first in, first out; a reroute and a repair leave
      one entry; a lock has one owner.  Three concrete schedules in which the
      code does lose, revive or duplicate an entry are theorems as well.
    - [RedisNodeBudget] (node_budget.py): the five Lua scripts of the byte
      budget and the Python that calls them, on the same server.  Theorems:
      every call answers as the in-memory store does and keeps the two stores
      in step (refinement), and reservations stay within the allocatable bytes
      under any loss of requests and replies.

    ** The task table (stores/tasks_store/, task_payload_budget.py)

    - [PayloadBudget] (task_payload_budget.py, result_object_contract.py,
      playbook_run_executor_core/result_compaction.py): the byte limits of the
      JSON columns and the compaction of what exceeds them.  Theorems: what is
      stored fits, is a fixed point of the budget and keeps its type; the entries
      that route a task survive; the order of Python's sets has no effect.
    - [TaskTable] (_crud_status.py, _crud_update.py, _crud_helpers.py,
      _crud_control.py, _crud_frontier_release.py, _runner_lifecycle.py,
      run_attempts_store.py, task_events_store.py): an UPDATE is a list of
      column assignments; a writer is one transaction over tasks, executions,
      runs, attempts, events and outbox.
    - [TaskClaims] (_runner_claims.py, _runner_helpers.py): the claim and its
      guards, the release of tasks parked by a quota, and claims interleaved
      statement by statement with each other and with the other writers
      ([world_step]).
    - [TaskClaimTheorems]: however they interleave, no two running tasks share
      a concurrency key, a pending task is claimed once, and a workspace never
      runs more tasks than its quota; the interleaved claim run alone is the
      method; what a granted claim has checked and written.
    - [TaskTheorems]: the scheduler columns follow the status, under writers
      that look at the status they overwrite ([polite]); the reaper fails
      exactly the stale running tasks; a retry starts from a failure only; a new
      context parks or readies a pending task; the two abort checks agree.
      Samples show the reaper and a cancellation overwriting a task that has
      finished meanwhile, and a context whose leases the compaction forgets.

    ** Workspace access control (workspace_access_control/)

    - [AccessControl] (catalog.py, contracts.py, errors.py, the repository
      mixins, facade.py, src/backend/app/dependencies/workspace_access.py and
      src/backend/app/routes/core/workspace_access/): the roles, the validated
      commands, the tables of migration 20260729120000 with their keys and
      checks, every statement, and the routes that edit.
    - [AccessTheorems]: the tables stay consistent in every run of the
      repository's methods ([reachable]); an edit from a stale revision is
      refused; an invitation is used once and grants its role only; owners and
      administrators are not lost, except by the one way stated; a management
      request is authorised and audited or changes nothing; the decision, the
      listing (of no more workspaces than it may return) and the projection for
      the remote gateway agree.  Samples show
      the last owner leaving by an invitation, an administrator making itself
      an owner, and three imports that fail or have no effect.

    ** Playbook workflows (workflow/, workflow_orchestrator.py,
       workflow_step_loop.py, src/backend/app/models/playbook_models/)

    - [Scheduling] (scheduling.py, retry_policy.py, retry_execution.py,
      step_lifecycle.py): dependency graphs, conditions, the selection of ready
      steps, the retry loop, gates and their checkpoints.
    - [PlaybookRun] (playbook_execution.py, playbook_runtime.py,
      step_dispatch.py, result_mapper.py, sandbox_admission.py,
      playbook_finalization.py, workflow_step_loop.py): one playbook, from its
      checkpoint to its pause, completion or exception, with hooks, arrays and
      nested playbooks; [history] is the trace it leaves.
    - [Handoff] (handoff_execution.py, step_runner.py,
      execution_profile_retry.py): the waves of a plan.
    - [Traces], [PlaybookTrace]: a logic of what a computation appends to its
      trace, and the steps of a run as a relation on places (the outputs and the
      completed steps) that every run follows ([progress], [loop_post]).
    - [PlaybookTheorems]: a step starts once and after what it depends on;
      nothing of a run goes past its own closed gates; a completed run has
      settled every step; the loop, which takes what to do where its rounds are
      used up as a parameter, never gets there.  [PlaybookResume]: when a
      playbook whose steps answer from what they depend on completes both
      uninterrupted and paused and resumed, the outputs are the same.
      [RetryTheorems]: the exact attempts, waits and answer of the retry loop,
      against a policy stated apart from the code ([asks_again],
      [wait_before], [family_of]).  [HandoffTheorems]: the order of a plan, and
      its end.  [WorkflowSample] is the world the theorems are tried on; six
      samples show a pause taken for a failure, a final error that does not
      stop, a completed playbook reported as a cycle, a playbook that only its
      resumption makes one, a nested gate that does not hold the playbook
      around it, and a plan that is stuck and reported as completed.

    ** Knowledge authorisation and retrieval (knowledge_authorization/,
       knowledge_retrieval/, authorized_knowledge_index_*.py)

    - [KnowledgeContracts] (contracts.py, identity.py, write_contracts.py,
      access_context_factory.py, workspace_authorization_revision.py): the
      access context of a request and where its claims come from, the identity
      of a resource, grants and their replacement.
    - [KnowledgeStore] (context_sql.py, store.py, service.py, governance/ with
      agent_mask_store.py, knowledge_projection/retrievable/repository.py, the
      migrations 20260727010000 to 20260727040000): the tables of the vector
      database with their keys, checks and row policies; every statement runs
      under the policies of its session.
    - [KnowledgeRetrieval] (contracts.py, candidate_scope_sql.py, query_seed.py,
      store.py, facade.py, facade_helpers.py): a hybrid search, its candidates
      in one transaction, whose three statements each read a state of their own
      ([views]), the fusion of the two rankings, and the authorization of the
      selected hits in a second one.
    - [KnowledgeIndex]: the binding of a generation to its resource, the
      revocation of a resource, the runs of the writers ([run]), and the rows
      that migration 20260727020000 makes of the documents it finds
      ([backfill]).
    - [KnowledgeFacts]: what each statement leaves, and the invariant of the
      tables ([kinv]).  The tables of the migration satisfy
      it but for the log entries it does not write, which no statement but the
      insertion of an entry looks at; every run from them keeps it ([reached]).
      [KnowledgeTheorems]: the log of a policy has an entry per revision (but
      the first of a backfilled label) and its last entry is the policy; a
      committed replacement alone decides what is seen; one replacement per
      revision; only managers change policies.
      [KnowledgeSearch]: a delivered hit is authorized in the tables of the
      second transaction; what was replaced between the two, or revoked and not
      projected again, is not delivered; a search of tables that do not change
      is complete; the fusion is reciprocal rank fusion.  [KnowledgeAccess]: a
      context holds exactly the memberships, with role and revision, the
      permissions and the principals that the verified claims give, and does
      not depend on their order.  [KnowledgeSample] is the world the theorems
      are tried on; six samples show principals and ids that collide, a second
      tenant that cannot create a resource, a command that always fails, a
      reader that may delete grants, and a hit delivered after its resource was
      revoked and projected again.

    ** Release policies of the durable workflows (workflow/durable_state/)

    - [OwnerReceipts] (runtime_owner_receipts.py): the verification of a signed
      receipt against a pinned registry of keys, check by check on the JSON
      values, and what a verified receipt satisfies ([vouches], [trusted]).
    - [ReleasePolicy] (release_policy.py over its table, and
      workspace_capability_admission/durable_workflow_policy.py): the
      compare-and-swap, whose snapshot may be older than the table it writes,
      the re-verification of a row, and its evaluation at an admission.
    - [ReleaseFacts]: what two related receipts authorise ([authorises]) and
      what a commit writes ([commits]).  [ReleaseTheorems]: the policies of a
      workflow form one signed chain of admitted changes in every interleaving
      of commits; an admission rests on signatures that hold when it is made; a
      committed policy is the current one and verifies again under the registry
      it was committed with.  [ReleaseSample]
      has a signature scheme to try them on; two samples show a canary of one
      workspace that admits another, and a gap the table does not refuse.

    ** Runtime database incidents (runtime_database_incident_core/)

    - [IncidentModels] (models.py, closure_receipts.py): the permits and
      receipts with their validation, and the incident with its JSON form.
    - [IncidentJournal] (journal.py, closure_journal.py, closure_policy.py): the
      operations, over the file of the current incident and the logs of events,
      where every access ends as one of five [fault]s; what a call leaves when
      it is cut off is what stays on the disk.
    - [IncidentGate] (evaluator.py, mutation_context.py, classifier_bridge.py):
      the decision on a database mutation.
    - [IncidentRuns]: the machine of an incident ([incident_step]), and that
      every call follows it or leaves the current incident ([exec_outcome]);
      [IncidentFacts] (the invariant of the permits), [IncidentAdmission] (what
      the gate answers) and [IncidentClosure] (the containment a close rests
      on) build on it.  [IncidentTheorems]: the gate admits only what a permit
      lists that no call which returned has revoked; a closed incident has been
      through a soak that no such call has broken; a call is atomic on the
      current incident.  [IncidentSample] runs an incident to
      its closing; four samples show a containment that cannot be closed once
      it is renewed, or once the call that made it or an event was interrupted,
      and a lost failure that leaves a containment in force.

    ** Database migrations (migrations/, host_resources/schema_readiness.py)

    - [MigrationOrder] (dependency_resolver.py): the order of the packs, over
      the graph the resolver keeps from plan to plan, with Python's recursion
      limit.  [MigrationCatalog] (runtime_catalog_integrity_facade.py,
      head_normalizer.py): what is read off the catalog of revisions; and the
      host's schema, query by query (schema_readiness.py,
      orchestrator_host_resource_contract_adapter.py).
    - [MigrationExecutors]: a command is a program of accesses to the databases
      and the journal of incidents ([prog]), each of which succeeds, fails, or
      takes effect and loses its answer; the admission by the gate
      (execution_policy.py, capability_plan_admission.py); the writers of
      alembic_version (independent_revision_executor.py,
      linear_revision_executor.py, head_normalizer.py).
      [MigrationOrchestrator] (orchestrator.py, validator.py, cli.py): plans,
      targeted and general upgrades, the normalization, the commands.
    - [MigrationLogic]: a logic of programs that run among others ([safe]), for
      the coverage of the rows ([covered]), and the executors in it;
      [MigrationRuns]: the commands in it, and interleavings of commands, kills
      and calls of the journal ([sys_step]).  [MigrationGraph]: the resolver's
      graph and its search for cycles.
    - [MigrationTheorems]: what the rows cover was run; an upgrade is run after
      what it needs and after the gate admitted it; what answers completed is
      covered; run alone, a plan is exactly what is missing, and a normalization
      keeps the coverage.  [MigrationOrderTheorems]: the
      resolver orders a sound plan and refuses the others, and never recovers
      from a cycle.  [MigrationSample] has a catalog and schedules to try them
      on, among them revisions run twice or not recorded, an upgrade that calls
      the host up to date, and a database that cannot be read taken for empty.

    ** Bounds and fuel

    Recursion is structural.  Six functions take a bound: the block loop of
    SHA-256, given the number of words (16 per block); the search for the shortest
    decimal text of a clock value, given seven digits, which separate ticks of
    2^-22 s; the loop over the ready steps of a playbook and the waves of a plan,
    given the number of steps, which [rounds_suffice] and
    [handoff_waves_suffice] prove enough; the search for cycles among the packs,
    given Python's recursion limit, beyond which it raises as Python does; and
    the loop that orders them, given the number of nodes.  Playbooks nest three levels deep,
    which is the code's own limit.  Integers of the database columns are range-checked at 32 and
    64 bits ([bind_int]); Python integers are [Z].

    ** Assumptions

    - One database connection is one transaction; the row lock of a workflow
      makes its writers run one after the other.  The caller rolls back a
      failed operation.  JSONB columns give back the value written.
    - [platform] gathers the Ed25519 signer, the JSON Schema validator, the ISO
      date parser and the JSONB text length: third-party code, parameters.
      [timestamptz] and [text_le] are the database's timestamp reader and text
      collation.
    - The keys of a terminal append are its own: when it starts, no event of
      the workflow carries its key with the suffix :transition
      ([writer_step], [ws_terminal]).
    - Text is Latin-1.  Epoch clocks lie between 2004 and 2038, where a tick is
      exactly the spacing of binary64.
    - The operations of the queue theorems are those of the queue store, the
      two halves of a dequeue, and the repair; the mover of delayed tasks and
      the recycling and refill from the task table are not among them.
    - The task table runs at READ COMMITTED: a statement sees what is committed
      when it starts, an UPDATE locks its row and re-checks its condition on the
      newest version, the partial unique index admits one running row per key,
      an exception rolls the transaction back.
    - [TaskPlatform] gathers the ISO date parser and the way the driver binds
      a JSON value to a text column; [JsonText] the JSON parser and PostgreSQL's
      text of a JSON value; [SetOrder] is the order in which Python iterates the
      sets of context keys.
    - A method of the access repository is one transaction, and its scope lock
      orders the edits of a scope.  [Database] gathers the text collation and
      [md5]; the identifiers drawn at random are arguments, and the primary
      keys reject a repeated one.
    - The template engine, the evaluation of conditions, the resolution of tool
      slots, the tools, the hooks, the playbook files and the sandbox services
      are classes ([PyEval], [Runtime], [Sandboxes], [StepInputs]) that may
      answer from the whole history.  The playbooks of a wave run one after the
      other; the depth counter the orchestrator shares between them is taken
      per run.  The artifacts of a finished playbook are left out: their failure
      is caught.
    - The byte-budget scripts run on amounts below 10^14, the numbers Lua
      prints exactly; [CJson] is the JSON codec of the Redis server, a class
      whose laws are the round trip of what the scripts store.

    - The vector database is reached in the runtime role of the policies, in
      UTC, and a request is one transaction; two of them do not interleave,
      except that anything may be written between the statements and between
      the two transactions of a search.  [SearchEngine] gathers the embedding of a query and the two
      rankings, which choose among the candidates ([SearchLaws]); [Directory]
      the stores of workspaces and groups.  The writers of chunks,
      generations and graph are one step, [Index], which may leave any rows in
      their tables.

    - [OwnerPlatform] gathers the JSON Schema validator, the reader of ISO
      datetimes and Ed25519 for the owner receipts; [OwnerLaws] is what the two
      schemas promise of the documents they admit.

    - The lock of the incident journal makes its operations run one after the
      other, and a dead process gives it back.  A JSON file gives back the
      value written, and a part of an event does not parse.  [IsoReader] is
      [datetime.fromisoformat]; where the order of times matters, it reads back
      what the clock wrote ([reads_back]).

    - Alembic's script directory and upgrade command are parameters: [catalog_ok]
      says that a catalog lists the ancestry of a revision, [alembic_ok] that the
      command goes through transactions each of which runs revisions whose needs
      are covered and replaces rows by one above them.  A transaction of an
      executor is one access; what a migration commits on its own before it
      fails is not recorded.  Nothing else writes alembic_version.

    ** Not modelled, and the plan

    Not modelled because they are I/O or third-party code: process
    supervision, HTTP routes, SQL access layers other than the ledger's,
    language-model and tool adapters, file installation, the front ends.

    Of the task table: the creation of a task (its shard comes from the runner
    topology), the read-model projections, the activity stream, the meeting
    commands and the candidate queries.

    Of the access control: the management view, which formats rows; how
    authentication establishes an identity; the lengths of the text columns.

    Of the migrations: the reading of migrations.yaml, the staging of script
    files (runtime_locations.py), database_plan.py, the text of the subprocess
    script, what the commands print.

    Of the knowledge services: the listings of the governance page, the graph
    modes of retrieval, aggregates, citation fetches and coverage, the staging
    and activation of generations, the compilers of packs and documents.

    Planned, in this order: the runner topology (partitions, profiles, routing)
    and with it the creation of tasks; the runner's claim policy and lock keys,
    the resource-block control, the recycling and the delayed mover; the
    product iteration and release seams of the ledger; lanes and quotas of
    the host resources; the generations of the knowledge index and its graph. *)
From stdpp Require Export base list strings pretty gmap.
From Stdlib Require Export Ascii ZArith Lia.

(** * Scopes, switches and tactics *)

Declare Scope py_scope.
Delimit Scope py_scope with py.
#[global] Open Scope string_scope.
#[global] Open Scope list_scope.
#[global] Open Scope Z_scope.
Create HintDb py.
Create Rewrite HintDb py.

(** [break] cases on a match or conditional of the goal, [break_in H] of a
    hypothesis, keeping the equation; [bool_prop] turns boolean tests into
    the propositions they decide. *)
Ltac break_in H :=
  match type of H with
  | context [match ?x with _ => _ end] => destruct x eqn:?
  end.
Ltac break :=
  match goal with
  | |- context [match ?x with _ => _ end] => destruct x eqn:?
  end.
Ltac bool_prop :=
  repeat match goal with
  | H : _ && _ = true |- _ => apply andb_true_iff in H; destruct H
  | H : _ || _ = false |- _ => apply orb_false_iff in H; destruct H
  | H : negb _ = true |- _ => apply negb_true_iff in H
  | H : negb _ = false |- _ => apply negb_false_iff in H
  | H : (_ <=? _)%Z = true |- _ => apply Z.leb_le in H
  | H : (_ <=? _)%Z = false |- _ => apply Z.leb_gt in H
  | H : (_ <? _)%Z = true |- _ => apply Z.ltb_lt in H
  | H : (_ <? _)%Z = false |- _ => apply Z.ltb_ge in H
  | H : (_ =? _)%Z = true |- _ => apply Z.eqb_eq in H
  | H : (_ =? _)%Z = false |- _ => apply Z.eqb_neq in H
  | H : bool_decide _ = true |- _ => apply bool_decide_eq_true in H
  | H : bool_decide _ = false |- _ => apply bool_decide_eq_false in H
  end.

(** [str_lits] decides every comparison of string literals in the goal. *)
Ltac str_lits :=
  repeat match goal with
  | |- context [@bool_decide (@eq string ?a ?b) ?d] =>
      let r := eval vm_compute in (@bool_decide (@eq string a b) d) in
      lazymatch r with
      | true => change (@bool_decide (@eq string a b) d) with true
      | false => change (@bool_decide (@eq string a b) d) with false
      end; cbv iota
  end.

(** * Exceptions and the error monad

    The classes of the exceptions the modelled code raises or catches, with
    their messages. [InvalidTransition], [CanonicalPayloadError] and
    [ReplayCompatibilityError] derive from [ValueError] in the source,
    [IncompatibleHistory] and [DurableWorkflowConflict] from [RuntimeError]. *)

Inductive exn : Type :=
| TypeError (msg : string)
| ValueError (msg : string)
| KeyError (key : string)
| OverflowError (msg : string)
| AttributeError (msg : string)
| AssertionError
| InvalidTransition (msg : string)
| CanonicalPayloadError (msg : string)
| ReplayCompatibilityError (msg : string)
| DurableWorkflowConflict (msg : string)
| IncompatibleHistory (msg : string)
| ResourceBlockResumeError (reason : string) (status_code : Z)
| OtherError (cls msg : string).

#[export] Instance exn_eq_dec : EqDecision exn.
Proof. solve_decision. Defined.

Definition is_value_error (e : exn) : bool :=
  match e with
  | ValueError _ | InvalidTransition _ | CanonicalPayloadError _
  | ReplayCompatibilityError _ => true
  | _ => false
  end.

(** [except (TypeError, ValueError)]. *)
Definition is_type_or_value_error (e : exn) : bool :=
  match e with TypeError _ => true | _ => is_value_error e end.

Inductive res (A : Type) : Type :=
| Ok (a : A)
| Raise (e : exn).
Arguments Ok {A} a.
Arguments Raise {A} e.

#[export] Instance res_ret : MRet res := fun A a => Ok a.
#[export] Instance res_bind : MBind res := fun A B f c =>
  match c with Ok a => f a | Raise e => Raise e end.

#[export] Instance res_fmap : FMap res := fun A B f c =>
  match c with Ok a => Ok (f a) | Raise e => Raise e end.

Definition try_except {A} (c : res A) (catches : exn -> bool) (h : res A) : res A :=
  match c with
  | Ok a => Ok a
  | Raise e => if catches e then h else Raise e
  end.

(** State passing with exceptions: effects made before a raise persist. *)
Definition stres (S A : Type) : Type := S -> res A * S.

#[export] Instance stres_ret {S} : MRet (stres S) := fun A a s => (Ok a, s).
#[export] Instance stres_bind {S} : MBind (stres S) := fun A B f c s =>
  match c s with
  | (Ok a, s') => f a s'
  | (Raise e, s') => (Raise e, s')
  end.

Definition lift_res {S A} (r : res A) : stres S A := fun s => (r, s).
Definition raise_st {S A} (e : exn) : stres S A := fun s => (Raise e, s).
Definition get_st {S} : stres S S := fun s => (Ok s, s).
Definition gets_st {S A} (f : S -> A) : stres S A := fun s => (Ok (f s), s).
Definition modify_st {S} (f : S -> S) : stres S unit := fun s => (Ok tt, f s).
Definition total_st {S A} (f : S -> A * S) : stres S A :=
  fun s => let '(a, s') := f s in (Ok a, s').

(** [with self.transaction() as conn] (services/stores/postgres_base.py): an
    exception rolls back. *)
Definition transaction {S A} (c : stres S A) : stres S A := fun s =>
  match c s with
  | (Raise e, _) => (Raise e, s)
  | (Ok a, s') => (Ok a, s')
  end.

Lemma bind_Ok_inv {A B} (c : res A) (f : A -> res B) b :
  c ≫= f = Ok b -> exists a, c = Ok a /\ f a = Ok b.
Proof. destruct c as [a|e]; [eauto | discriminate]. Qed.

Lemma bind_Raise_inv {A B} (c : res A) (f : A -> res B) e :
  c ≫= f = Raise e -> c = Raise e \/ exists a, c = Ok a /\ f a = Raise e.
Proof. destruct c as [a|e']; cbn; [eauto | intros [= ->]; by left]. Qed.

Lemma st_bind_Ok_inv {S A B} (c : stres S A) (f : A -> stres S B) s b s' :
  (c ≫= f) s = (Ok b, s') ->
  exists a s1, c s = (Ok a, s1) /\ f a s1 = (Ok b, s').
Proof.
  unfold mbind, stres_bind. destruct (c s) as [[a|e] s1] eqn:E; [eauto|].
  discriminate.
Qed.

Lemma st_bind_eq {S A B} (c : stres S A) (f : A -> stres S B) s a s1 :
  c s = (Ok a, s1) -> (c ≫= f) s = f a s1.
Proof. unfold mbind, stres_bind. by intros ->. Qed.

Lemma st_bind_raise {S A B} (c : stres S A) (f : A -> stres S B) s e s1 :
  c s = (Raise e, s1) -> (c ≫= f) s = (Raise e, s1).
Proof. unfold mbind, stres_bind. by intros ->. Qed.

Lemma st_bind_Raise_inv {S A B} (c : stres S A) (f : A -> stres S B) s e s' :
  (c ≫= f) s = (Raise e, s') ->
  c s = (Raise e, s') \/ exists a s1, c s = (Ok a, s1) /\ f a s1 = (Raise e, s').
Proof.
  unfold mbind, stres_bind. destruct (c s) as [[a|e'] s1] eqn:E; [eauto|].
  intros [= <- <-]. by left.
Qed.

Lemma lift_Ok {S A} (r : res A) (s : S) a s' : lift_res r s = (Ok a, s') -> r = Ok a /\ s' = s.
Proof. by intros [= -> ->]. Qed.

Lemma transaction_Ok {S A} (c : stres S A) s a s' : transaction c s = (Ok a, s') -> c s = (Ok a, s').
Proof. unfold transaction. by destruct (c s) as [[?|?] ?]. Qed.

Lemma transaction_Raise {S A} (c : stres S A) s e s' : transaction c s = (Raise e, s') -> s' = s.
Proof. unfold transaction. by destruct (c s) as [[?|?] ?]; intros [= _ <-]. Qed.

(** [bind_inv H] opens one [bind] of a computation known to return. *)
Ltac bind_inv H :=
  first
    [ let a := fresh "a" in let Ha := fresh "Ha" in
      apply bind_Ok_inv in H as (a & Ha & H)
    | let a := fresh "a" in let s := fresh "s" in let Ha := fresh "Ha" in
      apply st_bind_Ok_inv in H as (a & s & Ha & H) ].

Lemma existsb_elem {A} (f : A -> bool) l : existsb f l = true <-> exists x, x ∈ l /\ f x = true.
Proof.
  rewrite existsb_exists. split; intros (x & Hx & Hf); exists x; (split; [|done]);
    by apply list_elem_of_In.
Qed.

Lemma existsb_none {A} (f : A -> bool) l : existsb f l = false <-> forall x, x ∈ l -> f x = false.
Proof.
  split.
  - intros E x Hx. destruct (f x) eqn:Hf; [|done].
    assert (existsb f l = true) by (apply existsb_elem; eauto). congruence.
  - intros Hall. destruct (existsb f l) eqn:E; [|done].
    apply existsb_elem in E as (x & Hx & Hf). rewrite Hall in Hf; done.
Qed.

Lemma existsb_false {A} (f : A -> bool) l x : existsb f l = false -> x ∈ l -> f x = false.
Proof. rewrite existsb_none. auto. Qed.

Lemma find_ext_in {A} (f g : A -> bool) l :
  (forall x, x ∈ l -> f x = g x) -> List.find f l = List.find g l.
Proof.
  intros Hfg. induction l as [|x l IH]; [done|]. simpl. rewrite (Hfg x) by left.
  rewrite IH; [done|]. intros y Hy. apply Hfg. by right.
Qed.

Lemma nodup_map_inj {A B} (f : A -> B) (l : list A) x y :
  NoDup (map f l) -> x ∈ l -> y ∈ l -> f x = f y -> x = y.
Proof.
  induction l as [|a l IH]; [set_solver|]. simpl. rewrite NoDup_cons. intros [Ha Hl].
  intros [->|Hx]%list.elem_of_cons [->|Hy]%list.elem_of_cons Hf; [done| | |auto];
    destruct Ha; [rewrite Hf|rewrite <- Hf]; by apply list_elem_of_fmap_2.
Qed.


Lemma filter_all {A} (P : A -> bool) l :
  (forall x, x ∈ l -> P x = true) -> List.filter P l = l.
Proof.
  induction l as [|x l IH]; intros Hl; [done|]. simpl. rewrite Hl by left. f_equal.
  apply IH. intros y Hy. apply Hl. by right.
Qed.

