(* ===== verification/PyDict.v ===== *)
(** Python dictionaries with string keys: insertion-ordered association lists
    with the operations of [dict] the code uses ([d[k] = v] keeps the place of
    an existing key, [pop] and [del] remove it, [update] inserts from left to
    right), and their lemmas.  A dictionary is well formed when its keys are
    distinct ([dict_wf]); every operation preserves it. *)
From S2P Require Import Prelude.

Section dict.
Context {V : Type}.

Definition dict : Type := list (string * V).

Fixpoint dget (k : string) (d : dict) : option V :=
  match d with
  | [] => None
  | (k', v) :: r => if bool_decide (k = k') then Some v else dget k r
  end.

Definition dmem (k : string) (d : dict) : bool :=
  match dget k d with Some _ => true | None => false end.

Fixpoint dset (k : string) (v : V) (d : dict) : dict :=
  match d with
  | [] => [(k, v)]
  | (k', v') :: r =>
      if bool_decide (k = k') then (k', v) :: r else (k', v') :: dset k v r
  end.

Fixpoint ddel (k : string) (d : dict) : dict :=
  match d with
  | [] => []
  | (k', v') :: r => if bool_decide (k = k') then ddel k r else (k', v') :: ddel k r
  end.

Definition dkeys (d : dict) : list string := map fst d.
Definition dvalues (d : dict) : list V := map snd d.

(** [d.update(e)], and [{**d, **e}]. *)
Definition dupdate (d e : dict) : dict :=
  foldl (fun acc kv => dset kv.1 kv.2 acc) d e.

(** [{k: v for k, v in d.items() if P(k, v)}] *)
Fixpoint dfilter (P : string -> V -> bool) (d : dict) : dict :=
  match d with
  | [] => []
  | (k, v) :: r => if P k v then (k, v) :: dfilter P r else dfilter P r
  end.

Definition dict_wf (d : dict) : Prop := NoDup (dkeys d).

Lemma dget_dset_eq k v d : dget k (dset k v d) = Some v.
Proof.
  induction d as [|[k' v'] d IH]; simpl.
  - by rewrite bool_decide_true.
  - case_bool_decide; simpl; [by rewrite bool_decide_true|].
    by rewrite bool_decide_false.
Qed.

Lemma dget_dset_ne k k' v d : k ≠ k' -> dget k (dset k' v d) = dget k d.
Proof.
  intros Hne. induction d as [|[a w] d IH]; simpl.
  - by rewrite bool_decide_false.
  - case_bool_decide; simplify_eq; simpl; [by rewrite !bool_decide_false|].
    by rewrite IH.
Qed.

Lemma dget_ddel_eq k d : dget k (ddel k d) = None.
Proof.
  induction d as [|[a w] d IH]; simpl; [done|].
  case_bool_decide; simpl; [done|]. by rewrite bool_decide_false.
Qed.

Lemma dget_ddel_ne k k' d : k ≠ k' -> dget k (ddel k' d) = dget k d.
Proof.
  intros Hne. induction d as [|[a w] d IH]; simpl; [done|].
  case_bool_decide; simplify_eq; simpl.
  - by rewrite bool_decide_false.
  - by rewrite IH.
Qed.

Lemma dget_dset k k' v d :
  dget k (dset k' v d) = if bool_decide (k = k') then Some v else dget k d.
Proof.
  case_bool_decide; subst; [apply dget_dset_eq | by apply dget_dset_ne].
Qed.

Lemma dget_ddel k k' d :
  dget k (ddel k' d) = if bool_decide (k = k') then None else dget k d.
Proof.
  case_bool_decide; subst; [apply dget_ddel_eq | by apply dget_ddel_ne].
Qed.

Lemma dget_Some_keys k v d : dget k d = Some v -> k ∈ dkeys d.
Proof.
  induction d as [|[a w] d IH]; simpl; [done|].
  case_bool_decide; subst; [by left | intros ?; right; auto].
Qed.

Lemma dget_None_keys k d : dget k d = None <-> k ∉ dkeys d.
Proof.
  induction d as [|[a w] d IH]; simpl; [set_solver|].
  rewrite list.not_elem_of_cons. case_bool_decide; naive_solver.
Qed.

Lemma dkeys_dset k v d :
  dkeys (dset k v d) = if dmem k d then dkeys d else dkeys d ++ [k].
Proof.
  unfold dmem. induction d as [|[a w] d IH]; simpl; [done|].
  case_bool_decide; subst; simpl; [done|]. rewrite IH. by destruct (dget k d).
Qed.

Lemma dkeys_ddel_subseteq k x d : x ∈ dkeys (ddel k d) -> x ∈ dkeys d /\ x ≠ k.
Proof.
  induction d as [|[a w] d IH]; simpl; [set_solver|].
  case_bool_decide; simpl; set_solver.
Qed.

Lemma dict_wf_nil : dict_wf [].
Proof. apply NoDup_nil_2. Qed.

Lemma dict_wf_dset k v d : dict_wf d -> dict_wf (dset k v d).
Proof.
  unfold dict_wf. rewrite dkeys_dset. unfold dmem. intros Hwf.
  destruct (dget k d) eqn:E; [done|].
  apply NoDup_app; repeat split; [done | | apply NoDup_singleton].
  intros x Hx Hk. apply list_elem_of_singleton in Hk as ->.
  by apply dget_None_keys in E.
Qed.

Lemma dict_wf_ddel k d : dict_wf d -> dict_wf (ddel k d).
Proof.
  unfold dict_wf. induction d as [|[a w] d IH]; simpl; [done|].
  rewrite NoDup_cons. intros [Ha Hd]. case_bool_decide; simpl; [auto|].
  apply NoDup_cons. split; [|auto].
  intros Hin. apply dkeys_ddel_subseteq in Hin. naive_solver.
Qed.

Lemma dict_wf_dupdate e d : dict_wf d -> dict_wf (dupdate d e).
Proof.
  unfold dupdate. revert d. induction e as [|[a w] e IH]; simpl; [done|].
  intros d Hd. apply IH. by apply dict_wf_dset.
Qed.

Lemma dkeys_dfilter P x d : x ∈ dkeys (dfilter P d) -> x ∈ dkeys d.
Proof.
  induction d as [|[a w] d IH]; simpl; [done|].
  destruct (P a w); simpl; set_solver.
Qed.

Lemma dict_wf_dfilter P d : dict_wf d -> dict_wf (dfilter P d).
Proof.
  unfold dict_wf. induction d as [|[a w] d IH]; simpl; [done|].
  rewrite NoDup_cons. intros [Ha Hd]. destruct (P a w); simpl; [|auto].
  apply NoDup_cons. split; [|auto]. intros Hin. by apply dkeys_dfilter in Hin.
Qed.

Lemma dget_dfilter P k d : dict_wf d ->
  dget k (dfilter P d) =
  match dget k d with Some v => if P k v then Some v else None | None => None end.
Proof.
  unfold dict_wf. induction d as [|[a w] d IH]; simpl; [done|].
  rewrite NoDup_cons. intros [Ha Hd]. specialize (IH Hd).
  case_bool_decide; subst.
  - destruct (P a w) eqn:E; simpl; [by rewrite bool_decide_true|].
    rewrite IH. destruct (dget a d) eqn:E'; [|done].
    by apply dget_Some_keys in E'.
  - destruct (P a w); simpl; [|done]. by rewrite bool_decide_false.
Qed.

Lemma dget_dupdate k d e : dict_wf e ->
  dget k (dupdate d e) = match dget k e with Some v => Some v | None => dget k d end.
Proof.
  unfold dupdate, dict_wf. revert d. induction e as [|[a w] e IH]; simpl; [done|].
  intros d. rewrite NoDup_cons. intros [Ha He]. rewrite IH by done.
  rewrite dget_dset. case_bool_decide; subst; [|done].
  destruct (dget a e) eqn:E'; [by apply dget_Some_keys in E' | done].
Qed.

(** A dictionary read only through [dget] of distinct keys is determined by
    its lookups: membership of a pair is a lookup. *)
Lemma elem_of_dget k v d : dict_wf d -> (k, v) ∈ d <-> dget k d = Some v.
Proof.
  unfold dict_wf. induction d as [|[a w] d IH]; simpl; [set_solver|].
  rewrite NoDup_cons. intros [Ha Hd]. rewrite list.elem_of_cons, IH by done.
  case_bool_decide; subst.
  - split; [|naive_solver]. intros [[= ->]|Hg]; [done|].
    by apply dget_Some_keys in Hg.
  - naive_solver.
Qed.

End dict.
Arguments dict : clear implicits.

#[export] Hint Resolve dict_wf_nil dict_wf_dset dict_wf_ddel dict_wf_dupdate
  dict_wf_dfilter : py.
