(* ===== verification/PyStr.v ===== *)
(** Python text.  A [str] is a list of characters; the model covers the first
    256 code points (Latin-1), one [ascii] per code point, and the string
    methods the code calls are written out exactly on that range:
    [strip], [lower], [isalnum], [split], [join], [replace], slicing,
    [startswith], [int(s)], and [posixpath.normpath]. *)
From S2P Require Import Prelude.

Definition code (c : ascii) : N := N_of_ascii c.

(** [str.isspace] below U+0100. *)
Definition is_space (c : ascii) : bool :=
  let n := code c in
  ((9 <=? n) && (n <=? 13) || (28 <=? n) && (n <=? 32) || (n =? 133) || (n =? 160))%N.

Definition is_digit (c : ascii) : bool := ((48 <=? code c) && (code c <=? 57))%N.

(** [str.isalnum] below U+0100: letters, decimal digits, the superscript
    digits, the fractions and the three lower-case ordinals and micro sign. *)
Definition is_alnum (c : ascii) : bool :=
  let n := code c in
  (is_digit c || (65 <=? n) && (n <=? 90) || (97 <=? n) && (n <=? 122)
   || (n =? 170) || (n =? 178) || (n =? 179) || (n =? 181) || (n =? 185)
   || (n =? 186) || (188 <=? n) && (n <=? 190)
   || (192 <=? n) && negb (n =? 215) && negb (n =? 247))%N.

Definition lower_char (c : ascii) : ascii :=
  let n := code c in
  if ((65 <=? n) && (n <=? 90) || (192 <=? n) && (n <=? 222) && negb (n =? 215))%N
  then ascii_of_N (n + 32) else c.

Fixpoint str_map (f : ascii -> ascii) (s : string) : string :=
  match s with EmptyString => "" | String c r => String (f c) (str_map f r) end.

Definition lower (s : string) : string := str_map lower_char s.

Fixpoint lstrip_by (P : ascii -> bool) (s : string) : string :=
  match s with
  | EmptyString => ""
  | String c r => if P c then lstrip_by P r else s
  end.

Fixpoint rstrip_by (P : ascii -> bool) (s : string) : string :=
  match s with
  | EmptyString => ""
  | String c r =>
      match rstrip_by P r with
      | EmptyString => if P c then "" else String c ""
      | r' => String c r'
      end
  end.

Definition strip_by (P : ascii -> bool) (s : string) : string :=
  rstrip_by P (lstrip_by P s).

(** [s.strip()] *)
Definition strip (s : string) : string := strip_by is_space s.

(** [s.strip("_")] for a one-character argument. *)
Definition strip_char (x : ascii) (s : string) : string :=
  strip_by (fun c => bool_decide (c = x)) s.

Fixpoint str_forall (P : ascii -> bool) (s : string) : bool :=
  match s with EmptyString => true | String c r => P c && str_forall P r end.

Fixpoint split_go (sep : ascii) (acc : string) (s : string) : list string :=
  match s with
  | EmptyString => [acc]
  | String c r =>
      if bool_decide (c = sep) then acc :: split_go sep "" r
      else split_go sep (acc +:+ String c "") r
  end.

(** [s.split(sep)] for a one-character separator. *)
Definition split (sep : ascii) (s : string) : list string := split_go sep "" s.

(** [sep.join(l)] *)
Definition join (sep : string) (l : list string) : string := String.concat sep l.

Fixpoint replace_go (old new : string) (skip : nat) (s : string) : string :=
  match s with
  | EmptyString => ""
  | String c r =>
      match skip with
      | S k => replace_go old new k r
      | O => if String.prefix old s
             then new +:+ replace_go old new (Nat.pred (String.length old)) r
             else String c (replace_go old new O r)
      end
  end.

(** [s.replace(old, new)] for a non-empty [old]. *)
Definition replace (old new s : string) : string := replace_go old new O s.

(** [s[:n]] *)
Definition take_str (n : nat) (s : string) : string := String.substring 0 n s.

Definition starts_with (p s : string) : bool := String.prefix p s.

(** [x or y] on strings. *)
Definition str_or (x y : string) : string := if bool_decide (x = "") then y else x.

(** [x or None]. *)
Definition str_opt (x : string) : option string :=
  if bool_decide (x = "") then None else Some x.

(** ** [int(s)]: surrounding whitespace, an optional sign, decimal digits with
    single underscores between them; at most 4300 digits. *)
Definition digit_val (c : ascii) : Z := Z.of_N (code c) - 48.

Fixpoint int_digits (s : string) (acc : Z) (count : Z) (after_digit : bool) : option (Z * Z) :=
  match s with
  | EmptyString => if after_digit then Some (acc, count) else None
  | String c r =>
      if is_digit c then int_digits r (10 * acc + digit_val c) (count + 1) true
      else if bool_decide (c = "_"%char) && after_digit then
             match r with
             | EmptyString => None
             | String c' _ => if is_digit c' then int_digits r acc count false else None
             end
      else None
  end.

Definition parse_int (s : string) : option Z :=
  let digits neg r :=
    match int_digits r 0 0 false with
    | Some (v, n) => if 4300 <? n then None else Some (if neg : bool then - v else v)
    | None => None
    end in
  match strip s with
  | String "+"%char r => digits false r
  | String "-"%char r => digits true r
  | r => digits false r
  end.

(** ** [posixpath.normpath] *)
Fixpoint norm_comps (slashes : nat) (comps acc : list string) : list string :=
  match comps with
  | [] => rev acc
  | c :: r =>
      if bool_decide (c = "") || bool_decide (c = ".") then norm_comps slashes r acc
      else if negb (bool_decide (c = ".."))
              || (bool_decide (slashes = O) && bool_decide (acc = []))
              || (match acc with a :: _ => bool_decide (a = "..") | [] => false end)
           then norm_comps slashes r (c :: acc)
           else norm_comps slashes r (tail acc)
  end.

Definition normpath (path : string) : string :=
  if bool_decide (path = "") then "." else
  let slashes := if starts_with "/" path
                 then if starts_with "//" path && negb (starts_with "///" path)
                      then 2%nat else 1%nat
                 else O in
  let body := join "/" (norm_comps slashes (split "/"%char path) []) in
  str_or (join "" (replicate slashes "/") +:+ body) ".".

(** ** Lemmas *)

Lemma str_map_length f s : String.length (str_map f s) = String.length s.
Proof. induction s; simpl; congruence. Qed.

Lemma lstrip_by_head P s c r : lstrip_by P s = String c r -> P c = false.
Proof.
  induction s as [|x s IH]; simpl; [done|].
  destruct (P x) eqn:E; [done|]. by intros [= <- <-].
Qed.

Lemma lstrip_by_id P s : (forall c r, s = String c r -> P c = false) -> lstrip_by P s = s.
Proof. destruct s as [|c r]; simpl; [done|]. intros H. by rewrite (H c r). Qed.

Lemma lstrip_by_idem P s : lstrip_by P (lstrip_by P s) = lstrip_by P s.
Proof. apply lstrip_by_id. intros c r. apply lstrip_by_head. Qed.

Lemma rstrip_by_idem P s : rstrip_by P (rstrip_by P s) = rstrip_by P s.
Proof.
  induction s as [|c s IH]; simpl; [done|].
  destruct (rstrip_by P s) as [|c' s'] eqn:E.
  - destruct (P c) eqn:Hc; simpl; [done|]. by rewrite Hc.
  - rewrite <- IH at 2. simpl in *. by rewrite IH.
Qed.

Lemma rstrip_by_head P c s :
  P c = false -> exists r, rstrip_by P (String c s) = String c r.
Proof.
  intros Hc. simpl. destruct (rstrip_by P s); [|eauto]. rewrite Hc. eauto.
Qed.

Lemma strip_by_idem P s : strip_by P (strip_by P s) = strip_by P s.
Proof.
  unfold strip_by. rewrite (lstrip_by_id P (rstrip_by P (lstrip_by P s))).
  { apply rstrip_by_idem. }
  destruct (lstrip_by P s) as [|c r] eqn:E; [done|].
  apply lstrip_by_head in E. destruct (rstrip_by_head P c r E) as [r' ->].
  by intros ?? [= -> _].
Qed.

Lemma strip_idem s : strip (strip s) = strip s.
Proof. apply strip_by_idem. Qed.

Lemma str_opt_Some x y : str_opt x = Some y -> x = y /\ y ≠ "".
Proof. unfold str_opt. case_bool_decide; naive_solver. Qed.

Lemma str_or_neq x y : y ≠ "" -> str_or x y ≠ "".
Proof. unfold str_or. case_bool_decide; naive_solver. Qed.

Lemma str_forall_app P s t : str_forall P (s +:+ t) = str_forall P s && str_forall P t.
Proof.
  induction s as [|c s IH]; [done|].
  change (P c && str_forall P (s +:+ t) = P c && str_forall P s && str_forall P t).
  by rewrite IH, andb_assoc.
Qed.

Lemma str_forall_impl P Q s :
  (forall c, P c = true -> Q c = true) -> str_forall P s = true -> str_forall Q s = true.
Proof.
  intros HPQ. induction s as [|c s IH]; simpl; [done|]. intros Hs. bool_prop.
  apply andb_true_iff. auto.
Qed.

Lemma str_forall_map P f s :
  (forall c, P (f c) = true) -> str_forall P (str_map f s) = true.
Proof. intros Hf. induction s as [|c s IH]; simpl; [done|]. by rewrite Hf, IH. Qed.

Lemma str_forall_lstrip P Q s : str_forall P s = true -> str_forall P (lstrip_by Q s) = true.
Proof.
  induction s as [|c s IH]; simpl; [done|]. intros Hs. destruct (Q c); [|done].
  apply andb_true_iff in Hs as [_ Hs]. auto.
Qed.

Lemma str_forall_rstrip P Q s : str_forall P s = true -> str_forall P (rstrip_by Q s) = true.
Proof.
  induction s as [|c s IH]; simpl; [done|]. intros [Hc Hs]%andb_true_iff.
  specialize (IH Hs). destruct (rstrip_by Q s) as [|c' r].
  - destruct (Q c); [done|]. simpl. by rewrite Hc.
  - cbn in *. by rewrite Hc, IH.
Qed.

Lemma str_forall_strip_by P Q s : str_forall P s = true -> str_forall P (strip_by Q s) = true.
Proof. intros Hs. by apply str_forall_rstrip, str_forall_lstrip. Qed.

Lemma str_forall_take P n s : str_forall P s = true -> str_forall P (take_str n s) = true.
Proof.
  unfold take_str. revert n. induction s as [|c s IH]; intros [|n]; simpl; [done..|].
  intros [Hc Hs]%andb_true_iff. rewrite Hc. by apply IH.
Qed.

Lemma take_str_length n s : (String.length (take_str n s) <= n)%nat.
Proof.
  unfold take_str. revert n. induction s as [|c s IH]; intros [|n]; simpl; [lia..|].
  specialize (IH n). lia.
Qed.

(** A text without white space is its own [strip]. *)
Lemma strip_no_space s : str_forall (fun c => negb (is_space c)) s = true -> strip s = s.
Proof.
  intros Hs. unfold strip, strip_by. rewrite lstrip_by_id.
  - induction s as [|c s IH]; simpl in *; [done|]. apply andb_true_iff in Hs as [Hc Hs].
    rewrite IH by done. apply negb_true_iff in Hc. destruct s; [by rewrite Hc | done].
  - intros c r ->. simpl in Hs. apply andb_true_iff in Hs as [Hc _]. by apply negb_true_iff.
Qed.

(** Reading a text up to the first separator. *)
Lemma sep_app_inj P x a a' b b' :
  P x = false -> str_forall P a = true -> str_forall P a' = true ->
  a +:+ String x b = a' +:+ String x b' -> a = a' /\ b = b'.
Proof.
  intros Hx. revert a'. induction a as [|c a IH]; intros [|c' a'] Ha Ha'; cbn in *;
    intros E; simplify_eq; bool_prop; try congruence; [done|].
  destruct (IH a') as [-> ->]; try done; by apply andb_true_iff.
Qed.

#[export] Hint Rewrite strip_idem : py.
#[export] Hint Resolve str_or_neq : py.

Example normpath_ex :
  normpath "/data//profiles/./a/../b/" = "/data/profiles/b"
  /\ normpath "//x/../../y" = "//y" /\ normpath "/.." = "/".
Proof. by vm_compute. Qed.

Example parse_int_ex :
  parse_int " 1_024 " = Some 1024 /\ parse_int "-7" = Some (-7)
  /\ parse_int "1__0" = None /\ parse_int "" = None /\ parse_int "12.5" = None
  /\ parse_int "_1" = None /\ parse_int "+5" = Some 5 /\ parse_int "1_" = None.
Proof. by vm_compute. Qed.

Example text_ex :
  strip "  A b " = "A b" /\ lower "Browser" = "browser"
  /\ split ","%char "a,,b" = ["a"; ""; "b"]
  /\ replace "{x}" "12" "p/{x}/{x}" = "p/12/12".
Proof. by vm_compute. Qed.
