(* ===== verification/PyVal.v ===== *)
(** Python values as they travel through task contexts, playbook metadata and
    database payloads: the JSON types.  A float is carried with its exact
    binary64 value (a dyadic rational, an infinity or a NaN) and its [repr]
    text.  Truthiness, [str()], [repr()], [int()], [==] and [isinstance]
    follow the language reference. *)
From S2P Require Import Prelude PyDict PyStr.

Inductive flval : Type :=
| FFin (m e : Z)      (** [m * 2^e] *)
| FInf (neg : bool)
| FNaN.

Record pyfloat : Type := { fl_val : flval; fl_repr : string }.

Inductive pyval : Type :=
| PNone
| PBool (b : bool)
| PInt (z : Z)
| PFloat (f : pyfloat)
| PStr (s : string)
| PList (l : list pyval)
| PDict (d : list (string * pyval)).

Definition truthy (v : pyval) : bool :=
  match v with
  | PNone => false
  | PBool b => b
  | PInt z => negb (z =? 0)
  | PFloat f => match fl_val f with FFin m _ => negb (m =? 0) | _ => true end
  | PStr s => negb (bool_decide (s = ""))
  | PList l => match l with [] => false | _ => true end
  | PDict d => match d with [] => false | _ => true end
  end.

(** [x or y] *)
Definition py_or (x y : pyval) : pyval := if truthy x then x else y.

(** [d.get(k)] and [d.get(k, default)] *)
Definition pget (k : string) (d : dict pyval) : pyval := default PNone (dget k d).
Definition pget_or (k : string) (dflt : pyval) (d : dict pyval) : pyval :=
  default dflt (dget k d).
(** [d[k]] *)
Definition pitem (k : string) (d : dict pyval) : res pyval :=
  match dget k d with Some v => Ok v | None => Raise (KeyError k) end.

Definition is_str (v : pyval) : bool := match v with PStr _ => true | _ => false end.
Definition is_dict (v : pyval) : bool := match v with PDict _ => true | _ => false end.
Definition is_list (v : pyval) : bool := match v with PList _ => true | _ => false end.
Definition is_none (v : pyval) : bool := match v with PNone => true | _ => false end.

(** [value if isinstance(value, dict) else {}] *)
Definition dict_or_empty (v : pyval) : dict pyval :=
  match v with PDict d => d | _ => [] end.

(** ** [repr] and [str] *)
Definition hex_digit (n : N) : ascii :=
  ascii_of_N (if (n <? 10)%N then 48 + n else 87 + n).
Definition hex_byte (n : N) : string :=
  String (hex_digit (n / 16)) (String (hex_digit (n mod 16)) "").

Definition str_contains (x : ascii) (s : string) : bool :=
  negb (str_forall (fun c => negb (bool_decide (c = x))) s).

Definition sq : ascii := ascii_of_N 39.
Definition dq : ascii := ascii_of_N 34.
Definition bslash : ascii := ascii_of_N 92.

Definition repr_char (quote c : ascii) : string :=
  let n := code c in
  if bool_decide (c = quote) || bool_decide (c = bslash) then String bslash (String c "")
  else if (n =? 9)%N then String bslash "t"
  else if (n =? 10)%N then String bslash "n"
  else if (n =? 13)%N then String bslash "r"
  else if ((n <? 32) || (127 <=? n) && (n <=? 160) || (n =? 173))%N
       then String bslash ("x" +:+ hex_byte n)
  else String c "".

Fixpoint repr_body (quote : ascii) (s : string) : string :=
  match s with
  | EmptyString => ""
  | String c r => repr_char quote c +:+ repr_body quote r
  end.

Definition repr_str (s : string) : string :=
  let quote := if str_contains sq s && negb (str_contains dq s) then dq else sq in
  String quote (repr_body quote s +:+ String quote "").

Definition str_int (z : Z) : string := pretty z.

Fixpoint py_repr (v : pyval) : string :=
  match v with
  | PNone => "None"
  | PBool b => if b then "True" else "False"
  | PInt z => str_int z
  | PFloat f => fl_repr f
  | PStr s => repr_str s
  | PList l => "[" +:+ join ", " (map py_repr l) +:+ "]"
  | PDict d =>
      "{" +:+ join ", " (map (fun kv => repr_str kv.1 +:+ ": " +:+ py_repr kv.2) d) +:+ "}"
  end.

Definition py_str (v : pyval) : string :=
  match v with PStr s => s | _ => py_repr v end.

(** ** [int(x)] *)
Definition dy_trunc (m e : Z) : Z :=
  if 0 <=? e then m * 2 ^ e else Z.quot m (2 ^ (- e)).

Definition py_int (v : pyval) : res Z :=
  match v with
  | PBool b => Ok (if b then 1 else 0)
  | PInt z => Ok z
  | PFloat f =>
      match fl_val f with
      | FFin m e => Ok (dy_trunc m e)
      | FInf _ => Raise (OverflowError "cannot convert float infinity to integer")
      | FNaN => Raise (ValueError "cannot convert float NaN to integer")
      end
  | PStr s =>
      match parse_int s with
      | Some z => Ok z
      | None => Raise (ValueError "invalid literal for int() with base 10")
      end
  | PNone | PList _ | PDict _ =>
      Raise (TypeError "int() argument must be a string or a real number")
  end.

(** ** [==] *)
Definition num_of (v : pyval) : option flval :=
  match v with
  | PBool b => Some (FFin (if b then 1 else 0) 0)
  | PInt z => Some (FFin z 0)
  | PFloat f => Some (fl_val f)
  | _ => None
  end.

Definition flval_eq (x y : flval) : bool :=
  match x, y with
  | FFin m e, FFin m' e' =>
      let lo := Z.min e e' in m * 2 ^ (e - lo) =? m' * 2 ^ (e' - lo)
  | FInf a, FInf b => Bool.eqb a b
  | _, _ => false
  end.

Fixpoint py_eq (x y : pyval) {struct x} : bool :=
  match x, y with
  | PNone, PNone => true
  | PStr a, PStr b => bool_decide (a = b)
  | PList a, PList b =>
      (fix go (a b : list pyval) {struct a} : bool :=
         match a, b with
         | [], [] => true
         | u :: a', w :: b' => py_eq u w && go a' b'
         | _, _ => false
         end) a b
  | PDict a, PDict b =>
      Nat.eqb (length a) (length b) &&
      (fix go (a : list (string * pyval)) : bool :=
         match a with
         | [] => true
         | (k, u) :: a' =>
             match dget k b with Some w => py_eq u w && go a' | None => false end
         end) a
  | _, _ =>
      match num_of x, num_of y with
      | Some u, Some w => flval_eq u w
      | _, _ => false
      end
  end.

Definition py_opt (o : option string) : pyval :=
  match o with Some s => PStr s | None => PNone end.
Definition py_optZ (o : option Z) : pyval :=
  match o with Some z => PInt z | None => PNone end.

(** ** Lemmas *)

Section pyval_ind.
Variable P : pyval -> Prop.
Hypothesis HNone : P PNone.
Hypothesis HBool : forall b, P (PBool b).
Hypothesis HInt : forall z, P (PInt z).
Hypothesis HFloat : forall f, P (PFloat f).
Hypothesis HStr : forall s, P (PStr s).
Hypothesis HList : forall l, Forall P l -> P (PList l).
Hypothesis HDict : forall d, Forall (fun kv => P kv.2) d -> P (PDict d).

(** Induction through the lists and dictionaries nested in a value. *)
Fixpoint pyval_nested_ind (v : pyval) : P v :=
  match v with
  | PNone => HNone
  | PBool b => HBool b
  | PInt z => HInt z
  | PFloat f => HFloat f
  | PStr s => HStr s
  | PList l =>
      HList l ((fix go l : Forall P l :=
        match l with
        | [] => List.Forall_nil _
        | x :: r => List.Forall_cons _ x r (pyval_nested_ind x) (go r)
        end) l)
  | PDict d =>
      HDict d ((fix go d : Forall (fun kv => P kv.2) d :=
        match d with
        | [] => List.Forall_nil _
        | kv :: r => List.Forall_cons _ kv r (pyval_nested_ind kv.2) (go r)
        end) d)
  end.
End pyval_ind.

(** Values whose dictionaries have distinct keys and which hold no NaN. *)
Inductive regular : pyval -> Prop :=
| reg_none : regular PNone
| reg_bool b : regular (PBool b)
| reg_int z : regular (PInt z)
| reg_float f : fl_val f ≠ FNaN -> regular (PFloat f)
| reg_str s : regular (PStr s)
| reg_list l : Forall regular l -> regular (PList l)
| reg_dict d : dict_wf d -> Forall (fun kv => regular kv.2) d -> regular (PDict d).

Lemma flval_eq_refl x : x ≠ FNaN -> flval_eq x x = true.
Proof.
  destruct x as [m e|b|]; simpl; [|by destruct b | done].
  intros _. by rewrite Z.eqb_refl.
Qed.

Lemma py_eq_refl v : regular v -> py_eq v v = true.
Proof.
  induction v as [|b|z|f|s|l IH|d IH] using pyval_nested_ind; intros Hr; inv Hr; simpl.
  - done.
  - by destruct b.
  - by rewrite Z.eqb_refl.
  - by apply flval_eq_refl.
  - by rewrite bool_decide_true.
  - induction l as [|x l IHl]; [done|].
    rewrite Forall_cons in IH, H0. destruct IH as [IHx IH], H0 as [Hx Hl].
    rewrite IHx by done. by apply IHl.
  - rewrite Nat.eqb_refl. simpl.
    enough (Hg : forall a, Forall (fun kv => py_eq kv.2 kv.2 = true) a ->
      (forall k v, (k, v) ∈ a -> dget k d = Some v) ->
      (fix go (a : list (string * pyval)) : bool :=
         match a with
         | [] => true
         | (k, u) :: a' =>
             match dget k d with Some w => py_eq u w && go a' | None => false end
         end) a = true).
    { apply Hg.
      - clear -IH H1. induction d as [|kv d IHd]; constructor;
          rewrite Forall_cons in IH, H1; naive_solver.
      - intros k v Hin. by apply elem_of_dget. }
    intros a Ha Hsub. induction a as [|[k u] a IHa]; [done|].
    rewrite Forall_cons in Ha. destruct Ha as [Hu Ha]. simpl in Hu.
    rewrite (Hsub k u) by left. rewrite Hu. simpl.
    apply IHa; [done|]. intros k' v' Hin. apply Hsub. by right.
Qed.

Example py_repr_ex :
  py_repr (PDict [("a", PList [PInt (-3); PBool true]); ("b", PStr "it's")])
  = "{'a': [-3, True], 'b': " +:+ String dq ("it's" +:+ String dq "}").
Proof. by vm_compute. Qed.

Example py_eq_ex :
  py_eq (PDict [("a", PInt 1); ("b", PNone)]) (PDict [("b", PNone); ("a", PBool true)]) = true
  /\ py_eq (PInt 3) (PFloat {| fl_val := FFin 6 (-1); fl_repr := "3.0" |}) = true
  /\ py_eq (PStr "1") (PInt 1) = false.
Proof. by vm_compute. Qed.

(** ** Iteration, membership and sets *)

(** [for item in v] *)
Definition py_iter (v : pyval) : res (list pyval) :=
  match v with
  | PList l => Ok l
  | PDict d => Ok (map PStr (dkeys d))
  | PStr s => Ok (map (fun c => PStr (String c "")) (String.list_ascii_of_string s))
  | _ => Raise (TypeError "object is not iterable")
  end.

(** [x in v] *)
Definition py_in (x v : pyval) : res bool :=
  match v with
  | PList l => Ok (existsb (py_eq x) l)
  | PDict d => match x with
               | PStr k => Ok (dmem k d)
               | PList _ | PDict _ => Raise (TypeError "unhashable type")
               | _ => Ok false
               end
  | PStr s => match x with
              | PStr k => Ok (match String.index 0 k s with Some _ => true | None => false end)
              | _ => Raise (TypeError "'in <string>' requires string as left operand")
              end
  | _ => Raise (TypeError "argument is not iterable")
  end.

Definition hashable (v : pyval) : bool := match v with PList _ | PDict _ => false | _ => true end.

(** [set(l)], one value for the equal ones. *)
Definition py_set (l : list pyval) : res (list pyval) :=
  if forallb hashable l
  then Ok (foldr (fun x acc => if existsb (py_eq x) acc then acc else x :: acc) [] l)
  else Raise (TypeError "unhashable type").

(** [len(l) == len(set(l))] *)
Definition py_distinct (l : list pyval) : res bool :=
  s ← py_set l; Ok (Nat.eqb (length l) (length s)).

Lemma py_eq_text s v : py_eq (PStr s) v = true -> v = PStr s.
Proof. destruct v; simpl; try done. intros E. by bool_prop; subst. Qed.
Lemma py_eq_text_r s v : py_eq v (PStr s) = true -> v = PStr s.
Proof. destruct v; simpl; try done. intros E. by bool_prop; subst. Qed.

(** A set of texts has the members of their list. *)
Lemma py_set_texts key l : exists s, py_set (map PStr l) = Ok s
  /\ existsb (py_eq (PStr key)) s = bool_decide (key ∈ l).
Proof.
  unfold py_set. eexists. split.
  { assert (forallb hashable (map PStr l) = true) as -> by (induction l; done). reflexivity. }
  transitivity (existsb (py_eq (PStr key)) (map PStr l)).
  - induction l as [|x l IH]; [done|]. cbn [map foldr existsb]. rewrite <- IH. destruct (existsb (py_eq (PStr x)) _) eqn:Ex; [|done].
    cbn [existsb] in *. simpl (py_eq _ _). destruct (bool_decide (key = x)) eqn:Ek; [|done]. bool_prop. by subst.
  - apply eq_bool_prop_intro. rewrite bool_decide_spec. induction l as [|x l IH]; simpl.
    + split; [done|by intros Hin; inversion Hin].
    + rewrite list.elem_of_cons, orb_True, bool_decide_spec. naive_solver.
Qed.
