(* ===== verification/PyJson.v ===== *)
(** The two encoders of the Python standard library the code fingerprints
    with: [json.dumps(..., sort_keys=True, separators=(",", ":"))] and
    [hashlib.sha256(...).hexdigest()], written out and evaluated on test
    vectors. *)
From S2P Require Import Prelude PyDict PyStr PyVal.

(** * UTF-8 of Latin-1 text *)
Fixpoint utf8 (s : string) : list N :=
  match s with
  | EmptyString => []
  | String c r =>
      let n := code c in
      if (n <? 128)%N then n :: utf8 r
      else (192 + n / 64)%N :: (128 + n mod 64)%N :: utf8 r
  end.

(** * [json.dumps] *)
Definition json_char (ensure_ascii : bool) (c : ascii) : string :=
  let n := code c in
  if bool_decide (c = dq) then String bslash (String dq "")
  else if bool_decide (c = bslash) then String bslash (String bslash "")
  else if (n =? 8)%N then String bslash "b"
  else if (n =? 9)%N then String bslash "t"
  else if (n =? 10)%N then String bslash "n"
  else if (n =? 12)%N then String bslash "f"
  else if (n =? 13)%N then String bslash "r"
  else if ((n <? 32) || ensure_ascii && (126 <? n))%N
       then String bslash ("u00" +:+ hex_byte n)
  else String c "".

Fixpoint json_chars (ensure_ascii : bool) (s : string) : string :=
  match s with
  | EmptyString => ""
  | String c r => json_char ensure_ascii c +:+ json_chars ensure_ascii r
  end.

Definition json_str (ensure_ascii : bool) (s : string) : string :=
  String dq (json_chars ensure_ascii s +:+ String dq "").

Section insert_key.
Context {V : Type}.

(** [sort_keys=True]: items in code-point order of their keys. *)
Fixpoint insert_key (kv : string * V) (d : dict V) : dict V :=
  match d with
  | [] => [kv]
  | kv' :: r => if String.leb kv.1 kv'.1 then kv :: d else kv' :: insert_key kv r
  end.

Definition sort_keys (d : dict V) : dict V := foldr insert_key [] d.
End insert_key.

Definition json_float (allow_nan : bool) (f : pyfloat) : res string :=
  match fl_val f with
  | FFin _ _ => Ok (fl_repr f)
  | FInf neg =>
      if allow_nan then Ok (if neg : bool then "-Infinity" else "Infinity")
      else Raise (ValueError "Out of range float values are not JSON compliant")
  | FNaN =>
      if allow_nan then Ok "NaN"
      else Raise (ValueError "Out of range float values are not JSON compliant")
  end.

Fixpoint seq_res {A} (l : list (res A)) : res (list A) :=
  match l with
  | [] => Ok []
  | c :: r => x ← c; xs ← seq_res r; Ok (x :: xs)
  end.

Fixpoint json_dumps (ensure_ascii allow_nan : bool) (v : pyval) : res string :=
  match v with
  | PNone => Ok "null"
  | PBool b => Ok (if b then "true" else "false")
  | PInt z => Ok (str_int z)
  | PFloat f => json_float allow_nan f
  | PStr s => Ok (json_str ensure_ascii s)
  | PList l =>
      items ← seq_res (map (json_dumps ensure_ascii allow_nan) l);
      Ok ("[" +:+ join "," items +:+ "]")
  | PDict d =>
      items ← seq_res (map (fun kv => kv.2)
        (sort_keys (map (fun kv => (kv.1,
          text ← json_dumps ensure_ascii allow_nan kv.2;
          Ok (json_str ensure_ascii kv.1 +:+ ":" +:+ text))) d)));
      Ok ("{" +:+ join "," items +:+ "}")
  end.

(** [json.dumps(value, ensure_ascii=False)]: the default separators, the keys in
    the order of the dictionary, [NaN] and the infinities by name. *)
Definition json_float_text (f : pyfloat) : string :=
  match fl_val f with
  | FFin _ _ => fl_repr f
  | FInf neg => if neg : bool then "-Infinity" else "Infinity"
  | FNaN => "NaN"
  end.

Fixpoint json_dumps_default (v : pyval) : string :=
  match v with
  | PNone => "null"
  | PBool b => if b then "true" else "false"
  | PInt z => str_int z
  | PFloat f => json_float_text f
  | PStr s => json_str false s
  | PList l => "[" +:+ join ", " (map json_dumps_default l) +:+ "]"
  | PDict d =>
      "{" +:+ join ", "
        (map (fun kv => json_str false kv.1 +:+ ": " +:+ json_dumps_default kv.2) d) +:+ "}"
  end.

(** * SHA-256 (FIPS 180-4) *)
Module Sha256.

Definition mask : N := 0xffffffff.
Definition w32 (n : N) : N := N.land n mask.
Definition rotr (k x : N) : N := N.lor (N.shiftr x k) (w32 (N.shiftl x (32 - k))).
Definition ch (x y z : N) : N := N.lxor (N.land x y) (N.land (N.lxor x mask) z).
Definition maj (x y z : N) : N :=
  N.lxor (N.lxor (N.land x y) (N.land x z)) (N.land y z).
Definition bsig0 (x : N) : N := N.lxor (N.lxor (rotr 2 x) (rotr 13 x)) (rotr 22 x).
Definition bsig1 (x : N) : N := N.lxor (N.lxor (rotr 6 x) (rotr 11 x)) (rotr 25 x).
Definition ssig0 (x : N) : N := N.lxor (N.lxor (rotr 7 x) (rotr 18 x)) (N.shiftr x 3).
Definition ssig1 (x : N) : N := N.lxor (N.lxor (rotr 17 x) (rotr 19 x)) (N.shiftr x 10).

(** The constants are the first 32 bits of the fractional parts of the cube
    roots and square roots of the first primes. *)
Definition primes : list N :=
  Eval vm_compute in
    filter (fun n => forallb (fun d => negb (n mod d =? 0)%N)
                       (map N.of_nat (List.seq 2 (N.to_nat n - 2))))
           (map N.of_nat (List.seq 2 310)).

(** The largest [r] with [r ^ 3 <= n], bit by bit. *)
Fixpoint icbrt (bit : nat) (r n : N) : N :=
  let r' := (r + N.shiftl 1 (N.of_nat bit))%N in
  let r := if (r' * r' * r' <=? n)%N then r' else r in
  match bit with O => r | S k => icbrt k r n end.

Definition K : list N :=
  Eval vm_compute in map (fun p => w32 (icbrt 40 0 (N.shiftl p 96))) (firstn 64 primes).

Definition H0 : list N :=
  Eval vm_compute in map (fun p => w32 (N.sqrt (N.shiftl p 64))) (firstn 8 primes).

Definition at_ (l : list N) (i : nat) : N := nth i l 0%N.

Fixpoint be_bytes (n : nat) (x : N) : list N :=
  match n with
  | O => []
  | S k => (N.land (N.shiftr x (8 * N.of_nat k)) 255) :: be_bytes k x
  end.

Definition pad (msg : list N) : list N :=
  let n := length msg in
  msg ++ [128%N] ++ repeat 0%N ((119 - n mod 64) mod 64)%nat
      ++ be_bytes 8 (8 * N.of_nat n).

Fixpoint words (bs : list N) : list N :=
  match bs with
  | a :: b :: c :: d :: r =>
      (N.shiftl a 24 + N.shiftl b 16 + N.shiftl c 8 + d)%N :: words r
  | _ => []
  end.

(** The schedule, newest word first. *)
Fixpoint schedule (n : nat) (ws : list N) : list N :=
  match n with
  | O => ws
  | S k =>
      schedule k (w32 (ssig1 (at_ ws 1) + at_ ws 6 + ssig0 (at_ ws 14) + at_ ws 15) :: ws)%N
  end.

Definition round (st : list N) (kw : N * N) : list N :=
  match st with
  | [a; b; c; d; e; f; g; h] =>
      let t1 := (h + bsig1 e + ch e f g + kw.1 + kw.2)%N in
      let t2 := (bsig0 a + maj a b c)%N in
      [w32 (t1 + t2); a; b; c; w32 (d + t1); e; f; g]
  | _ => st
  end.

Definition compress (h block : list N) : list N :=
  let ws := rev (schedule 48 (rev block)) in
  zip_with (fun x y => w32 (x + y)) h (foldl round h (zip K ws)).

Fixpoint blocks (fuel : nat) (h ws : list N) : list N :=
  match fuel, ws with
  | S k, _ :: _ => blocks k (compress h (firstn 16 ws)) (skipn 16 ws)
  | _, _ => h
  end.

Definition digest (msg : list N) : list N :=
  let ws := words (pad msg) in blocks (length ws) H0 ws.

Fixpoint hex_bytes (l : list N) : string :=
  match l with [] => "" | b :: r => hex_byte b +:+ hex_bytes r end.

(** [hashlib.sha256(msg).hexdigest()] *)
Definition hexdigest (msg : list N) : string :=
  hex_bytes (concat (map (be_bytes 4) (digest msg))).

End Sha256.

(** A digest is made of lower-case hexadecimal digits. *)
Definition is_hex (c : ascii) : bool :=
  is_digit c || ((97 <=? code c) && (code c <=? 102))%N.

Lemma hex_byte_chars b : (b < 256)%N -> str_forall is_hex (hex_byte b) = true.
Proof.
  intros Hb.
  assert (H : forallb (fun b => str_forall is_hex (hex_byte b))
                (map N.of_nat (List.seq 0 256)) = true) by (by vm_compute).
  rewrite forallb_forall in H. apply H, in_map_iff. exists (N.to_nat b).
  split; [lia|]. apply in_seq. lia.
Qed.

Lemma be_bytes_byte n x : Forall (fun b => (b < 256)%N) (Sha256.be_bytes n x).
Proof.
  induction n as [|n IH]; simpl; constructor; [|done].
  change 255%N with (N.ones 8). rewrite N.land_ones. apply N.mod_lt. done.
Qed.

Lemma hexdigest_chars msg : str_forall is_hex (Sha256.hexdigest msg) = true.
Proof.
  unfold Sha256.hexdigest. set (bs := concat _).
  assert (Hb : Forall (fun b => (b < 256)%N) bs).
  { apply Forall_concat, Forall_map, Forall_forall. intros x _. apply be_bytes_byte. }
  clearbody bs. induction Hb as [|b bs Hb _ IH]; [done|].
  cbn [Sha256.hex_bytes]. by rewrite str_forall_app, hex_byte_chars, IH.
Qed.

(** [bytes.fromhex] on the digests the code stores. *)
Definition hex_val (c : ascii) : option N :=
  let n := code c in
  if is_digit c then Some (n - 48)%N
  else if ((97 <=? n) && (n <=? 102))%N then Some (n - 87)%N
  else if ((65 <=? n) && (n <=? 70))%N then Some (n - 55)%N
  else None.

Fixpoint fromhex (s : string) : res (list N) :=
  match s with
  | EmptyString => Ok []
  | String a r =>
      if is_space a then fromhex r else
      match r with
      | String b r' =>
          match hex_val a, hex_val b with
          | Some x, Some y => l ← fromhex r'; Ok ((16 * x + y)%N :: l)
          | _, _ => Raise (ValueError "non-hexadecimal number found in fromhex() arg")
          end
      | EmptyString => Raise (ValueError "non-hexadecimal number found in fromhex() arg")
      end
  end.

Example sha256_abc :
  Sha256.hexdigest (utf8 "abc")
  = "ba7816bf8f01cfea414140de5dae2223b00361a396177a9cb410ff61f20015ad"
  /\ Sha256.hexdigest [] = "e3b0c44298fc1c149afbf4c8996fb92427ae41e4649b934ca495991b7852b855"
  /\ Sha256.hexdigest (utf8 "abcdbcdecdefdefgefghfghighijhijkijkljklmklmnlmnomnopnopq")
  = "248d6a61d20638b8e5c026930c3e6039a33ce45964ff2167f6ecedd419db06c1".
Proof. by vm_compute. Qed.

Example json_ex :
  json_dumps true true (PDict [("b", PInt 2); ("a", PList [PNone; PStr "x"])])
  = Ok ("{" +:+ String dq ("a" +:+ String dq (":[null," +:+ String dq ("x" +:+ String dq
      ("]," +:+ String dq ("b" +:+ String dq ":2}"))))))
  /\ json_dumps false false (PFloat {| fl_val := FNaN; fl_repr := "nan" |})
     = Raise (ValueError "Out of range float values are not JSON compliant").
Proof. by vm_compute. Qed.

(** ** Lemmas *)

Lemma seq_res_Ok {A} (l : list (res A)) xs :
  seq_res l = Ok xs -> l = map Ok xs.
Proof.
  revert xs. induction l as [|c l IH]; simpl; intros xs H.
  - by inv H.
  - bind_inv H. bind_inv H. inv H. simpl. by rewrite (IH a0).
Qed.

(** Values with finite floats only: these always encode. *)
Inductive finite : pyval -> Prop :=
| fin_none : finite PNone
| fin_bool b : finite (PBool b)
| fin_int z : finite (PInt z)
| fin_float f m e : fl_val f = FFin m e -> finite (PFloat f)
| fin_str s : finite (PStr s)
| fin_list l : Forall finite l -> finite (PList l)
| fin_dict d : Forall (fun kv => finite kv.2) d -> finite (PDict d).

Lemma seq_res_Forall2 {A B} (f : A -> res B) l bs :
  seq_res (map f l) = Ok bs -> Forall2 (fun a b => f a = Ok b) l bs.
Proof.
  revert bs. induction l as [|a l IH]; intros bs; simpl; [by intros [= <-]|].
  destruct (f a) as [b|e] eqn:F; [|done]. cbn. destruct (seq_res (map f l)) as [r|e] eqn:Q; [|done].
  intros [= <-]. constructor; auto.
Qed.

Lemma seq_res_total {A} (l : list (res A)) :
  Forall (fun c => exists a, c = Ok a) l -> exists xs, seq_res l = Ok xs.
Proof.
  induction 1 as [|c l [a ->] _ [xs Hxs]]; simpl; [eauto|].
  rewrite Hxs. simpl. eauto.
Qed.

Lemma Forall_insert_key {V} (P : V -> Prop) kv (d : dict V) :
  P kv.2 -> Forall (fun x => P x.2) d -> Forall (fun x => P x.2) (insert_key kv d).
Proof.
  intros Hkv Hd. induction Hd as [|x d Hx Hd IH]; simpl; [by repeat constructor|].
  destruct (String.leb kv.1 x.1); repeat constructor; auto.
Qed.

Lemma Forall_sort_keys {V} (P : V -> Prop) (d : dict V) :
  Forall (fun x => P x.2) d -> Forall (fun x => P x.2) (sort_keys d).
Proof. induction 1; simpl; [constructor|]. by apply Forall_insert_key. Qed.

Lemma json_dumps_total ascii_only nan v :
  finite v -> exists s, json_dumps ascii_only nan v = Ok s.
Proof.
  induction v as [|b|z|f|s|l IH|d IH] using pyval_nested_ind; intros Hf; inv Hf; simpl;
    try by eexists.
  - unfold json_float. rewrite H0. eauto.
  - destruct (seq_res_total (map (json_dumps ascii_only nan) l)) as [xs ->].
    + rewrite Forall_map. eapply Forall_impl; [eapply Forall_and; split; [apply IH|done]|].
      naive_solver.
    + eexists. reflexivity.
  - match goal with |- context [seq_res ?l] => destruct (seq_res_total l) as [xs ->] end.
    + rewrite Forall_map. apply (Forall_sort_keys (fun c => exists a, c = Ok a)).
      rewrite Forall_map. eapply Forall_impl; [eapply Forall_and; split; [apply IH|done]|].
      intros [k v] [Hv Hfin]. simpl in *. destruct (Hv Hfin) as [t ->]. eexists. reflexivity.
    + eexists. reflexivity.
Qed.

(** With [allow_nan] every value encodes. *)
Lemma json_dumps_lenient ascii_only v : exists s, json_dumps ascii_only true v = Ok s.
Proof.
  induction v as [|b|z|f|s|l IH|d IH] using pyval_nested_ind; simpl; try by eexists.
  - unfold json_float. destruct (fl_val f); eauto.
  - destruct (seq_res_total (map (json_dumps ascii_only true) l)) as [xs ->];
      [by rewrite Forall_map | eexists; reflexivity].
  - match goal with |- context [seq_res ?l] => destruct (seq_res_total l) as [xs ->] end;
      [|eexists; reflexivity].
    rewrite Forall_map. apply (Forall_sort_keys (fun c => exists a, c = Ok a)).
    rewrite Forall_map. eapply Forall_impl; [apply IH|].
    intros [k v] [t Ht]. simpl in *. rewrite Ht. eexists. reflexivity.
Qed.

(** Sorting by key forgets the order of insertion. *)
Lemma string_leb_trans a b c :
  String.leb a b = true -> String.leb b c = true -> String.leb a c = true.
Proof.
  unfold String.leb. revert b c. induction a as [|x a IH]; intros [|y b] [|z c]; simpl; try done.
  unfold Ascii.compare.
  destruct (N.compare_spec (N_of_ascii x) (N_of_ascii y)) as [Exy|Hxy|Hxy]; [| |done];
  destruct (N.compare_spec (N_of_ascii y) (N_of_ascii z)) as [Eyz|Hyz|Hyz]; try done; intros H1 H2;
  destruct (N.compare_spec (N_of_ascii x) (N_of_ascii z)) as [Exz|Hxz|Hxz]; try done; try lia.
  by apply (IH b c).
Qed.

Lemma insert_key_comm {V} (a b : string * V) (d : dict V) :
  a.1 ≠ b.1 -> insert_key a (insert_key b d) = insert_key b (insert_key a d).
Proof.
  intros Hne. induction d as [|x d IH]; simpl.
  - destruct (String.leb a.1 b.1) eqn:Hab, (String.leb b.1 a.1) eqn:Hba; try done.
    + destruct Hne. by apply String.leb_antisym.
    + destruct (String.leb_total a.1 b.1); congruence.
  - destruct (String.leb a.1 x.1) eqn:Hax, (String.leb b.1 x.1) eqn:Hbx; simpl;
      rewrite ?Hax, ?Hbx; simpl.
    + destruct (String.leb a.1 b.1) eqn:Hab, (String.leb b.1 a.1) eqn:Hba; try done.
      * destruct Hne. by apply String.leb_antisym.
      * destruct (String.leb_total a.1 b.1); congruence.
    + destruct (String.leb b.1 a.1) eqn:Hba; [|by rewrite ?Hbx].
      by rewrite (string_leb_trans _ _ _ Hba Hax) in Hbx.
    + destruct (String.leb a.1 b.1) eqn:Hab; [|done].
      by rewrite (string_leb_trans _ _ _ Hab Hbx) in Hax.
    + by rewrite IH.
Qed.

Lemma sort_keys_perm {V} (d d' : dict V) :
  NoDup (dkeys d) -> d ≡ₚ d' -> sort_keys d = sort_keys d'.
Proof.
  intros Hd Hp. unfold sort_keys. apply (foldr_permutation eq); [solve_proper| |done].
  intros j1 a j2 b acc Hj Ha Hb. apply insert_key_comm. intros Hab.
  destruct Hj. eapply (NoDup_lookup (fst <$> d) _ _ a.1); [exact Hd| |];
    rewrite list_lookup_fmap, ?Ha, ?Hb; simpl; by rewrite ?Hab.
Qed.

(** Two dictionaries with the same entries have one sorted encoding. *)
Lemma json_dumps_perm ascii_only nan d d' :
  NoDup (dkeys d) -> d ≡ₚ d' ->
  json_dumps ascii_only nan (PDict d) = json_dumps ascii_only nan (PDict d').
Proof.
  intros Hd Hp. simpl.
  match goal with |- context [sort_keys (map ?f d)] =>
    rewrite (sort_keys_perm (map f d) (map f d')) end; [done| |by rewrite Hp].
  unfold dkeys. by rewrite map_map.
Qed.
