(* ===== verification/PayloadBudget.v ===== *)
(** The byte budget of the JSON columns of the task table
    (task_payload_budget.py) with the two compactors it calls
    (result_object_contract.py, playbook_run_executor_core/result_compaction.py).
    A payload over its limit is replaced by a summary or refused; what is stored
    never exceeds the limit, keeps its shape, and does not depend on the order in
    which Python iterates the sets of key names. *)
From S2P Require Import Prelude PyDict PyStr PyVal PyJson.

(** [len] of text. *)
Definition slen (s : string) : Z := Z.of_nat (String.length s).

(** * Descriptors of results kept elsewhere (result_object_contract.py) *)
Module ResultObject.

Definition RESULT_OBJECT_CONTRACT_SCHEMA_VERSION : Z := 1.
Definition JSON_MIME_TYPE : string := "application/json".
Definition DEFAULT_SUMMARY_LIMIT : Z := 500.
Definition DEFAULT_METADATA_STRING_LIMIT : Z := 500.
Definition DEFAULT_METADATA_LIST_LIMIT : Z := 50.

(** Every value of the model is encodable ([json_dumps_lenient]), so the
    fallback on [TypeError] and the [default=str] hook are never used. *)
Definition _json_dumps (value : pyval) : string :=
  match json_dumps false true value with Ok s => s | Raise _ => "" end.
Definition json_payload_bytes (value : pyval) : list N := utf8 (_json_dumps value).
Definition json_payload_size (value : pyval) : Z := Z.of_nat (length (json_payload_bytes value)).
Definition json_payload_sha256 (value : pyval) : string :=
  Sha256.hexdigest (json_payload_bytes value).

Definition _clean_string (value : pyval) : option string :=
  match value with PStr s => str_opt (strip s) | _ => None end.

Definition ascii_rstrip (s : string) : string := rstrip_by is_space s.

Definition _limit_text (limit : Z) (value : pyval) : string :=
  let text := strip (py_str (py_or value (PStr ""))) in
  if slen text <=? limit then text
  else ascii_rstrip (take_str (Z.to_nat (limit - 3)) text) +:+ "...".

(** [type(value).__name__] *)
Definition type_name (value : pyval) : string :=
  match value with
  | PNone => "NoneType" | PBool _ => "bool" | PInt _ => "int" | PFloat _ => "float"
  | PStr _ => "str" | PList _ => "list" | PDict _ => "dict"
  end.

(** The first of the keys with a non-blank string. *)
Fixpoint first_text (keys : list string) (payload : dict pyval) : option string :=
  match keys with
  | [] => None
  | key :: r =>
      match _clean_string (pget key payload) with
      | Some value => Some value
      | None => first_text r payload
      end
  end.

Definition step_part (kv : string * pyval) : string :=
  match kv.2 with
  | PDict step_value =>
      match _clean_string (pget "status" step_value) with
      | Some status => kv.1 +:+ ":" +:+ status
      | None => kv.1
      end
  | _ => kv.1
  end.

Definition _extract_payload_summary (payload : pyval) : string :=
  match payload with
  | PDict d =>
      match first_text ["summary"; "output"; "message"; "error"; "status"] d with
      | Some value => _limit_text DEFAULT_SUMMARY_LIMIT (PStr value)
      | None =>
          match pget "steps" d with
          | PDict ((_ :: _) as steps) =>
              _limit_text DEFAULT_SUMMARY_LIMIT
                (PStr (join ", " (map step_part (firstn 5 steps))))
          | _ =>
              let keys := join ", " (firstn 8 (dkeys d)) in
              if bool_decide (keys = "") then ""
              else _limit_text DEFAULT_SUMMARY_LIMIT
                     (PStr ("object(keys=" +:+ keys +:+ ", count="
                            +:+ str_int (Z.of_nat (length d)) +:+ ")"))
          end
      end
  | _ => _limit_text DEFAULT_SUMMARY_LIMIT (PStr (type_name payload))
  end.

(** The loop over a dictionary shared by the bounded copies: the first
    [limit] items, and a count of the others under [_truncated_keys]. *)
Definition bounded_items (limit : Z) (items : list (string * pyval)) : dict pyval :=
  let kept := foldl (fun d kv => dset kv.1 kv.2 d) [] (firstn (Z.to_nat limit) items) in
  if limit <? Z.of_nat (length items)
  then dset "_truncated_keys" (PInt (Z.of_nat (length items) - limit)) kept
  else kept.

Definition truncated_count (limit : Z) (l : list pyval) : list pyval :=
  if limit <? Z.of_nat (length l)
  then [PDict [("_truncated_count", PInt (Z.of_nat (length l) - limit))]]
  else [].

Fixpoint _bounded_metadata_value (value : pyval) : pyval :=
  match value with
  | PNone | PBool _ | PInt _ | PFloat _ => value
  | PStr _ => PStr (_limit_text DEFAULT_METADATA_STRING_LIMIT value)
  | PList l =>
      PList (firstn (Z.to_nat DEFAULT_METADATA_LIST_LIMIT) (map _bounded_metadata_value l)
             ++ truncated_count DEFAULT_METADATA_LIST_LIMIT l)
  | PDict d =>
      PDict (bounded_items DEFAULT_METADATA_LIST_LIMIT
               (map (fun kv => (kv.1, _bounded_metadata_value kv.2)) d))
  end.

Definition _bounded_string_list (value : pyval) : list string :=
  match value with
  | PList l => omap _clean_string (firstn (Z.to_nat DEFAULT_METADATA_LIST_LIMIT) l)
  | _ => []
  end.

Definition _bounded_dict_list (value : pyval) : list pyval :=
  match value with
  | PList l => map _bounded_metadata_value
                 (filter is_dict (firstn (Z.to_nat DEFAULT_METADATA_LIST_LIMIT) l))
  | _ => []
  end.

Definition opt_str (o : option string) : pyval :=
  match o with Some s => PStr s | None => PNone end.

(** [if x is not None: descriptor[k] = x], and [if x: descriptor[k] = x]. *)
Definition set_some (k : string) (o : option string) (d : dict pyval) : dict pyval :=
  match o with Some s => dset k (PStr s) d | None => d end.
Definition set_list (k : string) (l : list pyval) (d : dict pyval) : dict pyval :=
  match l with [] => d | _ => dset k (PList l) d end.

(** With the arguments the budget passes: [object_key] and [payload_schema] at
    their defaults, [deliverable_identity] the payload itself. *)
Definition build_result_object_descriptor (payload : dict pyval)
    (summary storage_ref execution_id artifact_id landing_metadata acceptance_evidence : pyval)
    : dict pyval :=
  let landing := match landing_metadata with
                 | PDict l => dict_or_empty (_bounded_metadata_value (PDict l))
                 | _ => []
                 end in
  let payload_summary := str_or (default "" (_clean_string summary))
                                (_extract_payload_summary (PDict payload)) in
  let result_json_path := _clean_string (pget "result_json_path" landing) in
  let resolved_object_key :=
    match _clean_string storage_ref with Some s => Some s | None => result_json_path end in
  let result_object :=
    set_some "result_json_path" result_json_path
      [("schema_version", PInt RESULT_OBJECT_CONTRACT_SCHEMA_VERSION);
       ("object_key", opt_str resolved_object_key);
       ("storage_ref", opt_str (_clean_string storage_ref));
       ("checksum_sha256", PStr (json_payload_sha256 (PDict payload)));
       ("bytes", PInt (json_payload_size (PDict payload)));
       ("mime_type", PStr JSON_MIME_TYPE);
       ("payload_schema", PStr "task_result")] in
  let descriptor :=
    [("summary", PStr (_limit_text DEFAULT_SUMMARY_LIMIT (PStr payload_summary)));
     ("storage_ref", opt_str (_clean_string storage_ref));
     ("execution_id", opt_str (_clean_string execution_id));
     ("artifact_id", opt_str (_clean_string artifact_id));
     ("result_object", PDict result_object)] in
  let descriptor := match landing with [] => descriptor
                    | _ => dset "landing" (PDict landing) descriptor end in
  let descriptor := set_some "deliverable_name"
                      (_clean_string (pget "deliverable_name" payload)) descriptor in
  let descriptor := set_some "deliverable_path"
                      (_clean_string (pget "deliverable_path" payload)) descriptor in
  let descriptor := set_list "deliverable_targets"
                      (_bounded_dict_list (pget "deliverable_targets" payload)) descriptor in
  let descriptor := set_list "attachment_filenames"
                      (map PStr (_bounded_string_list (pget "attachment_filenames" payload)))
                      descriptor in
  if truthy acceptance_evidence
  then dset "acceptance_evidence" (_bounded_metadata_value acceptance_evidence) descriptor
  else descriptor.

End ResultObject.
Export ResultObject.

(** * Compact copies of workflow results (result_compaction.py) *)
Module ResultCompaction.

Definition _json_size (value : pyval) : Z := slen (json_dumps_default value).

Definition _compact_scalar (max_string_chars : Z) (value : pyval) : pyval :=
  match value with
  | PStr s =>
      if slen s <=? max_string_chars then value
      else PDict [("_type", PStr "string"); ("chars", PInt (slen s));
                  ("preview", PStr (take_str (Z.to_nat max_string_chars) s));
                  ("_truncated", PBool true)]
  | _ => value
  end.

Fixpoint _compact_value (depth : nat) (max_dict_keys max_list_preview max_string_chars : Z)
    (value : pyval) : pyval :=
  match value with
  | PNone | PBool _ | PInt _ | PFloat _ | PStr _ => _compact_scalar max_string_chars value
  | PDict d =>
      match depth with
      | O => PDict [("_type", PStr "object"); ("keys", PInt (Z.of_nat (length d)));
                    ("_compacted", PBool true)]
      | S depth' =>
          PDict (bounded_items max_dict_keys
            (map (fun kv => (kv.1, _compact_value depth' max_dict_keys max_list_preview
                                     max_string_chars kv.2)) d))
      end
  | PList l =>
      let counted := [("_type", PStr "list"); ("count", PInt (Z.of_nat (length l)));
                      ("_compacted", PBool true)] in
      match depth with
      | O => PDict counted
      | S depth' =>
          if negb (bool_decide (l = [])) && (0 <? max_list_preview)
          then PDict (dset "preview"
                 (PList (map (_compact_value depth' max_dict_keys 0 max_string_chars)
                             (firstn (Z.to_nat max_list_preview) l))) counted)
          else PDict counted
      end
  end.

Definition mark_compacted (compacted : dict pyval) : dict pyval :=
  dset "_full_result_location" (PStr "artifact_result_json")
    (dset "_compacted" (PBool true) compacted).

(** On a dictionary, the only value the budget passes. *)
Definition compact_workflow_result_for_task_context (max_bytes : Z)
    (workflow_result : dict pyval) : pyval :=
  let compacted := PDict (mark_compacted
    (dict_or_empty (_compact_value 5 80 2 2048 (PDict workflow_result)))) in
  if _json_size compacted <=? max_bytes then compacted
  else
    let original := PInt (_json_size (PDict workflow_result)) in
    let compacted := PDict (dset "_original_bytes" original (mark_compacted
      (dict_or_empty (_compact_value 4 40 1 512 (PDict workflow_result))))) in
    if _json_size compacted <=? max_bytes then compacted
    else
      PDict (foldl (fun minimal key =>
        let value := pget key workflow_result in
        if is_none value then minimal else dset key (_compact_scalar 512 value) minimal)
        [("_compacted", PBool true); ("_full_result_location", PStr "artifact_result_json");
         ("_original_bytes", original)]
        ["status"; "error"; "execution_id"]).

End ResultCompaction.

(** * The budget (task_payload_budget.py) *)
Definition HOT_TASK_JSON_LIMIT_BYTES : Z := 16 * 1024.
Definition HOT_TASK_JSON_WRITE_LIMIT_BYTES : Z := 15 * 1024.

Definition DEFAULT_TASK_PAYLOAD_LIMITS : dict Z :=
  map (fun field => (field, HOT_TASK_JSON_WRITE_LIMIT_BYTES))
    ["params"; "result"; "execution_context"; "storyline_tags"; "blocked_payload"].

Definition _CONTEXT_PRESERVE_KEYS : list string :=
  ["route_request"; "runner_resource_requirements"; "resource_requirements";
   "resource_admission"; "host_resource_admission"; "host_resource_decision";
   "host_resource_lane_id"; "runtime_lane_id"; "lane_id"; "target_lane"; "priority_class";
   "queue_partition"; "queue_shard"; "resource_class"; "capability_code";
   "runner_profile_hint"; "runtime_affinity"; "runner_timeout_seconds"; "concurrency_key";
   "concurrency"; "execution_inputs_ref"; "dependency_hold"; "runner_skip_lock_key";
   "runner_skip_conflict_lock_key"; "runner_skip_reason"; "defer_until"; "producer_kind";
   "visibility"].

Definition _CONTEXT_METADATA_KEYS : list string :=
  ["execution_id"; "parent_execution_id"; "playbook_code"; "playbook_name"; "status";
   "total_steps"; "current_step_index"; "workspace_id"; "project_id"; "profile_id";
   "thread_id"; "meeting_session_id"; "checkpoint"; "sandbox_id"; "execution_backend_hint";
   "execution_mode"; "object_action_closure"; "pending_reason"; "pending_detail";
   "pending_since"; "resume_after"].

Definition _CONTEXT_HEAVY_KEYS : list string :=
  ["workflow_result"; "execution_trace"; "browser_trace"; "attachments"; "files";
   "files_created"; "files_modified"; "screenshots"; "logs"; "stdout"; "stderr";
   "raw_output"; "raw_result"].

(** [PayloadBudgetError] derives from [ValueError]. *)
Definition PayloadBudgetError (msg : string) : exn := ValueError msg.

Definition _compact_scalar (max_string_chars : Z) (value : pyval) : pyval :=
  match value with
  | PStr s =>
      if max_string_chars <? slen s
      then PDict [("_type", PStr "string"); ("chars", PInt (slen s));
                  ("preview", PStr (take_str (Z.to_nat max_string_chars) s));
                  ("_truncated", PBool true)]
      else value
  | _ => value
  end.

Definition _payload_descriptor (payload_kind : string) (payload : pyval) : pyval :=
  let descriptor := [("_compacted", PBool true); ("payload_kind", PStr payload_kind);
                     ("bytes", PInt (json_payload_size payload));
                     ("checksum_sha256", PStr (json_payload_sha256 payload))] in
  let copy key d descriptor :=
    let value := pget key d in
    if is_none value then descriptor else dset key (_compact_scalar 500 value) descriptor in
  PDict match payload with
  | PDict d =>
      copy "error" d (copy "status" d
        (dset "key_count" (PInt (Z.of_nat (length d)))
          (dset "keys" (PList (map PStr (firstn 20 (dkeys d)))) descriptor)))
  | PList l => dset "item_count" (PInt (Z.of_nat (length l))) descriptor
  | _ => descriptor
  end.

Fixpoint _compact_metadata_value (depth : nat)
    (max_dict_keys max_list_preview max_string_chars : Z) (value : pyval) : pyval :=
  match value with
  | PNone | PBool _ | PInt _ | PFloat _ | PStr _ => _compact_scalar max_string_chars value
  | PList l =>
      match depth with
      | O => _payload_descriptor "list" value
      | S depth' =>
          PList (map (_compact_metadata_value depth' max_dict_keys 0 max_string_chars)
                     (firstn (Z.to_nat max_list_preview) l)
                 ++ truncated_count max_list_preview l)
      end
  | PDict d =>
      match depth with
      | O => _payload_descriptor "dict" value
      | S depth' =>
          PDict (bounded_items max_dict_keys
            (map (fun kv => (kv.1, _compact_metadata_value depth' max_dict_keys
                                     max_list_preview max_string_chars kv.2)) d))
      end
  end.

Definition _budget_metadata (field_name : string) (original_bytes limit_bytes : Z) : pyval :=
  PDict [("field", PStr field_name); ("original_bytes", PInt original_bytes);
         ("limit_bytes", PInt limit_bytes); ("compacted", PBool true)].

Definition _assert_within_budget (field_name : string) (limit_bytes : Z) (value : pyval)
    : res pyval :=
  let size := json_payload_size value in
  if size <=? limit_bytes then Ok value
  else Raise (PayloadBudgetError (field_name +:+ " payload is " +:+ str_int size
                +:+ " bytes; limit is " +:+ str_int limit_bytes +:+ " bytes")).

Definition _compact_result_payload (limit_bytes : Z) (value : pyval) : res pyval :=
  match value with
  | PDict d =>
      let descriptor := build_result_object_descriptor d
        (py_or (py_or (pget "summary" d) (pget "output" d)) (pget "status" d))
        (pget "storage_ref" d) (pget "execution_id" d) (pget "artifact_id" d)
        (if is_dict (pget "landing" d) then pget "landing" d else PNone)
        (if is_dict (pget "acceptance_evidence" d) then pget "acceptance_evidence" d
         else PNone) in
      _assert_within_budget "result" limit_bytes
        (PDict (dset "_payload_budget"
           (_budget_metadata "result" (json_payload_size value) limit_bytes) descriptor))
  | _ => _assert_within_budget "result" limit_bytes value
  end.

(** The order in which this process iterates each set of key names: Python
    salts string hashes, so it is any enumeration of the set. *)
Class SetOrder : Type := {
  heavy_keys : list string;
  preserve_keys : list string;
  metadata_keys : list string;
  heavy_perm : heavy_keys ≡ₚ _CONTEXT_HEAVY_KEYS;
  preserve_perm : preserve_keys ≡ₚ _CONTEXT_PRESERVE_KEYS;
  metadata_perm : metadata_keys ≡ₚ _CONTEXT_METADATA_KEYS;
}.

Section context.
Context `{SetOrder}.

(** A heavy entry: a compact copy of a workflow result within [max_bytes], a
    descriptor of anything else. *)
Definition compact_heavy (max_bytes : Z) (key : string) (child : pyval) : pyval :=
  match child with
  | PDict d =>
      if bool_decide (key = "workflow_result")
      then ResultCompaction.compact_workflow_result_for_task_context max_bytes d
      else _payload_descriptor key child
  | _ => _payload_descriptor key child
  end.

Definition compact_heavy_keys (limit_bytes : Z) (value : dict pyval) : dict pyval :=
  foldl (fun compacted key =>
    match dget key compacted with
    | Some child =>
        dset key (compact_heavy (Z.min (64 * 1024) (Z.max 4096 (limit_bytes / 4))) key child)
          compacted
    | None => compacted
    end) value heavy_keys.

Definition minimal_context (original_bytes limit_bytes : Z) (value : dict pyval) : dict pyval :=
  let minimal :=
    [("_payload_budget", _budget_metadata "execution_context" original_bytes limit_bytes)] in
  let minimal := foldl (fun minimal key =>
    match dget key value with
    | Some v => dset key (_compact_metadata_value 4 40 10 500 v) minimal
    | None => minimal
    end) minimal (preserve_keys ++ metadata_keys) in
  foldl (fun minimal key =>
    match dget key value with
    | Some child =>
        dset key (compact_heavy (Z.min (16 * 1024) (Z.max 2048 (limit_bytes / 8))) key child)
          minimal
    | None => minimal
    end) minimal heavy_keys.

Definition _compact_execution_context (limit_bytes : Z) (value : pyval) : res pyval :=
  match value with
  | PDict d =>
      let original_bytes := json_payload_size value in
      let compacted := compact_heavy_keys limit_bytes d in
      let size := json_payload_size (PDict compacted) in
      if size <=? limit_bytes then
        if size =? original_bytes then Ok value
        else _assert_within_budget "execution_context" limit_bytes
               (PDict (dset "_payload_budget"
                  (_budget_metadata "execution_context" original_bytes limit_bytes) compacted))
      else _assert_within_budget "execution_context" limit_bytes
             (PDict (minimal_context original_bytes limit_bytes d))
  | _ => _assert_within_budget "execution_context" limit_bytes value
  end.

Definition _compact_blocked_payload (limit_bytes : Z) (value : pyval) : res pyval :=
  match value with
  | PDict d =>
      let original_bytes := json_payload_size value in
      _assert_within_budget "blocked_payload" limit_bytes
        match _compact_metadata_value 4 40 10 500 value with
        | PDict compacted =>
            PDict (dset "_payload_budget"
              (_budget_metadata "blocked_payload" original_bytes limit_bytes) compacted)
        | compacted => compacted
        end
  | _ => _assert_within_budget "blocked_payload" limit_bytes value
  end.

(** [limit_bytes] is never passed: the limit is the field's default. *)
Definition apply_task_payload_budget (field_name : string) (value : pyval) : res pyval :=
  if is_none value then Ok PNone else
  match dget field_name DEFAULT_TASK_PAYLOAD_LIMITS with
  | None => Ok value
  | Some limit =>
      if json_payload_size value <=? limit then Ok value
      else if bool_decide (field_name = "result") then _compact_result_payload limit value
      else if bool_decide (field_name = "execution_context")
           then _compact_execution_context limit value
      else if bool_decide (field_name = "blocked_payload")
           then _compact_blocked_payload limit value
      else _assert_within_budget field_name limit value
  end.

End context.

(** * What is stored fits, and keeps its shape *)

Lemma within_Ok f limit v v' :
  _assert_within_budget f limit v = Ok v' -> v' = v /\ json_payload_size v <= limit.
Proof.
  unfold _assert_within_budget.
  destruct (Z.leb_spec (json_payload_size v) limit) as [Hle|]; [by intros [= ->]|done].
Qed.

Lemma within_fits f limit v : json_payload_size v <= limit -> _assert_within_budget f limit v = Ok v.
Proof. intros H. unfold _assert_within_budget. by apply Z.leb_le in H as ->. Qed.

(** The dictionaries of a value: distinct keys and well-formed entries. *)
Definition regular_items (d : dict pyval) : Prop :=
  dict_wf d /\ Forall (fun kv => regular kv.2) d.

Lemma regular_dict d : regular (PDict d) <-> regular_items d.
Proof.
  unfold regular_items. split.
  - intros H. by inv H.
  - intros [Hw Hf]. by constructor.
Qed.

Lemma dset_values {V} (P : V -> Prop) k v (d : dict V) :
  P v -> Forall (fun kv => P kv.2) d -> Forall (fun kv => P kv.2) (dset k v d).
Proof.
  intros Hv. induction 1 as [|[k' v'] d Hkv Hd IH]; simpl; [by repeat constructor|].
  case_bool_decide; by constructor.
Qed.

Lemma regular_dset k v d : regular v -> regular_items d -> regular_items (dset k v d).
Proof. intros Hv [Hw Hf]. split; [by apply dict_wf_dset | by apply dset_values]. Qed.

Lemma regular_dget k d : regular_items d -> regular (pget k d).
Proof.
  intros [_ Hf]. unfold pget. destruct (dget k d) as [v|] eqn:E; [|constructor].
  rewrite Forall_forall in Hf. simpl.
  assert (exists p, p ∈ d /\ p.2 = v) as ([k' v'] & Hp & <-); [|by apply Hf in Hp].
  clear Hf. induction d as [|[k' v'] d IH]; simpl in E; [done|].
  case_bool_decide.
  - inv E. eexists. split; [by left|done].
  - destruct (IH E) as (p & Hp & Hv). exists p. split; [by right|done].
Qed.

Lemma regular_foldl {A} (f : dict pyval -> A -> dict pyval) l d :
  (forall d a, regular_items d -> a ∈ l -> regular_items (f d a)) ->
  regular_items d -> regular_items (foldl f d l).
Proof.
  revert d. induction l as [|a l IH]; simpl; intros d Hf Hd; [done|].
  apply IH; [intros; apply Hf; [done|by right] | apply Hf; [done|by left]].
Qed.

Lemma regular_lit (d : dict pyval) :
  bool_decide (NoDup (dkeys d)) = true -> Forall (fun kv => regular kv.2) d -> regular_items d.
Proof. intros H%bool_decide_eq_true. by split. Qed.

Lemma regular_bounded_items limit items :
  Forall (fun kv => regular kv.2) items -> regular_items (bounded_items limit items).
Proof.
  intros Hf. unfold bounded_items.
  assert (regular_items (foldl (fun d kv => dset kv.1 kv.2 d) []
            (firstn (Z.to_nat limit) items))) as Hk.
  { apply regular_foldl; [|by split; [apply dict_wf_nil|]].
    intros d kv Hd Hkv. apply regular_dset; [|done].
    apply (Forall_take _ (Z.to_nat limit)) in Hf. rewrite Forall_forall in Hf. by apply Hf. }
  destruct (_ <? _); [|done]. apply regular_dset; [constructor|done].
Qed.

Ltac regular_step :=
  match goal with
  | |- regular (PDict _) => apply regular_dict
  | |- regular (PList _) => constructor
  | |- regular _ => constructor
  | |- regular_items (dset _ _ _) => apply regular_dset
  | |- regular_items (_ :: _) => apply regular_lit; [unfold dkeys; cbn [map fst]; by vm_compute|]
  | |- Forall _ (_ :: _) => constructor
  | |- Forall _ [] => constructor
  end.

Lemma regular_strings (l : list string) : Forall regular (map PStr l).
Proof. apply Forall_map, Forall_true. intros s. constructor. Qed.

Lemma regular_opt_str o : regular (opt_str o).
Proof. destruct o; constructor. Qed.
#[export] Hint Resolve regular_opt_str regular_strings : py.

Lemma regular_truncated limit l : Forall regular (truncated_count limit l).
Proof.
  unfold truncated_count. destruct (_ <? _); repeat constructor; cbn.
  - apply not_elem_of_nil.
Qed.

Lemma compact_scalar_regular n v : regular v -> regular (_compact_scalar n v).
Proof.
  intros Hv. unfold _compact_scalar. destruct v as [| | | |s| |]; try done.
  destruct (_ <? _); [|done]. repeat regular_step.
Qed.

Lemma descriptor_regular kind v : regular v -> regular (_payload_descriptor kind v).
Proof.
  intros Hv. unfold _payload_descriptor. apply regular_dict.
  assert (forall key d acc, regular_items d -> regular_items acc ->
    regular_items (let value := pget key d in
      if is_none value then acc else dset key (_compact_scalar 500 value) acc)) as Hcopy.
  { intros key d acc Hd Hacc. cbn zeta. destruct (is_none _); [done|].
    apply regular_dset; [|done]. by apply compact_scalar_regular, regular_dget. }
  destruct v as [| | | | |l|d]; repeat regular_step.
  apply regular_dict in Hv. repeat apply Hcopy; try done.
  repeat regular_step. auto with py.
Qed.

Lemma metadata_value_regular depth k : forall n c v,
  regular v -> regular (_compact_metadata_value depth k n c v).
Proof.
  induction depth as [|depth IH]; intros n c v Hv;
    destruct v as [| | | | |l|d]; simpl;
    try (by apply (compact_scalar_regular c (PStr _))); try done;
    try (by apply descriptor_regular).
  - constructor. apply Forall_app. split; [|apply regular_truncated].
    inv Hv. apply Forall_map, Forall_take. eapply Forall_impl; [done|].
    intros v Hv. by apply IH.
  - apply regular_dict in Hv as [_ Hf]. apply regular_dict, regular_bounded_items, Forall_map.
    eapply Forall_impl; [done|]. intros kv Hkv. by apply IH.
Qed.

Lemma compact_value_regular depth k : forall n c v,
  regular v -> regular (ResultCompaction._compact_value depth k n c v).
Proof.
  assert (forall c s, regular (ResultCompaction._compact_scalar c (PStr s))) as Hs.
  { intros c s. simpl. destruct (_ <=? _); repeat regular_step. }
  induction depth as [|depth IH]; intros n c v Hv; destruct v as [| | | | |l|d];
    simpl; try (by apply Hs); try done; try (by repeat regular_step).
  - destruct (negb _ && _); repeat regular_step.
    inv Hv. apply Forall_map, Forall_take. eapply Forall_impl; [done|].
    intros v Hv. by apply IH.
  - apply regular_dict in Hv as [_ Hf]. apply regular_dict, regular_bounded_items, Forall_map.
    eapply Forall_impl; [done|]. intros kv Hkv. by apply IH.
Qed.

Lemma compact_value_items depth k n c d :
  regular_items d ->
  regular_items (dict_or_empty (ResultCompaction._compact_value depth k n c (PDict d))).
Proof.
  intros Hd. pose proof (compact_value_regular depth k n c (PDict d)) as H.
  rewrite regular_dict in H. specialize (H Hd). destruct depth; by apply regular_dict in H.
Qed.

Lemma workflow_result_regular max_bytes d : regular_items d ->
  regular (ResultCompaction.compact_workflow_result_for_task_context max_bytes d).
Proof.
  intros Hd. unfold ResultCompaction.compact_workflow_result_for_task_context. cbn zeta.
  destruct (_ <=? max_bytes); [|destruct (_ <=? max_bytes)];
    apply regular_dict; unfold ResultCompaction.mark_compacted;
    [repeat apply regular_dset; first [by apply compact_value_items | constructor] ..|].
  apply regular_foldl; [|repeat regular_step].
  intros m key Hm _. destruct (is_none _); [done|]. apply regular_dset; [|done].
  unfold ResultCompaction._compact_scalar.
  pose proof (regular_dget key d Hd) as Hv. destruct (pget key d) as [| | | |s| |]; try done.
  destruct (_ <=? _); [done|repeat regular_step].
Qed.

Lemma compact_heavy_regular max_bytes key v : regular v -> regular (compact_heavy max_bytes key v).
Proof.
  intros Hv. unfold compact_heavy. destruct v as [| | | | |l|d];
    try (by apply descriptor_regular).
  apply regular_dict in Hv as Hd. destruct (bool_decide _).
  - by apply workflow_result_regular.
  - by apply descriptor_regular.
Qed.

Lemma regular_lookup k v d : regular_items d -> dget k d = Some v -> regular v.
Proof. intros Hd E. pose proof (regular_dget k d Hd) as H. unfold pget in H. by rewrite E in H. Qed.

Lemma metadata_regular f a b : regular (_budget_metadata f a b).
Proof. unfold _budget_metadata. repeat regular_step. Qed.
#[export] Hint Resolve metadata_regular : py.

Lemma bounded_metadata_regular v : regular v -> regular (_bounded_metadata_value v).
Proof.
  induction v as [| | | | |l IH|d IH] using pyval_nested_ind; intros Hv; simpl; try done;
    try constructor.
  - inv Hv. apply Forall_app. split; [|apply regular_truncated].
    apply Forall_take, Forall_map. eapply Forall_impl; [eapply Forall_and; split; [apply IH|done]|].
    naive_solver.
  - inv Hv. apply regular_bounded_items, Forall_map.
    eapply Forall_impl; [eapply Forall_and; split; [apply IH|done]|]. naive_solver.
  - inv Hv. apply regular_bounded_items, Forall_map.
    eapply Forall_impl; [eapply Forall_and; split; [apply IH|done]|]. naive_solver.
Qed.

Lemma set_some_regular k o d : regular_items d -> regular_items (set_some k o d).
Proof. intros Hd. destruct o; [|done]. apply regular_dset; [constructor|done]. Qed.

Lemma set_list_regular k l d : Forall regular l -> regular_items d -> regular_items (set_list k l d).
Proof. intros Hl Hd. destruct l; [done|]. apply regular_dset; [by constructor|done]. Qed.

Lemma bounded_dicts_regular v : regular v -> Forall regular (_bounded_dict_list v).
Proof.
  intros Hv. unfold _bounded_dict_list. destruct v as [| | | | |l|]; try constructor.
  inv Hv. apply Forall_map. apply Forall_forall. intros x Hx.
  apply list_elem_of_filter in Hx as [_ Hx].
  apply bounded_metadata_regular.
  match goal with H : Forall regular l |- _ =>
    apply (Forall_take _ (Z.to_nat DEFAULT_METADATA_LIST_LIMIT)) in H;
    rewrite Forall_forall in H; by apply H end.
Qed.

Lemma result_descriptor_regular d summary storage_ref execution_id artifact_id landing evidence :
  regular_items d -> regular landing -> regular evidence ->
  regular_items (build_result_object_descriptor d summary storage_ref execution_id artifact_id
                   landing evidence).
Proof.
  intros Hd Hl He. unfold build_result_object_descriptor.
  set (land := match landing with PDict l => _ | _ => _ end).
  assert (regular_items land) as Hland.
  { subst land. destruct landing; try (split; [apply dict_wf_nil|constructor]).
    apply bounded_metadata_regular in Hl. by apply regular_dict. }
  clearbody land. cbn zeta.
  set (dd := set_list "attachment_filenames" _ _).
  assert (regular_items dd) as Hdd.
  { subst dd. apply set_list_regular; [auto with py|].
    apply set_list_regular; [by apply bounded_dicts_regular, regular_dget|].
    do 2 apply set_some_regular.
    match goal with |- regular_items (match land with [] => ?a | _ => _ end) =>
      assert (regular_items a) as Hbase end.
    { repeat first [apply set_some_regular | apply regular_opt_str | regular_step]. }
    destruct land; [done|]. apply regular_dset; [|done]. by apply regular_dict. }
  clearbody dd. destruct (truthy _); [|done].
  apply regular_dset; [by apply bounded_metadata_regular|done].
Qed.

Section budget.
Context `{SetOrder}.

Lemma compact_heavy_keys_regular limit d : regular_items d -> regular_items (compact_heavy_keys limit d).
Proof.
  intros Hd. apply regular_foldl; [|done]. intros c key Hc _.
  destruct (dget key c) as [child|] eqn:E; [|done].
  apply regular_dset; [|done]. eapply compact_heavy_regular, regular_lookup; eauto.
Qed.

Lemma minimal_context_regular a b d : regular_items d -> regular_items (minimal_context a b d).
Proof.
  intros Hd. unfold minimal_context. cbn zeta.
  apply regular_foldl; [|apply regular_foldl;
    [|repeat first [apply metadata_regular | regular_step]]];
    intros c key Hc _; destruct (dget key d) as [child|] eqn:E; try done;
    (apply regular_dset; [|done]).
  - by apply compact_heavy_regular, (regular_lookup key child d).
  - by apply metadata_value_regular, (regular_lookup key child d).
Qed.

(** The four outcomes of the budget on a limited field. *)
Lemma budget_cases field limit v v' :
  dget field DEFAULT_TASK_PAYLOAD_LIMITS = Some limit ->
  apply_task_payload_budget field v = Ok v' ->
  (v = PNone /\ v' = PNone)
  \/ (json_payload_size v <= limit /\ v' = v)
  \/ (json_payload_size v' <= limit /\ limit < json_payload_size v
      /\ exists d d', v = PDict d /\ v' = PDict d' /\ (regular_items d -> regular_items d')).
Proof.
  intros Hf. unfold apply_task_payload_budget. rewrite Hf.
  destruct (is_none v) eqn:Hn; [destruct v; try done; intros [= <-]; by left|].
  destruct (Z.leb_spec (json_payload_size v) limit) as [Hle|Hgt]; [intros [= <-]; auto|].
  assert (forall f c, _assert_within_budget f limit v = Ok c -> False) as Hbig.
  { intros f c [_ Hs]%within_Ok. lia. }
  intros Hv. right; right. split; [|split; [done|]].
  - revert Hv. repeat destruct (bool_decide _);
      unfold _compact_result_payload, _compact_execution_context, _compact_blocked_payload;
      destruct v; cbn zeta; intros Hv; try (by edestruct Hbig);
      repeat match type of Hv with context [if ?b then _ else _] => destruct b eqn:? end;
      try (by apply within_Ok in Hv as [-> Hs]).
    all: inv Hv. all: bool_prop; lia.
  - revert Hv. destruct (bool_decide _); [|destruct (bool_decide _);
      [|destruct (bool_decide _); [|intros Hv; by edestruct Hbig]]];
      unfold _compact_result_payload, _compact_execution_context, _compact_blocked_payload;
      destruct v as [| | | | | |d]; cbn zeta; intros Hv; try (by edestruct Hbig).
    + apply within_Ok in Hv as [-> _]. do 2 eexists. split; [done|split; [done|]]. intros Hd.
      apply regular_dset; auto with py. apply result_descriptor_regular; try done;
        match goal with |- regular (if is_dict ?x then _ else _) =>
          destruct (is_dict x); [by apply regular_dget|constructor] end.
    + destruct (_ <=? limit) eqn:Hs; [destruct (_ =? _) eqn:Heq|].
      * bool_prop. lia.
      * apply within_Ok in Hv as [-> _]. do 2 eexists. split; [done|split; [done|]]. intros Hd.
        apply regular_dset; auto with py. by apply compact_heavy_keys_regular.
      * apply within_Ok in Hv as [-> _]. do 2 eexists. split; [done|split; [done|]]. intros Hd.
        by apply minimal_context_regular.
    + apply within_Ok in Hv as [-> _]. do 2 eexists. split; [done|split; [done|]]. intros Hd.
      apply regular_dset; auto with py. apply regular_dict, (metadata_value_regular 4 40 10 500 (PDict d)).
      by apply regular_dict.
Qed.
End budget.

(** * The compactions as maps over the entries *)

Lemma dset_map {V} k (w v : V) (d : dict V) :
  dict_wf d -> dget k d = Some v ->
  dset k w d = map (fun kv => if bool_decide (kv.1 = k) then (kv.1, w) else kv) d.
Proof.
  unfold dict_wf, dkeys. induction d as [|[k' v'] d IH]; simpl; [done|]. intros Hw Hk.
  apply NoDup_cons in Hw as [Hn Hw].
  destruct (decide (k' = k)) as [E|Hne];
    [subst k'; rewrite bool_decide_true by done; rewrite bool_decide_true in Hk by done
    | rewrite !bool_decide_false in * by done].
  - f_equal. symmetry. rewrite <- (map_id d) at 2. apply map_ext_in. intros [x y] Hx. simpl.
    rewrite bool_decide_false; [done|]. intros ->. destruct Hn.
    apply list_elem_of_fmap. eexists. split; [|by apply list_elem_of_In]. done.
  - by rewrite IH.
Qed.

Lemma dkeys_map {V W} (g : string * V -> W) (d : dict V) :
  dkeys (map (fun kv => (kv.1, g kv)) d) = dkeys d.
Proof. unfold dkeys. by rewrite map_map. Qed.

(** [for key in keys: if key in d: d[key] = g(key, d[key])] *)
Lemma rewrite_keys_map {V} (g : string -> V -> V) keys : forall d : dict V,
  NoDup keys -> dict_wf d ->
  foldl (fun c key => match dget key c with Some v => dset key (g key v) c | None => c end) d keys
  = map (fun kv => (kv.1, if bool_decide (kv.1 ∈ keys) then g kv.1 kv.2 else kv.2)) d.
Proof.
  induction keys as [|key keys IH]; simpl; intros d Hk Hd.
  - rewrite <- (map_id d) at 1. by apply map_ext; intros [k v].
  - apply NoDup_cons in Hk as [Hn Hk].
    assert (match dget key d with Some v => dset key (g key v) d | None => d end
      = map (fun kv => (kv.1, if bool_decide (kv.1 = key) then g key kv.2 else kv.2)) d) as ->.
    { destruct (dget key d) as [v|] eqn:E.
      - rewrite (dset_map _ _ v) by done. apply map_ext_in. intros [k v'] Hin. simpl.
        case_bool_decide as Hk2; [|done]. rewrite Hk2 in Hin. apply list_elem_of_In, (elem_of_dget key v' d Hd) in Hin.
        congruence.
      - rewrite <- (map_id d) at 1. apply map_ext_in. intros [k v'] Hin. simpl.
        rewrite bool_decide_false; [done|]. intros ->.
        apply list_elem_of_In, (elem_of_dget key v' d Hd) in Hin. congruence. }
    rewrite IH; [|done|by unfold dict_wf; rewrite dkeys_map].
    rewrite map_map. apply map_ext. intros [k v]. simpl.
    destruct (decide (k = key)) as [->|Hne].
    + rewrite (bool_decide_false (key ∈ keys)) by done. rewrite !bool_decide_true; [done|by left|done].
    + rewrite (bool_decide_false (k = key)) by done.
      rewrite (bool_decide_ext (k ∈ keys) (k ∈ key :: keys)); [done|]. set_solver.
Qed.

(** [for key in keys: if key in d: acc[key] = h(key, d[key])], on fresh keys. *)
Definition picked {V W} (h : string -> V -> W) (d : dict V) (keys : list string) : dict W :=
  omap (fun key => (fun v => (key, h key v)) <$> dget key d) keys.

Lemma dset_fresh {V} k (v : V) d : k ∉ dkeys d -> dset k v d = d ++ [(k, v)].
Proof.
  unfold dkeys. induction d as [|[k' v'] d IH]; simpl; [done|]. rewrite not_elem_of_cons.
  intros [Hne Hk]. rewrite bool_decide_false by congruence. by rewrite IH.
Qed.

Lemma picked_keys {V W} (h : string -> V -> W) d keys x :
  x ∈ dkeys (picked h d keys) -> x ∈ keys.
Proof.
  unfold dkeys, picked. intros ([k w] & -> & Hin)%list_elem_of_fmap.
  apply list_elem_of_omap in Hin as (key & Hkey & E).
  destruct (dget key d); [|done]. by inv E.
Qed.

Lemma picked_NoDup {V W} (h : string -> V -> W) d keys :
  NoDup keys -> NoDup (dkeys (picked h d keys)).
Proof.
  induction 1 as [|key keys Hn _ IH]; [constructor|]. unfold picked in *. simpl.
  destruct (dget key d); simpl; [|done]. constructor; [|done].
  intros Hin. by apply Hn, (picked_keys h d).
Qed.

Lemma pick_keys {V W} (h : string -> V -> W) d keys : forall acc,
  NoDup keys -> (forall k, k ∈ keys -> k ∉ dkeys acc) ->
  foldl (fun c key => match dget key d with Some v => dset key (h key v) c | None => c end) acc keys
  = acc ++ picked h d keys.
Proof.
  induction keys as [|key keys IH]; simpl; intros acc Hk Hf; [by rewrite app_nil_r|].
  apply NoDup_cons in Hk as [Hn Hk]. unfold picked. simpl.
  destruct (dget key d) as [v|]; simpl.
  - rewrite dset_fresh by (apply Hf; by left). rewrite IH; [by rewrite <- app_assoc|done|].
    intros k Hin. unfold dkeys. rewrite map_app. simpl. rewrite elem_of_app, list_elem_of_singleton.
    intros [?| ->]; [|done]. by apply (Hf k); [right|].
  - apply IH; [done|]. intros k Hin. apply Hf. by right.
Qed.

Lemma picked_get {V W} (h : string -> V -> W) d keys k :
  NoDup keys ->
  dget k (picked h d keys) = if bool_decide (k ∈ keys) then h k <$> dget k d else None.
Proof.
  induction 1 as [|key keys Hn Hk IH]; [done|]. unfold picked in *. simpl.
  destruct (decide (key = k)) as [->|Hne].
  - rewrite (bool_decide_true (k ∈ k :: keys)) by (by left).
    rewrite bool_decide_false in IH by done.
    destruct (dget k d); simpl; [by rewrite bool_decide_true|exact IH].
  - rewrite (bool_decide_ext (k ∈ key :: keys) (k ∈ keys)) by set_solver.
    destruct (dget key d); simpl; [by rewrite bool_decide_false|done].
Qed.

Lemma dget_app {V} k (d e : dict V) :
  dget k (d ++ e) = match dget k d with Some v => Some v | None => dget k e end.
Proof. induction d as [|[k' v'] d IH]; simpl; [done|]. by case_bool_decide. Qed.

Lemma dget_map {V W} (g : string -> V -> W) k (d : dict V) :
  dget k (map (fun kv => (kv.1, g kv.1 kv.2)) d) = g k <$> dget k d.
Proof.
  induction d as [|[k' v'] d IH]; simpl; [done|]. case_bool_decide; [by subst|done].
Qed.

(** The names the minimal context copies, in the order it copies them. *)
Section order.
Context `{SetOrder}.

Definition copied_keys : list string := (preserve_keys ++ metadata_keys) ++ heavy_keys.

Lemma copied_perm :
  copied_keys ≡ₚ (_CONTEXT_PRESERVE_KEYS ++ _CONTEXT_METADATA_KEYS) ++ _CONTEXT_HEAVY_KEYS.
Proof. unfold copied_keys. by rewrite preserve_perm, metadata_perm, heavy_perm. Qed.

Lemma copied_NoDup : NoDup copied_keys.
Proof. rewrite copied_perm. apply (bool_decide_unpack _). by vm_compute. Qed.

Definition minimal_value (limit_bytes : Z) (key : string) (v : pyval) : pyval :=
  if bool_decide (key ∈ _CONTEXT_HEAVY_KEYS)
  then compact_heavy (Z.min (16 * 1024) (Z.max 2048 (limit_bytes / 8))) key v
  else _compact_metadata_value 4 40 10 500 v.

Definition heavy_value (limit_bytes : Z) (key : string) (v : pyval) : pyval :=
  if bool_decide (key ∈ heavy_keys)
  then compact_heavy (Z.min (64 * 1024) (Z.max 4096 (limit_bytes / 4))) key v else v.

Lemma picked_ext {V W} (h h' : string -> V -> W) d keys :
  (forall k v, k ∈ keys -> h k v = h' k v) -> picked h d keys = picked h' d keys.
Proof.
  intros E. apply list_omap_ext, Forall_Forall2_diag, Forall_forall. intros k Hk.
  destruct (dget k d); simpl; [|done]. by rewrite E.
Qed.

Lemma picked_app {V W} (h : string -> V -> W) d k1 k2 :
  picked h d (k1 ++ k2) = picked h d k1 ++ picked h d k2.
Proof. unfold picked. by rewrite omap_app. Qed.

Lemma minimal_context_eq a b d :
  minimal_context a b d
  = ("_payload_budget", _budget_metadata "execution_context" a b)
      :: picked (minimal_value b) d copied_keys.
Proof.
  pose proof copied_NoDup as Hn. unfold copied_keys in Hn.
  apply NoDup_app in Hn as (Hl & Hd & Hh).
  assert (forall k, k ∈ heavy_keys <-> k ∈ _CONTEXT_HEAVY_KEYS) as Hheavy
    by (intros k; by rewrite heavy_perm).
  assert (forall k, k ∈ copied_keys -> k ≠ "_payload_budget") as Hpb.
  { intros k Hk ->. rewrite copied_perm in Hk. revert Hk.
    apply (bool_decide_unpack _). by vm_compute. }
  unfold minimal_context. cbn zeta.
  rewrite (pick_keys (fun _ v => _compact_metadata_value 4 40 10 500 v)); [|done|].
  2:{ intros k Hk Hin. apply list_elem_of_singleton in Hin. apply (Hpb k); [|done].
      apply elem_of_app. by left. }
  rewrite pick_keys; [|done|].
  2:{ intros k Hk. unfold dkeys. rewrite map_app, elem_of_app. intros [Hin|Hin].
      - apply list_elem_of_singleton in Hin. apply (Hpb k); [|done]. apply elem_of_app. by right.
      - apply picked_keys in Hin. by apply (Hd k). }
  cbn [app]. f_equal. unfold copied_keys. rewrite (picked_app _ _ (_ ++ _) _).
  f_equal; apply picked_ext;
    intros k v Hk; unfold minimal_value.
  - rewrite bool_decide_false; [done|]. rewrite <- Hheavy. intros Hk'. by apply (Hd k).
  - rewrite bool_decide_true; [done|]. by apply Hheavy.
Qed.

Lemma compact_heavy_keys_eq limit d : dict_wf d ->
  compact_heavy_keys limit d = map (fun kv => (kv.1, heavy_value limit kv.1 kv.2)) d.
Proof.
  intros Hd. pose proof copied_NoDup as (_ & _ & Hh)%NoDup_app.
  by apply (rewrite_keys_map (compact_heavy _)).
Qed.
End order.

(** Two values with the same canonical text, hence the same checksum. *)
Definition same_text (r r' : res pyval) : Prop :=
  match r, r' with
  | Ok v, Ok v' => _json_dumps v = _json_dumps v'
  | Raise e, Raise e' => e = e'
  | _, _ => False
  end.

Lemma same_text_refl r : same_text r r.
Proof. by destruct r. Qed.

Lemma within_same_text f limit v v' :
  _json_dumps v = _json_dumps v' ->
  same_text (_assert_within_budget f limit v) (_assert_within_budget f limit v').
Proof.
  intros E. unfold _assert_within_budget, json_payload_size, json_payload_bytes. rewrite <- E.
  by destruct (_ <=? _).
Qed.

Lemma minimal_same_text (o1 o2 : SetOrder) a b d :
  _json_dumps (PDict (@minimal_context o1 a b d)) = _json_dumps (PDict (@minimal_context o2 a b d)).
Proof.
  rewrite !minimal_context_eq. unfold _json_dumps. f_equal. erewrite json_dumps_perm; [done| |].
  - cbn. constructor; [|apply picked_NoDup, copied_NoDup].
    intros Hk%picked_keys. rewrite copied_perm in Hk. revert Hk.
    apply (bool_decide_unpack _). by vm_compute.
  - apply perm_skip. unfold picked. rewrite (copied_perm (H:=o1)), (copied_perm (H:=o2)). done.
Qed.

(** * The theorems *)

(** Scalars short enough to be copied as they are. *)
Definition short_scalar (v : pyval) : bool :=
  match v with
  | PNone | PBool _ | PInt _ | PFloat _ => true
  | PStr s => slen s <=? 500
  | PList _ | PDict _ => false
  end.

(** C34: Whatever is stored in a limited column fits the limit (unless it is
    null), storing it again changes nothing, and a payload that fits was not
    touched. *)
Theorem stored_payload_fits `{SetOrder} field limit v v' :
  dget field DEFAULT_TASK_PAYLOAD_LIMITS = Some limit ->
  apply_task_payload_budget field v = Ok v' ->
  (v' = PNone \/ json_payload_size v' <= limit)
  /\ apply_task_payload_budget field v' = Ok v'
  /\ (json_payload_size v <= limit -> v' = v).
Proof.
  intros Hf Hv.
  assert (json_payload_size v' <= limit -> apply_task_payload_budget field v' = Ok v') as Hid.
  { intros Hs. unfold apply_task_payload_budget. rewrite Hf. apply Z.leb_le in Hs as ->.
    by destruct v'. }
  destruct (budget_cases field limit v v' Hf Hv)
    as [[-> ->]|[[Hs ->]|(Hs & Hgt & _)]]; split_and!; auto; lia.
Qed.

(** C40: The budget preserves types: what it stores is well-formed whenever the
    payload is (distinct keys, no NaN, at every depth), and an object stays an
    object, a list a list. *)
Theorem stored_payload_typed `{SetOrder} field v v' :
  regular v -> apply_task_payload_budget field v = Ok v' ->
  regular v' /\ type_name v' = type_name v.
Proof.
  intros Hr Hv. destruct (dget field DEFAULT_TASK_PAYLOAD_LIMITS) as [limit|] eqn:Hf.
  - destruct (budget_cases field limit v v' Hf Hv)
      as [[-> ->]|[[_ ->]|(_ & _ & d & d' & -> & -> & Hd)]]; [done|done|].
    split; [|done]. apply regular_dict, Hd. by apply regular_dict.
  - revert Hv. unfold apply_task_payload_budget. rewrite Hf.
    destruct (is_none v) eqn:Hn; intros [= <-]; [|done]. by destruct v.
Qed.

(** The order in which a process iterates its sets of key names does not
    show: two processes store the same text, or refuse with the same message. *)
Theorem budget_order_irrelevant (o1 o2 : SetOrder) field v :
  regular v ->
  same_text (@apply_task_payload_budget o1 field v) (@apply_task_payload_budget o2 field v).
Proof.
  intros Hr. unfold apply_task_payload_budget.
  destruct (is_none v); [done|]. destruct (dget field _) as [limit|]; [|done].
  destruct (json_payload_size v <=? limit); [done|].
  destruct (bool_decide _); [apply same_text_refl|].
  destruct (bool_decide _); [|destruct (bool_decide _); apply same_text_refl].
  destruct v as [| | | | | |d]; try apply same_text_refl.
  apply regular_dict in Hr as [Hw _]. unfold _compact_execution_context. cbn zeta.
  assert (@compact_heavy_keys o1 limit d = @compact_heavy_keys o2 limit d) as ->.
  { rewrite !compact_heavy_keys_eq by done. apply map_ext. intros [k v]. unfold heavy_value. simpl.
    rewrite (bool_decide_ext (k ∈ @heavy_keys o1) (k ∈ @heavy_keys o2)); [done|].
    by rewrite !heavy_perm. }
  repeat destruct (_ <=? limit); repeat destruct (_ =? _);
    try apply same_text_refl; apply within_same_text, minimal_same_text.
Qed.

(** Compaction keeps the routing and identity entries of a context: a
    short scalar under one of those names is stored as it is, and no such name
    appears that was not there. *)
Theorem routing_entries_survive `{SetOrder} d d' key :
  dict_wf d -> key ∈ _CONTEXT_PRESERVE_KEYS ++ _CONTEXT_METADATA_KEYS ->
  apply_task_payload_budget "execution_context" (PDict d) = Ok (PDict d') ->
  (dget key d = None -> dget key d' = None)
  /\ (forall v, dget key d = Some v -> short_scalar v = true -> dget key d' = Some v).
Proof.
  intros Hw Hkey. unfold apply_task_payload_budget.
  change (dget "execution_context" DEFAULT_TASK_PAYLOAD_LIMITS) with (Some (15 * 1024)).
  generalize (15 * 1024). intros limit. cbn [is_none].
  change (bool_decide ("execution_context" = "result")) with false.
  change (bool_decide ("execution_context" = "execution_context")) with true. cbv iota.
  assert (key ≠ "_payload_budget" /\ key ∉ _CONTEXT_HEAVY_KEYS) as [Hpb Hnh].
  { pose proof (@copied_NoDup H) as Hn. rewrite copied_perm in Hn.
    apply NoDup_app in Hn as (_ & Hdis & _). split; [|by apply Hdis].
    intros ->. revert Hkey. apply (bool_decide_unpack _). by vm_compute. }
  assert (key ∈ copied_keys) as Hc by (rewrite copied_perm; apply elem_of_app; by left).
  assert (forall v, short_scalar v = true -> _compact_metadata_value 4 40 10 500 v = v) as Hid.
  { intros v Hs. destruct v; try done. simpl in *. unfold _compact_scalar.
    destruct (Z.ltb_spec 500 (slen s)); [|done]. bool_prop. lia. }
  destruct (_ <=? limit); [intros [= <-]; naive_solver|].
  unfold _compact_execution_context. cbn zeta.
  repeat destruct (_ <=? limit); [destruct (_ =? _); [intros [= <-]; naive_solver|]|];
    intros [[= ->] _]%within_Ok.
  - rewrite compact_heavy_keys_eq by done. rewrite dget_dset_ne by done.
    set (m := map _ d). assert (dget key m = dget key d) as ->.
    { subst m. rewrite (dget_map (heavy_value limit)). unfold heavy_value.
      rewrite bool_decide_false by (by rewrite heavy_perm). by destruct (dget key d). }
    split; [done|]. by intros v -> _.
  - rewrite minimal_context_eq. cbn [dget]. rewrite bool_decide_false by congruence.
    rewrite picked_get by apply copied_NoDup. rewrite bool_decide_true by done.
    unfold minimal_value. rewrite bool_decide_false by done.
    split; [by intros ->|]. intros v -> Hs.
    change (Some (_compact_metadata_value 4 40 10 500 v) = Some v). by rewrite Hid.
Qed.

(** * Samples *)

#[export] Instance declared_order : SetOrder | 10 := {|
  heavy_keys := _CONTEXT_HEAVY_KEYS;
  preserve_keys := _CONTEXT_PRESERVE_KEYS;
  metadata_keys := _CONTEXT_METADATA_KEYS;
  heavy_perm := Permutation_refl _;
  preserve_perm := Permutation_refl _;
  metadata_perm := Permutation_refl _;
|}.

Definition reversed_order : SetOrder := {|
  heavy_keys := rev _CONTEXT_HEAVY_KEYS;
  preserve_keys := rev _CONTEXT_PRESERVE_KEYS;
  metadata_keys := rev _CONTEXT_METADATA_KEYS;
  heavy_perm := symmetry (Permutation_rev _);
  preserve_perm := symmetry (Permutation_rev _);
  metadata_perm := symmetry (Permutation_rev _);
|}.

Module Sample.

Fixpoint xs (n : nat) : string := match n with O => "" | S k => String "x" (xs k) end.

(** 16000 bytes of inputs push a context over the limit. *)
Definition context : dict pyval :=
  [("status", PStr "running"); ("queue_partition", PStr "browser_local");
   ("stdout", PStr "done"); ("inputs", PStr (xs 16000))].

Definition stored : res pyval := apply_task_payload_budget "execution_context" (PDict context).

Example stored_keys :
  match stored with Ok (PDict d) => dkeys d | _ => [] end
  = ["_payload_budget"; "queue_partition"; "status"; "stdout"].
Proof. by vm_compute. Qed.

Definition payload := Eval vm_compute in match stored with Ok (PDict d) => d | _ => [] end.

Lemma stored_ok : apply_task_payload_budget "execution_context" (PDict context) = Ok (PDict payload).
Proof. by vm_compute. Qed.

Lemma context_items : regular_items context.
Proof.
  split; [apply (bool_decide_unpack _); by vm_compute|].
  unfold context. generalize (xs 16000). intros s. repeat regular_step.
Qed.

Lemma stored_payload_fits_witness :
  (PDict payload = PNone \/ json_payload_size (PDict payload) <= 15 * 1024)
  /\ apply_task_payload_budget "execution_context" (PDict payload) = Ok (PDict payload)
  /\ (json_payload_size (PDict context) <= 15 * 1024 -> PDict payload = PDict context).
Proof.
  apply (stored_payload_fits "execution_context" (15 * 1024) (PDict context));
    [reflexivity | apply stored_ok].
Defined.

Lemma stored_payload_typed_witness :
  regular (PDict payload) /\ type_name (PDict payload) = "dict".
Proof.
  apply (stored_payload_typed "execution_context" (PDict context));
    [apply regular_dict, context_items | apply stored_ok].
Defined.

Lemma budget_order_irrelevant_witness :
  same_text (@apply_task_payload_budget declared_order "execution_context" (PDict context))
            (@apply_task_payload_budget reversed_order "execution_context" (PDict context)).
Proof. apply budget_order_irrelevant, regular_dict, context_items. Defined.

Lemma routing_entries_survive_witness :
  dget "queue_partition" payload = Some (PStr "browser_local").
Proof.
  eapply (routing_entries_survive context payload "queue_partition");
    [apply context_items | apply (bool_decide_unpack _); by vm_compute | apply stored_ok
    | reflexivity | reflexivity].
Defined.

End Sample.
