(* ===== verification/PyTime.v ===== *)
(** Time.  A timezone-aware UTC [datetime] is its number of microseconds since
    the epoch; [isoformat] is written out.

    The epoch clocks ([time.time()], [now_epoch]) are binary64 seconds.  They
    are modelled in ticks of 2^-22 s: between 2^30 s and 2^31 s (2004 to 2038)
    that is exactly the spacing of binary64, so adding a whole number of
    seconds to a clock value is exact in both worlds. *)
From S2P Require Import Prelude PyStr PyVal.

Definition TICKS_PER_SECOND : Z := 4194304.
Definition secs (n : Z) : Z := n * TICKS_PER_SECOND.

Definition MICROS : Z := 1000000.
(** [now + timedelta(seconds=n)] *)
Definition add_seconds (now n : Z) : Z := now + n * MICROS.

(** Days since the epoch to the proleptic Gregorian date. *)
Definition civil (days : Z) : Z * Z * Z :=
  let z := days + 719468 in
  let era := z / 146097 in
  let doe := z mod 146097 in
  let yoe := (doe - doe / 1460 + doe / 36524 - doe / 146096) / 365 in
  let doy := doe - (365 * yoe + yoe / 4 - yoe / 100) in
  let mp := (5 * doy + 2) / 153 in
  let d := doy - (153 * mp + 2) / 5 + 1 in
  let m := if mp <? 10 then mp + 3 else mp - 9 in
  (yoe + era * 400 + (if m <=? 2 then 1 else 0), m, d).

Definition pad (n : nat) (z : Z) : string :=
  let s := str_int z in
  String.concat "" (replicate (n - String.length s) "0") +:+ s.

(** [datetime.isoformat()] of an aware UTC datetime. *)
Definition isoformat (t : Z) : string :=
  let us := t mod MICROS in
  let s := t / MICROS in
  let '(y, m, d) := civil (s / 86400) in
  let r := s mod 86400 in
  pad 4 y +:+ "-" +:+ pad 2 m +:+ "-" +:+ pad 2 d +:+ "T"
  +:+ pad 2 (r / 3600) +:+ ":" +:+ pad 2 (r / 60 mod 60) +:+ ":" +:+ pad 2 (r mod 60)
  +:+ (if us =? 0 then "" else "." +:+ pad 6 us) +:+ "+00:00".

Example isoformat_ex :
  isoformat 0 = "1970-01-01T00:00:00+00:00"
  /\ isoformat 1709251199000250 = "2024-02-29T23:59:59.000250+00:00"
  /\ isoformat 1767225600000000 = "2026-01-01T00:00:00+00:00".
Proof. by vm_compute. Qed.

Lemma secs_pos n : 0 < n -> 0 < secs n.
Proof. unfold secs, TICKS_PER_SECOND. lia. Qed.
#[export] Hint Resolve secs_pos : py.
