(* ===== verification/Leases.v ===== *)
(** Resource leases (runner_resources/lease_keys.py, leases.py): lease keys,
    the lease entries of a task context, the [ResourceLeaseStore] protocol as
    a class with its laws, and the in-memory store that discharges them. *)
From S2P Require Import Prelude PyDict PyStr PyVal PyJson PyTime.

(** * Lease keys *)

Definition LEASE_KEY_PREFIX : string := "mindscape:runner_resources:lease:v1".

Definition key_char (c : ascii) : ascii :=
  if is_alnum c || bool_decide (c = "-"%char) || bool_decide (c = "_"%char)
     || bool_decide (c = "."%char)
  then c else "_"%char.

Definition _normalize_key_part (value : string) : string :=
  str_or (take_str 64 (strip_char "_"%char (str_map key_char (strip (str_or value "")))))
         "default".

Definition build_resource_lease_key (resource_type resource_id : string) : string :=
  let normalized_type := _normalize_key_part resource_type in
  let normalized_id := str_or (strip (str_or resource_id "default")) "default" in
  let digest := take_str 16 (Sha256.hexdigest (utf8 normalized_id)) in
  let label := _normalize_key_part normalized_id in
  LEASE_KEY_PREFIX +:+ ":" +:+ normalized_type +:+ ":" +:+ label +:+ ":" +:+ digest.

Lemma build_resource_lease_key_ne rtype rid : build_resource_lease_key rtype rid ≠ "".
Proof. unfold build_resource_lease_key, LEASE_KEY_PREFIX. discriminate. Qed.

(** The characters of a normalised key part. *)
Definition key_char_ok (c : ascii) : bool :=
  is_alnum c || bool_decide (c = "-"%char) || bool_decide (c = "_"%char)
  || bool_decide (c = "."%char).

Lemma key_char_is_ok c : key_char_ok (key_char c) = true.
Proof. unfold key_char. fold (key_char_ok c). by destruct (key_char_ok c) eqn:E. Qed.

Lemma all_ascii (P : ascii -> bool) :
  forallb P (map ascii_of_nat (List.seq 0 256)) = true -> forall c, P c = true.
Proof.
  intros H c. rewrite forallb_forall in H. apply H, in_map_iff.
  exists (nat_of_ascii c). split; [apply ascii_nat_embedding|].
  apply in_seq. pose proof (nat_ascii_bounded c). lia.
Qed.

Definition no_space (c : ascii) : bool := negb (is_space c).
Definition no_colon (c : ascii) : bool := negb (bool_decide (c = ":"%char)).

Lemma key_char_facts c :
  implb (key_char_ok c || is_hex c) (no_space c && no_colon c) = true.
Proof. revert c. apply all_ascii. by vm_compute. Qed.

Lemma key_char_ok_clean P c :
  key_char_ok c || is_hex c = true -> P = no_space \/ P = no_colon -> P c = true.
Proof.
  intros Hc HP. pose proof (key_char_facts c) as H. rewrite Hc in H.
  apply andb_true_iff in H as [? ?]. by destruct HP as [-> | ->].
Qed.

Lemma key_part_chars value : str_forall key_char_ok (_normalize_key_part value) = true.
Proof.
  unfold _normalize_key_part. set (t := take_str _ _).
  assert (Ht : str_forall key_char_ok t = true).
  { apply str_forall_take, str_forall_strip_by, str_forall_map, key_char_is_ok. }
  unfold str_or. case_bool_decide; [by vm_compute | done].
Qed.

Lemma key_part_clean P value :
  P = no_space \/ P = no_colon -> str_forall P (_normalize_key_part value) = true.
Proof.
  intros HP. eapply str_forall_impl; [|apply key_part_chars]. intros c Hc.
  apply key_char_ok_clean; [by rewrite Hc | done].
Qed.

Lemma key_digest_clean P n msg :
  P = no_space \/ P = no_colon -> str_forall P (take_str n (Sha256.hexdigest msg)) = true.
Proof.
  intros HP. apply str_forall_take. eapply str_forall_impl; [|apply hexdigest_chars].
  intros c Hc. apply key_char_ok_clean; [by rewrite Hc, orb_true_r | done].
Qed.

Lemma lease_key_no_space rtype rid : strip (build_resource_lease_key rtype rid)
                                     = build_resource_lease_key rtype rid.
Proof.
  apply strip_no_space. fold no_space. unfold build_resource_lease_key. cbv zeta.
  rewrite !str_forall_app, !key_part_clean, key_digest_clean by (by left). by vm_compute.
Qed.

(** A lease key names its resource unambiguously: two keys are equal only
    if the normalised types are equal, the normalised labels are equal and the
    digests of the identifiers agree, so resources of different types never
    contend; every part is non-empty, made of letters, digits, [-], [_] and [.],
    and at most 64 characters long. *)
Theorem lease_key_separates t1 i1 t2 i2 :
  build_resource_lease_key t1 i1 = build_resource_lease_key t2 i2 ->
  let id x := str_or (strip (str_or x "default")) "default" in
  let digest x := take_str 16 (Sha256.hexdigest (utf8 (id x))) in
  _normalize_key_part t1 = _normalize_key_part t2 /\
  _normalize_key_part (id i1) = _normalize_key_part (id i2) /\
  digest i1 = digest i2 /\
  str_forall key_char_ok (_normalize_key_part t1) = true /\
  (1 <= String.length (_normalize_key_part t1) <= 64)%nat.
Proof.
  unfold build_resource_lease_key. cbv zeta. intros E.
  apply (inj (String.append LEASE_KEY_PREFIX)) in E. injection E as E.
  apply (sep_app_inj no_colon) in E as [Et E]; [|done|by apply key_part_clean; right..].
  apply (sep_app_inj no_colon) in E as [El E]; [|done|by apply key_part_clean; right..].
  split_and!; [done..|apply key_part_chars| |].
  - unfold _normalize_key_part. set (t := take_str _ _).
    pose proof (str_or_neq t "default" ltac:(done)) as Hne.
    destruct (str_or t "default"); [done|]. simpl. lia.
  - unfold _normalize_key_part, str_or at 1. case_bool_decide; [by vm_compute; lia|].
    apply take_str_length.
Qed.

Theorem lease_key_separates_witness :
  _normalize_key_part "ig_profile_lock" = _normalize_key_part " ig/profile/lock" /\
  build_resource_lease_key "ig_profile_lock" "a b" = build_resource_lease_key " ig/profile/lock" "a b ".
Proof.
  assert (E : build_resource_lease_key "ig_profile_lock" "a b"
              = build_resource_lease_key " ig/profile/lock" "a b ") by (by vm_compute).
  split; [|exact E]. exact (proj1 (lease_key_separates _ _ _ _ E)).
Defined.

(** * Leases in a task context *)

Definition LEASE_CONTEXT_KEY : string := "runner_resource_leases".

Record ResourceLease : Type := mkLease {
  lease_key : string;
  resource_type : string;
  resource_id : string;
}.

Definition lease_to_context (l : ResourceLease) : pyval :=
  PDict [("lease_key", PStr (lease_key l));
         ("resource_type", PStr (resource_type l));
         ("resource_id", PStr (resource_id l))].

(** The loop body of [resource_lease_keys_from_context]; [keys] and the
    [seen] set always hold the same strings. *)
Definition collect_lease_key (keys : list string) (item : pyval) : list string :=
  let lease_key := match item with
                   | PDict d => pget "lease_key" d
                   | PStr s => PStr s
                   | _ => PNone
                   end in
  match lease_key with
  | PStr k =>
      let normalized := strip k in
      if negb (bool_decide (normalized = "")) && negb (bool_decide (normalized ∈ keys))
      then keys ++ [normalized] else keys
  | _ => keys
  end.

Definition resource_lease_keys_from_context (context : pyval) : list string :=
  match context with
  | PDict ctx =>
      match pget LEASE_CONTEXT_KEY ctx with
      | PList raw => foldl collect_lease_key [] raw
      | _ => []
      end
  | _ => []
  end.

(** * The [ResourceLeaseStore] protocol *)

Class ResourceLeaseStore (S : Type) := {
  ls_acquire : string -> string -> Z -> stres S bool;
  ls_release : string -> string -> stres S bool;
  ls_extend : string -> string -> Z -> stres S bool;
  ls_list_expired : option Z -> stres S (list string);
}.

(** What the protocol promises to its clients.  [holder s k] is the owner
    whose lease on [k] is live in [s]; [held_le s' s] says that every lease
    live in [s'] was already live, with the same owner, in [s].  The laws hold
    as well when leases expire between two calls. *)
Class LeaseStoreLaws (S : Type) `{ResourceLeaseStore S} := {
  holder : S -> string -> option string;
  held_le : S -> S -> Prop := fun s' s =>
    forall k x, holder s' k = Some x -> holder s k = Some x;
  acquire_true : forall k o ttl s s',
    ls_acquire k o ttl s = (Ok true, s') ->
    holder s' k = Some o /\
    forall k' x, holder s' k' = Some x -> (k' = k /\ x = o) \/ holder s k' = Some x;
  acquire_false : forall k o ttl s s',
    ls_acquire k o ttl s = (Ok false, s') -> held_le s' s;
  release_ok : forall k o b s s',
    ls_release k o s = (Ok b, s') -> held_le s' s /\ holder s' k ≠ Some o;
  extend_ok : forall k o ttl b s s',
    ls_extend k o ttl s = (Ok b, s') ->
    held_le s' s /\ (b = true -> 0 < ttl -> holder s' k = Some o);
}.

#[export] Instance held_le_preorder {St : Type} `{LeaseStoreLaws St} :
  PreOrder held_le.
Proof.
  split; [intros s k x; done | intros a b c Hab Hbc k x Hx; by apply Hbc, Hab].
Qed.

Section clients.
Context {St : Type} `{ResourceLeaseStore St}.

Fixpoint renew_resource_lease_keys (lease_keys : list string) (owner_id : string)
    (ttl_seconds : Z) : stres St bool :=
  match lease_keys with
  | [] => mret true
  | k :: r =>
      ok ← ls_extend k owner_id ttl_seconds;
      if ok : bool then renew_resource_lease_keys r owner_id ttl_seconds else mret false
  end.

Fixpoint release_resource_lease_keys (lease_keys : list string) (owner_id : string)
    : stres St unit :=
  match lease_keys with
  | [] => mret tt
  | k :: r => _ ← ls_release k owner_id; release_resource_lease_keys r owner_id
  end.

(** [release_acquired_resource_leases] of admission.py. *)
Fixpoint release_acquired_resource_leases (leases : list ResourceLease)
    (owner_id : string) : stres St unit :=
  match leases with
  | [] => mret tt
  | l :: r => _ ← ls_release (lease_key l) owner_id;
              release_acquired_resource_leases r owner_id
  end.

Context {laws : LeaseStoreLaws St}.

(** Releasing a list of leases gives up every one of them and takes none. *)
Lemma release_acquired_held leases owner s u s' :
  release_acquired_resource_leases leases owner s = (Ok u, s') ->
  held_le s' s /\ Forall (fun l => holder s' (lease_key l) ≠ Some owner) leases.
Proof.
  revert s. induction leases as [|l r IH]; simpl; intros s H1.
  - inv H1. split; [reflexivity | constructor].
  - apply st_bind_Ok_inv in H1 as (b & s1 & H1 & H2).
    apply release_ok in H1 as [Hle Hno]. apply IH in H2 as [Hle' Hr].
    split; [by etrans|]. constructor; [|done]. intros Hh. by apply Hle' in Hh.
Qed.

Lemma release_keys_held ks owner s u s' :
  release_resource_lease_keys ks owner s = (Ok u, s') ->
  held_le s' s /\ Forall (fun k => holder s' k ≠ Some owner) ks.
Proof.
  revert s. induction ks as [|k r IH]; simpl; intros s H1.
  - inv H1. split; [reflexivity | constructor].
  - apply st_bind_Ok_inv in H1 as (b & s1 & H1 & H2).
    apply release_ok in H1 as [Hle Hno]. apply IH in H2 as [Hle' Hr].
    split; [by etrans|]. constructor; [|done]. intros Hh. by apply Hle' in Hh.
Qed.

End clients.

(** * [InMemoryResourceLeaseStore] *)
Module InMemory.

Record store : Type := mkStore {
  now_epoch : Z;                        (** ticks *)
  leases : dict (string * Z);           (** key to (owner, expiry) *)
}.

Definition init (now : Z) : store := mkStore now [].

Definition advance (seconds : Z) (s : store) : store :=
  mkStore (now_epoch s + Z.max 0 seconds) (leases s).

Definition _now (now : option Z) (s : store) : Z := default (now_epoch s) now.

Definition _purge_expired (now : option Z) (s : store) : list string * store :=
  let n := _now now s in
  let expired := dkeys (dfilter (fun _ e => e.2 <=? n) (leases s)) in
  (expired, mkStore (now_epoch s) (foldl (fun d k => ddel k d) (leases s) expired)).

(** [max(1, int(ttl_seconds or 1))] *)
Definition ttl_of (ttl_seconds : Z) : Z :=
  Z.max 1 (if ttl_seconds =? 0 then 1 else ttl_seconds).

Definition set_lease (k owner : string) (ttl : Z) (s : store) : store :=
  mkStore (now_epoch s)
    (dset k (owner, now_epoch s + secs (ttl_of ttl)) (leases s)).

Definition acquire (k owner : string) (ttl : Z) (s : store) : bool * store :=
  let s := (_purge_expired None s).2 in
  if dmem k (leases s) then (false, s) else (true, set_lease k owner ttl s).

Definition release (k owner : string) (s : store) : bool * store :=
  let s := (_purge_expired None s).2 in
  match dget k (leases s) with
  | Some (o, _) =>
      if bool_decide (o = owner)
      then (true, mkStore (now_epoch s) (ddel k (leases s))) else (false, s)
  | None => (false, s)
  end.

Definition extend (k owner : string) (ttl : Z) (s : store) : bool * store :=
  let s := (_purge_expired None s).2 in
  match dget k (leases s) with
  | Some (o, _) =>
      if bool_decide (o = owner) then (true, set_lease k owner ttl s) else (false, s)
  | None => (false, s)
  end.

Definition list_expired (now : option Z) (s : store) : list string * store :=
  _purge_expired now s.

#[export] Instance ops : ResourceLeaseStore store := {|
  ls_acquire k o ttl := total_st (acquire k o ttl);
  ls_release k o := total_st (release k o);
  ls_extend k o ttl := total_st (extend k o ttl);
  ls_list_expired n := total_st (list_expired n);
|}.

(** The owner of the lease on [k] that has not expired. *)
Definition live_holder (s : store) (k : string) : option string :=
  match dget k (leases s) with
  | Some (o, exp) => if exp <=? now_epoch s then None else Some o
  | None => None
  end.

Definition wf (s : store) : Prop := dict_wf (leases s).

Lemma foldl_ddel_lookup {V} ks (d : dict V) k :
  dget k (foldl (fun d k => ddel k d) d ks) =
  if bool_decide (k ∈ ks) then None else dget k d.
Proof.
  revert d. induction ks as [|k' ks IH]; simpl; intros d; [done|].
  rewrite IH, dget_ddel. repeat case_bool_decide; set_solver.
Qed.

(** Expiry only drops entries. *)
Lemma purge_sub now s k e :
  dget k (leases (_purge_expired now s).2) = Some e -> dget k (leases s) = Some e.
Proof. simpl. rewrite foldl_ddel_lookup. by case_bool_decide. Qed.

Lemma purge_live s k :
  wf s ->
  dget k (leases (_purge_expired None s).2) =
  match dget k (leases s) with
  | Some (o, e) => if e <=? now_epoch s then None else Some (o, e)
  | None => None
  end.
Proof.
  intros Hwf. simpl. rewrite foldl_ddel_lookup.
  destruct (dget k (leases s)) as [[o e]|] eqn:E; [|by case_bool_decide].
  pose proof (dget_dfilter (fun _ e => e.2 <=? now_epoch s) k (leases s) Hwf) as Hf.
  rewrite E in Hf. simpl in Hf. case_bool_decide as Hin.
  - destruct (e <=? now_epoch s); [done|]. apply dget_None_keys in Hf. done.
  - destruct (e <=? now_epoch s); [|done]. by apply dget_Some_keys in Hf.
Qed.

Lemma lease_wf_purge now s : wf s -> wf (_purge_expired now s).2.
Proof.
  unfold wf. simpl. set (ks := dkeys _). clearbody ks.
  generalize (leases s). induction ks as [|k ks IH]; simpl; intros d Hd; [done|].
  apply IH. by apply dict_wf_ddel.
Qed.

Lemma lease_wf_acquire k o ttl s : wf s -> wf (acquire k o ttl s).2.
Proof.
  intros Hwf%(lease_wf_purge None). unfold acquire. destruct (dmem _ _); [done|].
  by apply dict_wf_dset.
Qed.

Lemma lease_wf_release k o s : wf s -> wf (release k o s).2.
Proof.
  intros Hwf%(lease_wf_purge None). unfold release.
  destruct (dget _ _) as [[o' e]|]; [|done]. case_bool_decide; [|done].
  by apply dict_wf_ddel.
Qed.

Lemma lease_wf_extend k o ttl s : wf s -> wf (extend k o ttl s).2.
Proof.
  intros Hwf%(lease_wf_purge None). unfold extend.
  destruct (dget _ _) as [[o' e]|]; [|done]. case_bool_decide; [|done].
  by apply dict_wf_dset.
Qed.

Lemma purge_unexpired s k o e :
  dget k (leases (_purge_expired None s).2) = Some (o, e) ->
  live_holder s k = Some o /\ now_epoch s < e.
Proof.
  simpl. rewrite foldl_ddel_lookup. case_bool_decide as Hin; [done|]. intros Hg.
  unfold live_holder. rewrite Hg. destruct (e <=? now_epoch s) eqn:E; bool_prop; [|done].
  destruct Hin. revert Hg. generalize (leases s). intros d.
  induction d as [|[a w] d IH]; simpl; [done|]. case_bool_decide; subst.
  - intros [= ->]. simpl. rewrite (proj2 (Z.leb_le _ _) E). by left.
  - intros Hg. destruct (w.2 <=? _); [right|]; auto.
Qed.

Lemma live_holder_purge s k x :
  live_holder (_purge_expired None s).2 k = Some x -> live_holder s k = Some x.
Proof.
  unfold live_holder at 1.
  destruct (dget k (leases (_purge_expired None s).2)) as [[o e]|] eqn:E; [|done].
  apply purge_sub in E. unfold live_holder. rewrite E. done.
Qed.

Lemma live_holder_set_lease k o ttl s k' :
  live_holder (set_lease k o ttl s) k' =
  if bool_decide (k' = k) then Some o else live_holder s k'.
Proof.
  unfold live_holder, set_lease; simpl. rewrite dget_dset.
  case_bool_decide; [|done].
  assert (0 < secs (ttl_of ttl)) by (apply secs_pos; unfold ttl_of; lia).
  destruct (_ <=? _) eqn:E; [|done]. bool_prop. lia.
Qed.

Lemma live_holder_ddel k s k' :
  live_holder (mkStore (now_epoch s) (ddel k (leases s))) k' =
  if bool_decide (k' = k) then None else live_holder s k'.
Proof. unfold live_holder; simpl. rewrite dget_ddel. by case_bool_decide. Qed.

(** The in-memory store keeps the promises of the protocol. *)
#[export] Instance laws : LeaseStoreLaws store.
Proof.
  refine {| holder := live_holder |};
    unfold ls_acquire, ls_release, ls_extend, ops, total_st.
  - intros k o ttl s s'. unfold acquire.
    destruct (dmem _ _); intros [= <-]. split.
    + rewrite live_holder_set_lease. by rewrite bool_decide_true.
    + intros k' x. rewrite live_holder_set_lease.
      case_bool_decide; [naive_solver|]. intros Hx. right. by apply live_holder_purge.
  - intros k o ttl s s'. unfold acquire. destruct (dmem _ _); intros [= <-] k' x.
    apply live_holder_purge.
  - intros k o b s s'. unfold release. cbv zeta.
    set (sp := (_purge_expired None s).2).
    assert (Hsp : forall k x, live_holder sp k = Some x -> live_holder s k = Some x)
      by (intros ??; apply live_holder_purge).
    destruct (dget k (leases sp)) as [[o' e]|] eqn:E.
    + case_bool_decide; intros [= <- <-].
      * split; [intros k' x|]; rewrite (live_holder_ddel k sp); [|by rewrite bool_decide_true].
        case_bool_decide; [done|]. apply Hsp.
      * split; [done|]. unfold live_holder. rewrite E.
        destruct (_ <=? _); naive_solver.
    + intros [= <- <-]. split; [done|]. unfold live_holder. by rewrite E.
  - intros k o ttl b s s'. unfold extend. cbv zeta.
    set (sp := (_purge_expired None s).2).
    assert (Hsp : forall k x, live_holder sp k = Some x -> live_holder s k = Some x)
      by (intros ??; apply live_holder_purge).
    destruct (dget k (leases sp)) as [[o' e]|] eqn:E; [|intros [= <- <-]; by split].
    case_bool_decide; intros [= <- <-]; [|by split]. subst o'. split.
    + intros k' x. rewrite live_holder_set_lease. case_bool_decide; [|by apply Hsp].
      intros [= <-]. subst k'. by eapply purge_unexpired in E as [? _].
    + intros _. rewrite live_holder_set_lease. by rewrite bool_decide_true.
Defined.

(** ** Mutual exclusion over runs *)

Inductive lease_op : Type :=
| LAcquire (k o : string) (ttl : Z)
| LRelease (k o : string)
| LExtend (k o : string) (ttl : Z)
| LExpire
| LAdvance (seconds : Z).

Definition run_lease_op (op : lease_op) (s : store) : store :=
  match op with
  | LAcquire k o ttl => (acquire k o ttl s).2
  | LRelease k o => (release k o s).2
  | LExtend k o ttl => (extend k o ttl s).2
  | LExpire => (list_expired None s).2
  | LAdvance t => advance t s
  end.

Definition run_leases (ops : list lease_op) (s : store) : store :=
  foldl (fun s op => run_lease_op op s) s ops.

(** The operation does not act on [k] in the name of [o]. *)
Definition by_others (k o : string) (op : lease_op) : Prop :=
  match op with
  | LAcquire k' o' _ | LRelease k' o' | LExtend k' o' _ => k' = k -> o' ≠ o
  | LExpire | LAdvance _ => True
  end.

(** The entry of [k] is [(o, e)] and has not expired. *)
Definition holds_until (s : store) (k o : string) (e : Z) : Prop :=
  dget k (leases s) = Some (o, e) /\ now_epoch s < e.

Lemma holds_purge s k o e :
  wf s -> holds_until s k o e -> holds_until (_purge_expired None s).2 k o e.
Proof.
  intros Hwf [Hg Hn]. split; [|done]. rewrite purge_live, Hg by done.
  by rewrite (proj2 (Z.leb_gt _ _) Hn).
Qed.

Lemma clock_run_op op s : now_epoch s <= now_epoch (run_lease_op op s).
Proof.
  destruct op as [k o ttl|k o|k o ttl| |t]; cbn [run_lease_op].
  - unfold acquire. by destruct (dmem _ _).
  - unfold release. destruct (dget _ _) as [[]|]; [|done]. by case_bool_decide.
  - unfold extend. destruct (dget _ _) as [[]|]; [|done]. by case_bool_decide.
  - done.
  - simpl. lia.
Qed.

Lemma lease_wf_run_op op s : wf s -> wf (run_lease_op op s).
Proof.
  destruct op; cbn [run_lease_op]; intros Hwf;
    [by apply lease_wf_acquire | by apply lease_wf_release | by apply lease_wf_extend |
     by apply lease_wf_purge | exact Hwf].
Qed.

Lemma holds_run_op op s k o e :
  wf s -> by_others k o op -> holds_until s k o e -> now_epoch (run_lease_op op s) < e ->
  holds_until (run_lease_op op s) k o e.
Proof.
  intros Hwf Hop Hh He. split; [|done]. destruct (holds_purge _ _ _ _ Hwf Hh) as [Hp _].
  destruct op as [k' o' ttl|k' o'|k' o' ttl| |t]; cbn [run_lease_op by_others] in *.
  - unfold acquire, dmem. destruct (decide (k' = k)) as [->|Hne].
    + by rewrite Hp.
    + destruct (dget k' _); [done|]. cbn -[_purge_expired]. by rewrite dget_dset_ne.
  - unfold release. destruct (decide (k' = k)) as [->|Hne].
    + rewrite Hp. rewrite bool_decide_false; [done|]. intros ->. by apply Hop.
    + destruct (dget k' _) as [[o2 e2]|]; [|done]. case_bool_decide; [|done].
      cbn -[_purge_expired]. by rewrite dget_ddel_ne.
  - unfold extend. destruct (decide (k' = k)) as [->|Hne].
    + rewrite Hp. rewrite bool_decide_false; [done|]. intros ->. by apply Hop.
    + destruct (dget k' _) as [[o2 e2]|]; [|done]. case_bool_decide; [|done].
      cbn -[_purge_expired]. by rewrite dget_dset_ne.
  - exact Hp.
  - apply Hh.
Qed.

Lemma run_leases_clock ops s : now_epoch s <= now_epoch (run_leases ops s).
Proof.
  unfold run_leases. revert s. induction ops as [|op ops IH]; intros s; simpl; [done|].
  etrans; [apply (clock_run_op op) | apply IH].
Qed.

Lemma holds_run ops s k o e :
  wf s -> Forall (by_others k o) ops -> holds_until s k o e ->
  now_epoch (run_leases ops s) < e ->
  wf (run_leases ops s) /\ holds_until (run_leases ops s) k o e.
Proof.
  intros Hwf Hops. revert s Hwf. induction Hops as [|op ops Hop _ IH]; simpl;
    intros s Hwf Hh He; [done|].
  apply IH; [by apply lease_wf_run_op | | done].
  apply holds_run_op; [done..|]. eapply Z.le_lt_trans; [apply (run_leases_clock ops) | done].
Qed.

(** Mutual exclusion of a lease: an acquisition succeeds exactly when no
    live lease is on the key, and from then on, until its time to live has
    elapsed, whatever other owners try (acquire, release, extend, in any order,
    with sweeps and clock advances in between) leaves the owner in place and
    every other acquisition of the key fails. *)
Theorem lease_excludes_others k o ttl s ops :
  wf s ->
  (fst (acquire k o ttl s) = true <-> live_holder s k = None) /\
  (fst (acquire k o ttl s) = true ->
   Forall (by_others k o) ops ->
   let s' := run_leases ops (snd (acquire k o ttl s)) in
   now_epoch s' < now_epoch s + secs (ttl_of ttl) ->
   live_holder s' k = Some o /\ forall o' ttl', fst (acquire k o' ttl' s') = false).
Proof.
  intros Hwf.
  assert (Hiff : fst (acquire k o ttl s) = true <-> live_holder s k = None).
  { unfold acquire, dmem, live_holder. rewrite purge_live by done.
    destruct (dget k (leases s)) as [[o1 e1]|]; [|done].
    by destruct (e1 <=? now_epoch s). }
  split; [done|]. intros Ha Hops s' He.
  destruct (holds_run ops (snd (acquire k o ttl s)) k o (now_epoch s + secs (ttl_of ttl)))
    as [Hwf' Hh]; [by apply lease_wf_acquire | done | | done |].
  { revert Ha. unfold acquire. destruct (dmem _ _); [done|]. intros _. split.
    - cbn -[_purge_expired]. by rewrite dget_dset_eq.
    - cbn -[secs]. pose proof (secs_pos (ttl_of ttl) ltac:(unfold ttl_of; lia)). lia. }
  fold s' in Hwf', Hh. destruct (holds_purge _ _ _ _ Hwf' Hh) as [Hp _].
  destruct Hh as [Hg Hn]. split.
  - unfold live_holder. by rewrite Hg, (proj2 (Z.leb_gt _ _) Hn).
  - intros o' ttl'. unfold acquire, dmem. by rewrite Hp.
Qed.

Theorem lease_excludes_others_witness :
  fst (acquire "k" "r1" 30 (init 0)) = true /\
  live_holder (run_leases [LAcquire "k" "r2" 60; LAdvance (secs 29); LRelease "k" "r2"]
                 (snd (acquire "k" "r1" 30 (init 0)))) "k" = Some "r1".
Proof.
  split; [done|].
  apply (lease_excludes_others "k" "r1" 30 (init 0)
    [LAcquire "k" "r2" 60; LAdvance (secs 29); LRelease "k" "r2"] NoDup_nil_2 ).
  - done.
  - by repeat constructor.
  - by vm_compute.
Defined.

End InMemory.
