(* ===== verification/Requirements.v ===== *)
(** Resource requirements of a task (runner_resources/requirements.py,
    requirement_variants.py, services/contract_variants.py): the coercion of
    declared values into bounded requirements, the exact-input variants, and
    the resolution of a task's requirements by precedence. *)
From S2P Require Import Prelude PyDict PyStr PyVal.

(** A task argument: a mapping, or an object read with [getattr]. *)
Inductive task_arg : Type :=
| TMap (d : dict pyval)
| TObj (attrs : dict pyval).

Definition getattr (attrs : dict pyval) (name : string) (dflt : pyval) : pyval :=
  pget_or name dflt attrs.

(** * Exact-input variants (contract_variants.py) *)

Definition _normalized_scalar (value : pyval) : string :=
  match value with
  | PBool b => if b then "true" else "false"
  | _ => strip (py_str (py_or value (PStr "")))
  end.

Section variants.
Variable inputs : dict pyval.
Variable payload_key : string.
Variable contract_label : string.

(** One iteration of the loop: the payload when the variant matches. *)
Definition match_variant (raw_variant : pyval) : res (option (dict pyval)) :=
  match raw_variant with
  | PDict rv =>
      match pget "when" rv, pget payload_key rv with
      | PDict when, PDict payload =>
          let input_name := pget "input" when in
          let expected := pget "equals" when in
          match input_name with
          | PStr name =>
              if bool_decide (strip name = "")
              then Raise (ValueError (contract_label +:+ " variant input must be non-empty"))
              else match expected with
                   | PDict _ | PList _ | PNone =>
                       Raise (ValueError (contract_label +:+ " variant equals must be scalar"))
                   | _ =>
                       let actual := pget (strip name) inputs in
                       if bool_decide (_normalized_scalar actual = _normalized_scalar expected)
                       then Ok (Some payload) else Ok None
                   end
          | _ => Raise (ValueError (contract_label +:+ " variant input must be non-empty"))
          end
      | _, _ =>
          Raise (ValueError (contract_label +:+ " variant requires when and " +:+ payload_key))
      end
  | _ => Raise (ValueError (contract_label +:+ " variant must be an object"))
  end.

Fixpoint variant_matches (raw_variants : list pyval) : res (list (dict pyval)) :=
  match raw_variants with
  | [] => Ok []
  | rv :: r =>
      m ← match_variant rv;
      ms ← variant_matches r;
      Ok (match m with Some p => p :: ms | None => ms end)
  end.

Definition select_exact_input_variant (raw_variants : pyval) : res (dict pyval) :=
  match raw_variants with
  | PNone => Ok []
  | PList l =>
      ms ← variant_matches l;
      match ms with
      | [] => Ok []
      | [m] => Ok m
      | _ => Raise (ValueError ("multiple " +:+ contract_label +:+ " variants matched"))
      end
  | _ => Raise (ValueError (contract_label +:+ " variants must be a list"))
  end.
End variants.

Definition select_requirement_variant (raw_variants : pyval) (inputs : dict pyval)
    : res (dict pyval) :=
  select_exact_input_variant inputs "resource_requirements" "resource requirement" raw_variants.

(** * requirements.py *)

Definition DB_WRITE_BUDGETS : list string := ["none"; "low"; "medium"; "high"].
Definition DURATION_CLASSES : list string := ["short"; "medium"; "long"].

Record ResourceRequirements : Type := mkReq {
  resource_class : option string;
  browser_contexts : Z;
  ig_profile_lock : option string;
  cpu_weight : Z;
  memory_mb : Z;
  browser_startup_memory_mb : Z;
  browser_startup_spacing_seconds : Z;
  memory_profile_id : option string;
  memory_reservation_source : option string;
  vision_lane : option string;
  llm_lane : option string;
  db_write_budget : string;
  expected_duration_class : string;
}.

Definition default_requirements : ResourceRequirements :=
  mkReq None 0 None 1 0 0 0 None None None None "low" "short".

(** [to_dict] *)
Definition req_to_dict (r : ResourceRequirements) : dict pyval :=
  [("resource_class", py_opt (resource_class r));
   ("browser_contexts", PInt (browser_contexts r));
   ("ig_profile_lock", py_opt (ig_profile_lock r));
   ("cpu_weight", PInt (cpu_weight r));
   ("memory_mb", PInt (memory_mb r));
   ("browser_startup_memory_mb", PInt (browser_startup_memory_mb r));
   ("browser_startup_spacing_seconds", PInt (browser_startup_spacing_seconds r));
   ("memory_profile_id", py_opt (memory_profile_id r));
   ("memory_reservation_source", py_opt (memory_reservation_source r));
   ("vision_lane", py_opt (vision_lane r));
   ("llm_lane", py_opt (llm_lane r));
   ("db_write_budget", PStr (db_write_budget r));
   ("expected_duration_class", PStr (expected_duration_class r))].

Definition _as_mapping (value : pyval) : dict pyval := dict_or_empty value.

Definition _positive_int (value : pyval) (dflt minimum maximum : Z) : res Z :=
  match py_int value with
  | Ok parsed => Ok (Z.max minimum (Z.min parsed maximum))
  | Raise e => if is_type_or_value_error e then Ok dflt else Raise e
  end.

Definition _optional_token (value : pyval) : option string :=
  match value with
  | PNone | PBool false => None
  | PBool true => Some "__auto__"
  | PStr s => str_opt (strip s)
  | PList _ | PDict _ => None
  | PInt _ | PFloat _ => str_opt (strip (py_str value))
  end.

Definition _enum (value : pyval) (allowed : list string) (dflt : string) : string :=
  match value with
  | PStr s =>
      let normalized := lower (strip s) in
      if bool_decide (normalized ∈ allowed) then normalized else dflt
  | _ => dflt
  end.

Definition _render_template (value : string) (context inputs : dict pyval) : string :=
  let replacements :=
    [("workspace_id", py_or (py_or (pget "workspace_id" context) (pget "workspace_id" inputs)) (PStr ""));
     ("pack_id", py_or (py_or (pget "pack_id" context) (pget "playbook_code" context)) (PStr ""));
     ("playbook_code", py_or (py_or (pget "playbook_code" context) (pget "pack_id" context)) (PStr ""));
     ("user_data_dir", py_or (pget "user_data_dir" inputs) (PStr ""));
     ("ig_profile_id", py_or (py_or (pget "ig_profile_id" inputs) (pget "profile_id" inputs)) (PStr ""))] in
  strip (foldl (fun rendered kv =>
           replace ("{" +:+ kv.1 +:+ "}") (py_str (py_or kv.2 (PStr ""))) rendered)
         value replacements).

Definition or_else {A} (x y : option A) : option A :=
  match x with Some _ => x | None => y end.

Definition _resolve_profile_lock (value : pyval) (context inputs : dict pyval)
    : option string :=
  match _optional_token value with
  | None => None
  | Some token =>
      let token :=
        if bool_decide (token = "__auto__")
        then default "default"
               (or_else (_optional_token (pget "ig_profile_id" inputs))
                 (or_else (_optional_token (pget "profile_id" inputs))
                          (_optional_token (pget "user_data_dir" inputs))))
        else token in
      let resolved := _render_template token context inputs in
      str_opt (if starts_with "/" resolved then normpath resolved else resolved)
  end.

Definition _resolve_lane (value : pyval) : option string :=
  match _optional_token value with
  | None => None
  | Some token => if bool_decide (token = "__auto__") then Some "default" else Some token
  end.

(** [data[k] = f(raw.get(k))] under [if k in raw]. *)
Definition if_in {A} (k : string) (raw : dict pyval) (base : A) (f : pyval -> res A) : res A :=
  match dget k raw with Some v => f v | None => Ok base end.

Definition _coerce_requirements (raw : dict pyval) (base : ResourceRequirements)
    (context inputs : dict pyval) : res ResourceRequirements :=
  bc ← if_in "browser_contexts" raw (browser_contexts base)
         (fun v => _positive_int v (browser_contexts base) 0 100);
  lock ← if_in "ig_profile_lock" raw (ig_profile_lock base)
         (fun v => Ok (_resolve_profile_lock v context inputs));
  cpu ← if_in "cpu_weight" raw (cpu_weight base)
         (fun v => _positive_int v (cpu_weight base) 1 100);
  mem ← if_in "memory_mb" raw (memory_mb base)
         (fun v => _positive_int v (memory_mb base) 0 1048576);
  smem ← if_in "browser_startup_memory_mb" raw (browser_startup_memory_mb base)
         (fun v => _positive_int v (browser_startup_memory_mb base) 0 1048576);
  spacing ← if_in "browser_startup_spacing_seconds" raw (browser_startup_spacing_seconds base)
         (fun v => _positive_int v (browser_startup_spacing_seconds base) 0 3600);
  prof ← if_in "memory_profile_id" raw (memory_profile_id base)
         (fun v => Ok (_optional_token v));
  vis ← if_in "vision_lane" raw (vision_lane base) (fun v => Ok (_resolve_lane v));
  llm ← if_in "llm_lane" raw (llm_lane base) (fun v => Ok (_resolve_lane v));
  db ← if_in "db_write_budget" raw (db_write_budget base)
         (fun v => Ok (_enum v DB_WRITE_BUDGETS (db_write_budget base)));
  dur ← if_in "expected_duration_class" raw (expected_duration_class base)
         (fun v => Ok (_enum v DURATION_CLASSES (expected_duration_class base)));
  Ok (mkReq (resource_class base) bc lock cpu mem smem spacing prof
        (memory_reservation_source base) vis llm db dur).

(** [a or b] on mappings. *)
Definition dict_or (a b : dict pyval) : dict pyval := match a with [] => b | _ => a end.

Definition _metadata_resource_requirements (metadata : dict pyval) : dict pyval :=
  let direct := _as_mapping (pget "resource_requirements" metadata) in
  dict_or direct
    (_as_mapping (pget "resource_requirements"
                    (_as_mapping (pget "execution_profile" metadata)))).

Definition _metadata_requirement_variant (metadata inputs : dict pyval) : res (dict pyval) :=
  let raw_variants := pget "resource_requirement_variants" metadata in
  let raw_variants :=
    if is_none raw_variants
    then pget "resource_requirement_variants"
           (_as_mapping (pget "execution_profile" metadata))
    else raw_variants in
  select_requirement_variant raw_variants inputs.

Definition _context_execution_profile_requirements (context : dict pyval) : dict pyval :=
  _as_mapping (pget "resource_requirements"
                 (_as_mapping (pget "execution_profile" context))).

Fixpoint first_token (raws : list pyval) : option string :=
  match raws with
  | [] => None
  | v :: r => match _optional_token v with
              | Some t => Some (lower t)
              | None => first_token r
              end
  end.

Definition _execution_profile_resource_class (metadata context : dict pyval) : option string :=
  first_token
    [pget "resource_class" context; pget "resource_class" metadata;
     pget "resource_class" (_as_mapping (pget "execution_profile" context));
     pget "resource_class" (_as_mapping (pget "execution_profile" metadata))].

(** [d.setdefault(k, v)] *)
Definition setdefault (k : string) (v : pyval) (d : dict pyval) : dict pyval :=
  if dmem k d then d else dset k v d.

(** The context resolution works on. *)
Definition requirement_context (task : task_arg) (execution_context : pyval) : dict pyval :=
  let context := _as_mapping execution_context in
  match task with
  | TMap d => setdefault "pack_id" (pget "pack_id" d) context
  | TObj attrs =>
      let context := match context with
                     | [] => _as_mapping (getattr attrs "execution_context" PNone)
                     | _ => context
                     end in
      setdefault "pack_id" (getattr attrs "pack_id" PNone) context
  end.

(** The sources of requirements, from the weakest to the strongest. *)
Definition requirement_sources (context metadata : dict pyval) (pack_defaults : pyval)
    : res (list (dict pyval)) :=
  let inputs := _as_mapping (pget "inputs" context) in
  variant ← _metadata_requirement_variant metadata inputs;
  Ok [dict_or (_as_mapping pack_defaults) (_as_mapping (pget "pack_resource_defaults" context));
      _metadata_resource_requirements metadata;
      variant;
      _context_execution_profile_requirements context;
      dict_or (_as_mapping (pget "resource_requirements" context))
              (_as_mapping (pget "runner_resource_requirements" context))].

Fixpoint fold_sources (context inputs : dict pyval) (sources : list (dict pyval))
    (resolved : ResourceRequirements) : res ResourceRequirements :=
  match sources with
  | [] => Ok resolved
  | [] :: r => fold_sources context inputs r resolved
  | source :: r =>
      resolved ← _coerce_requirements source resolved context inputs;
      fold_sources context inputs r resolved
  end.

(** The fields set after the sources are folded. *)
Definition finish_requirements (resolved : ResourceRequirements) (cls : option string)
    (browser_contexts_declared memory_declared : bool) : ResourceRequirements :=
  mkReq cls
    (if bool_decide (cls = Some "browser") && negb browser_contexts_declared
        && (browser_contexts resolved =? 0)
     then 1 else browser_contexts resolved)
    (ig_profile_lock resolved) (cpu_weight resolved) (memory_mb resolved)
    (browser_startup_memory_mb resolved) (browser_startup_spacing_seconds resolved)
    (memory_profile_id resolved)
    (if memory_declared && (0 <? memory_mb resolved) then Some "playbook_profile"
     else memory_reservation_source resolved)
    (vision_lane resolved) (llm_lane resolved) (db_write_budget resolved)
    (expected_duration_class resolved).

Definition resolve_resource_requirements (task : task_arg)
    (execution_context playbook_metadata pack_defaults : pyval)
    : res ResourceRequirements :=
  let context := requirement_context task execution_context in
  let inputs := _as_mapping (pget "inputs" context) in
  let metadata := _as_mapping playbook_metadata in
  sources ← requirement_sources context metadata pack_defaults;
  let browser_contexts_declared := existsb (dmem "browser_contexts") sources in
  let memory_declared := existsb (dmem "memory_mb") sources in
  resolved ← fold_sources context inputs sources default_requirements;
  Ok (finish_requirements resolved (_execution_profile_resource_class metadata context)
        browser_contexts_declared memory_declared).

(** * Bounds of the resolved requirements *)

Definition clamp (lo hi z : Z) : Z := Z.max lo (Z.min z hi).

(** What every consumer of resolved requirements relies on. *)
Record req_ok (r : ResourceRequirements) : Prop := {
  ok_contexts : 0 <= browser_contexts r <= 100;
  ok_cpu : 1 <= cpu_weight r <= 100;
  ok_memory : 0 <= memory_mb r <= 1048576;
  ok_startup_memory : 0 <= browser_startup_memory_mb r <= 1048576;
  ok_spacing : 0 <= browser_startup_spacing_seconds r <= 3600;
  ok_lock : ig_profile_lock r ≠ Some "";
  ok_vision : vision_lane r ≠ Some "";
  ok_llm : llm_lane r ≠ Some "";
  ok_db : db_write_budget r ∈ DB_WRITE_BUDGETS;
  ok_duration : expected_duration_class r ∈ DURATION_CLASSES;
}.

Lemma positive_int_bounds v d lo hi z :
  _positive_int v d lo hi = Ok z -> lo <= hi -> lo <= d <= hi -> lo <= z <= hi.
Proof.
  unfold _positive_int. destruct (py_int v) as [p|e].
  - intros [= <-]. lia.
  - destruct (is_type_or_value_error e); [intros [= <-]; done | done].
Qed.

Lemma if_in_inv {A} k raw (base : A) f x (P : A -> Prop) :
  if_in k raw base f = Ok x -> P base -> (forall v, f v = Ok x -> P x) -> P x.
Proof. unfold if_in. destruct (dget k raw); [eauto | by intros [= <-]]. Qed.

Lemma optional_token_ne v : _optional_token v ≠ Some "".
Proof.
  destruct v as [|[]|z|f|s|l|d]; simpl; try done;
    intros [? ?]%str_opt_Some; done.
Qed.

Lemma resolve_lane_ne v : _resolve_lane v ≠ Some "".
Proof.
  unfold _resolve_lane. pose proof (optional_token_ne v).
  destruct (_optional_token v) as [t|]; [|done]. case_bool_decide; congruence.
Qed.

Lemma resolve_profile_lock_ne v c i : _resolve_profile_lock v c i ≠ Some "".
Proof.
  unfold _resolve_profile_lock. destruct (_optional_token v); [|done].
  intros [_ ?]%str_opt_Some. done.
Qed.

Lemma enum_allowed v allowed d : d ∈ allowed -> _enum v allowed d ∈ allowed.
Proof. destruct v; simpl; intros; try done. by case_bool_decide. Qed.

Ltac bounded H :=
  match type of H with
  | if_in _ _ _ _ = Ok ?x =>
      match goal with
      | |- context [x] => pattern x; eapply (if_in_inv _ _ _ _ _ _ H)
      end
  end.

Lemma coerce_ok raw base c i r :
  req_ok base -> _coerce_requirements raw base c i = Ok r -> req_ok r.
Proof.
  intros [] H. unfold _coerce_requirements in H.
  do 11 (apply bind_Ok_inv in H as (? & ? & H)). inv H.
  constructor; simpl;
    match goal with
    | H : if_in _ _ _ _ = Ok ?x |- context [?x] => bounded H
    end; try done; intros v Hv;
    first [ eapply positive_int_bounds in Hv; simpl in *; lia
          | inv Hv; eauto using resolve_lane_ne, resolve_profile_lock_ne, enum_allowed ].
Qed.

Lemma fold_sources_ok c i sources base r :
  req_ok base -> fold_sources c i sources base = Ok r -> req_ok r.
Proof.
  revert base. induction sources as [|s sources IH]; simpl; intros base Hb H.
  { by inv H. }
  destruct s; [by eapply IH|].
  apply bind_Ok_inv in H as (r1 & H1 & H). eauto using coerce_ok.
Qed.

Lemma default_requirements_ok : req_ok default_requirements.
Proof. constructor; simpl; try lia; try done; repeat constructor; set_solver. Qed.

Lemma finish_ok r cls bd md : req_ok r -> req_ok (finish_requirements r cls bd md).
Proof. intros []. constructor; simpl; try done. destruct (_ && _); lia. Qed.

#[export] Hint Resolve default_requirements_ok finish_ok : py.

(** Whatever the playbook metadata, the pack defaults and the task context
    hold, the requirements a task resolves to are within their bounds: context
    counts, weights, memory sizes and spacings lie in their ranges, locks and
    lanes are never empty strings, budgets and duration classes are legal. *)
Theorem resolved_requirements_bounded task ctx metadata defaults r :
  resolve_resource_requirements task ctx metadata defaults = Ok r -> req_ok r.
Proof.
  unfold resolve_resource_requirements. intros H.
  apply bind_Ok_inv in H as (srcs & _ & H). apply bind_Ok_inv in H as (r1 & Hf & H).
  inv H. eauto using fold_sources_ok with py.
Qed.

Theorem resolved_requirements_bounded_witness :
  exists r,
    resolve_resource_requirements
      (TMap [("pack_id", PStr "ig")])
      (PDict [("resource_requirements",
               PDict [("browser_contexts", PInt 900); ("cpu_weight", PStr "0")])])
      PNone PNone = Ok r /\ req_ok r.
Proof.
  eexists. split; [by vm_compute|].
  eapply (resolved_requirements_bounded
    (TMap [("pack_id", PStr "ig")])
    (PDict [("resource_requirements",
             PDict [("browser_contexts", PInt 900); ("cpu_weight", PStr "0")])])
    PNone PNone). by vm_compute.
Defined.

(** * Precedence of the sources *)

(** The memory a source declares, when its declaration converts to a number. *)
Definition declared_memory (source : dict pyval) : option Z :=
  match dget "memory_mb" source with
  | Some v => match py_int v with Ok z => Some (clamp 0 1048576 z) | Raise _ => None end
  | None => None
  end.

(** The last declaration of a list. *)
Fixpoint last_some {A} (l : list (option A)) : option A :=
  match l with
  | [] => None
  | o :: r => match last_some r with Some a => Some a | None => o end
  end.

Lemma coerce_memory raw base c i r :
  _coerce_requirements raw base c i = Ok r ->
  memory_mb r = default (memory_mb base) (declared_memory raw).
Proof.
  intros H. unfold _coerce_requirements in H.
  do 11 (apply bind_Ok_inv in H as (? & ? & H)). inv H. simpl.
  unfold declared_memory.
  match goal with H : if_in "memory_mb" _ _ _ = _ |- _ => unfold if_in in H; revert H end.
  destruct (dget "memory_mb" raw) as [v|]; [|by intros [= ->]].
  unfold _positive_int. destruct (py_int v) as [z|e]; [by intros [= <-]|].
  destruct (is_type_or_value_error e); by intros [= <-].
Qed.

Lemma fold_sources_memory c i sources base r :
  fold_sources c i sources base = Ok r ->
  memory_mb r = default (memory_mb base) (last_some (map declared_memory sources)).
Proof.
  revert base. induction sources as [|s sources IH]; simpl; intros base H.
  { by inv H. }
  assert (Hs : exists r1, fold_sources c i sources r1 = Ok r
                 /\ memory_mb r1 = default (memory_mb base) (declared_memory s)).
  { destruct s; [by exists base|]. apply bind_Ok_inv in H as (r1 & H1 & H).
    eexists. split; [done|]. by eapply coerce_memory. }
  destruct Hs as (r1 & Hr & Hm). rewrite (IH _ Hr), Hm.
  by destruct (last_some _).
Qed.

(** The memory a task is admitted with is the one declared by the strongest
    source that declares a convertible value (the task context over the
    execution profile, over the matching variant, over the playbook metadata,
    over the pack defaults), clamped to 0..1048576, and 0 when none does; it
    is marked as a measured profile exactly when a source declares it and it
    is positive. *)
Theorem memory_precedence task ctx metadata defaults r srcs :
  resolve_resource_requirements task ctx metadata defaults = Ok r ->
  requirement_sources (requirement_context task ctx) (_as_mapping metadata) defaults = Ok srcs ->
  memory_mb r = default 0 (last_some (map declared_memory srcs)) /\
  (memory_reservation_source r = Some "playbook_profile" <->
   existsb (dmem "memory_mb") srcs = true /\ 0 < memory_mb r).
Proof.
  unfold resolve_resource_requirements. intros H Hs. rewrite Hs in H.
  apply bind_Ok_inv in H as (? & [= <-] & H).
  apply bind_Ok_inv in H as (r1 & Hf & H). inv H.
  assert (Hm : memory_mb r1 = default 0 (last_some (map declared_memory srcs)))
    by (by apply fold_sources_memory in Hf).
  assert (Hsrc : memory_reservation_source r1 = None).
  { clear -Hf. revert Hf. generalize default_requirements (eq_refl : memory_reservation_source
      default_requirements = None). induction srcs as [|s srcs IH]; simpl; intros b Hb Hf.
    { by inv Hf. }
    destruct s as [|kv s]; [by eapply IH|]. apply bind_Ok_inv in Hf as (b1 & Hc & Hf).
    eapply IH, Hf. unfold _coerce_requirements in Hc.
    do 11 (apply bind_Ok_inv in Hc as (? & ? & Hc)). by inv Hc. }
  split; [done|]. simpl. rewrite Hsrc. destruct (_ && _) eqn:E.
  - bool_prop. naive_solver.
  - apply andb_false_iff in E. split; [done|]. intros [H1 H2].
    rewrite H1 in E. destruct E as [E|E]; [done|]. bool_prop. lia.
Qed.

Theorem memory_precedence_witness :
  exists r,
    resolve_resource_requirements (TMap [])
      (PDict [("resource_requirements", PDict [("memory_mb", PStr "512")]);
              ("pack_resource_defaults", PDict [("memory_mb", PInt 64)])])
      PNone PNone = Ok r /\ memory_mb r = 512
      /\ memory_reservation_source r = Some "playbook_profile".
Proof.
  set (ctx := PDict [("resource_requirements", PDict [("memory_mb", PStr "512")]);
              ("pack_resource_defaults", PDict [("memory_mb", PInt 64)])]).
  eexists. split; [by vm_compute|].
  edestruct (memory_precedence (TMap []) ctx PNone PNone) as [Hm Hs];
    [by vm_compute | by vm_compute |].
  split; [exact Hm|]. apply Hs. split; by vm_compute.
Defined.

(** * Variants *)

Section variant_facts.
Variable inputs : dict pyval.
Variables payload_key label : string.

Abbreviation matches := (match_variant inputs payload_key label).

(** The matching payloads, in list order. *)
Definition keep_some {A} (l : list (option A)) : list A :=
  foldr (fun o acc => match o with Some a => a :: acc | None => acc end) [] l.

Lemma variant_matches_spec l ms :
  variant_matches inputs payload_key label l = Ok ms <->
  exists os, map matches l = map Ok os /\ ms = keep_some os.
Proof.
  revert ms. induction l as [|v l IH]; simpl; intros ms.
  - split; [intros [= <-]; by exists []|]. intros ([|o os] & Hm & ->); done.
  - split.
    + intros H. apply bind_Ok_inv in H as (o & Ho & H).
      apply bind_Ok_inv in H as (ms' & Hms & H). inv H.
      apply IH in Hms as (os & Hos & ->). exists (o :: os). simpl.
      by rewrite Ho, Hos.
    + intros ([|o os] & Hm & ->); [done|]. injection Hm as Ho Hos. rewrite Ho. simpl.
      destruct (IH (keep_some os)) as [_ IH2]. rewrite IH2 by eauto. done.
Qed.

Lemma keep_some_perm {A} (l l' : list (option A)) :
  l ≡ₚ l' -> keep_some l ≡ₚ keep_some l'.
Proof.
  induction 1 as [|o l l' _ IH|a b l|l1 l2 l3 _ IH1 _ IH2]; simpl; try done.
  - destruct o; [by constructor | done].
  - destruct a, b; try done. constructor.
  - by etrans.
Qed.

Lemma map_Ok_perm {A} (l l' : list (res A)) os :
  l ≡ₚ l' -> l = map Ok os -> exists os', l' = map Ok os' /\ os ≡ₚ os'.
Proof.
  intros Hp. revert os. induction Hp as [|o l l' _ IH|a b l|l1 l2 l3 _ IH1 _ IH2];
    intros os Hos.
  - by exists os; split.
  - destruct os as [|x os]; [done|]. injection Hos as -> Hl.
    destruct (IH os Hl) as (os' & -> & Hp'). exists (x :: os'). split; [done|].
    by constructor.
  - destruct os as [|x [|y os]]; try done. injection Hos as -> -> ->.
    exists (y :: x :: os). split; [done | constructor].
  - destruct (IH1 os Hos) as (os' & H1 & Hp1). destruct (IH2 os' H1) as (os'' & H2 & Hp2).
    exists os''. split; [done | by etrans].
Qed.

(** A variant is never chosen by list order: any reordering of a variant
    list that resolves selects the same payload, and a non-empty selected
    payload comes from exactly one matching variant. *)
Theorem variant_selection_order_free l l' m :
  select_exact_input_variant inputs payload_key label (PList l) = Ok m -> l ≡ₚ l' ->
  select_exact_input_variant inputs payload_key label (PList l') = Ok m /\
  (m ≠ [] -> exists pre v post,
     l = pre ++ v :: post /\ matches v = Ok (Some m) /\
     Forall (fun w => matches w = Ok None) (pre ++ post)).
Proof.
  simpl. intros H Hp. apply bind_Ok_inv in H as (ms & Hms & H).
  apply variant_matches_spec in Hms as (os & Hos & ->).
  destruct (map_Ok_perm _ (map matches l') os (Permutation_map _ Hp) Hos) as (os' & Hos' & Hpo).
  destruct (variant_matches_spec l' (keep_some os')) as [_ Hv].
  rewrite Hv by eauto. simpl. pose proof (keep_some_perm _ _ Hpo) as Hk. split.
  - destruct (keep_some os) as [|a [|b r]].
    + apply Permutation_nil in Hk. by rewrite Hk.
    + apply Permutation_singleton_l in Hk. by rewrite <- Hk.
    + done.
  - intros Hne. destruct (keep_some os) as [|a [|b r]] eqn:Ek; [by inv H | | done].
    inv H. clear -Hos Ek. revert os Hos Ek.
    induction l as [|v l IH]; intros [|o os] Hos Ek; try done.
    injection Hos as Hv Hos. simpl in Ek. destruct o as [p|].
    + injection Ek as -> Ek. exists [], v, l. split; [done|]. split; [done|]. simpl.
      clear -Hos Ek. revert os Hos Ek. induction l as [|w l IH]; intros [|o os] Hos Ek;
        try done. injection Hos as Hw Hos. destruct o; [done|].
      constructor; [done | by eapply IH].
    + destruct (IH os Hos Ek) as (pre & w & post & -> & Hw & Hf).
      exists (v :: pre), w, post. split; [done|]. split; [done|]. by constructor.
Qed.
End variant_facts.

Definition sample_variants : list pyval :=
  [PDict [("when", PDict [("input", PStr "mode"); ("equals", PStr "fast")]);
          ("resource_requirements", PDict [("memory_mb", PInt 256)])];
   PDict [("when", PDict [("input", PStr "mode"); ("equals", PStr "slow")]);
          ("resource_requirements", PDict [("memory_mb", PInt 128)])]].

Theorem variant_selection_order_free_witness :
  select_requirement_variant (PList (rev sample_variants)) [("mode", PStr " fast ")]
  = Ok [("memory_mb", PInt 256)].
Proof.
  eapply (proj1 (variant_selection_order_free [("mode", PStr " fast ")]
    "resource_requirements" "resource requirement" sample_variants (rev sample_variants)
    [("memory_mb", PInt 256)] ltac:(by vm_compute) ltac:(apply Permutation_rev))).
Defined.

(** An infinite float is not caught by the fallback to the default. *)
Lemma infinite_requirement_raises d lo hi neg text :
  _positive_int (PFloat {| fl_val := FInf neg; fl_repr := text |}) d lo hi
  = Raise (OverflowError "cannot convert float infinity to integer").
Proof. done. Qed.
