(* ===== verification/NodeBudget.v ===== *)
(** The VM-wide browser byte budget (runner_resources/node_budget_contract.py,
    node_budget_test_store.py): the policy derived from the node snapshot, the
    bytes a task asks for, reservations and their round trip through the task
    context, the [NodeBudgetStore] protocol as a class with its laws, and the
    in-memory store with its capacity invariant. *)
From S2P Require Import Prelude PyDict PyStr PyVal PyJson PyTime Requirements.

Definition NODE_BUDGET_CONTEXT_KEY : string := "runner_node_budget_reservation".
Definition NODE_BUDGET_ID : string := "docker_vm_browser_memory".
Definition MIB : Z := 1024 * 1024.

Record NodeBudgetPolicy : Type := mkPolicy {
  mode : string;
  total_bytes : Z;
  vm_overhead_peak_bytes : Z;
  non_browser_peak_bytes : Z;
  browser_idle_peak_bytes : Z;
  allocatable_bytes : Z;
  fingerprint : string;
}.

Record NodeBudgetReservation : Type := mkReservation {
  owner_id : string;
  bytes : Z;
  revision : Z;
  expires_at_epoch : Z;                       (** ticks *)
  policy_fingerprint : string;
  resource_profile_fingerprint_of : string;
  reservation_allocatable_bytes : Z;
  policy_mode : string;
  reconciliation_evidence_fingerprint : option string;
  reconciled_from_bytes : option Z;
  reconciled_at_epoch : option Z;             (** ticks *)
}.

#[export] Instance NodeBudgetReservation_eq_dec : EqDecision NodeBudgetReservation.
Proof. solve_decision. Defined.

Record NodeBudgetAcquireResult : Type := mkAcquire {
  allow : bool;
  reason : option string;
  reservation : option NodeBudgetReservation;
  reserved_bytes : Z;
  request_bytes_of : Z;
  result_policy : NodeBudgetPolicy;
}.

(** * Policy *)

Definition _env_mb (name : string) (source : dict string) : option Z :=
  match dget name source with
  | None => None
  | Some raw =>
      if bool_decide (strip raw = "") then None else
      match parse_int (strip raw) with
      | Some value => if 0 <=? value then Some value else None
      | None => None
      end
  end.

Definition fingerprint_payload (payload : dict pyval) : res string :=
  encoded ← json_dumps true true (PDict payload);
  Ok (Sha256.hexdigest (utf8 encoded)).

Definition resource_profile_fingerprint (requirements : ResourceRequirements)
    (request_bytes : Z) : res string :=
  fingerprint_payload
    (dset "resolved_request_bytes" (PInt request_bytes) (req_to_dict requirements)).

(** [int(v or 0)] *)
Definition int_or_zero (v : pyval) : res Z := py_int (py_or v (PInt 0)).

Definition policy_payload (md : string) (total overhead non_browser idle alloc : Z)
    : dict pyval :=
  [("mode", PStr md); ("total_bytes", PInt total);
   ("vm_overhead_peak_bytes", PInt overhead);
   ("non_browser_peak_bytes", PInt non_browser);
   ("browser_idle_peak_bytes", PInt idle);
   ("allocatable_bytes", PInt alloc)].

(** The mode and the three peaks: calibrated when all three variables are set,
    else bootstrapped from the cgroup limit. *)
Definition policy_terms (source : dict string) (total cgroup_limit : Z)
    : option (string * Z * Z * Z) :=
  match _env_mb "LOCAL_CORE_RUNNER_NODE_VM_OVERHEAD_PEAK_MB" source,
        _env_mb "LOCAL_CORE_RUNNER_NODE_NON_BROWSER_PEAK_MB" source,
        _env_mb "LOCAL_CORE_RUNNER_NODE_BROWSER_IDLE_PEAK_MB" source with
  | Some overhead, Some non_browser, Some idle =>
      Some ("calibrated", overhead * 1024 * 1024, non_browser * 1024 * 1024,
            idle * 1024 * 1024)
  | _, _, _ =>
      if (0 <? cgroup_limit) && (cgroup_limit <=? total)
      then Some ("bootstrap_full_cgroup", total - cgroup_limit, 0, 0)
      else None
  end.

Definition resolve_node_budget_policy (node_snapshot : dict pyval) (source : dict string)
    : res (option NodeBudgetPolicy) :=
  let sizes :=
    total ← int_or_zero (pget "total_bytes" node_snapshot);
    limit ← int_or_zero (pget "cgroup_limit_bytes" node_snapshot);
    Ok (Some (total, limit)) in
  sizes ← try_except sizes is_type_or_value_error (Ok None);
  match sizes with
  | None => Ok None
  | Some (total, limit) =>
      if total <=? 0 then Ok None else
      match policy_terms source total limit with
      | None => Ok None
      | Some (md, overhead, non_browser, idle) =>
          let allocatable := Z.max 0 (total - overhead - non_browser - idle) in
          fp ← fingerprint_payload (policy_payload md total overhead non_browser idle allocatable);
          Ok (Some (mkPolicy md total overhead non_browser idle allocatable fp))
      end
  end.

(** [asdict(policy)] *)
Definition policy_to_dict (p : NodeBudgetPolicy) : dict pyval :=
  policy_payload (mode p) (total_bytes p) (vm_overhead_peak_bytes p)
    (non_browser_peak_bytes p) (browser_idle_peak_bytes p) (allocatable_bytes p)
  ++ [("fingerprint", PStr (fingerprint p))].

(** Bytes a browser task keeps reserved for its lifetime, with their origin. *)
Definition resolve_browser_request_bytes (requirements : ResourceRequirements)
    (source : dict string) : option (Z * string) :=
  let explicit_mb := memory_mb requirements in
  let startup_mb := browser_startup_memory_mb requirements in
  if 0 <? explicit_mb then Some (explicit_mb * 1024 * 1024, "playbook_steady_profile")
  else if 0 <? startup_mb then Some (startup_mb * 1024 * 1024, "playbook_startup_fallback")
  else match _env_mb "LOCAL_CORE_RUNNER_BROWSER_UNMEASURED_RESERVATION_MB" source with
       | Some floor_mb =>
           if 0 <? floor_mb then Some (floor_mb * 1024 * 1024, "observed_unmeasured_floor")
           else None
       | None => None
       end.

(** * Reservations in the task context *)

(** The shortest decimal text that reads back as the same clock value. *)
Fixpoint tick_repr_go (fuel : nat) (digits : Z) (t : Z) : string :=
  let p := 10 ^ digits in
  let n := (2 * t * p + TICKS_PER_SECOND) / (2 * TICKS_PER_SECOND) in
  let back := (2 * n * TICKS_PER_SECOND + p) / (2 * p) in
  let text := str_int (n / p) +:+ "." +:+
              (let f := str_int (n mod p) in
               String.concat "" (replicate (Z.to_nat digits - String.length f) "0") +:+ f) in
  match fuel with
  | O => text
  | S k => if back =? t then text else tick_repr_go k (digits + 1) t
  end.
Definition tick_float (t : Z) : pyval :=
  PFloat {| fl_val := FFin t (-22); fl_repr := tick_repr_go 7 1 t |}.

Definition py_optF (o : option Z) : pyval :=
  match o with Some t => tick_float t | None => PNone end.

(** [to_context] *)
Definition reservation_to_context (r : NodeBudgetReservation) : dict pyval :=
  [("owner_id", PStr (owner_id r)); ("bytes", PInt (bytes r));
   ("revision", PInt (revision r)); ("expires_at_epoch", tick_float (expires_at_epoch r));
   ("policy_fingerprint", PStr (policy_fingerprint r));
   ("resource_profile_fingerprint", PStr (resource_profile_fingerprint_of r));
   ("allocatable_bytes", PInt (reservation_allocatable_bytes r));
   ("policy_mode", PStr (policy_mode r));
   ("reconciliation_evidence_fingerprint", py_opt (reconciliation_evidence_fingerprint r));
   ("reconciled_from_bytes", py_optZ (reconciled_from_bytes r));
   ("reconciled_at_epoch", py_optF (reconciled_at_epoch r))].

Section from_context.
(** [float(s)] of a text, in ticks: decimal parsing is the interpreter's. *)
Variable float_of_text : string -> option Z.

Definition py_float (v : pyval) : res Z :=
  match v with
  | PBool b => Ok (secs (if b then 1 else 0))
  | PInt z => Ok (secs z)
  | PFloat f =>
      match fl_val f with
      | FFin m e => Ok (if 0 <=? e + 22 then m * 2 ^ (e + 22) else m / 2 ^ (- (e + 22)))
      | _ => Raise (OtherError "OutOfModel" "non-finite clock value")
      end
  | PStr s =>
      match float_of_text s with
      | Some t => Ok t
      | None => Raise (ValueError "could not convert string to float")
      end
  | _ => Raise (TypeError "float() argument must be a string or a real number")
  end.

Definition read_reservation (raw : dict pyval) : res NodeBudgetReservation :=
  owner ← pitem "owner_id" raw;
  b ← pitem "bytes" raw ≫= py_int;
  rev ← pitem "revision" raw ≫= py_int;
  exp ← pitem "expires_at_epoch" raw ≫= py_float;
  pfp ← pitem "policy_fingerprint" raw;
  rfp ← pitem "resource_profile_fingerprint" raw;
  alloc ← pitem "allocatable_bytes" raw ≫= py_int;
  md ← pitem "policy_mode" raw;
  let ev := pget "reconciliation_evidence_fingerprint" raw in
  evidence ← Ok (if truthy ev then Some (py_str ev) else None);
  let from := pget "reconciled_from_bytes" raw in
  from_bytes ← (if is_none from then Ok None else Some <$> py_int from);
  let at_ := pget "reconciled_at_epoch" raw in
  at_epoch ← (if is_none at_ then Ok None else Some <$> py_float at_);
  Ok (mkReservation (py_str owner) b rev exp (py_str pfp) (py_str rfp) alloc (py_str md)
        evidence from_bytes at_epoch).

Definition is_key_type_value_error (e : exn) : bool :=
  match e with KeyError _ => true | _ => is_type_or_value_error e end.

Definition reservation_from_context (context : pyval) : res (option NodeBudgetReservation) :=
  match context with
  | PDict ctx =>
      match pget NODE_BUDGET_CONTEXT_KEY ctx with
      | PDict raw =>
          match read_reservation raw with
          | Ok r => Ok (Some r)
          | Raise e => if is_key_type_value_error e then Ok None else Raise e
          end
      | _ => Ok None
      end
  | _ => Ok None
  end.
End from_context.

(** * The [NodeBudgetStore] protocol *)

Class NodeBudgetStore (St : Type) := {
  nb_acquire : string -> Z -> NodeBudgetPolicy -> string -> Z ->
               stres St NodeBudgetAcquireResult;
  nb_renew : NodeBudgetReservation -> Z -> stres St bool;
  nb_reconcile_down : NodeBudgetReservation -> Z -> string -> stres St bool;
  nb_release : NodeBudgetReservation -> stres St bool;
}.

(** Laws: [live s o] is the unexpired reservation of [o] in [s];
    [live_le s' s] says [s'] holds no reservation that [s] did not hold. *)
Class NodeBudgetLaws (St : Type) `{NodeBudgetStore St} := {
  live : St -> string -> option NodeBudgetReservation;
  nb_wf : St -> Prop;
  live_le : St -> St -> Prop := fun s' s =>
    forall o r, live s' o = Some r -> live s o = Some r;
  nb_acquire_wf : forall o n p fp ttl s r s',
    nb_wf s -> nb_acquire o n p fp ttl s = (r, s') -> nb_wf s';
  nb_acquire_denied : forall o n p fp ttl s r s',
    nb_wf s -> nb_acquire o n p fp ttl s = (Ok r, s') ->
    allow r = false \/ reservation r = None -> live_le s' s;
  nb_acquire_granted : forall o n p fp ttl s r v s',
    nb_wf s ->
    nb_acquire o n p fp ttl s = (Ok r, s') -> allow r = true -> reservation r = Some v ->
    owner_id v = o /\ bytes v = n /\ live s' o = Some v /\
    forall o' v', live s' o' = Some v' -> (o' = o /\ v' = v) \/ live s o' = Some v';
  nb_release_wf : forall v s b s', nb_wf s -> nb_release v s = (b, s') -> nb_wf s';
  nb_release_ok : forall v b s s',
    nb_wf s -> nb_release v s = (Ok b, s') ->
    live_le s' s /\ forall v', live s' (owner_id v) = Some v' -> revision v' ≠ revision v;
}.

#[export] Instance live_le_preorder {St : Type} `{NodeBudgetLaws St} : PreOrder live_le.
Proof.
  split; [intros s o r; done | intros a b c Hab Hbc o r Hr; by apply Hbc, Hab].
Qed.

(** * [InMemoryNodeBudgetStore] *)
Module Memory.

Record store : Type := mkStore {
  now_epoch : Z;                                    (** ticks *)
  revision_counter : Z;
  reservations : dict NodeBudgetReservation;
  policy : option NodeBudgetPolicy;
}.

Definition init (now : Z) : store := mkStore now 0 [] None.

Definition advance (seconds : Z) (s : store) : store :=
  mkStore (now_epoch s + Z.max 0 seconds) (revision_counter s) (reservations s) (policy s).

Definition _purge (s : store) : store :=
  mkStore (now_epoch s) (revision_counter s)
    (dfilter (fun _ r => now_epoch s <? expires_at_epoch r) (reservations s)) (policy s).

Definition sum_bytes (d : dict NodeBudgetReservation) : Z :=
  foldr (fun kv acc => bytes kv.2 + acc) 0 d.

Definition set_reservation (o : string) (r : NodeBudgetReservation) (s : store) : store :=
  mkStore (now_epoch s) (revision_counter s) (dset o r (reservations s)) (policy s).

Definition expiry (s : store) (ttl_seconds : Z) : Z :=
  now_epoch s + secs (Z.max 1 ttl_seconds).

Definition with_expiry (e : Z) (r : NodeBudgetReservation) : NodeBudgetReservation :=
  mkReservation (owner_id r) (bytes r) (revision r) e (policy_fingerprint r)
    (resource_profile_fingerprint_of r) (reservation_allocatable_bytes r) (policy_mode r)
    (reconciliation_evidence_fingerprint r) (reconciled_from_bytes r) (reconciled_at_epoch r).

(** [self.policy = policy] *)
Definition with_policy (p : NodeBudgetPolicy) (s : store) : store :=
  mkStore (now_epoch s) (revision_counter s) (reservations s) (Some p).

Definition acquire (owner : string) (request_bytes : Z) (p : NodeBudgetPolicy)
    (profile_fingerprint : string) (ttl_seconds : Z) (s : store)
    : NodeBudgetAcquireResult * store :=
  let s := with_policy p (_purge s) in
  let reserved := sum_bytes (reservations s) in
  let deny why := (mkAcquire false (Some why) None reserved request_bytes p, s) in
  match dget owner (reservations s) with
  | Some existing =>
      if negb (bytes existing =? request_bytes)
         || negb (bool_decide (policy_fingerprint existing = fingerprint p))
         || negb (bool_decide (resource_profile_fingerprint_of existing = profile_fingerprint))
      then deny "node_budget_owner_conflict"
      else
        let refreshed := with_expiry (expiry s ttl_seconds) existing in
        (mkAcquire true None (Some refreshed) reserved request_bytes p,
         set_reservation owner refreshed s)
  | None =>
      if (request_bytes <=? 0) || (allocatable_bytes p <? reserved + request_bytes)
      then deny "node_budget_exhausted"
      else
        let rev := revision_counter s + 1 in
        let r := mkReservation owner request_bytes rev (expiry s ttl_seconds)
                   (fingerprint p) profile_fingerprint (allocatable_bytes p) (mode p)
                   None None None in
        (mkAcquire true None (Some r) (reserved + request_bytes) request_bytes p,
         mkStore (now_epoch s) rev (dset owner r (reservations s)) (policy s))
  end.

Definition renew (r : NodeBudgetReservation) (ttl_seconds : Z) (s : store) : bool * store :=
  let s := _purge s in
  match dget (owner_id r) (reservations s) with
  | Some current =>
      if revision current =? revision r
      then (true, set_reservation (owner_id r) (with_expiry (expiry s ttl_seconds) current) s)
      else (false, s)
  | None => (false, s)
  end.

Definition reconciled (request_bytes : Z) (evidence : string) (at_ : Z)
    (r : NodeBudgetReservation) : NodeBudgetReservation :=
  mkReservation (owner_id r) request_bytes (revision r) (expires_at_epoch r)
    (policy_fingerprint r) (resource_profile_fingerprint_of r)
    (reservation_allocatable_bytes r) (policy_mode r)
    (Some evidence) (Some (bytes r)) (Some at_).

Definition reconcile_down (r : NodeBudgetReservation) (request_bytes : Z)
    (evidence_fingerprint : string) (s : store) : bool * store :=
  let s := _purge s in
  match dget (owner_id r) (reservations s) with
  | Some current =>
      if negb (revision current =? revision r) || (request_bytes <=? 0)
         || (bytes current <=? request_bytes)
         || bool_decide (strip (str_or evidence_fingerprint "") = "")
      then (false, s)
      else (true, set_reservation (owner_id r)
                    (reconciled request_bytes evidence_fingerprint (now_epoch s) current) s)
  | None => (false, s)
  end.

Definition release (r : NodeBudgetReservation) (s : store) : bool * store :=
  let s := _purge s in
  match dget (owner_id r) (reservations s) with
  | Some current =>
      if revision current =? revision r
      then (true, mkStore (now_epoch s) (revision_counter s)
                    (ddel (owner_id r) (reservations s)) (policy s))
      else (false, s)
  | None => (false, s)
  end.

Definition snapshot (s : store) : pyval * store :=
  let s := _purge s in
  let rs := map reservation_to_context (dvalues (reservations s)) in
  (PDict [("available", PBool true); ("budget_id", PStr NODE_BUDGET_ID);
          ("reserved_bytes", PInt (sum_bytes (reservations s)));
          ("active_reservations", PInt (Z.of_nat (length rs)));
          ("revision", PInt (revision_counter s));
          ("allocatable_bytes", py_optZ (allocatable_bytes <$> policy s));
          ("policy_mode", py_opt (mode <$> policy s));
          ("policy_fingerprint", py_opt (fingerprint <$> policy s));
          ("reservations", PList (map PDict rs))], s).

#[export] Instance ops : NodeBudgetStore store := {|
  nb_acquire o n p fp ttl := total_st (acquire o n p fp ttl);
  nb_renew r ttl := total_st (renew r ttl);
  nb_reconcile_down r n ev := total_st (reconcile_down r n ev);
  nb_release r := total_st (release r);
|}.

(** ** Live reservations and the laws of the protocol *)

Definition live_reservation (s : store) (o : string) : option NodeBudgetReservation :=
  dget o (reservations (_purge s)).

(** The store invariant: distinct owners, each holding a positive number of
    bytes under its own name, with revisions handed out once. *)
Record wf (s : store) : Prop := {
  wf_counter : 0 <= revision_counter s;
  wf_keys : dict_wf (reservations s);
  wf_entry : forall o r, dget o (reservations s) = Some r ->
    owner_id r = o /\ 0 < bytes r /\ 0 < revision r <= revision_counter s;
  wf_unique : forall o o' r r', dget o (reservations s) = Some r ->
    dget o' (reservations s) = Some r' -> revision r = revision r' -> o = o';
}.

Lemma dget_dfilter_sub {V} (P : string -> V -> bool) k d v :
  dict_wf d -> dget k (dfilter P d) = Some v -> dget k d = Some v /\ P k v = true.
Proof.
  intros Hd. rewrite dget_dfilter by done.
  destruct (dget k d) as [w|]; [|done]. destruct (P k w) eqn:E; naive_solver.
Qed.

Lemma purge_dget s o r :
  wf s -> dget o (reservations (_purge s)) = Some r ->
  dget o (reservations s) = Some r /\ now_epoch s < expires_at_epoch r.
Proof.
  intros [_ Hk _ _] H. apply dget_dfilter_sub in H as [H Hp]; [|done]. split; [done|].
  by bool_prop.
Qed.

Lemma wf_purge s : wf s -> wf (_purge s).
Proof.
  intros Hwf. pose proof (purge_dget s) as Hp. destruct Hwf as [Hc Hk He Hu].
  split; simpl; [done|..].
  - by apply dict_wf_dfilter.
  - intros o r H. apply He. by apply Hp in H as [? _].
  - intros o o' r r' H H'. eapply Hu; [by apply Hp in H as [? _] | by apply Hp in H' as [? _]].
Qed.

Lemma wf_init now : wf (init now).
Proof. split; simpl; [lia | constructor | done | done]. Qed.

Lemma wf_set o r s :
  wf s -> owner_id r = o -> 0 < bytes r ->
  (exists r0, dget o (reservations s) = Some r0 /\ revision r = revision r0) ->
  wf (set_reservation o r s).
Proof.
  intros [Hc Hk He Hu] Ho Hb (r0 & H0 & Hr). split; simpl; [done|..].
  - by apply dict_wf_dset.
  - intros o' r'. rewrite dget_dset. case_bool_decide; [|apply He].
    intros [= <-]. subst o'. apply He in H0. rewrite Hr. naive_solver.
  - intros o1 o2 r1 r2. rewrite !dget_dset.
    repeat case_bool_decide; subst; try done; intros Hg1 Hg2 Hrev; simplify_eq.
    + eapply Hu; [exact H0 | exact Hg2 | congruence].
    + eapply Hu; [exact Hg1 | exact H0 | congruence].
    + by eapply Hu.
Qed.

Lemma wf_ddel o s :
  wf s -> wf (mkStore (now_epoch s) (revision_counter s) (ddel o (reservations s)) (policy s)).
Proof.
  intros [Hc Hk He Hu]. split; simpl; [done|..].
  - by apply dict_wf_ddel.
  - intros o' r'. rewrite dget_ddel. case_bool_decide; [done | apply He].
  - intros o1 o2 r1 r2. rewrite !dget_ddel. repeat case_bool_decide; try done. apply Hu.
Qed.

Lemma wf_policy p s : wf s -> wf (with_policy p s).
Proof. intros [Hc Hk He Hu]. by split. Qed.

#[local] Hint Resolve wf_purge wf_policy wf_ddel : py.

Lemma wf_acquire o n p fp ttl s : wf s -> wf (acquire o n p fp ttl s).2.
Proof.
  intros Hwf%wf_purge%(wf_policy p). unfold acquire. cbv zeta.
  set (s1 := with_policy p (_purge s)) in *. clearbody s1.
  destruct (dget o (reservations s1)) as [r|] eqn:E.
  - destruct (_ || _ || _); [done|]. destruct (wf_entry s1 Hwf _ _ E) as (? & ? & ?).
    apply (wf_set o _ s1); simpl; eauto.
  - destruct (_ || _) eqn:Eb; [done|]. bool_prop. destruct Hwf as [Hc Hk He Hu].
    split; simpl in *; [lia|..].
    + by apply dict_wf_dset.
    + intros o' r'. rewrite dget_dset. case_bool_decide; subst.
      * intros [= <-]. simpl. split; [done|]. split; [lia|].
        lia.
      * intros Hg. destruct (He _ _ Hg) as (? & ? & ?). split_and!; [done | done | lia | lia].
    + intros o1 o2 r1 r2. rewrite !dget_dset.
      repeat case_bool_decide; subst; try done; intros Hg1 Hg2 Hrev; simplify_eq; simpl in *.
      * apply He in Hg2. lia.
      * apply He in Hg1. lia.
      * by eapply Hu.
Qed.


Lemma wf_renew r ttl s : wf s -> wf (renew r ttl s).2.
Proof.
  intros Hwf%wf_purge. unfold renew. cbv zeta.
  destruct (dget _ _) as [c|] eqn:E; [|done]. destruct (_ =? _); [|done]. simpl.
  destruct (wf_entry _ Hwf _ _ E) as (? & ? & ?).
  apply (wf_set _ _ (_purge s)); simpl; eauto.
Qed.

Lemma wf_reconcile r n ev s : wf s -> wf (reconcile_down r n ev s).2.
Proof.
  intros Hwf%wf_purge. unfold reconcile_down. cbv zeta.
  destruct (dget _ _) as [c|] eqn:E; [|done]. destruct (_ || _) eqn:Eb; [done|]. simpl.
  bool_prop. destruct (wf_entry _ Hwf _ _ E) as (? & ? & ?).
  apply (wf_set _ _ (_purge s)); simpl; eauto.
Qed.

Lemma wf_release r s : wf s -> wf (release r s).2.
Proof.
  intros Hwf%wf_purge. unfold release. cbv zeta.
  destruct (dget _ _) as [c|] eqn:E; [|done]. destruct (_ =? _); [|done]. simpl.
  by apply (wf_ddel _ (_purge s)).
Qed.

(** ** Sums of bytes *)

Lemma sum_dset_new o r d :
  dget o d = None -> sum_bytes (dset o r d) = bytes r + sum_bytes d.
Proof.
  induction d as [|[k v] d IH]; simpl; [done|]. case_bool_decide; [done|].
  intros H0. simpl. rewrite IH by done. lia.
Qed.

Lemma sum_dset_old o r r0 d :
  dget o d = Some r0 -> sum_bytes (dset o r d) = sum_bytes d - bytes r0 + bytes r.
Proof.
  induction d as [|[k v] d IH]; simpl; [done|]. case_bool_decide; simpl.
  - intros [= ->]. lia.
  - intros H0. rewrite IH by done. lia.
Qed.

Definition all_positive (d : dict NodeBudgetReservation) : Prop :=
  Forall (fun kv => 0 < bytes kv.2) d.

Lemma wf_all_positive s : wf s -> all_positive (reservations s).
Proof.
  intros [_ Hk He _]. apply Forall_forall. intros [k v] Hin.
  apply elem_of_dget in Hin; [|done]. by destruct (He _ _ Hin) as (_ & ? & _).
Qed.

Lemma sum_dfilter_le P d : all_positive d -> sum_bytes (dfilter P d) <= sum_bytes d.
Proof.
  induction 1 as [|[k v] d Hv Hd IH]; simpl in *; [lia|].
  destruct (P k v); simpl; lia.
Qed.

Lemma sum_ddel_le o d : all_positive d -> sum_bytes (ddel o d) <= sum_bytes d.
Proof.
  induction 1 as [|[k v] d Hv Hd IH]; simpl in *; [lia|].
  case_bool_decide; simpl; lia.
Qed.

Lemma sum_nonneg d : all_positive d -> 0 <= sum_bytes d.
Proof. induction 1 as [|[k v] d Hv Hd IH]; [done|]. simpl in *. lia. Qed.

(** ** Runs of the store *)

Inductive op : Type :=
| OAcquire (owner : string) (request : Z) (fp : string) (ttl : Z)
| ORenew (r : NodeBudgetReservation) (ttl : Z)
| OReconcile (r : NodeBudgetReservation) (request : Z) (evidence : string)
| ORelease (r : NodeBudgetReservation)
| OAdvance (t : Z).

Definition run_op (p : NodeBudgetPolicy) (o : op) (s : store) : store :=
  match o with
  | OAcquire owner n fp ttl => (acquire owner n p fp ttl s).2
  | ORenew r ttl => (renew r ttl s).2
  | OReconcile r n ev => (reconcile_down r n ev s).2
  | ORelease r => (release r s).2
  | OAdvance t => advance t s
  end.

Definition run (p : NodeBudgetPolicy) (os : list op) (s : store) : store :=
  foldl (fun s o => run_op p o s) s os.

Lemma wf_run_op p o s : wf s -> wf (run_op p o s).
Proof.
  destruct o; simpl; eauto using wf_acquire, wf_renew, wf_reconcile, wf_release.
  intros [Hc Hk He Hu]. by split.
Qed.

Definition within (p : NodeBudgetPolicy) (s : store) : Prop :=
  sum_bytes (reservations s) <= allocatable_bytes p.

Lemma within_purge p s : wf s -> within p s -> within p (_purge s).
Proof.
  unfold within. intros Hwf H. simpl.
  etrans; [apply sum_dfilter_le, wf_all_positive, Hwf | done].
Qed.

Lemma within_set p o r r0 s :
  within p s -> dget o (reservations s) = Some r0 -> bytes r <= bytes r0 ->
  within p (set_reservation o r s).
Proof. unfold within. simpl. intros H Hg Hb. erewrite sum_dset_old by done. lia. Qed.

Lemma within_run_op p o s : wf s -> within p s -> within p (run_op p o s).
Proof.
  intros Hwf Hin. pose proof (wf_purge _ Hwf) as Hwp.
  pose proof (within_purge _ _ Hwf Hin) as Hp.
  destruct o as [owner n fp ttl|r ttl|r n ev|r|t]; simpl.
  - unfold acquire. cbv zeta. set (s1 := with_policy p (_purge s)) in *.
    assert (Hp1 : within p s1) by exact Hp. clearbody s1.
    destruct (dget owner _) as [c|] eqn:E.
    + destruct (_ || _ || _); [done|]. by eapply (within_set p owner _ c s1).
    + destruct (_ || _) eqn:Eb; [done|]. bool_prop. unfold within. simpl.
      rewrite sum_dset_new by done. simpl in *. lia.
  - unfold renew. cbv zeta. destruct (dget _ _) as [c|] eqn:E; [|done].
    destruct (_ =? _); [|done]. by eapply (within_set p _ _ c (_purge s)).
  - unfold reconcile_down. cbv zeta. destruct (dget _ _) as [c|] eqn:E; [|done].
    destruct (_ || _) eqn:Eb; [done|]. bool_prop.
    eapply (within_set p _ _ c (_purge s)); [done | done | simpl; lia].
  - unfold release. cbv zeta. destruct (dget _ _) as [c|] eqn:E; [|done].
    destruct (_ =? _); [|done]. unfold within. cbn [snd reservations].
    etrans; [apply sum_ddel_le, wf_all_positive, Hwp | done].
  - exact Hin.
Qed.

Lemma run_ind_wf p (P : store -> Prop) os s :
  (forall o s, wf s -> P s -> P (run_op p o s)) -> wf s -> P s ->
  wf (run p os s) /\ P (run p os s).
Proof.
  intros Hstep. unfold run. revert s. induction os as [|o os IH]; simpl; [by split|].
  intros s Hwf HP. apply IH; [by apply wf_run_op | by apply Hstep].
Qed.

(** Capacity safety of the byte budget: under one node policy, whatever
    sequence of acquisitions, renewals, downward reconciliations, releases
    (with arbitrary, also stale, handles) and clock advances runs from an
    empty store, the bytes reserved never exceed the allocatable bytes, every
    reservation is positive, sits under its owner's name, and no two
    reservations share a revision. *)
Theorem budget_never_exceeded p os now :
  0 <= allocatable_bytes p ->
  let s := run p os (init now) in
  wf s /\ 0 <= sum_bytes (reservations s) <= allocatable_bytes p.
Proof.
  intros Hp s. destruct (run_ind_wf p (within p) os (init now)) as [Hwf Hin].
  - intros. by apply within_run_op.
  - apply wf_init.
  - done.
  - split; [done|]. split; [apply sum_nonneg, wf_all_positive, Hwf | done].
Qed.


Theorem budget_never_exceeded_witness :
  let p := mkPolicy "calibrated" 100 0 0 0 100 "fp" in
  sum_bytes (reservations (run p [OAcquire "a" 60 "x" 30; OAcquire "b" 50 "x" 30;
                                  OAcquire "c" 40 "x" 30; OAdvance (secs 31);
                                  OAcquire "b" 50 "x" 30] (init 0))) = 50
  /\ 50 <= allocatable_bytes p.
Proof.
  intros p. split; [by vm_compute|].
  pose proof (budget_never_exceeded p
    [OAcquire "a" 60 "x" 30; OAcquire "b" 50 "x" 30; OAcquire "c" 40 "x" 30;
     OAdvance (secs 31); OAcquire "b" 50 "x" 30] 0 ltac:(simpl; lia)) as [_ [_ H]].
  exact H.
Defined.

(** ** The in-memory store keeps the protocol's promises *)

Lemma live_spec s o :
  wf s ->
  live_reservation s o =
  match dget o (reservations s) with
  | Some r => if now_epoch s <? expires_at_epoch r then Some r else None
  | None => None
  end.
Proof. intros [_ Hk _ _]. unfold live_reservation. simpl. by rewrite dget_dfilter. Qed.

Lemma live_purge s o : wf s -> live_reservation (_purge s) o = live_reservation s o.
Proof.
  intros Hwf. rewrite (live_spec (_purge s)) by by apply wf_purge.
  rewrite (live_spec s) by done. simpl. rewrite dget_dfilter by apply Hwf.
  destruct (dget o (reservations s)) as [r|]; [|done].
  destruct (now_epoch s <? expires_at_epoch r) eqn:E; [by rewrite E | done].
Qed.

(** Replacing the entry of [o] in a purged store by an unexpired one. *)
Lemma live_set s o r o' :
  wf s -> now_epoch s < expires_at_epoch r -> wf (set_reservation o r s) ->
  live_reservation (set_reservation o r s) o' =
  if bool_decide (o' = o) then Some r else live_reservation s o'.
Proof.
  intros Hwf He Hwf'. rewrite (live_spec (set_reservation o r s)) by done. simpl.
  rewrite dget_dset. case_bool_decide; [|by rewrite (live_spec s)].
  by rewrite (proj2 (Z.ltb_lt _ _) He).
Qed.

Lemma expiry_future s ttl : now_epoch s < expiry s ttl.
Proof. unfold expiry. assert (0 < secs (Z.max 1 ttl)) by (apply secs_pos; lia). lia. Qed.

Lemma acquire_spec o n p fp ttl s :
  wf s ->
  let '(r, s') := acquire o n p fp ttl s in
  (allow r = false /\ reservation r = None /\
   forall o', live_reservation s' o' = live_reservation s o') \/
  (exists v, allow r = true /\ reservation r = Some v /\ owner_id v = o /\ bytes v = n /\
   forall o', live_reservation s' o' =
     if bool_decide (o' = o) then Some v else live_reservation s o').
Proof.
  intros Hwf. pose proof (wf_acquire o n p fp ttl s Hwf) as Hwf'. revert Hwf'.
  pose proof (wf_policy p _ (wf_purge _ Hwf)) as Hw1.
  assert (Hpol : forall o', live_reservation (with_policy p (_purge s)) o'
    = live_reservation s o') by (intros o'; exact (live_purge s o' Hwf)).
  unfold acquire. cbv zeta. set (s1 := with_policy p (_purge s)) in *. clearbody s1.
  destruct (dget o (reservations s1)) as [c|] eqn:E; simpl.
  - destruct (_ || _ || _) eqn:Eb; intros Hw; [by left|]. right.
    eexists. split; [done|]. split; [done|]. bool_prop.
    destruct (wf_entry _ Hw1 _ _ E) as (? & ? & ?). split; [done|]. split; [done|].
    intros o'. rewrite <- Hpol. apply live_set; [done | apply expiry_future | exact Hw].
  - destruct (_ || _); intros Hw; [by left|]. right.
    eexists. split; [done|]. split; [done|]. split; [done|]. split; [done|].
    intros o'. rewrite <- Hpol. rewrite live_spec by done. simpl.
    rewrite dget_dset. case_bool_decide.
    + simpl. rewrite (proj2 (Z.ltb_lt _ _)); [done|]. apply expiry_future.
    + by rewrite live_spec.
Qed.

Lemma release_spec v s :
  wf s ->
  let '(b, s') := release v s in
  (forall o', live_reservation s' o' =
     if b && bool_decide (o' = owner_id v) then None else live_reservation s o') /\
  (b = true <-> exists c, live_reservation s (owner_id v) = Some c /\ revision c = revision v).
Proof.
  intros Hwf. pose proof (wf_release v s Hwf) as Hwf'. revert Hwf'.
  pose proof (wf_purge _ Hwf) as Hwp. unfold release. cbv zeta.
  change (dget (owner_id v) (reservations (_purge s))) with (live_reservation s (owner_id v)).
  destruct (live_reservation s (owner_id v)) as [c|] eqn:E; simpl.
  - destruct (_ =? _) eqn:Er; bool_prop; simpl; intros Hw; split; [| naive_solver | | naive_solver].
    + intros o'. rewrite live_spec by done. simpl. rewrite dget_ddel.
      case_bool_decide; [done|]. rewrite <- live_purge by done. by rewrite live_spec.
    + intros o'. by apply live_purge.
  - intros _. split; [intros o'; by apply live_purge | naive_solver].
Qed.

#[export] Instance laws : NodeBudgetLaws store.
Proof.
  refine {| live := live_reservation; nb_wf := wf |};
    unfold nb_acquire, nb_release, ops, total_st.
  - intros o n p fp ttl s r s' Hwf. pose proof (wf_acquire o n p fp ttl s Hwf) as Hw.
    destruct (acquire o n p fp ttl s). by intros [= _ <-].
  - intros o n p fp ttl s r s' Hwf. pose proof (acquire_spec o n p fp ttl s Hwf) as Hs.
    destruct (acquire o n p fp ttl s). intros [= -> ->] Hd.
    destruct Hs as [(_ & _ & Hl)|(v & Ha & Hr & _)].
    + intros o' r'. by rewrite Hl.
    + destruct Hd; congruence.
  - intros o n p fp ttl s r v s' Hwf. pose proof (acquire_spec o n p fp ttl s Hwf) as Hs.
    destruct (acquire o n p fp ttl s). intros [= -> ->] Ha Hr.
    destruct Hs as [(? & _)|(v' & _ & Hr' & Ho & Hb & Hl)]; [congruence|].
    assert (v' = v) as -> by congruence. split; [done|]. split; [done|].
    split; [by rewrite Hl, bool_decide_true|].
    intros o' w. rewrite Hl. case_bool_decide; naive_solver.
  - intros v s b s' Hwf. pose proof (wf_release v s Hwf) as Hw.
    destruct (release v s). by intros [= _ <-].
  - intros v b s s' Hwf. pose proof (release_spec v s Hwf) as Hs.
    destruct (release v s) as [b' s1]. intros [= -> ->]. destruct Hs as [Hl Hb]. split.
    + intros o' r. rewrite Hl. destruct (_ && _); naive_solver.
    + intros v'. rewrite Hl. rewrite bool_decide_true by done. destruct b; simpl; [done|].
      intros Hv Hrev. assert (false = true) by (apply Hb; eauto). done.
Defined.


(** ** Handles *)

Lemma renew_spec v ttl s :
  wf s ->
  let '(b, s') := renew v ttl s in
  revision_counter s' = revision_counter s /\
  (forall o' w, live_reservation s' o' = Some w ->
     exists w0, live_reservation s o' = Some w0 /\ revision w0 = revision w) /\
  (b = true -> exists c, live_reservation s (owner_id v) = Some c /\ revision c = revision v).
Proof.
  intros Hwf. pose proof (wf_renew v ttl s Hwf) as Hwf'. revert Hwf'.
  pose proof (wf_purge _ Hwf) as Hwp. unfold renew. cbv zeta.
  change (dget (owner_id v) (reservations (_purge s))) with (live_reservation s (owner_id v)).
  destruct (live_reservation s (owner_id v)) as [c|] eqn:E; simpl.
  - destruct (_ =? _) eqn:Er; bool_prop; simpl; intros Hw.
    + split; [done|]. split; [|naive_solver].
      intros o' w. rewrite live_set; [|done | apply expiry_future | done].
      case_bool_decide as Ho; [subst; intros [= <-]; eauto|]. rewrite live_purge by done. eauto.
    + split; [done|]. split; [|done]. intros o' w. rewrite live_purge by done. eauto.
  - intros _. split; [done|]. split; [|done]. intros o' w. rewrite live_purge by done. eauto.
Qed.

Lemma reconcile_spec v n ev s :
  wf s ->
  let '(b, s') := reconcile_down v n ev s in
  revision_counter s' = revision_counter s /\
  (forall o' w, live_reservation s' o' = Some w ->
     exists w0, live_reservation s o' = Some w0 /\ revision w0 = revision w) /\
  (b = true -> exists c, live_reservation s (owner_id v) = Some c /\ revision c = revision v).
Proof.
  intros Hwf. pose proof (wf_reconcile v n ev s Hwf) as Hwf'. revert Hwf'.
  pose proof (wf_purge _ Hwf) as Hwp. unfold reconcile_down. cbv zeta.
  destruct (dget (owner_id v) (reservations (_purge s))) as [c|] eqn:E.
  - assert (Hl : live_reservation s (owner_id v) = Some c) by exact E.
    destruct (_ || _) eqn:Er; simpl; intros Hw.
    + split; [done|]. split; [|done]. intros o' w. rewrite live_purge by done. eauto.
    + bool_prop. split; [done|]. split; [|naive_solver].
      destruct (purge_dget _ _ _ Hwf E) as [_ He].
      intros o' w. rewrite live_set; [|done | exact He | done].
      case_bool_decide as Ho; [subst; intros [= <-]; eauto|]. rewrite live_purge by done. eauto.
  - simpl. intros _. split; [done|]. split; [|done].
    intros o' w. rewrite live_purge by done. eauto.
Qed.

(** A step only produces reservations of known revisions, or one fresh one. *)
Lemma run_op_revision p o s ow w :
  wf s -> live_reservation (run_op p o s) ow = Some w ->
  revision_counter s <= revision_counter (run_op p o s) /\
  (revision w = revision_counter s + 1 \/
   exists w0, live_reservation s ow = Some w0 /\ revision w0 = revision w).
Proof.
  intros Hwf. destruct o as [owner n fp ttl|r ttl|r n ev|r|t]; simpl.
  - pose proof (acquire_spec owner n p fp ttl s Hwf) as Hs. revert Hs.
    assert (Hnew : forall v, reservation (acquire owner n p fp ttl s).1 = Some v ->
      revision v = revision_counter s + 1 \/
      exists w0, live_reservation s owner = Some w0 /\ revision w0 = revision v).
    { unfold acquire. cbv zeta. intros v.
      change (dget owner (reservations (with_policy p (_purge s))))
        with (live_reservation s owner).
      destruct (live_reservation s owner) as [c|]; [destruct (_ || _ || _) | destruct (_ || _)];
        simpl; intros [= <-]; simpl; eauto. }
    assert (Hc : revision_counter s <= revision_counter (acquire owner n p fp ttl s).2).
    { unfold acquire. cbv zeta. destruct (dget _ _); [destruct (_ || _ || _) | destruct (_ || _)];
        simpl; lia. }
    destruct (acquire owner n p fp ttl s) as [r s']. simpl in *.
    intros [(_ & _ & Hl)|(v & _ & Hr & _ & _ & Hl)]; rewrite Hl.
    + intros Hw. split; [done|]. eauto.
    + split; [done|]. case_bool_decide; [|eauto]. simplify_eq. by apply Hnew.
  - pose proof (renew_spec r ttl s Hwf) as Hs. destruct (renew r ttl s) as [b s'].
    destruct Hs as (Hc & Hl & _). simpl. intros Hw. split; [lia|]. eauto.
  - pose proof (reconcile_spec r n ev s Hwf) as Hs. destruct (reconcile_down r n ev s) as [b s'].
    destruct Hs as (Hc & Hl & _). simpl. intros Hw. split; [lia|]. eauto.
  - assert (Hc : revision_counter s <= revision_counter (release r s).2).
    { unfold release. cbv zeta. destruct (dget _ _); [destruct (_ =? _)|]; simpl; lia. }
    pose proof (release_spec r s Hwf) as Hs. destruct (release r s) as [b s'].
    destruct Hs as (Hl & _). simpl in *. rewrite Hl. intros Hw. split; [done|].
    destruct (_ && _); [done | eauto].
  - rewrite !live_spec; [|done | by destruct Hwf]. simpl.
    destruct (dget ow (reservations s)) as [c|]; [|done].
    destruct (_ <? _) eqn:E; [|done]. intros [= <-]. split; [lia|]. right.
    exists c. split; [|done]. bool_prop. by rewrite (proj2 (Z.ltb_lt _ _)) by lia.
Qed.

(** A released handle stays dead: once a reservation has been released,
    no later sequence of operations, not even a new acquisition by the same
    owner, makes the old handle renew, reconcile or release anything. *)
Theorem released_handle_is_dead p r s s1 os ttl n ev :
  wf s -> 0 < revision r <= revision_counter s -> release r s = (true, s1) ->
  let s2 := run p os s1 in
  (release r s2).1 = false /\ (renew r ttl s2).1 = false /\
  (reconcile_down r n ev s2).1 = false.
Proof.
  intros Hwf Hrev Hrel s2.
  assert (Hw1 : wf s1) by (pose proof (wf_release r s Hwf) as H; by rewrite Hrel in H).
  assert (Hc1 : revision_counter s1 = revision_counter s).
  { revert Hrel. unfold release. cbv zeta.
    destruct (dget _ _); [destruct (_ =? _)|]; by intros [= <-]. }
  set (Q := fun s => revision r <= revision_counter s /\
     forall w, live_reservation s (owner_id r) = Some w -> revision w ≠ revision r).
  assert (HQ1 : Q s1).
  { split; [lia|]. pose proof (release_spec r s Hwf) as Hs. rewrite Hrel in Hs.
    destruct Hs as [Hl _]. intros w. rewrite Hl. by rewrite bool_decide_true. }
  destruct (run_ind_wf p Q os s1) as [Hw2 [_ HQ2]]; [|done|done|].
  { intros o s' Hw' [Hc' Hq']. split.
    - assert (Hmono : revision_counter s' <= revision_counter (run_op p o s')).
      { destruct o; simpl.
        - unfold acquire. cbv zeta.
          destruct (dget _ _); [destruct (_ || _ || _) | destruct (_ || _)]; simpl; lia.
        - unfold renew. cbv zeta. destruct (dget _ _); [destruct (_ =? _)|]; simpl; lia.
        - unfold reconcile_down. cbv zeta. destruct (dget _ _); [destruct (_ || _)|]; simpl; lia.
        - unfold release. cbv zeta. destruct (dget _ _); [destruct (_ =? _)|]; simpl; lia.
        - lia. }
      lia.
    - intros w Hw. apply run_op_revision in Hw as [_ [Hn|(w0 & Hw0 & Hn)]]; [lia| |done].
      apply Hq' in Hw0. congruence. }
  fold s2 in Hw2, HQ2.
  pose proof (release_spec r s2 Hw2) as Hs1. pose proof (renew_spec r ttl s2 Hw2) as Hs2.
  pose proof (reconcile_spec r n ev s2 Hw2) as Hs3.
  assert (Hno : forall b : bool, (b = true -> exists c,
      live_reservation s2 (owner_id r) = Some c /\ revision c = revision r) -> b = false).
  { intros [] Hb; [|done]. destruct (Hb eq_refl) as (c & Hc & Hcr). by destruct (HQ2 c). }
  destruct (release r s2) as [b1 ?], (renew r ttl s2) as [b2 ?],
    (reconcile_down r n ev s2) as [b3 ?].
  destruct Hs1 as [_ Hb1], Hs2 as (_ & _ & Hb2), Hs3 as (_ & _ & Hb3). simpl.
  split_and!; apply Hno; [by apply Hb1 | done | done].
Qed.

Definition sample_policy : NodeBudgetPolicy := mkPolicy "calibrated" 100 0 0 0 100 "fp".

Definition sample_handle : NodeBudgetReservation :=
  mkReservation "a" 60 1 (secs 30) "fp" "x" 100 "calibrated" None None None.
Definition sample_store : store := mkStore 0 1 [("a", sample_handle)] (Some sample_policy).

Theorem released_handle_is_dead_witness :
  run sample_policy [OAcquire "a" 60 "x" 30] (init 0) = sample_store /\
  (release sample_handle
     (run sample_policy [OAcquire "a" 60 "x" 30] (mkStore 0 1 [] (Some sample_policy)))).1 = false.
Proof.
  split; [by vm_compute|].
  assert (Hwf : wf sample_store).
  { assert (E : run sample_policy [OAcquire "a" 60 "x" 30] (init 0) = sample_store)
      by (by vm_compute). rewrite <- E.
    apply (run_ind_wf sample_policy (fun _ => True)); [done | apply wf_init | done]. }
  assert (Hrel : release sample_handle sample_store
                 = (true, mkStore 0 1 [] (Some sample_policy))) by (by vm_compute).
  assert (Hrev : 0 < revision sample_handle <= revision_counter sample_store)
    by (by vm_compute).
  exact (proj1 (released_handle_is_dead sample_policy sample_handle sample_store
    (mkStore 0 1 [] (Some sample_policy)) [OAcquire "a" 60 "x" 30] 1 1 "" Hwf Hrev Hrel)).
Defined.

End Memory.

(** * Round trip through the task context *)

Lemma tick_float_read f t : py_float f (tick_float t) = Ok t.
Proof. unfold tick_float. simpl. by rewrite Z.mul_1_r. Qed.

Lemma read_reservation_context f r :
  reconciliation_evidence_fingerprint r ≠ Some "" ->
  read_reservation f (reservation_to_context r) = Ok r.
Proof.
  intros Hev. destruct r as [o b rev e pfp rfp al md ev fr at_]. cbn in Hev.
  unfold read_reservation, reservation_to_context, pitem, pget, py_optF.
  cbn -[tick_float py_float]. str_lits. cbn -[tick_float py_float].
  rewrite tick_float_read.
  destruct at_ as [t|]; cbn -[tick_float py_float];
    destruct fr as [z|], ev as [s|]; cbn -[tick_float py_float];
    rewrite ?bool_decide_false by congruence; cbn -[tick_float py_float];
    rewrite ?tick_float_read; done.
Qed.

(** The reservation an admission persists in the task context is read back
    exactly, whatever text-to-float conversion the interpreter uses. *)
Theorem reservation_context_roundtrip f r ctx :
  reconciliation_evidence_fingerprint r ≠ Some "" ->
  reservation_from_context f
    (PDict (dset NODE_BUDGET_CONTEXT_KEY (PDict (reservation_to_context r)) ctx))
  = Ok (Some r).
Proof.
  intros Hev. unfold reservation_from_context, pget at 1.
  rewrite dget_dset_eq. cbn [default from_option id].
  by rewrite read_reservation_context.
Qed.

Theorem reservation_context_roundtrip_witness :
  reservation_from_context (fun _ => None)
    (PDict (dset NODE_BUDGET_CONTEXT_KEY (PDict (reservation_to_context
      (mkReservation "r1:t1" 1024 3 (secs 1800000000) "p" "q" 4096 "calibrated"
         None None None))) [("status", PStr "running")]))
  = Ok (Some (mkReservation "r1:t1" 1024 3 (secs 1800000000) "p" "q" 4096 "calibrated"
         None None None)).
Proof. by apply reservation_context_roundtrip. Defined.

(** * Policy bounds *)

Lemma env_mb_nonneg name source z : _env_mb name source = Some z -> 0 <= z.
Proof.
  unfold _env_mb. destruct (dget name source); [|done]. case_bool_decide; [done|].
  destruct (parse_int _) as [v|]; [|done]. destruct (0 <=? v) eqn:E; [|done].
  intros [= <-]. by bool_prop.
Qed.

Lemma policy_terms_nonneg source total limit md a b c :
  0 < total -> policy_terms source total limit = Some (md, a, b, c) ->
  0 <= a /\ 0 <= b /\ 0 <= c /\
  (md = "bootstrap_full_cgroup" -> total - a - b - c = limit /\ 0 < limit <= total).
Proof.
  unfold policy_terms. intros Ht.
  destruct (_env_mb _ source) as [x|] eqn:Ex; [apply env_mb_nonneg in Ex|].
  1: destruct (_env_mb "LOCAL_CORE_RUNNER_NODE_NON_BROWSER_PEAK_MB" source) as [y|] eqn:Ey;
       [apply env_mb_nonneg in Ey|].
  1: destruct (_env_mb "LOCAL_CORE_RUNNER_NODE_BROWSER_IDLE_PEAK_MB" source) as [z|] eqn:Ez;
       [apply env_mb_nonneg in Ez|].
  1: intros [= <- <- <- <-]; split_and!; [lia | lia | lia | done].
  all: destruct (_ && _) eqn:E; [|done]; bool_prop; intros [= <- <- <- <-];
    split_and!; [lia | lia | lia | intros _; lia].
Qed.

(** A node policy never allocates more than the machine has nor a negative
    amount; in calibrated mode it is what is left after the three measured
    peaks, floored at zero, in bootstrap mode exactly the cgroup limit. *)
Theorem policy_allocatable_bounds snapshot env p :
  resolve_node_budget_policy snapshot env = Ok (Some p) ->
  0 <= allocatable_bytes p <= total_bytes p /\ 0 < total_bytes p /\
  allocatable_bytes p =
    Z.max 0 (total_bytes p - vm_overhead_peak_bytes p - non_browser_peak_bytes p
             - browser_idle_peak_bytes p) /\
  (mode p = "bootstrap_full_cgroup" ->
   int_or_zero (pget "cgroup_limit_bytes" snapshot) = Ok (allocatable_bytes p)).
Proof.
  unfold resolve_node_budget_policy. intros H.
  apply bind_Ok_inv in H as (sizes & Hs & H). destruct sizes as [[total limit]|]; [|done].
  destruct (total <=? 0) eqn:Et; [done|]. bool_prop.
  destruct (policy_terms env total limit) as [[[[md a] b] c]|] eqn:Ep; [|done].
  apply bind_Ok_inv in H as (fp & Hfp & H). inv H. simpl.
  apply policy_terms_nonneg in Ep as (Ha & Hb & Hc & Hm); [|done].
  split; [lia|]. split; [done|]. split; [done|]. intros Hmd.
  destruct (Hm Hmd) as [Hl Hl'].
  unfold try_except in Hs.
  destruct (int_or_zero (pget "total_bytes" snapshot)) as [t|e]; cbn in Hs;
    [|destruct (is_type_or_value_error e); done].
  destruct (int_or_zero (pget "cgroup_limit_bytes" snapshot)) as [l|e]; cbn in Hs;
    [|destruct (is_type_or_value_error e); done].
  injection Hs as -> ->. f_equal. lia.
Qed.

Theorem policy_allocatable_bounds_witness :
  exists p,
    resolve_node_budget_policy [("total_bytes", PInt 1000); ("cgroup_limit_bytes", PInt 600)] []
    = Ok (Some p) /\ allocatable_bytes p <= total_bytes p.
Proof.
  eexists. split; [by vm_compute|].
  refine (proj2 (proj1 (policy_allocatable_bounds
    [("total_bytes", PInt 1000); ("cgroup_limit_bytes", PInt 600)] [] _ _))).
  by vm_compute.
Defined.
