(* ===== verification/StartupGate.v ===== *)
(** Browser cold-start gate (runner_resources/browser_startup_gate.py): the
    spacing and the number of start-up slots derived from measured headroom,
    the slot lease keys, and the acquisition of one slot over any lease store
    that keeps the protocol's promises. *)
From S2P Require Import Prelude PyDict PyStr PyVal PyJson Requirements Leases.

Definition DEFAULT_BROWSER_STARTUP_SPACING_SECONDS : Z := 30.
Definition MIN_BROWSER_STARTUP_SPACING_SECONDS : Z := 5.
Definition MAX_BROWSER_STARTUP_SPACING_SECONDS : Z := 300.
Definition DEFAULT_BROWSER_STARTUP_MAX_PARALLEL : Z := 7.
Definition MAX_BROWSER_STARTUP_MAX_PARALLEL : Z := 7.
Definition BROWSER_STARTUP_LEASE_KEY : string :=
  build_resource_lease_key "browser_startup" "docker_vm".

Record BrowserStartupDecision : Type := mkStartup {
  bs_allow : bool;
  bs_reason : option string;
  bs_requested_bytes : Z;
  bs_request_source : option string;
  bs_spacing_seconds : Z;
  bs_slot_count : Z;
  bs_slot_index : option Z;
  bs_lease_key : option string;
}.

(** [max(0, int(value or 0))], 0 on [TypeError] and [ValueError]. *)
Definition gate_positive_int (value : pyval) : res Z :=
  match py_int (py_or value (PInt 0)) with
  | Ok z => Ok (Z.max 0 z)
  | Raise e => if is_type_or_value_error e then Ok 0 else Raise e
  end.

(** The same function on an environment variable, which never raises. *)
Definition env_positive_int (name : string) (environ : dict string) : Z :=
  match dget name environ with
  | Some s => if bool_decide (s = "") then 0
              else match parse_int s with Some z => Z.max 0 z | None => 0 end
  | None => 0
  end.

(** [x or y] on integers. *)
Definition int_or (x y : Z) : Z := if x =? 0 then y else x.

Definition resolve_browser_startup_request_bytes (requirements : ResourceRequirements)
    : option (Z * string) :=
  let explicit_mb := Z.max 0 (browser_startup_memory_mb requirements) in
  if 0 <? explicit_mb then Some (explicit_mb * 1024 * 1024, "playbook_startup_profile")
  else None.

Definition resolve_browser_startup_spacing_seconds (requirements : ResourceRequirements)
    (environ : dict string) : Z :=
  let explicit := Z.max 0 (browser_startup_spacing_seconds requirements) in
  let configured :=
    env_positive_int "LOCAL_CORE_RUNNER_BROWSER_STARTUP_SPACING_SECONDS" environ in
  let value := int_or (int_or explicit configured) DEFAULT_BROWSER_STARTUP_SPACING_SECONDS in
  Z.max MIN_BROWSER_STARTUP_SPACING_SECONDS
    (Z.min value MAX_BROWSER_STARTUP_SPACING_SECONDS).

Definition resolve_browser_startup_slot_count (requirements : ResourceRequirements)
    (node_snapshot : dict pyval) (environ : dict string) : res Z :=
  let configured :=
    env_positive_int "LOCAL_CORE_RUNNER_BROWSER_STARTUP_MAX_PARALLEL" environ in
  let max_parallel :=
    Z.max 1 (Z.min (int_or configured DEFAULT_BROWSER_STARTUP_MAX_PARALLEL)
                   MAX_BROWSER_STARTUP_MAX_PARALLEL) in
  match resolve_browser_startup_request_bytes requirements with
  | None => Ok 1
  | Some (requested_bytes, _) =>
      available_bytes ← gate_positive_int (pget "available_bytes" node_snapshot);
      if (requested_bytes <=? 0) || (available_bytes <? requested_bytes) then Ok 0
      else Ok (Z.max 1 (Z.min max_parallel (available_bytes / requested_bytes)))
  end.

Definition browser_startup_slot_lease_key (slot_index : Z) : string :=
  let normalized_index := Z.max 0 slot_index in
  if normalized_index =? 0 then BROWSER_STARTUP_LEASE_KEY
  else build_resource_lease_key "browser_startup"
         ("docker_vm_slot_" +:+ str_int (normalized_index + 1)).

Lemma slot_lease_key_ne i : browser_startup_slot_lease_key i ≠ "".
Proof.
  unfold browser_startup_slot_lease_key, BROWSER_STARTUP_LEASE_KEY.
  destruct (_ =? _); apply build_resource_lease_key_ne.
Qed.

Section gate.
Context {St : Type} `{ResourceLeaseStore St}.

(** [for slot_index in reversed(range(n))]: the first slot whose lease is
    taken, from [n - 1] down to 0. *)
Fixpoint try_slots (n : nat) (owner_id : string) (spacing_seconds : Z)
    : stres St (option Z) :=
  match n with
  | O => mret None
  | S k =>
      let slot_index := Z.of_nat k in
      acquired ← ls_acquire (browser_startup_slot_lease_key slot_index) owner_id
                   spacing_seconds;
      if acquired : bool then mret (Some slot_index)
      else try_slots k owner_id spacing_seconds
  end.

Definition acquire_browser_startup_gate (requirements : ResourceRequirements)
    (node_snapshot : dict pyval) (environ : dict string) (owner_id : string)
    : stres St BrowserStartupDecision :=
  let spacing_seconds := resolve_browser_startup_spacing_seconds requirements environ in
  let '(requested_bytes, request_source) :=
    default (0, "unmeasured_spacing_only")
      (resolve_browser_startup_request_bytes requirements) in
  available_bytes ← lift_res (gate_positive_int (pget "available_bytes" node_snapshot));
  slot_count ← lift_res (resolve_browser_startup_slot_count requirements node_snapshot environ);
  if (0 <? requested_bytes) && (available_bytes <? requested_bytes)
  then mret (mkStartup false (Some "browser_startup_headroom_unavailable") requested_bytes
               (Some request_source) spacing_seconds 0 None None)
  else
    slot ← try_slots (Z.to_nat slot_count) owner_id spacing_seconds;
    match slot with
    | Some slot_index =>
        mret (mkStartup true None requested_bytes (Some request_source) spacing_seconds
                slot_count (Some slot_index)
                (Some (browser_startup_slot_lease_key slot_index)))
    | None =>
        mret (mkStartup false (Some "browser_startup_spacing_active") requested_bytes
                (Some request_source) spacing_seconds slot_count None None)
    end.

Context {laws : LeaseStoreLaws St}.

Lemma try_slots_spec n owner ttl s r s' :
  try_slots n owner ttl s = (Ok r, s') ->
  match r with
  | None => held_le s' s
  | Some i =>
      0 <= i < Z.of_nat n /\
      holder s' (browser_startup_slot_lease_key i) = Some owner /\
      forall k x, holder s' k = Some x ->
        (k = browser_startup_slot_lease_key i /\ x = owner) \/ holder s k = Some x
  end.
Proof.
  revert s. induction n as [|n IH]; cbn -[browser_startup_slot_lease_key Z.of_nat];
    intros s E.
  { inv E. reflexivity. }
  apply st_bind_Ok_inv in E as (b & s1 & Ha & E). destruct b.
  - inv E. apply acquire_true in Ha as [Hh Hle]. split; [lia|]. by split.
  - apply acquire_false in Ha. apply IH in E. destruct r as [i|].
    + destruct E as (Hi & Hh & Hle). split; [lia|]. split; [done|].
      intros k x Hk. destruct (Hle k x Hk); [by left | right; by apply Ha].
    + by etrans.
Qed.

Lemma gate_spec req snapshot environ owner s d s' :
  acquire_browser_startup_gate req snapshot environ owner s = (Ok d, s') ->
  match bs_allow d, bs_lease_key d with
  | true, Some key =>
      key ≠ "" /\ holder s' key = Some owner /\
      forall k x, holder s' k = Some x -> (k = key /\ x = owner) \/ holder s k = Some x
  | true, None => False
  | false, _ => held_le s' s /\ bs_lease_key d = None
  end.
Proof.
  unfold acquire_browser_startup_gate.
  destruct (default _ _) as [rb src]. intros E.
  apply st_bind_Ok_inv in E as (av & s1 & [= Hav <-] & E).
  apply st_bind_Ok_inv in E as (n & s2 & [= Hn <-] & E).
  destruct (_ && _); [by inv E|].
  apply st_bind_Ok_inv in E as (slot & s3 & Hs & E). apply try_slots_spec in Hs.
  destruct slot as [i|]; inv E; cbn -[browser_startup_slot_lease_key].
  - destruct Hs as (_ & Hh & Hle). split; [apply slot_lease_key_ne | by split].
  - by split.
Qed.

End gate.

(** * Bounds *)

Lemma spacing_bounds req environ :
  5 <= resolve_browser_startup_spacing_seconds req environ <= 300.
Proof.
  unfold resolve_browser_startup_spacing_seconds,
    MIN_BROWSER_STARTUP_SPACING_SECONDS, MAX_BROWSER_STARTUP_SPACING_SECONDS. lia.
Qed.

Lemma gate_positive_int_nonneg v z : gate_positive_int v = Ok z -> 0 <= z.
Proof.
  unfold gate_positive_int. destruct (py_int _) as [n|e]; [intros [= <-]; lia|].
  destruct (is_type_or_value_error e); [by intros [= <-] | done].
Qed.

(** The start-up slots never overcommit the measured headroom: there are at
    most seven, and when the start-up peak is measured the slots together fit
    in the available bytes (none when not even one peak fits); an unmeasured
    browser start is serialised on one slot.  The spacing stays within
    5..300 seconds whatever the profile and the environment say. *)
Theorem startup_slots_fit_headroom req snapshot environ n :
  resolve_browser_startup_slot_count req snapshot environ = Ok n ->
  0 <= n <= 7 /\
  5 <= resolve_browser_startup_spacing_seconds req environ <= 300 /\
  match resolve_browser_startup_request_bytes req with
  | Some (peak, _) =>
      exists available, gate_positive_int (pget "available_bytes" snapshot) = Ok available /\
        n * peak <= available /\ (n = 0 <-> available < peak)
  | None => n = 1
  end.
Proof.
  intros E. split; [|split; [apply spacing_bounds|]]; revert E;
    unfold resolve_browser_startup_slot_count, MAX_BROWSER_STARTUP_MAX_PARALLEL;
    destruct (resolve_browser_startup_request_bytes req) as [[peak src]|] eqn:Er.
  - destruct (gate_positive_int _) as [av|]; cbn [mbind res_bind]; [|done].
    destruct (_ || _); intros [= <-]; lia.
  - intros [= <-]. lia.
  - assert (Hp : 0 < peak).
    { revert Er. unfold resolve_browser_startup_request_bytes.
      destruct (0 <? _) eqn:E; [|done]. intros [= <- <-]. bool_prop. lia. }
    destruct (gate_positive_int _) as [av|] eqn:Eav; cbn [mbind res_bind]; [|done].
    apply gate_positive_int_nonneg in Eav. intros E. exists av. split; [done|].
    destruct (_ || _) eqn:Eb; [apply orb_true_iff in Eb; destruct Eb; bool_prop; [lia|] |
      bool_prop]; injection E as <-.
    + lia.
    + assert (1 <= av / peak) by (apply Z.div_le_lower_bound; lia).
      pose proof (Z.mul_div_le av peak Hp). split; [nia|lia].
  - by intros [= <-].
Qed.

Definition sample_req : ResourceRequirements :=
  mkReq (Some "browser") 1 None 1 512 1024 0 None None None None "low" "short".

Theorem startup_slots_fit_headroom_witness :
  resolve_browser_startup_slot_count sample_req
    [("available_bytes", PInt (3 * 1073741824 + 5))] [] = Ok 3 /\ 3 * 1073741824 <= 3221225477.
Proof.
  split; [by vm_compute|].
  destruct (startup_slots_fit_headroom sample_req
    [("available_bytes", PInt (3 * 1073741824 + 5))] [] 3 ltac:(by vm_compute))
    as (_ & _ & available & Hav & Hle & _).
  vm_compute in Hav. injection Hav as <-. exact Hle.
Defined.

(** The seven start-up slots are guarded by seven different leases, and the
    first of them is the legacy global key. *)
Theorem slot_lease_keys_distinct i j :
  0 <= i < 7 -> 0 <= j < 7 ->
  browser_startup_slot_lease_key i = browser_startup_slot_lease_key j -> i = j.
Proof.
  set (keys := map (fun n => browser_startup_slot_lease_key (Z.of_nat n)) (List.seq 0 7)).
  assert (Hnd : NoDup keys).
  { assert (bool_decide (NoDup keys) = true) by (by vm_compute). by bool_prop. }
  intros Hi Hj He.
  assert (Hat : forall k, 0 <= k < 7 ->
      keys !! Z.to_nat k = Some (browser_startup_slot_lease_key k)).
  { intros k Hk. unfold keys. rewrite list_lookup_fmap.
    rewrite lookup_seq_lt by lia. simpl. by rewrite Z2Nat.id by lia. }
  apply Z2Nat.inj; [lia | lia |].
  eapply NoDup_lookup; [exact Hnd | by apply Hat |]. rewrite He. by apply Hat.
Qed.

Theorem slot_lease_keys_distinct_witness :
  browser_startup_slot_lease_key 1 ≠ browser_startup_slot_lease_key 2.
Proof.
  intros E. pose proof (slot_lease_keys_distinct 1 2 ltac:(lia) ltac:(lia) E). lia.
Defined.
