(* ===== verification/HostAdvisor.v ===== *)
(** Host resource advice (host_resources/advisor.py): the preview of a lane's
    requirements against the cached host snapshot. *)
From S2P Require Import Prelude PyDict PyStr PyVal PyJson Requirements.

Record HostResourceAdvice : Type := mkAdvice {
  ha_allow : bool;
  ha_decision : string;
  ha_reason : option string;
  ha_payload : dict pyval;
}.

(** Iterating over a value. *)
Fixpoint chars (s : string) : list pyval :=
  match s with EmptyString => [] | String c r => PStr (String c "") :: chars r end.
Definition py_iter (v : pyval) : res (list pyval) :=
  match v with
  | PList l => Ok l
  | PStr s => Ok (chars s)
  | PDict d => Ok (map PStr (dkeys d))
  | _ => Raise (TypeError "object is not iterable")
  end.

(** [{str(g) for g in groups if str(g).strip()}], as a duplicate-free list. *)
Definition group_set (groups : list pyval) : list string :=
  remove_dups (filter (fun g => strip g ≠ "") (map py_str groups)).

Definition _requirement_memory (requirements : dict pyval) (fallback : Z) : option Z :=
  let value := pget "memory_mb" requirements in
  match value with
  | PNone =>
      if py_eq (pget "memory_source" requirements) (PStr "unknown") then None
      else Some fallback
  | _ => match py_int value with
         | Ok z => Some (Z.max 0 z)
         | Raise _ => Some fallback
         end
  end.

Definition _exclusive_groups (requirements : dict pyval) : list string :=
  match pget "exclusive_groups" requirements with
  | PList groups => group_set groups
  | _ => []
  end.

(** The loop of [_active_blocking_consumers]. *)
Fixpoint blocking_loop (groups : list string) (consumers : list pyval) : res (list string) :=
  match consumers with
  | [] => Ok []
  | PDict consumer :: r =>
      items ← py_iter (pget_or "exclusive_groups" (PList []) consumer);
      rest ← blocking_loop groups r;
      if existsb (fun g => bool_decide (g ∈ group_set items)) groups
      then Ok (py_str (py_or (py_or (pget "consumer_id" consumer) (pget "label" consumer))
                         (PStr "consumer")) :: rest)
      else Ok rest
  | _ :: r => blocking_loop groups r
  end.

Definition _active_blocking_consumers (snapshot : dict pyval) (groups : list string)
    : res (list string) :=
  match groups with
  | [] => Ok []
  | _ => match pget "consumers" snapshot with
         | PList consumers => blocking_loop groups consumers
         | _ => Ok []
         end
  end.

Definition sort_strings (l : list string) : list string :=
  dkeys (sort_keys (map (fun s => (s, tt)) l)).

Section advisor.
(** The lane registry and the host manager are other components: the lane of
    an id, whether it is paused, and the cached (or degraded) snapshot. *)
Variable get_lane : option string -> pyval.
Variable is_lane_paused : string -> bool.
Variable cached_snapshot : dict pyval.

Definition _lane_requirements (lane_id : option string) : dict pyval :=
  match get_lane lane_id with
  | PDict lane => dict_or_empty (pget "requirements" lane)
  | _ => []
  end.

Definition advice_payload (lane_id : option string) (required_memory : option Z)
    (required_cpu : Z) (groups : list string) (available_memory : Z)
    (available snapshot : dict pyval) (blocking : list string) : dict pyval :=
  [("lane_id", py_opt lane_id);
   ("required", PDict [("memory_mb", py_optZ required_memory);
                       ("cpu_weight", PInt required_cpu);
                       ("exclusive_groups", PList (map PStr (sort_strings groups)))]);
   ("available", PDict [("memory_mb", PInt available_memory);
                        ("cpu_weight", pget_or "cpu_weight_tokens" (PInt 0) available)]);
   ("blocking_consumers", PList (map PStr blocking));
   ("snapshot_captured_at", pget "captured_at" snapshot)].

(** The cascade of refusals. *)
Definition advise (lane_id : option string) (required_memory : option Z)
    (degraded : bool) (blocking : list string) (available_memory : Z)
    (payload : dict pyval) : HostResourceAdvice :=
  if match lane_id with
     | Some l => negb (bool_decide (l = "")) && is_lane_paused l
     | None => false
     end
  then mkAdvice false "defer" (Some "lane_paused") payload
  else match required_memory with
  | None => mkAdvice false "unknown_requirements" (Some "memory_requirement_unknown") payload
  | Some m =>
      if degraded && (0 <? m)
      then mkAdvice false "manual_action_required" (Some "host_telemetry_degraded") payload
      else if negb (bool_decide (blocking = []))
      then mkAdvice false "defer" (Some "exclusive_group_busy") payload
      else if available_memory <? m
      then mkAdvice false "defer" (Some "insufficient_memory_headroom") payload
      else mkAdvice true "allow" None payload
  end.

Definition _preview_from_snapshot (snapshot : dict pyval) (lane_id : option string)
    (requirements : dict pyval) : res HostResourceAdvice :=
  let required_memory := _requirement_memory requirements 0 in
  required_cpu ← py_int (py_or (pget "cpu_weight" requirements) (PInt 1));
  let groups := _exclusive_groups requirements in
  let available := dict_or_empty (pget "capacity" snapshot) in
  available_memory ← py_int (py_or (pget "memory_mb" available) (PInt 0));
  blocking_consumers ← _active_blocking_consumers snapshot groups;
  Ok (advise lane_id required_memory (truthy (pget "degraded" snapshot)) blocking_consumers
        available_memory
        (advice_payload lane_id required_memory required_cpu groups available_memory
           available snapshot blocking_consumers)).

Definition evaluate_runner_requirements (requirements : ResourceRequirements)
    : res HostResourceAdvice :=
  let lane_id := match vision_lane requirements with
                 | Some v => if bool_decide (v = "") then llm_lane requirements else Some v
                 | None => llm_lane requirements
                 end in
  let merged := _lane_requirements lane_id in
  let merged := if 0 <? memory_mb requirements
                then dset "memory_source" (PStr "resource_requirements")
                       (dset "memory_mb" (PInt (memory_mb requirements)) merged)
                else merged in
  let merged := if negb (cpu_weight requirements =? 0)
                then dset "cpu_weight" (PInt (cpu_weight requirements)) merged
                else merged in
  let no_lane := match lane_id with
                 | Some l => bool_decide (l = "")
                 | None => true
                 end in
  if no_lane && (memory_mb requirements <=? 0)
  then Ok (mkAdvice true "allow" None [("lane_id", PNone)])
  else _preview_from_snapshot cached_snapshot lane_id merged.

(** The advisor never admits work onto a paused lane, nor measured work
    that exceeds the memory the host snapshot reports or that arrives while
    the snapshot is degraded. *)
Theorem advice_allow_sound req a :
  0 < memory_mb req -> evaluate_runner_requirements req = Ok a -> ha_allow a = true ->
  exists available,
    py_int (py_or (pget "memory_mb" (dict_or_empty (pget "capacity" cached_snapshot)))
                  (PInt 0)) = Ok available /\
    memory_mb req <= available /\
    truthy (pget "degraded" cached_snapshot) = false /\
    match vision_lane req with
    | Some lane => lane ≠ "" -> is_lane_paused lane = false
    | None => match llm_lane req with
              | Some lane => lane ≠ "" -> is_lane_paused lane = false
              | None => True
              end
    end.
Proof.
  intros Hm. unfold evaluate_runner_requirements.
  rewrite (proj2 (Z.ltb_lt _ _) Hm), (proj2 (Z.leb_gt _ _) Hm), andb_false_r.
  set (lane := match vision_lane req with Some v => _ | None => _ end).
  set (merged := if negb (cpu_weight req =? 0) then _ else _).
  assert (Hreq : _requirement_memory merged 0 = Some (memory_mb req)).
  { unfold _requirement_memory, merged, pget.
    destruct (negb _); rewrite ?(dget_dset_ne "memory_mb" "cpu_weight") by done;
      rewrite (dget_dset_ne "memory_mb" "memory_source") by done;
      rewrite dget_dset_eq; simpl; f_equal; lia. }
  unfold _preview_from_snapshot. rewrite Hreq. intros E Ha.
  apply bind_Ok_inv in E as (cpu & _ & E). apply bind_Ok_inv in E as (av & Hav & E).
  apply bind_Ok_inv in E as (bl & _ & E). injection E as <-. exists av. split; [done|].
  revert Ha. unfold advise.
  destruct (match lane with Some l => _ | None => _ end) eqn:Ep; [done|].
  destruct (truthy _) eqn:Et; [rewrite (proj2 (Z.ltb_lt _ _) Hm); by intros [=]|]. simpl.
  destruct (negb (bool_decide (bl = []))); [intros Hd; discriminate Hd|].
  destruct (av <? memory_mb req) eqn:Eav; [intros Hd; discriminate Hd|]. bool_prop.
  intros _. split; [done|]. split; [done|]. subst lane.
  destruct (vision_lane req) as [v|]; [intros Hv; rewrite bool_decide_false in Ep by done |
    destruct (llm_lane req) as [v|]; [intros Hv | done]];
    rewrite bool_decide_false in Ep by done; by simpl in Ep.
Qed.

End advisor.

Theorem advice_allow_sound_witness :
  let snap := [("capacity", PDict [("memory_mb", PInt 4096)]); ("degraded", PBool false)] in
  let req := mkReq None 0 None 1 1024 0 0 None None (Some "gpu0") None "low" "short" in
  exists a, evaluate_runner_requirements (fun _ => PNone) (fun _ => false) snap req = Ok a
            /\ ha_allow a = true /\ 1024 <= 4096.
Proof.
  intros snap req. eexists. split; [by vm_compute|]. split; [done|].
  destruct (advice_allow_sound (fun _ => PNone) (fun _ => false) snap req _
    ltac:(by vm_compute) ltac:(by vm_compute) ltac:(done)) as (av & Hav & Hle & _).
  vm_compute in Hav. injection Hav as <-. exact Hle.
Defined.
