(* ===== verification/Admission.v ===== *)
(** Resource-aware task admission (runner_resources/admission.py): the guards,
    acquisitions and roll-backs of [acquire_task_resource_admission], stage by
    stage, over any lease store and node-budget store that keep the protocols'
    promises; the wait update of a blocked task.  The state is the pair of the
    two stores. *)
From S2P Require Import Prelude PyDict PyStr PyVal PyTime Requirements.
From S2P Require Import Leases NodeBudget StartupGate HostAdvisor.

Definition RESOURCE_WAIT_REASON : string := "resource_wait".

Record ResourceAdmissionDecision : Type := mkDecision {
  ad_allow : bool;
  ad_requirements : ResourceRequirements;
  blocked_reason : option string;
  blocked_payload : option (dict pyval);
  next_eligible_at : option Z;
  acquired_leases : list ResourceLease;
  preclaim_leases : list ResourceLease;
  node_budget_reservation : option NodeBudgetReservation;
  preclaim_node_budget_reservations : list NodeBudgetReservation;
  execution_context_updates : dict pyval;
}.

(** [str(x or "").strip()] *)
Definition text_of (v : pyval) : string := strip (py_str (py_or v (PStr ""))).

Definition _profile_code (profile : dict pyval) : string :=
  str_or (strip (py_str (py_or (getattr profile "profile_code" (PStr "")) (PStr "runner"))))
         "runner".

Definition _available_slots (capacity : dict pyval) : res Z :=
  n ← py_int (py_or (getattr capacity "available_slots" (PInt 0)) (PInt 0));
  Ok (Z.max 0 n).

Definition _task_id (task : task_arg) : string :=
  match task with
  | TMap d => text_of (pget "id" d)
  | TObj attrs => text_of (getattr attrs "id" (PStr ""))
  end.

(** [x is not None and x != ""] as a truth value. *)
Definition some_text (o : option string) : bool :=
  match o with Some s => negb (bool_decide (s = "")) | None => false end.

Definition _requires_host_resource_gate (r : ResourceRequirements) : bool :=
  if bool_decide (resource_class r = Some "browser") || (0 <? browser_contexts r) then false
  else (0 <? memory_mb r) || some_text (vision_lane r) || some_text (llm_lane r).

Definition _resource_entries (r : ResourceRequirements) : list (string * string) :=
  match ig_profile_lock r with
  | Some lock => if bool_decide (lock = "") then [] else [("ig_profile_lock", lock)]
  | None => []
  end.

(** Whether the task asks for a browser. *)
Definition is_browser (r : ResourceRequirements) : bool :=
  bool_decide (resource_class r = Some "browser") || (0 <? browser_contexts r).

Section admission.
(** The process environment, the host advisor, and the live memory snapshot. *)
Variable environ : dict string.
Variable evaluate : ResourceRequirements -> res HostResourceAdvice.
Variable current_snapshot : dict pyval.

Definition _host_resource_admission_enabled : bool :=
  let raw := default "true" (dget "LOCAL_CORE_HOST_RESOURCE_ADMISSION_ENABLED" environ) in
  negb (bool_decide (lower (strip raw) ∈ ["0"; "false"; "no"; "off"])).

Definition _evaluate_host_resource_gate (r : ResourceRequirements)
    : option HostResourceAdvice :=
  if negb _host_resource_admission_enabled || negb (_requires_host_resource_gate r)
  then None
  else match evaluate r with Ok a => Some a | Raise _ => None end.

(** What the request fixes for the whole call. *)
Record request : Type := mkRequest {
  rq_task : task_arg;
  rq_requirements : ResourceRequirements;
  rq_profile : dict pyval;
  rq_owner : string;
  rq_ttl : Z;
  rq_delay : Z;
  rq_now : Z;                              (** microseconds *)
}.

Definition _blocked_decision (q : request) (why : string) (delay_seconds : Z)
    (resource_key : option string) (extra_payload : dict pyval)
    : ResourceAdmissionDecision :=
  let next := add_seconds (rq_now q)
                (Z.max 1 (if delay_seconds =? 0 then 1 else delay_seconds)) in
  let payload :=
    [("policy", PStr RESOURCE_WAIT_REASON); ("reason", PStr why);
     ("task_id", PStr (_task_id (rq_task q)));
     ("runner_profile", PStr (_profile_code (rq_profile q)));
     ("requirements", PDict (req_to_dict (rq_requirements q)));
     ("defer_until", PStr (isoformat next));
     ("evaluated_at", PStr (isoformat (rq_now q)))] in
  let payload := dupdate payload extra_payload in
  let payload :=
    match resource_key with
    | Some k => if bool_decide (k = "") then payload
                else dset "resource_keys" (PList [PStr k]) (dset "resource_key" (PStr k) payload)
    | None => payload
    end in
  mkDecision false (rq_requirements q) (Some RESOURCE_WAIT_REASON) (Some payload) (Some next)
    [] [] None [] [].

(** * Stage 1: guards that touch no store *)

Definition slots_guard (q : request) (capacity : dict pyval)
    : res (option ResourceAdmissionDecision) :=
  available ← _available_slots capacity;
  if available <? browser_contexts (rq_requirements q)
  then Ok (Some (_blocked_decision q "browser_contexts_unavailable" (rq_delay q) None []))
  else Ok None.

Definition host_guard (q : request) : option ResourceAdmissionDecision :=
  match _evaluate_host_resource_gate (rq_requirements q) with
  | Some advice =>
      if ha_allow advice then None else
      let host_payload := ha_payload advice in
      let lane_id := pget "lane_id" host_payload in
      Some (_blocked_decision q
              (match ha_reason advice with
               | Some r => str_or r (ha_decision advice)
               | None => ha_decision advice
               end)
              (rq_delay q)
              (Some ("host_resource:" +:+ py_str (py_or lane_id (PStr "requirements"))))
              [("blocked_resource", PStr "host_resource");
               ("host_decision", PStr (ha_decision advice));
               ("host_advisor", PDict host_payload)])
  | None => None
  end.

(** The byte reservation a browser task needs. *)
Record memory_plan : Type := mkPlan {
  mp_policy : option NodeBudgetPolicy;
  mp_bytes : Z;
  mp_source : option string;
  mp_fingerprint : string;
  mp_snapshot : dict pyval;
}.

(** [int(snapshot.get("available_bytes") or 0)], 0 on [TypeError], [ValueError]. *)
Definition available_bytes_of (snapshot : dict pyval) : res Z :=
  try_except (py_int (py_or (pget "available_bytes" snapshot) (PInt 0)))
    is_type_or_value_error (Ok 0).

Definition memory_guard (q : request) (node_memory_snapshot : dict pyval)
    (has_budget_store : bool) : res (ResourceAdmissionDecision + memory_plan) :=
  let r := rq_requirements q in
  if negb (is_browser r)
  then Ok (inr (mkPlan None 0 (memory_reservation_source r) "" []))
  else
    let snapshot := match node_memory_snapshot with
                    | [] => current_snapshot
                    | _ => node_memory_snapshot
                    end in
    match resolve_browser_request_bytes r environ with
    | None => Ok (inr (mkPlan None 0 (Some "unmeasured_no_reservation") "" snapshot))
    | Some (request_bytes, source) =>
        policy ← resolve_node_budget_policy snapshot environ;
        match policy with
        | None =>
            Ok (inl (_blocked_decision q "browser_memory_requirement_unavailable" (rq_delay q)
                       None [("blocked_resource", PStr "node_memory");
                             ("node_memory_snapshot", PDict snapshot)]))
        | Some p =>
            available_bytes ← available_bytes_of snapshot;
            if available_bytes <? request_bytes
            then Ok (inl (_blocked_decision q "node_memory_headroom_unavailable" (rq_delay q)
                       None [("blocked_resource", PStr "node_memory");
                             ("requested_bytes", PInt request_bytes);
                             ("available_bytes", PInt available_bytes);
                             ("node_policy_fingerprint", PStr (fingerprint p))]))
            else if negb has_budget_store
            then Ok (inl (_blocked_decision q "node_budget_unavailable" (rq_delay q)
                       None [("blocked_resource", PStr "node_budget")]))
            else
              fp ← resource_profile_fingerprint r request_bytes;
              Ok (inr (mkPlan (Some p) request_bytes (Some source) fp snapshot))
        end
    end.

Context {SL SN : Type} `{ResourceLeaseStore SL} `{NodeBudgetStore SN}.
Definition stores : Type := SL * SN.

Definition on_leases {A} (c : stres SL A) : stres stores A := fun s =>
  let '(a, l) := c s.1 in (a, (l, s.2)).
Definition on_budget {A} (c : stres SN A) : stres stores A := fun s =>
  let '(a, n) := c s.2 in (a, (s.1, n)).

(** * Stage 2: the resource leases *)

Fixpoint acquire_entries (q : request) (entries : list (string * string))
    (acquired : list ResourceLease)
    : stres stores (ResourceAdmissionDecision + list ResourceLease) :=
  match entries with
  | [] => mret (inr acquired)
  | (rtype, rid) :: rest =>
      let key := build_resource_lease_key rtype rid in
      ok ← on_leases (ls_acquire key (rq_owner q) (rq_ttl q));
      if ok : bool then acquire_entries q rest (acquired ++ [mkLease key rtype rid])
      else
        _ ← on_leases (release_acquired_resource_leases acquired (rq_owner q));
        mret (inl (_blocked_decision q (rtype +:+ "_leased") (rq_delay q) (Some key) []))
  end.

(** * Stage 3: the steady byte reservation *)

Definition reserve_steady (q : request) (plan : memory_plan) (has_budget_store : bool)
    (acquired : list ResourceLease)
    : stres stores (ResourceAdmissionDecision + option NodeBudgetReservation) :=
  if negb (is_browser (rq_requirements q)) || negb (0 <? mp_bytes plan)
  then mret (inr None)
  else match has_budget_store, mp_policy plan with
  | true, Some p =>
      d ← on_budget (nb_acquire (rq_owner q) (mp_bytes plan) p (mp_fingerprint plan) (rq_ttl q));
      match NodeBudget.allow d, NodeBudget.reservation d with
      | true, Some r => mret (inr (Some r))
      | _, _ =>
          _ ← on_leases (release_acquired_resource_leases acquired (rq_owner q));
          mret (inl (_blocked_decision q
            (match NodeBudget.reason d with
             | Some why => str_or why "node_budget_exhausted"
             | None => "node_budget_exhausted"
             end) (rq_delay q) None
            [("blocked_resource", PStr "node_budget");
             ("requested_bytes", PInt (mp_bytes plan));
             ("reserved_bytes", PInt (NodeBudget.reserved_bytes d));
             ("allocatable_bytes", PInt (allocatable_bytes p));
             ("node_policy_fingerprint", PStr (fingerprint p));
             ("resource_profile_fingerprint", PStr (mp_fingerprint plan))]))
      end
  | _, _ => raise_st AssertionError
  end.

(** [if node_reservation is not None and node_budget_store is not None]. *)
Definition release_opt (has_budget_store : bool) (r : option NodeBudgetReservation)
    : stres stores unit :=
  match r with
  | Some v => if has_budget_store then _ ← on_budget (nb_release v); mret tt else mret tt
  | None => mret tt
  end.

Fixpoint release_reservations (rs : list NodeBudgetReservation) : stres stores unit :=
  match rs with
  | [] => mret tt
  | r :: rest => _ ← on_budget (nb_release r); release_reservations rest
  end.

(** * Stage 4: the transient start-up reservation and the start-up slot *)

Definition reserve_startup (q : request) (plan : memory_plan) (has_budget_store : bool)
    (acquired : list ResourceLease) (steady : option NodeBudgetReservation)
    : stres stores (ResourceAdmissionDecision + list NodeBudgetReservation) :=
  let r := rq_requirements q in
  let startup_requested := match resolve_browser_startup_request_bytes r with
                           | Some (b, _) => b
                           | None => 0
                           end in
  let transient := Z.max 0 (startup_requested - mp_bytes plan) in
  if negb (0 <? transient) then mret (inr [])
  else match has_budget_store, mp_policy plan with
  | true, Some p =>
      let spacing := resolve_browser_startup_spacing_seconds r environ in
      fp ← lift_res (resource_profile_fingerprint r startup_requested);
      d ← on_budget (nb_acquire (rq_owner q +:+ ":browser_startup") transient p fp spacing);
      match NodeBudget.allow d, NodeBudget.reservation d with
      | true, Some v => mret (inr [v])
      | _, _ =>
          _ ← on_leases (release_acquired_resource_leases acquired (rq_owner q));
          _ ← release_opt true steady;
          mret (inl (_blocked_decision q "browser_startup_node_budget_exhausted" spacing None
            [("blocked_resource", PStr "browser_startup_node_budget");
             ("startup_requested_bytes", PInt startup_requested);
             ("startup_transient_bytes", PInt transient);
             ("reserved_bytes", PInt (NodeBudget.reserved_bytes d));
             ("allocatable_bytes", PInt (allocatable_bytes p));
             ("node_policy_fingerprint", PStr (fingerprint p))]))
      end
  | _, _ => raise_st AssertionError
  end.

(** The snapshot the start-up gate sees: headroom capped by the policy. *)
Definition startup_gate_snapshot (plan : memory_plan) : res (dict pyval) :=
  match mp_policy plan with
  | Some p =>
      physical ← available_bytes_of (mp_snapshot plan);
      Ok (dset "available_bytes" (PInt (Z.min physical (allocatable_bytes p)))
            (mp_snapshot plan))
  | None => Ok (mp_snapshot plan)
  end.

Definition pass_startup_gate (q : request) (plan : memory_plan) (has_budget_store : bool)
    (acquired : list ResourceLease) (steady : option NodeBudgetReservation)
    (transients : list NodeBudgetReservation)
    : stres stores (ResourceAdmissionDecision + BrowserStartupDecision) :=
  gate_snapshot ← lift_res (startup_gate_snapshot plan);
  d ← on_leases (acquire_browser_startup_gate (rq_requirements q) gate_snapshot environ
                   (rq_owner q));
  if bs_allow d then mret (inr d)
  else
    _ ← on_leases (release_acquired_resource_leases acquired (rq_owner q));
    _ ← release_opt has_budget_store steady;
    _ ← (if has_budget_store then release_reservations transients else mret tt);
    mret (inl (_blocked_decision q
      (match bs_reason d with
       | Some why => str_or why "browser_startup_gate_unavailable"
       | None => "browser_startup_gate_unavailable"
       end) (bs_spacing_seconds d) None
      [("blocked_resource", PStr "browser_startup");
       ("startup_requested_bytes", PInt (bs_requested_bytes d));
       ("startup_request_source", py_opt (bs_request_source d));
       ("startup_spacing_seconds", PInt (bs_spacing_seconds d));
       ("startup_slot_count", PInt (bs_slot_count d))])).

(** * Stage 5: the admitted decision *)

Definition startup_lease (d : BrowserStartupDecision) : list ResourceLease :=
  match bs_allow d, bs_lease_key d with
  | true, Some key =>
      if bool_decide (key = "") then []
      else [mkLease key "browser_startup"
              ("slot_" +:+ str_int (default 0 (bs_slot_index d)))]
  | _, _ => []
  end.

Definition memory_admission_mode (steady : option NodeBudgetReservation)
    (source : option string) : string :=
  match steady with
  | None => "unmeasured_no_reservation"
  | Some _ =>
      if bool_decide (source = Some "observed_unmeasured_floor")
      then "observed_floor_reservation"
      else if bool_decide (source = Some "playbook_startup_fallback")
      then "measured_startup_fallback_reservation"
      else "measured_steady_reservation"
  end.

Definition startup_to_context (d : BrowserStartupDecision) : pyval :=
  PDict [("requested_bytes", PInt (bs_requested_bytes d));
         ("request_source", py_opt (bs_request_source d));
         ("spacing_seconds", PInt (bs_spacing_seconds d));
         ("slot_count", PInt (bs_slot_count d));
         ("slot_index", py_optZ (bs_slot_index d));
         ("lease_key", py_opt (bs_lease_key d))].

Definition admission_context (q : request) (plan : memory_plan)
    (acquired : list ResourceLease) (steady : option NodeBudgetReservation)
    (startup : option BrowserStartupDecision) : dict pyval :=
  let base := [(LEASE_CONTEXT_KEY, PList (map lease_to_context acquired))] in
  let base := match steady with
              | Some r => dset NODE_BUDGET_CONTEXT_KEY (PDict (reservation_to_context r)) base
              | None => base
              end in
  dset "resource_admission" (PDict
    [("state", PStr "admitted"); ("task_id", PStr (_task_id (rq_task q)));
     ("runner_profile", PStr (_profile_code (rq_profile q)));
     ("requirements", PDict (req_to_dict (rq_requirements q)));
     ("lease_keys", PList (map (fun l => PStr (lease_key l)) acquired));
     ("requested_memory_bytes", PInt (mp_bytes plan));
     ("memory_reservation_source", py_opt (mp_source plan));
     ("memory_admission_mode", PStr (memory_admission_mode steady (mp_source plan)));
     ("node_policy_fingerprint", py_opt (fingerprint <$> mp_policy plan));
     ("resource_profile_fingerprint", py_opt (str_opt (mp_fingerprint plan)));
     ("browser_startup", match startup with
                         | Some d => startup_to_context d
                         | None => PNone
                         end);
     ("admitted_at", PStr (isoformat (rq_now q)))]) base.

Definition admitted_decision (q : request) (plan : memory_plan)
    (acquired : list ResourceLease) (steady : option NodeBudgetReservation)
    (transients : list NodeBudgetReservation) (startup : option BrowserStartupDecision)
    : ResourceAdmissionDecision :=
  mkDecision true (rq_requirements q) None None None acquired
    (match startup with Some d => startup_lease d | None => [] end)
    steady transients
    (if negb (bool_decide (length acquired = O)) || bool_decide (is_Some steady)
        || is_browser (rq_requirements q)
     then admission_context q plan acquired steady startup else []).

(** * [acquire_task_resource_admission] *)

Definition browser_stages (q : request) (plan : memory_plan) (has_budget_store : bool)
    (acquired : list ResourceLease) (steady : option NodeBudgetReservation)
    : stres stores (ResourceAdmissionDecision +
                    list NodeBudgetReservation * option BrowserStartupDecision) :=
  if negb (is_browser (rq_requirements q)) then mret (inr ([], None))
  else
    t ← reserve_startup q plan has_budget_store acquired steady;
    match t with
    | inl d => mret (inl d)
    | inr transients =>
        g ← pass_startup_gate q plan has_budget_store acquired steady transients;
        match g with
        | inl d => mret (inl d)
        | inr startup => mret (inr (transients, Some startup))
        end
    end.

(** Stages 2 to 5, once the memory plan is known. *)
Definition acquire_planned (q : request) (plan : memory_plan) (has_budget_store : bool)
    : stres stores ResourceAdmissionDecision :=
  e ← acquire_entries q (_resource_entries (rq_requirements q)) [];
  match e with
  | inl d => mret d
  | inr acquired =>
      n ← reserve_steady q plan has_budget_store acquired;
      match n with
      | inl d => mret d
      | inr steady =>
          b ← browser_stages q plan has_budget_store acquired steady;
          match b with
          | inl d => mret d
          | inr (transients, startup) =>
              mret (admitted_decision q plan acquired steady transients startup)
          end
      end
  end.

Definition acquire_task_resource_admission (q : request) (capacity : dict pyval)
    (node_memory_snapshot : dict pyval) (has_budget_store : bool)
    : stres stores ResourceAdmissionDecision :=
  blocked ← lift_res (slots_guard q capacity);
  match blocked with
  | Some d => mret d
  | None =>
      match host_guard q with
      | Some d => mret d
      | None =>
          m ← lift_res (memory_guard q node_memory_snapshot has_budget_store);
          match m with
          | inl d => mret d
          | inr plan => acquire_planned q plan has_budget_store
          end
      end
  end.

Definition release_acquired_resource_admission (decision : ResourceAdmissionDecision)
    (owner_id : string) (has_budget_store : bool) : stres stores unit :=
  _ ← on_leases (release_acquired_resource_leases
        (acquired_leases decision ++ preclaim_leases decision) owner_id);
  _ ← release_opt has_budget_store (node_budget_reservation decision);
  if has_budget_store
  then release_reservations (preclaim_node_budget_reservations decision) else mret tt.

(** * The update of a task left waiting *)

Record task_update : Type := mkUpdate {
  tu_execution_context : dict pyval;
  tu_next_eligible_at : Z;
  tu_blocked_reason : string;
  tu_blocked_payload : option (dict pyval);
  tu_frontier_state : string;
  tu_frontier_enqueued_at : option Z;
  tu_queue_shard : option string;
}.

(** [list(dict.fromkeys(str(k).strip() for k in keys if str(k).strip()))] *)
Definition distinct_keys (keys : list pyval) : list string :=
  foldl (fun acc k =>
    let s := strip (py_str k) in
    if bool_decide (s = "") || bool_decide (s ∈ acc) then acc else acc ++ [s]) [] keys.

Definition wait_resource_keys (payload : dict pyval) : list string :=
  let resource_keys := match pget "resource_keys" payload with PList l => l | _ => [] end in
  let resource_keys :=
    match pget "resource_key" payload with
    | PStr k => if bool_decide (strip k = "") then resource_keys
                else PStr (strip k) :: resource_keys
    | _ => resource_keys
    end in
  distinct_keys resource_keys.

Definition build_resource_wait_task_update (task_ctx : pyval)
    (decision : ResourceAdmissionDecision) (current_queue_shard : option string)
    (utc_now : Z) : task_update :=
  let ctx2 := dict_or_empty task_ctx in
  let payload := default [] (blocked_payload decision) in
  let resource_keys := wait_resource_keys payload in
  let previous_runner_id := pget "runner_id" ctx2 in
  let ctx2 := ddel "heartbeat_at" (ddel "runner_id" ctx2) in
  let ctx2 := if truthy previous_runner_id && negb (truthy (pget "last_runner_id" ctx2))
              then dset "last_runner_id" previous_runner_id ctx2 else ctx2 in
  let next := default (add_seconds utc_now 30) (next_eligible_at decision) in
  let ctx2 := dset "resume_after" (PStr (isoformat next)) ctx2 in
  let admission :=
    [("state", PStr "waiting"); ("reason", pget "reason" payload);
     ("defer_until", PStr (isoformat next));
     ("requirements", PDict (req_to_dict (ad_requirements decision)))]
    ++ (if bool_decide (resource_keys = []) then []
        else [("resource_keys", PList (map PStr resource_keys))]) in
  let ctx2 := dset "resource_admission" (PDict admission) ctx2 in
  let ctx2 := ddel NODE_BUDGET_CONTEXT_KEY (ddel LEASE_CONTEXT_KEY ctx2) in
  mkUpdate ctx2 next RESOURCE_WAIT_REASON (blocked_payload decision) "cold" None
    current_queue_shard.

End admission.

(** * What an admission takes and gives back *)

Section facts.
Variable environ : dict string.
Variable evaluate : ResourceRequirements -> res HostResourceAdvice.
Variable current_snapshot : dict pyval.
Context {SL SN : Type} `{lease_laws : LeaseStoreLaws SL} `{budget_laws : NodeBudgetLaws SN}.

(** Everything held in [l'] and not in [l] is one of the leases [ls] of [owner]. *)
Definition held_upto (owner : string) (ls : list ResourceLease) (l' l : SL) : Prop :=
  forall k x, holder l' k = Some x ->
    (x = owner /\ k ∈ map lease_key ls) \/ holder l k = Some x.

(** Everything reserved in [n'] and not in [n] is one of [rs]. *)
Definition live_upto (rs : list NodeBudgetReservation) (n' n : SN) : Prop :=
  forall o r, live n' o = Some r -> (owner_id r = o /\ r ∈ rs) \/ live n o = Some r.

Lemma held_upto_nil owner l' l : held_le l' l <-> held_upto owner [] l' l.
Proof. unfold held_le, held_upto. simpl. set_solver. Qed.

Lemma live_upto_nil n' n : live_le n' n <-> live_upto [] n' n.
Proof. unfold live_le, live_upto. set_solver. Qed.

Lemma held_undo owner ls l2 l1 l0 u :
  held_upto owner ls l1 l0 ->
  release_acquired_resource_leases ls owner l1 = (Ok u, l2) -> held_le l2 l0.
Proof.
  intros Hup Hr. apply release_acquired_held in Hr as [Hle Hno]. intros k x Hk.
  destruct (Hup k x (Hle k x Hk)) as [[-> Hin]|]; [|done].
  apply list_elem_of_fmap in Hin as (le & -> & Hin).
  rewrite Forall_forall in Hno. by destruct (Hno le Hin).
Qed.

Lemma live_release_one v rs n2 n1 n0 b :
  nb_wf n1 -> live_upto (v :: rs) n1 n0 -> nb_release v n1 = (Ok b, n2) ->
  live_upto rs n2 n0 /\ nb_wf n2.
Proof.
  intros Hwf Hup Hr. split; [|by eapply nb_release_wf].
  apply nb_release_ok in Hr as [Hle Hno]; [|done]. intros o r Hl.
  destruct (Hup o r (Hle o r Hl)) as [[<- Hin]|]; [|by right].
  apply list.elem_of_cons in Hin as [->|Hin]; [|by left].
  by destruct (Hno v Hl).
Qed.

Lemma release_reservations_undo (rs rest : list NodeBudgetReservation) (s1 s2 : stores (SL:=SL) (SN:=SN)) n0 u :
  nb_wf s1.2 -> live_upto (rs ++ rest) s1.2 n0 ->
  release_reservations rs s1 = (Ok u, s2) ->
  s2.1 = s1.1 /\ nb_wf s2.2 /\ live_upto rest s2.2 n0.
Proof.
  revert s1. induction rs as [|v rs IH]; simpl; intros s1 Hwf Hup E.
  { inv E. done. }
  apply st_bind_Ok_inv in E as (b & s3 & E1 & E). unfold on_budget in E1.
  destruct (nb_release v s1.2) as [r n2] eqn:Er. injection E1 as -> <-.
  apply (live_release_one v (rs ++ rest)) with (n0 := n0) in Er as [Hup' Hwf']; [|done|done].
  apply IH in E; done.
Qed.

Lemma release_opt_undo hb (o : option NodeBudgetReservation) rest (s1 s2 : stores (SL:=SL) (SN:=SN)) n0 u :
  (hb = false -> o = None) ->
  nb_wf s1.2 -> live_upto (option_list o ++ rest) s1.2 n0 ->
  release_opt hb o s1 = (Ok u, s2) ->
  s2.1 = s1.1 /\ nb_wf s2.2 /\ live_upto rest s2.2 n0.
Proof.
  intros Hhb Hwf Hup E. destruct o as [v|]; simpl in *; [|by inv E].
  destruct hb; [|by specialize (Hhb eq_refl)].
  apply st_bind_Ok_inv in E as (b & s3 & E1 & E). inv E. unfold on_budget in E1.
  destruct (nb_release v s1.2) as [r n2] eqn:Er. injection E1 as -> <-.
  by apply (live_release_one v rest) with (n0 := n0) in Er as [Hup' Hwf'].
Qed.

(** What a stage may have done: a blocked stage leaves nothing behind, a
    passed one only what it reports. *)
Definition stage_ok {A} (owner : string) (s0 : stores (SL:=SL) (SN:=SN))
    (leases_of : A -> list ResourceLease) (res_of : A -> list NodeBudgetReservation)
    (r : ResourceAdmissionDecision + A) (s' : stores (SL:=SL) (SN:=SN)) : Prop :=
  match r with
  | inl d => ad_allow d = false /\ held_le s'.1 s0.1 /\ live_le s'.2 s0.2
  | inr a => held_upto owner (leases_of a) s'.1 s0.1 /\ live_upto (res_of a) s'.2 s0.2
             /\ nb_wf s'.2
  end.

Lemma on_leases_inv {A} (c : stres SL A) (s s' : stores (SL:=SL) (SN:=SN)) a :
  on_leases c s = (Ok a, s') -> exists l', c s.1 = (Ok a, l') /\ s' = (l', s.2).
Proof. unfold on_leases. destruct (c s.1) as [x l']. intros [= -> <-]. eauto. Qed.

Lemma on_budget_inv {A} (c : stres SN A) (s s' : stores (SL:=SL) (SN:=SN)) a :
  on_budget c s = (Ok a, s') -> exists n', c s.2 = (Ok a, n') /\ s' = (s.1, n').
Proof. unfold on_budget. destruct (c s.2) as [x n']. intros [= -> <-]. eauto. Qed.

Lemma acquire_entries_ok q entries acquired s0 s r s' :
  nb_wf s.2 -> s.2 = s0.2 -> held_upto (rq_owner q) acquired s.1 s0.1 ->
  acquire_entries q entries acquired s = (Ok r, s') ->
  stage_ok (rq_owner q) s0 (fun ls => ls) (fun _ => []) r s' /\ s'.2 = s0.2.
Proof.
  revert acquired s. induction entries as [|[rt ri] rest IH]; simpl;
    intros acquired s Hwf Hn Hup E.
  { inv E. split; [|done]. split; [done|]. rewrite Hn. split; [|by rewrite <- Hn].
    apply live_upto_nil. reflexivity. }
  apply st_bind_Ok_inv in E as (b & s1 & Ea & E).
  apply on_leases_inv in Ea as (l1 & Ea & ->). destruct b.
  - apply acquire_true in Ea as [_ Hle].
    eapply IH in E; [exact E | done | done |]. intros k x Hk. simpl in Hk.
    apply Hle in Hk as [[-> ->]|Hk].
    + left. split; [done|]. rewrite map_app. simpl. set_solver.
    + apply Hup in Hk as [[-> Hin]|]; [|by right]. left. split; [done|].
      rewrite map_app. set_solver.
  - apply acquire_false in Ea.
    apply st_bind_Ok_inv in E as (u & s2 & Er & E). inv E.
    apply on_leases_inv in Er as (l2 & Er & ->). simpl in *.
    split; [|done]. split; [done|]. simpl. split.
    + eapply held_undo; [|exact Er]. intros k x Hk. apply Hup. by apply Ea.
    + rewrite Hn. reflexivity.
Qed.

Lemma reserve_steady_ok q plan hb acquired s0 s r s' :
  nb_wf s.2 -> s.2 = s0.2 -> held_upto (rq_owner q) acquired s.1 s0.1 ->
  reserve_steady q plan hb acquired s = (Ok r, s') ->
  stage_ok (rq_owner q) s0 (fun _ => acquired) option_list r s' /\
  (hb = false -> r = inr None).
Proof.
  intros Hwf Hn Hup. unfold reserve_steady. destruct (_ || _).
  { intros E. inv E. split; [|done]. split; [done|]. split; [|done].
    rewrite Hn. apply live_upto_nil. reflexivity. }
  destruct hb, (mp_policy plan) as [p|]; try done. intros E.
  apply st_bind_Ok_inv in E as (d & s1 & Ea & E).
  apply on_budget_inv in Ea as (n1 & Ea & ->).
  assert (Hden : (NodeBudget.allow d = false \/ NodeBudget.reservation d = None) ->
    forall extra why s'', (_ ← on_leases (SN:=SN) (release_acquired_resource_leases acquired (rq_owner q));
      mret (inl (_blocked_decision q why (rq_delay q) None extra))) (s.1, n1) = (Ok r, s'') ->
    stage_ok (rq_owner q) s0 (fun _ : option NodeBudgetReservation => acquired) option_list r s'' /\
    (true = false -> r = inr None)).
  { intros Hd extra why s'' E'. eapply nb_acquire_denied in Hd; [|exact Hwf | exact Ea].
    apply st_bind_Ok_inv in E' as (u & s2 & Er & E'). inv E'.
    apply on_leases_inv in Er as (l2 & Er & ->). split; [|done]. simpl in *.
    split; [done|]. split; [by eapply held_undo|]. by rewrite <- Hn. }
  destruct (NodeBudget.allow d) eqn:Eal; [destruct (NodeBudget.reservation d) as [v|] eqn:Ev|].
  - inv E. split; [|done]. split; [done|]. simpl. split; [|by eapply nb_acquire_wf].
    eapply nb_acquire_granted in Ea as (Ho & _ & _ & Hall); [|done..]. simpl in *.
    intros o' v' Hv'. apply Hall in Hv' as [[-> ->]|Hv']; [|right; by rewrite <- Hn].
    left. split; [done|]. set_solver.
  - eapply Hden, E. by right.
  - eapply Hden, E. by left.
Qed.

Lemma reserve_startup_ok q plan hb acquired steady s0 s r s' :
  nb_wf s.2 -> held_upto (rq_owner q) acquired s.1 s0.1 ->
  live_upto (option_list steady) s.2 s0.2 ->
  reserve_startup environ q plan hb acquired steady s = (Ok r, s') ->
  stage_ok (rq_owner q) s0 (fun _ => acquired) (fun ts => option_list steady ++ ts) r s' /\
  (hb = false -> r = inr []).
Proof.
  intros Hwf Hup Hlive. unfold reserve_startup. set (transient := Z.max 0 _).
  destruct (negb _).
  { intros E. inv E. split; [|done]. split; [done|]. by rewrite app_nil_r. }
  destruct hb, (mp_policy plan) as [p|]; try done. intros E.
  apply st_bind_Ok_inv in E as (fp & s0' & [= _ <-] & E).
  apply st_bind_Ok_inv in E as (d & s1 & Ea & E).
  apply on_budget_inv in Ea as (n1 & Ea & ->). pose proof Ea as Ewf.
  apply nb_acquire_wf in Ewf; [|done].
  assert (Hden : (NodeBudget.allow d = false \/ NodeBudget.reservation d = None) ->
    forall extra why n s'', (_ ← on_leases (SN:=SN) (release_acquired_resource_leases acquired (rq_owner q));
      _ ← release_opt true steady;
      mret (inl (_blocked_decision q why n None extra))) (s.1, n1) = (Ok r, s'') ->
    stage_ok (rq_owner q) s0 (fun _ : list NodeBudgetReservation => acquired)
      (fun ts => option_list steady ++ ts) r s'' /\ (true = false -> r = inr [])).
  { intros Hd extra why n s'' E'. eapply nb_acquire_denied in Hd; [|exact Hwf | exact Ea].
    apply st_bind_Ok_inv in E' as (u & s2 & Er & E').
    apply on_leases_inv in Er as (l2 & Er & ->).
    apply st_bind_Ok_inv in E' as (u' & s3 & Eo & E'). inv E'.
    eapply (release_opt_undo true steady [] _ _ s0.2) in Eo as (Hfst & _ & Hl); [|done|done|].
    - split; [|done]. split; [done|]. simpl in *. rewrite Hfst. split; [by eapply held_undo|].
      by apply live_upto_nil.
    - rewrite app_nil_r. intros o v Hv. apply Hlive. by apply Hd. }
  destruct (NodeBudget.allow d) eqn:Eal; [destruct (NodeBudget.reservation d) as [v|] eqn:Ev|].
  - inv E. split; [|done]. split; [done|]. simpl. split; [|done].
    eapply nb_acquire_granted in Ea as (Ho & _ & _ & Hall); [|done..]. simpl in *.
    intros o' v' Hv'. apply Hall in Hv' as [[-> ->]|Hv'].
    + left. split; [done|]. set_solver.
    + apply Hlive in Hv' as [[? ?]|]; [left; set_solver | by right].
  - eapply Hden, E. by right.
  - eapply Hden, E. by left.
Qed.

Lemma pass_startup_gate_ok q plan hb acquired steady ts s0 s r s' :
  (hb = false -> steady = None /\ ts = []) ->
  nb_wf s.2 -> held_upto (rq_owner q) acquired s.1 s0.1 ->
  live_upto (option_list steady ++ ts) s.2 s0.2 ->
  pass_startup_gate environ q plan hb acquired steady ts s = (Ok r, s') ->
  stage_ok (rq_owner q) s0 (fun d => acquired ++ startup_lease d)
    (fun _ => option_list steady ++ ts) r s'.
Proof.
  intros Hhb Hwf Hup Hlive. unfold pass_startup_gate. intros E.
  apply st_bind_Ok_inv in E as (snap & s1 & [= _ <-] & E).
  apply st_bind_Ok_inv in E as (d & s2 & Eg & E).
  apply on_leases_inv in Eg as (l2 & Eg & ->). apply gate_spec in Eg.
  destruct (bs_allow d) eqn:Eal.
  - inv E. simpl. split; [|done]. destruct (bs_lease_key d) as [key|] eqn:Ek; [|done].
    destruct Eg as (Hne & _ & Hle). intros k x Hk. apply Hle in Hk as [[-> ->]|Hk].
    + left. split; [done|]. rewrite map_app. unfold startup_lease. rewrite Eal, Ek.
      rewrite bool_decide_false by done. set_solver.
    + apply Hup in Hk as [[-> Hin]|]; [|by right]. left. split; [done|].
      rewrite map_app. set_solver.
  - destruct Eg as [Hle Hnone].
    apply st_bind_Ok_inv in E as (u & s3 & Er & E).
    apply on_leases_inv in Er as (l3 & Er & ->). simpl in Er, E.
    apply st_bind_Ok_inv in E as (u' & s4 & Eo & E).
    eapply (release_opt_undo hb steady ts _ _ s0.2) in Eo as (Hfst & Hwf4 & Hl4);
      [|naive_solver | done | done].
    apply st_bind_Ok_inv in E as (u'' & s5 & Et & E). inv E. simpl in *.
    split; [done|].
    assert (Hheld : held_le l3 s0.1).
    { eapply held_undo; [|exact Er]. intros k x Hk. apply Hup. by apply Hle. }
    destruct hb.
    + eapply (release_reservations_undo ts [] _ _ s0.2) in Et as (Hf & _ & Hl);
        [|done | by rewrite app_nil_r]. rewrite Hf, Hfst. split; [done|]. by apply live_upto_nil.
    + assert (s4 = s') as <- by (by inv Et). rewrite Hfst. split; [done|].
      destruct Hhb as [-> ->]; [done|].
      by apply live_upto_nil.
Qed.

Lemma blocked_is_blocked q why n k extra : ad_allow (_blocked_decision q why n k extra) = false.
Proof. done. Qed.

(** The guards of stage 1 only produce blocked decisions. *)
Lemma slots_guard_blocked q capacity d :
  slots_guard q capacity = Ok (Some d) -> ad_allow d = false.
Proof.
  unfold slots_guard. intros E. apply bind_Ok_inv in E as (n & _ & E).
  destruct (n <? _); by inv E.
Qed.

Lemma host_guard_blocked q d :
  host_guard environ evaluate q = Some d -> ad_allow d = false.
Proof.
  unfold host_guard. destruct (_evaluate_host_resource_gate _ _ _) as [a|]; [|done].
  destruct (ha_allow a); [done|]. by intros [= <-].
Qed.

Lemma memory_guard_blocked q snap hb d :
  memory_guard environ current_snapshot q snap hb = Ok (inl d) -> ad_allow d = false.
Proof.
  unfold memory_guard. destruct (negb _); [done|].
  destruct (resolve_browser_request_bytes _ _) as [[b src]|]; [|done]. intros E.
  apply bind_Ok_inv in E as (pol & _ & E). destruct pol as [p|]; [|by inv E].
  apply bind_Ok_inv in E as (av & _ & E). destruct (av <? b); [by inv E|].
  destruct (negb hb); [by inv E|]. apply bind_Ok_inv in E as (fp & _ & E). by inv E.
Qed.

Definition admission := acquire_task_resource_admission environ evaluate current_snapshot
  (SL:=SL) (SN:=SN).

(** What a decision accounts for between the states [s] and [s']. *)
Definition accounted (owner : string) (d : ResourceAdmissionDecision)
    (s s' : stores (SL:=SL) (SN:=SN)) : Prop :=
  if ad_allow d
  then held_upto owner (acquired_leases d ++ preclaim_leases d) s'.1 s.1 /\
       live_upto (option_list (node_budget_reservation d)
                  ++ preclaim_node_budget_reservations d) s'.2 s.2 /\ nb_wf s'.2
  else held_le s'.1 s.1 /\ live_le s'.2 s.2.

Lemma browser_stages_ok q plan hb acquired steady s0 s r s' :
  (hb = false -> steady = None) ->
  nb_wf s.2 -> held_upto (rq_owner q) acquired s.1 s0.1 ->
  live_upto (option_list steady) s.2 s0.2 ->
  browser_stages environ q plan hb acquired steady s = (Ok r, s') ->
  stage_ok (rq_owner q) s0
    (fun x => acquired ++ match x.2 with Some d => startup_lease d | None => [] end)
    (fun x => option_list steady ++ x.1) r s'.
Proof.
  intros Hhb Hwf Hup Hlive. unfold browser_stages. destruct (negb _).
  { intros E. inv E. split; simpl; by rewrite app_nil_r. }
  intros E. apply st_bind_Ok_inv in E as (t & s1 & Et & E).
  eapply reserve_startup_ok in Et as [Hst Hnil]; [|done..].
  destruct t as [d|ts]; [by inv E|]. destruct Hst as (Hup1 & Hl1 & Hwf1).
  apply st_bind_Ok_inv in E as (g & s2 & Eg & E).
  eapply pass_startup_gate_ok in Eg; [|intros Hb; split; [by apply Hhb |
    by specialize (Hnil Hb) as [= ->]] | done | exact Hup1 | exact Hl1].
  destruct g as [d|st]; by inv E.
Qed.

Lemma acquire_planned_ok q plan hb s d s' :
  nb_wf s.2 -> acquire_planned environ q plan hb s = (Ok d, s') ->
  accounted (rq_owner q) d s s'.
Proof.
  intros Hwf E. unfold acquire_planned in E. unfold accounted.
  apply st_bind_Ok_inv in E as (e & s1 & Ee & E).
  eapply acquire_entries_ok with (s0 := s) in Ee as [He Hs1]; [|done | done |].
  2: { intros k x Hk. by right. }
  destruct e as [d1|acquired]; [inv E; by destruct He as [-> ?]|].
  destruct He as (Hup & _ & Hwf1).
  apply st_bind_Ok_inv in E as (n & s2 & En & E).
  eapply reserve_steady_ok with (s0 := s) in En as [Hn Hnone]; [|done..].
  destruct n as [d1|steady]; [inv E; by destruct Hn as [-> ?]|].
  destruct Hn as (Hup2 & Hl2 & Hwf2).
  apply st_bind_Ok_inv in E as (b & s3 & Eb & E).
  eapply browser_stages_ok with (s0 := s) in Eb; [|intros Hb; by specialize (Hnone Hb) as [= ->] |
    exact Hwf2 | exact Hup2 | exact Hl2].
  destruct b as [d1|[ts st]]; inv E; simpl in *; [by destruct Eb as [-> ?] | done].
Qed.

Lemma admission_ok q capacity snap hb s d s' :
  nb_wf s.2 -> admission q capacity snap hb s = (Ok d, s') -> accounted (rq_owner q) d s s'.
Proof.
  intros Hwf E. unfold admission, acquire_task_resource_admission in E.
  apply st_bind_Ok_inv in E as (o & s1 & Eo & E). injection Eo as Eo <-.
  destruct o as [d1|].
  { inv E. apply slots_guard_blocked in Eo. unfold accounted. by rewrite Eo. }
  destruct (host_guard _ _ q) as [d1|] eqn:Eh.
  { inv E. apply host_guard_blocked in Eh. unfold accounted. by rewrite Eh. }
  apply st_bind_Ok_inv in E as (m & s2 & Em & E). injection Em as Em <-.
  destruct m as [d1|plan].
  { inv E. apply memory_guard_blocked in Em. unfold accounted. by rewrite Em. }
  by eapply acquire_planned_ok.
Qed.

(** Admission is all or nothing: when a task is blocked, at whatever stage,
    no lease and no byte reservation taken on the way is left behind, in stores
    that keep the laws of their classes. (The in-memory stores do; the Redis
    stores as long as the server is reached and no reply is lost.) *)
Theorem blocked_admission_leaks_nothing q capacity snap hb s d s' :
  nb_wf s.2 ->
  acquire_task_resource_admission environ evaluate current_snapshot q capacity snap hb s
    = (Ok d, s') ->
  ad_allow d = false ->
  held_le s'.1 s.1 /\ live_le s'.2 s.2.
Proof.
  intros Hwf E Hd. apply admission_ok in E; [|done]. unfold accounted in E.
  by rewrite Hd in E.
Qed.

(** An admission is completely undone by its release: everything the
    admitted task came to hold is recorded in its decision, and releasing the
    decision leaves no lease and no reservation that was not there before. *)
Theorem release_undoes_admission q capacity snap s d s1 u s2 :
  nb_wf s.2 ->
  acquire_task_resource_admission environ evaluate current_snapshot q capacity snap true s
    = (Ok d, s1) ->
  ad_allow d = true ->
  release_acquired_resource_admission d (rq_owner q) true s1 = (Ok u, s2) ->
  (forall k x, holder s1.1 k = Some x ->
     (x = rq_owner q /\ k ∈ map lease_key (acquired_leases d ++ preclaim_leases d))
     \/ holder s.1 k = Some x) /\
  held_le s2.1 s.1 /\ live_le s2.2 s.2.
Proof.
  intros Hwf E Hd R. apply admission_ok in E; [|done]. unfold accounted in E.
  rewrite Hd in E. destruct E as (Hup & Hl & Hwf1). split; [exact Hup|].
  unfold release_acquired_resource_admission in R.
  apply st_bind_Ok_inv in R as (u1 & s3 & R1 & R).
  apply on_leases_inv in R1 as (l3 & R1 & ->).
  apply st_bind_Ok_inv in R as (u2 & s4 & R2 & R).
  eapply (release_opt_undo true _ (preclaim_node_budget_reservations d) _ _ s.2) in R2
    as (H4 & Hwf4 & Hl4); [|done | done | exact Hl].
  eapply (release_reservations_undo _ [] _ _ s.2) in R as (H5 & _ & Hl5);
    [|done | by rewrite app_nil_r].
  rewrite H5, H4. split; [by eapply held_undo | by apply live_upto_nil].
Qed.

(** * The guards behind an admission *)

Lemma acquire_planned_steady q plan hb s d s' :
  acquire_planned environ q plan hb s = (Ok d, s') -> ad_allow d = true ->
  nb_wf s.2 -> is_browser (rq_requirements q) = true -> 0 < mp_bytes plan ->
  exists v, node_budget_reservation d = Some v /\ bytes v = mp_bytes plan /\
            owner_id v = rq_owner q.
Proof.
  intros E Hd Hwf Hb Hp. unfold acquire_planned in E.
  apply st_bind_Ok_inv in E as (e & s1 & Ee & E).
  eapply acquire_entries_ok with (s0 := s) in Ee as [He Hs1]; [|done | done |].
  2: { intros k x Hk. by right. }
  destruct e as [d1|acquired]; [inv E; destruct He as [? _]; congruence|].
  destruct He as (Hup & _ & Hwf1).
  apply st_bind_Ok_inv in E as (n & s2 & En & E). pose proof En as En'.
  eapply reserve_steady_ok with (s0 := s) in En' as [Hn Hnone]; [|done..].
  destruct n as [d1|steady]; [inv E; destruct Hn as [? _]; congruence|].
  destruct Hn as (Hup2 & Hl2 & Hwf2).
  assert (Hsteady : exists v, steady = Some v /\ bytes v = mp_bytes plan /\
                              owner_id v = rq_owner q).
  { unfold reserve_steady in En. rewrite Hb, (proj2 (Z.ltb_lt _ _) Hp) in En. simpl in En.
    destruct hb, (mp_policy plan) as [p|]; try done.
    apply st_bind_Ok_inv in En as (dd & s3 & Ea & En).
    apply on_budget_inv in Ea as (n1 & Ea & ->).
    destruct (NodeBudget.allow dd) eqn:Eal; [destruct (NodeBudget.reservation dd) as [v|] eqn:Ev|].
    - inv En. eapply nb_acquire_granted in Ea as (Ho & Hbytes & _); [|done..]. eauto.
    - apply st_bind_Ok_inv in En as (? & ? & _ & En). inv En.
    - apply st_bind_Ok_inv in En as (? & ? & _ & En). inv En. }
  apply st_bind_Ok_inv in E as (b & s3 & Eb & E).
  eapply browser_stages_ok with (s0 := s) in Eb; [|intros Hf; by specialize (Hnone Hf) as [= ->] |
    exact Hwf2 | exact Hup2 | exact Hl2].
  destruct b as [d1|[ts st]]; inv E; [destruct Eb as [? _]; congruence | exact Hsteady].
Qed.

Lemma request_bytes_pos r b src :
  resolve_browser_request_bytes r environ = Some (b, src) -> 0 < b.
Proof.
  unfold resolve_browser_request_bytes.
  destruct (0 <? memory_mb r) eqn:E1; [intros [= <- _]; bool_prop; lia|].
  destruct (0 <? browser_startup_memory_mb r) eqn:E2; [intros [= <- _]; bool_prop; lia|].
  destruct (_env_mb _ _) as [f|]; [|done]. destruct (0 <? f) eqn:E3; [|done].
  intros [= <- _]. bool_prop. lia.
Qed.

(** No task is admitted past a guard: the runner has a free slot for every
    browser context asked for, the host advisor (when consulted) allowed it,
    and a browser task with a measured memory request fits in the node's
    available memory and holds a reservation of exactly that many bytes. *)
Theorem admitted_past_every_guard q capacity snap hb s d s' :
  nb_wf s.2 ->
  acquire_task_resource_admission environ evaluate current_snapshot q capacity snap hb s
    = (Ok d, s') ->
  ad_allow d = true ->
  (exists slots, _available_slots capacity = Ok slots /\
                 browser_contexts (rq_requirements q) <= slots) /\
  (forall a, _evaluate_host_resource_gate environ evaluate (rq_requirements q) = Some a ->
             ha_allow a = true) /\
  (is_browser (rq_requirements q) = true ->
   forall b src, resolve_browser_request_bytes (rq_requirements q) environ = Some (b, src) ->
   exists v available,
     node_budget_reservation d = Some v /\ bytes v = b /\ owner_id v = rq_owner q /\
     available_bytes_of (match snap with [] => current_snapshot | _ => snap end)
       = Ok available /\ b <= available).
Proof.
  intros Hwf E Hd. unfold acquire_task_resource_admission in E.
  apply st_bind_Ok_inv in E as (o & s1 & Eo & E). injection Eo as Eo <-.
  destruct o as [d1|]; [inv E; apply slots_guard_blocked in Eo; congruence|].
  destruct (host_guard _ _ q) as [d1|] eqn:Eh;
    [inv E; apply host_guard_blocked in Eh; congruence|].
  apply st_bind_Ok_inv in E as (m & s2 & Em & E). injection Em as Em <-.
  destruct m as [d1|plan]; [inv E; apply memory_guard_blocked in Em; congruence|].
  split_and!.
  - unfold slots_guard in Eo. apply bind_Ok_inv in Eo as (n & Hn & Eo). exists n.
    split; [done|]. destruct (n <? _) eqn:El; [done|]. by bool_prop.
  - intros a Ha. unfold host_guard in Eh. rewrite Ha in Eh. by destruct (ha_allow a).
  - intros Hb b src Hreq. pose proof (request_bytes_pos _ _ _ Hreq) as Hpos.
    unfold memory_guard in Em. rewrite Hb, Hreq in Em. simpl in Em.
    apply bind_Ok_inv in Em as (pol & _ & Em). destruct pol as [p|]; [|done].
    apply bind_Ok_inv in Em as (av & Hav & Em). destruct (av <? b) eqn:Elt; [done|].
    destruct (negb hb); [done|]. apply bind_Ok_inv in Em as (fp & _ & Em).
    injection Em as <-. bool_prop.
    eapply acquire_planned_steady in E as (v & Hv & Hbv & Hov); [|done..|done].
    exists v, av. done.
Qed.

End facts.

(** * A concrete admission: two runners ask for the same browser profile *)

Module Sample.
#[local] Existing Instances InMemory.ops InMemory.laws Memory.ops Memory.laws.

Definition requirements : ResourceRequirements :=
  mkReq (Some "browser") 1 (Some "profile-a") 1 512 1024 0 None None None None "low" "short".
Definition profile : dict pyval := [("profile_code", PStr "ig")].
Definition capacity : dict pyval := [("available_slots", PInt 2)].
Definition node : dict pyval :=
  [("total_bytes", PInt (8 * 1073741824)); ("cgroup_limit_bytes", PInt (4 * 1073741824));
   ("available_bytes", PInt (2 * 1073741824))].
Definition req (owner : string) : request :=
  mkRequest (TMap [("id", PStr "t1")]) requirements profile owner 120 30 1767225600000000.

Definition advisor (_ : ResourceRequirements) : res HostResourceAdvice :=
  Ok (mkAdvice true "allow" None []).

Definition empty : InMemory.store * Memory.store := (InMemory.init 0, Memory.init 0).

Definition outcome (owner : string) (s : InMemory.store * Memory.store) :=
  acquire_task_resource_admission [] advisor [] (req owner) capacity node true s.

Definition the (r : res ResourceAdmissionDecision) : ResourceAdmissionDecision :=
  match r with
  | Ok d => d
  | Raise _ => mkDecision false requirements None None None [] [] None [] []
  end.
Definition first : ResourceAdmissionDecision :=
  Eval vm_compute in the (outcome "r1:t1" empty).1.
Definition after_first : InMemory.store * Memory.store :=
  Eval vm_compute in (outcome "r1:t1" empty).2.
Definition second : ResourceAdmissionDecision :=
  Eval vm_compute in the (outcome "r2:t1" after_first).1.
Definition after_second : InMemory.store * Memory.store :=
  Eval vm_compute in (outcome "r2:t1" after_first).2.
Definition after_release : InMemory.store * Memory.store :=
  Eval vm_compute in (release_acquired_resource_admission first "r1:t1" true after_first).2.

Lemma outcome_first : outcome "r1:t1" empty = (Ok first, after_first).
Proof. by vm_compute. Qed.
Lemma outcome_second : outcome "r2:t1" after_first = (Ok second, after_second).
Proof. by vm_compute. Qed.
Lemma outcome_release :
  release_acquired_resource_admission first "r1:t1" true after_first = (Ok tt, after_release).
Proof. by vm_compute. Qed.

(** The budget store after the first admission is the result of two
    acquisitions, so its invariant holds. *)
Definition sample_policy : NodeBudgetPolicy :=
  Eval vm_compute in default NodeBudget.Memory.sample_policy (Memory.policy after_first.2).
Definition fingerprints : list string :=
  Eval vm_compute in
    map (fun r => resource_profile_fingerprint_of r) (dvalues (Memory.reservations after_first.2)).

Lemma wf_after_first : nb_wf after_first.2.
Proof.
  set (os := [Memory.OAcquire "r1:t1" (512 * 1048576) (default "" (fingerprints !! 0%nat)) 120;
              Memory.OAcquire "r1:t1:browser_startup" (512 * 1048576)
                (default "" (fingerprints !! 1%nat)) 30]).
  assert (E : Memory.run sample_policy os (Memory.init 0) = after_first.2) by (by vm_compute).
  rewrite <- E. apply (Memory.run_ind_wf sample_policy (fun _ => True));
    [done | apply Memory.wf_init | done].
Qed.

Lemma wf_empty : nb_wf empty.2.
Proof. exact (Memory.wf_init 0). Qed.

Theorem blocked_admission_leaks_nothing_witness :
  ad_allow second = false /\ blocked_reason second = Some "resource_wait" /\
  held_le after_second.1 after_first.1 /\ live_le after_second.2 after_first.2.
Proof.
  split; [done|]. split; [done|].
  exact (blocked_admission_leaks_nothing [] advisor [] (req "r2:t1") capacity node true
    after_first second after_second wf_after_first outcome_second eq_refl).
Defined.

Theorem release_undoes_admission_witness :
  length (acquired_leases first ++ preclaim_leases first) = 2%nat /\
  held_le after_release.1 empty.1 /\ live_le after_release.2 empty.2.
Proof.
  split; [done|].
  exact (proj2 (release_undoes_admission [] advisor [] (req "r1:t1") capacity node empty
    first after_first tt after_release wf_empty outcome_first eq_refl
    outcome_release)).
Defined.

Theorem admitted_past_every_guard_witness :
  exists v available, node_budget_reservation first = Some v /\ bytes v = 512 * 1048576 /\
    512 * 1048576 <= available /\ available_bytes_of node = Ok available.
Proof.
  destruct (admitted_past_every_guard [] advisor [] (req "r1:t1") capacity node true empty
    first after_first wf_empty outcome_first eq_refl) as (_ & _ & H).
  destruct (H eq_refl (512 * 1048576) "playbook_steady_profile" eq_refl)
    as (v & av & Hv & Hb & _ & Hav & Hle).
  exists v, av. by split_and!.
Defined.

End Sample.
