(* ===== verification/AdmissionContext.v ===== *)
(** What an admission persists (runner_resources/admission.py): the context
    updates of an admitted task read back to the leases and the reservation it
    holds, the wait update of a blocked one, and the assertions of the
    admission, which never fire. *)
From S2P Require Import Prelude PyDict PyStr PyVal PyJson PyTime.
From S2P Require Import Requirements Leases NodeBudget StartupGate HostAdvisor Admission.

Section shape.
Variable environ : dict string.
Variable evaluate : ResourceRequirements -> res HostResourceAdvice.
Variable current_snapshot : dict pyval.
Context {SL SN : Type} `{ResourceLeaseStore SL} `{NodeBudgetStore SN}.

(** The leases an admission holds are those of the task's resource entries. *)
Definition entry_lease (e : string * string) : ResourceLease :=
  mkLease (build_resource_lease_key e.1 e.2) e.1 e.2.

Lemma acquire_entries_shape q entries acquired (s s' : stores (SL:=SL) (SN:=SN)) r :
  acquire_entries q entries acquired s = (Ok r, s') ->
  match r with
  | inl d => ad_allow d = false
  | inr ls => ls = acquired ++ map entry_lease entries
  end.
Proof.
  revert acquired s. induction entries as [|[rt ri] rest IH]; simpl; intros acquired s E.
  { inv E. by rewrite app_nil_r. }
  bind_inv E. destruct a.
  - apply IH in E. destruct r; [done|]. by rewrite E, <- app_assoc.
  - bind_inv E. by inv E.
Qed.

Lemma reserve_steady_blocked q plan hb acquired (s s' : stores (SL:=SL) (SN:=SN)) d :
  reserve_steady q plan hb acquired s = (Ok (inl d), s') -> ad_allow d = false.
Proof.
  unfold reserve_steady. destruct (_ || _); [by intros E; inv E|].
  destruct hb, (mp_policy plan) as [p|]; try done. intros E. bind_inv E.
  destruct (NodeBudget.allow a); [destruct (NodeBudget.reservation a); [by inv E|]|];
    bind_inv E; by inv E.
Qed.

Lemma browser_stages_blocked q plan hb acquired steady (s s' : stores (SL:=SL) (SN:=SN)) d :
  browser_stages environ q plan hb acquired steady s = (Ok (inl d), s') -> ad_allow d = false.
Proof.
  unfold browser_stages. destruct (negb _); [by intros E; inv E|]. intros E. bind_inv E.
  destruct a as [d'|ts].
  - inv E. revert Ha. unfold reserve_startup. destruct (negb _); [done|].
    destruct hb, (mp_policy plan) as [p|]; try done. intros E. bind_inv E. bind_inv E.
    destruct (NodeBudget.allow a0); [destruct (NodeBudget.reservation a0); [by inv E|]|];
      bind_inv E; bind_inv E; by inv E.
  - bind_inv E. destruct a as [d'|st]; [|by inv E]. inv E. revert Ha0.
    unfold pass_startup_gate. intros E. bind_inv E. bind_inv E.
    destruct (bs_allow a0); [by inv E|]. bind_inv E. bind_inv E. bind_inv E. by inv E.
Qed.

(** An admitted decision is the one of the last stage. *)
Lemma admitted_shape q capacity snap hb (s s' : stores (SL:=SL) (SN:=SN)) d :
  acquire_task_resource_admission environ evaluate current_snapshot q capacity snap hb s
    = (Ok d, s') ->
  ad_allow d = true ->
  exists plan steady ts startup,
    d = admitted_decision q plan (map entry_lease (_resource_entries (rq_requirements q)))
          steady ts startup.
Proof.
  intros E Hd. unfold acquire_task_resource_admission in E. bind_inv E.
  injection Ha as Ha _. destruct a as [d1|].
  { inv E. apply slots_guard_blocked in Ha. congruence. }
  destruct (host_guard _ _ q) as [d1|] eqn:Eh.
  { inv E. apply host_guard_blocked in Eh. congruence. }
  bind_inv E. injection Ha0 as Ha0 _. destruct a as [d1|plan].
  { inv E. apply memory_guard_blocked in Ha0. congruence. }
  unfold acquire_planned in E. bind_inv E. apply acquire_entries_shape in Ha1.
  destruct a as [d1|acquired]; [inv E; congruence|]. bind_inv E.
  destruct a as [d1|steady]; [inv E; by apply reserve_steady_blocked in Ha2; congruence|].
  bind_inv E. destruct a as [d1|[ts st]].
  { inv E. apply browser_stages_blocked in Ha3. congruence. }
  inv E. simpl. eauto 10.
Qed.

(** * Round trip through the task context *)

Lemma collect_entry_lease e :
  collect_lease_key [] (lease_to_context (entry_lease e)) = [lease_key (entry_lease e)].
Proof.
  unfold collect_lease_key, lease_to_context, pget. cbn [dget]. str_lits.
  cbn [default from_option id entry_lease lease_key]. rewrite lease_key_no_space.
  rewrite bool_decide_false by apply build_resource_lease_key_ne. done.
Qed.

Lemma context_lease_keys_read q plan steady ts startup entries :
  (length entries <= 1)%nat ->
  let d := admitted_decision q plan (map entry_lease entries) steady ts startup in
  resource_lease_keys_from_context (PDict (execution_context_updates d))
  = map lease_key (acquired_leases d).
Proof.
  intros Hlen. cbn [execution_context_updates acquired_leases admitted_decision].
  destruct entries as [|[rt ri] [|]]; [| |simpl in Hlen; lia].
  - simpl. destruct (_ || _); [|done]. by destruct steady.
  - rewrite (bool_decide_false (length _ = O)) by done. cbn [negb orb].
    unfold resource_lease_keys_from_context, pget, admission_context.
    rewrite dget_dset_ne by done.
    assert (Hg : dget LEASE_CONTEXT_KEY
        (match steady with
         | Some r => dset NODE_BUDGET_CONTEXT_KEY (PDict (reservation_to_context r))
                       [(LEASE_CONTEXT_KEY, PList (map lease_to_context
                          (map entry_lease [(rt, ri)])))]
         | None => [(LEASE_CONTEXT_KEY, PList (map lease_to_context
                          (map entry_lease [(rt, ri)])))]
         end) = Some (PList (map lease_to_context (map entry_lease [(rt, ri)]))))
      by (by destruct steady).
    rewrite Hg. cbn [default from_option id map foldl].
    by rewrite collect_entry_lease.
Qed.

Lemma context_reservation_read f q plan acquired steady ts startup :
  from_option (fun r => reconciliation_evidence_fingerprint r ≠ Some "") True steady ->
  reservation_from_context f (PDict (execution_context_updates
    (admitted_decision q plan acquired steady ts startup))) = Ok steady.
Proof.
  intros Hev. cbn [execution_context_updates admitted_decision].
  unfold reservation_from_context, pget. destruct steady as [r|].
  - rewrite (bool_decide_true (is_Some (Some r))) by eauto. rewrite orb_true_r. cbn [orb].
    unfold admission_context. rewrite dget_dset_ne by done. rewrite dget_dset_eq.
    cbn [default from_option id]. by rewrite read_reservation_context.
  - destruct (_ || _); [|done]. unfold admission_context. rewrite dget_dset_ne by done. done.
Qed.

(** The context updates of an admitted task read back to exactly the lease
    keys and the byte reservation its decision holds. (The column they are
    stored in has a byte limit, whose compaction may drop them,
    [TaskTheorems.Sample.budget_forgets_leases].) *)
Theorem admitted_context_roundtrip f q capacity snap hb (s s' : stores (SL:=SL) (SN:=SN)) d :
  acquire_task_resource_admission environ evaluate current_snapshot q capacity snap hb s
    = (Ok d, s') ->
  ad_allow d = true ->
  from_option (fun r => reconciliation_evidence_fingerprint r ≠ Some "") True
    (node_budget_reservation d) ->
  resource_lease_keys_from_context (PDict (execution_context_updates d))
    = map lease_key (acquired_leases d) /\
  reservation_from_context f (PDict (execution_context_updates d))
    = Ok (node_budget_reservation d).
Proof.
  intros E Hd Hev. apply admitted_shape in E as (plan & steady & ts & startup & ->); [|done].
  split; [|by apply context_reservation_read].
  apply context_lease_keys_read. unfold _resource_entries.
  destruct (ig_profile_lock _) as [lock|]; simpl; [case_bool_decide; simpl; lia | lia].
Qed.

End shape.

Theorem admitted_context_roundtrip_witness :
  resource_lease_keys_from_context (PDict (execution_context_updates Sample.first))
    = [build_resource_lease_key "ig_profile_lock" "profile-a"] /\
  exists r, reservation_from_context (fun _ => None)
    (PDict (execution_context_updates Sample.first)) = Ok (Some r).
Proof.
  destruct (admitted_context_roundtrip [] Sample.advisor [] (fun _ => None)
    (Sample.req "r1:t1") Sample.capacity Sample.node true Sample.empty Sample.after_first
    Sample.first Sample.outcome_first eq_refl ltac:(by vm_compute)) as [Hk Hr].
  split; [rewrite Hk; by vm_compute | rewrite Hr; by eexists].
Defined.

(** * The wait update *)

Lemma distinct_keys_spec keys :
  NoDup (distinct_keys keys) /\
  forall k, k ∈ distinct_keys keys <-> k ≠ "" /\ exists v, v ∈ keys /\ k = strip (py_str v).
Proof.
  unfold distinct_keys.
  set (step := fun acc k => _).
  assert (H : forall acc, NoDup acc ->
    NoDup (foldl step acc keys) /\
    forall k, k ∈ foldl step acc keys <->
      k ∈ acc \/ (k ≠ "" /\ exists v, v ∈ keys /\ k = strip (py_str v))).
  { induction keys as [|v keys IH]; simpl; intros acc Hacc; [split; [done|set_solver]|].
    unfold step at 2 4. set (t := strip (py_str v)).
    destruct (bool_decide (t = "") || bool_decide (t ∈ acc)) eqn:E.
    - destruct (IH acc Hacc) as [Hn Hk]. split; [done|]. intros k. rewrite Hk.
      apply orb_true_iff in E as [E|E]; bool_prop; set_solver.
    - bool_prop. destruct (IH (acc ++ [t])) as [Hn Hk].
      { apply NoDup_app. split; [done|]. split; [set_solver | apply NoDup_singleton]. }
      split; [done|]. intros k. rewrite Hk. set_solver. }
  destruct (H [] (NoDup_nil_2)) as [Hn Hk]. split; [done|]. intros k. rewrite Hk. set_solver.
Qed.

Lemma blocked_payload_lookup q why delay key extra k :
  dict_wf extra -> dget "resource_key" extra = None -> dget "resource_keys" extra = None ->
  dget k (default [] (blocked_payload (_blocked_decision q why delay key extra))) =
  match key with
  | Some r =>
      if bool_decide (r = "") then dget k (default [] (blocked_payload
        (_blocked_decision q why delay None extra)))
      else if bool_decide (k = "resource_keys") then Some (PList [PStr r])
      else if bool_decide (k = "resource_key") then Some (PStr r)
      else dget k (default [] (blocked_payload (_blocked_decision q why delay None extra)))
  | None => dget k (default [] (blocked_payload (_blocked_decision q why delay None extra)))
  end.
Proof.
  intros Hwf H1 H2. destruct key as [r|]; [|done]. unfold _blocked_decision.
  cbn [blocked_payload default from_option id]. case_bool_decide; [done|].
  rewrite !dget_dset. done.
Qed.

Lemma blocked_wait_keys q why delay key extra :
  dict_wf extra -> dget "resource_key" extra = None -> dget "resource_keys" extra = None ->
  wait_resource_keys (default [] (blocked_payload (_blocked_decision q why delay key extra))) =
  match key with
  | Some k => if bool_decide (strip k = "") then [] else [strip k]
  | None => []
  end.
Proof.
  intros Hwf H1 H2.
  assert (Hnone : forall k, k = "resource_key" \/ k = "resource_keys" ->
    dget k (default [] (blocked_payload (_blocked_decision q why delay None extra))) = None).
  { intros k Hk. unfold _blocked_decision. cbn [blocked_payload default from_option id].
    rewrite dget_dupdate by done. destruct Hk as [-> | ->]; [rewrite H1 | rewrite H2];
      cbn [dget]; by str_lits. }
  unfold wait_resource_keys, pget.
  rewrite (blocked_payload_lookup q why delay key extra "resource_key") by done.
  rewrite (blocked_payload_lookup q why delay key extra "resource_keys") by done.
  destruct key as [k|]; [|by rewrite !Hnone by auto]. str_lits.
  case_bool_decide; [subst k; by rewrite !Hnone by auto|].
  cbn [default from_option id]. unfold distinct_keys. case_bool_decide as Hs.
  - cbn [foldl py_str]. by rewrite Hs.
  - cbn [foldl py_str]. rewrite strip_idem. rewrite bool_decide_false by done.
    rewrite (bool_decide_false (strip k ∈ [])) by set_solver. cbn [orb app].
    rewrite ?(bool_decide_false (strip k = "")) by done.
    by rewrite (bool_decide_true (strip k ∈ [strip k])) by set_solver.
Qed.

(** [wait_lookup] reads a key of the waiting context through its updates. *)
Ltac wait_lookup ctx u :=
  unfold ctx, u, build_resource_wait_task_update; cbn [tu_execution_context];
  rewrite !dget_ddel_ne by done; rewrite !dget_dset_ne by done.

(** A task sent back to wait holds nothing and is addressable by what it
    waits for: its new context carries no lease and no reservation, no runner
    and no heartbeat, remembers the runner it lost unless one was remembered
    already, keeps every other key, becomes eligible again only after the
    evaluation time, and lists the distinct resources it waits for, the
    blocking one among them. *)
Theorem wait_update_releases f task_ctx q why delay key extra shard utc_now :
  dget "resource_key" extra = None -> dget "resource_keys" extra = None ->
  dict_wf extra ->
  let d := _blocked_decision q why delay key extra in
  let u := build_resource_wait_task_update task_ctx d shard utc_now in
  let ctx := tu_execution_context u in
  let old := dict_or_empty task_ctx in
  resource_lease_keys_from_context (PDict ctx) = [] /\
  reservation_from_context f (PDict ctx) = Ok None /\
  dget "runner_id" ctx = None /\ dget "heartbeat_at" ctx = None /\
  (truthy (pget "runner_id" old) = true -> truthy (pget "last_runner_id" old) = false ->
   dget "last_runner_id" ctx = Some (pget "runner_id" old)) /\
  (forall k, k ∉ ["runner_id"; "heartbeat_at"; "last_runner_id"; "resume_after";
                  "resource_admission"; LEASE_CONTEXT_KEY; NODE_BUDGET_CONTEXT_KEY] ->
     dget k ctx = dget k old) /\
  rq_now q + MICROS <= tu_next_eligible_at u /\
  tu_blocked_payload u = blocked_payload d /\
  wait_resource_keys (default [] (blocked_payload d)) =
    match key with
    | Some k => if bool_decide (strip k = "") then [] else [strip k]
    | None => []
    end.
Proof.
  intros H1 H2 Hwf d u ctx old.
  split_and!; [| | | | | | | done | by apply blocked_wait_keys].
  - unfold resource_lease_keys_from_context, pget, ctx, u, build_resource_wait_task_update.
    cbn [tu_execution_context]. by rewrite dget_ddel_ne, dget_ddel_eq by done.
  - unfold reservation_from_context, pget, ctx, u, build_resource_wait_task_update.
    cbn [tu_execution_context]. by rewrite dget_ddel_eq.
  - wait_lookup ctx u. case_match; rewrite ?dget_dset; str_lits; rewrite !dget_ddel; by str_lits.
  - wait_lookup ctx u. case_match; rewrite ?dget_dset; str_lits; rewrite !dget_ddel; by str_lits.
  - intros Hr Hl. wait_lookup ctx u. fold old.
    assert (Hl' : truthy (pget "last_runner_id" (ddel "heartbeat_at" (ddel "runner_id" old)))
                  = false) by (unfold pget in *; by rewrite !dget_ddel_ne by done).
    rewrite Hr, Hl'. simpl. by rewrite dget_dset_eq.
  - intros k Hk. repeat (apply list.not_elem_of_cons in Hk as [? Hk]).
    unfold ctx, u, build_resource_wait_task_update. cbn [tu_execution_context].
    rewrite !dget_ddel_ne, !dget_dset_ne by done. fold old.
    case_match; rewrite ?dget_dset_ne, !dget_ddel_ne by done; done.
  - unfold u, build_resource_wait_task_update, d, _blocked_decision.
    cbn [tu_next_eligible_at next_eligible_at default from_option id].
    unfold add_seconds, MICROS. destruct (delay =? 0); lia.
Qed.

Theorem wait_update_releases_witness :
  let d := _blocked_decision (Sample.req "r2:t1") "ig_profile_lock_leased" 30
             (Some "lease:k") [] in
  let u := build_resource_wait_task_update
             (PDict [("runner_id", PStr "r2"); ("inputs", PDict [])]) d None 0 in
  dget "last_runner_id" (tu_execution_context u) = Some (PStr "r2") /\
  wait_resource_keys (default [] (blocked_payload d)) = ["lease:k"].
Proof.
  intros d u.
  destruct (wait_update_releases (fun _ => None)
    (PDict [("runner_id", PStr "r2"); ("inputs", PDict [])]) (Sample.req "r2:t1")
    "ig_profile_lock_leased" 30 (Some "lease:k") [] None 0 eq_refl eq_refl dict_wf_nil)
    as (_ & _ & _ & _ & Hl & _ & _ & _ & Hk).
  split; [exact (Hl eq_refl eq_refl) | exact Hk].
Defined.

(** * The assertions *)

(** [no_assert c]: whatever [c] raises, it is not an [AssertionError]. *)
Definition no_assert {St A : Type} (c : stres St A) : Prop :=
  forall s e s', c s = (Raise e, s') -> e ≠ AssertionError.
Definition no_assert_res {A : Type} (c : res A) : Prop :=
  forall e, c = Raise e -> e ≠ AssertionError.

Lemma no_assert_ret {St A} (a : A) : no_assert (mret a : stres St A).
Proof. by intros s e s' E. Qed.

Lemma no_assert_bind {St A B} (c : stres St A) (f : A -> stres St B) :
  no_assert c -> (forall a, no_assert (f a)) -> no_assert (c ≫= f).
Proof.
  intros Hc Hf s e s'. unfold mbind, stres_bind. destruct (c s) as [[a|e'] s1] eqn:E.
  - apply Hf.
  - intros [= -> ->]. by eapply Hc.
Qed.

Lemma no_assert_lift {St A} (r : res A) : no_assert_res r -> no_assert (lift_res r : stres St A).
Proof. intros Hr s e s' [= E _]. by apply Hr. Qed.

Lemma no_assert_res_bind {A B} (c : res A) (f : A -> res B) :
  no_assert_res c -> (forall a, no_assert_res (f a)) -> no_assert_res (c ≫= f).
Proof. intros Hc Hf e [E|(a & _ & E)]%bind_Raise_inv; [by apply Hc | by eapply Hf]. Qed.

Lemma no_assert_ok {A} (a : A) : no_assert_res (Ok a).
Proof. by intros e E. Qed.

Lemma no_assert_try {A} (c : res A) P h :
  no_assert_res c -> no_assert_res h -> no_assert_res (try_except c P h).
Proof.
  intros Hc Hh e. destruct c as [a|e']; [done|]. simpl. destruct (P e'); [by apply Hh|].
  intros [= ->]. by apply Hc.
Qed.

Lemma no_assert_py_int v : no_assert_res (py_int v).
Proof.
  intros e. destruct v as [| | |f|s| |]; simpl; try by intros [= <-].
  - destruct (fl_val f); by intros [= <-].
  - destruct (parse_int s); by intros [= <-].
Qed.

Create HintDb noassert.
#[export] Hint Resolve no_assert_ret no_assert_lift no_assert_bind no_assert_res_bind
  no_assert_ok no_assert_try no_assert_py_int : noassert.

Lemma no_assert_fingerprint payload :
  finite (PDict payload) -> no_assert_res (fingerprint_payload payload).
Proof.
  intros Hf e. unfold fingerprint_payload.
  destruct (json_dumps_total true true _ Hf) as [t ->]. done.
Qed.

Lemma finite_py_opt o : finite (py_opt o).
Proof. destruct o; constructor. Qed.

Lemma no_assert_profile_fingerprint r n :
  no_assert_res (resource_profile_fingerprint r n).
Proof.
  unfold resource_profile_fingerprint. apply no_assert_fingerprint. constructor.
  unfold req_to_dict. simpl. repeat constructor; simpl; apply finite_py_opt.
Qed.

Lemma no_assert_policy snapshot environ :
  no_assert_res (resolve_node_budget_policy snapshot environ).
Proof.
  unfold resolve_node_budget_policy. apply no_assert_res_bind.
  - unfold int_or_zero. auto 6 with noassert.
  - intros [[total limit]|]; [|auto with noassert]. destruct (total <=? 0);
      [auto with noassert|].
    destruct (policy_terms environ total limit) as [[[[md a] b] c]|]; [|auto with noassert].
    apply no_assert_res_bind; [|auto with noassert]. apply no_assert_fingerprint.
    repeat constructor.
Qed.

(** What the stores must not do for the admission's own assertions to be the
    only ones. *)
Class QuietStores (SL SN : Type) `{ResourceLeaseStore SL} `{NodeBudgetStore SN} := {
  quiet_ls_acquire : forall k o ttl, no_assert (ls_acquire (S:=SL) k o ttl);
  quiet_ls_release : forall k o, no_assert (ls_release (S:=SL) k o);
  quiet_nb_acquire : forall o n p fp ttl, no_assert (nb_acquire (St:=SN) o n p fp ttl);
  quiet_nb_release : forall r, no_assert (nb_release (St:=SN) r);
}.

Lemma no_assert_total {St A} (f : St -> A * St) : no_assert (total_st f).
Proof. intros s e s'. unfold total_st. by destruct (f s). Qed.

#[export] Instance memory_stores_quiet :
  @QuietStores InMemory.store Memory.store InMemory.ops Memory.ops.
Proof. split; intros; apply no_assert_total. Qed.

Section asserts.
Variable environ : dict string.
Variable evaluate : ResourceRequirements -> res HostResourceAdvice.
Variable current_snapshot : dict pyval.
Context {SL SN : Type} `{quiet : QuietStores SL SN}.

Lemma ls_acquire_quiet k o ttl : no_assert (ls_acquire (S:=SL) k o ttl).
Proof. apply (quiet_ls_acquire (SN:=SN)). Qed.
Lemma ls_release_quiet k o : no_assert (ls_release (S:=SL) k o).
Proof. apply (quiet_ls_release (SN:=SN)). Qed.
Lemma nb_acquire_quiet o n p fp ttl : no_assert (nb_acquire (St:=SN) o n p fp ttl).
Proof. apply (quiet_nb_acquire (SL:=SL)). Qed.
Lemma nb_release_quiet r : no_assert (nb_release (St:=SN) r).
Proof. apply (quiet_nb_release (SL:=SL)). Qed.

Lemma no_assert_on_leases {A} (c : stres SL A) :
  no_assert c -> no_assert (on_leases (SN:=SN) c).
Proof.
  intros Hc s e s'. unfold on_leases. destruct (c s.1) as [r l] eqn:E.
  intros [= -> <-]. by eapply Hc.
Qed.

Lemma no_assert_on_budget {A} (c : stres SN A) :
  no_assert c -> no_assert (on_budget (SL:=SL) c).
Proof.
  intros Hc s e s'. unfold on_budget. destruct (c s.2) as [r n] eqn:E.
  intros [= -> <-]. by eapply Hc.
Qed.

Lemma no_assert_release_leases ls o :
  no_assert (release_acquired_resource_leases (St:=SL) ls o).
Proof.
  induction ls as [|l ls IH]; simpl; [apply no_assert_ret|].
  apply no_assert_bind; [apply ls_release_quiet | by intros _].
Qed.

Lemma no_assert_release_reservations rs :
  no_assert (release_reservations (SL:=SL) (SN:=SN) rs).
Proof.
  induction rs as [|r rs IH]; simpl; [apply no_assert_ret|].
  apply no_assert_bind; [apply no_assert_on_budget, nb_release_quiet | by intros _].
Qed.

Lemma no_assert_release_opt hb o : no_assert (release_opt (SL:=SL) (SN:=SN) hb o).
Proof.
  destruct o as [v|]; simpl; [|apply no_assert_ret]. destruct hb; [|apply no_assert_ret].
  apply no_assert_bind; [apply no_assert_on_budget, nb_release_quiet | intros _; apply no_assert_ret].
Qed.

#[local] Hint Resolve no_assert_on_leases no_assert_on_budget no_assert_release_leases
  no_assert_release_reservations no_assert_release_opt ls_acquire_quiet nb_acquire_quiet
  no_assert_profile_fingerprint : noassert.

Lemma no_assert_entries q entries acquired :
  no_assert (acquire_entries (SL:=SL) (SN:=SN) q entries acquired).
Proof.
  revert acquired. induction entries as [|[rt ri] rest IH]; intros acquired;
    cbn [acquire_entries]; [apply no_assert_ret|]. cbv zeta.
  apply no_assert_bind; [auto with noassert|]. intros b.
  destruct b; [apply IH | auto with noassert].
Qed.

(** A memory plan carries a policy, and was built with a budget store, as soon
    as it reserves bytes or the task declares a start-up peak. *)
Definition plan_backed (q : request) (plan : memory_plan) (hb : bool) : Prop :=
  is_browser (rq_requirements q) = true ->
  0 < mp_bytes plan \/ 0 < browser_startup_memory_mb (rq_requirements q) ->
  hb = true /\ is_Some (mp_policy plan).

Lemma memory_guard_backed q snap hb plan :
  memory_guard environ current_snapshot q snap hb = Ok (inr plan) -> plan_backed q plan hb.
Proof.
  unfold memory_guard, plan_backed. intros E Hb. rewrite Hb in E. simpl in E.
  destruct (resolve_browser_request_bytes _ _) as [[b src]|] eqn:Er.
  - bind_inv E. destruct a as [p|]; [|done]. bind_inv E. destruct (_ <? _); [done|].
    destruct hb; [|done]. simpl in E. bind_inv E. injection E as <-. simpl. eauto.
  - injection E as <-. simpl. intros [Hp|Hp]; [lia|]. revert Er.
    unfold resolve_browser_request_bytes. destruct (0 <? memory_mb _); [done|].
    by rewrite (proj2 (Z.ltb_lt _ _) Hp).
Qed.

Lemma no_assert_guard q snap hb :
  no_assert_res (memory_guard environ current_snapshot q snap hb).
Proof.
  unfold memory_guard. destruct (negb _); [auto with noassert|].
  destruct (resolve_browser_request_bytes _ _) as [[b src]|]; [|auto with noassert].
  apply no_assert_res_bind; [apply no_assert_policy|]. intros [p|]; [|auto with noassert].
  apply no_assert_res_bind; [unfold available_bytes_of; auto with noassert|].
  intros av. destruct (_ <? _); [auto with noassert|]. destruct hb; simpl; auto with noassert.
Qed.

Lemma no_assert_steady q plan hb acquired :
  plan_backed q plan hb -> no_assert (reserve_steady (SL:=SL) (SN:=SN) q plan hb acquired).
Proof.
  intros Hp. unfold reserve_steady. destruct (_ || _) eqn:E; [apply no_assert_ret|].
  bool_prop. destruct (Hp ltac:(done) ltac:(by left)) as [-> [p Hpol]]. rewrite Hpol.
  apply no_assert_bind; [auto with noassert|]. intros d.
  destruct (NodeBudget.allow d); [destruct (NodeBudget.reservation d)|]; auto with noassert.
Qed.

Lemma no_assert_startup q plan hb acquired steady :
  is_browser (rq_requirements q) = true -> 0 <= mp_bytes plan -> plan_backed q plan hb ->
  no_assert (reserve_startup (SL:=SL) (SN:=SN) environ q plan hb acquired steady).
Proof.
  intros Hb H0' Hp. unfold reserve_startup. set (requested := match _ with Some _ => _ | None => 0 end).
  destruct (negb _) eqn:E; [apply no_assert_ret|]. bool_prop.
  assert (Hs : 0 < browser_startup_memory_mb (rq_requirements q)).
  { subst requested. unfold resolve_browser_startup_request_bytes in E.
    destruct (0 <? Z.max 0 _) eqn:Em; [bool_prop; lia | lia]. }
  destruct (Hp Hb (or_intror Hs)) as [-> [p Hpol]]. rewrite Hpol.
  apply no_assert_bind; [auto with noassert|]. intros fp.
  apply no_assert_bind; [auto with noassert|]. intros d.
  destruct (NodeBudget.allow d); [destruct (NodeBudget.reservation d)|]; auto 6 with noassert.
Qed.

Lemma no_assert_try_slots n o ttl : no_assert (try_slots (St:=SL) n o ttl).
Proof.
  induction n as [|n IH]; cbn [try_slots]; [apply no_assert_ret|].
  apply no_assert_bind; [apply ls_acquire_quiet|]. intros [|]; [apply no_assert_ret | done].
Qed.

Lemma no_assert_positive_int v : no_assert_res (gate_positive_int v).
Proof.
  intros e. unfold gate_positive_int.
  destruct (py_int _) as [z|e'] eqn:E; [done|]. destruct (is_type_or_value_error e'); [done|].
  intros [= <-]. by eapply no_assert_py_int.
Qed.

Lemma no_assert_gate r snapshot o :
  no_assert (acquire_browser_startup_gate (St:=SL) r snapshot environ o).
Proof.
  unfold acquire_browser_startup_gate. destruct (default _ _) as [rb src].
  apply no_assert_bind; [apply no_assert_lift, no_assert_positive_int|]. intros av.
  apply no_assert_bind.
  - apply no_assert_lift. unfold resolve_browser_startup_slot_count.
    destruct (resolve_browser_startup_request_bytes r) as [[b s]|]; [|auto with noassert].
    apply no_assert_res_bind; [apply no_assert_positive_int|]. intros z.
    destruct (_ || _); auto with noassert.
  - intros n. destruct (_ && _); [auto with noassert|].
    apply no_assert_bind; [apply no_assert_try_slots|]. intros [i|]; auto with noassert.
Qed.

Lemma no_assert_pass_gate q plan hb acquired steady ts :
  no_assert (pass_startup_gate (SL:=SL) (SN:=SN) environ q plan hb acquired steady ts).
Proof.
  unfold pass_startup_gate. apply no_assert_bind.
  - apply no_assert_lift. unfold startup_gate_snapshot.
    destruct (mp_policy plan); [|auto with noassert].
    apply no_assert_res_bind; [unfold available_bytes_of|]; auto with noassert.
  - intros snap. apply no_assert_bind; [apply no_assert_on_leases, no_assert_gate|].
    intros d. destruct (bs_allow d); [auto with noassert|]. destruct hb; auto 6 with noassert.
Qed.

Lemma memory_guard_bytes_nonneg q snap hb plan :
  memory_guard environ current_snapshot q snap hb = Ok (inr plan) -> 0 <= mp_bytes plan.
Proof.
  unfold memory_guard. destruct (negb _); [by intros [= <-]|].
  destruct (resolve_browser_request_bytes _ _) as [[b src]|] eqn:Er; [|by intros [= <-]].
  apply request_bytes_pos in Er. intros E. bind_inv E. destruct a as [p|]; [|done].
  bind_inv E. destruct (_ <? _); [done|]. destruct (negb hb); [done|]. bind_inv E.
  injection E as <-. simpl. lia.
Qed.

(** C39: The assertions of the admission never fire: with stores that raise no
    [AssertionError] of their own, whatever the task, its requirements, the
    capacity, the snapshot and the environment, [acquire_task_resource_admission]
    does not end in an [AssertionError], also when there is no budget store. *)
Theorem admission_asserts_hold q capacity snap hb s e s' :
  acquire_task_resource_admission environ evaluate current_snapshot q capacity snap hb s
    = (Raise e, s') -> e ≠ AssertionError.
Proof.
  revert s e s'. fold (no_assert (acquire_task_resource_admission (SL:=SL) (SN:=SN) environ
    evaluate current_snapshot q capacity snap hb)).
  unfold acquire_task_resource_admission. apply no_assert_bind.
  { apply no_assert_lift. unfold slots_guard, _available_slots.
    repeat (apply no_assert_res_bind; [auto with noassert|intros ?]).
    destruct (_ <? _); auto with noassert. }
  intros [d|]; [auto with noassert|]. destruct (host_guard _ _ q); [auto with noassert|].
  intros s e s'. unfold mbind, stres_bind, lift_res.
  destruct (memory_guard environ current_snapshot q snap hb) as [m|e'] eqn:Em;
    [|intros [= -> ->]; by eapply no_assert_guard].
  destruct m as [d|plan]; [done|]. pose proof (memory_guard_backed _ _ _ _ Em) as Hp.
  apply memory_guard_bytes_nonneg in Em. revert s e s'.
  fold (no_assert (acquire_planned (SL:=SL) (SN:=SN) environ q plan hb)).
  unfold acquire_planned. apply no_assert_bind; [apply no_assert_entries|].
  intros [d|acquired]; [auto with noassert|].
  apply no_assert_bind; [by apply no_assert_steady|]. intros [d|steady]; [auto with noassert|].
  apply no_assert_bind; [|intros [d|[ts st]]; auto with noassert].
  unfold browser_stages. destruct (negb _) eqn:Eb; [auto with noassert|]. bool_prop.
  apply no_assert_bind; [by apply no_assert_startup|]. intros [d|ts]; [auto with noassert|].
  apply no_assert_bind; [apply no_assert_pass_gate|]. intros [d|st]; auto with noassert.
Qed.

End asserts.

#[local] Existing Instances InMemory.ops Memory.ops.

Definition infinite_slots : dict pyval :=
  [("available_slots", PFloat {| fl_val := FInf false; fl_repr := "inf" |})].

Theorem admission_asserts_hold_witness :
  exists e, acquire_task_resource_admission [] Sample.advisor [] (Sample.req "r1:t1")
      infinite_slots Sample.node true Sample.empty = (Raise e, Sample.empty) /\
    e ≠ AssertionError.
Proof.
  assert (E : acquire_task_resource_admission [] Sample.advisor [] (Sample.req "r1:t1")
      infinite_slots Sample.node true Sample.empty
    = (Raise (OverflowError "cannot convert float infinity to integer"), Sample.empty))
    by (by vm_compute).
  eexists. split; [exact E|].
  exact (admission_asserts_hold [] Sample.advisor [] (Sample.req "r1:t1") infinite_slots
    Sample.node true Sample.empty _ Sample.empty E).
Defined.
