(* ===== verification/Canonical.v ===== *)
(** Canonical JSON of the durable ledger
    (workflow/durable_state/canonical_json.py): the bounded encoder, content
    hashes and the chained hash of an event, with the collision-explicit facts
    the hash chain rests on. *)
From S2P Require Import Prelude PyDict PyStr PyVal PyJson.

Definition MAX_INLINE_BYTES : Z := 16384.

Definition encode_max (max_bytes : Z) (value : pyval) : res (list N) :=
  rendered ← match json_dumps false false value with
             | Ok s => Ok (utf8 s)
             | Raise e => if is_type_or_value_error e
                          then Raise (CanonicalPayloadError "payload is not canonical JSON")
                          else Raise e
             end;
  if max_bytes <? Z.of_nat (length rendered)
  then Raise (CanonicalPayloadError
         ("canonical payload is " +:+ str_int (Z.of_nat (length rendered))
          +:+ " bytes; maximum is " +:+ str_int max_bytes))
  else Ok rendered.

Definition encode (value : pyval) : res (list N) := encode_max MAX_INLINE_BYTES value.

Definition sha256_hex (value : pyval) : res string :=
  bs ← encode value; Ok (Sha256.hexdigest bs).

Definition chained_hash (previous_event_hash : option string) (event_core : dict pyval)
    : res string :=
  previous ← match previous_event_hash with
             | Some h => if bool_decide (h = "") then Ok [] else fromhex h
             | None => Ok []
             end;
  bs ← encode (PDict event_core);
  Ok (Sha256.hexdigest (previous ++ bs)).

(** [v["k"]] and [v.get("k")] on a value that may not be a dictionary. *)
Definition py_sub (k : string) (v : pyval) : res pyval :=
  match v with
  | PDict d => pitem k d
  | PStr _ => Raise (TypeError "string indices must be integers, not 'str'")
  | PList _ => Raise (TypeError "list indices must be integers or slices, not str")
  | _ => Raise (TypeError "object is not subscriptable")
  end.
Definition py_get (k : string) (v : pyval) : res pyval :=
  match v with
  | PDict d => Ok (pget k d)
  | _ => Raise (AttributeError "object has no attribute 'get'")
  end.

Lemma encode_bounds value bs :
  encode value = Ok bs -> Z.of_nat (length bs) <= MAX_INLINE_BYTES.
Proof.
  unfold encode, encode_max. intros E. bind_inv E. destruct (_ <? _) eqn:El; [done|].
  injection E as ->. by bool_prop.
Qed.

(** The bytes a chained hash is taken of. *)
Definition chain_bytes (previous : option string) (core : dict pyval) : res (list N) :=
  p ← match previous with
      | Some h => if bool_decide (h = "") then Ok [] else fromhex h
      | None => Ok []
      end;
  bs ← encode (PDict core);
  Ok (p ++ bs).

Lemma chained_hash_bytes previous core h :
  chained_hash previous core = Ok h <->
  exists bs, chain_bytes previous core = Ok bs /\ h = Sha256.hexdigest bs.
Proof.
  unfold chained_hash, chain_bytes.
  destruct (match previous with Some _ => _ | None => _ end) as [p|e];
    [|split; [done | by intros (? & ? & _)]].
  unfold mbind, res_bind.
  destruct (encode (PDict core)) as [bs|e]; [|split; [done | by intros (? & ? & _)]].
  split; [intros [= <-]; eauto | by intros (? & [= <-] & ->)].
Qed.

(** The two events hash different bytes to one digest. *)
Definition collides (p1 : option string) (c1 : dict pyval)
    (p2 : option string) (c2 : dict pyval) : Prop :=
  exists x y, chain_bytes p1 c1 = Ok x /\ chain_bytes p2 c2 = Ok y /\
    x ≠ y /\ Sha256.hexdigest x = Sha256.hexdigest y.

Lemma chained_hash_inj p1 c1 p2 c2 h :
  chained_hash p1 c1 = Ok h -> chained_hash p2 c2 = Ok h ->
  collides p1 c1 p2 c2 \/ chain_bytes p1 c1 = chain_bytes p2 c2.
Proof.
  rewrite !chained_hash_bytes. intros (b1 & E1 & ->) (b2 & E2 & Hh).
  destruct (decide (b1 = b2)) as [->|Hne]; [right; congruence|].
  left. by exists b1, b2.
Qed.

(** * Reading a digest back *)

Lemma fromhex_byte b rest :
  (b < 256)%N -> fromhex (hex_byte b +:+ rest) = (l ← fromhex rest; Ok (b :: l)).
Proof.
  intros Hb. set (c1 := hex_digit (b / 16)). set (c2 := hex_digit (b mod 16)).
  assert (H : forallb (fun b => negb (is_space (hex_digit (b / 16)))
      && bool_decide (hex_val (hex_digit (b / 16)) = Some (b / 16)%N)
      && bool_decide (hex_val (hex_digit (b mod 16)) = Some (b mod 16)%N))
      (map N.of_nat (List.seq 0 256)) = true) by (by vm_compute).
  rewrite forallb_forall in H. specialize (H b). cbv beta in H. fold c1 c2 in H.
  assert (Hin : List.In b (map N.of_nat (List.seq 0 256))).
  { apply in_map_iff. exists (N.to_nat b). split; [lia|]. apply in_seq. lia. }
  apply H in Hin. bool_prop.
  change (fromhex (String c1 (String c2 rest)) = (l ← fromhex rest; Ok (b :: l))).
  cbn [fromhex]. rewrite H0, H2, H1.
  replace (16 * (b / 16) + b mod 16)%N with b; [done|].
  pose proof (N.div_mod b 16 ltac:(done)). lia.
Qed.

Lemma fromhex_bytes bs :
  Forall (fun b => (b < 256)%N) bs -> fromhex (Sha256.hex_bytes bs) = Ok bs.
Proof.
  induction 1 as [|b bs Hb _ IH]; [done|]. cbn [Sha256.hex_bytes].
  rewrite fromhex_byte by done. by rewrite IH.
Qed.

Lemma round_length st kw : length st = 8%nat -> length (Sha256.round st kw) = 8%nat.
Proof. do 9 (destruct st as [|? st]; try done). Qed.

Lemma compress_length h block : length h = 8%nat -> length (Sha256.compress h block) = 8%nat.
Proof.
  intros Hh. unfold Sha256.compress. rewrite length_zip_with, Hh.
  enough (length (foldl Sha256.round h (zip Sha256.K (rev (Sha256.schedule 48 (rev block)))))
          = 8%nat) by lia.
  revert h Hh. induction (zip _ _) as [|kw l IH]; simpl; intros h Hh; [done|].
  apply IH. by apply round_length.
Qed.

Lemma digest_length msg : length (Sha256.digest msg) = 8%nat.
Proof.
  unfold Sha256.digest. generalize (Sha256.words (Sha256.pad msg)). intros ws.
  generalize (length ws) at 1. intros n.
  assert (H : length Sha256.H0 = 8%nat) by done.
  revert ws H. generalize Sha256.H0. induction n as [|n IH]; intros h ws Hh; [done|].
  simpl. destruct ws as [|w ws]; [done|]. apply IH. by apply compress_length.
Qed.

(** The 32 bytes of a digest, and that its text determines them. *)
Lemma fromhex_digest msg :
  exists bs, fromhex (Sha256.hexdigest msg) = Ok bs /\ length bs = 32%nat /\
             Sha256.hexdigest msg = Sha256.hex_bytes bs.
Proof.
  unfold Sha256.hexdigest. set (bs := concat _). exists bs. split; [|split; [|done]].
  - apply fromhex_bytes, Forall_concat, Forall_map, Forall_forall.
    intros x _. apply be_bytes_byte.
  - pose proof (digest_length msg) as Hd. subst bs. revert Hd.
    generalize (Sha256.digest msg). intros d Hd.
    do 8 (destruct d as [|? d]; [done|]). by destruct d.
Qed.

Lemma hexdigest_ne msg : Sha256.hexdigest msg ≠ "".
Proof.
  destruct (fromhex_digest msg) as (bs & _ & Hl & ->). destruct bs as [|b bs]; [done|].
  cbn [Sha256.hex_bytes]. unfold hex_byte. done.
Qed.

(** Chained hashes over two digests agree, up to a collision, only if the
    digests and the encoded events agree. *)
Lemma chained_digest_inj m1 m2 c1 c2 h :
  chained_hash (Some (Sha256.hexdigest m1)) c1 = Ok h ->
  chained_hash (Some (Sha256.hexdigest m2)) c2 = Ok h ->
  collides (Some (Sha256.hexdigest m1)) c1 (Some (Sha256.hexdigest m2)) c2 \/
  (Sha256.hexdigest m1 = Sha256.hexdigest m2 /\
                encode (PDict c1) = encode (PDict c2)).
Proof.
  intros E1 E2. pose proof E1 as E1'. apply chained_hash_bytes in E1' as (b1 & Hb1 & _).
  destruct (chained_hash_inj _ _ _ _ _ E1 E2) as [|Heq]; [by left|]. right.
  rewrite Hb1 in Heq. symmetry in Heq. unfold chain_bytes in Hb1, Heq.
  rewrite bool_decide_false in Hb1 by apply hexdigest_ne.
  rewrite bool_decide_false in Heq by apply hexdigest_ne.
  destruct (fromhex_digest m1) as (p1 & Hp1 & Hl1 & Ht1).
  destruct (fromhex_digest m2) as (p2 & Hp2 & Hl2 & Ht2).
  rewrite Hp1 in Hb1. rewrite Hp2 in Heq.
  apply bind_Ok_inv in Hb1 as (? & [= <-] & Hb1). apply bind_Ok_inv in Hb1 as (e1 & He1 & Hb1).
  apply bind_Ok_inv in Heq as (? & [= <-] & Heq). apply bind_Ok_inv in Heq as (e2 & He2 & Heq).
  injection Hb1 as <-. injection Heq as Heq.
  apply app_inj_1 in Heq as [-> ->]; [|by rewrite Hl1, Hl2].
  split; [congruence | by rewrite He1, He2].
Qed.

Lemma chained_same_inj p c1 c2 h :
  chained_hash p c1 = Ok h -> chained_hash p c2 = Ok h ->
  collides p c1 p c2 \/ encode (PDict c1) = encode (PDict c2).
Proof.
  intros E1 E2. pose proof E1 as E1'. apply chained_hash_bytes in E1' as (b1 & Hb1 & _).
  destruct (chained_hash_inj _ _ _ _ _ E1 E2) as [|Heq]; [by left|]. right.
  rewrite Hb1 in Heq. symmetry in Heq. unfold chain_bytes in Hb1, Heq.
  apply bind_Ok_inv in Hb1 as (q & Hq & Hb1). apply bind_Ok_inv in Hb1 as (e1 & He1 & Hb1).
  apply bind_Ok_inv in Heq as (q' & Hq' & Heq). apply bind_Ok_inv in Heq as (e2 & He2 & Heq).
  injection Hb1 as <-. injection Heq as Heq. rewrite Hq in Hq'. injection Hq' as <-.
  apply app_inv_head in Heq as ->. by rewrite He1, He2.
Qed.
