(* ===== verification/Transitions.v ===== *)
(** The versioned transition tables of the three durable workflow kinds
    (workflow/durable_state/transitions.py) and what they promise. *)
From S2P Require Import Prelude PyDict PyStr PyVal.

Definition INITIAL_STATES : dict string :=
  [("execution", "pending"); ("product_iteration", "draft"); ("product_release", "draft")].

Definition TRANSITIONS : dict (dict (list string)) :=
  [("execution",
    [("pending", ["running"; "waiting"; "cancelled"]);
     ("running", ["waiting"; "succeeded"; "failed"; "cancelled"; "escalated"]);
     ("waiting", ["running"; "cancelled"; "escalated"]);
     ("succeeded", []); ("failed", []); ("cancelled", []); ("escalated", [])]);
   ("product_iteration",
    [("draft", ["admitted"; "cancelled"; "superseded"]);
     ("admitted", ["collecting"; "cancelled"; "superseded"]);
     ("collecting", ["evidence_ready"; "inconclusive"; "cancelled"; "superseded"]);
     ("evidence_ready", ["decision_pending"; "inconclusive"; "cancelled"; "superseded"]);
     ("decision_pending",
      ["promoted"; "rejected"; "inconclusive"; "cancelled"; "superseded"]);
     ("promoted", []); ("rejected", []); ("inconclusive", []); ("cancelled", []);
     ("superseded", [])]);
   ("product_release",
    [("draft", ["observing"]);
     ("observing", ["healthy"; "rollback_required"; "inconclusive"]);
     ("rollback_required", ["rollback_authorized"; "rollback_blocked"]);
     ("rollback_authorized", ["rollback_effect_pending"]);
     ("rollback_effect_pending", ["rollback_completed"; "rollback_failed"]);
     ("healthy", []); ("inconclusive", []); ("rollback_blocked", []);
     ("rollback_completed", []); ("rollback_failed", [])])].

Definition initial_state (workflow_kind : string) : res string :=
  match dget workflow_kind INITIAL_STATES with
  | Some s => Ok s
  | None => Raise (InvalidTransition ("unknown workflow kind: " +:+ workflow_kind))
  end.

(** [TRANSITIONS.get(kind, {}).get(state)] *)
Definition allowed_targets (workflow_kind current : string) : option (list string) :=
  dget current (default [] (dget workflow_kind TRANSITIONS)).

Definition require_transition (workflow_kind current target : string) : res bool :=
  match allowed_targets workflow_kind current with
  | Some allowed =>
      if bool_decide (target ∈ allowed)
      then match dget workflow_kind TRANSITIONS with
           | Some table =>
               match dget target table with
               | Some next => Ok (match next with [] => true | _ => false end)
               | None => Raise (KeyError target)
               end
           | None => Raise (KeyError workflow_kind)
           end
      else Raise (InvalidTransition
             (workflow_kind +:+ " transition " +:+ repr_str current +:+ " -> "
              +:+ repr_str target +:+ " is forbidden"))
  | None => Raise (InvalidTransition
             (workflow_kind +:+ " transition " +:+ repr_str current +:+ " -> "
              +:+ repr_str target +:+ " is forbidden"))
  end.

(** ** The tables are closed and every state is reachable *)

(** A single allowed step and a path of them. *)
Definition step (kind s t : string) : Prop :=
  exists terminal, require_transition kind s t = Ok terminal.

Definition table_of (kind : string) : dict (list string) :=
  default [] (dget kind TRANSITIONS).

(** Each rule stays inside its table. *)
Definition table_closed (kind : string) : bool :=
  forallb (fun kv => forallb (fun t => dmem t (table_of kind)) kv.2) (table_of kind).

Lemma dget_in {V} k v (d : dict V) : dget k d = Some v -> (k, v) ∈ d.
Proof.
  induction d as [|[a w] d IH]; simpl; [done|]. case_bool_decide; subst.
  - intros [= ->]. by left.
  - intros Hg. right. auto.
Qed.

Lemma kinds kind table :
  dget kind TRANSITIONS = Some table ->
  kind = "execution" \/ kind = "product_iteration" \/ kind = "product_release".
Proof. simpl. repeat case_bool_decide; auto. done. Qed.

Lemma all_tables_closed kind : table_closed kind = true.
Proof.
  destruct (dget kind TRANSITIONS) as [table|] eqn:E.
  - by destruct (kinds kind table E) as [->|[->| ->]]; vm_compute.
  - unfold table_closed, table_of. by rewrite E.
Qed.

Lemma require_transition_spec kind s t b :
  require_transition kind s t = Ok b <->
  exists targets next, dget s (table_of kind) = Some targets /\ t ∈ targets /\
    dget t (table_of kind) = Some next /\ b = bool_decide (next = []).
Proof.
  unfold require_transition, allowed_targets. fold (table_of kind).
  destruct (dget s (table_of kind)) as [targets|] eqn:Es; [|naive_solver].
  assert (Hk : exists table, dget kind TRANSITIONS = Some table /\ table_of kind = table).
  { unfold table_of in *. destruct (dget kind TRANSITIONS); [eauto | done]. }
  destruct Hk as (table & Hk & <-). rewrite Hk. case_bool_decide as Ht.
  - destruct (dget t (table_of kind)) as [next|] eqn:Et; [|naive_solver].
    split.
    + intros [= <-]. exists targets, next. split_and!; try done. by destruct next.
    + intros (? & ? & [= <-] & _ & [= <-] & ->). by destruct next.
  - split; [done|]. intros (? & ? & [= <-] & ? & _). done.
Qed.

(** The function never raises a [KeyError]: an allowed target has a rule. *)
Lemma require_transition_total kind s t targets :
  dget s (table_of kind) = Some targets -> t ∈ targets ->
  exists b, require_transition kind s t = Ok b.
Proof.
  intros Hs Ht. pose proof (all_tables_closed kind) as Hc. unfold table_closed in Hc.
  rewrite forallb_forall in Hc. specialize (Hc (s, targets)). simpl in Hc.
  rewrite forallb_forall in Hc.
  assert (Hin : dmem t (table_of kind) = true).
  { apply Hc; apply list_elem_of_In; [by apply dget_in | done]. }
  unfold dmem in Hin. destruct (dget t (table_of kind)) as [next|] eqn:E; [|done].
  eexists. apply require_transition_spec. by exists targets, next.
Qed.

(** Longest remaining path of the two product tables. *)
Definition rank (kind s : string) : nat :=
  default 0%nat (dget s
    (if bool_decide (kind = "product_iteration")
     then [("draft", 5); ("admitted", 4); ("collecting", 3); ("evidence_ready", 2);
           ("decision_pending", 1)]
     else [("draft", 5); ("observing", 4); ("rollback_required", 3);
           ("rollback_authorized", 2); ("rollback_effect_pending", 1)]))%nat.

Definition rank_decreases (kind : string) : bool :=
  forallb (fun kv => forallb (fun t => (rank kind t <? rank kind kv.1)%nat) kv.2)
    (table_of kind).

(** Sequences of transitions from a state. *)
Inductive path (kind : string) : string -> list string -> Prop :=
| path_nil s : path kind s []
| path_cons s t r : step kind s t -> path kind t r -> path kind s (t :: r).

Lemma step_rank kind s t :
  kind = "product_iteration" \/ kind = "product_release" ->
  step kind s t -> (rank kind t < rank kind s)%nat.
Proof.
  intros Hkind (b & Hb). apply require_transition_spec in Hb as (targets & next & Hs & Ht & _).
  assert (Hd : rank_decreases kind = true) by (by destruct Hkind as [-> | ->]; vm_compute).
  unfold rank_decreases in Hd. rewrite forallb_forall in Hd.
  specialize (Hd (s, targets) ltac:(by apply list_elem_of_In, dget_in)). simpl in Hd.
  rewrite forallb_forall in Hd. specialize (Hd t ltac:(by apply list_elem_of_In)).
  by apply Nat.ltb_lt.
Qed.

Lemma path_rank kind s r :
  kind = "product_iteration" \/ kind = "product_release" ->
  path kind s r -> (length r <= rank kind s)%nat.
Proof.
  intros Hkind. induction 1 as [s|s t r Hst _ IH]; simpl; [lia|].
  pose proof (step_rank kind s t Hkind Hst). lia.
Qed.

Lemma rank_le kind s : (rank kind s <= 5)%nat.
Proof.
  unfold rank. destruct (bool_decide _); simpl; repeat case_bool_decide; simpl; lia.
Qed.

(** The transition tables are sound state machines: the only failure of a
    transition is [InvalidTransition]; a transition reports "terminal" exactly
    when nothing can follow it; product iterations and releases always end,
    after at most five transitions; and an execution, which may alternate
    between running and waiting, is never stuck before a terminal state. *)
Theorem transition_tables_sound kind s t :
  (forall e, require_transition kind s t = Raise e -> exists msg, e = InvalidTransition msg) /\
  (forall b, require_transition kind s t = Ok b ->
     (b = true <-> forall u, ~ step kind t u)) /\
  (kind = "product_iteration" \/ kind = "product_release" ->
   forall r, path kind s r -> (length r <= 5)%nat) /\
  (kind = "execution" -> require_transition kind s t = Ok false ->
     exists v, require_transition kind t "cancelled" = Ok v).
Proof.
  split_and!.
  - intros e E. destruct (dget s (table_of kind)) as [targets|] eqn:Es.
    + destruct (decide (t ∈ targets)) as [Ht|Ht].
      * destruct (require_transition_total kind s t targets) as [b Hb]; [done..|congruence].
      * unfold require_transition, allowed_targets in E. fold (table_of kind) in E.
        rewrite Es, bool_decide_false in E by done. injection E as <-. eauto.
    + unfold require_transition, allowed_targets in E. fold (table_of kind) in E.
      rewrite Es in E. injection E as <-. eauto.
  - intros b Hb. apply require_transition_spec in Hb as (targets & next & _ & _ & Ht & ->).
    rewrite bool_decide_eq_true. split.
    + intros -> u (b & Hb). apply require_transition_spec in Hb as (? & ? & Ht' & Hu & _).
      rewrite Ht in Ht'. injection Ht' as <-. by apply not_elem_of_nil in Hu.
    + intros Hno. destruct next as [|u next]; [done|]. exfalso. apply (Hno u).
      eapply require_transition_total; [exact Ht | by left].
  - intros Hkind r Hr. etrans; [by apply path_rank | apply rank_le].
  - intros -> E. apply require_transition_spec in E as (targets & next & Hs & Ht & Hn & Hb).
    symmetry in Hb. apply bool_decide_eq_false in Hb.
    revert Hn Hb. clear. unfold table_of. simpl. repeat case_bool_decide; subst;
      intros [= <-] Hb; try done; eexists; by vm_compute.
Qed.

Theorem transition_tables_sound_witness :
  (length ["admitted"; "collecting"; "evidence_ready"] <= 5)%nat.
Proof.
  destruct (transition_tables_sound "product_iteration" "draft" "admitted") as (_ & _ & H & _).
  apply (H (or_introl eq_refl)).
  repeat (apply path_cons; [eexists; vm_compute; reflexivity|]). apply path_nil.
Defined.
