(* ===== verification/Ledger.v ===== *)
(** The durable workflow ledger (workflow/durable_state/repository.py over the
    tables of alembic_migrations/postgres/durable_workflow_v1.py): instances,
    the append-only event table and the current projection, with the statements
    the repository runs and the constraints that can refuse them.

    A connection is one transaction and [lock_instance] takes the row lock of
    the workflow, so the writers of one workflow run one after the other: an
    operation is a function of the ledger state.  A failed operation is rolled
    back by the caller, who owns the transaction. *)
From S2P Require Import Prelude PyDict PyStr PyVal PyJson PyTime.

Definition IntegrityError (msg : string) : exn := OtherError "IntegrityError" msg.
Definition RuntimeError (msg : string) : exn := OtherError "RuntimeError" msg.

Record instance : Type := mkInstance {
  i_workflow_id : string;
  i_root_workflow_id : string;
  i_segment_id : string;
  i_segment_number : Z;
  i_predecessor_segment_id : option string;
  i_predecessor_terminal_hash : option string;
  i_workflow_kind : string;
  i_workspace_id : string;
  i_execution_id : option string;
  i_psc_ids : pyval;
  i_semantic_identity : dict pyval;
  i_semantic_identity_hash : string;
  i_current_sequence : Z;
  i_current_event_hash : option string;
  i_current_state : string;
  i_terminal : bool;
  i_workflow_definition_version : string;
  i_reducer_version : string;
  i_effect_adapter_registry_version : string;
  i_runtime_build_id : string;
  i_replay_compatibility_class : string;
  i_event_count : Z;
  i_canonical_event_bytes : Z;
  i_next_durable_deadline : pyval;
  i_cancellation_state : option string;
}.

(** A row of the event table; [occurred_at] is the datetime of the column. *)
Record event : Type := mkEvent {
  event_id : string;
  workflow_id : string;
  segment_id : string;
  sequence : Z;
  event_type : string;
  occurred_at : Z;
  actor : dict pyval;
  payload : dict pyval;
  payload_sha256 : string;
  previous_event_hash : option string;
  event_hash : string;
  canonical_bytes : Z;
  key_id : string;
  signature : string;
  idempotency_key : string;
  timer_id : option string;
  external_message_id : option string;
}.

Record projection : Type := mkProjection {
  p_last_sequence : Z;
  p_reducer_version : string;
  p_state_hash : string;
  p_state : dict pyval;
}.

Record ledger : Type := mkLedger {
  instances : dict instance;          (** by [workflow_id] *)
  events : list event;                (** in insertion order *)
  projections : dict projection;      (** the 'current' projection, by [workflow_id] *)
}.

Definition empty_ledger : ledger := mkLedger [] [] [].

Definition events_of (w : string) (l : ledger) : list event :=
  filter (fun e => workflow_id e = w) (events l).

(** [doc #>> '{a,b,c}'] *)
Fixpoint json_path (path : list string) (v : pyval) : option string :=
  match path with
  | [] => match v with
          | PNone => None
          | PStr s => Some s
          | _ => match json_dumps false true v with Ok s => Some s | Raise _ => None end
          end
  | k :: r => match v with
              | PDict d => match dget k d with Some u => json_path r u | None => None end
              | _ => None
              end
  end.

(** The keys of the two partial unique indexes on receipt identifiers. *)
Definition terminal_receipt_id (e : event) : option string :=
  if bool_decide (event_type e = "transition") &&
     bool_decide (json_path ["typed_receipt"; "receipt_type"] (PDict (payload e))
                  = Some "execution_terminal_receipt")
  then json_path ["typed_receipt"; "receipt"; "receipt_id"] (PDict (payload e)) else None.
Definition enrollment_receipt_id (e : event) : option string :=
  if bool_decide (event_type e = "iteration_enrollment_accepted")
  then json_path ["enrollment"; "terminal_receipt_id"] (PDict (payload e)) else None.

Definition MAX_EVENT_COUNT : Z := 10000.
Definition MAX_EVENT_BYTES : Z := 67108864.

Definition same_some (a b : option string) : bool :=
  match a, b with Some x, Some y => bool_decide (x = y) | _, _ => false end.

Section repository.
(** [octet_length(v::text)] of a JSONB value, computed by the database. *)
Variable jsonb_octets : pyval -> Z.

(** * Instances *)

Definition instance_conflict (i j : instance) : bool :=
  bool_decide (i_workflow_id i = i_workflow_id j)
  || bool_decide (i_segment_id i = i_segment_id j)
  || (bool_decide (i_root_workflow_id i = i_root_workflow_id j)
      && (i_segment_number i =? i_segment_number j)).

Definition instance_ok (i : instance) : bool :=
  (0 <=? i_segment_number i)
  && bool_decide (i_workflow_kind i ∈ ["execution"; "product_iteration"; "product_release"])
  && is_list (i_psc_ids i)
  && (jsonb_octets (PDict (i_semantic_identity i)) <=? 16384)
  && (if i_segment_number i =? 0
      then bool_decide (i_predecessor_segment_id i = None)
           && bool_decide (i_predecessor_terminal_hash i = None)
      else bool_decide (is_Some (i_predecessor_segment_id i))
           && bool_decide (is_Some (i_predecessor_terminal_hash i))).

(** A bound parameter of a TEXT column: [NOT NULL], and nullable. *)
Definition bind_text (k : string) (record : dict pyval) : res string :=
  match dget k record with
  | Some (PStr s) => Ok s
  | Some PNone => Raise (IntegrityError ("null value in column " +:+ k))
  | Some _ => Raise (OtherError "DataError" k)
  | None => Raise (OtherError "StatementError" k)
  end.
Definition bind_text_null (k : string) (record : dict pyval) : res (option string) :=
  match dget k record with
  | Some (PStr s) => Ok (Some s)
  | Some PNone => Ok None
  | Some _ => Raise (OtherError "DataError" k)
  | None => Raise (OtherError "StatementError" k)
  end.

(** The assignment cast of a numeric literal to an integer column. *)
Definition round_half_away (m e : Z) : Z :=
  let q := dy_trunc (2 * Z.abs m) e in Z.sgn m * ((q + 1) / 2).

(** An integer column of [bits] bits. *)
Definition bind_int (bits : Z) (k : string) (record : dict pyval) : res Z :=
  z ← match dget k record with
      | Some (PInt z) => Ok z
      | Some (PFloat f) => match fl_val f with
                           | FFin m e => Ok (round_half_away m e)
                           | _ => Raise (OtherError "DataError" k)
                           end
      | Some PNone => Raise (IntegrityError ("null value in column " +:+ k))
      | Some _ => Raise (OtherError "DataError" k)
      | None => Raise (OtherError "StatementError" k)
      end;
  if (- 2 ^ (bits - 1) <=? z) && (z <? 2 ^ (bits - 1)) then Ok z
  else Raise (OtherError "DataError" "integer out of range").

(** The row an INSERT of [record] makes; the other columns take their defaults. *)
Definition instance_of_record (record identity : dict pyval) : res instance :=
  w ← bind_text "workflow_id" record;
  root ← bind_text "root_workflow_id" record;
  seg ← bind_text "segment_id" record;
  num ← bind_int 32 "segment_number" record;
  pseg ← bind_text_null "predecessor_segment_id" record;
  phash ← bind_text_null "predecessor_terminal_hash" record;
  kind ← bind_text "workflow_kind" record;
  ws ← bind_text "workspace_id" record;
  ex ← bind_text_null "execution_id" record;
  psc ← pitem "psc_ids" record;
  ih ← bind_text "semantic_identity_hash" record;
  st ← bind_text "current_state" record;
  wdv ← bind_text "workflow_definition_version" record;
  rv ← bind_text "reducer_version" record;
  av ← bind_text "effect_adapter_registry_version" record;
  rb ← bind_text "runtime_build_id" record;
  rc ← bind_text "replay_compatibility_class" record;
  Ok (mkInstance w root seg num pseg phash kind ws ex psc identity ih 0 None st false
        wdv rv av rb rc 0 0 PNone None).

Definition insert_instance (i : instance) : stres ledger unit := fun l =>
  if negb (instance_ok i)
  then (Raise (IntegrityError "new row violates check constraint"), l)
  else if existsb (fun kv => instance_conflict i kv.2) (instances l)
  then (Raise (IntegrityError "duplicate key value violates unique constraint"), l)
  else (Ok tt, mkLedger (dset (i_workflow_id i) i (instances l)) (events l) (projections l)).

Definition read_instance (w : string) : stres ledger instance := fun l =>
  match dget w (instances l) with
  | Some i => (Ok i, l)
  | None => (Raise (KeyError ("durable workflow " +:+ repr_str w +:+ " does not exist")), l)
  end.

(** [SELECT ... FOR UPDATE] *)
Definition lock_instance (w : string) : stres ledger instance := read_instance w.

(** * Events *)

Definition find_idempotent_event (w key : string) : stres ledger (option event) :=
  gets_st (fun l =>
    head (filter (fun e => workflow_id e = w /\ idempotency_key e = key) (events l))).

Definition event_conflict (e f : event) : bool :=
  bool_decide (event_id e = event_id f)
  || (bool_decide (workflow_id e = workflow_id f)
      && ((sequence e =? sequence f)
          || bool_decide (idempotency_key e = idempotency_key f)
          || same_some (timer_id e) (timer_id f)
          || same_some (external_message_id e) (external_message_id f)))
  || same_some (terminal_receipt_id e) (terminal_receipt_id f)
  || same_some (enrollment_receipt_id e) (enrollment_receipt_id f).

Definition event_ok (e : event) : bool :=
  (1 <=? sequence e) && (2 <=? canonical_bytes e) && (canonical_bytes e <=? 16384)
  && (jsonb_octets (PDict (actor e)) <=? 4096)
  && (jsonb_octets (PDict (payload e)) <=? 16384).

Definition insert_event (e : event) : stres ledger unit := fun l =>
  if negb (event_ok e)
  then (Raise (IntegrityError "new row violates check constraint"), l)
  else if existsb (event_conflict e) (events l)
  then (Raise (IntegrityError "duplicate key value violates unique constraint"), l)
  else if negb (dmem (workflow_id e) (instances l))
  then (Raise (IntegrityError "insert violates foreign key constraint"), l)
  else (Ok tt, mkLedger (instances l) (events l ++ [e]) (projections l)).

Definition advanced (event_hash : string) (event_bytes : Z) (current_state : string)
    (terminal : bool) (deadline : pyval) (cancellation_state : option string)
    (i : instance) : instance :=
  mkInstance (i_workflow_id i) (i_root_workflow_id i) (i_segment_id i) (i_segment_number i)
    (i_predecessor_segment_id i) (i_predecessor_terminal_hash i) (i_workflow_kind i)
    (i_workspace_id i) (i_execution_id i) (i_psc_ids i) (i_semantic_identity i)
    (i_semantic_identity_hash i) (i_current_sequence i + 1) (Some event_hash) current_state
    terminal (i_workflow_definition_version i) (i_reducer_version i)
    (i_effect_adapter_registry_version i) (i_runtime_build_id i)
    (i_replay_compatibility_class i) (i_event_count i + 1)
    (i_canonical_event_bytes i + event_bytes) deadline cancellation_state.

Definition advance_instance (w : string) (expected_sequence : Z) (event_hash : string)
    (event_bytes : Z) (current_state : string) (terminal : bool) (deadline : pyval)
    (cancellation_state : option string) : stres ledger unit := fun l =>
  match dget w (instances l) with
  | Some i =>
      if i_current_sequence i =? expected_sequence
      then
        let i' := advanced event_hash event_bytes current_state terminal deadline
                    cancellation_state i in
        if (i_event_count i' <=? MAX_EVENT_COUNT)
           && (i_canonical_event_bytes i' <=? MAX_EVENT_BYTES)
        then (Ok tt, mkLedger (dset w i' (instances l)) (events l) (projections l))
        else (Raise (IntegrityError "row violates check constraint"), l)
      else (Raise (RuntimeError "durable workflow sequence compare-and-swap failed"), l)
  | None => (Raise (RuntimeError "durable workflow sequence compare-and-swap failed"), l)
  end.

(** [ORDER BY sequence] *)
Fixpoint insert_by_sequence (e : event) (l : list event) : list event :=
  match l with
  | [] => [e]
  | f :: r => if sequence e <=? sequence f then e :: l else f :: insert_by_sequence e r
  end.
Definition order_by_sequence (l : list event) : list event := foldr insert_by_sequence [] l.

Definition read_events_after (w : string) (cursor limit : Z) : stres ledger (list event) :=
  gets_st (fun l =>
    firstn (Z.to_nat limit)
      (order_by_sequence (filter (fun e => cursor < sequence e) (events_of w l)))).

(** * The current projection *)

Definition upsert_projection (w : string) (p : projection) : stres ledger unit := fun l =>
  if negb (jsonb_octets (PDict (p_state p)) <=? 16384) || negb (0 <=? p_last_sequence p)
  then (Raise (IntegrityError "row violates check constraint"), l)
  else if negb (dmem w (instances l))
  then (Raise (IntegrityError "insert violates foreign key constraint"), l)
  else match dget w (projections l) with
  | Some old =>
      if p_last_sequence old =? p_last_sequence p - 1
      then (Ok tt, mkLedger (instances l) (events l) (dset w p (projections l)))
      else (Ok tt, l)
  | None => (Ok tt, mkLedger (instances l) (events l) (dset w p (projections l)))
  end.

Definition read_projection (w : string) : stres ledger (option projection) :=
  gets_st (fun l => dget w (projections l)).

End repository.
