(* ===== verification/Reducer.v ===== *)
(** The pure reducer of the current projection
    (workflow/durable_state/reducers.py, projections.py), and effect-free
    replay and comparison of histories (replay.py).

    Every value the reducer stores is a deep copy, so state and event never
    share structure and plain values model them. *)
From S2P Require Import Prelude PyDict PyStr PyVal PyJson Canonical Ledger.

(** [typed.get(...)] on [payload.get("typed_receipt") or {}]. *)
Definition typed_of (payload : dict pyval) : pyval :=
  py_or (pget "typed_receipt" payload) (PDict []).

Definition is_type (typed : pyval) (name : string) : res bool :=
  t ← py_get "receipt_type" typed; Ok (py_eq t (PStr name)).

(** [[(k, v["k"]) for k in keys]] *)
Fixpoint project_fields (keys : list string) (v : pyval) : res (dict pyval) :=
  match keys with
  | [] => Ok []
  | k :: r => x ← py_sub k v; xs ← project_fields r v; Ok ((k, x) :: xs)
  end.

(** [state.setdefault(key, []).append(x)]: the method is looked up before its
    argument [x] is computed. *)
Definition append_to (key : string) (x : res pyval) (state : dict pyval) : res (dict pyval) :=
  match pget_or key (PList []) state with
  | PList l => v ← x; Ok (dset key (PList (l ++ [v])) state)
  | _ => Raise (AttributeError "object has no attribute 'append'")
  end.

(** [d[key] = x] where [d] is [state.setdefault(name, {})]. *)
Definition assign_in (name : string) (key x : pyval) (state : dict pyval)
    : res (dict pyval) :=
  match pget_or name (PDict []) state, key with
  | PDict d, PStr k => Ok (dset name (PDict (dset k x d)) state)
  | PDict _, (PList _ | PDict _) => Raise (TypeError "unhashable type")
  | PDict _, _ => Raise (OtherError "OutOfModel" "a dictionary key that is not a str")
  | _, _ => Raise (TypeError "object does not support item assignment")
  end.

(** [len(x)] *)
Definition py_len (v : pyval) : res Z :=
  match v with
  | PList l => Ok (Z.of_nat (length l))
  | PDict d => Ok (Z.of_nat (length d))
  | PStr s => Ok (Z.of_nat (String.length s))
  | _ => Raise (TypeError "object has no len()")
  end.

Definition reduce_transition (payload updated : dict pyval) : res (dict pyval) :=
  current ← pitem "current_state" updated;
  let updated := dset "current_state" (pget_or "to_state" current payload) updated in
  updated ←
    (if py_eq (pget "to_state" payload) (PStr "promoted")
        && truthy (pget "release_workflow_id" payload)
     then
       link ← project_fields ["approval_consumption_id"; "release_effect_receipt_id";
                              "release_workflow_id"] (PDict payload);
       Ok (dset "promotion_link" (PDict link) updated)
     else Ok updated);
  let typed := typed_of payload in
  is_iteration ← is_type typed "product_iteration";
  if is_iteration : bool
  then receipt ← py_sub "receipt" typed; Ok (dset "definition" receipt updated)
  else
    is_evaluation ← is_type typed "evaluation_receipt";
    if is_evaluation : bool
    then receipt ← py_sub "receipt" typed; Ok (dset "evaluation" receipt updated)
    else Ok updated.

Definition reduce_defined (payload updated : dict pyval) : res (dict pyval) :=
  definition ← pitem "definition" payload;
  let updated := dset "definition" definition updated in
  frontier ← py_sub "evidence_frontier" definition;
  Ok (dset "evaluation_attempt_count" (PInt 0)
       (dset "adapter_refs_by_arm" (PDict [])
         (dset "accepted_observation_count" (PInt 0)
           (dset "accepted_observation_ids" (PList [])
             (dset "enrollment_ids" (PList [])
               (dset "evidence_frontier" frontier updated)))))).

Definition reduce_enrollment (payload updated : dict pyval) : res (dict pyval) :=
  enrollment ← pitem "enrollment" payload;
  enrollment_id ← py_sub "enrollment_id" enrollment;
  updated ← append_to "enrollment_ids" (Ok enrollment_id) updated;
  fields ← project_fields ["capability_identity"; "adapter_contract_version";
                           "descriptor_sha256"; "evaluator_version"] enrollment;
  lens ← py_get "review_lens" enrollment;
  arm ← py_sub "arm_id" enrollment;
  assign_in "adapter_refs_by_arm" arm (PDict (fields ++ [("review_lens", lens)])) updated.

Definition zero_hash : string := String.concat "" (replicate 64 "0").

Definition reduce_observation (sequence : Z) (payload updated : dict pyval)
    : res (dict pyval) :=
  observation ← pitem "observation" payload;
  updated ← append_to "accepted_observation_ids" (py_sub "observation_id" observation) updated;
  count ← py_len (pget "accepted_observation_ids" updated);
  let updated := dset "accepted_observation_count" (PInt count) updated in
  let frontier := pget_or "evidence_frontier"
        (PDict [("last_observation_sequence", PInt 0); ("frontier_hash", PStr zero_hash)])
        updated in
  match frontier with
  | PDict f =>
      let f := dset "last_observation_sequence" (PInt sequence) f in
      previous ← pitem "frontier_hash" f;
      observation_id ← py_sub "observation_id" observation;
      provenance ← py_sub "provenance_hash" observation;
      h ← sha256_hex (PDict
            [("previous_frontier_hash", previous); ("observation_id", observation_id);
             ("provenance_hash", provenance); ("sequence", PInt sequence)]);
      Ok (dset "evidence_frontier" (PDict (dset "frontier_hash" (PStr h) f)) updated)
  | _ => Raise (TypeError "object does not support item assignment")
  end.

(** The branch on [event_type]. *)
Definition reduce_type (e : event) (updated : dict pyval) : res (dict pyval) :=
  let payload := payload e in
  let is_event name := bool_decide (event_type e = name) in
  if is_event "transition" then reduce_transition payload updated
  else if is_event "cancellation_requested"
  then Ok (dset "cancellation_state" (PStr "requested") updated)
  else if is_event "product_iteration_defined" then reduce_defined payload updated
  else if is_event "iteration_enrollment_accepted" then reduce_enrollment payload updated
  else if is_event "outcome_observation_accepted"
  then reduce_observation (sequence e) payload updated
  else if is_event "product_release_linked"
  then Ok (dset "release_link" (PDict payload) updated)
  else Ok updated.

Definition HEALTH_FIELDS : list string :=
  ["receipt_id"; "release_id"; "candidate_attestation_id"; "window"; "slo"; "error_budget";
   "quality"; "safety"; "resource"; "drift"; "incident_refs"; "decision"; "recorded_at"].
Definition LIFECYCLE_FIELDS : list string :=
  ["manifest_id"; "evidence_class"; "content_hash"; "object_ref"; "privacy_classification";
   "legal_hold"; "lifecycle_action"; "reconciliation_state"].

(** The branch on the type of the typed receipt. *)
Definition reduce_receipt (payload updated : dict pyval) : res (dict pyval) :=
  let typed := typed_of payload in
  is_evaluation ← is_type typed "evaluation_receipt";
  if is_evaluation : bool
  then n ← py_int (pget_or "evaluation_attempt_count" (PInt 0) updated);
       Ok (dset "evaluation_attempt_count" (PInt (n + 1)) updated)
  else
    is_health ← is_type typed "release_health_receipt";
    if is_health : bool
    then receipt ← py_sub "receipt" typed;
         fields ← project_fields HEALTH_FIELDS receipt;
         Ok (dset "release_health" (PDict fields) updated)
    else
      is_lifecycle ← is_type typed "evidence_lifecycle_manifest";
      if is_lifecycle : bool
      then receipt ← py_sub "receipt" typed;
           fields ← project_fields LIFECYCLE_FIELDS receipt;
           Ok (dset "evidence_lifecycle" (PDict fields) updated)
      else Ok updated.

Definition reduce_v1 (state : dict pyval) (e : event) : res (dict pyval) :=
  updated ← reduce_type e state;
  updated ← reduce_receipt (payload e) updated;
  Ok (dset "last_event_hash" (PStr (event_hash e))
        (dset "last_sequence" (PInt (sequence e)) updated)).

(** [project]: the new state with its content hash. *)
Definition project (state : dict pyval) (e : event) : res (dict pyval * string) :=
  updated ← reduce_v1 state e;
  h ← sha256_hex (PDict updated);
  Ok (updated, h).

(** * Replay *)

Record ReplayResult : Type := mkReplay {
  rr_sequence : Z;
  rr_event_hash : pyval;
  rr_state : dict pyval;
  rr_reducer_version : string;
  rr_compatibility_identity : dict string;
}.

Section replay.
Variable reducer : dict pyval -> event -> res (dict pyval).

Fixpoint replay_loop (events : list event) (target : Z) (state : dict pyval)
    (previous_sequence : Z) (previous_hash : pyval) : res (dict pyval * Z * pyval) :=
  match events with
  | [] => Ok (state, previous_sequence, previous_hash)
  | e :: r =>
      if target <? sequence e then Ok (state, previous_sequence, previous_hash)
      else if negb (sequence e =? previous_sequence + 1)
      then Raise (ReplayCompatibilityError "event sequence is not contiguous")
      else if negb (py_eq (py_opt (previous_event_hash e)) previous_hash)
      then Raise (ReplayCompatibilityError "event predecessor hash is invalid")
      else state ← reducer state e;
           replay_loop r target state (sequence e) (PStr (event_hash e))
  end.

Definition reduce_as_of (initial_state : dict pyval) (events : list event)
    (target_sequence : Z) (reducer_version : string) : res ReplayResult :=
  start ← py_int (pget_or "last_sequence" (PInt 0) initial_state);
  r ← replay_loop events target_sequence initial_state start
        (pget "last_event_hash" initial_state);
  let '(state, previous_sequence, previous_hash) := r in
  if negb (previous_sequence =? target_sequence)
  then Raise (ReplayCompatibilityError "target exceeds the bounded replay window")
  else Ok (mkReplay previous_sequence previous_hash state reducer_version []).

End replay.

(** [sorted(set(a) | set(b))] *)
Definition sorted_union (a b : list string) : list string :=
  dkeys (sort_keys (map (fun k => (k, tt)) (remove_dups (a ++ b)))).

Definition differing_fields (left right : ReplayResult) : list string :=
  filter (fun k => k ∉ ["last_sequence"; "last_event_hash"]
                   /\ py_eq (pget k (rr_state left)) (pget k (rr_state right)) = false)
    (sorted_union (dkeys (rr_state left)) (dkeys (rr_state right))).

Definition compatibility_reasons (left right : ReplayResult) : list string :=
  (if bool_decide (rr_reducer_version left = rr_reducer_version right) then []
   else ["reducer_version"])
  ++ filter (fun k => dget k (rr_compatibility_identity left)
                      ≠ dget k (rr_compatibility_identity right))
       (sorted_union (dkeys (rr_compatibility_identity left))
                     (dkeys (rr_compatibility_identity right))).

Record comparison : Type := mkComparison {
  cmp_left_sequence : Z;
  cmp_right_sequence : Z;
  cmp_left_event_hash : pyval;
  cmp_right_event_hash : pyval;
  cmp_compatible : bool;
  cmp_reasons : list string;
  cmp_differing : list string;
}.

Definition compare_results (left right : ReplayResult) : comparison :=
  let reasons := compatibility_reasons left right in
  mkComparison (rr_sequence left) (rr_sequence right) (rr_event_hash left)
    (rr_event_hash right) (bool_decide (reasons = [])) reasons (differing_fields left right).
