(* ===== verification/Facade.v ===== *)
(** The write facade of the durable ledger (workflow/durable_state/facade.py,
    facade_append.py, events.py, compatibility.py, typed_receipts.py,
    terminal_receipts.py and the payload validators): every public writer of
    execution workflows as an operation on the ledger.

    What is not in the repository is gathered in [platform]: the Ed25519
    signer, the JSON Schema validator, the interpreter's ISO date parser and
    the database's JSONB text length.  The fresh identifier and the clock
    reading an append uses are its [env]. *)
From S2P Require Import Prelude PyDict PyStr PyVal PyJson PyTime.
From S2P Require Import Canonical Transitions Ledger Reducer.

Definition MAX_READ_PAGE : Z := 50.
Definition MAX_SEGMENT_EVENTS : Z := 10000.
Definition MAX_SEGMENT_BYTES : Z := 64 * 1024 * 1024.

Record platform : Type := mkPlatform {
  pf_octets : pyval -> Z;
  pf_sign : list N -> string;
  pf_key_id : string;
  pf_validate : string -> pyval -> res unit;
  pf_iso_ok : string -> bool;
}.

Record env : Type := mkEnv { env_uuid : string; env_now : Z }.

(** The versions a build supports. *)
Record CompatibilityRegistry : Type := mkRegistry {
  workflow_definitions : list string;
  reducers : list string;
  effect_adapters : list string;
}.

Definition require_version (field_name : string) (registry : list string)
    (identity : dict pyval) : res unit :=
  version ← pitem field_name identity;
  match version with
  | PStr v => if bool_decide (v ∈ registry) then Ok tt
              else Raise (IncompatibleHistory
                     ("pinned " +:+ field_name +:+ " " +:+ repr_str v +:+ " is unavailable"))
  | PList _ | PDict _ => Raise (TypeError "unhashable type")
  | v => Raise (IncompatibleHistory
           ("pinned " +:+ field_name +:+ " " +:+ py_repr v +:+ " is unavailable"))
  end.

Definition require (r : CompatibilityRegistry) (identity : dict pyval) : res unit :=
  _ ← require_version "workflow_definition_version" (workflow_definitions r) identity;
  _ ← require_version "reducer_version" (reducers r) identity;
  require_version "effect_adapter_registry_version" (effect_adapters r) identity.

(** * Events *)

(** [occurred_at.isoformat().replace("+00:00", "Z")] *)
Definition iso_z (t : Z) : string := replace "+00:00" "Z" (isoformat t).

Definition event_core_from_row (e : event) : dict pyval :=
  [("event_id", PStr (event_id e)); ("workflow_id", PStr (workflow_id e));
   ("segment_id", PStr (segment_id e)); ("sequence", PInt (sequence e));
   ("event_type", PStr (event_type e)); ("occurred_at", PStr (iso_z (occurred_at e)));
   ("actor", PDict (actor e)); ("payload", PDict (payload e));
   ("payload_sha256", PStr (payload_sha256 e));
   ("previous_event_hash", py_opt (previous_event_hash e));
   ("critical_durability", PStr "sync")].

(** [{**core, "event_hash": event_hash}] *)
Definition signed_content (e : event) : dict pyval :=
  event_core_from_row e ++ [("event_hash", PStr (event_hash e))].

Section facade.
Variable pf : platform.
Variable registry : CompatibilityRegistry.

Definition build_signed_event (ev : env) (locked : instance) (event_type : string)
    (actor payload : dict pyval) : res event :=
  payload_hash ← sha256_hex (PDict payload);
  let with_hash h bytes sig :=
    mkEvent (env_uuid ev) (i_workflow_id locked) (i_segment_id locked)
      (i_current_sequence locked + 1) event_type (env_now ev) actor payload payload_hash
      (i_current_event_hash locked) h bytes (pf_key_id pf) sig "" None None in
  h ← chained_hash (i_current_event_hash locked) (event_core_from_row (with_hash "" 0 ""));
  bs ← encode (PDict (signed_content (with_hash h 0 "")));
  Ok (with_hash h (Z.of_nat (length bs)) (pf_sign pf bs)).

(** [str(exc)] of a [ValueError]. *)
Definition exn_text (e : exn) : string :=
  match e with
  | ValueError m | InvalidTransition m | CanonicalPayloadError m
  | ReplayCompatibilityError m => m
  | _ => ""
  end.

(** [verify(public_key, payload, signature)] of the signature module. *)
Definition SigningKeyError (msg : string) : exn := OtherError "SigningKeyError" msg.

Section verification.
Context {key : Type}.
Variable verification_keys : dict key.
Variable signature_valid : key -> list N -> string -> bool.

Fixpoint verify_loop (events : list event) (previous : option string)
    : res (option string) :=
  match events with
  | [] => Ok previous
  | e :: r =>
      expected ← chained_hash previous (event_core_from_row e);
      if negb (bool_decide (previous_event_hash e = previous))
         || negb (bool_decide (event_hash e = expected))
      then Raise (ValueError "durable event hash chain is invalid")
      else match dget (key_id e) verification_keys with
      | None => Raise (ValueError ("event signing key " +:+ repr_str (key_id e)
                                   +:+ " is unavailable"))
      | Some public_key =>
          bs ← encode (PDict (signed_content e));
          if signature_valid public_key bs (signature e)
          then verify_loop r (Some (event_hash e))
          else Raise (SigningKeyError "durable workflow signature is invalid")
      end
  end.

Definition verify_events (events : list event) : res (option string) :=
  verify_loop events (match events with e :: _ => previous_event_hash e | [] => None end).

Definition read_events_page (w : string) (cursor limit : Z) : stres ledger (list event) :=
  if negb ((1 <=? limit) && (limit <=? MAX_READ_PAGE))
  then raise_st (ValueError "durable event page limit must be between 1 and 50")
  else read_events_after w cursor limit.

Definition verify_chain (w : string) (cursor limit : Z)
    : stres ledger (option string) :=
  events ← read_events_page w cursor limit;
  lift_res (match verify_events events with
            | Ok h => Ok h
            | Raise e => if is_value_error e
                         then Raise (DurableWorkflowConflict (exn_text e)) else Raise e
            end).
End verification.

(** * The append seam *)

Definition _begin_append (w : string) (expected : Z) (idempotency_key : string)
    (matches : event -> bool) : stres ledger (instance * option event) :=
  locked ← lock_instance w;
  if i_current_sequence locked =? expected then mret (locked, None)
  else
    prior ← find_idempotent_event w idempotency_key;
    match prior with
    | Some p => if matches p then mret (locked, Some p)
                else raise_st (DurableWorkflowConflict
                  ("expected sequence " +:+ str_int expected +:+ ", found "
                   +:+ str_int (i_current_sequence locked)))
    | None => raise_st (DurableWorkflowConflict
                  ("expected sequence " +:+ str_int expected +:+ ", found "
                   +:+ str_int (i_current_sequence locked)))
    end.

(** The optional arguments of [_append_locked]. *)
Record append_options : Type := mkOptions {
  o_current_state : option string;
  o_terminal : option bool;
  o_timer_id : pyval;
  o_external_message_id : pyval;
  o_next_durable_deadline : pyval;
  o_cancellation_state : option string;
}.
Definition no_options : append_options := mkOptions None None PNone PNone PNone None.

Definition stored_event (e : event) (key : string) (timer message : option string) : event :=
  mkEvent (event_id e) (workflow_id e) (segment_id e) (sequence e) (event_type e)
    (occurred_at e) (actor e) (payload e) (payload_sha256 e) (previous_event_hash e)
    (event_hash e) (canonical_bytes e) (key_id e) (signature e) key timer message.

(** The contract event without its [key_id]. *)
Definition contract_payload (e : event) : dict pyval :=
  signed_content e ++ [("canonical_bytes", PInt (canonical_bytes e));
                       ("signature", PStr (signature e))].

(** A nullable TEXT parameter. *)
Definition bind_nullable (v : pyval) : res (option string) :=
  match v with
  | PNone => Ok None
  | PStr s => Ok (Some s)
  | _ => Raise (OtherError "DataError" "text")
  end.

Definition segment_full (event_type : string) (locked : instance) (bytes : Z) : bool :=
  negb (bool_decide (event_type = "segment_rollover"))
  && ((MAX_SEGMENT_EVENTS - 1 <=? i_event_count locked)
      || (MAX_SEGMENT_BYTES - 16384 <? i_canonical_event_bytes locked + bytes)).
Definition rollover_too_large (event_type : string) (locked : instance) (bytes : Z) : bool :=
  bool_decide (event_type = "segment_rollover")
  && (MAX_SEGMENT_BYTES <? i_canonical_event_bytes locked + bytes).

(** The projection the first event of a workflow is reduced from. *)
Definition initial_projection (i : instance) : dict pyval :=
  [("current_state", PStr (i_current_state i));
   ("cancellation_state", py_opt (i_cancellation_state i));
   ("last_sequence", PInt (i_current_sequence i));
   ("last_event_hash", py_opt (i_current_event_hash i))].

Definition prior_state (locked : instance) (prior : option projection)
    : res (dict pyval) :=
  match prior with
  | None =>
      if negb (i_current_sequence locked =? 0)
      then Raise (DurableWorkflowConflict
             "current projection is missing for non-empty workflow")
      else Ok (initial_projection locked)
  | Some p =>
      if negb (p_last_sequence p =? i_current_sequence locked)
      then Raise (DurableWorkflowConflict
             "current projection sequence does not match aggregate")
      else Ok (p_state p)
  end.

(** The writes of an append: event, instance, projection. *)
Definition write_event (locked : instance) (contract : event) (stored : event)
    (o : append_options) : stres ledger unit :=
  _ ← insert_event (pf_octets pf) stored;
  _ ← advance_instance (i_workflow_id locked) (i_current_sequence locked)
        (event_hash contract) (canonical_bytes contract)
        (str_or (default "" (o_current_state o)) (i_current_state locked))
        (default (i_terminal locked) (o_terminal o))
        (o_next_durable_deadline o)
        (match o_cancellation_state o with
         | Some c => Some c | None => i_cancellation_state locked end);
  prior ← read_projection (i_workflow_id locked);
  state ← lift_res (prior_state locked prior);
  p ← lift_res (project state contract);
  let '(projection_state, state_hash) := p in
  upsert_projection (pf_octets pf) (i_workflow_id locked)
    (mkProjection (sequence contract) (i_reducer_version locked) state_hash projection_state).

Definition _append_locked (ev : env) (locked : instance) (event_type idempotency_key : string)
    (actor payload : dict pyval) (o : append_options) : stres ledger event :=
  if i_terminal locked
  then raise_st (DurableWorkflowConflict "terminal workflow is insert-closed")
  else
    payload_hash ← lift_res (sha256_hex (PDict payload));
    prior ← find_idempotent_event (i_workflow_id locked) idempotency_key;
    match prior with
    | Some p =>
        if bool_decide (Ledger.event_type p = event_type)
           && bool_decide (payload_sha256 p = payload_hash)
        then mret p
        else raise_st (DurableWorkflowConflict
               "idempotency key was used for different input")
    | None =>
        contract ← lift_res (build_signed_event ev locked event_type actor payload);
        if segment_full event_type locked (canonical_bytes contract)
        then raise_st (DurableWorkflowConflict "segment rollover is required")
        else if rollover_too_large event_type locked (canonical_bytes contract)
        then raise_st (DurableWorkflowConflict "segment byte boundary was exceeded")
        else
          _ ← lift_res (pf_validate pf "workflow_event" (PDict (contract_payload contract)));
          timer ← lift_res (bind_nullable (o_timer_id o));
          message ← lift_res (bind_nullable (o_external_message_id o));
          let stored := stored_event contract idempotency_key timer message in
          _ ← write_event locked contract stored o;
          mret stored
    end.

(** * Opening a workflow *)

(** [{**identity, "execution_id": identity.get(...), ...}] *)
Definition identity_record (identity : dict pyval) (identity_hash state : string)
    : dict pyval :=
  dset "current_state" (PStr state)
    (dset "semantic_identity_hash" (PStr identity_hash)
      (dset "predecessor_terminal_hash" (pget "predecessor_terminal_hash" identity)
        (dset "predecessor_segment_id" (pget "predecessor_segment_id" identity)
          (dset "execution_id" (pget "execution_id" identity) identity)))).

Definition _insert_identity (identity : dict pyval) (state : string)
    : stres ledger instance :=
  h ← lift_res (sha256_hex (PDict identity));
  row ← lift_res (instance_of_record (identity_record identity h state) identity);
  _ ← insert_instance (pf_octets pf) row;
  read_instance (i_workflow_id row).

Definition _open_workflow_kind (identity : dict pyval) : stres ledger instance :=
  _ ← lift_res (pf_validate pf "semantic_execution_identity" (PDict identity));
  _ ← lift_res (require registry identity);
  kind ← lift_res (bind_text "workflow_kind" identity);
  state ← lift_res (initial_state kind);
  _insert_identity identity state.

Definition open_workflow (identity : dict pyval) : stres ledger instance :=
  if negb (py_eq (pget "workflow_kind" identity) (PStr "execution"))
  then raise_st (ValueError "non-execution workflow requires its specialized facade seam")
  else _open_workflow_kind identity.

(** * Writers *)

Definition RECEIPT_SCHEMAS : list string :=
  ["development_change_attestation"; "evaluation_receipt"; "evidence_lifecycle_manifest";
   "execution_terminal_receipt"; "iteration_enrollment"; "outcome_adapter_descriptor";
   "outcome_observation"; "product_iteration"; "release_health_receipt"; "replay_envelope";
   "side_effect_receipt"].

Definition validate_typed_receipt (receipt_type : string) (receipt : dict pyval) : res unit :=
  if bool_decide (receipt_type ∈ RECEIPT_SCHEMAS)
  then pf_validate pf receipt_type (PDict receipt)
  else Raise (ValueError ("unknown typed receipt: " +:+ receipt_type)).

(** [{"receipt_type": ..., "receipt": ...}] *)
Definition wrap_receipt (t : string * dict pyval) : pyval :=
  PDict [("receipt_type", PStr t.1); ("receipt", PDict t.2)].

Definition same_actor (e : event) (a : dict pyval) : bool := py_eq (PDict (actor e)) (PDict a).
Definition is_type_of (e : event) (t : string) : bool := bool_decide (event_type e = t).

Definition transition_matches (actor : dict pyval) (target_state : string)
    (typed_receipt : option (string * dict pyval)) (prior : event) : bool :=
  is_type_of prior "transition" && same_actor prior actor
  && py_eq (pget "to_state" (payload prior)) (PStr target_state)
  && py_eq (pget "typed_receipt" (payload prior))
       (match typed_receipt with Some t => wrap_receipt t | None => PNone end).

Definition transition_payload (from target : string)
    (typed_receipt : option (string * dict pyval)) : dict pyval :=
  [("from_state", PStr from); ("to_state", PStr target)]
  ++ match typed_receipt with
     | Some t => [("typed_receipt", wrap_receipt t)]
     | None => []
     end.

Definition _append_transition_for_kind (ev : env) (w : string) (expected_sequence : Z)
    (target_state idempotency_key : string) (actor : dict pyval) (expected_kind : string)
    (typed_receipt : option (string * dict pyval)) : stres ledger event :=
  b ← _begin_append w expected_sequence idempotency_key
        (transition_matches actor target_state typed_receipt);
  let '(locked, retry) := b in
  if negb (bool_decide (i_workflow_kind locked = expected_kind))
  then raise_st (DurableWorkflowConflict
         (i_workflow_kind locked +:+ " transition requires its specialized facade seam"))
  else match retry with
  | Some e => mret e
  | None =>
      terminal ← lift_res (require_transition (i_workflow_kind locked)
                             (i_current_state locked) target_state);
      if bool_decide (i_workflow_kind locked = "execution") && terminal
      then raise_st (DurableWorkflowConflict
             "execution terminal transition requires append_execution_terminal")
      else
        _ ← lift_res (match typed_receipt with
                      | Some t => validate_typed_receipt t.1 t.2
                      | None => Ok tt
                      end);
        _append_locked ev locked "transition" idempotency_key actor
          (transition_payload (i_current_state locked) target_state typed_receipt)
          (mkOptions (Some target_state) (Some terminal) PNone PNone PNone None)
  end.

Definition append_transition ev w expected_sequence target_state idempotency_key actor
    typed_receipt : stres ledger event :=
  _append_transition_for_kind ev w expected_sequence target_state idempotency_key actor
    "execution" typed_receipt.

Definition receipt_matches (actor : dict pyval) (wrapped : pyval) (prior : event) : bool :=
  is_type_of prior "transition" && same_actor prior actor
  && py_eq (pget "typed_receipt" (payload prior)) wrapped.

Definition _append_typed_receipt_for_kind (ev : env) (w : string) (expected_sequence : Z)
    (receipt_type : string) (receipt : dict pyval) (idempotency_key : string)
    (actor : dict pyval) (expected_kind : option string) : stres ledger event :=
  _ ← lift_res (validate_typed_receipt receipt_type receipt);
  let wrapped := wrap_receipt (receipt_type, receipt) in
  b ← _begin_append w expected_sequence idempotency_key (receipt_matches actor wrapped);
  let '(locked, retry) := b in
  if match expected_kind with
     | Some k => negb (bool_decide (i_workflow_kind locked = k))
     | None => false
     end
  then raise_st (DurableWorkflowConflict
         (i_workflow_kind locked +:+ " receipt requires its specialized facade seam"))
  else match retry with
  | Some e => mret e
  | None =>
      _append_locked ev locked "transition" idempotency_key actor
        [("typed_receipt", wrapped)]
        (mkOptions (Some (i_current_state locked)) (Some (i_terminal locked))
           PNone PNone PNone None)
  end.

Definition append_typed_receipt ev w expected_sequence receipt_type receipt idempotency_key
    actor : stres ledger event :=
  _append_typed_receipt_for_kind ev w expected_sequence receipt_type receipt idempotency_key
    actor (Some "execution").

Definition append_release_health ev w expected_sequence health_receipt idempotency_key actor
    : stres ledger event :=
  _append_typed_receipt_for_kind ev w expected_sequence "release_health_receipt"
    health_receipt idempotency_key actor (Some "product_release").

Definition append_evidence_lifecycle ev w expected_sequence manifest idempotency_key actor
    : stres ledger event :=
  _append_typed_receipt_for_kind ev w expected_sequence "evidence_lifecycle_manifest"
    manifest idempotency_key actor None.

Definition validate_timer (timer : dict pyval) : res unit :=
  if negb (truthy (pget "timer_id" timer)) || negb (truthy (pget "deadline" timer))
  then Raise (ValueError "timer_id and deadline are required")
  else match pget "deadline" timer with
  | PStr s => if pf_iso_ok pf (replace "Z" "+00:00" s) then Ok tt
              else Raise (ValueError "Invalid isoformat string")
  | _ => Raise (AttributeError "object has no attribute 'replace'")
  end.

Definition payload_matches (t : string) (actor p : dict pyval) (prior : event) : bool :=
  is_type_of prior t && same_actor prior actor && py_eq (PDict (payload prior)) (PDict p).

Definition record_timer (ev : env) (w : string) (expected_sequence : Z) (timer : dict pyval)
    (idempotency_key : string) (actor : dict pyval) : stres ledger event :=
  _ ← lift_res (validate_timer timer);
  b ← _begin_append w expected_sequence idempotency_key
        (payload_matches "timer_recorded" actor timer);
  let '(locked, retry) := b in
  match retry with
  | Some e => mret e
  | None =>
      _append_locked ev locked "timer_recorded" idempotency_key actor timer
        (mkOptions None None (pget "timer_id" timer) PNone (pget "deadline" timer) None)
  end.

Definition validate_external_message (message : dict pyval) : res unit :=
  if negb (truthy (pget "external_message_id" message))
  then Raise (ValueError "external_message_id is required") else Ok tt.

Definition record_external_message (ev : env) (w : string) (expected_sequence : Z)
    (message : dict pyval) (idempotency_key : string) (actor : dict pyval)
    : stres ledger event :=
  _ ← lift_res (validate_external_message message);
  b ← _begin_append w expected_sequence idempotency_key
        (payload_matches "external_message_recorded" actor message);
  let '(locked, retry) := b in
  match retry with
  | Some e => mret e
  | None =>
      _append_locked ev locked "external_message_recorded" idempotency_key actor message
        (mkOptions None None PNone (pget "external_message_id" message) PNone None)
  end.

Definition validate_cancellation (reason : dict pyval) : res unit :=
  if negb (truthy (pget "reason" reason))
  then Raise (ValueError "cancellation reason is required") else Ok tt.

Definition request_cancellation (ev : env) (w : string) (expected_sequence : Z)
    (reason : dict pyval) (idempotency_key : string) (actor : dict pyval)
    : stres ledger event :=
  _ ← lift_res (validate_cancellation reason);
  b ← _begin_append w expected_sequence idempotency_key
        (payload_matches "cancellation_requested" actor reason);
  let '(locked, retry) := b in
  match retry with
  | Some e => mret e
  | None =>
      if i_terminal locked
      then raise_st (DurableWorkflowConflict "terminal workflow cannot be cancelled")
      else _append_locked ev locked "cancellation_requested" idempotency_key actor reason
             (mkOptions None None PNone PNone PNone (Some "requested"))
  end.

(** * Segment rollover *)

Definition rollover_matches (actor : dict pyval) (successor : string) (prior : event) : bool :=
  is_type_of prior "segment_rollover" && same_actor prior actor
  && py_eq (pget "successor_workflow_id" (payload prior)) (PStr successor).

Definition successor_identity (locked : instance) (successor terminal_hash : string)
    : dict pyval :=
  dupdate (i_semantic_identity locked)
    [("workflow_id", PStr successor);
     ("root_workflow_id", PStr (i_root_workflow_id locked));
     ("segment_id", PStr (successor +:+ ":segment:"
                          +:+ str_int (i_segment_number locked + 1)));
     ("segment_number", PInt (i_segment_number locked + 1));
     ("predecessor_segment_id", PStr (i_segment_id locked));
     ("predecessor_terminal_hash", PStr terminal_hash)].

Definition rollover_segment (ev : env) (w : string) (expected_sequence : Z)
    (successor_workflow_id idempotency_key : string) (actor : dict pyval)
    : stres ledger instance :=
  b ← _begin_append w expected_sequence idempotency_key
        (rollover_matches actor successor_workflow_id);
  let '(locked, retry) := b in
  match retry with
  | Some _ => read_instance successor_workflow_id
  | None =>
      if (i_event_count locked <? MAX_SEGMENT_EVENTS - 1)
         && (i_canonical_event_bytes locked <? MAX_SEGMENT_BYTES - 16384)
      then raise_st (DurableWorkflowConflict "segment rollover threshold is not reached")
      else
        e ← _append_locked ev locked "segment_rollover" idempotency_key actor
              [("successor_workflow_id", PStr successor_workflow_id)]
              (mkOptions None (Some true) PNone PNone PNone None);
        let identity := successor_identity locked successor_workflow_id (event_hash e) in
        _ ← lift_res (pf_validate pf "semantic_execution_identity" (PDict identity));
        _ ← lift_res (require registry identity);
        _insert_identity identity (i_current_state locked)
  end.

(** * The terminal transition of an execution *)

Definition PARITY_FIELDS : list string :=
  ["workflow_id"; "root_workflow_id"; "execution_id"; "attempt_id"; "workspace_id";
   "capability_identity"; "development_attestation_id"; "development_attestation_sha256";
   "consumer_compatibility_class"; "configuration_fingerprint"; "environment_fingerprint";
   "data_fingerprint"; "workflow_definition_version"; "reducer_version";
   "effect_adapter_registry_version"; "runtime_build_id"].

Fixpoint check_parity (fields : list string) (receipt identity : dict pyval) : res unit :=
  match fields with
  | [] => Ok tt
  | f :: r =>
      if py_eq (pget f receipt) (pget f identity) then check_parity r receipt identity
      else Raise (ValueError ("terminal receipt " +:+ f +:+ " does not match locked identity"))
  end.

(** [all(stored.get(key) == receipt.get(key) for key in receipt)] *)
Definition same_on_keys (stored receipt : dict pyval) : bool :=
  forallb (fun kv => py_eq (pget kv.1 stored) kv.2) receipt.

Definition stored_receipt (e : event) : res (dict pyval) :=
  typed ← pitem "typed_receipt" (payload e);
  r ← py_sub "receipt" typed;
  match r with
  | PDict d => Ok d
  | _ => Raise (AttributeError "object has no attribute 'get'")
  end.

Definition terminal_receipt (receipt : dict pyval) (transition : event) : dict pyval :=
  ddel "signature"
    (dset "key_id" (PStr (pf_key_id pf))
      (dset "terminal_event_hash" (PStr (event_hash transition))
        (dset "terminal_sequence" (PInt (sequence transition)) receipt))).

Definition append_execution_terminal (ev1 ev2 : env) (w : string) (expected_sequence : Z)
    (target_state : string) (receipt : dict pyval) (idempotency_key : string)
    (actor : dict pyval) : stres ledger (dict pyval) :=
  let receipt_key := idempotency_key +:+ ":receipt" in
  existing ← find_idempotent_event w receipt_key;
  match existing with
  | Some e =>
      stored ← lift_res (stored_receipt e);
      if same_on_keys stored receipt then mret stored
      else raise_st (ValueError "terminal idempotency key was used for different input")
  | None =>
      locked ← lock_instance w;
      if negb (i_current_sequence locked =? expected_sequence)
      then raise_st (ValueError "terminal transition sequence is stale")
      else if negb (bool_decide (i_workflow_kind locked = "execution"))
      then raise_st (ValueError "execution terminal receipt requires execution workflow kind")
      else
        terminal ← lift_res (require_transition "execution" (i_current_state locked)
                               target_state);
        if negb terminal
        then raise_st (ValueError "execution terminal target must be terminal")
        else
          _ ← lift_res (check_parity PARITY_FIELDS receipt (i_semantic_identity locked));
          transition ← _append_locked ev1 locked "transition"
            (idempotency_key +:+ ":transition") actor
            [("from_state", PStr (i_current_state locked)); ("to_state", PStr target_state)]
            (mkOptions (Some target_state) (Some false) PNone PNone PNone None);
          let unsigned := terminal_receipt receipt transition in
          bs ← lift_res (encode (PDict unsigned));
          let signed := unsigned ++ [("signature", PStr (pf_sign pf bs))] in
          _ ← lift_res (pf_validate pf "execution_terminal_receipt" (PDict signed));
          after_transition ← lock_instance w;
          _ ← _append_locked ev2 after_transition "transition" receipt_key actor
                [("typed_receipt", wrap_receipt ("execution_terminal_receipt", signed))]
                (mkOptions (Some target_state) (Some true) PNone PNone PNone None);
          mret signed
  end.

End facade.
