(* ===== verification/LedgerChain.v ===== *)
(** The hash chain of one workflow: what the events of a workflow satisfy, how
    one append extends them, why every page of them verifies, and why a
    verified history cannot be rewritten without a hash collision. *)
From S2P Require Import Prelude PyDict PyStr PyVal PyJson PyTime.
From S2P Require Import Canonical Transitions Ledger Reducer Facade.

(** * Chains *)

Section chain.
Variable pf : platform.

(** One well-formed event after [prev], with sequence number [seq]. *)
Record link (prev : option string) (seq : Z) (e : event) : Prop := {
  link_sequence : sequence e = seq;
  link_previous : previous_event_hash e = prev;
  link_hash : chained_hash prev (event_core_from_row e) = Ok (event_hash e);
  link_payload : sha256_hex (PDict (payload e)) = Ok (payload_sha256 e);
  link_key : key_id e = pf_key_id pf;
  link_signed : exists bs, encode (PDict (signed_content e)) = Ok bs /\
                  signature e = pf_sign pf bs /\ canonical_bytes e = Z.of_nat (length bs);
}.

Fixpoint chained (prev : option string) (seq : Z) (es : list event) : Prop :=
  match es with
  | [] => True
  | e :: r => link prev (seq + 1) e /\ chained (Some (event_hash e)) (seq + 1) r
  end.

Definition last_hash (prev : option string) (es : list event) : option string :=
  foldl (fun _ e => Some (event_hash e)) prev es.

Definition sum_canonical_bytes (es : list event) : Z :=
  foldr (fun e acc => canonical_bytes e + acc) 0 es.

Lemma last_hash_snoc prev es e : last_hash prev (es ++ [e]) = Some (event_hash e).
Proof. unfold last_hash. by rewrite foldl_app. Qed.

Lemma sum_bytes_snoc es e :
  sum_canonical_bytes (es ++ [e]) = sum_canonical_bytes es + canonical_bytes e.
Proof. induction es as [|x es IH]; simpl; [lia|]. rewrite IH. lia. Qed.

Lemma chained_app prev seq es fs :
  chained prev seq (es ++ fs) <->
  chained prev seq es /\ chained (last_hash prev es) (seq + Z.of_nat (length es)) fs.
Proof.
  revert prev seq. induction es as [|e es IH]; intros prev seq; simpl.
  - rewrite Z.add_0_r. tauto.
  - rewrite IH. unfold last_hash. simpl.
    replace (seq + 1 + Z.of_nat (length es)) with (seq + Z.of_nat (S (length es))) by lia.
    tauto.
Qed.

Lemma chained_sequence prev seq es e :
  chained prev seq es -> e ∈ es -> seq < sequence e <= seq + Z.of_nat (length es).
Proof.
  revert prev seq. induction es as [|x es IH]; intros prev seq; [set_solver|].
  intros [Hx Hes] [->|Hin]%list.elem_of_cons; simpl.
  - rewrite (link_sequence _ _ _ Hx). lia.
  - specialize (IH _ _ Hes Hin). lia.
Qed.

(** The pages of a chain are its segments. *)
Lemma chained_order prev seq es : chained prev seq es -> order_by_sequence es = es.
Proof.
  revert prev seq. induction es as [|x es IH]; intros prev seq; [done|].
  intros [Hx Hes]. unfold order_by_sequence. simpl. fold (order_by_sequence es).
  rewrite (IH _ _ Hes). destruct es as [|y es]; [done|]. simpl.
  destruct Hes as [Hy _]. rewrite (link_sequence _ _ _ Hx), (link_sequence _ _ _ Hy).
  by rewrite (proj2 (Z.leb_le _ _)) by lia.
Qed.

Lemma chained_filter prev seq es cursor :
  chained prev seq es ->
  filter (fun e => cursor < sequence e) es = skipn (Z.to_nat (cursor - seq)) es.
Proof.
  revert prev seq. induction es as [|x es IH]; intros prev seq; [by rewrite drop_nil|].
  intros [Hx Hes]. rewrite filter_cons, (link_sequence _ _ _ Hx), (IH _ _ Hes).
  destruct (decide (cursor < seq + 1)) as [Hlt|Hge].
  - replace (Z.to_nat (cursor - seq)) with 0%nat by lia.
    by replace (Z.to_nat (cursor - (seq + 1))) with 0%nat by lia.
  - replace (Z.to_nat (cursor - seq)) with (S (Z.to_nat (cursor - (seq + 1)))) by lia. done.
Qed.

Lemma chained_drop prev seq es n :
  chained prev seq es -> exists p s, chained p s (skipn n es).
Proof.
  intros Hc. rewrite <- (take_drop n es) in Hc. apply chained_app in Hc as [_ Hc]. eauto.
Qed.

Lemma chained_take prev seq es n : chained prev seq es -> chained prev seq (firstn n es).
Proof. intros Hc. rewrite <- (take_drop n es) in Hc. by apply chained_app in Hc as [Hc _]. Qed.

(** * Verification *)

Section verify.
Context {key : Type}.
Variable verification_keys : dict key.
Variable signature_valid : key -> list N -> string -> bool.

(** The verification keys hold a public key that accepts the signer. *)
Definition signer_trusted : Prop :=
  exists k, dget (pf_key_id pf) verification_keys = Some k /\
    forall bs, signature_valid k bs (pf_sign pf bs) = true.

Lemma verify_chained prev seq es :
  signer_trusted -> chained prev seq es ->
  verify_loop verification_keys signature_valid es prev = Ok (last_hash prev es).
Proof.
  intros (k & Hk & Hs). revert prev seq. induction es as [|e es IH]; intros prev seq; [done|].
  intros [[Hseq Hprev Hh Hp Hkey (bs & Hb & Hsig & _)] Hes]. simpl.
  rewrite Hh. simpl. rewrite !bool_decide_true by done. simpl. rewrite Hkey, Hk, Hb. simpl.
  rewrite Hsig, Hs. by eapply IH.
Qed.

Lemma verify_page prev seq es cursor limit :
  signer_trusted -> chained prev seq es ->
  exists h, verify_events verification_keys signature_valid
    (firstn limit (order_by_sequence (filter (fun e => cursor < sequence e) es))) = Ok h.
Proof.
  intros Ht Hc. rewrite (chained_filter _ _ _ _ Hc).
  destruct (chained_drop _ _ _ (Z.to_nat (cursor - seq)) Hc) as (p & s & Hd).
  rewrite (chained_order _ _ _ Hd). apply (chained_take _ _ _ limit) in Hd.
  set (page := firstn _ _) in *. clearbody page. unfold verify_events.
  destruct page as [|e r] eqn:E; [by eexists|].
  destruct Hd as [Hl Hr]. rewrite (link_previous _ _ _ Hl).
  eexists. eapply verify_chained; [done|]. split; [exact Hl | exact Hr].
Qed.

Lemma verify_loop_step e r prev h :
  verify_loop verification_keys signature_valid (e :: r) prev = Ok h ->
  chained_hash prev (event_core_from_row e) = Ok (event_hash e) /\
  previous_event_hash e = prev /\
  verify_loop verification_keys signature_valid r (Some (event_hash e)) = Ok h.
Proof.
  simpl. intros E. bind_inv E. destruct (_ || _) eqn:Eb; [done|]. bool_prop. subst.
  destruct (dget _ _) as [k|]; [|done]. bind_inv E. destruct (signature_valid _ _ _); [|done].
  by rewrite Ha.
Qed.

Lemma verify_snoc es e prev h :
  verify_loop verification_keys signature_valid (es ++ [e]) prev = Ok h ->
  chained_hash (last_hash prev es) (event_core_from_row e) = Ok (event_hash e) /\
  h = Some (event_hash e) /\
  verify_loop verification_keys signature_valid es prev = Ok (last_hash prev es).
Proof.
  revert prev. induction es as [|x es IH]; intros prev E.
  - apply verify_loop_step in E as (Hh & _ & E). simpl in E. by inv E.
  - change ((x :: es) ++ [e]) with (x :: (es ++ [e])) in E.
    pose proof E as E'. apply verify_loop_step in E as (Hx & Hp & E).
    apply IH in E as (Hh & Hl & E). split; [exact Hh|]. split; [done|].
    simpl in *. rewrite Hx in *. simpl in *. rewrite !bool_decide_true in * by done. simpl in *.
    destruct (dget _ _) as [k|]; [|done]. destruct (encode _) as [bs|]; [|done]. simpl in *.
    destruct (signature_valid _ _ _); [|done]. exact E.
Qed.

(** The last hash of a verified history is a digest. *)
Lemma verify_last_digest es prev h :
  es ≠ [] -> verify_loop verification_keys signature_valid es prev = Ok h ->
  exists m, last_hash prev es = Some (Sha256.hexdigest m).
Proof.
  intros Hne E. destruct es as [|e es] using rev_ind; [done|].
  apply verify_snoc in E as (Hh & _ & _). rewrite last_hash_snoc.
  apply chained_hash_bytes in Hh as (bs & _ & ->). eauto.
Qed.

(** Two records with the same canonical encoding and the same hash. *)
Definition same_record (e f : event) : Prop :=
  event_hash e = event_hash f /\
  encode (PDict (event_core_from_row e)) = encode (PDict (event_core_from_row f)).

(** At some position the two histories hash different bytes to one digest. *)
Definition collision_within (prev : option string) (es fs : list event) : Prop :=
  exists n e f, es !! n = Some e /\ fs !! n = Some f /\
    collides (last_hash prev (firstn n es)) (event_core_from_row e)
             (last_hash prev (firstn n fs)) (event_core_from_row f).

Lemma collision_within_snoc prev es fs e f :
  length es = length fs -> collision_within prev es fs ->
  collision_within prev (es ++ [e]) (fs ++ [f]).
Proof.
  intros Hl (n & x & y & Hx & Hy & Hc). exists n, x, y.
  pose proof (lookup_lt_Some _ _ _ Hx). pose proof (lookup_lt_Some _ _ _ Hy).
  rewrite !lookup_app_l, !take_app_le by lia. done.
Qed.

Lemma collision_at_end prev es fs e f :
  length es = length fs ->
  collides (last_hash prev es) (event_core_from_row e)
           (last_hash prev fs) (event_core_from_row f) ->
  collision_within prev (es ++ [e]) (fs ++ [f]).
Proof.
  intros Hl Hc. exists (length es), e, f. rewrite take_app_length.
  rewrite Hl at 2 3. rewrite take_app_length.
  rewrite !list_lookup_middle by done. done.
Qed.

Lemma verified_unique es fs prev h :
  length es = length fs ->
  verify_loop verification_keys signature_valid es prev = Ok h ->
  verify_loop verification_keys signature_valid fs prev = Ok h ->
  collision_within prev es fs \/ Forall2 same_record es fs.
Proof.
  revert fs h. induction es as [|e es IH] using rev_ind; intros fs h Hl E F.
  { destruct fs; [right; constructor | done]. }
  destruct fs as [|f fs _] using rev_ind; [rewrite length_app in Hl; simpl in Hl; lia|].
  rewrite !length_app in Hl. simpl in Hl. assert (Hl' : length es = length fs) by lia.
  apply verify_snoc in E as (He & -> & E). apply verify_snoc in F as (Hf & [= Hef] & F).
  rewrite <- Hef in Hf.
  assert (Hstep : collides (last_hash prev es) (event_core_from_row e)
                           (last_hash prev fs) (event_core_from_row f) \/
    (last_hash prev es = last_hash prev fs /\
     encode (PDict (event_core_from_row e)) = encode (PDict (event_core_from_row f)))).
  { destruct (decide (es = [])) as [->|Hne].
    - destruct fs; [|done]. destruct (chained_same_inj _ _ _ _ He Hf); [by left | by right].
    - destruct (decide (fs = [])) as [->|Hnf]; [by destruct es|].
      destruct (verify_last_digest es prev _ Hne E) as [m1 H1].
      destruct (verify_last_digest fs prev _ Hnf F) as [m2 H2].
      rewrite H1, H2 in *. destruct (chained_digest_inj _ _ _ _ _ He Hf) as [|[Hm Hc]]; [by left|].
      right. split; [congruence | done]. }
  destruct Hstep as [|[Hlast Henc]]; [left; by apply collision_at_end|].
  destruct (IH fs (last_hash prev es)) as [|Hall]; [done | done | by rewrite Hlast | |].
  - left. by apply collision_within_snoc.
  - right. apply Forall2_app; [done|]. constructor; [by split | constructor].
Qed.

(** C33: the ledger is tamper-evident: two histories of the same length that
    start from the same hash and verify to the same final hash consist of the
    same records, event by event (same hash, same canonical encoding of every
    signed field), unless at some position the two histories hash different
    bytes to the same SHA-256 digest. *)
Theorem history_tamper_evident es fs prev h :
  length es = length fs ->
  (previous_event_hash <$> head es) = Some prev ->
  (previous_event_hash <$> head fs) = Some prev ->
  verify_events verification_keys signature_valid es = Ok h ->
  verify_events verification_keys signature_valid fs = Ok h ->
  collision_within prev es fs \/ Forall2 same_record es fs.
Proof.
  intros Hl He Hf E F. unfold verify_events in E, F.
  destruct es as [|e es], fs as [|f fs]; try done.
  simpl in He, Hf. injection He as He. injection Hf as Hf. rewrite He in E. rewrite Hf in F.
  by eapply verified_unique.
Qed.
End verify.
End chain.
