(* ===== verification/LedgerInvariant.v ===== *)
(** The invariant of the durable ledger and its preservation by every writer:
    contiguous signed chains, aggregate counters, unique idempotency keys, and
    a projection that is the replay of the events. *)
From S2P Require Import Prelude PyDict PyStr PyVal PyJson PyTime.
From S2P Require Import Canonical Transitions Ledger Reducer Facade LedgerChain.

(** * What one reduction step keeps *)

Lemma append_to_keeps key x st st' k :
  k ≠ key -> append_to key x st = Ok st' -> dget k st' = dget k st.
Proof.
  intros Hk. unfold append_to. destruct (pget_or _ _ _); try done. intros E.
  bind_inv E. injection E as <-. by rewrite dget_dset_ne.
Qed.

Lemma assign_in_keeps name key x st st' k :
  k ≠ name -> assign_in name key x st = Ok st' -> dget k st' = dget k st.
Proof.
  intros Hk. unfold assign_in. destruct (pget_or _ _ _), key; try done.
  intros [= <-]. by rewrite dget_dset_ne.
Qed.

(** The keys of the workflow state in a projection. *)
Definition state_key (k : string) : Prop := k = "current_state" \/ k = "cancellation_state".

Ltac keep_key Hk := repeat rewrite dget_dset_ne by (by destruct Hk as [-> | ->]).

Lemma reduce_receipt_keeps p st st' k :
  state_key k -> reduce_receipt p st = Ok st' -> dget k st' = dget k st.
Proof.
  intros Hk. unfold reduce_receipt. intros E. bind_inv E. destruct a.
  { bind_inv E. injection E as <-. by keep_key Hk. }
  bind_inv E. destruct a.
  { bind_inv E. bind_inv E. injection E as <-. by keep_key Hk. }
  bind_inv E. destruct a; [|by inv E]. bind_inv E. bind_inv E. injection E as <-. by keep_key Hk.
Qed.

Lemma reduce_transition_state p st st' :
  reduce_transition p st = Ok st' ->
  (exists cur, dget "current_state" st = Some cur /\
     dget "current_state" st' = Some (pget_or "to_state" cur p)) /\
  dget "cancellation_state" st' = dget "cancellation_state" st.
Proof.
  unfold reduce_transition. intros E. bind_inv E. unfold pitem in Ha.
  destruct (dget "current_state" st) as [cur|] eqn:Ec; [|done]. injection Ha as ->.
  bind_inv E. rename a0 into u.
  assert (Hu : dget "current_state" u = Some (pget_or "to_state" a p) /\
               dget "cancellation_state" u = dget "cancellation_state" st).
  { destruct (_ && _).
    - bind_inv Ha. injection Ha as <-. rewrite !dget_dset. by str_lits.
    - injection Ha as <-. rewrite !dget_dset. by str_lits. }
  destruct Hu as [Hu1 Hu2]. bind_inv E.
  assert (H : st' = u \/ (exists x, st' = dset "definition" x u)
              \/ exists x, st' = dset "evaluation" x u).
  { destruct a0; [bind_inv E; injection E as <-; eauto|]. bind_inv E.
    destruct a0; [bind_inv E; injection E as <-; eauto | injection E as <-; eauto]. }
  split; [exists a; split; [done|]|];
    destruct H as [-> | [[x ->] | [x ->]]]; rewrite ?dget_dset_ne by done; done.
Qed.

Lemma reduce_defined_keeps p st st' k :
  state_key k -> reduce_defined p st = Ok st' -> dget k st' = dget k st.
Proof.
  intros Hk. unfold reduce_defined. intros E. bind_inv E. bind_inv E. injection E as <-.
  by keep_key Hk.
Qed.

Lemma reduce_enrollment_keeps p st st' k :
  state_key k -> reduce_enrollment p st = Ok st' -> dget k st' = dget k st.
Proof.
  intros Hk. unfold reduce_enrollment. intros E. do 6 bind_inv E.
  etrans; [eapply assign_in_keeps; [|exact E] | eapply append_to_keeps; [|exact Ha1]];
    by destruct Hk as [-> | ->].
Qed.

Lemma reduce_observation_keeps n p st st' k :
  state_key k -> reduce_observation n p st = Ok st' -> dget k st' = dget k st.
Proof.
  intros Hk. unfold reduce_observation. intros E. do 3 bind_inv E.
  destruct (pget_or _ _ _); try done. do 4 bind_inv E. injection E as <-. keep_key Hk.
  eapply append_to_keeps; [|exact Ha0]. by destruct Hk as [-> | ->].
Qed.

(** The workflow state a reduction leaves in the projection. *)
Definition next_current (t : string) (p : dict pyval) (cur : pyval) : pyval :=
  if bool_decide (t = "transition") then pget_or "to_state" cur p else cur.
Definition next_cancellation (t : string) (c : pyval) : pyval :=
  if bool_decide (t = "cancellation_requested") then PStr "requested" else c.

Lemma reduce_type_state e st st' cur c :
  dget "current_state" st = Some cur -> dget "cancellation_state" st = Some c ->
  reduce_type e st = Ok st' ->
  dget "current_state" st' = Some (next_current (event_type e) (payload e) cur) /\
  dget "cancellation_state" st' = Some (next_cancellation (event_type e) c).
Proof.
  intros Hcur Hc. unfold reduce_type, next_current, next_cancellation.
  case_bool_decide as Ht.
  { intros E. apply reduce_transition_state in E as [(? & Hx & E1) E2].
    rewrite Hx in Hcur. injection Hcur as ->. rewrite E1, E2, Hc, Ht. done. }
  case_bool_decide. { intros [= <-]. by rewrite dget_dset_eq, dget_dset_ne. }
  rewrite <- Hcur, <- Hc.
  assert (K1 : state_key "current_state") by (by left).
  assert (K2 : state_key "cancellation_state") by (by right).
  case_bool_decide.
  { intros E. split; by eapply reduce_defined_keeps. }
  case_bool_decide.
  { intros E. split; by eapply reduce_enrollment_keeps. }
  case_bool_decide.
  { intros E. split; by eapply reduce_observation_keeps. }
  case_bool_decide; intros [= <-]; [by rewrite !dget_dset_ne | done].
Qed.

Lemma reduce_v1_state e st st' cur c :
  dget "current_state" st = Some cur -> dget "cancellation_state" st = Some c ->
  reduce_v1 st e = Ok st' ->
  dget "current_state" st' = Some (next_current (event_type e) (payload e) cur) /\
  dget "cancellation_state" st' = Some (next_cancellation (event_type e) c).
Proof.
  intros Hcur Hc E. unfold reduce_v1 in E. bind_inv E. bind_inv E. injection E as <-.
  rewrite !dget_dset_ne by done. eapply reduce_type_state in Ha as [H1 H2]; [|done..].
  rewrite (reduce_receipt_keeps _ _ _ _ (or_introl eq_refl) Ha0).
  rewrite (reduce_receipt_keeps _ _ _ _ (or_intror eq_refl) Ha0). done.
Qed.

(** * Replay of a chain *)

Fixpoint fold_state (st : dict pyval) (es : list event) : res (dict pyval) :=
  match es with
  | [] => Ok st
  | e :: r => st' ← reduce_v1 st e; fold_state st' r
  end.

Lemma fold_state_snoc st es e st1 st2 :
  fold_state st es = Ok st1 -> reduce_v1 st1 e = Ok st2 ->
  fold_state st (es ++ [e]) = Ok st2.
Proof.
  revert st. induction es as [|x es IH]; simpl; intros st E1 E2.
  - injection E1 as <-. by rewrite E2.
  - bind_inv E1. rewrite Ha. simpl. by apply IH.
Qed.

Lemma py_opt_eq o : py_eq (py_opt o) (py_opt o) = true.
Proof. destruct o; simpl; [by rewrite bool_decide_true | done]. Qed.

(** Replaying a chain up to [target] reduces the prefix that ends there. *)
Lemma replay_chain pf prev seq es target st :
  chained pf prev seq es -> seq <= target <= seq + Z.of_nat (length es) ->
  replay_loop reduce_v1 es target st seq (py_opt prev) =
  (s ← fold_state st (firstn (Z.to_nat (target - seq)) es);
   Ok (s, target, py_opt (last_hash prev (firstn (Z.to_nat (target - seq)) es)))).
Proof.
  revert prev seq st. induction es as [|e es IH]; intros prev seq st Hc Ht.
  - simpl in Ht. assert (target = seq) as -> by lia. by rewrite firstn_nil.
  - destruct Hc as [Hl Hc]. cbn [replay_loop]. rewrite (link_sequence _ _ _ _ Hl).
    rewrite (link_previous _ _ _ _ Hl), py_opt_eq, Z.eqb_refl. cbn [negb].
    destruct (target <? seq + 1) eqn:Et; bool_prop.
    + assert (target = seq) as -> by lia. by rewrite Z.sub_diag.
    + replace (Z.to_nat (target - seq)) with (S (Z.to_nat (target - (seq + 1)))) by lia.
      cbn [firstn fold_state]. destruct (reduce_v1 st e) as [st'|ex] eqn:Er; [|done].
      cbn [mbind res_bind]. simpl in Ht. rewrite (IH (Some (event_hash e))); [done | done | lia].
Qed.

(** * The invariant *)

Definition genesis (s0 : string) : dict pyval :=
  [("current_state", PStr s0); ("cancellation_state", PNone);
   ("last_sequence", PInt 0); ("last_event_hash", PNone)].

Section invariant.
Variable pf : platform.

(** The projection of a workflow agrees with its events and its instance. *)
Record projection_ok (i : instance) (es : list event) (p : projection) (s0 : string) : Prop := {
  po_sequence : p_last_sequence p = Z.of_nat (length es);
  po_replay : fold_state (genesis s0) es = Ok (p_state p);
  po_hash : sha256_hex (PDict (p_state p)) = Ok (p_state_hash p);
  po_current : dget "current_state" (p_state p) = Some (PStr (i_current_state i));
  po_cancel : dget "cancellation_state" (p_state p) = Some (py_opt (i_cancellation_state i));
}.

Record workflow_ok (l : ledger) (w : string) (i : instance) : Prop := {
  wo_id : i_workflow_id i = w;
  wo_chain : chained pf None 0 (events_of w l);
  wo_sequence : i_current_sequence i = Z.of_nat (length (events_of w l));
  wo_hash : i_current_event_hash i = last_hash None (events_of w l);
  wo_count : i_event_count i = Z.of_nat (length (events_of w l)) /\
             i_event_count i <= MAX_EVENT_COUNT;
  wo_bytes : i_canonical_event_bytes i = sum_canonical_bytes (events_of w l) /\
             i_canonical_event_bytes i <= MAX_EVENT_BYTES;
  wo_projection : exists s0,
    match dget w (projections l) with
    | Some p => projection_ok i (events_of w l) p s0
    | None => events_of w l = [] /\ i_current_state i = s0 /\ i_cancellation_state i = None
    end;
}.

Record ledger_ok (l : ledger) : Prop := {
  lo_workflows : forall w i, dget w (instances l) = Some i -> workflow_ok l w i;
  lo_events : forall e, e ∈ events l -> is_Some (dget (workflow_id e) (instances l));
  lo_keys : forall e f, e ∈ events l -> f ∈ events l -> workflow_id e = workflow_id f ->
            idempotency_key e = idempotency_key f -> e = f;
  lo_projections : forall w p, dget w (projections l) = Some p -> is_Some (dget w (instances l));
}.

Lemma ledger_ok_empty : ledger_ok empty_ledger.
Proof. split; simpl; try done; intros; set_solver. Qed.

Lemma events_of_snoc w es e :
  filter (fun x => workflow_id x = w) (es ++ [e]) =
  filter (fun x => workflow_id x = w) es ++ (if bool_decide (workflow_id e = w) then [e] else []).
Proof.
  rewrite filter_app. f_equal. rewrite filter_cons. by case_bool_decide; case_decide.
Qed.

(** * Opening an instance *)

Lemma dget_Some_existsb {V} (P : V -> bool) k v (d : dict V) :
  dget k d = Some v -> P v = true -> existsb (fun kv => P kv.2) d = true.
Proof.
  intros Hd Hp. apply existsb_exists. exists (k, v). split; [|done].
  by apply list_elem_of_In, dget_in.
Qed.

Lemma insert_instance_inv l i u l' :
  ledger_ok l -> insert_instance (pf_octets pf) i l = (Ok u, l') ->
  dget (i_workflow_id i) (instances l) = None /\
  l' = mkLedger (dset (i_workflow_id i) i (instances l)) (events l) (projections l).
Proof.
  intros Hok. unfold insert_instance. destruct (negb _); [done|].
  destruct (existsb _ _) eqn:Ec; [done|]. intros [= _ <-]. split; [|done].
  destruct (dget (i_workflow_id i) (instances l)) as [j|] eqn:E; [|done].
  rewrite (dget_Some_existsb (instance_conflict i) (i_workflow_id i) j) in Ec; [done | exact E |].
  unfold instance_conflict. rewrite (wo_id _ _ _ (lo_workflows _ Hok _ _ E)).
  by rewrite bool_decide_true.
Qed.

Lemma no_events l w :
  ledger_ok l -> dget w (instances l) = None -> events_of w l = [].
Proof.
  intros Hok Hn. unfold events_of. destruct (filter _ (events l)) as [|e r] eqn:E; [done|].
  assert (Hin : e ∈ filter (fun e => workflow_id e = w) (events l)) by (rewrite E; by left).
  apply list_elem_of_filter in Hin as [<- Hin]. apply lo_events in Hin as [i Hi]; [|done].
  congruence.
Qed.

Lemma insert_instance_ok l i u l' :
  ledger_ok l -> i_current_sequence i = 0 -> i_current_event_hash i = None ->
  i_event_count i = 0 -> i_canonical_event_bytes i = 0 -> i_cancellation_state i = None ->
  insert_instance (pf_octets pf) i l = (Ok u, l') -> ledger_ok l'.
Proof.
  intros Hok H1 H2 H3 H4 H5 E. apply insert_instance_inv in E as [Hn ->]; [|done].
  pose proof (no_events _ _ Hok Hn) as Hev.
  split; simpl.
  - intros w j. rewrite dget_dset. case_bool_decide as Hw.
    + intros [= <-]. subst w.
      assert (Hp : dget (i_workflow_id i) (projections l) = None).
      { destruct (dget _ (projections l)) as [p|] eqn:Ep; [|done].
        apply (lo_projections _ Hok) in Ep as [? ?]. congruence. }
      set (l' := mkLedger _ _ _). assert (Hev' : events_of (i_workflow_id i) l' = []) by exact Hev.
      split; rewrite ?Hev'; [done | done | done | done | by rewrite H3 | by rewrite H4 |].
      exists (i_current_state i). subst l'. simpl. by rewrite Hp.
    + intros Hj. destruct (lo_workflows _ Hok _ _ Hj). by split.
  - intros e He. rewrite dget_dset. case_bool_decide; [by eexists|]. by apply (lo_events _ Hok).
  - apply (lo_keys _ Hok).
  - intros w p Hp. rewrite dget_dset. case_bool_decide; [by eexists|].
    by apply (lo_projections _ Hok w p).
Qed.

(** * Writing one event *)

(** The optional arguments of an append agree with what the reducer derives
    from the event type and the payload. *)
Definition options_agree (t : string) (p : dict pyval) (o : append_options)
    (locked : instance) : Prop :=
  PStr (str_or (default "" (o_current_state o)) (i_current_state locked))
    = next_current t p (PStr (i_current_state locked)) /\
  py_opt (match o_cancellation_state o with
          | Some c => Some c | None => i_cancellation_state locked end)
    = next_cancellation t (py_opt (i_cancellation_state locked)).

(** The instance after an append. *)
Definition appended (e : event) (o : append_options) (locked : instance) : instance :=
  advanced (event_hash e) (canonical_bytes e)
    (str_or (default "" (o_current_state o)) (i_current_state locked))
    (default (i_terminal locked) (o_terminal o)) (o_next_durable_deadline o)
    (match o_cancellation_state o with
     | Some c => Some c | None => i_cancellation_state locked end) locked.

Lemma insert_event_inv e l u l' :
  insert_event (pf_octets pf) e l = (Ok u, l') ->
  l' = mkLedger (instances l) (events l ++ [e]) (projections l) /\
  is_Some (dget (workflow_id e) (instances l)) /\
  forall f, f ∈ events l -> event_conflict e f = false.
Proof.
  unfold insert_event. destruct (negb _); [done|]. destruct (existsb _ _) eqn:Ec; [done|].
  unfold dmem. destruct (dget _ _) as [i|] eqn:Ei; [|done]. intros [= _ <-].
  split_and!; [done | by eexists |]. intros f Hf.
  destruct (event_conflict e f) eqn:E; [|done]. rewrite <- Ec. symmetry.
  apply existsb_exists. exists f. split; [by apply list_elem_of_In | done].
Qed.

Lemma advance_instance_inv w i n h b cur t d c l u l' :
  dget w (instances l) = Some i -> i_current_sequence i = n ->
  advance_instance w n h b cur t d c l = (Ok u, l') ->
  l' = mkLedger (dset w (advanced h b cur t d c i) (instances l)) (events l) (projections l) /\
  i_event_count (advanced h b cur t d c i) <= MAX_EVENT_COUNT /\
  i_canonical_event_bytes (advanced h b cur t d c i) <= MAX_EVENT_BYTES.
Proof.
  intros Hi Hn. unfold advance_instance. rewrite Hi, Hn, Z.eqb_refl. cbv zeta.
  destruct (_ && _) eqn:E; [|done]. bool_prop. intros [= _ <-]. done.
Qed.

Lemma upsert_projection_inv w p l u l' :
  (forall old, dget w (projections l) = Some old -> p_last_sequence p = p_last_sequence old + 1) ->
  upsert_projection (pf_octets pf) w p l = (Ok u, l') ->
  l' = mkLedger (instances l) (events l) (dset w p (projections l)).
Proof.
  intros Hold. unfold upsert_projection. destruct (_ || _); [done|].
  destruct (negb _); [done|]. destruct (dget w (projections l)) as [old|].
  - rewrite (Hold old) by done. rewrite Z.add_simpl_r, Z.eqb_refl. by intros [= _ <-].
  - by intros [= _ <-].
Qed.

(** Everything a successful [write_event] did. *)
Lemma write_event_inv locked contract stored o l u l' :
  ledger_ok l -> dget (i_workflow_id locked) (instances l) = Some locked ->
  sequence contract = i_current_sequence locked + 1 ->
  write_event pf locked contract stored o l = (Ok u, l') ->
  exists st st' h,
    prior_state locked (dget (i_workflow_id locked) (projections l)) = Ok st /\
    reduce_v1 st contract = Ok st' /\ sha256_hex (PDict st') = Ok h /\
    (forall f, f ∈ events l -> event_conflict stored f = false) /\
    i_event_count (appended contract o locked) <= MAX_EVENT_COUNT /\
    i_canonical_event_bytes (appended contract o locked) <= MAX_EVENT_BYTES /\
    l' = mkLedger (dset (i_workflow_id locked) (appended contract o locked) (instances l))
           (events l ++ [stored])
           (dset (i_workflow_id locked)
              (mkProjection (sequence contract) (i_reducer_version locked) h st')
              (projections l)).
Proof.
  intros Hok Hi Hseq E. unfold write_event in E.
  apply st_bind_Ok_inv in E as (u1 & l1 & E1 & E).
  apply insert_event_inv in E1 as (-> & _ & Hconf).
  apply st_bind_Ok_inv in E as (u2 & l2 & E2 & E).
  destruct (advance_instance_inv _ locked _ _ _ _ _ _ _
    (mkLedger (instances l) (events l ++ [stored]) (projections l)) _ _ Hi eq_refl E2)
    as (-> & Hc & Hb).
  clear E2.
  apply st_bind_Ok_inv in E as (prior & l3 & [= <- <-] & E). simpl in E.
  apply st_bind_Ok_inv in E as (st & l4 & [= Hst <-] & E).
  apply st_bind_Ok_inv in E as ([st' h] & l5 & [= Hp <-] & E).
  unfold project in Hp. bind_inv Hp. bind_inv Hp. injection Hp as -> ->.
  exists st, st', h. refine (conj Hst (conj Ha (conj Ha0 (conj Hconf (conj Hc (conj Hb _)))))).
  apply upsert_projection_inv in E; [exact E|]. simpl. intros old Hold.
  unfold prior_state in Hst. rewrite Hold in Hst.
  destruct (negb _) eqn:En; [done|]. bool_prop. lia.
Qed.

Lemma prior_state_ok l locked st :
  ledger_ok l -> dget (i_workflow_id locked) (instances l) = Some locked ->
  prior_state locked (dget (i_workflow_id locked) (projections l)) = Ok st ->
  exists s0, fold_state (genesis s0) (events_of (i_workflow_id locked) l) = Ok st /\
    dget "current_state" st = Some (PStr (i_current_state locked)) /\
    dget "cancellation_state" st = Some (py_opt (i_cancellation_state locked)).
Proof.
  intros Hok Hi Hst. destruct (lo_workflows _ Hok _ _ Hi) as [_ Hch Hs Hh _ _ (s0 & Hp)].
  exists s0. destruct (dget _ (projections l)) as [p|].
  - unfold prior_state in Hst. destruct (negb _); [done|]. injection Hst as <-.
    destruct Hp. done.
  - destruct Hp as (He & Hc & Hn). unfold prior_state in Hst. destruct (negb _); [done|].
    injection Hst as <-. unfold initial_projection. rewrite He in *. simpl in Hs, Hh.
    rewrite Hc, Hn, Hs, Hh. done.
Qed.

(** * One append *)

(** The event [e] is the outcome of an append of [t], [p] under [key]. *)
Record appended_event (locked : instance) (t key : string) (a p : dict pyval) (e : event)
    : Prop := {
  ae_workflow : workflow_id e = i_workflow_id locked;
  ae_sequence : sequence e = i_current_sequence locked + 1;
  ae_type : event_type e = t;
  ae_key : idempotency_key e = key;
  ae_actor : actor e = a;
  ae_payload : payload e = p;
}.

Lemma build_signed_event_link ev locked t a p e prev seq :
  i_current_event_hash locked = prev -> i_current_sequence locked = seq ->
  build_signed_event pf ev locked t a p = Ok e ->
  link pf prev (seq + 1) e /\ workflow_id e = i_workflow_id locked /\
  event_type e = t /\ actor e = a /\ payload e = p.
Proof.
  intros <- <- E. unfold build_signed_event in E. bind_inv E. bind_inv E. bind_inv E.
  injection E as <-. split; [|done].
  split; simpl; [done | done | exact Ha0 | exact Ha | done |].
  exists a2. split; [exact Ha1 | done].
Qed.

Lemma stored_link prev seq e key timer message :
  link pf prev seq e -> link pf prev seq (stored_event e key timer message).
Proof. by intros []. Qed.

Lemma events_of_other w l e ins ps :
  workflow_id e ≠ w -> events_of w (mkLedger ins (events l ++ [e]) ps) = events_of w l.
Proof.
  intros Hne. unfold events_of. cbn [events].
  rewrite events_of_snoc, bool_decide_false by done. by rewrite app_nil_r.
Qed.

Lemma events_of_same w l e ins ps :
  workflow_id e = w -> events_of w (mkLedger ins (events l ++ [e]) ps) = events_of w l ++ [e].
Proof. intros Hw. unfold events_of. cbn [events]. by rewrite events_of_snoc, bool_decide_true. Qed.

Lemma reduce_stored st e key timer message :
  reduce_v1 st (stored_event e key timer message) = reduce_v1 st e.
Proof. done. Qed.

Lemma write_event_ok locked contract key timer message o l u l' prev :
  ledger_ok l -> dget (i_workflow_id locked) (instances l) = Some locked ->
  prev = last_hash None (events_of (i_workflow_id locked) l) ->
  link pf prev (i_current_sequence locked + 1) contract ->
  workflow_id contract = i_workflow_id locked ->
  options_agree (event_type contract) (payload contract) o locked ->
  write_event pf locked contract (stored_event contract key timer message) o l = (Ok u, l') ->
  ledger_ok l' /\
  instances l' = dset (i_workflow_id locked) (appended contract o locked) (instances l) /\
  events l' = events l ++ [stored_event contract key timer message].
Proof.
  intros Hok Hi Hprev Hlink Hw [Hcur Hcan] E.
  set (w := i_workflow_id locked) in *. set (e := stored_event contract key timer message) in *.
  apply write_event_inv in E as (st & st' & h & Hst & Hred & Hh & Hconf & Hc & Hb & ->);
    [|done | done | by apply (link_sequence _ _ _ _ Hlink)].
  fold w in Hst. split; [|done].
  apply prior_state_ok in Hst as (s0 & Hfold & Hc0 & Hk0); [|done|done].
  pose proof (reduce_v1_state _ _ _ _ _ Hc0 Hk0 Hred) as [Hc1 Hk1].
  pose proof (lo_workflows _ Hok _ _ Hi) as Hwo. fold w in Hwo.
  assert (Hwe : workflow_id e = w) by done.
  assert (Hwl : w = i_workflow_id locked) by done.
  set (l2 := mkLedger _ _ _).
  assert (Hes : events_of w l2 = events_of w l ++ [e]) by (by apply events_of_same).
  assert (Hlen : Z.of_nat (length (events_of w l ++ [e]))
                 = Z.of_nat (length (events_of w l)) + 1) by (rewrite length_app; simpl; lia).
  split; [|subst l2; simpl..].
  - intros w' i' Hg. assert (Hg' := Hg). subst l2. cbn [instances] in Hg'.
    set (l2 := mkLedger _ _ _) in *. rewrite dget_dset in Hg'. revert Hg'.
    case_bool_decide as Hww.
    + intros [= <-]. rewrite Hww. fold w. destruct Hwo as [Hid Hch Hseq Hhash [Hcnt _] [Hbytes _] _].
      split; rewrite ?Hes.
      * done.
      * apply chained_app. split; [done|]. split; [|done]. rewrite <- Hprev, Z.add_0_l, <- Hseq.
        by apply stored_link.
      * rewrite Hlen. simpl. lia.
      * by rewrite last_hash_snoc.
      * split; [|exact Hc]. rewrite Hlen. simpl. lia.
      * split; [|exact Hb]. rewrite sum_bytes_snoc, <- Hbytes. done.
      * exists s0. unfold l2. cbn [projections]. rewrite dget_dset_eq. split; cbn [p_last_sequence p_state p_state_hash].
        -- rewrite Hlen, <- Hseq. apply (link_sequence _ _ _ _ Hlink).
        -- eapply fold_state_snoc; [exact Hfold | subst e; by rewrite reduce_stored].
        -- exact Hh.
        -- rewrite Hc1, <- Hcur. done.
        -- rewrite Hk1, <- Hcan. done.
    + intros Hi'. destruct (lo_workflows _ Hok _ _ Hi').
      assert (Hes' : events_of w' l2 = events_of w' l) by (apply events_of_other; congruence).
      split; rewrite ?Hes'; try done. unfold l2. cbn [projections]. by rewrite dget_dset_ne.
  - intros f Hf. rewrite dget_dset. case_bool_decide; [by eexists|].
    apply list.elem_of_app in Hf as [Hf|Hf]; [by apply (lo_events _ Hok)|].
    apply list_elem_of_singleton in Hf. congruence.
  - intros f g Hf Hg Hfg Hkey.
    assert (Hex : forall g, g ∈ events l -> workflow_id g = w -> idempotency_key g ≠ key).
    { intros g' Hg' Hgw Hgk. specialize (Hconf _ Hg'). unfold event_conflict in Hconf.
      rewrite (bool_decide_true (workflow_id e = workflow_id g')) in Hconf by congruence.
      rewrite (bool_decide_true (idempotency_key e = idempotency_key g')) in Hconf
        by (by rewrite Hgk).
      by destruct (bool_decide (event_id e = _)), (sequence e =? _). }
    apply list.elem_of_app in Hf as [Hf|Hf%list_elem_of_singleton];
    apply list.elem_of_app in Hg as [Hg|Hg%list_elem_of_singleton].
    + by apply (lo_keys _ Hok).
    + subst g. destruct (Hex f Hf); [congruence | done].
    + subst f. destruct (Hex g Hg); [congruence | by rewrite <- Hkey].
    + congruence.
  - intros w' p. rewrite !dget_dset. case_bool_decide; [by eexists|].
    by apply (lo_projections _ Hok).
Qed.

Lemma find_idempotent_inv w key l r l' :
  find_idempotent_event w key l = (Ok r, l') ->
  l' = l /\ match r with
            | Some e => e ∈ events l /\ workflow_id e = w /\ idempotency_key e = key
            | None => forall e, e ∈ events l -> workflow_id e = w -> idempotency_key e ≠ key
            end.
Proof.
  unfold find_idempotent_event, gets_st. intros [= <- <-]. split; [done|].
  destruct (filter _ (events l)) as [|e r] eqn:E; simpl.
  - intros e He Hw Hk. assert (Hin : e ∈ filter (fun e => workflow_id e = w /\
      idempotency_key e = key) (events l)) by (by apply list_elem_of_filter).
    rewrite E in Hin. by apply not_elem_of_nil in Hin.
  - assert (Hin : e ∈ filter (fun e => workflow_id e = w /\ idempotency_key e = key) (events l))
      by (rewrite E; by left).
    apply list_elem_of_filter in Hin. tauto.
Qed.

(** [_append_locked]: either the event was there already, or exactly one event
    is added and the invariant is kept. *)
Lemma append_locked_ok ev locked t key a p o l e l' :
  ledger_ok l -> dget (i_workflow_id locked) (instances l) = Some locked ->
  options_agree t p o locked ->
  _append_locked pf ev locked t key a p o l = (Ok e, l') ->
  ledger_ok l' /\ i_terminal locked = false /\
  ((l' = l /\ e ∈ events l /\ workflow_id e = i_workflow_id locked /\ idempotency_key e = key)
   \/ (appended_event locked t key a p e /\ events l' = events l ++ [e] /\
       instances l' = dset (i_workflow_id locked) (appended e o locked) (instances l))).
Proof.
  intros Hok Hi Hag E. unfold _append_locked in E.
  destruct (i_terminal locked) eqn:Et; [done|].
  apply st_bind_Ok_inv in E as (ph & l1 & [= _ <-] & E).
  apply st_bind_Ok_inv in E as (prior & l2 & Ef & E).
  apply find_idempotent_inv in Ef as [-> Hprior]. destruct prior as [q|].
  - destruct (_ && _); [|done]. inv E. split; [done|]. split; [done|]. by left.
  - apply st_bind_Ok_inv in E as (contract & l2 & [= Eb <-] & E).
    destruct (segment_full _ _ _); [done|]. destruct (rollover_too_large _ _ _); [done|].
    apply st_bind_Ok_inv in E as (u1 & l3 & [= _ <-] & E).
    apply st_bind_Ok_inv in E as (timer & l4 & [= _ <-] & E).
    apply st_bind_Ok_inv in E as (message & l5 & [= _ <-] & E).
    apply st_bind_Ok_inv in E as (u2 & l6 & Ew & E). inv E.
    pose proof (lo_workflows _ Hok _ _ Hi) as Hwo.
    eapply build_signed_event_link in Eb as (Hlink & Hw & Ht & Ha & Hp);
      [|apply (wo_hash _ _ _ Hwo) | done].
    eapply write_event_ok in Ew as (Hok' & Hinst & Hev); [|done|done|done|exact Hlink|done|].
    2: { by rewrite Ht, Hp. }
    split; [done|]. split; [done|]. right. split; [|split; [done|exact Hinst]].
    split; simpl; try done. apply (link_sequence _ _ _ _ Hlink).
Qed.

End invariant.
