(* ===== verification/LedgerRuns.v ===== *)
(** Runs of the durable ledger: every public writer keeps the invariant and
    only extends what is there, and what follows for readers, retries and
    concurrent writers. *)
From S2P Require Import Prelude PyDict PyStr PyVal PyJson PyTime.
From S2P Require Import Canonical Transitions Ledger Reducer Facade LedgerChain LedgerInvariant.

(** * Extension of a ledger *)

(** What may happen to an instance: its sequence only grows, its identity
    stays, and a terminal instance never changes again. *)
Record instance_extends (l l' : ledger) (w : string) (i i' : instance) : Prop := {
  ie_sequence : i_current_sequence i <= i_current_sequence i';
  ie_identity : i_semantic_identity i' = i_semantic_identity i;
  ie_kind : i_workflow_kind i' = i_workflow_kind i;
  ie_terminal : i_terminal i = true -> i' = i /\ events_of w l' = events_of w l;
}.

Record extends (l l' : ledger) : Prop := {
  ex_events : events l `prefix_of` events l';
  ex_instances : forall w i, dget w (instances l) = Some i ->
    exists i', dget w (instances l') = Some i' /\ instance_extends l l' w i i';
}.

#[export] Instance extends_preorder : PreOrder extends.
Proof.
  split.
  - intros l. split; [done|]. intros w i Hi. exists i. split; [done|]. by split.
  - intros a b c [Hab Iab] [Hbc Ibc]. split; [by etrans|]. intros w i Hi.
    destruct (Iab w i Hi) as (j & Hj & [S1 D1 K1 T1]).
    destruct (Ibc w j Hj) as (k & Hk & [S2 D2 K2 T2]). exists k. split; [done|].
    split; [lia | congruence | congruence |]. intros Ht.
    destruct (T1 Ht) as [-> He]. destruct (T2 Ht) as [-> He']. split; [done | congruence].
Qed.

Section runs.
Variable pf : platform.
Variable registry : CompatibilityRegistry.

(** The invariant is kept and the ledger extended. *)
Definition sound (l l' : ledger) : Prop := ledger_ok pf l' /\ extends l l'.

Lemma sound_refl l : ledger_ok pf l -> sound l l.
Proof. intros H. split; [done | reflexivity]. Qed.

Lemma sound_trans a b c : sound a b -> (ledger_ok pf b -> sound b c) -> sound a c.
Proof. intros [Hb Hab] Hbc. destruct (Hbc Hb) as [Hc Hbc']. split; [done | by etrans]. Qed.

Lemma append_locked_sound ev locked t key a p o l e l' :
  ledger_ok pf l -> dget (i_workflow_id locked) (instances l) = Some locked ->
  options_agree t p o locked ->
  _append_locked pf ev locked t key a p o l = (Ok e, l') -> sound l l'.
Proof.
  intros Hok Hi Hag E.
  destruct (append_locked_ok pf _ _ _ _ _ _ _ _ _ _ Hok Hi Hag E)
    as (Hok' & Hterm & [(-> & _)|(Hae & Hev & Hin)]); [by apply sound_refl|].
  split; [done|]. split; [rewrite Hev; by apply prefix_app_r|].
  intros w i Hw. rewrite Hin, dget_dset. case_bool_decide as Heq; subst.
  - rewrite Hi in Hw. injection Hw as <-. eexists. split; [done|].
    split; simpl; [lia | done | done | congruence].
  - exists i. split; [done|]. split; try done. intros _. split; [done|].
    unfold events_of. rewrite Hev, events_of_snoc.
    rewrite bool_decide_false by (rewrite (ae_workflow _ _ _ _ _ _ Hae); congruence).
    by rewrite app_nil_r.
Qed.

Lemma instance_of_record_fresh record identity i :
  instance_of_record record identity = Ok i ->
  i_current_sequence i = 0 /\ i_current_event_hash i = None /\ i_event_count i = 0 /\
  i_canonical_event_bytes i = 0 /\ i_cancellation_state i = None /\
  i_semantic_identity i = identity /\ i_terminal i = false /\
  bind_text "workflow_id" record = Ok (i_workflow_id i) /\
  bind_text "current_state" record = Ok (i_current_state i) /\
  bind_text "workflow_kind" record = Ok (i_workflow_kind i).
Proof.
  unfold instance_of_record. intros E. do 17 bind_inv E. injection E as <-. simpl.
  by split_and!.
Qed.

Lemma insert_identity_sound identity state l i l' :
  ledger_ok pf l -> _insert_identity pf identity state l = (Ok i, l') ->
  sound l l' /\ dget (i_workflow_id i) (instances l) = None.
Proof.
  intros Hok E. unfold _insert_identity in E.
  apply st_bind_Ok_inv in E as (h & l1 & [= _ <-] & E).
  apply st_bind_Ok_inv in E as (row & l2 & [= Hrow <-] & E).
  apply st_bind_Ok_inv in E as (u & l3 & Ei & E).
  apply instance_of_record_fresh in Hrow as (F1 & F2 & F3 & F4 & F5 & _).
  pose proof (insert_instance_ok pf _ _ _ _ Hok F1 F2 F3 F4 F5 Ei) as Hok'.
  apply insert_instance_inv in Ei as [Hn ->]; [|done].
  unfold read_instance in E. simpl in E. rewrite dget_dset_eq in E. injection E as <- <-.
  split; [|done]. split; [done|]. split; [done|]. intros w j Hj. simpl. rewrite dget_dset.
  case_bool_decide; [congruence|]. exists j. split; [done|]. by split.
Qed.

(** * The append preamble *)

Lemma begin_append_inv w expected key m l locked retry l' :
  _begin_append w expected key m l = (Ok (locked, retry), l') ->
  l' = l /\ dget w (instances l) = Some locked /\
  match retry with
  | None => i_current_sequence locked = expected
  | Some e => i_current_sequence locked ≠ expected /\ e ∈ events l /\
              workflow_id e = w /\ idempotency_key e = key /\ m e = true
  end.
Proof.
  unfold _begin_append, lock_instance. intros E.
  apply st_bind_Ok_inv in E as (i & l1 & Ei & E). unfold read_instance in Ei.
  destruct (dget w (instances l)) as [i'|] eqn:Hi; [|done]. injection Ei as -> <-.
  destruct (i_current_sequence i =? expected) eqn:Es; bool_prop.
  { inv E. done. }
  apply st_bind_Ok_inv in E as (p & l2 & Ep & E). apply find_idempotent_inv in Ep as [-> Hp].
  destruct p as [p|]; [|done]. destruct (m p) eqn:Em; [|done]. inv E. naive_solver.
Qed.

(** No target of a transition is the empty text. *)
Lemma target_ne kind s t b : require_transition kind s t = Ok b -> t ≠ "".
Proof.
  intros H. apply require_transition_spec in H as (targets & next & _ & _ & Ht & _).
  intros ->. revert Ht. unfold table_of.
  destruct (dget kind TRANSITIONS) as [table|] eqn:E; [|done].
  destruct (kinds kind table E) as [->|[->| ->]]; vm_compute in E; injection E as <-; done.
Qed.

Lemma agree_target locked target o :
  target ≠ "" -> o_current_state o = Some target -> o_cancellation_state o = None ->
  forall p, pget_or "to_state" (PStr (i_current_state locked)) p = PStr target ->
  options_agree "transition" p o locked.
Proof.
  intros Hne Hc Hn p Hp. unfold options_agree, next_current, next_cancellation.
  rewrite Hc, Hn. simpl. unfold str_or. rewrite bool_decide_false by done. by rewrite Hp.
Qed.

Lemma agree_same t p o locked :
  t ≠ "transition" -> t ≠ "cancellation_requested" ->
  o_current_state o = None -> o_cancellation_state o = None -> options_agree t p o locked.
Proof.
  intros H1 H2 Hc Hn. unfold options_agree, next_current, next_cancellation.
  rewrite Hc, Hn, !bool_decide_false by done. done.
Qed.

Lemma agree_receipt typed o locked :
  o_current_state o = Some (i_current_state locked) -> o_cancellation_state o = None ->
  options_agree "transition" [("typed_receipt", typed)] o locked.
Proof.
  intros Hc Hn. unfold options_agree, next_current, next_cancellation. rewrite Hc, Hn. simpl.
  split; [|done]. unfold str_or. by case_bool_decide.
Qed.

(** The instance a writer locked is the row of its workflow. *)
Lemma locked_row l w i :
  ledger_ok pf l -> dget w (instances l) = Some i -> dget (i_workflow_id i) (instances l) = Some i.
Proof. intros Hok Hi. by rewrite (wo_id _ _ _ _ (lo_workflows _ _ Hok _ _ Hi)). Qed.

(** * The writers *)

Lemma append_transition_for_kind_sound ev w n target key a kind t l e l' :
  ledger_ok pf l ->
  _append_transition_for_kind pf ev w n target key a kind t l = (Ok e, l') -> sound l l'.
Proof.
  intros Hok E. unfold _append_transition_for_kind in E.
  apply st_bind_Ok_inv in E as ([locked retry] & l1 & Eb & E).
  apply begin_append_inv in Eb as (-> & Hi & _). destruct (negb _); [done|].
  destruct retry as [p|]; [inv E; by apply sound_refl|].
  apply st_bind_Ok_inv in E as (term & l2 & [= Hreq <-] & E).
  destruct (_ && _); [done|].
  apply st_bind_Ok_inv in E as (u & l3 & [= _ <-] & E).
  eapply append_locked_sound; [done | by eapply locked_row | | exact E].
  eapply agree_target; [by eapply target_ne | done | done |]. done.
Qed.

Lemma append_typed_receipt_for_kind_sound ev w n rt r key a kind l e l' :
  ledger_ok pf l ->
  _append_typed_receipt_for_kind pf ev w n rt r key a kind l = (Ok e, l') -> sound l l'.
Proof.
  intros Hok E. unfold _append_typed_receipt_for_kind in E.
  apply st_bind_Ok_inv in E as (u & l1 & [= _ <-] & E).
  apply st_bind_Ok_inv in E as ([locked retry] & l2 & Eb & E).
  apply begin_append_inv in Eb as (-> & Hi & _).
  destruct (match kind with Some _ => _ | None => _ end); [done|].
  destruct retry as [p|]; [inv E; by apply sound_refl|].
  eapply append_locked_sound; [done | by eapply locked_row | | exact E].
  by apply agree_receipt.
Qed.

Lemma record_timer_sound ev w n timer key a l e l' :
  ledger_ok pf l -> record_timer pf ev w n timer key a l = (Ok e, l') -> sound l l'.
Proof.
  intros Hok E. unfold record_timer in E.
  apply st_bind_Ok_inv in E as (u & l1 & [= _ <-] & E).
  apply st_bind_Ok_inv in E as ([locked retry] & l2 & Eb & E).
  apply begin_append_inv in Eb as (-> & Hi & _).
  destruct retry as [p|]; [inv E; by apply sound_refl|].
  eapply append_locked_sound; [done | by eapply locked_row | | exact E]. by apply agree_same.
Qed.

Lemma record_external_message_sound ev w n m key a l e l' :
  ledger_ok pf l -> record_external_message pf ev w n m key a l = (Ok e, l') -> sound l l'.
Proof.
  intros Hok E. unfold record_external_message in E.
  apply st_bind_Ok_inv in E as (u & l1 & [= _ <-] & E).
  apply st_bind_Ok_inv in E as ([locked retry] & l2 & Eb & E).
  apply begin_append_inv in Eb as (-> & Hi & _).
  destruct retry as [p|]; [inv E; by apply sound_refl|].
  eapply append_locked_sound; [done | by eapply locked_row | | exact E]. by apply agree_same.
Qed.

Lemma request_cancellation_sound ev w n reason key a l e l' :
  ledger_ok pf l -> request_cancellation pf ev w n reason key a l = (Ok e, l') -> sound l l'.
Proof.
  intros Hok E. unfold request_cancellation in E.
  apply st_bind_Ok_inv in E as (u & l1 & [= _ <-] & E).
  apply st_bind_Ok_inv in E as ([locked retry] & l2 & Eb & E).
  apply begin_append_inv in Eb as (-> & Hi & _).
  destruct retry as [p|]; [inv E; by apply sound_refl|].
  destruct (i_terminal locked); [done|].
  eapply append_locked_sound; [done | by eapply locked_row | | exact E].
  split; [done|]. done.
Qed.

Lemma rollover_segment_sound ev w n successor key a l i l' :
  ledger_ok pf l ->
  rollover_segment pf registry ev w n successor key a l = (Ok i, l') -> sound l l'.
Proof.
  intros Hok E. unfold rollover_segment in E.
  apply st_bind_Ok_inv in E as ([locked retry] & l2 & Eb & E).
  apply begin_append_inv in Eb as (-> & Hi & _).
  destruct retry as [p|].
  { unfold read_instance in E. destruct (dget successor _); [|done]. inv E.
    by apply sound_refl. }
  destruct (_ && _); [done|].
  apply st_bind_Ok_inv in E as (e & l3 & Ea & E).
  eapply append_locked_sound in Ea; [|done | by eapply locked_row | by apply agree_same].
  apply st_bind_Ok_inv in E as (u1 & l4 & [= _ <-] & E).
  apply st_bind_Ok_inv in E as (u2 & l5 & [= _ <-] & E).
  eapply sound_trans; [exact Ea|]. intros Hok'. by eapply insert_identity_sound in E as [? _].
Qed.

Lemma open_workflow_sound identity l i l' :
  ledger_ok pf l -> open_workflow pf registry identity l = (Ok i, l') -> sound l l'.
Proof.
  intros Hok E. unfold open_workflow in E. destruct (negb _); [done|].
  unfold _open_workflow_kind in E.
  apply st_bind_Ok_inv in E as (u1 & l1 & [= _ <-] & E).
  apply st_bind_Ok_inv in E as (u2 & l2 & [= _ <-] & E).
  apply st_bind_Ok_inv in E as (kind & l3 & [= _ <-] & E).
  apply st_bind_Ok_inv in E as (st & l4 & [= _ <-] & E).
  by eapply insert_identity_sound in E as [? _].
Qed.

(** What a terminal append did, when its transition key was not used before. *)
Lemma append_execution_terminal_inv ev1 ev2 w n target receipt key a l r l' :
  ledger_ok pf l ->
  (forall e, e ∈ events_of w l -> idempotency_key e ≠ key +:+ ":transition") ->
  append_execution_terminal pf ev1 ev2 w n target receipt key a l = (Ok r, l') ->
  (l' = l /\ exists e, e ∈ events_of w l /\ idempotency_key e = key +:+ ":receipt" /\
                      stored_receipt e = Ok r)
  \/ (sound l l' /\ exists locked tr rc i',
       dget w (instances l) = Some locked /\ i_terminal locked = false /\
       i_current_sequence locked = n /\ i_workflow_kind locked = "execution" /\
       require_transition "execution" (i_current_state locked) target = Ok true /\
       check_parity PARITY_FIELDS receipt (i_semantic_identity locked) = Ok tt /\
       events_of w l' = events_of w l ++ [tr; rc] /\
       dget w (instances l') = Some i' /\ i_terminal i' = true /\ i_current_state i' = target /\
       payload tr = [("from_state", PStr (i_current_state locked)); ("to_state", PStr target)] /\
       payload rc = [("typed_receipt", wrap_receipt ("execution_terminal_receipt", r))] /\
       exists bs, encode (PDict (terminal_receipt pf receipt tr)) = Ok bs /\
         r = terminal_receipt pf receipt tr ++ [("signature", PStr (pf_sign pf bs))]).
Proof.
  intros Hok Hfresh E. unfold append_execution_terminal in E.
  apply st_bind_Ok_inv in E as (ex & l1 & Ef & E). apply find_idempotent_inv in Ef as [-> Hex].
  destruct ex as [e|].
  { left. apply st_bind_Ok_inv in E as (st & l2 & [= Hst <-] & E).
    destruct (same_on_keys _ _); [|done]. inv E. split; [done|]. exists e.
    destruct Hex as (He & Hw & Hk). split; [|done]. by apply list_elem_of_filter. }
  right. unfold lock_instance, read_instance in E.
  apply st_bind_Ok_inv in E as (locked & l2 & El & E).
  destruct (dget w (instances l)) as [i|] eqn:Hi; [|done]. injection El as -> <-.
  destruct (negb (i_current_sequence locked =? n)) eqn:En; [done|].
  destruct (negb (bool_decide _)) eqn:Ek; [done|].
  apply st_bind_Ok_inv in E as (term & l3 & [= Hreq <-] & E).
  destruct (negb term) eqn:Eterm; [done|].
  apply st_bind_Ok_inv in E as (u1 & l4 & [= Hpar <-] & E). bool_prop. subst term.
  apply st_bind_Ok_inv in E as (tr & l5 & Ea & E).
  pose proof (wo_id _ _ _ _ (lo_workflows _ _ Hok _ _ Hi)) as Hid.
  assert (Hag : options_agree "transition"
    [("from_state", PStr (i_current_state locked)); ("to_state", PStr target)]
    (mkOptions (Some target) (Some false) PNone PNone PNone None) locked)
    by (by eapply agree_target; [by eapply target_ne|..]).
  pose proof Ea as Es. apply append_locked_sound in Es; [|done | by eapply locked_row | done].
  apply append_locked_ok in Ea as (Hok5 & Hterm & [(-> & Hin & Hw & Hkey)|(Hae & Hev5 & Hin5)]);
    [| |done | by eapply locked_row | done].
  { destruct (Hfresh tr); [|done]. apply list_elem_of_filter. split; congruence. }
  apply st_bind_Ok_inv in E as (bs & l6 & [= Hbs <-] & E).
  apply st_bind_Ok_inv in E as (u2 & l7 & [= _ <-] & E).
  apply st_bind_Ok_inv in E as (after & l8 & El & E).
  rewrite Hin5, Hid, dget_dset_eq in El. injection El as <- <-.
  apply st_bind_Ok_inv in E as (rc & l9 & Ea2 & E). inv E.
  pose proof (target_ne _ _ _ _ Hreq) as Hne.
  set (i5 := appended tr _ locked) in *.
  assert (Hi5 : dget (i_workflow_id i5) (instances l5) = Some i5)
    by (rewrite Hin5; apply dget_dset_eq).
  assert (Hcur : i_current_state i5 = target).
  { simpl. unfold str_or. by rewrite bool_decide_false. }
  set (signed := terminal_receipt pf receipt tr ++ _) in *.
  assert (Hag2 : options_agree "transition"
     [("typed_receipt", wrap_receipt ("execution_terminal_receipt", signed))]
     (mkOptions (Some target) (Some true) PNone PNone PNone None) i5)
    by (apply agree_receipt; [by rewrite Hcur | done]).
  pose proof Ea2 as Es2. apply append_locked_sound in Es2; [|done..].
  apply append_locked_ok in Ea2 as (Hok9 & _ & [(-> & Hin9 & Hw9 & Hkey9)|(Hae9 & Hev9 & Hin9)]);
    [| |done..].
  { exfalso. rewrite Hev5 in Hin9. apply list.elem_of_app in Hin9 as [Hin9|Hin9].
    - apply (Hex rc Hin9); [|done]. rewrite Hw9. simpl. done.
    - apply list_elem_of_singleton in Hin9 as ->.
      rewrite (ae_key _ _ _ _ _ _ Hae) in Hkey9. by apply (inj (String.append key)) in Hkey9. }
  split; [by eapply sound_trans|].
  exists locked, tr, rc, (appended rc (mkOptions (Some target) (Some true) PNone PNone PNone None) i5).
  split; [done|]. split; [done|]. split; [done|]. split; [done|]. split; [done|]. split; [by destruct u1|].
  split.
  { unfold events_of. rewrite Hev9, events_of_snoc, Hev5, events_of_snoc.
    rewrite (bool_decide_true (workflow_id rc = _))
      by (by rewrite (ae_workflow _ _ _ _ _ _ Hae9)).
    rewrite (bool_decide_true (workflow_id tr = _))
      by (by rewrite (ae_workflow _ _ _ _ _ _ Hae)). by rewrite <- app_assoc. }
  split; [rewrite Hin9; simpl; by rewrite dget_dset_eq|].
  split; [done|]. split; [simpl; unfold str_or; by rewrite bool_decide_false|].
  split; [apply (ae_payload _ _ _ _ _ _ Hae)|]. split; [apply (ae_payload _ _ _ _ _ _ Hae9)|].
  by exists bs.
Qed.

(** * Reachable ledgers *)

(** One committed call of a public writer.  The key of a terminal transition is
    the caller's own: nobody else used it in that workflow. *)
Inductive writer_step (l l' : ledger) : Prop :=
| ws_open identity i : open_workflow pf registry identity l = (Ok i, l') -> writer_step l l'
| ws_transition ev w n target key a t e :
    append_transition pf ev w n target key a t l = (Ok e, l') -> writer_step l l'
| ws_receipt ev w n rt r key a e :
    append_typed_receipt pf ev w n rt r key a l = (Ok e, l') -> writer_step l l'
| ws_health ev w n r key a e :
    append_release_health pf ev w n r key a l = (Ok e, l') -> writer_step l l'
| ws_lifecycle ev w n r key a e :
    append_evidence_lifecycle pf ev w n r key a l = (Ok e, l') -> writer_step l l'
| ws_timer ev w n timer key a e :
    record_timer pf ev w n timer key a l = (Ok e, l') -> writer_step l l'
| ws_message ev w n m key a e :
    record_external_message pf ev w n m key a l = (Ok e, l') -> writer_step l l'
| ws_cancel ev w n reason key a e :
    request_cancellation pf ev w n reason key a l = (Ok e, l') -> writer_step l l'
| ws_rollover ev w n successor key a i :
    rollover_segment pf registry ev w n successor key a l = (Ok i, l') -> writer_step l l'
| ws_terminal ev1 ev2 w n target receipt key a r :
    (forall e, e ∈ events_of w l -> idempotency_key e ≠ key +:+ ":transition") ->
    append_execution_terminal pf ev1 ev2 w n target receipt key a l = (Ok r, l') ->
    writer_step l l'.

Lemma writer_step_sound l l' : ledger_ok pf l -> writer_step l l' -> sound l l'.
Proof.
  intros Hok [ ]; eauto using open_workflow_sound, append_transition_for_kind_sound,
    append_typed_receipt_for_kind_sound, record_timer_sound, record_external_message_sound,
    request_cancellation_sound, rollover_segment_sound.
  eapply append_execution_terminal_inv in H0 as [(-> & _)|[? _]]; [by apply sound_refl|..]; done.
Qed.

Lemma run_sound l l' : ledger_ok pf l -> rtc writer_step l l' -> sound l l'.
Proof.
  intros Hok Hr. induction Hr as [l|l l1 l' Hs _ IH]; [by apply sound_refl|].
  eapply sound_trans; [by apply writer_step_sound | exact IH].
Qed.

Definition reachable (l : ledger) : Prop := rtc writer_step empty_ledger l.

Lemma reachable_ok l : reachable l -> ledger_ok pf l.
Proof. intros Hr. by apply (run_sound _ _ (ledger_ok_empty pf) Hr). Qed.

End runs.
