(* ===== verification/LedgerTheorems.v ===== *)
(** What the durable ledger promises to its users: signed contiguous chains,
    projections that are replays, pages that verify, idempotent retries, one
    winner per sequence number, and exactly one terminal outcome. *)
From S2P Require Import Prelude PyDict PyStr PyVal PyJson PyTime.
From S2P Require Import Canonical Transitions Ledger Reducer Facade LedgerChain LedgerInvariant.
From S2P Require Import LedgerRuns.

Section theorems.
Variable pf : platform.
Variable registry : CompatibilityRegistry.

(** C3: ledger integrity: in every ledger the public writers can reach, the
    events of a workflow are numbered 1, 2, ... without gap, each one is signed
    by the service and carries the chained hash of its predecessor and its own
    content; the instance counts its events and their bytes exactly, within the
    segment limits, and holds the last hash; no idempotency key is used twice. *)
Theorem ledger_integrity l w i :
  reachable pf registry l -> dget w (instances l) = Some i ->
  let es := events_of w l in
  chained pf None 0 es /\ i_current_sequence i = Z.of_nat (length es) /\
  i_current_event_hash i = last_hash None es /\
  i_event_count i = Z.of_nat (length es) /\ i_event_count i <= MAX_EVENT_COUNT /\
  i_canonical_event_bytes i = sum_canonical_bytes es /\
  i_canonical_event_bytes i <= MAX_EVENT_BYTES /\
  (forall e f, e ∈ es -> f ∈ es -> idempotency_key e = idempotency_key f -> e = f).
Proof.
  intros Hr Hi es. pose proof (reachable_ok _ _ _ Hr) as Hok.
  destruct (lo_workflows _ _ Hok _ _ Hi) as [_ Hc Hs Hh [Hn Hn'] [Hb Hb'] _].
  split_and!; try done; try congruence.
  intros e f [Hw He]%list_elem_of_filter [Hw' Hf]%list_elem_of_filter Hk.
  apply (lo_keys _ _ Hok); congruence.
Qed.

(** C11: the current projection is the replay of the ledger: replaying the
    events of a workflow up to its last sequence rebuilds the stored projection
    exactly, its hash is the content hash of that state, and the state and the
    cancellation mark it shows are those of the instance; replay to any earlier
    sequence succeeds as well. *)
Theorem projection_is_replay l w p version :
  reachable pf registry l -> dget w (projections l) = Some p ->
  exists s0 i,
    dget w (instances l) = Some i /\
    sha256_hex (PDict (p_state p)) = Ok (p_state_hash p) /\
    dget "current_state" (p_state p) = Some (PStr (i_current_state i)) /\
    dget "cancellation_state" (p_state p) = Some (py_opt (i_cancellation_state i)) /\
    reduce_as_of reduce_v1 (genesis s0) (events_of w l) (i_current_sequence i) version
      = Ok (mkReplay (i_current_sequence i) (py_opt (i_current_event_hash i)) (p_state p)
              version []) /\
    forall t, 0 <= t <= i_current_sequence i -> exists r,
      reduce_as_of reduce_v1 (genesis s0) (events_of w l) t version = Ok r /\ rr_sequence r = t.
Proof.
  intros Hr Hp. pose proof (reachable_ok _ _ _ Hr) as Hok.
  destruct (lo_projections _ _ Hok _ _ Hp) as [i Hi].
  destruct (lo_workflows _ _ Hok _ _ Hi) as [_ Hc Hs Hh _ _ (s0 & Hpo)].
  rewrite Hp in Hpo. destruct Hpo as [Hps Hrep Hph Hcur Hcan].
  exists s0, i. do 4 (split; [done|]).
  assert (Hto : forall t, 0 <= t <= i_current_sequence i ->
    reduce_as_of reduce_v1 (genesis s0) (events_of w l) t version =
    (s ← fold_state (genesis s0) (firstn (Z.to_nat t) (events_of w l));
     Ok (mkReplay t (py_opt (last_hash None (firstn (Z.to_nat t) (events_of w l)))) s version []))).
  { intros t Ht. unfold reduce_as_of.
    assert (H1 : py_int (pget_or "last_sequence" (PInt 0) (genesis s0)) = Ok 0) by done.
    assert (H2 : pget "last_event_hash" (genesis s0) = py_opt None) by done.
    rewrite H1, H2. unfold mbind at 1, res_bind at 1.
    rewrite (replay_chain pf None 0) by (done || lia). rewrite Z.sub_0_r.
    destruct (fold_state (genesis s0) (firstn _ _)) as [st|ex]; [|done].
    cbn [mbind res_bind]. by rewrite Z.eqb_refl. }
  split.
  - rewrite Hto by lia. rewrite Hs, Nat2Z.id, firstn_all, Hrep, Hh. done.
  - intros t Ht. rewrite Hto by done.
    destruct (fold_state (genesis s0) (firstn (Z.to_nat t) (events_of w l))) as [s|e] eqn:E;
      [by eexists|].
    exfalso. rewrite <- (take_drop (Z.to_nat t) (events_of w l)) in Hrep.
    revert Hrep E. generalize (genesis s0), (firstn (Z.to_nat t) (events_of w l)).
    intros d xs. revert d. induction xs as [|x xs IH]; intros d; [done|].
    simpl. destruct (reduce_v1 d x); [apply IH | done].
Qed.

Section readers.
Context {key : Type}.
Variable verification_keys : dict key.
Variable signature_valid : key -> list N -> string -> bool.

(** Readers can always verify: with the signer's public key among the
    verification keys, [verify_chain] accepts every page (any cursor, any legal
    limit) of every workflow of a reachable ledger, and changes nothing. *)
Theorem every_page_verifies l w i cursor limit :
  reachable pf registry l -> dget w (instances l) = Some i ->
  signer_trusted pf verification_keys signature_valid ->
  1 <= limit <= MAX_READ_PAGE ->
  exists h, verify_chain verification_keys signature_valid w cursor limit l = (Ok h, l).
Proof.
  intros Hr Hi Ht Hlim. pose proof (reachable_ok _ _ _ Hr) as Hok.
  pose proof (wo_chain _ _ _ _ (lo_workflows _ _ Hok _ _ Hi)) as Hc.
  destruct (verify_page pf _ _ None 0 _ cursor (Z.to_nat limit) Ht Hc) as [h Hh].
  exists h. unfold verify_chain, read_events_page.
  rewrite (proj2 (Z.leb_le 1 limit)), (proj2 (Z.leb_le limit _)) by lia.
  unfold mbind, stres_bind, read_events_after, gets_st, lift_res. simpl. by rewrite Hh.
Qed.
End readers.

(** A terminal workflow is closed for good: whatever writers run
    afterwards, on any workflow, its instance and its events stay the same. *)
Theorem terminal_workflow_closed l w i l' :
  reachable pf registry l -> dget w (instances l) = Some i -> i_terminal i = true ->
  rtc (writer_step pf registry) l l' ->
  dget w (instances l') = Some i /\ events_of w l' = events_of w l.
Proof.
  intros Hr Hi Ht Hrun.
  destruct (run_sound _ _ _ _ (reachable_ok _ _ _ Hr) Hrun) as [_ [_ Hex]].
  destruct (Hex w i Hi) as (i' & Hi' & [_ _ _ Hterm]). destruct (Hterm Ht) as [-> He]. done.
Qed.

(** * Retries and races *)

Lemma find_unique l w key e :
  ledger_ok pf l -> e ∈ events l -> workflow_id e = w -> idempotency_key e = key ->
  find_idempotent_event w key l = (Ok (Some e), l).
Proof.
  intros Hok He Hw Hk. unfold find_idempotent_event, gets_st. f_equal. f_equal.
  destruct (filter _ (events l)) as [|f r] eqn:E; simpl.
  - assert (Hin : e ∈ filter (fun e => workflow_id e = w /\ idempotency_key e = key) (events l))
      by (by apply list_elem_of_filter). rewrite E in Hin. by apply not_elem_of_nil in Hin.
  - assert (Hin : f ∈ filter (fun e => workflow_id e = w /\ idempotency_key e = key) (events l))
      by (rewrite E; by left).
    apply list_elem_of_filter in Hin as [[Hfw Hfk] Hf]. f_equal.
    apply (lo_keys _ _ Hok); congruence.
Qed.

(** What a fresh transition (not a retry) committed. *)
Lemma transition_committed ev w n target key a t l e l1 locked :
  ledger_ok pf l -> dget w (instances l) = Some locked -> i_current_sequence locked = n ->
  (forall f, f ∈ events_of w l -> idempotency_key f ≠ key) ->
  append_transition pf ev w n target key a t l = (Ok e, l1) ->
  e ∈ events l1 /\ workflow_id e = w /\ idempotency_key e = key /\ event_type e = "transition" /\
  actor e = a /\ payload e = transition_payload (i_current_state locked) target t /\
  i_workflow_kind locked = "execution" /\
  exists i1, dget w (instances l1) = Some i1 /\ i_current_sequence i1 = n + 1 /\
    i_workflow_kind i1 = "execution" /\ i_current_state i1 = target.
Proof.
  intros Hok Hi Hn Hfresh E. unfold append_transition, _append_transition_for_kind in E.
  apply st_bind_Ok_inv in E as ([i retry] & l2 & Eb & E).
  apply begin_append_inv in Eb as (-> & Hi' & Hretry). rewrite Hi in Hi'. injection Hi' as <-.
  destruct (negb _) eqn:Ek; [done|]. bool_prop.
  destruct retry as [p|]; [by destruct Hretry|].
  apply st_bind_Ok_inv in E as (term & l3 & [= Hreq <-] & E). destruct (_ && _); [done|].
  apply st_bind_Ok_inv in E as (u & l4 & [= _ <-] & E).
  pose proof (wo_id _ _ _ _ (lo_workflows _ _ Hok _ _ Hi)) as Hid.
  pose proof (target_ne _ _ _ _ Hreq) as Hne.
  eapply append_locked_ok in E as (Hok' & _ & [(-> & Hin & Hw & Hk)|(Hae & Hev & Hinst)]);
    [| |done | by eapply locked_row | by eapply agree_target].
  { destruct (Hfresh e); [|done]. apply list_elem_of_filter. split; congruence. }
  destruct Hae as [Hw Hs Ht Hk Ha Hp]. split_and!; try congruence.
  - rewrite Hev. set_solver.
  - rewrite Hinst, Hid, dget_dset_eq. eexists. split; [done|]. simpl. split; [lia|].
    split; [done|]. unfold str_or. by rewrite bool_decide_false.
Qed.

Lemma begin_retry l w n key m e i :
  ledger_ok pf l -> dget w (instances l) = Some i -> i_current_sequence i ≠ n ->
  e ∈ events l -> workflow_id e = w -> idempotency_key e = key -> m e = true ->
  _begin_append w n key m l = (Ok (i, Some e), l).
Proof.
  intros Hok Hi Hn He Hw Hk Hm. unfold _begin_append, lock_instance, read_instance.
  unfold mbind, stres_bind. rewrite Hi. rewrite (proj2 (Z.eqb_neq _ _)) by done.
  rewrite (find_unique l w key e) by done. by rewrite Hm.
Qed.

(** A payload whose retries the service recognises: no NaN inside. *)
Definition stable_receipt (t : option (string * dict pyval)) : Prop :=
  match t with Some (_, r) => regular (PDict r) | None => True end.

Lemma wrap_receipt_eq rt r : regular (PDict r) ->
  py_eq (wrap_receipt (rt, r)) (wrap_receipt (rt, r)) = true.
Proof.
  intros Hr. apply py_eq_refl. unfold wrap_receipt. constructor.
  - unfold dict_wf. simpl. repeat constructor; set_solver.
  - apply Forall_cons. split; [constructor|]. apply Forall_cons. split; [exact Hr | constructor].
Qed.

(** Retries are idempotent: once a transition has been committed, calling
    [append_transition] again with the same arguments, at any later time and
    after any other writes, returns the event first written and changes
    nothing. *)
Theorem transition_retry_idempotent ev ev' w n target key a t l e l1 l2 locked :
  reachable pf registry l -> dget w (instances l) = Some locked ->
  i_current_sequence locked = n ->
  (forall f, f ∈ events_of w l -> idempotency_key f ≠ key) ->
  regular (PDict a) -> stable_receipt t ->
  append_transition pf ev w n target key a t l = (Ok e, l1) ->
  rtc (writer_step pf registry) l1 l2 ->
  append_transition pf ev' w n target key a t l2 = (Ok e, l2).
Proof.
  intros Hr Hi Hn Hfresh Hreg Hst E Hrun. pose proof (reachable_ok _ _ _ Hr) as Hok.
  pose proof (append_transition_for_kind_sound pf _ _ _ _ _ _ _ _ _ _ _ Hok E) as [Hok1 _].
  destruct (transition_committed _ _ _ _ _ _ _ _ _ _ _ Hok Hi Hn Hfresh E)
    as (He & Hw & Hk & Ht & Ha & Hp & Hkind & i1 & Hi1 & Hs1 & Hk1 & _).
  destruct (run_sound _ _ _ _ Hok1 Hrun) as [Hok2 [Hpre Hex]].
  destruct (Hex w i1 Hi1) as (i2 & Hi2 & [Hs2 _ Hk2 _]).
  unfold append_transition, _append_transition_for_kind.
  assert (He2 : e ∈ events l2) by (by eapply elem_of_prefix).
  assert (Hm : transition_matches a target t e = true).
  { unfold transition_matches, is_type_of, same_actor. rewrite Ht, Ha, Hp.
    rewrite bool_decide_true by done. rewrite py_eq_refl by done.
    assert (P1 : pget "to_state" (transition_payload (i_current_state locked) target t)
                 = PStr target) by done.
    assert (P2 : pget "typed_receipt" (transition_payload (i_current_state locked) target t)
                 = match t with Some t => wrap_receipt t | None => PNone end) by (by destruct t).
    rewrite P1, P2. rewrite (py_eq_refl (PStr target)) by constructor.
    destruct t as [[rt r]|]; [by rewrite wrap_receipt_eq | done]. }
  rewrite (st_bind_eq _ _ _ _ _ (begin_retry l2 w n key _ e i2 Hok2 Hi2 ltac:(lia) He2 Hw Hk Hm)).
  rewrite bool_decide_true by congruence. done.
Qed.

(** One winner per sequence number: once a transition has been committed at
    a sequence, every later attempt to write at that sequence under a new key
    is refused with a conflict and leaves the ledger as it is. *)
Theorem lost_race_refused ev ev' w n target target' key key' a a' t t' l e l1 l2 locked :
  reachable pf registry l -> dget w (instances l) = Some locked ->
  i_current_sequence locked = n ->
  (forall f, f ∈ events_of w l -> idempotency_key f ≠ key) ->
  append_transition pf ev w n target key a t l = (Ok e, l1) ->
  rtc (writer_step pf registry) l1 l2 ->
  (forall f, f ∈ events_of w l2 -> idempotency_key f ≠ key') ->
  exists msg, append_transition pf ev' w n target' key' a' t' l2
              = (Raise (DurableWorkflowConflict msg), l2).
Proof.
  intros Hr Hi Hn Hfresh E Hrun Hnew. pose proof (reachable_ok _ _ _ Hr) as Hok.
  pose proof (append_transition_for_kind_sound pf _ _ _ _ _ _ _ _ _ _ _ Hok E) as [Hok1 _].
  destruct (transition_committed _ _ _ _ _ _ _ _ _ _ _ Hok Hi Hn Hfresh E)
    as (_ & _ & _ & _ & _ & _ & _ & i1 & Hi1 & Hs1 & _).
  destruct (run_sound _ _ _ _ Hok1 Hrun) as [Hok2 [_ Hex]].
  destruct (Hex w i1 Hi1) as (i2 & Hi2 & [Hs2 _ _ _]).
  unfold append_transition, _append_transition_for_kind, _begin_append, lock_instance,
    read_instance, mbind, stres_bind. rewrite Hi2. rewrite (proj2 (Z.eqb_neq _ _)) by lia.
  destruct (find_idempotent_event w key' l2) as [r l3] eqn:Ef.
  unfold find_idempotent_event, gets_st in Ef. injection Ef as <- <-.
  destruct (filter _ (events l2)) as [|f r] eqn:Efl; simpl; [by eexists|].
  assert (Hin : f ∈ filter (fun e => workflow_id e = w /\ idempotency_key e = key') (events l2))
    by (rewrite Efl; by left).
  apply list_elem_of_filter in Hin as [[Hfw Hfk] Hf].
  destruct (Hnew f); [|done]. by apply list_elem_of_filter.
Qed.

(** * The terminal outcome of an execution *)

(** C4: an execution ends exactly once: a terminal call that commits anew moves
    a running workflow to a terminal state through exactly two events, the
    transition and its receipt; the receipt is signed, names the sequence and
    hash of that transition, and agrees with the workflow's identity on every
    parity field; and the workflow can never be written again. *)
Theorem terminal_outcome_unique ev1 ev2 w n target receipt key a l r l1 l2 locked :
  reachable pf registry l -> dget w (instances l) = Some locked ->
  (forall f, f ∈ events_of w l ->
     idempotency_key f ≠ key +:+ ":transition" /\ idempotency_key f ≠ key +:+ ":receipt") ->
  append_execution_terminal pf ev1 ev2 w n target receipt key a l = (Ok r, l1) ->
  rtc (writer_step pf registry) l1 l2 ->
  require_transition "execution" (i_current_state locked) target = Ok true /\
  (forall f, f ∈ PARITY_FIELDS ->
     py_eq (pget f receipt) (pget f (i_semantic_identity locked)) = true) /\
  exists tr rc i2,
    events_of w l2 = events_of w l ++ [tr; rc] /\
    dget w (instances l2) = Some i2 /\ i_terminal i2 = true /\ i_current_state i2 = target /\
    dget "terminal_sequence" r = Some (PInt (sequence tr)) /\
    dget "terminal_event_hash" r = Some (PStr (event_hash tr)) /\
    dget "key_id" r = Some (PStr (pf_key_id pf)) /\
    payload rc = [("typed_receipt", wrap_receipt ("execution_terminal_receipt", r))].
Proof.
  intros Hr Hi Hfresh E Hrun. pose proof (reachable_ok _ _ _ Hr) as Hok.
  apply append_execution_terminal_inv in E
    as [(_ & e & He & Hk & _)|([Hok1 Hex1] & i & tr & rc & i1 & Hi' & Ht & Hn & Hkind & Hreq & Hpar &
        Hev & Hi1 & Hterm & Hcur & _ & Hrc & bs & _ & Hr')]; [| |done | naive_solver].
  { destruct (Hfresh e He) as [_ ?]. done. }
  rewrite Hi in Hi'. injection Hi' as <-.
  destruct (run_sound _ _ _ _ Hok1 Hrun) as [_ [_ Hex]].
  destruct (Hex w i1 Hi1) as (i2 & Hi2 & [_ _ _ Hclosed]). destruct (Hclosed Hterm) as [-> Hev2].
  split; [done|]. split.
  { revert Hpar. generalize PARITY_FIELDS. intros fs. induction fs as [|f fs IH]; [set_solver|].
    simpl. destruct (py_eq _ _) eqn:Ef; [|done]. intros Hp g [->|Hg]%list.elem_of_cons; auto. }
  exists tr, rc, i1. rewrite Hev2. split_and!; try done.
  all: subst r; unfold terminal_receipt.
  all: assert (Happ : forall k (x : pyval) d v, dget k d = Some v ->
         dget k (d ++ [("signature", x)]) = Some v)
    by (intros k x d v; induction d as [|[k' v'] d IH]; simpl; [done|];
        case_bool_decide; [done | apply IH]).
  all: apply Happ; rewrite dget_ddel_ne by done; rewrite !dget_dset; by str_lits.
Qed.

End theorems.

(** * A concrete execution: opened, started, finished *)

Module Run.

Definition platform1 : platform := mkPlatform
  (fun v => match json_dumps false true v with
            | Ok s => Z.of_nat (length (utf8 s)) | Raise _ => 0 end)
  (fun bs => "sig:" +:+ Sha256.hexdigest bs) "ed25519:test" (fun _ _ => Ok tt) (fun _ => true).
Definition registry1 : CompatibilityRegistry := mkRegistry ["wf/1"] ["v1"] ["fx/1"].
Definition keys1 : dict unit := [("ed25519:test", tt)].
Definition valid1 (_ : unit) (bs : list N) (s : string) : bool :=
  bool_decide (s = "sig:" +:+ Sha256.hexdigest bs).

Definition identity1 : dict pyval :=
  [("workflow_id", PStr "w1"); ("root_workflow_id", PStr "w1"); ("segment_id", PStr "w1:segment:0");
   ("segment_number", PInt 0); ("workflow_kind", PStr "execution"); ("workspace_id", PStr "ws");
   ("execution_id", PStr "e1"); ("psc_ids", PList []);
   ("workflow_definition_version", PStr "wf/1"); ("reducer_version", PStr "v1");
   ("effect_adapter_registry_version", PStr "fx/1"); ("runtime_build_id", PStr "b1");
   ("replay_compatibility_class", PStr "c1")].
Definition receipt1 : dict pyval :=
  [("receipt_id", PStr "r1"); ("workflow_id", PStr "w1"); ("root_workflow_id", PStr "w1");
   ("execution_id", PStr "e1"); ("workspace_id", PStr "ws");
   ("workflow_definition_version", PStr "wf/1"); ("reducer_version", PStr "v1");
   ("effect_adapter_registry_version", PStr "fx/1"); ("runtime_build_id", PStr "b1")].
Definition actor1 : dict pyval := [("id", PStr "runner")].
Definition at_time (n : Z) : env := mkEnv ("event-" +:+ str_int n) (1767225600000000 + n).

Definition opened := Eval vm_compute in
  (open_workflow platform1 registry1 identity1 empty_ledger).2.
Definition start (ev : env) := append_transition platform1 ev "w1" 0 "running" "k1" actor1 None.
Definition started := Eval vm_compute in (start (at_time 1) opened).2.
Definition finish :=
  append_execution_terminal platform1 (at_time 2) (at_time 3) "w1" 1 "succeeded" receipt1 "k2" actor1.
Definition finished := Eval vm_compute in (finish started).2.

Definition the_event (r : res event) : event :=
  match r with
  | Ok e => e
  | Raise _ => mkEvent "" "" "" 0 "" 0 [] [] "" None "" 0 "" "" "" None None
  end.
Definition start_event := Eval vm_compute in the_event (start (at_time 1) opened).1.
Definition signed_receipt := Eval vm_compute in
  match (finish started).1 with Ok r => r | Raise _ => [] end.

Definition row (l : ledger) : instance :=
  default (mkInstance "" "" "" 0 None None "" "" None PNone [] "" 0 None "" false "" "" "" "" "" 0 0
             PNone None) (dget "w1" (instances l)).
Definition row_opened := Eval vm_compute in row opened.
Definition row_started := Eval vm_compute in row started.
Definition row_finished := Eval vm_compute in row finished.

Lemma run_start : start (at_time 1) opened = (Ok start_event, started).
Proof. by vm_compute. Qed.
Lemma run_finish : finish started = (Ok signed_receipt, finished).
Proof. by vm_compute. Qed.

Lemma no_events_opened (P : event -> Prop) : forall f, f ∈ events_of "w1" opened -> P f.
Proof.
  assert (E : events_of "w1" opened = []) by (by vm_compute). rewrite E. set_solver.
Qed.

Lemma started_keys f : f ∈ events_of "w1" started ->
  idempotency_key f ≠ "k2:transition" /\ idempotency_key f ≠ "k2:receipt".
Proof.
  assert (E : events_of "w1" started = [start_event]) by (by vm_compute). rewrite E.
  intros ->%list_elem_of_singleton. by vm_compute.
Qed.

Lemma reachable_opened : reachable platform1 registry1 opened.
Proof.
  apply rtc_once. apply (ws_open _ _ _ _ identity1 row_opened). by vm_compute.
Qed.
Lemma reachable_started : reachable platform1 registry1 started.
Proof.
  eapply rtc_r; [apply reachable_opened|]. eapply ws_transition. exact run_start.
Qed.
Lemma finish_step : writer_step platform1 registry1 started finished.
Proof.
  apply (ws_terminal _ _ _ _ (at_time 2) (at_time 3) "w1" 1 "succeeded" receipt1 "k2" actor1
           signed_receipt); [|exact run_finish].
  intros e He. by apply started_keys.
Qed.
Lemma reachable_finished : reachable platform1 registry1 finished.
Proof. eapply rtc_r; [apply reachable_started | apply finish_step]. Qed.

Lemma trusted1 : signer_trusted platform1 keys1 valid1.
Proof. exists tt. split; [done|]. intros bs. unfold valid1. by apply bool_decide_true. Qed.

Theorem ledger_integrity_witness :
  i_current_sequence row_finished = 3 /\ chained platform1 None 0 (events_of "w1" finished).
Proof.
  split; [done|].
  exact (proj1 (ledger_integrity platform1 registry1 finished "w1" row_finished
    reachable_finished eq_refl)).
Defined.

Definition projection_finished := Eval vm_compute in
  default (mkProjection 0 "" "" []) (dget "w1" (projections finished)).

Theorem projection_is_replay_witness :
  pget "current_state" (p_state projection_finished) = PStr "succeeded" /\
  exists s0 r, reduce_as_of reduce_v1 (genesis s0) (events_of "w1" finished) 1 "v1" = Ok r.
Proof.
  split; [done|].
  destruct (projection_is_replay platform1 registry1 finished "w1" projection_finished "v1"
    reachable_finished eq_refl) as (s0 & i & Hi & _ & _ & _ & _ & H).
  assert (Hrow : dget "w1" (instances finished) = Some row_finished) by (by vm_compute).
  rewrite Hrow in Hi. injection Hi as <-.
  destruct (H 1) as (r & Hr & _); [by vm_compute|]. by exists s0, r.
Defined.

Theorem every_page_verifies_witness :
  exists h, verify_chain keys1 valid1 "w1" 1 50 finished = (Ok h, finished).
Proof.
  exact (every_page_verifies platform1 registry1 keys1 valid1 finished "w1" row_finished 1 50
    reachable_finished eq_refl trusted1 ltac:(by vm_compute)).
Defined.

Theorem terminal_workflow_closed_witness :
  i_terminal row_finished = true /\ dget "w1" (instances finished) = Some row_finished.
Proof.
  split; [done|].
  exact (proj1 (terminal_workflow_closed platform1 registry1 finished "w1" row_finished finished
    reachable_finished eq_refl eq_refl (rtc_refl _ _))).
Defined.

Lemma actor_regular : regular (PDict actor1).
Proof.
  constructor; [unfold dict_wf; simpl; repeat constructor; set_solver|].
  apply Forall_cons. split; [constructor | constructor].
Qed.

Theorem transition_retry_idempotent_witness :
  start (at_time 9) finished = (Ok start_event, finished).
Proof.
  exact (transition_retry_idempotent platform1 registry1 (at_time 1) (at_time 9) "w1" 0 "running"
    "k1" actor1 None opened start_event started finished row_opened reachable_opened eq_refl
    eq_refl (no_events_opened _) actor_regular I run_start (rtc_once _ _ finish_step)).
Defined.

Theorem lost_race_refused_witness :
  exists msg, append_transition platform1 (at_time 9) "w1" 0 "cancelled" "k9" actor1 None started
              = (Raise (DurableWorkflowConflict msg), started).
Proof.
  apply (lost_race_refused platform1 registry1 (at_time 1) (at_time 9) "w1" 0 "running" "cancelled"
    "k1" "k9" actor1 actor1 None None opened start_event started started row_opened
    reachable_opened eq_refl eq_refl (no_events_opened _) run_start (rtc_refl _ _)).
  assert (E : events_of "w1" started = [start_event]) by (by vm_compute). rewrite E.
  intros f ->%list_elem_of_singleton. by vm_compute.
Defined.

Theorem terminal_outcome_unique_witness :
  exists tr, dget "terminal_sequence" signed_receipt = Some (PInt (sequence tr)) /\
             dget "terminal_event_hash" signed_receipt = Some (PStr (event_hash tr)).
Proof.
  destruct (terminal_outcome_unique platform1 registry1 (at_time 2) (at_time 3) "w1" 1 "succeeded"
    receipt1 "k2" actor1 started signed_receipt finished finished row_started reachable_started
    eq_refl started_keys run_finish (rtc_refl _ _))
    as (_ & _ & tr & rc & i2 & _ & _ & _ & _ & Hs & Hh & _).
  by exists tr.
Defined.

(** The stored history and the one a reader got. *)
Theorem history_tamper_evident_witness :
  collision_within None (events_of "w1" finished) (events finished) \/
  Forall2 same_record (events_of "w1" finished) (events finished).
Proof.
  apply (history_tamper_evident keys1 valid1 (events_of "w1" finished) (events finished) None
    (i_current_event_hash row_finished)); by vm_compute.
Defined.

(** Any later event erases the deadline a timer recorded: the aggregate shows no
    pending deadline although the timer has not fired. *)
Lemma later_event_erases_deadline :
  let timer := [("timer_id", PStr "t1"); ("deadline", PStr "2026-02-01T00:00:00Z")] in
  let timed := (record_timer platform1 (at_time 4) "w1" 1 timer "k3" actor1 started).2 in
  let later := (record_external_message platform1 (at_time 5) "w1" 2
                  [("external_message_id", PStr "m1")]
                  "k4" actor1 timed).2 in
  i_next_durable_deadline (row timed) = PStr "2026-02-01T00:00:00Z" /\
  i_current_sequence (row later) = 3 /\ i_next_durable_deadline (row later) = PNone.
Proof. by vm_compute. Qed.

End Run.
