(* ===== verification/Controls.v ===== *)
(** The control plane of the durable ledger (workflow/durable_state/approvals.py,
    checkpoints.py, side_effects.py, controls.py): approval requests, decisions
    and one-time consumptions, checkpoints and side-effect receipts, each an
    insert-only signed row under the constraints of its table.

    The statements run in the transaction of the caller; [now] is the
    transaction's [NOW()].  What PostgreSQL computes and the repository does
    not say is a parameter: the reading of a timestamp literal and the
    collation of text keys. *)
From S2P Require Import Prelude PyDict PyStr PyVal PyJson PyTime.
From S2P Require Import Canonical Ledger Facade.

Record approval_request : Type := mkRequest {
  r_approval_id : string;
  r_workflow_id : string;
  r_interrupt_id : string;
  r_tool_call_id : string;
  r_action_hash : string;
  r_resume_payload_hash : string;
  r_requested_by : string;
  r_required_quorum : Z;
  r_separation_of_duties : bool;
  r_payload : dict pyval;
  r_expires_at : Z;
  r_key_id : string;
  r_signature : string;
  r_created_at : Z;
}.

Record approval_decision : Type := mkDecision {
  d_decision_id : string;
  d_approval_id : string;
  d_decided_by : string;
  d_decision : string;
  d_policy_version : string;
  d_payload : dict pyval;
  d_key_id : string;
  d_signature : string;
  d_decided_at : Z;
}.

Record approval_consumption : Type := mkConsumption {
  c_consumption_id : string;
  c_approval_id : string;
  c_decision_id : string;
  c_delivery_id : string;
  c_effect_or_transition_id : string;
  c_payload : dict pyval;
  c_key_id : string;
  c_signature : string;
  c_consumed_at : Z;
}.

Record checkpoint : Type := mkCheckpoint {
  k_checkpoint_id : string;
  k_workflow_id : string;
  k_sequence : Z;
  k_parent_checkpoint_id : option string;
  k_state_hash : string;
  k_event_hash : string;
  k_reducer_version : string;
  k_payload : dict pyval;
  k_key_id : string;
  k_signature : string;
  k_created_at : Z;
}.

Record side_effect_receipt : Type := mkEffect {
  s_receipt_id : string;
  s_workflow_id : string;
  s_effect_id : string;
  s_effect_type : string;
  s_owner : string;
  s_request_hash : string;
  s_response_hash : option string;
  s_adapter_id : string;
  s_adapter_version : string;
  s_status : string;
  s_replay_disposition : string;
  s_attempt : Z;
  s_payload : dict pyval;
  s_key_id : string;
  s_signature : string;
  s_recorded_at : Z;
}.

Record control_store : Type := mkStore {
  st_ledger : ledger;
  st_requests : list approval_request;
  st_decisions : list approval_decision;
  st_consumptions : list approval_consumption;
  st_checkpoints : list checkpoint;
  st_effects : list side_effect_receipt;
}.

Definition empty_store : control_store := mkStore empty_ledger [] [] [] [] [].

(** An INSERT under its CHECK constraints, unique indexes and foreign keys. *)
Definition checked_insert (ok dup fk : bool) (s' : control_store)
    : stres control_store unit := fun s =>
  if negb ok then (Raise (IntegrityError "new row violates check constraint"), s)
  else if dup
  then (Raise (IntegrityError "duplicate key value violates unique constraint"), s)
  else if negb fk
  then (Raise (IntegrityError "insert violates foreign key constraint"), s)
  else (Ok tt, s').

(** A value of a CHAR(64) column: blank padded, blanks beyond it cut off. *)
Definition char64 (s : string) : res string :=
  let cs := String.list_ascii_of_string s in
  if forallb (fun c => bool_decide (c = " "%char)) (drop 64 cs)
  then Ok (String.string_of_list_ascii (take 64 cs ++ replicate (64 - length cs) " "%char))
  else Raise (OtherError "DataError" "value too long for type character(64)").
Definition bind_char64 (k : string) (record : dict pyval) : res string :=
  s ← bind_text k record; char64 s.

Definition bind_bool (k : string) (record : dict pyval) : res bool :=
  match dget k record with
  | Some (PBool b) => Ok b
  | Some PNone => Raise (IntegrityError ("null value in column " +:+ k))
  | Some _ => Raise (OtherError "DataError" k)
  | None => Raise (OtherError "StatementError" k)
  end.

Section controls.
Variable pf : platform.
(** A [TIMESTAMPTZ] literal, in microseconds since the epoch. *)
Variable timestamptz : string -> option Z.
(** [a <= b] in the collation of the database. *)
Variable text_le : string -> string -> bool.

Definition read_timestamp (s : string) : res Z :=
  match timestamptz s with
  | Some t => Ok t
  | None => Raise (OtherError "DataError" "invalid input syntax for type timestamp")
  end.
Definition bind_timestamp (k : string) (record : dict pyval) : res Z :=
  s ← bind_text k record; read_timestamp s.

(** [{**unsigned, "signature": signer.sign(encode(unsigned)).value}], validated. *)
Definition _sign (contract : string) (payload : dict pyval) : res (dict pyval) :=
  let unsigned := ddel "signature" payload in
  bs ← encode (PDict unsigned);
  let signed := dset "signature" (PStr (pf_sign pf bs)) unsigned in
  _ ← pf_validate pf contract (PDict signed);
  Ok signed.

(** * Approvals *)

Definition payload_fits (p : dict pyval) : bool := pf_octets pf (PDict p) <=? 16384.

Definition request_ok (r : approval_request) : bool :=
  (1 <=? r_required_quorum r) && (r_required_quorum r <=? 20) && payload_fits (r_payload r).
Definition request_conflict (a b : approval_request) : bool :=
  bool_decide (r_approval_id a = r_approval_id b)
  || (bool_decide (r_workflow_id a = r_workflow_id b)
      && bool_decide (r_interrupt_id a = r_interrupt_id b)
      && bool_decide (r_tool_call_id a = r_tool_call_id b)
      && bool_decide (r_action_hash a = r_action_hash b)).

Definition decision_ok (d : approval_decision) : bool :=
  bool_decide (d_decision d ∈ ["approved"; "rejected"; "expired"; "revoked"])
  && payload_fits (d_payload d).
Definition decision_conflict (a b : approval_decision) : bool :=
  bool_decide (d_decision_id a = d_decision_id b)
  || (bool_decide (d_approval_id a = d_approval_id b)
      && bool_decide (d_decided_by a = d_decided_by b)).

Definition consumption_conflict (a b : approval_consumption) : bool :=
  bool_decide (c_consumption_id a = c_consumption_id b)
  || bool_decide (c_approval_id a = c_approval_id b)
  || bool_decide (c_delivery_id a = c_delivery_id b)
  || bool_decide (c_effect_or_transition_id a = c_effect_or_transition_id b).

Definition insert_request (r : approval_request) : stres control_store unit := fun s =>
  checked_insert (request_ok r) (existsb (request_conflict r) (st_requests s))
    (dmem (r_workflow_id r) (instances (st_ledger s)))
    (mkStore (st_ledger s) (st_requests s ++ [r]) (st_decisions s) (st_consumptions s)
       (st_checkpoints s) (st_effects s)) s.

Definition insert_decision (d : approval_decision) : stres control_store unit := fun s =>
  checked_insert (decision_ok d) (existsb (decision_conflict d) (st_decisions s))
    (existsb (fun r => bool_decide (r_approval_id r = d_approval_id d)) (st_requests s))
    (mkStore (st_ledger s) (st_requests s) (st_decisions s ++ [d]) (st_consumptions s)
       (st_checkpoints s) (st_effects s)) s.

Definition insert_consumption (c : approval_consumption) : stres control_store unit := fun s =>
  checked_insert (payload_fits (c_payload c))
    (existsb (consumption_conflict c) (st_consumptions s))
    (existsb (fun r => bool_decide (r_approval_id r = c_approval_id c)) (st_requests s)
     && existsb (fun d => bool_decide (d_decision_id d = c_decision_id c)) (st_decisions s))
    (mkStore (st_ledger s) (st_requests s) (st_decisions s) (st_consumptions s ++ [c])
       (st_checkpoints s) (st_effects s)) s.

(** The row the INSERT makes of a signed request. *)
Definition request_row (signed : dict pyval) : res approval_request :=
  let quorum := dset "required_quorum" (pget_or "quorum" (PInt 1) signed) signed in
  let params := dset "separation_of_duties"
                  (pget_or "separation_of_duties" (PBool false) signed) quorum in
  a ← bind_text "approval_id" params;
  w ← bind_text "workflow_id" params;
  i ← bind_text "interrupt_id" params;
  t ← bind_text "tool_call_id" params;
  ah ← bind_char64 "action_hash" params;
  rh ← bind_char64 "resume_payload_hash" params;
  by_ ← bind_text "requested_by" params;
  q ← bind_int 32 "required_quorum" params;
  sod ← bind_bool "separation_of_duties" params;
  ex ← bind_timestamp "expires_at" params;
  sg ← bind_text "signature" params;
  cr ← bind_timestamp "created_at" params;
  Ok (mkRequest a w i t ah rh by_ q sod signed ex (pf_key_id pf) sg cr).

Definition _request_approval (payload : dict pyval) : stres control_store (dict pyval) :=
  signed ← lift_res (_sign "approval" (dset "phase" (PStr "request") payload));
  row ← lift_res (request_row signed);
  _ ← insert_request row;
  mret signed.

(** [SELECT ... FOR UPDATE] and [.one()] *)
Definition find_request (approval_id : string) : stres control_store approval_request :=
  fun s =>
  match filter (fun r => r_approval_id r = approval_id) (st_requests s) with
  | [r] => (Ok r, s)
  | [] => (Raise (OtherError "NoResultFound" approval_id), s)
  | _ => (Raise (OtherError "MultipleResultsFound" approval_id), s)
  end.

Definition decision_base (request : approval_request) (decided_by decision created_at : string)
    : dict pyval :=
  ddel "signature"
    (dupdate (r_payload request)
       [("phase", PStr "decision"); ("decided_by", PStr decided_by);
        ("decision", PStr decision); ("quorum", PInt (r_required_quorum request));
        ("separation_of_duties", PBool (r_separation_of_duties request));
        ("created_at", PStr created_at)]).

Definition signature_of (signed : dict pyval) : string := py_str (pget "signature" signed).

Definition _decide_approval (now : Z)
    (approval_id decision_id decided_by decision policy_version created_at : string)
    : stres control_store (dict pyval) :=
  request ← find_request approval_id;
  if negb (now <? r_expires_at request)
  then raise_st (ValueError "approval request is expired")
  else if r_separation_of_duties request && bool_decide (decided_by = r_requested_by request)
  then raise_st (ValueError "approval decision violates separation of duties")
  else
    signed ← lift_res (_sign "approval" (decision_base request decided_by decision created_at));
    at_ ← lift_res (read_timestamp created_at);
    _ ← insert_decision (mkDecision decision_id approval_id decided_by decision policy_version
                           signed (pf_key_id pf) (signature_of signed) at_);
    mret signed.

(** [ORDER BY decided_at, decision_id] *)
Definition decision_le (a b : approval_decision) : bool :=
  (d_decided_at a <? d_decided_at b)
  || ((d_decided_at a =? d_decided_at b) && text_le (d_decision_id a) (d_decision_id b)).
Fixpoint insert_decision_ordered (d : approval_decision) (l : list approval_decision)
    : list approval_decision :=
  match l with
  | [] => [d]
  | e :: r => if decision_le d e then d :: l else e :: insert_decision_ordered d r
  end.
Definition decisions_of (approval_id : string) (s : control_store) : list approval_decision :=
  foldr insert_decision_ordered []
    (filter (fun d => d_approval_id d = approval_id) (st_decisions s)).

Definition is_approved (d : approval_decision) : bool := bool_decide (d_decision d = "approved").

(** [approved[-1]["decision_id"]] *)
Definition last_decision_id (approved : list approval_decision) : res string :=
  match last approved with
  | Some d => Ok (d_decision_id d)
  | None => Raise (OtherError "IndexError" "list index out of range")
  end.

Definition consumption_base (request : approval_request)
    (decision_id delivery_id effect_or_transition_id created_at : string) : dict pyval :=
  ddel "signature"
    (dupdate (r_payload request)
       [("phase", PStr "consumption"); ("decision_receipt_id", PStr decision_id);
        ("delivery_id", PStr delivery_id);
        ("consumed_effect_id", PStr effect_or_transition_id);
        ("created_at", PStr created_at)]).

Definition _consume_approval (now : Z)
    (approval_id consumption_id delivery_id effect_or_transition_id created_at : string)
    : stres control_store (dict pyval) :=
  request ← find_request approval_id;
  decisions ← gets_st (decisions_of approval_id);
  let approved := List.filter is_approved decisions in
  if negb (now <? r_expires_at request)
     || existsb (fun d => negb (is_approved d)) decisions
  then raise_st (ValueError "approval cannot be consumed")
  else if Z.of_nat (length approved) <? r_required_quorum request
  then raise_st (ValueError "approval quorum is incomplete")
  else
    decision_id ← lift_res (last_decision_id approved);
    signed ← lift_res (_sign "approval" (consumption_base request decision_id delivery_id
                                           effect_or_transition_id created_at));
    at_ ← lift_res (read_timestamp created_at);
    _ ← insert_consumption (mkConsumption consumption_id approval_id decision_id delivery_id
                              effect_or_transition_id signed (pf_key_id pf)
                              (signature_of signed) at_);
    mret signed.

(** * Checkpoints *)

Definition checkpoint_ok (k : checkpoint) : bool :=
  (0 <=? k_sequence k) && payload_fits (k_payload k).
Definition checkpoint_conflict (a b : checkpoint) : bool :=
  bool_decide (k_checkpoint_id a = k_checkpoint_id b)
  || (bool_decide (k_workflow_id a = k_workflow_id b) && (k_sequence a =? k_sequence b)).

Definition insert_checkpoint (k : checkpoint) : stres control_store unit := fun s =>
  checked_insert (checkpoint_ok k) (existsb (checkpoint_conflict k) (st_checkpoints s))
    (dmem (k_workflow_id k) (instances (st_ledger s))
     && match k_parent_checkpoint_id k with
        | Some p => existsb (fun c => bool_decide (k_checkpoint_id c = p)) (st_checkpoints s)
        | None => true
        end)
    (mkStore (st_ledger s) (st_requests s) (st_decisions s) (st_consumptions s)
       (st_checkpoints s ++ [k]) (st_effects s)) s.

(** The SELECT by a parameter of any type, and [.one()]. *)
Definition lock_aggregate (w : pyval) : stres control_store instance := fun s =>
  match w with
  | PStr w => match dget w (instances (st_ledger s)) with
              | Some i => (Ok i, s)
              | None => (Raise (OtherError "NoResultFound" w), s)
              end
  | PNone => (Raise (OtherError "NoResultFound" ""), s)
  | _ => (Raise (OtherError "ProgrammingError" "operator does not exist"), s)
  end.

Fixpoint check_expected (expected : list (string * pyval)) (receipt : dict pyval) : res unit :=
  match expected with
  | [] => Ok tt
  | (field_name, value) :: r =>
      if py_eq (pget field_name receipt) value then check_expected r receipt
      else Raise (ValueError ("checkpoint " +:+ field_name +:+ " must equal locked aggregate"))
  end.
Definition expected_of (locked : instance) : list (string * pyval) :=
  [("segment_id", PStr (i_segment_id locked));
   ("sequence", PInt (i_current_sequence locked));
   ("event_hash", py_opt (i_current_event_hash locked));
   ("reducer_version", PStr (i_reducer_version locked))].

(** [ORDER BY sequence] *)
Fixpoint insert_checkpoint_ordered (k : checkpoint) (l : list checkpoint) : list checkpoint :=
  match l with
  | [] => [k]
  | c :: r => if k_sequence k <=? k_sequence c then k :: l
              else c :: insert_checkpoint_ordered k r
  end.
Definition checkpoints_of (w : string) (s : control_store) : list checkpoint :=
  foldr insert_checkpoint_ordered []
    (filter (fun k => k_workflow_id k = w) (st_checkpoints s)).

(** [ORDER BY sequence DESC LIMIT 1] *)
Definition latest_checkpoint_id (w : string) (s : control_store) : option string :=
  k_checkpoint_id <$> last (checkpoints_of w s).

Definition checkpoint_row (signed : dict pyval) (parent : option string) : res checkpoint :=
  c ← bind_text "checkpoint_id" signed;
  w ← bind_text "workflow_id" signed;
  n ← bind_int 64 "sequence" signed;
  sh ← bind_char64 "state_hash" signed;
  eh ← bind_char64 "event_hash" signed;
  rv ← bind_text "reducer_version" signed;
  at_ ← bind_timestamp "committed_at" signed;
  Ok (mkCheckpoint c w n parent sh eh rv signed (pf_key_id pf) (signature_of signed) at_).

Definition _append_checkpoint (receipt : dict pyval) : stres control_store (dict pyval) :=
  w ← lift_res (pitem "workflow_id" receipt);
  locked ← lock_aggregate w;
  _ ← lift_res (check_expected (expected_of locked) receipt);
  signed ← lift_res (_sign "checkpoint" receipt);
  parent_id ← gets_st (latest_checkpoint_id (i_workflow_id locked));
  row ← lift_res (checkpoint_row signed parent_id);
  _ ← insert_checkpoint row;
  mret signed.

Definition _list_checkpoints (w : string) (cursor limit : Z)
    : stres control_store (list (dict pyval)) :=
  if negb ((1 <=? limit) && (limit <=? 50))
  then raise_st (ValueError "checkpoint page limit must be between 1 and 50")
  else gets_st (fun s =>
    map k_payload
      (firstn (Z.to_nat limit)
         (List.filter (fun k => cursor <? k_sequence k) (checkpoints_of w s)))).

(** * Side-effect receipts *)

Definition effect_ok (e : side_effect_receipt) : bool :=
  bool_decide (s_status e ∈ ["prepared"; "succeeded"; "failed"; "compensated"])
  && (1 <=? s_attempt e) && payload_fits (s_payload e).
Definition effect_final (e : side_effect_receipt) : bool :=
  bool_decide (s_status e ∈ ["succeeded"; "compensated"]).
Definition same_effect (a b : side_effect_receipt) : bool :=
  bool_decide (s_workflow_id a = s_workflow_id b)
  && bool_decide (s_effect_id a = s_effect_id b) && bool_decide (s_owner a = s_owner b).
Definition effect_conflict (a b : side_effect_receipt) : bool :=
  bool_decide (s_receipt_id a = s_receipt_id b)
  || (same_effect a b && (s_attempt a =? s_attempt b))
  || (same_effect a b && effect_final a && effect_final b).

Definition insert_effect (e : side_effect_receipt) : stres control_store unit := fun s =>
  checked_insert (effect_ok e) (existsb (effect_conflict e) (st_effects s))
    (dmem (s_workflow_id e) (instances (st_ledger s)))
    (mkStore (st_ledger s) (st_requests s) (st_decisions s) (st_consumptions s)
       (st_checkpoints s) (st_effects s ++ [e])) s.

Definition effect_row (signed : dict pyval) : res side_effect_receipt :=
  let params := dset "response_hash" (pget "response_hash" signed) signed in
  r ← bind_text "receipt_id" params;
  w ← bind_text "workflow_id" params;
  e ← bind_text "effect_id" params;
  t ← bind_text "effect_type" params;
  o ← bind_text "owner" params;
  qh ← bind_char64 "request_hash" params;
  ph ← bind_text_null "response_hash" params;
  ph ← match ph with Some h => Some <$> char64 h | None => Ok None end;
  ai ← bind_text "adapter_id" params;
  av ← bind_text "adapter_version" params;
  st ← bind_text "status" params;
  rd ← bind_text "replay_disposition" params;
  n ← bind_int 32 "attempt" params;
  sg ← bind_text "signature" params;
  at_ ← bind_timestamp "recorded_at" params;
  Ok (mkEffect r w e t o qh ph ai av st rd n signed (pf_key_id pf) sg at_).

Definition _record_side_effect (payload : dict pyval) : stres control_store (dict pyval) :=
  signed ← lift_res (_sign "side_effect_receipt" payload);
  row ← lift_res (effect_row signed);
  _ ← insert_effect row;
  mret signed.

End controls.
