(* ===== verification/ControlTheorems.v ===== *)
(** What the control plane promises: an approval is consumed at most once, and
    only with the agreement of a full quorum of distinct approvers; a veto is
    final; checkpoints form one lineage over the ledger's own hashes; an effect
    settles at most once per owner.  The guarantees hold for every interleaving
    of control writes and ledger writes. *)
From Stdlib Require Import Sorting.Sorted.
From S2P Require Import Prelude PyDict PyStr PyVal PyJson PyTime.
From S2P Require Import Canonical Transitions Ledger Reducer Facade LedgerChain LedgerInvariant.
From S2P Require Import LedgerRuns LedgerTheorems.
From S2P Require Import Controls.

(** * Lists of rows *)

Lemma nodup_map_snoc {A B} (f : A -> B) (l : list A) (x : A) :
  NoDup (map f l) -> (forall y, y ∈ l -> f x ≠ f y) -> NoDup (map f (l ++ [x])).
Proof.
  intros Hl Hx. rewrite map_app. apply NoDup_app. split_and!; [done | | apply NoDup_singleton].
  intros b Hb ->%list_elem_of_singleton. apply list_elem_of_fmap in Hb as (y & Hy & Hin).
  by destruct (Hx y Hin).
Qed.

Lemma existsb_some {A} (P : A -> bool) l x : x ∈ l -> P x = true -> existsb P l = true.
Proof. intros Hx Hp. apply existsb_exists. exists x. by rewrite <- list_elem_of_In. Qed.

Lemma filter_and_all {A} (P Q : A -> Prop) `{forall x, Decision (P x)}
    `{forall x, Decision (Q x)} (l : list A) :
  (forall x, x ∈ l -> P x -> Q x) -> filter (fun x => P x /\ Q x) l = filter P l.
Proof.
  induction l as [|x l IH]; intros Hl; [done|]. rewrite !filter_cons.
  rewrite IH by (intros y Hy; apply Hl; by right).
  specialize (Hl x (list_elem_of_here x l)). repeat case_decide; naive_solver.
Qed.

(** The inserted row is new under every key the conflict test compares. *)
Lemma checked_insert_inv ok dup fk s' s u s1 :
  checked_insert ok dup fk s' s = (Ok u, s1) ->
  ok = true /\ dup = false /\ fk = true /\ s1 = s'.
Proof. unfold checked_insert. destruct ok, dup, fk; naive_solver. Qed.

Lemma checked_insert_raise ok dup fk s' s e s1 :
  checked_insert ok dup fk s' s = (Raise e, s1) -> s1 = s.
Proof. unfold checked_insert. destruct ok, dup, fk; naive_solver. Qed.

(** * Sorting by decision time and by checkpoint sequence *)

Lemma insert_decision_perm le d l : insert_decision_ordered le d l ≡ₚ d :: l.
Proof.
  induction l as [|e l IH]; simpl; [done|]. case_match; [done|]. rewrite IH. constructor.
Qed.
Lemma decisions_of_perm le a s :
  decisions_of le a s ≡ₚ filter (fun d => d_approval_id d = a) (st_decisions s).
Proof.
  unfold decisions_of. induction (filter _ _) as [|d l IH]; simpl; [done|].
  by rewrite insert_decision_perm, IH.
Qed.

Definition no_later (a b : approval_decision) : Prop := d_decided_at a <= d_decided_at b.

Lemma insert_decision_sorted le d l :
  StronglySorted no_later l -> StronglySorted no_later (insert_decision_ordered le d l).
Proof.
  induction 1 as [|e l Hs IH He]; simpl; [repeat constructor|].
  unfold decision_le. destruct (_ || _) eqn:E.
  - constructor; [by constructor|]. apply Forall_cons.
    assert (Hde : no_later d e).
    { unfold no_later. apply orb_true_iff in E as [E|E]; bool_prop; lia. }
    split; [done|]. eapply Forall_impl; [exact He|]. unfold no_later in *. simpl. lia.
  - constructor; [done|]. rewrite insert_decision_perm. apply Forall_cons. split; [|done].
    bool_prop. unfold no_later. lia.
Qed.

Lemma latest_last le a s d x :
  last (decisions_of le a s) = Some d -> x ∈ decisions_of le a s -> no_later x d.
Proof.
  assert (Hs : StronglySorted no_later (decisions_of le a s)).
  { unfold decisions_of. induction (filter _ _); simpl; [constructor|].
    by apply insert_decision_sorted. }
  intros Hl Hx. revert Hs Hl Hx. generalize (decisions_of le a s). intros l Hs.
  induction Hs as [|e l Hs IH He]; [done|]. intros Hl Hx.
  destruct l as [|f l].
  { injection Hl as <-. apply list_elem_of_singleton in Hx as ->. unfold no_later. lia. }
  apply list.elem_of_cons in Hx as [->|Hx]; [|by apply IH].
  rewrite Forall_forall in He. apply He. apply last_Some in Hl as [l' Hl].
  destruct l' as [|y l']; [done|]. injection Hl as _ ->. set_solver.
Qed.

(** Strictly increasing sequences, each checkpoint naming its predecessor. *)
Fixpoint lineage (parent : option string) (n : Z) (ks : list checkpoint) : Prop :=
  match ks with
  | [] => True
  | k :: r => k_parent_checkpoint_id k = parent /\ n < k_sequence k /\
              lineage (Some (k_checkpoint_id k)) (k_sequence k) r
  end.

Definition last_id (parent : option string) (ks : list checkpoint) : option string :=
  foldl (fun _ k => Some (k_checkpoint_id k)) parent ks.

Lemma lineage_snoc parent n ks k :
  lineage parent n ks -> n < k_sequence k ->
  (forall c, c ∈ ks -> k_sequence c < k_sequence k) ->
  k_parent_checkpoint_id k = last_id parent ks -> lineage parent n (ks ++ [k]).
Proof.
  revert parent n. induction ks as [|c ks IH]; intros parent n; simpl; [naive_solver|].
  intros (Hp & Hn & Hl) Hk Hall Hid. split_and!; [done..|].
  apply IH; [done | apply Hall; by left | | done]. intros c' Hc'. apply Hall. by right.
Qed.

Lemma lineage_above parent n ks k : lineage parent n ks -> k ∈ ks -> n < k_sequence k.
Proof.
  revert parent n. induction ks as [|c ks IH]; intros parent n; [set_solver|].
  intros (_ & Hn & Hl) [->|Hin]%list.elem_of_cons; [done|]. specialize (IH _ _ Hl Hin). lia.
Qed.

Lemma lineage_sorted parent n ks :
  lineage parent n ks -> foldr insert_checkpoint_ordered [] ks = ks.
Proof.
  revert parent n. induction ks as [|k ks IH]; intros parent n; [done|].
  intros (_ & _ & Hl). simpl. rewrite (IH _ _ Hl). destruct ks as [|c ks]; [done|].
  simpl in Hl |- *. destruct Hl as (_ & Hk & _). by rewrite (proj2 (Z.leb_le _ _)) by lia.
Qed.

Lemma last_id_last ks : last_id None ks = k_checkpoint_id <$> last ks.
Proof.
  unfold last_id. destruct ks as [|k ks] using rev_ind; [done|]. by rewrite foldl_app, last_snoc.
Qed.

(** * The event hash a checkpoint records *)

Lemma hex_bytes_length bs :
  length (String.list_ascii_of_string (Sha256.hex_bytes bs)) = (2 * length bs)%nat.
Proof.
  induction bs as [|b bs IH]; [done|]. cbn [Sha256.hex_bytes].
  change (length (String.list_ascii_of_string (hex_byte b +:+ Sha256.hex_bytes bs)))
    with (S (S (length (String.list_ascii_of_string (Sha256.hex_bytes bs))))). rewrite IH.
  simpl. lia.
Qed.

Lemma char64_digest msg : char64 (Sha256.hexdigest msg) = Ok (Sha256.hexdigest msg).
Proof.
  destruct (fromhex_digest msg) as (bs & _ & Hl & ->). unfold char64.
  pose proof (hex_bytes_length bs) as Hn. rewrite Hl in Hn. cbv zeta.
  rewrite drop_ge by lia. rewrite take_ge by lia. rewrite Hn. simpl.
  by rewrite app_nil_r, String.string_of_list_ascii_of_string.
Qed.

Lemma char64_event pf prev seq es e :
  chained pf prev seq es -> e ∈ es -> char64 (event_hash e) = Ok (event_hash e).
Proof.
  revert prev seq. induction es as [|x es IH]; intros prev seq; [set_solver|].
  intros [Hx Hes] [->|Hin]%list.elem_of_cons; [|by eapply IH].
  destruct (proj1 (chained_hash_bytes _ _ _) (link_hash _ _ _ _ Hx)) as (bs & _ & ->).
  apply char64_digest.
Qed.

Lemma last_hash_event prev es h :
  last_hash prev es = Some h -> es ≠ [] ->
  exists es' e, es = es' ++ [e] /\ event_hash e = h.
Proof.
  destruct es as [|e es _] using rev_ind; [done|]. rewrite last_hash_snoc.
  intros [= <-] _. by exists es, e.
Qed.

Lemma py_eq_str v s : py_eq v (PStr s) = true -> v = PStr s.
Proof. destruct v; simpl; try done. by intros ->%bool_decide_eq_true. Qed.

(** A number equal to an integer is that integer after the column's rounding. *)
Lemma round_equal m e n :
  flval_eq (FFin m e) (FFin n 0) = true -> round_half_away m e = n.
Proof.
  unfold flval_eq, round_half_away, dy_trunc. intros H%Z.eqb_eq.
  assert (Hq : (if 0 <=? e then 2 * Z.abs m * 2 ^ e else Z.quot (2 * Z.abs m) (2 ^ (- e)))
               = 2 * Z.abs n /\ Z.sgn m = Z.sgn n).
  { destruct (0 <=? e) eqn:E; bool_prop.
    - rewrite Z.min_r in H by lia. rewrite !Z.sub_0_r, Z.mul_1_r in H. subst n.
      pose proof (Z.pow_pos_nonneg 2 e ltac:(lia) ltac:(lia)).
      rewrite Z.abs_mul, Z.sgn_mul, (Z.abs_eq (2 ^ e)), (Z.sgn_pos (2 ^ e)) by lia. lia.
    - rewrite Z.min_l, Z.sub_diag, Z.mul_1_r in H by lia. subst m.
      pose proof (Z.pow_pos_nonneg 2 (0 - e) ltac:(lia) ltac:(lia)).
      replace (0 - e) with (- e) in * by lia.
      rewrite Z.abs_mul, Z.sgn_mul, (Z.abs_eq (2 ^ (- e))), (Z.sgn_pos (2 ^ (- e))) by lia.
      rewrite Z.mul_assoc, Z.quot_mul by lia. lia. }
  destruct Hq as [-> ->].
  replace ((2 * Z.abs n + 1) / 2) with (Z.abs n); [lia|].
  rewrite Z.add_comm, Z.mul_comm, Z.div_add by lia. done.
Qed.

Lemma bind_int_equal bits k d n z :
  py_eq (pget k d) (PInt n) = true -> bind_int bits k d = Ok z -> z = n.
Proof.
  unfold bind_int, pget. intros Heq E. bind_inv E. destruct (_ && _); [|done]. injection E as <-.
  destruct (dget k d) as [v|]; [|done]. destruct v as [| |x|f| | |]; simpl in *; try done.
  - injection Ha as <-. rewrite !Z.mul_1_r in Heq. by apply Z.eqb_eq in Heq.
  - destruct (fl_val f) as [m e|neg|] eqn:Ef; [|done..]. injection Ha as <-.
    rewrite ?Ef in Heq. by apply round_equal.
Qed.

Section theorems.
Variable pf : platform.
Variable registry : CompatibilityRegistry.
Variable timestamptz : string -> option Z.
Variable text_le : string -> string -> bool.

(** * What each control write does when it commits *)

Lemma find_request_inv a s r s' :
  find_request a s = (Ok r, s') -> s' = s /\ r ∈ st_requests s /\ r_approval_id r = a.
Proof.
  unfold find_request. intros E.
  destruct (filter _ (st_requests s)) as [|q [|? ?]] eqn:Ef; [done| |done]. inv E.
  split; [done|]. assert (Hin : r ∈ filter (fun q => r_approval_id q = a) (st_requests s'))
    by (rewrite Ef; by left). by apply list_elem_of_filter in Hin as [? ?].
Qed.

Lemma request_inv p s signed s' :
  _request_approval pf timestamptz p s = (Ok signed, s') -> exists r,
    s' = mkStore (st_ledger s) (st_requests s ++ [r]) (st_decisions s) (st_consumptions s)
           (st_checkpoints s) (st_effects s) /\
    request_ok pf r = true /\ existsb (request_conflict r) (st_requests s) = false.
Proof.
  unfold _request_approval. intros E.
  apply st_bind_Ok_inv in E as (sg & s1 & [= _ <-] & E).
  apply st_bind_Ok_inv in E as (r & s2 & [= _ <-] & E).
  apply st_bind_Ok_inv in E as (u & s3 & Ei & E). inv E.
  apply checked_insert_inv in Ei as (Hok & Hd & _ & ->). by exists r.
Qed.

Lemma decide_inv now a di by_ de pv at_ s signed s' :
  _decide_approval pf timestamptz now a di by_ de pv at_ s = (Ok signed, s') -> exists r d,
    s' = mkStore (st_ledger s) (st_requests s) (st_decisions s ++ [d]) (st_consumptions s)
           (st_checkpoints s) (st_effects s) /\
    r ∈ st_requests s /\ r_approval_id r = a /\ now < r_expires_at r /\
    (r_separation_of_duties r = true -> by_ ≠ r_requested_by r) /\
    d_approval_id d = a /\ d_decided_by d = by_ /\ d_decision d = de /\
    existsb (decision_conflict d) (st_decisions s) = false.
Proof.
  unfold _decide_approval. intros E.
  apply st_bind_Ok_inv in E as (r & s1 & Er & E).
  apply find_request_inv in Er as (-> & Hr & Ha).
  destruct (negb (now <? _)) eqn:Et; [done|].
  destruct (_ && bool_decide _) eqn:Es; [done|].
  apply st_bind_Ok_inv in E as (sg & s2 & [= _ <-] & E).
  apply st_bind_Ok_inv in E as (t & s3 & [= _ <-] & E).
  apply st_bind_Ok_inv in E as (u & s4 & Ei & E). inv E.
  apply checked_insert_inv in Ei as (_ & Hd & _ & ->). bool_prop.
  exists r. eexists. split; [done|]. do 2 (split; [done|]). split; [done|]. split; [|done].
  intros Hs. rewrite Hs in Es. by apply bool_decide_eq_false in Es.
Qed.

Lemma consume_inv now a ci di ei at_ s signed s' :
  _consume_approval pf timestamptz text_le now a ci di ei at_ s = (Ok signed, s') ->
  exists r c d,
    s' = mkStore (st_ledger s) (st_requests s) (st_decisions s) (st_consumptions s ++ [c])
           (st_checkpoints s) (st_effects s) /\
    r ∈ st_requests s /\ r_approval_id r = a /\ now < r_expires_at r /\
    (forall x, x ∈ decisions_of text_le a s -> d_decision x = "approved") /\
    r_required_quorum r <= Z.of_nat (length (decisions_of text_le a s)) /\
    last (decisions_of text_le a s) = Some d /\
    c_approval_id c = a /\ c_decision_id c = d_decision_id d /\ c_delivery_id c = di /\
    c_effect_or_transition_id c = ei /\ c_payload c = signed /\
    _sign pf "approval" (consumption_base r (d_decision_id d) di ei at_) = Ok signed /\
    existsb (consumption_conflict c) (st_consumptions s) = false.
Proof.
  unfold _consume_approval. intros E.
  apply st_bind_Ok_inv in E as (r & s1 & Er & E).
  apply find_request_inv in Er as (-> & Hr & Ha).
  apply st_bind_Ok_inv in E as (ds & s2 & [= <- <-] & E).
  destruct (_ || _) eqn:Ev; [done|]. destruct (Z.of_nat _ <? _) eqn:Eq; [done|]. bool_prop.
  assert (Hall : forall x, x ∈ decisions_of text_le a s -> is_approved x = true).
  { intros x Hx. eapply existsb_false in H0; [|exact Hx]. by apply negb_false_iff in H0. }
  assert (Hfl : List.filter is_approved (decisions_of text_le a s) = decisions_of text_le a s).
  { by apply filter_all. }
  rewrite Hfl in *. unfold last_decision_id in E.
  destruct (last (decisions_of text_le a s)) as [d|] eqn:El; [|done].
  apply st_bind_Ok_inv in E as (did & s3 & [= <- <-] & E).
  apply st_bind_Ok_inv in E as (sg & s4 & [= Hsg <-] & E).
  apply st_bind_Ok_inv in E as (t & s5 & [= _ <-] & E).
  apply st_bind_Ok_inv in E as (u & s6 & Ei & E). inv E.
  apply checked_insert_inv in Ei as (_ & Hd & _ & ->).
  exists r. eexists. exists d. split; [done|]. split_and!; try done.
  intros x Hx. apply Hall in Hx. by apply bool_decide_eq_true in Hx.
Qed.

Lemma sign_keeps contract p signed k :
  _sign pf contract p = Ok signed -> k ≠ "signature" -> dget k signed = dget k p.
Proof.
  unfold _sign. intros E Hk. bind_inv E. bind_inv E. injection E as <-.
  by rewrite dget_dset_ne, dget_ddel_ne.
Qed.

Lemma bind_text_get k d s : bind_text k d = Ok s -> dget k d = Some (PStr s).
Proof. unfold bind_text. destruct (dget k d) as [[ ]|]; naive_solver. Qed.

Lemma check_expected_get expected receipt f v :
  check_expected expected receipt = Ok tt -> (f, v) ∈ expected ->
  py_eq (pget f receipt) v = true.
Proof.
  induction expected as [|[g u] r IH]; [set_solver|]. simpl.
  destruct (py_eq (pget g receipt) u) eqn:E; [|done].
  intros H [[= -> ->]|Hin]%list.elem_of_cons; auto.
Qed.

Lemma lock_aggregate_inv w s i s' :
  lock_aggregate w s = (Ok i, s') ->
  s' = s /\ exists w', w = PStr w' /\ dget w' (instances (st_ledger s)) = Some i.
Proof.
  unfold lock_aggregate. destruct w as [| | | |w| |]; try done.
  destruct (dget w _) as [j|] eqn:E; [|done]. intros [= -> ->]. eauto.
Qed.

Lemma checkpoint_inv p s signed s' :
  _append_checkpoint pf timestamptz p s = (Ok signed, s') -> exists locked k h,
    s' = mkStore (st_ledger s) (st_requests s) (st_decisions s) (st_consumptions s)
           (st_checkpoints s ++ [k]) (st_effects s) /\
    dget (k_workflow_id k) (instances (st_ledger s)) = Some locked /\
    k_sequence k = i_current_sequence locked /\
    i_current_event_hash locked = Some h /\ char64 h = Ok (k_event_hash k) /\
    k_parent_checkpoint_id k = latest_checkpoint_id (i_workflow_id locked) s /\
    k_payload k = signed /\
    existsb (checkpoint_conflict k) (st_checkpoints s) = false.
Proof.
  unfold _append_checkpoint. intros E.
  apply st_bind_Ok_inv in E as (w & s1 & [= Hw <-] & E).
  apply st_bind_Ok_inv in E as (locked & s2 & El & E).
  apply st_bind_Ok_inv in E as (u1 & s3 & [= Hex <-] & E).
  apply st_bind_Ok_inv in E as (sg & s4 & [= Hsg <-] & E).
  apply st_bind_Ok_inv in E as (parent & s5 & [= <- <-] & E).
  apply st_bind_Ok_inv in E as (k & s6 & [= Hk <-] & E).
  apply st_bind_Ok_inv in E as (u2 & s7 & Ei & E). inv E.
  apply checked_insert_inv in Ei as (_ & Hd & _ & ->).
  apply lock_aggregate_inv in El as [-> (w' & -> & Hi)]. destruct u1.
  assert (Hev := check_expected_get (expected_of locked) p "event_hash" (py_opt (i_current_event_hash locked))
                   Hex ltac:(set_solver)).
  assert (Hsq := check_expected_get (expected_of locked) p "sequence" (PInt (i_current_sequence locked))
                   Hex ltac:(set_solver)).
  unfold pget in Hev, Hsq. rewrite <- (sign_keeps _ _ _ _ Hsg) in Hev by done.
  rewrite <- (sign_keeps _ _ _ _ Hsg) in Hsq by done.
  unfold checkpoint_row in Hk. do 7 bind_inv Hk. injection Hk as <-. simpl in *.
  apply bind_text_get in Ha0. rewrite (sign_keeps _ _ _ _ Hsg) in Ha0 by done.
  unfold pitem in Hw. rewrite Ha0 in Hw. injection Hw as <-.
  apply (bind_int_equal _ _ _ _ _ Hsq) in Ha1.
  unfold bind_char64 in Ha3. bind_inv Ha3. apply bind_text_get in Ha6. rewrite Ha6 in Hev.
  destruct (i_current_event_hash locked) as [h|] eqn:Eh; [|done].
  apply bool_decide_eq_true in Hev. subst.
  eexists locked, _, h. split; [done|]. by split_and!.
Qed.

Lemma effect_inv p s signed s' :
  _record_side_effect pf timestamptz p s = (Ok signed, s') -> exists e,
    s' = mkStore (st_ledger s) (st_requests s) (st_decisions s) (st_consumptions s)
           (st_checkpoints s) (st_effects s ++ [e]) /\
    (forall k v, (k, v) ∈ [("workflow_id", s_workflow_id e); ("effect_id", s_effect_id e);
                           ("owner", s_owner e); ("status", s_status e)] ->
       dget k p = Some (PStr v)) /\
    existsb (effect_conflict e) (st_effects s) = false.
Proof.
  unfold _record_side_effect. intros E.
  apply st_bind_Ok_inv in E as (sg & s1 & [= Hsg <-] & E).
  apply st_bind_Ok_inv in E as (e & s2 & [= Hrow <-] & E).
  apply st_bind_Ok_inv in E as (u & s3 & Ei & E). inv E.
  apply checked_insert_inv in Ei as (Hok & Hd & _ & ->). exists e.
  split; [done|]. split; [|done]. unfold effect_row in Hrow. do 15 bind_inv Hrow.
  injection Hrow as <-. simpl.
  assert (Hget : forall k v, k ≠ "response_hash" -> k ≠ "signature" ->
    bind_text k (dset "response_hash" (pget "response_hash" signed) signed) = Ok v ->
    dget k p = Some (PStr v)).
  { intros k v H1 H2 Hb. apply bind_text_get in Hb. rewrite dget_dset_ne in Hb by done.
    by rewrite <- (sign_keeps _ _ _ _ Hsg). }
  intros k v Hin. repeat (apply list.elem_of_cons in Hin as [[= -> ->]|Hin]; [by apply Hget|]).
  by apply not_elem_of_nil in Hin.
Qed.

(** * The invariant *)

(** The approving decisions of a request, in the order they were recorded. *)
Definition approvals (a : string) (s : control_store) : list approval_decision :=
  filter (fun d => d_approval_id d = a /\ d_decision d = "approved") (st_decisions s).

(** A consumption rests on a request with a full quorum of approvals. *)
Definition backed (s : control_store) (c : approval_consumption) : Prop :=
  exists r, r ∈ st_requests s /\ r_approval_id r = c_approval_id c /\
    r_required_quorum r <= Z.of_nat (length (approvals (c_approval_id c) s)) /\
    exists d, d ∈ approvals (c_approval_id c) s /\ d_decision_id d = c_decision_id c.

(** A checkpoint records the hash of the event at its sequence. *)
Definition anchored (l : ledger) (k : checkpoint) : Prop :=
  exists e, e ∈ events_of (k_workflow_id k) l /\ sequence e = k_sequence k /\
    event_hash e = k_event_hash k.

Definition effect_key (e : side_effect_receipt) : string * string * string :=
  (s_workflow_id e, s_effect_id e, s_owner e).

Lemma same_effect_key e f : effect_key e = effect_key f -> same_effect e f = true.
Proof. intros [= H1 H2 H3]. unfold same_effect. by rewrite H1, H2, H3, !bool_decide_true. Qed.

Record store_ok (s : control_store) : Prop := {
  so_ledger : ledger_ok pf (st_ledger s);
  so_requests : NoDup (map r_approval_id (st_requests s));
  so_quorum : forall r, r ∈ st_requests s -> 1 <= r_required_quorum r <= 20;
  so_decided : forall d, d ∈ st_decisions s ->
    exists r, r ∈ st_requests s /\ r_approval_id r = d_approval_id d /\
      (r_separation_of_duties r = true -> d_decided_by d ≠ r_requested_by r);
  so_voters : NoDup (map (fun d => (d_approval_id d, d_decided_by d)) (st_decisions s));
  so_once : NoDup (map c_approval_id (st_consumptions s)) /\
    NoDup (map c_delivery_id (st_consumptions s)) /\
    NoDup (map c_effect_or_transition_id (st_consumptions s));
  so_backed : forall c, c ∈ st_consumptions s -> backed s c;
  so_lineage : forall w, lineage None 0
    (filter (fun k => k_workflow_id k = w) (st_checkpoints s));
  so_anchored : forall k, k ∈ st_checkpoints s -> anchored (st_ledger s) k;
  so_attempts : NoDup (map (fun e => (effect_key e, s_attempt e)) (st_effects s));
  so_final : NoDup (map effect_key (List.filter effect_final (st_effects s)));
}.

Lemma store_ok_empty : store_ok empty_store.
Proof.
  split; simpl; try (intros; set_solver); try apply NoDup_nil_2; try done.
  - apply ledger_ok_empty.
  - split_and!; apply NoDup_nil_2.
Qed.

(** Tables are insert-only. *)
Record store_extends (s s' : control_store) : Prop := {
  se_ledger : extends (st_ledger s) (st_ledger s');
  se_requests : st_requests s `prefix_of` st_requests s';
  se_decisions : st_decisions s `prefix_of` st_decisions s';
  se_consumptions : st_consumptions s `prefix_of` st_consumptions s';
  se_checkpoints : st_checkpoints s `prefix_of` st_checkpoints s';
  se_effects : st_effects s `prefix_of` st_effects s';
}.

#[export] Instance store_extends_preorder : PreOrder store_extends.
Proof.
  split.
  - intros s. split; [reflexivity|done..].
  - intros a b c [] []. split; etrans; done.
Qed.

(** One committed call: of a ledger writer or of the control plane. *)
Inductive control_step (s s' : control_store) : Prop :=
| cs_ledger l' : writer_step pf registry (st_ledger s) l' ->
    s' = mkStore l' (st_requests s) (st_decisions s) (st_consumptions s)
           (st_checkpoints s) (st_effects s) -> control_step s s'
| cs_request p r : _request_approval pf timestamptz p s = (Ok r, s') -> control_step s s'
| cs_decide now a di by_ de pv at_ r :
    _decide_approval pf timestamptz now a di by_ de pv at_ s = (Ok r, s') -> control_step s s'
| cs_consume now a ci di ei at_ r :
    _consume_approval pf timestamptz text_le now a ci di ei at_ s = (Ok r, s') ->
    control_step s s'
| cs_checkpoint p r : _append_checkpoint pf timestamptz p s = (Ok r, s') -> control_step s s'
| cs_effect p r : _record_side_effect pf timestamptz p s = (Ok r, s') -> control_step s s'.

Definition control_reachable (s : control_store) : Prop := rtc control_step empty_store s.

(** * Every step keeps it *)

Lemma backed_grows s s' c : store_extends s s' -> backed s c -> backed s' c.
Proof.
  intros [_ Hr Hd _ _ _] (r & Hin & Hid & Hq & d & Hdin & Hdid).
  assert (Ha : approvals (c_approval_id c) s `prefix_of` approvals (c_approval_id c) s').
  { destruct Hd as [ds Hd]. unfold approvals. rewrite Hd, filter_app. by apply prefix_app_r. }
  exists r. split; [by eapply elem_of_prefix|]. split; [done|].
  apply prefix_length in Ha as Hlen. split; [lia|].
  exists d. split; [by eapply elem_of_prefix | done].
Qed.

Lemma anchored_grows l l' k : extends l l' -> anchored l k -> anchored l' k.
Proof.
  intros [He _] (e & Hin & Hk). exists e. split; [|done].
  apply list_elem_of_filter in Hin as [Hw Hin]. apply list_elem_of_filter.
  split; [done | by eapply elem_of_prefix].
Qed.

Lemma ledger_step_ok s l' :
  store_ok s -> writer_step pf registry (st_ledger s) l' ->
  let s' := mkStore l' (st_requests s) (st_decisions s) (st_consumptions s)
              (st_checkpoints s) (st_effects s) in
  store_ok s' /\ store_extends s s'.
Proof.
  intros [ ] Hs s'. apply writer_step_sound in Hs as [Hok Hex]; [|done].
  split; [|by split]. split; simpl; try done.
  intros k Hk. eapply anchored_grows; eauto.
Qed.

Lemma request_step_ok s p r s' :
  store_ok s -> _request_approval pf timestamptz p s = (Ok r, s') ->
  store_ok s' /\ store_extends s s'.
Proof.
  intros [ ] E. apply request_inv in E as (q & -> & Hok & Hd).
  match goal with |- store_ok ?s' /\ _ => assert (Hext : store_extends s s') end.
  { split; simpl; try done; try reflexivity. by apply prefix_app_r. }
  split; [|done]. unfold request_ok in Hok. bool_prop.
  split; simpl; try done; eauto using backed_grows.
  - apply nodup_map_snoc; [done|]. intros y Hy Heq. eapply existsb_false in Hd; [|exact Hy].
    unfold request_conflict in Hd. by rewrite Heq, bool_decide_true in Hd.
  - intros y [Hy| ->%list_elem_of_singleton]%list.elem_of_app; [auto | done].
  - intros d Hdin. destruct (so_decided0 d Hdin) as (y & Hy & ?). exists y. set_solver.
Qed.

Lemma decide_step_ok s now a di by_ de pv at_ r s' :
  store_ok s -> _decide_approval pf timestamptz now a di by_ de pv at_ s = (Ok r, s') ->
  store_ok s' /\ store_extends s s'.
Proof.
  intros [ ] E.
  apply decide_inv in E as (q & d & -> & Hq & Hqa & _ & Hsod & Ha & Hby & _ & Hd).
  match goal with |- store_ok ?s' /\ _ => assert (Hext : store_extends s s') end.
  { split; simpl; try done; try reflexivity. by apply prefix_app_r. }
  split; [|done]. split; simpl; try done; eauto using backed_grows.
  - intros x [Hx| ->%list_elem_of_singleton]%list.elem_of_app; [auto|].
    exists q. split; [done|]. split; [congruence|]. rewrite Hby. done.
  - apply nodup_map_snoc; [done|]. intros y Hy [= H1 H2].
    eapply existsb_false in Hd; [|exact Hy]. unfold decision_conflict in Hd.
    rewrite (bool_decide_true (d_approval_id d = _)),
      (bool_decide_true (d_decided_by d = _)), orb_true_r in Hd by done. done.
Qed.

Lemma consume_step_ok s now a ci di ei at_ r s' :
  store_ok s ->
  _consume_approval pf timestamptz text_le now a ci di ei at_ s = (Ok r, s') ->
  store_ok s' /\ store_extends s s'.
Proof.
  intros Hs E. pose proof Hs as [ ].
  apply consume_inv in E as (q & c & d & -> & Hq & Hqa & _ & Hall & Hn & Hlast & Hca & Hcd &
    Hdi & Hei & _ & _ & Hd).
  match goal with |- store_ok ?s' /\ _ => assert (Hext : store_extends s s') end.
  { split; simpl; try done; try reflexivity. by apply prefix_app_r. }
  split; [|done].
  assert (Hnew : forall y, y ∈ st_consumptions s -> c_approval_id c ≠ c_approval_id y /\
    c_delivery_id c ≠ c_delivery_id y /\
    c_effect_or_transition_id c ≠ c_effect_or_transition_id y).
  { intros y Hy. eapply existsb_false in Hd; [|exact Hy]. unfold consumption_conflict in Hd.
    by bool_prop. }
  destruct so_once0 as (N1 & N2 & N3).
  split; simpl; try done.
  - split_and!; apply nodup_map_snoc; try done; intros y Hy; apply (Hnew y Hy).
  - intros x [Hx| ->%list_elem_of_singleton]%list.elem_of_app;
      [by eapply backed_grows; [|apply so_backed0]|].
    pose proof (decisions_of_perm text_le a s) as Hp.
    assert (Happ : approvals a s = filter (fun d => d_approval_id d = a) (st_decisions s)).
    { apply filter_and_all. intros y Hy Hya. apply Hall. rewrite Hp.
      by apply list_elem_of_filter. }
    exists q. simpl. rewrite Hca. split_and!; [done..| |].
    + rewrite Hp in Hn. unfold approvals in *. simpl. by rewrite Happ.
    + exists d. unfold approvals in *. simpl. rewrite Happ, <- Hp. split; [|done].
      apply last_Some in Hlast as [l' ->]. set_solver.
Qed.

Lemma filter_snoc_eq {A} (P : A -> Prop) `{forall x, Decision (P x)} (l : list A) x :
  filter P (l ++ [x]) = filter P l ++ (if decide (P x) then [x] else []).
Proof. rewrite filter_app, filter_cons. by case_decide. Qed.

Lemma frontier_event s w i h :
  ledger_ok pf (st_ledger s) -> dget w (instances (st_ledger s)) = Some i ->
  i_current_event_hash i = Some h ->
  char64 h = Ok h /\ 0 < i_current_sequence i /\
  exists e, e ∈ events_of w (st_ledger s) /\ sequence e = i_current_sequence i /\
    event_hash e = h.
Proof.
  intros Hok Hi Hh. destruct (lo_workflows _ _ Hok _ _ Hi) as [_ Hc Hs Hlast _ _ _].
  rewrite Hh in Hlast. symmetry in Hlast.
  apply last_hash_event in Hlast as (es & e & Hes & <-).
  2: { intros Hnil. by rewrite Hnil in Hlast. }
  rewrite Hes in Hc, Hs. split; [by eapply char64_event; [exact Hc | set_solver]|].
  rewrite length_app in Hs. simpl in Hs. split; [lia|].
  exists e. rewrite Hes. split; [set_solver|]. split; [|done].
  apply chained_app in Hc as [_ [Hl _]]. rewrite (link_sequence _ _ _ _ Hl). lia.
Qed.

Lemma anchored_below s w i k :
  ledger_ok pf (st_ledger s) -> dget w (instances (st_ledger s)) = Some i ->
  anchored (st_ledger s) k -> k_workflow_id k = w -> k_sequence k <= i_current_sequence i.
Proof.
  intros Hok Hi (e & He & Hs & _) <-. destruct (lo_workflows _ _ Hok _ _ Hi) as [_ Hc Hn _ _ _ _].
  pose proof (chained_sequence _ _ _ _ _ Hc He). lia.
Qed.

Lemma checkpoint_step_ok s p r s' :
  store_ok s -> _append_checkpoint pf timestamptz p s = (Ok r, s') ->
  store_ok s' /\ store_extends s s'.
Proof.
  intros [ ] E.
  apply checkpoint_inv in E as (i & k & h & -> & Hi & Hseq & Hh & Hc64 & Hpar & _ & Hd).
  match goal with |- store_ok ?s' /\ _ => assert (Hext : store_extends s s') end.
  { split; simpl; try done; try reflexivity. by apply prefix_app_r. }
  split; [|done].
  destruct (frontier_event s _ i h so_ledger0 Hi Hh) as (Hc & Hpos & e & He & Hes & Heh).
  rewrite Hc in Hc64. injection Hc64 as Hkh.
  rewrite (wo_id _ _ _ _ (lo_workflows _ _ so_ledger0 _ _ Hi)) in Hpar.
  split; simpl; try done.
  - intros w. rewrite filter_snoc_eq. case_decide as Hw; [|by rewrite app_nil_r]. subst w.
    specialize (so_lineage0 (k_workflow_id k)).
    apply lineage_snoc; [done | lia | |].
    + intros c Hcin. apply list_elem_of_filter in Hcin as [Hcw Hcin].
      eapply existsb_false in Hd; [|exact Hcin]. unfold checkpoint_conflict in Hd.
      rewrite (bool_decide_true (k_workflow_id k = _)) in Hd by done.
      pose proof (anchored_below s _ i c so_ledger0 Hi (so_anchored0 c Hcin) Hcw).
      apply orb_false_iff in Hd as [_ Hd]. simpl in Hd. bool_prop. lia.
    + rewrite Hpar. unfold latest_checkpoint_id, checkpoints_of.
      by rewrite (lineage_sorted _ _ _ so_lineage0), last_id_last.
  - intros c [Hcin| ->%list_elem_of_singleton]%list.elem_of_app; [auto|].
    exists e. split; [done|]. split; congruence.
Qed.

Lemma effect_step_ok s p r s' :
  store_ok s -> _record_side_effect pf timestamptz p s = (Ok r, s') ->
  store_ok s' /\ store_extends s s'.
Proof.
  intros [ ] E. apply effect_inv in E as (e & -> & _ & Hd).
  match goal with |- store_ok ?s' /\ _ => assert (Hext : store_extends s s') end.
  { split; simpl; try done; try reflexivity. by apply prefix_app_r. }
  split; [|done].
  assert (Hnew : forall y, y ∈ st_effects s -> effect_key e = effect_key y ->
    s_attempt e ≠ s_attempt y /\ effect_final e && effect_final y = false).
  { intros y Hy Hk. eapply existsb_false in Hd; [|exact Hy]. unfold effect_conflict in Hd.
    rewrite same_effect_key in Hd by done. simpl in Hd. apply orb_false_iff in Hd as [Hd Hf].
    apply orb_false_iff in Hd as [_ Ha]. bool_prop. done. }
  split; simpl; try done.
  - apply nodup_map_snoc; [done|]. intros y Hy [= H1 H2 H3 H4].
    destruct (Hnew y Hy); [|done]. unfold effect_key. congruence.
  - rewrite List.filter_app. simpl. destruct (effect_final e) eqn:Ef; [|by rewrite app_nil_r].
    apply nodup_map_snoc; [done|]. intros y Hy Hk.
    apply list_elem_of_In, filter_In in Hy as [Hy Hfy].
    destruct (Hnew y) as [_ Hf]; [by apply list_elem_of_In | done |]. by rewrite Hfy in Hf.
Qed.

Lemma control_step_ok s s' : store_ok s -> control_step s s' -> store_ok s' /\ store_extends s s'.
Proof.
  intros Hok [ ]; subst; eauto using ledger_step_ok, request_step_ok, decide_step_ok,
    consume_step_ok, checkpoint_step_ok, effect_step_ok.
Qed.

Lemma control_run_ok s s' :
  store_ok s -> rtc control_step s s' -> store_ok s' /\ store_extends s s'.
Proof.
  intros Hok Hr. induction Hr as [s|s s1 s' Hs _ IH]; [by split|].
  destruct (control_step_ok _ _ Hok Hs) as [Hok1 H1]. destruct (IH Hok1) as [Hok2 H2].
  split; [done | by etrans].
Qed.

Lemma control_reachable_ok s : control_reachable s -> store_ok s.
Proof. intros Hr. by apply (control_run_ok _ _ store_ok_empty Hr). Qed.

(** * Guarantees *)

(** C25: no effect without a quorum: every consumed approval rests on a request
    and on at least its required quorum of approving decisions, made by
    pairwise different people, none of whom is the requester when duties are
    separated. *)
Theorem consumption_backed_by_quorum s c :
  control_reachable s -> c ∈ st_consumptions s ->
  exists r voters, r ∈ st_requests s /\ r_approval_id r = c_approval_id c /\
    1 <= r_required_quorum r <= Z.of_nat (length voters) /\ NoDup voters /\
    forall p, p ∈ voters ->
      (exists d, d ∈ st_decisions s /\ d_approval_id d = c_approval_id c /\
         d_decided_by d = p /\ d_decision d = "approved") /\
      (r_separation_of_duties r = true -> p ≠ r_requested_by r).
Proof.
  intros Hr Hc. pose proof (control_reachable_ok _ Hr) as Hok.
  destruct (so_backed _ Hok c Hc) as (r & Hrin & Hid & Hq & _).
  exists r, (map d_decided_by (approvals (c_approval_id c) s)). split; [done|]. split; [done|].
  split; [rewrite length_map; pose proof (so_quorum _ Hok r Hrin); lia|]. split.
  - pose proof (so_voters _ Hok) as Hnd. revert Hnd. unfold approvals.
    induction (st_decisions s) as [|d ds IH]; [intros; apply NoDup_nil_2|]. simpl.
    rewrite NoDup_cons, filter_cons. intros [Hd Hds]. case_decide as Hda; [|auto]. simpl.
    apply NoDup_cons. split; [|auto]. intros Hin. apply Hd.
    apply list_elem_of_fmap in Hin as (x & Hx & Hxin).
    apply list_elem_of_filter in Hxin as [[Hxa _] Hxin].
    apply list_elem_of_fmap. exists x. split; [|done]. destruct Hda. congruence.
  - intros p Hp. apply list_elem_of_fmap in Hp as (d & -> & Hd).
    apply list_elem_of_filter in Hd as [[Hda Hdd] Hd]. split; [by exists d|].
    destruct (so_decided _ Hok d Hd) as (r' & Hr' & Hid' & Hsod).
    replace r with r'; [done|].
    apply (nodup_map_inj r_approval_id (st_requests s)); [apply Hok | done | done | congruence].
Qed.

Lemma consume_raise_same now a ci di ei at_ s e s' :
  _consume_approval pf timestamptz text_le now a ci di ei at_ s = (Raise e, s') -> s' = s.
Proof.
  unfold _consume_approval. intros E.
  apply st_bind_Raise_inv in E as [E|(r & s1 & Er & E)].
  { unfold find_request in E. destruct (filter _ _) as [|q [|? ?]]; by inv E. }
  apply find_request_inv in Er as (-> & _).
  apply st_bind_Raise_inv in E as [E|(ds & s2 & [= _ <-] & E)]; [done|].
  destruct (_ || _); [by inv E|]. destruct (Z.of_nat _ <? _); [by inv E|].
  do 3 (apply st_bind_Raise_inv in E as [E|(? & ? & [= _ <-] & E)]; [by inv E|]).
  apply st_bind_Raise_inv in E as [E|(u & s3 & _ & E)]; [|done].
  unfold insert_consumption in E. by eapply checked_insert_raise.
Qed.

(** One-time use: once an approval has been consumed, at any later time and
    after any other writes, a call that would consume the same approval again,
    serve the same delivery or trigger the same effect is refused and writes
    nothing. *)
Theorem approval_consumed_once now now' a a' ci ci' di di' ei ei' at_ at' s r s1 s2 :
  control_reachable s ->
  _consume_approval pf timestamptz text_le now a ci di ei at_ s = (Ok r, s1) ->
  rtc control_step s1 s2 ->
  a' = a \/ di' = di \/ ei' = ei ->
  exists e, _consume_approval pf timestamptz text_le now' a' ci' di' ei' at' s2 = (Raise e, s2).
Proof.
  intros Hr E Hrun Hsame. pose proof (control_reachable_ok _ Hr) as Hok.
  pose proof (consume_step_ok _ _ _ _ _ _ _ _ _ Hok E) as [Hok1 _].
  apply consume_inv in E as (q & c & d & -> & _ & _ & _ & _ & _ & _ & Ha & _ & Hd & He & _).
  destruct (control_run_ok _ _ Hok1 Hrun) as [_ [_ _ _ Hcs _ _]].
  assert (Hc : c ∈ st_consumptions s2) by (eapply elem_of_prefix; [|exact Hcs]; set_solver).
  destruct (_consume_approval _ _ _ now' a' ci' di' ei' at' s2) as [[r'|e] s3] eqn:E.
  - exfalso. apply consume_inv in E as
      (q' & c' & d' & _ & _ & _ & _ & _ & _ & _ & Ha' & _ & Hd' & He' & _ & _ & Hconf).
    eapply existsb_false in Hconf; [|exact Hc]. unfold consumption_conflict in Hconf.
    bool_prop. naive_solver congruence.
  - exists e. f_equal. by eapply consume_raise_same.
Qed.

(** No step consumes an approval that carries a veto. *)
Definition vetoed (a : string) (s : control_store) : Prop :=
  (exists d, d ∈ st_decisions s /\ d_approval_id d = a /\ d_decision d ≠ "approved") /\
  forall c, c ∈ st_consumptions s -> c_approval_id c ≠ a.

Lemma vetoed_step a s s' : store_ok s -> control_step s s' -> vetoed a s -> vetoed a s'.
Proof.
  intros Hok Hstep [(d & Hd & Hda & Hdd) Hno].
  destruct (control_step_ok _ _ Hok Hstep) as [_ [_ _ Hds _ _ _]].
  split; [exists d; split; [by eapply elem_of_prefix | done]|].
  destruct Hstep as [l' _ ->|p r E|now a' di by_ de pv at_ r E|now a' ci di ei at_ r E|p r E|p r E].
  - done.
  - apply request_inv in E as (q & -> & _). done.
  - apply decide_inv in E as (q & x & -> & _). done.
  - apply consume_inv in E as (q & c & x & -> & _ & _ & _ & Hall & _ & _ & Hca & _).
    simpl. intros y [Hy| ->%list_elem_of_singleton]%list.elem_of_app; [auto|].
    rewrite Hca. intros ->. apply Hdd, Hall. rewrite decisions_of_perm.
    by apply list_elem_of_filter.
  - apply checkpoint_inv in E as (i & k & h & -> & _). done.
  - apply effect_inv in E as (x & -> & _). done.
Qed.

(** A veto is final: once a request that is not yet consumed has a decision
    other than approval, no sequence of later calls, further approvals
    included, ever consumes it. *)
Theorem veto_is_final s d s' :
  control_reachable s -> d ∈ st_decisions s -> d_decision d ≠ "approved" ->
  (forall c, c ∈ st_consumptions s -> c_approval_id c ≠ d_approval_id d) ->
  rtc control_step s s' ->
  forall c, c ∈ st_consumptions s' -> c_approval_id c ≠ d_approval_id d.
Proof.
  intros Hr Hd Hdd Hno Hrun. pose proof (control_reachable_ok _ Hr) as Hok.
  assert (Hv : vetoed (d_approval_id d) s) by (split; [by exists d | done]).
  clear Hr Hd Hno. revert Hok Hv.
  induction Hrun as [s|s s1 s' Hs _ IH]; intros Hok Hv; [apply Hv|].
  apply IH; [by eapply control_step_ok | by eapply vetoed_step].
Qed.

Lemma find_request_found s r :
  store_ok s -> r ∈ st_requests s -> find_request (r_approval_id r) s = (Ok r, s).
Proof.
  intros Hok Hr. unfold find_request.
  assert (Hf : filter (fun q => r_approval_id q = r_approval_id r) (st_requests s) = [r]).
  { pose proof (so_requests _ Hok) as Hnd. revert Hr Hnd.
    induction (st_requests s) as [|q qs IH]; [set_solver|]. simpl.
    rewrite NoDup_cons, filter_cons. intros Hin [Hq Hqs].
    apply list.elem_of_cons in Hin as [->|Hin].
    - rewrite decide_True by done. f_equal.
      destruct (filter _ qs) as [|x xs] eqn:E; [done|]. destruct Hq.
      assert (Hx : x ∈ filter (fun y => r_approval_id y = r_approval_id q) qs)
        by (rewrite E; by left).
      apply list_elem_of_filter in Hx as [<- Hx]. by apply list_elem_of_fmap_2.
    - rewrite decide_False; [auto|]. intros Heq. apply Hq. rewrite Heq.
      by apply list_elem_of_fmap_2. }
  by rewrite Hf.
Qed.

Lemma consumption_base_get r did di ei at_ k v :
  dget k [("phase", PStr "consumption"); ("decision_receipt_id", PStr did);
          ("delivery_id", PStr di); ("consumed_effect_id", PStr ei);
          ("created_at", PStr at_)] = Some v ->
  k ≠ "signature" -> dget k (consumption_base r did di ei at_) = Some v.
Proof.
  intros Hk Hne. unfold consumption_base. rewrite dget_ddel_ne, dget_dupdate by
    (done || (unfold dict_wf; simpl; repeat constructor; set_solver)). by rewrite Hk.
Qed.

(** C37: An agreed approval is granted: when a request has not expired, every
    decision on it approves and there are enough of them, a consumption that is
    new and whose receipt signs and fits is recorded, and its receipt names the
    latest approval and the effect; no lookup inside ever fails. *)
Theorem agreed_approval_granted s r now ci di ei at_ t :
  control_reachable s -> r ∈ st_requests s -> now < r_expires_at r ->
  (forall d, d ∈ st_decisions s -> d_approval_id d = r_approval_id r ->
     d_decision d = "approved") ->
  r_required_quorum r <= Z.of_nat (length (approvals (r_approval_id r) s)) ->
  timestamptz at_ = Some t ->
  (forall c, c ∈ st_consumptions s -> c_consumption_id c ≠ ci /\
     c_approval_id c ≠ r_approval_id r /\ c_delivery_id c ≠ di /\
     c_effect_or_transition_id c ≠ ei) ->
  exists d, d ∈ approvals (r_approval_id r) s /\
    (forall x, x ∈ approvals (r_approval_id r) s -> d_decided_at x <= d_decided_at d) /\
    forall signed,
    _sign pf "approval" (consumption_base r (d_decision_id d) di ei at_) = Ok signed ->
    payload_fits pf signed = true ->
    dget "decision_receipt_id" signed = Some (PStr (d_decision_id d)) /\
    dget "consumed_effect_id" signed = Some (PStr ei) /\
    exists s' c,
      _consume_approval pf timestamptz text_le now (r_approval_id r) ci di ei at_ s
        = (Ok signed, s') /\
      st_consumptions s' = st_consumptions s ++ [c] /\ c_payload c = signed.
Proof.
  intros Hr Hrin Hnow Hall Hq Hat Hnew. pose proof (control_reachable_ok _ Hr) as Hok.
  set (a := r_approval_id r) in *.
  pose proof (decisions_of_perm text_le a s) as Hp.
  assert (Happ : approvals a s = filter (fun d => d_approval_id d = a) (st_decisions s)).
  { apply filter_and_all. auto. }
  rewrite Happ in Hq |- *. rewrite <- Hp in Hq.
  assert (Hyes : forall d, d ∈ decisions_of text_le a s -> is_approved d = true).
  { intros d Hd. rewrite Hp in Hd. apply list_elem_of_filter in Hd as [Hda Hd].
    apply bool_decide_eq_true. auto. }
  pose proof (so_quorum _ Hok r Hrin).
  destruct (last (decisions_of text_le a s)) as [d|] eqn:Hl.
  2: { apply last_None in Hl. rewrite Hl in Hq. simpl in Hq. lia. }
  assert (Hd : d ∈ decisions_of text_le a s)
    by (apply last_Some in Hl as [l' ->]; set_solver).
  exists d. split; [by rewrite <- Hp|].
  split; [intros x Hx; rewrite <- Hp in Hx; by eapply latest_last|]. intros signed Hsg Hfit.
  assert (Hget : forall k, k ≠ "signature" -> dget k signed =
    dget k (consumption_base r (d_decision_id d) di ei at_)) by (intros; by eapply sign_keeps).
  do 2 (split; [rewrite Hget by done; by apply consumption_base_get|]).
  unfold _consume_approval. rewrite (st_bind_eq _ _ _ _ _ (find_request_found s r Hok Hrin)).
  fold a.
  change (gets_st (decisions_of text_le a)) with
    (fun u : control_store => (Ok (decisions_of text_le a u), u)).
  unfold mbind, stres_bind, lift_res, insert_consumption, checked_insert. cbv zeta.
  rewrite (filter_all _ _ Hyes), (proj2 (Z.ltb_lt _ _)) by lia.
  rewrite (proj2 (existsb_none _ _)) by (intros x Hx; by rewrite Hyes).
  rewrite (proj2 (Z.ltb_ge _ _)) by lia. unfold last_decision_id. rewrite Hl, Hsg.
  unfold read_timestamp. rewrite Hat. simpl. rewrite Hfit. simpl.
  rewrite (proj2 (existsb_none _ _)).
  2: { intros c Hc. unfold consumption_conflict. destruct (Hnew c Hc) as (? & ? & ? & ?). simpl.
       rewrite !bool_decide_false by congruence. done. }
  rewrite (existsb_some _ _ r) by (done || by apply bool_decide_eq_true).
  rewrite (existsb_some _ (st_decisions s) d); [by do 2 eexists | | by apply bool_decide_eq_true].
  rewrite Hp in Hd. by apply list_elem_of_filter in Hd as [_ ?].
Qed.

(** Checkpoints are one lineage: the checkpoints of a workflow have strictly
    increasing sequences, each names the one before it as its parent, each
    carries the hash of the ledger event at its sequence, and listing pages
    them in that order. *)
Theorem checkpoint_lineage s w :
  control_reachable s ->
  let ks := filter (fun k => k_workflow_id k = w) (st_checkpoints s) in
  lineage None 0 ks /\
  (forall k, k ∈ ks -> anchored (st_ledger s) k) /\
  forall cursor limit, 1 <= limit <= 50 ->
    _list_checkpoints w cursor limit s =
    (Ok (map k_payload (firstn (Z.to_nat limit)
           (List.filter (fun k => cursor <? k_sequence k) ks))), s).
Proof.
  intros Hr ks. pose proof (control_reachable_ok _ Hr) as Hok.
  pose proof (so_lineage _ Hok w) as Hl. fold ks in Hl. split; [done|]. split.
  - intros k Hk. apply list_elem_of_filter in Hk as [_ Hk]. by apply (so_anchored _ Hok).
  - intros cursor limit [H1 H2]. unfold _list_checkpoints, checkpoints_of.
    rewrite (proj2 (Z.leb_le 1 _)), (proj2 (Z.leb_le _ 50)) by done. unfold gets_st. simpl.
    fold ks. by rewrite (lineage_sorted _ _ _ Hl).
Qed.

(** An effect settles once: after an owner's effect has a receipt with a
    final status, no later call, whatever ran in between, records another final
    status ([succeeded] or [compensated]) for the same effect and owner. *)
Theorem effect_settles_once s e s1 p r s2 :
  control_reachable s -> e ∈ st_effects s -> effect_final e = true ->
  rtc control_step s s1 ->
  _record_side_effect pf timestamptz p s1 = (Ok r, s2) ->
  dget "workflow_id" p = Some (PStr (s_workflow_id e)) ->
  dget "effect_id" p = Some (PStr (s_effect_id e)) ->
  dget "owner" p = Some (PStr (s_owner e)) ->
  dget "status" p ≠ Some (PStr "succeeded") /\ dget "status" p ≠ Some (PStr "compensated").
Proof.
  intros Hr He Hfin Hrun E Hw Hi Ho.
  destruct (control_run_ok _ _ (control_reachable_ok _ Hr) Hrun) as [_ [_ _ _ _ _ Hes]].
  apply effect_inv in E as (f & _ & Hget & Hconf).
  eapply existsb_false in Hconf; [|by eapply elem_of_prefix].
  rewrite (Hget "workflow_id" (s_workflow_id f)) in Hw by set_solver.
  rewrite (Hget "effect_id" (s_effect_id f)) in Hi by set_solver.
  rewrite (Hget "owner" (s_owner f)) in Ho by set_solver.
  rewrite (Hget "status" (s_status f)) by set_solver.
  assert (Hff : effect_final f = false).
  { injection Hw as Hw. injection Hi as Hi. injection Ho as Ho.
    unfold effect_conflict in Hconf. rewrite Hfin, same_effect_key in Hconf
      by (unfold effect_key; congruence). simpl in Hconf.
    apply orb_false_iff in Hconf as [_ Hconf]. by rewrite andb_true_r in Hconf. }
  unfold effect_final in Hff. apply bool_decide_eq_false in Hff.
  split; intros [= Hs]; apply Hff; rewrite Hs; set_solver.
Qed.

End theorems.

(** * A concrete approval: requested, agreed by two reviewers, consumed *)

Module Sample.
Import Run.

Definition timestamp1 (s : string) : option Z :=
  if bool_decide (s = "2099-01-01T00:00:00Z") then Some 4070908800000000
  else if bool_decide (s = "2026-07-01T00:00:00Z") then Some 1782864000000000 else None.
Definition now1 : Z := 1782864000000000.
Definition at1 : string := "2026-07-01T00:00:00Z".
Definition hash1 : string := Eval vm_compute in Sha256.hexdigest [].

Definition request1 : dict pyval :=
  [("approval_id", PStr "a1"); ("workflow_id", PStr "w1"); ("interrupt_id", PStr "i1");
   ("tool_call_id", PStr "t1"); ("action_hash", PStr hash1);
   ("resume_payload_hash", PStr hash1); ("requested_by", PStr "ann"); ("quorum", PInt 2);
   ("separation_of_duties", PBool true); ("created_at", PStr at1);
   ("expires_at", PStr "2099-01-01T00:00:00Z")].

Definition store0 : control_store := mkStore started [] [] [] [] [].
Definition requested := Eval vm_compute in
  (_request_approval platform1 timestamp1 request1 store0).2.
Definition vote (di who what : string) :=
  _decide_approval platform1 timestamp1 now1 "a1" di who what "policy/1" at1.
Definition voted1 := Eval vm_compute in (vote "d1" "bob" "approved" requested).2.
Definition voted2 := Eval vm_compute in (vote "d2" "cyd" "approved" voted1).2.
Definition vetoed2 := Eval vm_compute in (vote "d2" "cyd" "rejected" voted1).2.
Definition use (ci di ei : string) :=
  _consume_approval platform1 timestamp1 String.leb now1 "a1" ci di ei at1.
Definition consumed := Eval vm_compute in (use "c1" "v1" "e1" voted2).2.

Definition checkpoint1 : dict pyval := Eval vm_compute in
  [("checkpoint_id", PStr "k1"); ("workflow_id", PStr "w1");
   ("segment_id", PStr "w1:segment:0"); ("sequence", PInt 1);
   ("state_hash", PStr hash1); ("event_hash", PStr (event_hash start_event));
   ("reducer_version", PStr "v1"); ("committed_at", PStr at1)].
Definition checkpointed := Eval vm_compute in
  (_append_checkpoint platform1 timestamp1 checkpoint1 store0).2.

Definition effect1 : dict pyval :=
  [("receipt_id", PStr "s1"); ("workflow_id", PStr "w1"); ("effect_id", PStr "e1");
   ("effect_type", PStr "tool"); ("owner", PStr "runner"); ("request_hash", PStr hash1);
   ("adapter_id", PStr "ad"); ("adapter_version", PStr "1"); ("status", PStr "succeeded");
   ("replay_disposition", PStr "reuse_receipt"); ("attempt", PInt 1);
   ("recorded_at", PStr at1)].
Definition settled := Eval vm_compute in
  (_record_side_effect platform1 timestamp1 effect1 store0).2.

Definition effect2 : dict pyval := Eval vm_compute in
  dset "receipt_id" (PStr "s2") (dset "attempt" (PInt 2) (dset "status" (PStr "failed") effect1)).

Definition ok_value {A} (dflt : A) (r : res A) : A :=
  match r with Ok a => a | Raise _ => dflt end.
Definition consumed_receipt := Eval vm_compute in ok_value [] (use "c1" "v1" "e1" voted2).1.

Notation reach := (control_reachable platform1 registry1 timestamp1 String.leb).
Notation step := (control_step platform1 registry1 timestamp1 String.leb).

Example self_vote_refused :
  (vote "d0" "ann" "approved" requested).1
  = Raise (ValueError "approval decision violates separation of duties").
Proof. by vm_compute. Qed.
Example early_use_refused :
  (use "c0" "v0" "e0" voted1).1 = Raise (ValueError "approval quorum is incomplete").
Proof. by vm_compute. Qed.
Example double_vote_refused :
  (vote "d3" "bob" "approved" voted1).1
  = Raise (IntegrityError "duplicate key value violates unique constraint").
Proof. by vm_compute. Qed.

Lemma ledger_run l l' : rtc (writer_step platform1 registry1) l l' ->
  rtc step (mkStore l [] [] [] [] []) (mkStore l' [] [] [] [] []).
Proof.
  intros Hr. induction Hr as [|l l1 l' Hs _ IH]; [done|].
  eapply rtc_l; [|exact IH]. by eapply cs_ledger.
Qed.

Lemma reach0 : reach store0.
Proof. apply ledger_run, reachable_started. Qed.
Ltac commit := vm_compute; reflexivity.
Lemma reach_requested : reach requested.
Proof. eapply rtc_r; [apply reach0|]. eapply (cs_request _ _ _ _ _ _ request1). commit. Qed.
Lemma reach_voted1 : reach voted1.
Proof.
  eapply rtc_r; [apply reach_requested|].
  eapply (cs_decide _ _ _ _ _ _ now1 "a1" "d1" "bob" "approved" "policy/1" at1). commit.
Qed.
Lemma reach_voted2 : reach voted2.
Proof.
  eapply rtc_r; [apply reach_voted1|].
  eapply (cs_decide _ _ _ _ _ _ now1 "a1" "d2" "cyd" "approved" "policy/1" at1). commit.
Qed.
Lemma reach_vetoed2 : reach vetoed2.
Proof.
  eapply rtc_r; [apply reach_voted1|].
  eapply (cs_decide _ _ _ _ _ _ now1 "a1" "d2" "cyd" "rejected" "policy/1" at1). commit.
Qed.
Lemma use_consumes : use "c1" "v1" "e1" voted2 = (Ok consumed_receipt, consumed).
Proof. by vm_compute. Qed.
Lemma reach_consumed : reach consumed.
Proof. eapply rtc_r; [apply reach_voted2|]. eapply cs_consume. exact use_consumes. Qed.
Lemma reach_checkpointed : reach checkpointed.
Proof. eapply rtc_r; [apply reach0|]. eapply (cs_checkpoint _ _ _ _ _ _ checkpoint1). commit. Qed.
Lemma reach_settled : reach settled.
Proof. eapply rtc_r; [apply reach0|]. eapply (cs_effect _ _ _ _ _ _ effect1). commit. Qed.

Definition the_consumption := Eval vm_compute in
  default (mkConsumption "" "" "" "" "" [] "" "" 0) (head (st_consumptions consumed)).
Definition the_request := Eval vm_compute in
  default (mkRequest "" "" "" "" "" "" "" 0 false [] 0 "" "" 0) (head (st_requests voted2)).
Definition the_veto := Eval vm_compute in
  default (mkDecision "" "" "" "" "" [] "" "" 0) (last (st_decisions vetoed2)).
Definition the_effect := Eval vm_compute in
  default (mkEffect "" "" "" "" "" "" None "" "" "" "" 0 [] "" "" 0) (head (st_effects settled)).

Theorem consumption_backed_by_quorum_witness :
  exists r voters, r ∈ st_requests consumed /\ r_required_quorum r <= Z.of_nat (length (voters : list string)).
Proof.
  destruct (consumption_backed_by_quorum platform1 registry1 timestamp1 String.leb
    consumed the_consumption reach_consumed ltac:(by left)) as (r & vs & Hr & _ & [_ Hq] & _).
  by exists r, vs.
Defined.

Theorem approval_consumed_once_witness :
  exists e, use "c2" "v2" "e1" consumed = (Raise e, consumed).
Proof.
  exact (approval_consumed_once platform1 registry1 timestamp1 String.leb now1 now1 "a1" "a1"
    "c1" "c2" "v1" "v2" "e1" "e1" at1 at1 voted2 consumed_receipt consumed consumed
    reach_voted2 use_consumes (rtc_refl _ _) (or_introl eq_refl)).
Defined.

Theorem veto_is_final_witness :
  d_decision the_veto = "rejected" /\
  forall c, c ∈ st_consumptions vetoed2 -> c_approval_id c ≠ "a1".
Proof.
  split; [done|].
  exact (veto_is_final platform1 registry1 timestamp1 String.leb vetoed2 the_veto vetoed2
    reach_vetoed2 ltac:(right; left) ltac:(done) ltac:(set_solver) (rtc_refl _ _)).
Defined.

Theorem agreed_approval_granted_witness :
  exists d, d ∈ approvals "a1" voted2.
Proof.
  destruct (agreed_approval_granted platform1 registry1 timestamp1 String.leb voted2 the_request
    now1 "c1" "v1" "e1" at1 now1 reach_voted2 ltac:(by left) ltac:(by vm_compute)
    ltac:(intros d Hd _; vm_compute in Hd; set_solver) ltac:(by vm_compute)
    ltac:(by vm_compute) ltac:(set_solver)) as (d & Hd & _).
  by exists d.
Defined.

Theorem checkpoint_lineage_witness :
  lineage None 0 (st_checkpoints checkpointed) /\ length (st_checkpoints checkpointed) = 1%nat.
Proof.
  split; [|done].
  exact (proj1 (checkpoint_lineage platform1 registry1 timestamp1 String.leb checkpointed "w1"
    reach_checkpointed)).
Defined.

Theorem effect_settles_once_witness : dget "status" effect2 ≠ Some (PStr "succeeded").
Proof.
  destruct (_record_side_effect platform1 timestamp1 effect2 settled) as [[r|x] s2] eqn:E;
    [|by vm_compute in E].
  exact (proj1 (effect_settles_once platform1 registry1 timestamp1 String.leb settled the_effect
    settled effect2 r s2 reach_settled ltac:(by left) eq_refl (rtc_refl _ _) E
    eq_refl eq_refl eq_refl)).
Defined.

End Sample.
