(* ===== verification/Redis.v ===== *)
(** The Redis server the runner talks to.  Redis is not part of the repository:
    a server is a type of states with an [exec] function, and what the code
    relies on is that [exec] follows the documented behaviour of each command,
    written here on an abstract keyspace ([reply_of] and [effect]).  A round
    trip to it can fail before the request arrives or after it has run. *)
From S2P Require Import Prelude PyDict PyStr PyVal PyTime.

(** ** The keyspace

    Lists from left to right, sorted sets as member-to-score maps, string values
    with their expiry time, and the server's clock (in clock ticks). *)
Record keyspace : Type := mkKeyspace {
  ks_lists : gmap string (list string);
  ks_zsets : gmap string (gmap string Z);
  ks_strings : gmap string (string * Z);
  ks_now : Z;
}.

Definition empty_keyspace : keyspace := mkKeyspace ∅ ∅ ∅ 0.

Definition list_at (k : string) (v : keyspace) : list string := default [] (ks_lists v !! k).
Definition zset_at (k : string) (v : keyspace) : gmap string Z := default ∅ (ks_zsets v !! k).
(** A string key that has not expired. *)
Definition string_at (k : string) (v : keyspace) : option (string * Z) :=
  match ks_strings v !! k with
  | Some (x, t) => if ks_now v <? t then Some (x, t) else None
  | None => None
  end.

Definition set_list (k : string) (l : list string) (v : keyspace) : keyspace :=
  mkKeyspace (<[k := l]> (ks_lists v)) (ks_zsets v) (ks_strings v) (ks_now v).
Definition set_zset (k : string) (z : gmap string Z) (v : keyspace) : keyspace :=
  mkKeyspace (ks_lists v) (<[k := z]> (ks_zsets v)) (ks_strings v) (ks_now v).
Definition set_string (k x : string) (t : Z) (v : keyspace) : keyspace :=
  mkKeyspace (ks_lists v) (ks_zsets v) (<[k := (x, t)]> (ks_strings v)) (ks_now v).
Definition del_string (k : string) (v : keyspace) : keyspace :=
  mkKeyspace (ks_lists v) (ks_zsets v) (delete k (ks_strings v)) (ks_now v).
Definition elapse (n : Z) (v : keyspace) : keyspace :=
  mkKeyspace (ks_lists v) (ks_zsets v) (ks_strings v) (ks_now v + n).

(** Remove the first [n] occurrences, from the head ([LREM key n member]). *)
Fixpoint lrem_first (n : nat) (x : string) (l : list string) : list string :=
  match n, l with
  | O, _ => l
  | _, [] => []
  | S m, y :: r => if bool_decide (y = x) then lrem_first m x r
                   else y :: lrem_first n x r
  end.
(** [LREM key count member], for [count >= 0]; zero removes all. *)
Definition lrem_list (count : Z) (x : string) (l : list string) : list string :=
  lrem_first (if count =? 0 then length l else Z.to_nat count) x l.

(** ** Commands *)

Inductive command : Type :=
| LPush (key member : string)
| LRem (key : string) (count : Z) (member : string)
| LMoveRightLeft (source destination : string)
| ZAdd (key : string) (score : Z) (member : string)
| ZRem (key member : string)
| SetEx (key : string) (ttl : Z) (value : string)
| SetNxEx (key value : string) (ttl : Z)
| Get (key : string)
| Expire (key : string) (ttl : Z)
| Del (key : string).

Inductive reply : Type :=
| RInt (z : Z)
| RBulk (s : string)
| RNil
| ROk
| RError (msg : string).

#[export] Instance reply_eq_dec : EqDecision reply.
Proof. solve_decision. Defined.

Definition reply_of (c : command) (v : keyspace) : reply :=
  match c with
  | LPush k x => RInt (Z.of_nat (S (length (list_at k v))))
  | LRem k n x =>
      RInt (Z.of_nat (length (list_at k v) - length (lrem_list n x (list_at k v))))
  | LMoveRightLeft a _ => match last (list_at a v) with Some x => RBulk x | None => RNil end
  | ZAdd k _ x => RInt (match zset_at k v !! x with Some _ => 0 | None => 1 end)
  | ZRem k x => RInt (match zset_at k v !! x with Some _ => 1 | None => 0 end)
  | SetEx _ ttl _ => if 0 <? ttl then ROk else RError "invalid expire time"
  | SetNxEx k _ ttl =>
      if 0 <? ttl
      then match string_at k v with Some _ => RNil | None => ROk end
      else RError "invalid expire time"
  | Get k => match string_at k v with Some (x, _) => RBulk x | None => RNil end
  | Expire k _ => RInt (match string_at k v with Some _ => 1 | None => 0 end)
  | Del k => RInt (match string_at k v with Some _ => 1 | None => 0 end)
  end.

Definition effect (c : command) (v : keyspace) : keyspace :=
  match c with
  | LPush k x => set_list k (x :: list_at k v) v
  | LRem k n x => set_list k (lrem_list n x (list_at k v)) v
  | LMoveRightLeft a b =>
      match last (list_at a v) with
      | Some x => let v1 := set_list a (removelast (list_at a v)) v in
                  set_list b (x :: list_at b v1) v1
      | None => v
      end
  | ZAdd k n x => set_zset k (<[x := n]> (zset_at k v)) v
  | ZRem k x => set_zset k (delete x (zset_at k v)) v
  | SetEx k ttl x => if 0 <? ttl then set_string k x (ks_now v + secs ttl) v else v
  | SetNxEx k x ttl =>
      if 0 <? ttl
      then match string_at k v with
           | Some _ => v
           | None => set_string k x (ks_now v + secs ttl) v
           end
      else v
  | Get _ => v
  | Expire k ttl =>
      match string_at k v with
      | Some (x, _) => if 0 <? ttl then set_string k x (ks_now v + secs ttl) v
                       else del_string k v
      | None => v
      end
  | Del k => match string_at k v with Some _ => del_string k v | None => v end
  end.

(** ** Servers *)

Class RedisServer (S : Type) : Type := {
  view : S -> keyspace;
  exec : command -> S -> reply * S;
  exec_reply : forall c s, (exec c s).1 = reply_of c (view s);
  exec_effect : forall c s, view (exec c s).2 = effect c (view s);
  tick : Z -> S -> S;      (** time passes *)
  tick_view : forall n s, view (tick n s) = elapse n (view s);
}.

(** The keyspace itself is such a server. *)
#[export] Instance keyspace_server : RedisServer keyspace := {|
  view v := v;
  exec c v := (reply_of c v, effect c v);
  exec_reply c v := eq_refl;
  exec_effect c v := eq_refl;
  tick := elapse;
  tick_view n v := eq_refl;
|}.

(** ** The client *)

(** What happens to one round trip. *)
Inductive fault : Type := Delivered | NotSent | ReplyLost.

Definition ConnectionError : exn := OtherError "ConnectionError" "".

Section client.
Context {S : Type} `{RedisServer S}.

Definition round_trip {A} (f : fault) (m : S -> A * S) : stres S A := fun s =>
  match f with
  | Delivered => let '(a, s') := m s in (Ok a, s')
  | NotSent => (Raise ConnectionError, s)
  | ReplyLost => (Raise ConnectionError, (m s).2)
  end.

(** A command whose error reply is raised. *)
Definition checked (r : reply) : res reply :=
  match r with RError msg => Raise (OtherError "ResponseError" msg) | r => Ok r end.

Definition call (f : fault) (c : command) : stres S reply :=
  r ← round_trip f (exec c); lift_res (checked r).

(** [MULTI] ... [EXEC]: the commands of a pipeline run in one piece. *)
Fixpoint exec_all (cs : list command) (s : S) : list reply * S :=
  match cs with
  | [] => ([], s)
  | c :: r => let '(a, s1) := exec c s in let '(rs, s2) := exec_all r s1 in (a :: rs, s2)
  end.

Fixpoint check_all (rs : list reply) : res unit :=
  match rs with
  | [] => Ok tt
  | r :: rest => _ ← checked r; check_all rest
  end.

Definition pipeline (f : fault) (cs : list command) : stres S unit :=
  rs ← round_trip f (exec_all cs); lift_res (check_all rs).

(** [int] of an integer reply, as scripts and callers read it. *)
Definition reply_int (r : reply) : Z := match r with RInt z => z | _ => 0 end.
Definition reply_true (r : reply) : bool :=
  match r with
  | RInt z => negb (z =? 0)
  | RBulk s => negb (bool_decide (s = ""))
  | ROk => true
  | RNil | RError _ => false
  end.

(** [try: ... except Exception: return dflt] *)
Definition or_else {A} (dflt : A) (m : stres S A) (s : S) : A * S :=
  match m s with
  | (Ok a, s') => (a, s')
  | (Raise _, s') => (dflt, s')
  end.

(** * What a client call does to the keyspace *)

Lemma round_trip_view {A} f (m : S -> A * S) s :
  view (round_trip f m s).2 = view s \/ view (round_trip f m s).2 = view (m s).2.
Proof. destruct f; simpl; auto. destruct (m s). auto. Qed.

Lemma exec_all_view cs s :
  view (exec_all cs s).2 = foldl (fun v c => effect c v) (view s) cs.
Proof.
  revert s. induction cs as [|c cs IH]; intros s; [done|]. simpl.
  pose proof (exec_effect c s) as Hc. destruct (exec c s) as [r s1]. simpl in Hc.
  specialize (IH s1). destruct (exec_all cs s1). simpl in *. by rewrite IH, Hc.
Qed.

Lemma call_view f c s :
  view (call f c s).2 = view s \/ view (call f c s).2 = effect c (view s).
Proof.
  unfold call, mbind, stres_bind, round_trip, lift_res.
  rewrite <- exec_effect. destruct f; simpl; auto. destruct (exec c s); auto.
Qed.

Lemma call_Ok f c s r s' :
  call f c s = (Ok r, s') -> r = reply_of c (view s) /\ view s' = effect c (view s).
Proof.
  unfold call, mbind, stres_bind, round_trip, lift_res. rewrite <- exec_effect, <- exec_reply.
  destruct f; [|done..]. destruct (exec c s) as [[ ] s1]; simpl; naive_solver.
Qed.

Lemma pipeline_view f cs s :
  view (pipeline f cs s).2 = view s \/
  view (pipeline f cs s).2 = foldl (fun v c => effect c v) (view s) cs.
Proof.
  unfold pipeline, mbind, stres_bind, round_trip, lift_res.
  rewrite <- exec_all_view. destruct f; simpl; auto. destruct (exec_all cs s); auto.
Qed.

Lemma pipeline_Ok f cs s u s' :
  pipeline f cs s = (Ok u, s') -> view s' = foldl (fun v c => effect c v) (view s) cs.
Proof.
  unfold pipeline, mbind, stres_bind, round_trip, lift_res. rewrite <- exec_all_view.
  destruct f; [|done..]. destruct (exec_all cs s) as [rs s1]; simpl; naive_solver.
Qed.

Lemma or_else_state {A} (dflt : A) m s : (or_else dflt m s).2 = (m s).2.
Proof. unfold or_else. by destruct (m s) as [[a|e] s1]. Qed.

Lemma or_else_value {A} (dflt a : A) m s s' :
  or_else dflt m s = (a, s') -> a ≠ dflt -> m s = (Ok a, s').
Proof. unfold or_else. destruct (m s) as [[x|e] s1]; naive_solver. Qed.

End client.

(** * The keyspace *)

Lemma list_at_set_eq k l v : list_at k (set_list k l v) = l.
Proof. unfold list_at. simpl. by rewrite lookup_insert_eq. Qed.
Lemma list_at_set_ne k k' l v : k ≠ k' -> list_at k (set_list k' l v) = list_at k v.
Proof. intros Hk. unfold list_at. simpl. by rewrite lookup_insert_ne. Qed.
Lemma zset_at_set_eq k z v : zset_at k (set_zset k z v) = z.
Proof. unfold zset_at. simpl. by rewrite lookup_insert_eq. Qed.
Lemma zset_at_set_ne k k' z v : k ≠ k' -> zset_at k (set_zset k' z v) = zset_at k v.
Proof. intros Hk. unfold zset_at. simpl. by rewrite lookup_insert_ne. Qed.

Lemma lrem_first_sub n x y l : y ∈ lrem_first n x l -> y ∈ l.
Proof.
  revert n. induction l as [|z l IH]; intros [|n]; simpl; try done.
  case_bool_decide; [intros H1%IH; by right|].
  intros [->|H1]%list.elem_of_cons; [by left | right; by eapply IH].
Qed.

Lemma lrem_first_keeps n x y l : y ≠ x -> y ∈ l -> y ∈ lrem_first n x l.
Proof.
  intros Hne. revert n. induction l as [|z l IH]; intros [|n]; simpl; try done.
  intros [->|Hy]%list.elem_of_cons; case_bool_decide; try done; try by left.
  - by apply IH.
  - right. by apply IH.
Qed.

Lemma lrem_all x n l : (length l <= n)%nat -> x ∉ lrem_first n x l.
Proof.
  revert n. induction l as [|z l IH]; intros [|n]; simpl; try (intros; set_solver || lia).
  intros Hn. case_bool_decide; [apply IH; lia|].
  rewrite list.not_elem_of_cons. split; [done|]. apply IH. lia.
Qed.

Lemma lrem_zero x l : x ∉ lrem_list 0 x l.
Proof. unfold lrem_list. simpl. by apply lrem_all. Qed.

Lemma lrem_first_id n x l : x ∉ l -> lrem_first n x l = l.
Proof.
  revert n. induction l as [|z l IH]; intros [|n]; simpl; try done. intros Hx.
  rewrite bool_decide_false by set_solver. f_equal. apply IH. set_solver.
Qed.

Lemma lrem_first_length n x l : (length (lrem_first n x l) <= length l)%nat.
Proof.
  revert n. induction l as [|z l IH]; intros [|n]; simpl; try lia.
  case_bool_decide; simpl; [specialize (IH n) | specialize (IH (S n))]; lia.
Qed.

(** Nothing was removed only if there was nothing to remove. *)
Lemma lrem_removed_none n x l :
  (0 < n)%nat -> length (lrem_first n x l) = length l -> x ∉ l.
Proof.
  revert n. induction l as [|z l IH]; intros [|n] Hn; simpl; try (lia || set_solver).
  case_bool_decide.
  - pose proof (lrem_first_length n x l). lia.
  - intros [= Hl]. rewrite list.not_elem_of_cons. split; [done|]. by apply (IH (S n)).
Qed.

#[export] Hint Rewrite list_at_set_eq zset_at_set_eq : py.
