(* ===== verification/RunnerQueue.v ===== *)
(** The runner's task queue and locks on Redis
    (stores/redis/runner_queue_store.py) with the route projection it writes
    beside a queued task (host_resources/route_identity_projection.py).

    Every method catches the exceptions of its round trips and answers with a
    negative value, so a method is a total function of the server state.  Its
    first arguments are what the environment decides: whether a client was
    obtained ([up]), what happens to each round trip ([fault]) and the reading
    of the clock ([now], in ticks).

    Then the repair of the queue transport (runner/redis_transport_repair.py and
    the cross-shard wrapper of runner/reaper_transport.py): rebuild the
    membership of one task in one queue family in a single transaction, on the
    shard that holds a stale entry and on the shard the task belongs to. *)
From S2P Require Import Prelude PyDict PyStr PyVal PyJson PyTime Redis.

(** * The route projection of a queued task *)

Definition ROUTE_IDENTITY_TTL_SECONDS : Z := 24 * 60 * 60.
Definition ROUTE_IDENTITY_KEY_PREFIX : string := "mindscape:host_resources:route_identity:".

Definition route_identity_key (task_id : string) : string :=
  ROUTE_IDENTITY_KEY_PREFIX +:+ strip task_id.

(** [d.setdefault(k, v)] *)
Definition setdefault (k : string) (v : pyval) (d : dict pyval) : dict pyval :=
  if dmem k d then d else dset k v d.

Definition default_identity (normalized : dict pyval) : pyval :=
  PDict [("lane_id", pget "lane_id" normalized);
         ("resource_groups", py_or (pget "resource_groups" normalized) (PList []));
         ("priority_class", py_or (pget "priority_class" normalized) (PStr "default"));
         ("resource_flavor", pget "resource_flavor" normalized)].

Definition normalize_route_identity_projection (task_id : string)
    (projection : option (dict pyval)) : dict pyval :=
  let normalized := setdefault "task_id" (PStr (strip task_id)) (default [] projection) in
  let identity := pget "route_identity" normalized in
  dset "route_identity"
    (if is_dict identity then identity else default_identity normalized) normalized.

Definition serialize_route_identity_projection (task_id : string)
    (projection : option (dict pyval)) : res string :=
  json_dumps true true (PDict (normalize_route_identity_projection task_id projection)).

(** * Queue names *)

Definition q_pending (pack_id : string) : string := "mindscape:queue:pending:" +:+ pack_id.
Definition q_processing (pack_id : string) : string := "mindscape:queue:processing:" +:+ pack_id.
Definition q_delayed (pack_id : string) : string := "mindscape:queue:delayed:" +:+ pack_id.
Definition q_deadletter (pack_id : string) : string := "mindscape:queue:deadletter:" +:+ pack_id.
Definition q_temp (pack_id : string) : string := "mindscape:queue:temp:" +:+ pack_id.

Section store.
Context {S : Type} `{RedisServer S}.

(** * Scripts *)

Definition LUA_COMPARE_AND_DELETE (key owner : string) (s : S) : Z * S :=
  let '(r, s1) := exec (Get key) s in
  if bool_decide (r = RBulk owner)
  then let '(d, s2) := exec (Del key) s1 in (reply_int d, s2)
  else (0, s1).

Definition LUA_RENEW_LEASE (key owner : string) (ttl : Z) (s : S) : Z * S :=
  let '(r, s1) := exec (Get key) s in
  if bool_decide (r = RBulk owner)
  then let '(d, s2) := exec (Expire key ttl) s1 in (reply_int d, s2)
  else (0, s1).

Definition LUA_REMOVE_PENDING_AND_PROCESS (pending processing member : string) (deadline : Z)
    (s : S) : Z * S :=
  let '(removed, s1) := exec (LRem pending 1 member) s in
  if 0 <? reply_int removed
  then let '(_, s2) := exec (ZAdd processing deadline member) s1 in (1, s2)
  else (0, s1).

(** The loop over [KEYS[3..]]. *)
Fixpoint remove_from (keys : list string) (member : string) (removed : Z) (s : S) : Z * S :=
  match keys with
  | [] => (removed, s)
  | k :: r => let '(n, s1) := exec (LRem k 0 member) s in
              remove_from r member (removed + reply_int n) s1
  end.

Definition LUA_REROUTE_PENDING (route_key target : string) (sources : list string)
    (member projection : string) (ttl : Z) (s : S) : (Z * Z) * S :=
  let '(removed, s1) := remove_from sources member 0 s in
  let '(n, s2) := exec (LRem target 0 member) s1 in
  let removed := removed + reply_int n in
  if removed <=? 0 then ((0, 0), s2)
  else
    let '(_, s3) := exec (SetEx route_key ttl projection) s2 in
    let '(_, s4) := exec (LPush target member) s3 in
    ((removed, 1), s4).

(** * Queue methods *)

Section queue.
Variable pack_id : string.

Definition enqueue_task (up : bool) (f : fault) (task_id : string)
    (route_identity : option (dict pyval)) (s : S) : bool * S :=
  if negb up then (false, s)
  else or_else false
    (text ← lift_res (serialize_route_identity_projection task_id route_identity);
     _ ← pipeline f [SetEx (route_identity_key task_id) ROUTE_IDENTITY_TTL_SECONDS text;
                     LPush (q_pending pack_id) task_id];
     mret true) s.

Definition _move_to_processing (f : fault) (now : Z) (task_id : string)
    (visibility_timeout_sec : Z) (s : S) : option string * S :=
  or_else None
    (_ ← pipeline f [ZAdd (q_processing pack_id) (now + secs visibility_timeout_sec) task_id;
                     LRem (q_temp pack_id) 1 task_id];
     mret (Some task_id)) s.

(** [LMOVE]; [BLMOVE] is the same step at the instant it is served. *)
Definition fetch (f : fault) : stres S reply :=
  call f (LMoveRightLeft (q_pending pack_id) (q_temp pack_id)).

Definition dequeue_task_nowait (up : bool) (f1 f2 : fault) (now : Z)
    (visibility_timeout_sec : Z) (s : S) : option string * S :=
  if negb up then (None, s)
  else or_else None
    (item ← fetch f1;
     match item with
     | RBulk task_id =>
         if bool_decide (task_id = "") then mret None
         else total_st (_move_to_processing f2 now task_id visibility_timeout_sec)
     | _ => mret None
     end) s.

Definition dequeue_task_blocking := dequeue_task_nowait.

Definition promote_pending_task_by_id (up : bool) (f : fault) (now : Z) (task_id : string)
    (visibility_timeout_sec : Z) (s : S) : option string * S :=
  let normalized_task_id := strip task_id in
  if negb up || bool_decide (normalized_task_id = "") then (None, s)
  else or_else None
    (moved ← round_trip f (LUA_REMOVE_PENDING_AND_PROCESS (q_pending pack_id)
               (q_processing pack_id) normalized_task_id (now + secs visibility_timeout_sec));
     mret (if 0 <? moved then Some normalized_task_id else None)) s.

(** The distinct keys of the shards, in order. *)
Fixpoint source_keys (shards : list string) (acc : list string) : list string :=
  match shards with
  | [] => acc
  | shard :: r =>
      let normalized := strip shard in
      if bool_decide (normalized = "") then source_keys r acc
      else if bool_decide (q_pending normalized ∈ acc) then source_keys r acc
      else source_keys r (acc ++ [q_pending normalized])
  end.

Definition reroute_pending_task (up : bool) (f : fault) (task_id : string)
    (source_shards : list string) (route_identity : option (dict pyval)) (s : S)
    : (Z * bool) * S :=
  let normalized_task_id := strip task_id in
  if negb up || bool_decide (normalized_task_id = "") then ((0, false), s)
  else or_else (0, false)
    (text ← lift_res (serialize_route_identity_projection normalized_task_id route_identity);
     r ← round_trip f (LUA_REROUTE_PENDING (route_identity_key normalized_task_id)
           (q_pending pack_id) (source_keys source_shards []) normalized_task_id text
           ROUTE_IDENTITY_TTL_SECONDS);
     mret (r.1, negb (r.2 =? 0))) s.

Definition ack_task (up : bool) (f : fault) (task_id : string) (s : S) : bool * S :=
  if negb up then (false, s)
  else or_else false (r ← call f (ZRem (q_processing pack_id) task_id); mret (reply_true r)) s.

Definition nack_task_to_delayed (up : bool) (f : fault) (now : Z) (task_id : string)
    (delay_sec : Z) (s : S) : bool * S :=
  if negb up then (false, s)
  else or_else false
    (_ ← pipeline f [ZAdd (q_delayed pack_id) (now + secs delay_sec) task_id;
                     ZRem (q_processing pack_id) task_id];
     mret true) s.

Definition move_to_deadletter (up : bool) (f : fault) (task_id : string) (s : S) : bool * S :=
  if negb up then (false, s)
  else or_else false
    (_ ← pipeline f [LPush (q_deadletter pack_id) task_id;
                     ZRem (q_processing pack_id) task_id];
     mret true) s.

Definition touch_visibility_timeout (up : bool) (f : fault) (now : Z) (task_id : string)
    (added_time_sec : Z) (s : S) : bool * S :=
  if negb up then (false, s)
  else or_else false
    (_ ← call f (ZAdd (q_processing pack_id) (now + secs added_time_sec) task_id); mret true) s.

End queue.

(** * Lock methods *)

Definition acquire_lock (up : bool) (f : fault) (lock_key owner_id : string)
    (ttl_seconds : Z) (s : S) : bool * S :=
  if negb up then (false, s)
  else or_else false
    (r ← call f (SetNxEx lock_key owner_id ttl_seconds); mret (reply_true r)) s.

Definition renew_lock (up : bool) (f : fault) (lock_key owner_id : string)
    (ttl_seconds : Z) (s : S) : bool * S :=
  if negb up then (false, s)
  else or_else false
    (r ← round_trip f (LUA_RENEW_LEASE lock_key owner_id ttl_seconds); mret (negb (r =? 0))) s.

Definition release_lock (up : bool) (f : fault) (lock_key owner_id : string) (s : S)
    : bool * S :=
  if negb up then (false, s)
  else or_else false
    (r ← round_trip f (LUA_COMPARE_AND_DELETE lock_key owner_id); mret (negb (r =? 0))) s.

Definition get_lock_owner (up : bool) (f : fault) (lock_key : string) (s : S)
    : option string * S :=
  if negb up then (None, s)
  else or_else None
    (r ← call f (Get lock_key);
     mret (match r with RBulk o => str_opt o | _ => None end)) s.

End store.

Section repair.
Context {S : Type} `{RedisServer S}.

(** The transaction that takes a task out of every place of a shard, and puts
    it back at the tail of the line if asked to. *)
Definition membership_commands (pack_id task_id : string) (reenqueue_pending : bool)
    : list command :=
  [LRem (q_pending pack_id) 0 task_id; LRem (q_temp pack_id) 0 task_id;
   ZRem (q_processing pack_id) task_id; ZRem (q_delayed pack_id) task_id]
  ++ (if reenqueue_pending then [LPush (q_pending pack_id) task_id] else []).

Definition reconcile_transport_membership (pack_id : string) (up : bool) (f : fault)
    (task_id : string) (reenqueue_pending : bool) : stres S unit :=
  let normalized_task_id := strip task_id in
  if negb up || bool_decide (normalized_task_id = "") then mret tt
  else pipeline f (membership_commands pack_id normalized_task_id reenqueue_pending).

(** The shard whose queue is the target, [redis_queue] being on [pack_id]. *)
Definition resolve_transport_queue_store (pack_id : string) (queue_shard : option string)
    : string :=
  let normalized_shard := strip (default "" queue_shard) in
  if bool_decide (normalized_shard = "") || bool_decide (normalized_shard = pack_id)
  then pack_id else normalized_shard.

Definition _async_reconcile_transport_membership (pack_id : string) (up : bool)
    (f1 f2 : fault) (task_id : string) (queue_shard : option string)
    (reenqueue_pending : bool) : stres S unit :=
  let target_queue := resolve_transport_queue_store pack_id queue_shard in
  _ ← (if bool_decide (target_queue = pack_id) then mret tt
       else reconcile_transport_membership pack_id up f1 task_id false);
  reconcile_transport_membership target_queue up f2 task_id reenqueue_pending.

End repair.
