(* ===== verification/RunnerQueueTheorems.v ===== *)
(** What the runner's queue promises, on any server that behaves like Redis and
    under any loss of requests and replies: a queued task stays somewhere in
    the queue family until it is acknowledged or given up, tasks are served in
    the order they came, repairs and reroutes leave one entry, and a lock has
    one owner. *)
From S2P Require Import Prelude PyDict PyStr PyVal PyJson PyTime.
From S2P Require Import Redis RunnerQueue.

(** * Places *)

Inductive place : Type := InList (key : string) | InZset (key : string).

#[export] Instance place_eq_dec : EqDecision place.
Proof. solve_decision. Defined.

Definition at_place (t : string) (p : place) (v : keyspace) : Prop :=
  match p with
  | InList k => t ∈ list_at k v
  | InZset k => is_Some (zset_at k v !! t)
  end.

Definition removes (t : string) (p : place) (c : command) : Prop :=
  match c, p with
  | LRem k _ x, InList k' => k = k' /\ x = t
  | LMoveRightLeft a _, InList k' => a = k'
  | ZRem k x, InZset k' => k = k' /\ x = t
  | _, _ => False
  end.

Definition adds (t : string) (p : place) (c : command) : Prop :=
  match c, p with
  | LPush k x, InList k' => k = k' /\ x = t
  | ZAdd k _ x, InZset k' => k = k' /\ x = t
  | _, _ => False
  end.

Lemma elem_of_removelast (l : list string) t x :
  last l = Some x -> t ∈ l -> t = x \/ t ∈ removelast l.
Proof.
  intros Hl Ht. apply last_Some in Hl as [l' ->]. rewrite removelast_last. set_solver.
Qed.

Lemma set_string_at t p k x n v : at_place t p (set_string k x n v) <-> at_place t p v.
Proof. by destruct p. Qed.
Lemma del_string_at t p k v : at_place t p (del_string k v) <-> at_place t p v.
Proof. by destruct p. Qed.

Lemma effect_keeps t p c v :
  at_place t p v -> ~ removes t p c -> at_place t p (effect c v).
Proof.
  intros Ht Hn. destruct c; simpl in *; try (repeat case_match; by try apply set_string_at;
    try apply del_string_at).
  - destruct p as [k|k]; [|done]. simpl in *. destruct (decide (k = key)) as [->|Hk].
    + rewrite list_at_set_eq. by right.
    + by rewrite list_at_set_ne.
  - destruct p as [k|k]; [|done]. simpl in *. destruct (decide (k = key)) as [->|Hk].
    + rewrite list_at_set_eq. apply lrem_first_keeps; [naive_solver | done].
    + by rewrite list_at_set_ne.
  - destruct (last _); [|done]. destruct p as [k|k]; [|done]. simpl in *.
    destruct (decide (k = destination)) as [->|Hk].
    + rewrite list_at_set_eq. right. by rewrite list_at_set_ne by done.
    + by rewrite !list_at_set_ne by done.
  - destruct p as [k|k]; [done|]. simpl in *. destruct (decide (k = key)) as [->|Hk].
    + rewrite zset_at_set_eq. destruct (decide (t = member)) as [->|Hm].
      * rewrite lookup_insert_eq. by eexists.
      * by rewrite lookup_insert_ne.
    + by rewrite zset_at_set_ne.
  - destruct p as [k|k]; [done|]. simpl in *. destruct (decide (k = key)) as [->|Hk].
    + rewrite zset_at_set_eq, lookup_delete_ne by naive_solver. done.
    + by rewrite zset_at_set_ne.
Qed.

Lemma effect_adds t p c v : adds t p c -> at_place t p (effect c v).
Proof.
  destruct c, p; simpl; try done; intros [-> ->].
  - rewrite list_at_set_eq. by left.
  - rewrite zset_at_set_eq, lookup_insert_eq. by eexists.
Qed.

Definition is_move (c : command) : Prop :=
  match c with LMoveRightLeft _ _ => True | _ => False end.

Lemma still_absent t p c v :
  ~ is_move c -> ~ adds t p c -> ~ at_place t p v -> ~ at_place t p (effect c v).
Proof.
  intros Hm Ha Hv. contradict Hv. revert Hv. destruct c; simpl in *;
    try (repeat case_match; by rewrite ?set_string_at, ?del_string_at).
  - destruct p as [k|k]; [|done]. simpl in *. destruct (decide (k = key)) as [->|Hk].
    + rewrite list_at_set_eq. intros [->|Hin]%list.elem_of_cons; [naive_solver | done].
    + by rewrite list_at_set_ne.
  - destruct p as [k|k]; [|done]. simpl in *. destruct (decide (k = key)) as [->|Hk].
    + rewrite list_at_set_eq. apply lrem_first_sub.
    + by rewrite list_at_set_ne.
  - destruct p as [k|k]; [done|]. simpl in *. destruct (decide (k = key)) as [->|Hk].
    + rewrite zset_at_set_eq, lookup_insert_ne by naive_solver. done.
    + by rewrite zset_at_set_ne.
  - destruct p as [k|k]; [done|]. simpl in *. destruct (decide (k = key)) as [->|Hk].
    + rewrite zset_at_set_eq. destruct (decide (t = member)) as [->|Hne].
      * rewrite lookup_delete_eq. by intros [? ?].
      * by rewrite lookup_delete_ne.
    + by rewrite zset_at_set_ne.
Qed.

Lemma lrem_gone x k v : x ∉ list_at k (effect (LRem k 0 x) v).
Proof. simpl. rewrite list_at_set_eq. apply lrem_zero. Qed.

Lemma zrem_gone t k v : ~ at_place t (InZset k) (effect (ZRem k t) v).
Proof. simpl. rewrite zset_at_set_eq, lookup_delete_eq. by intros [? ?]. Qed.

Definition run_commands (cs : list command) (v : keyspace) : keyspace :=
  foldl (fun v c => effect c v) v cs.

Lemma commands_keep t p cs v :
  at_place t p v -> Forall (fun c => ~ removes t p c) cs -> at_place t p (run_commands cs v).
Proof.
  intros Ht Hcs. revert v Ht. induction Hcs as [|c cs Hc _ IH]; intros v Ht; [done|].
  apply IH. by apply effect_keeps.
Qed.

(** * The queue family *)

Inductive queue_kind : Type := Pending | Temp | Processing | Delayed | Deadletter.

Definition place_of (k : queue_kind) (shard : string) : place :=
  match k with
  | Pending => InList (q_pending shard)
  | Temp => InList (q_temp shard)
  | Processing => InZset (q_processing shard)
  | Delayed => InZset (q_delayed shard)
  | Deadletter => InList (q_deadletter shard)
  end.

(** The task has an entry somewhere in the family. *)
Definition held (t : string) (v : keyspace) : Prop :=
  exists k shard, at_place t (place_of k shard) v.

Lemma place_of_inj k k' a b : place_of k a = place_of k' b -> k = k' /\ a = b.
Proof.
  destruct k, k'; simpl; try discriminate; intros [= H]; split; try done; try discriminate H;
    congruence.
Qed.

Lemma pending_temp a b : q_pending a ≠ q_temp b.
Proof. discriminate. Qed.

(** The only task the commands take away is [x]. *)
Definition takes_only (x : string) (cs : list command) : Prop :=
  Forall (fun c => forall t p, removes t p c -> t = x) cs.

Ltac takes_one :=
  unfold takes_only; simpl; repeat (apply Forall_cons; split);
  first [apply Forall_nil_2 | intros ? [?|?]; simpl; naive_solver].

Lemma held_commands t x cs v :
  held t v -> takes_only x cs -> (t = x -> held t (run_commands cs v)) ->
  held t (run_commands cs v).
Proof.
  intros (k & sh & Hp) Hcs Hx. destruct (decide (t = x)) as [->|Hne]; [auto|].
  exists k, sh. apply commands_keep; [done|]. eapply Forall_impl; [exact Hcs|].
  simpl. intros c Hc Hr. by apply Hne, (Hc t _ Hr).
Qed.

Section theorems.
Context {S : Type} `{RedisServer S}.

Lemma held_pipeline t x f cs (s : S) :
  held t (view s) -> takes_only x cs ->
  (t = x -> held t (run_commands cs (view s))) ->
  held t (view (pipeline f cs s).2).
Proof.
  intros Ht Hcs Hx. destruct (pipeline_view f cs s) as [-> | ->]; [done|].
  by eapply held_commands.
Qed.

(** The state a chain of calls leaves: some prefix of it ran. *)
Lemma bind_state {A B} (m : stres S A) (g : A -> stres S B) s :
  ((m ≫= g) s).2 = (m s).2 \/ exists a s1, m s = (Ok a, s1) /\ ((m ≫= g) s).2 = (g a s1).2.
Proof.
  unfold mbind, stres_bind. destruct (m s) as [[a|e] s1]; [right; eauto | by left].
Qed.

Lemma bind_mret_state {A B} (m : stres S A) (g : A -> B) s :
  ((a ← m; mret (g a)) s).2 = (m s).2.
Proof. unfold mbind, stres_bind. by destruct (m s) as [[a|e] s1]. Qed.

Lemma lift_bind_state {A B} (r : res A) (g : A -> stres S B) s :
  ((lift_res r ≫= g) s).2 = s \/ exists a, ((lift_res r ≫= g) s).2 = (g a s).2.
Proof. destruct r as [a|e]; [right; by exists a | by left]. Qed.

(** * Each method keeps every task *)

Lemma enqueue_held pack up f x route s t :
  held t (view s) -> held t (view (enqueue_task pack up f x route s).2).
Proof.
  intros Ht. unfold enqueue_task. destruct (negb up); [done|]. rewrite or_else_state.
  match goal with |- held t (view ((lift_res ?r ≫= ?g) s).2) =>
    destruct (lift_bind_state r g s) as [-> | [text ->]] end; [done|].
  rewrite bind_mret_state. eapply (held_pipeline _ x); [done| |].
  - takes_one.
  - intros ->. exists Pending, pack. apply (effect_adds x). done.
Qed.

Lemma fetch_held pack f s t : held t (view s) -> held t (view (fetch pack f s).2).
Proof.
  intros (k & sh & Hp). unfold fetch.
  destruct (call_view f (LMoveRightLeft (q_pending pack) (q_temp pack)) s) as [-> | ->];
    [by exists k, sh|].
  destruct (decide (place_of k sh = InList (q_pending pack))) as [Heq|Hne].
  - rewrite Heq in Hp. simpl in Hp |- *.
    destruct (last (list_at (q_pending pack) (view s))) as [y|] eqn:El;
      [|exists Pending, pack; done].
    destruct (elem_of_removelast _ _ _ El Hp) as [->|Hin].
    + exists Temp, pack. simpl. rewrite list_at_set_eq. by left.
    + exists Pending, pack. simpl.
      rewrite list_at_set_ne by apply pending_temp. rewrite list_at_set_eq. exact Hin.
  - exists k, sh. apply effect_keeps; [done|].
    destruct (place_of k sh) as [key|key] eqn:Ek; simpl; [|tauto]. intros Heq. by rewrite Heq in Hne.
Qed.

Lemma promote_held pack f now x vt s t :
  held t (view s) -> held t (view (_move_to_processing pack f now x vt s).2).
Proof.
  intros Ht. unfold _move_to_processing. rewrite or_else_state, bind_mret_state.
  eapply (held_pipeline _ x); [done| |].
  - takes_one.
  - intros ->. exists Processing, pack. apply (effect_keeps x).
    + by apply (effect_adds x).
    + simpl. tauto.
Qed.

Lemma dequeue_held pack up f1 f2 now vt s t :
  held t (view s) -> held t (view (dequeue_task_nowait pack up f1 f2 now vt s).2).
Proof.
  intros Ht. unfold dequeue_task_nowait. destruct (negb up); [done|]. rewrite or_else_state.
  pose proof (fetch_held pack f1 s t Ht) as Hf.
  match goal with |- held t (view ((fetch pack f1 ≫= ?g) s).2) =>
    destruct (bind_state (fetch pack f1) g s) as [-> | (r & s1 & Hr & ->)] end; [done|].
  rewrite Hr in Hf. simpl in Hf. destruct r as [|y| | |]; try done. case_bool_decide; [done|].
  unfold total_st. pose proof (promote_held pack f2 now y vt s1 t Hf) as Hp.
  by destruct (_move_to_processing _ _ _ _ _ s1).
Qed.

Lemma script_view {A} f (m : S -> A * S) (s : S) (P : keyspace -> Prop) :
  P (view s) -> P (view (m s).2) -> P (view (round_trip f m s).2).
Proof. intros H1 H2. destruct (round_trip_view f m s) as [-> | ->]; done. Qed.

Lemma remove_pending_view a b x n (s : S) :
  view (LUA_REMOVE_PENDING_AND_PROCESS a b x n s).2 =
  if (0 <? Z.of_nat (length (list_at a (view s)) - length (lrem_list 1 x (list_at a (view s)))))
  then effect (ZAdd b n x) (effect (LRem a 1 x) (view s)) else effect (LRem a 1 x) (view s).
Proof.
  unfold LUA_REMOVE_PENDING_AND_PROCESS.
  pose proof (exec_reply (LRem a 1 x) s) as Hr. pose proof (exec_effect (LRem a 1 x) s) as He.
  destruct (exec (LRem a 1 x) s) as [r s1]. simpl in Hr. subst r. cbn [reply_int].
  simpl snd in He. rewrite <- He. destruct (0 <? _); [|done].
  pose proof (exec_effect (ZAdd b n x) s1) as He2. by destruct (exec (ZAdd b n x) s1).
Qed.

Lemma promote_by_id_held pack up f now x vt s t :
  held t (view s) -> held t (view (promote_pending_task_by_id pack up f now x vt s).2).
Proof.
  intros Ht. unfold promote_pending_task_by_id. destruct (_ || _); [done|].
  rewrite or_else_state, bind_mret_state. apply script_view; [done|].
  rewrite remove_pending_view. set (y := strip x). destruct (0 <? _) eqn:E.
  - apply (held_commands _ y [LRem (q_pending pack) 1 y;
                              ZAdd (q_processing pack) (now + secs vt) y]); [done| |].
    + takes_one.
    + intros ->. exists Processing, pack. apply (effect_adds y). done.
  - assert (Hnot : y ∉ list_at (q_pending pack) (view s)).
    { bool_prop. pose proof (lrem_first_length 1 y (list_at (q_pending pack) (view s))).
      apply (lrem_removed_none 1); [lia|].
      change (lrem_list 1 y (list_at (q_pending pack) (view s)))
        with (lrem_first 1 y (list_at (q_pending pack) (view s))) in E. lia. }
    destruct Ht as (k & sh & Hp). exists k, sh. apply effect_keeps; [done|].
    destruct (place_of k sh) as [key|key]; simpl; [|tauto]. by intros [<- ->].
Qed.

Lemma ack_held pack up f x s t :
  t ≠ x -> held t (view s) -> held t (view (ack_task pack up f x s).2).
Proof.
  intros Hne (k & sh & Hp). unfold ack_task. destruct (negb up); [by exists k, sh|].
  rewrite or_else_state, bind_mret_state.
  destruct (call_view f (ZRem (q_processing pack) x) s) as [-> | ->]; exists k, sh; [done|].
  apply effect_keeps; [done|]. destruct (place_of k sh); simpl; naive_solver.
Qed.

Lemma nack_held pack up f now x d s t :
  held t (view s) -> held t (view (nack_task_to_delayed pack up f now x d s).2).
Proof.
  intros Ht. unfold nack_task_to_delayed. destruct (negb up); [done|].
  rewrite or_else_state, bind_mret_state. eapply (held_pipeline _ x); [done| |].
  - takes_one.
  - intros ->. exists Delayed, pack. apply (effect_keeps x); [by apply (effect_adds x)|].
    simpl. intros [Hk _]. discriminate Hk.
Qed.

Lemma deadletter_held pack up f x s t :
  held t (view s) -> held t (view (move_to_deadletter pack up f x s).2).
Proof.
  intros Ht. unfold move_to_deadletter. destruct (negb up); [done|].
  rewrite or_else_state, bind_mret_state. eapply (held_pipeline _ x); [done| |].
  - takes_one.
  - intros ->. exists Deadletter, pack. apply (effect_keeps x); [by apply (effect_adds x) | simpl; tauto].
Qed.

Lemma touch_held pack up f now x n s t :
  held t (view s) -> held t (view (touch_visibility_timeout pack up f now x n s).2).
Proof.
  intros (k & sh & Hp). unfold touch_visibility_timeout. destruct (negb up); [by exists k, sh|].
  rewrite or_else_state, bind_mret_state.
  match goal with |- held t (view (call f ?c s).2) =>
    destruct (call_view f c s) as [-> | ->] end; exists k, sh; [done|].
  apply effect_keeps; [done | simpl; tauto].
Qed.

(** The repair transaction on one shard. *)
Lemma reconcile_held pack up f x re s t :
  held t (view s) -> (t = strip x -> re = true) ->
  held t (view (reconcile_transport_membership pack up f x re s).2).
Proof.
  intros Ht Hre. unfold reconcile_transport_membership. destruct (_ || _); [done|].
  eapply (held_pipeline _ (strip x)); [done| |].
  - unfold membership_commands. destruct re; takes_one.
  - intros Heq. rewrite (Hre Heq), Heq. exists Pending, pack. apply (effect_adds (strip x)). done.
Qed.

(** * Moving a pending task to another shard *)

Lemma lrem_absent x k k' n y v :
  x ∉ list_at k v -> x ∉ list_at k (effect (LRem k' n y) v).
Proof.
  intros Hx. simpl. destruct (decide (k = k')) as [->|Hk].
  - rewrite list_at_set_eq. by intros Hin%lrem_first_sub.
  - by rewrite list_at_set_ne.
Qed.

Lemma lrem_count x l :
  Z.of_nat (length l - length (lrem_list 0 x l)) = 0 -> x ∉ l.
Proof.
  intros Hl. pose proof (lrem_first_length (length l) x l). unfold lrem_list in Hl. simpl in Hl.
  destruct l as [|y l]; [set_solver|]. apply (lrem_removed_none (length (y :: l))); simpl in *; lia.
Qed.

Lemma lrem_id n x l : x ∉ l -> lrem_list n x l = l.
Proof. intros Hx. by apply lrem_first_id. Qed.

Lemma remove_from_spec ks x n (s : S) m s' :
  remove_from ks x n s = (m, s') ->
  n <= m /\
  (forall t p, t ≠ x -> at_place t p (view s) -> at_place t p (view s')) /\
  (forall k, at_place x (InZset k) (view s) -> at_place x (InZset k) (view s')) /\
  (forall k, x ∈ list_at k (view s) -> k ∉ ks -> x ∈ list_at k (view s')) /\
  (forall k, x ∉ list_at k (view s) \/ k ∈ ks -> x ∉ list_at k (view s')) /\
  (m = n -> forall k, k ∈ ks -> x ∉ list_at k (view s)) /\
  (n < m -> exists k, k ∈ ks /\ x ∈ list_at k (view s)).
Proof.
  revert n s. induction ks as [|k ks IH]; intros n s E; simpl in E.
  { inv E. split_and!; try done; [set_solver.. | lia]. }
  pose proof (exec_reply (LRem k 0 x) s) as Hr. pose proof (exec_effect (LRem k 0 x) s) as He.
  destruct (exec (LRem k 0 x) s) as [r s1]. simpl fst in Hr. simpl snd in He. subst r.
  cbn [reply_of reply_int] in E. apply IH in E as (Hm & Ho & Hz & Hk & Hg & Hn & Hs).
  rewrite He in *. split_and!.
  - lia.
  - intros t p Ht Hp. apply Ho; [done|]. apply effect_keeps; [done|].
    destruct p; simpl; naive_solver.
  - intros j Hj. apply Hz. apply (effect_keeps x (InZset j)); [done | simpl; tauto].
  - intros j Hj Hnin. apply Hk; [|set_solver].
    apply (effect_keeps x (InList j)); [done | simpl; set_solver].
  - intros j Hj. apply Hg. destruct Hj as [Hj|[->|Hj]%list.elem_of_cons]; [left|left|by right].
    + by apply lrem_absent.
    + apply lrem_gone.
  - intros Heq j [->|Hj]%list.elem_of_cons.
    + apply lrem_count. lia.
    + assert (Hj' : x ∉ list_at j (effect (LRem k 0 x) (view s))) by (apply Hn; [lia | done]).
      destruct (decide (j = k)) as [->|Hne]; [apply lrem_count; lia|].
      simpl in Hj'. by rewrite list_at_set_ne in Hj'.
  - intros Hlt. destruct (decide (x ∈ list_at k (view s))) as [Hin|Hnin]; [set_solver|].
    rewrite lrem_id in Hs by done. destruct Hs as (j & Hj & Hin); [lia|].
    exists j. split; [set_solver|]. destruct (decide (j = k)) as [->|Hne].
    + by apply lrem_absent with (k' := k) (n := 0) (y := x) in Hnin.
    + simpl in Hin. by rewrite list_at_set_ne in Hin.
Qed.

(** The script: nothing but [x] moves, and either nothing was there to move or
    [x] is pending on the target, once, and on no source. *)
Lemma reroute_script rk target ks x text ttl (s : S) n b s' :
  LUA_REROUTE_PENDING rk target ks x text ttl s = ((n, b), s') ->
  (forall t p, t ≠ x -> at_place t p (view s) -> at_place t p (view s')) /\
  (forall k, at_place x (InZset k) (view s) -> at_place x (InZset k) (view s')) /\
  (forall k, x ∈ list_at k (view s) -> k ∉ ks -> k ≠ target -> x ∈ list_at k (view s')) /\
  ((b = 0 /\ n = 0 /\ forall k, k = target \/ k ∈ ks -> x ∉ list_at k (view s)) \/
   (b = 1 /\ 0 < n /\ (exists k, (k = target \/ k ∈ ks) /\ x ∈ list_at k (view s)) /\
    (exists l, list_at target (view s') = x :: l /\ x ∉ l) /\
    forall k, k ∈ ks -> k ≠ target -> x ∉ list_at k (view s'))).
Proof.
  unfold LUA_REROUTE_PENDING. intros E.
  destruct (remove_from ks x 0 s) as [m s1] eqn:Er.
  apply remove_from_spec in Er as (Hm & Ho & Hz & Hk & Hg & Hn & Hs).
  pose proof (exec_reply (LRem target 0 x) s1) as Hr.
  pose proof (exec_effect (LRem target 0 x) s1) as He.
  destruct (exec (LRem target 0 x) s1) as [r s2]. simpl fst in Hr. simpl snd in He. subst r.
  cbn [reply_of reply_int] in E.
  set (d := Z.of_nat (length (list_at target (view s1)) - _)) in *.
  assert (Hd : 0 <= d) by lia.
  assert (Ho2 : forall t p, t ≠ x -> at_place t p (view s) -> at_place t p (view s2)).
  { intros t p Ht Hp. rewrite He. apply effect_keeps; [by apply Ho|].
    destruct p; simpl; naive_solver. }
  assert (Hz2 : forall k, at_place x (InZset k) (view s) -> at_place x (InZset k) (view s2)).
  { intros k Hp. rewrite He. apply (effect_keeps x (InZset k)); [by apply Hz | simpl; tauto]. }
  assert (Hk2 : forall k, x ∈ list_at k (view s) -> k ∉ ks -> k ≠ target ->
                  x ∈ list_at k (view s2)).
  { intros k Hp Hk1 Hk2. rewrite He. apply (effect_keeps x (InList k)); [by apply Hk|].
    simpl. naive_solver. }
  assert (Hg2 : forall k, k = target \/ k ∈ ks -> x ∉ list_at k (view s2)).
  { intros k [->|Hin]; rewrite He; [apply lrem_gone|]. apply lrem_absent, Hg. by right. }
  destruct (m + d <=? 0) eqn:Emd; bool_prop.
  - inv E. split_and!; [done..|]. left. split_and!; [done..|].
    intros k [->|Hin]; [|apply Hn; [lia | done]].
    destruct (decide (target ∈ ks)) as [Hin|Hnin]; [apply Hn; [lia | done]|].
    intros Hx. pose proof (Hk target Hx Hnin) as Hx1. revert Hx1. apply lrem_count. lia.
  - pose proof (exec_effect (SetEx rk ttl text) s2) as He3.
    destruct (exec (SetEx rk ttl text) s2) as [r3 s3]. simpl snd in He3.
    pose proof (exec_effect (LPush target x) s3) as He4.
    destruct (exec (LPush target x) s3) as [r4 s4]. simpl snd in He4. inv E.
    assert (Hsame : forall t p, at_place t p (view s2) <-> at_place t p (view s3)).
    { intros t p. rewrite He3. simpl. case_match; [|done]. symmetry. apply set_string_at. }
    assert (Hpush : forall t p, at_place t p (view s2) -> at_place t p (view s')).
    { intros t p Hp. rewrite He4. apply effect_keeps; [by apply Hsame | simpl; tauto]. }
    split_and!; [by auto| | |].
    + intros k Hp. exact (Hpush x (InZset k) (Hz2 k Hp)).
    + intros k Hp Hk1 Hk3. exact (Hpush x (InList k) (Hk2 k Hp Hk1 Hk3)).
    + right. split_and!; [done | lia | | |].
      * destruct (decide (0 < m)) as [Hpos|Hneg].
        { destruct (Hs Hpos) as (k & Hin & Hx). eauto. }
        assert (Hx : x ∈ list_at target (view s1)).
        { destruct (decide (x ∈ list_at target (view s1))) as [|Hnin]; [done|].
          exfalso. subst d. rewrite lrem_id in Emd by done. lia. }
        exists target. split; [by left|].
        destruct (decide (x ∈ list_at target (view s))) as [|Hnin]; [done|].
        destruct (Hg target); [by left | done].
      * exists (list_at target (view s3)). rewrite He4. simpl. rewrite list_at_set_eq.
        split; [done|]. intros Hx. apply (Hg2 target); [by left|].
        by apply (Hsame x (InList target)).
      * intros k Hin Hne Hx. apply (Hg2 k); [by right|]. apply (Hsame x (InList k)). simpl.
        rewrite He4 in Hx. simpl in Hx. by rewrite list_at_set_ne in Hx.
Qed.

Lemma reroute_held pack up f x shards route s t :
  held t (view s) -> held t (view (reroute_pending_task pack up f x shards route s).2).
Proof.
  intros Ht. unfold reroute_pending_task. destruct (_ || _); [done|]. rewrite or_else_state.
  match goal with |- held t (view ((lift_res ?r ≫= ?g) s).2) =>
    destruct (lift_bind_state r g s) as [-> | [text ->]] end; [done|].
  rewrite bind_mret_state. apply script_view; [done|]. set (y := strip x).
  destruct (LUA_REROUTE_PENDING _ _ _ y text _ s) as [[n b] s'] eqn:E.
  apply reroute_script in E as (Ho & Hz & Hk & Hcase). simpl.
  destruct Ht as (k & sh & Hp). destruct (decide (t = y)) as [->|Hne]; [|exists k, sh; auto].
  destruct (place_of k sh) as [key|key] eqn:Ek.
  - destruct (decide (key = q_pending pack \/ key ∈ source_keys shards [])) as [Hin|Hnin].
    + destruct Hcase as [(_ & _ & Hno)|(_ & _ & _ & (l & Hl & _) & _)]; [by destruct (Hno key Hin)|].
      exists Pending, pack. simpl. rewrite Hl. by left.
    + exists k, sh. rewrite Ek. apply Hk; naive_solver.
  - exists k, sh. rewrite Ek. by apply Hz.
Qed.

Lemma pipeline_delivered cs (s : S) :
  view (pipeline Delivered cs s).2 = run_commands cs (view s).
Proof.
  unfold pipeline, mbind, stres_bind, round_trip, lift_res.
  pose proof (exec_all_view cs s) as Hv. by destruct (exec_all cs s).
Qed.

(** A delivered repair puts the task back at the tail of the line, or out. *)
Lemma reconcile_delivered pack x re (s : S) :
  strip x ≠ "" ->
  view (reconcile_transport_membership pack true Delivered x re s).2 =
  run_commands (membership_commands pack (strip x) re) (view s).
Proof.
  intros Hx. unfold reconcile_transport_membership. rewrite bool_decide_false by done. simpl.
  apply pipeline_delivered.
Qed.

(** The repair of a task across shards is two transactions: the task is kept if
    both are delivered, or if there is only one. *)
Definition repair_delivered (pack : string) (f1 f2 : fault) (shard : option string) : Prop :=
  (f1 = Delivered /\ f2 = Delivered) \/ resolve_transport_queue_store pack shard = pack.

Lemma reconcile_Ok pack x re (s : S) :
  (reconcile_transport_membership pack true Delivered x re s).1 = Ok tt.
Proof.
  unfold reconcile_transport_membership. destruct (_ || _); [done|].
  unfold pipeline, mbind, stres_bind, round_trip, lift_res, membership_commands. simpl.
  pose proof (fun c => exec_reply (S:=S) c) as Hr.
  repeat match goal with |- context [exec ?c ?u] =>
    let E := fresh "E" in pose proof (Hr c u) as E; destruct (exec c u); simpl in E; subst end.
  destruct re; simpl; [|done].
  repeat match goal with |- context [exec ?c ?u] =>
    let E := fresh "E" in pose proof (Hr c u) as E; destruct (exec c u); simpl in E; subst end.
  done.
Qed.

Lemma async_reconcile_held pack up f1 f2 x shard re s t :
  held t (view s) ->
  (t = strip x -> re = true /\ repair_delivered pack f1 f2 shard) ->
  held t (view (_async_reconcile_transport_membership pack up f1 f2 x shard re s).2).
Proof.
  intros Ht Hx. unfold _async_reconcile_transport_membership.
  set (target := resolve_transport_queue_store pack shard) in *.
  case_bool_decide as Hsame.
  { change (held t (view (reconcile_transport_membership target up f2 x re s).2)).
    apply reconcile_held; [done | naive_solver]. }
  destruct (decide (t = strip x)) as [Heq|Hne].
  - destruct (Hx Heq) as [-> [[-> ->]|Hsh]]; [|done]. destruct up; [|done].
    unfold mbind, stres_bind. pose proof (reconcile_Ok pack x false s) as H1.
    destruct (reconcile_transport_membership pack true Delivered x false s) as [r s1] eqn:E1.
    simpl in H1. subst r. destruct (decide (strip x = "")) as [He|Hne].
    { unfold reconcile_transport_membership in E1 |- *. rewrite bool_decide_true in E1 |- * by done.
      by injection E1 as <-. }
    rewrite reconcile_delivered by done. subst t. exists Pending, target.
    apply (effect_adds (strip x)). done.
  - match goal with |- held t (view ((?m ≫= ?g) s).2) =>
      destruct (bind_state m g s) as [-> | (u & s1 & Hu & ->)] end.
    + by apply reconcile_held.
    + apply reconcile_held; [|done].
      pose proof (reconcile_held pack up f1 x false s t Ht ltac:(done)) as Hr.
      by rewrite Hu in Hr.
Qed.

(** * Runs *)

(** One call made by some runner; [OpFetch] and [OpPromote] are the two halves
    of a dequeue, between which a runner may stop or others may act. *)
Inductive queue_op : Type :=
| OpEnqueue (shard : string) (up : bool) (f : fault) (task : string)
    (route : option (dict pyval))
| OpFetch (shard : string) (f : fault)
| OpPromote (shard : string) (f : fault) (now : Z) (task : string) (timeout : Z)
| OpDequeue (shard : string) (up : bool) (f1 f2 : fault) (now timeout : Z)
| OpPromoteById (shard : string) (up : bool) (f : fault) (now : Z) (task : string) (timeout : Z)
| OpReroute (shard : string) (up : bool) (f : fault) (task : string) (sources : list string)
    (route : option (dict pyval))
| OpAck (shard : string) (up : bool) (f : fault) (task : string)
| OpNack (shard : string) (up : bool) (f : fault) (now : Z) (task : string) (delay : Z)
| OpDeadletter (shard : string) (up : bool) (f : fault) (task : string)
| OpTouch (shard : string) (up : bool) (f : fault) (now : Z) (task : string) (added : Z)
| OpReconcile (shard : string) (up : bool) (f1 f2 : fault) (task : string)
    (queue_shard : option string) (reenqueue : bool).

Definition run_op (o : queue_op) (s : S) : S :=
  match o with
  | OpEnqueue p up f t r => (enqueue_task p up f t r s).2
  | OpFetch p f => (fetch p f s).2
  | OpPromote p f now t n => (_move_to_processing p f now t n s).2
  | OpDequeue p up f1 f2 now n => (dequeue_task_nowait p up f1 f2 now n s).2
  | OpPromoteById p up f now t n => (promote_pending_task_by_id p up f now t n s).2
  | OpReroute p up f t src r => (reroute_pending_task p up f t src r s).2
  | OpAck p up f t => (ack_task p up f t s).2
  | OpNack p up f now t d => (nack_task_to_delayed p up f now t d s).2
  | OpDeadletter p up f t => (move_to_deadletter p up f t s).2
  | OpTouch p up f now t n => (touch_visibility_timeout p up f now t n s).2
  | OpReconcile p up f1 f2 t sh re =>
      (_async_reconcile_transport_membership p up f1 f2 t sh re s).2
  end.

Definition run (ops : list queue_op) (s : S) : S := foldl (fun s o => run_op o s) s ops.

(** The calls that may end a task's presence: its acknowledgement, a repair that
    drops it, and a repair across shards that the connection cuts in two. *)
Definition gives_up (t : string) (o : queue_op) : Prop :=
  match o with
  | OpAck _ _ _ x => x = t
  | OpReconcile p _ f1 f2 x sh re =>
      strip x = t /\ (re = false \/ ~ repair_delivered p f1 f2 sh)
  | _ => False
  end.

#[export] Instance repair_delivered_dec p f1 f2 sh : Decision (repair_delivered p f1 f2 sh).
Proof.
  unfold repair_delivered.
  assert (forall f : fault, Decision (f = Delivered)) by (intros [ ]; (by left) || by right).
  apply _.
Defined.

Lemma run_op_held o s t : held t (view s) -> ~ gives_up t o -> held t (view (run_op o s)).
Proof.
  intros Ht Hn. destruct o; simpl in *.
  - by apply enqueue_held.
  - by apply fetch_held.
  - by apply promote_held.
  - by apply dequeue_held.
  - by apply promote_by_id_held.
  - by apply reroute_held.
  - apply ack_held; [congruence | done].
  - by apply nack_held.
  - by apply deadletter_held.
  - by apply touch_held.
  - apply async_reconcile_held; [done|]. intros ->. split.
    + destruct reenqueue; [done|]. destruct Hn. auto.
    + destruct (decide (repair_delivered shard f1 f2 queue_shard)); [done|]. destruct Hn. auto.
Qed.

(** C32: the operations of the queue lose no queued task: whatever calls of the
    queue store and of the membership repair the runners make, in any
    interleaving, with any requests or replies lost and runners stopping between
    the two steps of a dequeue, a task that has an entry in the queue family
    still has one, unless it was acknowledged or a repair gave it up (asked not
    to put it back, or cut off between the two shards). This is
    about the methods of the store and the repair; the callers that touch the
    keys themselves, the mover of delayed tasks in the reaper and the clean-up
    at a worker's start, are not among them. *)
Theorem no_task_lost t ops (s : S) :
  held t (view s) -> Forall (fun o => ~ gives_up t o) ops -> held t (view (run ops s)).
Proof.
  intros Ht Hops. revert s Ht. induction Hops as [|o ops Ho _ IH]; intros s Ht; [done|].
  apply IH. by apply run_op_held.
Qed.

(** A repair leaves one entry: after a delivered repair the task is in none
    of the waiting, in-flight, leased or delayed places of the shard, except,
    when it is put back, once, at the tail of the pending line. *)
Theorem repair_leaves_one_entry pack x re (s : S) :
  strip x ≠ "" ->
  let v := view (reconcile_transport_membership pack true Delivered x re s).2 in
  strip x ∉ list_at (q_temp pack) v /\
  zset_at (q_processing pack) v !! strip x = None /\
  zset_at (q_delayed pack) v !! strip x = None /\
  exists l, strip x ∉ l /\
    list_at (q_pending pack) v = (if re then strip x :: l else l).
Proof.
  intros Hx v. subst v. rewrite reconcile_delivered by done. set (y := strip x).
  set (v4 := run_commands (membership_commands pack y false) (view s)).
  assert (Hv : run_commands (membership_commands pack y re) (view s) =
    if re then effect (LPush (q_pending pack) y) v4 else v4) by (by destruct re).
  assert (Hp : ~ at_place y (InList (q_pending pack)) v4).
  { do 3 (apply still_absent; [simpl; tauto.. |]). apply lrem_gone. }
  assert (Ht : ~ at_place y (InList (q_temp pack)) v4).
  { do 2 (apply still_absent; [simpl; tauto.. |]). apply lrem_gone. }
  assert (Hr : ~ at_place y (InZset (q_processing pack)) v4).
  { apply still_absent; [simpl; tauto.. |]. apply zrem_gone. }
  assert (Hd : ~ at_place y (InZset (q_delayed pack)) v4) by apply zrem_gone.
  rewrite Hv. assert (Hq : q_temp pack ≠ q_pending pack) by (intros E; discriminate E).
  split_and!.
  - destruct re; [|done]. apply (still_absent y (InList _)); [simpl; tauto | |done].
    simpl. naive_solver.
  - apply eq_None_not_Some. destruct re; done.
  - apply eq_None_not_Some. destruct re; done.
  - exists (list_at (q_pending pack) v4). split; [done|].
    destruct re; [|done]. simpl. by rewrite list_at_set_eq.
Qed.

Lemma source_keys_in shards acc k :
  k ∈ source_keys shards acc <->
  k ∈ acc \/ exists shard, shard ∈ shards /\ strip shard ≠ "" /\ k = q_pending (strip shard).
Proof.
  revert acc. induction shards as [|sh r IH]; intros acc; simpl; [set_solver|].
  case_bool_decide as H1; [rewrite IH; set_solver|].
  case_bool_decide as H2; rewrite IH; set_solver.
Qed.

(** A reroute moves, never copies: a delivered reroute touches no other
    task; it answers with a push exactly when the task was pending on the target
    or a source shard, and then the task is pending once, on the target, and on
    no other source; otherwise every entry of the task stays where it was. *)
Theorem reroute_moves_once pack x shards route (s : S) :
  strip x ≠ "" ->
  let sources := source_keys shards [] in
  let r := reroute_pending_task pack true Delivered x shards route s in
  let pending := exists k, (k = q_pending pack \/ k ∈ sources) /\
                           strip x ∈ list_at k (view s) in
  (forall t p, t ≠ strip x -> at_place t p (view s) -> at_place t p (view r.2)) /\
  (r.1.2 = true <-> pending) /\
  (pending ->
     0 < r.1.1 /\
     (exists l, list_at (q_pending pack) (view r.2) = strip x :: l /\ strip x ∉ l) /\
     forall k, k ∈ sources -> k ≠ q_pending pack -> strip x ∉ list_at k (view r.2)) /\
  (~ pending -> r.1.1 = 0 /\
     forall p, at_place (strip x) p (view s) -> at_place (strip x) p (view r.2)).
Proof.
  intros Hx sources r pending. subst r. unfold reroute_pending_task.
  rewrite bool_decide_false by done. simpl negb. simpl orb.
  destruct (json_dumps_lenient true
    (PDict (normalize_route_identity_projection (strip x) route))) as [text Ht].
  unfold serialize_route_identity_projection, or_else, mbind, stres_bind, lift_res, round_trip.
  rewrite Ht. fold sources.
  destruct (LUA_REROUTE_PENDING _ _ _ (strip x) text _ s) as [[n b] s'] eqn:E.
  apply reroute_script in E as (Ho & Hz & Hk & Hcase). simpl.
  destruct Hcase as [(-> & -> & Hno)|(-> & Hpos & Hp & Hone & Hnot)]; simpl.
  - assert (Hnp : ~ pending) by (intros (k & Hin & Hp); by apply (Hno k)).
    split_and!; [done | split; [done | by intros ?] | done |].
    intros _. split; [done|]. intros [k|k] Hp; [|by apply Hz].
    apply Hk; [done|..]; intros Hin; apply (Hno k); auto.
  - split_and!; [done | split; auto | auto | by intros].
Qed.

(** * Service order *)

Lemma enqueue_delivered pack x route (s : S) :
  list_at (q_pending pack) (view (enqueue_task pack true Delivered x route s).2)
  = x :: list_at (q_pending pack) (view s).
Proof.
  unfold enqueue_task. simpl negb. cbv iota. rewrite or_else_state.
  destruct (json_dumps_lenient true
    (PDict (normalize_route_identity_projection x route))) as [text Ht].
  unfold serialize_route_identity_projection. rewrite Ht.
  match goal with |- context [((lift_res (Ok ?a) ≫= ?g) s)] =>
    change ((lift_res (Ok a) ≫= g) s) with (g a s) end. cbv beta.
  rewrite bind_mret_state, pipeline_delivered. simpl. apply list_at_set_eq.
Qed.

Lemma dequeue_delivered pack now vt (s : S) l x :
  list_at (q_pending pack) (view s) = l ++ [x] -> x ≠ "" ->
  exists s', dequeue_task_nowait pack true Delivered Delivered now vt s = (Some x, s') /\
    list_at (q_pending pack) (view s') = l /\
    zset_at (q_processing pack) (view s') =
      <[x := now + secs vt]> (zset_at (q_processing pack) (view s)).
Proof.
  intros Hl Hx. unfold dequeue_task_nowait, or_else, fetch, call. simpl negb. cbv iota.
  pose proof (exec_reply (LMoveRightLeft (q_pending pack) (q_temp pack)) s) as Hr.
  pose proof (exec_effect (LMoveRightLeft (q_pending pack) (q_temp pack)) s) as He.
  unfold mbind, stres_bind, round_trip, lift_res.
  destruct (exec (LMoveRightLeft _ _) s) as [r s1]. simpl in Hr, He.
  rewrite Hl, last_snoc in Hr, He. subst r. simpl. rewrite bool_decide_false by done.
  unfold total_st, _move_to_processing, or_else, pipeline, mbind, stres_bind, round_trip, lift_res.
  simpl.
  pose proof (exec_effect (ZAdd (q_processing pack) (now + secs vt) x) s1) as He2.
  pose proof (exec_reply (ZAdd (q_processing pack) (now + secs vt) x) s1) as Hr2.
  destruct (exec (ZAdd _ _ _) s1) as [r2 s2]. simpl in He2, Hr2. subst r2.
  pose proof (exec_effect (LRem (q_temp pack) 1 x) s2) as He3.
  pose proof (exec_reply (LRem (q_temp pack) 1 x) s2) as Hr3.
  destruct (exec (LRem _ _ _) s2) as [r3 s3]. simpl in He3, Hr3. subst r3. simpl.
  exists s3. split; [done|]. rewrite He3, He2, He. split.
  - rewrite list_at_set_ne by apply pending_temp. unfold list_at, set_zset. simpl.
    rewrite lookup_insert_ne by (intros E; discriminate E).
    by rewrite lookup_insert_eq, removelast_last.
  - unfold zset_at, set_list, set_zset. simpl. by rewrite lookup_insert_eq.
Qed.

Definition enqueue_all (pack : string) (ids : list string) (s : S) : S :=
  foldl (fun s x => (enqueue_task pack true Delivered x None s).2) s ids.

(** [n] successive dequeues, and what they returned. *)
Fixpoint dequeue_n (pack : string) (n : nat) (now vt : Z) (s : S)
    : list (option string) * S :=
  match n with
  | O => ([], s)
  | Datatypes.S m =>
      let '(x, s1) := dequeue_task_nowait pack true Delivered Delivered now vt s in
      let '(xs, s2) := dequeue_n pack m now vt s1 in (x :: xs, s2)
  end.

Lemma enqueue_all_pending pack ids s :
  list_at (q_pending pack) (view (enqueue_all pack ids s))
  = rev ids ++ list_at (q_pending pack) (view s).
Proof.
  revert s. induction ids as [|x ids IH]; intros s; [done|]. simpl.
  unfold enqueue_all in IH |- *. simpl. rewrite IH, enqueue_delivered.
  by rewrite <- app_assoc.
Qed.

Lemma dequeue_n_spec pack now vt l s :
  list_at (q_pending pack) (view s) = rev l -> Forall (fun x => x ≠ "") l ->
  (dequeue_n pack (length l) now vt s).1 = map Some l /\
  list_at (q_pending pack) (view (dequeue_n pack (length l) now vt s).2) = [] /\
  (forall x, x ∈ l -> zset_at (q_processing pack)
     (view (dequeue_n pack (length l) now vt s).2) !! x = Some (now + secs vt)) /\
  (forall x, zset_at (q_processing pack) (view s) !! x = Some (now + secs vt) ->
     zset_at (q_processing pack) (view (dequeue_n pack (length l) now vt s).2) !! x
       = Some (now + secs vt)).
Proof.
  revert s. induction l as [|x l IH]; intros s Hl Hne.
  { simpl in *. split_and!; try done. intros x Hx. by apply not_elem_of_nil in Hx. }
  rewrite Forall_cons in Hne. destruct Hne as [Hx Hne].
  destruct (dequeue_delivered pack now vt s (rev l) x Hl Hx) as (s1 & E & Hl1 & Hz1).
  destruct (IH s1 Hl1 Hne) as (H1 & H2 & H3 & H4). simpl. rewrite E.
  destruct (dequeue_n pack (length l) now vt s1) as [xs s2]. simpl in *. rewrite H1.
  assert (Hkeep : forall y, zset_at (q_processing pack) (view s) !! y = Some (now + secs vt) \/ y = x ->
    zset_at (q_processing pack) (view s2) !! y = Some (now + secs vt)).
  { intros y Hy. apply H4. rewrite Hz1. destruct (decide (y = x)) as [->|Hyx].
    - apply lookup_insert_eq.
    - rewrite lookup_insert_ne by done. naive_solver. }
  split_and!; try done; [|by auto].
  intros y [->|Hy]%list.elem_of_cons; auto.
Qed.

(** First in, first out: dequeues serve the backlog of a shard and then the
    newly queued tasks in the order they were queued; every task served holds a
    lease in the processing set until the visibility deadline. *)
Theorem fifo_service pack backlog ids now vt s :
  list_at (q_pending pack) (view s) = rev backlog ->
  Forall (fun x => x ≠ "") (backlog ++ ids) ->
  let r := dequeue_n pack (length (backlog ++ ids)) now vt (enqueue_all pack ids s) in
  r.1 = map Some (backlog ++ ids) /\
  list_at (q_pending pack) (view r.2) = [] /\
  forall x, x ∈ backlog ++ ids ->
    zset_at (q_processing pack) (view r.2) !! x = Some (now + secs vt).
Proof.
  intros Hb Hne r. subst r.
  destruct (dequeue_n_spec pack now vt (backlog ++ ids) (enqueue_all pack ids s))
    as (H1 & H2 & H3 & _); [|done|done].
  by rewrite enqueue_all_pending, Hb, rev_app_distr.
Qed.

(** * Locks *)

Inductive lock_op : Type :=
| LAcquire (up : bool) (f : fault) (key owner : string) (ttl : Z)
| LRenew (up : bool) (f : fault) (key owner : string) (ttl : Z)
| LRelease (up : bool) (f : fault) (key owner : string)
| LTick (n : Z).

Definition run_lock (o : lock_op) (s : S) : S :=
  match o with
  | LAcquire up f k w n => (acquire_lock up f k w n s).2
  | LRenew up f k w n => (renew_lock up f k w n s).2
  | LRelease up f k w => (release_lock up f k w s).2
  | LTick n => tick n s
  end.
Definition run_locks (ops : list lock_op) (s : S) : S := foldl (fun s o => run_lock o s) s ops.

(** Calls of other owners, or on other keys, and the passing of time. *)
Definition foreign (key owner : string) (o : lock_op) : Prop :=
  match o with
  | LAcquire _ _ _ _ _ => True
  | LRenew _ _ k w _ | LRelease _ _ k w => k = key -> w ≠ owner
  | LTick n => 0 <= n
  end.
Definition elapsed (ops : list lock_op) : Z :=
  foldr (fun o acc => match o with LTick n => n + acc | _ => acc end) 0 ops.

Definition held_lock (key owner : string) (t : Z) (v : keyspace) : Prop :=
  ks_strings v !! key = Some (owner, t) /\ ks_now v < t.

Lemma held_lock_at key owner t v :
  held_lock key owner t v -> string_at key v = Some (owner, t).
Proof. intros [H1 H2]. unfold string_at. rewrite H1. by rewrite (proj2 (Z.ltb_lt _ _)). Qed.

(** A command on the key of a held lock that is not a write by its owner. *)
Lemma effect_other_key key owner t c v :
  held_lock key owner t v ->
  match c with
  | SetEx k _ _ | Expire k _ | Del k => k ≠ key
  | _ => True
  end -> held_lock key owner t (effect c v) /\ ks_now (effect c v) = ks_now v.
Proof.
  intros Hh Hc. pose proof (held_lock_at _ _ _ _ Hh) as Hat. destruct Hh as [H1 H2].
  destruct c; simpl in *; try done;
    repeat case_match; try done; split; try done; split; simpl; try done;
    try (by rewrite lookup_insert_ne); try (by rewrite lookup_delete_ne).
  rewrite lookup_insert_ne; [done|]. intros ->. congruence.
Qed.

Lemma foreign_step key owner t o s :
  held_lock key owner t (view s) -> foreign key owner o ->
  (forall n, o = LTick n -> ks_now (view s) + n < t) ->
  held_lock key owner t (view (run_lock o s)) /\
  ks_now (view (run_lock o s)) = ks_now (view s) + elapsed [o].
Proof.
  intros Hh Hf Hn. destruct o as [up f k w n|up f k w n|up f k w|n]; simpl in *.
  - rewrite Z.add_0_r. unfold acquire_lock. destruct (negb up); [done|].
    rewrite or_else_state, bind_mret_state.
    destruct (call_view f (SetNxEx k w n) s) as [-> | ->]; [done|].
    by apply effect_other_key.
  - rewrite Z.add_0_r. unfold renew_lock. destruct (negb up); [done|].
    rewrite or_else_state, bind_mret_state.
    apply (script_view f _ s (fun v => held_lock key owner t v /\ ks_now v = ks_now (view s)));
      [done|].
    unfold LUA_RENEW_LEASE.
    pose proof (exec_reply (Get k) s) as Hr. pose proof (exec_effect (Get k) s) as He.
    destruct (exec (Get k) s) as [r s1]. simpl in Hr, He. case_bool_decide as Hrw.
    + assert (Hk : k ≠ key).
      { intros ->. rewrite (held_lock_at _ _ _ _ Hh) in Hr. apply Hf; [done | congruence]. }
      pose proof (exec_effect (Expire k n) s1) as He2. destruct (exec (Expire k n) s1).
      simpl snd in *. rewrite He2, He. by apply effect_other_key.
    + simpl. by rewrite He.
  - rewrite Z.add_0_r. unfold release_lock. destruct (negb up); [done|].
    rewrite or_else_state, bind_mret_state.
    apply (script_view f _ s (fun v => held_lock key owner t v /\ ks_now v = ks_now (view s)));
      [done|].
    unfold LUA_COMPARE_AND_DELETE.
    pose proof (exec_reply (Get k) s) as Hr. pose proof (exec_effect (Get k) s) as He.
    destruct (exec (Get k) s) as [r s1]. simpl in Hr, He. case_bool_decide as Hrw.
    + assert (Hk : k ≠ key).
      { intros ->. rewrite (held_lock_at _ _ _ _ Hh) in Hr. apply Hf; [done | congruence]. }
      pose proof (exec_effect (Del k) s1) as He2. destruct (exec (Del k) s1).
      simpl snd in *. rewrite He2, He. by apply effect_other_key.
    + simpl. by rewrite He.
  - rewrite tick_view. specialize (Hn n eq_refl). destruct Hh. simpl.
    split; [split; simpl; [done | lia] | lia].
Qed.

Lemma elapsed_nonneg key owner ops : Forall (foreign key owner) ops -> 0 <= elapsed ops.
Proof. induction 1 as [|o ops Ho _ IH]; simpl; [lia|]. destruct o; simpl in *; lia. Qed.

Lemma foreign_run key owner t ops s :
  held_lock key owner t (view s) -> Forall (foreign key owner) ops ->
  ks_now (view s) + elapsed ops < t ->
  held_lock key owner t (view (run_locks ops s)).
Proof.
  intros Hh Hops. revert s Hh.
  induction Hops as [|o ops Ho Hops IH]; intros s Hh Ht; [done|]. simpl in *.
  pose proof (elapsed_nonneg _ _ _ Hops) as Hpos.
  destruct (foreign_step key owner t o s Hh Ho) as [Hh1 Hn1].
  - intros n ->. simpl in Ht. lia.
  - apply IH; [done|]. rewrite Hn1. destruct o; simpl in *; lia.
Qed.

(** A lock has one owner: after an acquisition succeeds, and until its time
    to live has elapsed, whatever other owners acquire, renew or release, on
    any key and under any connection failures, the lock stays with its owner
    and no acquisition of it succeeds. *)
Theorem lock_excludes key owner ttl up f s s1 ops :
  acquire_lock up f key owner ttl s = (true, s1) ->
  Forall (foreign key owner) ops -> elapsed ops < secs ttl ->
  string_at key (view (run_locks ops s1)) = Some (owner, ks_now (view s) + secs ttl) /\
  forall up' f' other ttl',
    (acquire_lock up' f' key other ttl' (run_locks ops s1)).1 = false.
Proof.
  intros E Hops Htime. unfold acquire_lock in E. destruct (negb up); [done|].
  apply or_else_value in E; [|done].
  apply st_bind_Ok_inv in E as (r & s2 & Ec & E). inv E.
  apply call_Ok in Ec as [-> Hv]. simpl in *.
  assert (Hheld : held_lock key owner (ks_now (view s) + secs ttl) (view s1) /\
                  ks_now (view s1) = ks_now (view s)).
  { rewrite Hv. destruct (0 <? ttl) eqn:Et; [|done]. destruct (string_at key (view s)); [done|].
    bool_prop. pose proof (secs_pos ttl Et). split; [|done].
    split; simpl; [by rewrite lookup_insert_eq | lia]. }
  destruct Hheld as [Hheld Hnow].
  pose proof (foreign_run _ _ _ ops s1 Hheld Hops ltac:(lia)) as Hh.
  pose proof (held_lock_at _ _ _ _ Hh) as Hat. split; [done|]. intros up' f' other ttl'.
  unfold acquire_lock. destruct (negb up'); [done|].
  destruct (or_else false _ (run_locks ops s1)) as [b s3] eqn:Eb. simpl.
  destruct b; [|done]. apply or_else_value in Eb; [|done].
  apply st_bind_Ok_inv in Eb as (r & s2 & Ec & Eb). inv Eb.
  apply call_Ok in Ec as [-> _]. simpl in *. rewrite Hat in *. by destruct (0 <? ttl').
Qed.

End theorems.

(** * Concrete runs *)

Module Sample.

Definition now1 : Z := secs 1767225600.
Definition start : keyspace := mkKeyspace ∅ ∅ ∅ now1.
Definition queued : keyspace := enqueue_all "local" ["t1"; "t2"] start.

Definition ops1 : list queue_op :=
  [OpFetch "local" Delivered;                                 (* the runner stops here *)
   OpDequeue "local" true Delivered ReplyLost now1 180;
   OpReconcile "local" true Delivered Delivered "t1" None true;
   OpNack "local" true NotSent now1 "t2" 15;
   OpAck "local" true Delivered "t2"].

Lemma queued_pending : list_at (q_pending "local") (view queued) = ["t2"; "t1"].
Proof. by vm_compute. Qed.
Lemma queued_held : held "t1" (view queued).
Proof.
  exists Pending, "local". change ("t1" ∈ list_at (q_pending "local") (view queued)).
  rewrite queued_pending. set_solver.
Qed.

Theorem no_task_lost_witness : held "t1" (view (run ops1 queued)).
Proof.
  apply (no_task_lost "t1" ops1 queued queued_held).
  repeat (apply Forall_cons; split); try apply Forall_nil_2; simpl; try tauto; [|done].
  intros [_ [H|H]]; [done|]. apply H. right. by vm_compute.
Defined.

Theorem repair_leaves_one_entry_witness :
  strip "t1" ≠ "" /\
  zset_at (q_processing "local")
    (view (reconcile_transport_membership "local" true Delivered "t1" true queued).2)
    !! strip "t1" = None.
Proof.
  split; [by vm_compute|].
  exact (proj1 (proj2 (repair_leaves_one_entry "local" "t1" true queued ltac:(by vm_compute)))).
Defined.

Theorem reroute_moves_once_witness :
  (reroute_pending_task "gpu" true Delivered "t1" ["local"] None queued).1 = (1, true) /\
  exists l, list_at (q_pending "gpu")
    (view (reroute_pending_task "gpu" true Delivered "t1" ["local"] None queued).2)
    = strip "t1" :: l.
Proof.
  split; [by vm_compute|].
  destruct (reroute_moves_once "gpu" "t1" ["local"] None queued ltac:(by vm_compute))
    as (_ & _ & H & _).
  destruct H as (_ & (l & Hl & _) & _); [|by exists l].
  exists (q_pending "local"). split; [by right; left|].
  rewrite queued_pending. change (strip "t1") with "t1". set_solver.
Defined.

Theorem fifo_service_witness :
  (dequeue_n "local" 2 now1 180 (enqueue_all "local" ["t1"; "t2"] start)).1
  = [Some "t1"; Some "t2"].
Proof.
  exact (proj1 (fifo_service "local" [] ["t1"; "t2"] now1 180 start eq_refl
    ltac:(repeat constructor; done))).
Defined.

Definition locked : keyspace :=
  (acquire_lock true Delivered "lock:p" "runner-a" 60 start).2.
Definition lock_ops1 : list lock_op :=
  [LTick (secs 30); LAcquire true Delivered "lock:p" "runner-b" 60;
   LRelease true Delivered "lock:p" "runner-b"; LRenew true ReplyLost "lock:p" "runner-b" 5].

Theorem lock_excludes_witness :
  (acquire_lock true Delivered "lock:p" "runner-c" 60 (run_locks lock_ops1 locked)).1 = false.
Proof.
  exact (proj2 (lock_excludes "lock:p" "runner-a" 60 true Delivered start locked lock_ops1
    ltac:(by vm_compute)
    ltac:(repeat (apply Forall_cons; split); try apply Forall_nil_2; simpl; done)
    ltac:(by vm_compute)) true Delivered "runner-c" 60).
Defined.

(** A heartbeat that arrives after the acknowledgement puts the finished task
    back into the processing set: the renewal does not test membership. *)
Lemma late_touch_revives :
  let served := (dequeue_task_nowait "local" true Delivered Delivered now1 180 queued).2 in
  let acked := ack_task "local" true Delivered "t1" served in
  acked.1 = true /\
  zset_at (q_processing "local") acked.2 !! "t1" = None /\
  zset_at (q_processing "local")
    (touch_visibility_timeout "local" true Delivered now1 "t1" 180 acked.2).2 !! "t1"
  = Some (now1 + secs 180).
Proof. by vm_compute. Qed.

(** A repair across shards whose second transaction is not sent loses the
    task's entry: it is gone from the first shard and never reaches the other. *)
Lemma cut_repair_drops :
  let repaired := (_async_reconcile_transport_membership "local" true Delivered NotSent
                     "t1" (Some "gpu") true queued).2 in
  list_at (q_pending "local") repaired = ["t2"] /\ list_at (q_pending "gpu") repaired = [].
Proof. by vm_compute. Qed.

(** A dequeue racing with the repair of the temp list delivers a task twice:
    the entry is put back while the dequeue that moved it is still promoting. *)
Lemma repaired_dequeue_duplicates :
  let fetched := (fetch "local" Delivered queued).2 in
  let repaired := (reconcile_transport_membership "local" true Delivered "t1" true fetched).2 in
  let promoted := (_move_to_processing "local" Delivered now1 "t1" 180 repaired).2 in
  list_at (q_pending "local") promoted = ["t1"; "t2"] /\
  zset_at (q_processing "local") promoted !! "t1" = Some (now1 + secs 180).
Proof. by vm_compute. Qed.

End Sample.
