(* ===== verification/RedisLeases.v ===== *)
(** The Redis lease adapter (runner_resources/leases.py,
    [RedisResourceLeaseStore]) and that it keeps the promises the admission
    relies on, so that every theorem proved against the lease protocol holds
    for leases kept in Redis. *)
From S2P Require Import Prelude PyDict PyStr PyVal PyTime.
From S2P Require Import Leases Redis RunnerQueue.

(** A server behind a connection: what happens to the next round trips is
    decided in advance, an exhausted schedule delivers. *)
Record conn (S : Type) : Type := mkConn { server : S; schedule : list fault }.
Arguments mkConn {S} server schedule.
Arguments server {S} c.
Arguments schedule {S} c.

Section adapter.
Context {S : Type} `{RedisServer S}.

Definition on_conn {A} (m : fault -> stres S A) : stres (conn S) A := fun c =>
  let '(r, s') := m (hd Delivered (schedule c)) (server c) in
  (r, mkConn s' (tl (schedule c))).

(** [up]: whether the queue store hands out a client. *)
Definition redis_acquire (up : bool) (lease_key owner_id : string) (ttl_seconds : Z)
    : stres (conn S) bool :=
  if negb up then mret false
  else on_conn (fun f =>
    r ← call f (SetNxEx lease_key owner_id ttl_seconds); mret (reply_true r)).

Definition redis_release (up : bool) (lease_key owner_id : string) : stres (conn S) bool :=
  if negb up then mret false
  else on_conn (fun f =>
    r ← round_trip f (LUA_COMPARE_AND_DELETE lease_key owner_id); mret (negb (r =? 0))).

Definition redis_extend (up : bool) (lease_key owner_id : string) (ttl_seconds : Z)
    : stres (conn S) bool :=
  if negb up then mret false
  else on_conn (fun f =>
    r ← round_trip f (LUA_RENEW_LEASE lease_key owner_id ttl_seconds);
    mret (negb (r =? 0))).

Definition redis_list_expired (now_epoch : option Z) : stres (conn S) (list string) := mret [].

#[export] Instance RedisResourceLeaseStore : ResourceLeaseStore (conn S) := {|
  ls_acquire := redis_acquire true;
  ls_release := redis_release true;
  ls_extend := redis_extend true;
  ls_list_expired := redis_list_expired;
|}.

(** ** What the scripts do to the keyspace *)

Definition owner_at (k : string) (v : keyspace) : option string := fst <$> string_at k v.

Lemma string_at_set k k' x t v :
  string_at k (set_string k' x t v) =
  if bool_decide (k = k') then (if ks_now v <? t then Some (x, t) else None)
  else string_at k v.
Proof.
  unfold string_at, set_string. simpl. case_bool_decide; subst.
  - by rewrite lookup_insert_eq.
  - by rewrite lookup_insert_ne.
Qed.

Lemma string_at_del k k' v :
  string_at k (del_string k' v) = if bool_decide (k = k') then None else string_at k v.
Proof.
  unfold string_at, del_string. simpl. case_bool_decide; subst.
  - by rewrite lookup_delete_eq.
  - by rewrite lookup_delete_ne.
Qed.

(** The script that releases: gone if it was the owner's, else unchanged. *)
Lemma compare_and_delete_spec k o s n s' :
  LUA_COMPARE_AND_DELETE k o s = (n, s') ->
  owner_at k (view s') ≠ Some o /\
  (forall k' x, owner_at k' (view s') = Some x -> owner_at k' (view s) = Some x).
Proof.
  unfold LUA_COMPARE_AND_DELETE. intros E.
  pose proof (exec_reply (Get k) s) as Hr. pose proof (exec_effect (Get k) s) as He.
  destruct (exec (Get k) s) as [r s1]. simpl in Hr, He. case_bool_decide as Hd.
  - pose proof (exec_effect (Del k) s1) as He2. destruct (exec (Del k) s1) as [d s2]. inv E.
    simpl in He2. rewrite He2, He in *. unfold owner_at.
    destruct (string_at k (view s)) as [[x t]|] eqn:Ek; [|by simpl; rewrite Ek].
    split; [by rewrite string_at_del, bool_decide_true|].
    intros k' y. rewrite string_at_del. by case_bool_decide.
  - inv E. rewrite He. split; [|done]. unfold owner_at in *.
    destruct (string_at k (view s)) as [[x t]|]; [|done]. simpl. congruence.
Qed.

Lemma renew_lease_spec k o ttl s n s' :
  LUA_RENEW_LEASE k o ttl s = (n, s') ->
  (forall k' x, owner_at k' (view s') = Some x -> owner_at k' (view s) = Some x) /\
  (n ≠ 0 -> 0 < ttl -> owner_at k (view s') = Some o).
Proof.
  unfold LUA_RENEW_LEASE. intros E.
  pose proof (exec_reply (Get k) s) as Hr. pose proof (exec_effect (Get k) s) as He.
  destruct (exec (Get k) s) as [r s1]. simpl in Hr, He. case_bool_decide as Hd.
  - pose proof (exec_effect (Expire k ttl) s1) as He2.
    destruct (exec (Expire k ttl) s1) as [d s2]. inv E.
    simpl in He2. rewrite He2, He in *. unfold owner_at.
    destruct (string_at k (view s)) as [[x t]|] eqn:Ek; [|done]. injection Hd as ->.
    destruct (0 <? ttl) eqn:Et; bool_prop.
    + pose proof (secs_pos ttl Et). split.
      * intros k' y. rewrite string_at_set. case_bool_decide as Hk; [|done]. subst k'.
        rewrite (proj2 (Z.ltb_lt _ _)) by lia. by rewrite Ek.
      * intros _ _. rewrite string_at_set, bool_decide_true by done.
        by rewrite (proj2 (Z.ltb_lt _ _)) by lia.
    + split; [|lia]. intros k' y. rewrite string_at_del. by case_bool_decide.
  - inv E. by rewrite He.
Qed.

Lemma set_nx_spec k o ttl v :
  reply_true (reply_of (SetNxEx k o ttl) v) = true ->
  owner_at k (effect (SetNxEx k o ttl) v) = Some o /\
  forall k' x, owner_at k' (effect (SetNxEx k o ttl) v) = Some x ->
    (k' = k /\ x = o) \/ owner_at k' v = Some x.
Proof.
  simpl. destruct (0 <? ttl) eqn:Et; [|done]. destruct (string_at k v) eqn:Ek; [done|].
  intros _. bool_prop. pose proof (secs_pos ttl Et). unfold owner_at. split.
  - rewrite string_at_set, bool_decide_true by done. by rewrite (proj2 (Z.ltb_lt _ _)) by lia.
  - intros k' x. rewrite string_at_set. case_bool_decide; [|by right].
    rewrite (proj2 (Z.ltb_lt _ _)) by lia. intros [= <-]. by left.
Qed.

(** ** The laws *)

Lemma on_conn_Ok {A} (m : fault -> stres S A) c a c' :
  on_conn m c = (Ok a, c') -> exists f, m f (server c) = (Ok a, server c').
Proof.
  unfold on_conn. destruct (m _ (server c)) as [r s'] eqn:E. intros [= -> <-]. eauto.
Qed.

Lemma round_trip_Ok {A} f (m : S -> A * S) s a s' :
  round_trip f m s = (Ok a, s') -> m s = (a, s').
Proof. unfold round_trip. destruct f; [|done..]. destruct (m s). naive_solver. Qed.

#[export] Instance redis_lease_laws : LeaseStoreLaws (conn S).
Proof.
  refine {| holder c k := owner_at k (view (server c)) |};
    unfold ls_acquire, ls_release, ls_extend, RedisResourceLeaseStore, redis_acquire,
      redis_release, redis_extend; simpl negb; cbv iota.
  - intros k o ttl c c' E. apply on_conn_Ok in E as [f E].
    apply st_bind_Ok_inv in E as (r & s1 & Ec & E). injection E as Hr <-.
    apply call_Ok in Ec as [-> Hv]. rewrite Hv. by apply set_nx_spec.
  - intros k o ttl c c' E k' x. apply on_conn_Ok in E as [f E].
    apply st_bind_Ok_inv in E as (r & s1 & Ec & E). injection E as Hr <-.
    apply call_Ok in Ec as [-> Hv]. rewrite Hv. simpl in Hr |- *. unfold owner_at.
    destruct (0 <? ttl); [|done]. by destruct (string_at k _).
  - intros k o b c c' E. apply on_conn_Ok in E as [f E].
    apply st_bind_Ok_inv in E as (n & s1 & Ec & E). injection E as Hr <-.
    apply round_trip_Ok, compare_and_delete_spec in Ec as [H1 H2]. done.
  - intros k o ttl b c c' E. apply on_conn_Ok in E as [f E].
    apply st_bind_Ok_inv in E as (n & s1 & Ec & E). injection E as Hr <-.
    apply round_trip_Ok, renew_lease_spec in Ec as [H1 H2]. split; [done|].
    intros -> Ht. apply H2; [|done]. by intros ->.
Defined.

(** Without a client a release reports failure and leaves the lease standing:
    only its time to live frees the resource. *)
Lemma release_without_client k o c : redis_release false k o c = (Ok false, c).
Proof. done. Qed.

(** An extension with no time to live deletes the lease and reports success. *)
Lemma extend_with_no_ttl k o c :
  schedule c = [] -> owner_at k (view (server c)) = Some o ->
  exists c', redis_extend true k o 0 c = (Ok true, c') /\
             owner_at k (view (server c')) = None.
Proof.
  intros Hs Ho. destruct c as [sv sch]. simpl in Hs, Ho. subst sch.
  assert (E : exists s2, LUA_RENEW_LEASE k o 0 sv = (1, s2) /\ owner_at k (view s2) = None).
  { unfold LUA_RENEW_LEASE.
    pose proof (exec_reply (Get k) sv) as Hr. pose proof (exec_effect (Get k) sv) as He.
    destruct (exec (Get k) sv) as [r s1]. simpl in Hr, He. unfold owner_at in *.
    destruct (string_at k (view sv)) as [[x t]|] eqn:Ek; [|done]. injection Ho as ->.
    subst r. rewrite bool_decide_true by done.
    pose proof (exec_reply (Expire k 0) s1) as Hr2.
    pose proof (exec_effect (Expire k 0) s1) as He2.
    destruct (exec (Expire k 0) s1) as [d s2]. simpl in Hr2, He2. rewrite He, Ek in Hr2, He2.
    subst d. exists s2. split; [done|]. by rewrite He2, string_at_del, bool_decide_true. }
  destruct E as (s2 & E & Hs2). exists (mkConn s2 []). split; [|done].
  unfold redis_extend, on_conn, mbind, stres_bind, round_trip. simpl. by rewrite E.
Qed.

End adapter.
