(* ===== verification/OwnershipRelease.v ===== *)
(** Exact-owner release of a task's resources
    (runner_resources/ownership_release.py): every lease and the byte
    reservation a task's context names are given back under the task's owner
    identity, every failure is collected instead of raised, and a result that
    calls itself complete leaves the owner nothing. *)
From S2P Require Import Prelude PyDict PyStr PyVal PyTime.
From S2P Require Import Leases NodeBudget StartupGate HostAdvisor Admission.

Record TaskResourceOwnershipReleaseResult : Type := mkResult {
  rr_owner_id : string;
  requested_lease_keys : list string;
  released_lease_keys : list string;
  unreleased_lease_keys : list string;
  node_reservation_requested : bool;
  node_reservation_released : option bool;
  node_reservation_owner_mismatch : bool;
  rr_errors : list string;
}.

Definition complete (r : TaskResourceOwnershipReleaseResult) : bool :=
  let node_complete := negb (node_reservation_requested r)
                       || bool_decide (node_reservation_released r = Some true) in
  bool_decide (rr_errors r = []) && bool_decide (unreleased_lease_keys r = [])
  && negb (node_reservation_owner_mismatch r) && node_complete.

(** The loop of [_normalize_lease_keys]; [seen] holds the same strings. *)
Fixpoint normalize_keys (lease_keys normalized : list string) : list string :=
  match lease_keys with
  | [] => normalized
  | raw_key :: r =>
      let key := strip raw_key in
      if bool_decide (key = "") || bool_decide (key ∈ normalized)
      then normalize_keys r normalized
      else normalize_keys r (normalized ++ [key])
  end.
Definition _normalize_lease_keys (lease_keys : list string) : list string :=
  normalize_keys lease_keys [].

(** [f"{type(exc).__name__}:{exc}"] *)
Definition exn_label (e : exn) : string :=
  match e with
  | TypeError m => "TypeError:" +:+ m
  | ValueError m => "ValueError:" +:+ m
  | KeyError k => "KeyError:" +:+ repr_str k
  | OverflowError m => "OverflowError:" +:+ m
  | AttributeError m => "AttributeError:" +:+ m
  | AssertionError => "AssertionError:"
  | InvalidTransition m => "InvalidTransition:" +:+ m
  | CanonicalPayloadError m => "CanonicalPayloadError:" +:+ m
  | ReplayCompatibilityError m => "ReplayCompatibilityError:" +:+ m
  | DurableWorkflowConflict m => "DurableWorkflowConflict:" +:+ m
  | IncompatibleHistory m => "IncompatibleHistory:" +:+ m
  | ResourceBlockResumeError m _ => "ResourceBlockResumeError:" +:+ m
  | OtherError c m => c +:+ ":" +:+ m
  end.

(** The collaborators that were passed; without its own store a call falls back
    to the Redis store over [redis_queue]. *)
Record collaborators : Type := mkCollaborators {
  has_redis_queue : bool;
  has_lease_store : bool;
  has_budget_store : bool;
}.

Section release.
Context {SL SN : Type} `{ResourceLeaseStore SL} `{NodeBudgetStore SN}.
Notation stores := (SL * SN)%type.

Definition no_client : exn :=
  AttributeError "'NoneType' object has no attribute '_get_client'".

Definition release_lease (c : collaborators) (key owner : string) : stres stores bool :=
  if has_lease_store c || has_redis_queue c then on_leases (ls_release key owner)
  else raise_st no_client.
Definition release_reservation (c : collaborators) (v : NodeBudgetReservation)
    : stres stores bool :=
  if has_budget_store c || has_redis_queue c then on_budget (nb_release v)
  else raise_st no_client.

(** The three lists the lease loop appends to. *)
Definition tally : Type := (list string * list string * list string)%type.

Fixpoint release_leases (c : collaborators) (owner : string) (keys : list string)
    (t : tally) (s : stores) : tally * stores :=
  match keys with
  | [] => (t, s)
  | key :: rest =>
      let '(released, unreleased, errors) := t in
      match release_lease c key owner s with
      | (Ok true, s1) => release_leases c owner rest (released ++ [key], unreleased, errors) s1
      | (Ok false, s1) => release_leases c owner rest (released, unreleased ++ [key], errors) s1
      | (Raise e, s1) =>
          release_leases c owner rest
            (released, unreleased ++ [key], errors ++ ["lease:" +:+ key +:+ ":" +:+ exn_label e]) s1
      end
  end.

(** Released?, owner mismatch?, errors. *)
Definition release_node (c : collaborators) (owner : string)
    (reservation : option NodeBudgetReservation) (errors : list string) (s : stores)
    : (option bool * bool * list string) * stores :=
  match reservation with
  | None => ((None, false, errors), s)
  | Some v =>
      if negb (bool_decide (owner_id v = owner)) then ((Some false, true, errors), s)
      else match release_reservation c v s with
           | (Ok b, s1) => ((Some b, false, errors), s1)
           | (Raise e, s1) =>
               ((Some false, false, errors ++ ["node_reservation:" +:+ exn_label e]), s1)
           end
  end.

Definition release_task_resource_ownership (c : collaborators) (owner_id : string)
    (lease_keys : list string) (reservation : option NodeBudgetReservation) (s : stores)
    : TaskResourceOwnershipReleaseResult * stores :=
  let normalized_owner := strip owner_id in
  let requested := _normalize_lease_keys lease_keys in
  let reservation_requested := bool_decide (is_Some reservation) in
  let refused error :=
    (mkResult normalized_owner requested [] requested reservation_requested
       (if reservation_requested then Some false else None) false [error], s) in
  if bool_decide (normalized_owner = "") then refused "owner_id_required"
  else if negb (has_redis_queue c) && negb (has_lease_store c) && negb (has_budget_store c)
  then refused "redis_queue_required"
  else
    let '((released, unreleased, errors), s1) :=
      release_leases c normalized_owner requested ([], [], []) s in
    let '((node_released, mismatch, errors), s2) :=
      release_node c normalized_owner reservation errors s1 in
    (mkResult normalized_owner requested released unreleased reservation_requested
       node_released mismatch errors, s2).

Definition owner_of (task_id runner_id : string) : string :=
  let normalized_task_id := strip task_id in
  let normalized_runner_id := strip runner_id in
  if negb (bool_decide (normalized_runner_id = ""))
     && negb (bool_decide (normalized_task_id = ""))
  then normalized_runner_id +:+ ":" +:+ normalized_task_id else "".

(** [float_of]: the reading of numeric text by [float()], in ticks. *)
Definition release_task_resource_ownership_from_context (float_of : string -> option Z)
    (c : collaborators) (task_id runner_id : string) (execution_context : pyval)
    : stres stores TaskResourceOwnershipReleaseResult :=
  let context := PDict (dict_or_empty execution_context) in
  reservation ← lift_res (reservation_from_context float_of context);
  total_st (release_task_resource_ownership c (owner_of task_id runner_id)
              (resource_lease_keys_from_context context) reservation).

End release.

(** * Keys *)

Lemma normalize_keys_spec keys acc :
  NoDup acc -> NoDup (normalize_keys keys acc) /\
  forall k, k ∈ normalize_keys keys acc <->
    k ∈ acc \/ (k ≠ "" /\ exists raw, raw ∈ keys /\ k = strip raw).
Proof.
  revert acc. induction keys as [|x keys IH]; intros acc Hacc; simpl; [set_solver|].
  destruct (bool_decide (strip x = "") || bool_decide (strip x ∈ acc)) eqn:E.
  - assert (Hx : strip x ≠ "" -> strip x ∈ acc).
    { apply orb_true_iff in E as [E|E]; bool_prop; done. }
    destruct (IH acc Hacc) as [H1 H2]. split; [done|]. intros k. rewrite H2. split.
    + intros [Hk|(Hk & raw & Hr & ->)]; [by left|]. right. split; [done|]. exists raw. set_solver.
    + intros [Hk|(Hk & raw & [->|Hr]%list.elem_of_cons & ->)]; [by left | by left; auto|].
      right. eauto.
  - bool_prop. destruct (IH (acc ++ [strip x])) as [H1 H2].
    { apply NoDup_app. split_and!; [done | set_solver | apply NoDup_singleton]. }
    split; [done|]. intros k. rewrite H2. split.
    + intros [[Hk|Hk]%list.elem_of_app|(Hk & raw & Hr & ->)]; [by left | | right; set_solver].
      apply list_elem_of_singleton in Hk as ->. right. set_solver.
    + intros [Hk|(Hk & raw & [->|Hr]%list.elem_of_cons & ->)]; [set_solver.. |]. right. eauto.
Qed.

(** * Every key is accounted for *)

Section accounts.
Context {SL SN : Type} `{ResourceLeaseStore SL} `{NodeBudgetStore SN}.

Lemma release_leases_accounts c owner keys t (s : SL * SN) t' s' :
  release_leases c owner keys t s = (t', s') ->
  t'.1.1 ++ t'.1.2 ≡ₚ t.1.1 ++ t.1.2 ++ keys /\
  t.1.2 `prefix_of` t'.1.2 /\ t.2 `prefix_of` t'.2.
Proof.
  revert t s. induction keys as [|k keys IH]; intros [[rel unrel] errs] s; simpl.
  { intros [= <- <-]. simpl. by rewrite app_nil_r. }
  destruct (release_lease c k owner s) as [[[ ]|e] s1]; intros E; apply IH in E as (E1 & E2 & E3);
    simpl in *; rewrite E1.
  - split; [solve_Permutation | done].
  - split; [by rewrite <- !app_assoc | split; [by eapply prefix_app_l | done]].
  - split; [by rewrite <- !app_assoc | split; by eapply prefix_app_l].
Qed.

(** A release answers for every key: it never raises; its requested keys are
    the distinct non-empty keys of the caller, and each of them is reported
    exactly once, as released or as unreleased. *)
Theorem release_accounts_for_keys c owner keys reservation (s : SL * SN) :
  let r := (release_task_resource_ownership c owner keys reservation s).1 in
  released_lease_keys r ++ unreleased_lease_keys r ≡ₚ requested_lease_keys r /\
  NoDup (requested_lease_keys r) /\
  (forall k, k ∈ requested_lease_keys r <-> k ≠ "" /\ exists raw, raw ∈ keys /\ k = strip raw) /\
  (complete r = true ->
     released_lease_keys r ≡ₚ requested_lease_keys r /\
     (is_Some reservation -> node_reservation_released r = Some true) /\
     strip owner ≠ "").
Proof.
  intros r.
  destruct (normalize_keys_spec keys [] (NoDup_nil_2)) as [Hnd Hin].
  assert (Hin' : forall k, k ∈ _normalize_lease_keys keys <->
    k ≠ "" /\ exists raw, raw ∈ keys /\ k = strip raw).
  { intros k. unfold _normalize_lease_keys. rewrite Hin. set_solver. }
  subst r. unfold release_task_resource_ownership.
  case_bool_decide as Ho; [simpl; split_and!; try done|].
  destruct (negb (has_redis_queue c) && _ && _); [simpl; split_and!; try done|].
  destruct (release_leases c (strip owner) _ ([], [], []) s) as [[[rel unrel] errs] s1] eqn:El.
  destruct (release_node c (strip owner) reservation errs s1) as [[[nr mm] errs'] s2] eqn:En.
  apply release_leases_accounts in El as (Hacc & _ & _). simpl in Hacc |- *.
  split_and!; try done. unfold complete. simpl. intros Hc.
  apply andb_true_iff in Hc as [Hc Hnode]. apply andb_true_iff in Hc as [Hc _].
  apply andb_true_iff in Hc as [_ Hu]. apply bool_decide_eq_true in Hu as ->.
  split; [by rewrite <- Hacc, app_nil_r|]. split; [|done]. intros [v ->].
  rewrite bool_decide_true in Hnode by eauto. by apply bool_decide_eq_true in Hnode.
Qed.
End accounts.

(** * A complete release frees everything *)

Section frees.
Context {SL SN : Type} `{lease_laws : LeaseStoreLaws SL} `{budget_laws : NodeBudgetLaws SN}.

Lemma release_lease_ok c k owner (s : SL * SN) b s' :
  release_lease c k owner s = (Ok b, s') ->
  held_le s'.1 s.1 /\ s'.2 = s.2 /\ holder s'.1 k ≠ Some owner.
Proof.
  unfold release_lease. destruct (_ || _); [|done]. unfold on_leases.
  destruct (ls_release k owner s.1) as [[b'|e] l] eqn:E; [|done]. intros [= <- <-]. simpl.
  by apply release_ok in E as [H1 H2].
Qed.

Lemma release_leases_frees c owner keys t (s : SL * SN) t' s' :
  release_leases c owner keys t s = (t', s') -> t'.1.2 = [] ->
  held_le s'.1 s.1 /\ s'.2 = s.2 /\ forall k, k ∈ keys -> holder s'.1 k ≠ Some owner.
Proof.
  revert t s. induction keys as [|k keys IH]; intros [[rel unrel] errs] s; simpl.
  { intros [= <- <-] _. split_and!; [reflexivity | done | set_solver]. }
  destruct (release_lease c k owner s) as [[[ ]|e] s1] eqn:Er; intros E Hu.
  - apply release_lease_ok in Er as (H1 & H2 & H3). apply IH in E as (H4 & H5 & H6); [|done].
    split_and!; [by etrans | congruence |].
    intros j [->|Hj]%list.elem_of_cons; [|auto]. intros Hh. by apply H3, H4.
  - apply release_leases_accounts in E as (_ & [ys Hp] & _). rewrite Hu in Hp. simpl in Hp.
    by destruct unrel.
  - apply release_leases_accounts in E as (_ & [ys Hp] & _). rewrite Hu in Hp. simpl in Hp.
    by destruct unrel.
Qed.

(** A complete release leaves the owner nothing: when the result calls itself
    complete, none of the requested leases is held by that owner any more, its
    reservation is dead (whatever the owner may hold later has another
    revision), and nothing new was taken by anybody. *)
Theorem complete_release_frees c owner keys reservation (s : SL * SN) r s' :
  nb_wf s.2 ->
  release_task_resource_ownership c owner keys reservation s = (r, s') ->
  complete r = true ->
  (forall k, k ∈ requested_lease_keys r -> holder s'.1 k ≠ Some (strip owner)) /\
  (forall v, reservation = Some v -> owner_id v = strip owner /\
     forall v', live s'.2 (strip owner) = Some v' -> revision v' ≠ revision v) /\
  held_le s'.1 s.1 /\ live_le s'.2 s.2.
Proof.
  intros Hwf. unfold release_task_resource_ownership.
  case_bool_decide as Ho; [intros [= <- <-]; done|].
  destruct (negb (has_redis_queue c) && _ && _); [intros [= <- <-]; done|].
  destruct (release_leases c (strip owner) _ ([], [], []) s) as [[[rel unrel] errs] s1] eqn:El.
  destruct (release_node c (strip owner) reservation errs s1) as [[[nr mm] errs'] s2] eqn:En.
  intros [= <- <-]. unfold complete. simpl. intros Hc.
  apply andb_true_iff in Hc as [Hc Hnode]. apply andb_true_iff in Hc as [Hc Hmm].
  apply andb_true_iff in Hc as [_ Hu]. apply bool_decide_eq_true in Hu as ->.
  apply release_leases_frees in El as (H1 & H2 & H3); [|done].
  unfold release_node in En. destruct reservation as [v|].
  - destruct (decide (owner_id v = strip owner)) as [Hv|Hv];
      [rewrite bool_decide_true in En by done | rewrite bool_decide_false in En by done; by inv En].
    simpl in En.
    unfold release_reservation in En. destruct (_ || _).
    2: { injection En as <- <- <- <-. rewrite bool_decide_true in Hnode by eauto. done. }
    unfold on_budget in En. destruct (nb_release v s1.2) as [[b|e] n] eqn:Er.
    2: { injection En as <- <- <- <-. rewrite bool_decide_true in Hnode by eauto. done. }
    injection En as <- <- <- <-. simpl. rewrite H2 in Er.
    apply nb_release_ok in Er as [H4 H5]; [|done]. split_and!; try done.
    intros v' [= <-]. split; [done|]. rewrite <- Hv. done.
  - injection En as <- <- <- <-. rewrite H2. split_and!; try done; reflexivity.
Qed.

End frees.

Module Sample.
Import InMemory Memory Admission.Sample.

Definition all_stores : collaborators := mkCollaborators true true true.
Definition give_back (s : InMemory.store * Memory.store) :=
  release_task_resource_ownership all_stores "r1:t1"
    (map lease_key (acquired_leases first)) (node_budget_reservation first) s.
Definition receipt := Eval vm_compute in (give_back after_first).1.
Definition given_back := Eval vm_compute in (give_back after_first).2.

Theorem complete_release_frees_witness :
  complete receipt = true /\ live_le given_back.2 after_first.2 /\
  forall k, k ∈ requested_lease_keys receipt -> holder given_back.1 k ≠ Some "r1:t1".
Proof.
  split; [done|].
  destruct (complete_release_frees all_stores "r1:t1" (map lease_key (acquired_leases first))
    (node_budget_reservation first) after_first receipt given_back wf_after_first
    ltac:(by vm_compute) eq_refl) as (H1 & _ & _ & H2).
  by split.
Defined.

(** Another owner's identity releases nothing and says so. *)
Example wrong_owner :
  let r := (release_task_resource_ownership all_stores "r2:t1"
              (map lease_key (acquired_leases first)) (node_budget_reservation first)
              after_first).1 in
  complete r = false /\ node_reservation_owner_mismatch r = true /\
  released_lease_keys r = [] /\ length (unreleased_lease_keys r) = 1%nat.
Proof. by vm_compute. Qed.

End Sample.
