(* ===== verification/RedisNodeBudget.v ===== *)
(** The Redis node-budget store (runner_resources/node_budget.py): the Lua
    scripts on its five keys, the adapter around them, and a proof that they
    implement the in-memory store of [NodeBudget].

    Redis runs a script in one piece; what a script did before it fails stays
    done.  The hash keeps JSON texts written by [cjson]; the model keeps the
    object a text decodes to, with the numbers as [cjson] renders them. *)
From S2P Require Import Prelude PyDict PyStr PyVal PyJson PyTime.
From S2P Require Import NodeBudget Redis.

(** * JSON numbers of the Lua library

    [cjson] is part of Redis: it writes numbers with 14 significant digits.
    Integers below 10^14 survive, an epoch reading of this era to a ten
    thousandth of a second. *)
Class CJson : Type := {
  cjson_int : Z -> Z;
  cjson_epoch : Z -> Z;       (** ticks *)
  cjson_int_exact : forall n, Z.abs n < 10 ^ 14 -> cjson_int n = n;
  cjson_epoch_close : forall t, secs (2 ^ 30) <= t < secs (2 ^ 31) ->
    Z.abs (cjson_epoch t - t) * 10 ^ 4 <= secs 1;
}.

(** * The five keys *)

(** A hash or a sorted set with the deadline EXPIRE gave its key; a key
    without members does not exist. *)
Record collection (V : Type) : Type := mkCollection {
  members : gmap string V;
  key_deadline : option Z;
}.
Arguments mkCollection {V} members key_deadline.
Arguments members {V} c.
Arguments key_deadline {V} c.

Definition no_collection {V} : collection V := mkCollection ∅ None.

Definition put {V} (o : string) (v : V) (c : collection V) : collection V :=
  mkCollection (<[o := v]> (members c)) (key_deadline c).
Definition remove {V} (o : string) (c : collection V) : collection V :=
  mkCollection (delete o (members c))
    (if decide (delete o (members c) = ∅) then None else key_deadline c).
(** What is left of a key at time [now]. *)
Definition unexpired {V} (now : Z) (c : collection V) : collection V :=
  match key_deadline c with
  | Some d => if d <=? now then no_collection else c
  | None => c
  end.

(** [TTL]: the remaining time to the nearest second, -1 without a deadline,
    -2 without a key. *)
Definition ttl_of {V} (now : Z) (c : collection V) : Z :=
  if decide (members c = ∅) then -2
  else match key_deadline c with
       | None => -1
       | Some d => (2 * (d - now) + secs 1) / secs 2
       end.

Record budget_keys : Type := mkKeys {
  server_now : Z;                                        (** ticks *)
  reservations_key : collection NodeBudgetReservation;
  expiries_key : collection Z;
  total_key : option Z;
  revision_key : option Z;
  policy_key : option NodeBudgetPolicy;
}.

Definition empty_keys (now : Z) : budget_keys :=
  mkKeys now no_collection no_collection None None None.

Definition with_reservations c k :=
  mkKeys (server_now k) c (expiries_key k) (total_key k) (revision_key k) (policy_key k).
Definition with_expiries c k :=
  mkKeys (server_now k) (reservations_key k) c (total_key k) (revision_key k) (policy_key k).
Definition with_total n k :=
  mkKeys (server_now k) (reservations_key k) (expiries_key k) (Some n) (revision_key k)
    (policy_key k).
Definition with_revision n k :=
  mkKeys (server_now k) (reservations_key k) (expiries_key k) (total_key k) (Some n)
    (policy_key k).
Definition with_policy p k :=
  mkKeys (server_now k) (reservations_key k) (expiries_key k) (total_key k) (revision_key k)
    (Some p).

(** ** Commands *)

Definition hset o r : stres budget_keys unit :=
  modify_st (fun k => with_reservations (put o r (reservations_key k)) k).
Definition zadd (score : Z) o : stres budget_keys unit :=
  modify_st (fun k => with_expiries (put o score (expiries_key k)) k).
Definition hdel_zrem (o : string) (k : budget_keys) : budget_keys :=
  with_expiries (remove o (expiries_key k)) (with_reservations (remove o (reservations_key k)) k).
Definition hget o : stres budget_keys (option NodeBudgetReservation) :=
  gets_st (fun k => members (reservations_key k) !! o).
Definition set_total n : stres budget_keys unit := modify_st (with_total n).
Definition set_policy p : stres budget_keys unit := modify_st (with_policy p).
Definition incr_revision : stres budget_keys Z := fun k =>
  let n := default 0 (revision_key k) + 1 in (Ok n, with_revision n k).

Definition extend_collection_ttl {V} (now key_ttl : Z) (c : collection V) : collection V :=
  let current_ttl := ttl_of now c in
  if (current_ttl =? -1) || ((0 <=? current_ttl) && (current_ttl <? key_ttl))
  then mkCollection (members c) (Some (now + secs key_ttl)) else c.
Definition extend_both (key_ttl : Z) : stres budget_keys unit :=
  modify_st (fun k =>
    with_expiries (extend_collection_ttl (server_now k) key_ttl (expiries_key k))
      (with_reservations (extend_collection_ttl (server_now k) key_ttl (reservations_key k)) k)).

Definition LuaError (msg : string) : exn := OtherError "ResponseError" msg.

(** ** The shared prologue of the scripts *)

(** The loop over [HGETALL]. *)
Fixpoint sum_active (entries : list (string * NodeBudgetReservation)) (expiries : gmap string Z)
    (total max_revision : Z) : res (Z * Z) :=
  match entries with
  | [] => Ok (total, max_revision)
  | (owner, decoded) :: rest =>
      if negb (bool_decide (owner_id decoded = owner))
      then Raise (LuaError "node_budget_owner_identity_mismatch")
      else if negb (bool_decide (is_Some (expiries !! owner)))
      then Raise (LuaError "node_budget_reservation_expiry_missing")
      else if (bytes decoded <=? 0) || (revision decoded <=? 0)
      then Raise (LuaError "node_budget_reservation_invalid")
      else sum_active rest expiries (total + bytes decoded)
             (Z.max max_revision (revision decoded))
  end.

Definition expired_owners (now_epoch : Z) (expiries : gmap string Z) : list string :=
  (filter (fun kv => kv.2 <= now_epoch) (map_to_list expiries)).*1.

Definition reconcile_active_reservations (now_epoch : Z) : stres budget_keys (Z * Z) := fun k =>
  let k := foldr hdel_zrem k (expired_owners now_epoch (members (expiries_key k))) in
  if negb (bool_decide (size (members (reservations_key k)) = size (members (expiries_key k))))
  then (Raise (LuaError "node_budget_state_cardinality_mismatch"), k)
  else
    match sum_active (map_to_list (members (reservations_key k))) (members (expiries_key k))
            0 (default 0 (revision_key k)) with
    | Raise e => (Raise e, k)
    | Ok (total, max_revision) =>
        let k := with_total total k in
        (Ok (total, max_revision),
         if default 0 (revision_key k) <? max_revision then with_revision max_revision k else k)
    end.

Section scripts.
Context `{CJson}.

(** What [cjson.decode] makes of [cjson.encode(r)]. *)
Definition cjson_encode (r : NodeBudgetReservation) : NodeBudgetReservation :=
  mkReservation (owner_id r) (cjson_int (bytes r)) (cjson_int (revision r))
    (cjson_epoch (expires_at_epoch r)) (policy_fingerprint r)
    (resource_profile_fingerprint_of r) (cjson_int (reservation_allocatable_bytes r))
    (policy_mode r) (reconciliation_evidence_fingerprint r)
    (cjson_int <$> reconciled_from_bytes r) (cjson_epoch <$> reconciled_at_epoch r).

(** The four answers of the acquisition: code, total, revision, JSON text. *)
Definition acquire_reply : Type := (Z * Z * Z * option NodeBudgetReservation)%type.

Definition _ACQUIRE_LUA (owner : string) (requested allocatable now_epoch expires_at : Z)
    (policy_fp profile_fp : string) (key_ttl : Z) (md : string) (payload : NodeBudgetPolicy)
    : stres budget_keys acquire_reply :=
  reconciled ← reconcile_active_reservations now_epoch;
  let total := reconciled.1 in
  _ ← set_policy payload;
  existing_raw ← hget owner;
  match existing_raw with
  | Some existing =>
      if (bytes existing =? requested)
         && bool_decide (policy_fingerprint existing = policy_fp)
         && bool_decide (resource_profile_fingerprint_of existing = profile_fp)
      then
        let existing := cjson_encode (Memory.with_expiry expires_at existing) in
        _ ← hset owner existing;
        _ ← zadd expires_at owner;
        _ ← extend_both key_ttl;
        mret (1, total, revision existing, Some existing)
      else mret (-2, total, revision existing, Some existing)
  | None =>
      if (requested <=? 0) || (allocatable <=? 0) || (allocatable <? total + requested)
      then mret (0, total, 0, None)
      else
        rev ← incr_revision;
        let reservation := cjson_encode
          (mkReservation owner requested rev expires_at policy_fp profile_fp allocatable md
             None None None) in
        let total := total + requested in
        _ ← hset owner reservation;
        _ ← zadd expires_at owner;
        _ ← set_total total;
        _ ← extend_both key_ttl;
        mret (1, total, rev, Some reservation)
  end.

Definition _RENEW_LUA (owner : string) (rev expires_at key_ttl now_epoch : Z)
    : stres budget_keys Z :=
  _ ← reconcile_active_reservations now_epoch;
  raw ← hget owner;
  match raw with
  | None => mret 0
  | Some reservation =>
      if negb (revision reservation =? rev) then mret 0
      else
        _ ← hset owner (cjson_encode (Memory.with_expiry expires_at reservation));
        _ ← zadd expires_at owner;
        _ ← extend_both key_ttl;
        mret 1
  end.

Definition _RECONCILE_DOWN_LUA (owner : string) (rev requested : Z)
    (evidence_fingerprint : string) (reconciled_at : Z) : stres budget_keys Z :=
  reconciled ← reconcile_active_reservations reconciled_at;
  raw ← hget owner;
  match raw with
  | None => mret 0
  | Some reservation =>
      if negb (revision reservation =? rev) then mret (-1)
      else
        let existing := bytes reservation in
        if (requested <=? 0) || (existing <=? requested) then mret (-2)
        else if bool_decide (evidence_fingerprint = "") then mret (-3)
        else
          let total := Z.max 0 (reconciled.1 - (existing - requested)) in
          _ ← hset owner (cjson_encode
                (Memory.reconciled requested evidence_fingerprint reconciled_at reservation));
          _ ← set_total total;
          mret 1
  end.

Definition _RELEASE_LUA (owner : string) (rev now_epoch : Z) : stres budget_keys Z :=
  reconciled ← reconcile_active_reservations now_epoch;
  raw ← hget owner;
  match raw with
  | None => mret 0
  | Some reservation =>
      if negb (revision reservation =? rev) then mret 0
      else
        let total := Z.max 0 (reconciled.1 - bytes reservation) in
        _ ← modify_st (hdel_zrem owner);
        _ ← set_total total;
        mret 1
  end.

Definition _SNAPSHOT_LUA (now_epoch : Z)
    : stres budget_keys (Z * Z * option NodeBudgetPolicy * list NodeBudgetReservation) :=
  reconciled ← reconcile_active_reservations now_epoch;
  gets_st (fun k => (reconciled.1, default 0 (revision_key k), policy_key k,
                     (map_to_list (members (reservations_key k))).*2)).

(** * [RedisNodeBudgetStore] *)

(** [client.eval(script, ...)]: keys past their deadline are gone when the
    script starts; a failing script is an error reply, which is raised. *)
Definition at_start (k : budget_keys) : budget_keys :=
  with_expiries (unexpired (server_now k) (expiries_key k))
    (with_reservations (unexpired (server_now k) (reservations_key k)) k).
Definition eval {A} (f : fault) (script : stres budget_keys A) : stres budget_keys A :=
  r ← round_trip f (fun k => script (at_start k)); lift_res r.

Definition denied (why : string) (reserved n : Z) (p : NodeBudgetPolicy) :=
  mkAcquire false (Some why) None reserved n p.

(** The handle built from the payload: the reconciliation fields are left out. *)
Definition handle (r : NodeBudgetReservation) : NodeBudgetReservation :=
  mkReservation (owner_id r) (bytes r) (revision r) (expires_at_epoch r)
    (policy_fingerprint r) (resource_profile_fingerprint_of r)
    (reservation_allocatable_bytes r) (policy_mode r) None None None.

Definition expires_in (now_epoch ttl_seconds : Z) : Z := now_epoch + secs (Z.max 1 ttl_seconds).
Definition key_ttl_of (ttl_seconds : Z) : Z := Z.max 60 (ttl_seconds * 4).

(** [up]: whether the queue store hands out a client; [now]: the runner's clock. *)
Definition acquire (up : bool) (f : fault) (now : Z) (owner : string) (n : Z)
    (p : NodeBudgetPolicy) (profile_fp : string) (ttl_seconds : Z)
    : stres budget_keys NodeBudgetAcquireResult := fun k =>
  if negb up then (Ok (denied "node_budget_unavailable" 0 n p), k)
  else
    match eval f (_ACQUIRE_LUA owner n (allocatable_bytes p) now (expires_in now ttl_seconds)
                    (fingerprint p) profile_fp (key_ttl_of ttl_seconds) (mode p) p) k with
    | (Raise _, k') => (Ok (denied "node_budget_unavailable" 0 n p), k')
    | (Ok (code, reserved, _, raw), k') =>
        if negb (code =? 1)
        then (Ok (denied (if code =? -2 then "node_budget_owner_conflict"
                          else "node_budget_exhausted") reserved n p), k')
        else match raw with
             | Some r => (Ok (mkAcquire true None (Some (handle r)) reserved n p), k')
             | None => (Raise (OtherError "JSONDecodeError" ""), k')
             end
    end.

Definition renew (up : bool) (f : fault) (now : Z) (r : NodeBudgetReservation)
    (ttl_seconds : Z) (k : budget_keys) : bool * budget_keys :=
  if negb up then (false, k)
  else or_else false
    (n ← eval f (_RENEW_LUA (owner_id r) (revision r) (expires_in now ttl_seconds)
                   (key_ttl_of ttl_seconds) now);
     mret (negb (n =? 0))) k.

Definition reconcile_down (up : bool) (f : fault) (now : Z) (r : NodeBudgetReservation)
    (n : Z) (evidence_fingerprint : string) (k : budget_keys) : bool * budget_keys :=
  if negb up then (false, k)
  else or_else false
    (c ← eval f (_RECONCILE_DOWN_LUA (owner_id r) (revision r) n evidence_fingerprint now);
     mret (c =? 1)) k.

Definition release (up : bool) (f : fault) (now : Z) (r : NodeBudgetReservation)
    (k : budget_keys) : bool * budget_keys :=
  if negb up then (false, k)
  else or_else false
    (n ← eval f (_RELEASE_LUA (owner_id r) (revision r) now); mret (negb (n =? 0))) k.

(** [json.loads] of one element: a whole number of seconds reads as an [int]. *)
Definition epoch_json (t : Z) : pyval :=
  if t mod secs 1 =? 0 then PInt (t / secs 1) else tick_float t.
Definition reservation_json (r : NodeBudgetReservation) : dict pyval :=
  [("owner_id", PStr (owner_id r)); ("bytes", PInt (bytes r));
   ("revision", PInt (revision r)); ("expires_at_epoch", epoch_json (expires_at_epoch r));
   ("policy_fingerprint", PStr (policy_fingerprint r));
   ("resource_profile_fingerprint", PStr (resource_profile_fingerprint_of r));
   ("allocatable_bytes", PInt (reservation_allocatable_bytes r));
   ("policy_mode", PStr (policy_mode r))]
  ++ match reconciliation_evidence_fingerprint r, reconciled_from_bytes r,
           reconciled_at_epoch r with
     | Some e, Some b, Some t =>
         [("reconciliation_evidence_fingerprint", PStr e); ("reconciled_from_bytes", PInt b);
          ("reconciled_at_epoch", epoch_json t)]
     | _, _, _ => []
     end.

Definition snapshot (up : bool) (f : fault) (now : Z) (k : budget_keys)
    : pyval * budget_keys :=
  let degraded why := PDict [("available", PBool false); ("degraded_reason", PStr why)] in
  if negb up then (degraded "node_budget_unavailable", k)
  else
    match eval f (_SNAPSHOT_LUA now) k with
    | (Raise _, k') => (degraded "node_budget_snapshot_failed", k')
    | (Ok (total, rev, p, items), k') =>
        (PDict [("available", PBool true); ("budget_id", PStr NODE_BUDGET_ID);
                ("reserved_bytes", PInt total);
                ("active_reservations", PInt (Z.of_nat (length items)));
                ("revision", PInt rev);
                ("allocatable_bytes", py_optZ (allocatable_bytes <$> p));
                ("policy_mode", py_opt (mode <$> p));
                ("policy_fingerprint", py_opt (fingerprint <$> p));
                ("reservations", PList (map (fun r => PDict (reservation_json r)) items))], k')
    end.
End scripts.

(** ** The library as Redis ships it *)

(** Division rounded to the nearest, ties to even. *)
Definition div_round (a b : Z) : Z :=
  let q := (2 * a + b) / (2 * b) in
  if ((2 * a + b) mod (2 * b) =? 0) && Z.odd q then q - 1 else q.

Lemma div_round_close a b : 0 < b -> 2 * Z.abs (div_round a b * b - a) <= b.
Proof.
  intros Hb. unfold div_round. pose proof (Z.div_mod (2 * a + b) (2 * b) ltac:(lia)) as E.
  pose proof (Z.mod_pos_bound (2 * a + b) (2 * b) ltac:(lia)) as B.
  set (q := (2 * a + b) / (2 * b)) in *. set (m := (2 * a + b) mod (2 * b)) in *.
  clearbody q m. destruct ((m =? 0) && Z.odd q) eqn:Eq; bool_prop; nia.
Qed.

Fixpoint decimal_digits (fuel : nat) (n : Z) : Z :=
  match fuel with
  | O => 1
  | S k => if n <? 10 then 1 else 1 + decimal_digits k (n / 10)
  end.

(** [%.14g] of an integer and of a ten-digit epoch reading, read back. *)
Definition round14 (n : Z) : Z :=
  if Z.abs n <? 10 ^ 14 then n
  else let p := 10 ^ (decimal_digits 400 (Z.abs n) - 14) in div_round n p * p.
Definition round14_epoch (t : Z) : Z :=
  div_round (div_round (t * 10 ^ 4) TICKS_PER_SECOND * TICKS_PER_SECOND) (10 ^ 4).

#[export] Program Instance lua_cjson : CJson :=
  {| cjson_int := round14; cjson_epoch := round14_epoch |}.
Next Obligation. intros n Hn. unfold round14. by rewrite (proj2 (Z.ltb_lt _ _) Hn). Qed.
Next Obligation.
  intros t _. unfold round14_epoch, secs, TICKS_PER_SECOND.
  pose proof (div_round_close (t * 10 ^ 4) 4194304 ltac:(lia)) as H1.
  set (q := div_round (t * 10 ^ 4) 4194304) in *. clearbody q.
  pose proof (div_round_close (q * 4194304) (10 ^ 4) ltac:(lia)) as H2.
  set (u := div_round (q * 4194304) (10 ^ 4)) in *. clearbody u. lia.
Qed.

(** * The scripts implement the in-memory store *)

(** What a reservation claims: everything but the two readings of the clock. *)
Definition claim (r : NodeBudgetReservation) : NodeBudgetReservation :=
  mkReservation (owner_id r) (bytes r) (revision r) 0 (policy_fingerprint r)
    (resource_profile_fingerprint_of r) (reservation_allocatable_bytes r) (policy_mode r)
    (reconciliation_evidence_fingerprint r) (reconciled_from_bytes r) None.

(** The tolerated difference between a runner's clock and the server's. *)
Definition CLOCK_SKEW : Z := secs 20.

(** Both keys live to the same deadline, and past every reservation. *)
Record deadlines_ok (k : budget_keys) : Prop := {
  dl_same : key_deadline (reservations_key k) = key_deadline (expiries_key k);
  dl_after : forall o t, members (expiries_key k) !! o = Some t ->
    exists d, key_deadline (expiries_key k) = Some d /\ t + CLOCK_SKEW <= d;
}.

(** No key is past its deadline. *)
Definition deadline_ahead (k : budget_keys) : Prop :=
  forall d, key_deadline (expiries_key k) = Some d -> server_now k < d.

(** The keys [k] hold what the store [m] holds. *)
Record represents (k : budget_keys) (m : Memory.store) : Prop := {
  rp_hash : forall o, claim <$> members (reservations_key k) !! o
                      = claim <$> dget o (Memory.reservations m);
  rp_zset : forall o, members (expiries_key k) !! o
                      = expires_at_epoch <$> dget o (Memory.reservations m);
  rp_revision : default 0 (revision_key k) = Memory.revision_counter m;
  rp_policy : policy_key k = Memory.policy m;
  rp_deadlines : deadlines_ok k;
  rp_wf : Memory.wf m;
}.

Definition at_clock (now : Z) (m : Memory.store) : Memory.store :=
  Memory.mkStore now (Memory.revision_counter m) (Memory.reservations m) (Memory.policy m).

Lemma wf_at_clock now m : Memory.wf m -> Memory.wf (at_clock now m).
Proof. intros [Hc Hk He Hu]. by split. Qed.

(** ** Collections *)

Lemma foldr_hdel_zrem os k :
  let k' := foldr hdel_zrem k os in
  (forall o, members (reservations_key k') !! o
     = if bool_decide (o ∈ os) then None else members (reservations_key k) !! o) /\
  (forall o, members (expiries_key k') !! o
     = if bool_decide (o ∈ os) then None else members (expiries_key k) !! o) /\
  total_key k' = total_key k /\ revision_key k' = revision_key k /\
  policy_key k' = policy_key k /\ server_now k' = server_now k.
Proof.
  induction os as [|x os (H1 & H2 & H3)]; simpl.
  - split_and!; try done; intros o; by rewrite bool_decide_false by (apply not_elem_of_nil).
  - split_and!; try apply H3; intros o; rewrite lookup_delete, ?H1, ?H2;
      destruct (decide (x = o)) as [->|Hne];
      repeat case_bool_decide; try done; set_solver.
Qed.

Lemma elem_of_expired now (z : gmap string Z) o :
  o ∈ expired_owners now z <-> exists t, z !! o = Some t /\ t <= now.
Proof.
  unfold expired_owners. rewrite list_elem_of_fmap. split.
  - intros ([x t] & -> & [Ht Hin]%list_elem_of_filter). exists t.
    by rewrite elem_of_map_to_list in Hin.
  - intros (t & Ht & Hle). exists (o, t). split; [done|].
    rewrite list_elem_of_filter, elem_of_map_to_list. done.
Qed.

Definition same_owners (k : budget_keys) : Prop :=
  forall o, is_Some (members (reservations_key k) !! o)
            <-> is_Some (members (expiries_key k) !! o).

Lemma same_owners_dom k :
  same_owners k -> dom (members (reservations_key k)) = dom (members (expiries_key k)).
Proof. intros H. apply set_eq. intros o. rewrite !elem_of_dom. apply H. Qed.

Lemma represents_owners k m : represents k m -> same_owners k.
Proof.
  intros [Hh Hz _ _ _ _] o. rewrite Hz. specialize (Hh o).
  destruct (_ !! o), (dget o _); simpl in *; try done; split; by intros [? ?].
Qed.

(** Removing an owner from both keys keeps the deadlines. *)
Lemma hdel_zrem_ok o k :
  same_owners k -> deadlines_ok k -> same_owners (hdel_zrem o k) /\ deadlines_ok (hdel_zrem o k).
Proof.
  intros Hs [Hd Ha].
  assert (Hs' : same_owners (hdel_zrem o k)).
  { intros x. simpl. rewrite !lookup_delete. destruct (decide _); [|apply Hs].
    split; by intros [? ?]. }
  split; [done|]. pose proof (same_owners_dom _ Hs') as Hdom. simpl in Hdom.
  assert (He : delete o (members (reservations_key k)) = ∅
               <-> delete o (members (expiries_key k)) = ∅).
  { by rewrite <- !dom_empty_iff_L, Hdom. }
  split; simpl.
  - destruct (decide _), (decide _); tauto.
  - intros x t Hx. destruct (decide _) as [E|_]; [by rewrite E in Hx|].
    apply lookup_delete_Some in Hx as [_ Hx]. by apply (Ha x).
Qed.

Lemma foldr_hdel_zrem_ok os k :
  same_owners k -> deadlines_ok k ->
  same_owners (foldr hdel_zrem k os) /\ deadlines_ok (foldr hdel_zrem k os).
Proof.
  intros Hs Hd. induction os as [|o os [IH1 IH2]]; [done|]. by apply hdel_zrem_ok.
Qed.

Lemma foldr_hdel_zrem_ahead os k : deadline_ahead k -> deadline_ahead (foldr hdel_zrem k os).
Proof.
  intros Ha. induction os as [|o os IH]; [done|]. intros d. simpl.
  destruct (decide _); [done | apply IH].
Qed.

(** ** The sum over the hash *)

Lemma list_to_map_dget {V} (d : dict V) o : (list_to_map d : gmap string V) !! o = dget o d.
Proof.
  induction d as [|[k v] d IH]; [done|]. simpl. rewrite lookup_insert.
  case_bool_decide; destruct (decide _); congruence.
Qed.

(** The hash lists the claims of the store, in some order. *)
Lemma entries_perm (h : gmap string NodeBudgetReservation) (d : dict NodeBudgetReservation) :
  dict_wf d -> (forall o, claim <$> h !! o = claim <$> dget o d) ->
  map (prod_map id claim) (map_to_list h) ≡ₚ map (prod_map id claim) d.
Proof.
  intros Hd Hh. rewrite <- (map_to_list_fmap claim h).
  assert (E : claim <$> h = list_to_map (map (prod_map id claim) d)).
  { apply map_eq. intros o. rewrite lookup_fmap, Hh.
    change (map (prod_map id claim) d) with (prod_map id claim <$> d).
    rewrite list_to_map_fmap, lookup_fmap, list_to_map_dget. done. }
  rewrite E. apply map_to_list_to_map. unfold dict_wf, dkeys in Hd.
  change (map (prod_map id claim) d) with (prod_map id claim <$> d).
  rewrite <- list_fmap_compose. exact Hd.
Qed.

Definition entries_sum (l : list (string * NodeBudgetReservation)) : Z :=
  foldr (fun kv acc => bytes kv.2 + acc) 0 l.

Lemma entries_sum_claims l : entries_sum (map (prod_map id claim) l) = entries_sum l.
Proof. induction l as [|[o r] l IH]; simpl; [done|]. by rewrite IH. Qed.

Lemma entries_sum_perm l l' : l ≡ₚ l' -> entries_sum l = entries_sum l'.
Proof. induction 1; simpl; lia. Qed.

Lemma entries_sum_store (h : gmap string NodeBudgetReservation) d :
  dict_wf d -> (forall o, claim <$> h !! o = claim <$> dget o d) ->
  entries_sum (map_to_list h) = Memory.sum_bytes d.
Proof.
  intros Hd Hh. rewrite <- entries_sum_claims, (entries_sum_perm _ _ (entries_perm h d Hd Hh)).
  apply entries_sum_claims.
Qed.

Lemma entries_length_store (h : gmap string NodeBudgetReservation) d :
  dict_wf d -> (forall o, claim <$> h !! o = claim <$> dget o d) ->
  length (map_to_list h) = length d.
Proof.
  intros Hd Hh. pose proof (Permutation_length (entries_perm h d Hd Hh)) as E.
  by rewrite !length_map in E.
Qed.

Lemma sum_active_ok l z total top :
  Forall (fun kv => owner_id kv.2 = kv.1 /\ is_Some (z !! kv.1) /\ 0 < bytes kv.2 /\
                    0 < revision kv.2 <= top) l ->
  sum_active l z total top = Ok (total + entries_sum l, top).
Proof.
  intros Hl. revert total. induction Hl as [|[o r] l (H1 & H2 & H3 & H4) Hl IH]; intros total;
    simpl in *; [by rewrite Z.add_0_r|].
  rewrite !bool_decide_true by done. simpl.
  rewrite (proj2 (Z.leb_gt _ _)), (proj2 (Z.leb_gt (revision r) 0)) by lia. simpl.
  rewrite Z.max_l by lia. rewrite IH. do 2 f_equal. lia.
Qed.

(** The entry of an owner, seen from the hash. *)
Lemma represents_entry k m o r :
  represents k m -> members (reservations_key k) !! o = Some r ->
  exists r', dget o (Memory.reservations m) = Some r' /\ claim r = claim r'.
Proof.
  intros Hr E. pose proof (rp_hash _ _ Hr o) as Hh. rewrite E in Hh. simpl in Hh.
  destruct (dget o _) as [r'|]; [|done]. injection Hh as Hh. exists r'.
  split; [done|]. unfold claim. congruence.
Qed.

Lemma claim_bytes r r' : claim r = claim r' -> bytes r = bytes r'.
Proof. intros E. exact (f_equal bytes E). Qed.
Lemma claim_revision r r' : claim r = claim r' -> revision r = revision r'.
Proof. intros E. exact (f_equal revision E). Qed.
Lemma claim_owner r r' : claim r = claim r' -> owner_id r = owner_id r'.
Proof. intros E. exact (f_equal owner_id E). Qed.

Lemma represents_active k m :
  represents k m ->
  Forall (fun kv => owner_id kv.2 = kv.1 /\ is_Some (members (expiries_key k) !! kv.1) /\
                    0 < bytes kv.2 /\ 0 < revision kv.2 <= default 0 (revision_key k))
         (map_to_list (members (reservations_key k))).
Proof.
  intros Hr. apply Forall_forall. intros [o r] Hin. apply elem_of_map_to_list in Hin. simpl.
  destruct (represents_entry _ _ _ _ Hr Hin) as (r' & Hg & Hc).
  destruct (Memory.wf_entry _ (rp_wf _ _ Hr) _ _ Hg) as (H1 & H2 & H3).
  rewrite (claim_owner _ _ Hc), (claim_bytes _ _ Hc), (claim_revision _ _ Hc),
    (rp_revision _ _ Hr), (rp_zset _ _ Hr), Hg. simpl. split_and!; eauto; lia.
Qed.

(** ** The prologue is the purge *)

Lemma reconcile_purges k m now :
  represents k m -> deadline_ahead k ->
  exists k', reconcile_active_reservations now k
    = (Ok (Memory.sum_bytes (Memory.reservations (Memory._purge (at_clock now m))),
           Memory.revision_counter m), k') /\
  represents k' (Memory._purge (at_clock now m)) /\ server_now k' = server_now k /\
  deadline_ahead k'.
Proof.
  intros Hr Hahead. pose proof (represents_owners _ _ Hr) as Hso.
  set (os := expired_owners now (members (expiries_key k))).
  destruct (foldr_hdel_zrem os k) as (Hh & Hz & Ht & Hv & Hp & Hn).
  destruct (foldr_hdel_zrem_ok os k Hso (rp_deadlines _ _ Hr)) as [Hso' Hd'].
  set (m' := Memory._purge (at_clock now m)).
  pose proof (Memory.wf_purge _ (wf_at_clock now m (rp_wf _ _ Hr))) as Hwf'.
  assert (Hget : forall o, dget o (Memory.reservations m')
    = if bool_decide (o ∈ os) then None else dget o (Memory.reservations m)).
  { intros o. simpl. rewrite dget_dfilter by apply (Memory.wf_keys _ (rp_wf _ _ Hr)).
    pose proof (elem_of_expired now (members (expiries_key k)) o) as Hx.
    rewrite (rp_zset _ _ Hr) in Hx. fold os in Hx.
    destruct (dget o _) as [r|]; [|by case_bool_decide]. simpl in *.
    destruct (now <? expires_at_epoch r) eqn:El; bool_prop.
    - rewrite bool_decide_false; [done|]. rewrite Hx. intros (t & [= <-] & Hle). lia.
    - rewrite bool_decide_true; [done|]. rewrite Hx. eauto with lia. }
  assert (Hr' : represents (foldr hdel_zrem k os) m').
  { split; try done.
    - intros o. rewrite Hh, Hget. case_bool_decide; [done | apply Hr].
    - intros o. rewrite Hz, Hget. case_bool_decide; [done | apply Hr].
    - rewrite Hv. apply Hr.
    - rewrite Hp. apply Hr. }
  unfold reconcile_active_reservations. fold os.
  rewrite bool_decide_true by (rewrite <- !size_dom, (same_owners_dom _ Hso'); done). simpl negb.
  rewrite (sum_active_ok _ _ _ _ (represents_active _ _ Hr')), Z.add_0_l.
  rewrite (entries_sum_store _ _ (Memory.wf_keys _ Hwf') (rp_hash _ _ Hr')).
  cbv iota beta zeta. rewrite Z.ltb_irrefl. eexists. split_and!.
  - rewrite Hv, (rp_revision _ _ Hr). reflexivity.
  - destruct Hr' as [Q1 Q2 Q3 Q4 [Q5 Q6] Q7]. by split.
  - exact Hn.
  - exact (foldr_hdel_zrem_ahead os k Hahead).
Qed.

Lemma dfilter_none {V} (P : string -> V -> bool) d :
  (forall o r, (o, r) ∈ d -> P o r = false) -> dfilter P d = [].
Proof.
  induction d as [|[o r] d IH]; simpl; [done|]. intros Hd.
  rewrite (Hd o r) by set_solver. apply IH. set_solver.
Qed.

(** A key past its deadline held only reservations that had expired. *)
Lemma start_purges k m now :
  represents k m -> Z.abs (now - server_now k) <= CLOCK_SKEW ->
  exists k', reconcile_active_reservations now (at_start k)
    = (Ok (Memory.sum_bytes (Memory.reservations (Memory._purge (at_clock now m))),
           Memory.revision_counter m), k') /\
  represents k' (Memory._purge (at_clock now m)) /\ server_now k' = server_now k /\
  deadline_ahead k'.
Proof.
  intros Hr Hs. destruct (rp_deadlines _ _ Hr) as [Hsame Hafter].
  unfold at_start, unexpired. rewrite Hsame.
  destruct (key_deadline (expiries_key k)) as [d|] eqn:Ed; [destruct (d <=? server_now k) eqn:El|].
  2,3: destruct k; apply (reconcile_purges _ m now Hr); intros d'; simpl in *; bool_prop;
    congruence || (intros; simplify_eq; lia).
  bool_prop.
  set (m0 := Memory.mkStore (Memory.now_epoch m) (Memory.revision_counter m) []
               (Memory.policy m)).
  assert (E : Memory._purge (at_clock now m) = Memory._purge (at_clock now m0)).
  { unfold Memory._purge. simpl. f_equal. apply dfilter_none. intros o r Hin.
    apply elem_of_dget in Hin; [|apply (Memory.wf_keys _ (rp_wf _ _ Hr))].
    pose proof (rp_zset _ _ Hr o) as Hz. rewrite Hin in Hz.
    destruct (Hafter _ _ Hz) as (d' & [= <-] & Hd). apply Z.ltb_ge. lia. }
  rewrite E. change (Memory.revision_counter m) with (Memory.revision_counter m0).
  refine (reconcile_purges _ m0 now _ _); [|done]. destruct Hr as [_ _ Hv Hp _ [Hc _ _ _]].
  split; simpl; try done; split; simpl; done || constructor.
Qed.

(** ** Writing an entry *)

Section simulation.
Context `{CJson}.

(** What [HSET], [ZADD] and the two extensions leave behind. *)
Definition store_entry (o : string) (r : NodeBudgetReservation) (e key_ttl : Z) (k : budget_keys)
    : budget_keys :=
  let k := with_expiries (put o e (expiries_key k))
             (with_reservations (put o r (reservations_key k)) k) in
  with_expiries (extend_collection_ttl (server_now k) key_ttl (expiries_key k))
    (with_reservations (extend_collection_ttl (server_now k) key_ttl (reservations_key k)) k).

Lemma extend_members {V} now ttl (c : collection V) :
  members (extend_collection_ttl now ttl c) = members c.
Proof. unfold extend_collection_ttl. by destruct (_ || _). Qed.

(** The deadline of a key with a member after its extension. *)
Lemma extend_deadline {V} now ttl o (v : V) (c : collection V) :
  (forall d, key_deadline c = Some d -> now < d) ->
  key_deadline (extend_collection_ttl now ttl (put o v c)) =
  match key_deadline c with
  | Some d => if (2 * (d - now) + secs 1) / secs 2 <? ttl then Some (now + secs ttl) else Some d
  | None => Some (now + secs ttl)
  end.
Proof.
  intros Ha. unfold extend_collection_ttl, ttl_of. cbn [members key_deadline put].
  rewrite decide_False by apply insert_non_empty.
  destruct (key_deadline c) as [d|] eqn:E; [|done]. specialize (Ha d eq_refl).
  assert (0 <= (2 * (d - now) + secs 1) / secs 2)
    by (apply Z.div_pos; unfold secs, TICKS_PER_SECOND; lia).
  cbv zeta. rewrite (proj2 (Z.eqb_neq _ (-1))), (proj2 (Z.leb_le 0 _)) by lia. cbn [orb andb].
  by destruct (_ <? ttl).
Qed.

Lemma extended_late now d ttl :
  (2 * (d - now) + secs 1) / secs 2 < ttl -> d <= now + secs ttl.
Proof.
  unfold secs, TICKS_PER_SECOND. intros Hlt.
  pose proof (Z.mul_succ_div_gt (2 * (d - now) + 1 * 4194304) (2 * 4194304) ltac:(lia)). lia.
Qed.

Lemma extended_early now d ttl :
  ttl <= (2 * (d - now) + secs 1) / secs 2 -> 2 * (now + secs ttl) <= 2 * d + secs 1.
Proof.
  unfold secs, TICKS_PER_SECOND. intros Hle.
  pose proof (Z.mul_div_le (2 * (d - now) + 1 * 4194304) (2 * 4194304) ltac:(lia)). lia.
Qed.

Lemma store_entry_deadlines o r e ttl k :
  deadlines_ok k -> deadline_ahead k ->
  2 * (e + CLOCK_SKEW) + secs 1 <= 2 * (server_now k + secs ttl) ->
  deadlines_ok (store_entry o r e ttl k).
Proof.
  intros [Hs Ha] Hahead He.
  assert (E : key_deadline (expiries_key (store_entry o r e ttl k)) =
              key_deadline (reservations_key (store_entry o r e ttl k))).
  { simpl. rewrite !extend_deadline by (rewrite ?Hs; exact Hahead). by rewrite Hs. }
  split; [by symmetry|]. intros x t. simpl.
  rewrite extend_members, extend_deadline by exact Hahead. simpl.
  rewrite lookup_insert. intros Hx.
  destruct (key_deadline (expiries_key k)) as [d|] eqn:Ed.
  - destruct (_ <? ttl) eqn:El; bool_prop; eexists; (split; [done|]).
    + apply extended_late in El. destruct (decide _); simplify_eq.
      * unfold secs, TICKS_PER_SECOND in *. lia.
      * destruct (Ha _ _ Hx) as (? & [= <-] & ?). lia.
    + apply extended_early in El. destruct (decide _); simplify_eq; [lia|].
      destruct (Ha _ _ Hx) as (? & [= <-] & ?). lia.
  - eexists. split; [done|]. destruct (decide _); simplify_eq.
    + unfold secs, TICKS_PER_SECOND in *. lia.
    + destruct (Ha _ _ Hx) as (? & ? & ?). congruence.
Qed.

(** The slack between a reservation's expiry and its keys' deadline covers the
    clock difference twice. *)
Lemma key_ttl_covers now server ttl :
  Z.abs (now - server) <= CLOCK_SKEW ->
  2 * (expires_in now ttl + CLOCK_SKEW) + secs 1 <= 2 * (server + secs (key_ttl_of ttl)).
Proof. unfold expires_in, key_ttl_of, CLOCK_SKEW, secs, TICKS_PER_SECOND. lia. Qed.

Lemma represents_total n k m : represents k m -> represents (with_total n k) m.
Proof. intros [Q1 Q2 Q3 Q4 [Q5 Q6] Q7]. by split. Qed.

Lemma represents_policy p k m :
  represents k m -> represents (with_policy p k) (Memory.with_policy p m).
Proof. intros [Q1 Q2 Q3 Q4 [Q5 Q6] Q7]. by split; [..|apply Memory.wf_policy]. Qed.

Lemma represents_store o r r' ttl rev k m m' :
  represents k m -> deadline_ahead k -> claim r = claim r' ->
  2 * (expires_at_epoch r' + CLOCK_SKEW) + secs 1 <= 2 * (server_now k + secs ttl) ->
  m' = Memory.mkStore (Memory.now_epoch m) rev (dset o r' (Memory.reservations m))
         (Memory.policy m) ->
  default 0 (revision_key k) = rev -> Memory.wf m' ->
  represents (store_entry o r (expires_at_epoch r') ttl k) m'.
Proof.
  intros [Q1 Q2 Q3 Q4 Q5 Q6] Ha Hc He -> Hrev Hwf. split; simpl; try done.
  - intros x. rewrite extend_members. simpl. rewrite lookup_insert, dget_dset.
    case_bool_decide; destruct (decide _); [by simpl; rewrite Hc | congruence.. | apply Q1].
  - intros x. rewrite extend_members. simpl. rewrite lookup_insert, dget_dset.
    case_bool_decide; destruct (decide _); [done | congruence.. | apply Q2].
  - by apply store_entry_deadlines.
Qed.

(** ** Small numbers pass through JSON *)

Definition small (r : NodeBudgetReservation) : Prop :=
  Z.abs (bytes r) < 10 ^ 14 /\ Z.abs (revision r) < 10 ^ 14 /\
  Z.abs (reservation_allocatable_bytes r) < 10 ^ 14 /\
  match reconciled_from_bytes r with Some b => Z.abs b < 10 ^ 14 | None => True end.

Definition all_small (m : Memory.store) : Prop :=
  forall o r, dget o (Memory.reservations m) = Some r -> small r.

Lemma claim_encode r : small r -> claim (cjson_encode r) = claim r.
Proof.
  intros (H1 & H2 & H3 & H4). unfold claim, cjson_encode. simpl.
  rewrite !cjson_int_exact by done. f_equal.
  destruct (reconciled_from_bytes r); [|done]. simpl. by rewrite cjson_int_exact.
Qed.

Lemma claim_small r r' : claim r = claim r' -> small r' -> small r.
Proof.
  intros E. unfold small.
  rewrite (claim_bytes _ _ E), (claim_revision _ _ E).
  rewrite (f_equal reservation_allocatable_bytes E : reservation_allocatable_bytes r = _).
  by rewrite (f_equal reconciled_from_bytes E : reconciled_from_bytes r = _).
Qed.

(** A changed entry passes through JSON unharmed when its numbers are small. *)
Lemma claim_store (g : NodeBudgetReservation -> NodeBudgetReservation) r r' :
  claim r = claim r' -> (claim r = claim r' -> claim (g r) = claim (g r')) -> small (g r') ->
  claim (cjson_encode (g r)) = claim (g r').
Proof. intros E Eg Hs. specialize (Eg E). rewrite claim_encode; eauto using claim_small. Qed.

Lemma claim_with_expiry e r r' :
  claim r = claim r' -> claim (Memory.with_expiry e r) = claim (Memory.with_expiry e r').
Proof. unfold claim, Memory.with_expiry. simpl. intros [=]. congruence. Qed.

Lemma claim_reconciled n ev t r r' :
  claim r = claim r' -> claim (Memory.reconciled n ev t r) = claim (Memory.reconciled n ev t r').
Proof. unfold claim, Memory.reconciled. simpl. intros [=]. congruence. Qed.

Lemma all_small_purge m now :
  Memory.wf m -> all_small m -> all_small (Memory._purge (at_clock now m)).
Proof.
  intros Hwf Hs o r Hin.
  by apply (Memory.purge_dget _ _ _ (wf_at_clock now m Hwf)), proj1, Hs in Hin.
Qed.

Lemma all_small_set o r m rev :
  all_small m -> small r ->
  all_small (Memory.mkStore (Memory.now_epoch m) rev (dset o r (Memory.reservations m))
               (Memory.policy m)).
Proof.
  intros Hs Hr x r'. simpl. rewrite dget_dset. case_bool_decide; [by intros [= <-] | apply Hs].
Qed.

Lemma all_small_del o m :
  all_small m -> all_small (Memory.mkStore (Memory.now_epoch m) (Memory.revision_counter m)
                              (ddel o (Memory.reservations m)) (Memory.policy m)).
Proof. intros Hs x r'. simpl. rewrite dget_ddel. case_bool_decide; [done | apply Hs]. Qed.

(** ** One script, one operation *)

(** The keys and the store between two calls. *)
Record in_step (k : budget_keys) (m : Memory.store) : Prop := {
  is_represents : represents k m;
  is_small : all_small m;
}.

Lemma eval_delivered {A} (script : stres budget_keys A) k :
  eval Delivered script k = script (at_start k).
Proof.
  unfold eval, mbind, stres_bind, round_trip, lift_res. by destruct (script (at_start k)).
Qed.

Lemma call_delivered {A B} (d : B) (g : A -> B) script k a k' :
  script (at_start k) = (Ok a, k') ->
  or_else d (a ← eval Delivered script; mret (g a)) k = (g a, k').
Proof.
  intros E. unfold or_else. rewrite <- eval_delivered in E. by rewrite (st_bind_eq _ _ _ _ _ E).
Qed.

(** After the prologue. *)
Lemma prologue now k m :
  in_step k m -> Z.abs (now - server_now k) <= CLOCK_SKEW ->
  exists k1, let m1 := Memory._purge (at_clock now m) in
    reconcile_active_reservations now (at_start k)
      = (Ok (Memory.sum_bytes (Memory.reservations m1), Memory.revision_counter m1), k1) /\
    in_step k1 m1 /\ server_now k1 = server_now k /\ deadline_ahead k1.
Proof.
  intros [Hr Hs] Hskew. destruct (start_purges k m now Hr Hskew) as (k1 & E & Hr1 & Hn & Ha).
  exists k1. cbv zeta. split_and!; try done. split; [done|].
  by apply all_small_purge; [apply Hr|].
Qed.

(** What [HGET] finds, against the store. *)
Lemma hget_store k m o :
  represents k m ->
  match members (reservations_key k) !! o, dget o (Memory.reservations m) with
  | Some r, Some r' => claim r = claim r'
  | None, None => True
  | _, _ => False
  end.
Proof.
  intros Hr. pose proof (rp_hash _ _ Hr o) as E. revert E.
  destruct (_ !! o), (dget o _); simpl; try done. intros E.
  by apply (inj Some) in E.
Qed.

Lemma in_step_store o r r' ttl rev k m :
  in_step k m -> deadline_ahead k -> claim r = claim r' -> small r' ->
  2 * (expires_at_epoch r' + CLOCK_SKEW) + secs 1 <= 2 * (server_now k + secs ttl) ->
  default 0 (revision_key k) = rev ->
  let m' := Memory.mkStore (Memory.now_epoch m) rev (dset o r' (Memory.reservations m))
              (Memory.policy m) in
  Memory.wf m' -> in_step (store_entry o r (expires_at_epoch r') ttl k) m'.
Proof.
  intros [Hr Hs] Ha Hc Hsm He Hrev m' Hwf. split; [|by apply all_small_set].
  by eapply represents_store.
Qed.

Lemma in_step_total n k m : in_step k m -> in_step (with_total n k) m.
Proof. intros [Hr Hs]. split; [by apply represents_total | done]. Qed.

Lemma hget_eq o k v : members (reservations_key k) !! o = v -> hget o k = (Ok v, k).
Proof. by intros <-. Qed.

(** [run_script E] replays the prologue whose result is [E], [run_hget Ex] the
    lookup that follows. *)
Ltac run_script E := rewrite (st_bind_eq _ _ _ _ _ E); cbv beta.
Ltac run_hget Ex := rewrite (st_bind_eq _ _ _ _ _ (hget_eq _ _ _ Ex)); cbv iota.

Lemma expiry_eq m now ttl :
  Memory.now_epoch m = now -> Memory.expiry m ttl = expires_in now ttl.
Proof. by intros <-. Qed.

(** The prologue and the lookup of the caller's entry, in both worlds. *)
Inductive entry (o : string) (k : budget_keys) (m : Memory.store) : Prop :=
| entry_missing : members (reservations_key k) !! o = None ->
    dget o (Memory.reservations m) = None -> entry o k m
| entry_found x y : members (reservations_key k) !! o = Some x ->
    dget o (Memory.reservations m) = Some y -> claim x = claim y -> small y -> entry o k m.

Lemma entry_of o k m : in_step k m -> entry o k m.
Proof.
  intros [Hr Hs]. pose proof (hget_store k m o Hr) as Hg.
  destruct (members (reservations_key k) !! o) as [x|] eqn:Ex;
    destruct (dget o (Memory.reservations m)) as [y|] eqn:Ey; try done.
  - eapply entry_found; eauto.
  - by apply entry_missing.
Qed.

Lemma enter o now k m :
  in_step k m -> Z.abs (now - server_now k) <= CLOCK_SKEW ->
  exists k1 m1, m1 = Memory._purge (at_clock now m) /\
    reconcile_active_reservations now (at_start k)
      = (Ok (Memory.sum_bytes (Memory.reservations m1), Memory.revision_counter m1), k1) /\
    in_step k1 m1 /\ server_now k1 = server_now k /\ deadline_ahead k1 /\
    Memory.now_epoch m1 = now /\ Memory.revision_counter m1 = Memory.revision_counter m /\
    entry o k1 m1.
Proof.
  intros Hi Hs. destruct (prologue now k m Hi Hs) as (k1 & E & Hi1 & Hn & Ha).
  eexists k1, _. split_and!; try done. by apply entry_of.
Qed.

Lemma wf_clocked now k m : in_step k m -> Memory.wf (at_clock now m).
Proof. intros [Hr _]. apply wf_at_clock, Hr. Qed.

(** ** Renewal, reconciliation, release *)

Lemma renew_simulates now r ttl k m :
  in_step k m -> Z.abs (now - server_now k) <= CLOCK_SKEW ->
  let '(b, k') := renew true Delivered now r ttl k in
  let '(b', m') := Memory.renew r ttl (at_clock now m) in
  b = b' /\ in_step k' m' /\ server_now k' = server_now k /\
  Memory.revision_counter m' = Memory.revision_counter m.
Proof.
  intros Hi Hskew. pose proof (Memory.wf_renew r ttl _ (wf_clocked now _ _ Hi)) as Hwf'.
  revert Hwf'. unfold renew, Memory.renew. simpl negb. cbv iota zeta.
  destruct (enter (owner_id r) now k m Hi Hskew)
    as (k1 & m1 & <- & E & Hi1 & Hn & Ha & Hm & Hc & [Ex Ey|x y Ex Ey Hg Hsm]); rewrite Ey.
  { intros _. erewrite (call_delivered _ _ _ k 0); [done|].
    unfold _RENEW_LUA. run_script E. by run_hget Ex. }
  destruct (revision y =? revision r) eqn:Erev; intros Hwf'.
  2: { erewrite (call_delivered _ _ _ k 0); [done|]. unfold _RENEW_LUA. run_script E.
       run_hget Ex. by rewrite (claim_revision _ _ Hg), Erev. }
  erewrite (call_delivered _ _ _ k 1).
  2: { unfold _RENEW_LUA. run_script E. run_hget Ex.
       rewrite (claim_revision _ _ Hg), Erev. reflexivity. }
  split_and!; try done. revert Hwf'. rewrite (expiry_eq _ now) by done. intros Hwf'.
  refine (in_step_store (owner_id r) _ (Memory.with_expiry (expires_in now ttl) y)
            (key_ttl_of ttl) _ k1 m1 Hi1 Ha _ Hsm _
            (rp_revision _ _ (is_represents _ _ Hi1)) Hwf').
  - apply (claim_store (Memory.with_expiry _)); [done | apply claim_with_expiry | done].
  - rewrite Hn. by apply key_ttl_covers.
Qed.

(** Replacing an entry in the hash alone. *)
Lemma in_step_hset o r y y' k m :
  in_step k m -> dget o (Memory.reservations m) = Some y ->
  expires_at_epoch y' = expires_at_epoch y -> claim r = claim y' -> small y' ->
  let m' := Memory.set_reservation o y' m in
  Memory.wf m' -> in_step (with_reservations (put o r (reservations_key k)) k) m'.
Proof.
  intros [[Q1 Q2 Q3 Q4 [Q5 Q6] Q7] Hs] Hy He Hc Hsm m' Hwf. split; [|by apply all_small_set].
  split; simpl; try done.
  - intros x. rewrite lookup_insert, dget_dset.
    case_bool_decide; destruct (decide _); [by simpl; rewrite Hc | congruence.. | apply Q1].
  - intros x. rewrite Q2, dget_dset. case_bool_decide; [subst|done]. rewrite Hy. simpl. congruence.
Qed.

Lemma strip_nonempty ev : strip ev ≠ "" -> ev ≠ "".
Proof. by intros H1 ->. Qed.

(** The scripts accept evidence of blanks, the store does not. *)
Definition evidence_regular (ev : string) : Prop := ev = "" \/ strip ev ≠ "".

Lemma reconcile_simulates now r n ev k m :
  in_step k m -> Z.abs (now - server_now k) <= CLOCK_SKEW -> evidence_regular ev ->
  let '(b, k') := reconcile_down true Delivered now r n ev k in
  let '(b', m') := Memory.reconcile_down r n ev (at_clock now m) in
  b = b' /\ in_step k' m' /\ server_now k' = server_now k /\
  Memory.revision_counter m' = Memory.revision_counter m.
Proof.
  intros Hi Hskew Hev. pose proof (Memory.wf_reconcile r n ev _ (wf_clocked now _ _ Hi)) as Hwf'.
  revert Hwf'. unfold reconcile_down, Memory.reconcile_down. simpl negb. cbv iota zeta.
  destruct (enter (owner_id r) now k m Hi Hskew)
    as (k1 & m1 & <- & E & Hi1 & Hn & Ha & Hm & Hc & [Ex Ey|x y Ex Ey Hg Hsm]); rewrite Ey.
  { intros _. erewrite (call_delivered _ _ _ k 0); [done|].
    unfold _RECONCILE_DOWN_LUA. run_script E. by run_hget Ex. }
  assert (Hs : bool_decide (strip (str_or ev "") = "") = bool_decide (ev = "")).
  { apply bool_decide_ext. unfold str_or. case_bool_decide; [by subst|].
    destruct Hev; naive_solver. }
  rewrite Hs. intros Hwf'.
  assert (Hrun : exists c, (c =? 1) = negb (negb (revision y =? revision r) || (n <=? 0)
                              || (bytes y <=? n) || bool_decide (ev = "")) /\
    _RECONCILE_DOWN_LUA (owner_id r) (revision r) n ev now (at_start k) = (Ok c,
      if c =? 1
      then with_total (Z.max 0 (Memory.sum_bytes (Memory.reservations m1) - (bytes x - n)))
             (with_reservations (put (owner_id r)
                (cjson_encode (Memory.reconciled n ev now x)) (reservations_key k1)) k1)
      else k1)).
  { unfold _RECONCILE_DOWN_LUA. rewrite (st_bind_eq _ _ _ _ _ E). cbv beta.
    rewrite (st_bind_eq _ _ _ _ _ (hget_eq _ _ _ Ex)). cbv iota zeta.
    rewrite (claim_revision _ _ Hg), (claim_bytes _ _ Hg).
    destruct (revision y =? revision r), (n <=? 0), (bytes y <=? n), (bool_decide (ev = ""));
      first [by exists 1 | by exists (-1) | by exists (-2) | by exists (-3)]. }
  destruct Hrun as (c & Hcond & Hrun). erewrite (call_delivered _ _ _ k c) by exact Hrun.
  rewrite Hcond. revert Hwf'.
  destruct (negb (revision y =? revision r) || _ || _ || _) eqn:Eb; intros Hwf'; [done|].
  split_and!; try done. apply in_step_total. rewrite Hm in *.
  assert (Hsm' : small (Memory.reconciled n ev now y)).
  { bool_prop. destruct Hsm as (S1 & S2 & S3 & S4). unfold small, Memory.reconciled. simpl. lia. }
  refine (in_step_hset (owner_id r) _ y (Memory.reconciled n ev now y) k1 m1 Hi1 Ey eq_refl _ _ Hwf').
  - apply (claim_store (Memory.reconciled _ _ _)); [done | apply claim_reconciled | done].
  - done.
Qed.

Lemma in_step_remove o k m :
  in_step k m ->
  in_step (hdel_zrem o k)
    (Memory.mkStore (Memory.now_epoch m) (Memory.revision_counter m)
       (ddel o (Memory.reservations m)) (Memory.policy m)).
Proof.
  intros [Hr Hs]. split; [|by apply all_small_del].
  pose proof (hdel_zrem_ok o k (represents_owners _ _ Hr) (rp_deadlines _ _ Hr)) as [_ Hd].
  destruct Hr as [Q1 Q2 Q3 Q4 _ Q7]. split; try done; [..|by apply Memory.wf_ddel];
    intros x; simpl; rewrite lookup_delete, dget_ddel;
    case_bool_decide; destruct (decide _); try done; congruence.
Qed.

Lemma release_simulates now r k m :
  in_step k m -> Z.abs (now - server_now k) <= CLOCK_SKEW ->
  let '(b, k') := release true Delivered now r k in
  let '(b', m') := Memory.release r (at_clock now m) in
  b = b' /\ in_step k' m' /\ server_now k' = server_now k /\
  Memory.revision_counter m' = Memory.revision_counter m.
Proof.
  intros Hi Hskew. unfold release, Memory.release. simpl negb. cbv iota zeta.
  destruct (enter (owner_id r) now k m Hi Hskew)
    as (k1 & m1 & <- & E & Hi1 & Hn & Ha & Hm & Hc & [Ex Ey|x y Ex Ey Hg Hsm]); rewrite Ey.
  { erewrite (call_delivered _ _ _ k 0); [done|].
    unfold _RELEASE_LUA. run_script E. by run_hget Ex. }
  destruct (revision y =? revision r) eqn:Erev.
  2: { erewrite (call_delivered _ _ _ k 0); [done|]. unfold _RELEASE_LUA. run_script E.
       run_hget Ex. by rewrite (claim_revision _ _ Hg), Erev. }
  erewrite (call_delivered _ _ _ k 1).
  2: { unfold _RELEASE_LUA. run_script E. run_hget Ex.
       rewrite (claim_revision _ _ Hg), Erev. reflexivity. }
  split_and!; try done. apply in_step_total. by apply in_step_remove.
Qed.

(** ** Acquisition *)

(** A handle and the store's: the same claim, the reconciliation record left
    out, the expiry to a ten thousandth of a second. *)
Definition close_handle (h h' : NodeBudgetReservation) : Prop :=
  claim h = claim (handle h') /\
  (secs (2 ^ 30) <= expires_at_epoch h' < secs (2 ^ 31) ->
   Z.abs (expires_at_epoch h - expires_at_epoch h') * 10 ^ 4 <= secs 1).

Definition same_acquire (a b : NodeBudgetAcquireResult) : Prop :=
  allow a = allow b /\ reason a = reason b /\ reserved_bytes a = reserved_bytes b /\
  request_bytes_of a = request_bytes_of b /\ result_policy a = result_policy b /\
  option_Forall2 close_handle (reservation a) (reservation b).

Lemma close_encode r r' :
  claim r = claim r' -> expires_at_epoch r = expires_at_epoch r' -> small r' ->
  close_handle (handle (cjson_encode r)) r'.
Proof.
  intros Hc He Hs. split.
  - assert (E : claim (cjson_encode r) = claim r')
      by (rewrite claim_encode; eauto using claim_small).
    revert E. unfold claim, handle. simpl. intros [=]. congruence.
  - simpl. rewrite He. apply cjson_epoch_close.
Qed.

(** What the script answers, as the adapter reads it. *)
Definition read_reply (n : Z) (p : NodeBudgetPolicy) (r : acquire_reply) : NodeBudgetAcquireResult :=
  let '(code, reserved, _, raw) := r in
  if negb (code =? 1)
  then denied (if code =? -2 then "node_budget_owner_conflict" else "node_budget_exhausted")
         reserved n p
  else mkAcquire true None (handle <$> raw) reserved n p.

Lemma acquire_delivered now o n p fp ttl k code reserved v raw k' :
  _ACQUIRE_LUA o n (allocatable_bytes p) now (expires_in now ttl) (fingerprint p) fp
    (key_ttl_of ttl) (mode p) p (at_start k) = (Ok (code, reserved, v, raw), k') ->
  (code = 1 -> is_Some raw) ->
  acquire true Delivered now o n p fp ttl k = (Ok (read_reply n p (code, reserved, v, raw)), k').
Proof.
  intros E Hraw. unfold acquire. simpl negb. cbv iota. rewrite eval_delivered, E. unfold read_reply.
  destruct (code =? 1) eqn:Ec; simpl; [|done]. bool_prop. destruct (Hraw Ec) as [r ->]. done.
Qed.

Lemma set_policy_eq p k : set_policy p k = (Ok tt, with_policy p k).
Proof. done. Qed.

Lemma in_step_policy p k m : in_step k m -> in_step (with_policy p k) (Memory.with_policy p m).
Proof. intros [Hr Hs]. split; [by apply represents_policy | done]. Qed.

Lemma in_step_revision rev k m :
  in_step k m -> Memory.revision_counter m <= rev ->
  in_step (with_revision rev k)
    (Memory.mkStore (Memory.now_epoch m) rev (Memory.reservations m) (Memory.policy m)).
Proof.
  intros [[Q1 Q2 Q3 Q4 [Q5 Q6] [W1 W2 W3 W4]] Hs] Hle. split; [|done].
  split; try done. split; simpl; try done; [lia|].
  intros o r Hr. destruct (W3 _ _ Hr) as (? & ? & ?). split_and!; try done; lia.
Qed.

Definition acquire_small (n : Z) (p : NodeBudgetPolicy) (m : Memory.store) : Prop :=
  n < 10 ^ 14 /\ allocatable_bytes p < 10 ^ 14 /\ Memory.revision_counter m + 1 < 10 ^ 14.

(** The refusal of a new reservation: the extra test of the script is implied. *)
Lemma exhausted_eq n alloc total :
  0 <= total ->
  (n <=? 0) || (alloc <=? 0) || (alloc <? total + n) = (n <=? 0) || (alloc <? total + n).
Proof. intros Ht. destruct (n <=? 0) eqn:E1, (alloc <=? 0) eqn:E2, (alloc <? total + n) eqn:E3;
  try done; bool_prop; lia. Qed.

(** The script from the end of its prologue, by what it finds. *)
Lemma acquire_found now o n p fp ttl k k1 total top x :
  reconcile_active_reservations now (at_start k) = (Ok (total, top), k1) ->
  members (reservations_key k1) !! o = Some x ->
  let k2 := with_policy p k1 in
  let x' := cjson_encode (Memory.with_expiry (expires_in now ttl) x) in
  _ACQUIRE_LUA o n (allocatable_bytes p) now (expires_in now ttl) (fingerprint p) fp
    (key_ttl_of ttl) (mode p) p (at_start k)
  = if (bytes x =? n) && bool_decide (policy_fingerprint x = fingerprint p)
       && bool_decide (resource_profile_fingerprint_of x = fp)
    then (Ok (1, total, revision x', Some x'),
          store_entry o x' (expires_in now ttl) (key_ttl_of ttl) k2)
    else (Ok (-2, total, revision x, Some x), k2).
Proof.
  intros E Ex k2 x'. unfold _ACQUIRE_LUA. run_script E.
  rewrite (st_bind_eq _ _ _ _ _ (set_policy_eq p k1)).
  rewrite (st_bind_eq _ _ _ _ _ (hget_eq o (with_policy p k1) _ Ex)). cbv iota.
  by destruct (_ && _ && _).
Qed.

Lemma acquire_missing now o n p fp ttl k k1 total top :
  reconcile_active_reservations now (at_start k) = (Ok (total, top), k1) ->
  members (reservations_key k1) !! o = None ->
  let k2 := with_policy p k1 in
  let rev := default 0 (revision_key k1) + 1 in
  let r := cjson_encode (mkReservation o n rev (expires_in now ttl) (fingerprint p) fp
                           (allocatable_bytes p) (mode p) None None None) in
  _ACQUIRE_LUA o n (allocatable_bytes p) now (expires_in now ttl) (fingerprint p) fp
    (key_ttl_of ttl) (mode p) p (at_start k)
  = if (n <=? 0) || (allocatable_bytes p <=? 0) || (allocatable_bytes p <? total + n)
    then (Ok (0, total, 0, None), k2)
    else (Ok (1, total + n, rev, Some r),
          with_total (total + n)
            (store_entry o r (expires_in now ttl) (key_ttl_of ttl) (with_revision rev k2))).
Proof.
  intros E Ex k2 rev r. unfold _ACQUIRE_LUA. run_script E.
  rewrite (st_bind_eq _ _ _ _ _ (set_policy_eq p k1)).
  rewrite (st_bind_eq _ _ _ _ _ (hget_eq o (with_policy p k1) _ Ex)). cbv iota. simpl fst.
  by destruct (_ || _ || _).
Qed.

Lemma acquire_simulates now o n p fp ttl k m :
  in_step k m -> Z.abs (now - server_now k) <= CLOCK_SKEW -> acquire_small n p m ->
  let '(a, k') := acquire true Delivered now o n p fp ttl k in
  let '(b, m') := Memory.acquire o n p fp ttl (at_clock now m) in
  (exists a', a = Ok a' /\ same_acquire a' b) /\ in_step k' m' /\ server_now k' = server_now k /\
  Memory.revision_counter m' <= Memory.revision_counter m + 1.
Proof.
  intros Hi Hskew (Hn & Hp & Hv).
  pose proof (Memory.wf_acquire o n p fp ttl _ (wf_clocked now _ _ Hi)) as Hwf'. revert Hwf'.
  unfold Memory.acquire. cbv zeta.
  destruct (enter o now k m Hi Hskew)
    as (k1 & m1 & <- & E & Hi1 & Hs1 & Ha & Hm & Hc & [Ex Ey|x y Ex Ey Hg Hsm]).
  all: apply (in_step_policy p) in Hi1;
    change (Memory.reservations (Memory.with_policy p m1)) with (Memory.reservations m1);
    change (Memory.revision_counter (Memory.with_policy p m1)) with (Memory.revision_counter m1);
    rewrite Ey, (expiry_eq (Memory.with_policy p m1) now) by exact Hm.
  - pose proof (acquire_missing now o n p fp ttl k k1 _ _ E Ex) as R. cbv zeta in R.
    assert (Htot : 0 <= Memory.sum_bytes (Memory.reservations m1))
      by (apply Memory.sum_nonneg, (Memory.wf_all_positive (Memory.with_policy p m1)), Hi1).
    rewrite exhausted_eq in R by exact Htot.
    pose proof (rp_revision _ _ (is_represents _ _ Hi1)) as Hrev. simpl in Hrev.
    rewrite Hrev in R. destruct ((n <=? 0) || _) eqn:Eb; intros Hwf';
      rewrite (acquire_delivered _ _ _ _ _ _ _ _ _ _ _ _ R) by done.
    + split_and!; try done; [|simpl; lia]. eexists. split; [done|]. split_and!; try done. constructor.
    + bool_prop. pose proof (Memory.wf_counter _ (rp_wf _ _ (is_represents _ _ Hi1))) as Hpos.
      simpl in Hpos.
      set (v := mkReservation o n (Memory.revision_counter m1 + 1) (expires_in now ttl)
                  (fingerprint p) fp (allocatable_bytes p) (mode p) None None None) in *.
      assert (Hsv : small v) by (split_and!; simpl; try done; lia).
      split_and!; [..|exact Hs1|simpl; lia].
      * eexists. split; [done|]. split_and!; try done. constructor. by apply close_encode.
      * apply in_step_total.
        refine (in_step_store o _ v (key_ttl_of ttl) (Memory.revision_counter m1 + 1) _ _
          (in_step_revision (Memory.revision_counter m1 + 1) _ _ Hi1 ltac:(simpl; lia))
          Ha (claim_encode v Hsv) Hsv _ eq_refl Hwf').
        simpl. rewrite Hs1. by apply key_ttl_covers.
  - pose proof (acquire_found now o n p fp ttl k k1 _ _ x E Ex) as R. cbv zeta in R.
    assert (Hcond : (negb (bytes y =? n) || negb (bool_decide (policy_fingerprint y = fingerprint p))
      || negb (bool_decide (resource_profile_fingerprint_of y = fp)))
      = negb ((bytes x =? n) && bool_decide (policy_fingerprint x = fingerprint p)
              && bool_decide (resource_profile_fingerprint_of x = fp))).
    { rewrite <- !negb_andb, (claim_bytes _ _ Hg).
      rewrite (f_equal policy_fingerprint Hg : policy_fingerprint x = policy_fingerprint y).
      by rewrite (f_equal resource_profile_fingerprint_of Hg
                  : resource_profile_fingerprint_of x = resource_profile_fingerprint_of y). }
    rewrite Hcond. destruct (_ && _) eqn:Eb; simpl negb; cbv iota; intros Hwf';
      rewrite (acquire_delivered _ _ _ _ _ _ _ _ _ _ _ _ R) by done.
    + set (e := expires_in now ttl) in *.
      assert (Hce : claim (Memory.with_expiry e x) = claim (Memory.with_expiry e y))
        by by apply claim_with_expiry.
      split_and!; [..|exact Hs1|simpl; lia].
      * eexists. split; [done|]. split_and!; try done. constructor. by apply close_encode.
      * refine (in_step_store o _ (Memory.with_expiry e y) (key_ttl_of ttl) _ _ _ Hi1
          Ha _ Hsm _ (rp_revision _ _ (is_represents _ _ Hi1)) Hwf').
        -- by apply (claim_store (Memory.with_expiry e)).
        -- simpl. rewrite Hs1. by apply key_ttl_covers.
    + split_and!; try done; [|simpl; lia]. eexists. split; [done|].
      split_and!; try done. constructor.
Qed.

(** ** Snapshots *)

(** Everything but the list of reservations, which comes in another order. *)
Definition same_snapshot (a b : pyval) : Prop :=
  match a, b with
  | PDict d, PDict d' => ddel "reservations" d = ddel "reservations" d'
  | _, _ => False
  end.

Lemma snapshot_simulates now k m :
  in_step k m -> Z.abs (now - server_now k) <= CLOCK_SKEW ->
  let '(a, k') := snapshot true Delivered now k in
  let '(b, m') := Memory.snapshot (at_clock now m) in
  same_snapshot a b /\ in_step k' m' /\ server_now k' = server_now k /\
  Memory.revision_counter m' = Memory.revision_counter m.
Proof.
  intros Hi Hskew. destruct (enter "" now k m Hi Hskew)
    as (k1 & m1 & E1 & E & Hi1 & Hn & Ha & Hm & Hc & _).
  unfold snapshot, Memory.snapshot. simpl negb. cbv iota zeta. rewrite <- E1.
  assert (R : _SNAPSHOT_LUA now (at_start k)
    = (Ok (Memory.sum_bytes (Memory.reservations m1), default 0 (revision_key k1),
           policy_key k1, (map_to_list (members (reservations_key k1))).*2), k1))
    by (unfold _SNAPSHOT_LUA; by rewrite (st_bind_eq _ _ _ _ _ E)).
  rewrite eval_delivered, R. split_and!; try done.
  destruct Hi1 as [Hr Hs]. unfold same_snapshot. simpl.
  rewrite (rp_revision _ _ Hr), (rp_policy _ _ Hr), length_fmap.
  rewrite (entries_length_store _ _ (Memory.wf_keys _ (rp_wf _ _ Hr)) (rp_hash _ _ Hr)).
  unfold dvalues. by rewrite !length_map.
Qed.

(** * Refinement *)

(** Calls of the store by runners whose clocks run [skew] ahead of the server's. *)
Inductive budget_call : Type :=
| CAcquire (skew : Z) (owner : string) (request : Z) (p : NodeBudgetPolicy) (fp : string) (ttl : Z)
| CRenew (skew : Z) (r : NodeBudgetReservation) (ttl : Z)
| CReconcile (skew : Z) (r : NodeBudgetReservation) (request : Z) (evidence : string)
| CRelease (skew : Z) (r : NodeBudgetReservation)
| CSnapshot (skew : Z)
| CElapse (t : Z).

Inductive answer : Type :=
| AAcquire (r : res NodeBudgetAcquireResult)
| ABool (b : bool)
| ASnapshot (v : pyval)
| ANone.

Definition redis_call (f : fault) (c : budget_call) (k : budget_keys) : answer * budget_keys :=
  let now skew := server_now k + skew in
  match c with
  | CAcquire skew o n p fp ttl =>
      let '(a, k') := acquire true f (now skew) o n p fp ttl k in (AAcquire a, k')
  | CRenew skew r ttl => let '(b, k') := renew true f (now skew) r ttl k in (ABool b, k')
  | CReconcile skew r n ev =>
      let '(b, k') := reconcile_down true f (now skew) r n ev k in (ABool b, k')
  | CRelease skew r => let '(b, k') := release true f (now skew) r k in (ABool b, k')
  | CSnapshot skew => let '(v, k') := snapshot true f (now skew) k in (ASnapshot v, k')
  | CElapse t => (ANone, mkKeys (server_now k + t) (reservations_key k) (expiries_key k)
                           (total_key k) (revision_key k) (policy_key k))
  end.

(** The same calls on the in-memory store, whose clock is set by each call. *)
Definition memory_call (c : budget_call) (tm : Z * Memory.store) : answer * (Z * Memory.store) :=
  let '(t, m) := tm in
  match c with
  | CAcquire skew o n p fp ttl =>
      let '(a, m') := Memory.acquire o n p fp ttl (at_clock (t + skew) m) in
      (AAcquire (Ok a), (t, m'))
  | CRenew skew r ttl =>
      let '(b, m') := Memory.renew r ttl (at_clock (t + skew) m) in (ABool b, (t, m'))
  | CReconcile skew r n ev =>
      let '(b, m') := Memory.reconcile_down r n ev (at_clock (t + skew) m) in (ABool b, (t, m'))
  | CRelease skew r =>
      let '(b, m') := Memory.release r (at_clock (t + skew) m) in (ABool b, (t, m'))
  | CSnapshot skew =>
      let '(v, m') := Memory.snapshot (at_clock (t + skew) m) in (ASnapshot v, (t, m'))
  | CElapse n => (ANone, (t + n, m))
  end.

Fixpoint run_calls {S} (step : budget_call -> S -> answer * S) (cs : list budget_call) (s : S)
    : list answer * S :=
  match cs with
  | [] => ([], s)
  | c :: rest => let '(a, s1) := step c s in
                 let '(l, s2) := run_calls step rest s1 in (a :: l, s2)
  end.

Definition same_answer (a b : answer) : Prop :=
  match a, b with
  | AAcquire (Ok r), AAcquire (Ok r') => same_acquire r r'
  | ABool x, ABool y => x = y
  | ASnapshot v, ASnapshot w => same_snapshot v w
  | ANone, ANone => True
  | _, _ => False
  end.

(** Clocks within the skew, amounts of at most fourteen digits, and evidence
    that is not made of blanks. *)
Definition call_ok (c : budget_call) : Prop :=
  match c with
  | CAcquire skew _ n p _ _ =>
      Z.abs skew <= CLOCK_SKEW /\ n < 10 ^ 14 /\ allocatable_bytes p < 10 ^ 14
  | CReconcile skew _ _ ev => Z.abs skew <= CLOCK_SKEW /\ evidence_regular ev
  | CRenew skew _ _ | CRelease skew _ | CSnapshot skew => Z.abs skew <= CLOCK_SKEW
  | CElapse _ => True
  end.

Lemma call_simulates c k m :
  call_ok c -> in_step k m -> Memory.revision_counter m + 1 < 10 ^ 14 ->
  let '(a, k') := redis_call Delivered c k in
  let '(b, tm) := memory_call c (server_now k, m) in
  same_answer a b /\ in_step k' tm.2 /\ tm.1 = server_now k' /\
  Memory.revision_counter tm.2 <= Memory.revision_counter m + 1.
Proof.
  assert (Hskew : forall skew, Z.abs skew <= CLOCK_SKEW ->
    Z.abs (server_now k + skew - server_now k) <= CLOCK_SKEW) by (intros; lia).
  intros Hc Hi Hv. destruct c as [skew o n p fp ttl|skew r ttl|skew r n ev|skew r|skew|t];
    cbn [redis_call memory_call call_ok] in *.
  - destruct Hc as (Hs%Hskew & Hn & Hp).
    pose proof (acquire_simulates _ o n p fp ttl k m Hi Hs (conj Hn (conj Hp Hv))) as Hsim.
    destruct (acquire _ _ _ _ _ _ _ _ _) as [a k'], (Memory.acquire _ _ _ _ _ _) as [b m'].
    destruct Hsim as ((a' & -> & Ha) & Hi' & Hn' & Hr). by split_and!.
  - pose proof (renew_simulates _ r ttl k m Hi (Hskew _ Hc)) as Hsim.
    destruct (renew _ _ _ _ _ _), (Memory.renew _ _ _).
    destruct Hsim as (? & ? & ? & ?). split_and!; try done. simpl. lia.
  - destruct Hc as (Hs%Hskew & Hev).
    pose proof (reconcile_simulates _ r n ev k m Hi Hs Hev) as Hsim.
    destruct (reconcile_down _ _ _ _ _ _ _), (Memory.reconcile_down _ _ _ _).
    destruct Hsim as (? & ? & ? & ?). split_and!; try done. simpl. lia.
  - pose proof (release_simulates _ r k m Hi (Hskew _ Hc)) as Hsim.
    destruct (release _ _ _ _ _), (Memory.release _ _).
    destruct Hsim as (? & ? & ? & ?). split_and!; try done. simpl. lia.
  - pose proof (snapshot_simulates _ k m Hi (Hskew _ Hc)) as Hsim.
    destruct (snapshot _ _ _ _), (Memory.snapshot _).
    destruct Hsim as (? & ? & ? & ?). split_and!; try done. simpl. lia.
  - split_and!; try done; [|simpl; lia]. destruct Hi as [[Q1 Q2 Q3 Q4 [Q5 Q6] Q7] Hs].
    split; [|done]. by split.
Qed.

Lemma run_simulates cs k m :
  Forall call_ok cs -> in_step k m ->
  Memory.revision_counter m + Z.of_nat (length cs) < 10 ^ 14 ->
  let '(l, k') := run_calls (redis_call Delivered) cs k in
  let '(l', tm) := run_calls memory_call cs (server_now k, m) in
  Forall2 same_answer l l' /\ in_step k' tm.2 /\ tm.1 = server_now k'.
Proof.
  intros Hcs. revert k m. induction Hcs as [|c cs Hc Hcs IH]; intros k m Hi Hb.
  { simpl. split; [constructor | done]. }
  cbn [run_calls]. cbn [length] in Hb.
  pose proof (call_simulates c k m Hc Hi ltac:(lia)) as Hs.
  destruct (redis_call Delivered c k) as [a k1], (memory_call c (server_now k, m)) as [b [t1 m1]].
  destruct Hs as (Ha & Hi1 & Ht & Hr). simpl in Ht, Hr, Hi1. subst t1.
  specialize (IH k1 m1 Hi1 ltac:(lia)).
  destruct (run_calls (redis_call Delivered) cs k1) as [l k2], (run_calls memory_call cs _) as [l' tm].
  destruct IH as (Hl & Hi2 & Ht2). split_and!; try done. by constructor.
Qed.

Lemma in_step_empty now : in_step (empty_keys now) (Memory.init now).
Proof.
  split; [|by intros o r]. split; try done. apply Memory.wf_init.
Qed.


(** * Capacity, whatever the connection does *)

(** The keys after calls some of which never reached the server or whose reply
    was lost. *)
Definition run_faulty (cs : list (fault * budget_call)) (k : budget_keys) : budget_keys :=
  foldl (fun k fc => (redis_call fc.1 fc.2 k).2) k cs.

Definition reached (fc : fault * budget_call) : bool :=
  match fc with
  | (NotSent, CElapse _) => true
  | (NotSent, _) => false
  | _ => true
  end.

Lemma eval_state {A} f (script : stres budget_keys A) k :
  (eval f script k).2 = match f with NotSent => k | _ => (eval Delivered script k).2 end.
Proof.
  rewrite eval_delivered. unfold eval, mbind, stres_bind, round_trip, lift_res.
  by destruct f, (script (at_start k)).
Qed.

Lemma eval_bind_state {A B} f (script : stres budget_keys A) (g : A -> B) (d : B) k :
  (or_else d (a ← eval f script; mret (g a)) k).2 = (eval f script k).2.
Proof.
  rewrite or_else_state. unfold mbind, stres_bind. by destruct (eval f script k) as [[a|e] k'].
Qed.

Lemma acquire_state f now o n p fp ttl k :
  (acquire true f now o n p fp ttl k).2 =
  (eval f (_ACQUIRE_LUA o n (allocatable_bytes p) now (expires_in now ttl) (fingerprint p) fp
             (key_ttl_of ttl) (mode p) p) k).2.
Proof.
  unfold acquire. simpl negb. cbv iota.
  destruct (eval _ _ _) as [[[[[code reserved] v] [r|]]|e] k']; simpl;
    try destruct (code =? 1); done.
Qed.

Lemma snapshot_state f now k : (snapshot true f now k).2 = (eval f (_SNAPSHOT_LUA now) k).2.
Proof.
  unfold snapshot. simpl negb. cbv iota zeta.
  by destruct (eval _ _ _) as [[[[[t v] p] l]|e] k'].
Qed.

(** The state a call leaves is the state its script leaves. *)
Lemma redis_call_script c :
  (exists t, c = CElapse t) \/
  exists A (script : Z -> stres budget_keys A), forall f k,
    (redis_call f c k).2 = (eval f (script (server_now k)) k).2.
Proof.
  destruct c as [skew o n p fp ttl|skew r ttl|skew r n ev|skew r|skew|t]; [right..|left; by eexists];
    cbn [redis_call].
  - exists acquire_reply, (fun t => _ACQUIRE_LUA o n (allocatable_bytes p) (t + skew)
      (expires_in (t + skew) ttl) (fingerprint p) fp (key_ttl_of ttl) (mode p) p).
    intros f k. rewrite <- acquire_state. by destruct (acquire _ _ _ _ _ _ _ _ _).
  - exists Z, (fun t => _RENEW_LUA (owner_id r) (revision r) (expires_in (t + skew) ttl)
      (key_ttl_of ttl) (t + skew)).
    intros f k. rewrite <- (eval_bind_state f _ (fun n => negb (n =? 0)) false).
    by destruct (renew _ _ _ _ _ _) eqn:E; unfold renew in E; simpl negb in E; rewrite E.
  - exists Z, (fun t => _RECONCILE_DOWN_LUA (owner_id r) (revision r) n ev (t + skew)).
    intros f k. rewrite <- (eval_bind_state f _ (fun c => c =? 1) false).
    by destruct (reconcile_down _ _ _ _ _ _ _) eqn:E; unfold reconcile_down in E;
      simpl negb in E; rewrite E.
  - exists Z, (fun t => _RELEASE_LUA (owner_id r) (revision r) (t + skew)).
    intros f k. rewrite <- (eval_bind_state f _ (fun n => negb (n =? 0)) false).
    by destruct (release _ _ _ _ _) eqn:E; unfold release in E; simpl negb in E; rewrite E.
  - eexists _, (fun t => _SNAPSHOT_LUA (t + skew)). intros f k. rewrite <- snapshot_state.
    by destruct (snapshot _ _ _ _).
Qed.

Lemma redis_call_state f c k :
  (redis_call f c k).2 = if reached (f, c) then (redis_call Delivered c k).2 else k.
Proof.
  destruct (redis_call_script c) as [[t ->]|(A & script & E)]; [by destruct f|].
  destruct f; [by destruct c|..|by rewrite !E, eval_state].
  destruct c; [..|done]; by rewrite E, eval_state.
Qed.

Lemma run_faulty_reached cs k :
  run_faulty cs k =
  (run_calls (redis_call Delivered) (List.filter reached cs).*2 k).2.
Proof.
  revert k. induction cs as [|[f c] cs IH]; intros k; [done|].
  change (run_faulty ((f, c) :: cs) k) with (run_faulty cs (redis_call f c k).2).
  rewrite redis_call_state, IH. cbn [List.filter]. destruct (reached (f, c)); [|done].
  simpl. destruct (redis_call Delivered c k) as [a k1]. simpl.
  by destruct (run_calls _ _ k1).
Qed.

(** Every acquisition is made under the node's policy. *)
Definition under_policy (p : NodeBudgetPolicy) (c : budget_call) : Prop :=
  match c with CAcquire _ _ _ q _ _ => q = p | _ => True end.

Lemma within_call p c t m :
  under_policy p c -> Memory.wf m -> Memory.within p m ->
  Memory.wf (memory_call c (t, m)).2.2 /\ Memory.within p (memory_call c (t, m)).2.2.
Proof.
  intros Hp Hwf Hin.
  assert (Hop : forall now o, Memory.wf (Memory.run_op p o (at_clock now m)) /\
                              Memory.within p (Memory.run_op p o (at_clock now m))).
  { intros now o. pose proof (wf_at_clock now m Hwf). split; [by apply Memory.wf_run_op|].
    by apply Memory.within_run_op. }
  destruct c as [skew o n q fp ttl|skew r ttl|skew r n ev|skew r|skew|n]; cbn [memory_call].
  - simpl in Hp. subst q. pose proof (Hop (t + skew) (Memory.OAcquire o n fp ttl)) as H1.
    simpl in H1. by destruct (Memory.acquire _ _ _ _ _ _).
  - pose proof (Hop (t + skew) (Memory.ORenew r ttl)) as H1. simpl in H1.
    by destruct (Memory.renew _ _ _).
  - pose proof (Hop (t + skew) (Memory.OReconcile r n ev)) as H1. simpl in H1.
    by destruct (Memory.reconcile_down _ _ _ _).
  - pose proof (Hop (t + skew) (Memory.ORelease r)) as H1. simpl in H1.
    by destruct (Memory.release _ _).
  - pose proof (wf_at_clock (t + skew) m Hwf) as Hwf'. simpl.
    split; [by apply Memory.wf_purge|]. by apply Memory.within_purge.
  - done.
Qed.

Lemma within_calls p cs t m :
  Forall (under_policy p) cs -> Memory.wf m -> Memory.within p m ->
  let m' := (run_calls memory_call cs (t, m)).2.2 in Memory.wf m' /\ Memory.within p m'.
Proof.
  intros Hcs. revert t m. induction Hcs as [|c cs Hc Hcs IH]; intros t m Hwf Hin; [done|].
  destruct (within_call p c t m Hc Hwf Hin) as [Hwf1 Hin1]. cbn [run_calls].
  destruct (memory_call c (t, m)) as [a [t1 m1]]. specialize (IH t1 m1 Hwf1 Hin1). simpl in IH |- *.
  destruct (run_calls memory_call cs (t1, m1)) as [l tm]. exact IH.
Qed.

(** C22: the node's memory is never promised twice: whatever calls runners make
    on Redis under one policy, with clocks up to 20 seconds apart, and whichever
    requests or replies the connection loses, the reservations in the hash add
    up to at most the allocatable bytes. *)
Theorem redis_budget_capacity p cs now :
  0 <= allocatable_bytes p ->
  Forall (fun fc => call_ok fc.2 /\ under_policy p fc.2) cs ->
  Z.of_nat (length cs) < 10 ^ 14 ->
  0 <= entries_sum (map_to_list (members (reservations_key (run_faulty cs (empty_keys now)))))
    <= allocatable_bytes p.
Proof.
  intros Hp Hcs Hlen. rewrite run_faulty_reached. set (ds := (List.filter reached cs).*2).
  assert (Hds : Forall (fun c => call_ok c /\ under_policy p c) ds).
  { apply Forall_forall. intros c ([f c'] & -> & Hin)%list_elem_of_fmap.
    rewrite Forall_forall in Hcs. apply (Hcs (f, c')).
    apply list_elem_of_In, List.filter_In, proj1, list_elem_of_In in Hin. exact Hin. }
  assert (Hl : (length ds <= length cs)%nat)
    by (unfold ds; rewrite length_fmap; apply List.filter_length_le).
  pose proof (run_simulates ds (empty_keys now) (Memory.init now)
    (Forall_impl _ _ _ Hds (fun _ => @proj1 _ _)) (in_step_empty now)) as Hs.
  destruct (within_calls p ds now (Memory.init now)) as [Hwf Hin];
    [by eapply Forall_impl; [exact Hds | intros ? [_ ?]] | apply Memory.wf_init | done |].
  simpl server_now in Hs.
  destruct (run_calls (redis_call Delivered) ds _) as [l k], (run_calls memory_call ds _) as [l' [t m]].
  destruct Hs as (_ & [Hr _] & _); [change (0 + Z.of_nat (length ds) < 10 ^ 14); lia|].
  simpl in *. rewrite (entries_sum_store _ _ (Memory.wf_keys _ Hwf) (rp_hash _ _ Hr)).
  split; [apply Memory.sum_nonneg, Memory.wf_all_positive, Hwf | exact Hin].
Qed.

End simulation.

(** * A run *)
Module Sample.
#[local] Existing Instance lua_cjson.

Definition p1 : NodeBudgetPolicy := mkPolicy "calibrated" 100 0 0 0 100 "fp".
Definition t0 : Z := secs 1700000000 + 12345.
Definition handle_a : NodeBudgetReservation :=
  mkReservation "a" 60 1 (t0 + secs 30) "fp" "x" 100 "calibrated" None None None.
Definition calls : list budget_call :=
  [CAcquire (secs 3) "a" 60 p1 "x" 30; CAcquire (- secs 2) "b" 50 p1 "x" 30;
   CReconcile 0 handle_a 40 "measured"; CAcquire 0 "b" 50 p1 "x" 30;
   CRenew 0 handle_a 60; CElapse (secs 40); CSnapshot 0; CRelease 0 handle_a].


(** What the calls answer: granted, refused, reconciled, granted, renewed; then
    the second reservation has expired, and the first is released. *)
Example calls_answers :
  map (fun a => match a with
                | AAcquire (Ok r) => allow r
                | ABool b => b
                | ASnapshot (PDict d) => py_eq (pget "reserved_bytes" d) (PInt 40)
                | _ => true
                end) (run_calls (redis_call Delivered) calls (empty_keys t0)).1
  = [true; false; true; true; true; true; true; true].
Proof. by vm_compute. Qed.


(** The first grant's reply is lost: the runner is refused, the bytes stay
    reserved until the reservation expires or its owner asks again. *)
Definition faulty : list (fault * budget_call) :=
  [(ReplyLost, CAcquire 0 "a" 60 p1 "x" 30); (NotSent, CRelease 0 handle_a);
   (Delivered, CAcquire 0 "b" 50 p1 "x" 30); (Delivered, CAcquire 0 "a" 60 p1 "x" 30)].

Example lost_grant_holds :
  map allow (omap (fun a => match a with AAcquire (Ok r) => Some r | _ => None end)
    [(redis_call ReplyLost (CAcquire 0 "a" 60 p1 "x" 30) (empty_keys t0)).1]) = [false] /\
  entries_sum (map_to_list (members (reservations_key (run_faulty faulty (empty_keys t0))))) = 60.
Proof. split; by vm_compute. Qed.

Theorem redis_budget_capacity_witness :
  0 <= entries_sum (map_to_list (members (reservations_key (run_faulty faulty (empty_keys t0)))))
    <= 100.
Proof.
  apply (redis_budget_capacity p1 faulty t0 ltac:(simpl; lia)).
  - unfold faulty. repeat apply Forall_cons_2; try apply Forall_nil_2; simpl;
      unfold CLOCK_SKEW, secs, TICKS_PER_SECOND; split_and?; done || lia.
  - simpl. lia.
Defined.

(** The handle's expiry carries four decimals, the sorted set the full clock. *)
Example expiry_rounded :
  cjson_epoch (expires_in t0 30) = t0 + secs 30 - 182 /\
  Z.abs (cjson_epoch (expires_in t0 30) - expires_in t0 30) * 10 ^ 4 <= secs 1.
Proof. split; by vm_compute. Qed.
End Sample.
