(* ===== verification/TaskTable.v ===== *)
(** The task table (services/stores/tasks_store/) with the run, attempt, event
    and outbox tables its writers keep (run_attempts_store.py,
    task_events_store.py) and the playbook executions they follow.  A row's
    UPDATE is a list of column assignments; every writer is one transaction on
    the tables, rolled back when it raises. *)
From S2P Require Import Prelude PyDict PyStr PyVal PyJson PyTime PayloadBudget.

(** * The tables *)

(** A row of [tasks].  JSON columns hold the value written, [PNone] for NULL;
    a [datetime] is its microseconds.  The columns no statement below reads or
    writes (message, meeting, notification and display times, parent execution)
    are left out. *)
Record task_row : Type := mkTask {
  t_id : string;
  t_workspace_id : string;
  t_execution_id : option string;
  t_pack_id : string;
  t_task_type : string;
  t_created_at : Z;
  t_project_id : option string;
  t_status : string;
  t_params : pyval;
  t_result : pyval;
  t_execution_context : pyval;
  t_storyline_tags : pyval;
  t_blocked_payload : pyval;
  t_started_at : option Z;
  t_completed_at : option Z;
  t_next_eligible_at : option Z;
  t_frontier_enqueued_at : option Z;
  t_heartbeat_at : option Z;
  t_error : option string;
  t_blocked_reason : option string;
  t_queue_shard : option string;
  t_concurrency_key : option string;
  t_frontier_state : option string;
  t_runner_id : option string;
}.

(** One column of a SET list; keyword arguments of [update_task] have the same form. *)
Inductive assignment : Type :=
| ProjectId (v : option string)
| Status (v : string)
| Params (v : pyval)
| Result (v : pyval)
| ExecutionContext (v : pyval)
| StorylineTags (v : pyval)
| BlockedPayload (v : pyval)
| StartedAt (v : option Z)
| CompletedAt (v : option Z)
| NextEligibleAt (v : option Z)
| FrontierEnqueuedAt (v : option Z)
| HeartbeatAt (v : option Z)
| Error (v : option string)
| BlockedReason (v : option string)
| QueueShard (v : option string)
| ConcurrencyKey (v : option string)
| FrontierState (v : option string)
| RunnerId (v : option string).

Definition column (a : assignment) : string :=
  match a with
  | ProjectId _ => "project_id"
  | Status _ => "status"
  | Params _ => "params"
  | Result _ => "result"
  | ExecutionContext _ => "execution_context"
  | StorylineTags _ => "storyline_tags"
  | BlockedPayload _ => "blocked_payload"
  | StartedAt _ => "started_at"
  | CompletedAt _ => "completed_at"
  | NextEligibleAt _ => "next_eligible_at"
  | FrontierEnqueuedAt _ => "frontier_enqueued_at"
  | HeartbeatAt _ => "heartbeat_at"
  | Error _ => "error"
  | BlockedReason _ => "blocked_reason"
  | QueueShard _ => "queue_shard"
  | ConcurrencyKey _ => "concurrency_key"
  | FrontierState _ => "frontier_state"
  | RunnerId _ => "runner_id"
  end.

Definition set_column (r : task_row) (a : assignment) : task_row :=
  match r with
  | mkTask i w x p ty c v0 v1 v2 v3 v4 v5 v6 v7 v8 v9 v10 v11 v12 v13 v14 v15 v16 v17 =>
      match a with
      | ProjectId v => mkTask i w x p ty c v v1 v2 v3 v4 v5 v6 v7 v8 v9 v10 v11 v12 v13 v14 v15 v16 v17
      | Status v => mkTask i w x p ty c v0 v v2 v3 v4 v5 v6 v7 v8 v9 v10 v11 v12 v13 v14 v15 v16 v17
      | Params v => mkTask i w x p ty c v0 v1 v v3 v4 v5 v6 v7 v8 v9 v10 v11 v12 v13 v14 v15 v16 v17
      | Result v => mkTask i w x p ty c v0 v1 v2 v v4 v5 v6 v7 v8 v9 v10 v11 v12 v13 v14 v15 v16 v17
      | ExecutionContext v => mkTask i w x p ty c v0 v1 v2 v3 v v5 v6 v7 v8 v9 v10 v11 v12 v13 v14 v15 v16 v17
      | StorylineTags v => mkTask i w x p ty c v0 v1 v2 v3 v4 v v6 v7 v8 v9 v10 v11 v12 v13 v14 v15 v16 v17
      | BlockedPayload v => mkTask i w x p ty c v0 v1 v2 v3 v4 v5 v v7 v8 v9 v10 v11 v12 v13 v14 v15 v16 v17
      | StartedAt v => mkTask i w x p ty c v0 v1 v2 v3 v4 v5 v6 v v8 v9 v10 v11 v12 v13 v14 v15 v16 v17
      | CompletedAt v => mkTask i w x p ty c v0 v1 v2 v3 v4 v5 v6 v7 v v9 v10 v11 v12 v13 v14 v15 v16 v17
      | NextEligibleAt v => mkTask i w x p ty c v0 v1 v2 v3 v4 v5 v6 v7 v8 v v10 v11 v12 v13 v14 v15 v16 v17
      | FrontierEnqueuedAt v => mkTask i w x p ty c v0 v1 v2 v3 v4 v5 v6 v7 v8 v9 v v11 v12 v13 v14 v15 v16 v17
      | HeartbeatAt v => mkTask i w x p ty c v0 v1 v2 v3 v4 v5 v6 v7 v8 v9 v10 v v12 v13 v14 v15 v16 v17
      | Error v => mkTask i w x p ty c v0 v1 v2 v3 v4 v5 v6 v7 v8 v9 v10 v11 v v13 v14 v15 v16 v17
      | BlockedReason v => mkTask i w x p ty c v0 v1 v2 v3 v4 v5 v6 v7 v8 v9 v10 v11 v12 v v14 v15 v16 v17
      | QueueShard v => mkTask i w x p ty c v0 v1 v2 v3 v4 v5 v6 v7 v8 v9 v10 v11 v12 v13 v v15 v16 v17
      | ConcurrencyKey v => mkTask i w x p ty c v0 v1 v2 v3 v4 v5 v6 v7 v8 v9 v10 v11 v12 v13 v14 v v16 v17
      | FrontierState v => mkTask i w x p ty c v0 v1 v2 v3 v4 v5 v6 v7 v8 v9 v10 v11 v12 v13 v14 v15 v v17
      | RunnerId v => mkTask i w x p ty c v0 v1 v2 v3 v4 v5 v6 v7 v8 v9 v10 v11 v12 v13 v14 v15 v16 v
      end
  end.

Definition set_columns (set : list assignment) (r : task_row) : task_row := foldl set_column r set.

Inductive TaskStatus : Type :=
| PENDING | RUNNING | SUCCEEDED | FAILED | CANCELLED_BY_USER | EXPIRED.
#[export] Instance TaskStatus_eq_dec : EqDecision TaskStatus.
Proof. solve_decision. Defined.

Definition value (s : TaskStatus) : string :=
  match s with
  | PENDING => "pending" | RUNNING => "running" | SUCCEEDED => "succeeded"
  | FAILED => "failed" | CANCELLED_BY_USER => "cancelled_by_user" | EXPIRED => "expired"
  end.

Definition all_statuses : list TaskStatus :=
  [PENDING; RUNNING; SUCCEEDED; FAILED; CANCELLED_BY_USER; EXPIRED].

Record run_row : Type := mkRun {
  run_execution_id : string;
  run_workspace_id : string;
  run_task_id : option string;
  run_pack_id : option string;
  run_status : string;
  run_started_at : option Z;
  run_completed_at : option Z;
}.

Record attempt_row : Type := mkAttempt {
  at_attempt_id : string;
  at_run_id : string;
  at_task_id : string;
  at_runner_id : option string;
  at_attempt_no : Z;
  at_status : string;
  at_started_at : option Z;
  at_completed_at : option Z;
  at_duration_ms : option Z;
  at_error_summary : option string;
  at_idempotency_key : string;
}.

Record event_row : Type := mkEvent {
  ev_event_id : string;
  ev_task_id : string;
  ev_run_id : option string;
  ev_attempt_id : option string;
  ev_workspace_id : string;
  ev_event_type : string;
  ev_from_status : option string;
  ev_to_status : option string;
  ev_summary : option string;
  ev_payload : pyval;
  ev_idempotency_key : string;
  ev_occurred_at : Z;
}.

Record outbox_row : Type := mkOutbox {
  ob_outbox_id : string;
  ob_aggregate_id : string;
  ob_event_type : string;
  ob_payload : pyval;
  ob_available_at : Z;
  ob_idempotency_key : string;
}.

(** Attempts, events and outbox records are kept in the order of insertion;
    [executions] is the status column of [playbook_executions]. *)
Record db : Type := mkDb {
  tasks : gmap string task_row;
  executions : gmap string string;
  runs : gmap string run_row;
  attempts : list attempt_row;
  task_events : list event_row;
  outbox_events : list outbox_row;
}.

Definition with_tasks (f : gmap string task_row -> gmap string task_row) (d : db) : db :=
  mkDb (f (tasks d)) (executions d) (runs d) (attempts d) (task_events d) (outbox_events d).
Definition with_executions (f : gmap string string -> gmap string string) (d : db) : db :=
  mkDb (tasks d) (f (executions d)) (runs d) (attempts d) (task_events d) (outbox_events d).
Definition with_runs (f : gmap string run_row -> gmap string run_row) (d : db) : db :=
  mkDb (tasks d) (executions d) (f (runs d)) (attempts d) (task_events d) (outbox_events d).
Definition with_attempts (l : list attempt_row) (d : db) : db :=
  mkDb (tasks d) (executions d) (runs d) l (task_events d) (outbox_events d).
Definition with_events (l : list event_row) (d : db) : db :=
  mkDb (tasks d) (executions d) (runs d) (attempts d) l (outbox_events d).
Definition with_outbox (l : list outbox_row) (d : db) : db :=
  mkDb (tasks d) (executions d) (runs d) (attempts d) (task_events d) l.

Definition IntegrityError : exn := OtherError "IntegrityError" "idx_tasks_running_concurrency_key_unique".
Definition StoreNotFoundError (msg : string) : exn := OtherError "StoreNotFoundError" msg.

Definition rows (d : db) : list task_row := map snd (map_to_list (tasks d)).

(** The partial unique index on the concurrency key of running rows. *)
Definition indexed_key (r : task_row) : option string :=
  if bool_decide (t_status r = "running") then
    match t_concurrency_key r with
    | Some k => if bool_decide (k = "") then None else Some k
    | None => None
    end
  else None.

Definition index_conflict (d : db) (r : task_row) : bool :=
  match indexed_key r with
  | Some k => existsb (fun r' => negb (bool_decide (t_id r' = t_id r))
                                 && bool_decide (indexed_key r' = Some k)) (rows d)
  | None => false
  end.

(** [UPDATE tasks SET ... WHERE id = :task_id AND ...]: the number of rows. *)
Definition update_tasks (task_id : string) (where_ : task_row -> bool) (set : list assignment)
    : stres db Z := fun d =>
  match tasks d !! task_id with
  | Some r =>
      if where_ r then
        let r' := set_columns set r in
        if index_conflict d r' then (Raise IntegrityError, d)
        else (Ok 1, with_tasks (<[task_id := r']>) d)
      else (Ok 0, d)
  | None => (Ok 0, d)
  end.

Definition select_task (task_id : string) : stres db (option task_row) :=
  gets_st (fun d => tasks d !! task_id).

(** * Runs and attempts (run_attempts_store.py) *)

Definition coalesce {A} (x y : option A) : option A := match x with Some _ => x | None => y end.

Definition upsert_run (run_id : string) (r : run_row) : stres db unit :=
  modify_st (with_runs (fun m =>
    match m !! run_id with
    | None => <[run_id := r]> m
    | Some old =>
        <[run_id := mkRun (run_execution_id r) (run_workspace_id r) (run_task_id r)
                      (run_pack_id r) (run_status r)
                      (coalesce (run_started_at old) (run_started_at r)) (run_completed_at r)]> m
    end)).

(** [COALESCE((SELECT MAX(attempt_no) + 1 FROM run_attempts WHERE run_id = ...), 1)] *)
Definition next_attempt_no (run_id : string) (l : list attempt_row) : Z :=
  match map at_attempt_no (filter (fun a => at_run_id a = run_id) l) with
  | [] => 1
  | n :: ns => foldl Z.max n ns + 1
  end.

(** [INSERT ... ON CONFLICT (idempotency_key) DO NOTHING RETURNING attempt_id],
    then the lookup of the record that was there. [hex] is [uuid4().hex]. *)
Definition create_attempt (run_id task_id : string) (runner_id : option string)
    (status : string) (started_at : Z) (idempotency_key hex : string) : stres db string :=
  fun d =>
    match list_find (fun a => at_idempotency_key a = idempotency_key) (attempts d) with
    | Some (_, a) => (Ok (at_attempt_id a), d)
    | None =>
        let attempt_id := "attempt_" +:+ hex in
        let a := mkAttempt attempt_id run_id task_id runner_id
                   (next_attempt_no run_id (attempts d)) status (Some started_at)
                   None None None idempotency_key in
        (Ok attempt_id, with_attempts (attempts d ++ [a]) d)
    end.

(** [ORDER BY started_at DESC NULLS LAST, created_at DESC LIMIT 1]: [a] comes
    before [b], inserted earlier. *)
Definition later_attempt (a b : attempt_row) : bool :=
  match at_started_at a, at_started_at b with
  | Some s, Some s' => s' <=? s
  | Some _, None | None, None => true
  | None, Some _ => false
  end.

Definition latest_attempt (task_id : string) (l : list attempt_row) : option attempt_row :=
  foldl (fun best a =>
    if bool_decide (at_task_id a = task_id)
    then match best with
         | Some b => if later_attempt a b then Some a else best
         | None => Some a
         end
    else best) None l.

(** [GREATEST(0, FLOOR(EXTRACT(EPOCH FROM (completed - started)) * 1000))] *)
Definition duration_ms (started completed : Z) : Z := Z.max 0 ((completed - started) / 1000).

Definition complete_attempt (status : string) (finished_at : Z) (error_summary : option string)
    (a : attempt_row) : attempt_row :=
  mkAttempt (at_attempt_id a) (at_run_id a) (at_task_id a) (at_runner_id a) (at_attempt_no a)
    status (at_started_at a) (Some finished_at)
    (match at_started_at a with
     | Some s => Some (duration_ms s finished_at) | None => at_duration_ms a end)
    error_summary (at_idempotency_key a).

Definition complete_latest_attempt_for_task (task_id status : string)
    (completed_at : option Z) (error_summary : option string) (now : Z)
    : stres db (option string) := fun d =>
  match latest_attempt task_id (attempts d) with
  | Some a =>
      (Ok (Some (at_attempt_id a)),
       with_attempts (map (fun b => if bool_decide (at_attempt_id b = at_attempt_id a)
                                    then complete_attempt status (default now completed_at)
                                           error_summary b
                                    else b) (attempts d)) d)
  | None => (Ok None, d)
  end.

(** * Events and outbox (task_events_store.py) *)

Definition append_task_event (e : event_row) : stres db string := fun d =>
  match list_find (fun e' => ev_idempotency_key e' = ev_idempotency_key e) (task_events d) with
  | Some (_, e') => (Ok (ev_event_id e'), d)
  | None => (Ok (ev_event_id e), with_events (task_events d ++ [e]) d)
  end.

Definition append_outbox_event (o : outbox_row) : stres db string := fun d =>
  match list_find (fun o' => ob_idempotency_key o' = ob_idempotency_key o) (outbox_events d) with
  | Some (_, o') => (Ok (ob_outbox_id o'), d)
  | None => (Ok (ob_outbox_id o), with_outbox (outbox_events d ++ [o]) d)
  end.

(** Every caller passes an idempotency key and the time. *)
Definition record_task_event (task_id workspace_id event_type : string)
    (from_status to_status run_id attempt_id summary : option string) (payload : pyval)
    (idempotency_key : string) (occurred_at : Z) (hex : string) : stres db string :=
  event_id ← append_task_event
    (mkEvent ("task_evt_" +:+ hex) task_id run_id attempt_id workspace_id event_type
       from_status to_status summary (py_or payload (PDict [])) idempotency_key occurred_at);
  _ ← append_outbox_event
    (mkOutbox ("outbox_" +:+ hex) task_id "task.projection.refresh_requested"
       (PDict [("event_id", PStr event_id); ("task_id", PStr task_id);
               ("workspace_id", PStr workspace_id)])
       occurred_at ("outbox:" +:+ idempotency_key));
  mret event_id.

(** * Statuses and scheduler fields (_crud_helpers.py) *)

Definition _RUNNER_TASK_TYPES : list string :=
  ["playbook_execution"; "tool_execution"; "product_outcome_evaluation"].
Definition _TERMINAL_TASK_STATUSES : list string :=
  ["succeeded"; "failed"; "cancelled_by_user"; "expired"].

Definition normalize_task_status_value (status : string) : string :=
  let normalized := lower (strip status) in
  if bool_decide (normalized = "cancelled") then "cancelled_by_user" else normalized.

(** [TaskStatus(value)] *)
Definition coerce_task_status_enum (status : string) : res TaskStatus :=
  match List.find (fun s => bool_decide (value s = normalize_task_status_value status))
          all_statuses with
  | Some s => Ok s
  | None => Raise (ValueError (repr_str (normalize_task_status_value status)
                                 +:+ " is not a valid TaskStatus"))
  end.

(** Keyword arguments: [kwargs.get(name)], [name in kwargs], [kwargs[name] = v]. *)
Definition has_column (name : string) (kwargs : list assignment) : bool :=
  existsb (fun a => bool_decide (column a = name)) kwargs.

Fixpoint put_kwarg (a : assignment) (kwargs : list assignment) : list assignment :=
  match kwargs with
  | [] => [a]
  | b :: r => if bool_decide (column b = column a) then a :: r else b :: put_kwarg a r
  end.

Fixpoint status_kwarg (kwargs : list assignment) : option string :=
  match kwargs with
  | [] => None
  | Status s :: _ => Some s
  | _ :: r => status_kwarg r
  end.

Definition _normalize_frontier_updates_for_status (kwargs : list assignment) : list assignment :=
  match status_kwarg kwargs with
  | None => kwargs
  | Some status_val =>
      let status_raw := normalize_task_status_value status_val in
      if bool_decide (status_raw ∈ _TERMINAL_TASK_STATUSES)
      then put_kwarg (HeartbeatAt None) (put_kwarg (RunnerId None)
             (put_kwarg (FrontierEnqueuedAt None)
               (put_kwarg (FrontierState (Some "done")) kwargs)))
      else if bool_decide (status_raw = value RUNNING)
      then put_kwarg (FrontierEnqueuedAt None)
             (put_kwarg (FrontierState (Some "running")) kwargs)
      else kwargs
  end.

(** * The playbook execution a task belongs to (_crud_control.py) *)

Definition tasks_of_execution (execution_id : string) (statuses : list string) (d : db) : bool :=
  existsb (fun r => bool_decide (t_execution_id r = Some execution_id)
                    && bool_decide (t_status r ∈ statuses)) (rows d).

Definition update_executions (execution_id status : string) (where_ : string -> bool)
    : stres db unit :=
  modify_st (with_executions (fun m =>
    match m !! execution_id with
    | Some old => if where_ old then <[execution_id := status]> m else m
    | None => m
    end)).

Definition unfinished (status : string) : bool :=
  negb (bool_decide (status ∈ ["done"; "failed"])).

Definition _sync_playbook_execution_status (execution_id : option string) (status : TaskStatus)
    (execution_context : pyval) : stres db unit :=
  match execution_id with
  | None => mret tt
  | Some execution_id =>
      if bool_decide (execution_id = "") then mret tt else
      let is_auto_resumed := truthy (pget "auto_resumed" (dict_or_empty execution_context)) in
      d ← get_st;
      match status with
      | FAILED | CANCELLED_BY_USER | EXPIRED =>
          if is_auto_resumed then mret tt else
          let active := tasks_of_execution execution_id ["pending"; "running"] d in
          update_executions execution_id "failed" (fun _ => negb active)
      | SUCCEEDED => update_executions execution_id "done" (fun _ => true)
      | PENDING =>
          let active := tasks_of_execution execution_id ["running"] d in
          update_executions execution_id "queued" (fun s => unfinished s && negb active)
      | RUNNING => update_executions execution_id "running" unfinished
      end
  end.

Definition _run_id_for_task (task_id : string) (execution_id : option string) : string :=
  str_or (default "" execution_id) task_id.

(** What the store takes from elsewhere: the text a driver stores for a value
    bound to a text column, and [datetime.fromisoformat] with a naive result
    taken as UTC.  Only strings and NULL are specified. *)
Class TaskPlatform : Type := {
  bind_text : pyval -> res (option string);
  fromisoformat : string -> option Z;
  bind_text_none : bind_text PNone = Ok None;
  bind_text_str s : bind_text (PStr s) = Ok (Some s);
}.


Section store.
Context `{SetOrder} `{TaskPlatform}.

Definition _parse_resume_after (raw_value : pyval) : option Z :=
  match raw_value with
  | PStr s => if bool_decide (strip s = "") then None else fromisoformat s
  | _ => None
  end.

(** * [update_task_status] (_crud_status.py) *)

Definition opt_set {A} (f : A -> assignment) (o : option A) : list assignment :=
  match o with Some a => [f a] | None => [] end.

(** The part both writers share once the row is updated and its status has
    changed: the run, the latest attempt of a finished task, the event. *)
Definition record_status_change (task_id : string) (r : task_row) (from_status : option string)
    (to_status : string) (finished_at : option Z) (error_summary : option string)
    (payload : pyval) (key_part : string) (event_time now : Z) (hex : string) : stres db unit :=
  let run_id := _run_id_for_task task_id (t_execution_id r) in
  _ ← upsert_run run_id (mkRun run_id (t_workspace_id r) (Some task_id) (Some (t_pack_id r))
                           to_status (t_started_at r) (t_completed_at r));
  attempt_id ← (if bool_decide (to_status ∈ _TERMINAL_TASK_STATUSES)
                then complete_latest_attempt_for_task task_id to_status finished_at
                       error_summary now
                else mret None);
  _ ← record_task_event task_id (t_workspace_id r) "task.status_changed" from_status
        (Some to_status) (Some run_id) attempt_id error_summary payload
        ("task:" +:+ task_id +:+ ":" +:+ key_part +:+ ":" +:+ to_status +:+ ":"
         +:+ isoformat event_time) event_time hex;
  mret tt.

Definition status_columns (status : TaskStatus) : list assignment :=
  Status (value status) ::
  (if decide (status = RUNNING)
   then [BlockedReason None; BlockedPayload PNone; FrontierState (Some "running");
         FrontierEnqueuedAt None]
   else if bool_decide (value status ∈ _TERMINAL_TASK_STATUSES)
   then [BlockedReason None; BlockedPayload PNone; RunnerId None; HeartbeatAt None;
         FrontierState (Some "done"); FrontierEnqueuedAt None]
   else []).

(** [hex] is the random part of the identifiers drawn, [now] the clock. *)
Definition update_task_status (task_id : string) (status : TaskStatus) (result : pyval)
    (error : option string) (started_at completed_at : option Z) (now : Z) (hex : string)
    : stres db unit :=
  stored_result ← lift_res (apply_task_payload_budget "result" result);
  transaction (
    existing_row ← select_task task_id;
    let existing_status := t_status <$> existing_row in
    let changed := negb (bool_decide (existing_status = Some (value status))) in
    rowcount ← update_tasks task_id (fun _ => true)
      (status_columns status
       ++ (if is_none result then [] else [Result stored_result])
       ++ opt_set (fun e => Error (Some e)) error
       ++ opt_set (fun t => StartedAt (Some t)) started_at
       ++ opt_set (fun t => CompletedAt (Some t)) completed_at);
    if rowcount =? 0 then raise_st (StoreNotFoundError ("Task not found: " +:+ task_id)) else
    row ← select_task task_id;
    match row with
    | Some r =>
        if changed then
          _ ← _sync_playbook_execution_status (t_execution_id r) status (t_execution_context r);
          record_status_change task_id r existing_status (value status)
            (coalesce (t_completed_at r) completed_at) error
            (PDict [("has_result", PBool (negb (is_none result)))]) "status"
            (default now (coalesce completed_at started_at)) now hex
        else mret tt
    | None => mret tt
    end).

(** * [update_task] (_crud_update.py) *)

(** The JSON columns pass the budget. *)
Definition budgeted_kwarg (a : assignment) : res assignment :=
  match a with
  | Params v => Params <$> apply_task_payload_budget "params" v
  | Result v => Result <$> apply_task_payload_budget "result" v
  | StorylineTags v => StorylineTags <$> apply_task_payload_budget "storyline_tags" v
  | BlockedPayload v => BlockedPayload <$> apply_task_payload_budget "blocked_payload" v
  | _ => Ok a
  end.

(** The scheduler columns derived for a pending runner task whose context is
    replaced, for those columns that were not given. *)
Definition derived_scheduler_columns (existing : task_row) (execution_context : dict pyval)
    (kwargs : list assignment) (now : Z) : res (list assignment) :=
  let unless name (set : list assignment) := if has_column name kwargs then [] else set in
  let status_raw := normalize_task_status_value
                      (default (t_status existing) (status_kwarg kwargs)) in
  if bool_decide (t_task_type existing ∈ _RUNNER_TASK_TYPES)
     && bool_decide (status_raw = value PENDING)
  then
    let parsed_resume_after := _parse_resume_after (pget "resume_after" execution_context) in
    let next_columns := match parsed_resume_after with
                        | Some t => unless "next_eligible_at" [NextEligibleAt (Some t)]
                        | None => []
                        end in
    let effective_next_eligible_at :=
      match next_columns with [] => t_next_eligible_at existing | _ => parsed_resume_after end in
    let derived := pget "runner_skip_reason" execution_context in
    let derived := if truthy derived then derived
                   else if is_dict (pget "dependency_hold" execution_context)
                   then PStr "dependency_hold" else derived in
    reason_columns ← (if truthy derived && negb (has_column "blocked_reason" kwargs)
                      then reason ← bind_text derived; Ok [BlockedReason reason]
                      else Ok []);
    let blocked := match reason_columns with
                   | [] => bool_decide (default "" (t_blocked_reason existing) ≠ "")
                   | _ => true
                   end in
    let cold := blocked || match effective_next_eligible_at with
                           | Some t => now <? t | None => false end in
    let enqueued := if cold then None
                    else Some (default (t_created_at existing) (t_frontier_enqueued_at existing)) in
    Ok (next_columns ++ reason_columns
        ++ unless "frontier_state" [FrontierState (Some (if cold then "cold" else "ready"))]
        ++ unless "frontier_enqueued_at" [FrontierEnqueuedAt enqueued])
  else Ok [].

(** [_sync_playbook_execution_status] after [update_task]: an unknown status is
    skipped by the [except] around it. *)
Definition sync_execution_of (task_id status_val : string) (execution_context : pyval)
    : stres db unit :=
  match coerce_task_status_enum status_val with
  | Ok status =>
      row ← select_task task_id;
      _sync_playbook_execution_status (row ≫= t_execution_id) status execution_context
  | Raise _ => mret tt
  end.

(** The project given, or the one the new context names. *)
Definition project_columns_of (project_id : option string) (execution_context : option (dict pyval))
    : res (list assignment) :=
  match project_id, execution_context with
  | Some p, _ => Ok [ProjectId (Some p)]
  | None, Some c =>
      if truthy (pget "project_id" c)
      then p ← bind_text (pget "project_id" c); Ok [ProjectId p] else Ok []
  | None, None => Ok []
  end.

(** [None] for an argument that was not given; the result says whether the
    update was made ([None] in the code when the status was not expected). *)
Definition update_task (task_id : string) (execution_context : option (dict pyval))
    (project_id : option string) (expected_statuses : option (list TaskStatus))
    (kwargs : list assignment) (now : Z) (hex : string) : stres db bool :=
  let kwargs := _normalize_frontier_updates_for_status kwargs in
  context_columns ← lift_res
    match execution_context with
    | Some c => v ← apply_task_payload_budget "execution_context" (PDict c);
                Ok [ExecutionContext v]
    | None => Ok []
    end;
  kwarg_columns ← lift_res (seq_res (map budgeted_kwarg kwargs));
  if bool_decide (length (context_columns ++ kwarg_columns) = O) && bool_decide (project_id = None)
  then mret true else
  transaction (
    existing_row ← select_task task_id;
    let existing_status := t_status <$> existing_row in
    if match expected_statuses with
       | Some l => match existing_status with
                   | Some s => negb (bool_decide (s ∈ map value l)) | None => true end
       | None => false
       end
    then mret false else
    let changed := match status_kwarg kwargs with
                   | Some s => negb (bool_decide (existing_status = Some s))
                   | None => false
                   end in
    derived ← lift_res
      match execution_context, existing_row with
      | Some c, Some r => derived_scheduler_columns r c kwargs now
      | _, _ => Ok []
      end;
    project_columns ← lift_res (project_columns_of project_id execution_context);
    rowcount ← update_tasks task_id (fun _ => true)
      (context_columns ++ project_columns ++ kwarg_columns ++ derived);
    if rowcount =? 0 then raise_st (StoreNotFoundError ("Task not found: " +:+ task_id)) else
    match status_kwarg kwargs with
    | Some status_raw =>
        if changed then
          _ ← sync_execution_of task_id status_raw
                (match execution_context with Some c => PDict c | None => PNone end);
          row ← select_task task_id;
          match row with
          | Some r =>
              _ ← record_status_change task_id r existing_status status_raw
                    (t_completed_at r) (t_error r) (PDict [("source", PStr "update_task")])
                    "update_status"
                    (default now (coalesce (t_completed_at r) (t_started_at r))) now hex;
              mret true
          | None => mret true
          end
        else mret true
    | None => mret true
    end).

(** * Release and resume of parked tasks *)

(** [SELECT *] and the conversion of the row, which refuses an unknown status. *)
Definition get_task (task_id : string) : stres db (option task_row) :=
  row ← select_task task_id;
  match row with
  | Some r => _ ← lift_res (coerce_task_status_enum (t_status r)); mret (Some r)
  | None => mret None
  end.

Definition parked (reasons : list string) (r : task_row) : bool :=
  bool_decide (t_status r = value PENDING)
  && bool_decide (t_frontier_state r = Some "cold")
  && match t_blocked_reason r with Some why => bool_decide (why ∈ reasons) | None => false end.

(** [try_resume_resource_block] (_crud_update.py) *)
Definition try_resume_resource_block (task_id expected_blocked_reason : string)
    (execution_context : dict pyval) (resumed_at : Z) : stres db bool :=
  stored ← lift_res (apply_task_payload_budget "execution_context" (PDict execution_context));
  transaction (
    rowcount ← update_tasks task_id (parked [expected_blocked_reason])
      [ExecutionContext stored; BlockedReason None; BlockedPayload PNone;
       NextEligibleAt (Some resumed_at); FrontierState (Some "ready");
       FrontierEnqueuedAt (Some resumed_at); RunnerId None; HeartbeatAt None];
    mret (rowcount =? 1)).

(** [execution_context::jsonb - k] on the objects the column holds. *)
Definition json_without (keys : list string) (v : pyval) : pyval :=
  match v with PDict d => PDict (foldl (fun d k => ddel k d) d keys) | _ => v end.

(** [try_release_resource_wait_task] (_crud_frontier_release.py) *)
Definition try_release_resource_wait_task (task_id : string) (released_at : Z) : stres db bool :=
  transaction (
    row ← select_task task_id;
    rowcount ← update_tasks task_id
      (fun r => parked ["resource_wait"] r
                && match t_next_eligible_at r with Some t => t <=? released_at | None => false end)
      [ExecutionContext
         (json_without ["resource_admission"; "runner_resource_leases"; "resume_after"]
            (match row with Some r => t_execution_context r | None => PNone end));
       NextEligibleAt (Some released_at); BlockedReason None; BlockedPayload PNone;
       FrontierState (Some "ready"); FrontierEnqueuedAt (Some released_at)];
    mret (rowcount =? 1)).

(** [retry_terminal_task_after_commit] (_crud_control.py), up to the enqueue. *)
Definition retry_terminal_task_after_commit (task_id : string) (now : Z) (hex : string)
    : stres db bool :=
  task ← get_task task_id;
  match task with
  | None => mret false
  | Some r =>
      let execution_context := dset "status" (PStr "queued")
                                 (dict_or_empty (t_execution_context r)) in
      count ← lift_res (py_int (py_or (pget "knowledge_projection_retry_count" execution_context)
                                      (PInt 0)));
      update_task task_id
        (Some (dset "knowledge_projection_retry_count" (PInt (count + 1)) execution_context))
        None (Some [FAILED; CANCELLED_BY_USER; EXPIRED])
        [Status (value PENDING); Result (PDict []); Error None; StartedAt None; CompletedAt None;
         NextEligibleAt (Some now); BlockedReason None; BlockedPayload (PDict []);
         FrontierState (Some "ready"); FrontierEnqueuedAt (Some now); RunnerId None;
         HeartbeatAt None] now hex
  end.

(** * Cancellation, abort checks and the reaper (_runner_lifecycle.py) *)

Definition try_update {A} (c : stres db A) (ok : bool) : stres db bool := fun d =>
  match c d with (Ok _, d') => (Ok ok, d') | (Raise _, d') => (Ok (negb ok), d') end.

(** What [cancel_task] does with the task it has read. *)
Definition cancel_seen (task : option task_row) (now : Z) (hex : string) : stres db bool :=
  match task with
  | Some r =>
      status ← lift_res (coerce_task_status_enum (t_status r));
      match status with
      | PENDING | RUNNING =>
          try_update (update_task_status (t_id r) CANCELLED_BY_USER PNone
                        (Some "Cancelled by user") None (Some now) now hex) true
      | _ => mret false
      end
  | None => mret false
  end.

Definition cancel_task (task_id : string) (now : Z) (hex : string) : stres db bool :=
  task ← get_task task_id; cancel_seen task now hex.

Definition restart_error : string := "Execution interrupted by server restart".

Definition update_task_heartbeat (task_id : string) : stres db bool :=
  row ← select_task task_id;
  mret match row with
       | None => true
       | Some r =>
           bool_decide (t_status r ∈ [value CANCELLED_BY_USER; value EXPIRED])
           || (bool_decide (t_status r = value FAILED)
               && bool_decide (default "" (t_error r) ≠ restart_error))
       end.

Definition should_abort_task (task_id : string) : stres db bool :=
  task ← get_task task_id;
  match task with
  | None => mret true
  | Some r =>
      status ← lift_res (coerce_task_status_enum (t_status r));
      mret match status with
           | CANCELLED_BY_USER | EXPIRED => true
           | FAILED => bool_decide (default "" (t_error r) ≠ restart_error)
           | _ => false
           end
  end.

(** [_parse_heartbeat_datetime] on JSON values (_runner_helpers.py). *)
Definition _parse_heartbeat_datetime (raw_value : pyval) : option Z :=
  match raw_value with
  | PStr s => if bool_decide (s = "") then None else fromisoformat s
  | _ => None
  end.

(** [live] is the heartbeat payload of the live-state store, [PNone] when there
    is none or the store is unreachable. *)
Definition _effective_runner_heartbeat_at (task : task_row) (live : pyval) : option Z :=
  let live_heartbeat_at :=
    match live with
    | PDict live_payload => _parse_heartbeat_datetime (pget "heartbeat_at" live_payload)
    | _ => None
    end in
  match live_heartbeat_at, t_heartbeat_at task with
  | Some t, _ => Some t
  | None, Some t => Some t
  | None, None =>
      _parse_heartbeat_datetime (pget "heartbeat_at" (dict_or_empty (t_execution_context task)))
  end.

Definition timedelta_minutes (n : Z) : Z := n * 60 * MICROS.

(** The reason a running task is a zombie, if it is. *)
Definition zombie_reason (now heartbeat_ttl_minutes no_heartbeat_ttl_minutes : Z)
    (task : task_row) (live : pyval) : option string :=
  match _effective_runner_heartbeat_at task live with
  | Some hb_dt =>
      let age := now - hb_dt in
      if timedelta_minutes heartbeat_ttl_minutes <? age
      then Some ("Zombie: heartbeat stale for " +:+ str_int (Z.quot age MICROS) +:+ "s (threshold "
                 +:+ str_int heartbeat_ttl_minutes +:+ "m)")
      else None
  | None =>
      let started := default (t_created_at task) (t_started_at task) in
      let age := now - started in
      if timedelta_minutes no_heartbeat_ttl_minutes <? age
      then Some ("Zombie: no heartbeat, running for " +:+ str_int (Z.quot age MICROS)
                 +:+ "s (threshold " +:+ str_int no_heartbeat_ttl_minutes +:+ "m)")
      else None
  end.

(** The loop over the tasks listed as running: the identifiers reaped, which
    are those the ownership callback is called for. *)
Fixpoint reap_listed (now heartbeat_ttl_minutes no_heartbeat_ttl_minutes : Z)
    (live : string -> pyval) (hex : string -> string) (listed : list task_row)
    : stres db (list string) :=
  match listed with
  | [] => mret []
  | task :: r =>
      reaped ← match zombie_reason now heartbeat_ttl_minutes no_heartbeat_ttl_minutes task
                       (live (t_id task)) with
               | Some reason =>
                   try_update (update_task_status (t_id task) FAILED PNone (Some reason) None
                                 (Some now) now (hex (t_id task))) true
               | None => mret false
               end;
      ids ← reap_listed now heartbeat_ttl_minutes no_heartbeat_ttl_minutes live hex r;
      mret (if reaped : bool then t_id task :: ids else ids)
  end.

(** [ORDER BY created_at DESC], ties in the order of the table. *)
Fixpoint insert_newest (r : task_row) (l : list task_row) : list task_row :=
  match l with
  | [] => [r]
  | r' :: l' => if t_created_at r' <? t_created_at r then r :: l else r' :: insert_newest r l'
  end.

(** [list_tasks_by_workspace(None, status=...)] *)
Definition listed_row (r : task_row) : task_row :=
  if bool_decide (t_task_type r = "execution")
  then set_columns [Result PNone; ExecutionContext PNone] r else r.

Definition list_tasks_by_status (status : TaskStatus) : stres db (list task_row) :=
  gets_st (fun d =>
    map listed_row
      (foldl (fun l r => insert_newest r l) []
         (filter (fun r => t_status r = value status) (rows d)))).

Definition reap_zombie_tasks (now heartbeat_ttl_minutes no_heartbeat_ttl_minutes : Z)
    (live : string -> pyval) (hex : string -> string) : stres db (list string) :=
  listed ← list_tasks_by_status RUNNING;
  reap_listed now heartbeat_ttl_minutes no_heartbeat_ttl_minutes live hex listed.

End store.
