(* ===== verification/TaskClaims.v ===== *)
(** Claiming a task (tasks_store/_runner_claims.py, _runner_helpers.py): the
    workspace quota under the lock of its allocation row, the concurrency keys,
    the update that moves a pending row to running, and the release of tasks
    parked by the quota.  The second half runs any number of claims
    interleaved, statement by statement, as PostgreSQL does at READ COMMITTED. *)
From S2P Require Import Prelude PyDict PyStr PyVal PyJson PyTime PayloadBudget TaskTable.

(** * Helpers *)

Definition _WORKSPACE_QUOTA_RELEASE_REASONS : list string :=
  ["workspace_allocation_quota_exhausted"; "workspace_allocation_required";
   "workspace_allocation_disabled"].

Definition _CLAIM_CONTEXT_STALE_KEYS : list string :=
  ["dependency_hold"; "error"; "failed_at"; "heartbeat_at"; "resource_pressure";
   "resource_pressure_source"; "resource_retry_delay_sec"; "resource_snapshot"; "resume_after";
   "runner_reaper"; "runner_skip_conflict_lock_key"; "runner_skip_lock_key";
   "runner_skip_reason"].

Definition _build_claim_execution_context (existing_ctx task_params : pyval)
    (runner_id : string) (now : Z) : dict pyval :=
  let ctx := dict_or_empty existing_ctx in
  let params_inputs :=
    match task_params with
    | PDict d => match pget "inputs" d with PDict nested => nested | _ => d end
    | _ => []
    end in
  let ctx := match params_inputs with
             | [] => ctx
             | _ => dset "inputs" (PDict (dupdate params_inputs
                                            (dict_or_empty (pget "inputs" ctx)))) ctx
             end in
  let ctx := foldl (fun c key => ddel key c) ctx _CLAIM_CONTEXT_STALE_KEYS in
  dset "status" (PStr "running")
    (dset "heartbeat_at" (PStr (isoformat now)) (dset "runner_id" (PStr runner_id) ctx)).

(** The loop of [_normalize_concurrency_keys]; [seen] is the list built. *)
Definition _normalize_concurrency_keys (raw_keys : list string) : list string :=
  foldl (fun keys raw_key =>
    let key := strip raw_key in
    if bool_decide (key = "") || bool_decide (key ∈ keys) then keys else keys ++ [key])
    [] raw_keys.

Definition _clean_string (value : pyval) : option string :=
  match value with PNone => None | _ => str_opt (strip (py_str value)) end.
Definition clean_text (value : option string) : option string := str_opt (strip (default "" value)).

Definition _clean_int (value : pyval) (dflt : Z) : Z :=
  match py_int value with Ok z => z | Raise _ => dflt end.

(** [json.loads] on text, and [execution_context::jsonb->>'playbook_code']; how
    PostgreSQL renders JSON values other than strings as text is its own. *)
Class JsonText : Type := {
  json_loads : string -> option pyval;
  jsonb_text : pyval -> option string;
  jsonb_text_str s : jsonb_text (PStr s) = Some s;
  jsonb_text_null : jsonb_text PNone = None;
}.

Section selectors.
Context `{JsonText}.

Definition _json_mapping (raw_value : pyval) : dict pyval :=
  match raw_value with
  | PDict d => d
  | PStr s => if bool_decide (strip s = "") then []
              else match json_loads s with Some (PDict d) => d | _ => [] end
  | _ => []
  end.

Definition _quota_selectors (metadata : pyval) : list string :=
  match pget "task_selectors" (_json_mapping metadata) with
  | PList selectors =>
      foldl (fun normalized selector =>
        match _clean_string selector with
        | Some value => if bool_decide (value ∈ normalized) then normalized
                        else normalized ++ [value]
        | None => normalized
        end) [] selectors
  | _ => []
  end.
End selectors.

(** A row of [host_resource_workspace_allocations], as far as a claim reads it. *)
Record allocation_row : Type := mkAllocation {
  al_state : option string;
  al_max_parallel_task_claims : option Z;
  al_metadata : pyval;
}.

Section claims.
Context `{SetOrder} `{TaskPlatform} `{JsonText}.

Definition opt_in (o : option string) (l : list string) : bool :=
  match o with Some s => bool_decide (s ∈ l) | None => false end.

Definition selected_by (selectors : list string) (r : task_row) : bool :=
  bool_decide (t_pack_id r ∈ selectors) || bool_decide (t_task_type r ∈ selectors)
  || opt_in (jsonb_text (pget "playbook_code" (dict_or_empty (t_execution_context r)))) selectors.

(** No selector: no condition. *)
Definition selector_sql (selectors : list string) (r : task_row) : bool :=
  match selectors with [] => true | _ => selected_by selectors r end.

Definition in_quota (workspace_id queue_shard : string) (selectors : list string)
    (r : task_row) : bool :=
  bool_decide (t_workspace_id r = workspace_id)
  && bool_decide (t_queue_shard r = Some queue_shard)
  && selector_sql selectors r.

Definition is_running (r : task_row) : bool := bool_decide (t_status r = value RUNNING).

(** The rows a COUNT of [_workspace_quota_allows_claim] counts. *)
Definition counted (workspace_id queue_shard : string) (selectors : list string)
    (r : task_row) : bool :=
  in_quota workspace_id queue_shard selectors r && is_running r.

Definition count_rows (P : task_row -> bool) (d : db) : Z :=
  Z.of_nat (length (List.filter P (rows d))).

(** ** The quota, in its three steps: which allocation a claim must lock, what
    the locked row allows, and the count. *)
Record quota_request : Type := mkQuota {
  qr_allocation_id : string;
  qr_workspace_id : string;
  qr_queue_shard : string;
  qr_metadata : pyval;
}.

(** [workspace_quota_decision] is the payload of the decision. *)
Definition quota_request_of (workspace_quota_decision : pyval) (row : task_row)
    : option quota_request :=
  match pget "allocation" (dict_or_empty workspace_quota_decision) with
  | PDict allocation =>
      match _clean_string (pget "allocation_id" allocation),
            clean_text (Some (t_workspace_id row)), clean_text (t_queue_shard row) with
      | Some a, Some w, Some s => Some (mkQuota a w s (pget "metadata" allocation))
      | _, _, _ => None
      end
  | _ => None
  end.

(** The selectors and the limit, [None] when the claim is refused. *)
Definition quota_terms (allocations : gmap string allocation_row) (q : quota_request)
    : option (list string * Z) :=
  match allocations !! qr_allocation_id q with
  | None => None
  | Some locked =>
      if negb (bool_decide (clean_text (al_state locked) = Some "enabled")) then None else
      let selectors := match _quota_selectors (al_metadata locked) with
                       | [] => _quota_selectors (qr_metadata q)
                       | l => l
                       end in
      Some (selectors, Z.max 1 (default 1 (al_max_parallel_task_claims locked)))
  end.

Definition quota_count (task_id : string) (q : quota_request) (selectors : list string)
    (d : db) : Z :=
  count_rows (fun r => counted (qr_workspace_id q) (qr_queue_shard q) selectors r
                       && negb (bool_decide (t_id r = task_id))) d.

Definition _workspace_quota_allows_claim (allocations : gmap string allocation_row)
    (task_id : string) (row : task_row) (workspace_quota_decision : pyval) : stres db bool :=
  match quota_request_of workspace_quota_decision row with
  | None => mret true
  | Some q =>
      match quota_terms allocations q with
      | None => mret false
      | Some (selectors, max_parallel) =>
          gets_st (fun d => quota_count task_id q selectors d <? max_parallel)
      end
  end.

(** ** The claim *)

Definition running_conflict (task_id : string) (keys : list string) (d : db) : bool :=
  existsb (fun r => negb (bool_decide (t_id r = task_id)) && is_running r
                    && opt_in (t_concurrency_key r) keys) (rows d).

Definition has_running_concurrency_conflict (task_id : string) (concurrency_keys : list string)
    : stres db bool :=
  let keys := _normalize_concurrency_keys concurrency_keys in
  if bool_decide (keys = []) then mret false
  else gets_st (running_conflict task_id keys).

(** The keys a claim checks: those given and the persisted one. *)
Definition claim_keys (concurrency_keys : list string) (row : task_row) : list string :=
  let keys := _normalize_concurrency_keys concurrency_keys in
  match clean_text (t_concurrency_key row), t_concurrency_key row with
  | Some _, Some persisted => _normalize_concurrency_keys (keys ++ [persisted])
  | _, _ => keys
  end.

Definition claim_columns (row : task_row) (runner_id : string) (now : Z) : list assignment :=
  [Status (value RUNNING); StartedAt (Some now); RunnerId (Some runner_id);
   HeartbeatAt (Some now);
   ExecutionContext (PDict (_build_claim_execution_context (t_execution_context row)
                              (t_params row) runner_id now));
   BlockedReason None; BlockedPayload PNone; FrontierState (Some "running");
   FrontierEnqueuedAt None].

Definition _record_task_claim (task_id runner_id : string) (started_at : Z) (hex : string)
    : stres db unit :=
  row ← select_task task_id;
  match row with
  | None => mret tt
  | Some r =>
      let run_id := _run_id_for_task task_id (t_execution_id r) in
      _ ← upsert_run run_id (mkRun run_id (t_workspace_id r) (Some task_id) (Some (t_pack_id r))
                               (t_status r) (Some started_at) None);
      attempt_id ← create_attempt run_id task_id (Some runner_id) (t_status r) started_at
        ("task:" +:+ task_id +:+ ":runner:" +:+ runner_id +:+ ":claim:" +:+ isoformat started_at)
        hex;
      _ ← record_task_event task_id (t_workspace_id r) "task.claimed" (Some (value PENDING))
            (Some (t_status r)) (Some run_id) (Some attempt_id) None
            (PDict [("runner_id", PStr runner_id)])
            ("task:" +:+ task_id +:+ ":claimed:" +:+ attempt_id) started_at hex;
      mret tt
  end.

(** [except IntegrityError: return False] *)
Definition rowcount_or_refused (c : stres db Z) : stres db Z := fun d =>
  match c d with (Raise _, d') => (Ok 0, d') | r => r end.

(** The UPDATE and what follows it, given the row read and the outcome of its
    NOT EXISTS. *)
Definition claim_update (task_id runner_id : string) (row : task_row) (free : bool) (now : Z)
    (hex : string) : stres db bool :=
  rowcount ← rowcount_or_refused
    (update_tasks task_id (fun r => bool_decide (t_status r = value PENDING) && free)
       (claim_columns row runner_id now));
  if rowcount =? 1
  then _ ← _record_task_claim task_id runner_id now hex; mret true
  else mret false.

Definition try_claim_task (allocations : gmap string allocation_row)
    (task_id runner_id : string) (concurrency_keys : list string)
    (workspace_quota_decision : pyval) (now : Z) (hex : string) : stres db bool :=
  transaction (
    row ← select_task task_id;
    match row with
    | None => mret false
    | Some row =>
        if negb (bool_decide (t_status row = value PENDING)) then mret false else
        allowed ← _workspace_quota_allows_claim allocations task_id row
                    workspace_quota_decision;
        if negb allowed then mret false else
        free ← gets_st (fun d => negb (running_conflict task_id
                                         (claim_keys concurrency_keys row) d));
        claim_update task_id runner_id row free now hex
    end).

(** ** Tasks parked by the quota *)

Definition ready_frontier (r : task_row) : bool :=
  bool_decide (t_status r = value PENDING)
  && bool_decide (t_frontier_state r = Some "ready")
  && bool_decide (default "" (t_blocked_reason r) = "").

(** A row the release counts as reserving a slot: running, or ready to run. *)
Definition reserving (workspace_id queue_shard : string) (selectors : list string)
    (r : task_row) : bool :=
  in_quota workspace_id queue_shard selectors r && (is_running r || ready_frontier r).

Definition clean_all (l : list string) : list string := omap (fun s => str_opt (strip s)) l.

(** Under the advisory lock of the allocation, taken first, the whole release
    runs alone. [execution_context] is stored without the budget. *)
Definition try_release_workspace_quota_task (task_id workspace_id queue_shard : string)
    (selectors : list string) (task_selector : string) (max_parallel_task_claims : Z)
    (blocked_reasons : option (list string)) (execution_context : pyval) (now : Z)
    : stres db bool :=
  let max_parallel := Z.max 1 max_parallel_task_claims in
  let selectors := clean_all selectors in
  let reasons := match clean_all (default _WORKSPACE_QUOTA_RELEASE_REASONS blocked_reasons) with
                 | [] => _WORKSPACE_QUOTA_RELEASE_REASONS
                 | l => l
                 end in
  let fairness_overflow_limit :=
    max_parallel + Z.max 0 (Z.of_nat (length selectors) - 1) in
  let task_selector := strip task_selector in
  transaction (
    d ← get_st;
    let reserved_total := count_rows (reserving workspace_id queue_shard selectors) d in
    let reserved_same_selector :=
      count_rows (fun r => reserving workspace_id queue_shard selectors r
                           && (bool_decide (task_selector = "")
                               || selected_by [task_selector] r)) d in
    if (max_parallel <=? reserved_total)
       && ((0 <? reserved_same_selector) || (fairness_overflow_limit <=? reserved_total))
    then mret false else
    row ← select_task task_id;
    rowcount ← update_tasks task_id (parked reasons)
      [NextEligibleAt (Some now); BlockedReason None; BlockedPayload PNone;
       QueueShard (Some queue_shard); FrontierState (Some "ready");
       FrontierEnqueuedAt (Some now);
       ExecutionContext (match execution_context, row with
                         | PDict _, _ => execution_context
                         | _, Some r => t_execution_context r
                         | _, None => PNone
                         end)];
    mret (rowcount =? 1)).

End claims.

(** * Claims interleaved

    At READ COMMITTED each statement sees what is committed when it starts.
    A claim reads its task, locks its allocation row until it commits, counts,
    evaluates its NOT EXISTS when its UPDATE starts, and commits.  The UPDATE
    locks the task's row and re-checks its status, and the unique index admits
    one writer of a key, so the row's change can be placed at the commit.  The
    records of the run and the attempt are placed there too; two claims of
    tasks of one execution that overlap may number their attempts alike, so no
    theorem about the interleaved claims speaks of attempt numbers. *)
Record claim : Type := mkClaim {
  cl_task : string;
  cl_runner : string;
  cl_keys : list string;
  cl_decision : pyval;
  cl_now : Z;
  cl_hex : string;
}.

Inductive stage : Type :=
| Start
| HasRow (row : task_row)
| Locked (row : task_row) (q : quota_request) (selectors : list string) (max_parallel : Z)
| Allowed (row : task_row) (held : option string)
| Statement (row : task_row) (held : option string) (free : bool)
| Finished (claimed : bool).

(** The allocation row a claim has locked. *)
Definition held_by (s : stage) : option string :=
  match s with
  | Locked _ q _ _ => Some (qr_allocation_id q)
  | Allowed _ held | Statement _ held _ => held
  | Start | HasRow _ | Finished _ => None
  end.

Section interleaving.
Context `{SetOrder} `{TaskPlatform} `{JsonText}.

(** The next statement of a claim; [None] while it waits for a lock another
    claim holds ([busy]), and once it has finished. *)
Definition claim_step (allocations : gmap string allocation_row) (busy : string -> bool)
    (c : claim) (s : stage) (d : db) : option (db * stage) :=
  match s with
  | Start =>
      Some (d, match tasks d !! cl_task c with
               | Some row => if bool_decide (t_status row = value PENDING) then HasRow row
                             else Finished false
               | None => Finished false
               end)
  | HasRow row =>
      match quota_request_of (cl_decision c) row with
      | None => Some (d, Allowed row None)
      | Some q =>
          if busy (qr_allocation_id q) then None
          else Some (d, match quota_terms allocations q with
                        | Some (selectors, max_parallel) => Locked row q selectors max_parallel
                        | None => Finished false
                        end)
      end
  | Locked row q selectors max_parallel =>
      Some (d, if quota_count (cl_task c) q selectors d <? max_parallel
               then Allowed row (Some (qr_allocation_id q)) else Finished false)
  | Allowed row held =>
      Some (d, Statement row held
                 (negb (running_conflict (cl_task c) (claim_keys (cl_keys c) row) d)))
  | Statement row _ free =>
      match transaction (claim_update (cl_task c) (cl_runner c) row free (cl_now c) (cl_hex c)) d with
      | (Ok claimed, d') => Some (d', Finished claimed)
      | (Raise _, d') => Some (d', Finished false)
      end
  | Finished _ => None
  end.

(** A claim that runs alone: at most five statements. *)
Fixpoint run_alone (fuel : nat) (allocations : gmap string allocation_row) (c : claim)
    (s : stage) (d : db) : option (bool * db) :=
  match s, fuel with
  | Finished b, _ => Some (b, d)
  | _, O => None
  | _, S k =>
      match claim_step allocations (fun _ => false) c s d with
      | Some (d', s') => run_alone k allocations c s' d'
      | None => None
      end
  end.

(** The other transactions that may commit in between. *)
Inductive writer : Type :=
| WStatus (task_id : string) (status : TaskStatus) (result : pyval) (error : option string)
    (started_at completed_at : option Z) (now : Z) (hex : string)
| WUpdate (task_id : string) (execution_context : option (dict pyval))
    (expected_statuses : option (list TaskStatus)) (kwargs : list assignment) (now : Z)
    (hex : string)
| WResume (task_id reason : string) (execution_context : dict pyval) (now : Z)
| WReleaseWait (task_id : string) (now : Z).

Definition run_writer (w : writer) : stres db bool :=
  match w with
  | WStatus t st result error started completed now hex =>
      _ ← update_task_status t st result error started completed now hex; mret true
  | WUpdate t ctx expected kwargs now hex => update_task t ctx None expected kwargs now hex
  | WResume t reason ctx now => try_resume_resource_block t reason ctx now
  | WReleaseWait t now => try_release_resource_wait_task t now
  end.

Record world : Type := mkWorld { w_db : db; w_claims : list (claim * stage) }.

(** Allocation [a] is locked by a claim other than the [i]-th. *)
Definition locked_by_other (cs : list (claim * stage)) (i : nat) (a : string) : bool :=
  existsb (fun jc => negb (Nat.eqb jc.1 i) && bool_decide (held_by jc.2.2 = Some a))
    (imap (fun j c => (j, c)) cs).

Inductive world_step (allocations : gmap string allocation_row) (allowed : writer -> Prop)
    : world -> world -> Prop :=
| step_claim w i c s d' s' :
    w_claims w !! i = Some (c, s) ->
    claim_step allocations (locked_by_other (w_claims w) i) c s (w_db w) = Some (d', s') ->
    world_step allocations allowed w (mkWorld d' (<[i := (c, s')]> (w_claims w)))
| step_writer w wr :
    allowed wr ->
    world_step allocations allowed w (mkWorld (run_writer wr (w_db w)).2 (w_claims w)).

Definition all_start (w : world) : Prop := Forall (fun cs => cs.2 = Start) (w_claims w).
End interleaving.
