(* ===== verification/TaskClaimTheorems.v ===== *)
(** Theorems of the task table under concurrent claims: a claim run statement by
    statement is the method; a pending task is claimed once; running tasks have
    distinct concurrency keys; the workspace quota is never exceeded. *)
From S2P Require Import Prelude PyDict PyStr PyVal PyJson PyTime PayloadBudget TaskTable TaskClaims.

(** * Rows and columns *)

Lemma set_column_id r a :
  t_id (set_column r a) = t_id r /\ t_workspace_id (set_column r a) = t_workspace_id r
  /\ t_pack_id (set_column r a) = t_pack_id r /\ t_task_type (set_column r a) = t_task_type r
  /\ t_execution_id (set_column r a) = t_execution_id r.
Proof. destruct r, a; done. Qed.

Lemma set_columns_id set r :
  t_id (set_columns set r) = t_id r /\ t_workspace_id (set_columns set r) = t_workspace_id r
  /\ t_pack_id (set_columns set r) = t_pack_id r /\ t_task_type (set_columns set r) = t_task_type r
  /\ t_execution_id (set_columns set r) = t_execution_id r.
Proof.
  revert r. induction set as [|a set IH]; intros r; [done|].
  change (set_columns (a :: set) r) with (set_columns set (set_column r a)).
  destruct (IH (set_column r a)) as (-> & -> & -> & -> & ->). apply set_column_id.
Qed.

Lemma set_columns_app s1 s2 r : set_columns (s1 ++ s2) r = set_columns s2 (set_columns s1 r).
Proof. unfold set_columns. apply foldl_app. Qed.

(** A list of assignments that leaves a field alone. *)
Definition leaves {A} (f : task_row -> A) (set : list assignment) : Prop :=
  forall r, f (set_columns set r) = f r.

Lemma leaves_forall {A} (f : task_row -> A) set :
  Forall (fun a => forall r, f (set_column r a) = f r) set -> leaves f set.
Proof.
  intros Hs. induction Hs as [|a set Ha _ IH]; intros r; [done|].
  change (set_columns (a :: set) r) with (set_columns set (set_column r a)).
  by rewrite IH, Ha.
Qed.

(** Assignments to other columns than the status. *)
Definition not_status (a : assignment) : Prop := match a with Status _ => False | _ => True end.

Lemma leaves_status set : Forall not_status set -> leaves t_status set.
Proof.
  intros Hs. apply leaves_forall. eapply Forall_impl; [exact Hs|].
  intros a Ha r. by destruct r, a.
Qed.

(** * The tables: what a statement does *)

(** [d'] is [d] with row [t] rewritten from [r] to [r'], as the index allows. *)
Definition writes (d d' : db) (t : string) (r r' : task_row) : Prop :=
  tasks d !! t = Some r /\ tasks d' = <[t := r']> (tasks d) /\ index_conflict d r' = false.

Lemma update_tasks_Ok t where_ set d n d' :
  update_tasks t where_ set d = (Ok n, d') ->
  (n = 0 /\ d' = d /\ (tasks d !! t = None \/ exists r, tasks d !! t = Some r /\ where_ r = false))
  \/ (n = 1 /\ exists r, where_ r = true /\ writes d d' t r (set_columns set r)
      /\ d' = with_tasks (<[t := set_columns set r]>) d).
Proof.
  unfold update_tasks. destruct (tasks d !! t) as [r|] eqn:E.
  - destruct (where_ r) eqn:Hw.
    + destruct (index_conflict d _) eqn:Hc; intros [= <- <-]. right. split; [done|].
      exists r. done.
    + intros [= <- <-]. left. split_and!; [done..|]. right. by exists r.
  - intros [= <- <-]. left. auto.
Qed.

(** Computations on the other tables: they return and leave the tasks. *)
Definition quiet {A} (c : stres db A) : Prop :=
  forall d, exists a d', c d = (Ok a, d') /\ tasks d' = tasks d.

Lemma quiet_ret {A} (a : A) : quiet (mret a).
Proof. intros d. by exists a, d. Qed.

Lemma quiet_bind {A B} (c : stres db A) (f : A -> stres db B) :
  quiet c -> (forall a, quiet (f a)) -> quiet (c ≫= f).
Proof.
  intros Hc Hf d. destruct (Hc d) as (a & d1 & E1 & T1). destruct (Hf a d1) as (b & d2 & E2 & T2).
  exists b, d2. split; [by rewrite (st_bind_eq _ _ _ _ _ E1)|]. by rewrite T2.
Qed.

Lemma quiet_gets {A} (f : db -> A) : quiet (gets_st f).
Proof. intros d. by exists (f d), d. Qed.

Lemma quiet_get : quiet (@get_st db).
Proof. intros d. by exists d, d. Qed.
#[export] Hint Resolve quiet_ret quiet_gets quiet_get : py.

Lemma quiet_upsert_run run_id r : quiet (upsert_run run_id r).
Proof. intros d. by eexists _, _. Qed.

Lemma quiet_update_executions e s w : quiet (update_executions e s w).
Proof. intros d. by eexists _, _. Qed.

Lemma quiet_create_attempt run t runner s at_ key hex : quiet (create_attempt run t runner s at_ key hex).
Proof. intros d. unfold create_attempt. destruct (list_find _ _) as [[i a]|]; by eexists _, _. Qed.

Lemma quiet_complete t s c e now : quiet (complete_latest_attempt_for_task t s c e now).
Proof.
  intros d. unfold complete_latest_attempt_for_task.
  destruct (latest_attempt _ _); by eexists _, _.
Qed.

Lemma quiet_append_event e : quiet (append_task_event e).
Proof. intros d. unfold append_task_event. destruct (list_find _ _) as [[i a]|]; by eexists _, _. Qed.

Lemma quiet_append_outbox o : quiet (append_outbox_event o).
Proof. intros d. unfold append_outbox_event. destruct (list_find _ _) as [[i a]|]; by eexists _, _. Qed.
#[export] Hint Resolve quiet_upsert_run quiet_update_executions quiet_create_attempt
  quiet_complete quiet_append_event quiet_append_outbox : py.

(** [quiet_go] walks a computation built from the above. *)
Ltac quiet_go :=
  repeat first
    [ done
    | apply quiet_bind; [|intros ?]
    | solve [auto with py nocore]
    | match goal with
      | |- quiet (if ?b then _ else _) => destruct b
      | |- quiet (match ?x with _ => _ end) => destruct x
      end ].

Lemma quiet_record_event t w ty f to r a s p k o h :
  quiet (record_task_event t w ty f to r a s p k o h).
Proof. unfold record_task_event. quiet_go. Qed.
#[export] Hint Resolve quiet_record_event : py.

Lemma record_event_attempts t w ty f to r a s p k o h d res d' :
  record_task_event t w ty f to r a s p k o h d = (res, d') -> attempts d' = attempts d.
Proof.
  assert (forall e d1, attempts (append_task_event e d1).2 = attempts d1) as He.
  { intros e d1. unfold append_task_event. by destruct (list_find _ _) as [[]|]. }
  assert (forall e d1, attempts (append_outbox_event e d1).2 = attempts d1) as Ho.
  { intros e d1. unfold append_outbox_event. by destruct (list_find _ _) as [[]|]. }
  unfold record_task_event, mbind, stres_bind. intros E.
  match type of E with context [append_task_event ?e d] => specialize (He e d) end.
  destruct (append_task_event _ d) as [[i|e] d1]; [|by inv E].
  match type of E with context [append_outbox_event ?e d1] => specialize (Ho e d1) end.
  destruct (append_outbox_event _ d1) as [[i'|e] d2]; inv E; simpl in *; congruence.
Qed.

Lemma quiet_sync e s c : quiet (_sync_playbook_execution_status e s c).
Proof. unfold _sync_playbook_execution_status. quiet_go. Qed.
#[export] Hint Resolve quiet_sync : py.

Lemma quiet_record_status t r f to fin e p k ev now h :
  quiet (record_status_change t r f to fin e p k ev now h).
Proof. unfold record_status_change. quiet_go. Qed.
#[export] Hint Resolve quiet_record_status : py.

Lemma quiet_sync_of t s c : quiet (sync_execution_of t s c).
Proof. unfold sync_execution_of. quiet_go. apply quiet_gets. Qed.
#[export] Hint Resolve quiet_sync_of : py.

Lemma quiet_record_claim t r at_ h : quiet (_record_task_claim t r at_ h).
Proof. unfold _record_task_claim. quiet_go. apply quiet_gets. Qed.
#[export] Hint Resolve quiet_record_claim : py.

Lemma quiet_Ok {A} (c : stres db A) d r d' : quiet c -> c d = (r, d') ->
  (exists a, r = Ok a) /\ tasks d' = tasks d.
Proof. intros Hq E. destruct (Hq d) as (a & d1 & E1 & T). rewrite E1 in E. inv E. eauto. Qed.

Lemma writes_quiet d d1 d2 t r r' : writes d d1 t r r' -> tasks d2 = tasks d1 -> writes d d2 t r r'.
Proof. intros (H1 & H2 & H3) T. split_and!; [done|by rewrite T|done]. Qed.

(** Columns that carry the outcome of a task, not its place in the schedule. *)
Definition outcome_column (a : assignment) : Prop :=
  match a with Result _ | Error _ | StartedAt _ | CompletedAt _ => True | _ => False end.

Lemma bind_lift {A B} (r : res A) (f : A -> stres db B) d :
  (lift_res r ≫= f) d = match r with Ok a => f a d | Raise e => (Raise e, d) end.
Proof. by destruct r. Qed.

Lemma not_status_kwarg kwargs : Forall not_status kwargs -> status_kwarg kwargs = None.
Proof. induction 1 as [|a l Ha _ IH]; [done|]. by destruct a. Qed.

Definition is_status (a : assignment) : Prop := match a with Status _ => True | _ => False end.

(** Columns [update_task] may set beyond its keyword arguments. *)
Definition derivable (a : assignment) : Prop :=
  match a with Status _ | QueueShard _ => False | _ => True end.

Section writers.
Context `{SetOrder} `{TaskPlatform} `{JsonText}.

Section columns.
Context (Q : assignment -> Prop) (Q_derivable : forall a, derivable a -> Q a).
Local Hint Resolve Q_derivable : py.

Local Ltac derivable := repeat (constructor; [by apply Q_derivable|]); constructor.

Lemma put_kwarg_all a kwargs : Q a -> Forall Q kwargs -> Forall Q (put_kwarg a kwargs).
Proof.
  intros Ha. induction 1 as [|b l Hb Hl IH]; simpl; [by repeat constructor|].
  case_bool_decide; by constructor.
Qed.

Lemma normalize_all kwargs :
  Forall Q kwargs -> Forall Q (_normalize_frontier_updates_for_status kwargs).
Proof.
  intros Hk. unfold _normalize_frontier_updates_for_status.
  destruct (status_kwarg kwargs); [|done].
  repeat case_bool_decide; repeat apply put_kwarg_all; try done; by apply Q_derivable.
Qed.

Lemma budgeted_all kwargs cols :
  seq_res (map budgeted_kwarg kwargs) = Ok cols -> Forall Q kwargs -> Forall Q cols.
Proof.
  intros E Hk. apply seq_res_Ok in E. revert cols E.
  induction Hk as [|a l Ha _ IH]; intros [|c cols] E; simpl in E; try done.
  inv E. constructor; [|by apply IH].
  destruct a; simpl in *;
    try (match goal with H : _ = Ok c |- _ => inv H end; done);
    match goal with H : _ <$> ?x = Ok c |- _ => destruct x; inv H; by apply Q_derivable end.
Qed.

Lemma derived_all r c kwargs now cols :
  derived_scheduler_columns r c kwargs now = Ok cols -> Forall Q cols.
Proof.
  unfold derived_scheduler_columns. destruct (_ && _); [|intros [= <-]; constructor].
  cbv zeta. intros E. apply bind_Ok_inv in E as (reason & Hr & E). inv E.
  assert (Forall Q reason) as Hreason.
  { destruct (_ && _); [|by inv Hr]. destruct (bind_text _); inv Hr. derivable. }
  repeat (apply Forall_app; split); auto; repeat (case_match; try derivable).
Qed.
End columns.

Lemma put_kwarg_status a kwargs :
  column a ≠ "status" -> Exists is_status kwargs -> Exists is_status (put_kwarg a kwargs).
Proof.
  intros Ha. induction kwargs as [|b l IH]; intros Hex; [by inv Hex|]. simpl.
  case_bool_decide as E.
  - inv Hex; [|by right]. by destruct b.
  - inv Hex; [by left|right; auto].
Qed.

Lemma normalize_status kwargs :
  Exists is_status kwargs -> Exists is_status (_normalize_frontier_updates_for_status kwargs).
Proof.
  intros Hk. unfold _normalize_frontier_updates_for_status.
  destruct (status_kwarg kwargs); [|done].
  repeat case_bool_decide; repeat apply put_kwarg_status; done.
Qed.

Lemma budgeted_status kwargs cols :
  seq_res (map budgeted_kwarg kwargs) = Ok cols -> Exists is_status kwargs ->
  Exists is_status cols.
Proof.
  intros E Hk. apply seq_res_Ok in E. revert cols E.
  induction kwargs as [|a l IH]; intros [|c cols] E; simpl in E; try done; try (by inv Hk).
  inv E. inv Hk; [left|right; by apply IH]. destruct a; try done. simpl in *.
  match goal with H : Ok _ = Ok c |- _ => by inv H end.
Qed.

Lemma status_update_writes t st result error started completed now hex d res d' :
  update_task_status t st result error started completed now hex d = (res, d') ->
  (d' = d /\ exists e, res = Raise e)
  \/ (res = Ok tt /\ exists r rest, Forall outcome_column rest
      /\ writes d d' t r (set_columns (status_columns st ++ rest) r)).
Proof.
  intros E. unfold update_task_status in E.
  destruct (apply_task_payload_budget "result" result) as [v|e];
    [|inv E; left; eauto].
  unfold mbind at 1, stres_bind, lift_res in E. 
  destruct res as [[]|e]; [|left; apply transaction_Raise in E; eauto].
  right. split; [done|]. apply transaction_Ok in E.
  bind_inv E. unfold select_task, gets_st in Ha. inv Ha.
  bind_inv E. apply update_tasks_Ok in Ha as [(-> & -> & _)|(-> & r & _ & Hw & ->)]; [done|].
  cbn [Z.eqb] in E. eexists r, _. split; [|eapply writes_quiet; [exact Hw|]].
  - destruct (is_none result), error, started, completed; cbn; repeat constructor.
  - apply st_bind_Ok_inv in E as (row & d1 & Hrow & E).
    unfold select_task, gets_st in Hrow. inv Hrow.
    match type of E with ?c _ = _ => assert (quiet c) as Hq end.
    { destruct (_ !! t); [|apply quiet_ret]. destruct (negb _); [|apply quiet_ret].
      apply quiet_bind; [apply quiet_sync|intros ?; apply quiet_record_status]. }
    eapply quiet_Ok in E as [_ ->]; done.
Qed.

Definition context_column (a : assignment) : Prop :=
  match a with ExecutionContext _ | ProjectId _ => True | _ => False end.

(** An update of fields: nothing, or one row rewritten by the context and the
    project, the keyword arguments and the scheduler columns derived. *)
Lemma update_task_shape t ctx p expected kwargs now hex d res d' :
  update_task t ctx p expected kwargs now hex d = (res, d') ->
  let kw := _normalize_frontier_updates_for_status kwargs in
  (d' = d /\ (res = Ok true -> ctx = None))
  \/ (res = Ok true /\ exists r cols kwcols derived,
    writes d d' t r (set_columns (cols ++ kwcols ++ derived) r)
    /\ Forall context_column cols
    /\ seq_res (map budgeted_kwarg kw) = Ok kwcols
    /\ match ctx with
       | Some c => derived_scheduler_columns r c kw now = Ok derived | None => derived = [] end
    /\ match expected with Some l => t_status r ∈ map value l | None => True end).
Proof.
  cbv zeta. unfold update_task. set (kw := _normalize_frontier_updates_for_status kwargs). cbv zeta.
  rewrite bind_lift. destruct (match ctx with Some c => _ | None => _ end) as [cols|e] eqn:Hcols;
    [|intros [= <- <-]; by left].
  rewrite bind_lift. destruct (seq_res (map budgeted_kwarg kw)) as [kwcols|e] eqn:Hkw;
    [|intros [= <- <-]; by left].
  destruct (_ && _) eqn:Hempty.
  { intros [= <- <-]. left. split; [done|]. intros _. destruct ctx as [c|]; [|done]. exfalso.
    destruct (apply_task_payload_budget _ _); by inv Hcols. }
  intros E. destruct res as [b|e]; [|left; by apply transaction_Raise in E].
  apply transaction_Ok in E.
  apply st_bind_Ok_inv in E as (row & d0 & Hrow & E). unfold select_task, gets_st in Hrow. inv Hrow.
  destruct (match expected with Some l => _ | None => false end) eqn:Hexp; [inv E; by left|].
  rewrite bind_lift in E. destruct (match ctx with Some c => _ | None => _ end)
    as [derived|e] eqn:Hder in E; [|done].
  rewrite bind_lift in E. destruct (project_columns_of p ctx) as [pc|e] eqn:Hp; [|done].
  apply st_bind_Ok_inv in E as (n & d1 & Hn & E).
  apply update_tasks_Ok in Hn as [(-> & -> & _)|(-> & r & _ & Hw & ->)]; [done|].
  cbn [Z.eqb] in E. right.
  match type of E with ?c _ = _ => assert (b = true /\ tasks d' = tasks
    (with_tasks (<[t := set_columns (cols ++ pc ++ kwcols ++ derived) r]>) d0)) as [-> T] end.
  { destruct (status_kwarg kw) as [st|]; [|by inv E].
    destruct (negb _); [|by inv E].
    apply st_bind_Ok_inv in E as (u & d2 & Hs & E). apply quiet_Ok in Hs as [_ Hs]; [|auto with py].
    apply st_bind_Ok_inv in E as (row & d3 & Hrow & E). unfold select_task, gets_st in Hrow. inv Hrow.
    destruct (tasks d3 !! t); [|inv E; by rewrite Hs].
    apply st_bind_Ok_inv in E as (u2 & d4 & Hs2 & E).
    apply quiet_Ok in Hs2 as [_ Hs2]; [|auto with py]. inv E. by rewrite Hs2, Hs. }
  split; [done|]. exists r, (cols ++ pc), kwcols, derived. destruct Hw as (Hr & Hw).
  split_and!.
  - rewrite <- app_assoc. eapply writes_quiet; [|exact T]. by split.
  - apply Forall_app. split.
    + destruct ctx as [c|]; [|inv Hcols; constructor].
      destruct (apply_task_payload_budget _ _); inv Hcols. by repeat constructor.
    + revert Hp. unfold project_columns_of. destruct p, ctx;
        try (intros [= <-]; by repeat constructor).
      destruct (truthy _); [|intros [= <-]; by repeat constructor].
      destruct (bind_text _); intros E2; inv E2. by repeat constructor.
  - done.
  - rewrite Hr in Hder. destruct ctx; [done|by inv Hder].
  - destruct expected as [l|]; [|done]. rewrite Hr in Hexp. simpl in Hexp. by bool_prop.
Qed.

Lemma update_task_writes t ctx p expected kwargs now hex d res d' :
  update_task t ctx p expected kwargs now hex d = (res, d') ->
  d' = d \/ (res = Ok true /\ exists r set, writes d d' t r (set_columns set r)
             /\ (forall Q, (forall a, derivable a -> Q a) -> Forall Q kwargs -> Forall Q set)
             /\ (Exists is_status kwargs -> Exists is_status set)).
Proof.
  intros E. apply update_task_shape in E as [[-> _]|(-> & r & cols & kwcols & derived & Hw & Hc & Hkw & Hd & _)];
    [by left|right]. split; [done|]. exists r, (cols ++ kwcols ++ derived). split; [done|]. split.
  - intros Q HQ Hk. apply Forall_app; split; [|apply Forall_app; split].
    + eapply Forall_impl; [exact Hc|]. intros a Ha. apply HQ. by destruct a.
    + eapply budgeted_all; [done|exact Hkw|]. by apply normalize_all.
    + destruct ctx; [|subst derived; constructor]. by eapply derived_all.
  - intros Hk. apply Exists_app; right. apply Exists_app; left.
    eapply budgeted_status; [exact Hkw|]. by apply normalize_status.
Qed.

Lemma update_tx_writes t where_ set (f : Z -> bool) d res d' :
  transaction (n ← update_tasks t where_ set; mret (f n)) d = (res, d') ->
  d' = d \/ exists r, where_ r = true /\ writes d d' t r (set_columns set r).
Proof.
  intros E. destruct res as [b|e]; [|left; by apply transaction_Raise in E].
  apply transaction_Ok in E. apply st_bind_Ok_inv in E as (n & d1 & Hn & E). inv E.
  apply update_tasks_Ok in Hn as [(_ & -> & _)|(_ & r & Hr & Hw & _)]; [by left|right; eauto].
Qed.

Lemma transaction_select {A} t (k : option task_row -> stres db A) d :
  transaction (row ← select_task t; k row) d = transaction (k (tasks d !! t)) d.
Proof. done. Qed.

Lemma resume_writes t why c now d res d' :
  try_resume_resource_block t why c now d = (res, d') ->
  d' = d \/ exists r set, t_status r = value PENDING /\ Forall derivable set
             /\ writes d d' t r (set_columns set r).
Proof.
  intros E. unfold try_resume_resource_block in E. rewrite bind_lift in E.
  destruct (apply_task_payload_budget _ _) as [v|e]; [|inv E; by left].
  apply update_tx_writes in E as [->|(r & Hr & Hw)]; [by left|right].
  refine (ex_intro _ r (ex_intro _ _ (conj _ (conj _ Hw)))); [|by repeat constructor].
  unfold parked in Hr. by bool_prop.
Qed.

Lemma release_wait_writes t now d res d' :
  try_release_resource_wait_task t now d = (res, d') ->
  d' = d \/ exists r set, t_status r = value PENDING /\ Forall derivable set
             /\ writes d d' t r (set_columns set r).
Proof.
  intros E. unfold try_release_resource_wait_task in E.
  rewrite transaction_select in E.
  apply (update_tx_writes t _ _ (fun n => n =? 1)) in E as [->|(r & Hr & Hw)]; [by left|right].
  refine (ex_intro _ r (ex_intro _ _ (conj _ (conj _ Hw)))); [|by repeat constructor].
  unfold parked in Hr. by bool_prop.
Qed.

(** The update of a claim: nothing, or a pending row made running. *)
Lemma claim_update_writes t runner row free now hex d res d' :
  transaction (claim_update t runner row free now hex) d = (res, d') ->
  (res = Ok false /\ d' = d)
  \/ (res = Ok true /\ free = true
      /\ exists r, t_status r = value PENDING
         /\ writes d d' t r (set_columns (claim_columns row runner now) r)).
Proof.
  assert (forall d, exists b d', claim_update t runner row free now hex d = (Ok b, d')
    /\ ((b = false /\ d' = d) \/ (b = true /\ free = true /\ exists r, t_status r = value PENDING
         /\ writes d d' t r (set_columns (claim_columns row runner now) r)))) as Hc.
  { clear. intros d. unfold claim_update.
    set (upd := update_tasks _ _ _). destruct (upd d) as [[n|e] d1] eqn:Hu.
    - assert (rowcount_or_refused upd d = (Ok n, d1)) as Hr by (unfold rowcount_or_refused; by rewrite Hu).
      rewrite (st_bind_eq _ _ _ _ _ Hr). subst upd.
      apply update_tasks_Ok in Hu as [(-> & -> & _)|(-> & r & Hr' & Hw & ->)]; [by eexists _, _; eauto|].
      change (1 =? 1) with true. cbv iota.
      match goal with |- context [(_record_task_claim ?a ?b ?c ?e ≫= _) ?d0] =>
        destruct (quiet_record_claim a b c e d0) as (u & d2 & Eu & T) end.
      rewrite (st_bind_eq _ _ _ _ _ Eu). eexists _, _. split; [done|]. right.
      bool_prop. split_and!; [done..|]. exists r. split; [done|]. by eapply writes_quiet.
    - assert (d1 = d) as ->.
      { subst upd. unfold update_tasks in Hu. repeat case_match; by inv Hu. }
      assert (rowcount_or_refused upd d = (Ok 0, d)) as Hr by (unfold rowcount_or_refused; by rewrite Hu).
      rewrite (st_bind_eq _ _ _ _ _ Hr). eexists _, _. split; [done|]. by left. }
  intros E. destruct (Hc d) as (b & d1 & E1 & Hb). unfold transaction in E. rewrite E1 in E.
  inv E. destruct Hb as [[-> ->]|(-> & -> & Hr)]; auto.
Qed.

(** Every other writer: nothing, or one row rewritten. *)
Lemma writer_writes w d :
  tasks (run_writer w d).2 = tasks d
  \/ exists t r set, writes d (run_writer w d).2 t r (set_columns set r).
Proof.
  destruct w as [t st result error started completed now hex|t ctx expected kwargs now hex
    |t reason ctx now|t now]; simpl.
  - destruct (update_task_status t st result error started completed now hex d) as [res d'] eqn:E.
    unfold mbind, stres_bind. rewrite E.
    apply status_update_writes in E as [[-> [e ->]]|(-> & r & rest & _ & Hw)]; [by left|].
    right. by eexists _, _, _.
  - destruct (update_task t ctx None expected kwargs now hex d) as [res d'] eqn:E.
    apply update_task_writes in E as [->|(_ & r & set & Hw & _)]; [by left|right; eauto].
  - destruct (try_resume_resource_block t reason ctx now d) as [res d'] eqn:E.
    apply resume_writes in E as [->|(r & set & _ & _ & Hw)]; [by left|right; eauto].
  - destruct (try_release_resource_wait_task t now d) as [res d'] eqn:E.
    apply release_wait_writes in E as [->|(r & set & _ & _ & Hw)]; [by left|right; eauto].
Qed.
End writers.

(** * Distinct concurrency keys *)

Definition keyed (d : db) : Prop := forall t r, tasks d !! t = Some r -> t_id r = t.

Definition running_keys_distinct (d : db) : Prop :=
  forall t r t' r' k, tasks d !! t = Some r -> tasks d !! t' = Some r' ->
    indexed_key r = Some k -> indexed_key r' = Some k -> t = t'.

Lemma elem_of_rows d r : r ∈ rows d <-> exists t, tasks d !! t = Some r.
Proof.
  unfold rows. change (map snd) with (fmap (M:=list) (@snd string task_row)).
  rewrite list_elem_of_fmap. split.
  - intros ([t r'] & -> & Hin). apply elem_of_map_to_list in Hin. by exists t.
  - intros [t Ht]. exists (t, r). split; [done|]. by apply elem_of_map_to_list.
Qed.

Lemma existsb_rows P d : existsb P (rows d) = false <->
  forall t r, tasks d !! t = Some r -> P r = false.
Proof.
  split.
  - intros E t r Hr. destruct (P r) eqn:HP; [|done]. rewrite <- E. symmetry.
    apply existsb_exists. exists r. split; [|done]. apply list_elem_of_In, elem_of_rows. by exists t.
  - intros Hall. destruct (existsb P (rows d)) eqn:E; [|done].
    apply existsb_exists in E as (r & Hin & HP). apply list_elem_of_In, elem_of_rows in Hin as [t Ht].
    by rewrite (Hall _ _ Ht) in HP.
Qed.

Lemma writes_wf d d' t r r' :
  keyed d /\ running_keys_distinct d -> t_id r' = t_id r -> writes d d' t r r' ->
  keyed d' /\ running_keys_distinct d'.
Proof.
  intros [Hk Hd] Hid (Hr & T & Hc). unfold index_conflict in Hc. split.
  - intros t1 r1. rewrite T, lookup_insert_Some. intros [[<- <-]|[_ Hr1]]; [|by apply Hk].
    rewrite Hid. by apply Hk.
  - assert (forall t1 r1 k, t1 ≠ t -> tasks d !! t1 = Some r1 -> indexed_key r' = Some k ->
      indexed_key r1 ≠ Some k) as Hnew.
    { intros t1 r1 k Hne Hr1 Hk' Hk1. rewrite Hk', existsb_rows in Hc.
      specialize (Hc t1 r1 Hr1). rewrite (bool_decide_true (indexed_key r1 = _)) in Hc by done.
      rewrite andb_true_r in Hc. bool_prop. rewrite Hid in Hc.
      rewrite (Hk t1 r1 Hr1), (Hk t r Hr) in Hc. done. }
    intros t1 r1 t2 r2 k. rewrite T, !lookup_insert_Some.
    intros [[<- <-]|[Hn1 Hr1]] [[<- <-]|[Hn2 Hr2]] Hk1 Hk2; try done.
    + by destruct (Hnew t2 r2 k).
    + by destruct (Hnew t1 r1 k).
    + by eapply Hd.
Qed.

Lemma same_tasks_wf d d' :
  tasks d' = tasks d -> keyed d /\ running_keys_distinct d -> keyed d' /\ running_keys_distinct d'.
Proof. unfold keyed, running_keys_distinct. by intros ->. Qed.

Section theorems.
Context `{SetOrder} `{TaskPlatform} `{JsonText}.

(** One step of one claim: a stage, or the update. *)
Lemma claim_step_tasks allocations busy c s d d' s' :
  claim_step allocations busy c s d = Some (d', s') ->
  (d' = d /\ s' ≠ Finished true)
  \/ exists row held r, s = Statement row held true /\ s' = Finished true
     /\ t_status r = value PENDING
     /\ writes d d' (cl_task c) r (set_columns (claim_columns row (cl_runner c) (cl_now c)) r).
Proof.
  destruct s as [|row|row q sel mx|row held|row held free|b]; simpl; intros E.
  - inv E. left. split; [done|]. destruct (tasks _ !! _); [|done]. by case_bool_decide.
  - destruct (quota_request_of _ _) as [q|]; [|inv E; by left].
    destruct (busy _); [done|]. inv E. left. split; [done|].
    destruct (quota_terms _ _) as [[? ?]|]; done.
  - inv E. left. split; [done|]. by destruct (_ <? _).
  - inv E. by left.
  - destruct (transaction _ d) as [res d1] eqn:E1.
    apply claim_update_writes in E1 as [[-> ->]|(-> & -> & r & Hr & Hw)]; inv E; [by left|].
    right. by exists row, held, r.
  - done.
Qed.

Lemma step_wf allocations allowed w w' :
  world_step allocations allowed w w' ->
  keyed (w_db w) /\ running_keys_distinct (w_db w) ->
  keyed (w_db w') /\ running_keys_distinct (w_db w').
Proof.
  intros Hs Hwf. destruct Hs as [w i c s d' s' Hi Hc|w wr Hwr]; simpl.
  - apply claim_step_tasks in Hc as [[-> _]|(row & held & r & _ & _ & _ & Hw)]; [done|].
    eapply writes_wf; [done| |exact Hw]. apply set_columns_id.
  - destruct (writer_writes wr (w_db w)) as [T|(t & r & set & Hw)].
    + by eapply same_tasks_wf.
    + eapply writes_wf; [done| |exact Hw]. apply set_columns_id.
Qed.

(** C1: However claims and other writers interleave, two running tasks never
    have the same non-empty concurrency key. *)
Theorem running_tasks_exclusive allocations allowed w w' t r t' r' k :
  keyed (w_db w) -> running_keys_distinct (w_db w) ->
  rtc (world_step allocations allowed) w w' ->
  tasks (w_db w') !! t = Some r -> tasks (w_db w') !! t' = Some r' ->
  t_status r = value RUNNING -> t_status r' = value RUNNING ->
  t_concurrency_key r = Some k -> t_concurrency_key r' = Some k -> k ≠ "" ->
  t = t'.
Proof.
  intros Hk Hd Hrun. assert (keyed (w_db w') /\ running_keys_distinct (w_db w')) as [_ Hd'].
  { clear -Hk Hd Hrun. induction Hrun as [|w w1 w' Hs _ IH]; [done|].
    destruct (step_wf _ _ _ _ Hs (conj Hk Hd)). by apply IH. }
  intros Hr Hr' Hst Hst' Hck Hck' Hne. eapply (Hd' t r t' r' k Hr Hr');
    unfold indexed_key; rewrite ?Hst, ?Hst', ?Hck, ?Hck'; cbn;
    rewrite ?bool_decide_true by done; rewrite ?bool_decide_false by done; done.
Qed.

(** * One winner *)

(** Writers that never send a task back to the pending state. *)
Definition keeps_claimed (w : writer) : Prop :=
  match w with
  | WStatus _ st _ _ _ _ _ _ => st ≠ PENDING
  | WUpdate _ _ _ kwargs _ _ => Forall not_status kwargs
  | WResume _ _ _ _ | WReleaseWait _ _ => True
  end.

Definition claimed_row (d : db) (t : string) : Prop :=
  exists r, tasks d !! t = Some r /\ t_status r ≠ value PENDING.

Lemma status_columns_status st rest r :
  Forall outcome_column rest -> t_status (set_columns (status_columns st ++ rest) r) = value st.
Proof.
  intros Hr. rewrite set_columns_app, leaves_status.
  - destruct r, st; reflexivity.
  - eapply Forall_impl; [exact Hr|]. by intros [].
Qed.

Lemma derivable_not_status a : derivable a -> not_status a.
Proof. by destruct a. Qed.

Lemma writer_keeps_claimed wr d t :
  keeps_claimed wr -> claimed_row d t -> claimed_row (run_writer wr d).2 t.
Proof.
  intros Hk (r0 & Hr0 & Hne).
  assert (forall d' t' r r', writes d d' t' r r' ->
    (t_status r ≠ value PENDING -> t_status r' ≠ value PENDING) -> claimed_row d' t) as Hw.
  { intros d' t' r r' (Hr & T & _) Hst. destruct (decide (t' = t)) as [->|Hne'].
    - exists r'. rewrite T, lookup_insert_eq. split; [done|]. apply Hst. congruence.
    - exists r0. by rewrite T, lookup_insert_ne. }
  destruct wr as [t1 st result error started completed now hex|t1 ctx expected kwargs now hex
    |t1 reason ctx now|t1 now]; simpl in *.
  - destruct (update_task_status t1 st result error started completed now hex d) as [res d'] eqn:E.
    unfold mbind, stres_bind. rewrite E.
    apply status_update_writes in E as [[-> [e ->]]|(-> & r & rest & Hrest & Hwr)]; [by exists r0|].
    eapply Hw; [exact Hwr|]. intros _. rewrite status_columns_status by done. by destruct st.
  - destruct (update_task t1 ctx None expected kwargs now hex d) as [res d'] eqn:E.
    apply update_task_writes in E as [->|(_ & r & set & Hwr & Hall & _)]; [by exists r0|].
    eapply Hw; [exact Hwr|]. rewrite leaves_status; [done|].
    apply (Hall not_status derivable_not_status Hk).
  - destruct (try_resume_resource_block t1 reason ctx now d) as [res d'] eqn:E.
    apply resume_writes in E as [->|(r & set & Hst & _ & Hwr)]; [by exists r0|].
    eapply Hw; [exact Hwr|done].
  - destruct (try_release_resource_wait_task t1 now d) as [res d'] eqn:E.
    apply release_wait_writes in E as [->|(r & set & Hst & _ & Hwr)]; [by exists r0|].
    eapply Hw; [exact Hwr|done].
Qed.

Lemma claim_columns_status row runner now r :
  t_status (set_columns (claim_columns row runner now) r) = value RUNNING.
Proof. by destruct r. Qed.

(** Winners have distinct tasks, which are not pending. *)
Definition winners_ok (w : world) : Prop :=
  (forall i c, w_claims w !! i = Some (c, Finished true) -> claimed_row (w_db w) (cl_task c))
  /\ (forall i j ci cj, w_claims w !! i = Some (ci, Finished true) ->
        w_claims w !! j = Some (cj, Finished true) -> cl_task ci = cl_task cj -> i = j).

Lemma step_winners allocations w w' :
  world_step allocations keeps_claimed w w' -> winners_ok w -> winners_ok w'.
Proof.
  intros Hs [Hc Hd]. destruct Hs as [w i c s d' s' Hi Hst|w wr Hwr].
  - apply claim_step_tasks in Hst as [[-> Hs']|(row & held & r & -> & -> & Hp & Hr & T & Hidx)].
    + split; simpl.
      * intros k ck. rewrite list_lookup_insert_Some.
        intros [(<- & [= <- ->] & _)|[_ Hk]]; [done|by eapply Hc].
      * intros k j ck cj. rewrite !list_lookup_insert_Some.
        intros [(<- & [= <- ->] & _)|[_ Hk]]; [done|].
        intros [(<- & [= <- ->] & _)|[_ Hj]]; [done|by eapply Hd].
    + assert (forall k ck, w_claims w !! k = Some (ck, Finished true) -> cl_task ck ≠ cl_task c)
        as Hother.
      { intros k ck Hk Heq. destruct (Hc k ck Hk) as (r1 & Hr1 & Hst1). congruence. }
      split; simpl.
      * intros k ck. rewrite list_lookup_insert_Some. intros [(<- & [= <-] & _)|[_ Hk]].
        -- eexists. rewrite T, lookup_insert_eq. split; [done|].
           by rewrite claim_columns_status.
        -- destruct (Hc k ck Hk) as (r1 & Hr1 & Hst1). exists r1.
           rewrite T, lookup_insert_ne by (symmetry; by eapply Hother). done.
      * intros k j ck cj. rewrite !list_lookup_insert_Some.
        intros [(<- & [= <-] & _)|[Hk0 Hk]] [(<- & [= <-] & _)|[Hj0 Hj]] E; try done.
        -- by destruct (Hother j cj Hj).
        -- by destruct (Hother k ck Hk).
        -- by eapply Hd.
  - split; simpl; [|done]. intros i c Hi. apply writer_keeps_claimed; [done|by eapply Hc].
Qed.

(** C31: A pending task is claimed once: of any number of interleaved claims of
    it, at most one succeeds, as long as no writer sends it back to pending. *)
Theorem pending_task_claimed_once allocations w w' i j ci cj :
  all_start w -> rtc (world_step allocations keeps_claimed) w w' ->
  w_claims w' !! i = Some (ci, Finished true) -> w_claims w' !! j = Some (cj, Finished true) ->
  cl_task ci = cl_task cj -> i = j.
Proof.
  intros Hst Hrun. assert (winners_ok w') as [_ Hd]; [|by apply Hd].
  assert (winners_ok w) as Hw.
  { assert (forall k ck, w_claims w !! k ≠ Some (ck, Finished true)) as Hno.
    { intros k ck Hk. unfold all_start in Hst. rewrite Forall_lookup in Hst.
      specialize (Hst k _ Hk). done. }
    split; intros; exfalso; by eapply Hno. }
  clear Hst. induction Hrun as [|w w1 w' Hs _ IH]; [done|].
  apply IH. by eapply step_winners.
Qed.
End theorems.

(** * The workspace quota *)

Lemma count_rows_insert P d d' t r r' :
  tasks d !! t = Some r -> tasks d' = <[t := r']> (tasks d) ->
  count_rows P d' = count_rows P d - Z.b2z (P r) + Z.b2z (P r').
Proof.
  intros Hr T.
  assert (forall m : gmap string task_row, m !! t = None -> forall x,
    Z.of_nat (length (List.filter P (map snd (map_to_list (<[t:=x]> m)))))
    = Z.of_nat (length (List.filter P (map snd (map_to_list m)))) + Z.b2z (P x)) as Hins.
  { intros m Hm x.
    assert (map snd (map_to_list (<[t:=x]> m)) ≡ₚ x :: map snd (map_to_list m)) as Hp.
    { change (map snd) with (fmap (M:=list) (@snd string task_row)).
      by rewrite map_to_list_insert. }
    assert (forall l l' : list task_row, l ≡ₚ l' ->
      length (List.filter P l) = length (List.filter P l')) as Hlen.
    { clear. induction 1; simpl; auto; repeat case_match; simpl; lia. }
    rewrite (Hlen _ _ Hp). simpl. destruct (P x); cbn [length Z.b2z]; lia. }
  unfold count_rows, rows. rewrite T.
  rewrite <- (insert_delete_eq (tasks d) t r').
  rewrite (Hins (delete t (tasks d)) (lookup_delete_eq _ _) r').
  rewrite <- (insert_delete_id (tasks d) t r Hr) at 2.
  rewrite (Hins (delete t (tasks d)) (lookup_delete_eq _ _) r). lia.
Qed.

Lemma count_rows_same P d d' : tasks d' = tasks d -> count_rows P d' = count_rows P d.
Proof. unfold count_rows, rows. by intros ->. Qed.

Lemma count_rows_le P Q d :
  (forall r, P r = true -> Q r = true) -> count_rows P d <= count_rows Q d.
Proof.
  intros HPQ. unfold count_rows. apply Nat2Z.inj_le. induction (rows d) as [|r l IH]; simpl; [lia|].
  destruct (P r) eqn:HP; [rewrite (HPQ _ HP); simpl; lia|]. destruct (Q r); simpl; lia.
Qed.

(** Excluding one row changes the count by that row alone. *)
Lemma count_rows_except P d t r :
  keyed d -> tasks d !! t = Some r ->
  count_rows (fun x => P x && negb (bool_decide (t_id x = t))) d = count_rows P d - Z.b2z (P r).
Proof.
  intros Hk Hr.
  pose (d0 := with_tasks (delete t) d).
  assert (forall Q, count_rows Q d = count_rows Q d0 + Z.b2z (Q r)) as Hsplit.
  { intros Q. assert (d0 = with_tasks (delete t) d) by done.
    unfold count_rows, rows, d0. simpl.
    assert (map snd (map_to_list (tasks d)) ≡ₚ r :: map snd (map_to_list (delete t (tasks d)))) as Hp.
    { change (map snd) with (fmap (M:=list) (@snd string task_row)).
      rewrite <- (map_to_list_delete (tasks d) t r Hr). done. }
    assert (forall l l' : list task_row, l ≡ₚ l' ->
      length (List.filter Q l) = length (List.filter Q l')) as Hlen.
    { clear. induction 1; simpl; auto; repeat case_match; simpl; lia. }
    rewrite (Hlen _ _ Hp). simpl. destruct (Q r); cbn [length Z.b2z]; lia. }
  rewrite !Hsplit. rewrite (Hk t r Hr), bool_decide_true, andb_false_r by done. cbn [Z.b2z].
  enough (count_rows (fun x => P x && negb (bool_decide (t_id x = t))) d0 = count_rows P d0) by lia.
  unfold count_rows. do 2 f_equal. apply filter_ext_in. intros x Hx.
  apply list_elem_of_In, elem_of_rows in Hx as [t' Ht'].
  unfold d0 in Ht'. simpl in Ht'. apply lookup_delete_Some in Ht' as [Hne Ht'].
  rewrite (Hk t' x Ht'), bool_decide_false by congruence. by rewrite andb_true_r.
Qed.

Lemma locked_by_other_false cs i a j c s :
  locked_by_other cs i a = false -> cs !! j = Some (c, s) -> j ≠ i -> held_by s ≠ Some a.
Proof.
  unfold locked_by_other. intros E Hj Hne Hh.
  assert (existsb (fun jc => negb (Nat.eqb jc.1 i) && bool_decide (held_by jc.2.2 = Some a))
            (imap (fun j c => (j, c)) cs) = true); [|congruence].
  apply existsb_exists. exists (j, (c, s)). split.
  - apply list_elem_of_In, elem_of_lookup_imap. eauto.
  - cbn [fst snd]. rewrite (proj2 (Nat.eqb_neq j i) Hne). by rewrite bool_decide_true.
Qed.

Section quota.
Context `{SetOrder} `{TaskPlatform} `{JsonText}.
Context (allocations : gmap string allocation_row).
Context (al ws shard : string) (sels : list string) (M : Z).

(** The tasks the quota is about. *)
Definition in_area (r : task_row) : Prop :=
  t_workspace_id r = ws /\ t_queue_shard r = Some shard.

(** A claim of such a task comes with a decision naming allocation [al], whose
    row allows [M] claims among the tasks selected. *)
Definition under_quota (c : claim) : Prop :=
  forall row, in_area row -> exists metadata,
    quota_request_of (cl_decision c) row = Some (mkQuota al ws shard metadata)
    /\ quota_terms allocations (mkQuota al ws shard metadata) = Some (sels, M).

Definition no_start_no_move (a : assignment) : Prop :=
  match a with Status s => s ≠ value RUNNING | QueueShard _ => False | _ => True end.

(** Writers that neither start a task nor move one between queue shards, and
    replace a context only when they also set a status. *)
Definition quota_neutral (w : writer) : Prop :=
  match w with
  | WStatus _ st _ _ _ _ _ _ => st ≠ RUNNING
  | WUpdate _ _ _ kwargs _ _ => Exists is_status kwargs /\ Forall no_start_no_move kwargs
  | WResume _ _ _ _ | WReleaseWait _ _ => True
  end.

Notation P := (counted ws shard sels).

Lemma not_running_not_counted r : t_status r ≠ value RUNNING -> P r = false.
Proof.
  intros Hne. unfold counted, is_running. rewrite bool_decide_false by done. apply andb_false_r.
Qed.

Lemma not_in_area_not_counted r : ~ in_area r -> P r = false.
Proof.
  intros Hn. unfold counted, in_quota.
  destruct (decide (t_workspace_id r = ws)) as [E1|E1]; [|by rewrite bool_decide_false].
  destruct (decide (t_queue_shard r = Some shard)) as [E2|E2]; [by destruct Hn|].
  rewrite (bool_decide_false (_ = Some shard)) by done. by rewrite andb_false_r.
Qed.

Lemma leaves_shard set :
  Forall (fun a => match a with QueueShard _ => False | _ => True end) set -> leaves t_queue_shard set.
Proof.
  intros Hs. apply leaves_forall. eapply Forall_impl; [exact Hs|].
  intros a Ha r. by destruct r, a.
Qed.

Lemma status_after set r :
  Forall no_start_no_move set -> t_status r ≠ value RUNNING \/ Exists is_status set ->
  t_status (set_columns set r) ≠ value RUNNING.
Proof.
  intros Hs. revert r. induction Hs as [|a set Ha _ IH]; intros r Hr.
  - destruct Hr as [Hr|Hr]; [done|by inv Hr].
  - change (set_columns (a :: set) r) with (set_columns set (set_column r a)). apply IH.
    destruct Hr as [Hr|Hr]; [left; by destruct r, a|].
    inv Hr; [|by right]. left. by destruct r, a.
Qed.

(** What a neutral writer does to a row: it stays in its place, not running. *)
Definition demotes (d d' : db) : Prop :=
  tasks d' = tasks d \/ exists t r r', writes d d' t r r' /\ t_id r' = t_id r
    /\ t_workspace_id r' = t_workspace_id r /\ t_queue_shard r' = t_queue_shard r
    /\ t_status r' ≠ value RUNNING.

Lemma neutral_demotes wr d : quota_neutral wr -> demotes d (run_writer wr d).2.
Proof.
  intros Hn.
  assert (forall d' t r set, writes d d' t r (set_columns set r) -> leaves t_queue_shard set ->
    t_status (set_columns set r) ≠ value RUNNING -> demotes d d') as Hgen.
  { intros d' t r set Hw Hl Hst. right. exists t, r, (set_columns set r).
    destruct (set_columns_id set r) as (E1 & E2 & _). rewrite Hl. done. }
  destruct wr as [t1 st result error started completed now hex|t1 ctx expected kwargs now hex
    |t1 reason ctx now|t1 now]; simpl in *.
  - destruct (update_task_status t1 st result error started completed now hex d) as [res d'] eqn:E.
    unfold mbind, stres_bind. rewrite E.
    apply status_update_writes in E as [[-> [e ->]]|(-> & r & rest & Hrest & Hwr)]; [by left|].
    eapply Hgen; [exact Hwr| |].
    + apply leaves_shard, Forall_app. split; [|eapply Forall_impl; [exact Hrest|by intros []]].
      destruct st; by repeat constructor.
    + rewrite status_columns_status by done. by destruct st.
  - destruct Hn as [Hex Hall].
    destruct (update_task t1 ctx None expected kwargs now hex d) as [res d'] eqn:E.
    apply update_task_writes in E as [->|(_ & r & set & Hwr & HQ & HE)]; [by left|].
    assert (Forall no_start_no_move set) as Hset by (apply HQ; [by intros []|done]).
    eapply Hgen; [exact Hwr| |].
    + apply leaves_shard. eapply Forall_impl; [exact Hset|by intros []].
    + apply status_after; [done|right; auto].
  - destruct (try_resume_resource_block t1 reason ctx now d) as [res d'] eqn:E.
    apply resume_writes in E as [->|(r & set & Hst & Hset & Hwr)]; [by left|].
    eapply Hgen; [exact Hwr| |].
    + apply leaves_shard. eapply Forall_impl; [exact Hset|by intros []].
    + rewrite leaves_status; [by rewrite Hst|].
      eapply Forall_impl; [exact Hset|apply derivable_not_status].
  - destruct (try_release_resource_wait_task t1 now d) as [res d'] eqn:E.
    apply release_wait_writes in E as [->|(r & set & Hst & Hset & Hwr)]; [by left|].
    eapply Hgen; [exact Hwr| |].
    + apply leaves_shard. eapply Forall_impl; [exact Hset|by intros []].
    + rewrite leaves_status; [by rewrite Hst|].
      eapply Forall_impl; [exact Hset|apply derivable_not_status].
Qed.

(** The task of a claim is still where the row it read was. *)
Definition row_matches (d : db) (c : claim) (row : task_row) : Prop :=
  exists r, tasks d !! cl_task c = Some r /\ t_workspace_id r = t_workspace_id row
            /\ t_queue_shard r = t_queue_shard row.

Definition others_below (d : db) (c : claim) : Prop :=
  count_rows (fun x => P x && negb (bool_decide (t_id x = cl_task c))) d < M.

Definition stage_ok (d : db) (c : claim) (s : stage) : Prop :=
  match s with
  | Start | Finished _ => True
  | HasRow row => row_matches d c row
  | Locked row q sel mx =>
      row_matches d c row
      /\ (in_area row -> exists md, q = mkQuota al ws shard md /\ sel = sels /\ mx = M)
  | Allowed row held | Statement row held _ =>
      row_matches d c row /\ (in_area row -> held = Some al /\ others_below d c)
  end.

Definition quota_inv (w : world) : Prop :=
  keyed (w_db w) /\ count_rows P (w_db w) <= M
  /\ (forall i c s, w_claims w !! i = Some (c, s) -> under_quota c /\ stage_ok (w_db w) c s)
  /\ (forall i j ci si cj sj, w_claims w !! i = Some (ci, si) -> w_claims w !! j = Some (cj, sj) ->
        held_by si = Some al -> held_by sj = Some al -> i = j).

(** A change of one row that keeps every claim's conditions. *)
Lemma stage_ok_writes d d' t r r' c s :
  writes d d' t r r' -> t_workspace_id r' = t_workspace_id r ->
  t_queue_shard r' = t_queue_shard r ->
  (held_by s = Some al -> P r' = false) ->
  stage_ok d c s -> stage_ok d' c s.
Proof.
  intros (Hr & T & _) Hws Hsh HP.
  assert (forall row, row_matches d c row -> row_matches d' c row) as Hrm.
  { intros row (r0 & Hr0 & E1 & E2). unfold row_matches. rewrite T.
    destruct (decide (t = cl_task c)) as [->|Hne].
    - exists r'. rewrite lookup_insert_eq. split; [done|]. split; congruence.
    - exists r0. by rewrite lookup_insert_ne. }
  assert (held_by s = Some al -> others_below d c -> others_below d' c) as Hob.
  { intros Hh Hb. unfold others_below in *. erewrite count_rows_insert by eauto.
    rewrite (HP Hh). cbn [andb Z.b2z]. destruct (_ && _); cbn [Z.b2z]; lia. }
  destruct s as [|row|row q sel mx|row held|row held free|b]; simpl in *; auto;
    try (intros [Hm Hq]; split; auto; intros Ha; destruct (Hq Ha) as [-> Hb]; auto).
Qed.

Lemma stage_ok_same d d' c s : tasks d' = tasks d -> stage_ok d c s -> stage_ok d' c s.
Proof.
  intros T. assert (others_below d c -> others_below d' c) as Hob
    by (unfold others_below; by rewrite (count_rows_same _ d d') by done).
  destruct s; simpl; unfold row_matches; rewrite ?T; naive_solver.
Qed.

(** A step of a claim that writes nothing. *)
Lemma quiet_step_ok busy d c s s' :
  claim_step allocations busy c s d = Some (d, s') -> under_quota c -> stage_ok d c s ->
  (s' ≠ Finished true) -> 
  stage_ok d c s' /\ (held_by s' = Some al -> held_by s = Some al \/ busy al = false).
Proof.
  intros E Hu Hok Hne.
  destruct s as [|row|row q sel mx|row held|row held free|b]; simpl in *.
  - inv E. destruct (tasks d !! cl_task c) as [r|] eqn:Hr; [|done].
    case_bool_decide; [|done]. simpl. split; [|done]. by exists r.
  - destruct (quota_request_of (cl_decision c) row) as [q|] eqn:Hq.
    + destruct (busy _) eqn:Hb; [done|]. inv E.
      destruct (quota_terms allocations q) as [[sel mx]|] eqn:Ht; [|done].
      split; [split; [done|]|].
      * intros Ha. destruct (Hu row Ha) as (md & Hq' & Ht').
        assert (q = mkQuota al ws shard md) as -> by congruence.
        exists md. split; [done|]. split; congruence.
      * simpl. intros [= Eal]. right. by rewrite <- Eal.
    + inv E. split; [split; [done|]|done].
      intros Ha. destruct (Hu row Ha) as (md & Hq' & _). congruence.
  - inv E. destruct Hok as [Hm Hq]. destruct (Z.ltb_spec (quota_count (cl_task c) q sel d) mx); [|done].
    split; [|simpl; auto]. split; [done|]. intros Ha. destruct (Hq Ha) as (md & -> & -> & ->).
    split; [done|]. done.
  - inv E. split; [done|]. simpl. auto.
  - destruct (transaction _ d) as [res d1] eqn:E1.
    destruct res as [b|e]; inv E; [|done]. destruct b; done.
  - done.
Qed.

Lemma step_quota w w' :
  world_step allocations quota_neutral w w' -> quota_inv w -> quota_inv w'.
Proof.
  intros Hs (Hk & Hcount & Hst & Hone). destruct Hs as [w i c s d' s' Hi Hstep|w wr Hwr].
  - destruct (Hst i c s Hi) as [Hu Hok].
    destruct (claim_step_tasks _ _ _ _ _ _ _ Hstep)
      as [[-> Hne]|(row & held & r & -> & -> & Hp & Hw)].
    + destruct (quiet_step_ok _ _ _ _ _ Hstep Hu Hok Hne) as [Hok' Hheld].
      split_and!; simpl; [done|done| |].
      * intros k ck sk. rewrite list_lookup_insert_Some.
        intros [(<- & [= <- <-] & _)|[_ Hk']]; [done|by apply (Hst k)].
      * assert (forall k ck sk, k ≠ i -> w_claims w !! k = Some (ck, sk) ->
          held_by s' = Some al -> held_by sk ≠ Some al) as Hexcl.
        { intros k ck sk Hki Hk' Hh. destruct (Hheld Hh) as [Hs|Hb].
          - intros Hsk. apply Hki. by eapply Hone.
          - by eapply locked_by_other_false. }
        intros k j ck sk cj sj. rewrite !list_lookup_insert_Some.
        intros [(<- & [= <- <-] & _)|[Hk0 Hk']] [(<- & [= <- <-] & _)|[Hj0 Hj]] H1' H2'; try done.
        -- by destruct (Hexcl j cj sj).
        -- by destruct (Hexcl k ck sk).
        -- by eapply Hone.
    + simpl in Hok. destruct Hok as [(r0 & Hr0 & Ews & Esh) Harea].
      pose proof Hw as (Hr & T & _). rewrite Hr in Hr0. inv Hr0.
      set (r' := set_columns (claim_columns row (cl_runner c) (cl_now c)) r0) in *.
      assert (t_workspace_id r' = t_workspace_id r0 /\ t_queue_shard r' = t_queue_shard r0)
        as [Ews' Esh'] by (by destruct r0).
      assert (t_id r' = t_id r0) as Eid by apply set_columns_id.
      assert (P r0 = false) as HPr by (apply not_running_not_counted; by rewrite Hp).
      assert (in_area row -> held = Some al /\ count_rows P (w_db w) < M) as Ha.
      { intros Ha. destruct (Harea Ha) as [-> Hb]. split; [done|].
        unfold others_below in Hb. rewrite (count_rows_except P _ _ r0) in Hb by done.
        rewrite HPr in Hb. cbn [Z.b2z] in Hb. lia. }
      assert (~ in_area row -> P r' = false) as Hna.
      { intros Hn. apply not_in_area_not_counted. intros [A1 A2]. apply Hn. split; congruence. }
      assert (forall k ck sk, k ≠ i -> w_claims w !! k = Some (ck, sk) ->
        held_by sk = Some al -> P r' = false) as Hothers.
      { intros k ck sk Hki Hk' Hh. apply Hna. intros Hin. destruct (Ha Hin) as [-> _].
        apply Hki. eapply Hone; eauto. }
      split_and!; simpl.
      * intros t1 r1. rewrite T, lookup_insert_Some. intros [[<- <-]|[_ Hr1]]; [|by apply Hk].
        rewrite Eid. by apply Hk.
      * erewrite count_rows_insert by eauto. rewrite HPr.
        assert (Z.b2z (P r') <= 1) as Hle1 by (by destruct (P r')).
        cbn [Z.b2z]. destruct (decide (t_workspace_id row = ws)) as [A1|A1];
          [destruct (decide (t_queue_shard row = Some shard)) as [A2|A2]|].
        -- destruct (Ha (conj A1 A2)). lia.
        -- rewrite Hna by (by intros [_ ?]). cbn [Z.b2z]. lia.
        -- rewrite Hna by (by intros [? _]). cbn [Z.b2z]. lia.
      * intros k ck sk. rewrite list_lookup_insert_Some.
        intros [(<- & [= <- <-] & _)|[Hki Hk']]; [done|].
        destruct (Hst k ck sk Hk') as [Huk Hokk]. split; [done|].
        eapply stage_ok_writes; [exact Hw|done|done| |done].
        intros Hh. by eapply (Hothers k ck sk).
      * intros k j ck sk cj sj. rewrite !list_lookup_insert_Some.
        intros [(<- & [= <- <-] & _)|[Hk0 Hk']] [(<- & [= <- <-] & _)|[Hj0 Hj]] H1' H2'; try done.
        by eapply Hone.
  - destruct (neutral_demotes wr (w_db w) Hwr) as [T|(t & r & r' & Hw & Eid & Ews & Esh & Hnr)].
    + split_and!; simpl; [by unfold keyed; rewrite T|by rewrite (count_rows_same _ _ _ T)| |done].
      intros k ck sk Hk'. destruct (Hst k ck sk Hk') as [Huk Hokk]. split; [done|].
      by eapply stage_ok_same.
    + pose proof Hw as (Hr & T & _). pose proof (not_running_not_counted r' Hnr) as HPr'.
      split_and!; simpl; [| | |done].
      * intros t1 r1. rewrite T, lookup_insert_Some. intros [[<- <-]|[_ Hr1]]; [|by apply Hk].
        rewrite Eid. by apply Hk.
      * erewrite count_rows_insert by eauto. rewrite HPr'. destruct (P r); cbn [Z.b2z]; lia.
      * intros k ck sk Hk'. destruct (Hst k ck sk Hk') as [Huk Hokk]. split; [done|].
        eapply stage_ok_writes; [exact Hw|done|done|done|done].
Qed.

(** C2: The workspace quota holds under any interleaving: with every claim in
    the area admitted under the allocation, the running tasks it counts never
    exceed the limit, whatever claims of other areas and finishing, releasing
    and resuming writers do meanwhile. *)
Theorem workspace_quota_never_exceeded w w' :
  keyed (w_db w) -> all_start w -> Forall (fun cs => under_quota cs.1) (w_claims w) ->
  count_rows P (w_db w) <= M ->
  rtc (world_step allocations quota_neutral) w w' ->
  count_rows P (w_db w') <= M.
Proof.
  intros Hk Hst Hu Hc Hrun. assert (quota_inv w') as (_ & Hc' & _); [|done].
  assert (quota_inv w) as Hw.
  { unfold all_start in Hst. rewrite Forall_lookup in Hst, Hu. split_and!; [done|done| |].
    - intros i c s Hi. specialize (Hst i _ Hi). specialize (Hu i _ Hi). simpl in *. by subst.
    - intros i j ci si cj sj Hi Hj Hh. specialize (Hst i _ Hi). simpl in *. by subst. }
  clear -Hw Hrun. induction Hrun as [|w w1 w' Hs _ IH]; [done|]. apply IH. by eapply step_quota.
Qed.
End quota.

(** * The method and its statements *)

Section method.
Context `{SetOrder} `{TaskPlatform} `{JsonText}.

Lemma transaction_gets {A B} (f : db -> A) (k : A -> stres db B) d :
  transaction (a ← gets_st f; k a) d = transaction (k (f d)) d.
Proof. done. Qed.

Lemma claim_update_total t runner row free now hex d :
  exists b d', claim_update t runner row free now hex d = (Ok b, d')
    /\ transaction (claim_update t runner row free now hex) d = (Ok b, d').
Proof.
  destruct (transaction (claim_update t runner row free now hex) d) as [res d'] eqn:E.
  destruct (claim_update_writes _ _ _ _ _ _ _ _ _ E) as [[-> _]|[-> _]];
    eexists _, _; (split; [by apply transaction_Ok in E|done]).
Qed.

(** The method is its statements: a claim that runs alone, statement by
    statement, gives the answer and the tables of [try_claim_task], and needs
    no more than five statements. *)
Theorem claim_alone_is_method allocations c d :
  exists b d',
    try_claim_task allocations (cl_task c) (cl_runner c) (cl_keys c) (cl_decision c)
      (cl_now c) (cl_hex c) d = (Ok b, d')
    /\ run_alone 5 allocations c Start d = Some (b, d').
Proof.
  unfold try_claim_task. rewrite transaction_select. cbn [run_alone claim_step].
  destruct (tasks d !! cl_task c) as [row|] eqn:Hrow; [|by eexists _, _].
  case_bool_decide as Hp; [|by eexists _, _]. cbn [negb run_alone claim_step].
  unfold _workspace_quota_allows_claim.
  assert (forall k, exists b d',
    transaction (free ← gets_st (fun d => negb (running_conflict (cl_task c)
                   (claim_keys (cl_keys c) row) d));
                 claim_update (cl_task c) (cl_runner c) row free (cl_now c) (cl_hex c)) d
      = (Ok b, d')
    /\ run_alone (S (S k)) allocations c (Allowed row None) d = Some (b, d')
    /\ forall al, run_alone (S (S k)) allocations c (Allowed row (Some al)) d = Some (b, d')) as Hrest.
  { intros k.
    destruct (claim_update_total (cl_task c) (cl_runner c) row
      (negb (running_conflict (cl_task c) (claim_keys (cl_keys c) row) d)) (cl_now c) (cl_hex c) d)
      as (b & d' & E & Etx).
    exists b, d'. unfold transaction at 1. rewrite (st_bind_eq (gets_st _) _ _ _ d eq_refl).
    rewrite E. cbn [run_alone claim_step]. rewrite Etx. by destruct k. }
  destruct (quota_request_of (cl_decision c) row) as [q|].
  - destruct (quota_terms allocations q) as [[sel mx]|]; [|by eexists _, _].
    cbn [run_alone claim_step].
    destruct (Hrest 0%nat) as (b & d' & E & _ & R). rewrite transaction_gets.
    destruct (quota_count (cl_task c) q sel d <? mx) eqn:Hq.
    + exists b, d'. split; [exact E|apply R].
    + by exists false, d.
  - destruct (Hrest 1%nat) as (b & d' & E & R & _). exists b, d'. split; [exact E|exact R].
Qed.

(** A claim records one attempt, numbered after those of its run. *)
Lemma record_claim_attempt t runner now hex d r u d' :
  tasks d !! t = Some r -> _record_task_claim t runner now hex d = (Ok u, d') ->
  (forall a, a ∈ attempts d ->
     at_idempotency_key a ≠ "task:" +:+ t +:+ ":runner:" +:+ runner +:+ ":claim:" +:+ isoformat now) ->
  exists a, attempts d' = attempts d ++ [a] /\ at_task_id a = t
    /\ at_attempt_no a = next_attempt_no (_run_id_for_task t (t_execution_id r)) (attempts d).
Proof.
  intros Hr Hrec Hfresh. unfold _record_task_claim, select_task in Hrec.
  rewrite (st_bind_eq (gets_st _) _ _ _ _ eq_refl), Hr in Hrec.
  rewrite (st_bind_eq (upsert_run _ _) _ _ _ _ eq_refl) in Hrec.
  apply st_bind_Ok_inv in Hrec as (aid & d5 & Hc & Hrec).
  unfold create_attempt in Hc. cbn [attempts with_runs] in Hc.
  destruct (list_find _ (attempts d)) as [[i a]|] eqn:Hfind.
  { exfalso. apply list_find_Some in Hfind as (Hin & Hk & _).
    apply (Hfresh a); [|done]. by eapply list_elem_of_lookup_2. }
  inv Hc. apply st_bind_Ok_inv in Hrec as (eid & d6 & He & Hrec). inv Hrec.
  apply record_event_attempts in He. rewrite He. eexists. split; [reflexivity|done].
Qed.

(** What a claim does: refused, it changes nothing; granted, the task was
    pending, within its quota and none of its keys was running; it is now
    running under the claimant, out of the queue frontier, and a new attempt
    with the next number of its run is recorded. *)
Theorem claim_granted_or_unchanged allocations t runner keys decision now hex d b d' :
  try_claim_task allocations t runner keys decision now hex d = (Ok b, d') ->
  (b = false /\ d' = d)
  \/ (b = true /\ exists r r',
      tasks d !! t = Some r /\ t_status r = value PENDING
      /\ _workspace_quota_allows_claim allocations t r decision d = (Ok true, d)
      /\ (forall t1 r1 k, tasks d !! t1 = Some r1 -> t_id r1 ≠ t -> t_status r1 = value RUNNING ->
            t_concurrency_key r1 = Some k -> k ∉ claim_keys keys r)
      /\ tasks d' = <[t := r']> (tasks d)
      /\ t_status r' = value RUNNING /\ t_runner_id r' = Some runner
      /\ t_frontier_state r' = Some "running" /\ t_blocked_reason r' = None
      /\ t_heartbeat_at r' = Some now
      /\ ((forall a, a ∈ attempts d ->
            at_idempotency_key a ≠ "task:" +:+ t +:+ ":runner:" +:+ runner +:+ ":claim:"
                                   +:+ isoformat now) ->
           exists a, attempts d' = attempts d ++ [a] /\ at_task_id a = t
           /\ at_attempt_no a = next_attempt_no (_run_id_for_task t (t_execution_id r)) (attempts d))).
Proof.
  unfold try_claim_task. rewrite transaction_select. intros E.
  destruct (tasks d !! t) as [r|] eqn:Hr; [|inv E; by left].
  case_bool_decide as Hp; [|inv E; by left]. cbn [negb] in E.
  apply transaction_Ok in E. apply st_bind_Ok_inv in E as (allowed & d1 & Ha & E).
  assert (d1 = d) as ->.
  { unfold _workspace_quota_allows_claim in Ha. repeat case_match; by inv Ha. }
  destruct allowed; [|inv E; by left]. cbn [negb] in E.
  apply st_bind_Ok_inv in E as (free & d1 & Hf & E). unfold gets_st in Hf. inv Hf.
  unfold claim_update in E. set (free := negb _) in E.
  apply st_bind_Ok_inv in E as (n & d2 & Hn & E). unfold rowcount_or_refused in Hn.
  destruct (update_tasks t _ _ d1) as [[n'|e] d3] eqn:Hu.
  2:{ inv Hn. assert (d2 = d1) as -> by (unfold update_tasks in Hu; repeat case_match; by inv Hu).
      inv E. by left. }
  inv Hn. apply update_tasks_Ok in Hu as [(-> & -> & _)|(-> & r0 & Hw & (Hr0 & T & _) & ->)];
    [inv E; by left|]. rewrite Hr in Hr0. inv Hr0. right.
  change (1 =? 1) with true in E. cbv iota in E.
  set (r' := set_columns (claim_columns r0 runner now) r0) in *.
  apply st_bind_Ok_inv in E as (u & d4 & Hrec & E). inv E. split; [done|].
  exists r0, r'. apply andb_true_iff in Hw as [_ Hfree]. subst free.
  apply negb_true_iff in Hfree. unfold running_conflict in Hfree. rewrite existsb_rows in Hfree.
  destruct (quiet_Ok _ _ _ _ (quiet_record_claim t runner now hex) Hrec) as [_ T4].
  split_and!; [done|done|done| | |by destruct r0|by destruct r0|by destruct r0|by destruct r0|by destruct r0|].
  - intros t1 r1 k Hr1 Hid Hst Hk Hin. specialize (Hfree t1 r1 Hr1).
    unfold is_running in Hfree. rewrite Hst, Hk in Hfree. cbn [opt_in] in Hfree.
    rewrite bool_decide_false in Hfree by done. rewrite !bool_decide_true in Hfree by done. done.
  - by rewrite T4.
  - intros Hfresh.
    destruct (record_claim_attempt t runner now hex (with_tasks (<[t:=r']>) d1) r' u d'
      (lookup_insert_eq (tasks d1) t r') Hrec Hfresh) as (a & A & Hat & An).
    exists a. split; [exact A|]. split; [exact Hat|]. rewrite An.
    assert (t_execution_id r' = t_execution_id r0) as -> by apply set_columns_id. done.
Qed.
End method.

(** * Samples *)
Module Sample.

#[export] Instance platform : TaskPlatform := {|
  bind_text v := match v with
                 | PNone => Ok None | PStr s => Ok (Some s)
                 | _ => Raise (OtherError "ProgrammingError" "cannot adapt") end;
  fromisoformat _ := None;
  bind_text_none := eq_refl;
  bind_text_str _ := eq_refl;
|}.

#[export] Instance json_text : JsonText := {|
  json_loads _ := None;
  jsonb_text v := match v with
                  | PNone => None | PStr s => Some s | v => Some (json_dumps_default v) end;
  jsonb_text_str _ := eq_refl;
  jsonb_text_null := eq_refl;
|}.

(** A schedule: which claim takes the next step. *)
Fixpoint run_schedule (allocations : gmap string allocation_row) (schedule : list nat) (w : world)
    : option world :=
  match schedule with
  | [] => Some w
  | i :: rest =>
      match w_claims w !! i with
      | Some (c, s) =>
          match claim_step allocations (locked_by_other (w_claims w) i) c s (w_db w) with
          | Some (d', s') =>
              run_schedule allocations rest (mkWorld d' (<[i := (c, s')]> (w_claims w)))
          | None => None
          end
      | None => None
      end
  end.

Lemma run_schedule_steps allocations allowed schedule w w' :
  run_schedule allocations schedule w = Some w' -> rtc (world_step allocations allowed) w w'.
Proof.
  revert w. induction schedule as [|i rest IH]; intros w; simpl; [intros [= <-]; constructor|].
  destruct (w_claims w !! i) as [[c s]|] eqn:Hi; [|done].
  destruct (claim_step _ _ _ _ _) as [[d' s']|] eqn:Hs; [|done]. intros E.
  eapply rtc_l; [by eapply step_claim|by apply IH].
Qed.

Definition pending_row (i : string) (key : option string) : task_row :=
  mkTask i "w" None "pack" "playbook_execution" 0 None "pending" (PDict []) PNone (PDict [])
    (PList []) PNone None None None None None None None (Some "browser_local") key (Some "ready")
    None.

Definition tables : db :=
  mkDb {[ "t1" := pending_row "t1" (Some "k"); "t2" := pending_row "t2" (Some "k");
          "t3" := pending_row "t3" None ]} ∅ ∅ [] [] [].

Definition allocations : gmap string allocation_row :=
  {[ "al" := mkAllocation (Some "enabled") (Some 1) (PDict []) ]}.

Definition decision : pyval := PDict [("allocation", PDict [("allocation_id", PStr "al")])].

Definition claim_of (t runner : string) (keys : list string) (decision : pyval) : claim :=
  mkClaim t runner keys decision 5 ("h" +:+ runner).

(** Two claims of one task, interleaved: both read it pending, one wins. *)
Definition race : world :=
  mkWorld tables [(claim_of "t1" "a" [] PNone, Start); (claim_of "t1" "b" [] PNone, Start)].
Definition race_end : world :=
  default race (run_schedule allocations [0; 1; 0; 1; 1; 0; 1; 0]%nat race).

Example race_outcome : map snd (w_claims race_end) = [Finished false; Finished true].
Proof. by vm_compute. Qed.

Lemma race_runs : run_schedule allocations [0; 1; 0; 1; 1; 0; 1; 0]%nat race = Some race_end.
Proof. by vm_compute. Qed.

Lemma pending_task_claimed_once_witness :
  map snd (w_claims race_end) = [Finished false; Finished true] /\ 1%nat = 1%nat.
Proof.
  split; [by vm_compute|].
  eapply (pending_task_claimed_once allocations race race_end 1 1 (claim_of "t1" "b" [] PNone)
    (claim_of "t1" "b" [] PNone)); [by repeat constructor | | by vm_compute | by vm_compute | done].
  apply (run_schedule_steps allocations keeps_claimed _ _ _ race_runs).
Defined.

(** Two tasks with one key, and then two tasks under one quota. *)
Definition keys_race : world :=
  mkWorld tables [(claim_of "t1" "a" [] PNone, Start); (claim_of "t2" "b" [] PNone, Start)].
Definition keys_end : world :=
  default keys_race (run_schedule allocations [0; 1; 0; 1; 1; 0; 1; 0]%nat keys_race).

Lemma keys_run : run_schedule allocations [0; 1; 0; 1; 1; 0; 1; 0]%nat keys_race = Some keys_end.
Proof. by vm_compute. Qed.

Lemma tables_wf : keyed tables /\ running_keys_distinct tables.
Proof.
  assert (forall t r, tasks tables !! t = Some r -> t_id r = t /\ indexed_key r = None) as Hall.
  { intros t r Ht. unfold tables in Ht. simpl in Ht.
    rewrite !lookup_insert_Some, lookup_singleton_Some in Ht.
    destruct Ht as [[<- <-]|[_ [[<- <-]|[_ [<- <-]]]]]; done. }
  split; [intros t r Ht; by apply Hall|].
  intros t r t' r' k Ht _ Hk. destruct (Hall t r Ht). congruence.
Qed.

Lemma running_tasks_exclusive_witness :
  map snd (w_claims keys_end) = [Finished false; Finished true] /\ "t2" = "t2".
Proof.
  split; [by vm_compute|].
  pose (r := default (pending_row "t2" None) (tasks (w_db keys_end) !! "t2")).
  eapply (running_tasks_exclusive allocations (fun _ => True) keys_race keys_end "t2" r "t2" r "k");
    [apply tables_wf | apply tables_wf
    | apply (run_schedule_steps allocations (fun _ => True) _ _ _ keys_run)
    | by vm_compute ..].
Defined.

Definition quota_race : world :=
  mkWorld tables [(claim_of "t1" "a" [] decision, Start); (claim_of "t3" "b" [] decision, Start)].
(** The second claim waits for the lock and finds the slot taken. *)
Definition quota_schedule : list nat := [0; 1; 0; 0; 0; 0; 1; 1]%nat.
Definition quota_end : world := default quota_race (run_schedule allocations quota_schedule quota_race).

Lemma quota_run : run_schedule allocations quota_schedule quota_race = Some quota_end.
Proof. by vm_compute. Qed.

Lemma decision_under_quota t runner :
  under_quota allocations "al" "w" "browser_local" [] 1 (claim_of t runner [] decision).
Proof.
  intros row [E1 E2]. exists PNone. unfold quota_request_of. rewrite E1, E2. by vm_compute.
Qed.

Lemma workspace_quota_never_exceeded_witness :
  map snd (w_claims quota_end) = [Finished true; Finished false]
  /\ count_rows (counted "w" "browser_local" []) (w_db quota_end) <= 1.
Proof.
  split; [by vm_compute|].
  eapply (workspace_quota_never_exceeded allocations "al" "w" "browser_local" [] 1 quota_race);
    [apply tables_wf | by repeat constructor
    | repeat constructor; apply decision_under_quota | by vm_compute
    | apply (run_schedule_steps allocations quota_neutral _ _ _ quota_run)].
Defined.

Definition granted : bool * db :=
  match try_claim_task allocations "t1" "a" ["x"] decision 5 "ha" tables with
  | (Ok b, d) => (b, d) | (Raise _, d) => (false, d) end.

Lemma claim_granted_or_unchanged_witness :
  granted.1 = true
  /\ ((granted.1 = false /\ granted.2 = tables)
      \/ (granted.1 = true /\ exists r r',
          tasks tables !! "t1" = Some r /\ t_status r = value PENDING
          /\ _workspace_quota_allows_claim allocations "t1" r decision tables = (Ok true, tables)
          /\ (forall t1 r1 k, tasks tables !! t1 = Some r1 -> t_id r1 ≠ "t1" ->
                t_status r1 = value RUNNING -> t_concurrency_key r1 = Some k ->
                k ∉ claim_keys ["x"] r)
          /\ tasks granted.2 = <["t1" := r']> (tasks tables)
          /\ t_status r' = value RUNNING /\ t_runner_id r' = Some "a"
          /\ t_frontier_state r' = Some "running" /\ t_blocked_reason r' = None
          /\ t_heartbeat_at r' = Some 5
          /\ ((forall a, a ∈ attempts tables ->
                 at_idempotency_key a ≠ "task:" +:+ "t1" +:+ ":runner:" +:+ "a" +:+ ":claim:"
                                        +:+ isoformat 5) ->
               exists a, attempts granted.2 = attempts tables ++ [a] /\ at_task_id a = "t1"
                 /\ at_attempt_no a
                    = next_attempt_no (_run_id_for_task "t1" (t_execution_id r)) (attempts tables)))).
Proof.
  split; [by vm_compute|].
  apply (claim_granted_or_unchanged allocations "t1" "a" ["x"] decision 5 "ha" tables);
    by vm_compute.
Defined.

(** What the guards do not give: keys that no row persists are only compared
    with committed rows, so two claims that share such a key both succeed. *)
Definition alias_race : world :=
  mkWorld (mkDb {[ "t3" := pending_row "t3" None; "t4" := pending_row "t4" None ]} ∅ ∅ [] [] [])
    [(claim_of "t3" "a" ["shared"] PNone, Start); (claim_of "t4" "b" ["shared"] PNone, Start)].

Example unpersisted_keys_race :
  map snd (w_claims (default alias_race
    (run_schedule allocations [0; 1; 0; 1; 1; 0; 1; 0]%nat alias_race)))
  = [Finished true; Finished true].
Proof. by vm_compute. Qed.

End Sample.
