(* ===== verification/TaskTheorems.v ===== *)
(** Theorems of the task table: the frontier follows the status, the two abort
    checks agree, the reaper fails exactly the zombies it lists, a retry starts
    from a terminal status only, the frontier derived for a pending task.  The
    schedules in which a task that has finished is overwritten are samples. *)
From S2P Require Import Prelude PyDict PyStr PyVal PyJson PyTime Leases.
From S2P Require Import PayloadBudget TaskTable TaskClaims.
From S2P Require Import TaskClaimTheorems.

Section theorems.
Context `{SetOrder} `{TaskPlatform} `{JsonText}.

(** * The abort checks *)

Definition known_status (r : task_row) : Prop := t_status r ∈ map value all_statuses.

Lemma coerce_value s : coerce_task_status_enum (value s) = Ok s.
Proof. by destruct s. Qed.

Lemma known_status_value r : known_status r -> exists s, t_status r = value s.
Proof.
  unfold known_status. intros Hin. apply list_elem_of_In, in_map_iff in Hin as (s & E & _).
  by exists s.
Qed.

(** The runner's two abort checks, the statement on the row and the one on
    the task model, answer alike on every row with a known status. *)
Theorem abort_checks_agree t d :
  (forall r, tasks d !! t = Some r -> known_status r) ->
  update_task_heartbeat t d = should_abort_task t d.
Proof.
  intros Hk. unfold update_task_heartbeat, should_abort_task, get_task, select_task.
  rewrite !(st_bind_eq (gets_st _) _ _ _ d eq_refl).
  unfold mbind, stres_bind, gets_st. destruct (tasks d !! t) as [r|] eqn:Hr; [|done].
  destruct (known_status_value r (Hk r eq_refl)) as [s Hs]. rewrite Hs, coerce_value.
  cbn. rewrite Hs, coerce_value. destruct s; cbn; rewrite ?orb_false_r; done.
Qed.

(** * Updating the status of a known row *)

Definition status_set (st : TaskStatus) (result : pyval) (stored : pyval) (error : option string)
    (started_at completed_at : option Z) : list assignment :=
  status_columns st ++ (if is_none result then [] else [Result stored])
  ++ opt_set (fun e => Error (Some e)) error ++ opt_set (fun t => StartedAt (Some t)) started_at
  ++ opt_set (fun t => CompletedAt (Some t)) completed_at.

(** A finishing update of a row that exists succeeds. *)
Lemma finish_succeeds t st error completed now hex d r :
  tasks d !! t = Some r -> t_id r = t -> st ≠ RUNNING ->
  exists d', update_task_status t st PNone error None completed now hex d = (Ok tt, d')
    /\ tasks d' = <[t := set_columns (status_set st PNone PNone error None completed) r]> (tasks d).
Proof.
  intros Hr Hid Hst. unfold update_task_status.
  change (apply_task_payload_budget "result" PNone) with (Ok PNone). rewrite bind_lift.
  set (set_ := status_set st PNone PNone error None completed).
  unfold transaction. rewrite (st_bind_eq (select_task t) _ d (Some r) d)
    by (unfold select_task, gets_st; by rewrite Hr).
  assert (update_tasks t (fun _ => true) set_ d = (Ok 1, with_tasks (<[t := set_columns set_ r]>) d))
    as Hu.
  { unfold update_tasks. rewrite Hr.
    assert (index_conflict d (set_columns set_ r) = false) as ->; [|done].
    unfold index_conflict, indexed_key. rewrite bool_decide_false; [done|].
    assert (t_status (set_columns set_ r) = value st) as ->; [|by destruct st].
    subst set_. unfold status_set. cbn [is_none app]. apply status_columns_status.
    destruct error, completed; by repeat constructor. }
  unfold set_, status_set in Hu. rewrite (st_bind_eq _ _ _ _ _ Hu).
  change (1 =? 0) with false. cbv iota.
  match goal with |- context [match ?c ?d0 with _ => _ end] =>
    assert (quiet c) as Hq; [|destruct (Hq d0) as ([] & d' & E & T); rewrite E; by exists d'] end.
  apply quiet_bind; [apply quiet_gets|intros [row|]; [|apply quiet_ret]].
  destruct (negb _); [|apply quiet_ret].
  apply quiet_bind; [auto with py|intros ?; auto with py].
Qed.

(** * The reaper *)

Definition zombie (now ttl no_ttl : Z) (live : string -> pyval) (r : task_row) : option string :=
  zombie_reason now ttl no_ttl r (live (t_id r)).

Lemma reap_listed_exact now ttl no_ttl live hex listed : forall d,
  keyed d -> NoDup (map t_id listed) ->
  Forall (fun x => exists r, tasks d !! t_id x = Some r) listed ->
  exists d', reap_listed now ttl no_ttl live hex listed d
    = (Ok (map t_id (List.filter (fun r => bool_decide (is_Some (zombie now ttl no_ttl live r))) listed)),
       d')
    /\ forall t, tasks d' !! t =
         match List.find (fun x => bool_decide (t_id x = t)) listed with
         | Some x =>
             match zombie now ttl no_ttl live x with
             | Some reason =>
                 set_columns (status_set FAILED PNone PNone (Some reason) None (Some now))
                   <$> tasks d !! t
             | None => tasks d !! t
             end
         | None => tasks d !! t
         end.
Proof.
  induction listed as [|x listed IH]; intros d Hk Hn Hf; [by exists d|].
  apply NoDup_cons in Hn as [Hin Hn]. apply Forall_cons in Hf as [[r Hr] Hf].
  cbn [reap_listed List.filter List.find]. fold (zombie now ttl no_ttl live x).
  destruct (zombie now ttl no_ttl live x) as [reason|] eqn:Hz.
  - destruct (finish_succeeds (t_id x) FAILED (Some reason) (Some now) now (hex (t_id x)) d r Hr
      (Hk _ _ Hr) ltac:(done)) as (d1 & E1 & T1).
    destruct (IH d1) as (d' & E & Hd').
    { intros t0 r0. rewrite T1, lookup_insert_Some. intros [[Et Er]|[_ Hr0]]; [|by apply Hk].
      rewrite <- Er, (proj1 (set_columns_id _ _)), <- Et. by apply Hk. }
    { done. }
    { eapply Forall_impl; [exact Hf|]. intros y [ry Hy]. destruct (decide (t_id x = t_id y)) as [Exy|Hne].
      - eexists. by rewrite T1, <- Exy, lookup_insert_eq.
      - exists ry. by rewrite T1, lookup_insert_ne. }
    exists d'. split.
    + assert (forall b, try_update (update_task_status (t_id x) FAILED PNone (Some reason) None
        (Some now) now (hex (t_id x))) b d = (Ok b, d1)) as Ht
        by (intros b; unfold try_update; by rewrite E1).
      rewrite (st_bind_eq _ _ _ _ _ (Ht true)). by rewrite (st_bind_eq _ _ _ _ _ E).
    + intros t. rewrite Hd', T1. destruct (decide (t_id x = t)) as [<-|Hne].
      * rewrite bool_decide_true, Hz, Hr, !lookup_insert_eq by done.
        destruct (List.find _ listed) as [y|] eqn:Hy; [|done].
        apply List.find_some in Hy as [Hy Hyt]. bool_prop. destruct Hin.
        rewrite <- Hyt. apply list_elem_of_In, in_map. done.
      * rewrite (bool_decide_false (t_id x = t)) by done. by rewrite !lookup_insert_ne.
  - destruct (IH d Hk Hn Hf) as (d' & E & Hd'). exists d'. split.
    + rewrite (st_bind_eq (mret false) _ d false d eq_refl). by rewrite (st_bind_eq _ _ _ _ _ E).
    + intros t. rewrite Hd'. destruct (decide (t_id x = t)) as [<-|Hne].
      * rewrite bool_decide_true, Hz by done.
        destruct (List.find _ listed) as [y|] eqn:Hy; [|done].
        apply List.find_some in Hy as [Hy Hyt]. bool_prop. destruct Hin.
        rewrite <- Hyt. apply list_elem_of_In, in_map. done.
      * by rewrite (bool_decide_false (t_id x = t)).
Qed.

Lemma insert_newest_perm r l : insert_newest r l ≡ₚ r :: l.
Proof.
  induction l as [|r' l IH]; simpl; [done|]. destruct (_ <? _); [done|].
  rewrite IH. apply Permutation_swap.
Qed.

Lemma newest_perm l acc : foldl (fun l r => insert_newest r l) acc l ≡ₚ l ++ acc.
Proof.
  revert acc. induction l as [|r l IH]; intros acc; simpl; [done|].
  rewrite IH, insert_newest_perm. by rewrite Permutation_middle.
Qed.

Lemma rows_ids_NoDup d : keyed d -> NoDup (map t_id (rows d)).
Proof.
  intros Hk. unfold rows. rewrite map_map.
  assert (map (fun x : string * task_row => t_id x.2) (map_to_list (tasks d))
    = map fst (map_to_list (tasks d))) as ->.
  { apply map_ext_in. intros [t r] Hin. simpl. apply Hk.
    by apply elem_of_map_to_list, list_elem_of_In. }
  apply (NoDup_fst_map_to_list (tasks d)).
Qed.

Lemma listed_row_id r : t_id (listed_row r) = t_id r.
Proof. unfold listed_row. case_bool_decide; [apply (set_columns_id _ r)|done]. Qed.

(** The reason to reap a row of the table, if it is running. *)
Definition reapable (now ttl no_ttl : Z) (live : string -> pyval) (r : task_row) : option string :=
  if bool_decide (t_status r = value RUNNING)
  then zombie now ttl no_ttl live (listed_row r) else None.

Lemma filter_ids_NoDup (P : task_row -> Prop) `{forall r, Decision (P r)} l :
  NoDup (map t_id l) -> NoDup (map t_id (filter P l)).
Proof.
  induction l as [|r l IH]; [done|]. cbn [map]. intros [Hr Hl]%NoDup_cons.
  rewrite filter_cons. destruct (decide _); [|auto]. cbn [map]. constructor; [|auto].
  intros Hin. apply Hr. apply list_elem_of_In, in_map_iff in Hin as (x & <- & Hx).
  apply list_elem_of_In, list_elem_of_filter in Hx as [_ Hx].
  by apply list_elem_of_In, in_map, list_elem_of_In.
Qed.

(** The listing has each row of the status once. *)
Lemma listing_spec status d l :
  keyed d -> list_tasks_by_status status d = (Ok l, d) ->
  NoDup (map t_id l)
  /\ forall x, x ∈ l <-> exists r, x = listed_row r /\ t_status r = value status
                     /\ tasks d !! t_id r = Some r.
Proof.
  intros Hk [= <-]. set (found := filter (fun r => t_status r = value status) (rows d)).
  set (l := map listed_row _).
  assert (l ≡ₚ map listed_row found) as Hp.
  { subst l. change (map listed_row) with (fmap (M:=list) listed_row).
    by rewrite newest_perm, app_nil_r. }
  split.
  - change (map t_id) with (fmap (M:=list) t_id). rewrite Hp.
    change (fmap t_id (map listed_row found)) with (map t_id (map listed_row found)).
    rewrite map_map, (map_ext _ _ listed_row_id). by apply filter_ids_NoDup, rows_ids_NoDup.
  - intros x. rewrite Hp. change (map listed_row) with (fmap (M:=list) listed_row).
    rewrite list_elem_of_fmap. split.
    + intros (r & -> & Hr). apply list_elem_of_filter in Hr as [Hst Hr].
      apply elem_of_rows in Hr as [t Ht]. exists r. by rewrite (Hk _ _ Ht).
    + intros (r & -> & Hst & Hr). exists r. split; [done|]. apply list_elem_of_filter.
      split; [done|]. apply elem_of_rows. eauto.
Qed.

(** With nothing else going on, the reaper fails exactly the running tasks
    whose heartbeat, or start when there is none, is older than the limit: each
    gets its reason, leaves the frontier and loses its runner, it is reported,
    and no other task changes. *)
Theorem reaper_exact now ttl no_ttl live hex d :
  keyed d ->
  exists ids d', reap_zombie_tasks now ttl no_ttl live hex d = (Ok ids, d')
    /\ forall t r, tasks d !! t = Some r ->
         match reapable now ttl no_ttl live r with
         | Some reason => t ∈ ids /\ tasks d' !! t = Some
             (set_columns (status_set FAILED PNone PNone (Some reason) None (Some now)) r)
         | None => t ∉ ids /\ tasks d' !! t = Some r
         end.
Proof.
  intros Hk. unfold reap_zombie_tasks.
  destruct (list_tasks_by_status RUNNING d) as [[listed|] d0] eqn:El; [|done].
  assert (d0 = d) as -> by by inv El.
  rewrite (st_bind_eq _ _ _ _ _ El). destruct (listing_spec _ _ _ Hk El) as [Hn Hmem]. clear El.
  destruct (reap_listed_exact now ttl no_ttl live hex listed d Hk Hn) as (d' & E & Hd').
  { apply Forall_forall. intros x Hx. apply Hmem in Hx as (r & -> & _ & Hr).
    rewrite listed_row_id. by exists r. }
  eexists _, d'. split; [exact E|]. intros t r Hr. pose proof (Hk t r Hr) as Hid.
  assert (forall x, x ∈ listed -> t_id x = t -> x = listed_row r /\ t_status r = value RUNNING)
    as Honly.
  { intros x Hx Hxt. apply Hmem in Hx as (r1 & -> & Hst & Hr1).
    rewrite listed_row_id in Hxt. rewrite Hxt, Hr in Hr1. inv Hr1. done. }
  assert (t_status r = value RUNNING -> listed_row r ∈ listed) as Hin.
  { intros Hst. apply Hmem. exists r. by rewrite Hid. }
  rewrite (Hd' t), Hr. unfold reapable.
  destruct (List.find _ listed) as [x|] eqn:Hf.
  - apply List.find_some in Hf as [Hx Hxt]. apply list_elem_of_In in Hx. bool_prop.
    destruct (Honly x Hx Hxt) as [-> Hst]. rewrite bool_decide_true by done.
    destruct (zombie now ttl no_ttl live (listed_row r)) as [reason|] eqn:Hz; (split; [|done]).
    + rewrite <- Hxt. apply list_elem_of_In, in_map, filter_In. split; [by apply list_elem_of_In|].
      by rewrite Hz.
    + intros Hids'. apply list_elem_of_In, in_map_iff in Hids' as (y & Hyt & Hy).
      apply filter_In in Hy as [Hy Hyz]. apply list_elem_of_In in Hy.
      destruct (Honly y Hy Hyt) as [-> _]. by rewrite Hz in Hyz.
  - assert (t_status r ≠ value RUNNING) as Hst.
    { intros Hst. pose proof (List.find_none _ _ Hf (listed_row r)) as Hno.
      cbv beta in Hno. rewrite listed_row_id, bool_decide_true in Hno by done.
      by specialize (Hno (proj1 (list_elem_of_In _ _) (Hin Hst))). }
    rewrite bool_decide_false by done. split; [|done].
    intros Hids'. apply list_elem_of_In, in_map_iff in Hids' as (y & Hyt & Hy).
    apply filter_In in Hy as [Hy _]. apply list_elem_of_In in Hy.
    by destruct (Honly y Hy Hyt).
Qed.

(** * The frontier follows the status *)

(** The last word on a column belongs to its only assignment. *)
Lemma set_columns_in {A} (f : task_row -> A) set a v :
  (forall r, f (set_column r a) = v) ->
  (forall r b, column b ≠ column a -> f (set_column r b) = f r) ->
  NoDup (map column set) -> a ∈ set -> forall r, f (set_columns set r) = v.
Proof.
  intros Ha Hb. induction set as [|b set IH]; intros Hn Hin r; [by apply elem_of_nil in Hin|].
  cbn [map] in Hn. apply NoDup_cons in Hn as [Hbn Hn].
  change (set_columns (b :: set) r) with (set_columns set (set_column r b)).
  apply elem_of_cons in Hin as [<-|Hin]; [|by apply IH].
  rewrite leaves_forall, Ha; [done|]. apply Forall_forall. intros c Hc r0. apply Hb.
  intros E. apply Hbn. rewrite <- E. by apply list_elem_of_In, in_map, list_elem_of_In.
Qed.

Lemma budgeted_columns kw kwcols :
  seq_res (map budgeted_kwarg kw) = Ok kwcols ->
  map column kwcols = map column kw
  /\ forall a, a ∈ kw -> budgeted_kwarg a = Ok a -> a ∈ kwcols.
Proof.
  intros E%seq_res_Ok. revert kwcols E.
  induction kw as [|b kw IH]; intros [|c kwcols] E; simpl in E; try done.
  injection E as Eb E. destruct (IH kwcols E) as [Hm Hin]. split.
  - cbn [map]. rewrite Hm. f_equal. destruct b; simpl in *; try (by injection Eb as <-);
      destruct (apply_task_payload_budget _ _); by inv Eb.
  - intros a [->|Ha]%elem_of_cons Hba; [|right; auto].
    assert (c = b) as -> by congruence. left.
Qed.

Lemma put_kwarg_in a kw : a ∈ put_kwarg a kw.
Proof. induction kw as [|b kw IH]; simpl; [by left|]. case_bool_decide; [by left|by right]. Qed.

Lemma put_kwarg_keep a b kw : column a ≠ column b -> b ∈ kw -> b ∈ put_kwarg a kw.
Proof.
  intros Hne. induction kw as [|c kw IH]; simpl; [by intros ?%elem_of_nil|].
  case_bool_decide as E.
  - intros [->|Hb]%elem_of_cons; [congruence|by right].
  - intros [->|Hb]%elem_of_cons; [by left|right; auto].
Qed.

Lemma put_kwarg_columns a kw x : x ∈ map column (put_kwarg a kw) -> x = column a \/ x ∈ map column kw.
Proof.
  induction kw as [|b kw IH]; simpl; [rewrite list_elem_of_singleton; auto|].
  case_bool_decide; cbn [map]; rewrite !elem_of_cons; naive_solver.
Qed.

Lemma put_kwarg_NoDup a kw : NoDup (map column kw) -> NoDup (map column (put_kwarg a kw)).
Proof.
  induction kw as [|b kw IH]; simpl; [repeat constructor; apply not_elem_of_nil|].
  intros [Hb Hn]%NoDup_cons. case_bool_decide as E; cbn [map]; constructor; auto.
  - by rewrite <- E.
  - by intros [?|?]%put_kwarg_columns.
Qed.

Lemma normalize_NoDup kw :
  NoDup (map column kw) -> NoDup (map column (_normalize_frontier_updates_for_status kw)).
Proof.
  intros Hn. unfold _normalize_frontier_updates_for_status.
  destruct (status_kwarg kw); [|done]. repeat case_bool_decide; by repeat apply put_kwarg_NoDup.
Qed.

Lemma status_kwarg_in kw s : status_kwarg kw = Some s -> Status s ∈ kw.
Proof.
  induction kw as [|a kw IH]; simpl; [done|]. destruct a; intros E; try (right; by apply IH).
  inv E. by left.
Qed.

Lemma normalize_value s : s ∈ map value all_statuses -> normalize_task_status_value s = s.
Proof.
  intros Hin. repeat (apply elem_of_cons in Hin as [->|Hin]; [by vm_compute|]).
  by apply elem_of_nil in Hin.
Qed.

(** Running rows are marked running, finished rows are out of the schedule. *)
Definition frontier_ok (r : task_row) : Prop :=
  (t_status r = value RUNNING ->
     t_frontier_state r = Some "running" /\ t_frontier_enqueued_at r = None)
  /\ (t_status r ∈ _TERMINAL_TASK_STATUSES ->
     t_frontier_state r = Some "done" /\ t_frontier_enqueued_at r = None
     /\ t_runner_id r = None /\ t_heartbeat_at r = None).

(** Keyword arguments that name a status of the enumeration or leave the
    scheduler columns to the store. *)
Definition tame (a : assignment) : Prop :=
  match a with
  | Status s => s ∈ map value all_statuses
  | FrontierState _ | FrontierEnqueuedAt _ | RunnerId _ | HeartbeatAt _ => False
  | _ => True
  end.

(** Updates of fields that park a task give its columns together with the
    status pending. *)
Definition polite (w : writer) : Prop :=
  match w with
  | WUpdate _ _ _ kwargs _ _ =>
      NoDup (map column kwargs) /\ (Status (value PENDING) ∈ kwargs \/ Forall tame kwargs)
  | WStatus _ _ _ _ _ _ _ _ | WResume _ _ _ _ | WReleaseWait _ _ => True
  end.

Lemma pending_frontier_ok r : t_status r = value PENDING -> frontier_ok r.
Proof.
  intros E. split; rewrite E; [done|]. intros Hin.
  repeat (apply elem_of_cons in Hin as [Hin|Hin]; [done|]). by apply elem_of_nil in Hin.
Qed.

Lemma status_frontier_ok st rest r :
  Forall outcome_column rest -> frontier_ok (set_columns (status_columns st ++ rest) r).
Proof.
  intros Hr.
  assert (forall A (f : task_row -> A), (forall a r, outcome_column a -> f (set_column r a) = f r) ->
    f (set_columns (status_columns st ++ rest) r) = f (set_columns (status_columns st) r)) as Hl.
  { intros A f Hf. rewrite set_columns_app. apply (leaves_forall f).
    eapply Forall_impl; [exact Hr|]. intros a Ha r0. by apply Hf. }
  unfold frontier_ok.
  rewrite (Hl _ t_status), (Hl _ t_frontier_state), (Hl _ t_frontier_enqueued_at), (Hl _ t_runner_id),
    (Hl _ t_heartbeat_at); try (intros a [] Ha; by destruct a).
  destruct r, st; split; cbn; try done; intros Hin;
    repeat (apply elem_of_cons in Hin as [Hin|Hin]; [done|]); by apply elem_of_nil in Hin.
Qed.

Lemma status_kwarg_put a kw : column a ≠ "status" -> status_kwarg (put_kwarg a kw) = status_kwarg kw.
Proof.
  intros Ha. induction kw as [|b kw IH]; simpl; [by destruct a|].
  case_bool_decide as E; [|simpl; by rewrite IH].
  destruct a, b; try done.
Qed.

Lemma normalize_status_kwarg kw :
  status_kwarg (_normalize_frontier_updates_for_status kw) = status_kwarg kw.
Proof.
  unfold _normalize_frontier_updates_for_status. destruct (status_kwarg kw) as [s|] eqn:E; [|done].
  repeat case_bool_decide; rewrite ?status_kwarg_put by done; done.
Qed.

Lemma leaves_by_column {A} (f : task_row -> A) name set :
  (forall r b, column b ≠ name -> f (set_column r b) = f r) -> name ∉ map column set ->
  leaves f set.
Proof.
  intros Hf Hn. apply leaves_forall, Forall_forall. intros a Ha r. apply Hf. intros E.
  apply Hn. rewrite <- E. by apply list_elem_of_In, in_map, list_elem_of_In.
Qed.

Lemma tame_columns kw name :
  Forall tame kw ->
  name ∈ ["frontier_state"; "frontier_enqueued_at"; "runner_id"; "heartbeat_at"] ->
  name ∉ map column kw.
Proof.
  intros Hk Hname Hin. apply list_elem_of_In, in_map_iff in Hin as (a & <- & Ha).
  apply list_elem_of_In in Ha. rewrite Forall_forall in Hk. specialize (Hk a Ha).
  destruct a; try done;
    repeat (apply elem_of_cons in Hname as [Hname|Hname]; [done|]); by apply elem_of_nil in Hname.
Qed.

(** No scheduler column is derived unless the row will be pending. *)
Lemma derived_only_pending r c kw now cols s :
  derived_scheduler_columns r c kw now = Ok cols ->
  default (t_status r) (status_kwarg kw) = s -> s ∈ map value all_statuses ->
  s ≠ value PENDING -> cols = [].
Proof.
  unfold derived_scheduler_columns. intros E Es Hs Hne.
  rewrite Es, normalize_value in E by done.
  rewrite (bool_decide_false (s = value PENDING)), andb_false_r in E by done. by inv E.
Qed.

Ltac by_column :=
  let r := fresh in let b := fresh in
  intros r; try (intros b; destruct b); destruct r; simpl; intros; done.

Lemma update_frontier_ok r ctx kwargs now cols kwcols derived :
  NoDup (map column kwargs) -> Status (value PENDING) ∈ kwargs \/ Forall tame kwargs ->
  Forall context_column cols ->
  seq_res (map budgeted_kwarg (_normalize_frontier_updates_for_status kwargs)) = Ok kwcols ->
  match ctx with
  | Some c => derived_scheduler_columns r c (_normalize_frontier_updates_for_status kwargs) now
              = Ok derived
  | None => derived = [] end ->
  frontier_ok r -> frontier_ok (set_columns (cols ++ kwcols ++ derived) r).
Proof.
  intros Hnd Hk Hcols Hkw Hder Hok.
  destruct (budgeted_columns _ _ Hkw) as [Hcc Hcin].
  pose proof (normalize_NoDup _ Hnd) as Hnd'. rewrite <- Hcc in Hnd'.
  assert (forall s, Status s ∈ kwargs -> Status s ∈ kwcols) as Hsin.
  { intros s Hs. apply Hcin; [|done]. unfold _normalize_frontier_updates_for_status.
    destruct (status_kwarg kwargs); [|done].
    repeat case_bool_decide; repeat (apply put_kwarg_keep; [done|]); done. }
  assert (forall s r, Status s ∈ kwargs -> t_status (set_columns kwcols r) = s) as Hst.
  { intros s r0 Hs. apply (set_columns_in t_status _ (Status s)); auto; by_column. }
  assert (Forall not_status derived) as Hdn.
  { destruct ctx; [|subst; constructor]. eapply derived_all; [|exact Hder]. by intros []. }
  assert (Status (value PENDING) ∈ kwargs -> frontier_ok (set_columns (cols ++ kwcols ++ derived) r))
    as Hpend.
  { intros Hp. apply pending_frontier_ok. rewrite !set_columns_app, leaves_status by done.
    by apply Hst. }
  destruct Hk as [Hp|Htame]; [by apply Hpend|].
  destruct (status_kwarg kwargs) as [s|] eqn:Hs.
  - apply status_kwarg_in in Hs as Hin.
    assert (s ∈ map value all_statuses) as Hval by (rewrite Forall_forall in Htame; by apply (Htame (Status s))).
    destruct (decide (s = value PENDING)) as [->|Hne]; [by apply Hpend|].
    assert (derived = []) as ->.
    { destruct ctx; [|done]. eapply derived_only_pending; [exact Hder| |exact Hval|done].
      by rewrite normalize_status_kwarg, Hs. }
    rewrite app_nil_r, set_columns_app. set (r1 := set_columns cols r).
    unfold _normalize_frontier_updates_for_status in Hcin. rewrite Hs, normalize_value in Hcin by done.
    assert (forall a, a ∈ kwcols -> forall A (f : task_row -> A) v,
      (forall r, f (set_column r a) = v) ->
      (forall r b, column b ≠ column a -> f (set_column r b) = f r) ->
      f (set_columns kwcols r1) = v) as Hf.
    { intros a Ha A f v H1' H2'. by apply (set_columns_in f kwcols a). }
    split; rewrite (Hst s r1 Hin).
    + intros ->. rewrite bool_decide_false in Hcin
        by (apply (bool_decide_unpack _); by vm_compute).
      rewrite bool_decide_true in Hcin by done. split.
      * apply (Hf (FrontierState (Some "running"))); try by_column.
        apply Hcin; [|done]. apply put_kwarg_keep; [done|apply put_kwarg_in].
      * apply (Hf (FrontierEnqueuedAt None)); try by_column.
        apply Hcin; [|done]. apply put_kwarg_in.
    + intros Hterm. rewrite bool_decide_true in Hcin by done. split_and!.
      * apply (Hf (FrontierState (Some "done"))); try by_column.
        apply Hcin; [|done]. do 3 (apply put_kwarg_keep; [done|]). apply put_kwarg_in.
      * apply (Hf (FrontierEnqueuedAt None)); try by_column.
        apply Hcin; [|done]. do 2 (apply put_kwarg_keep; [done|]). apply put_kwarg_in.
      * apply (Hf (RunnerId None)); try by_column.
        apply Hcin; [|done]. apply put_kwarg_keep; [done|]. apply put_kwarg_in.
      * apply (Hf (HeartbeatAt None)); try by_column.
        apply Hcin; [|done]. apply put_kwarg_in.
  - assert (_normalize_frontier_updates_for_status kwargs = kwargs) as Ekw
      by (unfold _normalize_frontier_updates_for_status; by rewrite Hs).
    rewrite Ekw in *.
    assert (Forall not_status kwcols) as Hkn.
    { eapply budgeted_all; [by intros []|exact Hkw|]. clear -Hs.
      induction kwargs as [|a l IH]; [constructor|]. destruct a; simpl in Hs; try done;
        (constructor; [done|by apply IH]). }
    assert (Forall not_status (cols ++ kwcols ++ derived)) as Hall.
    { apply Forall_app; split; [|by apply Forall_app].
      eapply Forall_impl; [exact Hcols|by intros []]. }
    destruct (decide (t_status r ∈ value RUNNING :: _TERMINAL_TASK_STATUSES)) as [Hrt|Hrt].
    + assert (derived = []) as ->.
      { destruct ctx; [|done].
        eapply (derived_only_pending _ _ _ _ _ (t_status r)); [exact Hder|by rewrite Hs| |].
        - repeat (apply elem_of_cons in Hrt as [->|Hrt]; [set_solver|]).
          by apply elem_of_nil in Hrt.
        - intros E. rewrite E in Hrt. revert Hrt. apply (bool_decide_unpack _). by vm_compute. }
      rewrite app_nil_r in *.
      assert (forall A (f : task_row -> A) name,
        name ∈ ["frontier_state"; "frontier_enqueued_at"; "runner_id"; "heartbeat_at"] ->
        (forall r b, column b ≠ name -> f (set_column r b) = f r) ->
        f (set_columns (cols ++ kwcols) r) = f r) as Hf.
      { intros A f name Hname Hf. rewrite set_columns_app.
        rewrite (leaves_by_column f name kwcols Hf) by (rewrite Hcc; by apply tame_columns).
        apply (leaves_by_column f name cols Hf). intros Hin.
        apply list_elem_of_In, in_map_iff in Hin as (a & <- & Ha). apply list_elem_of_In in Ha.
        rewrite Forall_forall in Hcols. specialize (Hcols a Ha). clear -Hcols Hname.
        destruct a; try done;
          repeat (apply elem_of_cons in Hname as [Hname|Hname]; [done|]); by apply elem_of_nil in Hname. }
      unfold frontier_ok. rewrite (leaves_status _ Hall).
      rewrite (Hf _ t_frontier_state "frontier_state"), (Hf _ t_frontier_enqueued_at "frontier_enqueued_at"),
        (Hf _ t_runner_id "runner_id"), (Hf _ t_heartbeat_at "heartbeat_at");
        try by_column; [exact Hok|set_solver ..].
    + split; rewrite (leaves_status _ Hall); intros E; destruct Hrt; [rewrite E; by left|by right].
Qed.

Definition frontiers_ok (d : db) : Prop := forall t r, tasks d !! t = Some r -> frontier_ok r.

Lemma writes_frontier d d' t r r' :
  writes d d' t r r' -> frontiers_ok d -> (frontier_ok r -> frontier_ok r') -> frontiers_ok d'.
Proof.
  intros (Hr & T & _) Hd Hrr t1 r1. rewrite T, lookup_insert_Some.
  intros [[_ <-]|[_ Hr1]]; [apply Hrr; by eapply Hd|by eapply Hd].
Qed.

Lemma writer_frontier wr d : polite wr -> frontiers_ok d -> frontiers_ok (run_writer wr d).2.
Proof.
  intros Hp Hd.
  assert (forall d' t r set, t_status r = value PENDING -> Forall derivable set ->
    writes d d' t r (set_columns set r) -> frontiers_ok d') as Hparked.
  { intros d' t r set Hst Hset Hw. eapply writes_frontier; [exact Hw|done|]. intros _.
    apply pending_frontier_ok. rewrite leaves_status; [done|].
    eapply Forall_impl; [exact Hset|apply derivable_not_status]. }
  destruct wr as [t st result error started completed now hex|t ctx expected kwargs now hex
    |t reason ctx now|t now]; simpl in *.
  - destruct (update_task_status t st result error started completed now hex d) as [res d'] eqn:E.
    unfold mbind, stres_bind. rewrite E.
    apply status_update_writes in E as [[-> [e ->]]|(-> & r & rest & Hrest & Hw)]; [done|].
    eapply writes_frontier; [exact Hw|done|]. intros _. by apply status_frontier_ok.
  - destruct (update_task t ctx None expected kwargs now hex d) as [res d'] eqn:E.
    apply update_task_shape in E
      as [[-> _]|(_ & r & cols & kwcols & derived & Hw & Hcols & Hkw & Hder & _)]; [done|].
    eapply writes_frontier; [exact Hw|done|]. destruct Hp. by eapply update_frontier_ok.
  - destruct (try_resume_resource_block t reason ctx now d) as [res d'] eqn:E.
    apply resume_writes in E as [->|(r & set & Hst & Hset & Hw)]; [done|by eapply Hparked].
  - destruct (try_release_resource_wait_task t now d) as [res d'] eqn:E.
    apply release_wait_writes in E as [->|(r & set & Hst & Hset & Hw)]; [done|by eapply Hparked].
Qed.

(** The scheduler columns follow the status however claims and writers
    interleave, as long as the writers are [polite]: a running task is marked
    running and awaits no enqueue, a finished one is done and has neither
    runner nor heartbeat. (Some callers are not: the reaper and the runner
    write a status without looking at the one they overwrite.) *)
Theorem frontier_follows_status allocations w w' t r :
  frontiers_ok (w_db w) -> rtc (world_step allocations polite) w w' ->
  tasks (w_db w') !! t = Some r ->
  (t_status r = value RUNNING ->
     t_frontier_state r = Some "running" /\ t_frontier_enqueued_at r = None)
  /\ (t_status r ∈ _TERMINAL_TASK_STATUSES ->
     t_frontier_state r = Some "done" /\ t_frontier_enqueued_at r = None
     /\ t_runner_id r = None /\ t_heartbeat_at r = None).
Proof.
  intros Hd Hrun Hr. assert (frontiers_ok (w_db w')) as Hd'; [|by apply (Hd' t r)].
  clear Hr. induction Hrun as [|w w1 w' Hs _ IH]; [done|]. apply IH. clear IH.
  destruct Hs as [w i c s d' s' Hi Hc|w wr Hwr]; simpl; [|by apply writer_frontier].
  apply claim_step_tasks in Hc as [[-> _]|(row & held & r0 & _ & _ & _ & Hw)]; [done|].
  eapply writes_frontier; [exact Hw|done|]. intros _.
  split; [by destruct r0|]. rewrite claim_columns_status. intros Hin.
  repeat (apply elem_of_cons in Hin as [Hin|Hin]; [done|]). by apply elem_of_nil in Hin.
Qed.

(** * Retrying *)

(** A retry is a compare-and-set on the status: it moves a failed,
    cancelled or expired task back to the ready frontier, eligible now, with no
    runner, outcome or times left over, and it changes no other task. *)
Theorem retry_only_from_failure t now hex d res d' :
  retry_terminal_task_after_commit t now hex d = (res, d') ->
  d' = d
  \/ (res = Ok true /\ exists r r',
      tasks d !! t = Some r
      /\ t_status r ∈ [value FAILED; value CANCELLED_BY_USER; value EXPIRED]
      /\ tasks d' = <[t := r']> (tasks d)
      /\ t_status r' = value PENDING /\ t_frontier_state r' = Some "ready"
      /\ t_next_eligible_at r' = Some now /\ t_frontier_enqueued_at r' = Some now
      /\ t_blocked_reason r' = None /\ t_runner_id r' = None /\ t_heartbeat_at r' = None
      /\ t_error r' = None /\ t_started_at r' = None /\ t_completed_at r' = None).
Proof.
  unfold retry_terminal_task_after_commit. intros E.
  unfold get_task, select_task in E.
  destruct (tasks d !! t) as [r|] eqn:Hr.
  2:{ left. unfold mbind, stres_bind, gets_st in E. rewrite Hr in E. by inv E. }
  unfold mbind, stres_bind, gets_st, lift_res in E. rewrite Hr in E.
  destruct (coerce_task_status_enum (t_status r)); [|inv E; by left].
  cbn [mret stres_ret] in E.
  match type of E with context [py_int ?v] => destruct (py_int v) as [n|e] end; [|inv E; by left].
  apply update_task_shape in E
    as [[-> _]|(-> & r0 & cols & kwcols & derived & (Hr0 & T & _) & Hcols & Hkw & Hder & Hexp)];
    [by left|right]. rewrite Hr in Hr0. inv Hr0. split; [done|].
  eexists r0, _. split; [done|]. split; [exact Hexp|]. split; [exact T|].
  match type of Hkw with context [map budgeted_kwarg ?k] => set (kw := k) in * end.
  destruct (budgeted_columns _ _ Hkw) as [Hcc Hcin].
  assert (derived = []) as ->.
  { unfold derived_scheduler_columns in Hder. destruct (_ && _); [|by inv Hder].
    cbv zeta in Hder.
    repeat match type of Hder with context [has_column ?n kw] =>
      change (has_column n kw) with true in Hder end.
    cbn [negb] in Hder. rewrite andb_false_r in Hder.
    destruct (_parse_resume_after _); by inv Hder. }
  rewrite app_nil_r, set_columns_app. set (r1 := set_columns cols r0).
  assert (NoDup (map column kwcols)) as Hnd
    by (rewrite Hcc; apply (bool_decide_unpack _); by vm_compute).
  assert (forall a A (f : task_row -> A) v, a ∈ kw -> budgeted_kwarg a = Ok a ->
    (forall r, f (set_column r a) = v) ->
    (forall r b, column b ≠ column a -> f (set_column r b) = f r) ->
    f (set_columns kwcols r1) = v) as Hf.
  { intros b A f v Hb Hbb H1' H2'. apply (set_columns_in f kwcols b); auto. }
  assert (forall b, b ∈ kw <-> In b kw) as Hin by (intros; apply list_elem_of_In).
  split_and!;
    [ apply (Hf (Status (value PENDING))) | apply (Hf (FrontierState (Some "ready")))
    | apply (Hf (NextEligibleAt (Some now))) | apply (Hf (FrontierEnqueuedAt (Some now)))
    | apply (Hf (BlockedReason None)) | apply (Hf (RunnerId None)) | apply (Hf (HeartbeatAt None))
    | apply (Hf (Error None)) | apply (Hf (StartedAt None)) | apply (Hf (CompletedAt None)) ];
    try done; try by_column; apply Hin; unfold kw; vm_compute; tauto.
Qed.

(** * The frontier of a pending task *)

(** Replacing the context of a pending runner task re-derives its place:
    it is parked cold exactly when it then has a reason to be blocked or a time
    still ahead, and only a ready task awaits an enqueue. *)
Theorem context_update_parks_or_readies t c now hex d d' r :
  update_task t (Some c) None None [] now hex d = (Ok true, d') ->
  tasks d !! t = Some r -> t_status r = value PENDING -> t_task_type r ∈ _RUNNER_TASK_TYPES ->
  match pget "runner_skip_reason" c with PStr _ | PNone => True | _ => False end ->
  exists r', tasks d' = <[t := r']> (tasks d)
    /\ let blocked := bool_decide (default "" (t_blocked_reason r') ≠ "")
                      || match t_next_eligible_at r' with Some e => now <? e | None => false end in
       t_frontier_state r' = Some (if blocked then "cold" else "ready")
       /\ (t_frontier_enqueued_at r' = None <-> blocked = true).
Proof.
  intros E Hr Hp Hty Hskip.
  apply update_task_shape in E
    as [[_ Hnone]|(_ & r0 & cols & kwcols & derived & (Hr0 & T & _) & Hcols & Hkw & Hder & _)];
    [by specialize (Hnone eq_refl)|].
  rewrite Hr in Hr0. inv Hr0. simpl in Hkw. inv Hkw. cbn [app] in T.
  eexists. split; [exact T|]. cbv zeta. rewrite set_columns_app.
  set (r1 := set_columns cols r0).
  assert (t_blocked_reason r1 = t_blocked_reason r0 /\ t_next_eligible_at r1 = t_next_eligible_at r0)
    as [Eb En].
  { subst r1. split; apply leaves_forall; (eapply Forall_impl; [exact Hcols|]);
      intros [] Ha []; done. }
  unfold derived_scheduler_columns in Hder. cbn [status_kwarg default] in Hder.
  rewrite Hp, normalize_value in Hder by (apply list_elem_of_In; simpl; auto).
  rewrite !bool_decide_true in Hder by done. cbn [andb has_column existsb negb] in Hder.
  cbv zeta in Hder. apply bind_Ok_inv in Hder as (reason & Hreason & Hder).
  rewrite andb_true_r in Hreason.
  assert (exists o, reason = match o with Some s => [BlockedReason (Some s)] | None => [] end
    /\ (forall s, o = Some s -> s ≠ "")) as (o & -> & Ho).
  { destruct (pget "runner_skip_reason" c) as [| | | |s| |] eqn:Hs; try done; cbn [truthy] in Hreason.
    - destruct (is_dict _); cbn [truthy] in Hreason.
      + rewrite bool_decide_false in Hreason by done. cbn [negb] in Hreason.
        rewrite bind_text_str in Hreason. inv Hreason. exists (Some "dependency_hold").
        split; [done|]. by intros s [= <-].
      + inv Hreason. by exists None.
    - destruct (decide (s = "")) as [Hse|Hse];
        [rewrite (bool_decide_true (s = "")) in Hreason by done
        |rewrite (bool_decide_false (s = "")) in Hreason by done]; cbn [negb] in Hreason.
      + subst s. destruct (is_dict _); cbn [truthy] in Hreason.
        * rewrite bool_decide_false in Hreason by done. cbn [negb] in Hreason.
          rewrite bind_text_str in Hreason. inv Hreason. exists (Some "dependency_hold").
          split; [done|]. by intros s [= <-].
        * rewrite bool_decide_true in Hreason by done. inv Hreason. by exists None.
      + cbn [truthy] in Hreason. rewrite bool_decide_false in Hreason by done.
        cbn [negb] in Hreason. rewrite bind_text_str in Hreason. inv Hreason.
        exists (Some s). split; [done|]. by intros s' [= <-]. }
  inv Hder. destruct r1 eqn:Er1. simpl in Eb, En. rewrite <- Eb, <- En.
  destruct (_parse_resume_after _) as [rt|], o as [why|]; simpl;
    rewrite ?(bool_decide_true (_ ≠ "")) by (by apply Ho); simpl;
    repeat case_match; simplify_eq; (split; [done|split; congruence]).
Qed.
End theorems.

(** * Samples *)
Module Sample.
Import TaskClaimTheorems.Sample.

Definition live_row (i : string) (status : TaskStatus) : task_row :=
  set_columns [Status (value status); StartedAt (Some 0); RunnerId (Some "a");
               FrontierState (Some "running")] (pending_row i None).

(** "old" has run a day without a heartbeat, "new" has just started. *)
Definition day : Z := timedelta_minutes (24 * 60).
Definition running : db :=
  mkDb {[ "old" := live_row "old" RUNNING;
          "new" := set_columns [StartedAt (Some day)] (live_row "new" RUNNING);
          "end" := live_row "end" FAILED ]} ∅ ∅ [] [] [].

Definition rows_of (d : db) : list (string * task_row) := map_to_list (tasks d).

Lemma running_rows t r : tasks running !! t = Some r -> known_status r /\ t_id r = t.
Proof.
  intros Ht. unfold running in Ht. simpl in Ht.
  rewrite !lookup_insert_Some, lookup_singleton_Some in Ht.
  destruct Ht as [[<- <-]|[_ [[<- <-]|[_ [<- <-]]]]];
    (split; [apply (bool_decide_unpack _); by vm_compute|done]).
Qed.

Lemma abort_checks_agree_witness :
  update_task_heartbeat "end" running = should_abort_task "end" running.
Proof. apply abort_checks_agree. intros r Hr. by eapply running_rows. Defined.

Definition reaped : res (list string) * db :=
  reap_zombie_tasks day 10 30 (fun _ => PNone) (fun t => t) running.

Example reaped_outcome :
  reaped.1 = Ok ["old"]
  /\ (t_error <$> tasks reaped.2 !! "old")
     = Some (Some "Zombie: no heartbeat, running for 86400s (threshold 30m)").
Proof. split; by vm_compute. Qed.

Lemma reaper_exact_witness :
  exists ids d', reap_zombie_tasks day 10 30 (fun _ => PNone) (fun t => t) running = (Ok ids, d')
    /\ forall t r, tasks running !! t = Some r ->
         match reapable day 10 30 (fun _ => PNone) r with
         | Some reason => t ∈ ids /\ tasks d' !! t = Some
             (set_columns (status_set FAILED PNone PNone (Some reason) None (Some day)) r)
         | None => t ∉ ids /\ tasks d' !! t = Some r
         end.
Proof. apply reaper_exact. intros t r Hr. by eapply running_rows. Defined.

(** The reaper and the cancellation act on the rows they have read: a task that
    has succeeded meanwhile is overwritten. *)
Definition finished : db :=
  (update_task_status "old" SUCCEEDED PNone None None (Some day) day "done" running).2.

Example reaper_overwrites_success :
  t_status <$> tasks finished !! "old" = Some (value SUCCEEDED)
  /\ t_status <$> tasks (reap_listed day 10 30 (fun _ => PNone) (fun t => t)
                           [live_row "old" RUNNING] finished).2 !! "old" = Some (value FAILED).
Proof. split; by vm_compute. Qed.

Example cancel_overwrites_success :
  t_status <$> tasks (cancel_seen (Some (live_row "old" RUNNING)) day "x" finished).2 !! "old"
  = Some (value CANCELLED_BY_USER).
Proof. by vm_compute. Qed.

Lemma race_frontiers_ok : frontiers_ok (w_db race).
Proof.
  intros t r Ht. apply pending_frontier_ok. unfold race, tables in Ht. simpl in Ht.
  rewrite !lookup_insert_Some, lookup_singleton_Some in Ht.
  by destruct Ht as [[_ <-]|[_ [[_ <-]|[_ [_ <-]]]]].
Qed.

Lemma race_end_t1 : tasks (w_db race_end) !! "t1"
  = Some (default (pending_row "t1" None) (tasks (w_db race_end) !! "t1")).
Proof. by vm_compute. Qed.

Lemma frontier_follows_status_witness :
  t_status (default (pending_row "t1" None) (tasks (w_db race_end) !! "t1")) = value RUNNING
  /\ t_frontier_state (default (pending_row "t1" None) (tasks (w_db race_end) !! "t1"))
     = Some "running".
Proof.
  split; [by vm_compute|].
  refine (proj1 (proj1 (frontier_follows_status allocations race race_end "t1" _
    race_frontiers_ok (run_schedule_steps allocations polite _ _ _ race_runs) _) _));
    [|by vm_compute]. apply race_end_t1.
Defined.

Definition retried : res bool * db := retry_terminal_task_after_commit "end" day "x" running.

Lemma retry_only_from_failure_witness :
  retried.1 = Ok true
  /\ (retried.2 = running
      \/ (retried.1 = Ok true /\ exists r r',
          tasks running !! "end" = Some r
          /\ t_status r ∈ [value FAILED; value CANCELLED_BY_USER; value EXPIRED]
          /\ tasks retried.2 = <["end" := r']> (tasks running)
          /\ t_status r' = value PENDING /\ t_frontier_state r' = Some "ready"
          /\ t_next_eligible_at r' = Some day /\ t_frontier_enqueued_at r' = Some day
          /\ t_blocked_reason r' = None /\ t_runner_id r' = None /\ t_heartbeat_at r' = None
          /\ t_error r' = None /\ t_started_at r' = None /\ t_completed_at r' = None)).
Proof.
  split; [by vm_compute|].
  apply (retry_only_from_failure "end" day "x" running). apply surjective_pairing.
Defined.

(** A skip reason parks a pending task. *)
Definition skip_context : dict pyval := [("runner_skip_reason", PStr "concurrency_locked")].
Definition parked_run : res bool * db := update_task "t1" (Some skip_context) None None [] 7 "x" tables.

Lemma context_update_parks_or_readies_witness :
  (t_frontier_state <$> tasks parked_run.2 !! "t1") = Some (Some "cold")
  /\ exists r', tasks parked_run.2 = <["t1" := r']> (tasks tables)
    /\ let blocked := bool_decide (default "" (t_blocked_reason r') ≠ "")
                      || match t_next_eligible_at r' with Some e => 7 <? e | None => false end in
       t_frontier_state r' = Some (if blocked then "cold" else "ready")
       /\ (t_frontier_enqueued_at r' = None <-> blocked = true).
Proof.
  split; [by vm_compute|].
  apply (context_update_parks_or_readies "t1" skip_context 7 "x" tables parked_run.2
    (pending_row "t1" (Some "k"))).
  - rewrite (surjective_pairing (update_task _ _ _ _ _ _ _ _)). f_equal.
  - by vm_compute.
  - done.
  - apply (bool_decide_unpack _). by vm_compute.
  - done.
Defined.

(** A context over its limit loses the leases the task holds: neither
    [runner_resource_leases] nor the node reservation is a key the budget keeps. *)
Definition leased_context : dict pyval :=
  dset LEASE_CONTEXT_KEY (PList [PDict [("lease_key", PStr "gpu:0")]]) PayloadBudget.Sample.context.

Example budget_forgets_leases :
  resource_lease_keys_from_context (PDict leased_context) = ["gpu:0"]
  /\ match apply_task_payload_budget "execution_context" (PDict leased_context) with
     | Ok stored => resource_lease_keys_from_context stored
     | Raise _ => ["gpu:0"]
     end = [].
Proof. split; by vm_compute. Qed.

End Sample.
