(* ===== verification/AccessControl.v ===== *)
(** Workspace access control (services/workspace_access_control/): the role
    catalog, the validated commands, the tables with their constraints, every
    statement of the repository, and the facade over it.  Each repository
    method is one transaction. *)
From stdpp Require Import sorting.
From S2P Require Import Prelude PyDict PyStr PyVal PyJson PyTime.

(** * Roles and permissions (catalog.py) *)

Definition LOCAL_CORE_SETTINGS_MANAGE : string := "local_core.settings.manage".
Definition LOCAL_CORE_WORKSPACES_CREATE : string := "local_core.workspaces.create".
Definition LOCAL_CORE_ACCESS_MANAGE : string := "local_core.access.manage".
Definition WORKSPACE_READ : string := "workspace.read".
Definition WORKSPACE_CONTENT_WRITE : string := "workspace.content.write".
Definition WORKSPACE_EXECUTE : string := "workspace.execute".
Definition WORKSPACE_SETTINGS_MANAGE : string := "workspace.settings.manage".
Definition WORKSPACE_MEMBERS_MANAGE : string := "workspace.members.manage".
Definition WORKSPACE_AUDIT_READ : string := "workspace.audit.read".
Definition WORKSPACE_OWNER_MANAGE : string := "workspace.owner.manage".
Definition WORKSPACE_DELETE : string := "workspace.delete".

Definition LOCAL_CORE_PERMISSIONS : gset string :=
  {[ LOCAL_CORE_SETTINGS_MANAGE; LOCAL_CORE_WORKSPACES_CREATE; LOCAL_CORE_ACCESS_MANAGE ]}.
Definition WORKSPACE_PERMISSIONS : gset string :=
  {[ WORKSPACE_READ; WORKSPACE_CONTENT_WRITE; WORKSPACE_EXECUTE; WORKSPACE_SETTINGS_MANAGE;
     WORKSPACE_MEMBERS_MANAGE; WORKSPACE_AUDIT_READ; WORKSPACE_OWNER_MANAGE; WORKSPACE_DELETE ]}.
Definition ALL_PERMISSIONS : gset string := LOCAL_CORE_PERMISSIONS ∪ WORKSPACE_PERMISSIONS.

Definition ROLE_PERMISSIONS : dict (gset string) :=
  [("local_core_super_admin", ALL_PERMISSIONS);
   ("workspace_owner", WORKSPACE_PERMISSIONS);
   ("workspace_admin",
      {[ WORKSPACE_READ; WORKSPACE_CONTENT_WRITE; WORKSPACE_EXECUTE;
         WORKSPACE_SETTINGS_MANAGE; WORKSPACE_MEMBERS_MANAGE; WORKSPACE_AUDIT_READ ]});
   ("workspace_editor", {[ WORKSPACE_READ; WORKSPACE_CONTENT_WRITE; WORKSPACE_EXECUTE ]});
   ("workspace_viewer", {[ WORKSPACE_READ ]})].

Definition permissions_for_role (role_key : string) : res (gset string) :=
  match dget role_key ROLE_PERMISSIONS with
  | Some permissions => Ok permissions
  | None => Raise (ValueError "unknown_access_role")
  end.

Definition validate_role_scope (role_key scope_type : string) : res unit :=
  _ ← permissions_for_role role_key;
  if bool_decide (scope_type = "local_core") && bool_decide (role_key = "local_core_super_admin")
  then Ok tt
  else if bool_decide (scope_type = "workspace") && starts_with "workspace_" role_key
  then Ok tt
  else Raise (ValueError "access_role_scope_mismatch").

(** * Errors (errors.py): by default the message is the code of the class *)

Definition AccessDeniedError : exn := OtherError "AccessDeniedError" "access_denied".
Definition AccessRevisionConflictError : exn :=
  OtherError "AccessRevisionConflictError" "access_revision_conflict".
Definition InvitationInvalidError : exn := OtherError "InvitationInvalidError" "invitation_invalid".
Definition InvitationExpiredError : exn := OtherError "InvitationExpiredError" "invitation_expired".
Definition InvitationEmailMismatchError : exn :=
  OtherError "InvitationEmailMismatchError" "invitation_email_mismatch".
Definition LastOwnerError : exn := OtherError "LastOwnerError" "last_workspace_owner".
Definition LastAdministratorError : exn :=
  OtherError "LastAdministratorError" "last_local_core_super_admin".
Definition ValidationError (msg : string) : exn := OtherError "ValidationError" msg.
Definition IntegrityError (constraint : string) : exn := OtherError "IntegrityError" constraint.

(** * Commands (contracts.py) *)

Fixpoint count_char (x : ascii) (s : string) : Z :=
  match s with
  | EmptyString => 0
  | String c r => (if bool_decide (c = x) then 1 else 0) + count_char x r
  end.

(** [s.rsplit(x, 1)[1]] when [x] occurs. *)
Definition after_last (x : ascii) (s : string) : string := List.last (split x s) "".

Definition normalize_email (value : string) : res string :=
  let normalized := lower (strip value) in
  if bool_decide (normalized = "")
     || (320 <? Z.of_nat (String.length normalized))
     || negb (count_char "@" normalized =? 1)
     || (count_char "." (after_last "@" normalized) =? 0)
  then Raise (ValueError "invalid_invitation_email")
  else Ok normalized.

(** [Field(min_length=..., max_length=...)], checked on the raw value. *)
Definition sized (lo hi : Z) (s : string) : bool :=
  let n := Z.of_nat (String.length s) in (lo <=? n) && (n <=? hi).

(** A validator's [ValueError] reaches the caller as pydantic's error. *)
Definition validated {A} (ok : bool) (c : res A) : res A :=
  if ok then match c with
             | Raise (ValueError msg) => Raise (ValidationError msg)
             | c => c
             end
  else Raise (ValidationError "field").

Record VerifiedIdentity : Type := mkIdentity {
  provider : string;
  issuer : string;
  subject : string;
  verified_email : option string;
}.

Definition strip_required (value : string) : res string :=
  let normalized := strip value in
  if bool_decide (normalized = "") then Raise (ValueError "identity_field_required")
  else Ok normalized.

Definition normalize_verified_email (value : option string) : res (option string) :=
  match value with
  | Some v => if bool_decide (v = "") then Ok None else Some <$> normalize_email v
  | None => Ok None
  end.

Definition new_VerifiedIdentity (provider issuer subject : string)
    (verified_email : option string) : res VerifiedIdentity :=
  validated
    (sized 1 64 provider && sized 1 512 issuer && sized 1 255 subject
     && match verified_email with Some e => sized 0 320 e | None => true end)
    (p ← strip_required provider;
     i ← strip_required issuer;
     s ← strip_required subject;
     e ← normalize_verified_email verified_email;
     Ok (mkIdentity p i s e)).

Record EffectiveAccessContext : Type := mkContext {
  cx_principal_id : option string;
  cx_workspace_id : option string;
  cx_roles : list string;
  cx_permissions : gset string;
  cx_scope_revision : Z;
  cx_identity_bound : bool;
}.

Definition allows (context : EffectiveAccessContext) (permission : string) : bool :=
  bool_decide (permission ∈ cx_permissions context).

(** A scope: its type and its identifier. *)
Definition scope : Type := (string * string)%type.
Definition local_core : scope := ("local_core", "local-core").
Definition workspace (id : string) : scope := ("workspace", id).

Record InvitationCreateCommand : Type := mkInvitationCommand {
  ic_scope : scope;
  ic_email : string;
  ic_role_key : string;
  ic_expected_revision : Z;
  ic_expires_in_days : Z;
}.

Definition scope_type_ok (scope_type : string) : bool :=
  bool_decide (scope_type = "local_core") || bool_decide (scope_type = "workspace").

Definition new_InvitationCreateCommand (sc : scope) (email role_key : string)
    (expected_revision expires_in_days : Z) : res InvitationCreateCommand :=
  validated
    (scope_type_ok sc.1 && sized 1 128 sc.2 && sized 3 320 email && sized 1 64 role_key
     && (0 <=? expected_revision) && (1 <=? expires_in_days) && (expires_in_days <=? 30))
    (e ← normalize_email email;
     Ok (mkInvitationCommand sc e role_key expected_revision expires_in_days)).

Definition validate_invitation_semantics (c : InvitationCreateCommand) : res unit :=
  _ ← validate_role_scope (ic_role_key c) (ic_scope c).1;
  if bool_decide ((ic_scope c).1 = "local_core")
     && negb (bool_decide ((ic_scope c).2 = "local-core"))
  then Raise (ValueError "invalid_local_core_scope") else Ok tt.

Record GrantChangeCommand : Type := mkGrantCommand {
  gc_principal_id : string;
  gc_scope : scope;
  gc_role_key : string;
  gc_expected_revision : Z;
}.

Definition new_GrantChangeCommand (principal_id : string) (sc : scope) (role_key : string)
    (expected_revision : Z) : res GrantChangeCommand :=
  validated
    (sized 1 64 principal_id && scope_type_ok sc.1 && sized 1 128 sc.2 && sized 1 64 role_key
     && (1 <=? expected_revision))
    (Ok (mkGrantCommand principal_id sc role_key expected_revision)).

Definition validate_grant_semantics (c : GrantChangeCommand) : res unit :=
  validate_role_scope (gc_role_key c) (gc_scope c).1.

(** * The tables

    alembic_migrations/postgres/versions/20260729120000.  Times of creation and
    update are left out: only the management views order by them. *)
Definition identity_key : Type := (string * string * string)%type.
Definition key_of (i : VerifiedIdentity) : identity_key := (provider i, issuer i, subject i).

Record principal_row : Type := mkPrincipal {
  pr_kind : string;
  pr_display_email : option string;
  pr_status : string;
}.

Record binding_row : Type := mkBinding {
  bi_id : string;
  bi_principal_id : string;
  bi_identity : identity_key;
  bi_verified_email : option string;
  bi_status : string;
}.

Record grant_row : Type := mkGrant {
  gr_id : string;
  gr_principal_id : string;
  gr_scope : scope;
  gr_role_key : string;
  gr_status : string;
  gr_expires_at : option Z;
  gr_created_by : string;
}.

Record invitation_row : Type := mkInvitation {
  in_id : string;
  in_scope : scope;
  in_email : string;
  in_role_key : string;
  in_token_hash : string;
  in_status : string;
  in_expires_at : Z;
  in_created_by : string;
  in_accepted_principal_id : option string;
}.

Record audit_row : Type := mkAudit {
  au_id : string;
  au_scope : scope;
  au_actor_principal_id : string;
  au_action : string;
  au_target_principal_id : option string;
  au_metadata : pyval;
}.

(** A row of [workspaces], as far as it is read here. *)
Record workspace_row : Type := mkWorkspace {
  ws_id : string;
  ws_owner_user_id : option string;
  ws_updated_at : Z;
}.

(** Rows are kept in the order of insertion. [policies] holds the revisions of
    [access_scope_policies]. *)
Record acl : Type := mkAcl {
  principals : gmap string principal_row;
  bindings : list binding_row;
  policies : gmap scope Z;
  grants : list grant_row;
  invitations : list invitation_row;
  audits : list audit_row;
  workspaces : list workspace_row;
}.

Definition with_principals (f : gmap string principal_row -> gmap string principal_row) (s : acl) : acl :=
  mkAcl (f (principals s)) (bindings s) (policies s) (grants s) (invitations s) (audits s) (workspaces s).
Definition with_bindings (f : list binding_row -> list binding_row) (s : acl) : acl :=
  mkAcl (principals s) (f (bindings s)) (policies s) (grants s) (invitations s) (audits s) (workspaces s).
Definition with_policies (f : gmap scope Z -> gmap scope Z) (s : acl) : acl :=
  mkAcl (principals s) (bindings s) (f (policies s)) (grants s) (invitations s) (audits s) (workspaces s).
Definition with_grants (f : list grant_row -> list grant_row) (s : acl) : acl :=
  mkAcl (principals s) (bindings s) (policies s) (f (grants s)) (invitations s) (audits s) (workspaces s).
Definition with_invitations (f : list invitation_row -> list invitation_row) (s : acl) : acl :=
  mkAcl (principals s) (bindings s) (policies s) (grants s) (f (invitations s)) (audits s) (workspaces s).
Definition with_audits (f : list audit_row -> list audit_row) (s : acl) : acl :=
  mkAcl (principals s) (bindings s) (policies s) (grants s) (invitations s) (f (audits s)) (workspaces s).

(** The constraint a statement violates, if any. *)
Definition require (constraint : string) (ok : bool) : stres acl unit :=
  if ok then mret tt else raise_st (IntegrityError constraint).

(** chk_access_grant_role_scope *)
Definition role_in_scope (role_key scope_type : string) : bool :=
  if bool_decide (scope_type = "local_core")
  then bool_decide (role_key = "local_core_super_admin")
  else bool_decide (scope_type = "workspace")
       && bool_decide (role_key ∈ ["workspace_owner"; "workspace_admin"; "workspace_editor";
                                   "workspace_viewer"]).

(** chk_access_scope_policy_id *)
Definition scope_ok (sc : scope) : bool :=
  bool_decide (sc = local_core)
  || (bool_decide (sc.1 = "workspace") && negb (bool_decide (sc.2 = ""))).

Definition has_policy (sc : scope) (s : acl) : bool := bool_decide (is_Some (policies s !! sc)).
Definition has_principal (p : string) (s : acl) : bool := bool_decide (is_Some (principals s !! p)).

Inductive on_conflict : Type := DoUpdate | DoNothing.

(** [INSERT INTO access_scope_policies ... VALUES (..., 1)] *)
Definition insert_policy (sc : scope) : stres acl unit :=
  s ← get_st;
  _ ← require "chk_access_scope_policy_id" (scope_ok sc);
  _ ← require "access_scope_policies_pkey" (negb (has_policy sc s));
  modify_st (with_policies (<[sc := 1]>)).

(** [... ON CONFLICT (scope_type, scope_id) DO NOTHING] *)
Definition ensure_policy (sc : scope) : stres acl unit :=
  s ← get_st;
  _ ← require "chk_access_scope_policy_id" (scope_ok sc);
  if has_policy sc s then mret tt else modify_st (with_policies (<[sc := 1]>)).

(** [INSERT INTO access_principals ...], and with [ON CONFLICT (id) DO UPDATE]. *)
Definition insert_principal (id : string) (p : principal_row) : stres acl unit :=
  s ← get_st;
  _ ← require "access_principals_pkey" (negb (has_principal id s));
  modify_st (with_principals (<[id := p]>)).

Definition upsert_principal (id : string) (p : principal_row)
    (update : principal_row -> principal_row) : stres acl unit :=
  modify_st (with_principals (fun m =>
    <[id := match m !! id with Some old => update old | None => p end]> m)).

(** [INSERT INTO access_identity_bindings ...]: the row that carries the
    identity is updated, or the new one inserted. *)
Definition same_identity (i : identity_key) (b : binding_row) : bool :=
  bool_decide (bi_identity b = i).

Definition add_binding (b : binding_row) : stres acl unit :=
  s ← get_st;
  _ ← require "access_identity_bindings_pkey"
        (negb (existsb (fun b' => bool_decide (bi_id b' = bi_id b)) (bindings s)));
  _ ← require "access_identity_bindings_principal_id_fkey" (has_principal (bi_principal_id b) s);
  modify_st (with_bindings (fun l => l ++ [b])).

Definition insert_binding (b : binding_row) : stres acl unit :=
  s ← get_st;
  _ ← require "uq_access_identity_provider_issuer_subject"
        (negb (existsb (same_identity (bi_identity b)) (bindings s)));
  add_binding b.

Definition upsert_binding (b : binding_row) (update : binding_row -> binding_row)
    : stres acl unit :=
  s ← get_st;
  if existsb (same_identity (bi_identity b)) (bindings s)
  then _ ← require "access_identity_bindings_principal_id_fkey"
             (forallb (fun b' => negb (same_identity (bi_identity b) b')
                                 || has_principal (bi_principal_id (update b')) s) (bindings s));
       modify_st (with_bindings (map (fun b' =>
         if same_identity (bi_identity b) b' then update b' else b')))
  else add_binding b.

Definition gr_active (g : grant_row) : bool := bool_decide (gr_status g = "active").

(** The row the partial unique index has for the principal and scope. *)
Definition active_for (principal_id : string) (sc : scope) (g : grant_row) : bool :=
  gr_active g && bool_decide (gr_principal_id g = principal_id) && bool_decide (gr_scope g = sc).

(** [DO UPDATE SET role_key = EXCLUDED.role_key, expires_at = NULL] *)
Definition set_role (role_key : string) (g : grant_row) : grant_row :=
  mkGrant (gr_id g) (gr_principal_id g) (gr_scope g) role_key (gr_status g) None (gr_created_by g).

(** [INSERT INTO access_grants ... ON CONFLICT (principal_id, scope_type,
    scope_id) WHERE status = 'active']: whether a row was inserted. *)
Definition insert_grant (g : grant_row) (c : on_conflict) : stres acl bool :=
  s ← get_st;
  _ ← require "chk_access_grant_role_scope" (role_in_scope (gr_role_key g) (gr_scope g).1);
  if existsb (active_for (gr_principal_id g) (gr_scope g)) (grants s)
  then match c with
       | DoUpdate =>
           _ ← modify_st (with_grants (map (fun g' =>
                 if active_for (gr_principal_id g) (gr_scope g) g'
                 then set_role (gr_role_key g) g' else g')));
           mret false
       | DoNothing => mret false
       end
  else
    _ ← require "access_grants_pkey"
          (negb (existsb (fun g' => bool_decide (gr_id g' = gr_id g)) (grants s)));
    _ ← require "access_grants_principal_id_fkey" (has_principal (gr_principal_id g) s);
    _ ← require "access_grants_scope_type_scope_id_fkey" (has_policy (gr_scope g) s);
    _ ← modify_st (with_grants (fun l => l ++ [g]));
    mret true.

(** A new active grant without an expiry. *)
Definition new_grant (id principal_id : string) (sc : scope) (role_key created_by : string)
    : grant_row :=
  mkGrant id principal_id sc role_key "active" None created_by.

Definition insert_invitation (i : invitation_row) : stres acl unit :=
  s ← get_st;
  _ ← require "chk_access_invitation_role_scope" (role_in_scope (in_role_key i) (in_scope i).1);
  _ ← require "access_invitations_pkey"
        (negb (existsb (fun i' => bool_decide (in_id i' = in_id i)) (invitations s)));
  _ ← require "uq_access_invitation_token_hash"
        (negb (existsb (fun i' => bool_decide (in_token_hash i' = in_token_hash i)) (invitations s)));
  _ ← require "access_invitations_scope_type_scope_id_fkey" (has_policy (in_scope i) s);
  modify_st (with_invitations (fun l => l ++ [i])).

Definition insert_audit (a : audit_row) : stres acl unit :=
  s ← get_st;
  _ ← require "access_audit_events_pkey"
        (negb (existsb (fun a' => bool_decide (au_id a' = au_id a)) (audits s)));
  _ ← require "access_audit_events_scope_type_scope_id_fkey" (has_policy (au_scope a) s);
  modify_st (with_audits (fun l => l ++ [a])).

(** * Guards (repository_guards.py) *)

Definition _lock_scope (sc : scope) (expected_revision : Z) : stres acl Z :=
  row ← gets_st (fun s => policies s !! sc);
  match row with
  | None =>
      if negb (expected_revision =? 0) then raise_st AccessRevisionConflictError else
      _ ← insert_policy sc; mret 1
  | Some revision =>
      if negb (revision =? expected_revision) then raise_st AccessRevisionConflictError
      else mret revision
  end.

Definition _lock_active_grant (principal_id : string) (sc : scope) : stres acl (option grant_row) :=
  gets_st (fun s => List.find (active_for principal_id sc) (grants s)).

(** [status = 'active' AND (expires_at IS NULL OR expires_at > NOW())] *)
Definition effective (now : Z) (g : grant_row) : bool :=
  gr_active g && match gr_expires_at g with None => true | Some e => now <? e end.

Definition another_holds (now : Z) (sc : scope) (role_key principal_id : string) (s : acl) : Z :=
  Z.of_nat (length (List.filter (fun g =>
    bool_decide (gr_scope g = sc) && bool_decide (gr_role_key g = role_key)
    && effective now g && negb (bool_decide (gr_principal_id g = principal_id))) (grants s))).

Definition _require_another_owner (now : Z) (scope_id principal_id : string) : stres acl unit :=
  count ← gets_st (another_holds now (workspace scope_id) "workspace_owner" principal_id);
  if count <? 1 then raise_st LastOwnerError else mret tt.

Definition _require_another_local_core_super_admin (now : Z) (principal_id : string)
    : stres acl unit :=
  count ← gets_st (another_holds now local_core "local_core_super_admin" principal_id);
  if count <? 1 then raise_st LastAdministratorError else mret tt.

(** The update of the revision and the audit it returns rows for. [hex] is
    [uuid4().hex]. *)
Definition _record_mutation (revision : Z) (sc : scope) (actor_principal_id action : string)
    (target_principal_id : option string) (metadata : pyval) (hex : string) : stres acl Z :=
  s ← get_st;
  if has_policy sc s
  then _ ← modify_st (with_policies (<[sc := revision + 1]>));
       _ ← insert_audit (mkAudit hex sc actor_principal_id action target_principal_id
                           (py_or metadata (PDict [])));
       mret (revision + 1)
  else mret (revision + 1).

(** * Mutations (repository_mutations.py) *)

Definition create_invitation (invitation_id : string) (sc : scope)
    (email role_key token_hash : string) (expires_at : Z) (actor_principal_id : string)
    (expected_revision : Z) (hex : string) : stres acl Z :=
  transaction (
    revision ← _lock_scope sc expected_revision;
    _ ← insert_invitation (mkInvitation invitation_id sc email role_key token_hash "pending"
                             expires_at actor_principal_id None);
    _record_mutation revision sc actor_principal_id "invitation.created" None
      (PDict [("invitation_id", PStr invitation_id)]) hex).

Definition _validate_invitation (now : Z) (invitation : option invitation_row)
    (verified_email : string) : res invitation_row :=
  match invitation with
  | Some i =>
      if negb (bool_decide (in_status i = "pending")) then Raise InvitationInvalidError
      else if in_expires_at i <=? now then Raise InvitationExpiredError
      else if negb (bool_decide (lower (in_email i) = lower verified_email))
      then Raise InvitationEmailMismatchError
      else Ok i
  | None => Raise InvitationInvalidError
  end.

Definition _insert_principal_binding (principal_id : string) (identity : identity_key)
    (verified_email : string) (hex : string) : stres acl unit :=
  _ ← insert_principal principal_id (mkPrincipal "human" (Some verified_email) "active");
  insert_binding (mkBinding hex principal_id identity (Some verified_email) "active").

(** The invitation is consumed, and the revision bumped and audited only when
    it was; no row is an error. *)
Definition accept_row (principal_id : string) (i : invitation_row) : invitation_row :=
  mkInvitation (in_id i) (in_scope i) (in_email i) (in_role_key i) (in_token_hash i) "accepted"
    (in_expires_at i) (in_created_by i) (Some principal_id).

Definition pending_with_id (invitation_id : string) (i : invitation_row) : bool :=
  bool_decide (in_id i = invitation_id) && bool_decide (in_status i = "pending").

Definition _consume_invitation (invitation_id principal_id : string) (sc : scope) (hex : string)
    : stres acl Z :=
  s ← get_st;
  let consumed := existsb (pending_with_id invitation_id) (invitations s) in
  _ ← modify_st (with_invitations (map (fun i =>
        if pending_with_id invitation_id i then accept_row principal_id i else i)));
  if negb consumed then raise_st InvitationInvalidError else
  _ ← insert_audit (mkAudit hex sc principal_id "invitation.accepted" (Some principal_id)
                      (PDict [("invitation_id", PStr invitation_id)]));
  match policies s !! sc with
  | Some revision =>
      _ ← modify_st (with_policies (<[sc := revision + 1]>));
      mret (revision + 1)
  | None => raise_st InvitationInvalidError
  end.

Record accepted : Type := mkAccepted {
  ac_principal_id : string;
  ac_scope : scope;
  ac_role_key : string;
  ac_revision : Z;
}.

(** The four identifiers drawn, in the order of the calls. *)
Record uuids : Type := mkUuids {
  uu_principal : string;
  uu_binding : string;
  uu_grant : string;
  uu_audit : string;
}.

Definition bound_to (identity : identity_key) (b : binding_row) : bool :=
  same_identity identity b && bool_decide (bi_status b = "active").

Definition accept_invitation (token_hash : string) (identity : identity_key)
    (verified_email : string) (now : Z) (u : uuids) : stres acl accepted :=
  transaction (
    row ← gets_st (fun s => List.find (fun i => bool_decide (in_token_hash i = token_hash))
                              (invitations s));
    invitation ← lift_res (_validate_invitation now row verified_email);
    binding ← gets_st (fun s => List.find (bound_to identity) (bindings s));
    let principal_id := match binding with
                        | Some b => bi_principal_id b | None => uu_principal u end in
    _ ← match binding with
        | None => _insert_principal_binding principal_id identity verified_email (uu_binding u)
        | Some _ => mret tt
        end;
    _ ← insert_grant (new_grant (uu_grant u) principal_id (in_scope invitation)
                        (in_role_key invitation) principal_id) DoUpdate;
    revision ← _consume_invitation (in_id invitation) principal_id (in_scope invitation)
                 (uu_audit u);
    mret (mkAccepted principal_id (in_scope invitation) (in_role_key invitation) revision)).

Definition upsert_grant (principal_id : string) (sc : scope) (role_key actor_principal_id : string)
    (expected_revision now : Z) (grant_id audit_id : string) : stres acl Z :=
  transaction (
    revision ← _lock_scope sc expected_revision;
    existing ← _lock_active_grant principal_id sc;
    _ ← match existing with
        | Some g =>
            if bool_decide (sc.1 = "workspace")
               && bool_decide (gr_role_key g = "workspace_owner")
               && negb (bool_decide (role_key = "workspace_owner"))
            then _require_another_owner now sc.2 principal_id else mret tt
        | None => mret tt
        end;
    _ ← insert_grant (new_grant grant_id principal_id sc role_key actor_principal_id) DoUpdate;
    _record_mutation revision sc actor_principal_id "grant.changed" (Some principal_id)
      PNone audit_id).

Definition revoke_row (g : grant_row) : grant_row :=
  mkGrant (gr_id g) (gr_principal_id g) (gr_scope g) (gr_role_key g) "revoked"
    (gr_expires_at g) (gr_created_by g).

Definition revoke_grant (principal_id : string) (sc : scope) (actor_principal_id : string)
    (expected_revision now : Z) (audit_id : string) : stres acl Z :=
  transaction (
    revision ← _lock_scope sc expected_revision;
    existing ← _lock_active_grant principal_id sc;
    _ ← match existing with
        | Some g => if bool_decide (gr_role_key g = "workspace_owner")
                    then _require_another_owner now sc.2 principal_id else mret tt
        | None => mret tt
        end;
    _ ← match existing with
        | Some g => if bool_decide (gr_role_key g = "local_core_super_admin")
                    then _require_another_local_core_super_admin now principal_id else mret tt
        | None => mret tt
        end;
    _ ← modify_st (with_grants (map (fun g =>
          if active_for principal_id sc g then revoke_row g else g)));
    _record_mutation revision sc actor_principal_id "grant.revoked" (Some principal_id)
      PNone audit_id).

(** * Identities (repository_identity.py) *)

(** The collation of the database's text columns, and its [md5]. *)
Class Database : Type := {
  text_le : string -> string -> bool;
  md5 : string -> string;
}.

Definition sort_by {A} (le : A -> A -> bool) (l : list A) : list A := merge_sort (fun a b => le a b) l.

Definition activate_principal (p : principal_row) : principal_row :=
  mkPrincipal (pr_kind p) (pr_display_email p) "active".

(** [DO UPDATE SET principal_id = EXCLUDED.principal_id, status = 'active'] *)
Definition rebind (principal_id : string) (b : binding_row) : binding_row :=
  mkBinding (bi_id b) principal_id (bi_identity b) (bi_verified_email b) "active".

Definition local_identity (user : string) : identity_key := ("local", "local-core", user).

Definition upsert_local_principal (user : string) : stres acl unit :=
  upsert_principal ("local-" +:+ user) (mkPrincipal "local" None "active") activate_principal.

Definition upsert_local_binding (user : string) : stres acl unit :=
  upsert_binding (mkBinding ("local-binding-" +:+ user) ("local-" +:+ user) (local_identity user)
                    None "active") (rebind ("local-" +:+ user)).

Definition ensure_local_recovery_owner (local_user_id : string) : stres acl string :=
  let principal_id := "local-" +:+ local_user_id in
  transaction (
    _ ← upsert_local_principal local_user_id;
    _ ← upsert_local_binding local_user_id;
    _ ← ensure_policy local_core;
    _ ← insert_grant (new_grant ("local-grant-" +:+ local_user_id) principal_id local_core
                        "local_core_super_admin" "host-bootstrap") DoUpdate;
    mret principal_id).

Fixpoint for_each {A} (f : A -> stres acl unit) (l : list A) : stres acl unit :=
  match l with [] => mret tt | a :: r => _ ← f a; for_each f r end.

Fixpoint count_inserted {A} (f : A -> stres acl bool) (l : list A) : stres acl Z :=
  match l with
  | [] => mret 0
  | a :: r => b ← f a; n ← count_inserted f r; mret (if b : bool then n + 1 else n)
  end.

(** The grant is updated in place, or its email kept when none is given. *)
Definition keep_email (email : option string) (p : principal_row) : principal_row :=
  mkPrincipal (pr_kind p)
    (match email with Some e => Some e | None => pr_display_email p end) "active".

Definition keep_binding_email (email : option string) (b : binding_row) : binding_row :=
  mkBinding (bi_id b) (bi_principal_id b) (bi_identity b)
    (match email with Some e => Some e | None => bi_verified_email b end) "active".

Definition import_verified_grant (principal_id binding_id grant_id : string)
    (identity : identity_key) (verified_email : option string) (sc : scope)
    (role_key actor_id : string) : stres acl bool :=
  transaction (
    _ ← upsert_principal principal_id (mkPrincipal "human" verified_email "active")
          (keep_email verified_email);
    _ ← upsert_binding (mkBinding binding_id principal_id identity verified_email "active")
          (keep_binding_email verified_email);
    _ ← ensure_policy sc;
    insert_grant (new_grant grant_id principal_id sc role_key actor_id) DoNothing).

Section database.
Context `{Database}.

(** Workspaces with an owner, as pairs of workspace and owner. *)
Definition owners (s : acl) : list (string * string) :=
  omap (fun w => match ws_owner_user_id w with
                 | Some u => if bool_decide (u = "") then None else Some (ws_id w, u)
                 | None => None
                 end) (workspaces s).

(** One statement; its parts do not read what the others write. *)
Definition backfill_workspace_owners (actor_id : string) : stres acl Z :=
  transaction (
    os ← gets_st owners;
    let users := remove_dups (map snd os) in
    _ ← for_each upsert_local_principal users;
    _ ← for_each upsert_local_binding users;
    _ ← for_each (fun o => ensure_policy (workspace o.1)) os;
    count_inserted (fun o =>
      insert_grant (new_grant (md5 ("owner:" +:+ o.2 +:+ ":" +:+ o.1)) ("local-" +:+ o.2)
                      (workspace o.1) "workspace_owner" actor_id) DoNothing) os).

(** * Reads (repository_reads.py) *)

Definition active_principal (p : string) (s : acl) : bool :=
  match principals s !! p with
  | Some row => bool_decide (pr_status row = "active") | None => false end.

(** [_PRINCIPAL_CTE] *)
Definition principal_of (identity : identity_key) (s : acl) : option string :=
  bi_principal_id <$> List.find (fun b => bound_to identity b
                                          && active_principal (bi_principal_id b) s) (bindings s).

(** The scopes whose grants count in a workspace, or in none. *)
Definition in_reach (workspace_id : option string) (sc : scope) : bool :=
  bool_decide (sc = local_core)
  || match workspace_id with Some w => bool_decide (sc = workspace w) | None => false end.

Definition reaches (now : Z) (workspace_id : option string) (principal_id : string)
    (g : grant_row) : bool :=
  bool_decide (gr_principal_id g = principal_id) && effective now g
  && in_reach workspace_id (gr_scope g).

Definition effective_roles (now : Z) (workspace_id : option string) (principal_id : string)
    (s : acl) : list string :=
  map gr_role_key (List.filter (reaches now workspace_id principal_id) (grants s)).

Definition scope_of (workspace_id : option string) : scope :=
  match workspace_id with Some w => workspace w | None => local_core end.

(** The principal, the roles and the revision of the scope. *)
Definition repository_resolve (identity : identity_key) (workspace_id : option string) (now : Z)
    (s : acl) : option string * list string * Z :=
  let principal := principal_of identity s in
  (principal,
   match principal with
   | Some p => sort_by text_le (effective_roles now workspace_id p s)
   | None => []
   end,
   default 0 (policies s !! scope_of workspace_id)).

Definition globally_allowed (now : Z) (identity : identity_key) (s : acl) : bool :=
  match principal_of identity s with
  | Some p => existsb (fun g => bool_decide (gr_principal_id g = p)
                                && bool_decide (gr_scope g = local_core) && effective now g) (grants s)
  | None => false
  end.

Definition granted_in (now : Z) (identity : identity_key) (workspace_id : string) (s : acl) : bool :=
  match principal_of identity s with
  | Some p => existsb (fun g => bool_decide (gr_principal_id g = p)
                                && bool_decide (gr_scope g = workspace workspace_id)
                                && effective now g) (grants s)
  | None => false
  end.

(** [ORDER BY workspace.updated_at DESC, workspace.id] *)
Definition later_workspace (a b : workspace_row) : bool :=
  (ws_updated_at b <? ws_updated_at a)
  || ((ws_updated_at a =? ws_updated_at b) && text_le (ws_id a) (ws_id b)).

Definition list_authorized_workspace_ids (identity : identity_key) (now : Z) (limit : nat) (s : acl)
    : list string :=
  take limit (map ws_id (sort_by later_workspace
    (List.filter (fun w => globally_allowed now identity s || granted_in now identity (ws_id w) s)
       (workspaces s)))).

Record remote_identity : Type := mkRemote {
  ri_identity : identity_key;
  ri_verified_email : option string;
  ri_principal_id : string;
  ri_role_keys : list string;
  ri_global_access : bool;
}.

(** The grants of [eligible_grants] that belong to the principal. *)
Definition eligible (now : Z) (workspace_id principal_id : string) (s : acl) : list grant_row :=
  if active_principal principal_id s
  then List.filter (reaches now (Some workspace_id) principal_id) (grants s) else [].

Definition remote_row (now : Z) (workspace_id : string) (s : acl) (b : binding_row)
    : option remote_identity :=
  if bool_decide (bi_status b = "active")
  then match eligible now workspace_id (bi_principal_id b) s with
       | [] => None
       | gs => Some (mkRemote (bi_identity b) (bi_verified_email b) (bi_principal_id b)
                       (sort_by text_le (remove_dups (map gr_role_key gs)))
                       (existsb (fun g => bool_decide ((gr_scope g).1 = "local_core")) gs))
       end
  else None.

(** [ORDER BY issuer, subject] *)
Definition remote_le (a b : remote_identity) : bool :=
  let '(_, i, u) := ri_identity a in let '(_, i', u') := ri_identity b in
  (text_le i i' && negb (bool_decide (i = i'))) || (bool_decide (i = i') && text_le u u').

Definition repository_remote_projection (workspace_id : string) (now : Z) (s : acl)
    : list remote_identity * Z :=
  (sort_by remote_le (omap (remote_row now workspace_id s) (bindings s)),
   default 0 (policies s !! workspace workspace_id)).

(** * The facade (facade.py) *)

Fixpoint union_permissions (roles : list string) : res (gset string) :=
  match roles with
  | [] => Ok ∅
  | role :: r => p ← permissions_for_role role; q ← union_permissions r; Ok (p ∪ q)
  end.

Definition resolve_effective_access (identity : VerifiedIdentity) (workspace_id : option string)
    (now : Z) : stres acl EffectiveAccessContext :=
  state ← gets_st (repository_resolve (key_of identity) workspace_id now);
  let '(principal_id, roles, revision) := state in
  permissions ← lift_res (union_permissions roles);
  mret (mkContext principal_id workspace_id roles permissions revision
          (bool_decide (is_Some principal_id))).

(** An identity of the remote projection with its sorted permissions. *)
Definition remote_permissions (i : remote_identity) : res (remote_identity * list string) :=
  p ← union_permissions (ri_role_keys i);
  Ok (i, sort_by String.leb (elements p)).

Definition read_remote_identity_projection (workspace_id : string) (now : Z)
    : stres acl (list (remote_identity * list string) * Z) :=
  projection ← gets_st (repository_remote_projection workspace_id now);
  identities ← lift_res (seq_res (map remote_permissions projection.1));
  mret (identities, projection.2).

Definition bootstrap_local_state (local_user_id : string) : stres acl (string * Z) :=
  principal_id ← ensure_local_recovery_owner local_user_id;
  owners_created ← backfill_workspace_owners principal_id;
  mret (principal_id, owners_created).

Definition sha256 (s : string) : string := Sha256.hexdigest (utf8 s).

Definition stable_key (i : VerifiedIdentity) : string :=
  provider i +:+ "|" +:+ issuer i +:+ "|" +:+ subject i.

Definition facade_import_verified_grant (identity : VerifiedIdentity) (sc : scope)
    (role_key actor_id : string) : stres acl bool :=
  _ ← lift_res (validate_role_scope role_key sc.1);
  import_verified_grant (sha256 ("principal|" +:+ stable_key identity))
    (sha256 ("binding|" +:+ stable_key identity))
    (sha256 ("grant|" +:+ stable_key identity +:+ "|" +:+ sc.1 +:+ "|" +:+ sc.2 +:+ "|" +:+ role_key))
    (key_of identity) (verified_email identity) sc role_key actor_id.

Record InvitationCreated : Type := mkCreated {
  cr_invitation_id : string;
  cr_invitation_token : string;
  cr_scope : scope;
  cr_email : string;
  cr_role_key : string;
  cr_expires_at : Z;
  cr_revision : Z;
}.

(** [raw_token] is [secrets.token_urlsafe(32)]. *)
Definition facade_create_invitation (command : InvitationCreateCommand)
    (actor_principal_id raw_token invitation_id audit_id : string) (now : Z)
    : stres acl InvitationCreated :=
  _ ← lift_res (validate_invitation_semantics command);
  let expires_at := add_seconds now (ic_expires_in_days command * 86400) in
  revision ← create_invitation invitation_id (ic_scope command) (ic_email command)
               (ic_role_key command) (sha256 raw_token) expires_at actor_principal_id
               (ic_expected_revision command) audit_id;
  mret (mkCreated invitation_id raw_token (ic_scope command) (ic_email command)
          (ic_role_key command) expires_at revision).

Definition facade_accept_invitation (raw_token : string) (identity : VerifiedIdentity) (now : Z)
    (u : uuids) : stres acl accepted :=
  match verified_email identity with
  | Some e =>
      if bool_decide (e = "")
      then raise_st (OtherError "InvitationInvalidError" "verified_email_required")
      else accept_invitation (sha256 raw_token) (key_of identity) e now u
  | None => raise_st (OtherError "InvitationInvalidError" "verified_email_required")
  end.

Definition change_grant (command : GrantChangeCommand) (actor_principal_id : string) (now : Z)
    (grant_id audit_id : string) : stres acl Z :=
  _ ← lift_res (validate_grant_semantics command);
  upsert_grant (gc_principal_id command) (gc_scope command) (gc_role_key command)
    actor_principal_id (gc_expected_revision command) now grant_id audit_id.

(** * The HTTP seam (dependencies/workspace_access.py, routes/core/workspace_access/)

    [AuthContext] is what authentication has established. *)
Record AuthContext : Type := mkAuth {
  user_id : string;
  tenant_id : string;
  is_cloud_mode : bool;
  identity_provider : option string;
  identity_issuer : option string;
  identity_subject : option string;
  auth_verified_email : option string;
}.

Definition HTTPException (status_code : Z) (detail : string) : exn :=
  OtherError ("HTTPException " +:+ str_int status_code) detail.

Definition or_str (o : option string) (dflt : string) : string :=
  match o with Some s => str_or s dflt | None => dflt end.

Definition verified_identity_from_auth (auth : AuthContext) : res VerifiedIdentity :=
  let p := or_str (identity_provider auth)
             (if is_cloud_mode auth then "cloud-integration" else "local") in
  let i := or_str (identity_issuer auth)
             (if is_cloud_mode auth then tenant_id auth else "local-core") in
  let s := or_str (identity_subject auth) (user_id auth) in
  if bool_decide (p = "") || bool_decide (i = "") || bool_decide (s = "")
  then Raise (HTTPException 401 "verified_identity_required")
  else new_VerifiedIdentity p i s (auth_verified_email auth).

Definition require_workspace_permission (permission workspace_id : string) (auth : AuthContext)
    (now : Z) : stres acl EffectiveAccessContext :=
  identity ← lift_res (verified_identity_from_auth auth);
  context ← resolve_effective_access identity (Some workspace_id) now;
  if allows context permission then mret context
  else raise_st (HTTPException 403 "workspace_access_denied").

Definition require_local_core_permission (permission : string) (auth : AuthContext) (now : Z)
    : stres acl EffectiveAccessContext :=
  identity ← lift_res (verified_identity_from_auth auth);
  context ← resolve_effective_access identity None now;
  if allows context permission then mret context
  else raise_st (HTTPException 403 "local_core_access_denied").

(** The status of a typed failure, with the code of its class; other
    exceptions pass. *)
Definition error_codes : dict string :=
  [("AccessDeniedError", "access_denied");
   ("AccessRevisionConflictError", "access_revision_conflict");
   ("InvitationInvalidError", "invitation_invalid");
   ("InvitationExpiredError", "invitation_expired");
   ("InvitationEmailMismatchError", "invitation_email_mismatch");
   ("LastOwnerError", "last_workspace_owner");
   ("LastAdministratorError", "last_local_core_super_admin")].

Definition http_status (cls : string) : Z :=
  if bool_decide (cls ∈ ["AccessRevisionConflictError"; "LastOwnerError"; "LastAdministratorError"])
  then 409
  else if bool_decide (cls ∈ ["InvitationInvalidError"; "InvitationExpiredError"]) then 410
  else if bool_decide (cls ∈ ["InvitationEmailMismatchError"; "AccessDeniedError"]) then 403
  else 400.

Definition http_error (e : exn) : exn :=
  match e with
  | OtherError cls _ =>
      match dget cls error_codes with
      | Some code => HTTPException (http_status cls) code
      | None => e
      end
  | _ => e
  end.

Definition mapping_errors {A} (c : stres acl A) : stres acl A := fun s =>
  match c s with (Raise e, s') => (Raise (http_error e), s') | r => r end.

(** The request's fields are validated once its dependencies have passed. *)
Definition valid_request (ok : bool) : stres acl unit :=
  if ok then mret tt else raise_st (OtherError "RequestValidationError" "422").

Definition invitation_fields_ok (email role_key : string)
    (expected_revision expires_in_days : Z) : bool :=
  sized 3 320 email && sized 1 64 role_key && (0 <=? expected_revision)
  && (1 <=? expires_in_days) && (expires_in_days <=? 30).

(** [str(access.principal_id)] *)
Definition actor_of (access : EffectiveAccessContext) : string := default "None" (cx_principal_id access).

Definition invite_local_core_member (auth : AuthContext) (email role_key : string)
    (expected_revision expires_in_days : Z) (raw_token invitation_id audit_id : string) (now : Z)
    : stres acl InvitationCreated :=
  access ← require_local_core_permission LOCAL_CORE_ACCESS_MANAGE auth now;
  _ ← valid_request (invitation_fields_ok email role_key expected_revision expires_in_days);
  mapping_errors (
    command ← lift_res (new_InvitationCreateCommand local_core email role_key expected_revision
                          expires_in_days);
    facade_create_invitation command (actor_of access) raw_token invitation_id audit_id now).

Definition revoke_local_core_member (auth : AuthContext) (principal_id : string)
    (expected_revision now : Z) (audit_id : string) : stres acl Z :=
  access ← require_local_core_permission LOCAL_CORE_ACCESS_MANAGE auth now;
  _ ← valid_request (1 <=? expected_revision);
  mapping_errors (
    revoke_grant principal_id local_core (actor_of access) expected_revision now audit_id).

Definition invite_workspace_member (workspace_id : string) (auth : AuthContext)
    (email role_key : string) (expected_revision expires_in_days : Z)
    (raw_token invitation_id audit_id : string) (now : Z) : stres acl InvitationCreated :=
  access ← require_workspace_permission WORKSPACE_MEMBERS_MANAGE workspace_id auth now;
  _ ← valid_request (invitation_fields_ok email role_key expected_revision expires_in_days);
  mapping_errors (
    command ← lift_res (new_InvitationCreateCommand (workspace workspace_id) email role_key
                          expected_revision expires_in_days);
    facade_create_invitation command (actor_of access) raw_token invitation_id audit_id now).

Definition change_workspace_member (workspace_id principal_id : string) (auth : AuthContext)
    (role_key : string) (expected_revision now : Z) (grant_id audit_id : string) : stres acl Z :=
  access ← require_workspace_permission WORKSPACE_MEMBERS_MANAGE workspace_id auth now;
  _ ← valid_request (sized 1 64 role_key && (1 <=? expected_revision));
  mapping_errors (
    command ← lift_res (new_GrantChangeCommand principal_id (workspace workspace_id) role_key
                          expected_revision);
    change_grant command (actor_of access) now grant_id audit_id).

Definition revoke_workspace_member (workspace_id principal_id : string) (auth : AuthContext)
    (expected_revision now : Z) (audit_id : string) : stres acl Z :=
  access ← require_workspace_permission WORKSPACE_MEMBERS_MANAGE workspace_id auth now;
  _ ← valid_request (1 <=? expected_revision);
  mapping_errors (
    revoke_grant principal_id (workspace workspace_id) (actor_of access) expected_revision now
      audit_id).

(** [origin] and [ingress] are the request's headers. *)
Definition accept_invitation_route (auth : AuthContext) (origin ingress : option string)
    (raw_token : string) (now : Z) (u : uuids) : stres acl accepted :=
  _ ← valid_request (sized 32 512 raw_token);
  if negb (bool_decide (origin = Some "https://remote-workbench.mindscapeai.app"))
     || negb (bool_decide (ingress = Some "remote_workbench"))
  then raise_st (HTTPException 403 "remote_origin_forbidden") else
  mapping_errors (
    identity ← lift_res (verified_identity_from_auth auth);
    facade_accept_invitation raw_token identity now u).
End database.
