(* ===== verification/AccessTheorems.v ===== *)
(** Theorems of the workspace access control: the tables stay consistent, an
    edit from a stale revision is refused, an invitation is used once, owners
    and administrators are not lost, what an acceptance grants, who may edit,
    and the three readers agree. *)
From stdpp Require Import sorting.
From S2P Require Import Prelude PyDict PyStr PyVal PyJson PyTime AccessControl.

(** * Consistency of the tables *)

Definition grant_key (g : grant_row) : string * scope := (gr_principal_id g, gr_scope g).
Definition active_keys (l : list grant_row) : list (string * scope) :=
  map grant_key (List.filter gr_active l).
Definition audits_of (sc : scope) (l : list audit_row) : list audit_row :=
  List.filter (fun a => bool_decide (au_scope a = sc)) l.

Record consistent (s : acl) : Prop := {
  one_active_grant : NoDup (active_keys (grants s));
  grant_ok : forall g, g ∈ grants s ->
    is_Some (principals s !! gr_principal_id g) /\ is_Some (policies s !! gr_scope g)
    /\ role_in_scope (gr_role_key g) (gr_scope g).1 = true /\ gr_expires_at g = None;
  one_binding : NoDup (map bi_identity (bindings s));
  binding_ok : forall b, b ∈ bindings s ->
    is_Some (principals s !! bi_principal_id b) /\ bi_status b = "active";
  principal_ok : forall p row, principals s !! p = Some row -> pr_status row = "active";
  one_token : NoDup (map in_token_hash (invitations s));
  invitation_ok : forall i, i ∈ invitations s ->
    is_Some (policies s !! in_scope i) /\ role_in_scope (in_role_key i) (in_scope i).1 = true;
  revision_counts : forall sc r, policies s !! sc = Some r ->
    r = 1 + Z.of_nat (length (audits_of sc (audits s)));
  audit_ok : forall a, a ∈ audits s -> is_Some (policies s !! au_scope a);
}.

(** A computation that returns keeps [P]; what it raises is rolled back. *)
Definition keeps {A} (P : acl -> Prop) (c : stres acl A) : Prop :=
  forall s a s', P s -> c s = (Ok a, s') -> P s'.

Section keeps.
Context (P : acl -> Prop).

Lemma keeps_ret {A} (a : A) : keeps P (mret a).
Proof. by intros s b s' Hs [= _ <-]. Qed.
Lemma keeps_raise {A} e : keeps P (raise_st (A:=A) e).
Proof. by intros s b s' _ [=]. Qed.
Lemma keeps_gets {A} (f : acl -> A) : keeps P (gets_st f).
Proof. by intros s b s' Hs [= _ <-]. Qed.
Lemma keeps_get : keeps P get_st.
Proof. by intros s b s' Hs [= _ <-]. Qed.
Lemma keeps_lift {A} (r : res A) : keeps P (lift_res r).
Proof. by intros s b s' Hs [= _ <-]. Qed.
Lemma keeps_require c b : keeps P (require c b).
Proof. destruct b; [apply keeps_ret|apply keeps_raise]. Qed.
Lemma keeps_bind {A B} (c : stres acl A) (f : A -> stres acl B) :
  keeps P c -> (forall a, keeps P (f a)) -> keeps P (c ≫= f).
Proof.
  intros Hc Hf s b s' Hs E. apply st_bind_Ok_inv in E as (a & s1 & E1 & E2).
  eapply Hf; [|exact E2]. by eapply Hc.
Qed.
Lemma keeps_transaction {A} (c : stres acl A) : keeps P c -> keeps P (transaction c).
Proof. intros Hc s a s' Hs E. by eapply Hc, transaction_Ok. Qed.
Lemma keeps_if {A} (b : bool) (c c' : stres acl A) :
  keeps P c -> keeps P c' -> keeps P (if b then c else c').
Proof. by destruct b. Qed.
Lemma keeps_for_each {A} (f : A -> stres acl unit) l :
  (forall a, keeps P (f a)) -> keeps P (for_each f l).
Proof. intros Hf. induction l; simpl; [apply keeps_ret|by apply keeps_bind]. Qed.
Lemma keeps_count {A} (f : A -> stres acl bool) l :
  (forall a, keeps P (f a)) -> keeps P (count_inserted f l).
Proof.
  intros Hf. induction l; simpl; [apply keeps_ret|].
  apply keeps_bind; [done|]. intros b. apply keeps_bind; [done|]. intros n. apply keeps_ret.
Qed.
End keeps.
#[export] Hint Resolve keeps_ret keeps_raise keeps_gets keeps_get keeps_lift keeps_require : py.

(** [keep] walks through a program down to the statements that write. *)
Ltac keep :=
  repeat lazymatch goal with
  | |- keeps _ (mbind _ _) => apply keeps_bind; [|intros ?]
  | |- keeps _ (transaction _) => apply keeps_transaction
  | |- keeps _ (if _ then _ else _) => apply keeps_if
  | |- keeps _ (for_each _ _) => apply keeps_for_each; intros ?
  | |- keeps _ (count_inserted _ _) => apply keeps_count; intros ?
  end; auto with py.

Lemma require_Ok c b s a s' : require c b s = (Ok a, s') -> b = true /\ s' = s.
Proof. destruct b; by intros [= ?]. Qed.

(** [run H] executes the bindings and constraints of a program that returned. *)
Ltac run H :=
  repeat first
    [ lazymatch type of H with (mbind _ _) _ = _ => apply st_bind_Ok_inv in H as (? & ? & ?Hrun & H) end
    | match goal with
      | R : require _ _ _ = _ |- _ => apply require_Ok in R as [? ->]
      | R : get_st _ = _ |- _ => injection R as <- <-
      | R : gets_st _ _ = _ |- _ => injection R as <- <-
      | R : modify_st _ _ = _ |- _ => injection R as _ <-
      end ].

(** ** The writing statements *)

Lemma still_there `{Countable K} {V} (m : gmap K V) k k' v :
  is_Some (m !! k) -> is_Some (<[k' := v]> m !! k).
Proof. intros Hm. apply lookup_insert_is_Some'. by right. Qed.
#[local] Hint Resolve still_there : core.

Lemma consistent_policies s sc r :
  consistent s -> r = 1 + Z.of_nat (length (audits_of sc (audits s))) ->
  consistent (with_policies (<[sc := r]>) s).
Proof.
  intros [] Hr. constructor; simpl; try done.
  - intros g Hg. destruct (grant_ok0 g Hg) as (? & ? & ? & ?). eauto.
  - intros i Hi. destruct (invitation_ok0 i Hi). eauto.
  - intros sc' r'. rewrite lookup_insert_Some. intros [[<- <-]|[_ Hl]]; eauto.
  - intros a Ha. eauto.
Qed.

Lemma consistent_principals s f :
  consistent s ->
  (forall p, is_Some (principals s !! p) -> is_Some (f (principals s) !! p)) ->
  (forall p row, f (principals s) !! p = Some row -> pr_status row = "active") ->
  consistent (with_principals f s).
Proof.
  intros [] Hsub Hact. constructor; simpl; try done.
  - intros g Hg. destruct (grant_ok0 g Hg) as (? & ? & ? & ?). eauto.
  - intros b Hb. destruct (binding_ok0 b Hb). eauto.
Qed.

Lemma consistent_bindings s f :
  consistent s -> NoDup (map bi_identity (f (bindings s))) ->
  (forall b, b ∈ f (bindings s) -> is_Some (principals s !! bi_principal_id b)
                                   /\ bi_status b = "active") ->
  consistent (with_bindings f s).
Proof. intros [] Hn Hb. by constructor. Qed.

Lemma consistent_grants s f :
  consistent s -> NoDup (active_keys (f (grants s))) ->
  (forall g, g ∈ f (grants s) ->
     is_Some (principals s !! gr_principal_id g) /\ is_Some (policies s !! gr_scope g)
     /\ role_in_scope (gr_role_key g) (gr_scope g).1 = true /\ gr_expires_at g = None) ->
  consistent (with_grants f s).
Proof. intros [] Hn Hg. by constructor. Qed.

Lemma consistent_invitations s f :
  consistent s -> NoDup (map in_token_hash (f (invitations s))) ->
  (forall i, i ∈ f (invitations s) ->
     is_Some (policies s !! in_scope i) /\ role_in_scope (in_role_key i) (in_scope i).1 = true) ->
  consistent (with_invitations f s).
Proof. intros [] Hn Hi. by constructor. Qed.

(** The revision and the audit move together. *)
Lemma consistent_edit s a r :
  consistent s -> policies s !! au_scope a = Some r ->
  consistent (with_audits (fun l => l ++ [a]) (with_policies (<[au_scope a := r + 1]>) s)).
Proof.
  intros [] Hr. constructor; simpl; try done.
  - intros g Hg. destruct (grant_ok0 g Hg) as (? & ? & ? & ?). eauto.
  - intros i Hi. destruct (invitation_ok0 i Hi). eauto.
  - intros sc r'. unfold audits_of. rewrite List.filter_app, length_app, Nat2Z.inj_add. simpl.
    rewrite lookup_insert_Some. intros [[<- <-]|[Hne Hl]].
    + rewrite bool_decide_true by done. simpl.
      rewrite (revision_counts0 _ _ Hr). unfold audits_of. lia.
    + rewrite bool_decide_false by done. simpl. rewrite (revision_counts0 _ _ Hl).
      unfold audits_of. lia.
  - intros a'. rewrite elem_of_app, list_elem_of_singleton. intros [Ha| ->]; [eauto|].
    apply lookup_insert_is_Some'. by left.
Qed.

Lemma no_audits s sc : consistent s -> policies s !! sc = None -> audits_of sc (audits s) = [].
Proof.
  intros Hs Hn. unfold audits_of. destruct (List.filter _ (audits s)) as [|a l] eqn:E; [done|].
  assert (In a (List.filter (fun a => bool_decide (au_scope a = sc)) (audits s))) as Hin
    by (rewrite E; by left).
  apply filter_In in Hin as [Hin Hsc]. bool_prop. apply list_elem_of_In in Hin.
  apply (audit_ok s Hs) in Hin as [r Hr]. congruence.
Qed.

Lemma keeps_insert_policy sc : keeps consistent (insert_policy sc).
Proof.
  intros s a s' Hs E. unfold insert_policy in E. run E.
  apply consistent_policies; [done|]. rewrite no_audits; [done|done|].
  unfold has_policy in *. bool_prop. by apply eq_None_not_Some.
Qed.

Lemma keeps_ensure_policy sc : keeps consistent (ensure_policy sc).
Proof.
  intros s a s' Hs E. unfold ensure_policy in E. run E. unfold has_policy in E.
  case_bool_decide as Hp; injection E as _ <-; [done|].
  apply consistent_policies; [done|]. rewrite no_audits; [done|done|]. by apply eq_None_not_Some.
Qed.

Lemma keeps_insert_principal id p :
  pr_status p = "active" -> keeps consistent (insert_principal id p).
Proof.
  intros Hp s a s' Hs E. unfold insert_principal in E. run E.
  apply consistent_principals; [done|eauto|].
  intros q row. rewrite lookup_insert_Some. intros [[_ <-]|[_ Hl]]; [done|].
  by eapply (principal_ok s Hs).
Qed.

Lemma keeps_upsert_principal id p f :
  pr_status p = "active" -> (forall row, pr_status (f row) = "active") ->
  keeps consistent (upsert_principal id p f).
Proof.
  intros Hp Hf s a s' Hs [= _ <-]. apply consistent_principals; [done|eauto|].
  intros q row. rewrite lookup_insert_Some. intros [[_ <-]|[_ Hl]]; [by case_match|].
  by eapply (principal_ok s Hs).
Qed.

Lemma keeps_add_binding b :
  bi_status b = "active" -> forall s a s', consistent s ->
  existsb (same_identity (bi_identity b)) (bindings s) = false ->
  add_binding b s = (Ok a, s') -> consistent s'.
Proof.
  intros Hb s a s' Hs Hn E. unfold add_binding in E. run E.
  rewrite existsb_none in Hn. unfold has_principal in *. bool_prop.
  apply consistent_bindings; [done| |].
  - rewrite map_app. apply NoDup_app. split; [apply (one_binding s Hs)|].
    split; [|apply NoDup_singleton]. intros i Hi. apply list_elem_of_In, in_map_iff in Hi as (b' & <- & Hb').
    intros Ei%list_elem_of_singleton. apply list_elem_of_In in Hb'.
    specialize (Hn b' Hb'). unfold same_identity in Hn. by rewrite bool_decide_true in Hn.
  - intros b'. rewrite elem_of_app, list_elem_of_singleton.
    intros [Hin| ->]; [by apply (binding_ok s Hs)|done].
Qed.

Lemma keeps_insert_binding b : bi_status b = "active" -> keeps consistent (insert_binding b).
Proof.
  intros Hb s a s' Hs E. unfold insert_binding in E. run E. bool_prop.
  by eapply keeps_add_binding.
Qed.

Lemma keeps_upsert_binding b f :
  bi_status b = "active" ->
  (forall b', bi_identity (f b') = bi_identity b' /\ bi_status (f b') = "active") ->
  keeps consistent (upsert_binding b f).
Proof.
  intros Hb Hf s a s' Hs E. unfold upsert_binding in E. run E.
  destruct (existsb _ _) eqn:Hex; [|by eapply keeps_add_binding].
  run E.
  match goal with R : forallb _ _ = true |- _ => rename R into Hall end.
  rewrite List.forallb_forall in Hall. apply consistent_bindings; [done| |].
  - rewrite map_map. erewrite map_ext; [apply (one_binding s Hs)|].
    intros b'. simpl. case_match; [apply Hf|done].
  - intros b' Hb'. apply list_elem_of_In, in_map_iff in Hb' as (b0 & <- & Hb0).
    specialize (Hall b0 Hb0). apply list_elem_of_In in Hb0.
    destruct (same_identity (bi_identity b) b0); simpl in Hall; [|by apply (binding_ok s Hs)].
    unfold has_principal in Hall. bool_prop. split; [done|apply Hf].
Qed.

Lemma active_keys_same f l :
  (forall g, gr_status (f g) = gr_status g /\ grant_key (f g) = grant_key g) ->
  active_keys (map f l) = active_keys l.
Proof.
  intros Hf. unfold active_keys. induction l as [|g l IH]; [done|]. simpl.
  unfold gr_active in *. rewrite (proj1 (Hf g)). case_bool_decide; simpl; [|done].
  by rewrite (proj2 (Hf g)), IH.
Qed.

Lemma active_keys_sub f l :
  (forall g, f g = g \/ gr_active (f g) = false) -> active_keys (map f l) `sublist_of` active_keys l.
Proof.
  intros Hf. unfold active_keys. induction l as [|g l IH]; [done|]. simpl.
  destruct (Hf g) as [-> | ->].
  - destruct (gr_active g); simpl; [by apply sublist_skip|done].
  - destruct (gr_active g); simpl; [by apply sublist_cons|done].
Qed.

Lemma active_keys_elem p sc l :
  (p, sc) ∈ active_keys l <-> exists g, g ∈ l /\ active_for p sc g = true.
Proof.
  unfold active_keys, active_for. rewrite list_elem_of_In, in_map_iff. split.
  - intros (g & [= <- <-] & Hg). apply filter_In in Hg as [Hg Ha]. exists g.
    split; [by apply list_elem_of_In|]. by rewrite Ha, !bool_decide_true.
  - intros (g & Hg & Ha). bool_prop. exists g. subst. split; [done|]. apply filter_In.
    split; [by apply list_elem_of_In|done].
Qed.

Lemma keeps_insert_grant g c : gr_expires_at g = None -> keeps consistent (insert_grant g c).
Proof.
  intros Hx s a s' Hs E. unfold insert_grant in E. run E.
  destruct (existsb _ _) eqn:Hex.
  - destruct c; [|by inv E]. run E. inv E. apply consistent_grants; [done| |].
    + rewrite active_keys_same; [apply (one_active_grant s Hs)|]. intros g'. by case_match.
    + intros g' Hg'. apply list_elem_of_In, in_map_iff in Hg' as (g0 & <- & Hg0).
      apply list_elem_of_In in Hg0. destruct (grant_ok s Hs g0 Hg0) as (? & ? & ? & ?).
      destruct (active_for _ _ g0) eqn:Ha; [|done]. unfold active_for in Ha. bool_prop. simpl.
      split_and!; try done. congruence.
  - run E. unfold has_principal, has_policy in *. bool_prop. inv E.
    apply consistent_grants; [done| |].
    + unfold active_keys. rewrite List.filter_app, map_app. apply NoDup_app.
      split; [apply (one_active_grant s Hs)|]. simpl. destruct (gr_active g) eqn:Hga; simpl;
        (split; [|by repeat constructor; auto using not_elem_of_nil]); intros k Hk.
      * intros ->%list_elem_of_singleton. apply active_keys_elem in Hk as (g' & Hg' & Ha).
        rewrite existsb_none in Hex. by rewrite Hex in Ha.
      * apply not_elem_of_nil.
    + intros g'. rewrite elem_of_app, list_elem_of_singleton.
      intros [Hin| ->]; [by apply (grant_ok s Hs)|done].
Qed.

Lemma keeps_insert_invitation i : keeps consistent (insert_invitation i).
Proof.
  intros s a s' Hs E. unfold insert_invitation in E. run E. unfold has_policy in *. bool_prop.
  apply consistent_invitations; [done| |].
  - rewrite map_app. apply NoDup_app. split; [apply (one_token s Hs)|].
    split; [|apply NoDup_singleton]. intros t Ht ->%list_elem_of_singleton.
    apply list_elem_of_In, in_map_iff in Ht as (i' & Ei & Hi'). apply list_elem_of_In in Hi'.
    match goal with R : existsb (fun i' => bool_decide (in_token_hash i' = _)) _ = false |- _ =>
      rewrite existsb_none in R; specialize (R i' Hi') end. by bool_prop.
  - intros i'. rewrite elem_of_app, list_elem_of_singleton.
    intros [Hin| ->]; [by apply (invitation_ok s Hs)|done].
Qed.

Lemma keeps_revoke p sc :
  keeps consistent (modify_st (with_grants (map (fun g =>
    if active_for p sc g then revoke_row g else g)))).
Proof.
  intros s a s' Hs [= _ <-]. apply consistent_grants; [done| |].
  - eapply sublist_NoDup; [apply (one_active_grant s Hs)|]. apply active_keys_sub.
    intros g. case_match; [by right|by left].
  - intros g Hg. apply list_elem_of_In, in_map_iff in Hg as (g0 & <- & Hg0).
    apply list_elem_of_In in Hg0. destruct (grant_ok s Hs g0 Hg0) as (? & ? & ? & ?).
    by destruct (active_for p sc g0).
Qed.

Lemma record_mutation_Ok r sc actor action target metadata hex s n s' :
  policies s !! sc = Some r -> _record_mutation r sc actor action target metadata hex s = (Ok n, s') ->
  n = r + 1 /\ s' = with_audits (fun l => l ++ [mkAudit hex sc actor action target
                                                  (py_or metadata (PDict []))])
                      (with_policies (<[sc := r + 1]>) s).
Proof.
  intros Hr E. unfold _record_mutation in E. run E. unfold has_policy in E.
  rewrite bool_decide_true in E by eauto. run E. unfold insert_audit in *. inv E.
  match goal with R : _ = (Ok _, s') |- _ => run R end. done.
Qed.

(** The lock gives the current revision, or opens the scope at 1. *)
Lemma lock_scope_Ok sc n s r s' :
  consistent s -> _lock_scope sc n s = (Ok r, s') ->
  consistent s' /\ policies s' !! sc = Some r /\ n <= r
  /\ (s' = s /\ n = r \/ s' = with_policies (<[sc := 1]>) s /\ policies s !! sc = None /\ n = 0 /\ r = 1).
Proof.
  intros Hs E. unfold _lock_scope in E. run E.
  destruct (policies _ !! sc) as [r0|] eqn:Hr.
  - destruct (Z.eqb_spec r0 n) as [->|]; inv E. split_and!; auto; lia.
  - destruct (Z.eqb_spec n 0) as [->|]; [|by inv E]. cbn [negb] in E. run E. inv E.
    match goal with R : insert_policy sc _ = _ |- _ =>
      pose proof (keeps_insert_policy sc _ _ _ Hs R); unfold insert_policy in R; run R end.
    split_and!; [done|by simpl; rewrite lookup_insert_eq|lia|]. right. done.
Qed.

Lemma insert_grant_Ok g c s b s' :
  insert_grant g c s = (Ok b, s') ->
  role_in_scope (gr_role_key g) (gr_scope g).1 = true
  /\ (existsb (active_for (gr_principal_id g) (gr_scope g)) (grants s) = true /\ b = false
      /\ s' = match c with
              | DoUpdate => with_grants (map (fun g' =>
                  if active_for (gr_principal_id g) (gr_scope g) g'
                  then set_role (gr_role_key g) g' else g')) s
              | DoNothing => s
              end
     \/ existsb (active_for (gr_principal_id g) (gr_scope g)) (grants s) = false /\ b = true
        /\ s' = with_grants (fun l => l ++ [g]) s).
Proof.
  intros E. unfold insert_grant in E. run E. split; [done|].
  destruct (existsb _ _) eqn:Hex.
  - left. destruct c; [run E|]; by inv E.
  - right. run E. by inv E.
Qed.

(** ** Edits

    What the three mutations guarded by a revision share: the scope is opened,
    rows change, and the edit is recorded. *)
Definition opened (sc : scope) (n : Z) (s : acl) (r : Z) (s1 : acl) : Prop :=
  consistent s1 /\ policies s1 !! sc = Some r /\ n <= r
  /\ (s1 = s /\ n = r
      \/ s1 = with_policies (<[sc := 1]>) s /\ policies s !! sc = None /\ n = 0 /\ r = 1).

Definition recorded (sc : scope) (r : Z) (a : audit_row) (s : acl) : acl :=
  with_audits (fun l => l ++ [a]) (with_policies (<[sc := r + 1]>) s).

Lemma consistent_recorded sc r a s :
  consistent s -> policies s !! sc = Some r -> au_scope a = sc -> consistent (recorded sc r a s).
Proof. intros Hs Hr <-. by apply consistent_edit. Qed.

Lemma create_invitation_Ok id sc email role token expires actor n hex s r' s' :
  consistent s -> create_invitation id sc email role token expires actor n hex s = (Ok r', s') ->
  exists r s1, opened sc n s r s1 /\ r' = r + 1
    /\ role_in_scope role sc.1 = true
    /\ (forall i, i ∈ invitations s1 -> in_token_hash i ≠ token)
    /\ let i := mkInvitation id sc email role token "pending" expires actor None in
       s' = recorded sc r (mkAudit hex sc actor "invitation.created" None
                             (PDict [("invitation_id", PStr id)]))
              (with_invitations (fun l => l ++ [i]) s1)
       /\ consistent s'.
Proof.
  intros Hs E. apply transaction_Ok in E. run E.
  match goal with R : _lock_scope _ _ _ = (Ok ?r0, ?s0) |- _ =>
    apply lock_scope_Ok in R; [|done]; rename r0 into r; rename s0 into s1; rename R into Hopen end.
  exists r, s1. split; [exact Hopen|]. destruct Hopen as (Hs1 & Hr & _).
  match goal with R : insert_invitation ?i _ = _ |- _ =>
    pose proof (keeps_insert_invitation i _ _ _ Hs1 R) as Hs2; unfold insert_invitation in R; run R end.
  apply (record_mutation_Ok r) in E as [-> ->]; [|done]. split; [done|]. split; [done|].
  match goal with R : negb (existsb (fun i' => bool_decide (in_token_hash i' = _)) _) = true |- _ =>
    apply negb_true_iff in R; rewrite existsb_none in R; rename R into Hfresh end.
  split; [intros i Hi; specialize (Hfresh i Hi); by bool_prop|]. cbv zeta. split; [done|].
  by apply consistent_recorded.
Qed.

Lemma active_unique s p sc g g' :
  consistent s -> g ∈ grants s -> g' ∈ grants s ->
  active_for p sc g = true -> active_for p sc g' = true -> g = g'.
Proof.
  intros Hs Hg Hg' Ha Ha'. unfold active_for in *. bool_prop.
  apply (nodup_map_inj grant_key (List.filter gr_active (grants s)));
    [apply (one_active_grant s Hs)| | |unfold grant_key; congruence];
    apply list_elem_of_In, filter_In; (split; [by apply list_elem_of_In|done]).
Qed.

Lemma require_owner_Ok now id p s u s' :
  _require_another_owner now id p s = (Ok u, s') ->
  s' = s /\ 1 <= another_holds now (workspace id) "workspace_owner" p s.
Proof.
  unfold _require_another_owner. rewrite (st_bind_eq (gets_st _) _ _ _ s eq_refl).
  destruct (Z.ltb_spec (another_holds now (workspace id) "workspace_owner" p s) 1); by intros [=].
Qed.

Lemma require_admin_Ok now p s u s' :
  _require_another_local_core_super_admin now p s = (Ok u, s') ->
  s' = s /\ 1 <= another_holds now local_core "local_core_super_admin" p s.
Proof.
  unfold _require_another_local_core_super_admin. rewrite (st_bind_eq (gets_st _) _ _ _ s eq_refl).
  destruct (Z.ltb_spec (another_holds now local_core "local_core_super_admin" p s) 1); by intros [=].
Qed.

(** The guard of an edit, for the active grant if there is one. *)
Lemma guard_Ok p sc (f : grant_row -> bool) (c : stres acl unit) (Q : Prop) s0 o s u s' :
  consistent s -> _lock_active_grant p sc s0 = (Ok o, s) ->
  match o with Some g => if f g then c else mret tt | None => mret tt end s = (Ok u, s') ->
  (forall u s', c s = (Ok u, s') -> s' = s /\ Q) ->
  s0 = s /\ s' = s /\ (forall g, g ∈ grants s -> active_for p sc g = true -> f g = true -> Q).
Proof.
  intros Hs [= <- <-] E Hc. split; [done|].
  destruct (List.find (active_for p sc) (grants s0)) as [g0|] eqn:Hf.
  - apply List.find_some in Hf as [Hg0 Ha0]. apply list_elem_of_In in Hg0.
    destruct (f g0) eqn:Hfg.
    + apply Hc in E as [-> HQ]. done.
    + inv E. split; [done|]. intros g Hg Ha Hf. rewrite (active_unique _ _ _ _ _ Hs Hg Hg0 Ha Ha0) in Hf.
      congruence.
  - inv E. split; [done|]. intros g Hg Ha. apply list_elem_of_In in Hg.
    pose proof (List.find_none _ _ Hf g Hg). congruence.
Qed.

Lemma upsert_grant_Ok p sc role actor n now gid aid s r' s' :
  consistent s -> upsert_grant p sc role actor n now gid aid s = (Ok r', s') ->
  exists r s1 s2 b, opened sc n s r s1 /\ r' = r + 1
    /\ insert_grant (new_grant gid p sc role actor) DoUpdate s1 = (Ok b, s2)
    /\ (forall g, g ∈ grants s1 -> active_for p sc g = true ->
          bool_decide (sc.1 = "workspace") && bool_decide (gr_role_key g = "workspace_owner")
          && negb (bool_decide (role = "workspace_owner")) = true ->
          1 <= another_holds now (workspace sc.2) "workspace_owner" p s1)
    /\ s' = recorded sc r (mkAudit aid sc actor "grant.changed" (Some p) (PDict [])) s2
    /\ consistent s'.
Proof.
  intros Hs E. apply transaction_Ok in E. run E.
  match goal with R : _lock_scope _ _ _ = (Ok ?r0, ?s0) |- _ =>
    apply lock_scope_Ok in R; [|done]; rename r0 into r; rename s0 into s1; rename R into Hopen end.
  pose proof (proj1 Hopen) as Hs1.
  match goal with R : _lock_active_grant p sc s1 = (Ok _, ?sm), G : match _ with _ => _ end _ = _ |- _ =>
    assert (sm = s1) as -> by (by injection R as <- <-);
    eapply (guard_Ok p sc) in G as (_ & -> & Hguard); [|exact Hs1|exact R|
      intros u0 s0 Hc; by apply require_owner_Ok in Hc] end.
  match goal with R : insert_grant _ _ s1 = (Ok ?b0, ?s0) |- _ =>
    exists r, s1, s0, b0; pose proof (keeps_insert_grant (new_grant gid p sc role actor) DoUpdate eq_refl _ _ _ Hs1 R) as Hs2;
    pose proof (insert_grant_Ok _ _ _ _ _ R) as [_ Hins]; rename s0 into s2 end.
  assert (policies s2 = policies s1) as Hpol by (by destruct Hins as [(_ & _ & ->)|(_ & _ & ->)]).
  pose proof Hopen as (_ & Hr & _). rewrite <- Hpol in Hr.
  apply (record_mutation_Ok r) in E as [-> ->]; [|done].
  split_and!; try done. by apply consistent_recorded.
Qed.

Lemma revoke_grant_Ok p sc actor n now aid s r' s' :
  consistent s -> revoke_grant p sc actor n now aid s = (Ok r', s') ->
  exists r s1, opened sc n s r s1 /\ r' = r + 1
    /\ (forall g, g ∈ grants s1 -> active_for p sc g = true ->
          bool_decide (gr_role_key g = "workspace_owner") = true ->
          1 <= another_holds now (workspace sc.2) "workspace_owner" p s1)
    /\ (forall g, g ∈ grants s1 -> active_for p sc g = true ->
          bool_decide (gr_role_key g = "local_core_super_admin") = true ->
          1 <= another_holds now local_core "local_core_super_admin" p s1)
    /\ s' = recorded sc r (mkAudit aid sc actor "grant.revoked" (Some p) (PDict []))
              (with_grants (map (fun g => if active_for p sc g then revoke_row g else g)) s1)
    /\ consistent s'.
Proof.
  intros Hs E. apply transaction_Ok in E. run E.
  match goal with R : _lock_scope _ _ _ = (Ok ?r0, ?s0) |- _ =>
    apply lock_scope_Ok in R; [|done]; rename r0 into r; rename s0 into s1; rename R into Hopen end.
  pose proof Hopen as (Hs1 & Hr & _).
  match goal with R : _lock_active_grant p sc s1 = (Ok _, ?sm),
      G : match _ with _ => _ end ?sm = (Ok _, ?sn), G2 : match _ with _ => _ end ?sn = _ |- _ =>
    assert (sm = s1) as -> by (by injection R as <- <-);
    eapply (guard_Ok p sc) in G as (_ & -> & Hguard); [|exact Hs1|exact R|
      intros u0 s0 Hc; by apply require_owner_Ok in Hc];
    eapply (guard_Ok p sc) in G2 as (_ & -> & Hguard2); [|exact Hs1|exact R|
      intros u0 s0 Hc; by apply require_admin_Ok in Hc] end.
  exists r, s1. pose proof (keeps_revoke p sc s1 tt _ Hs1 eq_refl) as Hs2.
  apply (record_mutation_Ok r) in E as [-> ->]; [|done].
  split_and!; try done. by apply consistent_recorded.
Qed.

(** ** Acceptances *)

Definition carries (token : string) (i : invitation_row) : bool :=
  bool_decide (in_token_hash i = token).

Lemma validate_Ok now o e i :
  _validate_invitation now o e = Ok i ->
  o = Some i /\ in_status i = "pending" /\ now < in_expires_at i /\ lower (in_email i) = lower e.
Proof.
  unfold _validate_invitation. destruct o as [i'|]; [|done].
  case_bool_decide; [|done]. cbn [negb]. destruct (Z.leb_spec (in_expires_at i') now); [done|].
  case_bool_decide; [|done]. by intros [= ->].
Qed.

Lemma bind_principal_Ok p identity e hex s u s' :
  consistent s -> _insert_principal_binding p identity e hex s = (Ok u, s') ->
  consistent s' /\ principals s !! p = None
  /\ s' = with_bindings (fun l => l ++ [mkBinding hex p identity (Some e) "active"])
            (with_principals (<[p := mkPrincipal "human" (Some e) "active"]>) s).
Proof.
  intros Hs E. unfold _insert_principal_binding in E. run E.
  match goal with R : insert_principal _ _ _ = _ |- _ =>
    pose proof (keeps_insert_principal p (mkPrincipal "human" (Some e) "active") eq_refl _ _ _ Hs R)
      as Hs1;
    unfold insert_principal in R; run R end.
  split; [by eapply keeps_insert_binding; [|exact Hs1|exact E]|].
  split; [unfold has_principal in *; bool_prop; by apply eq_None_not_Some|].
  unfold insert_binding, add_binding in E. by run E.
Qed.

Lemma consume_Ok id p sc hex s n s' :
  _consume_invitation id p sc hex s = (Ok n, s') ->
  exists r, policies s !! sc = Some r /\ n = r + 1
    /\ s' = recorded sc r (mkAudit hex sc p "invitation.accepted" (Some p)
                             (PDict [("invitation_id", PStr id)]))
              (with_invitations (map (fun i =>
                 if pending_with_id id i then accept_row p i else i)) s).
Proof.
  intros E. unfold _consume_invitation in E. run E.
  destruct (existsb _ _); [|by inv E]. cbn [negb] in E. run E.
  match goal with R : insert_audit _ _ = _ |- _ => unfold insert_audit in R; run R end.
  simpl in E. destruct (policies _ !! sc) as [r|] eqn:Hr; [|by inv E]. run E. inv E.
  exists r. done.
Qed.

Lemma consistent_consumed id p s :
  consistent s ->
  consistent (with_invitations (map (fun i => if pending_with_id id i then accept_row p i else i)) s).
Proof.
  intros Hs. apply consistent_invitations; [done| |].
  - rewrite map_map. erewrite map_ext; [apply (one_token s Hs)|]. intros i. simpl. by case_match.
  - intros i Hi. apply list_elem_of_In, in_map_iff in Hi as (i0 & <- & Hi0).
    apply list_elem_of_In in Hi0. destruct (invitation_ok s Hs i0 Hi0). by case_match.
Qed.

Lemma principal_of_bound s identity :
  consistent s ->
  principal_of identity s = bi_principal_id <$> List.find (bound_to identity) (bindings s).
Proof.
  intros Hs. unfold principal_of. f_equal. apply find_ext_in. intros b Hb.
  destruct (binding_ok s Hs b Hb) as [[row Hp] _]. unfold active_principal. rewrite Hp.
  rewrite bool_decide_true, andb_true_r by (by eapply (principal_ok s Hs)). done.
Qed.

Lemma accept_invitation_Ok token identity e now u s r s' :
  consistent s -> accept_invitation token identity e now u s = (Ok r, s') ->
  exists i s1 b s2 rev,
    List.find (carries token) (invitations s) = Some i /\ in_status i = "pending"
    /\ now < in_expires_at i /\ lower (in_email i) = lower e
    /\ let p := ac_principal_id r in
       (principal_of identity s = Some p /\ s1 = s
        \/ List.find (bound_to identity) (bindings s) = None /\ principals s !! p = None
           /\ s1 = with_bindings (fun l => l ++ [mkBinding (uu_binding u) p identity (Some e) "active"])
                     (with_principals (<[p := mkPrincipal "human" (Some e) "active"]>) s))
       /\ consistent s1
       /\ insert_grant (new_grant (uu_grant u) p (in_scope i) (in_role_key i) p) DoUpdate s1 = (Ok b, s2)
       /\ policies s2 !! in_scope i = Some rev
       /\ r = mkAccepted p (in_scope i) (in_role_key i) (rev + 1)
       /\ s' = recorded (in_scope i) rev
                 (mkAudit (uu_audit u) (in_scope i) p "invitation.accepted" (Some p)
                    (PDict [("invitation_id", PStr (in_id i))]))
                 (with_invitations (map (fun i' =>
                    if pending_with_id (in_id i) i' then accept_row p i' else i')) s2)
       /\ consistent s'.
Proof.
  intros Hs E. apply transaction_Ok in E. run E.
  match goal with R : lift_res _ _ = _ |- _ => injection R as R <- end.
  match goal with R : _validate_invitation _ _ _ = Ok ?i |- _ =>
    apply validate_Ok in R as (Hf & Hst & Hexp & Hmail); rename i into iv end.
  cbv zeta in E. run E.
  injection E as <- <-. cbn [ac_principal_id].
  match goal with R : insert_grant ?g _ ?s1 = (Ok ?b, ?s2), C : _consume_invitation _ ?p _ _ _ = _ |- _ =>
    assert (consistent s1 /\ (principal_of identity s = Some p /\ s1 = s
        \/ List.find (bound_to identity) (bindings s) = None /\ principals s !! p = None
           /\ s1 = with_bindings (fun l => l ++ [mkBinding (uu_binding u) p identity (Some e) "active"])
                     (with_principals (<[p := mkPrincipal "human" (Some e) "active"]>) s))) as [Hs1 Hp];
    [|pose proof (keeps_insert_grant g DoUpdate eq_refl _ _ _ Hs1 R) as Hs2;
      apply consume_Ok in C as (rev & Hrev & -> & ->);
      exists iv, s1, b, s2, rev; split_and!; try done;
      apply consistent_recorded; [by apply consistent_consumed|done|done]] end.
  rewrite principal_of_bound by done.
  destruct (List.find (bound_to identity) (bindings s)) as [b|].
  - match goal with R : _ = (Ok ?u0, ?s0) |- consistent ?s0 /\ _ => injection R as _ <- end.
    split; [done|by left].
  - match goal with R : _insert_principal_binding _ _ _ _ _ = _ |- _ =>
      apply bind_principal_Ok in R as (? & ? & ->); [|done] end. split; [done|by right].
Qed.

(** * Runs *)

Section runs.
Context `{Database}.

(** One transaction of the repository. *)
Inductive action : Type :=
| ACreate (id : string) (sc : scope) (email role token : string) (expires : Z) (actor : string)
    (n : Z) (hex : string)
| AAccept (token : string) (identity : identity_key) (email : string) (now : Z) (u : uuids)
| AChange (p : string) (sc : scope) (role actor : string) (n now : Z) (gid aid : string)
| ARevoke (p : string) (sc : scope) (actor : string) (n now : Z) (aid : string)
| AEnsureOwner (user : string)
| ABackfill (actor : string)
| AImport (p binding_id grant_id : string) (identity : identity_key) (email : option string)
    (sc : scope) (role actor : string).

Definition run_action (a : action) : stres acl unit :=
  match a with
  | ACreate id sc email role token expires actor n hex =>
      _ ← create_invitation id sc email role token expires actor n hex; mret tt
  | AAccept token identity email now u => _ ← accept_invitation token identity email now u; mret tt
  | AChange p sc role actor n now gid aid =>
      _ ← upsert_grant p sc role actor n now gid aid; mret tt
  | ARevoke p sc actor n now aid => _ ← revoke_grant p sc actor n now aid; mret tt
  | AEnsureOwner user => _ ← ensure_local_recovery_owner user; mret tt
  | ABackfill actor => _ ← backfill_workspace_owners actor; mret tt
  | AImport p b g identity email sc role actor =>
      _ ← import_verified_grant p b g identity email sc role actor; mret tt
  end.

Definition step (allowed : acl -> action -> Prop) (s s' : acl) : Prop :=
  exists a, allowed s a /\ s' = (run_action a s).2.

Definition anything (_ : acl) (_ : action) : Prop := True.

(** Empty tables over any workspaces. *)
Definition initial (s : acl) : Prop := exists ws, s = mkAcl ∅ [] ∅ [] [] [] ws.
Definition reachable (s : acl) : Prop := exists s0, initial s0 /\ rtc (step anything) s0 s.

Lemma tt_bind {A} (c : stres acl A) s r s' :
  (_ ← transaction c; mret tt) s = (r, s') -> s' = s \/ r = Ok tt.
Proof.
  unfold mbind, stres_bind, transaction. destruct (c s) as [[a|e] s1]; intros [= <- <-]; auto.
Qed.

(** An action that does not return leaves the tables alone. *)
Lemma run_action_Ok a s r s' : run_action a s = (r, s') -> s' = s \/ r = Ok tt.
Proof. destruct a; apply tt_bind. Qed.

Lemma keeps_local_principal user : keeps consistent (upsert_local_principal user).
Proof. by apply keeps_upsert_principal. Qed.
Lemma keeps_local_binding user : keeps consistent (upsert_local_binding user).
Proof. by apply keeps_upsert_binding. Qed.

#[local] Hint Resolve keeps_local_principal keeps_local_binding keeps_ensure_policy : py.

Lemma keeps_run_action a : keeps consistent (run_action a).
Proof.
  destruct a; simpl; apply keeps_bind; try (intros ?; apply keeps_ret).
  - intros s r s' Hs E. apply create_invitation_Ok in E as (? & ? & _ & _ & _ & _ & _ & ?); done.
  - intros s r s' Hs E.
    apply accept_invitation_Ok in E as (? & ? & ? & ? & ? & _ & _ & _ & _ & E); [|done].
    cbv zeta in E. tauto.
  - intros s r s' Hs E. apply upsert_grant_Ok in E as (? & ? & ? & ? & _ & _ & _ & _ & _ & ?); done.
  - intros s r s' Hs E. apply revoke_grant_Ok in E as (? & ? & _ & _ & _ & _ & _ & ?); done.
  - unfold ensure_local_recovery_owner. keep. by apply keeps_insert_grant.
  - unfold backfill_workspace_owners. keep. by apply keeps_insert_grant.
  - unfold import_verified_grant.
    keep; [by apply keeps_upsert_principal|by apply keeps_upsert_binding|by apply keeps_insert_grant].
Qed.

Lemma step_consistent allowed s s' : consistent s -> step allowed s s' -> consistent s'.
Proof.
  intros Hs (a & _ & ->). destruct (run_action a s) as [r s1] eqn:E.
  destruct (run_action_Ok _ _ _ _ E) as [-> | ->]; [done|].
  by eapply keeps_run_action.
Qed.

Lemma run_consistent allowed s s' : consistent s -> rtc (step allowed) s s' -> consistent s'.
Proof. intros Hs Hrun. induction Hrun; eauto using step_consistent. Qed.

Lemma reachable_consistent s : reachable s -> consistent s.
Proof.
  intros (s0 & (ws & ->) & Hrun). eapply run_consistent; [|exact Hrun].
  constructor; simpl; try (by constructor); try (by intros ? ?%elem_of_nil);
    intros ? ? Hl; by rewrite lookup_empty in Hl.
Qed.

(** C10: However the operations are called, the tables stay consistent: a
    principal holds at most one active role per scope, which belongs to the
    scope and never expires, an identity is bound once, and the revision of a
    scope is one more than its audit events. *)
Theorem access_tables_consistent s :
  reachable s ->
  (forall g g', g ∈ grants s -> g' ∈ grants s -> gr_active g = true -> gr_active g' = true ->
     gr_principal_id g = gr_principal_id g' -> gr_scope g = gr_scope g' -> g = g')
  /\ (forall g, g ∈ grants s -> is_Some (principals s !! gr_principal_id g)
        /\ role_in_scope (gr_role_key g) (gr_scope g).1 = true /\ gr_expires_at g = None)
  /\ (forall b b', b ∈ bindings s -> b' ∈ bindings s -> bi_identity b = bi_identity b' -> b = b')
  /\ (forall sc r, policies s !! sc = Some r ->
        r = 1 + Z.of_nat (length (audits_of sc (audits s)))).
Proof.
  intros Hs%reachable_consistent. split_and!.
  - intros g g' Hg Hg' Ha Ha' Hp Hsc.
    apply (active_unique s (gr_principal_id g) (gr_scope g) g g' Hs Hg Hg'); unfold active_for;
      rewrite ?Ha, ?Ha', !bool_decide_true; done.
  - intros g Hg. by destruct (grant_ok s Hs g Hg) as (? & ? & ? & ?).
  - intros b b' Hb Hb'. apply (nodup_map_inj bi_identity (bindings s)); [apply (one_binding s Hs)|done|done].
  - apply (revision_counts s Hs).
Qed.

(** What the imports and the bootstrap may do to a property of the tables. *)
Record robust (P : acl -> Prop) : Prop := {
  robust_principals : forall f s, P s -> P (with_principals f s);
  robust_bindings : forall f s, P s -> P (with_bindings f s);
  robust_policy : forall sc s, P s -> policies s !! sc = None -> P (with_policies (<[sc := 1]>) s);
  robust_grant : forall g s, P s -> P (with_grants (fun l => l ++ [g]) s);
  robust_super : forall p s, P s -> P (with_grants (map (fun g =>
    if active_for p local_core g then set_role "local_core_super_admin" g else g)) s);
}.

Definition identity_action (a : action) : bool :=
  match a with AEnsureOwner _ | ABackfill _ | AImport _ _ _ _ _ _ _ _ => true | _ => false end.

Lemma robust_leaves P :
  robust P ->
  (forall id p f, keeps P (upsert_principal id p f))
  /\ (forall b f, keeps P (upsert_binding b f)) /\ (forall sc, keeps P (ensure_policy sc))
  /\ (forall g, keeps P (insert_grant g DoNothing))
  /\ (forall id p by_, keeps P (insert_grant (new_grant id p local_core "local_core_super_admin" by_)
                                  DoUpdate)).
Proof.
  intros HP. split_and!.
  - intros id p f s a s' Hs [= _ <-]. by apply (robust_principals P HP).
  - intros b f s a s' Hs E. unfold upsert_binding in E. run E. destruct (existsb _ _).
    + run E. by apply (robust_bindings P HP).
    + unfold add_binding in E. run E. by apply (robust_bindings P HP).
  - intros sc s a s' Hs E. unfold ensure_policy in E. run E. unfold has_policy in E.
    case_bool_decide as Hp; injection E as _ <-; [done|].
    apply (robust_policy P HP); [done|by apply eq_None_not_Some].
  - intros g s b s' Hs E. apply insert_grant_Ok in E as [_ [(_ & _ & ->)|(_ & _ & ->)]]; [done|].
    by apply (robust_grant P HP).
  - intros id p by_ s b s' Hs E.
    apply insert_grant_Ok in E as [_ [(_ & _ & ->)|(_ & _ & ->)]].
    + by apply (robust_super P HP).
    + by apply (robust_grant P HP).
Qed.

Lemma keeps_identity P a : robust P -> identity_action a = true -> keeps P (run_action a).
Proof.
  intros HP Ha. destruct (robust_leaves P HP) as (? & ? & ? & ? & ?).
  destruct a; try done; simpl; apply keeps_bind; try (intros ?; apply keeps_ret).
  - unfold ensure_local_recovery_owner, upsert_local_principal, upsert_local_binding. by keep.
  - unfold backfill_workspace_owners. keep; unfold upsert_local_principal, upsert_local_binding; auto.
  - unfold import_verified_grant. by keep.
Qed.

(** * Stale edits *)

Definition revision (sc : scope) (s : acl) : Z := default 0 (policies s !! sc).

(** The action edits the scope from revision [n]. *)
Definition edits (sc : scope) (n : Z) (a : action) : Prop :=
  match a with
  | ACreate _ sc' _ _ _ _ _ n' _ | AChange _ sc' _ _ n' _ _ _ | ARevoke _ sc' _ n' _ _ =>
      sc' = sc /\ n' = n
  | _ => False
  end.

Lemma opened_revision sc n s r s1 sc' :
  consistent s -> opened sc n s r s1 -> revision sc' s <= revision sc' s1 /\ 0 <= n /\ revision sc s1 = r.
Proof.
  intros Hs (Hs1 & Hr & Hn & Hcase). unfold revision. rewrite Hr. split_and!; [| |done].
  - destruct Hcase as [[-> _]|(-> & Hnone & _)]; [lia|]. simpl.
    destruct (decide (sc = sc')) as [<-|]; [rewrite Hnone, lookup_insert_eq; simpl; lia|].
    by rewrite lookup_insert_ne.
  - pose proof (revision_counts s1 Hs1 _ _ Hr).
    destruct Hcase as [[_ ->]|(_ & _ & -> & _)]; lia.
Qed.

Lemma recorded_revision sc r a s sc' :
  revision sc s = r ->
  revision sc' s <= revision sc' (recorded sc r a s) /\ revision sc (recorded sc r a s) = r + 1.
Proof.
  intros Hr. unfold revision in *. simpl. rewrite lookup_insert_eq. split; [|done].
  destruct (decide (sc = sc')) as [<-|]; [rewrite lookup_insert_eq; simpl; lia|].
  by rewrite lookup_insert_ne.
Qed.

(** Revisions grow, and an edit exceeds the revision it started from. *)
Lemma action_revision a s s' sc :
  consistent s -> run_action a s = (Ok tt, s') ->
  revision sc s <= revision sc s'
  /\ (forall n, edits sc n a -> 0 <= n < revision sc s').
Proof.
  intros Hs E. destruct (identity_action a) eqn:Hid.
  { split; [|by destruct a].
    eapply (keeps_identity (fun s1 => revision sc s <= revision sc s1)); [|done| |exact E]; [|lia].
    constructor; try done. intros sc' s1. unfold revision. simpl.
    destruct (decide (sc' = sc)) as [->|]; [|by rewrite lookup_insert_ne].
    intros Hle Hnone. rewrite Hnone in Hle. rewrite lookup_insert_eq. simpl in *. lia. }
  assert (forall sc0 n r s1 s2 au, opened sc0 n s r s1 -> policies s2 = policies s1 ->
    s' = recorded sc0 r au s2 ->
    revision sc s <= revision sc s' /\ (sc0 = sc -> 0 <= n < revision sc s')) as Hedit.
  { intros sc0 n r s1 s2 au Ho Hp ->.
    destruct (opened_revision sc0 n s r s1 sc Hs Ho) as (H1 & H2 & H3).
    assert (forall x, revision x s2 = revision x s1) as Hx by (intros; unfold revision; by rewrite Hp).
    destruct (recorded_revision sc0 r au s2 sc) as [H4 H5]; [by rewrite Hx|].
    rewrite Hx in H4. destruct Ho as (_ & _ & Hn & _). split; [lia|]. intros ->. lia. }
  destruct a; try done; simpl in E; apply st_bind_Ok_inv in E as (r0 & s0 & E & [= <-]).
  - apply create_invitation_Ok in E as (r & s1 & Ho & _ & _ & _ & Hs' & _); [|done].
    destruct (Hedit _ _ _ _ (with_invitations _ s1) _ Ho eq_refl Hs') as [H1 H2]. split; [done|]. intros n' [-> <-]. auto.
  - apply accept_invitation_Ok in E as (i & s1 & b & s2 & rev & _ & _ & _ & _ & E); [|done].
    cbv zeta in E. destruct E as (Hs1 & _ & Hins & Hrev & _ & Hs' & _). split; [|done].
    apply insert_grant_Ok in Hins as [_ Hins]. rewrite Hs'.
    assert (policies s2 = policies s) as Hp.
    { destruct Hins as [(_ & _ & ->)|(_ & _ & ->)]; by destruct Hs1 as [[_ ->]|(_ & _ & ->)]. }
    match goal with |- context [recorded _ _ _ ?s3] =>
      assert (revision sc s3 = revision sc s) as <- by (unfold revision; simpl; by rewrite Hp) end.
    eapply proj1, recorded_revision. unfold revision. simpl. by rewrite Hrev.
  - apply upsert_grant_Ok in E as (r & s1 & s2 & b & Ho & _ & Hins & _ & Hs' & _); [|done].
    apply insert_grant_Ok in Hins as [_ Hins].
    assert (policies s2 = policies s1) as Hp by (by destruct Hins as [(_ & _ & ->)|(_ & _ & ->)]).
    destruct (Hedit _ _ _ _ _ _ Ho Hp Hs') as [H1 H2]. split; [done|]. intros n' [-> <-]. auto.
  - apply revoke_grant_Ok in E as (r & s1 & Ho & _ & _ & _ & Hs' & _); [|done].
    destruct (Hedit _ _ _ _ (with_grants _ s1) _ Ho eq_refl Hs') as [H1 H2]. split; [done|]. intros n' [-> <-]. auto.
Qed.

Lemma run_revision allowed sc s s' :
  consistent s -> rtc (step allowed) s s' -> revision sc s <= revision sc s'.
Proof.
  intros Hs Hrun. induction Hrun as [|s s1 s2 Hst Hrun IH]; [lia|].
  pose proof (step_consistent _ _ _ Hs Hst) as Hs1. specialize (IH Hs1).
  destruct Hst as (a & _ & ->). destruct (run_action a s) as [r s1] eqn:E.
  destruct (run_action_Ok _ _ _ _ E) as [-> | ->]; [done|].
  pose proof (proj1 (action_revision _ _ _ sc Hs E)). simpl in *. lia.
Qed.

Lemma lock_stale sc n s : 0 <= n < revision sc s ->
  _lock_scope sc n s = (Raise AccessRevisionConflictError, s).
Proof.
  unfold revision, _lock_scope. intros Hn. rewrite (st_bind_eq (gets_st _) _ _ _ s eq_refl).
  destruct (policies s !! sc) as [r|]; simpl in Hn; [|lia].
  destruct (Z.eqb_spec r n); [lia|done].
Qed.

(** An edit from a stale revision is refused: once an edit of a scope from
    revision [n] has succeeded, no edit of it from revision [n] succeeds again,
    whatever happens in between; it raises the conflict and changes nothing. *)
Theorem stale_edit_refused s a s1 s2 b sc n :
  reachable s -> edits sc n a -> run_action a s = (Ok tt, s1) ->
  rtc (step anything) s1 s2 -> edits sc n b ->
  run_action b s2 = (Raise AccessRevisionConflictError, s2).
Proof.
  intros Hs%reachable_consistent Ha E Hrun Hb.
  pose proof (proj2 (action_revision _ _ _ sc Hs E) n Ha) as Hn.
  pose proof (run_revision _ sc _ _ (keeps_run_action a _ _ _ Hs E) Hrun) as Hmono.
  assert (_lock_scope sc n s2 = (Raise AccessRevisionConflictError, s2)) as Hl
    by (apply lock_stale; lia).
  destruct b; try done; destruct Hb as [-> ->]; simpl;
    unfold create_invitation, upsert_grant, revoke_grant, transaction, mbind, stres_bind;
    by rewrite Hl.
Qed.

(** * Invitations *)

Definition settled (token : string) (s : acl) : Prop :=
  exists i, i ∈ invitations s /\ in_token_hash i = token /\ in_status i ≠ "pending".

(** The token and the settled status of an invitation are for ever. *)
Lemma action_settled a token s s' :
  consistent s -> run_action a s = (Ok tt, s') -> settled token s -> settled token s'.
Proof.
  intros Hs E Hset. destruct (identity_action a) eqn:Hid.
  { by eapply (keeps_identity (settled token)). }
  destruct a; try done; simpl in E; apply st_bind_Ok_inv in E as (r0 & s0 & E & [= <-]);
    destruct Hset as (i & Hi & Ht & Hp).
  - apply create_invitation_Ok in E as (r & s1 & (_ & _ & _ & Ho) & _ & _ & _ & -> & _); [|done].
    exists i. split; [|done]. simpl. apply elem_of_app. left.
    by destruct Ho as [[-> _]|(-> & _)].
  - apply accept_invitation_Ok in E as (j & s1 & b & s2 & rev & _ & _ & _ & _ & E); [|done].
    cbv zeta in E. destruct E as (Hs1 & _ & Hins & _ & _ & -> & _).
    apply insert_grant_Ok in Hins as [_ Hins]. exists i. split; [|done]. simpl.
    assert (invitations s2 = invitations s) as ->.
    { destruct Hins as [(_ & _ & ->)|(_ & _ & ->)]; by destruct Hs1 as [[_ ->]|(_ & _ & ->)]. }
    apply list_elem_of_In, in_map_iff. exists i. split; [|by apply list_elem_of_In].
    unfold pending_with_id. by rewrite (bool_decide_false (in_status i = "pending")), andb_false_r.
  - apply upsert_grant_Ok in E as (r & s1 & s2 & b & (_ & _ & _ & Ho) & _ & Hins & _ & -> & _); [|done].
    apply insert_grant_Ok in Hins as [_ Hins]. exists i. split; [|done]. simpl.
    destruct Hins as [(_ & _ & ->)|(_ & _ & ->)]; by destruct Ho as [[-> _]|(-> & _)].
  - apply revoke_grant_Ok in E as (r & s1 & (_ & _ & _ & Ho) & _ & _ & _ & -> & _); [|done].
    exists i. split; [|done]. simpl. by destruct Ho as [[-> _]|(-> & _)].
Qed.

Lemma run_settled token s s' :
  consistent s -> rtc (step anything) s s' -> settled token s -> settled token s'.
Proof.
  intros Hs Hrun. induction Hrun as [|s s1 s2 Hst Hrun IH]; [done|]. intros Hset.
  apply IH; [by eapply step_consistent|]. destruct Hst as (a & _ & ->).
  destruct (run_action a s) as [r s1] eqn:E.
  destruct (run_action_Ok _ _ _ _ E) as [-> | ->]; [done|by eapply action_settled].
Qed.

Lemma settled_refused token identity e now u s :
  consistent s -> settled token s ->
  accept_invitation token identity e now u s = (Raise InvitationInvalidError, s).
Proof.
  intros Hs (i & Hi & Ht & Hp). unfold accept_invitation, transaction.
  rewrite (st_bind_eq (gets_st _) _ _ _ s eq_refl). fold (carries token).
  destruct (List.find (carries token) (invitations s)) as [j|] eqn:Hf.
  - apply List.find_some in Hf as [Hj Hjt]. apply list_elem_of_In in Hj. unfold carries in Hjt.
    bool_prop. assert (j = i) as -> by (apply (nodup_map_inj in_token_hash (invitations s));
      [apply (one_token s Hs)|done|done|congruence]).
    unfold mbind, stres_bind, lift_res, _validate_invitation. by rewrite bool_decide_false.
  - by unfold mbind, stres_bind, lift_res.
Qed.

(** An invitation is used once: after its token has been accepted no
    identity can accept it again, whatever happens in between. *)
Theorem invitation_accepted_once s token identity e now u r s1 s2 identity' e' now' u' :
  reachable s -> accept_invitation token identity e now u s = (Ok r, s1) ->
  rtc (step anything) s1 s2 ->
  accept_invitation token identity' e' now' u' s2 = (Raise InvitationInvalidError, s2).
Proof.
  intros Hs%reachable_consistent E Hrun.
  pose proof (keeps_run_action (AAccept token identity e now u) s tt s1 Hs
    (st_bind_eq _ (fun _ => mret tt) _ _ _ E)) as Hs1.
  apply settled_refused; [by eapply run_consistent|]. eapply run_settled; [done|done|].
  apply accept_invitation_Ok in E as (i & s0 & b & s3 & rev & Hf & Hp & _ & _ & E); [|done].
  cbv zeta in E. destruct E as (Hs0 & _ & Hins & _ & _ & -> & _).
  apply List.find_some in Hf as [Hi Ht]. unfold carries in Ht. bool_prop.
  apply insert_grant_Ok in Hins as [_ Hins]. exists (accept_row (ac_principal_id r) i).
  split; [|done]. simpl. assert (invitations s3 = invitations s) as ->.
  { destruct Hins as [(_ & _ & ->)|(_ & _ & ->)]; by destruct Hs0 as [[_ ->]|(_ & _ & ->)]. }
  apply list_elem_of_In, in_map_iff. exists i. split; [|done].
  unfold pending_with_id. by rewrite !bool_decide_true.
Qed.

(** * Owners and administrators *)

Definition staffed (sc : scope) (role : string) (s : acl) : Prop :=
  exists g, g ∈ grants s /\ gr_active g = true /\ gr_scope g = sc /\ gr_role_key g = role.

Definition owned (w : string) : acl -> Prop := staffed (workspace w) "workspace_owner".
Definition administered : acl -> Prop := staffed local_core "local_core_super_admin".

(** A scope and the role that must not die out in it. *)
Definition leads (sc : scope) (role : string) : Prop :=
  sc = local_core /\ role = "local_core_super_admin"
  \/ exists w, sc = workspace w /\ role = "workspace_owner".

(** The acceptance by an owner of an invitation to a lesser role. *)
Definition demotes (s : acl) (a : action) : Prop :=
  match a with
  | AAccept token identity _ _ _ =>
      exists i p g, i ∈ invitations s /\ in_token_hash i = token
        /\ principal_of identity s = Some p /\ g ∈ grants s /\ active_for p (in_scope i) g = true
        /\ gr_role_key g = "workspace_owner" /\ in_role_key i ≠ "workspace_owner"
  | _ => False
  end.

Lemma another_staffs now sc role p s :
  1 <= another_holds now sc role p s ->
  exists g, g ∈ grants s /\ gr_active g = true /\ gr_scope g = sc /\ gr_role_key g = role
            /\ gr_principal_id g ≠ p.
Proof.
  unfold another_holds. destruct (List.filter _ (grants s)) as [|g l] eqn:E; [simpl; lia|].
  intros _. assert (In g (g :: l)) as Hin by (by left). rewrite <- E in Hin.
  apply filter_In in Hin as [Hin Hg]. unfold effective in Hg. bool_prop. exists g.
  split; [by apply list_elem_of_In|done].
Qed.

Lemma staffed_map f p sc0 sc role s :
  (forall g, active_for p sc0 g = false -> f g = g) ->
  (forall g, g ∈ grants s -> active_for p sc0 g = true -> gr_scope g = sc -> gr_role_key g = role ->
     staffed sc role (with_grants (map f) s)) ->
  staffed sc role s -> staffed sc role (with_grants (map f) s).
Proof.
  intros Hf Haff (g & Hg & Ha & Hsc & Hr). destruct (active_for p sc0 g) eqn:E; [by eapply Haff|].
  exists g. split; [|done]. simpl. apply list_elem_of_In, in_map_iff. exists g.
  split; [by apply Hf|by apply list_elem_of_In].
Qed.

(** Another holder of the role is not touched by a change of [p]'s rows. *)
Lemma staffed_by_another f p sc0 sc role s g :
  (forall g, active_for p sc0 g = false -> f g = g) ->
  g ∈ grants s -> gr_active g = true -> gr_scope g = sc -> gr_role_key g = role ->
  gr_principal_id g ≠ p -> staffed sc role (with_grants (map f) s).
Proof.
  intros Hf Hg Ha Hsc Hr Hp. exists g. split; [|done]. simpl.
  apply list_elem_of_In, in_map_iff. exists g. split; [|by apply list_elem_of_In].
  apply Hf. unfold active_for. by rewrite (bool_decide_false (gr_principal_id g = p)), andb_false_r.
Qed.

Lemma role_scope_local role : role_in_scope role "local_core" = true -> role = "local_core_super_admin".
Proof. unfold role_in_scope. rewrite bool_decide_true by done. intros H0. by bool_prop. Qed.

(** The grant of an edit or an acceptance keeps a scope led, unless it demotes
    the owner it is for. *)
Lemma insert_grant_staffed g b sc role s s' :
  insert_grant g DoUpdate s = (Ok b, s') -> gr_active g = true ->
  leads sc role ->
  (forall g', g' ∈ grants s -> active_for (gr_principal_id g) sc g' = true ->
     gr_scope g = sc -> gr_role_key g' = role -> sc ≠ local_core -> gr_role_key g ≠ role ->
     exists g2, g2 ∈ grants s /\ gr_active g2 = true /\ gr_scope g2 = sc /\ gr_role_key g2 = role
                /\ gr_principal_id g2 ≠ gr_principal_id g) ->
  staffed sc role s -> staffed sc role s'.
Proof.
  intros E Ha Hlead Hguard Hs. apply insert_grant_Ok in E as [Hrs [(_ & _ & ->)|(_ & _ & ->)]].
  2:{ destruct Hs as (g0 & Hg0 & ?). exists g0. split; [|done]. apply elem_of_app. by left. }
  set (f := fun g' => _). assert (forall g0, active_for (gr_principal_id g) (gr_scope g) g0 = false ->
    f g0 = g0) as Hf by (intros g0 E0; subst f; simpl; by rewrite E0).
  eapply (staffed_map f (gr_principal_id g) (gr_scope g)); [done| |done].
  intros g0 Hg0 Ha0 Hsc0 Hr0. assert (gr_scope g = sc) as Hgsc
    by (unfold active_for in Ha0; bool_prop; congruence).
  destruct (decide (gr_role_key g = role)) as [Hgr|Hgr].
  - exists (f g0). split; [apply list_elem_of_In, in_map, list_elem_of_In, Hg0|].
    subst f. simpl. rewrite Ha0. unfold active_for in Ha0. bool_prop. done.
  - assert (sc ≠ local_core) as Hsc.
    { destruct Hlead as [[-> ->]|(w & -> & _)]; [|done]. rewrite Hgsc in Hrs.
      by apply role_scope_local in Hrs. }
    rewrite Hgsc in Ha0.
    destruct (Hguard g0 Hg0 Ha0 Hgsc Hr0 Hsc Hgr) as (g2 & Hg2 & Ha2 & Hs2 & Hr2 & Hp2).
    by eapply (staffed_by_another f (gr_principal_id g) (gr_scope g)).
Qed.

Lemma staffed_recorded sc role sc0 r a s : staffed sc role s -> staffed sc role (recorded sc0 r a s).
Proof. done. Qed.

Lemma opened_grants sc n s r s1 : opened sc n s r s1 -> grants s1 = grants s.
Proof. intros (_ & _ & _ & [[-> _]|(-> & _)]); done. Qed.

Lemma robust_staffed sc role : leads sc role -> robust (staffed sc role).
Proof.
  intros Hlead. constructor; try done.
  - intros g s (g0 & Hg0 & ?). exists g0. split; [|done]. apply elem_of_app. by left.
  - intros p s Hs. apply (staffed_map _ p local_core); [| |done].
    + intros g ->. done.
    + intros g Hg Ha Hsc Hr. destruct Hlead as [[-> ->]|(w & -> & _)].
      * exists (set_role "local_core_super_admin" g). split; [|].
        -- simpl. apply list_elem_of_In, in_map_iff. exists g. rewrite Ha.
           split; [done|by apply list_elem_of_In].
        -- unfold active_for in Ha. by bool_prop.
      * unfold active_for, local_core, workspace in *. bool_prop. congruence.
Qed.

Lemma action_staffed a sc role s s' :
  consistent s -> run_action a s = (Ok tt, s') -> leads sc role ->
  (sc ≠ local_core -> ~ demotes s a) -> staffed sc role s -> staffed sc role s'.
Proof.
  intros Hs E Hlead Hdem Hst. destruct (identity_action a) eqn:Hid.
  { eapply (keeps_identity (staffed sc role)); [by apply robust_staffed|done|done|done]. }
  destruct a; try done; simpl in E; apply st_bind_Ok_inv in E as (r0 & s0 & E & [= <-]).
  - apply create_invitation_Ok in E as (r & s1 & Ho & _ & _ & _ & -> & _); [|done].
    apply opened_grants in Ho. destruct Hst as (g & Hg & ?). exists g. split; [|done]. simpl.
    by rewrite Ho.
  - apply accept_invitation_Ok in E as (i & s1 & b & s2 & rev & Hf & _ & _ & _ & E); [|done].
    cbv zeta in E. destruct E as (Hs1 & _ & Hins & _ & _ & -> & _).
    assert (staffed sc role s2) as (g & Hg & ?); [|by exists g].
    eapply insert_grant_staffed; [exact Hins|done|done| |by destruct Hs1 as [[_ ->]|(_ & _ & ->)]].
    simpl. intros g' Hg' Ha' Hi Hr' Hsc Hne. exfalso. apply (Hdem Hsc).
    destruct Hs1 as [[Hp ->]|(_ & Hnone & ->)].
    + apply List.find_some in Hf as [Hf Ht]. apply list_elem_of_In in Hf.
      unfold carries in Ht. bool_prop. destruct Hlead as [[-> _]|(w & -> & ->)]; [done|].
      exists i, (ac_principal_id r0), g'. rewrite Hi. split_and!; done.
    + simpl in Hg'. destruct (grant_ok s Hs g' Hg') as ([row Hrow] & _).
      unfold active_for in Ha'. bool_prop. congruence.
  - apply upsert_grant_Ok in E as (r & s1 & s2 & b & Ho & _ & Hins & Hguard & -> & _); [|done].
    apply opened_grants in Ho as Hg1.
    assert (staffed sc role s2) as (g & Hg & ?); [|by exists g].
    eapply insert_grant_staffed; [exact Hins|done|done| |].
    2:{ destruct Hst as (g & Hg & ?). exists g. by rewrite Hg1. }
    simpl. intros g' Hg' Ha' -> Hr' Hsc Hne.
    destruct Hlead as [[? _]|(w & -> & ->)]; [done|].
    assert (1 <= another_holds now (workspace w) "workspace_owner" p s1) as Hcount.
    { apply (Hguard g' Hg' Ha'). by repeat case_bool_decide. }
    by apply another_staffs in Hcount.
  - apply revoke_grant_Ok in E as (r & s1 & Ho & _ & Hguard & Hguard2 & -> & _); [|done].
    apply opened_grants in Ho as Hg1.
    assert (staffed sc role s1) as Hst1 by (destruct Hst as (g & Hg & ?); exists g; by rewrite Hg1).
    apply staffed_recorded, (staffed_map _ p sc0); [by intros g -> | |done].
    intros g Hg Ha Hsc Hr. assert (sc0 = sc) as -> by (unfold active_for in Ha; bool_prop; congruence).
    assert (exists g2, g2 ∈ grants s1 /\ gr_active g2 = true /\ gr_scope g2 = sc
              /\ gr_role_key g2 = role /\ gr_principal_id g2 ≠ p) as (g2 & ? & ? & ? & ? & ?).
    { destruct Hlead as [[-> ->]|(w & -> & ->)]; eapply another_staffs;
        [eapply (Hguard2 g)|eapply (Hguard g)]; try done; by apply bool_decide_true. }
    eapply (staffed_by_another _ p sc); [|done..]. by intros g0 ->.
Qed.

Lemma run_staffed (allowed : acl -> action -> Prop) sc role s s' :
  consistent s -> leads sc role ->
  (forall s a, allowed s a -> sc ≠ local_core -> ~ demotes s a) ->
  rtc (step allowed) s s' -> staffed sc role s -> staffed sc role s'.
Proof.
  intros Hs Hlead Hall Hrun. induction Hrun as [|s s1 s2 Hst Hrun IH]; [done|]. intros Hstaff.
  apply IH; [by eapply step_consistent|]. destruct Hst as (a & Ha & ->).
  destruct (run_action a s) as [r s1] eqn:E.
  destruct (run_action_Ok _ _ _ _ E) as [-> | ->]; [done|].
  eapply action_staffed; [exact Hs|exact E|exact Hlead|by apply Hall|exact Hstaff].
Qed.

(** C9: No run of the operations takes the last administrator from the local
    core, and none takes the last owner from a workspace, unless an owner
    accepts an invitation to a lesser role. *)
Theorem leaders_never_lost s s' w :
  reachable s ->
  (administered s -> rtc (step anything) s s' -> administered s')
  /\ (owned w s -> rtc (step (fun s a => ~ demotes s a)) s s' -> owned w s').
Proof.
  intros Hs%reachable_consistent. split; intros Hst Hrun.
  - eapply run_staffed; [exact Hs|by left| |exact Hrun|exact Hst]. by intros.
  - eapply run_staffed; [exact Hs|right; by exists w| |exact Hrun|exact Hst]. by intros.
Qed.

(** * What the readers answer *)

Lemma role_known role sc :
  role_in_scope role sc = true ->
  exists p, permissions_for_role role = Ok p /\ WORKSPACE_READ ∈ p.
Proof.
  unfold role_in_scope. intros Hr.
  assert (role ∈ dkeys ROLE_PERMISSIONS) as Hin.
  { case_bool_decide; bool_prop; [subst; by left|].
    match goal with R : role ∈ _ |- _ => by right end. }
  simpl in Hin. repeat (apply elem_of_cons in Hin as [->|Hin];
    [eexists; split; [reflexivity|apply (bool_decide_unpack _); by vm_compute]|]).
  by apply elem_of_nil in Hin.
Qed.

Definition confers (x role : string) : Prop :=
  exists p, permissions_for_role role = Ok p /\ x ∈ p.

Lemma union_permissions_spec roles :
  (forall r, r ∈ roles -> exists p, permissions_for_role r = Ok p) ->
  exists P, union_permissions roles = Ok P
    /\ forall x, x ∈ P <-> exists r, r ∈ roles /\ confers x r.
Proof.
  induction roles as [|r l IH]; intros Hall.
  - exists ∅. split; [done|]. intros x. split; [by intros ?%elem_of_empty|].
    by intros (r & Hr%elem_of_nil & _).
  - destruct (Hall r) as [p Hp]; [by left|]. destruct IH as (P & HP & Hx);
      [intros r' Hr'; apply Hall; by right|].
    exists (p ∪ P). split; [simpl; by rewrite Hp, HP|]. intros x.
    rewrite elem_of_union, Hx. split.
    + intros [Hin|(r' & ? & ?)]; [exists r; split; [by left|by exists p]|].
      exists r'. split; [by right|done].
    + intros (r' & [->|Hr']%elem_of_cons & Hc); [left|right; eauto].
      destruct Hc as (p' & Hp' & Hin). rewrite Hp in Hp'. by injection Hp' as <-.
Qed.

(** An active grant of the identity's principal, within reach. *)
Definition granted (s : acl) (identity : identity_key) (w : option string) (g : grant_row) : Prop :=
  g ∈ grants s /\ principal_of identity s = Some (gr_principal_id g) /\ gr_active g = true
  /\ in_reach w (gr_scope g) = true.

Lemma effective_active s now g :
  consistent s -> g ∈ grants s -> effective now g = gr_active g.
Proof.
  intros Hs Hg. destruct (grant_ok s Hs g Hg) as (_ & _ & _ & Hx). unfold effective.
  by rewrite Hx, andb_true_r.
Qed.

Lemma effective_roles_spec s now w p r :
  consistent s ->
  r ∈ effective_roles now w p s <-> exists g, g ∈ grants s /\ gr_principal_id g = p
    /\ gr_active g = true /\ in_reach w (gr_scope g) = true /\ gr_role_key g = r.
Proof.
  intros Hs. unfold effective_roles. rewrite list_elem_of_In, in_map_iff. split.
  - intros (g & <- & Hg). apply filter_In in Hg as [Hg Hr]. apply list_elem_of_In in Hg.
    unfold reaches in Hr. rewrite (effective_active s) in Hr by done. bool_prop. by exists g.
  - intros (g & Hg & Hp & Ha & Hi & Hr). exists g. split; [done|]. apply filter_In.
    split; [by apply list_elem_of_In|]. unfold reaches.
    by rewrite (effective_active s), bool_decide_true, Ha, Hi by done.
Qed.

Lemma sort_elem {A} (le : A -> A -> bool) l x : x ∈ sort_by le l <-> x ∈ l.
Proof. unfold sort_by. by rewrite (merge_sort_Permutation (fun a b => le a b) l). Qed.

Lemma resolve_spec s identity w now :
  consistent s ->
  exists ctx, resolve_effective_access identity w now s = (Ok ctx, s)
    /\ cx_principal_id ctx = principal_of (key_of identity) s
    /\ (forall r, r ∈ cx_roles ctx <-> exists g, granted s (key_of identity) w g /\ gr_role_key g = r)
    /\ (forall x, x ∈ cx_permissions ctx <->
          exists g, granted s (key_of identity) w g /\ confers x (gr_role_key g)).
Proof.
  intros Hs. unfold resolve_effective_access, repository_resolve.
  rewrite (st_bind_eq (gets_st _) _ _ _ s eq_refl).
  set (roles := match principal_of _ s with Some _ => _ | None => _ end).
  assert (forall r, r ∈ roles <-> exists g, granted s (key_of identity) w g /\ gr_role_key g = r)
    as Hroles.
  { intros r. subst roles. unfold granted. destruct (principal_of _ s) as [p|].
    - rewrite sort_elem, effective_roles_spec by done. split.
      + intros (g & Hg & <- & Ha & Hi & Hr). by exists g.
      + intros (g & (Hg & [= ->] & Ha & Hi) & Hr). by exists g.
    - split; [by intros ?%elem_of_nil|]. by intros (g & (_ & ? & _) & _). }
  destruct (union_permissions_spec roles) as (P & HP & Hx).
  { intros r Hr. apply Hroles in Hr as (g & (Hg & _) & <-).
    destruct (grant_ok s Hs g Hg) as (_ & _ & Hrole & _). apply role_known in Hrole as (p & ? & _).
    by exists p. }
  eexists. unfold mbind, stres_bind, lift_res. rewrite HP. split; [reflexivity|]. simpl.
  split_and!; [done|done|]. intros x. rewrite Hx. split.
  - intros (r & Hr & Hc). apply Hroles in Hr as (g & Hg & <-). by exists g.
  - intros (g & Hg & Hc). exists (gr_role_key g). split; [apply Hroles; by exists g|done].
Qed.

Lemma granted_somewhere s now identity sc :
  consistent s ->
  match principal_of identity s with
  | Some p => existsb (fun g => bool_decide (gr_principal_id g = p) && bool_decide (gr_scope g = sc)
                                && effective now g) (grants s)
  | None => false
  end = true
  <-> exists g, g ∈ grants s /\ principal_of identity s = Some (gr_principal_id g)
        /\ gr_active g = true /\ gr_scope g = sc.
Proof.
  intros Hs. destruct (principal_of identity s) as [p|]; [|split; [done|by intros (? & _ & ? & _)]].
  rewrite existsb_elem. split.
  - intros (g & Hg & E). rewrite (effective_active s) in E by done. bool_prop. exists g. by subst.
  - intros (g & Hg & [= ->] & Ha & Hsc). exists g. split; [done|].
    by rewrite (effective_active s), !bool_decide_true by done.
Qed.

(** The list of workspaces an identity sees and the permission it has in
    each agree, when no more workspaces exist than the listing may return: a
    workspace is listed exactly when the identity may read it. *)
Theorem listing_agrees_with_access s identity now limit row :
  reachable s -> row ∈ workspaces s -> (length (workspaces s) <= limit)%nat ->
  (ws_id row ∈ list_authorized_workspace_ids (key_of identity) now limit s
   <-> exists ctx, resolve_effective_access identity (Some (ws_id row)) now s = (Ok ctx, s)
       /\ allows ctx WORKSPACE_READ = true).
Proof.
  intros Hs%reachable_consistent Hrow Hlim.
  destruct (resolve_spec s identity (Some (ws_id row)) now Hs) as (ctx & E & _ & _ & Hx).
  transitivity (globally_allowed now (key_of identity) s
                || granted_in now (key_of identity) (ws_id row) s = true).
  - unfold list_authorized_workspace_ids. rewrite take_ge.
    2:{ rewrite length_map. unfold sort_by. rewrite (Permutation_length (merge_sort_Permutation _ _)).
        pose proof (filter_length_le (fun w => globally_allowed now (key_of identity) s
          || granted_in now (key_of identity) (ws_id w) s) (workspaces s)). lia. }
    rewrite list_elem_of_In, in_map_iff. split.
    + intros (w & Hw & Hin). apply list_elem_of_In, sort_elem, list_elem_of_In, filter_In in Hin as [_ Hin].
      by rewrite <- Hw.
    + intros Hok. exists row. split; [done|].
      apply list_elem_of_In, sort_elem, list_elem_of_In, filter_In.
      split; [by apply list_elem_of_In|done].
  - rewrite orb_true_iff. unfold globally_allowed, granted_in.
    rewrite !granted_somewhere by done. split.
    + intros Hg. exists ctx. split; [done|]. unfold allows. apply bool_decide_eq_true, Hx.
      assert (exists g, granted s (key_of identity) (Some (ws_id row)) g) as (g & Hgr).
      { unfold granted, in_reach. destruct Hg as [(g & ? & ? & ? & Hsc)|(g & ? & ? & ? & Hsc)];
          exists g; split_and!; try done; rewrite Hsc; [by rewrite bool_decide_true|].
        by rewrite (bool_decide_true (workspace _ = workspace _)), orb_true_r. }
      exists g. split; [done|]. destruct Hgr as (Hg' & _).
      destruct (grant_ok s Hs g Hg') as (_ & _ & Hr & _). by apply role_known in Hr.
    + intros (ctx' & E' & Hall). rewrite E in E'. injection E' as <-. unfold allows in Hall.
      bool_prop. apply Hx in Hall as (g & (Hg & Hp & Ha & Hi) & _). unfold in_reach in Hi.
      apply orb_true_iff in Hi as [Hi|Hi]; bool_prop; [left|right]; by exists g.
Qed.

Lemma seq_res_map {A B} (f : A -> res B) l :
  (forall a, a ∈ l -> exists b, f a = Ok b) ->
  exists bs, seq_res (map f l) = Ok bs /\ forall b, b ∈ bs <-> exists a, a ∈ l /\ f a = Ok b.
Proof.
  induction l as [|a l IH]; intros Hall.
  - exists []. split; [done|]. intros b. split; [by intros ?%elem_of_nil|].
    by intros (a & ?%elem_of_nil & _).
  - destruct (Hall a) as [b Hb]; [by left|]. destruct IH as (bs & Hbs & Hin);
      [intros a' Ha'; apply Hall; by right|].
    exists (b :: bs). split; [simpl; by rewrite Hb, Hbs|]. intros b'.
    rewrite elem_of_cons, Hin. split.
    + intros [->|(a' & ? & ?)]; [exists a; split; [by left|done]|exists a'; split; [by right|done]].
    + intros (a' & [->|Ha']%elem_of_cons & E); [left; congruence|right; eauto].
Qed.


Lemma find_binding s identity :
  consistent s ->
  forall p, principal_of identity s = Some p
    <-> exists b, b ∈ bindings s /\ bi_identity b = identity /\ bi_principal_id b = p.
Proof.
  intros Hs p. rewrite principal_of_bound by done. split.
  - destruct (List.find _ _) as [b|] eqn:Hf; [|done]. intros [= <-].
    apply List.find_some in Hf as [Hb Hm]. unfold bound_to, same_identity in Hm. bool_prop.
    exists b. split; [by apply list_elem_of_In|done].
  - intros (b & Hb & Hid & <-).
    assert (bound_to identity b = true) as Hm.
    { unfold bound_to, same_identity. by rewrite !bool_decide_true by (done || by apply (binding_ok s Hs)). }
    destruct (List.find (bound_to identity) (bindings s)) as [b'|] eqn:Hf.
    + apply List.find_some in Hf as [Hb' Hm']. unfold bound_to, same_identity in Hm'. bool_prop.
      assert (b' = b) as -> by (apply (nodup_map_inj bi_identity (bindings s));
        [apply (one_binding s Hs)|by apply list_elem_of_In|done|congruence]). done.
    + apply list_elem_of_In in Hb. pose proof (List.find_none _ _ Hf b Hb). congruence.
Qed.

(** The grants the projection counts for a binding. *)
Lemma remote_row_spec s now w b :
  consistent s -> b ∈ bindings s ->
  match remote_row now w s b with
  | Some ri => ri_identity ri = bi_identity b /\ ri_principal_id ri = bi_principal_id b
      /\ (forall r, r ∈ ri_role_keys ri <->
           exists g, granted s (bi_identity b) (Some w) g /\ gr_role_key g = r)
      /\ exists g, granted s (bi_identity b) (Some w) g
  | None => forall g, ~ granted s (bi_identity b) (Some w) g
  end.
Proof.
  intros Hs Hb. destruct (binding_ok s Hs b Hb) as [[row Hp] Hact].
  assert (principal_of (bi_identity b) s = Some (bi_principal_id b)) as Hpr
    by (apply find_binding; [done|by exists b]).
  assert (forall g, g ∈ eligible now w (bi_principal_id b) s <-> granted s (bi_identity b) (Some w) g)
    as Hel.
  { intros g. unfold eligible, active_principal, granted. rewrite Hp, Hpr.
    rewrite bool_decide_true by (by eapply (principal_ok s Hs)).
    rewrite list_elem_of_In, filter_In. unfold reaches. split.
    - intros [Hg Hr]. apply list_elem_of_In in Hg. rewrite (effective_active s) in Hr by done.
      bool_prop. split_and!; try done. congruence.
    - intros (Hg & [= E] & Ha & Hi). split; [by apply list_elem_of_In|].
      by rewrite (effective_active s), bool_decide_true, Ha, Hi by done. }
  unfold remote_row. rewrite bool_decide_true by done.
  destruct (eligible now w (bi_principal_id b) s) as [|g0 gs] eqn:Hgs.
  - intros g Hg. apply Hel in Hg. by apply elem_of_nil in Hg.
  - cbn [ri_identity ri_principal_id ri_role_keys]. split_and!; [done|done| |].
    2:{ exists g0. apply Hel. by left. }
    intros r. rewrite sort_elem, elem_of_remove_dups, list_elem_of_In, in_map_iff. split.
    + intros (g & <- & Hg). exists g. split; [|done]. by apply Hel, list_elem_of_In.
    + intros (g & Hg & <-). exists g. split; [done|]. by apply list_elem_of_In, Hel.
Qed.

(** The rows of the projection, and the permissions of each. *)
Lemma remote_row_permissions s now w b ri :
  consistent s -> b ∈ bindings s -> remote_row now w s b = Some ri ->
  exists P, union_permissions (ri_role_keys ri) = Ok P
    /\ forall x, x ∈ P <-> exists g, granted s (bi_identity b) (Some w) g /\ confers x (gr_role_key g).
Proof.
  intros Hs Hb E. pose proof (remote_row_spec s now w b Hs Hb) as Hspec. rewrite E in Hspec.
  destruct Hspec as (_ & _ & Hk & _).
  destruct (union_permissions_spec (ri_role_keys ri)) as (P & HP & Hx).
  { intros r Hr. apply Hk in Hr as (g & (Hg & _) & <-).
    destruct (grant_ok s Hs g Hg) as (_ & _ & Hrole & _). apply role_known in Hrole as (p & ? & _).
    by exists p. }
  exists P. split; [done|]. intros x. rewrite Hx. split.
  - intros (r & Hr & Hc). apply Hk in Hr as (g & Hg & <-). by exists g.
  - intros (g & Hg & Hc). exists (gr_role_key g). split; [apply Hk; by exists g|done].
Qed.

Lemma remote_listed s w now :
  consistent s ->
  exists l, read_remote_identity_projection w now s = (Ok (l, revision (workspace w) s), s)
    /\ (forall ri perms, (ri, perms) ∈ l -> exists b, b ∈ bindings s /\ remote_row now w s b = Some ri
          /\ forall x, x ∈ perms <->
               exists g, granted s (bi_identity b) (Some w) g /\ confers x (gr_role_key g))
    /\ (forall b ri, b ∈ bindings s -> remote_row now w s b = Some ri ->
          exists perms, (ri, perms) ∈ l).
Proof.
  intros Hs. unfold read_remote_identity_projection.
  rewrite (st_bind_eq (gets_st _) _ _ _ s eq_refl).
  set (rows := fst (repository_remote_projection w now s)).
  assert (forall ri, ri ∈ rows <-> exists b, b ∈ bindings s /\ remote_row now w s b = Some ri) as Hrows.
  { intros ri. subst rows. simpl. by rewrite sort_elem, list_elem_of_omap. }
  destruct (seq_res_map remote_permissions rows) as (l & Hl & Hin).
  { intros ri Hi. apply Hrows in Hi as (b & Hb & E).
    destruct (remote_row_permissions _ _ _ _ _ Hs Hb E) as (P & HP & _). unfold remote_permissions.
    rewrite HP. by eexists. }
  exists l. unfold mbind, stres_bind, lift_res. rewrite Hl. split; [done|]. split.
  - intros ri perms Hi. apply Hin in Hi as (ri' & Hi & E). unfold remote_permissions in E.
    apply Hrows in Hi as (b & Hb & Eb).
    destruct (remote_row_permissions _ _ _ _ _ Hs Hb Eb) as (P & HP & Hx).
    rewrite HP in E. injection E as <- <-. exists b. split_and!; [done|done|].
    intros x. by rewrite sort_elem, elem_of_elements, Hx.
  - intros b ri Hb Eb. destruct (remote_row_permissions _ _ _ _ _ Hs Hb Eb) as (P & HP & _).
    eexists. apply Hin. exists ri. split; [apply Hrows; by exists b|].
    unfold remote_permissions. by rewrite HP.
Qed.

(** The projection sent to the remote gateway agrees with the access
    decision taken here: it lists exactly the identities that hold a role in
    the workspace, each with the principal, the roles and the permissions that
    the decision gives it. *)
Theorem remote_projection_agrees s w now :
  reachable s ->
  exists l, read_remote_identity_projection w now s = (Ok (l, revision (workspace w) s), s)
    /\ forall identity ctx, resolve_effective_access identity (Some w) now s = (Ok ctx, s) ->
         ((exists ri perms, (ri, perms) ∈ l /\ ri_identity ri = key_of identity)
          <-> exists r, r ∈ cx_roles ctx)
         /\ forall ri perms, (ri, perms) ∈ l -> ri_identity ri = key_of identity ->
              cx_principal_id ctx = Some (ri_principal_id ri)
              /\ (forall r, r ∈ ri_role_keys ri <-> r ∈ cx_roles ctx)
              /\ (forall x, x ∈ perms <-> allows ctx x = true).
Proof.
  intros Hs%reachable_consistent. destruct (remote_listed s w now Hs) as (l & El & Hfrom & Hto).
  exists l. split; [exact El|]. intros identity ctx E.
  destruct (resolve_spec s identity (Some w) now Hs) as (ctx' & E' & Hp & Hr & Hx).
  rewrite E in E'. injection E' as <-. split; [split|].
  - intros (ri & perms & Hi & Hid). apply Hfrom in Hi as (b & Hb & Eb & _).
    pose proof (remote_row_spec s now w b Hs Hb) as Hspec. rewrite Eb in Hspec.
    destruct Hspec as (Hbid & _ & _ & g & Hg). exists (gr_role_key g). apply Hr. exists g.
    by rewrite <- Hid, Hbid.
  - intros (r & Hrin). apply Hr in Hrin as (g & Hg & _).
    pose proof Hg as (_ & Hpr & _). apply find_binding in Hpr as (b & Hb & Hid & _); [|done].
    pose proof (remote_row_spec s now w b Hs Hb) as Hspec. rewrite Hid in Hspec.
    destruct (remote_row now w s b) as [ri|] eqn:Eb; [|by destruct (Hspec g)].
    destruct (Hto b ri Hb Eb) as (perms & Hin). exists ri, perms. by destruct Hspec as (-> & _).
  - intros ri perms Hi Hid. apply Hfrom in Hi as (b & Hb & Eb & Hperms).
    pose proof (remote_row_spec s now w b Hs Hb) as Hspec. rewrite Eb in Hspec.
    destruct Hspec as (Hbid & Hbp & Hk & _). rewrite Hid in Hbid. rewrite <- Hbid in *.
    split_and!.
    + rewrite Hp, Hbp. apply find_binding; [done|]. by exists b.
    + intros r. by rewrite Hk, Hr.
    + intros x. unfold allows. by rewrite bool_decide_eq_true, Hperms, Hx.
Qed.

(** * What an acceptance grants *)

(** After a grant the principal holds one role in the scope, the granted one,
    and every other grant is what it was. *)
Lemma insert_grant_effect gid p sc role by_ s b s' :
  insert_grant (new_grant gid p sc role by_) DoUpdate s = (Ok b, s') ->
  (exists g, g ∈ grants s' /\ active_for p sc g = true)
  /\ (forall g, g ∈ grants s' -> active_for p sc g = true -> gr_role_key g = role)
  /\ (forall g, active_for p sc g = false -> g ∈ grants s' <-> g ∈ grants s).
Proof.
  intros E. apply insert_grant_Ok in E as [_ [(Hex & _ & ->)|(Hex & _ & ->)]]; cbn in Hex |- *.
  - assert (forall g, active_for p sc (set_role role g) = active_for p sc g) as Hset by done.
    split_and!.
    + apply existsb_elem in Hex as (g & Hg & Ha). exists (set_role role g). split; [|done].
      apply list_elem_of_In, in_map_iff. exists g. by rewrite Ha, <- list_elem_of_In.
    + intros g Hg Ha. apply list_elem_of_In, in_map_iff in Hg as (g0 & <- & _).
      destruct (active_for p sc g0) eqn:Ha0; [done|congruence].
    + intros g Ha. rewrite list_elem_of_In, in_map_iff. split.
      * intros (g0 & Eg & Hg0). apply list_elem_of_In in Hg0.
        destruct (active_for p sc g0) eqn:Ha0; [|by subst].
        subst g. by rewrite Hset, Ha0 in Ha.
      * intros Hg. exists g. rewrite Ha. by rewrite <- list_elem_of_In.
  - assert (active_for p sc (new_grant gid p sc role by_) = true) as Hnew
      by (unfold active_for; by rewrite !bool_decide_true).
    split_and!.
    + exists (new_grant gid p sc role by_). split; [|done]. apply elem_of_app. right. by left.
    + intros g [Hg| ->%list_elem_of_singleton]%elem_of_app Ha; [|done].
      rewrite existsb_none in Hex. by rewrite Hex in Ha.
    + intros g Ha. rewrite elem_of_app, list_elem_of_singleton. split; [|by left].
      intros [Hg| ->]; [done|congruence].
Qed.

(** The principal that accepts is the identity's from then on. *)
Lemma accept_principal s s1 identity p bid e :
  consistent s1 ->
  principal_of identity s = Some p /\ s1 = s
  \/ List.find (bound_to identity) (bindings s) = None /\ principals s !! p = None
     /\ s1 = with_bindings (fun l => l ++ [mkBinding bid p identity (Some e) "active"])
               (with_principals (<[p := mkPrincipal "human" (Some e) "active"]>) s) ->
  principal_of identity s1 = Some p.
Proof.
  intros Hs1 [[Hp ->]|(_ & _ & Es1)]; [done|]. apply find_binding; [done|].
  exists (mkBinding bid p identity (Some e) "active"). split; [|done]. rewrite Es1. simpl.
  apply elem_of_app. right. by left.
Qed.

Lemma principal_of_bindings s s' identity :
  consistent s -> consistent s' -> bindings s' = bindings s ->
  principal_of identity s' = principal_of identity s.
Proof. intros Hs Hs' E. rewrite !principal_of_bound by done. by rewrite E. Qed.

Lemma active_for_granted s identity p w g :
  principal_of identity s = Some p ->
  granted s identity w g
  <-> g ∈ grants s /\ active_for p (gr_scope g) g = true /\ in_reach w (gr_scope g) = true.
Proof.
  intros Hp. unfold granted, active_for. rewrite Hp. split.
  - intros (Hg & [= ->] & Ha & Hi). by rewrite Ha, !bool_decide_true.
  - intros (Hg & Ha & Hi). bool_prop. split_and!; congruence.
Qed.

Lemma accept_granted s token identity e now u r s' :
  consistent s -> accept_invitation token identity e now u s = (Ok r, s') ->
  consistent s' /\ principal_of identity s' = Some (ac_principal_id r)
  /\ forall w x,
       (exists g, granted s' identity w g /\ confers x (gr_role_key g))
       <-> in_reach w (ac_scope r) = true /\ confers x (ac_role_key r)
           \/ exists g, granted s identity w g /\ gr_scope g ≠ ac_scope r /\ confers x (gr_role_key g).
Proof.
  intros Hs E. apply accept_invitation_Ok in E as (i & s1 & b & s2 & rev & _ & _ & _ & _ & E); [|done].
  cbv zeta in E. destruct E as (Hcase & Hs1 & Hins & _ & -> & Es' & Hs').
  cbn [ac_principal_id ac_scope ac_role_key] in *.
  set (p := ac_principal_id r) in *.
  pose proof (accept_principal s s1 identity p (uu_binding u) e Hs1 Hcase) as Hp1.
  assert (bindings s' = bindings s1) as Hb.
  { apply insert_grant_Ok in Hins as [_ [(_ & _ & ->)|(_ & _ & ->)]]; by rewrite Es'. }
  pose proof (principal_of_bindings s1 s' identity Hs1 Hs' Hb) as Hp'. rewrite Hp1 in Hp'.
  split; [done|]. split; [done|].
  assert (forall w g, granted s' identity w g
    <-> g ∈ grants s2 /\ active_for p (gr_scope g) g = true /\ in_reach w (gr_scope g) = true) as Hnew
    by (intros w g; rewrite (active_for_granted s' _ p) by done; by rewrite Es').
  assert (forall w g, granted s identity w g
    <-> g ∈ grants s1 /\ active_for p (gr_scope g) g = true /\ in_reach w (gr_scope g) = true) as Hold.
  { intros w g. rewrite <- (active_for_granted s1 identity p w g Hp1).
    destruct Hcase as [[_ ->]|(Hnone & Hfresh & ->)]; [done|]. unfold granted. rewrite Hp1.
    rewrite principal_of_bound, Hnone by done. split; [by intros (_ & ? & _)|].
    intros (Hg & [= Ep] & _). destruct (grant_ok s Hs g Hg) as ([row Hrow] & _). congruence. }
  destruct (insert_grant_effect _ _ _ _ _ _ _ _ Hins) as (Hheld & Hrole & Hother).
  assert (forall g, gr_scope g ≠ in_scope i -> g ∈ grants s2 <-> g ∈ grants s1) as Hsame.
  { intros g Hne. apply Hother. unfold active_for. by rewrite (bool_decide_false (gr_scope g = _)), andb_false_r. }
  intros w x. split.
  - intros (g & (Hg & Ha & Hi)%Hnew & Hx). destruct (decide (gr_scope g = in_scope i)) as [Esc|Hne].
    + left. rewrite Esc in *. by rewrite <- (Hrole g Hg Ha).
    + right. exists g. split; [|done]. apply Hold. by rewrite <- Hsame.
  - intros [[Hi Hx]|(g & (Hg & Ha & Hi)%Hold & Hne & Hx)].
    + destruct Hheld as (g & Hg & Ha). exists g. rewrite (Hrole g Hg Ha). split; [|done].
      assert (gr_scope g = in_scope i) as Esc by (unfold active_for in Ha; by bool_prop).
      apply Hnew. by rewrite Esc.
    + exists g. split; [|done]. apply Hnew. by rewrite Hsame.
Qed.

(** Accepting an invitation grants exactly the invited role: it takes a
    pending, unexpired invitation of that token, sent to the identity's own
    verified address, and from then on the identity is bound to the principal
    returned, and in every workspace holds the permissions of the invited role
    if the invitation's scope reaches it, those it held by roles in other
    scopes, and no others. *)
Theorem acceptance_grants_role s token identity now u r s' w :
  reachable s -> facade_accept_invitation token identity now u s = (Ok r, s') ->
  (exists i e, i ∈ invitations s /\ in_token_hash i = sha256 token /\ in_status i = "pending"
     /\ now < in_expires_at i /\ verified_email identity = Some e /\ lower (in_email i) = lower e
     /\ ac_scope r = in_scope i /\ ac_role_key r = in_role_key i)
  /\ exists ctx,
       resolve_effective_access identity w now s' = (Ok ctx, s')
       /\ cx_principal_id ctx = Some (ac_principal_id r)
       /\ forall x, allows ctx x = true <->
            in_reach w (ac_scope r) = true /\ confers x (ac_role_key r)
            \/ exists g, granted s (key_of identity) w g /\ gr_scope g ≠ ac_scope r
                 /\ confers x (gr_role_key g).
Proof.
  intros Hs%reachable_consistent E. unfold facade_accept_invitation in E.
  destruct (verified_email identity) as [e|] eqn:He; [|done]. case_bool_decide; [done|].
  pose proof (accept_granted _ _ _ _ _ _ _ _ Hs E) as (Hs' & Hp & Hx).
  apply accept_invitation_Ok in E as (i & s1 & b & s2 & rev & Hf & Hst & Hexp & Hmail & E); [|done].
  cbv zeta in E. destruct E as (_ & _ & _ & _ & Er & _). split.
  - apply List.find_some in Hf as [Hi Ht]. unfold carries in Ht. bool_prop. exists i, e.
    rewrite Er. split_and!; try done. by apply list_elem_of_In.
  - destruct (resolve_spec s' identity w now Hs') as (ctx & Ec & Hpc & _ & Hperm).
    exists ctx. split_and!; [done|by rewrite Hpc|]. intros x. unfold allows.
    by rewrite bool_decide_eq_true, Hperm, Hx.
Qed.

(** * Who may edit *)

(** The management requests, without the caller and the time. *)
Inductive request : Type :=
| QInviteLocal (email role : string) (n days : Z) (token id : string)
| QRevokeLocal (p : string) (n : Z)
| QInvite (w email role : string) (n days : Z) (token id : string)
| QChange (w p role : string) (n : Z) (gid : string)
| QRevoke (w p : string) (n : Z).

Definition run_request (q : request) (auth : AuthContext) (now : Z) (aid : string) : stres acl Z :=
  match q with
  | QInviteLocal email role n days token id =>
      c ← invite_local_core_member auth email role n days token id aid now; mret (cr_revision c)
  | QRevokeLocal p n => revoke_local_core_member auth p n now aid
  | QInvite w email role n days token id =>
      c ← invite_workspace_member w auth email role n days token id aid now; mret (cr_revision c)
  | QChange w p role n gid => change_workspace_member w p auth role n now gid aid
  | QRevoke w p n => revoke_workspace_member w p auth n now aid
  end.

(** The workspace a request is for, or none for the local core. *)
Definition request_workspace (q : request) : option string :=
  match q with
  | QInviteLocal _ _ _ _ _ _ | QRevokeLocal _ _ => None
  | QInvite w _ _ _ _ _ _ | QChange w _ _ _ _ | QRevoke w _ _ => Some w
  end.

Definition request_permission (q : request) : string :=
  match request_workspace q with
  | None => LOCAL_CORE_ACCESS_MANAGE
  | Some _ => WORKSPACE_MEMBERS_MANAGE
  end.

(** A computation that changes nothing, and one that changes nothing when it
    raises. *)
Definition pure {A} (c : stres acl A) : Prop := forall s r s', c s = (r, s') -> s' = s.
Definition undone {A} (c : stres acl A) : Prop := forall s e s', c s = (Raise e, s') -> s' = s.

Lemma pure_undone {A} (c : stres acl A) : pure c -> undone c.
Proof. intros Hc s e s'. apply Hc. Qed.
Lemma pure_lift {A} (r : res A) : pure (lift_res r).
Proof. by intros s r' s' [= _ <-]. Qed.
Lemma pure_gets {A} (f : acl -> A) : pure (gets_st f).
Proof. by intros s r' s' [= _ <-]. Qed.
Lemma pure_ret {A} (a : A) : pure (mret a).
Proof. by intros s r' s' [= _ <-]. Qed.
Lemma pure_raise {A} e : pure (raise_st (A:=A) e).
Proof. by intros s r' s' [= _ <-]. Qed.
Lemma pure_valid ok : pure (valid_request ok).
Proof. destruct ok; [apply pure_ret|apply pure_raise]. Qed.
Lemma pure_bind {A B} (c : stres acl A) (f : A -> stres acl B) :
  pure c -> (forall a, pure (f a)) -> pure (c ≫= f).
Proof.
  intros Hc Hf s r s'. unfold mbind, stres_bind. destruct (c s) as [[a|e] s1] eqn:E.
  - apply Hc in E as ->. apply Hf.
  - intros [= _ <-]. by eapply Hc.
Qed.

Lemma undone_bind {A B} (c : stres acl A) (f : A -> stres acl B) :
  pure c -> (forall a, undone (f a)) -> undone (c ≫= f).
Proof.
  intros Hc Hf s r s'. unfold mbind, stres_bind. destruct (c s) as [[a|e] s1] eqn:E.
  - apply Hc in E as ->. apply Hf.
  - intros [= _ <-]. by eapply Hc.
Qed.
Lemma undone_then_ret {A B} (c : stres acl A) (f : A -> B) :
  undone c -> undone (c ≫= fun a => mret (f a)).
Proof.
  intros Hc s e s'. unfold mbind, stres_bind. destruct (c s) as [[a|e0] s1] eqn:E; [done|].
  intros [= _ <-]. by eapply Hc.
Qed.
Lemma undone_transaction {A} (c : stres acl A) : undone (transaction c).
Proof. intros s e s' E. by eapply transaction_Raise. Qed.
Lemma undone_mapping {A} (c : stres acl A) : undone c -> undone (mapping_errors c).
Proof.
  intros Hc s e s'. unfold mapping_errors. destruct (c s) as [[a|e0] s1] eqn:E; [done|].
  intros [= _ <-]. by eapply Hc.
Qed.
Lemma mapping_Ok {A} (c : stres acl A) s a s' :
  mapping_errors c s = (Ok a, s') -> c s = (Ok a, s').
Proof. unfold mapping_errors. by destruct (c s) as [[?|?] ?]. Qed.

Lemma pure_resolve identity w now : pure (resolve_effective_access identity w now).
Proof.
  apply pure_bind; [apply pure_gets|]. intros [[p roles] r].
  apply pure_bind; [apply pure_lift|]. intros P. apply pure_ret.
Qed.

Lemma pure_require_workspace x w auth now : pure (require_workspace_permission x w auth now).
Proof.
  apply pure_bind; [apply pure_lift|]. intros i. apply pure_bind; [apply pure_resolve|].
  intros ctx. case_match; [apply pure_ret|apply pure_raise].
Qed.

Lemma pure_require_local x auth now : pure (require_local_core_permission x auth now).
Proof.
  apply pure_bind; [apply pure_lift|]. intros i. apply pure_bind; [apply pure_resolve|].
  intros ctx. case_match; [apply pure_ret|apply pure_raise].
Qed.

(** The caller of a request that passed its permission check. *)
Definition permitted (x : string) (w : option string) (auth : AuthContext) (now : Z) (s : acl)
    (actor : string) : Prop :=
  exists identity ctx, verified_identity_from_auth auth = Ok identity
    /\ resolve_effective_access identity w now s = (Ok ctx, s) /\ allows ctx x = true
    /\ cx_principal_id ctx = Some actor.

Lemma allows_principal identity w now s ctx x :
  consistent s -> resolve_effective_access identity w now s = (Ok ctx, s) -> allows ctx x = true ->
  exists p, cx_principal_id ctx = Some p.
Proof.
  intros Hs E Hx. destruct (resolve_spec s identity w now Hs) as (ctx' & E' & Hp & _ & Hperm).
  rewrite E in E'. injection E' as <-. unfold allows in Hx. bool_prop.
  apply Hperm in Hx as (g & (_ & Hg & _) & _). rewrite Hp. by exists (gr_principal_id g).
Qed.

Lemma require_permitted x w auth now s access s' (c : stres acl EffectiveAccessContext) detail :
  consistent s ->
  c = (identity ← lift_res (verified_identity_from_auth auth);
       context ← resolve_effective_access identity w now;
       if allows context x then mret context else raise_st (HTTPException 403 detail)) ->
  c s = (Ok access, s') -> s' = s /\ permitted x w auth now s (actor_of access).
Proof.
  intros Hs -> E. apply st_bind_Ok_inv in E as (identity & s1 & [= Hid <-] & E).
  apply st_bind_Ok_inv in E as (ctx & s1 & Er & E). apply pure_resolve in Er as Es. subst s1.
  destruct (allows ctx x) eqn:Hx; [|done]. injection E as <- <-. split; [done|].
  destruct (allows_principal _ _ _ _ _ _ Hs Er Hx) as [p Hp].
  exists identity, ctx. split_and!; try done. unfold actor_of. by rewrite Hp.
Qed.

(** What an edit leaves behind. *)
Definition audited (actor : string) (sc : scope) (n : Z) (s s' : acl) : Prop :=
  revision sc s < n /\ policies s' !! sc = Some n
  /\ exists a, audits s' = audits s ++ [a] /\ au_actor_principal_id a = actor /\ au_scope a = sc.

Lemma edit_audited sc n s r s1 s2 a :
  consistent s -> opened sc n s r s1 -> audits s2 = audits s1 -> au_scope a = sc ->
  audited (au_actor_principal_id a) sc (r + 1) s (recorded sc r a s2).
Proof.
  intros Hs Ho Ha Hsc. unfold audited. simpl. rewrite lookup_insert_eq, Ha. split_and!; [|done|].
  - destruct (opened_revision sc n s r s1 sc Hs Ho) as (Hle & _ & Hr). lia.
  - exists a. split; [|done]. by destruct Ho as (_ & _ & _ & [[-> _]|(-> & _)]).
Qed.

Lemma create_audited id sc email role token expires actor n hex s r' s' :
  consistent s -> create_invitation id sc email role token expires actor n hex s = (Ok r', s') ->
  audited actor sc r' s s'.
Proof.
  intros Hs E. apply create_invitation_Ok in E as (r & s1 & Ho & -> & _ & _ & -> & _); [|done].
  by eapply (edit_audited sc n s r s1 (with_invitations _ s1)).
Qed.

Lemma upsert_audited p sc role actor n now gid aid s r' s' :
  consistent s -> upsert_grant p sc role actor n now gid aid s = (Ok r', s') ->
  audited actor sc r' s s'.
Proof.
  intros Hs E. apply upsert_grant_Ok in E as (r & s1 & s2 & b & Ho & -> & Hins & _ & -> & _); [|done].
  eapply (edit_audited sc n s r s1 s2 (mkAudit _ _ _ _ _ _)); try done.
  by apply insert_grant_Ok in Hins as [_ [(_ & _ & ->)|(_ & _ & ->)]].
Qed.

Lemma revoke_audited p sc actor n now aid s r' s' :
  consistent s -> revoke_grant p sc actor n now aid s = (Ok r', s') -> audited actor sc r' s s'.
Proof.
  intros Hs E. apply revoke_grant_Ok in E as (r & s1 & Ho & -> & _ & _ & -> & _); [|done].
  by eapply (edit_audited sc n s r s1 (with_grants _ s1)).
Qed.

Lemma undone_facade_create c actor token id aid now :
  undone (facade_create_invitation c actor token id aid now).
Proof.
  apply undone_bind; [apply pure_lift|]. intros _.
  apply (undone_then_ret _ (fun r => mkCreated _ _ _ _ _ _ r)). apply undone_transaction.
Qed.

Lemma undone_request q auth now aid : undone (run_request q auth now aid).
Proof.
  assert (forall (A : Type) (c : EffectiveAccessContext -> stres acl A) x w ok,
    (forall access, undone (c access)) ->
    undone (access ← require_workspace_permission x w auth now;
            _ ← valid_request ok; mapping_errors (c access))
    /\ undone (access ← require_local_core_permission x auth now;
               _ ← valid_request ok; mapping_errors (c access))) as Hgate.
  { intros A c x w ok Hc. split; (apply undone_bind;
      [first [apply pure_require_workspace|apply pure_require_local]|]; intros access;
      apply undone_bind; [apply pure_valid|]; intros _; by apply undone_mapping). }
  destruct q; simpl.
  - apply undone_then_ret. eapply (Hgate _ _ _ "" _). intros access.
    apply undone_bind; [apply pure_lift|]. intros c. apply undone_facade_create.
  - eapply (Hgate _ _ _ "" _). intros access. apply undone_transaction.
  - apply undone_then_ret. eapply (Hgate _ _ _ _ _). intros access.
    apply undone_bind; [apply pure_lift|]. intros c. apply undone_facade_create.
  - eapply (Hgate _ _ _ _ _). intros access. apply undone_bind; [apply pure_lift|]. intros c.
    apply undone_bind; [apply pure_lift|]. intros _. apply undone_transaction.
  - eapply (Hgate _ _ _ _ _). intros access. apply undone_transaction.
Qed.

Lemma command_scope sc email role n days c :
  new_InvitationCreateCommand sc email role n days = Ok c -> ic_scope c = sc.
Proof.
  unfold new_InvitationCreateCommand, validated. destruct (_ && _); [|done].
  destruct (normalize_email email) as [e|err]; [by intros [= <-]|]. by destruct err.
Qed.

Lemma grant_command_fields p sc role n c :
  new_GrantChangeCommand p sc role n = Ok c -> c = mkGrantCommand p sc role n.
Proof. unfold new_GrantChangeCommand, validated. destruct (_ && _); [by intros [= <-]|done]. Qed.

Lemma facade_create_audited c actor token id aid now s r s' :
  consistent s -> facade_create_invitation c actor token id aid now s = (Ok r, s') ->
  audited actor (ic_scope c) (cr_revision r) s s'.
Proof.
  intros Hs E. unfold facade_create_invitation in E.
  apply st_bind_Ok_inv in E as (u & s1 & [= _ <-] & E).
  apply st_bind_Ok_inv in E as (n & s1 & E & [= <- <-]). by eapply create_audited.
Qed.

(** C26: Management is authorised and audited: a request either fails and
    changes nothing, or its caller's effective permissions at that moment allow
    it to manage the members of that scope, and the request adds one audit
    event that names the caller's principal and the scope, and advances the
    revision of the scope to the one it returns. *)
Theorem edits_authorised_and_audited s q auth now aid r s' :
  reachable s -> run_request q auth now aid s = (r, s') ->
  match r with
  | Raise _ => s' = s
  | Ok n => exists actor,
      permitted (request_permission q) (request_workspace q) auth now s actor
      /\ audited actor (scope_of (request_workspace q)) n s s'
  end.
Proof.
  intros Hs%reachable_consistent E. destruct r as [n|e]; [|by eapply undone_request].
  destruct q; simpl in E.
  all: try (apply st_bind_Ok_inv in E as (c0 & s0 & E & [= <- <-])).
  all: apply st_bind_Ok_inv in E as (access & s1 & Ep & E).
  all: eapply require_permitted in Ep as [-> Hp]; [|exact Hs|reflexivity].
  all: apply st_bind_Ok_inv in E as (u & s1 & Ev & E); apply pure_valid in Ev as ->.
  all: apply mapping_Ok in E; exists (actor_of access); split; [exact Hp|].
  - apply st_bind_Ok_inv in E as (c & s1 & [= Hc <-] & E).
    change (scope_of _) with local_core. rewrite <- (command_scope _ _ _ _ _ _ Hc). by eapply facade_create_audited.
  - by eapply revoke_audited.
  - apply st_bind_Ok_inv in E as (c & s1 & [= Hc <-] & E).
    change (scope_of _) with (workspace w). rewrite <- (command_scope _ _ _ _ _ _ Hc).
    by eapply facade_create_audited.
  - apply st_bind_Ok_inv in E as (c & s1 & [= Hc <-] & E). apply grant_command_fields in Hc as ->.
    apply st_bind_Ok_inv in E as (u' & s1 & [= _ <-] & E). by eapply upsert_audited.
  - by eapply revoke_audited.
Qed.

End runs.

(** * A sample team *)

Module Sample.
Definition is_staffed (sc : scope) (role : string) (s : acl) : bool :=
  existsb (fun g => gr_active g && bool_decide (gr_scope g = sc)
                    && bool_decide (gr_role_key g = role)) (grants s).

Lemma is_staffed_true sc role s : is_staffed sc role s = true <-> staffed sc role s.
Proof.
  unfold is_staffed, staffed. rewrite existsb_elem. split; intros (g & Hg & Hb); exists g.
  - by bool_prop.
  - split; [done|]. destruct Hb as (-> & -> & ->). by rewrite !bool_decide_true.
Qed.

#[local] Instance database : Database := { text_le := String.leb; md5 := sha256 }.

Definition run_all (l : list action) (s : acl) : acl :=
  fold_left (fun s a => (run_action a s).2) l s.

Lemma run_all_steps (allowed : acl -> action -> Prop) l : forall s,
  (forall s a, a ∈ l -> allowed s a) -> rtc (step allowed) s (run_all l s).
Proof.
  induction l as [|a l IH]; intros s Hl; [apply rtc_refl|]. simpl.
  eapply rtc_l; [exists a; split; [apply Hl; by left|reflexivity]|].
  apply IH. intros s' a' Ha'. apply Hl. by right.
Qed.

Definition empty : acl :=
  mkAcl ∅ [] ∅ [] [] []
    [mkWorkspace "w1" (Some "alice") 5; mkWorkspace "w2" None 9; mkWorkspace "w3" (Some "carol") 7].

Definition setup : list action := [AEnsureOwner "root"; ABackfill "local-root"].
(** After the bootstrap: root administers, alice and carol own a workspace. *)
Definition started : acl := Eval vm_compute in run_all setup empty.

Definition alice : VerifiedIdentity := mkIdentity "local" "local-core" "alice" (Some "alice@example.org").
Definition bob : VerifiedIdentity := mkIdentity "google" "issuer" "bob" (Some "bob@example.org").
Definition alice_auth : AuthContext := mkAuth "alice" "" false None None None None.
Definition bob_auth : AuthContext :=
  mkAuth "" "" true (Some "google") (Some "issuer") (Some "bob") (Some "bob@example.org").
Definition token : string := "a-token-of-at-least-thirty-two-chars".

Definition invite_bob : action :=
  ACreate "inv-1" (workspace "w1") "bob@example.org" "workspace_admin" (sha256 token) 1000
    "local-alice" 1 "audit-1".
Definition invited : acl := Eval vm_compute in run_all [invite_bob] started.
Definition bob_uuids : uuids := mkUuids "p-bob" "b-bob" "g-bob" "audit-2".
Definition accept_bob : action :=
  AAccept (sha256 token) (key_of bob) "bob@example.org" 500 bob_uuids.
(** After bob has accepted. *)
Definition joined : acl := Eval vm_compute in run_all [accept_bob] invited.

Lemma started_reachable : reachable started.
Proof. exists empty. split; [by eexists|]. by apply (run_all_steps anything setup empty). Qed.
Lemma invited_run : rtc (step anything) started invited.
Proof. by apply (run_all_steps anything [invite_bob] started). Qed.
Lemma joined_run : rtc (step anything) invited joined.
Proof. by apply (run_all_steps anything [accept_bob] invited). Qed.
Lemma reachable_run s s' : reachable s -> rtc (step anything) s s' -> reachable s'.
Proof. intros (s0 & Hi & Hr) Hrun. exists s0. split; [done|]. by eapply rtc_trans. Qed.
Lemma invited_reachable : reachable invited.
Proof. exact (reachable_run _ _ started_reachable invited_run). Qed.
Lemma joined_reachable : reachable joined.
Proof. exact (reachable_run _ _ invited_reachable joined_run). Qed.

Lemma access_tables_consistent_witness :
  reachable joined /\ length (grants joined) = 4%nat
  /\ forall sc r, policies joined !! sc = Some r ->
       r = 1 + Z.of_nat (length (audits_of sc (audits joined))).
Proof.
  split; [exact joined_reachable|]. split; [by vm_compute|].
  apply (access_tables_consistent joined joined_reachable).
Defined.

(** Alice's second edit, from the revision of her first. *)
Definition late : action :=
  AChange "local-carol" (workspace "w1") "workspace_viewer" "local-alice" 1 500 "g9" "audit-9".

Lemma stale_edit_refused_witness :
  policies joined !! workspace "w1" = Some 3
  /\ run_action late joined = (Raise AccessRevisionConflictError, joined).
Proof.
  split; [by vm_compute|].
  apply (stale_edit_refused started invite_bob invited joined late (workspace "w1") 1);
    [exact started_reachable|done|by vm_compute|exact joined_run|done].
Defined.

Lemma invitation_accepted_once_witness :
  accept_invitation (sha256 token) (key_of bob) "bob@example.org" 600 bob_uuids joined
  = (Raise InvitationInvalidError, joined).
Proof.
  eapply (invitation_accepted_once invited (sha256 token) (key_of bob) "bob@example.org" 500
    bob_uuids (mkAccepted "p-bob" (workspace "w1") "workspace_admin" 3) joined);
    [exact invited_reachable|by vm_compute|apply rtc_refl].
Defined.

Lemma leaders_never_lost_witness :
  administered started /\ owned "w1" started /\ administered invited /\ owned "w1" invited.
Proof.
  assert (administered started) as Ha by (apply is_staffed_true; by vm_compute).
  assert (owned "w1" started) as Ho by (apply is_staffed_true; by vm_compute).
  destruct (leaders_never_lost started invited "w1" started_reachable) as [H1 H2].
  split; [exact Ha|]. split; [exact Ho|]. split; [by apply H1, invited_run|]. apply H2; [exact Ho|].
  apply (run_all_steps _ [invite_bob] started). by intros s a ->%list_elem_of_singleton [].
Defined.

Definition w1_row : workspace_row := mkWorkspace "w1" (Some "alice") 5.

Lemma listing_agrees_with_access_witness :
  list_authorized_workspace_ids (key_of bob) 500 200 joined = ["w1"]
  /\ exists ctx, resolve_effective_access bob (Some "w1") 500 joined = (Ok ctx, joined)
       /\ allows ctx WORKSPACE_READ = true.
Proof.
  split; [by vm_compute|].
  apply (listing_agrees_with_access joined bob 500 200 w1_row joined_reachable);
    [by left|simpl; lia|apply list_elem_of_In; by vm_compute; left].
Defined.

Lemma remote_projection_agrees_witness :
  exists l, read_remote_identity_projection "w1" 500 joined = (Ok (l, 3), joined)
    /\ exists ri perms, (ri, perms) ∈ l /\ ri_identity ri = key_of bob.
Proof.
  destruct (remote_projection_agrees joined "w1" 500 joined_reachable) as (l & El & Hl).
  exists l. split; [exact El|].
  destruct (resolve_effective_access bob (Some "w1") 500 joined) as [[ctx|e] s'] eqn:E;
    [|vm_compute in E; discriminate E].
  assert (s' = joined) as -> by (by eapply pure_resolve).
  apply (Hl bob ctx E). exists "workspace_admin".
  assert (cx_roles ctx = ["workspace_admin"]) as ->; [|by left].
  assert (match (resolve_effective_access bob (Some "w1") 500 joined).1 with
          | Ok c => cx_roles c | Raise _ => [] end = ["workspace_admin"]) as Hr by by vm_compute.
  by rewrite E in Hr.
Defined.

Lemma acceptance_grants_role_witness :
  exists ctx, resolve_effective_access bob (Some "w1") 600 joined = (Ok ctx, joined)
    /\ allows ctx WORKSPACE_MEMBERS_MANAGE = true.
Proof.
  destruct (acceptance_grants_role invited token bob 500 bob_uuids
    (mkAccepted "p-bob" (workspace "w1") "workspace_admin" 3) joined (Some "w1"))
    as (_ & ctx & E & _ & Hx); [exact invited_reachable|by vm_compute|].
  exists ctx. split; [exact E|]. apply Hx. left. split; [done|].
  eexists. split; [reflexivity|]. apply (bool_decide_unpack _). by vm_compute.
Defined.

(** Alice invites, and bob, who is not a member yet, cannot. *)
Definition alice_invites : request :=
  QInvite "w1" "Bob@Example.org" "workspace_viewer" 1 7 token "inv-1".
Definition invited_by_alice : acl :=
  Eval vm_compute in (run_request alice_invites alice_auth 100 "audit-1" started).2.

Lemma edits_authorised_and_audited_witness :
  (exists actor, permitted WORKSPACE_MEMBERS_MANAGE (Some "w1") alice_auth 100 started actor
     /\ audited actor (workspace "w1") 2 started invited_by_alice)
  /\ run_request alice_invites bob_auth 100 "audit-1" started
     = (Raise (HTTPException 403 "workspace_access_denied"), started).
Proof.
  split; [|by vm_compute].
  apply (edits_authorised_and_audited started alice_invites alice_auth 100 "audit-1" (Ok 2)
    invited_by_alice started_reachable). by vm_compute.
Defined.

(** ** What the operations do not prevent *)

(** The last owner accepts an invitation to a lesser role: the workspace has
    no owner left, where a change of the grant is refused. *)
Definition invite_alice : action :=
  ACreate "inv-1" (workspace "w1") "alice@example.org" "workspace_viewer" (sha256 token) 1000
    "local-root" 1 "audit-1".
Definition accept_alice : action :=
  AAccept (sha256 token) (key_of alice) "alice@example.org" 500 bob_uuids.
Definition demote_alice : action :=
  AChange "local-alice" (workspace "w1") "workspace_viewer" "local-root" 1 500 "g9" "audit-9".

Example owner_lost_by_invitation :
  is_staffed (workspace "w1") "workspace_owner" started = true
  /\ (run_action demote_alice started).1 = Raise LastOwnerError
  /\ is_staffed (workspace "w1") "workspace_owner"
       (run_all [invite_alice; accept_alice] started) = false.
Proof. by vm_compute. Qed.

(** An administrator of a workspace, who does not hold the permission to manage
    owners, makes itself an owner. *)
Example admin_becomes_owner :
  match run_request (QChange "w1" "p-bob" "workspace_owner" 3 "g9") bob_auth 600 "audit-9" joined with
  | (Ok n, s) => n = 4 /\ In "workspace_owner" (effective_roles 600 (Some "w1") "p-bob" s)
  | _ => False
  end
  /\ WORKSPACE_OWNER_MANAGE ∉ default ∅ (dget "workspace_admin" ROLE_PERMISSIONS).
Proof.
  split; [by vm_compute; auto|]. apply (bool_decide_unpack _). by vm_compute.
Qed.

(** A role imported, revoked and imported again meets its own primary key. *)
Definition import_bob : action :=
  AImport "p" "b" "g" (key_of bob) None (workspace "w2") "workspace_editor" "sync".
Definition revoke_bob : action := ARevoke "p" (workspace "w2") "local-root" 1 500 "audit-5".

Example import_after_revocation_fails :
  (run_action import_bob (run_all [import_bob; revoke_bob] started)).1
  = Raise (IntegrityError "access_grants_pkey").
Proof. by vm_compute. Qed.

(** So does the bootstrap once the owner it backfilled has lost the grant. *)
Definition hand_over : list action :=
  [AImport "p" "b" "g" (key_of bob) None (workspace "w1") "workspace_owner" "sync";
   ARevoke "local-alice" (workspace "w1") "local-root" 1 500 "audit-5"].

Example bootstrap_after_revocation_fails :
  (bootstrap_local_state "root" (run_all hand_over started)).1
  = Raise (IntegrityError "access_grants_pkey").
Proof. by vm_compute. Qed.

(** The import of a role for an identity bound to another principal reports a
    new grant, which gives the identity nothing. *)
Definition import_alice : stres acl bool :=
  facade_import_verified_grant alice (workspace "w2") "workspace_editor" "sync".

Example import_without_effect :
  (import_alice started).1 = Ok true
  /\ principal_of (key_of alice) (import_alice started).2 = Some "local-alice"
  /\ effective_roles 500 (Some "w2") "local-alice" (import_alice started).2 = [].
Proof. by vm_compute. Qed.
End Sample.
