(* ===== verification/Traces.v ===== *)
(** A logic of traces, for computations whose state is a list that only grows:
    [marking p P c] says that [c] appends to its state, and that its answer and
    the marks [p] sees in what it appends satisfy [P]. *)
From S2P Require Import Prelude.

Section traces.
Context {E M : Type} (p : E -> option M).

Definition marks (h : list E) : list M := omap p h.

Lemma marks_app h h' : marks (h ++ h') = marks h ++ marks h'.
Proof. unfold marks. apply omap_app. Qed.

(** [c] extends its state by what satisfies [Q], which may depend on the
    answer. *)
Definition adds {A} (Q : res A -> list E -> Prop) (c : stres (list E) A) : Prop :=
  forall h r h', c h = (r, h') -> exists ev, h' = h ++ ev /\ Q r ev.

Definition marking {A} (P : res A -> list M -> Prop) (c : stres (list E) A) : Prop :=
  adds (fun r ev => P r (marks ev)) c.

(** No mark. *)
Definition silent {A} (_ : res A) (ev : list E) : Prop := marks ev = [].
Notation quiet c := (adds silent c).

Lemma quiet_pure {A} (c : stres (list E) A) : (forall h, exists r, c h = (r, h)) -> quiet c.
Proof.
  intros Hc h r h' Eq. destruct (Hc h) as [r0 E0]. rewrite E0 in Eq. injection Eq as <- <-.
  exists []. by rewrite app_nil_r.
Qed.
Lemma quiet_st_ret {A} (a : A) : quiet (mret (M:=stres (list E)) a).
Proof. apply quiet_pure. by eexists. Qed.
Lemma quiet_raise {A} e : quiet (raise_st (A:=A) e).
Proof. apply quiet_pure. by eexists. Qed.
Lemma quiet_lift {A} (r : res A) : quiet (lift_res r).
Proof. apply quiet_pure. by eexists. Qed.
Lemma quiet_st_gets {A} (f : list E -> A) : quiet (gets_st f).
Proof. apply quiet_pure. by eexists. Qed.

Lemma quiet_append l : marks l = [] -> quiet (modify_st (fun h => h ++ l)).
Proof. intros Hl h r h' [= <- <-]. by exists l. Qed.

(** A quiet computation after a quiet beginning. *)
Lemma quiet_then {B} h (ev : list E) (c : stres (list E) B) r h' :
  marks ev = [] -> quiet c -> c (h ++ ev) = (r, h') -> exists ev', h' = h ++ ev' /\ marks ev' = [].
Proof.
  intros H1 Hc Eq. apply Hc in Eq as (ev' & -> & H2). exists (ev ++ ev').
  rewrite app_assoc. split; [done|]. unfold silent in H2. by rewrite marks_app, H1, H2.
Qed.

Lemma marking_bind {A B} (P : res A -> list M -> Prop) (R : res B -> list M -> Prop)
    (c : stres (list E) A) (k : A -> stres (list E) B) :
  marking P c ->
  (forall e ms, P (Raise e) ms -> R (Raise e) ms) ->
  (forall a ms, P (Ok a) ms -> marking (fun r ms' => R r (ms ++ ms')) (k a)) ->
  marking R (c ≫= k).
Proof.
  intros Hc Hr Hk h r h' Eq. unfold mbind, stres_bind in Eq. destruct (c h) as [[a|e] h1] eqn:Ec.
  - apply Hc in Ec as (ev1 & -> & H1). apply (Hk a _ H1) in Eq as (ev2 & -> & H2).
    exists (ev1 ++ ev2). by rewrite app_assoc, marks_app.
  - injection Eq as <- <-. apply Hc in Ec as (ev & -> & H1). exists ev. eauto.
Qed.

Lemma quiet_st_bind {A B} (c : stres (list E) A) (f : A -> stres (list E) B) :
  quiet c -> (forall a, quiet (f a)) -> quiet (c ≫= f).
Proof.
  intros Hc Hf. apply (marking_bind (fun _ ms => ms = []) (fun _ ms => ms = [])); [exact Hc|done|].
  intros a ms ->. apply Hf.
Qed.

Lemma marking_weaken {A} (P R : res A -> list M -> Prop) (c : stres (list E) A) :
  marking P c -> (forall r ms, P r ms -> R r ms) -> marking R c.
Proof. intros Hc Hw h r h' Eq. apply Hc in Eq as (ev & -> & HP). eauto. Qed.

Lemma marking_quiet {A} (c : stres (list E) A) : quiet c -> marking (fun _ ms => ms = []) c.
Proof. done. Qed.

Lemma marking_append l : marking (fun r ms => r = Ok tt /\ ms = marks l) (modify_st (fun h => h ++ l)).
Proof. intros h r h' [= <- <-]. by exists l. Qed.
Lemma marking_ret {A} (P : res A -> list M -> Prop) a : P (Ok a) [] -> marking P (mret a).
Proof. intros HP h r h' [= <- <-]. exists []. by rewrite app_nil_r. Qed.
Lemma marking_raise {A} (P : res A -> list M -> Prop) e : P (Raise e) [] -> marking P (raise_st e).
Proof. intros HP h r h' [= <- <-]. exists []. by rewrite app_nil_r. Qed.
Lemma marking_lift {A} (r : res A) : marking (fun r' ms => r' = r /\ ms = []) (lift_res r).
Proof. intros h r' h' [= <- <-]. exists []. by rewrite app_nil_r. Qed.
End traces.

Notation quiet p c := (adds (silent p) c).

Create HintDb quiet.
#[export] Hint Resolve quiet_st_ret quiet_raise quiet_lift quiet_st_gets : quiet.
