(* ===== verification/Scheduling.v ===== *)
(** The scheduling and retry helpers of the workflow orchestrator
    (services/workflow/scheduling.py, retry_policy.py, retry_execution.py,
    step_lifecycle.py over models/playbook_models/): dependency graphs,
    conditions, the selection of ready steps, the retry loop and gates. *)
From S2P Require Import Prelude PyDict PyStr PyVal.

(** * Models (models/playbook_models/) *)

Inductive PlaybookKind : Type := USER_WORKFLOW | SYSTEM_TOOL.
#[export] Instance PlaybookKind_eq_dec : EqDecision PlaybookKind.
Proof. solve_decision. Defined.

Inductive ErrorHandlingStrategy : Type :=
| STOP_WORKFLOW | CONTINUE_ON_ERROR | SKIP_STEP | RETRY_THEN_STOP | RETRY_THEN_CONTINUE.

(** A duration in seconds: a binary64 number, which a power of two scales
    exactly, as long as the power and the product are in the range of binary64:
    [2 ** k] is an int, which the multiplication cannot convert from [k = 1024]
    on. *)
Definition seconds : Type := flval.
Definition scale (k : Z) (d : seconds) : seconds :=
  match d with FFin m e => FFin m (e + k) | d => d end.

Record RetryPolicy : Type := mkPolicy {
  max_retries : Z;
  retry_delay : seconds;
  exponential_backoff : bool;
  retryable_errors : list string;
}.

Record WorkflowStep : Type := mkWorkflowStep {
  playbook_code : string;
  kind : PlaybookKind;
  ws_inputs : dict pyval;
  input_mapping : dict string;
  ws_condition : option string;
  retry_policy : option RetryPolicy;
  error_handling : ErrorHandlingStrategy;
}.

Record GateSpec : Type := mkGate {
  required : bool;
  gate_type : string;
  operation : option string;
  checkpoint_required : option bool;
  decision_payload_schema : option (dict pyval);
}.

(** [gate.model_dump()] *)
Definition gate_model_dump (g : GateSpec) : pyval :=
  PDict [("required", PBool (required g)); ("type", PStr (gate_type g));
         ("operation", py_opt (operation g));
         ("checkpoint_required", match checkpoint_required g with
                                 | Some b => PBool b | None => PNone end);
         ("decision_payload_schema", match decision_payload_schema g with
                                     | Some d => PDict d | None => PNone end)].

Record HookSpec : Type := mkHook { hook_tool_slot : string; inputs_map : dict pyval }.
Record StepHooks : Type := mkHooks {
  pre_step : option HookSpec;
  post_step : option HookSpec;
  on_error : option HookSpec;
}.

Record PlaybookStep : Type := mkStep {
  step_id : string;
  tool_slot : option string;
  playbook_slot : option string;
  step_inputs : dict pyval;
  step_output_defs : dict string;
  depends_on : list string;
  condition : option string;
  for_each : option string;
  gate : option GateSpec;
  hooks : option StepHooks;
}.

(** The text of an optional string, as [bool(s)] reads it. *)
Definition given (o : option string) : option string :=
  match o with Some s => if bool_decide (s = "") then None else Some s | None => None end.

(** * Text and exceptions *)

Definition ends_with (p s : string) : bool :=
  let n := String.length s in let k := String.length p in
  (k <=? n)%nat && bool_decide (String.substring (n - k) k s = p).

(** [p in s] *)
Fixpoint contains (p s : string) : bool :=
  starts_with p s || match s with EmptyString => false | String _ r => contains p r end.

(** [str(exc)] *)
Definition exn_str (e : exn) : string :=
  match e with
  | TypeError m | ValueError m | OverflowError m | AttributeError m | InvalidTransition m
  | CanonicalPayloadError m | ReplayCompatibilityError m | DurableWorkflowConflict m
  | IncompatibleHistory m | ResourceBlockResumeError m _ | OtherError _ m => m
  | KeyError k => repr_str k
  | AssertionError => ""
  end.

(** * Dependencies and conditions (scheduling.py) *)

Definition _is_error_status (value : pyval) : bool :=
  bool_decide (lower (strip (py_str (py_or value (PStr "")))) ∈ ["error"; "failed"]).

(** The step a value refers to, [$previous.<step>...]. *)
Definition previous_ref (value : pyval) : option string :=
  match value with
  | PStr s =>
      if starts_with "$previous." s
      then match split "." s with _ :: p :: _ => Some p | _ => None end
      else None
  | _ => None
  end.

Definition refs_of (codes : list string) (values : list pyval) : list string :=
  omap (fun v => match previous_ref v with
                 | Some p => if bool_decide (p ∈ codes) then Some p else None
                 | None => None
                 end) values.

Definition step_dependencies (codes : list string) (step : WorkflowStep) : gset string :=
  list_to_set (refs_of codes (dvalues (ws_inputs step)))
  ∪ list_to_set (refs_of codes (map PStr (dvalues (input_mapping step)))).

Definition build_dependency_graph (steps : list WorkflowStep) : dict (gset string) :=
  let codes := map playbook_code steps in
  fold_left (fun graph step => dset (playbook_code step) (step_dependencies codes step) graph)
    steps [].

Fixpoint nested_parts (value : pyval) (parts : list string) : pyval :=
  match parts with
  | [] => value
  | part :: r =>
      match value with
      | PDict d => match pget part d with PNone => PNone | v => nested_parts v r end
      | _ => PNone
      end
  end.

Definition get_nested_value (obj : pyval) (path : string) : pyval :=
  nested_parts obj (split "." path).

Definition results_value (results : dict (dict pyval)) : pyval :=
  PDict (map (fun kv => (kv.1, PDict kv.2)) results).

Definition status_is (status : string) (result : dict pyval) : bool :=
  py_eq (pget "status" result) (PStr status).

(** Python's [eval] of a template expression over the inputs and the step
    outputs, once [input.x] and [step.x.y] have been rewritten, and of a bare
    expression over the results; both with the truth of the value. *)
Class PyEval : Type := {
  eval_template : string -> dict pyval -> dict pyval -> res bool;
  eval_expression : string -> dict (dict pyval) -> res bool;
}.

(** [condition[2:-2]] *)
Definition inner_expression (c : string) : string :=
  strip (String.substring 2 (String.length c - 4) c).

Definition is_template (c : string) : bool := starts_with "{{" c && ends_with "}}" c.

Section conditions.
Context `{PyEval}.

(** What cannot be evaluated counts as true. *)
Definition or_true (r : res bool) : bool := match r with Ok b => b | Raise _ => true end.

Definition evaluate_condition (step_condition : option string) (results : dict (dict pyval))
    (playbook_inputs step_outputs : dict pyval) : bool :=
  match given step_condition with
  | None => true
  | Some raw =>
      let c := strip raw in
      if is_template c then or_true (eval_template (inner_expression c) playbook_inputs step_outputs)
      else
        match starts_with "$previous." c, split "." c with
        | true, _ :: code :: (_ :: _) as parts =>
            let prev_result := default [] (dget code results) in
            if negb (status_is "completed" prev_result) then false
            else truthy (get_nested_value (PDict prev_result) (join "." (drop 2 parts)))
        | true, _ => or_true (eval_expression c results)
        | false, _ =>
            if starts_with "$context." c
            then truthy (get_nested_value (results_value results) (replace "$context." "" c))
            else or_true (eval_expression c results)
        end
  end.

(** ** Ready steps *)

(** What the parallel scheduler keeps and mutates. *)
Record plan_state : Type := mkPlan {
  pending : dict WorkflowStep;
  completed : gset string;
  results : dict (dict pyval);
}.

Definition skipped_result : dict pyval :=
  [("status", PStr "skipped"); ("reason", PStr "condition_not_met")].

Definition dependencies_met (deps : gset string) (s : plan_state) : bool :=
  forallb (fun d => bool_decide (d ∈ completed s)
                    && status_is "completed" (default [] (dget d (results s)))) (elements deps).

Definition skip_pending (code : string) (s : plan_state) : plan_state :=
  mkPlan (ddel code (pending s)) ({[ code ]} ∪ completed s) (dset code skipped_result (results s)).

Definition ready_pending (graph : dict (gset string)) (playbook_inputs : dict pyval)
    (acc : list WorkflowStep * plan_state) (item : string * WorkflowStep)
    : list WorkflowStep * plan_state :=
  let '(ready, s) := acc in let '(code, step) := item in
  if bool_decide (code ∈ completed s) then (ready, s) else
  let deps := default ∅ (dget code graph) in
  let holds := evaluate_condition (ws_condition step) (results s) playbook_inputs [] in
  if bool_decide (deps = ∅) then (if holds then (ready ++ [step], s) else (ready, s))
  else if dependencies_met deps s
       then if holds then (ready ++ [step], s) else (ready, skip_pending code s)
       else (ready, s).

Definition get_ready_steps_for_parallel (graph : dict (gset string)) (playbook_inputs : dict pyval)
    (s : plan_state) : list WorkflowStep * plan_state :=
  fold_left (ready_pending graph playbook_inputs) (pending s) ([], s).

(** The serial scheduler: the completed steps and the outputs it mutates. *)
Definition completed_results (done : gset string) (step_outputs : dict pyval)
    : dict (dict pyval) :=
  map (fun i => (i, [("status", PStr "completed");
                     ("outputs", default (PDict []) (dget i step_outputs))])) (elements done).

Definition met (step : PlaybookStep) (done : gset string) : bool :=
  forallb (fun d => bool_decide (d ∈ done)) (depends_on step).

Definition condition_holds (step : PlaybookStep) (done : gset string)
    (playbook_inputs step_outputs : dict pyval) : bool :=
  match given (condition step) with
  | None => true
  | Some _ => evaluate_condition (condition step) (completed_results done step_outputs)
                playbook_inputs step_outputs
  end.

(** The ready steps, those skipped (which are logged), and the two mutated. *)
Record pass : Type := mkPass {
  ps_ready : list PlaybookStep;
  ps_skips : list string;
  ps_done : gset string;
  ps_outputs : dict pyval;
}.

Definition ready_step (playbook_inputs : dict pyval) (p : pass) (step : PlaybookStep) : pass :=
  if bool_decide (step_id step ∈ ps_done p) then p
  else if met step (ps_done p)
       then if condition_holds step (ps_done p) playbook_inputs (ps_outputs p)
            then mkPass (ps_ready p ++ [step]) (ps_skips p) (ps_done p) (ps_outputs p)
            else mkPass (ps_ready p) (ps_skips p ++ [step_id step]) ({[ step_id step ]} ∪ ps_done p)
                   (dset (step_id step) (PDict skipped_result) (ps_outputs p))
       else p.

Definition get_ready_steps (steps : list PlaybookStep) (completed_steps : gset string)
    (playbook_inputs step_outputs : dict pyval) : pass :=
  fold_left (ready_step playbook_inputs) steps (mkPass [] [] completed_steps step_outputs).

End conditions.

(** ** Results of a workflow step *)

Definition build_previous_results (results : dict (dict pyval)) : dict pyval :=
  omap (fun kv => if truthy (pget "outputs" kv.2) then Some (kv.1, pget "outputs" kv.2) else None)
    results.

(** An exception that [gather] caught becomes an error result. *)
Definition normalize_parallel_step_result (step_result : res (dict pyval)) : dict pyval :=
  match step_result with
  | Raise e => [("status", PStr "error"); ("error", PStr (exn_str e));
                ("error_type", PStr "exception")]
  | Ok r => r
  end.

Definition build_paused_workflow_result (code : string) (results : dict (dict pyval))
    (workflow_context step_result : dict pyval) : dict pyval :=
  [("status", PStr "paused"); ("steps", results_value results);
   ("context", PDict workflow_context); ("checkpoint", pget "checkpoint" step_result);
   ("paused_step", PStr code);
   ("pause_reason", pget_or "pause_reason" (PStr "waiting_gate") step_result)].

(** The outputs of a playbook are a dictionary; [update] raises on another
    value. *)
Definition apply_step_result_to_context (workflow_context step_result : dict pyval)
    : res (dict pyval) :=
  if status_is "completed" step_result && truthy (pget "outputs" step_result)
  then match pget "outputs" step_result with
       | PDict outputs => Ok (dupdate workflow_context outputs)
       | _ => Raise (TypeError "cannot convert dictionary update sequence")
       end
  else Ok workflow_context.

Definition should_stop_workflow_after_error (step : WorkflowStep) (step_result : dict pyval) : bool :=
  if negb (_is_error_status (pget "status" step_result)) then false
  else match error_handling step with
       | STOP_WORKFLOW => true
       | CONTINUE_ON_ERROR | SKIP_STEP => false
       | RETRY_THEN_STOP => truthy (pget "retries_exhausted" step_result)
       | RETRY_THEN_CONTINUE => false
       end.

(** * Retries (retry_policy.py, retry_execution.py) *)

Definition default_retry_policy (k : PlaybookKind) : RetryPolicy :=
  match k with
  | SYSTEM_TOOL => mkPolicy 3 (FFin 1 0) true []
  | USER_WORKFLOW => mkPolicy 1 (FFin 2 0) false []
  end.

Definition calculate_retry_delay (attempt : Z) (p : RetryPolicy) : seconds :=
  if exponential_backoff p then scale (attempt - 1) (retry_delay p)
  else retry_delay p.

Definition classify_text (error : string) : string :=
  let e := lower error in
  if contains "timeout" e || contains "timed out" e then "timeout"
  else if contains "network" e || contains "connection" e then "network"
  else if contains "rate limit" e || contains "quota" e then "rate_limit"
  else if contains "not found" e || contains "missing" e then "not_found"
  else if contains "permission" e || contains "unauthorized" e then "permission"
  else if contains "validation" e || contains "invalid" e then "validation"
  else "unknown".

(** The name of the type of a value. *)
Definition type_name (v : pyval) : string :=
  match v with
  | PNone => "NoneType" | PBool _ => "bool" | PInt _ => "int" | PFloat _ => "float"
  | PStr _ => "str" | PList _ => "list" | PDict _ => "dict"
  end.

(** Only text has [lower]. *)
Definition classify_error (error : pyval) : res string :=
  match error with
  | PStr s => Ok (classify_text s)
  | v => Raise (AttributeError (repr_str (type_name v) +:+ " object has no attribute 'lower'"))
  end.

Definition retryable (p : RetryPolicy) (error_type : string) : bool :=
  bool_decide (retryable_errors p = []) || bool_decide (error_type ∈ retryable_errors p).

Section retry.
Context {W : Type} (execute_workflow_step_fn : stres W (dict pyval)) (sleep_fn : seconds -> stres W unit)
        (policy : RetryPolicy).

Inductive attempt_outcome : Type :=
| Return (result : dict pyval)
| Again (last_error : pyval).

(** The body of the [try], and its [except]. *)
Definition try_attempt (attempt : Z) : stres W attempt_outcome :=
  _ ← (if 0 <? attempt then sleep_fn (calculate_retry_delay attempt policy) else mret tt);
  result ← execute_workflow_step_fn;
  if status_is "completed" result then mret (Return result) else
  let last_error := pget_or "error" (PStr "Unknown error") result in
  error_type ← lift_res (classify_error last_error);
  mret (if retryable policy error_type then Again last_error else Return result).

Definition failed_attempt (attempt : Z) (e : exn) : attempt_outcome :=
  let last_error := exn_str e in
  let error_type := classify_text last_error in
  let result exhausted :=
    [("status", PStr "error"); ("error", PStr last_error); ("error_type", PStr error_type);
     ("attempts", PInt (attempt + 1)); ("retries_exhausted", PBool exhausted)] in
  if negb (retryable policy error_type) then Return (result false)
  else if attempt <? max_retries policy then Again (PStr last_error)
  else Return (result true).

Definition run_attempt (attempt : Z) : stres W attempt_outcome := fun s =>
  match try_attempt attempt s with
  | (Raise e, s') => (Ok (failed_attempt attempt e), s')
  | r => r
  end.

Fixpoint attempts_loop (remaining : nat) (attempt : Z) (last_error : pyval)
    : stres W (dict pyval) :=
  match remaining with
  | O => mret [("status", PStr "error"); ("error", py_or last_error (PStr "Unknown error"));
               ("attempts", PInt (max_retries policy + 1)); ("retries_exhausted", PBool true)]
  | S n =>
      o ← run_attempt attempt;
      match o with
      | Return result => mret result
      | Again last_error => attempts_loop n (attempt + 1) last_error
      end
  end.
End retry.

(** [range(max_retries + 1)] *)
Definition execute_step_with_retry {W} (step : WorkflowStep)
    (execute_workflow_step_fn : stres W (dict pyval)) (sleep_fn : seconds -> stres W unit)
    : stres W (dict pyval) :=
  let policy := default (default_retry_policy (kind step)) (retry_policy step) in
  attempts_loop execute_workflow_step_fn sleep_fn policy (Z.to_nat (max_retries policy + 1)) 0 PNone.

(** * Gates (step_lifecycle.py) *)

Definition resolve_gate_action (playbook_inputs : dict pyval) (id : string) : pyval :=
  let decisions := dict_or_empty (pget "gate_decisions" playbook_inputs) in
  match pget id decisions with
  | PDict decision => pget "action" decision
  | decision => decision
  end.

Definition build_gate_pause_result (id : string) (g : GateSpec) (execution_id : option string)
    (code : string) (sandbox_id : option string) (done : gset string)
    (step_outputs partial_outputs : dict pyval) (created_at : string) : dict pyval :=
  let checkpoint :=
    [("execution_id", py_opt execution_id); ("playbook_code", PStr code);
     ("sandbox_id", py_opt sandbox_id); ("paused_step_id", PStr id);
     ("gate", gate_model_dump g); ("completed_steps", PList (map PStr (elements done)));
     ("step_outputs", PDict step_outputs); ("created_at", PStr created_at)] in
  [("status", PStr "paused"); ("pause_reason", PStr "waiting_gate"); ("paused_step_id", PStr id);
   ("gate", gate_model_dump g); ("step_outputs", PDict step_outputs);
   ("outputs", PDict partial_outputs); ("checkpoint", PDict checkpoint)]
  ++ match given sandbox_id with Some i => [("sandbox_id", PStr i)] | None => [] end.
