(* ===== verification/PlaybookRun.v ===== *)
(** The execution of one playbook (services/workflow/playbook_execution.py,
    playbook_runtime.py, step_dispatch.py, result_mapper.py,
    workflow_step_loop.py): the loop over ready steps with hooks, gates and
    checkpoints, loops over arrays, and nested playbooks. *)
From S2P Require Import Prelude PyDict PyStr PyVal Scheduling.

Record PlaybookJson : Type := mkPlaybook {
  pb_code : string;
  pb_steps : list PlaybookStep;
  pb_inputs : list string;            (** the names of the declared inputs *)
  pb_outputs : dict string;           (** name and source *)
  pb_execution_profile : option (dict pyval);
}.

(** [execution_id], [workspace_id], [profile_id] and [project_id]. *)
Record run_ids : Type := mkIds {
  execution_id : option string;
  workspace_id : option string;
  profile_id : option string;
  project_id : option string;
}.

(** What a run leaves behind, with the nesting depth of the playbook: the
    timeline events of the steps, the hooks and tools called, and the log lines
    for a step that is done or skipped. *)
Inductive event : Type :=
| EvStep (depth : nat) (id : string) (index : Z) (status : string) (error : option string)
| EvHook (depth : nat) (name : string)
| EvBegin (depth : nat) (id : string)
| EvTool (depth : nat) (id tool_id : string) (inputs : dict pyval)
| EvDone (depth : nat) (id : string)
| EvSkip (depth : nat) (id : string).

Definition history : Type := list event.
Definition emit (e : event) : stres history unit := modify_st (fun h => h ++ [e]).

(** What a run calls and this library does not model: the template engine, the
    resolution of tool slots, the tools and the hooks, and the playbook files.
    Each may answer from the whole history. *)
Class Runtime : Type := {
  slot_runtime_enabled : bool;
  recording : bool;                   (** whether there is a store of events *)
  prepare_playbook_inputs :
    PlaybookStep -> dict pyval -> dict pyval -> dict pyval -> res (dict pyval);
  resolve_tool_slot : history -> PlaybookStep -> dict pyval -> res string;
  call_tool : history -> PlaybookStep -> string -> dict pyval -> dict pyval -> res pyval;
  invoke_step_hook : history -> string -> HookSpec -> dict pyval -> dict pyval ->
                     option string -> res unit;
  load_playbook_json : string -> option PlaybookJson;
  now_text : history -> string;       (** [_utc_now().isoformat()] *)
}.

(** * Checkpoints (playbook_runtime.py) *)

Definition resolve_resume_checkpoint (playbook_inputs : dict pyval) (exec_id : option string)
    (code : string) : option (dict pyval) :=
  match pget "_workflow_checkpoint" playbook_inputs with
  | PDict candidate =>
      if py_eq (pget "execution_id" candidate) (py_opt exec_id)
         && py_eq (pget "playbook_code" candidate) (PStr code)
      then Some candidate else None
  | _ => None
  end.

Definition texts (v : pyval) : list string :=
  match v with
  | PList l => omap (fun x => match x with PStr s => Some s | _ => None end) l
  | _ => []
  end.

Definition restore_checkpoint_state (playbook_inputs : dict pyval)
    (resume_checkpoint : option (dict pyval)) : dict pyval * gset string :=
  match resume_checkpoint with
  | None => ([], ∅)
  | Some cp =>
      let step_outputs := dict_or_empty (pget "step_outputs" cp) in
      let done := list_to_set (texts (pget "completed_steps" cp)) in
      (step_outputs,
       match pget "paused_step_id" cp with
       | PStr id =>
           if negb (bool_decide (id = ""))
              && py_eq (resolve_gate_action playbook_inputs id) (PStr "approved")
           then {[ id ]} ∪ done else done
       | _ => done
       end)
  end.

(** * Outputs (result_mapper.py) *)

(** [step_outputs[step_id].get(key)] *)
Definition get_attr (v : pyval) (key : string) : res pyval :=
  match v with
  | PDict d => Ok (pget key d)
  | v => Raise (AttributeError (repr_str (type_name v) +:+ " object has no attribute 'get'"))
  end.

Fixpoint collect_final_outputs (output_defs : dict string) (step_outputs : dict pyval)
    : res (dict pyval) :=
  match output_defs with
  | [] => Ok []
  | (name, source) :: r =>
      let parts := split "." source in
      this ← match parts with
             | p :: id :: (_ :: _) =>
                 if bool_decide (p = "step")
                 then match dget id step_outputs with
                      | Some v => x ← get_attr v (join "." (drop 2 parts)); Ok [(name, x)]
                      | None => Ok []
                      end
                 else Ok []
             | _ => Ok []
             end;
      rest ← collect_final_outputs r step_outputs;
      Ok (this ++ rest)
  end.

Definition map_sub_playbook_result_to_step_outputs (output_defs : dict string)
    (sub_result : dict pyval) : dict pyval :=
  map (fun kv => (kv.1, pget kv.2 sub_result)) output_defs.

Definition tool_field_value (tool_result : dict pyval) (tool_field : string) : pyval :=
  if bool_decide (tool_field = "") then PDict tool_result
  else nested_parts (PDict tool_result) (split "." tool_field).

Fixpoint map_tool_result_to_step_outputs (id : string) (output_defs : dict string)
    (tool_result : pyval) : res (dict pyval) :=
  match output_defs with
  | [] => Ok []
  | (name, field) :: r =>
      value ← match tool_result with
              | PDict d =>
                  match tool_field_value d field with
                  | PNone => Raise (ValueError ("Step " +:+ id +:+ " required output '" +:+ name
                               +:+ "' (field='" +:+ field +:+ "') not found in tool result"))
                  | v => Ok v
                  end
              | v => Ok v
              end;
      rest ← map_tool_result_to_step_outputs id r tool_result;
      Ok ((name, value) :: rest)
  end.

Definition build_completed_result (step_outputs final_outputs : dict pyval)
    (sandbox_id : option string) : dict pyval :=
  [("status", PStr "completed"); ("step_outputs", PDict step_outputs);
   ("outputs", PDict final_outputs)]
  ++ match given sandbox_id with Some i => [("sandbox_id", PStr i)] | None => [] end.

(** * Arrays (workflow_step_loop.py) *)

(** [str.isdigit], which also takes the superscripts. *)
Definition isdigit (s : string) : bool :=
  negb (bool_decide (s = ""))
  && str_forall (fun c => is_digit c || bool_decide (code c ∈ [178; 179; 185]%N)) s.

Fixpoint nested_fields (value : pyval) (parts : list string) : res pyval :=
  match parts with
  | [] => Ok value
  | part :: r =>
      match value with
      | PDict d => match pget part d with PNone => Ok PNone | v => nested_fields v r end
      | PList l =>
          if isdigit part
          then match parse_int part with
               | None => Raise (ValueError "invalid literal for int() with base 10")
               | Some i =>
                   match nth_error l (Z.to_nat i) with
                   | Some PNone => Ok PNone
                   | Some v => nested_fields v r
                   | None => Raise (OtherError "IndexError" "list index out of range")
                   end
               end
          else Ok PNone
      | _ => Ok PNone
      end
  end.

Definition resolve_array_path (array_path : string) (playbook_inputs step_outputs : dict pyval)
    : res (list pyval) :=
  match split "." array_path with
  | kind :: name :: fields =>
      if bool_decide (kind = "step")
      then
        let step_result := default (PDict []) (dget name step_outputs) in
        value ← match fields with
                | [] => Ok step_result
                | [""] => Ok step_result
                | _ => nested_fields step_result fields
                end;
        match value with
        | PList l => Ok l
        | v => Raise (ValueError ("Path '" +:+ array_path +:+ "' must resolve to a list, got "
                                  +:+ "<class '" +:+ type_name v +:+ "'>"))
        end
      else if bool_decide (kind = "input")
      then match pget name playbook_inputs with
           | PList l => Ok l
           | v => Raise (ValueError ("Input '" +:+ name +:+ "' must be a list, got "
                                     +:+ "<class '" +:+ type_name v +:+ "'>"))
           end
      else Raise (ValueError ("Unsupported array path type: " +:+ kind))
  | _ => Raise (ValueError ("Invalid array path: " +:+ array_path))
  end.

(** [str(exc)[:500]] *)
Definition short_error (e : exn) : string := take_str 500 (exn_str e).

Definition failed_iteration (index : Z) (e : exn) : dict pyval :=
  [("success", PBool false); ("error", PStr (short_error e)); ("index", PInt index)].

Definition loop_context (item : pyval) (index total : Z) : pyval :=
  PDict [("item", item); ("index", PInt index); ("total", PInt total)].

Fixpoint loop_items (execute : dict pyval -> stres history (dict pyval)) (step_outputs : dict pyval)
    (total index : Z) (items : list pyval) : stres history (list (dict pyval)) :=
  match items with
  | [] => mret []
  | item :: r => fun h =>
      match execute (dset "_loop" (loop_context item index total) step_outputs) h with
      | (item_result, h') =>
          let result := match item_result with Ok x => x | Raise e => failed_iteration index e end in
          (rest ← loop_items execute step_outputs total (index + 1) r; mret (result :: rest)) h'
      end
  end.

Definition succeeded (r : dict pyval) : bool := truthy (pget_or "success" (PBool true) r).

Definition execute_step_with_loop (execute : dict pyval -> stres history (dict pyval))
    (path : string) (playbook_inputs step_outputs : dict pyval) : stres history (dict pyval) :=
  array_value ← lift_res (resolve_array_path path playbook_inputs step_outputs);
  match array_value with
  | [] => mret [("results", PList []); ("count", PInt 0)]
  | _ =>
      loop_results ← loop_items execute step_outputs (Z.of_nat (length array_value)) 0 array_value;
      mret [("results", PList (map PDict loop_results));
            ("count", PInt (Z.of_nat (length loop_results)));
            ("success_count", PInt (Z.of_nat (length (List.filter succeeded loop_results))))]
  end.

(** * Sandboxes (sandbox_admission.py, playbook_runtime.py) *)

Record ExecutionSandboxAdmission : Type := mkSandboxAdmission {
  sandbox_required : bool;
  sandbox_reason : string;
}.

Definition resolve_execution_sandbox_admission (pb : PlaybookJson) : res ExecutionSandboxAdmission :=
  let execution_profile := default [] (pb_execution_profile pb) in
  let resource_requirements := dict_or_empty (pget "resource_requirements" execution_profile) in
  let resource_class :=
    lower (strip (py_str (py_or (pget "resource_class" execution_profile) (PStr "")))) in
  reserves_browser_context ←
    (c ← try_except (py_int (py_or (pget "browser_contexts" resource_requirements) (PInt 0)))
           is_type_or_value_error (Ok 0);
     Ok (0 <? c));
  Ok (if bool_decide (resource_class = "browser") && reserves_browser_context
         && negb (bool_decide ("project_id" ∈ pb_inputs pb))
      then mkSandboxAdmission false "dedicated_browser_context_without_project_contract"
      else mkSandboxAdmission true "default_repository_sandbox_contract").

(** Projects and sandboxes are other services; each call may fail. *)
Class Sandboxes : Type := {
  get_project : history -> string -> string -> res bool;
  get_or_create_project_sandbox : history -> string -> string -> res (option string);
  create_execution_sandbox : history -> string -> option string -> string -> res (option string);
}.

Definition or_none {A} (r : res (option A)) : option A :=
  match r with Ok o => o | Raise _ => None end.

Definition ensure_execution_sandbox `{Sandboxes} (h : history) (pb : PlaybookJson) (ids : run_ids)
    (resume_checkpoint : option (dict pyval)) : res (option string) :=
  let sandbox_id :=
    match resume_checkpoint with
    | Some cp => match pget "sandbox_id" cp with PStr s => given (Some s) | _ => None end
    | None => None
    end in
  admission ← resolve_execution_sandbox_admission pb;
  Ok (if negb (sandbox_required admission) then sandbox_id else
  match given (workspace_id ids) with
  | None => sandbox_id
  | Some w =>
      let sandbox_id :=
        match given (project_id ids), given sandbox_id with
        | Some p, None =>
            match get_project h p w with
            | Ok true => or_none (get_or_create_project_sandbox h p w)
            | _ => sandbox_id
            end
        | _, _ => sandbox_id
        end in
      match given sandbox_id with
      | Some _ => sandbox_id
      | None => match create_execution_sandbox h w (execution_id ids) (pb_code pb) with
                | Ok o => o
                | Raise _ => sandbox_id
                end
      end
  end).

(** * One step (playbook_execution.py, step_dispatch.py) *)

Section run.
Context `{PyEval} `{Runtime}.

Definition answer {A} (f : history -> res A) : stres history A := fun h => (f h, h).

Definition on_raise {A} (c : stres history A) (handler : exn -> stres history unit)
    : stres history A := fun h =>
  match c h with
  | (Raise e, h') => (_ ← handler e; raise_st e) h'
  | r => r
  end.

Definition _create_step_event (depth : nat) (ids : run_ids) (id : string) (index : Z)
    (status : string) (error : option string) : stres history unit :=
  match given (execution_id ids), given (workspace_id ids) with
  | Some _, Some _ => if recording then emit (EvStep depth id index status error) else mret tt
  | _, _ => mret tt
  end.

Definition maybe_invoke_step_hook (depth : nat) (id phase : string) (hook : option HookSpec)
    (playbook_inputs step_outputs : dict pyval) (error : option string) (strict : bool)
    : stres history unit :=
  match hook with
  | None => mret tt
  | Some spec =>
      let name := phase +:+ ":" +:+ id in
      _ ← emit (EvHook depth name);
      r ← gets_st (fun h => invoke_step_hook h name spec playbook_inputs step_outputs error);
      match r with
      | Ok _ => mret tt
      | Raise e =>
          if strict
          then raise_st (ValueError (phase +:+ " hook failed for step '" +:+ id +:+ "': " +:+ exn_str e))
          else mret tt
      end
  end.

Definition set_given (key : string) (o : option string) (d : dict pyval) : dict pyval :=
  match given o with Some s => dset key (PStr s) d | None => d end.

(** The nested run, which is missing at the last level. *)
Definition nested : Type := option (PlaybookJson -> dict pyval -> stres history (dict pyval)).

Definition execute_playbook_slot (sub : nested) (step : PlaybookStep) (slot : string)
    (resolved_inputs : dict pyval) : stres history (dict pyval) :=
  if negb slot_runtime_enabled
  then raise_st (ValueError ("Step '" +:+ step_id step +:+ "' uses playbook_slot '" +:+ slot
         +:+ "' but runtime dispatch is not enabled. Set ENABLE_PLAYBOOK_SLOT_RUNTIME=true to enable."))
  else
  match sub with
  | None => raise_st (ValueError ("playbook_slot nesting depth exceeded max=3 at step '"
                        +:+ step_id step +:+ "' -> '" +:+ slot +:+ "'"))
  | Some run =>
      match load_playbook_json slot with
      | None => raise_st (ValueError ("Sub-playbook '" +:+ slot +:+ "' not found for playbook_slot step '"
                            +:+ step_id step +:+ "'"))
      | Some pb =>
          sub_result ← run pb resolved_inputs;
          mret (map_sub_playbook_result_to_step_outputs (step_output_defs step) sub_result)
      end
  end.

(** The part of [_execute_single_step] after the array. *)
Definition execute_bound_step (sub : nested) (depth : nat) (ids : run_ids) (step : PlaybookStep)
    (playbook_inputs step_outputs : dict pyval) (index : Z) : stres history (dict pyval) :=
  let inputs_with_context :=
    set_given "execution_id" (execution_id ids)
      (set_given "workspace_id" (workspace_id ids) playbook_inputs) in
  let workflow_context :=
    set_given "profile_id" (profile_id ids)
      (set_given "execution_id" (execution_id ids)
         (set_given "workspace_id" (workspace_id ids) [])) in
  resolved_inputs ← lift_res (prepare_playbook_inputs step inputs_with_context step_outputs
                                workflow_context);
  match given (tool_slot step), given (playbook_slot step) with
  | Some _, _ =>
      tool_id ← answer (fun h => resolve_tool_slot h step playbook_inputs);
      _ ← emit (EvTool depth (step_id step) tool_id resolved_inputs);
      tool_result ← answer (fun h => call_tool h step tool_id resolved_inputs playbook_inputs);
      step_output ← lift_res (map_tool_result_to_step_outputs (step_id step)
                                (step_output_defs step) tool_result);
      _ ← _create_step_event depth ids (step_id step) index "completed" None;
      mret step_output
  | None, Some slot => execute_playbook_slot sub step slot resolved_inputs
  | None, None =>
      raise_st (ValueError "PlaybookStep must have 'tool', 'tool_slot', or 'playbook_slot'")
  end.

(** [body] between its timeline events. *)
Definition observed (depth : nat) (ids : run_ids) (step : PlaybookStep) (index : Z)
    (body : stres history (dict pyval)) : stres history (dict pyval) :=
  _ ← _create_step_event depth ids (step_id step) index "running" None;
  on_raise body (fun e =>
    _create_step_event depth ids (step_id step) index "failed" (Some (exn_str e))).

Definition execute_single_step_iteration (sub : nested) (depth : nat) (ids : run_ids)
    (step : PlaybookStep) (playbook_inputs : dict pyval) (index : Z) (step_outputs : dict pyval)
    : stres history (dict pyval) :=
  observed depth ids step index
    (execute_bound_step sub depth ids step playbook_inputs step_outputs index).

Definition execute_single_step (sub : nested) (depth : nat) (ids : run_ids) (step : PlaybookStep)
    (playbook_inputs step_outputs : dict pyval) (index : Z) : stres history (dict pyval) :=
  observed depth ids step index
    (match given (for_each step) with
     | Some path =>
         execute_step_with_loop
           (execute_single_step_iteration sub depth ids step playbook_inputs index)
           path playbook_inputs step_outputs
     | None => execute_bound_step sub depth ids step playbook_inputs step_outputs index
     end).

(** * The playbook *)

Definition hook_of (f : StepHooks -> option HookSpec) (step : PlaybookStep) : option HookSpec :=
  match hooks step with Some h => f h | None => None end.

Inductive batch : Type :=
| Paused (result : dict pyval)
| Ran (step_outputs : dict pyval) (done : gset string).

(** Everything a run of one playbook keeps fixed. *)
Record frame : Type := mkFrame {
  f_sub : nested;
  f_depth : nat;
  f_ids : run_ids;
  f_playbook : PlaybookJson;
  f_inputs : dict pyval;
  f_sandbox : option string;
}.

Definition gate_required (step : PlaybookStep) : option GateSpec :=
  match gate step with Some g => if required g then Some g else None | None => None end.

(** What follows the execution of a step: its gate, then the next. *)
Definition pass_gate (f : frame) (step : PlaybookStep) (step_outputs : dict pyval)
    (done : gset string) : stres history batch :=
  match gate_required step with
  | None => mret (Ran step_outputs ({[ step_id step ]} ∪ done))
  | Some g =>
      let action := resolve_gate_action (f_inputs f) (step_id step) in
      if py_eq action (PStr "rejected")
      then raise_st (OtherError "RuntimeError" ("Gate rejected for step " +:+ step_id step))
      else if negb (py_eq action (PStr "approved"))
      then
        partial_outputs ← lift_res (collect_final_outputs (pb_outputs (f_playbook f)) step_outputs);
        created_at ← gets_st now_text;
        mret (Paused (build_gate_pause_result (step_id step) g (execution_id (f_ids f))
                        (pb_code (f_playbook f)) (f_sandbox f) done step_outputs partial_outputs
                        created_at))
      else mret (Ran step_outputs ({[ step_id step ]} ∪ done))
  end.

(** The body of the [try], up to the outputs of the step and after them, and
    its [except], which sees the outputs reached. *)
Definition perform (f : frame) (step : PlaybookStep) (step_outputs : dict pyval)
    (done : gset string) : stres history (dict pyval) :=
  _ ← maybe_invoke_step_hook (f_depth f) (step_id step) "pre_step" (hook_of pre_step step)
        (f_inputs f) step_outputs None true;
  _ ← emit (EvBegin (f_depth f) (step_id step));
  execute_single_step (f_sub f) (f_depth f) (f_ids f) step (f_inputs f) step_outputs
    (Z.of_nat (size done)).

Definition conclude (f : frame) (step : PlaybookStep) (step_outputs : dict pyval)
    (done : gset string) : stres history batch :=
  _ ← emit (EvDone (f_depth f) (step_id step));
  _ ← maybe_invoke_step_hook (f_depth f) (step_id step) "post_step" (hook_of post_step step)
        (f_inputs f) step_outputs None false;
  pass_gate f step step_outputs done.

Definition step_failed (f : frame) (step : PlaybookStep) (step_outputs : dict pyval)
    (done : gset string) (e : exn) : stres history unit :=
  _ ← _create_step_event (f_depth f) (f_ids f) (step_id step) (Z.of_nat (size done)) "failed"
        (Some (exn_str e));
  maybe_invoke_step_hook (f_depth f) (step_id step) "on_error" (hook_of on_error step)
    (f_inputs f) step_outputs (Some (short_error e)) false.

Definition run_ready_step (f : frame) (step : PlaybookStep) (step_outputs : dict pyval)
    (done : gset string) : stres history batch :=
  step_result ← on_raise (perform f step step_outputs done) (step_failed f step step_outputs done);
  let step_outputs := dset (step_id step) (PDict step_result) step_outputs in
  on_raise (conclude f step step_outputs done) (step_failed f step step_outputs done).

Fixpoint run_ready_steps (f : frame) (ready : list PlaybookStep) (step_outputs : dict pyval)
    (done : gset string) : stres history batch :=
  match ready with
  | [] => mret (Ran step_outputs done)
  | step :: r =>
      b ← run_ready_step f step step_outputs done;
      match b with
      | Paused result => mret (Paused result)
      | Ran step_outputs done => run_ready_steps f r step_outputs done
      end
  end.

Definition circular : exn :=
  OtherError "RuntimeError" "Circular dependency or missing dependencies detected".

(** The [while] loop; a round completes a step, pauses or raises. [starved] is
    what is done where the fuel is out and the code would make another round. *)
Fixpoint steps_loop (starved : stres history (dict pyval)) (fuel : nat) (f : frame) (step_outputs : dict pyval) (done : gset string)
    : stres history (dict pyval) :=
  let steps := pb_steps (f_playbook f) in
  if negb (size done <? length steps)%nat
  then
    final_outputs ← lift_res (collect_final_outputs (pb_outputs (f_playbook f)) step_outputs);
    mret (build_completed_result step_outputs final_outputs (f_sandbox f))
  else
  match fuel with
  | O => starved
  | S n =>
      let p := get_ready_steps steps done (f_inputs f) step_outputs in
      _ ← modify_st (fun h => h ++ map (EvSkip (f_depth f)) (ps_skips p));
      match ps_ready p with
      | [] => raise_st circular
      | l =>
          b ← run_ready_steps f l (ps_outputs p) (ps_done p);
          match b with
          | Paused result => mret result
          | Ran step_outputs done => steps_loop starved n f step_outputs done
          end
      end
  end.

Context `{Sandboxes}.

(** As many rounds as the playbook has steps: more are never made, so what
    [starved] is does not matter ([PlaybookTheorems.rounds_suffice]). *)
Definition rounds (pb : PlaybookJson) : nat := length (pb_steps pb).

Definition out_of_rounds : stres history (dict pyval) := raise_st (OtherError "fuel" "").

(** One playbook, whose nested runs are [sub]. *)
Definition run_playbook (sub : nested) (depth : nat) (ids : run_ids) (pb : PlaybookJson)
    (playbook_inputs : dict pyval) : stres history (dict pyval) :=
  let resume_checkpoint :=
    resolve_resume_checkpoint playbook_inputs (execution_id ids) (pb_code pb) in
  sandbox_id ← answer (fun h => ensure_execution_sandbox h pb ids resume_checkpoint);
  let '(step_outputs, done) := restore_checkpoint_state playbook_inputs resume_checkpoint in
  steps_loop out_of_rounds (rounds pb) (mkFrame sub depth ids pb playbook_inputs sandbox_id) step_outputs done.

(** [levels] is what is left of the nesting depth, of [max_depth] levels. *)
Definition max_depth : nat := 3.

Fixpoint execute_playbook_steps (levels : nat) (ids : run_ids) (pb : PlaybookJson)
    (playbook_inputs : dict pyval) : stres history (dict pyval) :=
  let sub := match levels with O => None | S l => Some (execute_playbook_steps l ids) end in
  run_playbook sub (max_depth - levels) ids pb playbook_inputs.
End run.
