(* ===== verification/Handoff.v ===== *)
(** The execution of a handoff plan (services/workflow/handoff_execution.py,
    step_runner.py, execution_profile_retry.py, services/workflow_orchestrator.py):
    waves of playbooks run side by side, each with its retries. *)
From S2P Require Import Prelude PyDict PyStr PyVal Scheduling PlaybookRun.

(** * The retry contract of a playbook (execution_profile_retry.py) *)

(** [float(x)] of a number that is not a bool; an integer is below 2^53. *)
Definition delay_of (v : pyval) : option seconds :=
  match v with
  | PInt z => Some (FFin z 0)
  | PFloat f => Some (fl_val f)
  | _ => None
  end.

Definition negative (d : seconds) : bool :=
  match d with FFin m _ => m <? 0 | FInf neg => neg | FNaN => false end.

Definition texts_only (l : list pyval) : option (list string) :=
  mapM (fun v => match v with PStr s => Some s | _ => None end) l.

Definition resolve_handoff_retry_policy (profile : pyval) : res (option RetryPolicy) :=
  match profile with
  | PNone => Ok None
  | PDict d =>
      match pget "retry_policy" d with
      | PNone => Ok None
      | PDict value =>
          match pget_or "max_retries" (PInt 3) value,
                delay_of (pget_or "retry_delay" (PFloat {| fl_val := FFin 1 0; fl_repr := "1.0" |}) value),
                pget_or "exponential_backoff" (PBool true) value,
                pget_or "retryable_errors" (PList []) value with
          | PInt n, Some delay, PBool b, PList errors =>
              match texts_only errors with
              | Some errors =>
                  if (n <? 0) || negative delay
                  then Raise (ValueError "playbook_execution_retry_policy_invalid")
                  else Ok (Some (mkPolicy n delay b errors))
              | None => Raise (ValueError "playbook_execution_retry_policy_invalid")
              end
          | _, _, _, _ => Raise (ValueError "playbook_execution_retry_policy_invalid")
          end
      | _ => Raise (ValueError "playbook_execution_retry_policy_invalid")
      end
  | _ => Raise (ValueError "playbook_execution_profile_invalid")
  end.

(** * One step (step_runner.py) *)

Definition merge_workflow_context_into_inputs (resolved_inputs workflow_context : dict pyval)
    : dict pyval :=
  fold_left (fun merged kv => if dmem kv.1 merged then merged else dset kv.1 kv.2 merged)
    workflow_context resolved_inputs.

(** [prepare_workflow_step_inputs] of the template engine. *)
Class StepInputs : Type :=
  prepare_workflow_step_inputs : WorkflowStep -> dict pyval -> dict pyval -> res (dict pyval).

(** What a handoff leaves behind, besides the runs of its playbooks. *)
Inductive note : Type :=
| NStart (code : string)
| NSleep (delay : seconds)
| NResult (code : string) (result : dict pyval)
| NPlaybook (code : string) (events : history).

Section handoff.
Context `{PyEval} `{Runtime} `{Sandboxes} `{StepInputs}.

(** The run of a playbook sees the events of the playbooks run before it. *)
Definition journal (notes : list note) : history :=
  List.concat (map (fun n => match n with NPlaybook _ events => events | _ => [] end) notes).

Definition run_noted (code : string) (c : stres history (dict pyval)) : stres (list note) (dict pyval) :=
  fun notes =>
    let before := journal notes in
    let '(r, after) := c before in
    (r, notes ++ [NPlaybook code (drop (length before) after)]).

Definition note_it (n : note) : stres (list note) unit := modify_st (fun l => l ++ [n]).

Definition execute_workflow_step (ids : run_ids) (step : WorkflowStep)
    (workflow_context previous_results : dict pyval) : stres (list note) (dict pyval) :=
  match load_playbook_json (playbook_code step) with
  | None => raise_st (ValueError ("playbook.json not found for " +:+ playbook_code step))
  | Some pb =>
      resolved_inputs ← lift_res (prepare_workflow_step_inputs step previous_results workflow_context);
      run_noted (playbook_code step)
        (execute_playbook_steps max_depth ids pb
           (merge_workflow_context_into_inputs resolved_inputs workflow_context))
  end.

Definition _execute_step_with_retry (ids : run_ids) (workflow_context previous_results : dict pyval)
    (step : WorkflowStep) : stres (list note) (dict pyval) :=
  _ ← note_it (NStart (playbook_code step));
  execute_step_with_retry step (execute_workflow_step ids step workflow_context previous_results)
    (fun delay => note_it (NSleep delay)).

(** * Waves (handoff_execution.py) *)

(** [asyncio.gather(..., return_exceptions=True)], one after the other. *)
Fixpoint gather {A} (l : list (stres (list note) A)) : stres (list note) (list (res A)) :=
  match l with
  | [] => mret []
  | c :: r => fun s =>
      let '(x, s') := c s in (xs ← gather r; mret (x :: xs)) s'
  end.

Inductive settled_wave : Type :=
| WavePaused (result : dict pyval)
| WaveStopped (s : plan_state) (workflow_context : dict pyval)
| WaveDone (s : plan_state) (workflow_context : dict pyval).

Definition record_result (step : WorkflowStep) (step_result : dict pyval) (s : plan_state) : plan_state :=
  mkPlan (ddel (playbook_code step) (pending s)) ({[ playbook_code step ]} ∪ completed s)
    (dset (playbook_code step) step_result (results s)).

Definition clear_pending (s : plan_state) : plan_state := mkPlan [] (completed s) (results s).

Fixpoint settle_wave (l : list (WorkflowStep * res (dict pyval))) (s : plan_state)
    (workflow_context : dict pyval) : stres (list note) settled_wave :=
  match l with
  | [] => mret (WaveDone s workflow_context)
  | (step, r) :: rest =>
      let step_result := normalize_parallel_step_result r in
      let s := record_result step step_result s in
      _ ← note_it (NResult (playbook_code step) step_result);
      if status_is "paused" step_result
      then mret (WavePaused (build_paused_workflow_result (playbook_code step) (results s)
                               workflow_context step_result))
      else
      workflow_context ← lift_res (apply_step_result_to_context workflow_context step_result);
      if should_stop_workflow_after_error step step_result
      then mret (WaveStopped (clear_pending s) workflow_context)
      else settle_wave rest s workflow_context
  end.

Definition completed_workflow (s : plan_state) (workflow_context : dict pyval) : dict pyval :=
  [("status", PStr "completed"); ("steps", results_value (results s));
   ("context", PDict workflow_context)].

(** The [while pending_steps] loop; a round settles a step or is the last. *)
Fixpoint waves (fuel : nat) (ids : run_ids) (graph : dict (gset string))
    (playbook_inputs : dict pyval) (s : plan_state) (workflow_context : dict pyval)
    : stres (list note) (dict pyval) :=
  match pending s with
  | [] => mret (completed_workflow s workflow_context)
  | _ =>
  match fuel with
  | O => raise_st (OtherError "fuel" "")
  | S n =>
      let '(ready, s) := get_ready_steps_for_parallel graph playbook_inputs s in
      match ready with
      | [] => mret (completed_workflow s workflow_context)
      | _ =>
          let previous_results := build_previous_results (results s) in
          rs ← gather (map (_execute_step_with_retry ids workflow_context previous_results) ready);
          w ← settle_wave (combine ready rs) s workflow_context;
          match w with
          | WavePaused result => mret result
          | WaveStopped s workflow_context => mret (completed_workflow s workflow_context)
          | WaveDone s workflow_context => waves n ids graph playbook_inputs s workflow_context
          end
      end
  end
  end.

Definition pending_of (steps : list WorkflowStep) : dict WorkflowStep :=
  fold_left (fun d step => dset (playbook_code step) step d) steps [].

Definition execute_workflow (ids : run_ids) (steps : list WorkflowStep) (context : dict pyval)
    : stres (list note) (dict pyval) :=
  waves (length steps) ids (build_dependency_graph steps) context
    (mkPlan (pending_of steps) ∅ []) context.
End handoff.
