(* ===== verification/WorkflowSample.v ===== *)
(** A small world in which playbooks run: tools that answer from their inputs, a
    condition language of flags, and a few playbooks. The theorems on workflows
    are tried on it. *)
From S2P Require Import Prelude PyDict PyStr PyVal Scheduling PlaybookRun Handoff.

Module Sample.
(** A template names a flag of the inputs; an expression asks for the result of
    a playbook. *)
#[export] Instance flags : PyEval := {|
  eval_template e inputs _ := Ok (truthy (pget e inputs));
  eval_expression e results := Ok (dmem e results);
|}.

Definition step (id tool : string) (deps : list string) : PlaybookStep :=
  mkStep id (Some tool) None [] [("value", "value"); ("seen", "seen")] deps None None None None.
Definition with_gate (s : PlaybookStep) : PlaybookStep :=
  mkStep (step_id s) (tool_slot s) (playbook_slot s) (step_inputs s) (step_output_defs s) (depends_on s)
    (condition s) (for_each s) (Some (mkGate true "approval" None None None)) (hooks s).
Definition with_condition (c : string) (s : PlaybookStep) : PlaybookStep :=
  mkStep (step_id s) (tool_slot s) (playbook_slot s) (step_inputs s) (step_output_defs s) (depends_on s)
    (Some c) (for_each s) (gate s) (hooks s).
Definition slot (id code : string) (deps : list string) : PlaybookStep :=
  mkStep id None (Some code) [] [("value", "status")] deps None None None None.

Definition playbook (code : string) (steps : list PlaybookStep) (outputs : dict string) : PlaybookJson :=
  mkPlaybook code steps [] outputs None.

(** Two steps after a gated one, and one beside it. *)
Definition article : PlaybookJson :=
  playbook "article" [with_gate (step "draft" "write" []); step "review" "read" ["draft"]; step "check" "spell" []]
    [("text", "step.review.value")].
(** Its last step may be skipped. *)
Definition optional : PlaybookJson :=
  playbook "optional" [step "draft" "write" []; with_condition "{{publish}}" (step "post" "send" ["draft"])] [].
(** A playbook that runs the gated one as a step. *)
Definition parent : PlaybookJson :=
  playbook "parent" [slot "inner" "article" []; step "after" "send" ["inner"]] [].
Definition failing : PlaybookJson := playbook "failing" [step "only" "timeout" []] [].

(** A tool tells its name and what it was given; [timeout] fails. *)
#[export] Instance tools : Runtime := {|
  slot_runtime_enabled := true;
  recording := true;
  prepare_playbook_inputs s _ outs _ := Ok (map (fun d => (d, default PNone (dget d outs))) (depends_on s));
  resolve_tool_slot _ s _ := Ok (default "" (tool_slot s));
  call_tool _ _ tool inputs _ :=
    if bool_decide (tool = "timeout") then Raise (ValueError "request timed out")
    else Ok (PDict [("value", PStr tool); ("seen", PDict inputs)]);
  invoke_step_hook _ _ _ _ _ _ := Ok tt;
  load_playbook_json code :=
    if bool_decide (code = "article") then Some article
    else if bool_decide (code = "optional") then Some optional
    else if bool_decide (code = "parent") then Some parent
    else if bool_decide (code = "failing") then Some failing
    else None;
  now_text _ := "2026-01-01T00:00:00";
|}.

#[export] Instance no_sandboxes : Sandboxes := {|
  get_project _ _ _ := Ok false;
  get_or_create_project_sandbox _ _ _ := Ok None;
  create_execution_sandbox _ _ _ _ := Ok None;
|}.

#[export] Instance plain_inputs : StepInputs := fun s _ _ => Ok (ws_inputs s).

Definition who : run_ids := mkIds (Some "exec-1") (Some "space-1") (Some "me") None.

Definition approve (id : string) (inputs : dict pyval) : dict pyval :=
  dset "gate_decisions" (PDict [(id, PDict [("action", PStr "approved")])]) inputs.
Definition resume_from (paused inputs : dict pyval) : dict pyval :=
  dset "_workflow_checkpoint" (pget "checkpoint" paused) inputs.

Definition run (pb : PlaybookJson) (inputs : dict pyval) : res (dict pyval) * history :=
  execute_playbook_steps max_depth who pb inputs [].
Definition result_of {A} (r : res (dict pyval) * A) : dict pyval :=
  match r.1 with Ok d => d | Raise _ => [] end.

Definition topic : dict pyval := [("topic", PStr "locks")].
Definition paused : dict pyval := Eval vm_compute in result_of (run article topic).
Definition resumed_inputs : dict pyval := resume_from paused (approve "draft" topic).
Definition resumed : dict pyval := Eval vm_compute in result_of (run article resumed_inputs).
Definition straight : dict pyval := Eval vm_compute in result_of (run article (approve "draft" topic)).
End Sample.
