(* ===== verification/PlaybookTrace.v ===== *)
(** What the execution of a playbook adds to its history: a logic of the marks
    of one nesting depth, and the trace of rounds, pauses and completion that
    every run follows. *)
From S2P Require Import Prelude PyDict PyStr PyVal Scheduling PlaybookRun Traces.

(** * What a computation adds to the history *)

(** The scheduling events of one nesting depth. *)
Inductive mark : Type :=
| Begin (id : string)
| Done (id : string)
| Skip (id : string).

Definition mark_of (d : nat) (e : event) : option mark :=
  match e with
  | EvBegin d' id => if bool_decide (d' = d) then Some (Begin id) else None
  | EvDone d' id => if bool_decide (d' = d) then Some (Done id) else None
  | EvSkip d' id => if bool_decide (d' = d) then Some (Skip id) else None
  | _ => None
  end.

Notation marks d := (Traces.marks (mark_of d)).
Notation quiet d c := (Traces.adds (Traces.silent (mark_of d)) c).
Notation marking d := (Traces.marking (mark_of d)).

Section quiet.
Context (d : nat).

Lemma quiet_answer {A} (f : history -> res A) : quiet d (answer f).
Proof. apply quiet_pure. by eexists. Qed.
Lemma quiet_emit e : mark_of d e = None -> quiet d (emit e).
Proof. intros He. apply quiet_append. unfold Traces.marks. simpl. by rewrite He. Qed.

Lemma quiet_on_raise {A} (c : stres history A) g :
  quiet d c -> (forall e, quiet d (g e)) -> quiet d (on_raise c g).
Proof.
  intros Hc Hg h r h' E. unfold on_raise in E. destruct (c h) as [[a|e] h1] eqn:Ec.
  - injection E as <- <-. apply Hc in Ec as (ev & -> & H1). by exists ev.
  - apply Hc in Ec as (ev & -> & H1).
    eapply quiet_then in E; [exact E|done|]. apply quiet_st_bind; auto using quiet_raise.
Qed.
End quiet.
#[export] Hint Resolve quiet_answer : quiet.

(** [hush] walks through a computation down to its calls. *)
Ltac hush :=
  repeat lazymatch goal with
  | |- Traces.adds (Traces.silent _) (mbind _ _) => apply quiet_st_bind; [|intros ?]
  | |- Traces.adds (Traces.silent _) (on_raise _ _) => apply quiet_on_raise; [|intros ?]
  | |- Traces.adds (Traces.silent _) (emit _) => apply quiet_emit
  | |- Traces.adds (Traces.silent _) (match ?x with _ => _ end) => destruct x
  end; eauto with quiet.

Section run.
Context `{PyEval} `{Runtime}.

Lemma quiet_event d d' ids id index status error : quiet d (_create_step_event d' ids id index status error).
Proof. unfold _create_step_event. by hush. Qed.
Lemma quiet_hook d d' id phase hook i o error strict :
  quiet d (maybe_invoke_step_hook d' id phase hook i o error strict).
Proof. unfold maybe_invoke_step_hook. by hush. Qed.
#[local] Hint Resolve quiet_event quiet_hook : quiet.

(** Nested runs mark greater depths only. *)
Definition deeper (sub : nested) (d : nat) : Prop :=
  match sub with
  | None => True
  | Some run => forall pb inputs, quiet d (run pb inputs)
  end.

Lemma quiet_observed d d' ids step index body :
  quiet d body -> quiet d (observed d' ids step index body).
Proof. intros Hb. unfold observed. hush. Qed.

Lemma quiet_bound sub d d' ids step i o index :
  deeper sub d -> quiet d (execute_bound_step sub d' ids step i o index).
Proof.
  intros Hs. unfold execute_bound_step. hush.
  unfold execute_playbook_slot. by hush.
Qed.

Lemma quiet_items d execute o total : (forall o, quiet d (execute o)) ->
  forall l index, quiet d (loop_items execute o total index l).
Proof.
  intros He. induction l as [|item l IH]; intros index; simpl; [apply quiet_st_ret|].
  intros h r h' E. destruct (execute _ h) as [x h1] eqn:Ex. apply He in Ex as (ev & -> & H1).
  assert (quiet d (rest ← loop_items execute o total (index + 1) l;
    mret ((match x with Ok y => y | Raise e => failed_iteration index e end) :: rest))) as Hq
    by (apply quiet_st_bind; [apply IH|intros; apply quiet_st_ret]).
  apply Hq in E as (ev' & -> & H2). exists (ev ++ ev'). rewrite app_assoc. split; [done|].
  unfold silent in *. by rewrite marks_app, H1, H2.
Qed.

Lemma quiet_single sub d d' ids step i o index :
  deeper sub d -> quiet d (execute_single_step sub d' ids step i o index).
Proof.
  intros Hs. unfold execute_single_step. apply quiet_observed. destruct (given _); [|by apply quiet_bound].
  unfold execute_step_with_loop. hush. apply quiet_items. intros o'.
  unfold execute_single_step_iteration. by apply quiet_observed, quiet_bound.
Qed.

(** ** Rounds *)

(** The gate of a step is absent or approved. *)
Definition gate_open (playbook_inputs : dict pyval) (step : PlaybookStep) : Prop :=
  match gate_required step with
  | None => True
  | Some _ => py_eq (resolve_gate_action playbook_inputs (step_id step)) (PStr "approved") = true
  end.

(** A step may start once it is not completed and its dependencies are. *)
Definition due (steps : list PlaybookStep) (done : gset string) (step : PlaybookStep) : Prop :=
  step ∈ steps /\ step_id step ∉ done /\ met step done = true.

(** What executing a step at some outputs may answer. *)
Definition executes (f : frame) (step : PlaybookStep) (outs v : dict pyval) : Prop :=
  exists index h h',
    execute_single_step (f_sub f) (f_depth f) (f_ids f) step (f_inputs f) outs index h = (Ok v, h').

(** The outputs and the completed steps of a run, and how they advance. *)
Definition place : Type := (dict pyval * gset string)%type.

(** [s] is an earlier place: what was completed there kept its outputs. *)
Definition earlier (s s' : place) : Prop :=
  s.2 ⊆ s'.2 /\ forall id, id ∈ s.2 -> dget id s.1 = dget id s'.1.

(** The place after the step [id] completed with [v]. *)
Definition settle (id : string) (v : dict pyval) (s : place) : place :=
  (dset id (PDict v) s.1, {[ id ]} ∪ s.2).

(** A step that a pass has picked: due, and its condition held. *)
Definition picked (f : frame) (s : place) (step : PlaybookStep) : Prop :=
  due (pb_steps (f_playbook f)) s.2 step
  /\ exists s0, earlier s0 s /\ due (pb_steps (f_playbook f)) s0.2 step
       /\ condition_holds step s0.2 (f_inputs f) s0.1 = true.

Inductive progress (f : frame) : place -> list mark -> place -> Prop :=
| pg_nil s : progress f s [] s
| pg_skip s step ms s' :
    due (pb_steps (f_playbook f)) s.2 step ->
    condition_holds step s.2 (f_inputs f) s.1 = false ->
    progress f (settle (step_id step) skipped_result s) ms s' ->
    progress f s (Skip (step_id step) :: ms) s'
| pg_run s step v ms s' :
    picked f s step -> gate_open (f_inputs f) step -> executes f step s.1 v ->
    progress f (settle (step_id step) v s) ms s' ->
    progress f s (Begin (step_id step) :: Done (step_id step) :: ms) s'.

Lemma progress_trans f s1 ms1 s2 ms2 s3 :
  progress f s1 ms1 s2 -> progress f s2 ms2 s3 -> progress f s1 (ms1 ++ ms2) s3.
Proof. intros H1 H2. induction H1; simpl; eauto using progress. Qed.

Lemma met_spec step done : met step done = true <-> forall d, d ∈ depends_on step -> d ∈ done.
Proof.
  unfold met. rewrite List.forallb_forall. setoid_rewrite <- list_elem_of_In.
  split; intros Hall d Hd; specialize (Hall d Hd); by case_bool_decide.
Qed.

Lemma met_mono step done done' : done ⊆ done' -> met step done = true -> met step done' = true.
Proof. rewrite !met_spec. set_solver. Qed.

Lemma earlier_refl s : earlier s s.
Proof. by split. Qed.
Lemma earlier_trans s1 s2 s3 : earlier s1 s2 -> earlier s2 s3 -> earlier s1 s3.
Proof.
  intros [Hs1 Ho1] [Hs2 Ho2]. split; [set_solver|]. intros id Hid. rewrite Ho1 by done. apply Ho2. set_solver.
Qed.
Lemma earlier_settle id v s : id ∉ s.2 -> earlier s (settle id v s).
Proof.
  intros Hid. split; simpl; [set_solver|]. intros i Hi. rewrite dget_dset_ne; [done|]. by intros ->.
Qed.

Lemma picked_settle f s step id v :
  picked f s step -> step_id step ≠ id -> id ∉ s.2 -> picked f (settle id v s) step.
Proof.
  intros [(Hin & Hnot & Hmet) (s0 & He & Hd & Hc)] Hne Hid. split.
  - split_and!; [done|simpl; set_solver|]. eapply met_mono; [|done]. simpl. set_solver.
  - exists s0. split_and!; [|done|done]. eauto using earlier_trans, earlier_settle.
Qed.

Section pass.
Context (f : frame).
Notation steps := (pb_steps (f_playbook f)).
Notation playbook_inputs := (f_inputs f).

(** What a pass has found, and the skips as a beginning of a trace. *)
Record pass_ok (start : place) (seen : list PlaybookStep) (p : pass) : Prop := {
  pass_ready : forall s, s ∈ ps_ready p -> s ∈ seen /\ picked f (ps_outputs p, ps_done p) s;
  pass_distinct : NoDup (map step_id (ps_ready p));
  pass_progress : progress f start (map Skip (ps_skips p)) (ps_outputs p, ps_done p);
}.

Lemma ready_step_ok start seen p step :
  pass_ok start seen p -> step ∈ steps -> (forall s, s ∈ seen -> step_id s ≠ step_id step) ->
  pass_ok start (seen ++ [step]) (ready_step playbook_inputs p step).
Proof.
  intros [Hr Hn Ht] Hin Hnew. unfold ready_step.
  assert (forall s : PlaybookStep, s ∈ seen -> s ∈ seen ++ [step]) as Hsub by (intros; set_solver).
  assert (pass_ok start (seen ++ [step]) p) as Hp.
  { constructor; try done. intros s Hs'. destruct (Hr s Hs'). eauto. }
  case_bool_decide as Hmem; [done|]. destruct (met step (ps_done p)) eqn:Hm; [|done].
  destruct (condition_holds _ _ _ _) eqn:Hcond; constructor; simpl.
  - intros s [Hs'| ->%list_elem_of_singleton]%elem_of_app.
    + destruct (Hr s Hs'). eauto.
    + split; [set_solver|]. split; [done|]. eexists. split_and!; [apply earlier_refl|done|done].
  - rewrite map_app. apply NoDup_app. split; [done|]. split; [|apply NoDup_singleton].
    intros i Hi. apply list_elem_of_fmap in Hi as (s & -> & Hs').
    intros E%list_elem_of_singleton. destruct (Hr s Hs') as [Hseen _]. by apply (Hnew s).
  - done.
  - intros s Hs'. destruct (Hr s Hs') as [Hseen Hpk]. split; [eauto|].
    apply (picked_settle _ (_, _)); [done|by apply Hnew|done].
  - done.
  - rewrite map_app. eapply progress_trans; [exact Ht|]. simpl. apply pg_skip; [done|done|].
    apply pg_nil.
Qed.

Lemma get_ready_ok done outs :
  NoDup (map step_id steps) ->
  pass_ok (outs, done) steps (get_ready_steps steps done playbook_inputs outs).
Proof.
  intros Hnd. unfold get_ready_steps.
  assert (forall l seen p, seen ++ l = steps -> pass_ok (outs, done) seen p ->
    pass_ok (outs, done) steps (fold_left (ready_step playbook_inputs) l p)) as Hgen.
  { induction l as [|s l IH]; intros seen p E Hp; simpl.
    - rewrite app_nil_r in E. by subst seen.
    - apply (IH (seen ++ [s])); [by rewrite <- app_assoc|]. apply ready_step_ok; [done| |].
      + rewrite <- E. set_solver.
      + intros s' Hs' Eid. rewrite <- E, map_app in Hnd. apply NoDup_app in Hnd as (_ & Hdis & _).
        apply (Hdis (step_id s')); [by apply list_elem_of_fmap_2|]. rewrite Eid. by left. }
  apply (Hgen steps []); [done|]. constructor; simpl; try (by intros ? ?%elem_of_nil).
  - constructor.
  - apply pg_nil.
Qed.
End pass.

(** The nested runs of a frame mark greater depths only. *)
Definition calm (f : frame) : Prop := deeper (f_sub f) (f_depth f).

(** What running one step does, by its answer. *)
Definition step_post (f : frame) (step : PlaybookStep) (outs : dict pyval) (done : gset string)
    (r : res batch) (ms : list mark) : Prop :=
  let id := step_id step in
  match r with
  | Ok (Ran outs' done') =>
      ms = [Begin id; Done id] /\ done' = {[ id ]} ∪ done /\ gate_open (f_inputs f) step
      /\ exists v, executes f step outs v /\ outs' = dset id (PDict v) outs
  | Ok (Paused result) =>
      ms = [Begin id; Done id] /\ ~ gate_open (f_inputs f) step
      /\ exists g v po at_, executes f step outs v /\ gate_required step = Some g
         /\ collect_final_outputs (pb_outputs (f_playbook f)) (dset id (PDict v) outs) = Ok po
         /\ result = build_gate_pause_result id g (execution_id (f_ids f)) (pb_code (f_playbook f))
                       (f_sandbox f) done (dset id (PDict v) outs) po at_
  | Raise _ => ms = [] \/ ms = [Begin id] \/ ms = [Begin id; Done id]
  end.

Lemma marking_on_raise {A} d (P : res A -> list mark -> Prop) (c : stres history A) handler :
  marking d P c -> (forall e, quiet d (handler e)) ->
  (forall e e' ms, P (Raise e) ms -> P (Raise e') ms) -> marking d P (on_raise c handler).
Proof.
  intros Hc Hh He h r h' E. unfold on_raise in E. destruct (c h) as [[a|e] h1] eqn:Ec.
  - injection E as <- <-. apply Hc in Ec as (ev & -> & H1). eauto.
  - apply Hc in Ec as (ev & -> & H1). unfold mbind, stres_bind in E.
    destruct (handler e (h ++ ev)) as [r1 h2] eqn:Eh. apply Hh in Eh as (ev' & -> & H2).
    exists (ev ++ ev'). unfold silent in H2. rewrite marks_app, H2, app_nil_r.
    destruct r1; injection E as <- <-; rewrite app_assoc; eauto.
Qed.

Lemma marking_emit d e : marking d (fun r ms => r = Ok tt /\ ms = marks d [e]) (emit e).
Proof. apply marking_append. Qed.

Lemma quiet_failed d f step outs done e : quiet d (step_failed f step outs done e).
Proof. unfold step_failed. by hush. Qed.

Lemma marks_emit_here f (ev : nat -> string -> event) m id :
  mark_of (f_depth f) (ev (f_depth f) id) = Some (m id) ->
  marks (f_depth f) [ev (f_depth f) id] = [m id].
Proof. unfold marks. simpl. by intros ->. Qed.

Lemma perform_marks f step outs done :
  calm f ->
  marking (f_depth f) (fun r ms => match r with
                                   | Ok v => ms = [Begin (step_id step)] /\ executes f step outs v
                                   | Raise _ => ms = [] \/ ms = [Begin (step_id step)] end)
    (perform f step outs done).
Proof.
  intros Hf. unfold perform. eapply marking_bind; [apply marking_quiet, quiet_hook|by intros; left|].
  intros _ ms ->. eapply marking_bind; [apply marking_emit|by intros ? ? [? _]|].
  intros u ms [_ ->]. rewrite (marks_emit_here f EvBegin Begin) by (simpl; by rewrite bool_decide_true).
  intros h r h' E. pose proof (quiet_single _ _ _ _ _ _ _ _ Hf _ _ _ E) as (ev & -> & Hev).
  exists ev. split; [done|]. rewrite Hev. destruct r as [v|?]; [|by right].
  split; [done|]. by eexists _, _, _.
Qed.

Lemma pass_gate_marks f step outs done :
  marking (f_depth f) (fun r ms => ms = [] /\ match r with
    | Ok (Ran outs' done') => outs' = outs /\ done' = {[ step_id step ]} ∪ done
                              /\ gate_open (f_inputs f) step
    | Ok (Paused result) => ~ gate_open (f_inputs f) step
        /\ exists g po at_, gate_required step = Some g
           /\ collect_final_outputs (pb_outputs (f_playbook f)) outs = Ok po
           /\ result = build_gate_pause_result (step_id step) g (execution_id (f_ids f))
                         (pb_code (f_playbook f)) (f_sandbox f) done outs po at_
    | Raise _ => True
    end) (pass_gate f step outs done).
Proof.
  unfold pass_gate, gate_open. destruct (gate_required step) as [g|] eqn:Hg; [|by apply marking_ret].
  cbv zeta. destruct (py_eq _ (PStr "rejected")); [by apply marking_raise|].
  destruct (py_eq _ (PStr "approved")) eqn:Ha; [by apply marking_ret|]. cbn [negb].
  eapply marking_bind; [apply marking_lift|by intros ? ? [_ ->]|].
  intros po ms [Hpo ->]. eapply marking_bind; [apply marking_quiet, quiet_st_gets|by intros ? ? ->|].
  intros at_ ms ->. apply marking_ret. split; [done|]. split; [done|]. by exists g, po, at_.
Qed.

Lemma run_ready_step_marks f step outs done :
  calm f -> marking (f_depth f) (step_post f step outs done) (run_ready_step f step outs done).
Proof.
  intros Hf. unfold run_ready_step. eapply marking_bind.
  - eapply marking_on_raise; [by apply perform_marks|intros; apply quiet_failed|done].
  - intros e ms [-> | ->]; simpl; tauto.
  - intros v ms [-> Hv]. cbv zeta.
    set (outs' := dset _ _ outs).
    eapply (marking_weaken _ (fun r ms => step_post f step outs done r (Begin (step_id step) :: ms)));
      [|done].
    eapply marking_on_raise; [|intros; apply quiet_failed|by intros ? ? ? ?].
    unfold conclude. eapply marking_bind; [apply marking_emit|by intros ? ? [? _]|].
    intros u ms [_ ->]. rewrite (marks_emit_here f EvDone Done) by (simpl; by rewrite bool_decide_true).
    eapply marking_bind; [apply marking_quiet, quiet_hook|by intros ? ? ->; simpl; tauto|].
    intros u' ms ->. eapply marking_weaken; [apply pass_gate_marks|].
    intros [[result|outs2 done2]|e] ms; simpl.
    + intros (-> & Hg & g & po & at_ & ? & ? & ->). split; [done|]. split; [done|]. by exists g, v, po, at_.
    + intros (-> & -> & -> & Hg). split_and!; try done. by exists v.
    + intros [-> _]. tauto.
Qed.

(** The end of a run that pauses at [step], with its checkpoint. *)
Definition pauses (f : frame) (s : place) (step : PlaybookStep) (result : dict pyval) : Prop :=
  picked f s step /\ ~ gate_open (f_inputs f) step
  /\ exists g v po at_, executes f step s.1 v /\ gate_required step = Some g
     /\ collect_final_outputs (pb_outputs (f_playbook f)) (dset (step_id step) (PDict v) s.1) = Ok po
     /\ result = build_gate_pause_result (step_id step) g (execution_id (f_ids f))
                   (pb_code (f_playbook f)) (f_sandbox f) s.2 (dset (step_id step) (PDict v) s.1) po at_.

(** A run that advances to [s] and is cut short there. *)
Definition cut_short (f : frame) (s : place) (ms : list mark) : Prop :=
  ms = [] \/ exists step, picked f s step
             /\ (ms = [Begin (step_id step)] \/ ms = [Begin (step_id step); Done (step_id step)]).

Definition batch_post (f : frame) (s : place) (r : res batch) (ms : list mark) : Prop :=
  match r with
  | Ok (Ran outs done) => progress f s ms (outs, done)
  | Ok (Paused result) => exists ms0 s' step, ms = ms0 ++ [Begin (step_id step); Done (step_id step)]
      /\ progress f s ms0 s' /\ pauses f s' step result
  | Raise _ => exists ms0 ms1 s', ms = ms0 ++ ms1 /\ progress f s ms0 s' /\ cut_short f s' ms1
  end.

Lemma batch_post_app f s1 ms1 s2 r ms2 :
  progress f s1 ms1 s2 -> batch_post f s2 r ms2 -> batch_post f s1 r (ms1 ++ ms2).
Proof.
  intros Hp. destruct r as [[result|outs done]|e]; simpl.
  - intros (ms0 & s' & step & -> & H1 & H2). exists (ms1 ++ ms0), s', step. rewrite app_assoc.
    eauto using progress_trans.
  - by apply progress_trans.
  - intros (ms0 & ms3 & s' & -> & H1 & H2). exists (ms1 ++ ms0), ms3, s'. rewrite app_assoc.
    eauto using progress_trans.
Qed.

Lemma run_ready_steps_marks f l : forall outs done,
  calm f -> NoDup (map step_id l) -> (forall s, s ∈ l -> picked f (outs, done) s) ->
  marking (f_depth f) (batch_post f (outs, done)) (run_ready_steps f l outs done).
Proof.
  induction l as [|step l IH]; intros outs done Hf Hnd Hdue; simpl; [by apply marking_ret, pg_nil|].
  apply NoDup_cons in Hnd as [Hnew Hnd]. assert (picked f (outs, done) step) as Hst
    by (apply Hdue; by left).
  eapply marking_bind; [by apply run_ready_step_marks| |].
  - intros e ms Hms. exists [], ms, (outs, done). split; [done|]. split; [apply pg_nil|].
    destruct Hms as [->|Hms]; [by left|]. right. by exists step.
  - intros [result|outs' done'] ms; simpl.
    + intros (-> & Hg & g & v & po & at_ & ?). apply marking_ret. simpl.
      exists [], (outs, done), step. split; [done|]. split; [apply pg_nil|]. split_and!; [done|done|].
      by exists g, v, po, at_.
    + intros (-> & -> & Hg & v & Hv & ->). eapply marking_weaken; [apply IH; [done|done|]|].
      * intros s Hs. apply (picked_settle _ (_, _)); [apply Hdue; by right| |apply Hst].
        intros E. destruct Hnew. rewrite <- E. by apply list_elem_of_fmap_2.
      * intros r ms Hr. eapply (batch_post_app f _ [_; _]); [|exact Hr].
        eapply pg_run; [done|done|exact Hv|apply pg_nil].
Qed.

(** The result of a run that has completed. *)
Definition completes (f : frame) (s : place) (result : dict pyval) : Prop :=
  (length (pb_steps (f_playbook f)) <= size s.2)%nat
  /\ exists fo, collect_final_outputs (pb_outputs (f_playbook f)) s.1 = Ok fo
     /\ result = build_completed_result s.1 fo (f_sandbox f).

Definition loop_post (f : frame) (s : place) (r : res (dict pyval)) (ms : list mark) : Prop :=
  match r with
  | Ok result =>
      (exists s', progress f s ms s' /\ completes f s' result)
      \/ exists ms0 s' step, ms = ms0 ++ [Begin (step_id step); Done (step_id step)]
         /\ progress f s ms0 s' /\ pauses f s' step result
  | Raise _ => exists ms0 ms1 s', ms = ms0 ++ ms1 /\ progress f s ms0 s' /\ cut_short f s' ms1
  end.

Lemma loop_post_app f s1 ms1 s2 r ms2 :
  progress f s1 ms1 s2 -> loop_post f s2 r ms2 -> loop_post f s1 r (ms1 ++ ms2).
Proof.
  intros Hp. destruct r as [result|e]; simpl.
  - intros [(s' & H1 & H2)|(ms0 & s' & step & -> & H1 & H2)].
    + left. exists s'. eauto using progress_trans.
    + right. exists (ms1 ++ ms0), s', step. rewrite app_assoc. eauto using progress_trans.
  - intros (ms0 & ms3 & s' & -> & H1 & H2). exists (ms1 ++ ms0), ms3, s'. rewrite app_assoc.
    eauto using progress_trans.
Qed.

Lemma raised_here f s e ms : cut_short f s ms -> loop_post f s (Raise e) ms.
Proof. intros Hc. exists [], ms, s. split_and!; [done|apply pg_nil|done]. Qed.

Lemma skip_marks d l : marks d (map (EvSkip d) l) = map Skip l.
Proof. unfold marks. induction l; simpl; [done|]. rewrite bool_decide_true by done. by f_equal. Qed.

Lemma steps_loop_end starved n f outs done :
  (length (pb_steps (f_playbook f)) <= size done)%nat ->
  steps_loop starved n f outs done =
    (final_outputs ← lift_res (collect_final_outputs (pb_outputs (f_playbook f)) outs);
     mret (build_completed_result outs final_outputs (f_sandbox f))).
Proof. intros Hle. destruct n; simpl; destruct (Nat.ltb_spec (size done) (length (pb_steps (f_playbook f)))); done || lia. Qed.

Lemma steps_loop_more starved n f outs done :
  (size done < length (pb_steps (f_playbook f)))%nat ->
  steps_loop starved (S n) f outs done =
    (let p := get_ready_steps (pb_steps (f_playbook f)) done (f_inputs f) outs in
     _ ← modify_st (fun h => h ++ map (EvSkip (f_depth f)) (ps_skips p));
     match ps_ready p with
     | [] => raise_st circular
     | l => b ← run_ready_steps f l (ps_outputs p) (ps_done p);
            match b with
            | Paused result => mret result
            | Ran outs done => steps_loop starved n f outs done
            end
     end).
Proof. intros Hlt. simpl. by destruct (Nat.ltb_spec (size done) (length (pb_steps (f_playbook f)))); [|lia]. Qed.

Lemma end_marks starved f n outs done :
  (length (pb_steps (f_playbook f)) <= size done)%nat ->
  marking (f_depth f) (loop_post f (outs, done)) (steps_loop starved n f outs done).
Proof.
  intros Hle. rewrite steps_loop_end by done. eapply marking_bind; [apply marking_lift| |].
  - intros e ms [_ ->]. apply raised_here. by left.
  - intros fo ms [Hfo ->]. apply marking_ret. left. exists (outs, done).
    split; [apply pg_nil|]. split; [done|]. by exists fo.
Qed.

Lemma steps_loop_marks f :
  calm f -> NoDup (map step_id (pb_steps (f_playbook f))) -> forall n outs done,
  marking (f_depth f) (loop_post f (outs, done)) (steps_loop out_of_rounds n f outs done).
Proof.
  intros Hf Hnd. induction n as [|n IH]; intros outs done;
    (destruct (Nat.le_gt_cases (length (pb_steps (f_playbook f))) (size done)) as [Hge|Hlt];
     [by apply end_marks|]).
  - simpl. destruct (Nat.ltb_spec (size done) (length (pb_steps (f_playbook f)))); [|lia].
    apply marking_raise, raised_here. by left.
  - rewrite steps_loop_more by done. cbv zeta. destruct (get_ready_ok f done outs Hnd) as [Hr Hd Hp].
    set (p := get_ready_steps _ _ _ _) in *.
    eapply (marking_bind _ (fun r ms => r = Ok tt /\ ms = map Skip (ps_skips p))).
    { intros h r h' [= <- <-]. eexists. split; [done|]. by rewrite skip_marks. }
    { by intros ? ? [? _]. }
    intros u ms [_ ->].
    eapply (marking_weaken _ (loop_post f (ps_outputs p, ps_done p)));
      [|intros r ms Hms; by eapply loop_post_app].
    destruct (ps_ready p) as [|s l] eqn:El; [apply marking_raise, raised_here; by left|].
    eapply marking_bind; [apply run_ready_steps_marks; [done|done|intros s0 Hs0; by apply Hr]| |].
    + intros e ms Hms. exact Hms.
    + intros [result|outs' done'] ms Hms.
      * apply marking_ret. right. rewrite app_nil_r. exact Hms.
      * eapply marking_weaken; [apply IH|]. intros r ms' Hr'. by eapply loop_post_app.
Qed.

(** ** Nested runs *)

Lemma quiet_ready_step d f step outs done :
  deeper (f_sub f) d -> d ≠ f_depth f -> quiet d (run_ready_step f step outs done).
Proof.
  intros Hs Hd. unfold run_ready_step. apply quiet_st_bind.
  - apply quiet_on_raise; [|intros; apply quiet_failed]. unfold perform.
    apply quiet_st_bind; [apply quiet_hook|intros _]. apply quiet_st_bind; [|intros _; by apply quiet_single].
    apply quiet_emit. simpl. by rewrite bool_decide_false by congruence.
  - intros v. apply quiet_on_raise; [|intros; apply quiet_failed]. unfold conclude, pass_gate.
    apply quiet_st_bind; [|intros _]; [|apply quiet_st_bind; [apply quiet_hook|intros _]; by hush].
    apply quiet_emit. simpl. by rewrite bool_decide_false by congruence.
Qed.

Lemma quiet_ready_steps d f l : deeper (f_sub f) d -> d ≠ f_depth f ->
  forall outs done, quiet d (run_ready_steps f l outs done).
Proof.
  intros Hs Hd. induction l as [|step l IH]; intros outs done; simpl; [apply quiet_st_ret|].
  apply quiet_st_bind; [by apply quiet_ready_step|]. intros [result|outs' done']; [apply quiet_st_ret|apply IH].
Qed.

Lemma quiet_skips d d' l : d ≠ d' -> quiet d (modify_st (fun h => h ++ map (EvSkip d') l)).
Proof.
  intros Hd h r h' [= <- <-]. eexists. split; [done|]. unfold silent, marks.
  induction l; simpl; [done|]. by rewrite bool_decide_false by congruence.
Qed.

Lemma quiet_end starved d f n outs done :
  (length (pb_steps (f_playbook f)) <= size done)%nat -> quiet d (steps_loop starved n f outs done).
Proof. intros Hle. rewrite (steps_loop_end _ _ _ _ _ Hle). hush. Qed.

Lemma quiet_steps_loop d f : deeper (f_sub f) d -> d ≠ f_depth f ->
  forall n outs done, quiet d (steps_loop out_of_rounds n f outs done).
Proof.
  intros Hs Hd. induction n as [|n IH]; intros outs fin;
    (destruct (Nat.le_gt_cases (length (pb_steps (f_playbook f))) (size fin)) as [Hge|Hlt];
     [by apply quiet_end|]).
  - simpl. destruct (Nat.ltb_spec (size fin) (length (pb_steps (f_playbook f)))); [|lia].
    apply quiet_raise.
  - rewrite steps_loop_more by done. cbv zeta. apply quiet_st_bind; [by apply quiet_skips|intros _].
    destruct (ps_ready _) as [|s l]; [apply quiet_raise|].
    apply quiet_st_bind; [by apply quiet_ready_steps|]. intros [result|outs' done']; [apply quiet_st_ret|apply IH].
Qed.

Context `{Sandboxes}.

Lemma quiet_run_playbook d sub d' ids pb inputs :
  deeper sub d -> d ≠ d' -> quiet d (run_playbook sub d' ids pb inputs).
Proof.
  intros Hs Hd. unfold run_playbook. apply quiet_st_bind; [apply quiet_answer|intros sandbox].
  destruct (restore_checkpoint_state _ _) as [outs done]. by apply quiet_steps_loop.
Qed.

(** A run marks the depths from its own on. *)
Lemma quiet_outer levels : forall d ids pb inputs,
  (levels <= max_depth)%nat -> (d < max_depth - levels)%nat ->
  quiet d (execute_playbook_steps levels ids pb inputs).
Proof.
  induction levels as [|l IH]; intros d ids pb inputs Hl Hd; simpl; apply quiet_run_playbook;
    unfold max_depth in *; try lia; [done|].
  intros pb' inputs'. apply IH; unfold max_depth; lia.
Qed.

(** The frame a run of a playbook works in. *)
Definition run_frame (levels : nat) (ids : run_ids) (pb : PlaybookJson) (inputs : dict pyval)
    (sandbox : option string) : frame :=
  mkFrame (match levels with O => None | S l => Some (execute_playbook_steps l ids) end)
    (max_depth - levels) ids pb inputs sandbox.

Definition start_place (ids : run_ids) (pb : PlaybookJson) (inputs : dict pyval) : place :=
  restore_checkpoint_state inputs (resolve_resume_checkpoint inputs (execution_id ids) (pb_code pb)).

Lemma run_frame_calm levels ids pb inputs sandbox :
  (levels <= max_depth)%nat -> calm (run_frame levels ids pb inputs sandbox).
Proof.
  intros Hl. unfold calm, run_frame. destruct levels as [|l]; simpl; [done|].
  intros pb' inputs'. apply quiet_outer; unfold max_depth in *; lia.
Qed.

Lemma run_unfold levels ids pb inputs h :
  execute_playbook_steps levels ids pb inputs h =
  match ensure_execution_sandbox h pb ids (resolve_resume_checkpoint inputs (execution_id ids) (pb_code pb)) with
  | Raise e => (Raise e, h)
  | Ok sandbox => steps_loop out_of_rounds (rounds pb) (run_frame levels ids pb inputs sandbox)
                    (start_place ids pb inputs).1 (start_place ids pb inputs).2 h
  end.
Proof.
  unfold start_place, run_frame.
  destruct levels as [|l]; cbn [execute_playbook_steps]; unfold run_playbook, mbind, stres_bind, answer;
    (destruct (ensure_execution_sandbox _ _ _ _); [by destruct (restore_checkpoint_state _ _)|done]).
Qed.

(** What a run of a playbook does. *)
Lemma run_marks levels ids pb inputs h r h' :
  (levels <= max_depth)%nat -> NoDup (map step_id (pb_steps pb)) ->
  execute_playbook_steps levels ids pb inputs h = (r, h') ->
  exists ev sandbox, h' = h ++ ev
    /\ loop_post (run_frame levels ids pb inputs sandbox) (start_place ids pb inputs) r
         (marks (max_depth - levels) ev).
Proof.
  intros Hl Hnd E. rewrite run_unfold in E.
  destruct (ensure_execution_sandbox _ _ _ _) as [sandbox|e].
  - destruct (start_place ids pb inputs) as [outs fin].
    eapply steps_loop_marks in E as (ev & -> & Hpost); [|by apply run_frame_calm|done]. by exists ev, sandbox.
  - injection E as <- <-. exists [], None. rewrite app_nil_r. split; [done|]. apply raised_here. by left.
Qed.
End run.
