(* ===== verification/PlaybookTheorems.v ===== *)
(** Theorems of the execution of a playbook: it ends, its steps run once and
    after what they depend on, and nothing runs past a gate that is not
    approved. *)
From S2P Require Import Prelude PyDict PyStr PyVal Scheduling PlaybookRun PlaybookTrace WorkflowSample.

(** * Reading a trace *)

Definition starts (m : mark) : option string :=
  match m with Begin id | Skip id => Some id | Done _ => None end.
Definition ends (m : mark) : option string :=
  match m with Done id | Skip id => Some id | Begin _ => None end.

Lemma size_list_to_set_le (l : list string) : (size (list_to_set l : gset string) <= length l)%nat.
Proof.
  induction l as [|x l IH]; simpl; [done|].
  rewrite size_union_alt, size_singleton. apply le_n_S. etransitivity; [|exact IH].
  apply subseteq_size. set_solver.
Qed.

(** A list with a duplicate is longer than its set. *)
Lemma dup_size (l : list PlaybookStep) :
  ~ NoDup (map step_id l) -> (size (list_to_set (map step_id l) : gset string) < length l)%nat.
Proof.
  induction l as [|s l IH]; simpl; [by intros []; constructor|]. intros Hnd.
  destruct (decide (step_id s ∈ map step_id l)) as [Hin|Hin].
  - assert ({[ step_id s ]} ∪ list_to_set (map step_id l) = (list_to_set (map step_id l) : gset string)) as ->
      by (apply leibniz_equiv; set_solver).
    assert (size (list_to_set (map step_id l) : gset string) <= length l)%nat; [|lia].
    rewrite <- (length_map step_id l). apply size_list_to_set_le.
  - rewrite size_union, size_singleton by set_solver. apply -> Nat.succ_lt_mono. apply IH.
    intros Hl. apply Hnd. by constructor.
Qed.

Section playbook.
Context `{PyEval} `{Runtime} `{Sandboxes}.

Lemma progress_done f s ms s' :
  progress f s ms s' -> s'.2 = s.2 ∪ list_to_set (omap ends ms).
Proof.
  intros Hp. induction Hp as [s|s step ms s' _ _ _ IH|s step v ms s' _ _ _ _ IH]; simpl; [set_solver| |];
    rewrite IH; simpl; set_solver.
Qed.

(** What a run starts, it starts at a place its trace so far leads to. *)
Lemma progress_starts f s ms s' : progress f s ms s' -> forall ms1 m ms2 id,
  ms = ms1 ++ m :: ms2 -> starts m = Some id ->
  exists step s1, step_id step = id /\ due (pb_steps (f_playbook f)) s1.2 step /\ progress f s ms1 s1.
Proof.
  intros Hp. induction Hp as [s|s step ms s' Hd Hc Hp IH|s step v ms s' Hd Hg He Hp IH];
    intros ms1 m ms2 id E Hm.
  - by destruct ms1.
  - destruct ms1 as [|m1 ms1]; injection E as <- E.
    + injection Hm as <-. exists step, s. eauto using pg_nil.
    + destruct (IH _ _ _ _ E Hm) as (step' & s1 & ? & ? & ?). exists step', s1. eauto using pg_skip.
  - destruct ms1 as [|m1 ms1]; injection E as <- E.
    + injection Hm as <-. exists step, s. destruct Hd. eauto using pg_nil.
    + destruct ms1 as [|m2 ms1]; injection E as <- E; [done|].
      destruct (IH _ _ _ _ E Hm) as (step' & s1 & ? & ? & ?). exists step', s1. eauto using pg_run.
Qed.

Lemma cut_starts f s ms1 m ms2 id :
  cut_short f s (ms1 ++ m :: ms2) -> starts m = Some id ->
  ms1 = [] /\ exists step, step_id step = id /\ due (pb_steps (f_playbook f)) s.2 step.
Proof.
  intros [E|(step & [Hd _] & Hms)] Hm; [by destruct ms1|].
  assert (ms1 = [] /\ m = Begin (step_id step)) as [-> ->].
  { destruct ms1 as [|m1 ms1]; [by destruct Hms as [[=]|[=]]|].
    destruct Hms as [[= -> E]|[= -> E]]; destruct ms1 as [|? ms1]; try done; injection E as -> E;
      [done|by destruct ms1]. }
  injection Hm as <-. eauto.
Qed.

(** A trace cut in front of a mark is cut in its first or its second part. *)
Lemma app_mark (ms0 msx ms1 ms2 : list mark) m :
  ms0 ++ msx = ms1 ++ m :: ms2 ->
  (exists ms3, ms0 = ms1 ++ m :: ms3) \/ (exists ms3, ms1 = ms0 ++ ms3 /\ msx = ms3 ++ m :: ms2).
Proof.
  intros E. apply app_eq_inv in E as [(k & -> & E)|(k & -> & E)]; [|right; by exists k].
  destruct k as [|m' k]; [right; exists []; by rewrite !app_nil_r|].
  injection E as -> ->. left. by exists k.
Qed.

Lemma loop_starts f s r ms : loop_post f s r ms -> forall ms1 m ms2 id,
  ms = ms1 ++ m :: ms2 -> starts m = Some id ->
  exists step s1, step_id step = id /\ due (pb_steps (f_playbook f)) s1.2 step /\ progress f s ms1 s1.
Proof.
  intros Hpost ms1 m ms2 id E Hm.
  assert (exists ms0 msx s', ms = ms0 ++ msx /\ progress f s ms0 s' /\ cut_short f s' msx)
    as (ms0 & msx & s' & -> & Hp & Hcut).
  { destruct r as [result|e]; [|exact Hpost].
    destruct Hpost as [(s' & Hp & _)|(ms0 & s' & step & -> & Hp & Hpk & _)].
    - exists ms, [], s'. rewrite app_nil_r. split_and!; [done|done|by left].
    - eexists ms0, _, s'. split_and!; [done|done|]. right. exists step. eauto. }
  apply app_mark in E as [(ms3 & E)|(ms3 & -> & ->)]; [by eapply progress_starts|].
  destruct (cut_starts _ _ _ _ _ _ Hcut Hm) as (-> & step & ? & ?). exists step, s'.
  by rewrite app_nil_r.
Qed.

(** Everything started in a full trace has ended in it. *)
Lemma progress_started f s ms s' : progress f s ms s' -> omap starts ms = omap ends ms.
Proof. intros Hp. induction Hp; simpl; [done|by f_equal|by f_equal]. Qed.

(** C23: the steps of a playbook run once and in the order of their dependencies.
    Whatever the tools, hooks, conditions and nested playbooks answer, a step
    that starts (or is skipped) was not completed in the checkpoint the run
    resumes from and did not start before in this run, and everything it
    depends on was completed in the checkpoint or has ended earlier in this
    run. *)
Theorem steps_in_order levels ids pb inputs h r h' :
  (levels <= max_depth)%nat -> NoDup (map step_id (pb_steps pb)) ->
  execute_playbook_steps levels ids pb inputs h = (r, h') ->
  let restored := (start_place ids pb inputs).2 in
  exists ev, h' = h ++ ev /\ forall before m after id,
    marks (max_depth - levels) ev = before ++ m :: after -> starts m = Some id ->
    id ∉ restored /\ id ∉ omap starts before
    /\ exists step, step ∈ pb_steps pb /\ step_id step = id
         /\ forall d, d ∈ depends_on step -> d ∈ restored \/ d ∈ omap ends before.
Proof.
  intros Hl Hnd E. destruct (run_marks _ _ _ _ _ _ _ Hl Hnd E) as (ev & sandbox & -> & Hpost).
  exists ev. split; [done|]. intros before m after id Em Hm.
  destruct (loop_starts _ _ _ _ Hpost _ _ _ _ Em Hm) as (step & s1 & <- & (Hin & Hnot & Hmet) & Hp).
  pose proof (progress_done _ _ _ _ Hp) as Ed. rewrite met_spec in Hmet.
  rewrite (progress_started _ _ _ _ Hp). rewrite Ed in Hnot, Hmet. split_and!; [set_solver..|].
  exists step. split_and!; [done|done|]. intros d Hd. apply Hmet in Hd. set_solver.
Qed.

(** ** Gates *)


Lemma pause_fields f s step result : pauses f s step result ->
  pget "status" result = PStr "paused" /\ pget "paused_step_id" result = PStr (step_id step).
Proof. by intros (_ & _ & g & v & po & at_ & _ & _ & _ & ->). Qed.




(** ** Completion *)

Definition ids_of (pb : PlaybookJson) : gset string := list_to_set (map step_id (pb_steps pb)).

Lemma progress_within f s ms s' : progress f s ms s' -> s.2 ⊆ ids_of (f_playbook f) -> s'.2 ⊆ ids_of (f_playbook f).
Proof.
  intros Hp. assert (forall step, step ∈ pb_steps (f_playbook f) -> step_id step ∈ ids_of (f_playbook f)) as Hid.
  { intros step Hin. apply elem_of_list_to_set. by apply list_elem_of_fmap_2. }
  induction Hp as [s|s step ms s' Hd Hc Hp IH|s step v ms s' [Hd _] Hg He Hp IH]; intros Hs; [done| |];
    apply IH; simpl; destruct Hd as [Hin _]; specialize (Hid step Hin); set_solver.
Qed.

Lemma progress_nodup f s ms s' : progress f s ms s' -> NoDup (omap ends ms) /\ forall i, i ∈ omap ends ms -> i ∉ s.2.
Proof.
  intros Hp. induction Hp as [s|s step ms s' Hd Hc Hp [IH1 IH2]|s step v ms s' [Hd _] Hg He Hp [IH1 IH2]]; simpl;
    [split; [constructor|by intros ? ?%elem_of_nil]| |];
    (split; [apply NoDup_cons; split; [intros Hi; apply IH2 in Hi; simpl in Hi; set_solver|done]|]);
    (intros i [->|Hi]%elem_of_cons; [apply Hd|apply IH2 in Hi; simpl in Hi; set_solver]).
Qed.

Lemma complete_done f (s : place) : NoDup (map step_id (pb_steps (f_playbook f))) ->
  s.2 ⊆ ids_of (f_playbook f) -> (length (pb_steps (f_playbook f)) <= size s.2)%nat ->
  s.2 = ids_of (f_playbook f).
Proof.
  intros Hnd Hsub Hle. apply leibniz_equiv, set_subseteq_size_equiv; [done|].
  unfold ids_of in *. rewrite size_list_to_set by done. by rewrite length_map.
Qed.

Lemma progress_earlier f s ms s' : progress f s ms s' -> earlier s s'.
Proof.
  intros Hp. induction Hp as [s|s step ms s' Hd Hc Hp IH|s step v ms s' [Hd _] Hg He Hp IH];
    [apply earlier_refl| |]; (eapply earlier_trans; [|exact IH]); by apply earlier_settle, Hd.
Qed.

(** What the outputs of a settled step are. *)
Lemma progress_outputs f s ms s' : progress f s ms s' -> forall id, id ∈ omap ends ms ->
  exists step s1 v, step_id step = id /\ due (pb_steps (f_playbook f)) s1.2 step
    /\ earlier s1 s' /\ dget id s'.1 = Some (PDict v)
    /\ ((v = skipped_result /\ condition_holds step s1.2 (f_inputs f) s1.1 = false)
        \/ (gate_open (f_inputs f) step /\ executes f step s1.1 v)).
Proof.
  assert (forall id v s, dget id (settle id v s).1 = Some (PDict v) /\ id ∈ (settle id v s).2) as Hset.
  { intros id v s0. split; [apply dget_dset_eq|simpl; set_solver]. }
  intros Hp. induction Hp as [s|s step ms s' Hd Hc Hp IH|s step v ms s' [Hd Hw] Hg He Hp IH]; simpl;
    [by intros ? ?%elem_of_nil| |]; intros id [->|Hi]%elem_of_cons; auto;
    pose proof (progress_earlier _ _ _ _ Hp) as Hear; (eexists step, s, _; split_and!; [done|done| | |]).
  1,4: eapply earlier_trans; [by apply earlier_settle, Hd|exact Hear].
  1,3: rewrite <- (proj2 Hear); apply Hset.
  - by left.
  - by right.
Qed.

(** A run that completes has settled every step. Whenever the completed
    steps it resumes from are steps of the playbook, each other step has ended
    exactly once in the trace; the output recorded for it is the skip marker
    (its condition was false when its dependencies were complete) or what
    executing it answered, at outputs that agree with the final ones on every
    step completed by then, its dependencies among them; and the final outputs
    are collected from these. *)
Theorem completed_run_settles_every_step levels ids pb inputs h result h' :
  (levels <= max_depth)%nat -> NoDup (map step_id (pb_steps pb)) ->
  (start_place ids pb inputs).2 ⊆ ids_of pb ->
  execute_playbook_steps levels ids pb inputs h = (Ok result, h') ->
  pget "status" result = PStr "completed" ->
  exists ev sandbox outs fo, h' = h ++ ev
    /\ omap ends (marks (max_depth - levels) ev)
         ≡ₚ filter (fun i => i ∉ (start_place ids pb inputs).2) (map step_id (pb_steps pb))
    /\ collect_final_outputs (pb_outputs pb) outs = Ok fo
    /\ pget "step_outputs" result = PDict outs /\ pget "outputs" result = PDict fo
    /\ forall step, step ∈ pb_steps pb -> step_id step ∉ (start_place ids pb inputs).2 ->
       exists s1 v, dget (step_id step) outs = Some (PDict v) /\ met step s1.2 = true
         /\ (forall id, id ∈ s1.2 -> dget id s1.1 = dget id outs)
         /\ ((v = skipped_result /\ condition_holds step s1.2 inputs s1.1 = false)
             \/ (gate_open inputs step
             /\ executes (run_frame levels ids pb inputs sandbox) step s1.1 v)).
Proof.
  intros Hl Hnd Hsub E Hst. destruct (run_marks _ _ _ _ _ _ _ Hl Hnd E) as (ev & sandbox & -> & Hpost).
  destruct Hpost as [([outs fin] & Hp & Hlen & fo & Hfo & ->)|(ms0 & s' & step & _ & _ & Hpause)];
    [|by apply pause_fields in Hpause as [E' _]; rewrite E' in Hst].
  pose proof (progress_nodup _ _ _ _ Hp) as [Hend Hnew].
  pose proof (progress_done _ _ _ _ Hp) as Hfin.
  rewrite (complete_done (run_frame levels ids pb inputs sandbox) (outs, fin) Hnd (progress_within _ _ _ _ Hp Hsub) Hlen) in Hfin.
  assert (forall i, i ∈ omap ends (marks (max_depth - levels) ev) <->
    i ∈ map step_id (pb_steps pb) /\ i ∉ (start_place ids pb inputs).2) as Hends.
  { intros i. specialize (Hnew i). unfold ids_of in *. simpl in Hfin. rewrite set_eq in Hfin.
    specialize (Hfin i). rewrite elem_of_union, !elem_of_list_to_set in Hfin. tauto. }
  exists ev, sandbox, outs, fo. split_and!; try done.
  - apply NoDup_Permutation; [done|by apply NoDup_filter|]. intros i. rewrite Hends, list_elem_of_filter.
    tauto.
  - intros step Hin Hnot.
    destruct (progress_outputs _ _ _ _ Hp (step_id step)) as (step' & s1 & v & Hid & (Hin' & _ & Hmet) & He & Ho & Hv).
    { apply Hends. split; [by apply list_elem_of_fmap_2|done]. }
    assert (step' = step) as -> by (by apply (nodup_map_inj step_id (pb_steps pb))).
    exists s1, v. split_and!; [done|done|apply He|done].
Qed.

(** ** Termination *)

Lemma pass_gate_done f step outs done_ h outs' done' h' :
  pass_gate f step outs done_ h = (Ok (Ran outs' done'), h') -> done' = {[ step_id step ]} ∪ done_.
Proof.
  unfold pass_gate. destruct (gate_required step); [|by intros [= _ <-]]. cbv zeta.
  destruct (py_eq _ _); [done|]. destruct (negb _); [|by intros [= _ <-]].
  intros (po & h1 & _ & E)%st_bind_Ok_inv. by apply st_bind_Ok_inv in E as (at_ & h2 & _ & [=]).
Qed.

Lemma on_raise_Ok {A} (c : stres history A) handler h a h' :
  on_raise c handler h = (Ok a, h') -> c h = (Ok a, h').
Proof.
  unfold on_raise. destruct (c h) as [[x|e] h1]; [done|]. unfold mbind, stres_bind.
  by destruct (handler e h1) as [[]].
Qed.

Lemma run_ready_step_done f step outs done_ h outs' done' h' :
  run_ready_step f step outs done_ h = (Ok (Ran outs' done'), h') -> done' = {[ step_id step ]} ∪ done_.
Proof.
  unfold run_ready_step. intros (v & h1 & _ & E)%st_bind_Ok_inv.
  apply on_raise_Ok in E. unfold conclude in E.
  apply st_bind_Ok_inv in E as (u & h2 & _ & E). apply st_bind_Ok_inv in E as (u' & h3 & _ & E).
  by apply pass_gate_done in E.
Qed.

Lemma run_ready_steps_done f l : forall outs done_ h outs' done' h',
  run_ready_steps f l outs done_ h = (Ok (Ran outs' done'), h') ->
  done' = done_ ∪ list_to_set (map step_id l).
Proof.
  induction l as [|step l IH]; intros outs done_ h outs' done' h'; simpl; [intros [= <- <- _]; set_solver|].
  intros ([result|outs1 done1] & h1 & E1 & E2)%st_bind_Ok_inv; [done|].
  apply run_ready_step_done in E1. apply IH in E2. set_solver.
Qed.

(** What a pass finds: it only adds skipped steps, and its ready steps are
    steps that are not completed. *)
Lemma ready_step_grows inputs p step :
  ps_done p ⊆ ps_done (ready_step inputs p step)
  /\ forall s, s ∈ ps_ready (ready_step inputs p step) -> s ∈ ps_ready p \/ s = step /\ step_id s ∉ ps_done p.
Proof.
  unfold ready_step. case_bool_decide; [split; [done|by left]|].
  destruct (met _ _); [|split; [done|by left]]. destruct (condition_holds _ _ _ _); simpl.
  - split; [done|]. intros s [Hs| ->%list_elem_of_singleton]%elem_of_app; eauto.
  - split; [set_solver|by left].
Qed.

Lemma get_ready_grows steps done_ inputs outs :
  let p := get_ready_steps steps done_ inputs outs in
  done_ ⊆ ps_done p /\ forall s, s ∈ ps_ready p -> s ∈ steps /\ step_id s ∉ done_.
Proof.
  unfold get_ready_steps. cbv zeta.
  assert (forall l p, done_ ⊆ ps_done p -> l ⊆ steps -> (forall s, s ∈ ps_ready p -> s ∈ steps /\ step_id s ∉ done_) ->
    let q := fold_left (ready_step inputs) l p in
    done_ ⊆ ps_done q /\ forall s, s ∈ ps_ready q -> s ∈ steps /\ step_id s ∉ done_) as Hgen.
  { induction l as [|s l IH]; intros p Hd Hl Hr; simpl; [done|].
    destruct (ready_step_grows inputs p s) as [Hd' Hr']. apply IH; [set_solver|set_solver|].
    intros s' [Hs'|[-> Hn]]%Hr'; [auto|]. split; [set_solver|]. set_solver. }
  apply Hgen; simpl; [done|done|]. by intros s ?%elem_of_nil.
Qed.

(** Every round completes a step that was left. *)
Definition left_over (f : frame) (done_ : gset string) : nat := size (ids_of (f_playbook f) ∖ done_).

Definition enough (f : frame) (n : nat) (done_ : gset string) : Prop :=
  (left_over f done_ < n)%nat
  \/ (NoDup (map step_id (pb_steps (f_playbook f))) /\ (left_over f done_ <= n)%nat).

Lemma enough_zero f done_ : enough f 0 done_ -> (length (pb_steps (f_playbook f)) <= size done_)%nat.
Proof.
  intros [?|[Hnd Hle]]; [lia|]. unfold left_over in Hle.
  assert (ids_of (f_playbook f) ⊆ done_) as Hsub.
  { apply Nat.le_0_r, size_empty_inv in Hle. set_solver. }
  apply subseteq_size in Hsub. unfold ids_of in Hsub. rewrite size_list_to_set in Hsub by exact Hnd.
  by rewrite length_map in Hsub.
Qed.

Lemma enough_round f n done_ done' s :
  enough f (S n) done_ -> s ∈ pb_steps (f_playbook f) -> step_id s ∉ done_ ->
  done_ ⊆ done' -> step_id s ∈ done' -> enough f n done'.
Proof.
  intros He Hin Hnot Hsub Hs. assert (left_over f done' < left_over f done_)%nat as Hlt.
  { apply subset_size. assert (step_id s ∈ ids_of (f_playbook f)); [|set_solver].
    apply elem_of_list_to_set. by apply list_elem_of_fmap_2. }
  destruct He as [?|[? ?]]; [left; lia|right; split; [done|lia]].
Qed.

Lemma fuel_enough starved starved' f n : forall k outs done_ h, enough f n done_ ->
  steps_loop starved (n + k) f outs done_ h = steps_loop starved' n f outs done_ h.
Proof.
  induction n as [|n IH]; intros k outs done_ h He;
    destruct (Nat.le_gt_cases (length (pb_steps (f_playbook f))) (size done_)) as [Hge|Hlt].
  1,3: by rewrite !(steps_loop_end _ _ _ _ _ Hge).
  - apply enough_zero in He. lia.
  - cbn [Nat.add]. rewrite !(steps_loop_more _ _ _ _ _ Hlt). cbv zeta.
    destruct (get_ready_grows (pb_steps (f_playbook f)) done_ (f_inputs f) outs) as [Hd Hr].
    set (p := get_ready_steps _ _ _ _) in *. unfold mbind, stres_bind, modify_st.
    destruct (ps_ready p) as [|s l] eqn:El; [done|].
    destruct (run_ready_steps f (s :: l) (ps_outputs p) (ps_done p) _) as [[[result|outs' done']|e] h'] eqn:E;
      [done| |done].
    apply IH. apply run_ready_steps_done in E.
    destruct (Hr s) as [Hin Hnot]; [by left|]. apply (enough_round f n done_ done' s); try done; set_solver.
Qed.

(** C38: The execution of a playbook ends. The loop over ready steps, unbounded
    in the code, makes at most one round for each step of the playbook, whatever
    it resumes from, also when two steps have the same id: cut off after that
    many rounds, or after any larger number, it never reaches the cut, so that
    whatever two cuts would do ([starved], [starved']), the answer and the
    history are the same. *)
Theorem rounds_suffice starved starved' f k outs done_ h :
  steps_loop starved (rounds (f_playbook f) + k) f outs done_ h
  = steps_loop starved' (rounds (f_playbook f)) f outs done_ h.
Proof.
  apply fuel_enough. unfold enough, left_over, rounds.
  assert (size (ids_of (f_playbook f) ∖ done_) <= size (ids_of (f_playbook f)))%nat as Hle
    by (apply subseteq_size; set_solver).
  unfold ids_of in *. destruct (decide (NoDup (map step_id (pb_steps (f_playbook f))))) as [Hnd|Hnd].
  - right. split; [done|]. rewrite size_list_to_set, length_map in Hle by done. lia.
  - left. eapply Nat.le_lt_trans; [exact Hle|]. by apply dup_size.
Qed.
End playbook.

(** * At work *)
Import Sample.

Lemma nodup_ids pb : bool_decide (NoDup (map step_id (pb_steps pb))) = true -> NoDup (map step_id (pb_steps pb)).
Proof. apply bool_decide_eq_true. Qed.

(** The resumed run of the article begins with the steps the pause left. *)
Lemma steps_in_order_witness :
  exists ev, (run article resumed_inputs).2 = ev
    /\ marks 0 ev = [Begin "review"; Done "review"; Begin "check"; Done "check"]
    /\ "draft" ∈ (start_place who article resumed_inputs).2
    /\ forall before m after id, marks 0 ev = before ++ m :: after -> starts m = Some id ->
       id ∉ (start_place who article resumed_inputs).2 /\ id ∉ omap starts before
       /\ exists step, step ∈ pb_steps article /\ step_id step = id
            /\ forall d, d ∈ depends_on step -> d ∈ (start_place who article resumed_inputs).2 \/ d ∈ omap ends before.
Proof.
  destruct (steps_in_order max_depth who article resumed_inputs [] (run article resumed_inputs).1
    (run article resumed_inputs).2) as (ev & E & Hev);
    [done|apply nodup_ids; by vm_compute|apply surjective_pairing|].
  exists ev. split; [exact E|]. split; [|split; [|exact Hev]].
  - simpl in E. rewrite <- E. by vm_compute.
  - apply (bool_decide_unpack _). by vm_compute.
Defined.


Lemma completed_run_settles_every_step_witness :
  exists ev outs fo, (run article (approve "draft" topic)).2 = ev
    /\ omap ends (marks 0 ev) ≡ₚ ["draft"; "review"; "check"]
    /\ collect_final_outputs (pb_outputs article) outs = Ok fo
    /\ pget "step_outputs" straight = PDict outs /\ pget "outputs" straight = PDict fo.
Proof.
  destruct (completed_run_settles_every_step max_depth who article (approve "draft" topic) [] straight
    (run article (approve "draft" topic)).2) as (ev & sandbox & outs & fo & E & Hp & Hfo & Ho & Hf & _);
    [done|apply nodup_ids; by vm_compute| |by vm_compute|done|].
  - apply (bool_decide_unpack _). by vm_compute.
  - exists ev, outs, fo. split_and!; [exact E| |done|done|done]. exact Hp.
Defined.

(** A playbook none of whose remaining steps is wanted does not complete: the
    pass skips them, finds nothing ready and reports a cycle. *)
Lemma skipped_tail_is_circular :
  (run optional []).1 = Raise circular
  /\ marks 0 (run optional []).2 = [Begin "draft"; Done "draft"; Skip "post"].
Proof. by vm_compute. Qed.

(** A gate inside a nested playbook does not hold its parent: the pause is the
    output of the step, and the parent goes on. *)
Lemma nested_gate_is_passed :
  pget "status" (result_of (run parent [])) = PStr "completed"
  /\ marks 1 (run parent []).2 = [Begin "draft"; Done "draft"]
  /\ marks 0 (run parent []).2 = [Begin "inner"; Done "inner"; Begin "after"; Done "after"].
Proof. by vm_compute. Qed.
