(* ===== verification/PlaybookResume.v ===== *)
(** Pausing and resuming: however often a playbook is paused at its gates and
    resumed from the checkpoint of the pause, where it completes it has the
    outputs an uninterrupted run completes with, when its steps answer from their
    inputs. That it completes is not promised: a resumption may raise where the
    uninterrupted run does not ([resumption_is_circular]). *)
From S2P Require Import Prelude PyDict PyStr PyVal Scheduling PlaybookRun PlaybookTrace WorkflowSample PlaybookTheorems.

Section resume.
Context `{PyEval} `{Runtime} `{Sandboxes}.
Context (levels : nat) (ids : run_ids) (pb : PlaybookJson) (base : dict pyval).
Notation steps := (pb_steps pb).

(** The inputs of the runs differ in the decisions of the gates and in the
    checkpoint only. *)
Definition same_inputs (inputs : dict pyval) : Prop :=
  forall k, k ≠ "gate_decisions" -> k ≠ "_workflow_checkpoint" -> dget k inputs = dget k base.

Definition agree_on (names : list string) (outs outs' : dict pyval) : Prop :=
  forall d, d ∈ names -> dget d outs = dget d outs'.

(** What executing a step answers, and whether its condition holds, is
    determined by the outputs of the steps it depends on. *)
Record steady : Prop := {
  steady_value : forall step inputs inputs' sb sb' outs outs' v v',
    step ∈ steps -> same_inputs inputs -> same_inputs inputs' -> agree_on (depends_on step) outs outs' ->
    executes (run_frame levels ids pb inputs sb) step outs v ->
    executes (run_frame levels ids pb inputs' sb') step outs' v' -> v = v';
  steady_choice : forall step inputs inputs' outs outs' fin fin',
    step ∈ steps -> same_inputs inputs -> same_inputs inputs' -> agree_on (depends_on step) outs outs' ->
    met step fin = true -> met step fin' = true ->
    condition_holds step fin inputs outs = condition_holds step fin' inputs' outs';
}.

(** * What one step contributes, in any of the runs *)

Definition contributes (step : PlaybookStep) (s : place) (v : dict pyval) : Prop :=
  exists inputs h, same_inputs inputs
    /\ ((v = skipped_result /\ condition_holds step s.2 inputs s.1 = false)
        \/ (executes (run_frame levels ids pb inputs h) step s.1 v
            /\ exists s0, earlier s0 s /\ met step s0.2 = true
                 /\ condition_holds step s0.2 inputs s0.1 = true)).

Inductive chain : place -> place -> Prop :=
| ch_nil s : chain s s
| ch_step s step v s' :
    due steps s.2 step -> contributes step s v -> chain (settle (step_id step) v s) s' -> chain s s'.

Lemma chain_trans s1 s2 s3 : chain s1 s2 -> chain s2 s3 -> chain s1 s3.
Proof. intros H12 H23. induction H12; eauto using chain. Qed.

Lemma earlier_agree s0 s step : earlier s0 s -> met step s0.2 = true -> agree_on (depends_on step) s0.1 s.1.
Proof. intros [_ He] Hm d Hd. apply He. rewrite met_spec in Hm. auto. Qed.

(** Two contributions of a step at places that agree on its dependencies. *)
Lemma contributes_fun step s s' v v' :
  steady -> step ∈ steps -> agree_on (depends_on step) s.1 s'.1 ->
  met step s.2 = true -> met step s'.2 = true ->
  contributes step s v -> contributes step s' v' -> v = v'.
Proof.
  intros [Hval Hch] Hin Hag Hm Hm' (i & h & Hi & Hv) (i' & h' & Hi' & Hv').
  destruct Hv as [[-> Hc]|[He (s0 & He0 & Hm0 & Hc)]]; destruct Hv' as [[-> Hc']|[He' (s0' & He0' & Hm0' & Hc')]].
  - done.
  - rewrite (Hch step i i' s.1 s0'.1 s.2 s0'.2) in Hc; [by rewrite Hc in Hc'|done..| |done|done].
    intros d Hd. rewrite (Hag d Hd). symmetry. by apply (earlier_agree s0' s' step).
  - rewrite (Hch step i i' s0.1 s'.1 s0.2 s'.2) in Hc; [by rewrite Hc in Hc'|done..| |done|done].
    intros d Hd. rewrite <- (Hag d Hd). by apply (earlier_agree s0 s step).
  - by apply (Hval step i i' h h' s.1 s'.1).
Qed.

Lemma chain_earlier s s' : chain s s' -> earlier s s'.
Proof.
  induction 1 as [|s step v s' Hd _ _ IH]; [apply earlier_refl|].
  eapply earlier_trans; [|exact IH]. by apply earlier_settle, Hd.
Qed.

Lemma chain_settled s s' : chain s s' -> forall id, id ∈ s'.2 -> id ∉ s.2 ->
  exists step s1 v, step_id step = id /\ due steps s1.2 step /\ contributes step s1 v
    /\ earlier s1 s' /\ dget id s'.1 = Some (PDict v).
Proof.
  induction 1 as [|s step v s' Hd Hc Hch IH]; intros id Hid Hnot; [done|].
  destruct (decide (id = step_id step)) as [->|Hne].
  - exists step, s, v. pose proof (chain_earlier _ _ Hch) as Hear. split_and!; [done..| |].
    + eapply earlier_trans; [by apply earlier_settle, Hd|exact Hear].
    + rewrite <- (proj2 Hear); [apply dget_dset_eq|simpl; set_solver].
  - apply IH; [done|]. simpl. set_solver.
Qed.

(** Every step completed in two chains has the same output in both. *)
Lemma chains_agree s1 s2 : steady -> NoDup (map step_id steps) ->
  chain ([], ∅) s1 -> chain ([], ∅) s2 ->
  forall id, id ∈ s1.2 -> id ∈ s2.2 -> dget id s1.1 = dget id s2.1.
Proof.
  intros Hst Hnd Hc1 Hc2.
  assert (forall s s', chain s s' -> (forall id, id ∈ s.2 -> id ∈ s2.2 -> dget id s.1 = dget id s2.1) ->
    forall id, id ∈ s'.2 -> id ∈ s2.2 -> dget id s'.1 = dget id s2.1) as Hgen; [|by eapply Hgen].
  clear s1 Hc1. induction 1 as [|s step v s' Hd Hc Hch IH]; intros Hs; [done|]. apply IH.
  intros id Hid Hid2. simpl. rewrite dget_dset. case_bool_decide as Eid; [subst id|apply Hs; [simpl in Hid; set_solver|done]].
  destruct (chain_settled _ _ Hc2 (step_id step) Hid2) as (step' & s1 & v' & Eid & Hd' & Hc' & He & ->); [simpl; set_solver|].
  assert (step' = step) as -> by (apply (nodup_map_inj step_id steps); [done|apply Hd'|apply Hd|done]).
  do 2 f_equal. destruct Hd as (Hin & _ & Hm), Hd' as (_ & _ & Hm'). apply (contributes_fun step s s1); try done.
  intros d Hdd. rewrite met_spec in Hm, Hm'. rewrite (proj2 He) by auto. apply Hs; [auto|].
  apply (proj1 He). auto.
Qed.

(** Nothing else is recorded. *)
Lemma chain_only s s' : chain s s' -> (forall id, id ∉ s.2 -> dget id s.1 = None) ->
  forall id, id ∉ s'.2 -> dget id s'.1 = None.
Proof.
  induction 1 as [|s step v s' Hd Hc Hch IH]; intros Hs; [done|]. apply IH. intros id Hid.
  simpl in *. rewrite dget_dset_ne by set_solver. apply Hs. set_solver.
Qed.

Lemma progress_chain inputs h s ms s' : same_inputs inputs ->
  progress (run_frame levels ids pb inputs h) s ms s' -> chain s s'.
Proof.
  intros Hi. set (f := run_frame _ _ _ _ _). induction 1 as [|s step ms s' Hd Hc _ IH|s step v ms s' [Hd Hw] _ He _ IH].
  - apply ch_nil.
  - eapply ch_step; [exact Hd| |exact IH]. exists inputs, h. split; [done|]. by left.
  - eapply ch_step; [exact Hd| |exact IH]. exists inputs, h. split; [done|]. right. split; [done|].
    destruct Hw as (s0 & ? & (_ & _ & Hm) & ?). by exists s0.
Qed.

(** * Sessions *)

Definition answers (inputs result : dict pyval) : Prop :=
  exists h h', execute_playbook_steps levels ids pb inputs h = (Ok result, h').

(** The inputs carry the checkpoint of a pause and approve its gate. *)
Definition resumes (inputs paused : dict pyval) : Prop :=
  pget "status" paused = PStr "paused"
  /\ pget "_workflow_checkpoint" inputs = pget "checkpoint" paused
  /\ forall id, pget "paused_step_id" paused = PStr id ->
       py_eq (resolve_gate_action inputs id) (PStr "approved") = true.

(** A first run without a checkpoint, then runs that resume the pause of the
    run before; [result] is the answer of the last. *)
Inductive session : dict pyval -> Prop :=
| se_first inputs result :
    same_inputs inputs -> resolve_resume_checkpoint inputs (execution_id ids) (pb_code pb) = None ->
    answers inputs result -> session result
| se_next paused inputs result :
    session paused -> same_inputs inputs -> resumes inputs paused ->
    answers inputs result -> session result.

Lemma py_eq_opt o : py_eq (py_opt o) (py_opt o) = true.
Proof. destruct o; [apply bool_decide_true|]; done. Qed.

Lemma texts_texts l : texts (PList (map PStr l)) = l.
Proof. simpl. induction l; simpl; [done|]. by f_equal. Qed.

(** What a resumption reads of the checkpoint of a pause. *)
Lemma pause_checkpoint id g exec_id code sandbox fin outs po at_ :
  exists cp, pget "checkpoint" (build_gate_pause_result id g exec_id code sandbox fin outs po at_) = PDict cp
    /\ pget "execution_id" cp = py_opt exec_id /\ pget "playbook_code" cp = PStr code
    /\ pget "step_outputs" cp = PDict outs /\ pget "paused_step_id" cp = PStr id
    /\ pget "completed_steps" cp = PList (map PStr (elements fin)).
Proof. eexists. split; [reflexivity|]. by split_and!. Qed.

(** The place a run resumes at is the place of the pause. *)
Lemma resume_place f s step paused inputs :
  f_ids f = ids -> f_playbook f = pb -> step_id step ≠ "" ->
  pauses f s step paused -> resumes inputs paused ->
  exists v, executes f step s.1 v /\ picked f s step
    /\ start_place ids pb inputs = settle (step_id step) v s.
Proof.
  intros Hids Hpb Hne (Hpk & _ & g & v & po & at_ & He & _ & _ & ->) (_ & Hcp & Hok).
  exists v. split; [done|]. split; [done|]. specialize (Hok (step_id step) eq_refl).
  destruct (pause_checkpoint (step_id step) g (execution_id (f_ids f)) (pb_code (f_playbook f)) (f_sandbox f) s.2
    (dset (step_id step) (PDict v) s.1) po at_) as (cp & Ecp & Eid & Ecode & Eouts & Eps & Efin).
  rewrite Ecp in Hcp. rewrite Hids in Eid. rewrite Hpb in Ecode.
  unfold start_place, resolve_resume_checkpoint. rewrite Hcp, Eid, Ecode, py_eq_opt.
  replace (py_eq _ _) with true by (symmetry; by apply bool_decide_true). simpl.
  rewrite Eouts, Eps, Efin, texts_texts, Hok, bool_decide_false by done. simpl. unfold settle.
  do 2 f_equal. apply leibniz_equiv, list_to_set_elements.
Qed.

Lemma gate_pause_status f s step result : pauses f s step result -> pget "status" result = PStr "paused".
Proof. apply pause_fields. Qed.

(** Where the last run of a session stands. *)
Lemma session_post result : NoDup (map step_id steps) -> (levels <= max_depth)%nat ->
  (forall step, step ∈ steps -> step_id step ≠ "") -> session result ->
  exists inputs h s, same_inputs inputs /\ chain ([], ∅) s
    /\ ((exists step, pauses (run_frame levels ids pb inputs h) s step result)
        \/ completes (run_frame levels ids pb inputs h) s result).
Proof.
  intros Hnd Hl Hne Hs.
  assert (forall inputs result, same_inputs inputs -> chain ([], ∅) (start_place ids pb inputs) ->
    answers inputs result -> exists inputs h s, same_inputs inputs /\ chain ([], ∅) s
    /\ ((exists step, pauses (run_frame levels ids pb inputs h) s step result)
        \/ completes (run_frame levels ids pb inputs h) s result)) as Hrun.
  { intros i res Hi Hch (h & h' & E). destruct (run_marks _ _ _ _ _ _ _ Hl Hnd E) as (ev & sb & -> & Hpost).
    exists i, sb. destruct Hpost as [(s & Hp & Hc)|(ms0 & s & step & _ & Hp & Hpause)]; exists s;
      (split; [done|]; split; [eapply chain_trans; [exact Hch|by eapply progress_chain]|]); eauto. }
  induction Hs as [inputs result Hi Hf Ha|paused inputs result Hs IH Hi Hr Ha].
  - apply (Hrun inputs result Hi); [|done]. unfold start_place. rewrite Hf. apply ch_nil.
  - apply (Hrun inputs result Hi); [|done].
    destruct IH as (i0 & h0 & s & Hi0 & Hch & [(step & Hp)|(_ & fo & _ & ->)]); [|by destruct Hr].
    assert (step ∈ steps) as Hin by apply Hp.
    destruct (resume_place (run_frame levels ids pb i0 h0) s step paused inputs eq_refl eq_refl (Hne _ Hin) Hp Hr) as (v & He & [Hd Hw] & ->).
    eapply chain_trans; [exact Hch|]. eapply ch_step; [exact Hd| |apply ch_nil].
    exists i0, h0. split; [done|]. right. split; [done|]. destruct Hw as (s0 & ? & (_ & _ & ?) & ?). by exists s0.
Qed.

Lemma chain_within s s' : chain s s' -> s.2 ⊆ ids_of pb -> s'.2 ⊆ ids_of pb.
Proof.
  induction 1 as [|s step v s' Hd Hc Hch IH]; intros Hs; [done|]. apply IH. simpl.
  assert (step_id step ∈ ids_of pb); [|set_solver]. apply elem_of_list_to_set, list_elem_of_fmap_2, Hd.
Qed.

Lemma collect_agree defs outs outs' : (forall id, dget id outs = dget id outs') ->
  collect_final_outputs defs outs = collect_final_outputs defs outs'.
Proof.
  intros Ha. induction defs as [|[name source] r IH]; simpl; [done|]. rewrite IH.
  destruct (split "." source) as [|? [|id [|]]]; try done. by rewrite Ha.
Qed.

(** C12: completed sessions agree. Take a playbook whose steps answer from the
    outputs of what they depend on (and whose conditions depend on no more), and
    two sessions on it, each a first run and any number of runs that resume the
    checkpoint of the last pause with its gate approved. If both end completed
    (which is a condition: [resumption_is_circular] is a playbook an
    uninterrupted run completes and a resumed one does not), every step has the same recorded output in both, nothing else is recorded,
    and the final outputs are equal; in particular a paused and resumed run
    that completes gives what an uninterrupted one gives, although the order of
    its steps differs. *)
Theorem sessions_agree result1 result2 :
  (levels <= max_depth)%nat -> NoDup (map step_id steps) ->
  (forall step, step ∈ steps -> step_id step ≠ "") -> steady ->
  session result1 -> pget "status" result1 = PStr "completed" ->
  session result2 -> pget "status" result2 = PStr "completed" ->
  exists outs1 outs2,
    pget "step_outputs" result1 = PDict outs1 /\ pget "step_outputs" result2 = PDict outs2
    /\ (forall id, dget id outs1 = dget id outs2)
    /\ (forall id, id ∈ ids_of pb <-> is_Some (dget id outs1))
    /\ pget "outputs" result1 = pget "outputs" result2.
Proof.
  intros Hl Hnd Hne Hst.
  assert (forall result, session result -> pget "status" result = PStr "completed" ->
    exists s fo, chain ([], ∅) s /\ s.2 = ids_of pb /\ collect_final_outputs (pb_outputs pb) s.1 = Ok fo
      /\ pget "step_outputs" result = PDict s.1 /\ pget "outputs" result = PDict fo) as Hend.
  { intros result Hs Hc. destruct (session_post result Hnd Hl Hne Hs) as (i & h & s & _ & Hch & [(step & Hp)|(Hlen & fo & Hfo & ->)]).
    - apply gate_pause_status in Hp. by rewrite Hp in Hc.
    - exists s, fo. split_and!; try done.
      apply (complete_done (run_frame levels ids pb i h)); [done| |done]. eapply chain_within; [done|simpl; set_solver]. }
  intros Hs1 Hc1 Hs2 Hc2.
  destruct (Hend _ Hs1 Hc1) as (s1 & fo1 & Hch1 & Hf1 & Hfo1 & -> & ->).
  destruct (Hend _ Hs2 Hc2) as (s2 & fo2 & Hch2 & Hf2 & Hfo2 & -> & ->).
  assert (forall id, dget id s1.1 = dget id s2.1) as Ha.
  { intros id. destruct (decide (id ∈ ids_of pb)) as [Hin|Hout].
    - apply chains_agree; [done..| |]; [by rewrite Hf1|by rewrite Hf2].
    - by rewrite (chain_only _ _ Hch1), (chain_only _ _ Hch2) by (done || by rewrite ?Hf1, ?Hf2). }
  exists s1.1, s2.1. split_and!; [done|done|done| |].
  - intros id. split.
    + intros Hin. destruct (chain_settled _ _ Hch1 id) as (? & ? & v & _ & _ & _ & _ & ->); [by rewrite Hf1|simpl; set_solver|by eexists].
    + intros [v Hv]. destruct (decide (id ∈ ids_of pb)) as [|Hout]; [done|].
      by rewrite (chain_only _ _ Hch1) in Hv by (done || by rewrite Hf1).
  - rewrite (collect_agree _ _ _ Ha), Hfo2 in Hfo1. by injection Hfo1 as ->.
Qed.
End resume.

(** * At work *)
Import Sample.

(** What the tools of the sample answer. *)
Definition told (step : PlaybookStep) (outs : dict pyval) : dict pyval :=
  [("value", PStr (default "" (tool_slot step)));
   ("seen", PDict (map (fun d => (d, default PNone (dget d outs))) (depends_on step)))].

Lemma article_bound sub d step i outs index h : step ∈ pb_steps article ->
  exists h', execute_bound_step sub d who step i outs index h = (Ok (told step outs), h').
Proof. intros Hin. apply list_elem_of_In in Hin as [<-|[<-|[<-|[]]]]; eexists; by vm_compute. Qed.

Lemma article_told f step outs v : f_ids f = who -> step ∈ pb_steps article -> executes f step outs v -> v = told step outs.
Proof.
  intros Hids Hin (index & h & h' & E). unfold execute_single_step, observed in E.
  assert (given (for_each step) = None) as Hf
    by (by apply list_elem_of_In in Hin as [<-|[<-|[<-|[]]]]).
  rewrite Hf in E. apply st_bind_Ok_inv in E as (u & h1 & _ & E). apply on_raise_Ok in E.
  destruct (article_bound (f_sub f) (f_depth f) step (f_inputs f) outs index h1 Hin) as [h2 E'].
  rewrite Hids, E' in E. by injection E as <-.
Qed.

Lemma article_steady base : steady max_depth who article base.
Proof.
  split.
  - intros step i i' h h' outs outs' v v' Hin _ _ Ha He He'.
    apply article_told in He as ->; [|done..]. apply article_told in He' as ->; [|done..]. unfold told.
    do 4 f_equal. apply List.map_ext_in. intros d Hd. apply list_elem_of_In in Hd. by rewrite (Ha d Hd).
  - intros step i i' outs outs' fin fin' Hin _ _ _ _ _.
    by apply list_elem_of_In in Hin as [<-|[<-|[<-|[]]]].
Qed.

Lemma article_first inputs result : same_inputs topic inputs ->
  resolve_resume_checkpoint inputs (execution_id who) (pb_code article) = None ->
  (run article inputs).1 = Ok result -> session max_depth who article topic result.
Proof.
  intros Hi Hf E. apply (se_first _ _ _ _ inputs); [done|done|]. exists [], (run article inputs).2.
  rewrite <- E. apply surjective_pairing.
Qed.

Lemma approved_same id inputs : same_inputs topic inputs -> same_inputs topic (approve id inputs).
Proof. intros Hi k Hk Hk'. unfold approve. rewrite dget_dset_ne by done. by apply Hi. Qed.
Lemma resumed_same p inputs : same_inputs topic inputs -> same_inputs topic (resume_from p inputs).
Proof. intros Hi k Hk Hk'. unfold resume_from. rewrite dget_dset_ne by done. by apply Hi. Qed.

(** The paused and resumed article against the one that was approved at once:
    the same outputs, recorded in another order. *)
Lemma sessions_agree_witness :
  (forall id, dget id (dict_or_empty (pget "step_outputs" resumed)) = dget id (dict_or_empty (pget "step_outputs" straight)))
  /\ pget "outputs" resumed = pget "outputs" straight
  /\ dkeys (dict_or_empty (pget "step_outputs" resumed)) = ["draft"; "review"; "check"]
  /\ dkeys (dict_or_empty (pget "step_outputs" straight)) = ["draft"; "check"; "review"].
Proof.
  assert (same_inputs topic topic) as Ht by done.
  destruct (sessions_agree max_depth who article topic resumed straight) as (o1 & o2 & E1 & E2 & Ha & _ & Ho);
    [done|apply nodup_ids; by vm_compute| |apply article_steady| |done| |done|].
  - intros step Hin. by apply list_elem_of_In in Hin as [<-|[<-|[<-|[]]]].
  - apply (se_next _ _ _ _ paused resumed_inputs).
    + apply (article_first topic); [done|done|by vm_compute].
    + by apply resumed_same, approved_same.
    + split; [done|]. split; [done|]. intros id [= <-]. by vm_compute.
    + exists [], (run article resumed_inputs).2. by vm_compute.
  - apply (article_first (approve "draft" topic)); [by apply approved_same|done|by vm_compute].
  - rewrite E1, E2. split; [exact Ha|]. split; [exact Ho|]. injection E1 as <-. injection E2 as <-. by vm_compute.
Defined.

(** Pausing can cost the completion. The gated [a] comes first, so the pause
    leaves [c] and [e] for the resumed run; they run in one round, and the next
    finds [f] alone, whose condition is false: it skips it, has nothing ready and
    raises. The uninterrupted run skips [f] in the round that runs [e]. *)
Definition late_skip : PlaybookJson :=
  playbook "late" [with_gate (step "a" "write" []); step "c" "read" []; step "e" "send" ["a"];
                   with_condition "{{publish}}" (step "f" "send" ["c"])] [].

Lemma resumption_is_circular :
  pget "status" (result_of (run late_skip (approve "a" topic))) = PStr "completed"
  /\ let stopped := result_of (run late_skip topic) in
     pget "status" stopped = PStr "paused"
     /\ (run late_skip (resume_from stopped (approve "a" topic))).1 = Raise circular.
Proof. by vm_compute. Qed.
