(* ===== verification/RetryTheorems.v ===== *)
(** The retry loop of a workflow step: which attempts it makes, how long it
    waits between them, what it answers, and what that means for a workflow
    that stops on errors. What a policy asks for is stated here from its fields
    alone. *)
From S2P Require Import Prelude PyDict PyStr PyVal Scheduling WorkflowSample.

(** * What a policy asks for *)

(** The policy of a step: its own, or that of the kind of its playbook. *)
Definition policy_of (step : WorkflowStep) : RetryPolicy :=
  match retry_policy step, kind step with
  | Some policy, _ => policy
  | None, SYSTEM_TOOL => mkPolicy 3 (FFin 1 0) true []
  | None, USER_WORKFLOW => mkPolicy 1 (FFin 2 0) false []
  end.

(** The families of errors, in the order of their precedence. *)
Definition families : list (string * list string) :=
  [("timeout", ["timeout"; "timed out"]); ("network", ["network"; "connection"]);
   ("rate_limit", ["rate limit"; "quota"]); ("not_found", ["not found"; "missing"]);
   ("permission", ["permission"; "unauthorized"]); ("validation", ["validation"; "invalid"])].

Definition mentions (error : string) (words : list string) : bool :=
  existsb (fun w => contains w (lower error)) words.

Definition family_of (error : string) : string :=
  match List.find (fun family => mentions error family.2) families with
  | Some (name, _) => name
  | None => "unknown"
  end.

(** The errors a policy has retried: those it lists, or all when it lists none. *)
Definition asks_again (policy : RetryPolicy) (family : string) : Prop :=
  retryable_errors policy = [] \/ family ∈ retryable_errors policy.

#[export] Instance asks_again_dec policy family : Decision (asks_again policy family).
Proof. unfold asks_again. apply _. Defined.

(** The wait before attempt [i] (the first is attempt 0): the delay of the
    policy, doubled for each attempt after the second where it backs off. *)
Definition wait_before (policy : RetryPolicy) (i : Z) : seconds :=
  match retry_delay policy, exponential_backoff policy with
  | FFin m e, true => FFin m (e + (i - 1))
  | delay, _ => delay
  end.

Lemma default_policy step : default (default_retry_policy (kind step)) (retry_policy step) = policy_of step.
Proof. unfold policy_of, default_retry_policy. by destruct (retry_policy step), (kind step). Qed.

Lemma retryable_spec policy family : retryable policy family = bool_decide (asks_again policy family).
Proof.
  unfold retryable, asks_again.
  by destruct (decide (retryable_errors policy = [])), (decide (family ∈ retryable_errors policy));
    repeat (rewrite ?bool_decide_true by tauto; rewrite ?bool_decide_false by tauto).
Qed.

Lemma delay_spec i policy : calculate_retry_delay i policy = wait_before policy i.
Proof.
  unfold calculate_retry_delay, wait_before, scale.
  by destruct (exponential_backoff policy), (retry_delay policy).
Qed.

Lemma classify_spec error : classify_text error = family_of error.
Proof.
  unfold classify_text, family_of, mentions, families. simpl. rewrite !orb_false_r.
  repeat (destruct (_ || _); [done|]). done.
Qed.

(** * What one attempt decides *)

Inductive verdict : Type :=
| Final (result : dict pyval)          (** the answer of the loop *)
| Retry (last_error : pyval).

Definition exhausted (policy : RetryPolicy) (last_error : pyval) : dict pyval :=
  [("status", PStr "error"); ("error", py_or last_error (PStr "Unknown error"));
   ("attempts", PInt (max_retries policy + 1)); ("retries_exhausted", PBool true)].

(** An exception raised by attempt [i], which may be the last. *)
Definition exception_verdict (policy : RetryPolicy) (i : Z) (e : exn) : verdict :=
  let result exhausted :=
    [("status", PStr "error"); ("error", PStr (exn_str e)); ("error_type", PStr (family_of (exn_str e)));
     ("attempts", PInt (i + 1)); ("retries_exhausted", PBool exhausted)] in
  if decide (asks_again policy (family_of (exn_str e)))
  then if bool_decide (i = max_retries policy) then Final (result true) else Retry (PStr (exn_str e))
  else Final (result false).

(** An error that is not text cannot be classified: that is an exception too. *)
Definition verdict_of (policy : RetryPolicy) (i : Z) (r : res (dict pyval)) : verdict :=
  match r with
  | Raise e => exception_verdict policy i e
  | Ok result =>
      if status_is "completed" result then Final result else
      match pget_or "error" (PStr "Unknown error") result with
      | PStr s => if decide (asks_again policy (family_of s)) then Retry (PStr s) else Final result
      | v => exception_verdict policy i
               (AttributeError (repr_str (type_name v) +:+ " object has no attribute 'lower'"))
      end
  end.

(** * The trace of attempts *)

Inductive act : Type :=
| Tried (r : res (dict pyval))
| Slept (delay : seconds).

(** A step that answers from the attempts so far, and a clock. *)
Definition trying (world : list act -> res (dict pyval)) : stres (list act) (dict pyval) :=
  fun tr => (world tr, tr ++ [Tried (world tr)]).
Definition sleeping (delay : seconds) : stres (list act) unit := fun tr => (Ok tt, tr ++ [Slept delay]).

(** The acts of the attempts [i], [i + 1], ...: a wait before each but the
    first of all. *)
Definition attempt_acts (policy : RetryPolicy) (i : Z) (r : res (dict pyval)) : list act :=
  (if 0 <? i then [Slept (wait_before policy i)] else []) ++ [Tried r].

Fixpoint acts (policy : RetryPolicy) (i : Z) (rs : list (res (dict pyval))) : list act :=
  match rs with
  | [] => []
  | r :: rs => attempt_acts policy i r ++ acts policy (i + 1) rs
  end.

(** The attempts [rs] all decide for a retry. *)
Fixpoint all_retry (policy : RetryPolicy) (i : Z) (rs : list (res (dict pyval))) : Prop :=
  match rs with
  | [] => True
  | r :: rs => (exists e, verdict_of policy i r = Retry e) /\ all_retry policy (i + 1) rs
  end.

Section loop.
Context (world : list act -> res (dict pyval)) (policy : RetryPolicy).

Lemma run_attempt_eq i tr : i <= max_retries policy ->
  let tr1 := tr ++ (if 0 <? i then [Slept (wait_before policy i)] else []) in
  run_attempt (trying world) sleeping policy i tr =
    (Ok (match verdict_of policy i (world tr1) with Final d => Return d | Retry e => Again e end),
     tr ++ attempt_acts policy i (world tr1)).
Proof.
  intros Hi tr1. assert (forall e, failed_attempt policy i e =
    match exception_verdict policy i e with Final d => Return d | Retry v => Again v end) as Hf.
  { intros e. unfold failed_attempt, exception_verdict. rewrite classify_spec, retryable_spec.
    destruct (decide (asks_again _ _)); [rewrite bool_decide_true by done|by rewrite bool_decide_false by done]. simpl.
    case_bool_decide; destruct (Z.ltb_spec i (max_retries policy)); done || lia. }
  unfold attempt_acts. rewrite app_assoc. fold tr1.
  unfold run_attempt, try_attempt. rewrite delay_spec.
  assert (forall k : stres (list act) attempt_outcome,
    (_ ← (if 0 <? i then sleeping (wait_before policy i) else mret tt); k) tr = k tr1) as ->.
  { intros k. subst tr1. unfold mbind, stres_bind. destruct (0 <? i); simpl; by rewrite ?app_nil_r. }
  unfold mbind, stres_bind, trying. destruct (world tr1) as [result|e] eqn:Ew; simpl; [|by rewrite Hf].
  destruct (status_is "completed" result); [done|].
  destruct (pget_or "error" (PStr "Unknown error") result); simpl; rewrite ?Hf; try done.
  unfold mret, stres_ret. rewrite classify_spec, retryable_spec. by case_decide; case_bool_decide.
Qed.

Definition decides (i : Z) (rs : list (res (dict pyval))) (e0 : pyval) (result : dict pyval) : Prop :=
  (exists rs0 r, rs = rs0 ++ [r] /\ all_retry policy i rs0
     /\ verdict_of policy (i + Z.of_nat (length rs0)) r = Final result)
  \/ (all_retry policy i rs /\ i + Z.of_nat (length rs) = max_retries policy + 1
      /\ exists e, result = exhausted policy e
           /\ match last rs with
              | Some r => verdict_of policy (max_retries policy) r = Retry e
              | None => e = e0
              end).

Lemma loop_acts n : forall i e0 tr,
  0 <= i -> i + Z.of_nat n = max_retries policy + 1 ->
  exists rs result, attempts_loop (trying world) sleeping policy n i e0 tr = (Ok result, tr ++ acts policy i rs)
    /\ (length rs <= n)%nat /\ decides i rs e0 result.
Proof.
  induction n as [|n IH]; intros i e0 tr Hi Hn.
  - exists [], (exhausted policy e0). simpl. rewrite app_nil_r. split; [done|]. split; [lia|].
    right. split; [done|]. split; [simpl; lia|by exists e0].
  - simpl. unfold mbind, stres_bind. rewrite run_attempt_eq by lia.
    set (r := world _). destruct (verdict_of policy i r) as [d|e] eqn:Ev.
    + exists [r], d. simpl. rewrite app_nil_r. split; [done|]. split; [lia|]. left. exists [], r.
      simpl. by rewrite Z.add_0_r.
    + destruct (IH (i + 1) e (tr ++ attempt_acts policy i r)) as (rs & result & -> & Hlen & Hd); [lia|lia|].
      exists (r :: rs), result. simpl. rewrite app_assoc. split; [done|]. split; [lia|].
      destruct Hd as [(rs0 & r' & -> & Hall & Hv)|(Hall & Hlast & e' & -> & He')].
      * left. exists (r :: rs0), r'. split; [done|]. split; [split; [by eexists|done]|].
        rewrite <- Hv. f_equal. simpl. lia.
      * right. split; [split; [by eexists|done]|]. simpl length. split; [lia|].
        exists e'. split; [done|]. destruct rs as [|r' rs].
        -- simpl in *. subst e'. by replace (max_retries policy) with i by lia.
        -- rewrite last_cons_cons. destruct (last (r' :: rs)) eqn:El; [done|by apply last_None in El].
Qed.
End loop.

(** C35: what a step with retries does, for a policy of at most 1024 retries.
    Against any step (which may answer from its earlier attempts) the loop never
    raises; it makes at most [max_retries + 1] attempts and no attempt after one
    that completed; before each attempt but the first it waits the delay of the
    policy, doubled from attempt to attempt where it backs off ([wait_before]);
    all its attempts but the last ended in an error that the policy lists, or in
    any error where it lists none ([asks_again]), the error being of the first
    family one of whose words it contains ([family_of]); and its answer is what
    the last attempt decides (its own result when it completed or its error is
    not listed), or the exhausted error that carries the last error once every
    attempt is used up. A result that neither completed nor names an error, such
    as a pause, counts as an unknown error here ([pause_is_retried]). *)
Theorem retry_exact step world :
  let policy := policy_of step in
  0 <= max_retries policy <= 1024 ->
  exists rs0 r result,
    execute_step_with_retry step (trying world) sleeping [] = (Ok result, acts policy 0 (rs0 ++ [r]))
    /\ Z.of_nat (length rs0) <= max_retries policy
    /\ all_retry policy 0 rs0
    /\ match verdict_of policy (Z.of_nat (length rs0)) r with
       | Final d => result = d
       | Retry e => Z.of_nat (length rs0) = max_retries policy /\ result = exhausted policy e
       end.
Proof.
  intros policy Hn. unfold execute_step_with_retry. rewrite default_policy. fold policy.
  destruct (loop_acts world policy (Z.to_nat (max_retries policy + 1)) 0 PNone []) as (rs & result & -> & Hlen & Hd);
    [lia|lia|].
  destruct Hd as [(rs0 & r & -> & Hall & Hv)|(Hall & Hlast & e & -> & He)].
  - exists rs0, r, result. rewrite length_app in Hlen. simpl in Hlen. rewrite Z.add_0_l in Hv. rewrite Hv. split_and!; [done|lia|done|done].
  - destruct rs as [|r rs0 _] using rev_ind; [simpl in Hlast; lia|].
    exists rs0, r, (exhausted policy e). rewrite last_snoc in He. rewrite length_app in Hlast. simpl in Hlast.
    replace (Z.of_nat (length rs0)) with (max_retries policy) by lia. rewrite He.
    split_and!; [done|lia| |done|done]. clear -Hall. revert Hall. generalize 0.
    induction rs0 as [|r0 rs0 IH]; intros i; simpl; [done|]. intros [? ?]. split; [done|]. auto.
Qed.

(** * At work *)

(** A system tool that times out twice. *)
Definition tool_step : WorkflowStep := mkWorkflowStep "tool" SYSTEM_TOOL [] [] None None RETRY_THEN_STOP.
Definition flaky (tr : list act) : res (dict pyval) :=
  if (length tr <? 4)%nat then Raise (ValueError "timed out") else Ok [("status", PStr "completed")].

Lemma retry_exact_witness :
  exists rs0 r result,
    execute_step_with_retry tool_step (trying flaky) sleeping []
      = (Ok result, acts (policy_of tool_step) 0 (rs0 ++ [r]))
    /\ Z.of_nat (length rs0) <= 3 /\ all_retry (policy_of tool_step) 0 rs0
    /\ result = [("status", PStr "completed")]
    /\ acts (policy_of tool_step) 0 (rs0 ++ [r])
         = [Tried (Raise (ValueError "timed out")); Slept (FFin 1 0); Tried (Raise (ValueError "timed out"));
            Slept (FFin 1 1); Tried (Ok [("status", PStr "completed")])].
Proof.
  destruct (retry_exact tool_step flaky) as (rs0 & r & result & E & Hlen & Hall & _); [by vm_compute|].
  exists rs0, r, result. split; [exact E|]. split; [exact Hlen|]. split; [exact Hall|].
  injection E as E1 E2. split; [|rewrite <- E2; by vm_compute]. rewrite <- E1. by vm_compute.
Defined.

(** A pause is not a completion, and carries no error: with the default policy
    the playbook is run again, and the answer is an error, not the pause. *)
Definition playbook_step : WorkflowStep := mkWorkflowStep "article" USER_WORKFLOW [] [] None None STOP_WORKFLOW.
Lemma pause_is_retried :
  execute_step_with_retry playbook_step (trying (fun _ => Ok [("status", PStr "paused")])) sleeping []
  = (Ok [("status", PStr "error"); ("error", PStr "Unknown error"); ("attempts", PInt 2);
         ("retries_exhausted", PBool true)],
     [Tried (Ok [("status", PStr "paused")]); Slept (FFin 2 0); Tried (Ok [("status", PStr "paused")])]).
Proof. by vm_compute. Qed.

(** A step that stops its workflow after retries does not stop it on an error
    that is not retried. *)
Definition strict_step : WorkflowStep :=
  mkWorkflowStep "tool" SYSTEM_TOOL [] [] None (Some (mkPolicy 3 (FFin 1 0) true ["timeout"])) RETRY_THEN_STOP.
Lemma fatal_error_does_not_stop :
  let r := (execute_step_with_retry strict_step (trying (fun _ => Raise (ValueError "permission denied")))
              sleeping []).1 in
  exists result, r = Ok result /\ pget "status" result = PStr "error"
    /\ should_stop_workflow_after_error strict_step result = false.
Proof. eexists. split; [by vm_compute|]. by vm_compute. Qed.
