(* ===== verification/HandoffTheorems.v ===== *)
(** Theorems of the execution of a handoff plan: each playbook is started at
    most once and after what it depends on has completed, nothing starts after
    a pause or an error that stops the workflow, and the waves end. *)
From S2P Require Import Prelude PyDict PyStr PyVal Scheduling PlaybookRun Handoff Traces WorkflowSample.

(** * Marks *)

Inductive hmark : Type :=
| Started (code : string)
| Settled (code : string) (result : dict pyval).

Definition note_mark (n : note) : option hmark :=
  match n with
  | NStart code => Some (Started code)
  | NResult code result => Some (Settled code result)
  | NSleep _ | NPlaybook _ _ => None
  end.

Definition started (m : hmark) : option string :=
  match m with Started code => Some code | Settled _ _ => None end.

(** A run of a playbook for [code] was settled as completed. *)
Definition completed_in (code : string) (l : list hmark) : Prop :=
  exists result, Settled code result ∈ l /\ status_is "completed" result = true.

Section handoff.
Context `{PyEval} `{Runtime} `{Sandboxes} `{StepInputs}.
Context (ids : run_ids) (graph : dict (gset string)) (playbook_inputs : dict pyval)
        (plan : dict WorkflowStep).

(** Every start is the first of its code, and what the code depends on has
    completed before. *)
Definition orderly (l : list hmark) : Prop :=
  forall before code after, l = before ++ Started code :: after ->
    code ∉ omap started before
    /\ forall d, d ∈ default ∅ (dget code graph) -> completed_in d before.

(** What the scheduler keeps, against the marks so far, while the steps [busy]
    have started and are not settled. *)
Record plan_ok (busy : list string) (s : plan_state) (l : list hmark) : Prop := {
  plan_wf : dict_wf (pending s);
  plan_codes : forall code step, dget code (pending s) = Some step ->
    playbook_code step = code /\ dget code plan = Some step;
  plan_started : forall code, code ∈ omap started l -> code ∈ completed s \/ code ∈ busy;
  plan_keys : forall code, code ∈ dkeys (pending s) -> code ∉ completed s;
  plan_results : forall code r, dget code (results s) = Some r ->
    code ∈ completed s /\ (r = skipped_result \/ Settled code r ∈ l);
}.

(** ** One selection of ready steps *)

Record ready_ok (s0 : plan_state) (l : list hmark) (todo : list string)
    (acc : list WorkflowStep * plan_state) : Prop := {
  ro_plan : plan_ok [] acc.2 l;
  ro_less : forall code step, dget code (pending acc.2) = Some step -> dget code (pending s0) = Some step;
  ro_length : (length (pending acc.2) <= length (pending s0))%nat;
  ro_todo : forall code, code ∈ todo -> code ∈ dkeys (pending acc.2);
  ro_distinct : NoDup (map playbook_code acc.1);
  ro_fresh : forall step, step ∈ acc.1 ->
    dget (playbook_code step) (pending acc.2) = Some step /\ playbook_code step ∉ todo
    /\ forall d, d ∈ default ∅ (dget (playbook_code step) graph) -> completed_in d l;
}.

Lemma met_completed s l deps : plan_ok [] s l -> dependencies_met deps s = true ->
  forall d, d ∈ deps -> completed_in d l.
Proof.
  intros Hp Hm d Hd. unfold dependencies_met in Hm. rewrite List.forallb_forall in Hm.
  specialize (Hm d). rewrite <- list_elem_of_In, elem_of_elements in Hm.
  apply andb_prop in Hm as [_ Hs]; [|done].
  destruct (dget d (results s)) as [r|] eqn:E; [|done]. simpl in Hs.
  destruct (plan_results _ _ _ Hp _ _ E) as [_ [->|Hin]]; [done|]. by exists r.
Qed.

Lemma ddel_length {V} k (d : dict V) : (length (ddel k d) <= length d)%nat
  /\ (k ∈ dkeys d -> (length (ddel k d) < length d)%nat).
Proof.
  induction d as [|[k' v] d [IH1 IH2]]; simpl; [split; [lia|by intros ?%elem_of_nil]|].
  case_bool_decide; simpl; [lia|]. split; [lia|]. intros [?|Hk]%elem_of_cons; [done|]. specialize (IH2 Hk). lia.
Qed.

Lemma keys_ddel {V} k x (d : dict V) : x ∈ dkeys d -> x ≠ k -> x ∈ dkeys (ddel k d).
Proof.
  intros Hin Hne. destruct (dget x (ddel k d)) as [v|] eqn:E; [by eapply dget_Some_keys|].
  rewrite dget_ddel_ne in E by done. by apply dget_None_keys in E.
Qed.

Lemma skip_ok s l code : plan_ok [] s l -> code ∈ dkeys (pending s) -> plan_ok [] (skip_pending code s) l.
Proof.
  intros [Hwf Hc Hst Hk Hr] Hin. constructor; simpl.
  - by apply dict_wf_ddel.
  - intros c step. rewrite dget_ddel. case_bool_decide; [done|apply Hc].
  - intros c Hs. apply Hst in Hs. set_solver.
  - intros c [Hc' Hne]%dkeys_ddel_subseteq. apply Hk in Hc'. set_solver.
  - intros c r. rewrite dget_dset. case_bool_decide as E; [intros [= <-]; subst; split; [set_solver|by left]|].
    intros [? ?]%Hr. split; [set_solver|done].
Qed.

Lemma ready_same s0 l code todo acc : ready_ok s0 l (code :: todo) acc -> ready_ok s0 l todo acc.
Proof.
  intros [Hp Hl Hn Ht Hd Hf]. constructor; try done.
  - intros c Hc. apply Ht. by right.
  - intros st Hst. destruct (Hf st Hst) as (? & ? & ?). split_and!; [done|set_solver|done].
Qed.

Lemma ready_add s0 l step todo ready s :
  ready_ok s0 l (playbook_code step :: todo) (ready, s) -> playbook_code step ∉ todo ->
  dget (playbook_code step) (pending s) = Some step ->
  (forall d, d ∈ default ∅ (dget (playbook_code step) graph) -> completed_in d l) ->
  ready_ok s0 l todo (ready ++ [step], s).
Proof.
  intros Hok Hnot Hget Hdeps. pose proof (ro_fresh _ _ _ _ Hok) as Hf0.
  destruct (ready_same _ _ _ _ _ Hok) as [Hp Hl Hn Ht Hd Hf]. constructor; try done; simpl in *.
  - rewrite map_app. apply NoDup_app. split; [done|]. split; [|apply NoDup_singleton].
    intros c Hc E%list_elem_of_singleton. apply list_elem_of_fmap in Hc as (st & -> & Hst).
    destruct (Hf0 st Hst) as (_ & Hn' & _). set_solver.
  - intros st [Hst| ->%list_elem_of_singleton]%elem_of_app; auto.
Qed.

Lemma ready_skip s0 l code todo ready s :
  ready_ok s0 l (code :: todo) (ready, s) -> code ∉ todo -> ready_ok s0 l todo (ready, skip_pending code s).
Proof.
  intros [Hp Hl Hn Ht Hd Hf] Hnot. simpl in *.
  assert (code ∈ dkeys (pending s)) as Hin by (apply Ht; by left). constructor; simpl; try done.
  - by apply skip_ok.
  - intros c st. rewrite dget_ddel. case_bool_decide; [done|apply Hl].
  - etransitivity; [apply ddel_length|exact Hn].
  - intros c Hc. apply keys_ddel; [apply Ht; by right|]. by intros ->.
  - intros st Hst. destruct (Hf st Hst) as (? & Hn' & ?). split_and!; [|set_solver|done].
    rewrite dget_ddel_ne; [done|]. intros E. apply Hn'. rewrite E. by left.
Qed.

Lemma get_parallel_ok s l : plan_ok [] s l ->
  ready_ok s l [] (get_ready_steps_for_parallel graph playbook_inputs s).
Proof.
  intros Hp. unfold get_ready_steps_for_parallel.
  assert (forall items acc, (forall x, x ∈ items -> x ∈ pending s) -> NoDup (map fst items) ->
    ready_ok s l (map fst items) acc ->
    ready_ok s l [] (fold_left (ready_pending graph playbook_inputs) items acc)) as Hgen.
  { induction items as [|[code step] items IH]; intros [ready s1] Hsub Hnd Hok; simpl; [done|].
    simpl in Hnd. apply NoDup_cons in Hnd as [Hnot Hnd]. apply IH; [set_solver|done|].
    assert (dget code (pending s) = Some step) as Hget0
      by (apply elem_of_dget; [apply Hp|apply Hsub; by left]).
    destruct (plan_codes _ _ _ Hp _ _ Hget0) as [Hcode _].
    assert (dget code (pending s1) = Some step) as Hget.
    { destruct (dget code (pending s1)) as [step'|] eqn:E.
      - apply (ro_less _ _ _ _ Hok) in E. by rewrite Hget0 in E.
      - apply dget_None_keys in E. destruct E. apply (ro_todo _ _ _ _ Hok). by left. }
    subst code. pose proof (ready_same _ _ _ _ _ Hok) as Hsame. unfold ready_pending.
    case_bool_decide; [done|]. case_bool_decide as Hdeps.
    - destruct (evaluate_condition _ _ _ _); [|done]. apply ready_add; [done..|]. rewrite Hdeps. set_solver.
    - destruct (dependencies_met _ _) eqn:Hmet; [|done]. destruct (evaluate_condition _ _ _ _).
      + apply ready_add; [done..|]. by eapply met_completed; [apply Hok|].
      + by apply ready_skip. }
  apply Hgen; [done|apply Hp|]. constructor; simpl; try done; [constructor|].
  by intros st ?%elem_of_nil.
Qed.

(** ** One wave *)

Notation quiet c := (Traces.adds (Traces.silent note_mark) c).
Notation marking := (Traces.marking note_mark).

Lemma quiet_retry (step : WorkflowStep) c : quiet c ->
  quiet (execute_step_with_retry step c (fun delay => note_it (NSleep delay))).
Proof.
  intros Hc. unfold execute_step_with_retry. set (policy := default _ _).
  generalize (Z.to_nat (max_retries policy + 1)) 0 PNone.
  induction n as [|n IH]; intros i e; simpl; [apply quiet_st_ret|].
  apply quiet_st_bind; [|intros [result|e']; [apply quiet_st_ret|apply IH]].
  assert (quiet (try_attempt c (fun delay => note_it (NSleep delay)) policy i)) as Hq.
  { unfold try_attempt. apply quiet_st_bind; [|intros _].
    - destruct (0 <? i); [by apply quiet_append|apply quiet_st_ret].
    - apply quiet_st_bind; [done|]. intros result. destruct (status_is _ _); [apply quiet_st_ret|].
      apply quiet_st_bind; [apply quiet_lift|intros; apply quiet_st_ret]. }
  intros h r h' E. unfold run_attempt in E.
  destruct (try_attempt _ _ _ _ h) as [[o|e0] h1] eqn:Et; injection E as <- <-;
    apply Hq in Et as (ev & -> & Hev); by exists ev.
Qed.

Lemma quiet_workflow_step step ctx prev : quiet (execute_workflow_step ids step ctx prev).
Proof.
  unfold execute_workflow_step. destruct (load_playbook_json _) as [pb|]; [|apply quiet_raise].
  apply quiet_st_bind; [apply quiet_lift|intros i]. intros h r h' E. unfold run_noted in E.
  destruct (execute_playbook_steps _ _ _ _ _) as [r0 h0]. injection E as <- <-. eexists. by split.
Qed.

Lemma start_marks step ctx prev :
  marking (fun _ ms => ms = [Started (playbook_code step)]) (_execute_step_with_retry ids ctx prev step).
Proof.
  unfold _execute_step_with_retry. eapply marking_bind; [apply marking_append|by intros e ms [? _]|].
  intros u ms [_ ->]. eapply marking_weaken; [apply marking_quiet, quiet_retry, quiet_workflow_step|].
  by intros r ms ->.
Qed.

Lemma gather_marks ctx prev l :
  marking (fun r ms => ms = map (fun s => Started (playbook_code s)) l /\ exists rs, r = Ok rs /\ length rs = length l)
    (gather (map (_execute_step_with_retry ids ctx prev) l)).
Proof.
  induction l as [|step l IH]; simpl; [apply marking_ret; split; [done|by exists []]|].
  intros h r h' E. destruct (_execute_step_with_retry ids ctx prev step h) as [x h1] eqn:Ex.
  apply start_marks in Ex as (ev1 & -> & E1). unfold mbind, stres_bind in E.
  destruct (gather _ (h ++ ev1)) as [r2 h2] eqn:Eg. apply IH in Eg as (ev2 & -> & E2 & rs & -> & Hrs).
  injection E as <- <-. exists (ev1 ++ ev2). rewrite app_assoc. split; [done|].
  rewrite marks_app, E1, E2. split; [done|]. exists (x :: rs). split; [done|]. simpl. by rewrite Hrs.
Qed.

(** [m] ends the workflow: a pause, or an error its step stops on. *)
Definition halting (m : hmark) : bool :=
  match m with
  | Started _ => false
  | Settled code result =>
      status_is "paused" result
      || match dget code plan with Some step => should_stop_workflow_after_error step result | None => false end
  end.

Definition ends_at_halt (l : list hmark) : Prop :=
  forall before m after, l = before ++ m :: after -> halting m = true -> after = [].

Lemma ends_cons m l : halting m = false -> ends_at_halt l -> ends_at_halt (m :: l).
Proof.
  intros Hm Hl [|m' before] x after E Hx; injection E as <- E; [by rewrite Hm in Hx|by eapply Hl].
Qed.
Lemma ends_one m : ends_at_halt [m].
Proof. intros [|m' [|]] x after E Hx; by simplify_eq/=. Qed.
Lemma ends_app l1 l2 : (forall m, m ∈ l1 -> halting m = false) -> ends_at_halt l2 -> ends_at_halt (l1 ++ l2).
Proof.
  induction l1 as [|m l1 IH]; simpl; intros Hl1 Hl2; [done|]. apply ends_cons; [apply Hl1; by left|].
  apply IH; [|done]. intros x Hx. apply Hl1. by right.
Qed.

Lemma record_ok busy s l step r :
  plan_ok (playbook_code step :: busy) s l -> dget (playbook_code step) (pending s) = Some step ->
  plan_ok busy (record_result step r s) (l ++ [Settled (playbook_code step) r]).
Proof.
  intros [Hwf Hc Hst Hk Hr] Hget. constructor; simpl.
  - by apply dict_wf_ddel.
  - intros c st. rewrite dget_ddel. case_bool_decide; [done|apply Hc].
  - intros c Hs. rewrite omap_app in Hs. simpl in Hs. rewrite app_nil_r in Hs. apply Hst in Hs. set_solver.
  - intros c [Hc' Hne]%dkeys_ddel_subseteq. apply Hk in Hc'. set_solver.
  - intros c r0. rewrite dget_dset. case_bool_decide as E.
    + intros [= <-]. subst c. set_solver.
    + intros [? [->|?]]%Hr; set_solver.
Qed.

Definition settled_post (s : plan_state) (l : list hmark) (n : nat) (r : res settled_wave) (ms : list hmark) : Prop :=
  omap started ms = [] /\ ends_at_halt ms
  /\ match r with
     | Ok (WaveDone s' _) => plan_ok [] s' (l ++ ms) /\ (length (pending s') + n <= length (pending s))%nat
                             /\ forall m, m ∈ ms -> halting m = false
     | _ => True
     end.

Lemma settle_marks items : forall s ctx l,
  plan_ok (map (fun x => playbook_code x.1) items) s l -> NoDup (map (fun x => playbook_code x.1) items) ->
  (forall x, x ∈ items -> dget (playbook_code x.1) (pending s) = Some x.1) ->
  marking (settled_post s l (length items)) (settle_wave items s ctx).
Proof.
  induction items as [|[step x] items IH]; intros s ctx l Hp Hnd Hget; simpl.
  - apply marking_ret. split; [done|]. split; [by intros []|]. rewrite app_nil_r. split; [done|]. split; [lia|].
    by intros m ?%elem_of_nil.
  - set (result := normalize_parallel_step_result x). simpl in Hnd, Hp. apply NoDup_cons in Hnd as [Hnew Hnd].
    assert (dget (playbook_code step) (pending s) = Some step) as Hst by (apply (Hget (step, x)); by left).
    destruct (plan_codes _ _ _ Hp _ _ Hst) as [_ Hplan].
    eapply marking_bind; [apply marking_append|by intros e ms [? _]|]. intros u ms [_ ->].
    set (m := Settled (playbook_code step) result). change (Traces.marks note_mark _) with [m].
    assert (forall r, ~ (exists s' c, r = Ok (WaveDone s' c)) -> settled_post s l (S (length items)) r ([m] ++ [])) as Hone.
    { intros r Hr. split; [done|]. split; [apply ends_one|]. destruct r as [[]|]; try done. destruct Hr. by eexists _, _. }
    destruct (status_is "paused" result) eqn:Hpause; [apply marking_ret, Hone; by intros (? & ? & ?)|].
    eapply marking_bind; [apply marking_lift|intros e ms [_ ->]; apply Hone; by intros (? & ? & ?)|].
    intros ctx' ms [_ ->]. destruct (should_stop_workflow_after_error step result) eqn:Hstop;
      [apply marking_ret, Hone; by intros (? & ? & ?)|].
    assert (halting m = false) as Hm by (simpl; by rewrite Hpause, Hplan, Hstop).
    assert (length (pending (record_result step result s)) < length (pending s))%nat as Hlen
      by (apply ddel_length; by eapply dget_Some_keys).
    eapply marking_weaken; [apply (IH _ ctx' (l ++ [m])); [by apply record_ok|done|]|].
    + intros y Hy. simpl. rewrite dget_ddel_ne; [apply Hget; by right|]. intros E. apply Hnew. rewrite <- E.
      by apply list_elem_of_fmap_2 with (f := fun x => playbook_code x.1).
    + intros r ms (Hs1 & Hs2 & Hs3). split; [done|]. split; [by apply ends_cons|].
      destruct r as [[| |s' c']|]; try done. destruct Hs3 as (Hp' & Hn & Hall). simpl. rewrite <- app_assoc in Hp'.
      split; [done|]. split; [lia|]. intros m' [->|?]%elem_of_cons; auto.
Qed.

(** ** The waves *)

Lemma orderly_app l ms : orderly l -> omap started ms = [] -> orderly (l ++ ms).
Proof.
  intros Hl Hms before code after E. apply app_eq_inv in E as [(k & -> & E)|(k & -> & E)].
  - destruct k as [|m k]; [simpl in E; subst ms; discriminate Hms|]. injection E as <- E. by apply (Hl _ _ k).
  - subst ms. rewrite omap_app in Hms. simpl in Hms. by apply app_nil in Hms as [_ [=]].
Qed.

Lemma completed_in_app d l ms : completed_in d l -> completed_in d (l ++ ms).
Proof. intros (r & Hin & Hs). exists r. split; [set_solver|done]. Qed.

Lemma omap_started (ready : list WorkflowStep) :
  omap started (map (fun s => Started (playbook_code s)) ready) = map playbook_code ready.
Proof. induction ready; simpl; [done|by f_equal]. Qed.

Lemma orderly_starts s0 l ready s : orderly l -> ready_ok s0 l [] (ready, s) ->
  orderly (l ++ map (fun s => Started (playbook_code s)) ready).
Proof.
  intros Hl Hok. destruct Hok as [Hp _ _ _ Hnd Hf]. simpl in *.
  assert (forall rd, Forall (fun st => st ∈ ready) rd -> NoDup (map playbook_code rd) ->
    orderly (l ++ map (fun s => Started (playbook_code s)) rd)) as Hgen.
  { induction rd as [|st rd IH] using rev_ind; intros Hsub Hnd'; simpl; [by rewrite app_nil_r|].
    apply Forall_app in Hsub as [Hsub Hst]. apply Forall_inv in Hst. rewrite map_app in Hnd'. rewrite map_app.
    apply NoDup_app in Hnd' as (Hnd' & Hdis & _). specialize (IH Hsub Hnd').
    assert (playbook_code st ∉ omap started (l ++ map (fun s => Started (playbook_code s)) rd)
      /\ forall d, d ∈ default ∅ (dget (playbook_code st) graph) ->
           completed_in d (l ++ map (fun s => Started (playbook_code s)) rd)) as Hfresh.
    { destruct (Hf _ Hst) as (Hget & _ & Hdeps). split; [|intros d Hd; by apply completed_in_app, Hdeps].
      rewrite omap_app, omap_started. intros [Hin|Hin]%elem_of_app; [|apply (Hdis _ Hin); by left].
      apply (plan_started _ _ _ Hp) in Hin as [Hin|?]; [|set_solver].
      eapply (plan_keys _ _ _ Hp); [by eapply dget_Some_keys|done]. }
    intros before code after E. rewrite app_assoc in E. simpl in E.
    apply app_eq_inv in E as [(k & E1 & E2)|(k & -> & E)].
    - destruct k as [|m k]; simpl in E2; [injection E2 as -> _|injection E2 as <- _; by apply (IH _ _ k)].
      rewrite app_nil_r in E1. by subst before.
    - destruct k as [|m [|]]; simpl in E; try done. injection E as <-. by rewrite app_nil_r. }
  apply Hgen; [|done]. apply Forall_forall. auto.
Qed.

Lemma plan_busy s l ready : plan_ok [] s l ->
  plan_ok (map playbook_code ready) s (l ++ map (fun s => Started (playbook_code s)) ready).
Proof.
  intros [Hwf Hc Hst Hk Hr]. constructor; try done.
  - intros c. rewrite omap_app, omap_started. intros [Hin|Hin]%elem_of_app; [|by right]. apply Hst in Hin. set_solver.
  - intros c r [? [?|?]]%Hr; set_solver.
Qed.

Lemma combine_codes (ready : list WorkflowStep) (rs : list (res (dict pyval))) : length rs = length ready ->
  map (fun x => playbook_code x.1) (combine ready rs) = map playbook_code ready.
Proof. revert rs. induction ready as [|s l IH]; intros [|r rs] E; try done. simpl. f_equal. apply IH. by injection E. Qed.

Lemma wave_marks ready s s0 l ctx prev :
  orderly l -> (forall m, m ∈ l -> halting m = false) -> ready_ok s0 l [] (ready, s) ->
  marking (fun r ms => orderly (l ++ ms) /\ ends_at_halt ms
      /\ match r with
         | Ok (WaveDone s' _) => plan_ok [] s' (l ++ ms) /\ (length (pending s') + length ready <= length (pending s))%nat
                                 /\ forall m, m ∈ ms -> halting m = false
         | _ => True
         end)
    (rs ← gather (map (_execute_step_with_retry ids ctx prev) ready); settle_wave (combine ready rs) s ctx).
Proof.
  intros Ho Hh Hok. pose proof (orderly_starts _ _ _ _ Ho Hok) as Hstart. destruct Hok as [Hp _ _ _ Hnd Hf]. simpl in *.
  eapply marking_bind; [apply gather_marks|by intros e ms (_ & ? & ? & _)|].
  intros rs ms (-> & rs' & [= <-] & Hrs). set (st := map (fun s => Started (playbook_code s)) ready) in *.
  assert (forall m, m ∈ st -> halting m = false) as Hst by (unfold st; by intros m (x & -> & _)%list_elem_of_fmap).
  eapply marking_weaken; [apply (settle_marks _ _ _ (l ++ st))| ].
  - rewrite combine_codes by done. by apply plan_busy.
  - by rewrite combine_codes.
  - intros [x r] Hx. apply list_elem_of_In, in_combine_l, list_elem_of_In in Hx. by apply Hf.
  - intros r ms (Hs1 & Hs2 & Hs3). rewrite app_assoc. split; [by apply orderly_app|]. split; [by apply ends_app|].
    destruct r as [[| |s' c']|]; try done. destruct Hs3 as (Hp' & Hn & Hall). split; [done|]. split.
    + rewrite length_combine in Hn. lia.
    + intros m [?|?]%elem_of_app; auto.
Qed.

Definition wave (ready : list WorkflowStep) (s : plan_state) (ctx : dict pyval) : stres (list note) settled_wave :=
  rs ← gather (map (_execute_step_with_retry ids ctx (build_previous_results (results s))) ready);
  settle_wave (combine ready rs) s ctx.

Lemma waves_round n s ctx h : pending s ≠ [] ->
  waves (S n) ids graph playbook_inputs s ctx h =
  (let '(ready, s) := get_ready_steps_for_parallel graph playbook_inputs s in
   match ready with
   | [] => mret (completed_workflow s ctx)
   | _ => w ← wave ready s ctx;
          match w with
          | WavePaused result => mret result
          | WaveStopped s ctx => mret (completed_workflow s ctx)
          | WaveDone s ctx => waves n ids graph playbook_inputs s ctx
          end
   end) h.
Proof.
  intros Hne. cbn [waves]. destruct (pending s); [done|].
  destruct (get_ready_steps_for_parallel _ _ _) as [[|st ready] s1]; [done|].
  unfold wave, mbind, stres_bind. by destruct (gather _ h) as [[] ?].
Qed.

Lemma waves_marks n : forall s ctx l,
  plan_ok [] s l -> orderly l -> (forall m, m ∈ l -> halting m = false) ->
  marking (fun _ ms => orderly (l ++ ms) /\ ends_at_halt ms) (waves n ids graph playbook_inputs s ctx).
Proof.
  induction n as [|n IH]; intros s ctx l Hp Ho Hh;
    (assert (orderly (l ++ []) /\ ends_at_halt []) as Hnil by (rewrite app_nil_r; split; [done|by intros []]));
    (destruct (decide (pending s = [])) as [Epend|Hne]; [cbn [waves]; rewrite Epend; by apply marking_ret|]).
  - cbn [waves]. destruct (pending s); [done|]. by apply marking_raise.
  - pose proof (get_parallel_ok s l Hp) as Hok. intros h r h' E. rewrite waves_round in E by done. revert h r h' E.
    destruct (get_ready_steps_for_parallel _ _ _) as [ready s1].
    change (marking (fun _ ms => orderly (l ++ ms) /\ ends_at_halt ms)
      (match ready with
       | [] => mret (completed_workflow s1 ctx)
       | _ => w ← wave ready s1 ctx;
              match w with
              | WavePaused result => mret result
              | WaveStopped s ctx => mret (completed_workflow s ctx)
              | WaveDone s ctx => waves n ids graph playbook_inputs s ctx
              end
       end)).
    destruct ready as [|st ready]; [by apply marking_ret|].
    eapply marking_bind; [by eapply wave_marks|by intros e ms (? & ? & _)|].
    intros [result|s2 c2|s2 c2] ms (Ho' & He' & Hdone); [apply marking_ret; by rewrite app_nil_r..|].
    destruct Hdone as (Hp2 & _ & Hall). eapply marking_weaken; [apply (IH s2 c2 (l ++ ms)); [done|done|]|].
    + intros m [?|?]%elem_of_app; auto.
    + intros r ms' [Ho2 He2]. rewrite app_assoc. split; [done|by apply ends_app].
Qed.

(** Every wave that goes on settles a step that was pending. *)
Lemma waves_fuel n : forall k s ctx l h,
  plan_ok [] s l -> orderly l -> (forall m, m ∈ l -> halting m = false) -> (length (pending s) <= n)%nat ->
  waves (n + k) ids graph playbook_inputs s ctx h = waves n ids graph playbook_inputs s ctx h.
Proof.
  induction n as [|n IH]; intros k s ctx l h Hp Ho Hh Hn; (destruct (decide (pending s = [])) as [Epend|Hne];
    [destruct k; cbn [waves Nat.add]; by rewrite Epend|]).
  - apply Nat.le_0_r, length_zero_iff_nil in Hn. done.
  - cbn [Nat.add]. rewrite !waves_round by done. pose proof (get_parallel_ok s l Hp) as Hok.
    destruct (get_ready_steps_for_parallel _ _ _) as [[|st ready] s1]; [done|].
    unfold mbind, stres_bind. destruct (wave (st :: ready) s1 ctx h) as [[[|s2 c2|s2 c2]|] h1] eqn:E; try done.
    eapply wave_marks in E as (ev & -> & Ho' & _ & Hp2 & Hlen & Hall); [|done|done|exact Hok].
    apply (IH k s2 c2 (l ++ Traces.marks note_mark ev)); [done|done| |].
    + intros m [?|?]%elem_of_app; auto.
    + apply ro_length in Hok. simpl in *. lia.
Qed.

(** ** The whole plan *)

Lemma plan_start done_ : dict_wf plan -> (forall code step, dget code plan = Some step -> playbook_code step = code) ->
  done_ = ∅ -> plan_ok [] (mkPlan plan done_ []) [].
Proof.
  intros Hwf Hc ->. constructor; simpl; try done; [auto|by intros c ?%elem_of_nil].
Qed.
End handoff.

Lemma pending_of_ok steps : dict_wf (pending_of steps)
  /\ forall code step, dget code (pending_of steps) = Some step -> playbook_code step = code /\ step ∈ steps.
Proof.
  unfold pending_of. assert (forall l d, l ⊆ steps -> dict_wf d ->
    (forall code step, dget code d = Some step -> playbook_code step = code /\ step ∈ steps) ->
    let q := fold_left (fun d step => dset (playbook_code step) step d) l d in
    dict_wf q /\ forall code step, dget code q = Some step -> playbook_code step = code /\ step ∈ steps) as Hgen.
  { induction l as [|s l IH]; intros d Hl Hwf Hd; simpl; [done|]. apply IH; [set_solver|by apply dict_wf_dset|].
    intros code step. rewrite dget_dset. case_bool_decide; [intros [= <-]; subst; set_solver|apply Hd]. }
  apply Hgen; [done|apply dict_wf_nil|done].
Qed.

Section plan.
Context `{PyEval} `{Runtime} `{Sandboxes} `{StepInputs}.

(** C36: a handoff plan runs its playbooks in order. Whatever the playbooks
    answer, a playbook is started at most once (its retries are attempts of one
    start), and only after every playbook its inputs refer to was settled as
    completed; and a settled result that pauses, or that its step's error
    handling stops on, is the last thing the plan starts or settles. What
    settles is what the retries leave: under the default policy a playbook that
    pauses is run again and settles as an error
    ([RetryTheorems.pause_is_retried]), after which a step that continues on
    errors lets later playbooks start. *)
Theorem handoff_order ids steps context r notes :
  execute_workflow ids steps context [] = (r, notes) ->
  let trace := Traces.marks note_mark notes in
  (forall before code after, trace = before ++ Started code :: after ->
     code ∉ omap started before
     /\ forall d, d ∈ default ∅ (dget code (build_dependency_graph steps)) -> completed_in d before)
  /\ (forall before code result after step, trace = before ++ Settled code result :: after ->
        dget code (pending_of steps) = Some step ->
        status_is "paused" result || should_stop_workflow_after_error step result = true -> after = []).
Proof.
  intros E. destruct (pending_of_ok steps) as [Hwf Hc].
  assert (plan_ok (pending_of steps) [] (mkPlan (pending_of steps) ∅ []) []) as Hp
    by (apply plan_start; [done|intros code step Hs; by apply Hc|done]).
  eapply (waves_marks ids (build_dependency_graph steps) context) in E as (ev & -> & Ho & He);
    [|exact Hp|by intros []|by intros m ?%elem_of_nil].
  split; [exact Ho|]. intros before code result after step Et Hs Hh. apply (He _ _ _ Et). simpl. by rewrite Hs.
Qed.

Lemma pending_length steps : (length (pending_of steps) <= length steps)%nat.
Proof.
  unfold pending_of. assert (forall l (d : dict WorkflowStep),
    (length (fold_left (fun d step => dset (playbook_code step) step d) l d) <= length l + length d)%nat) as Hgen;
    [|specialize (Hgen steps []); simpl in Hgen; lia].
  induction l as [|s l IH]; intros d; simpl; [lia|]. etransitivity; [apply IH|].
  assert (length (dset (playbook_code s) s d) <= S (length d))%nat; [|lia].
  rewrite <- !(length_map fst). change (map fst ?x) with (dkeys x). rewrite dkeys_dset.
  destruct (dmem _ _); rewrite ?length_app; simpl; unfold dkeys; lia.
Qed.

(** A handoff plan ends. The loop over its pending playbooks, unbounded in
    the code, runs at most one wave for each step of the plan: more waves give
    the same answer and the same notes. *)
Theorem handoff_waves_suffice ids steps context k notes :
  waves (length steps + k) ids (build_dependency_graph steps) context
    (mkPlan (pending_of steps) ∅ []) context notes
  = execute_workflow ids steps context notes.
Proof.
  destruct (pending_of_ok steps) as [Hwf Hc].
  apply (waves_fuel ids (build_dependency_graph steps) context (pending_of steps)) with (l := []).
  - apply plan_start; [done|intros code step Hs; by apply Hc|done].
  - by intros [].
  - by intros m ?%elem_of_nil.
  - apply pending_length.
Qed.
End plan.

(** * At work *)
Import Sample.

Definition handoff_step (code : string) (inputs : dict pyval) (c : option string) : WorkflowStep :=
  mkWorkflowStep code USER_WORKFLOW inputs [] c (Some (mkPolicy 1 (FFin 2 0) false ["network"])) STOP_WORKFLOW.

(** The second playbook reads what the first answers; the third fails. *)
Definition chained : list WorkflowStep :=
  [handoff_step "parent" [] None; handoff_step "failing" [("of", PStr "$previous.parent.outputs")] None;
   handoff_step "optional" [("of", PStr "$previous.failing.outputs")] None].

Lemma handoff_order_witness :
  exists r notes, execute_workflow who chained [] [] = (r, notes)
    /\ omap started (Traces.marks note_mark notes) = ["parent"; "failing"]
    /\ (forall before code after, Traces.marks note_mark notes = before ++ Started code :: after ->
          code ∉ omap started before
          /\ forall d, d ∈ default ∅ (dget code (build_dependency_graph chained)) -> completed_in d before)
    /\ default ∅ (dget "failing" (build_dependency_graph chained)) = {["parent"]}.
Proof.
  destruct (execute_workflow who chained [] []) as [r notes] eqn:E.
  destruct (handoff_order who chained [] r notes E) as [Ho _].
  exists r, notes. split; [done|]. split; [|split; [exact Ho|by vm_compute]].
  assert (notes = (execute_workflow who chained [] []).2) as -> by (by rewrite E). by vm_compute.
Defined.

(** A plan whose remaining steps can never be ready reports completion; so does
    a step without dependencies whose condition is false. *)
Lemma stuck_is_completed :
  forall steps, steps = [handoff_step "failing" [("of", PStr "$previous.parent.outputs")] None;
                         handoff_step "parent" [("of", PStr "$previous.failing.outputs")] None]
             \/ steps = [handoff_step "parent" [] (Some "{{publish}}")] ->
  execute_workflow who steps [] [] = (Ok [("status", PStr "completed"); ("steps", PDict []); ("context", PDict [])], []).
Proof. by intros steps [-> | ->]; vm_compute. Qed.
