(* ===== verification/KnowledgeContracts.v ===== *)
(** Knowledge authorization, the values (services/knowledge_authorization/
    contracts.py, write_contracts.py, identity.py,
    workspace_authorization_revision.py, access_context_factory.py): principals,
    memberships, permissions, the context of a request and how it is built from
    verified identities, grants and resource identities. *)
From stdpp Require Import sorting.
From S2P Require Import Prelude PyDict PyStr PyVal PyJson PyTime.

(** * Sorted sets of frozen dataclasses

    A dataclass with [order=True] compares its fields in turn, by code point. *)
Fixpoint fields_le (a b : list string) : bool :=
  match a, b with
  | [], _ => true
  | _, [] => false
  | x :: a, y :: b =>
      match String.compare x y with Lt => true | Gt => false | Eq => fields_le a b end
  end.

(** [tuple(sorted(set(l)))] *)
Definition sorted_set {A} `{EqDecision A} (fields : A -> list string) (l : list A) : list A :=
  merge_sort (fun a b => fields_le (fields a) (fields b)) (remove_dups l).

Definition member {A} `{EqDecision A} (x : A) (l : list A) : bool := bool_decide (x ∈ l).

(** * Contracts (contracts.py) *)

(** [^[A-Za-z0-9][A-Za-z0-9_.:@/+~-]{0,255}$] *)
Definition ascii_alnum (c : ascii) : bool :=
  let n := code c in
  (is_digit c || (65 <=? n) && (n <=? 90) || (97 <=? n) && (n <=? 122))%N.
Definition token_char (c : ascii) : bool :=
  ascii_alnum c || bool_decide (c ∈ ["_"; "."; ":"; "@"; "/"; "+"; "~"; "-"]%char).
Definition is_token (s : string) : bool :=
  match s with
  | EmptyString => false
  | String c r => ascii_alnum c && str_forall token_char r && (String.length r <=? 255)%nat
  end.

Definition _required_token (value field_name : string) : res string :=
  let normalized := strip value in
  if is_token normalized then Ok normalized
  else Raise (ValueError ("knowledge_authorization_invalid_" +:+ field_name)).

Definition _PRINCIPAL_TYPES : list string := ["user"; "workspace_role"; "group_role"; "service"].
Definition _SCOPE_TYPES : list string := ["tenant"; "workspace"; "group"].
Definition _PERMISSIONS : list string :=
  ["knowledge.read"; "knowledge.read_all_scope"; "knowledge.manage_acl"; "knowledge.project"].

Definition one_of (allowed : list string) (code : string) (x : string) : res unit :=
  if member x allowed then Ok tt else Raise (ValueError code).

Record PrincipalRef : Type := mkPrincipalRef { p_type : string; p_id : string }.
#[export] Instance PrincipalRef_eq_dec : EqDecision PrincipalRef.
Proof. solve_decision. Defined.

Definition new_PrincipalRef (type id : string) : res PrincipalRef :=
  t ← _required_token type "principal_type";
  _ ← one_of _PRINCIPAL_TYPES "knowledge_authorization_principal_type_forbidden" t;
  i ← _required_token id "principal_id";
  Ok (mkPrincipalRef t i).

Definition principal_fields (p : PrincipalRef) : list string := [p_type p; p_id p].
Definition key (p : PrincipalRef) : string := p_type p +:+ ":" +:+ p_id p.
Definition principal_as_dict (p : PrincipalRef) : pyval :=
  PDict [("type", PStr (p_type p)); ("id", PStr (p_id p))].

Record ScopeMembership : Type := mkMembership {
  m_scope_type : string;
  m_scope_id : string;
  m_role : string;
  m_revision : string;
}.
#[export] Instance ScopeMembership_eq_dec : EqDecision ScopeMembership.
Proof. solve_decision. Defined.

Definition new_ScopeMembership (scope_type scope_id role revision : string) : res ScopeMembership :=
  t ← _required_token scope_type "scope_type";
  _ ← one_of _SCOPE_TYPES "knowledge_authorization_scope_type_forbidden" t;
  i ← _required_token scope_id "scope_id";
  r ← _required_token role "role";
  v ← _required_token revision "membership_revision";
  Ok (mkMembership t i r v).

Definition membership_fields (m : ScopeMembership) : list string :=
  [m_scope_type m; m_scope_id m; m_role m; m_revision m].
Definition membership_as_dict (m : ScopeMembership) : pyval :=
  PDict [("scope_type", PStr (m_scope_type m)); ("scope_id", PStr (m_scope_id m));
         ("role", PStr (m_role m)); ("revision", PStr (m_revision m))].

(** The role a membership adds to the principals. *)
Definition principal (m : ScopeMembership) : res PrincipalRef :=
  let id := m_scope_id m +:+ ":" +:+ m_role m in
  if bool_decide (m_scope_type m = "workspace") then new_PrincipalRef "workspace_role" id
  else if bool_decide (m_scope_type m = "group") then new_PrincipalRef "group_role" id
  else Raise (ValueError "knowledge_authorization_tenant_role_principal_unsupported").

Record KnowledgePermission : Type := mkPermission {
  k_name : string;
  k_scope_type : string;
  k_scope_id : string;
}.
#[export] Instance KnowledgePermission_eq_dec : EqDecision KnowledgePermission.
Proof. solve_decision. Defined.

Definition new_KnowledgePermission (name scope_type scope_id : string) : res KnowledgePermission :=
  n ← _required_token name "permission";
  _ ← one_of _PERMISSIONS "knowledge_authorization_permission_forbidden" n;
  t ← _required_token scope_type "scope_type";
  _ ← one_of _SCOPE_TYPES "knowledge_authorization_scope_type_forbidden" t;
  i ← _required_token scope_id "scope_id";
  Ok (mkPermission n t i).

Definition permission_fields (k : KnowledgePermission) : list string :=
  [k_name k; k_scope_type k; k_scope_id k].
Definition permission_as_dict (k : KnowledgePermission) : pyval :=
  PDict [("name", PStr (k_name k)); ("scope_type", PStr (k_scope_type k));
         ("scope_id", PStr (k_scope_id k))].

Record AgentExecutionMask : Type := mkMask {
  a_role : string;
  a_policy_revision : string;
  a_topology_snapshot_id : string;
}.

Definition new_AgentExecutionMask (role policy_revision topology_snapshot_id : string)
    : res AgentExecutionMask :=
  r ← _required_token role "agent_role";
  p ← _required_token policy_revision "agent_policy_revision";
  t ← _required_token topology_snapshot_id "topology_snapshot_id";
  Ok (mkMask r p t).

Definition mask_as_dict (a : AgentExecutionMask) : pyval :=
  PDict [("role", PStr (a_role a)); ("policy_revision", PStr (a_policy_revision a));
         ("topology_snapshot_id", PStr (a_topology_snapshot_id a))].

Record RetrievalAccessContext : Type := mkAccess {
  subject_user_id : string;
  tenant_id : string;
  principals : list PrincipalRef;
  memberships : list ScopeMembership;
  permissions : list KnowledgePermission;
  principal_set_hash : string;
  agent_mask : option AgentExecutionMask;
}.

Definition sha256_text (s : string) : string := Sha256.hexdigest (utf8 s).

(** [json.dumps(value, ensure_ascii=..., separators=(",", ":"), sort_keys=True)] *)
Definition canonical_json (ensure_ascii : bool) (v : pyval) : res string :=
  json_dumps ensure_ascii true v.

(** The memberships of workspaces and groups have a principal. *)
Definition has_principal (m : ScopeMembership) : bool := member (m_scope_type m) ["workspace"; "group"].

Definition context_payload (subject tenant : string) (ps : list PrincipalRef)
    (ms : list ScopeMembership) (ks : list KnowledgePermission) (mask : option AgentExecutionMask)
    : pyval :=
  PDict [("subject_user_id", PStr subject); ("tenant_id", PStr tenant);
         ("principals", PList (map principal_as_dict ps));
         ("memberships", PList (map membership_as_dict ms));
         ("permissions", PList (map permission_as_dict ks));
         ("agent_mask", match mask with Some a => mask_as_dict a | None => PNone end)].

Definition create (subject tenant : string) (ps : list PrincipalRef) (ms : list ScopeMembership)
    (ks : list KnowledgePermission) (mask : option AgentExecutionMask) : res RetrievalAccessContext :=
  normalized_subject ← _required_token subject "subject_user_id";
  normalized_tenant ← _required_token tenant "tenant_id";
  let normalized_memberships := sorted_set membership_fields ms in
  let normalized_permissions := sorted_set permission_fields ks in
  roles ← seq_res (map principal (List.filter has_principal normalized_memberships));
  let normalized_principals := sorted_set principal_fields (ps ++ roles) in
  user ← new_PrincipalRef "user" normalized_subject;
  if negb (member user normalized_principals)
  then Raise (ValueError "knowledge_authorization_subject_principal_required")
  else
  encoded ← canonical_json false (context_payload normalized_subject normalized_tenant
              normalized_principals normalized_memberships normalized_permissions mask);
  Ok (mkAccess normalized_subject normalized_tenant normalized_principals normalized_memberships
        normalized_permissions (sha256_text encoded) mask).

Definition principal_keys (c : RetrievalAccessContext) : list string := map key (principals c).

Definition has_permission (c : RetrievalAccessContext) (name scope_type scope_id : string) : res bool :=
  target ← new_KnowledgePermission name scope_type scope_id;
  Ok (member target (permissions c)).

(** * Stable identities (identity.py) *)

Definition _SEPARATOR : string := String (ascii_of_N 31) "".

Definition _stable_id (prefix : string) (parts : list string) : res string :=
  let normalized := map strip parts in
  if member "" normalized then Raise (ValueError (prefix +:+ "_identity_part_required"))
  else Ok (prefix +:+ "_" +:+ sha256_text (join _SEPARATOR normalized)).

Definition knowledge_resource_id (capability source_kind source_ref scope_type scope_id : string)
    : res string :=
  _stable_id "kr" [capability; source_kind; source_ref; scope_type; scope_id].
Definition security_label_id (resource_id : string) : res string := _stable_id "ksl" [resource_id].
Definition security_grant_id (label_id principal_type principal_id relation effect : string) : res string :=
  _stable_id "kg" [label_id; principal_type; principal_id; relation; effect].
Definition acl_mutation_id (resource_id : string) (authz_revision : Z) (diff_digest : string) : res string :=
  _stable_id "kam" [resource_id; str_int authz_revision; diff_digest].

(** * Write contracts (write_contracts.py) *)

Definition _SOURCE_KINDS : list string := ["object"; "artifact"; "memory"; "document"].
Definition _CLASSIFICATIONS : list string := ["private"; "workspace"; "group"].
Definition _RELATIONS : list string := ["reader"; "editor"; "owner"; "ingester"].
Definition _EFFECTS : list string := ["allow"; "deny"].

Definition _required (value field_name : string) : res string :=
  let normalized := strip value in
  if bool_decide (normalized = "") then Raise (ValueError ("knowledge_write_" +:+ field_name +:+ "_required"))
  else Ok normalized.

Record KnowledgeResourceIdentity : Type := mkIdentity {
  i_tenant_id : string;
  owner_capability_code : string;
  source_kind : string;
  source_app : string;
  source_id : string;
  source_ref : string;
  source_revision : string;
  owner_scope_type : string;
  owner_scope_id : string;
  classification : string;
}.

Definition new_KnowledgeResourceIdentity (i : KnowledgeResourceIdentity) : res KnowledgeResourceIdentity :=
  tenant ← _required (i_tenant_id i) "tenant_id";
  capability ← _required (owner_capability_code i) "owner_capability_code";
  app ← _required (source_app i) "source_app";
  id ← _required (source_id i) "source_id";
  ref ← _required (source_ref i) "source_ref";
  revision ← _required (source_revision i) "source_revision";
  scope_id ← _required (owner_scope_id i) "owner_scope_id";
  _ ← one_of _SOURCE_KINDS "knowledge_write_source_kind_forbidden" (source_kind i);
  _ ← one_of _SCOPE_TYPES "knowledge_write_owner_scope_type_forbidden" (owner_scope_type i);
  _ ← one_of _CLASSIFICATIONS "knowledge_write_classification_forbidden" (classification i);
  Ok (mkIdentity tenant capability (source_kind i) app id ref revision (owner_scope_type i) scope_id
        (classification i)).

Record KnowledgeGrant : Type := mkKGrant {
  g_principal : PrincipalRef;
  g_relation : string;
  g_effect : string;
  g_valid_from : option Z;
  g_valid_until : option Z;
}.
#[export] Instance KnowledgeGrant_eq_dec : EqDecision KnowledgeGrant.
Proof. solve_decision. Defined.

Definition window_ok (valid_from valid_until : option Z) : bool :=
  match valid_from, valid_until with Some a, Some b => a <? b | _, _ => true end.

Definition new_KnowledgeGrant (p : PrincipalRef) (relation effect : string)
    (valid_from valid_until : option Z) : res KnowledgeGrant :=
  _ ← one_of _RELATIONS "knowledge_write_grant_relation_forbidden" relation;
  _ ← one_of _EFFECTS "knowledge_write_grant_effect_forbidden" effect;
  if window_ok valid_from valid_until then Ok (mkKGrant p relation effect valid_from valid_until)
  else Raise (ValueError "knowledge_write_grant_validity_invalid").

Definition grant_key (g : KnowledgeGrant) : list string :=
  [p_type (g_principal g); p_id (g_principal g); g_relation g; g_effect g].
Definition time_text (t : option Z) : string := match t with Some t => isoformat t | None => "" end.
Definition grant_fields (g : KnowledgeGrant) : list string :=
  grant_key g ++ [time_text (g_valid_from g); time_text (g_valid_until g)].

Record KnowledgeAclMutation : Type := mkMutation {
  expected_authz_revision : Z;
  m_grants : list KnowledgeGrant;
}.

Definition new_KnowledgeAclMutation (expected : Z) (grants : list KnowledgeGrant) : res KnowledgeAclMutation :=
  if expected <? 1 then Raise (ValueError "knowledge_write_expected_revision_invalid")
  else match sorted_set grant_fields grants with
       | [] => Raise (ValueError "knowledge_write_acl_grants_required")
       | normalized => Ok (mkMutation expected normalized)
       end.

Record KnowledgeResourceBinding : Type := mkKBinding {
  b_resource_id : string;
  b_label_id : string;
  b_authz_revision : Z;
  b_partition_hash : string;
  b_created : bool;
}.

(** * The context of a request (access_context_factory.py) *)

Definition RetrievalScopeDenied (code : string) : exn := OtherError "RetrievalScopeDenied" code.

(** [workspace_authorization_revision.py] *)
Definition required_part (value code : string) : res string :=
  let token := strip value in
  if bool_decide (token = "") then Raise (ValueError code) else Ok token.

Definition workspace_authorization_revision (workspace_id owner_user_id visibility : string) : res string :=
  w ← required_part workspace_id "knowledge_workspace_authorization_id_missing";
  o ← required_part owner_user_id "knowledge_workspace_authorization_owner_missing";
  v ← required_part visibility "knowledge_workspace_authorization_visibility_missing";
  text ← canonical_json true (PDict [("owner_user_id", PStr o); ("visibility", PStr v); ("workspace_id", PStr w)]);
  Ok (sha256_text text).

(** What the stores of workspaces and groups answer, and the verified identity
    of a request; the claims of a token are JSON. *)
Record workspace_info : Type := mkWorkspaceInfo {
  wi_id : string;
  wi_owner_user_id : string;
  wi_visibility : string;
}.
Record group_info : Type := mkGroupInfo { gi_owner_user_id : string; gi_revision : string }.

Class Directory : Type := {
  workspace_lookup : string -> option workspace_info;
  group_lookup : string -> option group_info;
}.

Record auth : Type := mkAuth {
  au_user_id : string;
  au_tenant_id : string;
  au_cloud_mode : bool;
  au_workspace_ids : list string;
  au_group_ids : list string;
  au_workspace_memberships : pyval;
  au_group_memberships : pyval;
  au_knowledge_permissions : pyval;
}.

Definition _mapping_items (value : pyval) : list (dict pyval) :=
  match value with
  | PList l => omap (fun v => match v with PDict d => Some d | _ => None end) l
  | _ => []
  end.

(** [str(value or "").strip()] *)
Definition text_of (v : pyval) : string := strip (py_str (py_or v (PStr ""))).

(** [sorted({str(item).strip() ...})] without the empty one. *)
Definition stripped_set (l : list string) : list string :=
  List.filter (fun s => negb (bool_decide (s = ""))) (map strip l).
Definition requested (l : list string) : list string := sorted_set (fun s => [s]) (stripped_set l).

Definition scope_result : Type := (list ScopeMembership * list KnowledgePermission)%type.

Definition _owner_permissions (scope_type scope_id : string) : res (list KnowledgePermission) :=
  seq_res (map (fun name => new_KnowledgePermission name scope_type scope_id) _PERMISSIONS).

(** One workspace of which the subject is the owner, and one group. *)
Definition local_workspace `{Directory} (subject workspace_id : string) (acc : scope_result)
    : res scope_result :=
  match workspace_lookup workspace_id with
  | None => Raise (RetrievalScopeDenied "knowledge_workspace_scope_forbidden")
  | Some w =>
      if negb (bool_decide (wi_owner_user_id w = subject))
      then Raise (RetrievalScopeDenied "knowledge_workspace_scope_forbidden")
      else
      revision ← match workspace_authorization_revision (wi_id w) (wi_owner_user_id w) (wi_visibility w) with
                 | Raise (ValueError msg) => Raise (RetrievalScopeDenied msg)
                 | r => r
                 end;
      m ← new_ScopeMembership "workspace" workspace_id "owner" revision;
      ks ← _owner_permissions "workspace" workspace_id;
      Ok (acc.1 ++ [m], acc.2 ++ ks)
  end.

Definition local_group `{Directory} (subject group_id : string) (acc : scope_result) : res scope_result :=
  match group_lookup group_id with
  | None => Raise (RetrievalScopeDenied "knowledge_group_scope_forbidden")
  | Some g =>
      if negb (bool_decide (gi_owner_user_id g = subject))
      then Raise (RetrievalScopeDenied "knowledge_group_scope_forbidden")
      else if bool_decide (strip (gi_revision g) = "")
      then Raise (RetrievalScopeDenied "knowledge_group_owner_revision_missing")
      else
      m ← new_ScopeMembership "group" group_id "owner" (strip (gi_revision g));
      ks ← _owner_permissions "group" group_id;
      Ok (acc.1 ++ [m], acc.2 ++ ks)
  end.

Fixpoint each {A B} (f : A -> B -> res B) (l : list A) (acc : B) : res B :=
  match l with
  | [] => Ok acc
  | x :: r => acc ← f x acc; each f r acc
  end.

Definition _build_local_scope `{Directory} (subject : string) (workspace_ids group_ids : list string)
    : res scope_result :=
  acc ← each (local_workspace subject) workspace_ids ([], []);
  each (local_group subject) group_ids acc.

(** A claimed membership or permission, which counts in a requested scope. *)
Definition cloud_membership (wanted : list (string * string)) (raw : dict pyval) (ms : list ScopeMembership)
    : res (list ScopeMembership) :=
  let scope_type := text_of (pget "scope_type" raw) in
  let scope_id := text_of (py_or (pget "scope_id" raw) (pget "id" raw)) in
  if negb (member (scope_type, scope_id) wanted) then Ok ms else
  let role := text_of (pget "role" raw) in
  let revision := text_of (pget "revision" raw) in
  if bool_decide (role = "") || bool_decide (revision = "") then Ok ms else
  m ← new_ScopeMembership scope_type scope_id role revision;
  Ok (ms ++ [m]).

Definition cloud_permission (wanted : list (string * string)) (raw : dict pyval) (ks : list KnowledgePermission)
    : res (list KnowledgePermission) :=
  let scope_type := text_of (pget "scope_type" raw) in
  let scope_id := text_of (pget "scope_id" raw) in
  if negb (member (scope_type, scope_id) wanted) then Ok ks else
  let name := text_of (pget "name" raw) in
  if bool_decide (name = "") then Ok ks else
  k ← new_KnowledgePermission name scope_type scope_id;
  Ok (ks ++ [k]).

Definition _build_cloud_scope (a : auth) (workspace_ids group_ids : list string) : res scope_result :=
  if negb (forallb (fun w => member w (stripped_set (au_workspace_ids a))) workspace_ids)
  then Raise (RetrievalScopeDenied "knowledge_workspace_scope_forbidden")
  else if negb (forallb (fun g => member g (stripped_set (au_group_ids a))) group_ids)
  then Raise (RetrievalScopeDenied "knowledge_group_scope_forbidden")
  else
  let wanted := map (fun w => ("workspace", w)) workspace_ids ++ map (fun g => ("group", g)) group_ids in
  ms ← each (cloud_membership wanted)
         (_mapping_items (au_workspace_memberships a) ++ _mapping_items (au_group_memberships a)) [];
  ks ← each (cloud_permission wanted) (_mapping_items (au_knowledge_permissions a)) [];
  Ok (ms, ks).

(** [RetrievalAccessContextFactory.build] *)
Definition build `{Directory} (a : auth) (requested_workspace_ids requested_group_ids : list string)
    (verified_agent_execution : option AgentExecutionMask) (trusted_service_principal : option string)
    : res RetrievalAccessContext :=
  let subject := strip (au_user_id a) in
  let tenant := strip (au_tenant_id a) in
  if bool_decide (subject = "") || bool_decide (tenant = "")
  then Raise (RetrievalScopeDenied "knowledge_verified_identity_required")
  else
  let workspace_ids := requested requested_workspace_ids in
  let group_ids := requested requested_group_ids in
  user ← new_PrincipalRef "user" subject;
  services ← match trusted_service_principal with
             | Some s => if bool_decide (s = "") then Ok [] else p ← new_PrincipalRef "service" s; Ok [p]
             | None => Ok []
             end;
  scopes ← (if au_cloud_mode a then _build_cloud_scope a workspace_ids group_ids
            else _build_local_scope subject workspace_ids group_ids);
  mask ← match verified_agent_execution with
         | Some m => m ← new_AgentExecutionMask (a_role m) (a_policy_revision m) (a_topology_snapshot_id m);
                     Ok (Some m)
         | None => Ok None
         end;
  create subject tenant (user :: services) scopes.1 scopes.2 mask.

(** The context of a tool execution, which users cannot write. *)
Record governance_context : Type := mkGovernance {
  gc_actor_user_id : string;
  gc_allowed_workspace_ids : list string;
  gc_snapshot_hash : string;
  gc_workspace_owner_user_id : string;
  gc_allowed_group_ids : list string;
  gc_group_owner_user_id : string;
  gc_agent_role : string;
  gc_agent_policy_revision : string;
  gc_topology_snapshot_id : string;
}.

(** A scope of the context: owners have every permission, members read. *)
Definition governed_scope (scope_type scope_id actor owner revision : string) (acc : scope_result)
    : res scope_result :=
  let role := if bool_decide (actor = owner) then "owner" else "member" in
  m ← new_ScopeMembership scope_type scope_id role revision;
  read ← new_KnowledgePermission "knowledge.read" scope_type scope_id;
  ks ← (if bool_decide (actor = owner) then _owner_permissions scope_type scope_id else Ok []);
  Ok (acc.1 ++ [m], acc.2 ++ read :: ks).

Definition build_from_governance (g : governance_context) (requested_workspace_id : string)
    (requested_group_id : option string) : res RetrievalAccessContext :=
  let actor := strip (gc_actor_user_id g) in
  let workspace_id := strip requested_workspace_id in
  if bool_decide (actor = "") || bool_decide (workspace_id = "")
     || negb (member workspace_id (stripped_set (gc_allowed_workspace_ids g)))
  then Raise (RetrievalScopeDenied "knowledge_workspace_scope_forbidden")
  else
  let revision := strip (gc_snapshot_hash g) in
  if bool_decide (revision = "") then Raise (RetrievalScopeDenied "knowledge_governance_revision_missing")
  else
  acc ← governed_scope "workspace" workspace_id actor (gc_workspace_owner_user_id g) revision ([], []);
  let group_id := strip (default "" requested_group_id) in
  let role := strip (gc_agent_role g) in
  let policy := strip (gc_agent_policy_revision g) in
  let topology := strip (gc_topology_snapshot_id g) in
  let given := map (fun s => negb (bool_decide (s = ""))) [role; policy; topology] in
  if bool_decide (group_id = "")
  then if existsb (fun b => b) given
       then Raise (RetrievalScopeDenied "knowledge_agent_execution_mask_without_group")
       else user ← new_PrincipalRef "user" actor; create actor "local" [user] acc.1 acc.2 None
  else if negb (member group_id (stripped_set (gc_allowed_group_ids g)))
  then Raise (RetrievalScopeDenied "knowledge_group_scope_forbidden")
  else
  acc ← governed_scope "group" group_id actor (gc_group_owner_user_id g) revision acc;
  if negb (forallb (fun b => b) given)
  then Raise (RetrievalScopeDenied "knowledge_agent_execution_mask_missing")
  else
  user ← new_PrincipalRef "user" actor;
  mask ← new_AgentExecutionMask role policy topology;
  create actor "local" [user] acc.1 acc.2 (Some mask).
