(* ===== verification/KnowledgeStore.v ===== *)
(** Knowledge authorization, the store (services/knowledge_authorization/
    store.py, context_sql.py, service.py, governance/agent_mask_store.py,
    governance/service.py) on the tables and row policies of the vector
    database (backend/alembic_migrations/vector/versions).

    A cursor is the tables of its transaction; the settings of the session are
    a record.  The rows keep what the modelled statements read and write
    ([created_at] and [updated_at] are left out).  Times are instants, which the
    sessions print in UTC. *)
From stdpp Require Import sorting.
From S2P Require Import Prelude PyDict PyStr PyVal PyJson PyTime KnowledgeContracts.

(** * Tables *)

Record label_row : Type := mkLabel { lb_classification : string; lb_revision : Z }.

Record resource_row : Type := mkResource {
  rs_id : string;
  rs_tenant : string;
  rs_capability : string;
  rs_kind : string;
  rs_app : string;
  rs_source_id : string;
  rs_ref : string;
  rs_revision : string;
  rs_scope_type : string;
  rs_scope_id : string;
  rs_label : string;
  rs_active : bool;
  rs_deleted_at : option Z;
}.

Record grant_row : Type := mkGrantRow {
  gr_id : string;
  gr_label : string;
  gr_grant : KnowledgeGrant;
  gr_revision : Z;
}.

Record audit_row : Type := mkAudit {
  ad_id : string;
  ad_actor : string;
  ad_context_hash : string;
  ad_resource : string;
  ad_label : string;
  ad_old : Z;
  ad_new : Z;
  ad_digest : string;
  ad_diff : pyval;
}.

Record mask_row : Type := mkMaskRow {
  mk_id : string;
  mk_resource : string;
  mk_role : string;
  mk_effect : string;
  mk_policy : string;
}.

Record mask_audit_row : Type := mkMaskAudit {
  ma_id : string;
  ma_resource : string;
  ma_actor : string;
  ma_context_hash : string;
  ma_old : option string;
  ma_new : string;
  ma_masks : list (string * string);
}.

(** A generation of a resource, and a report of a community of its graph with
    the columns of the community. *)
Record projection_row : Type := mkProjection {
  pj_id : string;
  pj_resource : string;
  pj_status : string;
  pj_active : bool;
  pj_activated_at : option Z;
  pj_relation_count : Z;
}.

Record report_row : Type := mkReport {
  rp_id : string;
  rp_summary : string;
  rp_active : bool;
  rp_revision : Z;
  rp_projection : string;
  rp_resource : string;
  rp_label : string;
  rp_community_revision : Z;
}.

(** The chunks of a resource ([external_docs]), its evidence units, their
    embedding channels, its records and the mentions of its graph. *)
Record document_row : Type := mkDocument {
  dc_id : string;
  dc_app : string;
  dc_source_id : string;
  dc_content : string;
  dc_metadata : dict pyval;
  dc_resource : option string;
  dc_label : option string;
  dc_projection : option string;
}.

Record evidence_row : Type := mkEvidence {
  ev_id : string;
  ev_projection : string;
  ev_resource : string;
  ev_label : string;
  ev_unit_key : string;
  ev_content_hash : string;
  ev_document : option string;
}.

Record channel_row : Type := mkChannel {
  cr_id : string;
  cr_projection : string;
  cr_evidence : option string;
  cr_modality : string;
  cr_state : string;
  cr_row_count : Z;
  cr_byte_count : Z;
  cr_reason : option string;
}.

Record record_row : Type := mkRecord {
  rd_id : string;
  rd_projection : string;
  rd_resource : string;
  rd_search_text : string;
  rd_content_hash : string;
}.

Record mention_row : Type := mkMention {
  mn_id : string;
  mn_projection : string;
  mn_resource : string;
  mn_label : string;
  mn_surface_text : string;
}.

Record kdb : Type := mkKdb {
  labels : gmap string label_row;
  resources : list resource_row;
  grants : list grant_row;
  audits : list audit_row;
  masks : list mask_row;
  mask_audits : list mask_audit_row;
  projections : list projection_row;
  reports : list report_row;
  documents : list document_row;
  evidence : list evidence_row;
  channels : list channel_row;
  records : list record_row;
  mentions : list mention_row;
}.

Definition with_labels f (d : kdb) : kdb :=
  mkKdb (f (labels d)) (resources d) (grants d) (audits d) (masks d) (mask_audits d) (projections d)
    (reports d) (documents d) (evidence d) (channels d) (records d) (mentions d).
Definition with_resources f (d : kdb) : kdb :=
  mkKdb (labels d) (f (resources d)) (grants d) (audits d) (masks d) (mask_audits d) (projections d)
    (reports d) (documents d) (evidence d) (channels d) (records d) (mentions d).
Definition with_grants f (d : kdb) : kdb :=
  mkKdb (labels d) (resources d) (f (grants d)) (audits d) (masks d) (mask_audits d) (projections d)
    (reports d) (documents d) (evidence d) (channels d) (records d) (mentions d).
Definition with_audits f (d : kdb) : kdb :=
  mkKdb (labels d) (resources d) (grants d) (f (audits d)) (masks d) (mask_audits d) (projections d)
    (reports d) (documents d) (evidence d) (channels d) (records d) (mentions d).
Definition with_masks f (d : kdb) : kdb :=
  mkKdb (labels d) (resources d) (grants d) (audits d) (f (masks d)) (mask_audits d) (projections d)
    (reports d) (documents d) (evidence d) (channels d) (records d) (mentions d).
Definition with_mask_audits f (d : kdb) : kdb :=
  mkKdb (labels d) (resources d) (grants d) (audits d) (masks d) (f (mask_audits d)) (projections d)
    (reports d) (documents d) (evidence d) (channels d) (records d) (mentions d).
Definition with_projections f (d : kdb) : kdb :=
  mkKdb (labels d) (resources d) (grants d) (audits d) (masks d) (mask_audits d) (f (projections d))
    (reports d) (documents d) (evidence d) (channels d) (records d) (mentions d).
Definition with_reports f (d : kdb) : kdb :=
  mkKdb (labels d) (resources d) (grants d) (audits d) (masks d) (mask_audits d) (projections d)
    (f (reports d)) (documents d) (evidence d) (channels d) (records d) (mentions d).
Definition with_documents f (d : kdb) : kdb :=
  mkKdb (labels d) (resources d) (grants d) (audits d) (masks d) (mask_audits d) (projections d)
    (reports d) (f (documents d)) (evidence d) (channels d) (records d) (mentions d).
Definition with_channels f (d : kdb) : kdb :=
  mkKdb (labels d) (resources d) (grants d) (audits d) (masks d) (mask_audits d) (projections d)
    (reports d) (documents d) (evidence d) (f (channels d)) (records d) (mentions d).

(** * The session (context_sql.py) *)

(** The transaction-local settings; [k_now] is the time the transaction began,
    [NOW()].  An empty text stands for a setting that is not set. *)
Record session : Type := mkSession {
  k_now : Z;
  k_subject : string;
  k_tenant : string;
  k_principals : list PrincipalRef;
  k_permissions : list KnowledgePermission;
  k_scope_hash : string;
  k_agent_role : string;
  w_scope_type : string;
  w_scope_id : string;
  w_resource : string;
  w_label : string;
}.

Definition agent_role_of (c : RetrievalAccessContext) : option string := a_role <$> agent_mask c.

Definition set_local_knowledge_context (now : Z) (c : RetrievalAccessContext)
    (scope_type scope_id resource label : option string) : res session :=
  let given (o : option string) := match o with Some _ => true | None => false end in
  let truthy_opt (o : option string) := negb (bool_decide (default "" o = "")) in
  if xorb (given scope_type) (given scope_id)
  then Raise (ValueError "knowledge_rls_write_scope_incomplete")
  else if (given resource || given label)
          && (negb (given scope_type) || negb (truthy_opt resource && truthy_opt label))
  then Raise (ValueError "knowledge_rls_write_identity_incomplete")
  else Ok (mkSession now (subject_user_id c) (tenant_id c) (principals c) (permissions c)
             (principal_set_hash c) (default "" (agent_role_of c))
             (default "" scope_type) (default "" scope_id) (default "" resource) (default "" label)).

(** * Row policies (versions/20260727040000_knowledge_rls_runtime_role.py) *)

Definition nonempty (s : string) : bool := negb (bool_decide (s = "")).

Definition knowledge_rls_has_permission (s : session) (name scope_type scope_id : string) : bool :=
  existsb (fun k => bool_decide (k = mkPermission name scope_type scope_id)) (k_permissions s).

Definition knowledge_rls_write_scope_allowed (s : session) : bool :=
  nonempty (k_tenant s) && nonempty (w_scope_type s) && nonempty (w_scope_id s)
  && nonempty (w_resource s) && nonempty (w_label s)
  && (knowledge_rls_has_permission s "knowledge.project" (w_scope_type s) (w_scope_id s)
      || knowledge_rls_has_permission s "knowledge.manage_acl" (w_scope_type s) (w_scope_id s)).

(** The window of a grant holds the time of the transaction. *)
Definition live (now : Z) (g : KnowledgeGrant) : bool :=
  match g_valid_from g with Some t => t <=? now | None => true end
  && match g_valid_until g with Some t => now <? t | None => true end.

(** A grant of the label's current revision with the effect for one of the
    principals. *)
Definition granted (now : Z) (ps : list PrincipalRef) (gs : list grant_row) (label : string)
    (revision : Z) (effect : string) : bool :=
  existsb (fun g => bool_decide (gr_label g = label) && (gr_revision g =? revision)
                    && bool_decide (g_effect (gr_grant g) = effect) && live now (gr_grant g)
                    && member (g_principal (gr_grant g)) ps) gs.

(** An agent role passes the masks of a resource. *)
Definition mask_of (ms : list mask_row) (resource role effect : string) : bool :=
  existsb (fun m => bool_decide (mk_resource m = resource) && bool_decide (mk_role m = role)
                    && bool_decide (mk_effect m = effect)) ms.
Definition mask_passes (ms : list mask_row) (resource role : string) : bool :=
  negb (existsb (fun m => bool_decide (mk_resource m = resource)) ms)
  || bool_decide (role = "")
  || negb (mask_of ms resource role "deny")
     && (negb (existsb (fun m => bool_decide (mk_resource m = resource) && bool_decide (mk_effect m = "allow")) ms)
         || mask_of ms resource role "allow").

(** What a session sees of one resource with its label. *)
Definition row_access (s : session) (d : kdb) (r : resource_row) (revision : Z) : bool :=
  let perm name := knowledge_rls_has_permission s name (rs_scope_type r) (rs_scope_id r) in
  nonempty (k_tenant s) && bool_decide (rs_tenant r = k_tenant s)
  && (perm "knowledge.read_all_scope" || perm "knowledge.manage_acl"
      || (perm "knowledge.read" || perm "knowledge.project")
         && granted (k_now s) (k_principals s) (grants d) (rs_label r) revision "allow"
         && negb (granted (k_now s) (k_principals s) (grants d) (rs_label r) revision "deny"))
  && mask_passes (masks d) (rs_id r) (k_agent_role s).

Definition knowledge_rls_can_access_label (s : session) (d : kdb) (label : string) : bool :=
  existsb (fun r => bool_decide (rs_label r = label)
                    && match labels d !! rs_label r with
                       | Some l => row_access s d r (lb_revision l)
                       | None => false
                       end) (resources d).

Definition knowledge_rls_can_manage_label (s : session) (d : kdb) (label : string) : bool :=
  existsb (fun r => bool_decide (rs_label r = label) && nonempty (k_tenant s)
                    && bool_decide (rs_tenant r = k_tenant s)
                    && (knowledge_rls_has_permission s "knowledge.manage_acl" (rs_scope_type r) (rs_scope_id r)
                        || knowledge_rls_has_permission s "knowledge.project" (rs_scope_type r) (rs_scope_id r)
                           && knowledge_rls_can_access_label s d label)) (resources d).

Definition knowledge_rls_label_for_resource (d : kdb) (resource : string) : option string :=
  rs_label <$> List.find (fun r => bool_decide (rs_id r = resource)) (resources d).
Definition knowledge_rls_label_for_projection (d : kdb) (projection : string) : option string :=
  p ← List.find (fun p => bool_decide (pj_id p = projection)) (projections d);
  knowledge_rls_label_for_resource d (pj_resource p).

(** [USING] and [WITH CHECK] of [_policy] and [_append_only_policy]; a label
    expression without a row is NULL, which admits nothing. *)
Definition policy_using (s : session) (d : kdb) (label : option string) : bool :=
  match label with Some l => knowledge_rls_can_access_label s d l | None => false end.
Definition policy_check (s : session) (d : kdb) (label : option string) : bool :=
  match label with
  | Some l => knowledge_rls_can_manage_label s d l
              || knowledge_rls_write_scope_allowed s && bool_decide (l = w_label s)
  | None => false
  end.

(** * Statements *)

Definition InsufficientPrivilege (table : string) : exn := OtherError "InsufficientPrivilege" table.
Definition UniqueViolation (constraint : string) : exn := OtherError "UniqueViolation" constraint.
Definition ForeignKeyViolation (constraint : string) : exn := OtherError "ForeignKeyViolation" constraint.
Definition CheckViolation (constraint : string) : exn := OtherError "CheckViolation" constraint.
Definition KnowledgeAuthorizationConflictError (code : string) : exn :=
  OtherError "KnowledgeAuthorizationConflictError" code.
Definition KnowledgeWriteForbiddenError (code : string) : exn :=
  OtherError "KnowledgeWriteForbiddenError" code.
Definition LookupError (code : string) : exn := OtherError "LookupError" code.

(** A statement is refused by the first of its checks that fails; the policy
    of the rows is checked before the constraints of the table. *)
Definition insist (ok : bool) (e : exn) : stres kdb unit := if ok then mret tt else raise_st e.

Fixpoint executemany {A} (f : A -> stres kdb unit) (l : list A) : stres kdb unit :=
  match l with [] => mret tt | a :: r => _ ← f a; executemany f r end.

Section store.
Variable s : session.

Definition insert_label (id classification : string) : stres kdb unit :=
  d ← get_st;
  _ ← insist (policy_check s d (Some id)) (InsufficientPrivilege "knowledge_security_labels");
  _ ← insist (member classification _CLASSIFICATIONS)
        (CheckViolation "ck_knowledge_security_labels_classification");
  _ ← insist (negb (bool_decide (is_Some (labels d !! id)))) (UniqueViolation "knowledge_security_labels_pkey");
  modify_st (with_labels (<[id := mkLabel classification 1]>)).

Definition rs_stable_identity (r : resource_row) : list string :=
  [rs_tenant r; rs_capability r; rs_kind r; rs_ref r; rs_scope_type r; rs_scope_id r].

Definition insert_resource (r : resource_row) : stres kdb unit :=
  d ← get_st;
  let dup {A} `{EqDecision A} (f : resource_row -> A) := existsb (fun r' => bool_decide (f r' = f r)) (resources d) in
  _ ← insist (policy_check s d (Some (rs_label r))) (InsufficientPrivilege "knowledge_resources");
  _ ← insist (member (rs_kind r) _SOURCE_KINDS) (CheckViolation "ck_knowledge_resources_source_kind");
  _ ← insist (member (rs_scope_type r) _SCOPE_TYPES) (CheckViolation "ck_knowledge_resources_owner_scope_type");
  _ ← insist (negb (dup rs_id)) (UniqueViolation "knowledge_resources_pkey");
  _ ← insist (negb (dup rs_label)) (UniqueViolation "knowledge_resources_security_label_id_key");
  _ ← insist (negb (dup rs_stable_identity)) (UniqueViolation "uq_knowledge_resources_stable_identity");
  _ ← insist (bool_decide (is_Some (labels d !! rs_label r)))
        (ForeignKeyViolation "knowledge_resources_security_label_id_fkey");
  modify_st (with_resources (fun l => l ++ [r])).

Definition gr_key (g : grant_row) : list string := gr_label g :: grant_key (gr_grant g).

Definition insert_grant (g : grant_row) : stres kdb unit :=
  d ← get_st;
  let dup {A} `{EqDecision A} (f : grant_row -> A) := existsb (fun g' => bool_decide (f g' = f g)) (grants d) in
  let k := gr_grant g in
  _ ← insist (policy_check s d (Some (gr_label g))) (InsufficientPrivilege "knowledge_security_label_grants");
  _ ← insist (member (g_effect k) _EFFECTS) (CheckViolation "ck_knowledge_grants_effect");
  _ ← insist (member (p_type (g_principal k)) _PRINCIPAL_TYPES) (CheckViolation "ck_knowledge_grants_principal_type");
  _ ← insist (member (g_relation k) _RELATIONS) (CheckViolation "ck_knowledge_grants_relation");
  _ ← insist (1 <=? gr_revision g) (CheckViolation "ck_knowledge_grants_revision");
  _ ← insist (window_ok (g_valid_from k) (g_valid_until k)) (CheckViolation "ck_knowledge_grants_validity_window");
  _ ← insist (negb (dup gr_id)) (UniqueViolation "knowledge_security_label_grants_pkey");
  _ ← insist (negb (dup gr_key)) (UniqueViolation "uq_knowledge_grants_normalized");
  _ ← insist (bool_decide (is_Some (labels d !! gr_label g)))
        (ForeignKeyViolation "knowledge_security_label_grants_security_label_id_fkey");
  modify_st (with_grants (fun l => l ++ [g])).

Definition insert_audit (a : audit_row) : stres kdb unit :=
  d ← get_st;
  _ ← insist (policy_check s d (Some (ad_label a))) (InsufficientPrivilege "knowledge_acl_audit_log");
  _ ← insist (Nat.eqb (String.length (ad_context_hash a)) 64) (CheckViolation "ck_knowledge_acl_audit_context_hash");
  _ ← insist (Nat.eqb (String.length (ad_digest a)) 64) (CheckViolation "ck_knowledge_acl_audit_diff_hash");
  _ ← insist (ad_old a <=? ad_new a) (CheckViolation "ck_knowledge_acl_audit_revision_order");
  _ ← insist (negb (existsb (fun a' => bool_decide (ad_id a' = ad_id a)) (audits d)))
        (UniqueViolation "knowledge_acl_audit_log_pkey");
  _ ← insist (existsb (fun r => bool_decide (rs_id r = ad_resource a)) (resources d))
        (ForeignKeyViolation "knowledge_acl_audit_log_knowledge_resource_id_fkey");
  _ ← insist (bool_decide (is_Some (labels d !! ad_label a)))
        (ForeignKeyViolation "knowledge_acl_audit_log_security_label_id_fkey");
  modify_st (with_audits (fun l => l ++ [a])).

(** [UPDATE ... WHERE]: the rows that the condition and the policy select, of
    which each new version must pass the check. *)
Definition update_rows {A} (label : kdb -> A -> option string) (get : kdb -> list A)
    (set : (list A -> list A) -> kdb -> kdb) (table : string) (where_ : A -> bool) (f : A -> A)
    : stres kdb unit :=
  d ← get_st;
  let hit a := where_ a && policy_using s d (label d a) in
  _ ← insist (forallb (fun a => negb (hit a) || policy_check s d (label d (f a))) (get d))
        (InsufficientPrivilege table);
  modify_st (set (map (fun a => if hit a then f a else a))).

(** [DELETE ... WHERE] has no check beyond the policy. *)
Definition delete_rows {A} (label : kdb -> A -> option string)
    (set : (list A -> list A) -> kdb -> kdb) (where_ : A -> bool) : stres kdb unit :=
  d ← get_st;
  modify_st (set (List.filter (fun a => negb (where_ a && policy_using s d (label d a))))).

(** [UPDATE knowledge_security_labels ... RETURNING authz_revision] *)
Definition advance_label (id : string) (old new : Z) : stres kdb (option Z) :=
  d ← get_st;
  match labels d !! id with
  | Some l =>
      if (lb_revision l =? old) && knowledge_rls_can_access_label s d id
      then
        _ ← insist (policy_check s d (Some id)) (InsufficientPrivilege "knowledge_security_labels");
        _ ← insist (1 <=? new) (CheckViolation "ck_knowledge_security_labels_revision");
        _ ← modify_st (with_labels (<[id := mkLabel (lb_classification l) new]>));
        mret (Some new)
      else mret None
  | None => mret None
  end.

(** [SELECT ... FROM knowledge_resources JOIN knowledge_security_labels] *)
Definition joined (d : kdb) (r : resource_row) : option (resource_row * Z) :=
  match labels d !! rs_label r with
  | Some l => if knowledge_rls_can_access_label s d (rs_label r) then Some (r, lb_revision l) else None
  | None => None
  end.
Definition select_resource (where_ : resource_row -> bool) (d : kdb) : option (resource_row * Z) :=
  head (omap (joined d) (List.filter where_ (resources d))).

(** * The store (store.py) *)

Definition iso_opt (t : option Z) : pyval := match t with Some t => PStr (isoformat t) | None => PNone end.

Definition grant_as_dict (g : KnowledgeGrant) : pyval :=
  PDict [("principal_type", PStr (p_type (g_principal g))); ("principal_id", PStr (p_id (g_principal g)));
         ("relation", PStr (g_relation g)); ("effect", PStr (g_effect g));
         ("valid_from", iso_opt (g_valid_from g)); ("valid_until", iso_opt (g_valid_until g))].
Definition _canonical_grants (gs : list KnowledgeGrant) : pyval := PList (map grant_as_dict gs).

Definition _diff_payload (event : string) (gs : list KnowledgeGrant) : res (pyval * string) :=
  let payload := PDict [("event", PStr event); ("grants", _canonical_grants gs)] in
  encoded ← canonical_json false payload;
  Ok (payload, sha256_text encoded).

Definition visibility_partition_hash_for_grants (gs : list KnowledgeGrant) : res string :=
  encoded ← canonical_json false (_canonical_grants gs);
  Ok (sha256_text encoded).

Definition _insert_grants (label_id : string) (gs : list KnowledgeGrant) (authz_revision : Z) : stres kdb unit :=
  rows ← lift_res (seq_res (map (fun g =>
            id ← security_grant_id label_id (p_type (g_principal g)) (p_id (g_principal g))
                   (g_relation g) (g_effect g);
            Ok (mkGrantRow id label_id g authz_revision)) gs));
  executemany insert_grant rows.

Definition _insert_audit (resource_id label_id : string) (old_revision new_revision : Z)
    (c : RetrievalAccessContext) (event : string) (gs : list KnowledgeGrant) : stres kdb unit :=
  diff ← lift_res (_diff_payload event gs);
  id ← lift_res (acl_mutation_id resource_id new_revision diff.2);
  insert_audit (mkAudit id (subject_user_id c) (principal_set_hash c) resource_id label_id
                  old_revision new_revision diff.2 diff.1).

Definition _replace_grants (resource_id label_id : string) (current_revision : Z)
    (c : RetrievalAccessContext) (m : KnowledgeAclMutation) : stres kdb Z :=
  if negb (expected_authz_revision m =? current_revision)
  then raise_st (KnowledgeAuthorizationConflictError "knowledge_acl_expected_revision_conflict")
  else
  let new_revision := current_revision + 1 in
  updated ← advance_label label_id current_revision new_revision;
  match updated with
  | Some r =>
      if negb (r =? new_revision)
      then raise_st (KnowledgeAuthorizationConflictError "knowledge_acl_compare_and_swap_failed")
      else
      _ ← delete_rows (fun _ g => Some (gr_label g)) with_grants (fun g => bool_decide (gr_label g = label_id));
      _ ← _insert_grants label_id (m_grants m) new_revision;
      _ ← _insert_audit resource_id label_id current_revision new_revision c "grants_replaced" (m_grants m);
      mret new_revision
  | None => raise_st (KnowledgeAuthorizationConflictError "knowledge_acl_compare_and_swap_failed")
  end.

Definition replace_existing_resource_grants (resource_id tenant scope_type scope_id : string)
    (c : RetrievalAccessContext) (m : KnowledgeAclMutation) : stres kdb KnowledgeResourceBinding :=
  row ← gets_st (select_resource (fun r =>
          bool_decide (rs_id r = resource_id) && bool_decide (rs_tenant r = tenant)
          && bool_decide (rs_scope_type r = scope_type) && bool_decide (rs_scope_id r = scope_id)));
  match row with
  | None => raise_st (LookupError "knowledge_resource_not_found")
  | Some (r, current_revision) =>
      revision ← _replace_grants resource_id (rs_label r) current_revision c m;
      hash ← lift_res (visibility_partition_hash_for_grants (m_grants m));
      mret (mkKBinding resource_id (rs_label r) revision hash false)
  end.

(** [sorted({owner_grant, *initial_grants}, key=...)] *)
Definition grants_to_create (subject : string) (initial : list KnowledgeGrant) : res (list KnowledgeGrant) :=
  user ← new_PrincipalRef "user" subject;
  owner ← new_KnowledgeGrant user "owner" "allow" None None;
  Ok (sorted_set grant_key (owner :: initial)).

Definition _create_resource (i : KnowledgeResourceIdentity) (c : RetrievalAccessContext)
    (resource_id label_id : string) (initial : list KnowledgeGrant) : stres kdb unit :=
  gs ← lift_res (grants_to_create (subject_user_id c) initial);
  _ ← insert_label label_id (classification i);
  _ ← insert_resource (mkResource resource_id (i_tenant_id i) (owner_capability_code i) (source_kind i)
        (source_app i) (source_id i) (source_ref i) (source_revision i) (owner_scope_type i)
        (owner_scope_id i) label_id true None);
  _ ← _insert_grants label_id gs 1;
  _insert_audit resource_id label_id 0 1 c "resource_created" gs.

(** [ORDER BY] of the rows of the grants, in the collation of the database. *)
Variable text_le : string -> string -> bool.

Fixpoint row_le (a b : list string) : bool :=
  match a, b with
  | [], _ => true
  | _, [] => false
  | x :: a, y :: b => if bool_decide (x = y) then row_le a b else text_le x y
  end.
Definition null_first_le (x y : option Z) (rest : bool) : bool :=
  match x, y with
  | None, None => rest
  | None, _ => true
  | _, None => false
  | Some x, Some y => (x <? y) || (x =? y) && rest
  end.
Definition grant_row_le (a b : grant_row) : bool :=
  let x := gr_grant a in let y := gr_grant b in
  if bool_decide (grant_key x = grant_key y)
  then null_first_le (g_valid_from x) (g_valid_from y) (null_first_le (g_valid_until x) (g_valid_until y) true)
  else row_le (grant_key x) (grant_key y).

Definition current_grants (label : string) (revision : Z) (d : kdb) : list grant_row :=
  merge_sort (fun a b => grant_row_le a b)
    (List.filter (fun g => bool_decide (gr_label g = label) && (gr_revision g =? revision)
                           && policy_using s d (Some (gr_label g))) (grants d)).

Definition grant_of_row (g : grant_row) : res KnowledgeGrant :=
  let k := gr_grant g in
  p ← new_PrincipalRef (p_type (g_principal k)) (p_id (g_principal k));
  new_KnowledgeGrant p (g_relation k) (g_effect k) (g_valid_from k) (g_valid_until k).

Definition touch_resource (i : KnowledgeResourceIdentity) (r : resource_row) : resource_row :=
  mkResource (rs_id r) (rs_tenant r) (rs_capability r) (rs_kind r) (source_app i) (source_id i)
    (rs_ref r) (source_revision i) (rs_scope_type r) (rs_scope_id r) (rs_label r) true None.

Definition resource_key_is (i : KnowledgeResourceIdentity) (r : resource_row) : bool :=
  bool_decide (rs_stable_identity r
    = [i_tenant_id i; owner_capability_code i; source_kind i; source_ref i; owner_scope_type i; owner_scope_id i]).

Definition update_resources (where_ : resource_row -> bool) (f : resource_row -> resource_row) : stres kdb unit :=
  update_rows (fun _ r => Some (rs_label r)) resources with_resources "knowledge_resources" where_ f.

Definition identity_resource_id (i : KnowledgeResourceIdentity) : res string :=
  knowledge_resource_id (owner_capability_code i) (source_kind i) (source_ref i)
    (owner_scope_type i) (owner_scope_id i).

Definition ensure_resource (i : KnowledgeResourceIdentity) (c : RetrievalAccessContext)
    (acl_mutation : option KnowledgeAclMutation) (initial_grants : list KnowledgeGrant)
    : stres kdb KnowledgeResourceBinding :=
  resource_id ← lift_res (identity_resource_id i);
  label_id ← lift_res (security_label_id resource_id);
  existing ← gets_st (select_resource (resource_key_is i));
  current_revision ←
    match existing with
    | None =>
        _ ← _create_resource i c resource_id label_id initial_grants;
        mret 1
    | Some (r, revision) =>
        if negb (bool_decide (rs_id r = resource_id) && bool_decide (rs_label r = label_id))
        then raise_st (KnowledgeAuthorizationConflictError "knowledge_resource_stable_identity_mismatch")
        else
        _ ← update_resources (fun r => bool_decide (rs_id r = resource_id)) (touch_resource i);
        mret revision
    end;
  current_revision ←
    match acl_mutation with
    | Some m => _replace_grants resource_id label_id current_revision c m
    | None => mret current_revision
    end;
  rows ← gets_st (current_grants label_id current_revision);
  gs ← lift_res (seq_res (map grant_of_row rows));
  match gs with
  | [] => raise_st (KnowledgeAuthorizationConflictError "knowledge_resource_current_grants_missing")
  | _ =>
      hash ← lift_res (visibility_partition_hash_for_grants gs);
      mret (mkKBinding resource_id label_id current_revision hash
              (match existing with None => true | Some _ => false end))
  end.

(** * The admission of writers and readers (service.py) *)

Definition require_permission (name code : string) (i : KnowledgeResourceIdentity) (c : RetrievalAccessContext)
    : res unit :=
  ok ← has_permission c name (owner_scope_type i) (owner_scope_id i);
  if ok : bool then Ok tt else Raise (KnowledgeWriteForbiddenError code).

Definition require_project_permission : KnowledgeResourceIdentity -> RetrievalAccessContext -> res unit :=
  require_permission "knowledge.project" "knowledge_project_permission_required".

Definition ensure_project_resource (i : KnowledgeResourceIdentity) (c : RetrievalAccessContext)
    (acl_mutation : option KnowledgeAclMutation) (initial_grants : list KnowledgeGrant)
    : stres kdb KnowledgeResourceBinding :=
  _ ← lift_res (require_project_permission i c);
  _ ← lift_res (match acl_mutation with
                | Some _ => require_permission "knowledge.manage_acl" "knowledge_manage_acl_permission_required" i c
                | None => Ok tt
                end);
  ensure_resource i c acl_mutation initial_grants.

Definition ensure_trusted_document_resource (i : KnowledgeResourceIdentity) (c : RetrievalAccessContext)
    : stres kdb KnowledgeResourceBinding :=
  if bool_decide (owner_capability_code i = "document_ingestion") && bool_decide (source_app i = "document_ingestion")
     && bool_decide (source_kind i = "document") && bool_decide (owner_scope_type i = "workspace")
     && bool_decide (principal_keys c = ["user:" +:+ subject_user_id c])
  then ensure_resource i c None []
  else raise_st (KnowledgeWriteForbiddenError "knowledge_trusted_document_ingest_boundary_violation").

(** * Agent masks (governance/agent_mask_store.py) *)

Definition _canonical (l : list (string * string)) : list (string * string) :=
  sorted_set (fun m => [m.1; m.2]) l.

Definition _digest (v : pyval) : res string :=
  encoded ← canonical_json true v;
  Ok (sha256_text encoded).

Definition label_of_mask (d : kdb) (m : mask_row) : option string := knowledge_rls_label_for_resource d (mk_resource m).

Definition insert_mask (m : mask_row) : stres kdb unit :=
  d ← get_st;
  let dup {A} `{EqDecision A} (f : mask_row -> A) := existsb (fun m' => bool_decide (f m' = f m)) (masks d) in
  _ ← insist (policy_check s d (label_of_mask d m)) (InsufficientPrivilege "knowledge_resource_agent_masks");
  _ ← insist (member (mk_effect m) _EFFECTS) (CheckViolation "ck_knowledge_agent_mask_effect");
  _ ← insist (negb (dup mk_id)) (UniqueViolation "knowledge_resource_agent_masks_pkey");
  _ ← insist (negb (dup (fun m' : mask_row => [mk_resource m'; mk_role m'; mk_effect m'])))
        (UniqueViolation "uq_knowledge_resource_agent_mask");
  _ ← insist (existsb (fun r => bool_decide (rs_id r = mk_resource m)) (resources d))
        (ForeignKeyViolation "knowledge_resource_agent_masks_knowledge_resource_id_fkey");
  modify_st (with_masks (fun l => l ++ [m])).

(** [ON CONFLICT (mutation_id) DO NOTHING] *)
Definition insert_mask_audit (a : mask_audit_row) : stres kdb unit :=
  d ← get_st;
  _ ← insist (policy_check s d (knowledge_rls_label_for_resource d (ma_resource a)))
        (InsufficientPrivilege "knowledge_agent_mask_audit_log");
  if existsb (fun a' => bool_decide (ma_id a' = ma_id a)) (mask_audits d) then mret tt
  else
  _ ← insist (existsb (fun r => bool_decide (rs_id r = ma_resource a)) (resources d))
        (ForeignKeyViolation "knowledge_agent_mask_audit_log_knowledge_resource_id_fkey");
  modify_st (with_mask_audits (fun l => l ++ [a])).

(** The policy revision of the masks that the session sees; every row of a
    resource carries the same. *)
Definition old_policy (resource_id : string) (d : kdb) : option string :=
  head (merge_sort text_le
    (map mk_policy (List.filter (fun m => bool_decide (mk_resource m = resource_id)
                                          && policy_using s d (label_of_mask d m)) (masks d)))).

Definition mask_pairs (l : list (string * string)) : pyval :=
  PList (map (fun m => PList [PStr m.1; PStr m.2]) l).

Definition replace_masks (resource_id : string) (authz_revision : Z) (l : list (string * string))
    (c : RetrievalAccessContext) : stres kdb string :=
  let normalized := _canonical l in
  old ← gets_st (old_policy resource_id);
  policy ← lift_res (_digest (PDict [("knowledge_resource_id", PStr resource_id);
             ("authz_revision", PInt authz_revision); ("masks", mask_pairs normalized)]));
  _ ← delete_rows label_of_mask with_masks (fun m => bool_decide (mk_resource m = resource_id));
  rows ← lift_res (seq_res (map (fun m =>
           id ← _digest (PDict [("resource_id", PStr resource_id); ("role", PStr m.1); ("effect", PStr m.2)]);
           Ok (mkMaskRow id resource_id m.1 m.2 policy)) normalized));
  _ ← executemany insert_mask rows;
  id ← lift_res (_digest (PDict [("resource_id", PStr resource_id); ("policy_revision", PStr policy);
         ("actor_user_id", PStr (subject_user_id c))]));
  _ ← insert_mask_audit (mkMaskAudit id resource_id (subject_user_id c) (principal_set_hash c) old policy normalized);
  mret policy.

(** * Projections of a replaced policy (knowledge_projection/retrievable/repository.py) *)

Definition label_of_projection (d : kdb) (p : projection_row) : option string :=
  knowledge_rls_label_for_resource d (pj_resource p).
Definition label_of_report (_ : kdb) (r : report_row) : option string := Some (rp_label r).

Definition degrade (p : projection_row) : projection_row :=
  mkProjection (pj_id p) (pj_resource p) "degraded_graph" (pj_active p) (pj_activated_at p) (pj_relation_count p).
Definition retire (r : report_row) : report_row :=
  mkReport (rp_id r) (rp_summary r) false (rp_revision r) (rp_projection r) (rp_resource r) (rp_label r)
    (rp_community_revision r).

Definition rebind_active_authorization (resource_id : string) : stres kdb bool :=
  let where_ p := bool_decide (pj_resource p = resource_id) && pj_active p && (0 <? pj_relation_count p) in
  invalidated ← gets_st (fun d => existsb (fun p => where_ p && policy_using s d (label_of_projection d p)) (projections d));
  _ ← update_rows label_of_projection projections with_projections "knowledge_resource_projections" where_ degrade;
  if invalidated : bool
  then
    _ ← update_rows label_of_report reports with_reports "knowledge_graph_community_reports"
          (fun r => bool_decide (rp_resource r = resource_id) && rp_active r) retire;
    mret true
  else mret false.

(** The grants of the detail of a resource (governance/repository.py), of which
    the answer keeps the first 200. *)
Definition detail_grant_le (a b : grant_row) : bool :=
  let x := gr_grant a in let y := gr_grant b in
  let key g := [p_type (g_principal g); p_id (g_principal g); g_relation g] in
  if bool_decide (g_effect x = g_effect y) then row_le (key x) (key y) else text_le (g_effect y) (g_effect x).
Definition detail_grants (label : string) (revision : Z) (d : kdb) : list grant_row :=
  take 200 (merge_sort (fun a b => detail_grant_le a b)
    (List.filter (fun g => bool_decide (gr_label g = label) && (gr_revision g =? revision)
                           && policy_using s d (Some (gr_label g))) (grants d))).
End store.

(** * Governance (governance/contracts.py, governance/service.py) *)

Record replacement_command : Type := mkReplacement {
  rc_expected_authz_revision : Z;
  rc_grants : list KnowledgeGrant;
  rc_agent_masks : list (string * string);
}.

(** [KnowledgeAccessReplacementCommand]: the bounds of the fields, and no grant
    or mask twice. *)
Definition new_replacement (expected : Z) (acknowledged : bool) (gs : list KnowledgeGrant)
    (ms : list (string * string)) : res replacement_command :=
  if negb ((1 <=? expected) && acknowledged && (0 <? length gs)%nat && (length gs <=? 200)%nat
           && (length ms <=? 100)%nat && forallb (fun m => is_token m.1 && member m.2 _EFFECTS) ms)
  then Raise (ValueError "validation_error")
  else if negb (bool_decide (NoDup gs)) then Raise (ValueError "knowledge_access_duplicate_grant")
  else if negb (bool_decide (NoDup ms)) then Raise (ValueError "knowledge_access_duplicate_agent_mask")
  else Ok (mkReplacement expected gs ms).

Definition KnowledgeAccessForbiddenError (code : string) : exn := OtherError "KnowledgeAccessForbiddenError" code.

Definition _require_manage (c : RetrievalAccessContext) (workspace_id : string) : res unit :=
  ok ← has_permission c "knowledge.manage_acl" "workspace" workspace_id;
  if ok : bool then Ok tt else Raise (KnowledgeAccessForbiddenError "knowledge_manage_acl_permission_required").

(** What the answer of [replace_grants] says of the mutation. *)
Record replacement_result : Type := mkReplaced {
  rr_binding : KnowledgeResourceBinding;
  rr_graph_reindex_required : bool;
  rr_policy_revision : string;
  rr_grants : list grant_row;
}.

Definition replace_grants (text_le : string -> string -> bool) (now : Z) (c : RetrievalAccessContext)
    (workspace_id resource_id : string) (command : replacement_command) : stres kdb replacement_result :=
  _ ← lift_res (_require_manage c workspace_id);
  transaction (
    s ← lift_res (set_local_knowledge_context now c None None None None);
    mutation ← lift_res (new_KnowledgeAclMutation (rc_expected_authz_revision command) (rc_grants command));
    binding ← replace_existing_resource_grants s resource_id (tenant_id c) "workspace" workspace_id c mutation;
    invalidated ← rebind_active_authorization s resource_id;
    policy ← replace_masks s text_le resource_id (b_authz_revision binding) (rc_agent_masks command) c;
    detail ← gets_st (select_resource s (fun r =>
               bool_decide (rs_id r = resource_id) && bool_decide (rs_tenant r = tenant_id c)
               && bool_decide (rs_scope_type r = "workspace") && bool_decide (rs_scope_id r = workspace_id)));
    match detail with
    | None => raise_st (OtherError "RuntimeError" "knowledge_access_mutation_detail_missing")
    | Some (r, revision) =>
        gs ← gets_st (detail_grants s text_le (rs_label r) revision);
        mret (mkReplaced binding invalidated policy gs)
    end).
