(* ===== verification/KnowledgeRetrieval.v ===== *)
(** Knowledge retrieval (services/knowledge_retrieval/contracts.py, query_seed.py,
    candidate_scope_sql.py, store.py, facade_helpers.py, facade.py) and the
    admission of readers (services/knowledge_authorization/service.py): the
    candidates a request may see, the fusion of the two rankings and the
    authorization check of the selected hits in a second transaction. *)
From Stdlib Require Import SpecFloat.
From stdpp Require Import sorting.
From S2P Require Import Prelude PyDict PyStr PyVal PyJson KnowledgeContracts KnowledgeStore.

(** * Requests (contracts.py) *)

Record citation_lookup : Type := mkCitation { cl_id : string; cl_hash : string }.

Record retrieval_request : Type := mkRequest {
  rq_query : string;
  rq_context : RetrievalAccessContext;
  rq_scope_type : string;
  rq_scope_id : string;
  rq_top_k : nat;
  rq_source_apps : list string;
  rq_source_ids : list string;
  rq_owner_capabilities : list string;
  rq_modality : option string;
  rq_evidence_refs : list citation_lookup;
}.

(** [tuple(sorted(set(filter(None, l))))] *)
Definition filter_set (l : list string) : list string := sorted_set (fun s => [s]) (List.filter nonempty l).

Definition new_request (r : retrieval_request) : res retrieval_request :=
  if bool_decide (strip (rq_query r) = "") && bool_decide (rq_evidence_refs r = [] :> list citation_lookup)
  then Raise (ValueError "knowledge_query_text_required")
  else if bool_decide (strip (rq_scope_id r) = "")
  then Raise (ValueError "knowledge_query_scope_required")
  else if negb ((1 <=? rq_top_k r)%nat && (rq_top_k r <=? 20)%nat)
  then Raise (ValueError "knowledge_query_limit_out_of_bounds")
  else if (8 <? length (rq_evidence_refs r))%nat
  then Raise (ValueError "knowledge_query_evidence_ref_limit_exceeded")
  else Ok (mkRequest (rq_query r) (rq_context r) (rq_scope_type r) (rq_scope_id r) (rq_top_k r)
             (filter_set (rq_source_apps r)) (filter_set (rq_source_ids r))
             (filter_set (rq_owner_capabilities r)) (rq_modality r) (rq_evidence_refs r)).

(** * Admission (knowledge_authorization/service.py) *)

Definition admit_read (c : RetrievalAccessContext) (scope_type scope_id : string) : res unit :=
  if negb (member scope_type ["workspace"; "group"]) || bool_decide (strip scope_id = "")
  then Raise (KnowledgeWriteForbiddenError "knowledge_read_scope_invalid")
  else
  user ← new_PrincipalRef "user" (subject_user_id c);
  if negb (member user (principals c))
  then Raise (KnowledgeWriteForbiddenError "knowledge_read_subject_principal_required")
  else
  let scoped := map (fun m => (m_scope_type m, m_scope_id m)) (memberships c)
    ++ map (fun k => (k_scope_type k, k_scope_id k))
         (List.filter (fun k => member (k_name k) ["knowledge.read"; "knowledge.read_all_scope"]) (permissions c)) in
  if existsb (fun p => member (p_type p) ["workspace_role"; "group_role"]) (principals c)
     && negb (member (scope_type, scope_id) scoped)
  then Raise (KnowledgeWriteForbiddenError "knowledge_read_role_scope_unverified")
  else Ok tt.

(** * What a statement sees *)

Section reader.
Variable s : session.
Variable d : kdb.

Definition sees (label : option string) : bool := policy_using s d label.
Definition seen_grants : list grant_row := List.filter (fun g => sees (Some (gr_label g))) (grants d).
Definition seen_masks : list mask_row := List.filter (fun m => sees (label_of_mask d m)) (masks d).
Definition seen_resources : list (resource_row * Z) := omap (joined s d) (resources d).
Definition seen_projections : list projection_row :=
  List.filter (fun p => sees (label_of_projection d p)) (projections d).
Definition seen_documents : list document_row := List.filter (fun x => sees (dc_label x)) (documents d).
Definition seen_evidence : list evidence_row := List.filter (fun e => sees (Some (ev_label e))) (evidence d).
(** The label of a receipt is that of its evidence unit. *)
Definition label_of_channel (c : channel_row) : option string :=
  e ← cr_evidence c;
  ev_label <$> List.find (fun x => bool_decide (ev_id x = e)) (evidence d).
Definition seen_channels : list channel_row := List.filter (fun c => sees (label_of_channel c)) (channels d).

(** ** The authorization predicate of the candidate, seed and final queries *)

(** The role of an agent is NULL for a request of a user. *)
Definition mask_admits (resource : string) (role : option string) : bool :=
  match role with
  | None => true
  | Some role =>
      negb (existsb (fun m => bool_decide (mk_resource m = resource)) seen_masks)
      || negb (mask_of seen_masks resource role "deny")
         && (negb (existsb (fun m => bool_decide (mk_resource m = resource) && bool_decide (mk_effect m = "allow"))
                     seen_masks)
             || mask_of seen_masks resource role "allow")
  end.

Definition authorized (c : RetrievalAccessContext) (scope_type scope_id : string) (r : resource_row) (revision : Z)
    : bool :=
  rs_active r && bool_decide (rs_deleted_at r = None)
  && bool_decide (rs_tenant r = tenant_id c) && bool_decide (rs_scope_type r = scope_type)
  && bool_decide (rs_scope_id r = scope_id)
  && granted (k_now s) (principals c) seen_grants (rs_label r) revision "allow"
  && negb (granted (k_now s) (principals c) seen_grants (rs_label r) revision "deny")
  && mask_admits (rs_id r) (agent_role_of c).

(** ** Candidates (candidate_scope_sql.py) *)

Record candidate : Type := mkCandidate {
  cd_document : document_row;
  cd_resource : resource_row;
  cd_revision : Z;
}.
Definition cd_id (c : candidate) : string := dc_id (cd_document c).
Definition cd_binding (c : candidate) : string * Z := (rs_id (cd_resource c), cd_revision c).

(** [LOWER(COALESCE(metadata->>'active', 'true')) = 'true'] *)
Definition document_active (metadata : dict pyval) : bool :=
  match pget "active" metadata with
  | PNone => true
  | PBool b => b
  | PStr x => bool_decide (lower x = "true")
  | _ => false
  end.

Definition live_status (status : string) : bool :=
  member status ["active"; "degraded_channels"; "degraded_graph"].

(** The generation of a document is live, or the document has none. *)
Definition generation_live (x : document_row) (r : resource_row) : bool :=
  match dc_projection x with
  | None => document_active (dc_metadata x)
  | Some id =>
      match List.find (fun p => bool_decide (pj_id p = id) && bool_decide (pj_resource p = rs_id r)) seen_projections with
      | Some p => pj_active p && live_status (pj_status p)
      | None => false
      end
  end.

(** [COALESCE(metadata->>'chunk_id', source_id)]; the ids of chunks are texts
    or integers. *)
Definition chunk_key (x : document_row) : string :=
  match pget "chunk_id" (dc_metadata x) with PStr k => k | PNone => dc_source_id x | v => py_str v end.

(** An active channel of the modality covers the document. *)
Definition channel_active (x : document_row) (modality : string) : bool :=
  existsb (fun e =>
    bool_decide (Some (ev_projection e) = dc_projection x)
    && (bool_decide (ev_document e = Some (dc_id x)) || bool_decide (ev_unit_key e = chunk_key x))
    && existsb (fun c => bool_decide (cr_evidence c = Some (ev_id e)) && bool_decide (cr_projection c = ev_projection e)
                         && bool_decide (cr_modality c = modality) && bool_decide (cr_state c = "active"))
         seen_channels) seen_evidence.

Definition in_filter (l : list string) (x : string) : bool :=
  match l with [] => true | _ => member x l end.

Definition modality_ok (x : document_row) (modality : option string) : bool :=
  match modality with
  | None => true
  | Some m => bool_decide (m = "text") && bool_decide (dc_projection x = None) || channel_active x m
  end.

Definition candidate_of (q : retrieval_request) (x : document_row) (r : resource_row) (revision : Z)
    : option candidate :=
  if bool_decide (dc_resource x = Some (rs_id r)) && bool_decide (dc_label x = Some (rs_label r))
     && authorized (rq_context q) (rq_scope_type q) (rq_scope_id q) r revision && generation_live x r
     && in_filter (rq_source_apps q) (dc_app x) && in_filter (rq_source_ids q) (dc_source_id x)
     && in_filter (rq_owner_capabilities q) (rs_capability r) && modality_ok x (rq_modality q)
  then Some (mkCandidate x r revision) else None.

Definition authorized_rows (q : retrieval_request) : list candidate :=
  flat_map (fun x => omap (fun p => candidate_of q x p.1 p.2) seen_resources) seen_documents.

(** ** Evidence as a query (query_seed.py) *)

Definition seed_row : Type := (string * string * string * (string * Z))%type.

Definition authorized_projections (q : retrieval_request) : list (projection_row * resource_row * Z) :=
  flat_map (fun p =>
    omap (fun rr => let '(r, revision) := rr in
      if bool_decide (pj_resource p = rs_id r) && pj_active p && live_status (pj_status p)
         && authorized (rq_context q) (rq_scope_type q) (rq_scope_id q) r revision
      then Some (p, r, revision) else None) seen_resources) seen_projections.

(** The rows of the five kinds of evidence of an authorized projection. *)
Definition seed_rows (q : retrieval_request) (wanted : string -> list string) : list seed_row :=
  flat_map (fun '(p, r, revision) =>
    let binding := (rs_id r, revision) in
    let ids kind id := member id (wanted kind) in
    omap (fun x =>
      if bool_decide (dc_projection x = Some (pj_id p)) && bool_decide (dc_resource x = Some (rs_id r))
         && ids "external_doc" (dc_id x)
      then Some ("external_doc:" +:+ dc_id x, sha256_text (dc_content x), dc_content x, binding) else None)
      seen_documents
    ++ omap (fun x =>
      if bool_decide (rd_projection x = pj_id p) && bool_decide (rd_resource x = rs_id r)
         && ids "projection_record" (rd_id x) && sees (knowledge_rls_label_for_resource d (rd_resource x))
      then Some ("projection_record:" +:+ rd_id x, rd_content_hash x, rd_search_text x, binding) else None)
      (records d)
    ++ omap (fun e =>
      if bool_decide (ev_projection e = pj_id p) && bool_decide (ev_resource e = rs_id r)
         && ids "evidence_unit" (ev_id e)
      then
        let text := match List.find (fun x => bool_decide (Some (dc_id x) = ev_document e)
                                              && bool_decide (dc_projection x = Some (pj_id p))) seen_documents with
                    | Some x => dc_content x
                    | None => ""
                    end in
        Some ("evidence_unit:" +:+ ev_id e, ev_content_hash e, text, binding)
      else None) seen_evidence
    ++ omap (fun m =>
      if bool_decide (mn_projection m = pj_id p) && bool_decide (mn_resource m = rs_id r)
         && ids "graph_mention" (mn_id m) && sees (Some (mn_label m))
      then Some ("graph_mention:" +:+ mn_id m, sha256_text (mn_surface_text m), mn_surface_text m, binding) else None)
      (mentions d)
    ++ omap (fun x =>
      if bool_decide (rp_projection x = pj_id p) && bool_decide (rp_resource x = rs_id r)
         && bool_decide (rp_label x = rs_label r) && (rp_community_revision x =? revision)
         && rp_active x && (rp_revision x =? revision) && ids "community_report" (rp_id x)
         && sees (Some (rp_label x))
      then Some ("community_report:" +:+ rp_id x, sha256_text (rp_summary x), rp_summary x, binding) else None)
      (reports d)) (authorized_projections q).
End reader.

Definition session_of (now : Z) (c : RetrievalAccessContext) : res session :=
  set_local_knowledge_context now c None None None None.

Definition binding_le (a b : string * Z) : bool :=
  match String.compare a.1 b.1 with Lt => true | Gt => false | Eq => a.2 <=? b.2 end.
Definition sorted_bindings (l : list (string * Z)) : list (string * Z) :=
  merge_sort (fun a b => binding_le a b) (remove_dups l).

(** [citation_id.split(":", 1)] into a kind and an identity. *)
Definition split_kind (id : string) : res (string * string) :=
  match String.index 0 ":" id with
  | Some n => Ok (take_str n id, String.substring (S n) (String.length id - S n) id)
  | None => Raise (ValueError "not enough values to unpack (expected 2, got 1)")
  end.

Definition newline : string := String (ascii_of_N 10) "".

Definition sd_id (r : seed_row) : string := r.1.1.1.
Definition sd_hash (r : seed_row) : string := r.1.1.2.
Definition sd_content (r : seed_row) : string := r.1.2.
Definition sd_binding (r : seed_row) : string * Z := r.2.

Definition expected_hashes (l : list citation_lookup) : dict string :=
  foldl (fun acc c => dset (cl_id c) (cl_hash c) acc) [] l.
Definition exact_rows (expected : dict string) (rows : list seed_row) : dict seed_row :=
  foldl (fun acc r => if bool_decide (dget (sd_id r) expected = Some (sd_hash r))
                      then dset (sd_id r) r acc else acc) [] rows.

Definition hydrate_authorized_query_seed (s : session) (d : kdb) (q : retrieval_request)
    : res (string * list (string * Z)) :=
  let expected := expected_hashes (rq_evidence_refs q) in
  match expected with
  | [] => Ok ("", [])
  | _ =>
      kinds ← seq_res (map split_kind (dkeys expected));
      let wanted kind := map snd (List.filter (fun k => bool_decide (k.1 = kind)) kinds) in
      let exact := exact_rows expected (seed_rows s d q wanted) in
      if negb (forallb (fun id => dmem id exact) (dkeys expected))
      then Raise (ValueError "knowledge_query_evidence_ref_unavailable_or_stale")
      else
      let parts := omap (fun id => r ← dget id exact; str_opt (strip (sd_content r))) (dkeys expected) in
      let effective_query := take_str 8000 (join newline parts) in
      if bool_decide (effective_query = "")
      then Raise (ValueError "knowledge_query_evidence_ref_text_derivative_not_admitted")
      else Ok (effective_query, sorted_bindings (map sd_binding (dvalues exact)))
  end.

(** [[\w.-]+]: the maximal runs of the text. *)
Definition search_char (c : ascii) : bool := is_alnum c || member c ["_"; "."; "-"]%char.
Fixpoint search_tokens (run : string) (text : string) : list string :=
  match text with
  | EmptyString => match run with "" => [] | _ => [run] end
  | String c r =>
      if search_char c then search_tokens (run +:+ String c "") r
      else match run with "" => search_tokens "" r | _ => run :: search_tokens "" r end
  end.

Fixpoint keep_tokens (l : list string) (acc : list string) : list string :=
  match l with
  | [] => acc
  | t :: r =>
      let normalized := strip_by (fun c => member c ["."; "_"; "-"]%char) t in
      if (String.length normalized <? 2)%nat || member normalized acc then keep_tokens r acc
      else
      let acc := acc ++ [normalized] in
      if (64 <=? length acc)%nat then acc else keep_tokens r acc
  end.

Definition websearch_query_from_seed (explicit_query seed_query : string) : string :=
  let parts := match str_opt (strip explicit_query) with Some p => [p] | None => [] end in
  take_str 8000 (join " OR " (parts ++ keep_tokens (search_tokens "" seed_query) [])).

(** * The two transactions (store.py) *)

(** The embedding of a query, and the rankings of the database: the candidates
    with an embedding by distance, and those whose text matches by rank. *)
Class SearchEngine : Type := {
  embedding : Type;
  embed : string -> option embedding;
  nearest : embedding -> list candidate -> list candidate;
  matching : string -> list candidate -> list candidate;
}.

Section search.
Context `{SearchEngine}.

Record fetched : Type := mkFetched {
  ft_vector : list candidate;
  ft_keyword : list candidate;
  ft_seed_bindings : list (string * Z);
}.

(** The tables that the statements of the first transaction read: each statement
    sees what is committed when it begins. *)
Record views : Type := mkViews { vw_seed : kdb; vw_vector : kdb; vw_keyword : kdb }.
Definition still (d : kdb) : views := mkViews d d d.

Definition fetch_hybrid_candidates (q : retrieval_request) (query_embedding : option embedding)
    (candidate_limit : nat) (now : Z) (v : views) : res fetched :=
  s ← session_of now (rq_context q);
  seed ← hydrate_authorized_query_seed s (vw_seed v) q;
  let effective_query :=
    match rq_evidence_refs q with
    | [] => rq_query q
    | _ => websearch_query_from_seed (rq_query q) seed.1
    end in
  Ok (mkFetched (match query_embedding with
                 | Some e => take candidate_limit (nearest e (authorized_rows s (vw_vector v) q))
                 | None => []
                 end)
        (take candidate_limit (matching effective_query (authorized_rows s (vw_keyword v) q))) seed.2).

(** The expected bindings that still hold. *)
Definition final_rows (s : session) (d : kdb) (c : RetrievalAccessContext) (scope_type scope_id : string)
    (expected : list (string * Z)) : list (string * Z) :=
  flat_map (fun b =>
    omap (fun rr => let '(r, revision) := rr in
      if bool_decide (rs_id r = b.1) && (revision =? b.2) && authorized s d c scope_type scope_id r revision
      then Some b else None) (seen_resources s d)) expected.

Definition final_authorize (c : RetrievalAccessContext) (scope_type scope_id : string)
    (expected_bindings : list (string * Z)) (now : Z) (d : kdb) : res (gmap string Z) :=
  match sorted_bindings expected_bindings with
  | [] => Ok ∅
  | expected =>
      s ← session_of now c;
      Ok (list_to_map (final_rows s d c scope_type scope_id expected))
  end.

(** * The facade (facade.py) *)

Definition RRF_K : Z := 60.

(** Scores are binary64. *)
Definition float_of (n : Z) : spec_float := binary_normalize 53 1024 n 0 false.
Definition float_add : spec_float -> spec_float -> spec_float := SFadd 53 1024.
Definition reciprocal (rank : nat) : spec_float := SFdiv 53 1024 (float_of 1) (float_of (RRF_K + Z.of_nat rank)).

Record entry : Type := mkEntry {
  en_row : candidate;
  en_score : spec_float;
  en_channels : list string;
}.

(** One row of a ranking. *)
Definition fuse_row (channel : string) (rank : nat) (row : candidate) (ranked : dict entry) : dict entry :=
  let e := default (mkEntry row (float_of 0) []) (dget (cd_id row) ranked) in
  dset (cd_id row)
    (mkEntry (en_row e) (float_add (en_score e) (reciprocal rank))
       (if member channel (en_channels e) then en_channels e else en_channels e ++ [channel])) ranked.

Fixpoint fuse_rows (channel : string) (rank : nat) (rows : list candidate) (ranked : dict entry) : dict entry :=
  match rows with
  | [] => ranked
  | row :: r => fuse_rows channel (S rank) r (fuse_row channel rank row ranked)
  end.

Definition fuse (vector_rows keyword_rows : list candidate) : dict entry :=
  fuse_rows "keyword" 1 keyword_rows (fuse_rows "text_vector" 1 vector_rows []).

Definition entry_id (e : entry) : string := cd_id (en_row e).
Definition entry_le (a b : entry) : bool :=
  if SFeqb (en_score a) (en_score b) then String.leb (entry_id a) (entry_id b)
  else SFltb (en_score b) (en_score a).

Definition entry_binding (e : entry) : string * Z := cd_binding (en_row e).

Record retrieval_result : Type := mkResult {
  rt_hits : list entry;
  rt_candidate_count : nat;
  rt_transaction_count : nat;
  rt_degraded_reasons : list string;
  rt_receipt : string;
}.

Definition bindings_json (l : list (string * Z)) : pyval :=
  PList (map (fun b => PList [PStr b.1; PInt b.2]) l).

Definition is_final (final : gmap string Z) (b : string * Z) : bool := bool_decide (final !! b.1 = Some b.2).

(** [search] in the hybrid mode: the candidates in one transaction, the final
    authorization of the selected ones in another. *)
Definition search (q : retrieval_request) (now : Z) (v : views) (now' : Z) (d' : kdb) : res retrieval_result :=
  _ ← admit_read (rq_context q) (rq_scope_type q) (rq_scope_id q);
  let query_embedding := match rq_evidence_refs q with [] => embed (rq_query q) | _ => None end in
  found ← fetch_hybrid_candidates q query_embedding (Nat.min 60 (rq_top_k q * 3)) now v;
  let ranked := fuse (ft_vector found) (ft_keyword found) in
  let selected := take (rq_top_k q) (merge_sort (fun a b => entry_le a b) (dvalues ranked)) in
  final ← final_authorize (rq_context q) (rq_scope_type q) (rq_scope_id q)
            (map entry_binding selected ++ ft_seed_bindings found) now' d';
  let seed_is_final := forallb (is_final final) (ft_seed_bindings found) in
  let hits := List.filter (fun e => seed_is_final && is_final final (entry_binding e)) selected in
  receipt ← canonical_json true (PDict [
    ("principal_set_hash", PStr (principal_set_hash (rq_context q)));
    ("scope_type", PStr (rq_scope_type q)); ("scope_id", PStr (rq_scope_id q));
    ("bindings", bindings_json (map entry_binding hits));
    ("query_seed_bindings", bindings_json (ft_seed_bindings found))]);
  Ok (mkResult hits (length ranked)
        (match ranked, ft_seed_bindings found with [], [] => 1%nat | _, _ => 2%nat end)
        ((match ft_vector found with [] => ["text_vector_unavailable_or_empty"] | _ => [] end)
         ++ (match ft_keyword found with [] => ["keyword_empty"] | _ => [] end)
         ++ (match rq_evidence_refs q with [] => [] | _ => ["query_evidence_vector_channel_not_admitted"] end)
         ++ (if seed_is_final then [] else ["query_evidence_revoked_before_final_authorization"]))
        (sha256_text receipt)).
End search.

(** The rankings only choose among the candidates. *)
Class SearchLaws `{SearchEngine} : Prop := {
  nearest_sub : forall e l, nearest e l ⊆+ l;
  matching_sub : forall q l, matching q l ⊆+ l;
}.

(** * Hits (facade_helpers.py) *)

Definition opt_text (o : option string) : pyval := match o with Some x => if nonempty x then PStr x else PNone | None => PNone end.

Definition citation_of (c : candidate) : pyval :=
  let x := cd_document c in
  let r := cd_resource c in
  PDict [("citation_id", PStr ("external_doc:" +:+ dc_id x)); ("knowledge_resource_id", PStr (rs_id r));
         ("security_label_id", PStr (rs_label r)); ("projection_revision_id", opt_text (dc_projection x));
         ("source_app", PStr (dc_app x)); ("source_id", PStr (dc_source_id x)); ("source_ref", PStr (rs_ref r));
         ("source_revision", PStr (py_str (py_or (pget "revision_id" (dc_metadata x)) (PStr ""))));
         ("content_hash", PStr (sha256_text (dc_content x)));
         ("chunk_id", pget "chunk_id" (dc_metadata x));
         ("node_ids", py_or (pget "node_ids" (dc_metadata x)) (PList []));
         ("source_locations", py_or (pget "source_locations" (dc_metadata x)) (PList []))].
