(* ===== verification/KnowledgeIndex.v ===== *)
(** The writer of the knowledge index, its authorization side
    (services/authorized_knowledge_index_generation.py,
    authorized_knowledge_index_store.py, authorized_knowledge_index_revoke.py):
    the binding of a generation to its resource and the revocation of a
    resource, and the runs of the writers of the authorization tables. *)
From stdpp Require Import sorting.
From S2P Require Import Prelude PyDict PyStr PyVal PyTime KnowledgeContracts KnowledgeStore KnowledgeRetrieval.

(** The session of a writer of one resource. *)
Definition writer_session (now : Z) (c : RetrievalAccessContext) (i : KnowledgeResourceIdentity) : res session :=
  resource_id ← identity_resource_id i;
  label_id ← security_label_id resource_id;
  set_local_knowledge_context now c (Some (owner_scope_type i)) (Some (owner_scope_id i))
    (Some resource_id) (Some label_id).

Section index.
Variable text_le : string -> string -> bool.

(** [_replace_generation] up to its binding. *)
Definition bind_resource (trusted_document : bool) (now : Z) (c : RetrievalAccessContext)
    (i : KnowledgeResourceIdentity) (m : option KnowledgeAclMutation) (initial : list KnowledgeGrant)
    : stres kdb KnowledgeResourceBinding :=
  s ← lift_res (writer_session now c i);
  if trusted_document
  then ensure_trusted_document_resource s text_le i c
  else ensure_project_resource s text_le i c m initial.

(** The identity and the context of [replace_trusted_document_revision]. *)
Definition document_context (user_id workspace_id : string) : res RetrievalAccessContext :=
  user ← new_PrincipalRef "user" user_id;
  project ← new_KnowledgePermission "knowledge.project" "workspace" workspace_id;
  create user_id "local" [user] [] [project] None.
Definition document_identity (workspace_id document_id revision_id : string) : res KnowledgeResourceIdentity :=
  new_KnowledgeResourceIdentity
    (mkIdentity "local" "document_ingestion" "document" "document_ingestion" document_id
       ("document:" +:+ document_id) revision_id "workspace" workspace_id "private").

(** * Revocation *)

Record revoke_result : Type := mkRevoked {
  rv_state : string;
  rv_resource_id : string;
  rv_label_id : string;
  rv_projection : option string;
  rv_authz_revision : option Z;
}.

(** [ORDER BY activated_at DESC NULLS LAST LIMIT 1] *)
Definition activated_le (a b : projection_row) : bool :=
  match pj_activated_at a, pj_activated_at b with
  | Some x, Some y => y <=? x
  | Some _, None => true
  | None, Some _ => false
  | None, None => true
  end.
Definition active_projection (s : session) (resource_id : string) (d : kdb) : option string :=
  pj_id <$> head (merge_sort (fun a b => activated_le a b)
    (List.filter (fun p => bool_decide (pj_resource p = resource_id) && pj_active p) (seen_projections s d))).

Definition revoke_resource (now : Z) (r : resource_row) : resource_row :=
  mkResource (rs_id r) (rs_tenant r) (rs_capability r) (rs_kind r) (rs_app r) (rs_source_id r) (rs_ref r)
    (rs_revision r) (rs_scope_type r) (rs_scope_id r) (rs_label r) false (Some now).
Definition revoke_generation (p : projection_row) : projection_row :=
  mkProjection (pj_id p) (pj_resource p) "revoked" false (pj_activated_at p) (pj_relation_count p).
Definition revoke_channel (c : channel_row) : channel_row :=
  mkChannel (cr_id c) (cr_projection c) (cr_evidence c) (cr_modality c) "revoked" 0 0
    (Some (default "source_revoked" (cr_reason c))).
Definition revoke_document (x : document_row) : document_row :=
  mkDocument (dc_id x) (dc_app x) (dc_source_id x) (dc_content x)
    (dset "revoked" (PBool true) (dset "active" (PBool false) (dc_metadata x)))
    (dc_resource x) (dc_label x) (dc_projection x).

Definition revoke_projection (now : Z) (c : RetrievalAccessContext) (i : KnowledgeResourceIdentity)
    : stres kdb revoke_result :=
  _ ← lift_res (require_project_permission i c);
  resource_id ← lift_res (identity_resource_id i);
  label_id ← lift_res (security_label_id resource_id);
  transaction (
    s ← lift_res (writer_session now c i);
    row ← gets_st (select_resource s (fun r =>
            bool_decide (rs_id r = resource_id) && bool_decide (rs_label r = label_id) && resource_key_is i r));
    projection ← gets_st (active_projection s resource_id);
    match row with
    | None => mret (mkRevoked "reused" resource_id label_id None None)
    | Some (r, revision) =>
        if negb (bool_decide (rs_revision r = source_revision i))
        then raise_st (OtherError "ProjectionWriteConflictError" "knowledge_projection_revoke_source_revision_conflict")
        else if negb (rs_active r)
        then mret (mkRevoked "reused" resource_id label_id projection (Some revision))
        else
        _ ← update_resources s (fun r => bool_decide (rs_id r = resource_id) && rs_active r) (revoke_resource now);
        _ ← update_rows s label_of_projection projections with_projections "knowledge_resource_projections"
              (fun p => bool_decide (pj_resource p = resource_id) && pj_active p) revoke_generation;
        generations ← gets_st (fun d => map pj_id (List.filter (fun p => bool_decide (pj_resource p = resource_id))
                                                     (seen_projections s d)));
        _ ← update_rows s (fun d => label_of_channel d) channels with_channels "knowledge_embedding_channel_receipts"
              (fun c => member (cr_projection c) generations && negb (bool_decide (cr_state c = "revoked")))
              revoke_channel;
        _ ← update_rows s label_of_report reports with_reports "knowledge_graph_community_reports"
              (fun r => bool_decide (rp_resource r = resource_id)) retire;
        _ ← update_rows s (fun _ x => dc_label x) documents with_documents "external_docs"
              (fun x => bool_decide (dc_resource x = Some resource_id)) revoke_document;
        mret (mkRevoked "revoked" resource_id label_id projection (Some revision))
    end).

(** * Runs of the writers

    One request is one transaction; the identity of a source is validated
    where it is built.  The writers of the chunks, generations and graph of the
    index may leave any rows there: they are one step, [Index]. *)
Record index_rows : Type := mkIndex {
  ix_projections : list projection_row;
  ix_reports : list report_row;
  ix_documents : list document_row;
  ix_evidence : list evidence_row;
  ix_channels : list channel_row;
  ix_records : list record_row;
  ix_mentions : list mention_row;
}.
Definition with_index (x : index_rows) (d : kdb) : kdb :=
  mkKdb (labels d) (resources d) (grants d) (audits d) (masks d) (mask_audits d) (ix_projections x)
    (ix_reports x) (ix_documents x) (ix_evidence x) (ix_channels x) (ix_records x) (ix_mentions x).

Inductive write : Type :=
| Project (now : Z) (c : RetrievalAccessContext) (i : KnowledgeResourceIdentity)
    (m : option KnowledgeAclMutation) (initial : list KnowledgeGrant)
| Document (now : Z) (user_id workspace_id document_id revision_id : string)
| ReplaceAcl (now : Z) (c : RetrievalAccessContext) (workspace_id resource_id : string) (command : replacement_command)
| Revoke (now : Z) (c : RetrievalAccessContext) (i : KnowledgeResourceIdentity)
| Index (rows : index_rows).

Definition perform (w : write) : stres kdb unit :=
  transaction
    match w with
    | Project now c i m initial =>
        i ← lift_res (new_KnowledgeResourceIdentity i);
        _ ← bind_resource false now c i m initial; mret tt
    | Document now user_id workspace_id document_id revision_id =>
        c ← lift_res (document_context user_id workspace_id);
        i ← lift_res (document_identity workspace_id document_id revision_id);
        _ ← bind_resource true now c i None []; mret tt
    | ReplaceAcl now c workspace_id resource_id command =>
        _ ← replace_grants text_le now c workspace_id resource_id command; mret tt
    | Revoke now c i =>
        i ← lift_res (new_KnowledgeResourceIdentity i);
        _ ← revoke_projection now c i; mret tt
    | Index rows => modify_st (with_index rows)
    end.

Definition run (ws : list write) (d : kdb) : kdb := foldl (fun d w => (perform w d).2) d ws.
End index.

Definition empty_kdb : kdb := mkKdb ∅ [] [] [] [] [] [] [] [] [] [] [] [].

(** * The tables before the first run

    The migration that adds the tables (20260727020000) gives each ingested
    document a label at revision 1, a resource and the grant of its owner, and
    writes no audit entry. *)
Record mapped_document : Type := mkMapped {
  mp_workspace : string;
  mp_document : string;
  mp_revision : string;
  mp_owner : string;
}.

Definition mp_resource (m : mapped_document) : string :=
  "kr_" +:+ sha256_text (join _SEPARATOR
    ["document_ingestion"; "document"; "document:" +:+ mp_document m; "workspace"; mp_workspace m]).
Definition mp_label (m : mapped_document) : string := "ksl_" +:+ sha256_text (mp_resource m).

Definition backfilled_resource (m : mapped_document) : resource_row :=
  mkResource (mp_resource m) "local" "document_ingestion" "document" "document_ingestion" (mp_document m)
    ("document:" +:+ mp_document m) (mp_revision m) "workspace" (mp_workspace m) (mp_label m) true None.
Definition backfilled_grant (m : mapped_document) : grant_row :=
  mkGrantRow ("kg_" +:+ sha256_text (join _SEPARATOR [mp_label m; "user"; mp_owner m; "owner"; "allow"]))
    (mp_label m) (mkKGrant (mkPrincipalRef "user" (mp_owner m)) "owner" "allow" None None) 1.

Definition backfill (docs : list mapped_document) : kdb :=
  mkKdb (list_to_map (map (fun m => (mp_label m, mkLabel "private" 1)) docs)) (map backfilled_resource docs)
    (map backfilled_grant docs) [] [] [] [] [] [] [] [] [] [].

(** The migration fails on two rows with one key; it takes the names of the
    workspaces as they are, here without spaces around them. *)
Record backfill_ok (docs : list mapped_document) : Prop := {
  bo_resources : NoDup (map mp_resource docs);
  bo_labels : NoDup (map mp_label docs);
  bo_workspaces : forall m, m ∈ docs -> strip (mp_workspace m) = mp_workspace m;
}.

Lemma no_backfill : backfill_ok [].
Proof. split; [constructor|constructor|]. by intros m ?%not_elem_of_nil. Qed.
