(* ===== verification/KnowledgeFacts.v ===== *)
(** What the statements of the knowledge store do when they return: the rows
    they add, replace and leave alone, and the invariant of the tables.  Then
    the index of a database with documents older than its access tables: the
    migration gave them labels, resources and grants without a log.  The writers
    never read the log, so their runs are those of the same tables with the
    entries that the migration did not write, and what holds of a run with a
    complete log holds of these. *)
From stdpp Require Import sorting.
From S2P Require Import Prelude PyDict PyStr PyVal PyJson KnowledgeContracts KnowledgeStore KnowledgeRetrieval KnowledgeIndex.

(** * Running statements *)

Lemma insist_Ok b e d u d' : insist b e d = (Ok u, d') -> b = true /\ d' = d.
Proof. unfold insist. destruct b; [by intros [= _ <-]|done]. Qed.

(** [steps H] executes the bindings and checks of a program that returned. *)
Ltac steps H :=
  repeat first
    [ lazymatch type of H with (mbind _ _) _ = _ =>
        let R := fresh "R" in apply st_bind_Ok_inv in H as (? & ? & R & H) end
    | match goal with
      | R : insist _ _ _ = (Ok _, _) |- _ => apply insist_Ok in R as [? ->]
      | R : lift_res _ _ = (Ok _, _) |- _ => apply lift_Ok in R as [? ->]
      | R : get_st _ = (Ok _, _) |- _ => injection R as <- <-
      | R : gets_st _ _ = (Ok _, _) |- _ => injection R as <- <-
      | R : modify_st _ _ = (Ok _, _) |- _ => injection R as <- <-
      end ].

Lemma no_dup {A} `{EqDecision B} (f : A -> B) (l : list A) x :
  negb (existsb (fun y => bool_decide (f y = f x)) l) = true -> f x ∉ map f l.
Proof.
  rewrite negb_true_iff, existsb_none. intros Hn (y & He & Hy)%list_elem_of_fmap.
  specialize (Hn y Hy). rewrite He, bool_decide_true in Hn; done.
Qed.

Lemma nodup_snoc {A B} (f : A -> B) l x : NoDup (map f l) -> f x ∉ map f l -> NoDup (map f (l ++ [x])).
Proof.
  intros Hl Hx. rewrite map_app. apply NoDup_app. split; [done|]. split; [|apply NoDup_singleton].
  intros y Hy Hin. apply list_elem_of_singleton in Hin. by subst y.
Qed.

(** * Insertions *)

Lemma insert_label_Ok s id c d u d' :
  insert_label s id c d = (Ok u, d') ->
  labels d !! id = None /\ d' = with_labels (<[id := mkLabel c 1]>) d.
Proof.
  unfold insert_label. intros E. steps E. split; [|done].
  bool_prop. destruct (labels d !! id) eqn:L; [|done].
  exfalso. by match goal with H : ~ is_Some _ |- _ => apply H end.
Qed.

Lemma insert_resource_Ok s r d u d' :
  insert_resource s r d = (Ok u, d') ->
  rs_id r ∉ map rs_id (resources d) /\ rs_label r ∉ map rs_label (resources d)
  /\ d' = with_resources (fun l => l ++ [r]) d.
Proof.
  unfold insert_resource. intros E. steps E.
  split; [by apply no_dup|]. split; [by apply no_dup|done].
Qed.

Lemma insert_acl_grant_Ok s g d u d' :
  insert_grant s g d = (Ok u, d') ->
  gr_key g ∉ map gr_key (grants d) /\ d' = with_grants (fun l => l ++ [g]) d.
Proof.
  unfold insert_grant. intros E. steps E. split; [by apply no_dup|done].
Qed.

Lemma insert_audit_Ok s a d u d' :
  insert_audit s a d = (Ok u, d') -> d' = with_audits (fun l => l ++ [a]) d.
Proof. unfold insert_audit. intros E. by steps E. Qed.

Lemma with_grants_grants f g d : with_grants f (with_grants g d) = with_grants (fun l => f (g l)) d.
Proof. done. Qed.

Lemma executemany_grants s rows d u d' :
  executemany (insert_grant s) rows d = (Ok u, d') ->
  d' = with_grants (fun l => l ++ rows) d
  /\ (NoDup (map gr_key (grants d)) -> NoDup (map gr_key (grants d ++ rows))).
Proof.
  revert d. induction rows as [|g rows IH]; intros d; simpl.
  - intros [= _ <-]. rewrite app_nil_r. split; [|done]. destruct d. unfold with_grants. simpl. by rewrite app_nil_r.
  - intros E. steps E. apply insert_acl_grant_Ok in R as [Hk ->]. apply IH in E as [-> Hn].
    rewrite with_grants_grants. simpl in Hn. split.
    + unfold with_grants. f_equal. by rewrite <- app_assoc.
    + intros Hd. change (g :: rows) with ([g] ++ rows). rewrite (app_assoc (grants d) [g] rows). apply Hn. by apply nodup_snoc.
Qed.

(** The rows of a list of grants. *)
Definition rows_for (label : string) (revision : Z) (gs : list KnowledgeGrant) (rows : list grant_row) : Prop :=
  map gr_grant rows = gs /\ forall g, g ∈ rows -> gr_label g = label /\ gr_revision g = revision.

Lemma _insert_grants_Ok s label gs revision d u d' :
  _insert_grants s label gs revision d = (Ok u, d') ->
  exists rows, rows_for label revision gs rows /\ d' = with_grants (fun l => l ++ rows) d
    /\ (NoDup (map gr_key (grants d)) -> NoDup (map gr_key (grants d ++ rows))).
Proof.
  unfold _insert_grants. intros E. steps E. apply executemany_grants in E as [-> Hn].
  exists x. split; [|done]. match goal with H : seq_res _ = Ok _ |- _ => apply seq_res_Forall2 in H; rename H into HF end.
  clear Hn. unfold rows_for. induction HF as [|g row gs rows Hg HF [IH1 IH2]]; [split; [done|set_solver]|].
  bind_inv Hg. injection Hg as <-. simpl. split; [by f_equal|].
  intros g' [->|Hin]%list.elem_of_cons; auto.
Qed.

Definition describes (gs : list KnowledgeGrant) (v : pyval) : Prop :=
  exists event, v = PDict [("event", PStr event); ("grants", _canonical_grants gs)].

Lemma _insert_audit_Ok s rid label old new c event gs d u d' :
  _insert_audit s rid label old new c event gs d = (Ok u, d') ->
  exists a, ad_resource a = rid /\ ad_label a = label /\ ad_old a = old /\ ad_new a = new
    /\ ad_actor a = subject_user_id c /\ ad_context_hash a = principal_set_hash c
    /\ describes gs (ad_diff a)
    /\ d' = with_audits (fun l => l ++ [a]) d.
Proof.
  unfold _insert_audit. intros E. steps E. apply insert_audit_Ok in E as ->.
  eexists (mkAudit _ _ _ _ _ _ _ _ _). repeat (split; [reflexivity|]). split; [|reflexivity]. simpl.
  match goal with H : _diff_payload _ _ = Ok _ |- _ => unfold _diff_payload in H; bind_inv H; injection H as <- end.
  by exists event.
Qed.

(** * Access *)

Definition scope_of (r : resource_row) : string * string := (rs_scope_type r, rs_scope_id r).

(** The columns of a resource that no statement changes. *)
Definition rs_core (r : resource_row) : string * string * string * (string * string) :=
  (rs_id r, rs_label r, rs_tenant r, scope_of r).

Definition grants_of (label : string) (d : kdb) : list grant_row :=
  List.filter (fun g => bool_decide (gr_label g = label)) (grants d).
Definition audits_of (label : string) (d : kdb) : list audit_row :=
  List.filter (fun a => bool_decide (ad_label a = label)) (audits d).
Definition revision_of (label : string) (d : kdb) : Z :=
  match labels d !! label with Some l => lb_revision l | None => 0 end.

(** [n] revisions, each from the one before. *)
Definition chain (n : Z) : list (Z * Z) := map (fun k => (Z.of_nat k, Z.of_nat k + 1)) (seq 0 (Z.to_nat n)).

Lemma chain_next n : 0 <= n -> chain (n + 1) = chain n ++ [(n, n + 1)].
Proof.
  intros Hn. unfold chain. replace (Z.to_nat (n + 1)) with (S (Z.to_nat n)) by lia.
  rewrite seq_S, map_app. simpl. by rewrite Z2Nat.id.
Qed.

Lemma access_elim s d label :
  knowledge_rls_can_access_label s d label = true ->
  exists r l, r ∈ resources d /\ rs_label r = label /\ labels d !! label = Some l
    /\ row_access s d r (lb_revision l) = true.
Proof.
  unfold knowledge_rls_can_access_label. rewrite existsb_elem. intros (r & Hr & E).
  apply andb_true_iff in E as [Hl E]. apply bool_decide_eq_true in Hl as <-.
  destruct (labels d !! rs_label r) as [l|] eqn:L; [|done]. by exists r, l.
Qed.

Lemma access_intro s d r l :
  r ∈ resources d -> labels d !! rs_label r = Some l -> row_access s d r (lb_revision l) = true ->
  knowledge_rls_can_access_label s d (rs_label r) = true.
Proof.
  intros Hr L E. unfold knowledge_rls_can_access_label. apply existsb_elem.
  exists r. split; [done|]. by rewrite bool_decide_true, L.
Qed.

Lemma select_resource_Some s w d r revision :
  select_resource s w d = Some (r, revision) ->
  r ∈ resources d /\ w r = true /\ (exists l, labels d !! rs_label r = Some l /\ lb_revision l = revision)
  /\ knowledge_rls_can_access_label s d (rs_label r) = true.
Proof.
  unfold select_resource. intros Hh%head_Some_elem_of. apply list_elem_of_omap in Hh as (r' & Hr & J).
  apply list_elem_of_In, filter_In in Hr as [Hr Hw]. apply list_elem_of_In in Hr.
  unfold joined in J. destruct (labels d !! rs_label r') as [l|] eqn:L; [|done].
  destruct (knowledge_rls_can_access_label _ _ _) eqn:A; [|done]. injection J as -> <-. naive_solver.
Qed.

(** A manager's access does not depend on the grants. *)
Lemma manager_access s d r revision revision' d' :
  knowledge_rls_has_permission s "knowledge.manage_acl" (rs_scope_type r) (rs_scope_id r) = true ->
  masks d' = masks d -> row_access s d r revision = true -> row_access s d' r revision' = true.
Proof.
  intros Hm Hms. unfold row_access. rewrite Hm, Hms, !orb_true_r. by destruct (nonempty _), (bool_decide _).
Qed.

(** * Replacing grants *)

Lemma advance_label_Ok s id old new d o d' :
  advance_label s id old new d = (Ok (Some o), d') ->
  o = new /\ exists l, labels d !! id = Some l /\ lb_revision l = old
    /\ knowledge_rls_can_access_label s d id = true
    /\ d' = with_labels (<[id := mkLabel (lb_classification l) new]>) d.
Proof.
  unfold advance_label. intros E. apply st_bind_Ok_inv in E as (d0 & ? & [= -> ->] & E).
  destruct (labels _ !! id) as [l|] eqn:L; [|done].
  destruct ((lb_revision l =? old) && _) eqn:T; [|done]. steps E.
  injection E as <- <-. bool_prop. split; [done|]. exists l. done.
Qed.

Lemma delete_grants_all s label d u d' :
  delete_rows s (fun _ g => Some (gr_label g)) with_grants (fun g => bool_decide (gr_label g = label)) d = (Ok u, d') ->
  knowledge_rls_can_access_label s d label = true ->
  d' = with_grants (List.filter (fun g => negb (bool_decide (gr_label g = label)))) d.
Proof.
  unfold delete_rows. intros E A. steps E. unfold with_grants. f_equal. apply filter_ext. intros g. f_equal.
  case_bool_decide as Hg; [|done]. simpl. by rewrite Hg, A.
Qed.

(** A replacement by a writer who still sees the label afterwards. *)
Lemma _replace_grants_Ok s rid label cur c m d rev d' :
  _replace_grants s rid label cur c m d = (Ok rev, d') ->
  (forall l, labels d !! label = Some l ->
     knowledge_rls_can_access_label s d label = true ->
     knowledge_rls_can_access_label s
       (with_labels (<[label := mkLabel (lb_classification l) (cur + 1)]>) d) label = true) ->
  expected_authz_revision m = cur /\ rev = cur + 1
  /\ exists l rows a,
    labels d !! label = Some l /\ lb_revision l = cur /\ knowledge_rls_can_access_label s d label = true
    /\ rows_for label (cur + 1) (m_grants m) rows /\ ad_resource a = rid /\ ad_label a = label /\ ad_old a = cur /\ ad_new a = cur + 1
    /\ ad_actor a = subject_user_id c /\ ad_context_hash a = principal_set_hash c
    /\ describes (m_grants m) (ad_diff a)
    /\ d' = with_audits (fun x => x ++ [a]) (with_grants (fun x =>
              List.filter (fun g => negb (bool_decide (gr_label g = label))) x ++ rows)
              (with_labels (<[label := mkLabel (lb_classification l) (cur + 1)]>) d))
    /\ (NoDup (map gr_key (List.filter (fun g => negb (bool_decide (gr_label g = label))) (grants d))) ->
        NoDup (map gr_key (grants d'))).
Proof.
  unfold _replace_grants. destruct (expected_authz_revision m =? cur) eqn:X; [|done]. simpl. intros E Hacc.
  apply Z.eqb_eq in X. split; [done|].
  apply st_bind_Ok_inv in E as (o & d1 & R & E). destruct o as [o|]; [|done].
  apply advance_label_Ok in R as (-> & l & L & Lr & A & ->).
  rewrite Z.eqb_refl in E. simpl in E.
  apply st_bind_Ok_inv in E as (? & d2 & Rd & E). apply delete_grants_all in Rd as ->; [|by apply Hacc].
  apply st_bind_Ok_inv in E as (? & d3 & Ri & E). apply _insert_grants_Ok in Ri as (rows & Hrows & -> & Hn).
  apply st_bind_Ok_inv in E as (? & d4 & Ra & E).
  apply _insert_audit_Ok in Ra as (a & ? & ? & ? & ? & ? & ? & ? & ->). injection E as <- <-.
  split; [done|]. exists l, rows, a. repeat (split; [done|]). exact Hn.
Qed.

(** * Creating a resource *)

Lemma _create_resource_Ok s i c rid label initial d u d' :
  _create_resource s i c rid label initial d = (Ok u, d') ->
  exists gs rows a r,
    grants_to_create (subject_user_id c) initial = Ok gs
    /\ labels d !! label = None /\ rs_id r ∉ map rs_id (resources d) /\ label ∉ map rs_label (resources d)
    /\ rs_core r = (rid, label, i_tenant_id i, (owner_scope_type i, owner_scope_id i))
    /\ rs_active r = true
    /\ rows_for label 1 gs rows
    /\ ad_resource a = rid /\ ad_label a = label /\ ad_old a = 0 /\ ad_new a = 1 /\ describes gs (ad_diff a)
    /\ d' = with_audits (fun x => x ++ [a]) (with_grants (fun x => x ++ rows)
              (with_resources (fun x => x ++ [r])
                 (with_labels (<[label := mkLabel (classification i) 1]>) d)))
    /\ (NoDup (map gr_key (grants d)) -> NoDup (map gr_key (grants d ++ rows))).
Proof.
  unfold _create_resource. intros E. apply st_bind_Ok_inv in E as (gs & ? & [Hgs ->]%lift_Ok & E).
  apply st_bind_Ok_inv in E as (? & ? & [L ->]%insert_label_Ok & E).
  apply st_bind_Ok_inv in E as (? & ? & (Hid & Hl & ->)%insert_resource_Ok & E).
  apply st_bind_Ok_inv in E as (? & ? & (rows & Hrows & -> & Hn)% _insert_grants_Ok & E).
  apply _insert_audit_Ok in E as (a & ? & ? & ? & ? & ? & ? & ? & ->).
  eexists gs, rows, a, _. repeat (split; [done|]). done.
Qed.

(** * Updates *)

Lemma update_rows_Ok s {A} label (get : kdb -> list A) set table w f d u d' :
  update_rows s label get set table w f d = (Ok u, d') ->
  d' = set (map (fun a => if w a && policy_using s d (label d a) then f a else a)) d.
Proof. unfold update_rows. intros E. by steps E. Qed.

Lemma map_core_update (f : resource_row -> resource_row) w l :
  (forall r, rs_core (f r) = rs_core r) -> map rs_core (map (fun r => if w r : bool then f r else r) l) = map rs_core l.
Proof. intros Hf. rewrite map_map. apply map_ext. intros r. by destruct (w r). Qed.

(** * The invariant of the tables *)

Definition stripped (r : resource_row) : Prop :=
  strip (rs_scope_type r) = rs_scope_type r /\ strip (rs_scope_id r) = rs_scope_id r.

Record kinv (d : kdb) : Prop := {
  one_id : NoDup (map rs_id (resources d));
  one_label : NoDup (map rs_label (resources d));
  labelled : forall r, r ∈ resources d -> is_Some (labels d !! rs_label r);
  scopes_stripped : forall r, r ∈ resources d -> stripped r;
  current : forall g, g ∈ grants d ->
    exists l, labels d !! gr_label g = Some l /\ gr_revision g = lb_revision l;
  one_grant : NoDup (map gr_key (grants d));
  history : forall label, map (fun a => (ad_old a, ad_new a)) (audits_of label d) = chain (revision_of label d);
  explained : forall label l, labels d !! label = Some l ->
    1 <= lb_revision l /\ grants_of label d <> []
    /\ exists a, last (audits_of label d) = Some a /\ describes (map gr_grant (grants_of label d)) (ad_diff a);
  audited : forall a, a ∈ audits d ->
    exists r, r ∈ resources d /\ rs_id r = ad_resource a /\ rs_label r = ad_label a;
}.

Lemma core_found l l' r :
  map rs_core l = map rs_core l' -> r ∈ l -> exists r', r' ∈ l' /\ rs_core r' = rs_core r.
Proof.
  intros Hm Hr. apply (list_elem_of_fmap_2 rs_core) in Hr. unfold fmap in Hr.
  change (list_fmap _ _ rs_core l) with (map rs_core l) in Hr. rewrite Hm in Hr.
  apply list_elem_of_fmap in Hr as (r' & -> & Hr'). by exists r'.
Qed.

Lemma core_columns {A} (f : string * string * string * (string * string) -> A) l l' :
  map rs_core l = map rs_core l' -> map (fun r => f (rs_core r)) l = map (fun r => f (rs_core r)) l'.
Proof. intros Hm. rewrite <- !(map_map rs_core f). by rewrite Hm. Qed.

(** The tables of the invariant. *)
Lemma kinv_same d d' :
  kinv d -> labels d' = labels d -> map rs_core (resources d') = map rs_core (resources d) ->
  grants d' = grants d -> audits d' = audits d -> kinv d'.
Proof.
  intros [] HL HR HG HA.
  assert (Hid : map rs_id (resources d') = map rs_id (resources d)) by exact (core_columns (fun c => c.1.1.1) _ _ HR).
  assert (Hlb : map rs_label (resources d') = map rs_label (resources d))
    by exact (core_columns (fun c => c.1.1.2) _ _ HR).
  assert (Hback : forall r, r ∈ resources d' -> exists r0, r0 ∈ resources d /\ rs_core r0 = rs_core r)
    by (intros r Hr; by eapply core_found).
  assert (Hforth : forall r, r ∈ resources d -> exists r0, r0 ∈ resources d' /\ rs_core r0 = rs_core r)
    by (intros r Hr; by eapply core_found).
  unfold audits_of, grants_of, revision_of in *.
  constructor; unfold audits_of, grants_of, revision_of; rewrite ?HL, ?HG, ?HA; try done.
  - by rewrite Hid.
  - by rewrite Hlb.
  - intros r (r0 & Hr0 & C)%Hback. injection C as _ <- _ _ _. by apply labelled0.
  - intros r (r0 & Hr0 & C)%Hback. apply scopes_stripped0 in Hr0 as [? ?]. unfold stripped.
    injection C as _ _ _ C1 C2. by rewrite <- C1, <- C2.
  - intros a Ha. destruct (audited0 a Ha) as (r & Hr & Hi & Hl). apply Hforth in Hr as (r0 & Hr0 & C).
    exists r0. injection C as C1 C2 _ _ _. split; [done|]. by rewrite C1, C2.
Qed.

Lemma kinv_empty : kinv empty_kdb.
Proof. by constructor; simpl; try constructor; set_solver. Qed.

(** ** Filters of one label *)

Lemma filter_label {A} (f : A -> string) (l : list A) label (rows : list A) :
  (forall x, x ∈ rows -> f x = label) ->
  List.filter (fun x => bool_decide (f x = label))
    (List.filter (fun x => negb (bool_decide (f x = label))) l ++ rows) = rows.
Proof.
  intros Hr. rewrite List.filter_app. rewrite (filter_all _ rows) by (intros x Hx; by rewrite bool_decide_true by auto).
  induction l as [|x l IH]; simpl; [done|]. case_bool_decide; simpl; [done|]. by rewrite bool_decide_false.
Qed.

Lemma filter_none {A} (f : A -> string) label label' (rows : list A) :
  label' <> label -> (forall x, x ∈ rows -> f x = label) ->
  List.filter (fun x => bool_decide (f x = label')) rows = [].
Proof.
  intros Hne. induction rows as [|x rows IH]; intros Hr; [done|]. simpl. rewrite (Hr x) by left.
  rewrite bool_decide_false by done. apply IH. intros y Hy. apply Hr. by right.
Qed.

Lemma filter_other {A} (f : A -> string) (l : list A) label label' (rows : list A) :
  label' <> label -> (forall x, x ∈ rows -> f x = label) ->
  List.filter (fun x => bool_decide (f x = label'))
    (List.filter (fun x => negb (bool_decide (f x = label))) l ++ rows)
  = List.filter (fun x => bool_decide (f x = label')) l.
Proof.
  intros Hne Hr. rewrite List.filter_app.
  rewrite (filter_none f label label' rows) by done.
  rewrite app_nil_r. induction l as [|x l IH]; [done|]. simpl.
  case_bool_decide; simpl; [rewrite bool_decide_false by congruence; done|].
  case_bool_decide; by rewrite IH.
Qed.

Lemma filter_fresh {A} (f : A -> string) (l : list A) label :
  List.filter (fun x => bool_decide (f x = label)) l = [] ->
  List.filter (fun x => negb (bool_decide (f x = label))) l = l.
Proof.
  intros Hn. apply filter_all. intros x Hx. rewrite negb_true_iff. apply bool_decide_eq_false. intros Hf.
  assert (Hin : x ∈ List.filter (fun x => bool_decide (f x = label)) l).
  { apply list_elem_of_In, filter_In. split; [by apply list_elem_of_In|]. by apply bool_decide_eq_true. }
  rewrite Hn in Hin. by apply not_elem_of_nil in Hin.
Qed.

Lemma filter_snoc_label {A} (f : A -> string) (l : list A) label x :
  List.filter (fun y => bool_decide (f y = label)) (l ++ [x])
  = List.filter (fun y => bool_decide (f y = label)) l ++ (if bool_decide (f x = label) then [x] else []).
Proof. rewrite List.filter_app. simpl. by case_bool_decide. Qed.

Lemma nodup_filter {A B} (f : A -> B) p (l : list A) : NoDup (map f l) -> NoDup (map f (List.filter p l)).
Proof.
  induction l as [|x l IH]; [done|]. simpl. rewrite NoDup_cons. intros [Hx Hl].
  destruct (p x); simpl; [|auto]. apply NoDup_cons. split; [|auto].
  intros (y & Hy & Hin)%list_elem_of_fmap. apply Hx. rewrite Hy. apply list_elem_of_fmap_2.
  apply list_elem_of_In, filter_In in Hin as [? _]. by apply list_elem_of_In.
Qed.

(** ** A policy replaced *)

Definition replaced (label : string) (l : label_row) (rows : list grant_row) (a : audit_row) (d : kdb) : kdb :=
  with_audits (fun x => x ++ [a]) (with_grants (fun x =>
    List.filter (fun g => negb (bool_decide (gr_label g = label))) x ++ rows)
    (with_labels (<[label := mkLabel (lb_classification l) (lb_revision l + 1)]>) d)).

Lemma revision_insert label label' c n d :
  revision_of label' (with_labels (<[label := mkLabel c n]>) d)
  = if bool_decide (label = label') then n else revision_of label' d.
Proof.
  unfold revision_of, with_labels. simpl. case_bool_decide as E.
  - by rewrite E, lookup_insert_eq.
  - by rewrite lookup_insert_ne.
Qed.

Lemma kinv_positive d label l : kinv d -> labels d !! label = Some l -> 1 <= lb_revision l.
Proof. intros I L. by destruct (explained d I _ _ L). Qed.

Lemma kinv_replaced d label l rows a gs :
  kinv d -> labels d !! label = Some l ->
  rows_for label (lb_revision l + 1) gs rows -> gs <> [] ->
  ad_label a = label -> ad_old a = lb_revision l -> ad_new a = lb_revision l + 1 -> describes gs (ad_diff a) ->
  (exists r, r ∈ resources d /\ rs_id r = ad_resource a /\ rs_label r = label) ->
  NoDup (map gr_key (grants (replaced label l rows a d))) ->
  kinv (replaced label l rows a d).
Proof.
  intros I L [Hrows Hlab] Hgs Al Ao An Hd Hr Hnd. pose proof (kinv_positive d label l I L) as Hpos.
  assert (Hgl : forall g, g ∈ rows -> gr_label g = label) by (intros g Hg; by apply Hlab).
  destruct I. constructor; simpl; try done.
  - intros r Hin. rewrite lookup_insert_is_Some'. by auto.
  - intros g [Hg|Hg]%elem_of_app.
    + apply list_elem_of_In, filter_In in Hg as [Hg Hne]. apply list_elem_of_In in Hg.
      apply negb_true_iff, bool_decide_eq_false in Hne. rewrite lookup_insert_ne by done. by apply current0.
    + destruct (Hlab g Hg) as [-> ->]. rewrite lookup_insert_eq. by eexists.
  - intros label'. unfold replaced, audits_of, with_audits. simpl. rewrite filter_snoc_label, map_app.
    change (List.filter _ (audits d)) with (audits_of label' d). rewrite history0.
    unfold revision_of at 2. simpl. rewrite Al. case_bool_decide as E.
    + subst label'. rewrite lookup_insert_eq. unfold revision_of. rewrite L. simpl.
      rewrite Ao, An. by rewrite chain_next by lia.
    + rewrite lookup_insert_ne by done. apply app_nil_r.
  - intros label' l'. rewrite lookup_insert_Some. unfold grants_of, audits_of. simpl. rewrite filter_snoc_label.
    intros [[<- <-]|[Hne L']].
    + rewrite (filter_label gr_label) by done. rewrite bool_decide_true by done. simpl. split; [lia|].
      split; [by intros ->|]. exists a. rewrite last_snoc. split; [done|]. by rewrite Hrows.
    + rewrite (filter_other gr_label) by done. rewrite bool_decide_false by congruence. rewrite app_nil_r.
      by apply explained0.
  - intros a' [Ha|Ha%list_elem_of_singleton]%elem_of_app; [by apply audited0|]. subst a'. rewrite Al. done.
Qed.

(** ** A resource created *)

Definition created (label c : string) (r : resource_row) (rows : list grant_row) (a : audit_row) (d : kdb) : kdb :=
  with_audits (fun x => x ++ [a]) (with_grants (fun x => x ++ rows)
    (with_resources (fun x => x ++ [r]) (with_labels (<[label := mkLabel c 1]>) d))).

Lemma unlabelled d label : kinv d -> labels d !! label = None -> grants_of label d = [] /\ audits_of label d = [].
Proof.
  intros I L. split.
  - destruct (grants_of label d) as [|g gs] eqn:G; [done|].
    assert (Hg : g ∈ grants_of label d) by (rewrite G; left).
    apply list_elem_of_In, filter_In in Hg as [Hg El]. apply list_elem_of_In in Hg. apply bool_decide_eq_true in El.
    apply (current d I) in Hg as (l & Hl & _). congruence.
  - pose proof (history d I label) as Hh. unfold revision_of in Hh. rewrite L in Hh. by apply map_eq_nil in Hh.
Qed.

Lemma kinv_created d label c r rows a gs :
  kinv d -> labels d !! label = None ->
  rs_id r ∉ map rs_id (resources d) -> label ∉ map rs_label (resources d) ->
  rs_label r = label -> stripped r ->
  rows_for label 1 gs rows -> gs <> [] ->
  ad_resource a = rs_id r -> ad_label a = label -> ad_old a = 0 -> ad_new a = 1 -> describes gs (ad_diff a) ->
  NoDup (map gr_key (grants d ++ rows)) ->
  kinv (created label c r rows a d).
Proof.
  intros I L Hid Hlb Rl Rs [Hrows Hlab] Hgs Ar Al Ao An Hd Hnd.
  destruct (unlabelled d label I L) as [Hg0 Ha0].
  assert (Hgl : forall g, g ∈ rows -> gr_label g = label) by (intros g Hg; by apply Hlab).
  destruct I. constructor; simpl; try done.
  - by apply nodup_snoc.
  - apply nodup_snoc; [done|]. by rewrite Rl.
  - intros r' [Hr|Hr%list_elem_of_singleton]%elem_of_app; [|subst r']; rewrite lookup_insert_is_Some'; auto.
  - intros r' [Hr|Hr%list_elem_of_singleton]%elem_of_app; [by apply scopes_stripped0|by subst r'].
  - intros g [Hg|Hg]%elem_of_app.
    + destruct (current0 g Hg) as (l & Hl & Hr). exists l. split; [|done]. rewrite lookup_insert_ne; congruence.
    + destruct (Hlab g Hg) as [-> ->]. rewrite lookup_insert_eq. by eexists.
  - intros label'. unfold created, audits_of. simpl. rewrite filter_snoc_label, map_app.
    change (List.filter _ (audits d)) with (audits_of label' d). rewrite history0.
    unfold revision_of at 2. simpl. rewrite Al. case_bool_decide as E.
    + subst label'. rewrite lookup_insert_eq. unfold revision_of. rewrite L. simpl. by rewrite Ao, An.
    + rewrite lookup_insert_ne by done. apply app_nil_r.
  - intros label' l'. rewrite lookup_insert_Some. unfold created, grants_of, audits_of. simpl.
    rewrite filter_snoc_label. rewrite <- (filter_fresh gr_label (grants d) label) by done.
    intros [[<- <-]|[Hne L']].
    + rewrite (filter_label gr_label) by done. rewrite bool_decide_true by done. simpl. split; [lia|].
      split; [by intros ->|]. exists a. rewrite last_snoc. split; [done|]. by rewrite Hrows.
    + rewrite (filter_other gr_label) by done. rewrite bool_decide_false by congruence. rewrite app_nil_r.
      by apply explained0.
  - intros a' [Ha|Ha%list_elem_of_singleton]%elem_of_app.
    + destruct (audited0 a' Ha) as (r' & Hr' & ? & ?). exists r'. split; [apply elem_of_app; by left|done].
    + subst a'. exists r. split; [apply elem_of_app; right; by left|]. by rewrite Ar, Al.
Qed.

(** * Sessions and permissions *)

Lemma session_fields now c t i r l s :
  set_local_knowledge_context now c t i r l = Ok s ->
  k_now s = now /\ k_tenant s = tenant_id c /\ k_principals s = principals c /\ k_permissions s = permissions c
  /\ k_agent_role s = default "" (agent_role_of c).
Proof.
  unfold set_local_knowledge_context. destruct (xorb _ _); [done|]. destruct (_ && _); [done|].
  by intros [= <-].
Qed.

Lemma required_token_strip v f t : _required_token v f = Ok t -> t = strip v.
Proof. unfold _required_token. destruct (is_token _); [by intros [= <-]|done]. Qed.

Lemma has_permission_elem c name t i :
  has_permission c name t i = Ok true -> mkPermission (strip name) (strip t) (strip i) ∈ permissions c.
Proof.
  unfold has_permission, new_KnowledgePermission. intros E.
  repeat (bind_inv E). injection E as E. unfold member in E. apply bool_decide_eq_true in E.
  repeat match goal with H : mbind _ _ = Ok _ |- _ => bind_inv H end.
  repeat match goal with H : _required_token _ _ = Ok _ |- _ => apply required_token_strip in H; subst end.
  match goal with H : Ok _ = Ok _ |- _ => injection H as <- end. done.
Qed.

Lemma rls_permission s name t i :
  mkPermission name t i ∈ k_permissions s -> knowledge_rls_has_permission s name t i = true.
Proof.
  intros Hk. unfold knowledge_rls_has_permission. apply existsb_elem. eexists. split; [exact Hk|].
  by rewrite bool_decide_true.
Qed.

Lemma elem_of_sorted_set {A} `{EqDecision A} (f : A -> list string) l x : x ∈ sorted_set f l <-> x ∈ l.
Proof. unfold sorted_set. rewrite merge_sort_Permutation. apply elem_of_remove_dups. Qed.

Lemma grants_to_create_nonempty u initial gs : grants_to_create u initial = Ok gs -> gs <> [].
Proof.
  unfold grants_to_create. intros E. repeat (bind_inv E). injection E as <-. intros Hn.
  assert (Ho : a0 ∈ sorted_set grant_key (a0 :: initial)) by (apply elem_of_sorted_set; left).
  rewrite Hn in Ho. by apply not_elem_of_nil in Ho.
Qed.

(** * One resource per label *)

Lemma same_label d r r' : kinv d -> r ∈ resources d -> r' ∈ resources d -> rs_label r = rs_label r' -> r = r'.
Proof. intros I. apply (nodup_map_inj rs_label), I. Qed.

Lemma access_row s d r l :
  kinv d -> r ∈ resources d -> labels d !! rs_label r = Some l ->
  knowledge_rls_can_access_label s d (rs_label r) = row_access s d r (lb_revision l).
Proof.
  intros I Hr L. destruct (row_access s d r (lb_revision l)) eqn:E.
  - by eapply access_intro.
  - apply not_true_is_false. intros (r' & l' & Hr' & El & L' & E')%access_elim.
    assert (r' = r) as -> by (by eapply same_label). congruence.
Qed.

Lemma manager_keeps_access s d r l c n :
  kinv d -> r ∈ resources d -> labels d !! rs_label r = Some l ->
  knowledge_rls_has_permission s "knowledge.manage_acl" (rs_scope_type r) (rs_scope_id r) = true ->
  knowledge_rls_can_access_label s d (rs_label r) = true ->
  knowledge_rls_can_access_label s (with_labels (<[rs_label r := mkLabel c n]>) d) (rs_label r) = true.
Proof.
  intros I Hr L Hm. rewrite (access_row s d r l) by done. intros A.
  eapply access_intro; [exact Hr|simpl; apply lookup_insert_eq|]. simpl.
  by eapply manager_access; [exact Hm| |exact A].
Qed.

(** * The writers keep the invariant *)

Lemma replace_kinv s rid r cur c m d rev d' :
  kinv d -> r ∈ resources d -> rs_id r = rid ->
  knowledge_rls_has_permission s "knowledge.manage_acl" (rs_scope_type r) (rs_scope_id r) = true ->
  _replace_grants s rid (rs_label r) cur c m d = (Ok rev, d') ->
  expected_authz_revision m = cur /\ rev = cur + 1 /\ exists l rows a,
    labels d !! rs_label r = Some l /\ lb_revision l = cur /\ knowledge_rls_can_access_label s d (rs_label r) = true
    /\ rows_for (rs_label r) (cur + 1) (m_grants m) rows
    /\ ad_actor a = subject_user_id c /\ ad_context_hash a = principal_set_hash c
    /\ ad_label a = rs_label r /\ describes (m_grants m) (ad_diff a)
    /\ d' = replaced (rs_label r) l rows a d /\ (m_grants m <> [] -> kinv d').
Proof.
  intros I Hr Hid Hm E. apply _replace_grants_Ok in E as (X & -> & l & rows & a & L & Lr & A & Hrows & Ar & Al & Ao & An & Aa & Ah & Hd & -> & Hn).
  2:{ intros l L A. by eapply manager_keeps_access. }
  split; [done|]. split; [done|]. exists l, rows, a. destruct Lr. repeat (split; [done|]).
  intros Hgs.
  eapply kinv_replaced; try done.
  - exists r. by rewrite Ar.
  - apply Hn, nodup_filter, I.
Qed.

Lemma current_grants_nil s text_le label revision d :
  grants_of label d = [] -> current_grants s text_le label revision d = [].
Proof.
  unfold current_grants, grants_of. intros Hn.
  assert (List.filter (fun g => bool_decide (gr_label g = label) && (gr_revision g =? revision)
                                && policy_using s d (Some (gr_label g))) (grants d) = []) as ->; [|done].
  induction (grants d) as [|g gs IH] in Hn |- *; [done|]. simpl in Hn |- *.
  case_bool_decide; [done|]. by apply IH.
Qed.

Definition binds (i : KnowledgeResourceIdentity) (rid lid : string) (r : resource_row) (d : kdb) : Prop :=
  r ∈ resources d /\ rs_core r = (rid, lid, i_tenant_id i, (owner_scope_type i, owner_scope_id i)).

Definition stripped_scope (i : KnowledgeResourceIdentity) : Prop :=
  strip (owner_scope_type i) = owner_scope_type i /\ strip (owner_scope_id i) = owner_scope_id i.

Lemma create_kinv s i c rid lid initial d u d' :
  kinv d -> stripped_scope i -> _create_resource s i c rid lid initial d = (Ok u, d') ->
  kinv d' /\ exists r, binds i rid lid r d' /\ rs_active r = true.
Proof.
  intros I [Hst Hsi] E.
  apply _create_resource_Ok in E as (gs & rows & a & r & Hgs & L & Hid & Hlb & C & Act & Hrows & Ar & Al & Ao & An & Hd & -> & Hn).
  pose proof C as C'. unfold rs_core, scope_of in C'. injection C' as C1 C2 C3 C4 C5. split.
  - eapply (kinv_created d lid); try done; rewrite ?C1; try done.
    + unfold stripped. by rewrite C4, C5.
    + by eapply grants_to_create_nonempty.
    + apply Hn, I.
  - exists r. split; [|done]. split; [|done]. simpl. apply elem_of_app. right. by left.
Qed.

Lemma select_identity s i d r revision :
  select_resource s (resource_key_is i) d = Some (r, revision) ->
  r ∈ resources d /\ rs_tenant r = i_tenant_id i /\ scope_of r = (owner_scope_type i, owner_scope_id i)
  /\ revision_of (rs_label r) d = revision /\ is_Some (labels d !! rs_label r)
  /\ knowledge_rls_can_access_label s d (rs_label r) = true.
Proof.
  intros (Hr & Hk & (l & L & <-) & A)%select_resource_Some. unfold resource_key_is in Hk.
  apply bool_decide_eq_true in Hk. unfold rs_stable_identity in Hk. injection Hk as K1 _ _ _ K5 K6.
  unfold scope_of, revision_of. rewrite L, K5, K6. by split_and!; try done; eexists.
Qed.

Lemma update_resources_core s w f d u d' :
  (forall r, rs_core (f r) = rs_core r) -> update_resources s w f d = (Ok u, d') ->
  labels d' = labels d /\ map rs_core (resources d') = map rs_core (resources d)
  /\ grants d' = grants d /\ audits d' = audits d /\ masks d' = masks d.
Proof. intros Hf ->%update_rows_Ok. simpl. by rewrite map_core_update. Qed.

Lemma touch_kinv s i rid lid r d u d' :
  kinv d -> r ∈ resources d -> rs_core r = (rid, lid, i_tenant_id i, (owner_scope_type i, owner_scope_id i)) ->
  update_resources s (fun r => bool_decide (rs_id r = rid)) (touch_resource i) d = (Ok u, d') ->
  kinv d' /\ exists r', binds i rid lid r' d'.
Proof.
  intros I Hr C E. apply update_resources_core in E as (? & HR & ? & ? & ?); [|done].
  split; [by eapply kinv_same|]. destruct (core_found _ _ r (eq_sym HR) Hr) as (r' & Hr' & C').
  exists r'. split; [done|]. by rewrite C'.
Qed.

(** The policy of a label: its revision, grants and log. *)
Definition same_policy (label : string) (d d' : kdb) : Prop :=
  labels d' !! label = labels d !! label /\ grants_of label d' = grants_of label d
  /\ audits_of label d' = audits_of label d.

Lemma ensure_binds s i c rid lid initial d cur d1 :
  kinv d -> stripped_scope i ->
  match select_resource s (resource_key_is i) d with
  | None => _ ← _create_resource s i c rid lid initial; mret 1
  | Some (r, revision) =>
      if negb (bool_decide (rs_id r = rid) && bool_decide (rs_label r = lid))
      then raise_st (KnowledgeAuthorizationConflictError "knowledge_resource_stable_identity_mismatch")
      else
      _ ← update_resources s (fun r => bool_decide (rs_id r = rid)) (touch_resource i);
      mret revision
  end d = (Ok cur, d1) ->
  kinv d1 /\ (exists r, binds i rid lid r d1) /\ forall label, is_Some (labels d !! label) -> same_policy label d d1.
Proof.
  intros I Hs E1. destruct (select_resource _ _ _) as [[r rev]|] eqn:S.
  - apply select_identity in S as (Hr & Ht & Hsc & _).
    destruct (negb _) eqn:T; [done|]. apply negb_false_iff in T. bool_prop.
    apply st_bind_Ok_inv in E1 as (? & ? & Et & [= -> ->]).
    pose proof Et as Eu. apply update_resources_core in Eu as (HL & _ & HG & HA & _); [|done].
    assert (C : rs_core r = (rid, lid, i_tenant_id i, (owner_scope_type i, owner_scope_id i)))
      by (unfold rs_core; rewrite Hsc, Ht; congruence).
    destruct (touch_kinv s i rid lid r d _ _ I Hr C Et) as [I1 Hb]. split; [done|]. split; [done|]. intros label _. unfold same_policy, grants_of, audits_of. by rewrite HL, HG, HA.
  - apply st_bind_Ok_inv in E1 as (? & ? & Ec & [= _ <-]). pose proof Ec as Ec'.
    apply create_kinv in Ec as (I1 & r & Hb & _); [|done|done]. split; [done|]. split; [by exists r|].
    intros label [l L].
    apply _create_resource_Ok in Ec' as (gs & rows & a & r' & _ & L' & _ & _ & _ & _ & [_ Hrows] & _ & Al & _ & _ & _ & -> & _).
    assert (lid <> label) by congruence. unfold same_policy, grants_of, audits_of. simpl.
    rewrite lookup_insert_ne by done. rewrite filter_snoc_label, bool_decide_false by congruence.
    rewrite app_nil_r, List.filter_app. split; [done|]. split; [|done].
    rewrite (filter_none gr_label lid label rows) by first [congruence|intros g Hg; by apply Hrows].
    by rewrite app_nil_r.
Qed.

Lemma ensure_Ok s text_le i c m initial d b d' :
  kinv d -> stripped_scope i ->
  (m <> None -> knowledge_rls_has_permission s "knowledge.manage_acl" (owner_scope_type i) (owner_scope_id i) = true) ->
  ensure_resource s text_le i c m initial d = (Ok b, d') ->
  kinv d' /\ exists rid lid r d1, kinv d1 /\ binds i rid lid r d1
    /\ (forall label, is_Some (labels d !! label) -> same_policy label d d1)
    /\ match m with
       | None => d' = d1
       | Some m => exists l rows a,
           labels d1 !! lid = Some l /\ lb_revision l = expected_authz_revision m
           /\ knowledge_rls_can_access_label s d1 lid = true
           /\ rows_for lid (lb_revision l + 1) (m_grants m) rows
           /\ ad_actor a = subject_user_id c /\ ad_context_hash a = principal_set_hash c /\ ad_label a = lid
           /\ d' = replaced lid l rows a d1
       end.
Proof.
  intros I Hs Hm E. unfold ensure_resource in E.
  apply st_bind_Ok_inv in E as (rid & ? & [Hrid ->]%lift_Ok & E).
  apply st_bind_Ok_inv in E as (lid & ? & [Hlid ->]%lift_Ok & E).
  apply st_bind_Ok_inv in E as (existing & ? & [= <- <-] & E).
  apply st_bind_Ok_inv in E as (cur & d1 & E1 & E).
  apply ensure_binds in E1 as (I1 & [r Hb] & Hsame); [|done|done].
  destruct (Hb) as [Hr C]. unfold rs_core, scope_of in C. injection C as C1 C2 C3 C4 C5.
  apply st_bind_Ok_inv in E as (cur2 & d2 & E2 & E).
  apply st_bind_Ok_inv in E as (rows & ? & [= Hcg <-] & E).
  apply st_bind_Ok_inv in E as (gs & ? & [Hgs ->]%lift_Ok & E).
  destruct gs as [|g gs]; [done|].
  apply st_bind_Ok_inv in E as (? & ? & [_ ->]%lift_Ok & E). injection E as _ <-.
  destruct m as [m|]; [|injection E2 as _ <-; split; [done|]; by exists rid, lid, r, d1]. rewrite <- C2 in E2.
  eapply replace_kinv in E2 as (X & -> & l & rs & a & L & Lr & A & Hrows & Ha1 & Ha2 & Ha3 & _ & -> & Hk); try done.
  2:{ rewrite C4, C5. by apply Hm. }
  destruct Lr. rewrite C2 in L, A, Hrows, Ha3, Hk, Hcg |- *. split.
  - apply Hk. intros Hn. destruct Hrows as [Hrows _]. rewrite Hn in Hrows. apply map_eq_nil in Hrows as ->.
    rewrite current_grants_nil in Hcg; [by subst rows; simpl in Hgs; discriminate|].
    unfold grants_of. simpl. apply (filter_label gr_label). set_solver.
  - exists rid, lid, r, d1. split; [done|]. split; [done|]. split; [done|]. by exists l, rs, a.
Qed.

(** ** Agent masks *)

Definition mask_pair (m : mask_row) : string * string := (mk_role m, mk_effect m).
Definition masks_for (rid : string) (l : list (string * string)) (rows : list mask_row) : Prop :=
  map mask_pair rows = _canonical l /\ forall m, m ∈ rows -> mk_resource m = rid.

Lemma insert_mask_Ok s m d u d' : insert_mask s m d = (Ok u, d') -> d' = with_masks (fun l => l ++ [m]) d.
Proof. unfold insert_mask. intros E. by steps E. Qed.

Lemma executemany_masks s rows d u d' :
  executemany (insert_mask s) rows d = (Ok u, d') -> d' = with_masks (fun l => l ++ rows) d.
Proof.
  revert d. induction rows as [|m rows IH]; intros d; simpl.
  - intros [= _ <-]. destruct d. unfold with_masks. simpl. by rewrite app_nil_r.
  - intros E. apply st_bind_Ok_inv in E as (? & ? & ->%insert_mask_Ok & ->%IH).
    unfold with_masks. simpl. f_equal. by rewrite <- app_assoc.
Qed.

Lemma insert_mask_audit_Ok s a d u d' :
  insert_mask_audit s a d = (Ok u, d') -> exists f, d' = with_mask_audits f d.
Proof.
  unfold insert_mask_audit. intros E. apply st_bind_Ok_inv in E as (? & ? & [= <- <-] & E).
  apply st_bind_Ok_inv in E as (? & ? & [_ ->]%insist_Ok & E). destruct (existsb _ _).
  - injection E as _ <-. exists (fun l => l). by destruct d.
  - steps E. by eexists.
Qed.

Lemma label_for_resource d r :
  kinv d -> r ∈ resources d -> knowledge_rls_label_for_resource d (rs_id r) = Some (rs_label r).
Proof.
  intros I Hr. unfold knowledge_rls_label_for_resource. destruct (List.find _ _) as [r'|] eqn:F.
  - apply List.find_some in F as [Hr' E]. apply bool_decide_eq_true in E. apply list_elem_of_In in Hr'.
    assert (r' = r) as -> by (by eapply (nodup_map_inj rs_id); [apply I| | |]). done.
  - apply list_elem_of_In in Hr. apply (List.find_none _ _ F r) in Hr. by rewrite bool_decide_true in Hr.
Qed.

Lemma replace_masks_Ok s text_le r revision l c d p d' :
  kinv d -> r ∈ resources d -> knowledge_rls_can_access_label s d (rs_label r) = true ->
  replace_masks s text_le (rs_id r) revision l c d = (Ok p, d') ->
  exists f rows, masks_for (rs_id r) l rows
    /\ d' = with_mask_audits f (with_masks (fun x =>
              List.filter (fun m => negb (bool_decide (mk_resource m = rs_id r))) x ++ rows) d).
Proof.
  intros I Hr A. unfold replace_masks. intros E.
  apply st_bind_Ok_inv in E as (old & ? & [= _ <-] & E).
  apply st_bind_Ok_inv in E as (policy & ? & [_ ->]%lift_Ok & E).
  apply st_bind_Ok_inv in E as (? & d1 & Hdel & E).
  apply st_bind_Ok_inv in E as (rows & ? & [Hrows ->]%lift_Ok & E).
  apply st_bind_Ok_inv in E as (? & ? & ->%executemany_masks & E).
  apply st_bind_Ok_inv in E as (id & ? & [_ ->]%lift_Ok & E).
  apply st_bind_Ok_inv in E as (? & ? & [f ->]%insert_mask_audit_Ok & [= _ <-]).
  exists f, rows. split.
  - apply seq_res_Forall2 in Hrows. unfold masks_for.
    induction Hrows as [|y m ys ms Hm _ [IH1 IH2]]; [split; [done|set_solver]|].
    bind_inv Hm. injection Hm as <-. simpl. rewrite IH1. split; [by destruct y|].
    intros m' [->|Hin]%list.elem_of_cons; auto.
  - unfold delete_rows in Hdel. steps Hdel. unfold with_masks. simpl. do 3 f_equal.
    apply filter_ext. intros m. f_equal. case_bool_decide as Em; [|done].
    unfold label_of_mask, policy_using. by rewrite Em, label_for_resource, A.
Qed.

Lemma rebind_Ok s rid d b d' :
  rebind_active_authorization s rid d = (Ok b, d') ->
  exists f g, d' = with_reports f (with_projections g d).
Proof.
  unfold rebind_active_authorization. intros E. apply st_bind_Ok_inv in E as (inv & ? & [= _ <-] & E).
  apply st_bind_Ok_inv in E as (? & ? & ->%update_rows_Ok & E). destruct inv.
  - apply st_bind_Ok_inv in E as (? & ? & ->%update_rows_Ok & [= _ <-]). by do 2 eexists.
  - injection E as _ <-. exists (fun x => x). eexists. by destruct d.
Qed.

(** ** The governance command *)

Record policy_replaced (c : RetrievalAccessContext) (ws rid : string) (cmd : replacement_command)
    (x : replacement_result) (d d' : kdb) (r : resource_row) (l : label_row) (rows : list grant_row) (mrows : list mask_row)
    (a : audit_row) : Prop := {
  pr_resource : r ∈ resources d;
  pr_binding : b_label_id (rr_binding x) = rs_label r /\ b_authz_revision (rr_binding x) = lb_revision l + 1;
  pr_id : rs_id r = rid;
  pr_tenant : rs_tenant r = tenant_id c;
  pr_scope : scope_of r = ("workspace", ws);
  pr_manages : mkPermission "knowledge.manage_acl" "workspace" ws ∈ permissions c;
  pr_label : labels d !! rs_label r = Some l;
  pr_expected : lb_revision l = rc_expected_authz_revision cmd;
  pr_rows : rows_for (rs_label r) (lb_revision l + 1) (sorted_set grant_fields (rc_grants cmd)) rows;
  pr_masks : masks_for rid (rc_agent_masks cmd) mrows;
  pr_actor : ad_actor a = subject_user_id c /\ ad_context_hash a = principal_set_hash c /\ ad_label a = rs_label r
             /\ describes (sorted_set grant_fields (rc_grants cmd)) (ad_diff a);
  pr_kept : documents d' = documents d;
  pr_state : exists f g h, d' = with_mask_audits f (with_masks (fun x =>
      List.filter (fun m => negb (bool_decide (mk_resource m = rid))) x ++ mrows)
      (with_reports g (with_projections h (replaced (rs_label r) l rows a d))));
  pr_inv : kinv d';
}.

Lemma replace_grants_Ok text_le now c ws rid cmd d x d' :
  kinv d -> replace_grants text_le now c ws rid cmd d = (Ok x, d') ->
  exists r l rows mrows a, policy_replaced c ws rid cmd x d d' r l rows mrows a.
Proof.
  intros I E. unfold replace_grants in E.
  apply st_bind_Ok_inv in E as ([] & ? & [Hman ->]%lift_Ok & E). apply transaction_Ok in E.
  apply st_bind_Ok_inv in E as (s & ? & [Hs ->]%lift_Ok & E).
  apply st_bind_Ok_inv in E as (m & ? & [Hm ->]%lift_Ok & E).
  apply st_bind_Ok_inv in E as (b & d1 & Eb & E).
  apply session_fields in Hs as (_ & _ & _ & Hperm & _).
  (* the mutation *)
  unfold new_KnowledgeAclMutation in Hm. destruct (_ <? 1); [done|].
  assert (Hmg : m_grants m = sorted_set grant_fields (rc_grants cmd) /\ m_grants m <> []
    /\ expected_authz_revision m = rc_expected_authz_revision cmd).
  { destruct (sorted_set _ _) as [|g gs]; [done|]. by injection Hm as <-. }
  destruct Hmg as (Hmg & Hne & Hexp). clear Hm.
  (* the resource *)
  unfold replace_existing_resource_grants in Eb.
  apply st_bind_Ok_inv in Eb as (o & ? & [= Hsel <-] & Eb). destruct o as [[r cur]|]; [|done].
  apply select_resource_Some in Hsel as (Hr & Hw & (l0 & L0 & _) & A). bool_prop.
  destruct (scopes_stripped d I r Hr) as [_ Hstrip].
  assert (Hws : mkPermission "knowledge.manage_acl" "workspace" ws ∈ permissions c).
  { unfold _require_manage in Hman. bind_inv Hman. destruct a; [|done].
    apply has_permission_elem in Ha. replace (strip ws) with ws in Ha by congruence. exact Ha. }
  assert (Hmgr : knowledge_rls_has_permission s "knowledge.manage_acl" (rs_scope_type r) (rs_scope_id r) = true).
  { apply rls_permission. rewrite Hperm. congruence. }
  apply st_bind_Ok_inv in Eb as (rev & d2 & Er & Eb). eapply replace_kinv in Er; try done.
  destruct Er as (X & -> & l & rows & a & L & <- & _ & Hrows & Haa & Hah & Hal & Had & -> & Hk).
  apply st_bind_Ok_inv in Eb as (hash & ? & [_ ->]%lift_Ok & [= <- <-]). specialize (Hk Hne).
  (* projections and masks *)
  apply st_bind_Ok_inv in E as (inv & ? & (g & h & ->)%rebind_Ok & E).
  set (d3 := with_reports _ _) in E.
  assert (I3 : kinv d3) by (by eapply kinv_same; [exact Hk| | | |]).
  assert (A3 : knowledge_rls_can_access_label s d3 (rs_label r) = true).
  { rewrite (access_row s d r l) in A by done. eapply access_intro; [exact Hr|simpl; apply lookup_insert_eq|].
    by eapply manager_access; [exact Hmgr| |exact A]. }
  apply st_bind_Ok_inv in E as (policy & d4 & Em & E). simpl in Em. subst rid.
  eapply replace_masks_Ok in Em as (f & mrows & Hmr & ->); [|exact I3|exact Hr|exact A3].
  apply st_bind_Ok_inv in E as (detail & ? & [= _ <-] & E). destruct detail as [[? ?]|]; [|done].
  apply st_bind_Ok_inv in E as (gs & ? & [= _ <-] & [= <- <-]).
  exists r, l, rows, mrows, a. rewrite Hmg in Hrows, Had. constructor; try done.
  - unfold scope_of. congruence.
  - by rewrite <- Hexp.
  - by do 3 eexists.
  - by eapply kinv_same; [exact I3| | | |].
Qed.

(** ** Revocation *)

Record resource_revoked (now : Z) (i : KnowledgeResourceIdentity) (rid : string) (d d' : kdb) (r : resource_row) : Prop := {
  vk_resource : r ∈ resources d;
  vk_id : rs_id r = rid;
  vk_active : rs_active r = true;
  vk_source : rs_revision r = source_revision i;
  vk_tables : labels d' = labels d /\ grants d' = grants d /\ audits d' = audits d /\ masks d' = masks d;
  vk_core : map rs_core (resources d') = map rs_core (resources d);
  vk_resources : forall r', r' ∈ resources d' -> rs_id r' = rid -> rs_active r' = false;
}.

Lemma revoke_Ok now c i x d d' :
  kinv d -> revoke_projection now c i d = (Ok x, d') ->
  rv_state x = "reused" /\ d' = d
  \/ rv_state x = "revoked" /\ exists rid r, identity_resource_id i = Ok rid /\ rv_resource_id x = rid
     /\ resource_revoked now i rid d d' r.
Proof.
  intros I E. unfold revoke_projection in E.
  apply st_bind_Ok_inv in E as ([] & ? & [_ ->]%lift_Ok & E).
  apply st_bind_Ok_inv in E as (rid & ? & [Hrid ->]%lift_Ok & E).
  apply st_bind_Ok_inv in E as (lid & ? & [_ ->]%lift_Ok & E). apply transaction_Ok in E.
  apply st_bind_Ok_inv in E as (s & ? & [_ ->]%lift_Ok & E).
  apply st_bind_Ok_inv in E as (row & ? & [= Hrow <-] & E).
  apply st_bind_Ok_inv in E as (pj & ? & [= _ <-] & E).
  destruct row as [[r rev]|]; [|injection E as <- <-; by left].
  destruct (negb _) eqn:Hsrc; [done|]. destruct (negb (rs_active r)) eqn:Hact; [injection E as <- <-; by left|].
  right. bool_prop. apply select_resource_Some in Hrow as (Hr & Hw & (l & L & _) & A). bool_prop.
  apply st_bind_Ok_inv in E as (? & ? & E1 & E). unfold update_resources in E1. apply update_rows_Ok in E1 as ->.
  apply st_bind_Ok_inv in E as (? & ? & ->%update_rows_Ok & E).
  apply st_bind_Ok_inv in E as (gens & ? & [= _ <-] & E).
  apply st_bind_Ok_inv in E as (? & ? & ->%update_rows_Ok & E).
  apply st_bind_Ok_inv in E as (? & ? & ->%update_rows_Ok & E).
  apply st_bind_Ok_inv in E as (? & ? & ->%update_rows_Ok & [= <- <-]).
  split; [done|]. exists rid, r. split; [done|]. split; [done|]. constructor; simpl; try done.
  - by apply map_core_update.
  - intros r' (r0 & Hr' & Hr0)%list_elem_of_fmap Hid. destruct (_ && _) eqn:T in Hr'; subst r'; [done|].
    assert (r0 = r) as -> by (eapply (nodup_map_inj rs_id); [apply I|done|done|congruence]).
    rewrite Hact, A in T. by rewrite !bool_decide_true in T.
Qed.

(** ** Every request *)

Lemma identity_stripped i i' : new_KnowledgeResourceIdentity i = Ok i' -> stripped_scope i'.
Proof.
  unfold new_KnowledgeResourceIdentity. intros E. repeat (bind_inv E). injection E as <-. unfold stripped_scope. simpl.
  unfold _required in *. repeat match goal with H : (if _ then _ else _) = Ok _ |- _ => destruct (bool_decide _) in H; [done|injection H as <-] end.
  split; [|apply strip_idem].
  match goal with H : one_of _SCOPE_TYPES _ _ = Ok _ |- _ => rename H into Ho end. clear - Ho.
  unfold one_of, member in Ho. destruct (bool_decide _) eqn:Hb in Ho; [|done].
  apply bool_decide_eq_true in Hb. unfold _SCOPE_TYPES in Hb.
  repeat (apply list.elem_of_cons in Hb as [->|Hb]; [reflexivity|]). by apply not_elem_of_nil in Hb.
Qed.

Lemma bind_kinv text_le trusted now c i m initial d b d' :
  kinv d -> stripped_scope i -> bind_resource text_le trusted now c i m initial d = (Ok b, d') -> kinv d'.
Proof.
  intros I Hs E. unfold bind_resource in E. apply st_bind_Ok_inv in E as (s & ? & [Hw ->]%lift_Ok & E).
  destruct trusted.
  - unfold ensure_trusted_document_resource in E. destruct (_ && _); [|done].
    eapply ensure_Ok in E as [? _]; [done|exact I|exact Hs|done].
  - unfold ensure_project_resource in E. apply st_bind_Ok_inv in E as (? & ? & [_ ->]%lift_Ok & E).
    apply st_bind_Ok_inv in E as (? & ? & [Hm ->]%lift_Ok & E).
    eapply ensure_Ok in E as [? _]; [done|exact I|exact Hs|]. intros Hsome. destruct m as [m|]; [|done].
    unfold require_permission in Hm. bind_inv Hm. destruct a; [|done]. apply has_permission_elem in Ha.
    unfold writer_session in Hw. bind_inv Hw. bind_inv Hw. apply session_fields in Hw as (_ & _ & _ & Hp & _).
    destruct Hs as [Ht Hi]. apply rls_permission. rewrite Hp. rewrite Ht, Hi in Ha. exact Ha.
Qed.

Lemma perform_kinv text_le w d : kinv d -> kinv (perform text_le w d).2.
Proof.
  intros I. destruct (perform text_le w d) as [[[]|e] d'] eqn:E; simpl.
  2:{ apply transaction_Raise in E. by subst. }
  apply transaction_Ok in E. destruct w as [now c i m initial|now u ws doc rev|now c ws rid cmd|now c i|rows].
  - apply st_bind_Ok_inv in E as (i' & ? & [Hi ->]%lift_Ok & E). apply st_bind_Ok_inv in E as (b & ? & E & [= <-]).
    eapply bind_kinv; [exact I|by eapply identity_stripped|exact E].
  - apply st_bind_Ok_inv in E as (c & ? & [_ ->]%lift_Ok & E). apply st_bind_Ok_inv in E as (i & ? & [Hi ->]%lift_Ok & E).
    apply st_bind_Ok_inv in E as (b & ? & E & [= <-]).
    eapply bind_kinv; [exact I|by eapply identity_stripped|exact E].
  - apply st_bind_Ok_inv in E as (x & ? & E & [= <-]).
    apply replace_grants_Ok in E as (r & l & rows & mrows & a & Hp); [apply Hp|exact I].
  - apply st_bind_Ok_inv in E as (i' & ? & [_ ->]%lift_Ok & E). apply st_bind_Ok_inv in E as (x & ? & E & [= <-]).
    apply revoke_Ok in E as [[_ ->]|(_ & rid & r & _ & _ & Hv)]; [done| |done].
    destruct Hv. destruct vk_tables0 as (? & ? & ? & ?). by eapply kinv_same.
  - injection E as <-. by eapply kinv_same.
Qed.

Lemma run_kinv text_le ws d : kinv d -> kinv (run text_le ws d).
Proof. revert d. induction ws as [|w ws IH]; intros d I; [done|]. simpl. by apply IH, perform_kinv. Qed.

(** * What every statement keeps *)

(** A relation that holds between the states around a program, whatever its
    outcome. *)
Definition within (R : kdb -> kdb -> Prop) {A} (c : stres kdb A) : Prop :=
  forall d r d', c d = (r, d') -> R d d'.

Section within.
Context (R : kdb -> kdb -> Prop) `{!PreOrder R}.

Lemma within_pure {A} (c : stres kdb A) : (forall d, (c d).2 = d) -> within R c.
Proof. intros Hc d r d' E. specialize (Hc d). rewrite E in Hc. simpl in Hc. by subst. Qed.
Lemma within_ret {A} (a : A) : within R (mret a).
Proof. by apply within_pure. Qed.
Lemma within_raise {A} e : within R (raise_st e : stres kdb A).
Proof. by apply within_pure. Qed.
Lemma within_gets {A} (f : kdb -> A) : within R (gets_st f).
Proof. by apply within_pure. Qed.
Lemma within_get : within R get_st.
Proof. by apply within_pure. Qed.
Lemma within_lift {A} (r : res A) : within R (lift_res r).
Proof. by apply within_pure. Qed.
Lemma within_insist b e : within R (insist b e).
Proof. apply within_pure. intros d. by destruct b. Qed.
Lemma within_modify f : (forall d, R d (f d)) -> within R (modify_st f).
Proof. intros Hf d r d' [= _ <-]. apply Hf. Qed.
Lemma within_bind {A B} (c : stres kdb A) (f : A -> stres kdb B) :
  within R c -> (forall a, within R (f a)) -> within R (c ≫= f).
Proof.
  intros Hc Hf d r d'. unfold mbind, stres_bind. destruct (c d) as [[a|e] d1] eqn:E.
  - intros E2. etrans; [by eapply Hc|by eapply Hf].
  - intros [= _ <-]. by eapply Hc.
Qed.
Lemma within_transaction {A} (c : stres kdb A) : within R c -> within R (transaction c).
Proof.
  intros Hc d r d'. unfold transaction. destruct (c d) as [[a|e] d1] eqn:E; intros [= _ <-]; [by eapply Hc|done].
Qed.
Lemma within_many {A} (f : A -> stres kdb unit) l : (forall a, within R (f a)) -> within R (executemany f l).
Proof. intros Hf. induction l; simpl; [apply within_ret|by apply within_bind]. Qed.
End within.

Ltac stay :=
  repeat (cbv beta zeta;
    lazymatch goal with
    | |- within _ (mret _) => apply within_ret; exact _
    | |- within _ (raise_st _) => apply within_raise; exact _
    | |- within _ (gets_st _) => apply within_gets; exact _
    | |- within _ get_st => apply within_get; exact _
    | |- within _ (lift_res _) => apply within_lift; exact _
    | |- within _ (insist _ _) => apply within_insist; exact _
    | |- within _ (mbind _ _) => apply within_bind; [exact _| |intros ?]
    | |- within _ (transaction _) => apply within_transaction; [exact _|]
    | |- within _ (executemany _ _) => apply within_many; [exact _|intros ?]
    | |- within _ (match ?x with _ => _ end) => destruct x
    end).

(** The audit log only grows, and so do the resources; a resource keeps its id,
    its label, its tenant and its scope. *)
Definition grows (d d' : kdb) : Prop :=
  audits d `prefix_of` audits d' /\ map rs_core (resources d) `prefix_of` map rs_core (resources d').

#[export] Instance grows_preorder : PreOrder grows.
Proof.
  split.
  - intros d. by split.
  - intros d1 d2 d3 [? ?] [? ?]. split; by etrans.
Qed.

Lemma grows_same d d' : audits d' = audits d -> map rs_core (resources d') = map rs_core (resources d) -> grows d d'.
Proof. intros Ha Hr. unfold grows. by rewrite Ha, Hr. Qed.

Lemma modify_grows f :
  (forall d, audits (f d) = audits d) -> (forall d, map rs_core (resources (f d)) = map rs_core (resources d)) ->
  within grows (modify_st f).
Proof. intros Ha Hr. apply within_modify. intros d. by apply grows_same. Qed.

Lemma insert_resource_grows s r : within grows (insert_resource s r).
Proof.
  unfold insert_resource. stay. apply within_modify. intros d. split; simpl; [done|].
  rewrite map_app. by apply prefix_app_r.
Qed.
Lemma insert_audit_grows s a : within grows (insert_audit s a).
Proof. unfold insert_audit. stay. apply within_modify. intros d. split; simpl; [by apply prefix_app_r|done]. Qed.
Lemma insert_label_grows s id c : within grows (insert_label s id c).
Proof. unfold insert_label. stay. by apply modify_grows. Qed.
Lemma insert_grant_grows s g : within grows (insert_grant s g).
Proof. unfold insert_grant. stay. by apply modify_grows. Qed.
Lemma insert_mask_grows s m : within grows (insert_mask s m).
Proof. unfold insert_mask. stay. by apply modify_grows. Qed.
Lemma insert_mask_audit_grows s a : within grows (insert_mask_audit s a).
Proof. unfold insert_mask_audit. stay. by apply modify_grows. Qed.
Lemma advance_label_grows s id old new : within grows (advance_label s id old new).
Proof. unfold advance_label. stay. by apply modify_grows. Qed.

Lemma update_rows_grows s {A} label get (set : (list A -> list A) -> kdb -> kdb) table w f :
  (forall h d, audits (set h d) = audits d) -> (forall h d, resources (set h d) = resources d) ->
  within grows (update_rows s label get set table w f).
Proof. intros Ha Hr. unfold update_rows. stay. apply modify_grows; intros d; [apply Ha|by rewrite Hr]. Qed.
Lemma delete_rows_grows s {A} label (set : (list A -> list A) -> kdb -> kdb) w :
  (forall h d, audits (set h d) = audits d) -> (forall h d, resources (set h d) = resources d) ->
  within grows (delete_rows s label set w).
Proof. intros Ha Hr. unfold delete_rows. stay. apply modify_grows; intros d; [apply Ha|by rewrite Hr]. Qed.
Lemma update_resources_grows s w f : (forall r, rs_core (f r) = rs_core r) -> within grows (update_resources s w f).
Proof.
  intros Hf. unfold update_resources, update_rows. stay. apply modify_grows; intros d; [done|]. by apply map_core_update.
Qed.

#[export] Hint Resolve insert_resource_grows insert_audit_grows insert_label_grows insert_grant_grows
  insert_mask_grows insert_mask_audit_grows advance_label_grows update_rows_grows delete_rows_grows
  update_resources_grows : py.

Lemma _replace_grants_grows s rid lid cur c m : within grows (_replace_grants s rid lid cur c m).
Proof. unfold _replace_grants, _insert_grants, _insert_audit. stay; auto with py. Qed.
Lemma _create_resource_grows s i c rid lid initial : within grows (_create_resource s i c rid lid initial).
Proof. unfold _create_resource, _insert_grants, _insert_audit. stay; auto with py. Qed.
#[export] Hint Resolve _replace_grants_grows _create_resource_grows : py.

Lemma ensure_resource_grows s text_le i c m initial : within grows (ensure_resource s text_le i c m initial).
Proof. unfold ensure_resource. stay; auto with py. Qed.
#[export] Hint Resolve ensure_resource_grows : py.

Lemma replace_grants_grows text_le now c ws rid cmd : within grows (replace_grants text_le now c ws rid cmd).
Proof.
  unfold replace_grants, replace_existing_resource_grants, rebind_active_authorization, replace_masks.
  stay; auto with py.
Qed.
Lemma revoke_projection_grows now c i : within grows (revoke_projection now c i).
Proof. unfold revoke_projection. stay; auto with py. Qed.
#[export] Hint Resolve replace_grants_grows revoke_projection_grows : py.

Lemma perform_grows text_le w : within grows (perform text_le w).
Proof.
  unfold perform, bind_resource, ensure_trusted_document_resource, ensure_project_resource. stay; auto with py.
  by apply modify_grows.
Qed.

Lemma run_grows text_le ws d : grows d (run text_le ws d).
Proof.
  revert d. induction ws as [|w ws IH]; intros d; [done|]. simpl. etrans; [|apply IH].
  destruct (perform text_le w d) as [r d'] eqn:E. by eapply perform_grows.
Qed.

(** The revision of a label counts its entries in the log. *)
Lemma chain_length n : length (chain n) = Z.to_nat n.
Proof. unfold chain. by rewrite length_map, length_seq. Qed.

Lemma revision_nonneg d label : kinv d -> 0 <= revision_of label d.
Proof. intros I. unfold revision_of. destruct (labels d !! label) eqn:L; [|done]. apply kinv_positive in L; [lia|done]. Qed.

Lemma revision_counts d label : kinv d -> revision_of label d = Z.of_nat (length (audits_of label d)).
Proof.
  intros I. pose proof (revision_nonneg d label I). pose proof (history d I label) as Hh.
  apply (f_equal length) in Hh. rewrite length_map, chain_length in Hh. lia.
Qed.

Lemma revision_monotone d d' label : kinv d -> kinv d' -> grows d d' -> revision_of label d <= revision_of label d'.
Proof.
  intros I I' [[l Ha] _]. rewrite !revision_counts by done. unfold audits_of. rewrite Ha, List.filter_app, length_app. lia.
Qed.

Lemma core_kept d d' r : grows d d' -> r ∈ resources d -> exists r', r' ∈ resources d' /\ rs_core r' = rs_core r.
Proof.
  intros [_ [l Hr]] Hin. apply (list_elem_of_fmap_2 rs_core) in Hin.
  assert (Hin' : rs_core r ∈ map rs_core (resources d')) by (rewrite Hr; apply elem_of_app; by left).
  apply list_elem_of_fmap in Hin' as (r' & -> & ?). by exists r'.
Qed.

(** * The writers do not read the log *)

(** The tables with older entries of the log. *)
Definition logged (older : list audit_row) (d : kdb) : kdb := with_audits (fun l => older ++ l) d.

Section blind.
Variable older : list audit_row.

Definition blind {A} (c : stres kdb A) : Prop := forall d, c (logged older d) = ((c d).1, logged older (c d).2).

Lemma blind_ret {A} (a : A) : blind (mret a).
Proof. done. Qed.
Lemma blind_raise {A} e : blind (raise_st e : stres kdb A).
Proof. done. Qed.
Lemma blind_lift {A} (r : res A) : blind (lift_res r).
Proof. done. Qed.
Lemma blind_gets {A} (f : kdb -> A) : (forall d, f (logged older d) = f d) -> blind (gets_st f).
Proof. intros Hf d. unfold gets_st. cbn beta. by rewrite Hf. Qed.
Lemma blind_modify f : (forall d, f (logged older d) = logged older (f d)) -> blind (modify_st f).
Proof. intros Hf d. unfold modify_st. cbn beta. by rewrite Hf. Qed.
Lemma blind_bind {A B} (c : stres kdb A) (f : A -> stres kdb B) :
  blind c -> (forall a, blind (f a)) -> blind (c ≫= f).
Proof.
  intros Hc Hf d. unfold mbind, stres_bind. rewrite Hc. destruct (c d) as [[a|e] d1]; [|done]. cbn. by rewrite Hf.
Qed.
Lemma blind_bind_lift {A B} (r : res A) (f : A -> stres kdb B) :
  (forall a, r = Ok a -> blind (f a)) -> blind (lift_res r ≫= f).
Proof. intros Hf d. unfold mbind, stres_bind, lift_res. destruct r as [a|e]; [|done]. by rewrite Hf. Qed.
Lemma blind_transaction {A} (c : stres kdb A) : blind c -> blind (transaction c).
Proof. intros Hc d. unfold transaction. rewrite Hc. by destruct (c d) as [[a|e] d1]. Qed.
Lemma blind_many {A} (f : A -> stres kdb unit) l : (forall a, blind (f a)) -> blind (executemany f l).
Proof. intros Hf. induction l; simpl; [apply blind_ret|by apply blind_bind]. Qed.

(** A statement that reads the tables first. *)
Lemma blind_get {A} (f : kdb -> stres kdb A) :
  (forall d, f (logged older d) (logged older d) = ((f d d).1, logged older (f d d).2)) ->
  blind (d ← get_st; f d).
Proof. intros Hf d. unfold mbind, stres_bind, get_st. apply Hf. Qed.

(** A list of checks before an insertion. *)
Lemma insist_step {A} b e (k k' : stres kdb A) d d' :
  k' d' = ((k d).1, logged older (k d).2) -> d' = logged older d ->
  (insist b e ≫= fun _ => k') d' = (((insist b e ≫= fun _ => k) d).1, logged older ((insist b e ≫= fun _ => k) d).2).
Proof. intros Hk ->. unfold mbind, stres_bind, insist. by destruct b. Qed.

Lemma insert_label_blind s id c : blind (insert_label s id c).
Proof. unfold insert_label. apply blind_get. intros d. by repeat apply insist_step. Qed.
Lemma insert_resource_blind s r : blind (insert_resource s r).
Proof. unfold insert_resource. apply blind_get. intros d. by repeat apply insist_step. Qed.
Lemma insert_grant_blind s g : blind (insert_grant s g).
Proof. unfold insert_grant. apply blind_get. intros d. by repeat apply insist_step. Qed.
Lemma insert_mask_blind s m : blind (insert_mask s m).
Proof. unfold insert_mask. apply blind_get. intros d. by repeat apply insist_step. Qed.
Lemma insert_mask_audit_blind s a : blind (insert_mask_audit s a).
Proof.
  unfold insert_mask_audit. apply blind_get. intros d. apply insist_step; [|done].
  destruct (existsb _ (mask_audits d)) eqn:E; simpl; rewrite E; [done|]. by apply insist_step.
Qed.
Lemma advance_label_blind s id old new : blind (advance_label s id old new).
Proof.
  unfold advance_label. apply blind_get. intros d. simpl. destruct (labels d !! id) as [l|]; [|done].
  change (knowledge_rls_can_access_label s (logged older d) id) with (knowledge_rls_can_access_label s d id).
  destruct (_ && _); [|done]. by repeat apply insist_step.
Qed.
Lemma update_rows_blind s {A} label get (set : (list A -> list A) -> kdb -> kdb) table w f :
  (forall d, label (logged older d) = label d) -> (forall d, get (logged older d) = get d) ->
  (forall h d, set h (logged older d) = logged older (set h d)) -> blind (update_rows s label get set table w f).
Proof.
  intros Hl Hg Hs. unfold update_rows. apply blind_get. intros d. cbv zeta. rewrite Hg, Hl.
  apply insist_step; [|done]. unfold modify_st. by rewrite Hs.
Qed.
Lemma delete_rows_blind s {A} label (set : (list A -> list A) -> kdb -> kdb) w :
  (forall d, label (logged older d) = label d) ->
  (forall h d, set h (logged older d) = logged older (set h d)) -> blind (delete_rows s label set w).
Proof. intros Hl Hs. unfold delete_rows. apply blind_get. intros d. unfold modify_st. by rewrite Hs, Hl. Qed.

(** The entries of the migration have no id; those of the writers have one. *)
Hypothesis unnamed : forall a, a ∈ older -> ad_id a = "".

Lemma insert_audit_blind s a : ad_id a <> "" -> blind (insert_audit s a).
Proof.
  intros Hne. unfold insert_audit. apply blind_get. intros d.
  repeat (apply insist_step; [|done]).
  assert (existsb (fun a' => bool_decide (ad_id a' = ad_id a)) (audits (logged older d))
    = existsb (fun a' => bool_decide (ad_id a' = ad_id a)) (audits d)) as ->.
  { simpl. rewrite existsb_app. replace (existsb _ older) with false; [done|]. symmetry. apply existsb_none.
    intros a' Ha'. apply bool_decide_eq_false. rewrite unnamed by done. congruence. }
  repeat (apply insist_step; [|done]). unfold modify_st, logged, with_audits. simpl. by rewrite app_assoc.
Qed.

Lemma stable_id_named prefix parts id : prefix <> "" -> _stable_id prefix parts = Ok id -> id <> "".
Proof. unfold _stable_id. destruct (member _ _); [done|]. intros Hp [= <-]. by destruct prefix. Qed.

Lemma _insert_audit_blind s rid label old new c event gs : blind (_insert_audit s rid label old new c event gs).
Proof.
  unfold _insert_audit. apply blind_bind_lift. intros diff _. apply blind_bind_lift. intros id Hid.
  apply insert_audit_blind. by eapply (stable_id_named "kam").
Qed.

Hint Resolve insert_label_blind insert_resource_blind insert_grant_blind insert_mask_blind insert_mask_audit_blind
  advance_label_blind _insert_audit_blind : core.

(** The statements of a request one by one. *)
Ltac dark :=
  repeat (cbv beta zeta;
    lazymatch goal with
    | |- blind (mret _) => apply blind_ret
    | |- blind (raise_st _) => apply blind_raise
    | |- blind (lift_res _) => apply blind_lift
    | |- blind (gets_st _) => apply blind_gets; reflexivity
    | |- blind (update_rows _ _ _ _ _ _ _) => apply update_rows_blind; reflexivity
    | |- blind (update_resources _ _ _) => apply update_rows_blind; reflexivity
    | |- blind (delete_rows _ _ _ _) => apply delete_rows_blind; reflexivity
    | |- blind (executemany _ _) => apply blind_many; intros ?
    | |- blind (mbind _ _) => apply blind_bind; [|intros ?]
    | |- blind (transaction _) => apply blind_transaction
    | |- blind (match ?x with _ => _ end) => destruct x
    end); auto.

Lemma _replace_grants_blind s rid lid cur c m : blind (_replace_grants s rid lid cur c m).
Proof. unfold _replace_grants, _insert_grants. dark. Qed.
Lemma _create_resource_blind s i c rid lid initial : blind (_create_resource s i c rid lid initial).
Proof. unfold _create_resource, _insert_grants. dark. Qed.
Hint Resolve _replace_grants_blind _create_resource_blind : core.

Lemma ensure_resource_blind s text_le i c m initial : blind (ensure_resource s text_le i c m initial).
Proof. unfold ensure_resource. dark. Qed.
Lemma replace_grants_blind text_le now c ws rid cmd : blind (replace_grants text_le now c ws rid cmd).
Proof. unfold replace_grants, replace_existing_resource_grants, rebind_active_authorization, replace_masks. dark. Qed.
Lemma revoke_projection_blind now c i : blind (revoke_projection now c i).
Proof. unfold revoke_projection. dark. Qed.
Hint Resolve ensure_resource_blind replace_grants_blind revoke_projection_blind : core.

Lemma perform_blind text_le w : blind (perform text_le w).
Proof.
  unfold perform, bind_resource, ensure_trusted_document_resource, ensure_project_resource. dark.
  apply blind_modify. reflexivity.
Qed.

Lemma run_logged text_le ws d : run text_le ws (logged older d) = logged older (run text_le ws d).
Proof.
  revert d. unfold run. induction ws as [|w ws IH]; intros d; [done|]. simpl. rewrite perform_blind. cbn [snd]. apply IH.
Qed.
End blind.

(** * The entries the migration did not write *)

Definition unwritten (m : mapped_document) : audit_row :=
  mkAudit "" (mp_owner m) "" (mp_resource m) (mp_label m) 0 1 ""
    (PDict [("event", PStr "backfilled"); ("grants", _canonical_grants [gr_grant (backfilled_grant m)])]).
Definition missing_entries (docs : list mapped_document) : list audit_row := map unwritten docs.

Lemma missing_unnamed docs a : a ∈ missing_entries docs -> ad_id a = "".
Proof. by intros (m & -> & _)%list_elem_of_fmap. Qed.

(** The rows of one label: those of its document. *)
Definition of_label (label : string) (docs : list mapped_document) : list mapped_document :=
  List.filter (fun m => bool_decide (mp_label m = label)) docs.

Lemma rows_of_label {A} (f : mapped_document -> A) (key : A -> string) label docs :
  (forall m, key (f m) = mp_label m) ->
  List.filter (fun x => bool_decide (key x = label)) (map f docs) = map f (of_label label docs).
Proof.
  intros Hk. unfold of_label. induction docs as [|m l IH]; [done|]. simpl. rewrite Hk. case_bool_decide; simpl; by rewrite IH.
Qed.

Lemma of_label_cases label docs : NoDup (map mp_label docs) ->
  of_label label docs = [] \/ exists m, m ∈ docs /\ mp_label m = label /\ of_label label docs = [m].
Proof.
  unfold of_label. induction docs as [|m l IH]; [by left|]. simpl. intros [Hn Hl]%NoDup_cons.
  case_bool_decide as E.
  - right. exists m. split; [by left|]. split; [done|]. f_equal.
    destruct (IH Hl) as [->|(m' & Hm' & E' & _)]; [done|]. destruct Hn. rewrite E, <- E'. by apply list_elem_of_fmap_2.
  - destruct (IH Hl) as [->|(m' & Hm' & ? & ->)]; [by left|]. right. exists m'. split; [by right|done].
Qed.

Lemma backfill_label label l docs : NoDup (map mp_label docs) ->
  labels (backfill docs) !! label = Some l <->
  l = mkLabel "private" 1 /\ exists m, m ∈ docs /\ mp_label m = label.
Proof.
  intros Hn. simpl. rewrite <- elem_of_list_to_map.
  - rewrite list_elem_of_fmap. naive_solver.
  - rewrite <- list_fmap_compose. exact Hn.
Qed.

Lemma missing_of_label label docs : audits_of label (logged (missing_entries docs) (backfill docs)) = missing_entries (of_label label docs).
Proof. unfold audits_of. simpl. rewrite app_nil_r. by apply rows_of_label. Qed.
Lemma grants_of_label label docs : grants_of label (backfill docs) = map backfilled_grant (of_label label docs).
Proof. by apply rows_of_label. Qed.

Lemma revision_of_label label docs : NoDup (map mp_label docs) ->
  revision_of label (backfill docs) = Z.of_nat (length (of_label label docs)).
Proof.
  intros Hn. unfold revision_of. destruct (of_label_cases label docs Hn) as [E|(m & Hm & El & ->)].
  - rewrite E. destruct (labels _ !! label) as [l|] eqn:L; [|done]. apply backfill_label in L as (_ & m & Hm & El); [|done].
    assert (Hin : m ∈ of_label label docs) by (apply list_elem_of_In, filter_In; split; [by apply list_elem_of_In|by apply bool_decide_eq_true]).
    rewrite E in Hin. by apply not_elem_of_nil in Hin.
  - by rewrite (proj2 (backfill_label label (mkLabel "private" 1) docs Hn)) by (split; [done|by exists m]).
Qed.

(** With the missing entries the tables satisfy the invariant. *)
Lemma backfill_kinv docs : backfill_ok docs -> kinv (logged (missing_entries docs) (backfill docs)).
Proof.
  intros [Hr Hl Hw].
  assert (Hin : forall m, m ∈ docs -> labels (backfill docs) !! mp_label m = Some (mkLabel "private" 1)).
  { intros m Hm. apply backfill_label; [done|]. split; [done|]. by exists m. }
  constructor.
  - change (NoDup (map rs_id (map backfilled_resource docs))). by rewrite map_map.
  - change (NoDup (map rs_label (map backfilled_resource docs))). by rewrite map_map.
  - intros r (m & -> & Hm)%list_elem_of_fmap. exists (mkLabel "private" 1). by apply Hin.
  - intros r (m & -> & Hm)%list_elem_of_fmap. split; [done|]. by apply Hw.
  - intros g (m & -> & Hm)%list_elem_of_fmap. exists (mkLabel "private" 1). split; [by apply Hin|done].
  - change (NoDup (map gr_key (map backfilled_grant docs))). rewrite map_map. eapply NoDup_fmap_1 with (f := fun k => hd "" k).
    rewrite <- list_fmap_compose. exact Hl.
  - intros label. rewrite missing_of_label. change (revision_of label (logged _ _)) with (revision_of label (backfill docs)).
    rewrite revision_of_label by done. by destruct (of_label_cases label docs Hl) as [->|(m & _ & _ & ->)].
  - intros label l L. apply backfill_label in L as [-> (m & Hm & El)]; [|done]. split; [done|].
    rewrite missing_of_label. change (grants_of label (logged _ _)) with (grants_of label (backfill docs)).
    rewrite grants_of_label. destruct (of_label_cases label docs Hl) as [E|(m' & _ & _ & ->)].
    + assert (Hm' : m ∈ of_label label docs) by (apply list_elem_of_In, filter_In; split; [by apply list_elem_of_In|by apply bool_decide_eq_true]).
      rewrite E in Hm'. by apply not_elem_of_nil in Hm'.
    + split; [done|]. eexists. split; [done|]. by eexists.
  - intros a [(m & -> & Hm)%list_elem_of_fmap|Ha%not_elem_of_nil]%elem_of_app; [|done].
    exists (backfilled_resource m). split; [|done]. by apply (list_elem_of_fmap_2 backfilled_resource).
Qed.

(** * What is reached *)

(** The tables after a run of the writers that starts from the migration. *)
Definition reached (text_le : string -> string -> bool) (docs : list mapped_document) (ws : list write) : kdb :=
  run text_le ws (backfill docs).

Lemma run_kinv_logged text_le ws older d :
  (forall a, a ∈ older -> ad_id a = "") -> kinv (logged older d) -> kinv (logged older (run text_le ws d)).
Proof. intros Hu I. rewrite <- run_logged by done. by apply run_kinv. Qed.

Lemma reached_kinv text_le docs ws : backfill_ok docs -> kinv (logged (missing_entries docs) (reached text_le docs ws)).
Proof. intros Hok. apply run_kinv_logged; [apply missing_unnamed|by apply backfill_kinv]. Qed.
