(* ===== verification/KnowledgeSample.v ===== *)
(** A workspace with one object and two users, on which the theorems of the
    knowledge store and of retrieval are applied, and runs that show where the
    code falls short of its intent. *)
From stdpp Require Import sorting.
From S2P Require Import Prelude PyDict PyStr PyVal KnowledgeContracts KnowledgeStore KnowledgeRetrieval KnowledgeIndex.

Definition nobody : RetrievalAccessContext := mkAccess "" "" [] [] [] "" None.
Definition made (c : res RetrievalAccessContext) : RetrievalAccessContext :=
  match c with Ok c => c | Raise _ => nobody end.
Definition in_w1 (name : string) : KnowledgePermission := mkPermission name "workspace" "w1".

(** The owner of the workspace, and a reader. *)
Definition alice : RetrievalAccessContext :=
  made (create "alice" "local" [mkPrincipalRef "user" "alice"] [mkMembership "workspace" "w1" "owner" "m1"]
          (map in_w1 _PERMISSIONS) None).
Definition bob : RetrievalAccessContext :=
  made (create "bob" "local" [mkPrincipalRef "user" "bob"] [] [in_w1 "knowledge.read"] None).

Definition object1 : KnowledgeResourceIdentity :=
  mkIdentity "local" "pack" "object" "pack" "o1" "object:o1" "r1" "workspace" "w1" "private".
Definition text_ok (r : res string) : string := match r with Ok x => x | Raise _ => "" end.
Definition resource1 : string := Eval vm_compute in text_ok (identity_resource_id object1).
Definition label1 : string := Eval vm_compute in text_ok (security_label_id resource1).

Definition grant_to (user effect : string) : KnowledgeGrant :=
  mkKGrant (mkPrincipalRef "user" user) "reader" effect None None.

Definition chunk1 : document_row :=
  mkDocument "c1" "pack" "o1" "hello world" [] (Some resource1) (Some label1) None.
Definition index1 : index_rows := mkIndex [] [] [chunk1] [] [] [] [].

(** Alice projects the object, shares it with bob, and takes it back. *)
Definition share : replacement_command := mkReplacement 1 [grant_to "bob" "allow"] [("planner", "deny")].
Definition unshare : replacement_command := mkReplacement 2 [grant_to "bob" "deny"] [].
Definition projected : list write := [Project 100 alice object1 None []; Index index1].
Definition shared : list write := projected ++ [ReplaceAcl 200 alice "w1" resource1 share].

Definition state_of (ws : list write) : kdb := run String.leb ws empty_kdb.

(** What a session of the context sees of the object. *)
Definition sees_object (c : RetrievalAccessContext) (d : kdb) : res bool :=
  s ← session_of 300 c; Ok (knowledge_rls_can_access_label s d label1).

Example sharing :
  map (sees_object bob) [state_of projected; state_of shared;
     state_of (shared ++ [ReplaceAcl 220 alice "w1" resource1 unshare])] = [Ok false; Ok true; Ok false].
Proof. by vm_compute. Qed.

(** An engine that ranks every candidate in the order of the table. *)
Definition engine1 : SearchEngine :=
  {| embedding := unit; embed := fun _ => Some tt; nearest := fun _ l => l; matching := fun _ l => l |}.
Lemma engine1_laws : @SearchLaws engine1.
Proof. by constructor. Qed.

Definition request1 : retrieval_request :=
  mkRequest "hello" bob "workspace" "w1" 5 [] [] [] None [].
Definition found1 (d d' : kdb) : res retrieval_result := @search engine1 request1 300 (still d) 310 d'.

Example searching :
  (fun x => (map (fun e => (cd_id (en_row e), en_channels e)) (rt_hits x), rt_transaction_count x))
    <$> found1 (state_of shared) (state_of shared) = Ok ([("c1", ["text_vector"; "keyword"])], 2%nat)
  /\ (fun x => map entry_id (rt_hits x))
    <$> found1 (state_of shared) (state_of (shared ++ [ReplaceAcl 305 alice "w1" resource1 unshare])) = Ok [].
Proof. by vm_compute. Qed.

(** * Where the code falls short *)

(** The same principal comes from two memberships: the separator may occur in
    the ids and the roles. *)
Example ambiguous_role :
  principal (mkMembership "workspace" "a:b" "c" "m") = principal (mkMembership "workspace" "a" "b:c" "m")
  /\ principal (mkMembership "workspace" "a" "b:c" "m") = Ok (mkPrincipalRef "workspace_role" "a:b:c").
Proof. by vm_compute. Qed.

(** Two resources of different sources have one id: its parts are not checked
    for the separator. *)
Definition joined_source : KnowledgeResourceIdentity :=
  mkIdentity "local" ("pack" +:+ _SEPARATOR +:+ "object" +:+ _SEPARATOR +:+ "x") "object" "pack" "o1" "y" "r1"
    "workspace" "w1" "private".
Definition split_source : KnowledgeResourceIdentity :=
  mkIdentity "local" "pack" "object" "pack" "o1" ("x" +:+ _SEPARATOR +:+ "object" +:+ _SEPARATOR +:+ "y") "r1"
    "workspace" "w1" "private".
Example colliding_ids :
  new_KnowledgeResourceIdentity joined_source = Ok joined_source
  /\ new_KnowledgeResourceIdentity split_source = Ok split_source
  /\ identity_resource_id joined_source = identity_resource_id split_source.
Proof. by vm_compute. Qed.

(** A command with two windows for one principal, relation and effect passes its
    validation and never the table. *)
Definition windows : list KnowledgeGrant :=
  [mkKGrant (mkPrincipalRef "user" "bob") "reader" "allow" (Some 0) (Some 10);
   mkKGrant (mkPrincipalRef "user" "bob") "reader" "allow" (Some 20) (Some 30)].
Example two_windows :
  new_replacement 1 true windows [] = Ok (mkReplacement 1 windows [])
  /\ (replace_grants String.leb 200 alice "w1" resource1 (mkReplacement 1 windows []) (state_of projected)).1
     = Raise (UniqueViolation "knowledge_security_label_grants_pkey").
Proof. by vm_compute. Qed.

(** A reader's session may not insert a grant, and may delete one: the check of
    the policies does not apply to deletions. *)
Definition delete_grants : stres kdb unit :=
  s ← lift_res (session_of 300 bob);
  delete_rows s (fun _ g => Some (gr_label g)) with_grants (fun g => bool_decide (gr_label g = label1)).
Definition insert_own_grant : stres kdb unit :=
  s ← lift_res (session_of 300 bob);
  insert_grant s (mkGrantRow "kg_1" label1 (grant_to "bob" "allow") 2).
Example readers_delete :
  (insert_own_grant (state_of shared)).1 = Raise (InsufficientPrivilege "knowledge_security_label_grants")
  /\ (delete_grants (state_of shared)).1 = Ok tt /\ grants (delete_grants (state_of shared)).2 = [].
Proof. by vm_compute. Qed.

(** A resource of another tenant has the id of the first: its projection is
    refused by the primary key of the labels. *)
Definition carol : RetrievalAccessContext :=
  made (create "carol" "other" [mkPrincipalRef "user" "carol"] [] (map in_w1 _PERMISSIONS) None).
Definition other_tenant : KnowledgeResourceIdentity :=
  mkIdentity "other" "pack" "object" "pack" "o1" "object:o1" "r1" "workspace" "w1" "private".
Example one_id_two_tenants :
  identity_resource_id other_tenant = Ok resource1
  /\ (bind_resource String.leb false 100 carol other_tenant None [] (state_of projected)).1
     = Raise (UniqueViolation "knowledge_security_labels_pkey").
Proof. by vm_compute. Qed.
