(* ===== verification/KnowledgeTheorems.v ===== *)
(** Properties of the knowledge store: the history of its policies, what a
    replaced policy decides, who may replace it and when. *)
From stdpp Require Import sorting.
From S2P Require Import Prelude PyDict PyStr PyVal PyJson KnowledgeContracts KnowledgeStore KnowledgeRetrieval.
From S2P Require Import KnowledgeIndex KnowledgeFacts KnowledgeSample.

(** * What a policy decides *)

(** A policy as a list of grants and of agent masks: some live grant allows,
    none denies, and the role of the agent passes. *)
Definition matched (s : session) (gs : list KnowledgeGrant) (effect : string) : bool :=
  existsb (fun g => bool_decide (g_effect g = effect) && live (k_now s) g && member (g_principal g) (k_principals s)) gs.
Definition masks_allow (ms : list (string * string)) (role : string) : bool :=
  bool_decide (ms = []) || bool_decide (role = "")
  || negb (member (role, "deny") ms)
     && (negb (existsb (fun m => bool_decide (m.2 = "allow")) ms) || member (role, "allow") ms).
Definition policy_allows (s : session) (gs : list KnowledgeGrant) (ms : list (string * string)) : bool :=
  matched s gs "allow" && negb (matched s gs "deny") && masks_allow ms (k_agent_role s).

Lemma existsb_same {A} (f : A -> bool) l l' : (forall x, x ∈ l <-> x ∈ l') -> existsb f l = existsb f l'.
Proof.
  intros Hl. apply eq_iff_eq_true. rewrite !existsb_elem. split; intros (x & Hx & Hf); exists x; naive_solver.
Qed.

Lemma matched_sorted s gs effect : matched s (sorted_set grant_fields gs) effect = matched s gs effect.
Proof. apply existsb_same. intros x. apply elem_of_sorted_set. Qed.

Lemma existsb_ext_in {A} (f g : A -> bool) l : (forall x, x ∈ l -> f x = g x) -> existsb f l = existsb g l.
Proof.
  intros Hfg. apply eq_iff_eq_true. rewrite !existsb_elem.
  split; intros (x & Hx & Hf); exists x; (split; [done|]); [rewrite <- Hfg|rewrite Hfg]; done.
Qed.

Lemma existsb_map {A B} (f : B -> bool) (g : A -> B) l : existsb f (map g l) = existsb (fun x => f (g x)) l.
Proof. induction l as [|x l IH]; [done|]. simpl. by rewrite IH. Qed.

Lemma negb_existsb_nil {A} `{EqDecision A} (l : list A) : negb (existsb (fun _ => true) l) = bool_decide (l = []).
Proof. by destruct l; case_bool_decide. Qed.

Lemma existsb_member {A} `{EqDecision A} (x : A) l : existsb (fun y => bool_decide (y = x)) l = member x l.
Proof.
  unfold member. apply eq_iff_eq_true. rewrite existsb_elem, bool_decide_eq_true. split.
  - by intros (y & Hy & ->%bool_decide_eq_true).
  - intros Hx. exists x. by rewrite bool_decide_true.
Qed.

Lemma pair_decide (a b c e : string) : bool_decide ((a, b) = (c, e)) = bool_decide (a = c) && bool_decide (b = e).
Proof.
  apply eq_iff_eq_true. rewrite andb_true_iff, !bool_decide_eq_true. split; [by intros [= -> ->]|by intros [-> ->]].
Qed.

Lemma granted_rows s label revision gs rows old effect :
  rows_for label revision gs rows ->
  granted (k_now s) (k_principals s)
    (List.filter (fun g => negb (bool_decide (gr_label g = label))) old ++ rows) label revision effect
  = matched s gs effect.
Proof.
  intros [<- Hl]. unfold granted, matched. rewrite existsb_app.
  assert (existsb (fun g => bool_decide (gr_label g = label) && (gr_revision g =? revision)
      && bool_decide (g_effect (gr_grant g) = effect) && live (k_now s) (gr_grant g)
      && member (g_principal (gr_grant g)) (k_principals s))
      (List.filter (fun g => negb (bool_decide (gr_label g = label))) old) = false) as ->.
  { apply existsb_none. intros g Hg. apply list_elem_of_In, filter_In in Hg as [_ Hg]. by apply negb_true_iff in Hg as ->. }
  simpl. rewrite existsb_map. apply existsb_ext_in. intros g Hg. destruct (Hl g Hg) as [-> ->].
  by rewrite bool_decide_true, Z.eqb_refl.
Qed.

Lemma masks_rows rid l rows old role :
  masks_for rid l rows ->
  mask_passes (List.filter (fun m => negb (bool_decide (mk_resource m = rid))) old ++ rows) rid role = masks_allow l role.
Proof.
  intros [Hm Hr].
  assert (Hpair : forall f, existsb (fun m => bool_decide (mk_resource m = rid) && f (mask_pair m))
      (List.filter (fun m => negb (bool_decide (mk_resource m = rid))) old ++ rows) = existsb f l).
  { intros f. rewrite existsb_app.
    assert (existsb (fun m => bool_decide (mk_resource m = rid) && f (mask_pair m))
      (List.filter (fun m => negb (bool_decide (mk_resource m = rid))) old) = false) as ->.
    { apply existsb_none. intros m Hin. apply list_elem_of_In, filter_In in Hin as [_ Hin].
      by apply negb_true_iff in Hin as ->. }
    simpl. transitivity (existsb f (map mask_pair rows)).
    - rewrite existsb_map. apply existsb_ext_in. intros m Hin. by rewrite bool_decide_true by auto.
    - rewrite Hm. apply existsb_same. intros x. apply elem_of_sorted_set. }
  unfold mask_passes, masks_allow, mask_of. f_equal; [f_equal|].
  - rewrite <- negb_existsb_nil. f_equal. rewrite <- (Hpair (fun _ => true)). apply existsb_ext_in. intros m _. by rewrite andb_true_r.
  - assert (Hmem : forall e, existsb (fun m => bool_decide (mk_resource m = rid) && bool_decide (mk_role m = role) && bool_decide (mk_effect m = e))
      (List.filter (fun m => negb (bool_decide (mk_resource m = rid))) old ++ rows) = member (role, e) l).
    { intros e. rewrite <- existsb_member, <- Hpair. apply existsb_ext_in. intros m _. rewrite <- andb_assoc. f_equal.
      unfold mask_pair. destruct m as [? ? r e' ?]; simpl. by rewrite pair_decide. }
    rewrite !Hmem. do 2 f_equal. f_equal. rewrite <- (Hpair (fun p => bool_decide (p.2 = "allow"))). done.
Qed.

(** * Replacing a policy *)

Lemma replace_logged text_le older now c workspace rid cmd d x d' :
  (forall a, a ∈ older -> ad_id a = "") ->
  replace_grants text_le now c workspace rid cmd d = (x, d') ->
  replace_grants text_le now c workspace rid cmd (logged older d) = (x, logged older d').
Proof. intros Hu E. by rewrite replace_grants_blind, E. Qed.

Lemma replaced_logged text_le docs ws now c workspace rid cmd x d' :
  backfill_ok docs ->
  replace_grants text_le now c workspace rid cmd (reached text_le docs ws) = (Ok x, d') ->
  exists r l rows mrows a,
    policy_replaced c workspace rid cmd x (logged (missing_entries docs) (reached text_le docs ws))
      (logged (missing_entries docs) d') r l rows mrows a.
Proof.
  intros Hok E. eapply replace_grants_Ok; [by apply reached_kinv|]. apply replace_logged; [apply missing_unnamed|done].
Qed.

(** C16: once a replacement is committed, in tables reached from those of the
    migration or from empty ones, its grants and masks alone decide what a
    session without [read_all_scope] or [manage_acl] on the workspace sees of
    the resource: the session is of the tenant, may read or project in the
    workspace, some grant of the command allows one of its principals at its
    time, none denies one, and its agent role passes the masks of the command.
    Nothing of the policy before remains. *)
Theorem replaced_policy_decides text_le docs ws now c workspace rid cmd x d' s :
  backfill_ok docs ->
  replace_grants text_le now c workspace rid cmd (reached text_le docs ws) = (Ok x, d') ->
  knowledge_rls_has_permission s "knowledge.read_all_scope" "workspace" workspace = false ->
  knowledge_rls_has_permission s "knowledge.manage_acl" "workspace" workspace = false ->
  knowledge_rls_can_access_label s d' (b_label_id (rr_binding x))
  = nonempty (k_tenant s) && bool_decide (tenant_id c = k_tenant s)
    && (knowledge_rls_has_permission s "knowledge.read" "workspace" workspace
        || knowledge_rls_has_permission s "knowledge.project" "workspace" workspace)
    && policy_allows s (rc_grants cmd) (rc_agent_masks cmd).
Proof.
  intros Hok E Hall Hman. apply replaced_logged in E as (r & l & rows & mrows & a & []); [|done].
  set (V := missing_entries docs) in *.
  change (knowledge_rls_can_access_label s d' (b_label_id (rr_binding x)))
    with (knowledge_rls_can_access_label s (logged V d') (b_label_id (rr_binding x))).
  destruct pr_state as (f & g & h & Hd). rewrite Hd. rewrite Hd in pr_inv. destruct pr_binding as [-> _].
  erewrite access_row; [|exact pr_inv|exact pr_resource|simpl; apply lookup_insert_eq].
  unfold row_access. unfold scope_of in pr_scope. injection pr_scope as -> ->.
  simpl. rewrite Hall, Hman, !(granted_rows s _ _ _ _ _ _ pr_rows), !matched_sorted. simpl.
  subst rid. rewrite (masks_rows _ _ _ _ _ pr_masks), pr_tenant. unfold policy_allows.
  by rewrite !andb_assoc.
Qed.

Lemma replace_grants_raise text_le now c workspace rid cmd d e d' :
  replace_grants text_le now c workspace rid cmd d = (Raise e, d') -> d' = d.
Proof.
  unfold replace_grants. intros [[= _ <-]|([] & ? & [_ ->]%lift_Ok & E)]%st_bind_Raise_inv; [done|].
  by apply transaction_Raise in E.
Qed.

(** Of two replacements that expect the same revision of a resource at most
    one is committed: once one is, every later one raises and changes nothing,
    whoever sends it and whatever was written between. *)
Theorem one_replacement_per_revision text_le docs ws now c workspace rid cmd x d1 later now' c' workspace' cmd' :
  backfill_ok docs ->
  replace_grants text_le now c workspace rid cmd (reached text_le docs ws) = (Ok x, d1) ->
  rc_expected_authz_revision cmd' = rc_expected_authz_revision cmd ->
  let d2 := run text_le later d1 in
  exists e, replace_grants text_le now' c' workspace' rid cmd' d2 = (Raise e, d2).
Proof.
  intros Hok E Hexp d2. set (V := missing_entries docs). assert (Hu := missing_unnamed docs). fold V in Hu.
  pose proof (replace_logged _ V _ _ _ _ _ _ _ _ Hu E) as Eg. eapply replace_grants_grows in Eg.
  apply replaced_logged in E as (r & l & rows & mrows & a & []); [|done].
  assert (I2 : kinv (logged V d2)) by by apply run_kinv_logged.
  assert (G : grows (logged V d1) (logged V d2)) by (unfold d2; rewrite <- run_logged by done; apply run_grows).
  destruct (replace_grants text_le now' c' workspace' rid cmd' d2) as [[y|e] d3] eqn:E2.
  2:{ exists e. by apply replace_grants_raise in E2 as ->. }
  exfalso. apply (replace_logged _ V) in E2; [|done]. apply replace_grants_Ok in E2 as (r2 & l2 & rows2 & mrows2 & a2 & P); [|done].
  destruct P as [Hr2 _ Hid2 _ _ _ L2 X2 _ _ _ _ _ _].
  destruct (core_kept _ _ r (transitivity Eg G) pr_resource) as (r' & Hr' & C).
  unfold rs_core in C. injection C as C1 C2 _ _.
  assert (r' = r2) as -> by (eapply (nodup_map_inj rs_id); [apply I2|done|done|congruence]).
  pose proof (revision_monotone _ _ (rs_label r) pr_inv I2 G) as Hm.
  unfold revision_of in Hm at 2. rewrite <- C2, L2 in Hm.
  destruct pr_state as (f & g & h & Hd). rewrite Hd in Hm. unfold revision_of in Hm. simpl in Hm.
  rewrite C2, lookup_insert_eq in Hm. simpl in Hm. lia.
Qed.

(** * Who changes a policy *)

Definition writer (w : write) : option RetrievalAccessContext :=
  match w with
  | Project _ c _ _ _ | ReplaceAcl _ c _ _ _ | Revoke _ c _ => Some c
  | Document _ _ _ _ _ | Index _ => None
  end.

(** The writer manages the scope of the resource that carries the label, in the
    tenant of the resource, and the log names it. *)
Definition managed_change (w : write) (label : string) (d d' : kdb) : Prop :=
  exists c r a,
    writer w = Some c /\ r ∈ resources d' /\ rs_label r = label /\ rs_tenant r = tenant_id c
    /\ mkPermission "knowledge.manage_acl" (rs_scope_type r) (rs_scope_id r) ∈ permissions c
    /\ audits_of label d' = audits_of label d ++ [a]
    /\ ad_actor a = subject_user_id c /\ ad_context_hash a = principal_set_hash c.

Lemma replaced_other label label' l rows a d :
  label <> label' -> (forall g, g ∈ rows -> gr_label g = label) -> ad_label a = label ->
  same_policy label' d (replaced label l rows a d).
Proof.
  intros Hne Hg Ha. unfold same_policy, grants_of, audits_of. simpl.
  rewrite lookup_insert_ne by done. rewrite (filter_other gr_label) by done.
  rewrite filter_snoc_label, bool_decide_false by congruence. by rewrite app_nil_r.
Qed.

Lemma replaced_audits label l rows a d :
  ad_label a = label -> audits_of label (replaced label l rows a d) = audits_of label d ++ [a].
Proof. intros Ha. unfold audits_of. simpl. rewrite filter_snoc_label. by rewrite bool_decide_true. Qed.

Lemma same_policy_trans label d1 d2 d3 : same_policy label d1 d2 -> same_policy label d2 d3 -> same_policy label d1 d3.
Proof. unfold same_policy. intros (-> & -> & ->) (-> & -> & ->). done. Qed.

Lemma bind_managed text_le now c i m initial d b d' label :
  kinv d -> stripped_scope i -> is_Some (labels d !! label) ->
  bind_resource text_le false now c i m initial d = (Ok b, d') ->
  same_policy label d d' \/ managed_change (Project now c i m initial) label d d'.
Proof.
  intros I Hs Hlab E. unfold bind_resource in E. apply st_bind_Ok_inv in E as (s & ? & [Hw ->]%lift_Ok & E).
  unfold writer_session in Hw. bind_inv Hw. bind_inv Hw. apply session_fields in Hw as (_ & Ht & _ & Hp & _).
  unfold ensure_project_resource in E. apply st_bind_Ok_inv in E as (? & ? & [_ ->]%lift_Ok & E).
  apply st_bind_Ok_inv in E as (? & ? & [Hm ->]%lift_Ok & E).
  assert (Hman : m <> None -> mkPermission "knowledge.manage_acl" (owner_scope_type i) (owner_scope_id i) ∈ permissions c).
  { intros Hsome. destruct m as [m|]; [|done]. unfold require_permission in Hm. bind_inv Hm. destruct a1; [|done].
    apply has_permission_elem in Ha1. destruct Hs as [<- <-]. exact Ha1. }
  eapply ensure_Ok in E as (_ & rid & lid & r & d1 & I1 & [Hr C] & Hsame & Hd'); [|done|done|].
  2:{ intros Hsome. apply rls_permission. rewrite Hp. by apply Hman. }
  specialize (Hsame label Hlab). destruct m as [m|]; [|left; by subst].
  destruct Hd' as (l & rows & a' & L & Lr & A & [_ Hrows] & Ha1 & Ha2 & Ha3 & ->).
  unfold rs_core, scope_of in C. injection C as C1 C2 C3 C4 C5.
  destruct (decide (lid = label)) as [->|Hne].
  - right. exists c, r, a'. rewrite C4, C5. split_and!; try done; [|by apply Hman|].
    + rewrite <- C2 in A, L. rewrite (access_row s d1 r l) in A by done. unfold row_access in A. bool_prop. congruence.
    + rewrite replaced_audits by done. by destruct Hsame as (_ & _ & ->).
  - left. eapply same_policy_trans; [exact Hsame|]. apply replaced_other; [done| |done]. intros g Hg. by apply Hrows.
Qed.

Lemma perform_policy text_le w d label : kinv d -> is_Some (labels d !! label) ->
  same_policy label d (perform text_le w d).2 \/ managed_change w label d (perform text_le w d).2.
Proof.
  intros I Hlab.
  destruct (perform text_le w d) as [[[]|e] d'] eqn:E; simpl.
  2:{ apply transaction_Raise in E as ->. by left. }
  apply transaction_Ok in E. destruct w as [now c i m initial|now u ws' doc rev|now c ws' rid cmd|now c i|rows].
  - apply st_bind_Ok_inv in E as (i' & ? & [Hi ->]%lift_Ok & E). apply st_bind_Ok_inv in E as (b & ? & E & [= <-]).
    eapply bind_managed in E; [exact E|done|by eapply identity_stripped|done].
  - left. apply st_bind_Ok_inv in E as (c & ? & [_ ->]%lift_Ok & E).
    apply st_bind_Ok_inv in E as (i & ? & [Hi ->]%lift_Ok & E). apply st_bind_Ok_inv in E as (b & ? & E & [= <-]).
    unfold bind_resource in E. apply st_bind_Ok_inv in E as (s & ? & [_ ->]%lift_Ok & E).
    unfold ensure_trusted_document_resource in E. destruct (_ && _); [|done].
    eapply ensure_Ok in E as (_ & rid & lid & r & d1 & _ & _ & Hsame & ->); [by apply Hsame|done|by eapply identity_stripped|done].
  - apply st_bind_Ok_inv in E as (x & ? & E & [= <-]).
    apply replace_grants_Ok in E as (r & l & rows & mrows & a & []); [|done].
    destruct pr_state as (f & g & h & Hd). destruct pr_actor as (Ha1 & Ha2 & Ha3 & _). destruct pr_rows as [_ Hrows].
    unfold scope_of in pr_scope. injection pr_scope as S1 S2.
    destruct (decide (rs_label r = label)) as [<-|Hne].
    + right. exists c, r, a. rewrite S1, S2. split_and!; try done; rewrite Hd; [done|]. by apply replaced_audits.
    + left. rewrite Hd. apply (replaced_other (rs_label r) label l rows a d); [done| |done]. intros ? ?. by apply Hrows.
  - left. apply st_bind_Ok_inv in E as (i' & ? & [_ ->]%lift_Ok & E). apply st_bind_Ok_inv in E as (x & ? & E & [= <-]).
    apply revoke_Ok in E as [[_ ->]|(_ & rid & r & _ & _ & Hv)]; [done| |done].
    destruct Hv as [_ _ _ _ (HL & HG & HA & _) _ _]. unfold same_policy, grants_of, audits_of. by rewrite HL, HG, HA.
  - left. by injection E as <-.
Qed.

Lemma audits_of_logged label older d : audits_of label (logged older d) = audits_of label (logged older empty_kdb) ++ audits_of label d.
Proof. unfold audits_of. simpl. by rewrite app_nil_r, List.filter_app. Qed.

Lemma same_policy_logged label older d d' : same_policy label (logged older d) (logged older d') -> same_policy label d d'.
Proof.
  unfold same_policy. rewrite !(audits_of_logged label older d), !(audits_of_logged label older d').
  intros (HL & HG & HA). by apply app_inv_head in HA.
Qed.

Lemma managed_change_logged w label older d d' :
  managed_change w label (logged older d) (logged older d') -> managed_change w label d d'.
Proof.
  intros (c & r & a & Hw & Hr & Hl & Ht & Hp & Ha & Hs). exists c, r, a. split_and!; try done; try apply Hs.
  rewrite !(audits_of_logged label older d), !(audits_of_logged label older d'), <- app_assoc in Ha. by apply app_inv_head in Ha.
Qed.

(** C15: whatever the run, from the tables of the migration or from empty ones,
    a request leaves the policy of an existing label (its revision, grants and
    log) as it is unless it comes from a manager of the scope of the resource,
    in its tenant, whom the new entry of the log names. The ingestion of
    documents and the revocation of projections never change one. *)
Theorem only_managers_change_policies text_le docs ws w label :
  backfill_ok docs ->
  let d := reached text_le docs ws in
  let d' := (perform text_le w d).2 in
  is_Some (labels d !! label) ->
  same_policy label d d' \/ managed_change w label d d'.
Proof.
  intros Hok d d' Hlab. set (V := missing_entries docs). assert (Hu := missing_unnamed docs). fold V in Hu.
  destruct (perform_policy text_le w (logged V d) label (reached_kinv text_le docs ws Hok) Hlab) as [Hs|Hm];
    rewrite (perform_blind V Hu) in *; cbn [snd] in *.
  - left. by eapply same_policy_logged.
  - right. by eapply managed_change_logged.
Qed.

(** * The history of a policy *)

(** A run leaves the policy of an existing label as it is, or its log grows. *)
Lemma run_policy text_le ws d label : kinv d -> is_Some (labels d !! label) ->
  same_policy label d (run text_le ws d)
  \/ (length (audits_of label d) < length (audits_of label (run text_le ws d)))%nat.
Proof.
  revert d. induction ws as [|w ws IH]; intros d I Hlab; [by left|]. change (run text_le (w :: ws) d) with (run text_le ws (perform text_le w d).2).
  pose proof (perform_policy text_le w d label I Hlab) as Hw. pose proof (perform_kinv text_le w d I) as I1.
  revert Hw I1. generalize (perform text_le w d).2. intros d1 Hw I1.
  assert (G : grows d1 (run text_le ws d1)) by apply run_grows.
  destruct Hw as [Hs|(c & r & a & _ & _ & _ & _ & _ & Ha & _)].
  - destruct Hs as (HL & HG & HA). destruct (IH d1) as [Hs|Hlt]; [done|by rewrite HL| |].
    + left. by eapply same_policy_trans.
    + right. by rewrite <- HA.
  - right. destruct G as [[l Hl] _]. unfold audits_of in *. rewrite Hl, List.filter_app, Ha, !length_app. simpl. lia.
Qed.

Lemma older_entries label docs :
  audits_of label (logged (missing_entries docs) empty_kdb) = missing_entries (of_label label docs).
Proof. rewrite <- missing_of_label. by unfold audits_of. Qed.

(** The log of a label, without the entries the migration did not write. *)
Lemma log_of_run text_le docs ws label : backfill_ok docs ->
  let d := reached text_le docs ws in
  map (fun a => (ad_old a, ad_new a)) (audits_of label d)
    = drop (Z.to_nat (revision_of label (backfill docs))) (chain (revision_of label d)).
Proof.
  intros Hok d. pose proof (history _ (reached_kinv text_le docs ws Hok) label) as Hh. fold d in Hh.
  rewrite audits_of_logged, map_app, older_entries in Hh.
  change (revision_of label (logged _ d)) with (revision_of label d) in Hh. rewrite <- Hh.
  rewrite revision_of_label, Nat2Z.id by apply Hok. symmetry.
  replace (length (of_label label docs)) with (length (map (fun a => (ad_old a, ad_new a)) (missing_entries (of_label label docs))))
    by (unfold missing_entries; by rewrite !length_map).
  apply drop_app_length.
Qed.

(** A label without a log is one of the migration, with its grant. *)
Lemma silent_label text_le docs ws label l : backfill_ok docs ->
  let d := reached text_le docs ws in
  labels d !! label = Some l -> audits_of label d = [] ->
  exists m, m ∈ docs /\ mp_label m = label /\ grants_of label d = [backfilled_grant m].
Proof.
  intros Hok d L El. assert (Hu := missing_unnamed docs). pose proof (log_of_run text_le docs ws label Hok) as Hmap.
  cbv zeta in Hmap. fold d in Hmap.   rewrite El in Hmap.
  destruct (explained _ (reached_kinv text_le docs ws Hok) label l L) as (Hpos & _).
  destruct (of_label_cases label docs (bo_labels _ Hok)) as [E|(m & Hm & Em & E)].
  - symmetry in Hmap. rewrite revision_of_label, E in Hmap by apply Hok. apply (f_equal length) in Hmap.
    simpl in Hmap. rewrite drop_0, chain_length in Hmap. unfold revision_of in Hmap. rewrite L in Hmap. simpl in Hmap. lia.
  - exists m. split; [done|]. split; [done|].
    assert (Hin : is_Some (labels (backfill docs) !! label)).
    { exists (mkLabel "private" 1). apply backfill_label; [apply Hok|]. split; [done|]. by exists m. }
    destruct (run_policy text_le ws _ label (backfill_kinv docs Hok) Hin) as [(_ & Hs & _)|Hlt];
      rewrite (run_logged _ Hu) in *.
    + change (grants_of label d = grants_of label (backfill docs)) in Hs. rewrite Hs, grants_of_label. by rewrite E.
    + rewrite !(audits_of_logged label _ (run _ _ _)), missing_of_label, older_entries in Hlt.
      change (audits_of label (run text_le ws (backfill docs))) with (audits_of label d) in Hlt. rewrite El, app_nil_r in Hlt. lia.
Qed.

(** C14: after any run of the writers, from tables to which the migration may
    have added the documents it found: the audit log of a label is one entry per
    revision, each from the one before, starting at the creation; for a label of
    the migration, which wrote no entry for revision 1, it starts at the next
    revision. The grants of a label are all of its current revision, at least
    one; the last entry of the log lists exactly them, and where the log is empty
    they are the owner's grant of the migration. The label belongs to one
    resource. *)
Theorem policy_history text_le docs ws label :
  backfill_ok docs ->
  let d0 := backfill docs in
  let d := reached text_le docs ws in
  map (fun a => (ad_old a, ad_new a)) (audits_of label d)
    = drop (Z.to_nat (revision_of label d0)) (chain (revision_of label d))
  /\ (forall g, g ∈ grants_of label d -> gr_revision g = revision_of label d)
  /\ (is_Some (labels d !! label) ->
      grants_of label d <> []
      /\ match last (audits_of label d) with
         | Some a => describes (map gr_grant (grants_of label d)) (ad_diff a)
         | None => exists m, m ∈ docs /\ mp_label m = label /\ grants_of label d = [backfilled_grant m]
         end
      /\ (exists r, r ∈ resources d /\ rs_label r = label
          /\ forall r', r' ∈ resources d -> rs_label r' = label -> r' = r)).
Proof.
  intros Hok d0 d. pose proof (reached_kinv text_le docs ws Hok) as I. fold d in I.
  split; [by apply log_of_run|]. split.
  - intros g Hg. apply list_elem_of_In, filter_In in Hg as [Hg E]. apply list_elem_of_In in Hg.
    apply bool_decide_eq_true in E as <-. destruct (current _ I g Hg) as (l & L & ->). unfold revision_of.
    change (labels (logged _ d)) with (labels d) in L. by rewrite L.
  - intros [l L]. destruct (explained _ I label l L) as (_ & Hg & a & Ha & Hd). split; [exact Hg|]. split.
    + destruct (last (audits_of label d)) as [a'|] eqn:El; [|apply last_None in El; by eapply silent_label].
      rewrite audits_of_logged, last_app, El in Ha. by injection Ha as ->.
    + apply last_Some_elem_of, list_elem_of_In, filter_In in Ha as [Hin Ea]. apply list_elem_of_In in Hin.
      apply bool_decide_eq_true in Ea. destruct (audited _ I a Hin) as (r & Hr & _ & El). exists r.
      split; [exact Hr|]. split; [congruence|]. intros r' Hr' El'. eapply same_label; [exact I|exact Hr'|exact Hr|congruence].
Qed.

(** * On the sample *)

Definition nothing : replacement_result := mkReplaced (mkKBinding "" "" 0 "" false) false "" [].
Definition sharing1 : res replacement_result * kdb := Eval vm_compute in
  replace_grants String.leb 200 alice "w1" resource1 share (reached String.leb [] projected).
Definition shared_result : replacement_result := match sharing1.1 with Ok x => x | Raise _ => nothing end.
Definition reader (c : RetrievalAccessContext) (role : string) : session :=
  mkSession 300 (subject_user_id c) "local" (principals c) [in_w1 "knowledge.read"] "" role "" "" "" "".

Lemma sharing1_eq :
  replace_grants String.leb 200 alice "w1" resource1 share (reached String.leb [] projected) = (Ok shared_result, sharing1.2).
Proof. vm_compute. reflexivity. Qed.

(** A document of the migration, whose policy alice then replaces. *)
Definition document9 : mapped_document := mkMapped "w1" "d9" "r1" "alice".
Lemma one_document : backfill_ok [document9].
Proof. split; [apply NoDup_singleton|apply NoDup_singleton|]. by intros m ->%list_elem_of_singleton. Qed.
Definition shared9 : list write := [ReplaceAcl 200 alice "w1" (mp_resource document9) share].

Lemma policy_history_witness :
  map (fun a => (ad_old a, ad_new a)) (audits_of label1 (reached String.leb [document9] shared)) = [(0, 1); (1, 2)]
  /\ audits_of (mp_label document9) (reached String.leb [document9] shared) = []
  /\ map (fun a => (ad_old a, ad_new a)) (audits_of (mp_label document9) (reached String.leb [document9] shared9)) = [(1, 2)].
Proof.
  destruct (policy_history String.leb [document9] shared label1 one_document) as (-> & _ & _).
  destruct (policy_history String.leb [document9] shared (mp_label document9) one_document) as (Hs & _ & _).
  destruct (policy_history String.leb [document9] shared9 (mp_label document9) one_document) as (-> & _ & _).
  split; [by vm_compute|]. split; [|by vm_compute]. apply (map_eq_nil (fun a => (ad_old a, ad_new a))). rewrite Hs.
  by vm_compute.
Defined.

(** Bob reads the object, not through the agent that the masks deny. *)
Lemma replaced_policy_decides_witness :
  knowledge_rls_can_access_label (reader bob "") sharing1.2 (b_label_id (rr_binding shared_result)) = true
  /\ knowledge_rls_can_access_label (reader bob "planner") sharing1.2 (b_label_id (rr_binding shared_result)) = false.
Proof.
  split.
  - rewrite (replaced_policy_decides String.leb [] projected 200 alice "w1" resource1 share shared_result sharing1.2);
      [by vm_compute|exact no_backfill|exact sharing1_eq|by vm_compute|by vm_compute].
  - rewrite (replaced_policy_decides String.leb [] projected 200 alice "w1" resource1 share shared_result sharing1.2);
      [by vm_compute|exact no_backfill|exact sharing1_eq|by vm_compute|by vm_compute].
Defined.

Lemma one_replacement_per_revision_witness :
  exists e, replace_grants String.leb 250 alice "w1" resource1 share (run String.leb [] sharing1.2)
            = (Raise e, run String.leb [] sharing1.2).
Proof.
  apply (one_replacement_per_revision String.leb [] projected 200 alice "w1" resource1 share shared_result sharing1.2 []);
    [exact no_backfill|exact sharing1_eq|reflexivity].
Defined.

(** Bob cannot replace the policy. *)
Lemma only_managers_change_policies_witness :
  same_policy label1 (reached String.leb [] shared)
    (perform String.leb (ReplaceAcl 220 bob "w1" resource1 unshare) (reached String.leb [] shared)).2.
Proof.
  destruct (only_managers_change_policies String.leb [] shared (ReplaceAcl 220 bob "w1" resource1 unshare) label1 no_backfill)
    as [Hs|(c & r & a & [= <-] & Hr & Hl & _ & Hm & _)].
  - apply (bool_decide_unpack _). by vm_compute.
  - exact Hs.
  - exfalso. revert Hm. apply (bool_decide_unpack (~ _)).
    assert (Hw : forallb (fun k => negb (bool_decide (k_name k = "knowledge.manage_acl"))) (permissions bob) = true)
      by by vm_compute.
    apply bool_decide_pack. intros Hin%list_elem_of_In. rewrite forallb_forall in Hw. by specialize (Hw _ Hin).
Defined.
