(* ===== verification/KnowledgeSearch.v ===== *)
(** Properties of knowledge retrieval: what a delivered hit was checked for,
    hits after a replaced policy or a revocation, the fusion of the rankings,
    and completeness when nothing changes. *)
From Stdlib Require Import SpecFloat.
From stdpp Require Import sorting.
From S2P Require Import Prelude PyDict PyStr PyVal PyJson KnowledgeContracts KnowledgeStore KnowledgeRetrieval.
From S2P Require Import KnowledgeIndex KnowledgeFacts KnowledgeTheorems KnowledgeSample.

(** * What a statement of an admitted session sees *)

Lemma existsb_filter {A} (f p : A -> bool) l :
  (forall x, x ∈ l -> f x = true -> p x = true) -> existsb f (List.filter p l) = existsb f l.
Proof.
  intros Hp. apply eq_iff_eq_true. rewrite !existsb_elem. split.
  - intros (x & Hx & Hf). apply list_elem_of_In, filter_In in Hx as [Hx _]. exists x. split; [by apply list_elem_of_In|done].
  - intros (x & Hx & Hf). exists x. split; [|done]. apply list_elem_of_In, filter_In.
    split; [by apply list_elem_of_In|by apply Hp].
Qed.

Lemma seen_granted s d now ps label revision effect :
  knowledge_rls_can_access_label s d label = true ->
  granted now ps (seen_grants s d) label revision effect = granted now ps (grants d) label revision effect.
Proof.
  intros A. apply existsb_filter. intros g _ Hg. bool_prop. unfold sees. simpl. congruence.
Qed.

Lemma seen_mask s d r (f : mask_row -> bool) :
  kinv d -> r ∈ resources d -> knowledge_rls_can_access_label s d (rs_label r) = true ->
  (forall m, f m = true -> mk_resource m = rs_id r) ->
  existsb f (seen_masks s d) = existsb f (masks d).
Proof.
  intros I Hr A Hf. apply existsb_filter. intros m _ Hm%Hf. unfold sees, label_of_mask.
  by rewrite Hm, label_for_resource.
Qed.

Lemma mask_admits_passes s d r role :
  kinv d -> r ∈ resources d -> knowledge_rls_can_access_label s d (rs_label r) = true ->
  mask_admits s d (rs_id r) role = true -> mask_passes (masks d) (rs_id r) (default "" role) = true.
Proof.
  intros I Hr A. unfold mask_admits, mask_passes, mask_of. destruct role as [role|]; [|by rewrite bool_decide_true, orb_true_r].
  rewrite !(seen_mask s d r); try done; try (intros m Hm; by bool_prop). simpl.
  intros [->|H]%orb_true_iff; [done|]. by rewrite H, orb_true_r.
Qed.

Lemma seen_resource s d r revision :
  (r, revision) ∈ seen_resources s d ->
  r ∈ resources d /\ knowledge_rls_can_access_label s d (rs_label r) = true
  /\ exists l, labels d !! rs_label r = Some l /\ lb_revision l = revision.
Proof.
  unfold seen_resources. intros (r' & Hr & J)%list_elem_of_omap. unfold joined in J.
  destruct (labels d !! rs_label r') as [l|] eqn:L; [|done].
  destruct (knowledge_rls_can_access_label _ _ _) eqn:A; [|done]. injection J as -> <-. naive_solver.
Qed.

(** * The authorization of a resource, read off the tables *)

Record admitted (now : Z) (c : RetrievalAccessContext) (scope_type scope_id : string) (d : kdb) (rid : string)
    (revision : Z) (r : resource_row) (l : label_row) : Prop := {
  am_resource : r ∈ resources d;
  am_id : rs_id r = rid;
  am_label : labels d !! rs_label r = Some l;
  am_revision : lb_revision l = revision;
  am_active : rs_active r = true;
  am_scope : rs_tenant r = tenant_id c /\ rs_scope_type r = scope_type /\ rs_scope_id r = scope_id;
  am_allowed : granted now (principals c) (grants d) (rs_label r) revision "allow" = true;
  am_not_denied : granted now (principals c) (grants d) (rs_label r) revision "deny" = false;
  am_mask : mask_passes (masks d) rid (default "" (agent_role_of c)) = true;
  am_permitted : exists name, name ∈ _PERMISSIONS /\ mkPermission name scope_type scope_id ∈ permissions c;
}.

Lemma rls_permission_inv s name t i : knowledge_rls_has_permission s name t i = true -> mkPermission name t i ∈ k_permissions s.
Proof. unfold knowledge_rls_has_permission. intros (k & Hk & ->%bool_decide_eq_true)%existsb_elem. done. Qed.

Lemma authorized_admitted s d now c scope_type scope_id r revision :
  kinv d -> session_of now c = Ok s -> (r, revision) ∈ seen_resources s d ->
  authorized s d c scope_type scope_id r revision = true ->
  exists l, admitted now c scope_type scope_id d (rs_id r) revision r l.
Proof.
  intros I Hs Hr Ha. apply session_fields in Hs as (Hn & Ht & Hp & Hk & Hg).
  apply seen_resource in Hr as (Hr & A & l & L & Hl). exists l. unfold authorized in Ha. bool_prop.
  rewrite Hn in *. rewrite seen_granted in * by done. constructor; try done.
  - by eapply mask_admits_passes.
  - rewrite (access_row s d r l) in A by done. unfold row_access in A. rewrite <- Hk. subst scope_type scope_id.
    repeat match goal with H : _ && _ = true |- _ => apply andb_true_iff in H as [? ?] end.
    match goal with H : _ || _ = true |- _ => rename H into Hor end.
    apply orb_true_iff in Hor as [[Hor|Hor]%orb_true_iff|[[Hor _]%andb_true_iff _]%andb_true_iff].
    3: apply orb_true_iff in Hor as [Hor|Hor].
    all: apply rls_permission_inv in Hor; eexists; split; [|exact Hor].
    all: apply (bool_decide_unpack _); by vm_compute.
Qed.

(** * Fusion *)

Section fusion.
Context {P : candidate -> Prop}.

Definition fused (ranked : dict entry) : Prop :=
  dict_wf ranked /\ forall k e, dget k ranked = Some e -> P (en_row e) /\ entry_id e = k.

Lemma fuse_row_fused channel rank row ranked : P row -> fused ranked -> fused (fuse_row channel rank row ranked).
Proof.
  intros Hrow [Hwf Hr]. split; [by apply dict_wf_dset|]. intros k e. unfold fuse_row. rewrite dget_dset.
  case_bool_decide as Hk; [|by apply Hr]. subst k. intros [= <-]. unfold entry_id. cbn [en_row].
  destruct (dget (cd_id row) ranked) as [e0|] eqn:E; cbn [default en_row]; [|done].
  by apply Hr in E.
Qed.

Lemma fuse_rows_fused channel rank rows ranked :
  (forall c, c ∈ rows -> P c) -> fused ranked -> fused (fuse_rows channel rank rows ranked).
Proof.
  revert rank ranked. induction rows as [|row rows IH]; intros rank ranked Hr Hf; [done|]. simpl.
  apply IH; [intros c Hc; apply Hr; by right|]. apply fuse_row_fused; [|done]. apply Hr. by left.
Qed.

Lemma fuse_fused v k : (forall c, c ∈ v \/ c ∈ k -> P c) -> fused (fuse v k).
Proof.
  intros Hp. apply fuse_rows_fused; [by auto|]. apply fuse_rows_fused; [by auto|]. split; [apply dict_wf_nil|done].
Qed.

Lemma elem_of_dvalues {V} (d : dict V) v : dict_wf d -> v ∈ dvalues d -> exists k, dget k d = Some v.
Proof.
  intros Hwf ([k w] & -> & Hin)%list_elem_of_fmap. exists k. by apply elem_of_dget.
Qed.

Lemma fused_values ranked e : fused ranked -> e ∈ dvalues ranked -> P (en_row e).
Proof. intros [Hwf Hr] He. apply elem_of_dvalues in He as [k Hk]; [|done]. by apply Hr in Hk as [? _]. Qed.
End fusion.

(** * Delivered hits *)

Lemma elem_take {A} n (l : list A) x : x ∈ take n l -> x ∈ l.
Proof. intros Hx. rewrite <- (take_drop n l). apply elem_of_app. by left. Qed.

Lemma elem_flat_map {A B} (f : A -> list B) l y : y ∈ flat_map f l -> exists x, y ∈ f x /\ x ∈ l.
Proof.
  intros (x & Hx & Hy)%list_elem_of_In%in_flat_map. exists x. by split; apply list_elem_of_In.
Qed.

Section search.
Context `{SearchLaws}.

(** A row of a statement of the first transaction. *)
Definition ranked_row (v : views) (s : session) (q : retrieval_request) (c : candidate) : Prop :=
  c ∈ authorized_rows s (vw_vector v) q \/ c ∈ authorized_rows s (vw_keyword v) q.

Lemma fetched_rows q e limit now v f c :
  fetch_hybrid_candidates q e limit now v = Ok f -> c ∈ ft_vector f \/ c ∈ ft_keyword f ->
  exists s, session_of now (rq_context q) = Ok s /\ ranked_row v s q c.
Proof.
  unfold fetch_hybrid_candidates. intros E Hc. bind_inv E. bind_inv E. injection E as <-. simpl in Hc.
  exists a. split; [done|].
  assert (Hsub : forall n (l l' : list candidate), c ∈ take n l -> l ⊆+ l' -> c ∈ l').
  { intros n l l' Hin Hs. eapply elem_of_submseteq; [|exact Hs]. by eapply elem_take. }
  destruct Hc as [Hc|Hc]; [left|right; eapply Hsub; [exact Hc|apply matching_sub]].
  destruct e as [e|]; [eapply Hsub; [exact Hc|apply nearest_sub]|by apply not_elem_of_nil in Hc].
Qed.

Lemma fetched_entries q e limit now v f en :
  fetch_hybrid_candidates q e limit now v = Ok f -> en ∈ dvalues (fuse (ft_vector f) (ft_keyword f)) ->
  exists s, session_of now (rq_context q) = Ok s /\ ranked_row v s q (en_row en).
Proof.
  intros E. apply (fused_values (P := fun c => exists s, session_of now (rq_context q) = Ok s /\ ranked_row v s q c)).
  apply fuse_fused. intros c Hc. by eapply fetched_rows.
Qed.

Lemma candidate_row s d q c :
  c ∈ authorized_rows s d q ->
  (cd_resource c, cd_revision c) ∈ seen_resources s d /\ cd_document c ∈ documents d
  /\ dc_resource (cd_document c) = Some (rs_id (cd_resource c))
  /\ dc_label (cd_document c) = Some (rs_label (cd_resource c))
  /\ authorized s d (rq_context q) (rq_scope_type q) (rq_scope_id q) (cd_resource c) (cd_revision c) = true
  /\ generation_live s d (cd_document c) (cd_resource c) = true.
Proof.
  unfold authorized_rows. intros (x & Hc & Hx)%elem_flat_map. apply list_elem_of_omap in Hc as ([r v] & Hr & Hc).
  apply list_elem_of_In, filter_In in Hx as [Hx _]. apply list_elem_of_In in Hx.
  unfold candidate_of in Hc. destruct (_ && _) eqn:T in Hc; [|done]. injection Hc as <-. simpl. bool_prop. done.
Qed.

Lemma elem_of_final_rows s d c scope_type scope_id expected b :
  b ∈ final_rows s d c scope_type scope_id expected <->
  b ∈ expected /\ exists r, (r, b.2) ∈ seen_resources s d /\ rs_id r = b.1
    /\ authorized s d c scope_type scope_id r b.2 = true.
Proof.
  unfold final_rows. split.
  - intros (b' & Hin & Hb)%elem_flat_map. apply list_elem_of_omap in Hin as ([r v] & Hr & Hin).
    destruct (_ && _) eqn:T in Hin; [|done]. injection Hin as ->. bool_prop. subst v. split; [done|]. by exists r.
  - intros (Hb & r & Hr & Hid & Ha). apply list_elem_of_In, in_flat_map. exists b. split; [by apply list_elem_of_In|].
    apply list_elem_of_In, list_elem_of_omap. exists (r, b.2). split; [done|].
    by rewrite Hid, bool_decide_true, Z.eqb_refl, Ha.
Qed.

Lemma final_binding c scope_type scope_id expected now d final rid revision :
  final_authorize c scope_type scope_id expected now d = Ok final -> final !! rid = Some revision ->
  exists s r, session_of now c = Ok s /\ (r, revision) ∈ seen_resources s d /\ rs_id r = rid
    /\ authorized s d c scope_type scope_id r revision = true.
Proof.
  unfold final_authorize. destruct (sorted_bindings expected) as [|b bs] eqn:Hb; [by intros [= <-]; rewrite lookup_empty|].
  generalize (b :: bs). clear. intros l E Hf. bind_inv E. injection E as <-. apply elem_of_list_to_map_2 in Hf.
  apply elem_of_final_rows in Hf as (_ & r & Hr & Hid & Ha'). by exists a, r.
Qed.

Lemma search_hits q now v now' d' x e :
  search q now v now' d' = Ok x -> e ∈ rt_hits x ->
  exists s final expected, session_of now (rq_context q) = Ok s /\ ranked_row v s q (en_row e)
    /\ final_authorize (rq_context q) (rq_scope_type q) (rq_scope_id q) expected now' d' = Ok final
    /\ final !! rs_id (cd_resource (en_row e)) = Some (cd_revision (en_row e)).
Proof.
  unfold search. intros E He. bind_inv E. clear Ha. bind_inv E. bind_inv E. bind_inv E. injection E as <-. simpl in He.
  apply list_elem_of_In, filter_In in He as [He Hf]. apply list_elem_of_In, elem_take in He.
  rewrite merge_sort_Permutation in He. apply andb_true_iff in Hf as [_ Hf]. apply bool_decide_eq_true in Hf.
  apply (fetched_entries _ _ _ _ _ _ _ Ha) in He as (s & Hs & Hc). exists s, a1. eexists. by split_and!.
Qed.

(** The statements of the first transaction, between which writers commit. *)
Definition first_reads (text_le : string -> string -> bool) (d : kdb) (w1 w2 : list write) : views :=
  mkViews d (run text_le w1 d) (run text_le w2 (run text_le w1 d)).

Lemma run_app text_le w w' d : run text_le (w ++ w') d = run text_le w' (run text_le w d).
Proof. apply foldl_app. Qed.
Lemma reached_app text_le docs ws w : run text_le w (reached text_le docs ws) = reached text_le docs (ws ++ w).
Proof. unfold reached. by rewrite run_app. Qed.

(** A ranked row was seen in some tables, which the last statement follows. *)
Lemma ranked_view text_le docs ws w1 w2 s q c :
  let v := first_reads text_le (reached text_le docs ws) w1 w2 in
  ranked_row v s q c -> exists ws1 w,
    (reached text_le docs ws1 = vw_vector v \/ reached text_le docs ws1 = vw_keyword v)
    /\ vw_keyword v = run text_le w (reached text_le docs ws1)
    /\ c ∈ authorized_rows s (reached text_le docs ws1) q.
Proof.
  intros v. unfold v, first_reads, ranked_row. cbn [vw_vector vw_keyword]. rewrite !reached_app.
  intros [Hc|Hc]; [exists (ws ++ w1), w2|exists ((ws ++ w1) ++ w2), []]; rewrite reached_app; rewrite ?app_nil_r; auto.
Qed.

Lemma admitted_logged V now c scope_type scope_id d rid revision r l :
  admitted now c scope_type scope_id (logged V d) rid revision r l ->
  admitted now c scope_type scope_id d rid revision r l.
Proof. by intros []. Qed.

(** C13: a hit that a search delivers is a document that one of the statements of
    the first transaction read, bound to the resource and label it reports, and
    in the tables of the second transaction (whatever the writers committed
    between the statements) that resource is active in the tenant and scope of
    the request, its label is at the revision of the hit, a live grant of that
    revision allows one of the principals of the request and none denies one, the
    agent role passes the masks, and the context holds a permission on the scope. *)
Theorem delivered_hits_are_authorized text_le docs ws w1 w2 later q now now' x e :
  backfill_ok docs ->
  let v := first_reads text_le (reached text_le docs ws) w1 w2 in
  let d' := run text_le later (vw_keyword v) in
  search q now v now' d' = Ok x -> e ∈ rt_hits x ->
  (cd_document (en_row e) ∈ documents (vw_vector v) \/ cd_document (en_row e) ∈ documents (vw_keyword v))
  /\ dc_resource (cd_document (en_row e)) = Some (rs_id (cd_resource (en_row e)))
  /\ exists r l,
    admitted now' (rq_context q) (rq_scope_type q) (rq_scope_id q) d' (rs_id (cd_resource (en_row e)))
      (cd_revision (en_row e)) r l
    /\ dc_label (cd_document (en_row e)) = Some (rs_label r).
Proof.
  intros Hok v d' E He.
  destruct (search_hits q now v now' d' x e E He) as (s & final & expected & Hs & Hc & Hf & Hb).
  apply ranked_view in Hc as (ws1 & w & Hv & Hw & Hc). fold v in Hv, Hw. set (d1 := reached text_le docs ws1) in *.
  assert (Hd' : d' = reached text_le docs (ws1 ++ w ++ later)) by (unfold d'; rewrite Hw, <- run_app; apply reached_app).
  assert (I' : kinv (logged (missing_entries docs) d')) by (rewrite Hd'; by apply reached_kinv).
  assert (G : grows d1 d') by (unfold d'; rewrite Hw, <- run_app; apply run_grows).
  apply candidate_row in Hc as (Hr & Hd & Hres & Hlab & _ & _).
  split; [destruct Hv as [<-|<-]; [by left|by right]|]. split; [done|].
  destruct (final_binding _ _ _ _ _ _ _ _ _ Hf Hb) as (s' & r & Hs' & Hr' & Hid & Ha).
  destruct (authorized_admitted s' (logged (missing_entries docs) d') now' _ _ _ r _ I' Hs' Hr' Ha) as [l Hl].
  exists r, l. split; [rewrite <- Hid; by apply admitted_logged in Hl|].
  apply seen_resource in Hr as (Hr & _ & _). apply seen_resource in Hr' as (Hr' & _ & _).
  destruct (core_kept _ _ _ G Hr) as (r2 & Hr2 & C). unfold rs_core in C. injection C as C1 C2 _ _.
  assert (r2 = r) as -> by (eapply (nodup_map_inj rs_id); [apply I'|exact Hr2|exact Hr'|congruence]). congruence.
Qed.

End search.

(** * A revoked resource *)

(** Whoever projects a resource makes it active again. *)
Definition projects (rid : string) (w : write) : Prop :=
  match w with
  | Project _ _ i _ _ => exists i', new_KnowledgeResourceIdentity i = Ok i' /\ identity_resource_id i' = Ok rid
  | Document _ _ workspace document revision =>
      exists i, document_identity workspace document revision = Ok i /\ identity_resource_id i = Ok rid
  | ReplaceAcl _ _ _ _ _ | Revoke _ _ _ | Index _ => False
  end.

(** No active row of the resource is new. *)
Definition inert (rid : string) (d d' : kdb) : Prop :=
  forall r', r' ∈ resources d' -> rs_id r' = rid -> rs_active r' = true ->
  exists r, r ∈ resources d /\ rs_id r = rid /\ rs_active r = true.

#[export] Instance inert_preorder rid : PreOrder (inert rid).
Proof. split; [intros d r' ? ? ?; by exists r'|]. intros d1 d2 d3 H12 H23 r' Hr Hid Ha. destruct (H23 r') as (? & ? & ? & ?); eauto. Qed.

Section inert.
Variable rid : string.

Lemma modify_inert f : (forall d, resources (f d) = resources d) -> within (inert rid) (modify_st f).
Proof. intros Hf. apply within_modify. intros d r' Hr ? ?. rewrite Hf in Hr. by exists r'. Qed.

Lemma insert_resource_inert s r : rs_id r <> rid -> within (inert rid) (insert_resource s r).
Proof.
  intros Hne. unfold insert_resource. stay. apply within_modify.
  intros d r' [Hr| ->%list_elem_of_singleton]%elem_of_app Hid Ha; [by exists r'|done].
Qed.

Lemma update_resources_inert s w f :
  (forall r, rs_id (f r) = rs_id r) -> (forall r, rs_id r = rid -> w r = true -> rs_active (f r) = false) ->
  within (inert rid) (update_resources s w f).
Proof.
  intros Hf Hw. unfold update_resources, update_rows. stay. apply within_modify.
  intros d' r' Hr' Hid Ha. simpl in Hr'. apply list_elem_of_fmap in Hr' as (r & -> & Hr).
  destruct (w r && _) eqn:E; [|by exists r]. apply andb_true_iff in E as [E _]. rewrite Hf in Hid.
  rewrite Hw in Ha by done. done.
Qed.

Lemma bind_lift_inert {A B} (c : res A) (f : A -> stres kdb B) :
  (forall a, c = Ok a -> within (inert rid) (f a)) -> within (inert rid) (lift_res c ≫= f).
Proof.
  intros Hf d r d'. unfold mbind, stres_bind, lift_res. destruct c as [a|e]; [by apply Hf|by intros [= _ <-]].
Qed.

Ltac keep := stay; try (apply modify_inert; reflexivity).

Lemma _replace_grants_inert s r lid cur c m : within (inert rid) (_replace_grants s r lid cur c m).
Proof.
  unfold _replace_grants, _insert_grants, _insert_audit, advance_label, delete_rows, insert_grant, insert_audit. keep.
Qed.

Lemma ensure_resource_inert s text_le i c m initial :
  identity_resource_id i <> Ok rid -> within (inert rid) (ensure_resource s text_le i c m initial).
Proof.
  intros Hne. unfold ensure_resource. apply bind_lift_inert. intros r Hr. assert (r <> rid) by congruence.
  stay; try apply _replace_grants_inert.
  - apply update_resources_inert; [done|]. intros r' Hid Hw. bool_prop. congruence.
  - unfold _create_resource, _insert_grants, _insert_audit, insert_label, insert_grant, insert_audit. keep.
    by apply insert_resource_inert.
Qed.

Lemma replace_grants_inert text_le now c ws r cmd : within (inert rid) (replace_grants text_le now c ws r cmd).
Proof.
  unfold replace_grants, replace_existing_resource_grants, rebind_active_authorization, replace_masks.
  stay; try apply _replace_grants_inert; unfold update_rows, delete_rows, insert_mask, insert_mask_audit; keep.
Qed.

Lemma revoke_projection_inert now c i : within (inert rid) (revoke_projection now c i).
Proof.
  unfold revoke_projection. stay; unfold update_rows; keep. by apply update_resources_inert.
Qed.

Lemma perform_inert text_le w : ~ projects rid w -> within (inert rid) (perform text_le w).
Proof.
  intros Hw. unfold perform. apply within_transaction; [apply _|].
  destruct w as [now c i m initial|now u ws doc rev|now c ws r cmd|now c i|rows].
  - apply bind_lift_inert. intros i' Hi. unfold bind_resource, ensure_project_resource. stay.
    apply ensure_resource_inert. intros E. apply Hw. by exists i'.
  - apply bind_lift_inert. intros c _. apply bind_lift_inert. intros i' Hi.
    unfold bind_resource, ensure_trusted_document_resource. stay.
    apply ensure_resource_inert. intros E. apply Hw. by exists i'.
  - stay. apply replace_grants_inert.
  - stay. apply revoke_projection_inert.
  - by apply modify_inert.
Qed.

Lemma run_inert text_le ws d : Forall (fun w => ~ projects rid w) ws -> inert rid d (run text_le ws d).
Proof.
  revert d. induction ws as [|w ws IH]; intros d Hws; [done|]. inversion_clear Hws as [|? ? Hw Hr].
  change (run text_le (w :: ws) d) with (run text_le ws (perform text_le w d).2). etrans; [|by apply IH].
  destruct (perform text_le w d) as [r d'] eqn:E. by eapply perform_inert.
Qed.
End inert.

Section withdrawn.
Context `{SearchLaws}.

Lemma grows_logged V d d' : grows d d' -> grows (logged V d) (logged V d').
Proof. intros [[l Hl] Hr]. split; [|exact Hr]. exists l. simpl. by rewrite Hl, app_assoc. Qed.

Lemma replaced_kinv text_le V at_ c workspace rid cmd y d1 d2 :
  (forall a, a ∈ V -> ad_id a = "") -> kinv (logged V d1) ->
  replace_grants text_le at_ c workspace rid cmd d1 = (Ok y, d2) -> kinv (logged V d2).
Proof.
  intros Hu I E. apply (replace_logged _ V) in E; [|done].
  apply replace_grants_Ok in E as (r0 & l & rows & mrows & a & P); [apply P|done].
Qed.

Lemma revoked_logged older now c i d x d' :
  (forall a, a ∈ older -> ad_id a = "") -> revoke_projection now c i d = (x, d') ->
  revoke_projection now c i (logged older d) = (x, logged older d').
Proof. intros Hu E. by rewrite revoke_projection_blind, E. Qed.

(** A replacement moves the revision of the label, for good. *)
Lemma replaced_revision_moves text_le V at_ c workspace rid cmd y d1 d2 after r :
  kinv (logged V d1) -> (forall a, a ∈ V -> ad_id a = "") ->
  replace_grants text_le at_ c workspace rid cmd d1 = (Ok y, d2) ->
  r ∈ resources d1 -> rs_id r = rid ->
  revision_of (rs_label r) d1 < revision_of (rs_label r) (run text_le after d2).
Proof.
  intros I Hu E Hr Hid. apply (replace_logged _ V) in E as E'; [|done].
  apply replace_grants_Ok in E' as (r0 & l & rows & mrows & a & []); [|done].
  assert (r0 = r) as -> by (eapply (nodup_map_inj rs_id); [apply I|exact pr_resource|exact Hr|congruence]).
  assert (I2 : kinv (logged V (run text_le after d2))) by by apply run_kinv_logged.
  assert (G : grows (logged V d2) (logged V (run text_le after d2))) by (rewrite <- run_logged by done; apply run_grows).
  pose proof (revision_monotone _ _ (rs_label r) pr_inv I2 G) as Hm.
  change (revision_of (rs_label r) (logged V (run text_le after d2))) with (revision_of (rs_label r) (run text_le after d2)) in Hm.
  destruct pr_state as (f & g & h & Hd). rewrite Hd in Hm. unfold revision_of in Hm at 1. simpl in Hm.
  rewrite lookup_insert_eq in Hm. simpl in Hm. unfold revision_of at 1.
  change (labels (logged V d1)) with (labels d1) in pr_label. rewrite pr_label. lia.
Qed.

(** C27: once the policy of a resource is replaced, or the resource is revoked,
    between the two transactions of a search, the search delivers none of its
    hits, though the first transaction ranked them: after a replacement whatever
    is written next, after a revocation unless the resource is projected again
    before the second transaction, whatever else is written. (Neither a
    revocation nor a projection moves the revision, so a hit survives both
    together: [reprojected_hit_is_delivered].) *)
Theorem withdrawn_hits_are_not_delivered text_le docs ws w1 w2 before q now now' x e :
  backfill_ok docs ->
  let v := first_reads text_le (reached text_le docs ws) w1 w2 in
  let d1 := run text_le before (vw_keyword v) in
  (exists at_ c workspace rid cmd y d2 after,
     replace_grants text_le at_ c workspace rid cmd d1 = (Ok y, d2) /\ rid = rs_id (cd_resource (en_row e))
     /\ search q now v now' (run text_le after d2) = Ok x)
  \/ (exists at_ c i y d2 after,
     revoke_projection at_ c i d1 = (Ok y, d2) /\ rv_state y = "revoked"
     /\ rv_resource_id y = rs_id (cd_resource (en_row e))
     /\ Forall (fun w => ~ projects (rv_resource_id y) w) after
     /\ search q now v now' (run text_le after d2) = Ok x) ->
  e ∉ rt_hits x.
Proof.
  intros Hok v d1 Hcase He. assert (Hu := missing_unnamed docs).
  assert (Hd1 : exists ws', d1 = reached text_le docs ws') by (eexists; unfold d1, v, first_reads; cbn [vw_keyword]; by rewrite !reached_app).
  assert (I1 : kinv (logged (missing_entries docs) d1)) by (destruct Hd1 as [ws' ->]; by apply reached_kinv).
  destruct Hcase as [(at_ & c & workspace & rid & cmd & y & d2 & after & E & -> & Es)|(at_ & c & i & y & d2 & after & E & Hst & Hrid & Haft & Es)];
    destruct (search_hits q now v now' _ x e Es He) as (s & final & expected & Hs & Hc & Hf & Hb);
    destruct (final_binding _ _ _ _ _ _ _ _ _ Hf Hb) as (s' & r' & _ & Hr' & Hid & Ha).
  - apply ranked_view in Hc as (ws1 & w & _ & Hw & Hc). fold v in Hw.
    assert (G1 : grows (reached text_le docs ws1) d1) by (unfold d1; rewrite Hw, <- run_app; apply run_grows).
    assert (G2 : grows d1 (run text_le after d2)) by (etrans; [by eapply replace_grants_grows|apply run_grows]).
    apply candidate_row in Hc as (Hr & _). apply seen_resource in Hr as (Hr & _ & l0 & L0 & Hl0).
    destruct (core_kept _ _ _ G1 Hr) as (r1 & Hr1 & C1). unfold rs_core in C1. injection C1 as Ci Cl _ _.
    pose proof (replaced_revision_moves _ _ _ _ _ _ _ _ _ _ after r1 I1 Hu E Hr1 Ci) as Hlt. rewrite Cl in Hlt.
    pose proof (revision_monotone _ _ (rs_label (cd_resource (en_row e))) (reached_kinv text_le docs ws1 Hok) I1) as Hm.
    specialize (Hm ltac:(by apply grows_logged)). unfold revision_of in Hm at 1.
    change (labels (logged _ (reached text_le docs ws1))) with (labels (reached text_le docs ws1)) in Hm. rewrite L0 in Hm.
    apply seen_resource in Hr' as (Hr' & _ & l3 & L3 & Hl3). destruct (core_kept _ _ r1 G2 Hr1) as (r3 & Hr3 & C3).
    unfold rs_core in C3. injection C3 as Di Dl _ _.
    assert (I3 : kinv (logged (missing_entries docs) (run text_le after d2))) by (eapply run_kinv_logged; [done|by eapply replaced_kinv]).
    assert (r3 = r') as -> by (eapply (nodup_map_inj rs_id); [apply I3|exact Hr3|exact Hr'|congruence]).
    change (revision_of (rs_label (cd_resource (en_row e))) (logged _ d1)) with (revision_of (rs_label (cd_resource (en_row e))) d1) in Hm.
    unfold revision_of in Hlt at 2. rewrite <- Cl, <- Dl, L3 in Hlt. rewrite Dl, Cl in Hlt. lia.
  - apply (revoked_logged (missing_entries docs)) in E; [|done].
    apply revoke_Ok in E as [[Hre _]|(_ & rid & r & _ & Hrid' & V)]; [congruence| |done].
    apply seen_resource in Hr' as (Hr' & _ & _). unfold authorized in Ha. bool_prop.
    destruct (run_inert _ text_le after d2 Haft r' Hr') as (r2 & Hr2 & Hid2 & Ha2); [congruence|done|].
    rewrite (vk_resources _ _ _ _ _ _ V r2 Hr2) in Ha2; [done|congruence].
Qed.
End withdrawn.

(** * The fused ranking *)

(** The place of a row in a ranking that starts at [n]. *)
Fixpoint rank_from (n : nat) (id : string) (rows : list candidate) : option nat :=
  match rows with
  | [] => None
  | c :: r => if bool_decide (cd_id c = id) then Some n else rank_from (S n) id r
  end.

Definition scored (e : entry) : spec_float * list string := (en_score e, en_channels e).

(** Reciprocal rank fusion: a row scores the reciprocal of 60 plus its place in
    each ranking that has it. *)
Definition rrf (v k : list candidate) (id : string) : option (spec_float * list string) :=
  match rank_from 1 id v, rank_from 1 id k with
  | Some i, Some j => Some (float_add (float_add (float_of 0) (reciprocal i)) (reciprocal j), ["text_vector"; "keyword"])
  | Some i, None => Some (float_add (float_of 0) (reciprocal i), ["text_vector"])
  | None, Some j => Some (float_add (float_of 0) (reciprocal j), ["keyword"])
  | None, None => None
  end.

Definition bump (channel : string) (i : nat) (o : option (spec_float * list string)) : spec_float * list string :=
  let p := default (float_of 0, []) o in
  (float_add p.1 (reciprocal i), if member channel p.2 then p.2 else p.2 ++ [channel]).

Lemma rank_from_None n id rows : id ∉ map cd_id rows -> rank_from n id rows = None.
Proof.
  revert n. induction rows as [|c rows IH]; intros n; [done|]. simpl. rewrite list.not_elem_of_cons.
  intros [Hne Hn]. rewrite bool_decide_false by done. by apply IH.
Qed.

Lemma fuse_rows_scored channel n rows ranked id :
  NoDup (map cd_id rows) ->
  scored <$> dget id (fuse_rows channel n rows ranked)
  = match rank_from n id rows with
    | Some i => Some (bump channel i (scored <$> dget id ranked))
    | None => scored <$> dget id ranked
    end.
Proof.
  revert n ranked. induction rows as [|c rows IH]; intros n ranked; [done|]. simpl. rewrite NoDup_cons.
  intros [Hc Hn]. rewrite IH by done. unfold fuse_row. rewrite dget_dset. case_bool_decide as E1.
  - subst id. rewrite bool_decide_true, rank_from_None by done. cbn [fmap option_fmap option_map]. f_equal.
    by destruct (dget _ ranked).
  - by rewrite bool_decide_false.
Qed.

(** The score and the channels of every row of the fused ranking are those of
    reciprocal rank fusion, in binary64, and the ranking has no other rows. *)
Theorem fusion_is_rrf v k id :
  NoDup (map cd_id v) -> NoDup (map cd_id k) -> scored <$> dget id (fuse v k) = rrf v k id.
Proof.
  intros Hv Hk. unfold fuse. rewrite !fuse_rows_scored by done. unfold rrf.
  by destruct (rank_from 1 id v), (rank_from 1 id k).
Qed.

(** * A search of tables that do not change *)

Section unchanged.
Context `{SearchLaws}.

Lemma seen_resource_once s d r r' v v' :
  kinv d -> (r, v) ∈ seen_resources s d -> (r', v') ∈ seen_resources s d -> rs_id r = rs_id r' -> v = v'.
Proof.
  intros I (Hr & _ & l & L & <-)%seen_resource (Hr' & _ & l' & L' & <-)%seen_resource Hid.
  assert (r = r') as -> by (by eapply (nodup_map_inj rs_id); [apply I| | |]). congruence.
Qed.

Lemma final_rows_lookup s d c scope_type scope_id expected b :
  kinv d -> b ∈ final_rows s d c scope_type scope_id expected ->
  (list_to_map (final_rows s d c scope_type scope_id expected) : gmap string Z) !! b.1 = Some b.2.
Proof.
  intros I Hb. destruct b as [id v]. apply elem_of_list_to_map_1'; [|done].
  intros v' (_ & r' & Hr' & Hid' & _)%elem_of_final_rows. apply elem_of_final_rows in Hb as (_ & r & Hr & Hid & _).
  simpl in *. eapply seen_resource_once; [exact I|exact Hr|exact Hr'|congruence].
Qed.

Lemma elem_of_sorted_bindings b l : b ∈ sorted_bindings l <-> b ∈ l.
Proof. unfold sorted_bindings. rewrite merge_sort_Permutation. apply elem_of_remove_dups. Qed.

Lemma fetch_text q e limit now d f :
  rq_evidence_refs q = [] -> fetch_hybrid_candidates q e limit now (still d) = Ok f ->
  exists s, session_of now (rq_context q) = Ok s
    /\ f = mkFetched (match e with Some e => take limit (nearest e (authorized_rows s d q)) | None => [] end)
             (take limit (matching (rq_query q) (authorized_rows s d q))) [].
Proof.
  intros Hq E. unfold fetch_hybrid_candidates, hydrate_authorized_query_seed in E. rewrite Hq in E. cbn [still vw_seed vw_vector vw_keyword] in E.
  cbn [expected_hashes foldl] in E. bind_inv E. exists a. split; [done|]. by injection E as <-.
Qed.

(** When nothing is written between the two transactions of a search of a
    text, it delivers every selected row: the best [top_k] of the fused ranking
    of the authorized rows. *)
Theorem unchanged_search_is_complete text_le docs ws q now x :
  backfill_ok docs ->
  let d := reached text_le docs ws in
  rq_evidence_refs q = [] ->
  search q now (still d) now d = Ok x ->
  exists s,
    session_of now (rq_context q) = Ok s
    /\ let rows := authorized_rows s d q in
       let limit := Nat.min 60 (rq_top_k q * 3) in
       let v := match embed (rq_query q) with Some e => take limit (nearest e rows) | None => [] end in
       let k := take limit (matching (rq_query q) rows) in
       rt_hits x = take (rq_top_k q) (merge_sort (fun a b => entry_le a b) (dvalues (fuse v k)))
       /\ rt_candidate_count x = length (fuse v k).
Proof.
  intros Hok d Hq E. pose proof (reached_kinv text_le docs ws Hok) as I. fold d in I. clearbody d.
  unfold search in E. rewrite Hq in E. cbv zeta. revert E. generalize (Nat.min 60 (rq_top_k q * 3)). intros limit E.
  bind_inv E. clear Ha. bind_inv E. bind_inv E. bind_inv E. clear Ha1.
  pose proof Ha as Hfetch. apply fetch_text in Ha as (s & Hs & ->); [|done].
  cbn [ft_vector ft_keyword ft_seed_bindings forallb andb snd] in *. injection E as <-.
  exists s. split; [done|]. split; [|done]. cbn [rt_hits]. rewrite app_nil_r in Ha0.
  set (selected := take _ _) in *. apply filter_all. intros e He. apply bool_decide_eq_true.
  unfold final_authorize in Ha0. assert (Hin : entry_binding e ∈ sorted_bindings (map entry_binding selected)).
  { apply elem_of_sorted_bindings. by apply list_elem_of_fmap_2. }
  destruct (sorted_bindings _) as [|b bs] eqn:Hb; [by apply not_elem_of_nil in Hin|].
  revert Ha0 Hin. generalize (b :: bs). intros l Ha0 Hin. rewrite Hs in Ha0. injection Ha0 as <-.
  apply (final_rows_lookup _ _ _ _ _ _ (entry_binding e)) with (1 := I). apply elem_of_final_rows. split; [done|].
  apply elem_take in He. rewrite merge_sort_Permutation in He.
  apply (fetched_entries _ _ _ _ _ _ _ Hfetch) in He as (s' & Hs' & Hc).
  assert (s' = s) as -> by congruence.
  assert (Hc' : en_row e ∈ authorized_rows s d q) by (by destruct Hc).
  apply candidate_row in Hc' as (Hr & _ & _ & _ & Hauth & _). by exists (cd_resource (en_row e)).
Qed.
End unchanged.

(** * On the sample *)

#[local] Existing Instance engine1.
#[local] Existing Instance engine1_laws.

Definition empty_result : retrieval_result := mkResult [] 0 0 [] "".
Definition result_of (r : res retrieval_result) : retrieval_result :=
  match r with Ok x => x | Raise _ => empty_result end.
Definition delivered : retrieval_result := Eval vm_compute in
  result_of (found1 (reached String.leb [] shared) (run String.leb [] (reached String.leb [] shared))).
Definition hit1 : entry := Eval vm_compute in
  match rt_hits delivered with e :: _ => e | [] => mkEntry (mkCandidate chunk1 (mkResource "" "" "" "" "" "" "" "" "" "" "" false None) 0) (float_of 0) [] end.

Lemma delivered_hits_are_authorized_witness :
  exists r l, admitted 310 bob "workspace" "w1" (run String.leb [] (reached String.leb [] shared)) resource1 2 r l.
Proof.
  destruct (delivered_hits_are_authorized String.leb [] shared [] [] [] request1 300 310 delivered hit1 no_backfill) as (_ & _ & r & l & Ha & _).
  - by vm_compute.
  - vm_compute. by left.
  - by exists r, l.
Defined.

Definition unsharing : res replacement_result * kdb := Eval vm_compute in
  replace_grants String.leb 305 alice "w1" resource1 unshare (run String.leb [] (reached String.leb [] shared)).
Definition unshared_result : replacement_result := match unsharing.1 with Ok x => x | Raise _ => nothing end.
Definition after_unsharing : retrieval_result := Eval vm_compute in
  result_of (found1 (reached String.leb [] shared) (run String.leb [] unsharing.2)).

Definition withdrawing : res revoke_result * kdb := Eval vm_compute in
  revoke_projection 305 alice object1 (reached String.leb [] shared).
Definition withdrawn : revoke_result :=
  match withdrawing.1 with Ok x => x | Raise _ => mkRevoked "" "" "" None None end.
Definition after_withdrawing : retrieval_result := Eval vm_compute in
  result_of (found1 (reached String.leb [] shared) withdrawing.2).

Lemma withdrawn_hits_are_not_delivered_witness :
  hit1 ∉ rt_hits after_unsharing /\ rv_state withdrawn = "revoked" /\ hit1 ∉ rt_hits after_withdrawing.
Proof.
  split; [|split; [by vm_compute|]].
  - apply (withdrawn_hits_are_not_delivered String.leb [] shared [] [] [] request1 300 310 after_unsharing hit1 no_backfill).
    left. exists 305, alice, "w1", resource1, unshare, unshared_result, unsharing.2, [].
    split; [vm_compute; reflexivity|]. split; [reflexivity|]. vm_compute; reflexivity.
  - apply (withdrawn_hits_are_not_delivered String.leb [] shared [] [] [] request1 300 310 after_withdrawing hit1 no_backfill).
    right. exists 305, alice, object1, withdrawn, withdrawing.2, [].
    split; [vm_compute; reflexivity|]. split; [reflexivity|]. split; [reflexivity|]. split; [constructor|].
    vm_compute; reflexivity.
Defined.

(** The object is revoked and projected again between the two transactions: its
    label is where it was, so the hit of the first one is delivered. *)
Lemma reprojected_hit_is_delivered :
  rt_hits (result_of (found1 (reached String.leb [] shared)
    (run String.leb [Project 307 alice object1 None []] withdrawing.2))) = [hit1].
Proof. by vm_compute. Qed.

Lemma fusion_is_rrf_witness :
  scored <$> dget "c1" (fuse [en_row hit1] [en_row hit1])
  = Some (float_add (float_add (float_of 0) (reciprocal 1)) (reciprocal 1), ["text_vector"; "keyword"]).
Proof.
  rewrite fusion_is_rrf; [by vm_compute|apply NoDup_singleton|apply NoDup_singleton].
Defined.

Definition complete : retrieval_result := Eval vm_compute in
  result_of (@search engine1 request1 300 (still (reached String.leb [] shared)) 300 (reached String.leb [] shared)).

Lemma unchanged_search_is_complete_witness :
  rt_candidate_count complete = 1%nat /\ exists s, session_of 300 bob = Ok s.
Proof.
  destruct (unchanged_search_is_complete String.leb [] shared request1 300 complete no_backfill)
    as (s & Hs & _ & _); [reflexivity|by vm_compute|]. split; [reflexivity|by exists s].
Defined.
