(* ===== verification/KnowledgeAccess.v ===== *)
(** Properties of the contexts of requests: what a context holds was verified,
    and the same claims make the same context. *)
From stdpp Require Import sorting.
From S2P Require Import Prelude PyDict PyStr PyVal PyJson KnowledgeContracts KnowledgeStore KnowledgeFacts.
From S2P Require Import KnowledgeTheorems.

(** * The order of the fields *)

Lemma fields_le_cons x a y b :
  fields_le (x :: a) (y :: b) = if bool_decide (x = y) then fields_le a b else String.leb x y.
Proof.
  simpl. unfold String.leb. case_bool_decide as E.
  - subst y. pose proof (String.compare_antisym x x) as C. by destruct (String.compare x x).
  - destruct (String.compare x y) eqn:C; [|done|done]. by apply String.compare_eq_iff in C.
Qed.

Lemma fields_le_total a b : fields_le a b = true \/ fields_le b a = true.
Proof.
  revert b. induction a as [|x a IH]; intros [|y b]; [by left|by left|by right|]. rewrite !fields_le_cons.
  case_bool_decide as E.
  - rewrite bool_decide_true by done. apply IH.
  - rewrite bool_decide_false by done. apply String.leb_total.
Qed.

Lemma fields_le_antisym a b : fields_le a b = true -> fields_le b a = true -> a = b.
Proof.
  revert b. induction a as [|x a IH]; intros [|y b]; [done|done|done|]. rewrite !fields_le_cons.
  case_bool_decide as E.
  - rewrite bool_decide_true by done. intros Ha Hb. subst y. f_equal. by apply IH.
  - rewrite bool_decide_false by done. intros Ha Hb. destruct E. by apply String.leb_antisym.
Qed.

Lemma fields_le_trans a b c : fields_le a b = true -> fields_le b c = true -> fields_le a c = true.
Proof.
  revert b c. induction a as [|x a IH]; intros [|y b] [|z c]; [done..|]. rewrite !fields_le_cons.
  case_bool_decide as E1; case_bool_decide as E2; case_bool_decide as E3; subst; try done.
  - by apply IH.
  - intros H1 H2. destruct E2. by apply String.leb_antisym.
  - by apply string_leb_trans.
Qed.

(** Two lists with the same elements have the same sorted set. *)
Lemma sorted_set_same {A} `{EqDecision A} (f : A -> list string) l l' :
  (forall x y, f x = f y -> x = y) -> (forall x, x ∈ l <-> x ∈ l') -> sorted_set f l = sorted_set f l'.
Proof.
  intros Hf Hl. unfold sorted_set. set (R := fun a b => Is_true (fields_le (f a) (f b))).
  assert (Htot : Total R).
  { intros a b. unfold R. destruct (fields_le_total (f a) (f b)) as [->| ->]; [by left|by right]. }
  assert (Htr : Transitive R).
  { intros a b c. unfold R. rewrite !Is_true_true. apply fields_le_trans. }
  assert (Has : AntiSymm (=) R).
  { intros a b. unfold R. rewrite !Is_true_true. intros. by apply Hf, fields_le_antisym. }
  apply (Sorted_unique R); [apply (Sorted_merge_sort R)|apply (Sorted_merge_sort R)|].
  rewrite !merge_sort_Permutation. apply NoDup_Permutation; [apply NoDup_remove_dups..|].
  intros x. by rewrite !elem_of_remove_dups.
Qed.

Lemma principal_fields_inj p q : principal_fields p = principal_fields q -> p = q.
Proof. destruct p, q. by intros [= -> ->]. Qed.
Lemma membership_fields_inj m n : membership_fields m = membership_fields n -> m = n.
Proof. destruct m, n. by intros [= -> -> -> ->]. Qed.
Lemma permission_fields_inj k l : permission_fields k = permission_fields l -> k = l.
Proof. destruct k, l. by intros [= -> -> ->]. Qed.

Lemma bind_ext {A B} (c : res A) (f g : A -> res B) : (forall a, f a = g a) -> c ≫= f = c ≫= g.
Proof. intros Hfg. by destruct c; [apply Hfg|]. Qed.

(** The order and the repetitions of principals, memberships and permissions
    make no difference to a context: two requests with the same claims have the
    same context, so the same hash, or the same refusal. *)
Theorem context_is_canonical subject tenant ps ps' ms ms' ks ks' mask :
  (forall p, p ∈ ps <-> p ∈ ps') -> (forall m, m ∈ ms <-> m ∈ ms') -> (forall k, k ∈ ks <-> k ∈ ks') ->
  create subject tenant ps ms ks mask = create subject tenant ps' ms' ks' mask.
Proof.
  intros Hp Hm Hk. unfold create. cbv zeta.
  rewrite (sorted_set_same membership_fields ms ms') by (auto using membership_fields_inj).
  rewrite (sorted_set_same permission_fields ks ks') by (auto using permission_fields_inj).
  assert (Hps : forall roles, sorted_set principal_fields (ps ++ roles) = sorted_set principal_fields (ps' ++ roles)).
  { intros roles. apply sorted_set_same; [apply principal_fields_inj|]. intros p. by rewrite !elem_of_app, Hp. }
  apply bind_ext. intros s. apply bind_ext. intros t. apply bind_ext. intros roles. by rewrite Hps.
Qed.

(** * What a context holds *)

(** The elements collected by a loop that adds the [Q x] of each item. *)
Lemma each_collects {A B Y} (elems : B -> Y -> Prop) (Q : A -> Y -> Prop) (f : A -> B -> res B) l acc acc' :
  (forall x b b', x ∈ l -> f x b = Ok b' -> forall y, elems b' y <-> elems b y \/ Q x y) ->
  each f l acc = Ok acc' -> forall y, elems acc' y <-> elems acc y \/ exists x, x ∈ l /\ Q x y.
Proof.
  revert acc. induction l as [|x l IH]; intros acc Hf E; simpl in E.
  - injection E as <-. intros y. split; [by left|]. intros [?|(x & Hx & _)]; [done|by apply not_elem_of_nil in Hx].
  - bind_inv E. intros y. rewrite (IH a) by (done || by intros; apply Hf; [by right|]).
    rewrite (Hf x acc a) by (done || by left). setoid_rewrite list.elem_of_cons. split.
    + intros [[?|?]|(x' & ? & ?)]; eauto.
    + intros [?|(x' & [->|?] & ?)]; eauto.
Qed.

Lemma each_all {A B} (P : A -> Prop) (f : A -> B -> res B) l acc acc' :
  (forall x b b', x ∈ l -> f x b = Ok b' -> P x) -> each f l acc = Ok acc' -> forall x, x ∈ l -> P x.
Proof.
  revert acc. induction l as [|x l IH]; intros acc Hf E; simpl in E; [by intros ? ?%not_elem_of_nil|].
  bind_inv E. intros y [->|Hy]%list.elem_of_cons; [by eapply Hf; [left|]|].
  eapply IH; [|exact E|exact Hy]. intros z b b' Hz. apply Hf. by right.
Qed.

(** A request asks for an identifier: it lists it, spaces aside. *)
Definition asked (l : list string) (i : string) : Prop := i <> "" /\ exists x, x ∈ l /\ i = strip x.

Lemma elem_of_stripped_set l i : i ∈ stripped_set l <-> asked l i.
Proof.
  unfold stripped_set, asked. rewrite list_elem_of_In, filter_In, in_map_iff, negb_true_iff, bool_decide_eq_false.
  split; [intros [(x & <- & Hx) Hn]|intros [Hn (x & Hx & ->)]]; (split; [|]); try done.
  - exists x. by rewrite list_elem_of_In.
  - exists x. by rewrite <- list_elem_of_In.
Qed.
Lemma elem_of_requested l i : i ∈ requested l <-> asked l i.
Proof. unfold requested. rewrite elem_of_sorted_set. apply elem_of_stripped_set. Qed.

Lemma asked_strip l i : asked l i -> strip i = i.
Proof. intros (_ & x & _ & ->). apply strip_idem. Qed.
Lemma strip_text_of v : strip (text_of v) = text_of v.
Proof. apply strip_idem. Qed.

Lemma new_membership_inv t i r v m :
  new_ScopeMembership t i r v = Ok m -> m = mkMembership (strip t) (strip i) (strip r) (strip v).
Proof.
  unfold new_ScopeMembership. intros E. repeat (bind_inv E). injection E as <-.
  repeat match goal with H : _required_token _ _ = Ok _ |- _ => apply required_token_strip in H; subst end. done.
Qed.

Lemma new_permission_inv n t i k : new_KnowledgePermission n t i = Ok k -> k = mkPermission (strip n) (strip t) (strip i).
Proof.
  unfold new_KnowledgePermission. intros E. repeat (bind_inv E). injection E as <-.
  repeat match goal with H : _required_token _ _ = Ok _ |- _ => apply required_token_strip in H; subst end. done.
Qed.

(** A claim lists an item. *)
Definition lists (claims : pyval) (raw : dict pyval) : Prop := exists l, claims = PList l /\ PDict raw ∈ l.

Lemma elem_of_mapping_items claims raw : raw ∈ _mapping_items claims <-> lists claims raw.
Proof.
  unfold lists. destruct claims as [| | | | |l|]; simpl;
    try (split; [by intros ?%not_elem_of_nil|by intros (? & [=] & _)]).
  rewrite list_elem_of_omap. split.
  - intros (v & Hv & E). exists l. destruct v; try done. by injection E as ->.
  - intros (? & [= <-] & Hin). by exists (PDict raw).
Qed.

(** What an owner may do in a scope. *)
Definition owner_names : list string :=
  ["knowledge.read"; "knowledge.read_all_scope"; "knowledge.manage_acl"; "knowledge.project"].
Definition owner_may (t i : string) (k : KnowledgePermission) : Prop :=
  k_scope_type k = t /\ k_scope_id k = i /\ k_name k ∈ owner_names.

Lemma owner_permissions_spec t i ks : strip t = t -> strip i = i ->
  _owner_permissions t i = Ok ks -> forall k, k ∈ ks <-> owner_may t i k.
Proof.
  intros Ht Hi Hs%seq_res_Forall2.
  assert (ks = map (fun n => mkPermission n t i) owner_names) as ->.
  { unfold _PERMISSIONS in Hs. repeat (apply Forall2_cons_inv_l in Hs as (? & ? & E & Hs & ->); apply new_permission_inv in E as ->).
    apply Forall2_nil_inv_l in Hs as ->. by rewrite Ht, Hi. }
  intros k. unfold owner_may. rewrite list_elem_of_In, in_map_iff. split.
  - intros (n & <- & Hn). by rewrite list_elem_of_In.
  - intros (<- & <- & Hn). exists (k_name k). rewrite <- list_elem_of_In. by destruct k.
Qed.

Section verified.
Context `{Directory} (a : auth) (wids gids : list string).

(** The scopes a request names, and those the subject may name: in the local
    mode the ones it owns in the stores, in the cloud mode the ones its verified
    identity lists. *)
Definition wanted (t i : string) : Prop := (t = "workspace" /\ asked wids i) \/ (t = "group" /\ asked gids i).

Definition owns_workspace (i : string) (w : workspace_info) : Prop :=
  workspace_lookup i = Some w /\ wi_owner_user_id w = strip (au_user_id a).
Definition owns_group (i : string) (g : group_info) : Prop :=
  group_lookup i = Some g /\ gi_owner_user_id g = strip (au_user_id a).

Definition may_name (t i : string) : Prop :=
  if au_cloud_mode a then asked (if bool_decide (t = "workspace") then au_workspace_ids a else au_group_ids a) i
  else if bool_decide (t = "workspace") then exists w, owns_workspace i w else exists g, owns_group i g.

(** The membership and the permission a claim of the identity stands for. *)
Definition claimed_membership (raw : dict pyval) : ScopeMembership :=
  mkMembership (text_of (pget "scope_type" raw)) (text_of (py_or (pget "scope_id" raw) (pget "id" raw)))
    (text_of (pget "role" raw)) (text_of (pget "revision" raw)).
Definition claimed_permission (raw : dict pyval) : KnowledgePermission :=
  mkPermission (text_of (pget "name" raw)) (text_of (pget "scope_type" raw)) (text_of (pget "scope_id" raw)).

(** What owning a scope gives: the membership of its owner, at its revision. *)
Definition owner_of_workspace (i : string) (m : ScopeMembership) : Prop :=
  exists w revision, owns_workspace i w
    /\ workspace_authorization_revision (wi_id w) (wi_owner_user_id w) (wi_visibility w) = Ok revision
    /\ m = mkMembership "workspace" i "owner" (strip revision).
Definition owner_of_group (i : string) (m : ScopeMembership) : Prop :=
  exists g, owns_group i g /\ m = mkMembership "group" i "owner" (strip (gi_revision g)).

(** The memberships a context is due: in the cloud mode the claimed ones of a
    requested scope that name a role and a revision, in the local mode the
    owner's of each requested scope. *)
Definition due_membership (m : ScopeMembership) : Prop :=
  if au_cloud_mode a then
    wanted (m_scope_type m) (m_scope_id m) /\ m_role m <> "" /\ m_revision m <> ""
    /\ exists raw, (lists (au_workspace_memberships a) raw \/ lists (au_group_memberships a) raw)
         /\ m = claimed_membership raw
  else
    (exists i, asked wids i /\ owner_of_workspace i m) \/ (exists i, asked gids i /\ owner_of_group i m).

Definition due_permission (k : KnowledgePermission) : Prop :=
  wanted (k_scope_type k) (k_scope_id k)
  /\ if au_cloud_mode a
     then k_name k <> "" /\ exists raw, lists (au_knowledge_permissions a) raw /\ k = claimed_permission raw
     else k_name k ∈ owner_names.

(** ** The local mode *)

Lemma local_workspace_step subject i acc acc' : strip i = i -> local_workspace subject i acc = Ok acc' ->
  exists w revision, workspace_lookup i = Some w /\ wi_owner_user_id w = subject
    /\ workspace_authorization_revision (wi_id w) (wi_owner_user_id w) (wi_visibility w) = Ok revision
    /\ acc'.1 = acc.1 ++ [mkMembership "workspace" i "owner" (strip revision)]
    /\ forall k, k ∈ acc'.2 <-> k ∈ acc.2 \/ owner_may "workspace" i k.
Proof.
  intros Hi E. unfold local_workspace in E. destruct (workspace_lookup i) as [w|]; [|done].
  destruct (negb _) eqn:Ho; [done|]. apply negb_false_iff, bool_decide_eq_true in Ho.
  bind_inv E. bind_inv E. bind_inv E. injection E as <-. exists w, a0. split; [done|]. split; [done|]. split.
  - by destruct (workspace_authorization_revision _ _ _) as [r|[]].
  - apply new_membership_inv in Ha0 as ->. rewrite Hi. split; [done|]. intros k. simpl.
    rewrite elem_of_app. by rewrite (owner_permissions_spec _ _ _ eq_refl Hi Ha1).
Qed.

Lemma local_group_step subject i acc acc' : strip i = i -> local_group subject i acc = Ok acc' ->
  exists g, group_lookup i = Some g /\ gi_owner_user_id g = subject
    /\ acc'.1 = acc.1 ++ [mkMembership "group" i "owner" (strip (gi_revision g))]
    /\ forall k, k ∈ acc'.2 <-> k ∈ acc.2 \/ owner_may "group" i k.
Proof.
  intros Hi E. unfold local_group in E. destruct (group_lookup i) as [g|]; [|done].
  destruct (negb _) eqn:Ho; [done|]. apply negb_false_iff, bool_decide_eq_true in Ho.
  destruct (bool_decide (strip _ = "")); [done|]. bind_inv E. bind_inv E. injection E as <-. exists g.
  split; [done|]. split; [done|]. apply new_membership_inv in Ha as ->. rewrite Hi, strip_idem. split; [done|]. intros k. simpl.
  rewrite elem_of_app. by rewrite (owner_permissions_spec _ _ _ eq_refl Hi Ha0).
Qed.

(** The loops over the requested workspaces and groups. *)
Lemma local_workspaces_spec acc acc' : each (local_workspace (strip (au_user_id a))) (requested wids) acc = Ok acc' ->
  (forall i, asked wids i -> exists w, owns_workspace i w)
  /\ (forall m, m ∈ acc'.1 <-> m ∈ acc.1 \/ exists i, asked wids i /\ owner_of_workspace i m)
  /\ (forall k, k ∈ acc'.2 <-> k ∈ acc.2 \/ exists i, asked wids i /\ owner_may "workspace" i k).
Proof.
  intros E. setoid_rewrite <- elem_of_requested. set (user := strip (au_user_id a)) in *.
  assert (Hs : forall i, i ∈ requested wids -> strip i = i)
    by (intros i Hi; eapply asked_strip, elem_of_requested, Hi).
  split; [|split].
  - eapply each_all; [|exact E]. intros i b b' Hi Eb.
    destruct (local_workspace_step _ _ _ _ (Hs i Hi) Eb) as (w & _ & ? & ? & _). by exists w.
  - apply (each_collects (fun acc m => m ∈ acc.1) owner_of_workspace _ _ _ _) with (2 := E). intros i b b' Hi Eb m.
    destruct (local_workspace_step _ _ _ _ (Hs i Hi) Eb) as (w & r & Hl & Ho & Hr & -> & _).
    rewrite elem_of_app, list_elem_of_singleton. unfold owner_of_workspace, owns_workspace.
    split; (intros [?|Hm]; [by left|right]); [by exists w, r|].
    destruct Hm as (w' & r' & [Hl' _] & Hr' & ->). congruence.
  - apply (each_collects (fun acc k => k ∈ acc.2) (owner_may "workspace") _ _ _ _) with (2 := E). intros i b b' Hi Eb k.
    by destruct (local_workspace_step _ _ _ _ (Hs i Hi) Eb) as (_ & _ & _ & _ & _ & _ & Hk).
Qed.

Lemma local_groups_spec acc acc' : each (local_group (strip (au_user_id a))) (requested gids) acc = Ok acc' ->
  (forall i, asked gids i -> exists g, owns_group i g)
  /\ (forall m, m ∈ acc'.1 <-> m ∈ acc.1 \/ exists i, asked gids i /\ owner_of_group i m)
  /\ (forall k, k ∈ acc'.2 <-> k ∈ acc.2 \/ exists i, asked gids i /\ owner_may "group" i k).
Proof.
  intros E. setoid_rewrite <- elem_of_requested. set (user := strip (au_user_id a)) in *.
  assert (Hs : forall i, i ∈ requested gids -> strip i = i)
    by (intros i Hi; eapply asked_strip, elem_of_requested, Hi).
  split; [|split].
  - eapply each_all; [|exact E]. intros i b b' Hi Eb.
    destruct (local_group_step _ _ _ _ (Hs i Hi) Eb) as (g & ? & ? & _). by exists g.
  - apply (each_collects (fun acc m => m ∈ acc.1) owner_of_group _ _ _ _) with (2 := E). intros i b b' Hi Eb m.
    destruct (local_group_step _ _ _ _ (Hs i Hi) Eb) as (g & Hl & Ho & -> & _).
    rewrite elem_of_app, list_elem_of_singleton. unfold owner_of_group, owns_group.
    split; (intros [?|Hm]; [by left|right]); [by exists g|].
    destruct Hm as (g' & [Hl' _] & ->). congruence.
  - apply (each_collects (fun acc k => k ∈ acc.2) (owner_may "group") _ _ _ _) with (2 := E). intros i b b' Hi Eb k.
    by destruct (local_group_step _ _ _ _ (Hs i Hi) Eb) as (_ & _ & _ & _ & Hk).
Qed.

Definition scopes_ok (acc : scope_result) : Prop :=
  (forall t i, wanted t i -> may_name t i)
  /\ (forall m, m ∈ acc.1 <-> due_membership m) /\ (forall k, k ∈ acc.2 <-> due_permission k).

Lemma local_spec acc : au_cloud_mode a = false ->
  _build_local_scope (strip (au_user_id a)) (requested wids) (requested gids) = Ok acc -> scopes_ok acc.
Proof.
  intros Hc E. unfold _build_local_scope in E. bind_inv E.
  apply local_workspaces_spec in Ha as (Hw & Hwm & Hwk). apply local_groups_spec in E as (Hg & Hgm & Hgk).
  unfold scopes_ok, may_name, due_membership, due_permission, wanted. rewrite Hc. split; [|split].
  - intros t i [[-> Hi]|[-> Hi]]; [rewrite bool_decide_true by done|rewrite bool_decide_false by done]; auto.
  - intros m. rewrite Hgm, Hwm. split; [intros [[?%not_elem_of_nil|?]|?]|intros [?|?]]; auto. done.
  - intros k. rewrite Hgk, Hwk. unfold owner_may. split.
    + intros [[?%not_elem_of_nil|(i & ? & <- & <- & ?)]|(i & ? & <- & <- & ?)]; [done|auto|auto].
    + intros [[[Ht Hi]|[Ht Hi]] Hn]; [left; right|right]; eauto 6.
Qed.

(** ** The cloud mode *)

Lemma elem_of_wanted t i :
  (t, i) ∈ map (fun w => ("workspace", w)) (requested wids) ++ map (fun g => ("group", g)) (requested gids)
  <-> wanted t i.
Proof.
  unfold wanted. rewrite <- !elem_of_requested, elem_of_app, !list_elem_of_In, !in_map_iff. split.
  - intros [(x & [= <- <-] & ?)|(x & [= <- <-] & ?)]; auto.
  - intros [[-> ?]|[-> ?]]; [left|right]; by exists i.
Qed.

Lemma forallb_listed l l' : forallb (fun w => member w (stripped_set l')) (requested l) = true ->
  forall i, asked l i -> asked l' i.
Proof.
  intros Hf i Hi%elem_of_requested. rewrite forallb_forall in Hf. apply elem_of_stripped_set.
  apply (bool_decide_unpack _), Is_true_true, Hf. by apply list_elem_of_In.
Qed.

Definition counts_as (raw : dict pyval) (m : ScopeMembership) : Prop :=
  wanted (m_scope_type m) (m_scope_id m) /\ m_role m <> "" /\ m_revision m <> "" /\ m = claimed_membership raw.
Definition permits (raw : dict pyval) (k : KnowledgePermission) : Prop :=
  wanted (k_scope_type k) (k_scope_id k) /\ k_name k <> "" /\ k = claimed_permission raw.

Notation scopes := (map (fun w => ("workspace", w)) (requested wids) ++ map (fun g => ("group", g)) (requested gids)).

Lemma cloud_membership_step raw ms ms' : cloud_membership scopes raw ms = Ok ms' ->
  forall m, m ∈ ms' <-> m ∈ ms \/ counts_as raw m.
Proof.
  unfold cloud_membership, counts_as, member. intros E m. destruct (negb _) eqn:Hin.
  { injection E as <-. apply negb_true_iff, bool_decide_eq_false in Hin. rewrite elem_of_wanted in Hin.
    split; [by left|]. intros [?|(Hw & _ & _ & ->)]; done. }
  apply negb_false_iff, bool_decide_eq_true, elem_of_wanted in Hin.
  destruct (_ || _) eqn:Hne.
  { injection E as <-. split; [by left|]. intros [?|(_ & Hr & Hv & ->)]; [done|].
    apply orb_true_iff in Hne as [Hne%bool_decide_eq_true|Hne%bool_decide_eq_true]; done. }
  bind_inv E. injection E as <-. apply new_membership_inv in Ha as ->. rewrite !strip_text_of.
  apply orb_false_iff in Hne as [Hr%bool_decide_eq_false Hv%bool_decide_eq_false].
  rewrite elem_of_app, list_elem_of_singleton. split; (intros [?|Hm]; [by left|right]); [by subst m|apply Hm].
Qed.

Lemma cloud_permission_step raw ks ks' : cloud_permission scopes raw ks = Ok ks' ->
  forall k, k ∈ ks' <-> k ∈ ks \/ permits raw k.
Proof.
  unfold cloud_permission, permits, member. intros E k. destruct (negb _) eqn:Hin.
  { injection E as <-. apply negb_true_iff, bool_decide_eq_false in Hin. rewrite elem_of_wanted in Hin.
    split; [by left|]. intros [?|(Hw & _ & ->)]; done. }
  apply negb_false_iff, bool_decide_eq_true, elem_of_wanted in Hin.
  destruct (bool_decide _) eqn:Hne.
  { injection E as <-. split; [by left|]. intros [?|(_ & Hn & ->)]; [done|]. by apply bool_decide_eq_true in Hne. }
  bind_inv E. injection E as <-. apply new_permission_inv in Ha as ->. rewrite !strip_text_of.
  apply bool_decide_eq_false in Hne.
  rewrite elem_of_app, list_elem_of_singleton. split; (intros [?|Hk]; [by left|right]); [by subst k|apply Hk].
Qed.

Lemma cloud_spec acc : au_cloud_mode a = true ->
  _build_cloud_scope a (requested wids) (requested gids) = Ok acc -> scopes_ok acc.
Proof.
  intros Hc E. unfold _build_cloud_scope in E. destruct (negb (forallb _ (requested wids))) eqn:Hw; [done|].
  destruct (negb (forallb _ (requested gids))) eqn:Hg; [done|]. bind_inv E. bind_inv E. injection E as <-.
  apply negb_false_iff in Hw. apply negb_false_iff in Hg.
  unfold scopes_ok, may_name, due_membership, due_permission. rewrite Hc. split; [|split]; simpl.
  - intros t i [[-> Hi]|[-> Hi]]; [rewrite bool_decide_true by done|rewrite bool_decide_false by done];
      by eapply forallb_listed.
  - intros m. rewrite (each_collects (fun ms m => m ∈ ms) counts_as _ _ _ _
      (fun raw b b' _ Eb => cloud_membership_step raw b b' Eb) Ha). unfold counts_as.
    setoid_rewrite elem_of_app. setoid_rewrite elem_of_mapping_items. rewrite list.elem_of_nil. naive_solver.
  - intros k. rewrite (each_collects (fun ks k => k ∈ ks) permits _ _ _ _
      (fun raw b b' _ Eb => cloud_permission_step raw b b' Eb) Ha0). unfold permits.
    setoid_rewrite elem_of_mapping_items. rewrite list.elem_of_nil. naive_solver.
Qed.

(** ** The context *)

(** The role of a membership among the principals. *)
Definition role_principal (m : ScopeMembership) : PrincipalRef :=
  mkPrincipalRef (m_scope_type m +:+ "_role") (strip (m_scope_id m +:+ ":" +:+ m_role m)).

Lemma new_principal_inv t i q : new_PrincipalRef t i = Ok q -> q = mkPrincipalRef (strip t) (strip i).
Proof.
  intros Hq. unfold new_PrincipalRef in Hq. repeat (bind_inv Hq). injection Hq as <-.
  repeat match goal with H : _required_token _ _ = Ok _ |- _ => apply required_token_strip in H; subst end. done.
Qed.

Lemma principal_inv m q : principal m = Ok q -> q = role_principal m.
Proof.
  unfold principal, role_principal. intros E.
  case_bool_decide as Hw; [rewrite Hw; by apply new_principal_inv in E|].
  case_bool_decide as Hg; [rewrite Hg; by apply new_principal_inv in E|done].
Qed.

Lemma create_inv subject tenant ps ms ks mask c :
  create subject tenant ps ms ks mask = Ok c ->
  subject_user_id c = strip subject /\ tenant_id c = strip tenant /\ agent_mask c = mask
  /\ (forall m, m ∈ memberships c <-> m ∈ ms) /\ (forall k, k ∈ permissions c <-> k ∈ ks)
  /\ (forall p, p ∈ principals c <-> p ∈ ps \/ exists m, m ∈ ms /\ has_principal m = true /\ p = role_principal m).
Proof.
  unfold create. intros E. bind_inv E. bind_inv E. bind_inv E. bind_inv E. destruct (negb _); [done|]. bind_inv E.
  injection E as <-. simpl. repeat match goal with H : _required_token _ _ = Ok _ |- _ => apply required_token_strip in H; subst end.
  split; [done|]. split; [done|]. split; [done|]. split; [intros m; apply elem_of_sorted_set|].
  split; [intros k; apply elem_of_sorted_set|]. intros p. rewrite elem_of_sorted_set, elem_of_app.
  apply seq_res_Forall2 in Ha1.
  assert (Hroles : forall m, m ∈ List.filter has_principal (sorted_set membership_fields ms) <-> m ∈ ms /\ has_principal m = true)
    by (intros m; by rewrite list_elem_of_In, filter_In, <- list_elem_of_In, elem_of_sorted_set).
  split; (intros [?|Hp]; [by left|right]).
  - apply list_elem_of_lookup in Hp as [n Hn]. destruct (Forall2_lookup_r _ _ _ _ _ Ha1 Hn) as (m & Hm & Hpm).
    apply list_elem_of_lookup_2, Hroles in Hm as [? ?]. apply principal_inv in Hpm. by exists m.
  - destruct Hp as (m & Hm & Hpr & ->). assert (Hin := conj Hm Hpr). apply Hroles in Hin.
    apply list_elem_of_lookup in Hin as [n Hn]. destruct (Forall2_lookup_l _ _ _ _ _ Ha1 Hn) as (q & Hq & Hpm).
    apply principal_inv in Hpm as ->. by eapply list_elem_of_lookup_2.
Qed.

Lemma services_spec service ps :
  match service with
  | Some s => if bool_decide (s = "") then Ok [] else p ← new_PrincipalRef "service" s; Ok [p]
  | None => Ok []
  end = Ok ps -> forall p, p ∈ ps <-> exists s, service = Some s /\ s <> "" /\ p = mkPrincipalRef "service" (strip s).
Proof.
  intros E p. destruct service as [s|]; [|injection E as <-; rewrite list.elem_of_nil; naive_solver].
  case_bool_decide as Es; [injection E as <-; rewrite list.elem_of_nil; naive_solver|].
  bind_inv E. injection E as <-. apply new_principal_inv in Ha as ->. rewrite list_elem_of_singleton. naive_solver.
Qed.

Lemma due_has_principal m : due_membership m -> has_principal m = true.
Proof.
  unfold due_membership, owner_of_workspace, owner_of_group, wanted, has_principal, member. rewrite bool_decide_eq_true.
  destruct (au_cloud_mode a).
  - intros ([[-> _]|[-> _]] & _); set_solver.
  - intros [(i & _ & w & r & _ & _ & ->)|(i & _ & g & _ & ->)]; simpl; set_solver.
Qed.

(** C28: the context of a request holds exactly what was verified. It is of the
    subject and tenant of the identity, and is refused unless the subject may
    name every requested scope: it owns it in the stores or, in the cloud mode,
    its identity lists it. Its memberships are those that are due, with scope,
    role and revision: in the cloud mode the ones the identity claims for a
    requested scope with a role and a revision, in the local mode the owner's at
    the revision of the stored row. Its permissions are the ones the identity
    claims for a requested scope, in the local mode the four of an owner. Its
    principals are the subject, the trusted service, and the roles of exactly
    these memberships. *)
Theorem context_is_verified mask service c :
  build a wids gids mask service = Ok c ->
  subject_user_id c = strip (au_user_id a) /\ tenant_id c = strip (au_tenant_id a)
  /\ (forall t i, wanted t i -> may_name t i)
  /\ (forall m, m ∈ memberships c <-> due_membership m)
  /\ (forall k, k ∈ permissions c <-> due_permission k)
  /\ forall p, p ∈ principals c <->
       p = mkPrincipalRef "user" (strip (au_user_id a))
       \/ (exists s, service = Some s /\ s <> "" /\ p = mkPrincipalRef "service" (strip s))
       \/ exists m, due_membership m /\ p = role_principal m.
Proof.
  unfold build. destruct (_ || _); [done|]. intros E. bind_inv E. bind_inv E. bind_inv E. bind_inv E.
  apply create_inv in E as (Hs & Ht & _ & Hm & Hk & Hp). rewrite strip_idem in Hs, Ht.
  assert (Hv : scopes_ok a2) by (destruct (au_cloud_mode a) eqn:Hc; [by apply cloud_spec|by apply local_spec]).
  destruct Hv as (Hmay & Hvm & Hvk). split; [done|]. split; [done|]. split; [done|].
  split; [intros m; by rewrite Hm|]. split; [intros k; by rewrite Hk|].
  intros p. rewrite Hp, list.elem_of_cons, (services_spec _ _ Ha0). apply new_principal_inv in Ha as ->.
  rewrite strip_idem. setoid_rewrite Hvm. pose proof due_has_principal. naive_solver.
Qed.
End verified.

(** * On the sample *)

Lemma context_is_canonical_witness :
  create "alice" "local" [mkPrincipalRef "user" "alice"; mkPrincipalRef "user" "alice"] []
    [mkPermission "knowledge.read" "workspace" "w2"; mkPermission "knowledge.read" "workspace" "w1"] None
  = create "alice" "local" [mkPrincipalRef "user" "alice"] []
      [mkPermission "knowledge.read" "workspace" "w1"; mkPermission "knowledge.read" "workspace" "w2"] None.
Proof.
  apply context_is_canonical; intros x; rewrite ?list.elem_of_cons, ?not_elem_of_nil; tauto.
Defined.

#[local] Instance directory1 : Directory := {|
  workspace_lookup := fun id => if bool_decide (id = "w1") then Some (mkWorkspaceInfo "w1" "alice" "private") else None;
  group_lookup := fun _ => None |}.
Definition alice_auth : auth := mkAuth " alice" "local" false [] [] PNone PNone PNone.
Definition alice_context : RetrievalAccessContext :=
  match build alice_auth ["w1"; ""] [] None None with
  | Ok c => c
  | Raise _ => mkAccess "" "" [] [] [] "" None
  end.

(** A member of a workspace in the cloud, who claims a role in another one too:
    the claim that was not asked for does not count. *)
Definition claim (t i role : string) : pyval :=
  PDict [("scope_type", PStr t); ("scope_id", PStr i); ("role", PStr role); ("revision", PStr "r7")].
Definition cloud_auth : auth :=
  mkAuth "bob" "acme" true ["w1"; "w2"] [] (PList [claim "workspace" "w1" " viewer"; claim "workspace" "w2" "owner"])
    PNone PNone.
Definition bob_context : RetrievalAccessContext :=
  match build cloud_auth ["w1"] [] None None with
  | Ok c => c
  | Raise _ => mkAccess "" "" [] [] [] "" None
  end.

Lemma context_is_verified_witness :
  (forall m, m ∈ memberships alice_context <-> due_membership alice_auth ["w1"; ""] [] m)
  /\ (forall m, m ∈ memberships bob_context <-> due_membership cloud_auth ["w1"] [] m)
  /\ memberships bob_context = [mkMembership "workspace" "w1" "viewer" "r7"]
  /\ map m_role (memberships alice_context) = ["owner"].
Proof.
  destruct (context_is_verified alice_auth ["w1"; ""] [] None None alice_context) as (_ & _ & _ & Ha & _); [by vm_compute|].
  destruct (context_is_verified cloud_auth ["w1"] [] None None bob_context) as (_ & _ & _ & Hb & _); [by vm_compute|].
  split; [exact Ha|]. split; [exact Hb|]. by vm_compute.
Defined.
