(* ===== verification/OwnerReceipts.v ===== *)
(** Owner decision receipts (workflow/durable_state/runtime_owner_receipts.py):
    the verification of one signed receipt against a pinned registry of trusted
    keys, and what a verified receipt is known to satisfy ([trusted]).

    Receipts and registries are JSON values; every lookup is the subscript of
    the code, so what the schemas promise is nowhere assumed. *)
From Stdlib Require Import SpecFloat.
From S2P Require Import Prelude PyDict PyStr PyVal PyJson PyTime Canonical.

Definition RuntimeOwnerReceiptError (code : string) : exn := OtherError "RuntimeOwnerReceiptError" code.

(** * Operations of the language on JSON values *)

(** [x + 1], with the rounding of binary64. *)
Definition flval_of (x : spec_float) : flval :=
  match x with
  | S754_zero _ => FFin 0 0
  | S754_infinity s => FInf s
  | S754_nan => FNaN
  | S754_finite s m e => FFin (if s then Z.neg m else Z.pos m) e
  end.
Definition plus_one (f : flval) : flval :=
  match f with
  | FFin m e =>
      if m =? 0 then FFin 1 0
      else let lo := Z.min e 0 in
           flval_of (binary_normalize 53 1024 (m * 2 ^ (e - lo) + 2 ^ (- lo)) lo false)
  | f => f
  end.
(** The sum of a float is only compared, so it carries no text. *)
Definition py_plus_one (v : pyval) : res pyval :=
  match v with
  | PInt z => Ok (PInt (z + 1))
  | PBool b => Ok (PInt (if b then 2 else 1))
  | PFloat f => Ok (PFloat {| fl_val := plus_one (fl_val f); fl_repr := "" |})
  | _ => Raise (TypeError "unsupported operand type(s) for +")
  end.

(** [base64.b64decode(v, validate=True)] *)
Definition b64_val (c : ascii) : option N :=
  let n := code c in
  if ((65 <=? n) && (n <=? 90))%N then Some (n - 65)%N
  else if ((97 <=? n) && (n <=? 122))%N then Some (n - 71)%N
  else if ((48 <=? n) && (n <=? 57))%N then Some (n + 4)%N
  else if (n =? 43)%N then Some 62%N else if (n =? 47)%N then Some 63%N else None.
Fixpoint b64_quads (l : list ascii) : option (list N) :=
  match l with
  | [] => Some []
  | a :: b :: c :: d :: r =>
      x ← b64_val a; y ← b64_val b;
      let first := (4 * x + y / 16)%N in
      if bool_decide (r = []) && bool_decide (d = "="%char)
      then if bool_decide (c = "="%char) then Some [first]
           else z ← b64_val c; Some [first; (16 * (y mod 16) + z / 4)%N]
      else
      z ← b64_val c; w ← b64_val d; rest ← b64_quads r;
      Some (first :: (16 * (y mod 16) + z / 4)%N :: (64 * (z mod 4) + w)%N :: rest)
  | _ => None
  end.
Definition b64decode (v : pyval) : res (list N) :=
  match v with
  | PStr s => match b64_quads (String.list_ascii_of_string s) with
              | Some bs => Ok bs
              | None => Raise (ValueError "invalid base64")
              end
  | _ => Raise (TypeError "argument should be a bytes-like object or ASCII string")
  end.

Example b64_ex :
  b64decode (PStr "TWFu") = Ok [77; 97; 110]%N /\ b64decode (PStr "TWE=") = Ok [77; 97]%N
  /\ b64decode (PStr "TQ==") = Ok [77]%N /\ b64decode (PStr "TWE") = Raise (ValueError "invalid base64")
  /\ b64decode (PStr "TQ==TWFu") = Raise (ValueError "invalid base64") /\ b64decode (PStr "") = Ok [].
Proof. by vm_compute. Qed.

(** * The verifier *)

(** The JSON Schema validator, the reader of ISO datetimes (the instant, and
    whether the text names a timezone) and Ed25519. *)
Class OwnerPlatform : Type := {
  validate_contract : string -> pyval -> bool;
  fromisoformat : string -> option (Z * bool);
  ed25519_verify : list N -> list N -> list N -> bool;   (** key, signature, message *)
}.

(** What the schemas of the two contracts promise of a document they admit
    (contracts/v1/schemas): the texts that are read of it are not empty, and the
    revisions of a policy change are integers. *)
Definition text_entry (k : string) (d : dict pyval) : Prop := exists s, pitem k d = Ok (PStr s) /\ s <> "".
Definition integer_entry (k : string) (v : pyval) : Prop :=
  exists x z, py_sub k v = Ok x /\ py_int x = Ok z /\ 0 <= z /\ py_eq x (PInt z) = true.

Class OwnerLaws `{OwnerPlatform} : Prop := {
  receipt_texts : forall receipt k, validate_contract "runtime_owner_decision_receipt" (PDict receipt) = true ->
    k ∈ ["receipt_id"; "receipt_type"; "owner_id"; "key_id"; "signature"] -> text_entry k receipt;
  receipt_revisions : forall receipt payload,
    validate_contract "runtime_owner_decision_receipt" (PDict receipt) = true ->
    pitem "receipt_type" receipt = Ok (PStr "durable_release_policy_cas") -> pitem "payload" receipt = Ok payload ->
    integer_entry "expected_revision" payload /\ integer_entry "target_revision" payload;
  registry_texts : forall registry,
    validate_contract "runtime_owner_trusted_keys" (PDict registry) = true -> text_entry "registry_revision" registry;
}.

(** A datetime of the caller. *)
Record clock : Type := mkClock { c_time : Z; c_aware : bool }.

Definition MAX_FUTURE_SKEW : Z := 300 * MICROS.
Definition MAX_RECEIPT_BYTES : Z := 65536.
Definition MAX_REGISTRY_BYTES : Z := 4194304.

Definition POLICY_TRANSITIONS : list (string * string) :=
  [("absent", "shadow"); ("disabled", "shadow"); ("shadow", "enforced"); ("shadow", "disabled");
   ("enforced", "shadow"); ("enforced", "disabled")].
Definition POLICY_MODE_AUTHORIZATION_SCOPE : dict string :=
  [("shadow", "durable_workflow:shadow"); ("enforced", "durable_workflow:enforced");
   ("disabled", "durable_workflow:disable")].
Definition RPO_DATA_CLASSES : list string :=
  ["ledger_metadata"; "object_evidence"; "signing_verification_material"; "contract_mirror_registry"; "projection"].

Record VerifiedOwnerDecision : Type := mkVerified {
  v_receipt : dict pyval;
  v_receipt_sha256 : string;
  v_registry_revision : string;
  v_registry_sha256 : string;
  v_checked_at : Z;
}.
(** The properties [receipt_id], [receipt_type], [owner_id] and [key_id]. *)
Definition receipt_text (k : string) (v : VerifiedOwnerDecision) : res string :=
  x ← pitem k (v_receipt v); Ok (py_str x).

Definition demand (ok : bool) (code : string) : res unit :=
  if ok then Ok tt else Raise (RuntimeOwnerReceiptError code).

(** [exact] and [exact_matches]: the first entry that does not hold raises. *)
Fixpoint demand_all (fail : string -> exn) (checks : list (string * bool)) : res unit :=
  match checks with
  | [] => Ok tt
  | (code, ok) :: r => if ok : bool then demand_all fail r else Raise (fail code)
  end.

Section verifier.
Context `{OwnerPlatform}.

Definition _timestamp (value : pyval) (field : string) : res Z :=
  match value with
  | PStr s =>
      match fromisoformat (replace "Z" "+00:00" s) with
      | Some (t, true) => Ok t
      | Some (_, false) => Raise (RuntimeOwnerReceiptError (field +:+ "_timezone_required"))
      | None => Raise (RuntimeOwnerReceiptError (field +:+ "_invalid"))
      end
  | _ => Raise (RuntimeOwnerReceiptError (field +:+ "_invalid"))
  end.

Definition _canonical_sha256 (value : pyval) (max_bytes : Z) : res string :=
  bs ← encode_max max_bytes value; Ok (Sha256.hexdigest bs).

(** The window and the revocation of one key. *)
Definition key_window (key : pyval) : res unit :=
  nb ← py_sub "not_before" key; not_before ← _timestamp nb "key_not_before";
  na ← py_sub "not_after" key; not_after ← _timestamp na "key_not_after";
  _ ← demand (not_before <? not_after) "trusted_key_validity_window_invalid";
  rv ← py_sub "revoked_at" key;
  match rv with
  | PNone => Ok tt
  | _ => revoked_at ← _timestamp rv "revoked_at";
         demand (not_before <=? revoked_at) "trusted_key_revocation_before_validity"
  end.

Definition _validate_registry (registry : dict pyval) : res unit :=
  ks ← pitem "keys" registry;
  ks ← py_iter ks;
  ids ← seq_res (map (py_sub "key_id") ks);
  prints ← seq_res (map (py_sub "fingerprint_sha256") ks);
  unique ← py_distinct ids;
  _ ← demand unique "trusted_key_id_duplicate";
  unique ← py_distinct prints;
  _ ← demand unique "trusted_key_fingerprint_duplicate";
  _ ← seq_res (map key_window ks);
  Ok tt.

Definition _trusted_key (receipt registry : dict pyval) : res pyval :=
  ks ← pitem "keys" registry;
  ks ← py_iter ks;
  matches ← seq_res (map (fun item =>
    id ← py_sub "key_id" item; id' ← pitem "key_id" receipt; Ok (item, py_eq id id')) ks);
  match map fst (List.filter snd matches) with
  | [key] =>
      let same k k' := x ← py_sub k key; y ← pitem k' receipt; Ok (py_eq x y) in
      owner ← same "owner_id" "owner_id";
      role ← same "owner_role" "owner_role";
      print ← same "fingerprint_sha256" "public_key_fingerprint_sha256";
      type ← pitem "receipt_type" receipt; types ← py_sub "authorized_receipt_types" key;
      typed ← py_in type types;
      ref ← pitem "authority_ref" receipt; refs ← py_sub "authority_refs" key;
      referred ← py_in ref refs;
      revocation ← same "revocation_ref" "revocation_ref";
      _ ← demand_all RuntimeOwnerReceiptError
            [("trusted_key_owner_mismatch", owner); ("trusted_key_role_mismatch", role);
             ("trusted_key_fingerprint_receipt_mismatch", print);
             ("trusted_key_receipt_type_unauthorized", typed);
             ("trusted_key_authority_ref_unauthorized", referred);
             ("trusted_key_revocation_ref_mismatch", revocation)];
      Ok key
  | _ => Raise (RuntimeOwnerReceiptError "trusted_key_not_unique")
  end.

(** [len({item[k] for item in l}) == n] *)
Definition distinct_count (k : string) (l : list pyval) (n : nat) : res bool :=
  xs ← seq_res (map (py_sub k) l);
  s ← py_set xs; Ok (Nat.eqb (length s) n).

(** ** The payloads by the type of their receipt *)

Definition validate_canary (payload : pyval) (checked_at : Z) : res unit :=
  window ← py_sub "window" payload;
  s ← py_sub "starts_at" window; starts_at ← _timestamp s "canary_starts_at";
  e ← py_sub "ends_at" window; ends_at ← _timestamp e "canary_ends_at";
  _ ← demand (starts_at <? ends_at) "canary_window_invalid";
  _ ← demand (starts_at <=? checked_at) "canary_window_not_started";
  _ ← demand (checked_at <? ends_at) "canary_window_expired";
  attestations ← py_sub "candidate_attestations" payload; attestations ← py_iter attestations;
  ids ← seq_res (map (py_sub "attestation_id") attestations);
  unique ← py_distinct ids;
  _ ← demand unique "candidate_attestation_id_duplicate";
  descriptors ← py_sub "fixture_descriptors" payload; descriptors ← py_iter descriptors;
  two ← distinct_count "descriptor_id" descriptors 2;
  _ ← demand two "fixture_descriptor_id_not_distinct";
  two ← distinct_count "descriptor_hash" descriptors 2;
  demand two "fixture_descriptor_hash_not_distinct".

Definition known_transition (from_mode to_mode : pyval) : res bool :=
  if hashable from_mode && hashable to_mode
  then Ok (existsb (fun t => py_eq from_mode (PStr t.1) && py_eq to_mode (PStr t.2)) POLICY_TRANSITIONS)
  else Raise (TypeError "unhashable type").

Definition validate_cas (receipt : dict pyval) (payload : pyval) : res unit :=
  expected ← py_sub "expected_revision" payload;
  policy ← py_sub "policy" payload;
  target ← py_sub "target_revision" payload;
  next ← py_plus_one expected;
  _ ← demand (py_eq target next) "policy_cas_revision_not_contiguous";
  from_mode ← py_sub "from_mode" payload;
  _ ← demand (Bool.eqb (py_eq expected (PInt 0)) (py_eq from_mode (PStr "absent")))
        "policy_cas_absent_revision_mismatch";
  to_mode ← py_sub "to_mode" payload;
  known ← known_transition from_mode to_mode;
  _ ← demand known "policy_cas_transition_invalid";
  let same k k' code := x ← py_sub k policy; y ← py_sub k' payload; demand (py_eq x y) code in
  _ ← same "workspace_id" "workspace_id" "policy_cas_workspace_mismatch";
  _ ← same "workflow_kind" "workflow_kind" "policy_cas_workflow_kind_mismatch";
  _ ← same "mode" "to_mode" "policy_cas_mode_mismatch";
  policy_sha256 ← _canonical_sha256 policy 16384;
  hash ← py_sub "policy_hash" payload;
  _ ← demand (py_eq (PStr policy_sha256) hash) "policy_cas_policy_hash_mismatch";
  required_scope ← match to_mode with
                   | PStr m => match dget m POLICY_MODE_AUTHORIZATION_SCOPE with
                               | Some s => Ok s
                               | None => Raise (KeyError m)
                               end
                   | _ => Raise (KeyError (py_repr to_mode))
                   end;
  canary ← py_sub "canary" policy; scopes ← py_sub "authorization_scopes" canary;
  scoped ← py_in (PStr required_scope) scopes;
  _ ← demand scoped "policy_cas_scope_unauthorized";
  authority ← py_sub "cas_authority_id" payload; owner ← pitem "owner_id" receipt;
  _ ← demand (py_eq authority owner) "policy_cas_authority_mismatch";
  if py_eq to_mode (PStr "disabled")
  then backout ← py_sub "backout_owner_id" canary;
       demand (py_eq owner backout) "policy_cas_backout_owner_mismatch"
  else Ok tt.

Definition validate_rpo (payload : pyval) : res unit :=
  classes ← py_sub "data_classes" payload; classes ← py_iter classes;
  classes ← seq_res (map (py_sub "data_class") classes);
  classes ← py_set classes;
  demand (Nat.eqb (length classes) 5 && forallb (fun c => existsb (py_eq (PStr c)) classes) RPO_DATA_CLASSES)
    "rpo_rto_data_classes_not_exact".

Definition validate_provisioning (payload : pyval) : res unit :=
  nb ← py_sub "not_before" payload; not_before ← _timestamp nb "workflow_key_not_before";
  na ← py_sub "not_after" payload; not_after ← _timestamp na "workflow_key_not_after";
  demand (not_before <? not_after) "workflow_key_validity_window_invalid".

Definition _validate_payload (receipt : dict pyval) (checked_at : Z) : res unit :=
  receipt_type ← pitem "receipt_type" receipt;
  payload ← pitem "payload" receipt;
  let typed t := py_eq receipt_type (PStr t) in
  _ ← (if typed "exact_canary_admission" then validate_canary payload checked_at else Ok tt);
  _ ← (if typed "durable_release_policy_cas" then validate_cas receipt payload else Ok tt);
  _ ← (if typed "rpo_rto_policy" then validate_rpo payload else Ok tt);
  if typed "signing_key_provisioning" then validate_provisioning payload else Ok tt.

(** ** The receipt *)

Definition RECEIPT_CONTRACT : string := "runtime_owner_decision_receipt".
Definition KEYS_CONTRACT : string := "runtime_owner_trusted_keys".

(** The time of the receipt, and that of its key. *)
Definition receipt_window (receipt : dict pyval) (checked_at : Z) : res Z :=
  i ← pitem "issued_at" receipt; issued_at ← _timestamp i "issued_at";
  e ← pitem "expires_at" receipt; expires_at ← _timestamp e "expires_at";
  _ ← demand (issued_at <=? checked_at + MAX_FUTURE_SKEW) "receipt_issued_in_future";
  _ ← demand (issued_at <? expires_at) "receipt_validity_window_invalid";
  _ ← demand (checked_at <? expires_at) "receipt_expired";
  Ok issued_at.

Definition key_alive (key : pyval) (issued_at checked_at : Z) : res unit :=
  nb ← py_sub "not_before" key; key_not_before ← _timestamp nb "key_not_before";
  na ← py_sub "not_after" key; key_not_after ← _timestamp na "key_not_after";
  _ ← demand ((key_not_before <=? issued_at) && (issued_at <? key_not_after)) "receipt_issued_outside_key_window";
  _ ← demand (checked_at <? key_not_after) "trusted_key_expired";
  rv ← py_sub "revoked_at" key;
  match rv with
  | PNone => Ok tt
  | _ => revoked_at ← _timestamp rv "revoked_at";
         demand ((issued_at <? revoked_at) && (checked_at <? revoked_at)) "trusted_key_revoked"
  end.

(** [except ValueError] *)
Definition on_value_error {A} (c : res A) (code : string) : res A :=
  try_except c is_value_error (Raise (RuntimeOwnerReceiptError code)).

Definition public_key (key : pyval) : res (list N) :=
  text ← py_sub "public_key_base64" key;
  raw ← on_value_error (b64decode text) "trusted_public_key_base64_invalid";
  _ ← demand (Nat.eqb (length raw) 32) "trusted_public_key_length_invalid";
  print ← py_sub "fingerprint_sha256" key;
  _ ← demand (py_eq (PStr (Sha256.hexdigest raw)) print) "trusted_key_fingerprint_invalid";
  Ok raw.

Definition signed_bytes (receipt : dict pyval) : res (list N) :=
  encode_max MAX_RECEIPT_BYTES (PDict (ddel "signature" receipt)).

Definition check_signature (receipt : dict pyval) (raw : list N) : res unit :=
  on_value_error (
    text ← pitem "signature" receipt;
    signature ← b64decode text;
    message ← signed_bytes receipt;
    if ed25519_verify raw signature message then Ok tt else Raise (ValueError "InvalidSignature"))
  "signature_invalid".

Definition verify_owner_decision (receipt registry : dict pyval) (expected_registry_sha256 : string)
    (now : clock) : res VerifiedOwnerDecision :=
  _ ← demand (validate_contract RECEIPT_CONTRACT (PDict receipt) && validate_contract KEYS_CONTRACT (PDict registry))
        "owner_contract_schema_invalid";
  _ ← demand (c_aware now) "verification_clock_timezone_required";
  let checked_at := c_time now in
  registry_sha256 ← _canonical_sha256 (PDict registry) MAX_REGISTRY_BYTES;
  _ ← demand (bool_decide (registry_sha256 = expected_registry_sha256)) "trusted_key_registry_sha256_mismatch";
  _ ← _validate_registry registry;
  _ ← _validate_payload receipt checked_at;
  payload ← pitem "payload" receipt;
  payload_sha256 ← _canonical_sha256 payload MAX_RECEIPT_BYTES;
  hash ← pitem "payload_sha256" receipt;
  _ ← demand (py_eq (PStr payload_sha256) hash) "payload_sha256_mismatch";
  issued_at ← receipt_window receipt checked_at;
  key ← _trusted_key receipt registry;
  _ ← key_alive key issued_at checked_at;
  raw ← public_key key;
  _ ← check_signature receipt raw;
  receipt_sha256 ← _canonical_sha256 (PDict receipt) MAX_RECEIPT_BYTES;
  revision ← pitem "registry_revision" registry;
  Ok (mkVerified receipt receipt_sha256 (py_str revision) registry_sha256 checked_at).
End verifier.

(** * What a verified receipt satisfies *)

Section trusted.
Context `{OwnerPlatform}.

(** The entry [k] of [v] is an instant. *)
Definition reads (v : pyval) (k : string) (t : Z) : Prop :=
  exists s, py_sub k v = Ok (PStr s) /\ fromisoformat (replace "Z" "+00:00" s) = Some (t, true).

(** The entries [k] and [k'] are there and equal. *)
Definition same_entry (k : string) (v : pyval) (k' : string) (w : pyval) : Prop :=
  exists x y, py_sub k v = Ok x /\ py_sub k' w = Ok y /\ py_eq x y = true.

(** The entry [k] is listed in the entry [k']. *)
Definition listed (k : string) (v : pyval) (k' : string) (w : pyval) : Prop :=
  exists x l, py_sub k v = Ok x /\ py_sub k' w = Ok l /\ py_in x l = Ok true.

(** At [t] the key of the registry, whose bytes are [raw], vouches for the
    receipt: the only key of that name, of the same owner and role, for this
    type of receipt and authority; issued in the life of the key, neither
    expired nor revoked; its payload hashed and all of it signed. *)
Record vouches (receipt registry : dict pyval) (digest : string) (t : Z) (key : pyval) (raw : list N) : Prop := {
  vo_registry : _canonical_sha256 (PDict registry) MAX_REGISTRY_BYTES = Ok digest;
  vo_key : exists ks l, pitem "keys" registry = Ok ks /\ py_iter ks = Ok l /\ key ∈ l
    /\ same_entry "key_id" key "key_id" (PDict receipt)
    /\ forall key', key' ∈ l -> same_entry "key_id" key' "key_id" (PDict receipt) -> key' = key;
  vo_owner : same_entry "owner_id" key "owner_id" (PDict receipt);
  vo_role : same_entry "owner_role" key "owner_role" (PDict receipt);
  vo_type : listed "receipt_type" (PDict receipt) "authorized_receipt_types" key;
  vo_authority : listed "authority_ref" (PDict receipt) "authority_refs" key;
  vo_window : exists issued expires not_before not_after,
    reads (PDict receipt) "issued_at" issued /\ reads (PDict receipt) "expires_at" expires
    /\ reads key "not_before" not_before /\ reads key "not_after" not_after
    /\ issued <= t + MAX_FUTURE_SKEW /\ t < expires /\ not_before <= issued < not_after /\ t < not_after
    /\ (py_sub "revoked_at" key = Ok PNone
        \/ exists revoked, reads key "revoked_at" revoked /\ issued < revoked /\ t < revoked);
  vo_raw : length raw = 32%nat /\ py_sub "fingerprint_sha256" key = Ok (PStr (Sha256.hexdigest raw));
  vo_payload : exists p h, pitem "payload" receipt = Ok p /\ _canonical_sha256 p MAX_RECEIPT_BYTES = Ok h
    /\ pitem "payload_sha256" receipt = Ok (PStr h);
  vo_signature : exists text signature message, pitem "signature" receipt = Ok text
    /\ b64decode text = Ok signature /\ signed_bytes receipt = Ok message
    /\ ed25519_verify raw signature message = true;
}.

Definition trusted (receipt registry : dict pyval) (digest : string) (t : Z) : Prop :=
  exists key raw, vouches receipt registry digest t key raw.

Lemma Ok_inj {A} (a b : A) : Ok a = Ok b -> a = b.
Proof. congruence. Qed.

Lemma demand_Ok ok code u : demand ok code = Ok u -> ok = true.
Proof. by destruct ok. Qed.
Lemma demand_all_Ok fail l u : demand_all fail l = Ok u -> Forall (fun c => c.2 = true) l.
Proof. induction l as [|[c []] l IH]; simpl; intros E; [constructor| |done]. constructor; auto. Qed.
Lemma demand_all_true fail l : Forall (fun c => c.2 = true) l -> demand_all fail l = Ok tt.
Proof. induction 1 as [|[c b] l E _ IH]; [done|]. simpl in *. by rewrite E. Qed.

Lemma timestamp_reads v k x f t : py_sub k v = Ok x -> _timestamp x f = Ok t -> reads v k t.
Proof.
  intros E Ht. destruct x as [| | | |s| |]; try done. exists s. split; [done|]. simpl in Ht.
  destruct (fromisoformat _) as [[t' []]|]; try done. congruence.
Qed.

Lemma on_value_error_Ok {A} (c : res A) code a : on_value_error c code = Ok a -> c = Ok a.
Proof. unfold on_value_error, try_except. destruct c as [?|e]; [done|]. by destruct (is_value_error e). Qed.

Lemma receipt_window_Ok receipt t issued : receipt_window receipt t = Ok issued ->
  reads (PDict receipt) "issued_at" issued
  /\ exists expires, reads (PDict receipt) "expires_at" expires /\ issued <= t + MAX_FUTURE_SKEW /\ t < expires.
Proof.
  unfold receipt_window. intros E. repeat (bind_inv E). injection E as <-.
  repeat match goal with H : demand _ _ = Ok _ |- _ => apply demand_Ok in H end. bool_prop.
  split; [by eapply timestamp_reads|]. exists a2. split; [by eapply timestamp_reads|lia].
Qed.

Lemma key_alive_Ok key issued t u : key_alive key issued t = Ok u ->
  exists nb na, reads key "not_before" nb /\ reads key "not_after" na /\ nb <= issued < na /\ t < na
    /\ (py_sub "revoked_at" key = Ok PNone \/ exists rv, reads key "revoked_at" rv /\ issued < rv /\ t < rv).
Proof.
  unfold key_alive. intros E. do 7 (bind_inv E).
  repeat match goal with H : demand _ _ = Ok _ |- _ => apply demand_Ok in H end. bool_prop.
  exists a0, a2. split; [by eapply timestamp_reads|]. split; [by eapply timestamp_reads|]. split; [lia|]. split; [lia|].
  destruct (is_none a5) eqn:Hn; [left; by destruct a5|]. right.
  assert (E' : (revoked_at ← _timestamp a5 "revoked_at";
    demand ((issued <? revoked_at) && (t <? revoked_at)) "trusted_key_revoked") = Ok u) by (by destruct a5).
  bind_inv E'. apply demand_Ok in E'. bool_prop. exists a6. split; [by eapply timestamp_reads|lia].
Qed.

Lemma public_key_Ok key raw : public_key key = Ok raw ->
  length raw = 32%nat /\ py_sub "fingerprint_sha256" key = Ok (PStr (Sha256.hexdigest raw)).
Proof.
  unfold public_key. intros E. repeat (bind_inv E). injection E as <-.
  repeat match goal with H : demand _ _ = Ok _ |- _ => apply demand_Ok in H end.
  split; [by apply Nat.eqb_eq|]. match goal with H : py_eq _ _ = true |- _ => apply py_eq_text in H end. by subst.
Qed.

Lemma check_signature_Ok receipt raw u : check_signature receipt raw = Ok u ->
  exists text signature message, pitem "signature" receipt = Ok text
    /\ b64decode text = Ok signature /\ signed_bytes receipt = Ok message
    /\ ed25519_verify raw signature message = true.
Proof.
  unfold check_signature. intros E%on_value_error_Ok. repeat (bind_inv E).
  destruct (ed25519_verify _ _ _) eqn:Ev; [|done]. by exists a, a0, a1.
Qed.

Lemma entry_same k v k' r :
  (x ← py_sub k v; y ← pitem k' r; Ok (py_eq x y)) = Ok true -> same_entry k v k' (PDict r).
Proof. intros E. bind_inv E. bind_inv E. injection E as E. by exists a, a0. Qed.

Definition named (receipt : dict pyval) (item : pyval) : res (pyval * bool) :=
  id ← py_sub "key_id" item; id' ← pitem "key_id" receipt; Ok (item, py_eq id id').

Lemma named_keys receipt l pairs : Forall2 (fun item p => named receipt item = Ok p) l pairs ->
  forall key, key ∈ map fst (List.filter snd pairs)
              <-> key ∈ l /\ same_entry "key_id" key "key_id" (PDict receipt).
Proof.
  unfold named, same_entry. induction 1 as [|item p l pairs E _ IH]; intros key; simpl; [set_solver|].
  bind_inv E. bind_inv E. injection E as <-. simpl. rewrite list.elem_of_cons. destruct (py_eq a a0) eqn:Q; simpl.
  - rewrite list.elem_of_cons, IH. naive_solver.
  - rewrite IH. split; [naive_solver|]. intros [[->|?] (x & y & Hx & Hy & Hq)]; [congruence|eauto 7].
Qed.

Lemma trusted_key_Ok receipt registry key : _trusted_key receipt registry = Ok key ->
  (exists ks l, pitem "keys" registry = Ok ks /\ py_iter ks = Ok l /\ key ∈ l
    /\ same_entry "key_id" key "key_id" (PDict receipt)
    /\ forall key', key' ∈ l -> same_entry "key_id" key' "key_id" (PDict receipt) -> key' = key)
  /\ same_entry "owner_id" key "owner_id" (PDict receipt)
  /\ same_entry "owner_role" key "owner_role" (PDict receipt)
  /\ listed "receipt_type" (PDict receipt) "authorized_receipt_types" key
  /\ listed "authority_ref" (PDict receipt) "authority_refs" key.
Proof.
  unfold _trusted_key. intros E. bind_inv E. bind_inv E. bind_inv E. apply seq_res_Forall2 in Ha1.
  pose proof (named_keys receipt a0 a1 Ha1) as Hn.
  destruct (map fst (List.filter snd a1)) as [|k [|? ?]] eqn:Ek; try done.
  do 11 (bind_inv E). injection E as <-.
  match goal with H : demand_all _ _ = Ok _ |- _ => apply demand_all_Ok in H end.
  repeat match goal with H : Forall _ (_ :: _) |- _ => apply list.Forall_cons in H as [? H] end. simpl in *.
  destruct (proj1 (Hn k) ltac:(by left)) as [Hk Hs].
  subst. split; [|split; [|split; [|split]]].
  - exists a, a0. split_and!; try done. intros k' Hk' Hs'. specialize (Hn k'). rewrite list_elem_of_singleton in Hn. tauto.
  - by apply entry_same.
  - by apply entry_same.
  - by exists a5, a6.
  - by exists a8, a9.
Qed.

(** What a verification answers of the receipt and its registry. *)
Lemma verify_fields receipt registry digest now v :
  verify_owner_decision receipt registry digest now = Ok v ->
  v_receipt v = receipt /\ v_registry_sha256 v = digest /\ v_checked_at v = c_time now
  /\ _canonical_sha256 (PDict receipt) MAX_RECEIPT_BYTES = Ok (v_receipt_sha256 v)
  /\ (exists r, pitem "registry_revision" registry = Ok r /\ v_registry_revision v = py_str r)
  /\ validate_contract RECEIPT_CONTRACT (PDict receipt) = true
  /\ validate_contract KEYS_CONTRACT (PDict registry) = true
  /\ _validate_payload receipt (c_time now) = Ok tt.
Proof.
  unfold verify_owner_decision. intros E. bind_inv E. apply demand_Ok in Ha. bool_prop. bind_inv E. do 2 (bind_inv E).
  bind_inv E. do 2 (bind_inv E). repeat (bind_inv E). injection E as <-. simpl.
  match goal with H : demand (bool_decide _) _ = Ok _ |- _ => apply demand_Ok in H; bool_prop end.
  repeat match goal with u : unit |- _ => destruct u end.
  split_and!; try done. eauto.
Qed.

Lemma verify_trusted receipt registry digest now v :
  verify_owner_decision receipt registry digest now = Ok v -> trusted receipt registry digest (c_time now).
Proof.
  unfold verify_owner_decision. intros E. repeat (bind_inv E).
  match goal with H : demand (bool_decide _) _ = Ok _ |- _ => apply demand_Ok in H; bool_prop end.
  match goal with H : demand (py_eq _ _) _ = Ok _ |- _ => apply demand_Ok, py_eq_text in H end.
  match goal with H : receipt_window _ _ = Ok _ |- _ => apply receipt_window_Ok in H as (Hi & expires & He & Hs & Hx) end.
  match goal with H : _trusted_key _ _ = Ok _ |- _ => apply trusted_key_Ok in H as (Hk & Ho & Hr & Ht & Hf) end.
  match goal with H : key_alive _ _ _ = Ok _ |- _ => apply key_alive_Ok in H as (nb & na & Hnb & Hna & Hw & Hl & Hv) end.
  match goal with H : public_key _ = Ok _ |- _ => apply public_key_Ok in H end.
  match goal with H : check_signature _ _ = Ok _ |- _ => apply check_signature_Ok in H end.
  subst. eexists _, _. constructor; try done; eauto 15.
Qed.
End trusted.
