(* ===== verification/ReleasePolicy.v ===== *)
(** Release policies of the durable workflows
    (workflow/durable_state/release_policy.py over the table of
    alembic_migrations/postgres/durable_workflow_v1.py and
    durable_workflow_release_policy_owner_receipts_v1.py) and their evaluation
    (workspace_capability_admission/durable_workflow_policy.py).

    The table is append-only (a trigger rejects updates and deletions), in
    insertion order.  [compare_and_swap] reads the current row from a snapshot
    that may be older than the table it inserts into: a lock on the newest row
    of a snapshot does not wait for a newer one.  Hashes have the 64 characters
    of their columns; JSONB gives back the value written. *)
From S2P Require Import Prelude PyDict PyStr PyVal PyJson PyTime Canonical Ledger OwnerReceipts.

Definition DurableReleasePolicyConflict (expected_revision actual_revision : Z) : exn :=
  OtherError "DurableReleasePolicyConflict" (str_int expected_revision +:+ "/" +:+ str_int actual_revision).
Definition DurableReleasePolicyInvalid (code : string) : exn := OtherError "DurableReleasePolicyInvalid" code.
Definition DurableWorkflowAdmissionUnavailable (code : string) : exn :=
  OtherError "DurableWorkflowAdmissionUnavailable" code.

(** A row of the table, which is also what is read of it. *)
Record DurableReleasePolicy : Type := mkPolicy {
  dp_workspace_id : string;
  dp_workflow_kind : string;
  dp_revision : Z;
  dp_supersedes_revision : option Z;
  dp_mode : string;
  dp_policy : dict pyval;
  dp_policy_hash : string;
  dp_owner_receipt : option (dict pyval);
  dp_canary_receipt : option (dict pyval);
  dp_owner_receipt_id : option string;
  dp_owner_receipt_sha256 : option string;
  dp_registry_revision : option string;
  dp_registry_sha256 : option string;
  dp_key_id : string;
  dp_signature : string;
  dp_created_by : string;
  dp_created_at : Z;
}.

Definition given {A} (empty : A -> bool) (o : option A) : bool :=
  match o with Some x => negb (empty x) | None => false end.
Definition empty_text (s : string) : bool := bool_decide (s = "").
Definition empty_dict (d : dict pyval) : bool := match d with [] => true | _ => false end.

Definition has_process_signature (p : DurableReleasePolicy) : bool :=
  given empty_text (dp_owner_receipt_id p) && given empty_dict (dp_owner_receipt p)
  && given empty_dict (dp_canary_receipt p) && given empty_text (dp_owner_receipt_sha256 p)
  && given empty_text (dp_registry_revision p) && given empty_text (dp_registry_sha256 p).

(** * Reads *)

Definition of_workflow (workspace_id workflow_kind : string) (p : DurableReleasePolicy) : bool :=
  bool_decide (dp_workspace_id p = workspace_id) && bool_decide (dp_workflow_kind p = workflow_kind).

(** [ORDER BY revision DESC LIMIT 1] *)
Definition newer (best : option DurableReleasePolicy) (p : DurableReleasePolicy) : option DurableReleasePolicy :=
  match best with
  | Some b => if dp_revision b <? dp_revision p then Some p else best
  | None => Some p
  end.
Definition read_current (rows : list DurableReleasePolicy) (workspace_id workflow_kind : string)
    : option DurableReleasePolicy :=
  foldl newer None (List.filter (of_workflow workspace_id workflow_kind) rows).

Definition current_revision (o : option DurableReleasePolicy) : Z :=
  match o with Some p => dp_revision p | None => 0 end.
Definition current_mode (o : option DurableReleasePolicy) : string :=
  match o with Some p => dp_mode p | None => "absent" end.

(** * The table *)

Section store.
Context `{OwnerPlatform}.
(** [octet_length(v::text)] of a JSONB value. *)
Variable jsonb_octets : pyval -> Z.

(** The [CHECK]s; one whose value is NULL holds, as that of a row that
    supersedes nothing does at every revision. *)
Definition nonnulls (p : DurableReleasePolicy) : Z :=
  let one {A} (o : option A) : Z := if o then 1 else 0 in
  one (dp_owner_receipt p) + one (dp_canary_receipt p) + one (dp_owner_receipt_id p)
  + one (dp_owner_receipt_sha256 p) + one (dp_registry_revision p) + one (dp_registry_sha256 p).
Definition row_ok (p : DurableReleasePolicy) : bool :=
  bool_decide (dp_workflow_kind p ∈ ["execution"; "product_iteration"; "product_release"])
  && (1 <=? dp_revision p) && bool_decide (dp_mode p ∈ ["disabled"; "shadow"; "enforced"])
  && (jsonb_octets (PDict (dp_policy p)) <=? 16384)
  && match dp_supersedes_revision p with Some r => r =? dp_revision p - 1 | None => true end
  && bool_decide (nonnulls p ∈ [0; 6])
  && match dp_owner_receipt p with Some r => jsonb_octets (PDict r) <=? 65536 | None => true end
  && match dp_canary_receipt p with Some r => jsonb_octets (PDict r) <=? 65536 | None => true end.

Definition same_key (p q : DurableReleasePolicy) : bool :=
  of_workflow (dp_workspace_id p) (dp_workflow_kind p) q && (dp_revision q =? dp_revision p).
Definition same_receipt (p q : DurableReleasePolicy) : bool :=
  same_some (dp_owner_receipt_id p) (dp_owner_receipt_id q).

(** [INSERT ... ON CONFLICT (workspace_id, workflow_kind, revision) DO NOTHING
    RETURNING]; the receipt ids have a unique index of their own. *)
Definition insert_policy (p : DurableReleasePolicy) : stres (list DurableReleasePolicy) bool := fun rows =>
  if negb (row_ok p) then (Raise (IntegrityError "new row violates check constraint"), rows)
  else if existsb (same_key p) rows then (Ok false, rows)
  else if existsb (same_receipt p) rows
  then (Raise (IntegrityError "duplicate key value violates unique constraint"), rows)
  else (Ok true, rows ++ [p]).

(** * Compare and swap *)

Definition exactly (ok : bool) (code : string) : res unit :=
  if ok then Ok tt else Raise (DurableReleasePolicyInvalid code).

Definition _validate_receipt_relationship (cas canary : VerifiedOwnerDecision) : res unit :=
  type ← receipt_text "receipt_type" cas;
  _ ← exactly (bool_decide (type = "durable_release_policy_cas")) "durable_release_policy_cas_receipt_required";
  type ← receipt_text "receipt_type" canary;
  _ ← exactly (bool_decide (type = "exact_canary_admission")) "exact_canary_admission_receipt_required";
  payload ← pitem "payload" (v_receipt cas);
  policy ← py_sub "policy" payload;
  authority ← py_sub "cas_authority_id" payload; owner ← receipt_text "owner_id" cas;
  _ ← exactly (py_eq authority (PStr owner)) "durable_release_policy_cas_authority_mismatch";
  id ← py_sub "canary_receipt_id" policy; id' ← receipt_text "receipt_id" canary;
  _ ← exactly (py_eq id (PStr id')) "durable_release_policy_canary_receipt_id_mismatch";
  hash ← py_sub "canary_receipt_sha256" policy;
  _ ← exactly (py_eq hash (PStr (v_receipt_sha256 canary))) "durable_release_policy_canary_receipt_hash_mismatch";
  document ← py_sub "canary" policy; bytes ← encode document;
  admitted ← pitem "payload" (v_receipt canary); bytes' ← encode admitted;
  exactly (bool_decide (bytes = bytes')) "durable_release_policy_canary_payload_mismatch".

(** [dict(value)] of the JSON columns. *)
Definition dict_of (v : pyval) : res (dict pyval) :=
  match v with PDict d => Ok d | _ => Raise (TypeError "cannot convert to dict") end.

(** A parameter bound to a text, and to a BIGINT. *)
Definition bind_value (k : string) (v : pyval) : res string :=
  match v with
  | PStr s => Ok s
  | PNone => Raise (IntegrityError ("null value in column " +:+ k))
  | _ => Raise (OtherError "DataError" k)
  end.
Definition bind_bigint (z : Z) : res Z :=
  if (- 2 ^ 63 <=? z) && (z <? 2 ^ 63) then Ok z else Raise (OtherError "DataError" "integer out of range").

(** The parameters of the insertion, as the columns take them. *)
Definition policy_row (payload : pyval) (policy : pyval) (expected_revision target_revision : Z)
    (cas canary : VerifiedOwnerDecision) : res DurableReleasePolicy :=
  ws ← py_sub "workspace_id" payload;
  kind ← py_sub "workflow_kind" payload;
  mode ← py_sub "to_mode" payload;
  hash ← py_sub "policy_hash" payload;
  id ← receipt_text "receipt_id" cas;
  key_id ← receipt_text "key_id" cas;
  sig ← pitem "signature" (v_receipt cas);
  owner ← receipt_text "owner_id" cas;
  issued ← pitem "issued_at" (v_receipt cas);
  created_at ← _timestamp issued "created_at";
  ws ← bind_value "workspace_id" ws;
  kind ← bind_value "workflow_kind" kind;
  mode ← bind_value "mode" mode;
  hash ← bind_value "policy_hash" hash;
  sig ← bind_value "signature" sig;
  rev ← bind_bigint target_revision;
  sup ← bind_bigint expected_revision;
  document ← dict_of policy;
  Ok (mkPolicy ws kind rev (if 0 <? expected_revision then Some sup else None) mode document hash
        (Some (v_receipt cas)) (Some (v_receipt canary)) (Some id) (Some (v_receipt_sha256 cas))
        (Some (v_registry_revision cas)) (Some (v_registry_sha256 cas)) key_id sig owner created_at).

Definition compare_and_swap (seen : list DurableReleasePolicy) (cas_receipt canary_receipt trusted_registry : dict pyval)
    (expected_registry_sha256 : string) (now : clock) : stres (list DurableReleasePolicy) DurableReleasePolicy :=
  cas ← lift_res (verify_owner_decision cas_receipt trusted_registry expected_registry_sha256 now);
  canary ← lift_res (verify_owner_decision canary_receipt trusted_registry expected_registry_sha256 now);
  _ ← lift_res (_validate_receipt_relationship cas canary);
  payload ← lift_res (pitem "payload" (v_receipt cas));
  policy ← lift_res (py_sub "policy" payload);
  workspace_id ← lift_res (py_sub "workspace_id" payload);
  workflow_kind ← lift_res (py_sub "workflow_kind" payload);
  expected_revision ← lift_res (x ← py_sub "expected_revision" payload; py_int x);
  target_revision ← lift_res (x ← py_sub "target_revision" payload; py_int x);
  ws ← lift_res (bind_value "workspace_id" workspace_id);
  kind ← lift_res (bind_value "workflow_kind" workflow_kind);
  let current := read_current seen ws kind in
  if negb (current_revision current =? expected_revision)
  then raise_st (DurableReleasePolicyConflict expected_revision (current_revision current))
  else
  from_mode ← lift_res (py_sub "from_mode" payload);
  if negb (py_eq (PStr (current_mode current)) from_mode)
  then raise_st (DurableReleasePolicyInvalid "durable_release_policy_from_mode_mismatch")
  else
  row ← lift_res (policy_row payload policy expected_revision target_revision cas canary);
  inserted ← insert_policy row;
  if inserted : bool then mret row
  else
    rows ← get_st;
    raise_st (DurableReleasePolicyConflict expected_revision
                (current_revision (read_current rows (dp_workspace_id row) (dp_workflow_kind row)))).

(** * The process signature *)

Definition pos_value (v : pyval) : res bool :=
  match v with
  | PInt z => Ok (0 <? z)
  | PBool b => Ok b
  | PFloat f => Ok match fl_val f with FFin m _ => 0 <? m | FInf neg => negb neg | FNaN => false end
  | _ => Raise (TypeError "'>' not supported")
  end.

Definition verify_process_signature (p : DurableReleasePolicy) (trusted_registry : dict pyval)
    (expected_registry_sha256 : string) (now : clock) : res (VerifiedOwnerDecision * VerifiedOwnerDecision) :=
  match dp_owner_receipt p, dp_canary_receipt p, has_process_signature p with
  | Some owner, Some canary, true =>
      cas ← verify_owner_decision owner trusted_registry expected_registry_sha256 now;
      canary ← verify_owner_decision canary trusted_registry expected_registry_sha256 now;
      _ ← _validate_receipt_relationship cas canary;
      payload ← pitem "payload" (v_receipt cas);
      let same k v := x ← py_sub k payload; Ok (py_eq x v) in
      ws ← same "workspace_id" (PStr (dp_workspace_id p));
      kind ← same "workflow_kind" (PStr (dp_workflow_kind p));
      rev ← same "target_revision" (PInt (dp_revision p));
      expected ← py_sub "expected_revision" payload; positive ← pos_value expected;
      let sup := py_eq (py_optZ (dp_supersedes_revision p)) (if positive : bool then expected else PNone) in
      mode ← same "to_mode" (PStr (dp_mode p));
      signed ← py_sub "policy" payload; bytes ← encode signed; bytes' ← encode (PDict (dp_policy p));
      hash ← same "policy_hash" (PStr (dp_policy_hash p));
      id ← receipt_text "receipt_id" cas;
      key_id ← receipt_text "key_id" cas;
      sig ← pitem "signature" (v_receipt cas);
      owner ← receipt_text "owner_id" cas;
      _ ← demand_all DurableReleasePolicyInvalid
            [("durable_release_policy_workspace_readback_mismatch", ws);
             ("durable_release_policy_kind_readback_mismatch", kind);
             ("durable_release_policy_revision_readback_mismatch", rev);
             ("durable_release_policy_supersedes_readback_mismatch", sup);
             ("durable_release_policy_mode_readback_mismatch", mode);
             ("durable_release_policy_document_readback_mismatch", bool_decide (bytes = bytes'));
             ("durable_release_policy_hash_readback_mismatch", hash);
             ("durable_release_policy_receipt_id_readback_mismatch",
              bool_decide (Some id = dp_owner_receipt_id p));
             ("durable_release_policy_receipt_hash_readback_mismatch",
              bool_decide (Some (v_receipt_sha256 cas) = dp_owner_receipt_sha256 p));
             ("durable_release_policy_registry_revision_readback_mismatch",
              bool_decide (Some (v_registry_revision cas) = dp_registry_revision p));
             ("durable_release_policy_registry_hash_readback_mismatch",
              bool_decide (Some (v_registry_sha256 cas) = dp_registry_sha256 p));
             ("durable_release_policy_key_readback_mismatch", bool_decide (key_id = dp_key_id p));
             ("durable_release_policy_signature_readback_mismatch", py_eq sig (PStr (dp_signature p)));
             ("durable_release_policy_owner_readback_mismatch", bool_decide (owner = dp_created_by p))];
      Ok (cas, canary)
  | _, _, _ => Raise (DurableReleasePolicyInvalid "durable_release_policy_process_signature_missing")
  end.

(** * Admission (durable_workflow_policy.py) *)

Record DurableWorkflowAdmissionDecision : Type := mkDecision {
  ad_mode : string;
  ad_revision : Z;
  ad_policy_hash : option string;
  ad_canary_receipt_id : pyval;
  ad_pilot_cohort_hash : pyval;
  ad_authorization_scopes : list pyval;
  ad_candidate_attestations : list (pyval * pyval);
  ad_fixture_descriptors : list (pyval * pyval);
  ad_backout_owner_id : pyval;
  ad_window : pyval * pyval;
}.
Definition shadow_enabled (d : DurableWorkflowAdmissionDecision) : bool := bool_decide (ad_mode d = "shadow").
Definition enforced (d : DurableWorkflowAdmissionDecision) : bool := bool_decide (ad_mode d = "enforced").

Definition disabled_decision : DurableWorkflowAdmissionDecision :=
  mkDecision "disabled" 0 None PNone PNone [] [] [] PNone (PNone, PNone).

(** [except (DurableReleasePolicyInvalid, RuntimeOwnerReceiptError)] *)
Definition unavailable {A} (c : res A) : res A :=
  match c with
  | Raise (OtherError cls msg) =>
      if bool_decide (cls ∈ ["DurableReleasePolicyInvalid"; "RuntimeOwnerReceiptError"])
      then Raise (DurableWorkflowAdmissionUnavailable msg) else c
  | c => c
  end.

Definition pairs_of (k k' : string) (v : pyval) : res (list (pyval * pyval)) :=
  l ← py_iter v;
  seq_res (map (fun item => x ← py_sub k item; y ← py_sub k' item; Ok (x, y)) l).

Definition evaluate (policy : option DurableReleasePolicy) (workspace_id workflow_kind : string)
    (trusted_registry : dict pyval) (expected_registry_sha256 : string) (now : clock)
    : res DurableWorkflowAdmissionDecision :=
  match policy with
  | None => Ok disabled_decision
  | Some p =>
      if negb (bool_decide (dp_workspace_id p = workspace_id))
      then Raise (DurableWorkflowAdmissionUnavailable "durable_workflow_policy_workspace_mismatch")
      else if negb (bool_decide (dp_workflow_kind p = workflow_kind))
      then Raise (DurableWorkflowAdmissionUnavailable "durable_workflow_policy_kind_mismatch")
      else
      _ ← unavailable (verify_process_signature p trusted_registry expected_registry_sha256 now);
      canary ← pitem "canary" (dp_policy p);
      id ← pitem "canary_receipt_id" (dp_policy p);
      cohort ← py_sub "pilot_cohort_hash" canary;
      scopes ← py_sub "authorization_scopes" canary; scopes ← py_iter scopes;
      attestations ← py_sub "candidate_attestations" canary;
      attestations ← pairs_of "attestation_id" "attestation_sha256" attestations;
      descriptors ← py_sub "fixture_descriptors" canary;
      descriptors ← pairs_of "descriptor_id" "descriptor_hash" descriptors;
      backout ← py_sub "backout_owner_id" canary;
      window ← py_sub "window" canary;
      starts_at ← py_sub "starts_at" window;
      ends_at ← py_sub "ends_at" window;
      Ok (mkDecision (dp_mode p) (dp_revision p) (Some (dp_policy_hash p)) id cohort scopes attestations
            descriptors backout (starts_at, ends_at))
  end.
End store.
