(* ===== verification/ReleaseSample.v ===== *)
(** A world to try the release policies on: a signature scheme, a clock, two
    trusted owners and the receipts they sign; and where the code falls short. *)
From S2P Require Import Prelude PyDict PyStr PyVal PyJson PyTime Canonical Ledger OwnerReceipts ReleasePolicy.

Definition b64_char (n : N) : ascii :=
  if (n <? 26)%N then ascii_of_N (n + 65) else if (n <? 52)%N then ascii_of_N (n + 71)
  else if (n <? 62)%N then ascii_of_N (n - 4) else if (n =? 62)%N then "+"%char else "/"%char.
Fixpoint b64encode (l : list N) : string :=
  match l with
  | [] => ""
  | [a] => String (b64_char (a / 4)) (String (b64_char (16 * (a mod 4))) "==")
  | [a; b] => String (b64_char (a / 4)) (String (b64_char (16 * (a mod 4) + b / 16))
                (String (b64_char (4 * (b mod 16))) "="))
  | a :: b :: c :: r =>
      String (b64_char (a / 4)) (String (b64_char (16 * (a mod 4) + b / 16))
        (String (b64_char (4 * (b mod 16) + c / 64)) (String (b64_char (c mod 64)) (b64encode r))))
  end.

Definition hash_bytes (l : list N) : list N := match fromhex (Sha256.hexdigest l) with Ok b => b | Raise _ => [] end.

(** Whoever knows a key signs with it. *)
Definition toy_sign (key msg : list N) : list N := hash_bytes (key ++ msg).

Definition hour (n : Z) : Z := n * 3600 * MICROS.
(** The hours of one day; "2026-07-26T10:30" has no timezone. *)
Definition toy_iso (s : string) : option (Z * bool) :=
  match List.find (fun n => bool_decide (s = "2026-07-26T" +:+ pad 2 n +:+ ":00:00+00:00")) (map Z.of_nat (seq 0 24)) with
  | Some n => Some (hour n, true)
  | None => if bool_decide (s = "2026-07-26T10:30") then Some (hour 10, false) else None
  end.

(** The promises of the schemas, tested. *)
Definition is_text (k : string) (d : dict pyval) : bool :=
  match dget k d with Some (PStr s) => negb (bool_decide (s = "")) | _ => false end.
Definition is_integer (k : string) (v : pyval) : bool :=
  match py_sub k v with Ok (PInt z) => 0 <=? z | _ => false end.
Definition toy_schema (name : string) (v : pyval) : bool :=
  match v with
  | PDict d =>
      if bool_decide (name = RECEIPT_CONTRACT)
      then forallb (fun k => is_text k d) ["receipt_id"; "receipt_type"; "owner_id"; "key_id"; "signature"]
           && (negb (py_eq (pget "receipt_type" d) (PStr "durable_release_policy_cas"))
               || is_integer "expected_revision" (pget "payload" d) && is_integer "target_revision" (pget "payload" d))
      else is_text "registry_revision" d
  | _ => false
  end.

#[export] Instance toy_owner : OwnerPlatform := {
  validate_contract := toy_schema;
  fromisoformat := toy_iso;
  ed25519_verify key sig msg := bool_decide (sig = toy_sign key msg);
}.
Lemma is_text_entry k d : is_text k d = true -> text_entry k d.
Proof.
  unfold is_text, text_entry, pitem. destruct (dget k d) as [[| | | |s| |]|]; try done. intros E. bool_prop. eauto.
Qed.
Lemma is_integer_entry k v : is_integer k v = true -> integer_entry k v.
Proof.
  unfold is_integer, integer_entry. destruct (py_sub k v) as [[| |z| | | |]|]; try done. intros E. bool_prop.
  exists (PInt z), z. split_and!; try done. simpl. by rewrite Z.eqb_refl.
Qed.

#[export] Instance toy_owner_laws : OwnerLaws.
Proof.
  split; simpl; unfold toy_schema.
  - intros r k E Hk. change (bool_decide _) with true in E. cbv iota in E. apply andb_true_iff in E as [E _].
    apply is_text_entry. rewrite !elem_of_cons in Hk. simpl in E. bool_prop. set_solver.
  - intros r p E Ht Hp. change (bool_decide _) with true in E. cbv iota in E. apply andb_true_iff in E as [_ E].
    unfold pitem, pget in *. destruct (dget "receipt_type" r); [|done]. destruct (dget "payload" r); [|done].
    injection Ht as ->. injection Hp as ->. simpl in E. bool_prop. split; by apply is_integer_entry.
  - intros r E. by apply is_text_entry.
Qed.

Definition toy_octets (v : pyval) : Z := 1000.

Definition hash_of (v : pyval) : pyval :=
  match _canonical_sha256 v MAX_RECEIPT_BYTES with Ok h => PStr h | Raise _ => PNone end.
Definition at_hour (n : Z) : pyval := PStr ("2026-07-26T" +:+ pad 2 n +:+ ":00:00Z").

Definition public (owner : string) : list N := hash_bytes (utf8 owner).
Definition trusted_entry (owner type : string) : pyval :=
  PDict [("key_id", PStr ("key:" +:+ owner)); ("owner_id", PStr owner); ("owner_role", PStr "role");
         ("authorized_receipt_types", PList [PStr type]); ("authority_refs", PList [PStr "authority"]);
         ("revocation_ref", PStr "revocations"); ("public_key_base64", PStr (b64encode (public owner)));
         ("fingerprint_sha256", PStr (Sha256.hexdigest (public owner)));
         ("not_before", at_hour 0); ("not_after", at_hour 23); ("revoked_at", PNone)].
Definition registry1 : dict pyval := Eval vm_compute in
  [("registry_revision", PStr "r1");
   ("keys", PList [trusted_entry "canary-owner" "exact_canary_admission";
                   trusted_entry "cas-owner" "durable_release_policy_cas"])].
Definition registry_digest : string := Eval vm_compute in
  match _canonical_sha256 (PDict registry1) MAX_REGISTRY_BYTES with Ok h => h | Raise _ => "" end.

Definition signed_receipt (owner type id : string) (payload : pyval) : dict pyval :=
  let body := [("receipt_id", PStr id); ("receipt_type", PStr type); ("owner_id", PStr owner); ("owner_role", PStr "role");
    ("authority_ref", PStr "authority"); ("issued_at", at_hour 9); ("expires_at", at_hour 20);
    ("revocation_ref", PStr "revocations"); ("payload", payload); ("payload_sha256", hash_of payload);
    ("key_id", PStr ("key:" +:+ owner)); ("public_key_fingerprint_sha256", PStr (Sha256.hexdigest (public owner)))] in
  let message := match encode_max MAX_RECEIPT_BYTES (PDict body) with Ok m => m | Raise _ => [] end in
  body ++ [("signature", PStr (b64encode (toy_sign (public owner) message)))].

Definition canary_payload (workspace : string) : pyval :=
  PDict [("workspace_id", PStr workspace);
    ("authorization_scopes", PList [PStr "durable_workflow:shadow"; PStr "durable_workflow:enforced"; PStr "durable_workflow:disable"]);
    ("pilot_cohort_hash", PStr "cohort");
    ("window", PDict [("starts_at", at_hour 9); ("ends_at", at_hour 12)]);
    ("backout_owner_id", PStr "cas-owner");
    ("candidate_attestations", PList [PDict [("attestation_id", PStr "a1"); ("attestation_sha256", PStr "h1")]]);
    ("fixture_descriptors", PList [PDict [("descriptor_id", PStr "d1"); ("descriptor_hash", PStr "h1")];
                                   PDict [("descriptor_id", PStr "d2"); ("descriptor_hash", PStr "h2")]])].
Definition canary_receipt (workspace : string) : dict pyval :=
  signed_receipt "canary-owner" "exact_canary_admission" ("canary:" +:+ workspace) (canary_payload workspace).

Definition cas_receipt (workspace : string) (canary : dict pyval) (expected : Z) (from_mode to_mode : string) : dict pyval :=
  let policy := PDict [("workspace_id", PStr workspace); ("workflow_kind", PStr "execution"); ("mode", PStr to_mode);
    ("canary_receipt_id", pget "receipt_id" canary); ("canary_receipt_sha256", hash_of (PDict canary));
    ("canary", pget "payload" canary)] in
  signed_receipt "cas-owner" "durable_release_policy_cas" ("cas:" +:+ workspace +:+ ":" +:+ str_int (expected + 1))
    (PDict [("workspace_id", PStr workspace); ("workflow_kind", PStr "execution"); ("expected_revision", PInt expected);
            ("target_revision", PInt (expected + 1)); ("from_mode", PStr from_mode); ("to_mode", PStr to_mode);
            ("policy", policy); ("policy_hash", hash_of policy); ("cas_authority_id", PStr "cas-owner")]).

Definition ten : clock := mkClock (hour 10) true.
Definition canary1 : dict pyval := Eval vm_compute in canary_receipt "w1".
Definition shadow1 : dict pyval := Eval vm_compute in cas_receipt "w1" canary1 0 "absent" "shadow".
Definition enforce1 : dict pyval := Eval vm_compute in cas_receipt "w1" canary1 1 "shadow" "enforced".
Definition swap (seen rows : list DurableReleasePolicy) (cas : dict pyval) : res DurableReleasePolicy * list DurableReleasePolicy :=
  compare_and_swap toy_octets seen cas canary1 registry1 registry_digest ten rows.
Definition rows1 : list DurableReleasePolicy := Eval vm_compute in (swap [] [] shadow1).2.
Definition rows2 : list DurableReleasePolicy := Eval vm_compute in (swap rows1 rows1 enforce1).2.

Definition committed (c : res DurableReleasePolicy) : DurableReleasePolicy :=
  match c with Ok p => p | Raise _ => mkPolicy "" "" 0 None "" [] "" None None None None None None "" "" "" 0 end.
Definition policy1 : DurableReleasePolicy := Eval vm_compute in committed (swap [] [] shadow1).1.
Definition policy2 : DurableReleasePolicy := Eval vm_compute in committed (swap rows1 rows1 enforce1).1.

Example committing :
  map (fun p => (dp_revision p, dp_mode p)) rows2 = [(1, "shadow"); (2, "enforced")]
  /\ (swap [] rows1 shadow1).1 = Raise (DurableReleasePolicyConflict 0 1)
  /\ (swap rows1 rows2 enforce1).1 = Raise (DurableReleasePolicyConflict 1 2).
Proof. by vm_compute. Qed.

Definition admitted_at (n : Z) : res string :=
  ad_mode <$> evaluate (read_current rows2 "w1" "execution") "w1" "execution" registry1 registry_digest (mkClock (hour n) true).
Example admitting :
  admitted_at 10 = Ok "enforced" /\ admitted_at 12 = Raise (DurableWorkflowAdmissionUnavailable "canary_window_expired").
Proof. by vm_compute. Qed.

(** * Where the code falls short *)

(** The canary of one workspace admits the policy of another: nothing compares
    the workspace of the canary with that of the policy. *)
Definition borrowed : dict pyval := Eval vm_compute in cas_receipt "w2" canary1 0 "absent" "shadow".
Example canary_of_another_workspace :
  let rows := (swap [] [] borrowed).2 in
  map (fun p => (dp_workspace_id p, dp_mode p)) rows = [("w2", "shadow")]
  /\ shadow_enabled <$> evaluate (read_current rows "w2" "execution") "w2" "execution" registry1 registry_digest ten = Ok true
  /\ py_sub "workspace_id" (canary_payload "w1") = Ok (PStr "w1").
Proof. by vm_compute. Qed.

(** A row that supersedes nothing passes the check of the table at any
    revision: the condition is NULL. *)
Example gap_in_the_chain :
  (insert_policy toy_octets
     (mkPolicy "w1" "execution" 7 None "shadow" [] "h" None None None None None None "k" "s" "o" 0) []).1 = Ok true.
Proof. by vm_compute. Qed.
