(* ===== verification/ReleaseFacts.v ===== *)
(** What two verified receipts authorise, and what a commit of a release policy
    writes: the facts the theorems about the release policies rest on. *)
From S2P Require Import Prelude PyDict PyStr PyVal PyJson PyTime Canonical Ledger OwnerReceipts ReleasePolicy.

(** * What two receipts authorise *)

Section authority.
Context `{OwnerPlatform}.

Definition CAS : string := "durable_release_policy_cas".
Definition CANARY : string := "exact_canary_admission".

(** The window of the canary holds [t]. *)
Definition window_open (canary : dict pyval) (t : Z) : Prop :=
  exists p w s e, pitem "payload" canary = Ok p /\ py_sub "window" p = Ok w
    /\ reads w "starts_at" s /\ reads w "ends_at" e /\ s <= t < e.

(** The change [payload] that the owner signed, with its document [policy], is
    the policy [p], and the canary admits it: the same canary, under a scope
    for the mode, and to disable it the owner is the one named for that. *)
Record authorises (owner canary : dict pyval) (p : DurableReleasePolicy) (payload policy : pyval) : Prop := {
  au_types : pitem "receipt_type" owner = Ok (PStr CAS) /\ pitem "receipt_type" canary = Ok (PStr CANARY);
  au_payload : pitem "payload" owner = Ok payload /\ py_sub "policy" payload = Ok policy;
  au_workflow : py_sub "workspace_id" payload = Ok (PStr (dp_workspace_id p))
    /\ py_sub "workflow_kind" payload = Ok (PStr (dp_workflow_kind p));
  au_mode : py_sub "to_mode" payload = Ok (PStr (dp_mode p));
  au_revision : exists x, py_sub "target_revision" payload = Ok x /\ py_eq x (PInt (dp_revision p)) = true;
  au_document : exists bytes, encode policy = Ok bytes /\ encode (PDict (dp_policy p)) = Ok bytes;
  au_canary : exists c a bytes, py_sub "canary" policy = Ok c /\ pitem "payload" canary = Ok a
    /\ encode c = Ok bytes /\ encode a = Ok bytes;
  au_scope : exists scope c l, dget (dp_mode p) POLICY_MODE_AUTHORIZATION_SCOPE = Some scope
    /\ py_sub "canary" policy = Ok c /\ py_sub "authorization_scopes" c = Ok l /\ py_in (PStr scope) l = Ok true;
  au_backout : dp_mode p = "disabled" -> exists c, py_sub "canary" policy = Ok c
    /\ same_entry "owner_id" (PDict owner) "backout_owner_id" c;
}.

(** At [t] both receipts are trusted, and the canary is open. *)
Definition in_force (owner canary registry : dict pyval) (digest : string) (t : Z) : Prop :=
  trusted owner registry digest t /\ trusted canary registry digest t /\ window_open canary t.

(** ** What the payload of a change was checked for *)

Record cas_ok (receipt : dict pyval) (payload policy : pyval) (mode : string) : Prop := {
  ca_policy : py_sub "policy" payload = Ok policy;
  ca_to : py_sub "to_mode" payload = Ok (PStr mode);
  ca_from : exists from_mode, py_sub "from_mode" payload = Ok (PStr from_mode) /\ (from_mode, mode) ∈ POLICY_TRANSITIONS;
  ca_next : exists expected target next, py_sub "expected_revision" payload = Ok expected
    /\ py_sub "target_revision" payload = Ok target /\ py_plus_one expected = Ok next /\ py_eq target next = true;
  ca_absent : exists expected from_mode, py_sub "expected_revision" payload = Ok expected
    /\ py_sub "from_mode" payload = Ok from_mode /\ py_eq expected (PInt 0) = py_eq from_mode (PStr "absent");
  ca_document : exists bytes, encode policy = Ok bytes;
  ca_hash : exists bytes, encode policy = Ok bytes /\ py_sub "policy_hash" payload = Ok (PStr (Sha256.hexdigest bytes));
  ca_scope : exists scope c l, dget mode POLICY_MODE_AUTHORIZATION_SCOPE = Some scope
    /\ py_sub "canary" policy = Ok c /\ py_sub "authorization_scopes" c = Ok l /\ py_in (PStr scope) l = Ok true;
  ca_backout : mode = "disabled" -> exists c, py_sub "canary" policy = Ok c
    /\ same_entry "owner_id" (PDict receipt) "backout_owner_id" c;
}.

Lemma known_transition_Ok f t : known_transition f t = Ok true ->
  exists from_mode mode, f = PStr from_mode /\ t = PStr mode /\ (from_mode, mode) ∈ POLICY_TRANSITIONS.
Proof.
  unfold known_transition. destruct (_ && _); [|done]. intros E%Ok_inj.
  apply existsb_elem in E as ([a b] & Hin & E). apply andb_true_iff in E as [Ea Eb]. simpl in Ea, Eb.
  apply py_eq_text_r in Ea, Eb. by exists a, b.
Qed.

Lemma validate_cas_Ok receipt payload u : validate_cas receipt payload = Ok u ->
  exists policy mode, cas_ok receipt payload policy mode.
Proof.
  unfold validate_cas. intros E. do 21 (bind_inv E).
  repeat match goal with H : demand _ _ = Ok _ |- _ => apply demand_Ok in H; try subst end.
  bind_inv E. bind_inv E. bind_inv E.
  apply known_transition_Ok in Ha7 as (from_mode & mode & -> & -> & Ht).
  apply py_eq_text in Ha14. subst a13. destruct (dget mode _) as [scope|] eqn:Es; [|done]. injection Ha15 as <-.
  unfold _canonical_sha256 in Ha12. bind_inv Ha12. injection Ha12 as <-. apply eqb_prop in Ha5.
  exists a0, mode. split; try done; eauto 10.
  intros ->. change (py_eq (PStr "disabled") (PStr "disabled")) with true in E. cbv iota in E. bind_inv E. apply demand_Ok in E.
  exists a16. split; [done|]. do 2 eexists. split_and!; [exact Ha19|done|done].
Qed.

Lemma payload_cas receipt t u : _validate_payload receipt t = Ok u ->
  pitem "receipt_type" receipt = Ok (PStr CAS) ->
  exists payload policy mode, pitem "payload" receipt = Ok payload /\ cas_ok receipt payload policy mode.
Proof.
  unfold _validate_payload. intros E Ht. rewrite Ht in E. cbn [mbind res_bind] in E. bind_inv E.
  change (py_eq (PStr CAS) (PStr "exact_canary_admission")) with false in E.
  change (py_eq (PStr CAS) (PStr "durable_release_policy_cas")) with true in E. cbv iota zeta in E.
  bind_inv E. bind_inv E. apply validate_cas_Ok in Ha1 as (policy & mode & Hc). eauto.
Qed.

Lemma payload_canary receipt t u : _validate_payload receipt t = Ok u ->
  pitem "receipt_type" receipt = Ok (PStr CANARY) -> window_open receipt t.
Proof.
  unfold _validate_payload. intros E Ht. rewrite Ht in E. cbn [mbind res_bind] in E. bind_inv E.
  change (py_eq (PStr CANARY) (PStr "exact_canary_admission")) with true in E. cbv iota zeta in E.
  bind_inv E. clear E. unfold validate_canary in Ha0. repeat (bind_inv Ha0).
  repeat match goal with H : demand _ _ = Ok _ |- _ => apply demand_Ok in H end. bool_prop.
  exists a, a1, a3, a5. split_and!; try done; by eapply timestamp_reads.
Qed.

Lemma exactly_Ok ok code u : exactly ok code = Ok u -> ok = true.
Proof. by destruct ok. Qed.

Lemma relationship_Ok cas canary u : _validate_receipt_relationship cas canary = Ok u ->
  text_entry "receipt_type" (v_receipt cas) -> text_entry "receipt_type" (v_receipt canary) ->
  pitem "receipt_type" (v_receipt cas) = Ok (PStr CAS) /\ pitem "receipt_type" (v_receipt canary) = Ok (PStr CANARY)
  /\ exists payload policy c a bytes, pitem "payload" (v_receipt cas) = Ok payload
    /\ py_sub "policy" payload = Ok policy /\ py_sub "canary" policy = Ok c
    /\ pitem "payload" (v_receipt canary) = Ok a /\ encode c = Ok bytes /\ encode a = Ok bytes.
Proof.
  unfold _validate_receipt_relationship, receipt_text. intros E (s & Hs & _) (s' & Hs' & _).
  rewrite Hs, Hs' in *. bind_inv E. injection Ha as <-. bind_inv E. apply exactly_Ok in Ha.
  bind_inv E. injection Ha0 as <-. bind_inv E. apply exactly_Ok in Ha0. repeat (bind_inv E).
  apply exactly_Ok in E. bool_prop. subst. split; [done|]. split; [done|]. eauto 15.
Qed.
End authority.

(** * Numbers that are equal to an integer *)

Lemma flval_eq_scaled m e m' e' lo : flval_eq (FFin m e) (FFin m' e') = true -> lo <= e -> lo <= e' ->
  m * 2 ^ (e - lo) = m' * 2 ^ (e' - lo).
Proof.
  simpl. intros E%Z.eqb_eq He He'. set (k := Z.min e e') in *.
  replace (e - lo) with ((e - k) + (k - lo)) by lia. replace (e' - lo) with ((e' - k) + (k - lo)) by lia.
  rewrite (Z.pow_add_r 2 (e - k)), (Z.pow_add_r 2 (e' - k)) by lia. nia.
Qed.

Lemma py_eq_num x y f : num_of x = Some f -> py_eq x y = true -> exists g, num_of y = Some g /\ flval_eq f g = true.
Proof. destruct x; try done; destruct y; try done; simpl; intros [= <-] E; eauto. Qed.
Lemma py_eq_int x z : py_eq x (PInt z) = true -> exists m e, num_of x = Some (FFin m e)
  /\ flval_eq (FFin m e) (FFin z 0) = true.
Proof.
  destruct x as [|b|z'|[[m e|b|] r]|s|l|d]; try done; intros E; cbn [py_eq num_of fl_val] in *; try done; eauto.
Qed.

(** Two integers equal to one number are equal. *)
Lemma py_eq_int_inj x y a b : py_eq x y = true -> py_eq x (PInt a) = true -> py_eq y (PInt b) = true -> a = b.
Proof.
  intros E (m & e & Nx & Ea)%py_eq_int (m' & e' & Ny & Eb)%py_eq_int.
  destruct (py_eq_num _ _ _ Nx E) as (g & Ny' & Eg). rewrite Ny in Ny'. injection Ny' as <-.
  set (lo := Z.min 0 (Z.min e e')).
  pose proof (flval_eq_scaled _ _ _ _ lo Ea ltac:(lia) ltac:(lia)). pose proof (flval_eq_scaled _ _ _ _ lo Eb ltac:(lia) ltac:(lia)).
  pose proof (flval_eq_scaled _ _ _ _ lo Eg ltac:(lia) ltac:(lia)).
  assert (0 < 2 ^ (0 - lo)) by (apply Z.pow_pos_nonneg; lia). nia.
Qed.

Lemma flval_eq_sym f g : flval_eq f g = flval_eq g f.
Proof.
  destruct f as [m e|b|], g as [m' e'|b'|]; try done; simpl; [|by destruct b, b']. by rewrite Z.min_comm, Z.eqb_sym.
Qed.
Lemma py_eq_int_sym x z : py_eq x (PInt z) = true -> py_eq (PInt z) x = true.
Proof.
  intros (m & e & Nx & E)%py_eq_int. rewrite flval_eq_sym in E.
  destruct x as [| | |f| | |]; try done; cbn [num_of] in Nx; apply (inj Some) in Nx; rewrite <- Nx in E; exact E.
Qed.

Lemma pos_value_int x z : py_eq x (PInt z) = true -> pos_value x = Ok (0 <? z).
Proof.
  intros (m & e & Nx & E)%py_eq_int. pose proof (flval_eq_scaled _ _ _ _ (Z.min e 0) E ltac:(lia) ltac:(lia)) as Ez.
  assert (0 < 2 ^ (e - Z.min e 0) /\ 0 < 2 ^ (0 - Z.min e 0)) as [P1 P2]
    by (split; apply Z.pow_pos_nonneg; lia).
  destruct x as [|b| |[v r]| | |]; try done; cbn [num_of fl_val] in Nx; injection Nx as ?; subst.
  - rewrite Z.min_id, Z.sub_diag in Ez. destruct b; simpl in *; f_equal; symmetry; [apply Z.ltb_lt|apply Z.ltb_ge]; lia.
  - rewrite Z.min_id, Z.sub_diag in Ez. simpl. do 2 f_equal. lia.
  - simpl. f_equal. apply eq_true_iff_eq. rewrite !Z.ltb_lt. nia.
Qed.

(** Zero plus one is one, rounded or not. *)
Lemma plus_one_zero x n : py_eq x (PInt 0) = true -> py_plus_one x = Ok n -> py_eq n (PInt 1) = true.
Proof.
  intros (m & e & Nx & E)%py_eq_int. pose proof (flval_eq_scaled _ _ _ _ (Z.min e 0) E ltac:(lia) ltac:(lia)) as Ez.
  assert (0 < 2 ^ (e - Z.min e 0)) by (apply Z.pow_pos_nonneg; lia). assert (m = 0) as -> by nia.
  destruct x as [|[]|z|[v r]| | |]; try done; cbn [num_of fl_val] in Nx; injection Nx as ?; subst;
    intros [= <-]; done.
Qed.

Section release.
Context `{OwnerLaws}.

(** Two receipts that verify and belong together. *)
Record pair_ok (owner canary registry : dict pyval) (digest : string) (t : Z) (payload policy : pyval) (mode : string)
    : Prop := {
  pr_force : in_force owner canary registry digest t;
  pr_types : pitem "receipt_type" owner = Ok (PStr CAS) /\ pitem "receipt_type" canary = Ok (PStr CANARY);
  pr_payload : pitem "payload" owner = Ok payload;
  pr_cas : cas_ok owner payload policy mode;
  pr_canary : exists c a bytes, py_sub "canary" policy = Ok c /\ pitem "payload" canary = Ok a
    /\ encode c = Ok bytes /\ encode a = Ok bytes;
  pr_revisions : integer_entry "expected_revision" payload /\ integer_entry "target_revision" payload;
}.

Lemma verified_pair owner canary registry digest now vo vc u :
  verify_owner_decision owner registry digest now = Ok vo ->
  verify_owner_decision canary registry digest now = Ok vc ->
  _validate_receipt_relationship vo vc = Ok u ->
  exists payload policy mode, pair_ok owner canary registry digest (c_time now) payload policy mode.
Proof.
  intros Eo Ec Er. pose proof (verify_trusted _ _ _ _ _ Eo) as To. pose proof (verify_trusted _ _ _ _ _ Ec) as Tc.
  apply verify_fields in Eo as (Ro & _ & _ & _ & _ & So & _ & Po).
  apply verify_fields in Ec as (Rc & _ & _ & _ & _ & Sc & _ & Pc).
  apply relationship_Ok in Er as (Kt & Kc & payload & policy & c & a & bytes & Hp & Hq & Hc & Ha & Hb & Hb');
    [|by rewrite ?Ro, ?Rc; apply receipt_texts; [done|set_solver]..].
  rewrite Ro in *. rewrite Rc in *. pose proof (receipt_revisions owner payload So Kt Hp) as Hr.
  pose proof Kt as Kt0. apply (payload_cas _ _ _ Po) in Kt as (payload' & policy' & mode & Hp' & Hcas).
  assert (payload' = payload) as -> by congruence. assert (policy' = policy) as ->.
  { destruct Hcas as [Hq' _ _ _ _ _ _ _ _]. congruence. }
  pose proof (payload_canary _ _ _ Pc Kc) as Hw.
  exists payload, policy, mode. split; try done; eauto 10.
Qed.

(** * What a commit writes *)

Record row_of (payload policy : pyval) (expected target : Z) (cas canary : VerifiedOwnerDecision)
    (p : DurableReleasePolicy) : Prop := {
  ro_workflow : py_sub "workspace_id" payload = Ok (PStr (dp_workspace_id p))
    /\ py_sub "workflow_kind" payload = Ok (PStr (dp_workflow_kind p));
  ro_mode : py_sub "to_mode" payload = Ok (PStr (dp_mode p));
  ro_hash : py_sub "policy_hash" payload = Ok (PStr (dp_policy_hash p));
  ro_revision : dp_revision p = target;
  ro_supersedes : dp_supersedes_revision p = (if 0 <? expected then Some expected else None);
  ro_policy : policy = PDict (dp_policy p);
  ro_receipts : dp_owner_receipt p = Some (v_receipt cas) /\ dp_canary_receipt p = Some (v_receipt canary);
  ro_ids : exists id, receipt_text "receipt_id" cas = Ok id /\ dp_owner_receipt_id p = Some id;
  ro_hashes : dp_owner_receipt_sha256 p = Some (v_receipt_sha256 cas)
    /\ dp_registry_revision p = Some (v_registry_revision cas) /\ dp_registry_sha256 p = Some (v_registry_sha256 cas);
  ro_key : receipt_text "key_id" cas = Ok (dp_key_id p) /\ receipt_text "owner_id" cas = Ok (dp_created_by p);
  ro_signature : pitem "signature" (v_receipt cas) = Ok (PStr (dp_signature p));
}.

Lemma bind_value_Ok k v s : bind_value k v = Ok s -> v = PStr s.
Proof. destruct v; simpl; congruence. Qed.
Lemma bind_bigint_Ok z z' : bind_bigint z = Ok z' -> z' = z.
Proof. unfold bind_bigint. destruct (_ && _); congruence. Qed.

Lemma policy_row_Ok payload policy e t cas canary p :
  policy_row payload policy e t cas canary = Ok p -> row_of payload policy e t cas canary p.
Proof.
  unfold policy_row. intros E. repeat (bind_inv E). injection E as <-.
  repeat match goal with H : bind_value _ _ = Ok _ |- _ => apply bind_value_Ok in H; subst end.
  repeat match goal with H : bind_bigint _ = Ok _ |- _ => apply bind_bigint_Ok in H; subst end.
  destruct policy as [| | | | | |d]; try done. match goal with H : dict_of _ = Ok _ |- _ => injection H as <- end.
  split; simpl; eauto.
Qed.

Variable jsonb_octets : pyval -> Z.

Lemma insert_policy_Ok p rows b rows' : insert_policy jsonb_octets p rows = (Ok b, rows') ->
  if b then rows' = rows ++ [p] /\ row_ok jsonb_octets p = true /\ existsb (same_key p) rows = false
            /\ existsb (same_receipt p) rows = false
  else rows' = rows.
Proof.
  unfold insert_policy. destruct (row_ok _ p) eqn:Ro; simpl; [|done].
  destruct (existsb (same_key p) rows) eqn:Ek; [by intros [= <- <-]|].
  destruct (existsb (same_receipt p) rows) eqn:Er; [done|]. by intros [= <- <-].
Qed.

(** The policy [p] written over [rows] with the receipts [owner] and [canary],
    after the revision [expected] in the mode [from_mode]. *)
Record commits (seen rows : list DurableReleasePolicy) (owner canary registry : dict pyval) (digest : string)
    (now : clock) (p : DurableReleasePolicy) (vo vc : VerifiedOwnerDecision) (payload policy : pyval) : Prop := {
  co_owner : verify_owner_decision owner registry digest now = Ok vo;
  co_canary : verify_owner_decision canary registry digest now = Ok vc;
  co_related : _validate_receipt_relationship vo vc = Ok tt;
  co_pair : pair_ok owner canary registry digest (c_time now) payload policy (dp_mode p);
  co_row : row_of payload policy (current_revision (read_current seen (dp_workspace_id p) (dp_workflow_kind p)))
             (dp_revision p) vo vc p;
  co_revisions : exists e t, py_sub "expected_revision" payload = Ok e /\ py_sub "target_revision" payload = Ok t
    /\ py_eq e (PInt (current_revision (read_current seen (dp_workspace_id p) (dp_workflow_kind p)))) = true
    /\ py_eq t (PInt (dp_revision p)) = true;
  co_next : dp_revision p = current_revision (read_current seen (dp_workspace_id p) (dp_workflow_kind p)) + 1;
  co_transition : (current_mode (read_current seen (dp_workspace_id p) (dp_workflow_kind p)), dp_mode p)
    ∈ POLICY_TRANSITIONS;
  co_fresh : existsb (same_key p) rows = false /\ existsb (same_receipt p) rows = false;
}.

Lemma entry_int_eq k v x z : integer_entry k v -> py_sub k v = Ok x -> py_int x = Ok z -> py_eq x (PInt z) = true.
Proof. intros (x' & z' & -> & E & _ & Q) [= ->]. rewrite E. by intros [= ->]. Qed.

(** The revision is the next one: at zero because that of an absent policy is,
    elsewhere because the table checks it. *)
Lemma next_revision owner canary registry digest t payload policy mode seen vo vc p :
  pair_ok owner canary registry digest t payload policy mode ->
  row_of payload policy (current_revision seen) (dp_revision p) vo vc p ->
  (x ← py_sub "expected_revision" payload; py_int x) = Ok (current_revision seen) ->
  (x ← py_sub "target_revision" payload; py_int x) = Ok (dp_revision p) ->
  row_ok jsonb_octets p = true -> 0 <= current_revision seen /\ dp_revision p = current_revision seen + 1.
Proof.
  intros Hp Hr Ee Et Ro. bind_inv Ee. bind_inv Et. destruct (pr_revisions _ _ _ _ _ _ _ _ Hp) as [Ie It].
  pose proof (entry_int_eq _ _ _ _ Ie Ha Ee) as Qe. pose proof (entry_int_eq _ _ _ _ It Ha0 Et) as Qt.
  assert (0 <= current_revision seen) as P0
    by (destruct Ie as (x & z & Hx & Hz & ? & _); rewrite Ha in Hx; injection Hx as <-; congruence).
  split; [done|]. destruct (decide (0 < current_revision seen)) as [Hpos|Hz].
  - unfold row_ok in Ro. bool_prop. rewrite (ro_supersedes _ _ _ _ _ _ _ Hr) in *.
    rewrite (proj2 (Z.ltb_lt _ _) Hpos) in *. bool_prop. lia.
  - replace (current_revision seen) with 0 in * by lia.
    destruct (ca_next _ _ _ _ (pr_cas _ _ _ _ _ _ _ _ Hp)) as (e & x & n & He & Hx & Hn & Hq).
    rewrite Ha in He. injection He as <-. rewrite Ha0 in Hx. injection Hx as <-.
    pose proof (plus_one_zero _ _ Qe Hn) as Qn. rewrite (py_eq_int_inj _ _ _ _ Hq Qt Qn). lia.
Qed.

Lemma swap_commits seen rows owner canary registry digest now p rows' :
  compare_and_swap jsonb_octets seen owner canary registry digest now rows = (Ok p, rows') ->
  rows' = rows ++ [p] /\ exists vo vc payload policy, commits seen rows owner canary registry digest now p vo vc payload policy.
Proof.
  unfold compare_and_swap. intros E.
  apply st_bind_Ok_inv in E as (vo & ? & [Eo ->]%lift_Ok & E). apply st_bind_Ok_inv in E as (vc & ? & [Ec ->]%lift_Ok & E).
  apply st_bind_Ok_inv in E as ([] & ? & [Er ->]%lift_Ok & E). apply st_bind_Ok_inv in E as (payload & ? & [Hp ->]%lift_Ok & E).
  apply st_bind_Ok_inv in E as (policy & ? & [Hq ->]%lift_Ok & E). apply st_bind_Ok_inv in E as (w & ? & [Hw' ->]%lift_Ok & E).
  apply st_bind_Ok_inv in E as (k & ? & [Hk' ->]%lift_Ok & E). apply st_bind_Ok_inv in E as (e & ? & [He ->]%lift_Ok & E).
  apply st_bind_Ok_inv in E as (t & ? & [Ht ->]%lift_Ok & E). apply st_bind_Ok_inv in E as (ws & ? & [Hw ->]%lift_Ok & E).
  apply st_bind_Ok_inv in E as (kind & ? & [Hk ->]%lift_Ok & E). cbv zeta in E.
  destruct (_ =? _) eqn:Ee; [|done]. apply Z.eqb_eq in Ee. cbn [negb] in E.
  apply st_bind_Ok_inv in E as (from_mode & ? & [Hf ->]%lift_Ok & E).
  destruct (py_eq _ from_mode) eqn:Ef; [|done]. apply py_eq_text in Ef. cbn [negb] in E.
  apply st_bind_Ok_inv in E as (row & ? & [Hrow ->]%lift_Ok & E). apply st_bind_Ok_inv in E as (b & rows1 & Hi & E).
  apply insert_policy_Ok in Hi. destruct b; [|done]. injection E as -> ->. destruct Hi as (-> & Ro & Fk & Fr). split; [done|].
  apply policy_row_Ok in Hrow. pose proof (ro_revision _ _ _ _ _ _ _ Hrow) as Et. subst t e from_mode.
  destruct (verified_pair _ _ _ _ _ _ _ _ Eo Ec Er) as (payload' & policy' & mode & Hpair).
  pose proof (verify_fields _ _ _ _ _ Eo) as [Vo _]. rewrite Vo in Hp.
  assert (payload' = payload) as -> by (pose proof (pr_payload _ _ _ _ _ _ _ _ Hpair); congruence).
  pose proof (pr_cas _ _ _ _ _ _ _ _ Hpair) as Hc.
  assert (policy' = policy) as -> by (pose proof (ca_policy _ _ _ _ Hc); congruence).
  assert (mode = dp_mode p) as -> by (pose proof (ca_to _ _ _ _ Hc); pose proof (ro_mode _ _ _ _ _ _ _ Hrow); congruence).
  destruct (ro_workflow _ _ _ _ _ _ _ Hrow) as [Rw Rk].
  apply bind_value_Ok in Hw, Hk. assert (ws = dp_workspace_id p) as -> by congruence.
  assert (kind = dp_workflow_kind p) as -> by congruence.
  pose proof (next_revision _ _ _ _ _ _ _ _ _ _ _ _ Hpair Hrow He Ht Ro) as [_ Hn].
  bind_inv He. bind_inv Ht. destruct (pr_revisions _ _ _ _ _ _ _ _ Hpair) as [Ie It].
  exists vo, vc, payload, policy. split; try done.
  - exists a, a0. split_and!; [done|done|exact (entry_int_eq _ _ _ _ Ie Ha He)|exact (entry_int_eq _ _ _ _ It Ha0 Ht)].
  - destruct (ca_from _ _ _ _ Hc) as (fm & Hfm & Ht'). rewrite Hf in Hfm. injection Hfm as ->. done.
Qed.

Lemma pair_authorises owner canary registry digest t payload policy p vo vc e :
  pair_ok owner canary registry digest t payload policy (dp_mode p) ->
  row_of payload policy e (dp_revision p) vo vc p ->
  (exists x, py_sub "target_revision" payload = Ok x /\ py_eq x (PInt (dp_revision p)) = true) ->
  authorises owner canary p payload policy.
Proof.
  intros [Hf Ht Hp Hc Hy _] Hr Hx. destruct Hc as [C1 C2 C3 C4 C5 C6 C7 C8 C9].
  destruct Hr as [R1 R2 R3 R4 R5 R6 R7 R8 R9 R10 R11]. split; try done.
  - destruct C6 as [b Hb]. rewrite R6 in Hb. subst policy. by exists b.
Qed.
End release.
