(* ===== verification/ReleaseTheorems.v ===== *)
(** What the release policies guarantee: every row is signed twice by trusted
    owners, the rows of a workflow form one chain of admitted changes, a
    committed policy verifies again, and an admission rests on signatures that
    hold when it is made. *)
From stdpp Require Import relations.
From S2P Require Import Prelude PyDict PyStr PyVal PyJson PyTime Canonical Ledger OwnerReceipts ReleasePolicy ReleaseFacts ReleaseSample.

(** * The history of a workflow *)

Definition history (workspace_id workflow_kind : string) (rows : list DurableReleasePolicy) : list DurableReleasePolicy :=
  List.filter (of_workflow workspace_id workflow_kind) rows.

(** Every row follows the one before it, which it supersedes, by an admitted
    change of mode. *)
Fixpoint chained (rev : Z) (mode : string) (l : list DurableReleasePolicy) : Prop :=
  match l with
  | [] => True
  | p :: r => dp_revision p = rev + 1 /\ dp_supersedes_revision p = (if 0 <? rev then Some rev else None)
              /\ (mode, dp_mode p) ∈ POLICY_TRANSITIONS /\ chained (rev + 1) (dp_mode p) r
  end.

Section history.

Lemma of_workflow_spec ws kind p : of_workflow ws kind p = true <-> dp_workspace_id p = ws /\ dp_workflow_kind p = kind.
Proof. unfold of_workflow. rewrite andb_true_iff, !bool_decide_eq_true. done. Qed.
Lemma same_key_spec p q : same_key p q = true <->
  of_workflow (dp_workspace_id p) (dp_workflow_kind p) q = true /\ dp_revision q = dp_revision p.
Proof. unfold same_key. rewrite andb_true_iff, Z.eqb_eq. done. Qed.

Lemma newer_chained o p : dp_revision p = current_revision o + 1 -> newer o p = Some p.
Proof. destruct o as [b|]; [|done]. simpl. intros ->. by rewrite (proj2 (Z.ltb_lt _ _)) by lia. Qed.

Lemma policies_chained_app o l k :
  chained (current_revision o) (current_mode o) (l ++ k)
  <-> chained (current_revision o) (current_mode o) l
      /\ chained (current_revision (foldl newer o l)) (current_mode (foldl newer o l)) k.
Proof.
  revert o. induction l as [|a l IH]; intros o; simpl; [tauto|]. split.
  - intros (R & S & T & C). rewrite newer_chained by done. rewrite <- R in C.
    specialize (IH (Some a)). simpl in IH. rewrite <- R. tauto.
  - intros [(R & S & T & C) C']. rewrite newer_chained in C' by done. rewrite <- R in *.
    specialize (IH (Some a)). simpl in IH. tauto.
Qed.

Lemma history_prefix ws kind seen rows : seen `prefix_of` rows ->
  exists late, history ws kind rows = history ws kind seen ++ late.
Proof. intros [k ->]. unfold history. rewrite List.filter_app. eauto. Qed.

(** A row of the next revision is fresh only if the snapshot was not stale. *)
Lemma fresh_snapshot seen rows p :
  seen `prefix_of` rows -> existsb (same_key p) rows = false ->
  chained 0 "absent" (history (dp_workspace_id p) (dp_workflow_kind p) rows) ->
  dp_revision p = current_revision (read_current seen (dp_workspace_id p) (dp_workflow_kind p)) + 1 ->
  history (dp_workspace_id p) (dp_workflow_kind p) rows = history (dp_workspace_id p) (dp_workflow_kind p) seen.
Proof.
  intros Hs Hf Hc Hn. destruct (history_prefix (dp_workspace_id p) (dp_workflow_kind p) _ _ Hs) as [[|q late] E];
    rewrite E in *; [by rewrite app_nil_r|].
  apply (policies_chained_app None) in Hc as [_ [R _]]. change (foldl newer None _) with
    (read_current seen (dp_workspace_id p) (dp_workflow_kind p)) in R.
  assert (q ∈ history (dp_workspace_id p) (dp_workflow_kind p) rows) as Hq by (rewrite E; set_solver).
  apply list_elem_of_In, filter_In in Hq as [Hin Hw]. rewrite <- list_elem_of_In in Hin.
  pose proof (existsb_false _ _ _ Hf Hin) as Hn'. rewrite (proj2 (same_key_spec p q)) in Hn'; [done|].
  split; [done|congruence].
Qed.
End history.

(** * Runs of commits *)

Section runs.
Context `{OwnerLaws}.
Variable jsonb_octets : pyval -> Z.

(** A commit by anyone, at any time and under any registry, whose view of the
    current row may be older than the table. *)
Definition policy_step (rows rows' : list DurableReleasePolicy) : Prop :=
  exists seen owner canary registry digest now p, seen `prefix_of` rows
    /\ compare_and_swap jsonb_octets seen owner canary registry digest now rows = (Ok p, rows').

(** The row was signed for by its owner and its canary's, in a registry of its
    digest, at the time of its commit. *)
Definition signed (p : DurableReleasePolicy) : Prop :=
  exists owner canary registry digest t payload policy,
    dp_owner_receipt p = Some owner /\ dp_canary_receipt p = Some canary /\ dp_registry_sha256 p = Some digest
    /\ in_force owner canary registry digest t /\ authorises owner canary p payload policy.

Record policies_ok (rows : list DurableReleasePolicy) : Prop := {
  po_chains : forall ws kind, chained 0 "absent" (history ws kind rows);
  po_signed : Forall signed rows;
  po_receipts : NoDup (map dp_owner_receipt_id rows);
}.

Lemma commits_receipts seen rows owner canary registry digest now p vo vc payload policy :
  commits seen rows owner canary registry digest now p vo vc payload policy ->
  dp_owner_receipt p = Some owner /\ dp_canary_receipt p = Some canary /\ dp_registry_sha256 p = Some digest.
Proof.
  intros [Eo Ec _ _ Hr _ _ _ _]. destruct (ro_receipts _ _ _ _ _ _ _ Hr) as [-> ->].
  destruct (ro_hashes _ _ _ _ _ _ _ Hr) as (_ & _ & ->).
  apply verify_fields in Eo as (-> & -> & _), Ec as (-> & _). done.
Qed.

Lemma commits_signed seen rows owner canary registry digest now p vo vc payload policy :
  commits seen rows owner canary registry digest now p vo vc payload policy -> signed p.
Proof.
  intros C. destruct (commits_receipts _ _ _ _ _ _ _ _ _ _ _ _ C) as (Ho & Hc & Hd).
  destruct C as [_ _ _ Hp Hr (e & t & _ & Ht & _ & Q) _ _ _].
  exists owner, canary, registry, digest, (c_time now), payload, policy. split_and!; try done.
  - apply Hp.
  - eapply pair_authorises; eauto.
Qed.

Lemma commits_chain seen rows owner canary registry digest now p vo vc payload policy :
  commits seen rows owner canary registry digest now p vo vc payload policy ->
  seen `prefix_of` rows -> policies_ok rows ->
  read_current seen (dp_workspace_id p) (dp_workflow_kind p) = read_current rows (dp_workspace_id p) (dp_workflow_kind p)
  /\ forall ws kind, chained 0 "absent" (history ws kind (rows ++ [p])).
Proof.
  intros [_ _ _ _ Hr _ Hn Ht [Fk _]] Hs [Hc _ _].
  pose proof (fresh_snapshot _ _ _ Hs Fk (Hc _ _) Hn) as Eh.
  assert (read_current seen (dp_workspace_id p) (dp_workflow_kind p)
          = read_current rows (dp_workspace_id p) (dp_workflow_kind p)) as Er
    by (unfold read_current; fold (history (dp_workspace_id p) (dp_workflow_kind p) rows); by rewrite Eh).
  split; [done|]. intros ws kind. unfold history. rewrite List.filter_app. simpl.
  destruct (of_workflow ws kind p) eqn:Ew; [|rewrite app_nil_r; apply Hc].
  apply of_workflow_spec in Ew as [<- <-]. apply (policies_chained_app None). split; [apply Hc|].
  fold (read_current rows (dp_workspace_id p) (dp_workflow_kind p)). simpl. rewrite <- Er.
  rewrite (ro_supersedes _ _ _ _ _ _ _ Hr). done.
Qed.

Lemma commits_fresh_id seen rows owner canary registry digest now p vo vc payload policy :
  commits seen rows owner canary registry digest now p vo vc payload policy ->
  dp_owner_receipt_id p ∉ map dp_owner_receipt_id rows.
Proof.
  intros [_ _ _ _ Hr _ _ _ [_ Fr]] (q & Eq & Hq)%list_elem_of_fmap.
  destruct (ro_ids _ _ _ _ _ _ _ Hr) as (id & _ & Ei). pose proof (existsb_false _ _ _ Fr Hq) as Hf.
  unfold same_receipt in Hf. rewrite <- Eq, Ei in Hf. simpl in Hf. by rewrite bool_decide_true in Hf.
Qed.

Lemma policy_step_ok rows rows' : policies_ok rows -> policy_step rows rows' -> policies_ok rows'.
Proof.
  intros Hok (seen & owner & canary & registry & digest & now & p & Hs & E).
  apply swap_commits in E as (-> & vo & vc & payload & policy & C). split.
  - exact (proj2 (commits_chain _ _ _ _ _ _ _ _ _ _ _ _ C Hs Hok)).
  - apply list.Forall_app. split; [apply Hok|]. constructor; [|constructor]. by eapply commits_signed.
  - rewrite map_app. apply list.NoDup_app. split; [apply Hok|]. split; [|apply NoDup_singleton].
    intros x Hx. simpl. rewrite list_elem_of_singleton. intros ->. by eapply commits_fresh_id.
Qed.

Lemma reachable_policies_ok rows : rtc policy_step [] rows -> policies_ok rows.
Proof.
  revert rows. apply (rtc_ind_r policies_ok []); [split; [done|constructor|constructor]|].
  intros x y _ Hs Hx. by eapply policy_step_ok.
Qed.
(** ** A committed policy verifies again *)

Lemma given_ne {A} (empty : A -> bool) x : empty x = false -> given empty (Some x) = true.
Proof. simpl. by intros ->. Qed.
Lemma empty_text_ne s : s <> "" -> empty_text s = false.
Proof. intros Hs. by apply bool_decide_eq_false_2. Qed.
Lemma empty_dict_ne k d v : pitem k d = Ok v -> empty_dict d = false.
Proof. by destruct d. Qed.
Lemma canonical_sha256_ne v n h : _canonical_sha256 v n = Ok h -> h <> "".
Proof. unfold _canonical_sha256. intros E. bind_inv E. injection E as <-. apply hexdigest_ne. Qed.

Lemma verified_texts receipt registry digest now v : verify_owner_decision receipt registry digest now = Ok v ->
  (forall k, k ∈ ["receipt_id"; "receipt_type"; "owner_id"; "key_id"; "signature"] -> text_entry k receipt)
  /\ v_receipt v = receipt /\ v_registry_sha256 v = digest
  /\ digest <> "" /\ v_receipt_sha256 v <> "" /\ v_registry_revision v <> "".
Proof.
  intros E. pose proof (verify_trusted _ _ _ _ _ E) as (key & raw & T).
  apply verify_fields in E as (Er & Ed & _ & Eh & (r & Hr & Hr') & So & Sk & _). split_and!; try done.
  - intros k Hk. by apply receipt_texts.
  - eapply canonical_sha256_ne, vo_registry, T.
  - by eapply canonical_sha256_ne.
  - apply registry_texts in Sk as (s & Hs & Hne). rewrite Hr' in *. rewrite Hs in Hr. by injection Hr as <-.
Qed.

Lemma commits_process_signature seen rows owner canary registry digest now p vo vc payload policy :
  commits seen rows owner canary registry digest now p vo vc payload policy -> has_process_signature p = true.
Proof.
  intros [Eo Ec _ _ Hr _ _ _ _]. destruct (ro_ids _ _ _ _ _ _ _ Hr) as (id & Hid & Ei).
  destruct (ro_receipts _ _ _ _ _ _ _ Hr) as [R1 R2]. destruct (ro_hashes _ _ _ _ _ _ _ Hr) as (R3 & R4 & R5).
  apply verified_texts in Eo as (To & Ro & Rd & Nd & Nh & Nr), Ec as (Tc & Rc & _).
  destruct (To "receipt_id" ltac:(set_solver)) as (s & Hs & Hne).
  destruct (Tc "receipt_id" ltac:(set_solver)) as (s' & Hs' & _).
  unfold receipt_text in Hid. rewrite Ro, Hs in Hid. injection Hid as <-.
  unfold has_process_signature. rewrite Ei, R1, R2, R3, R4, R5, Ro, Rc, Rd. rewrite !andb_true_iff.
  split_and!; apply given_ne;
    solve [by apply empty_text_ne | by eapply empty_dict_ne].
Qed.

Lemma verify_again receipt registry digest now now' v v' :
  verify_owner_decision receipt registry digest now = Ok v ->
  verify_owner_decision receipt registry digest now' = Ok v' ->
  v' = mkVerified (v_receipt v) (v_receipt_sha256 v) (v_registry_revision v) (v_registry_sha256 v) (c_time now').
Proof.
  intros (E1 & E2 & _ & E3 & (r & E4 & E5) & _)%verify_fields (F1 & F2 & F6 & F3 & (r' & F4 & F5) & _)%verify_fields.
  destruct v as [a b c d t], v' as [a' b' c' d' t']; simpl in *. congruence.
Qed.

Lemma commits_reverify seen rows owner canary registry digest now p vo vc payload policy now' vo' vc' :
  commits seen rows owner canary registry digest now p vo vc payload policy ->
  verify_owner_decision owner registry digest now' = Ok vo' ->
  verify_owner_decision canary registry digest now' = Ok vc' ->
  verify_process_signature p registry digest now' = Ok (vo', vc').
Proof.
  intros C Eo' Ec'. destruct (commits_receipts _ _ _ _ _ _ _ _ _ _ _ _ C) as (Ho & Hc & _).
  pose proof (commits_process_signature _ _ _ _ _ _ _ _ _ _ _ _ C) as Hs.
  destruct C as [Eo Ec Er Hp Hr (e & t & He & Ht & Qe & Qt) _ _ _].
  unfold verify_process_signature. rewrite Ho, Hc, Hs, Eo', Ec'. cbn [mbind res_bind].
  pose proof (verify_again _ _ _ _ _ _ _ Eo Eo') as ->. pose proof (verify_again _ _ _ _ _ _ _ Ec Ec') as ->.
  change (_validate_receipt_relationship _ _) with (_validate_receipt_relationship vo vc). rewrite Er. cbn [mbind res_bind].
  pose proof (verify_fields _ _ _ _ _ Eo) as (Vo & Vd & _).
  destruct (ca_document _ _ _ _ (pr_cas _ _ _ _ _ _ _ _ Hp)) as [bytes Hb].
  destruct Hr as [[R1 R1'] R2 R3 R4 R5 R6 R7 (id & R8 & R8') (R9 & R9' & R9'') (R10 & R10') R11].
  cbn [v_receipt v_receipt_sha256 v_registry_revision v_registry_sha256].
  rewrite Vo in *. rewrite (pr_payload _ _ _ _ _ _ _ _ Hp). cbn [mbind res_bind].
  rewrite R1, R1', Ht, He, R2, R3, (ca_policy _ _ _ _ (pr_cas _ _ _ _ _ _ _ _ Hp)). cbn [mbind res_bind].
  rewrite (pos_value_int _ _ Qe). cbn [mbind res_bind]. rewrite R6 in *. rewrite Hb. cbn [mbind res_bind].
  unfold receipt_text in *. cbn [v_receipt] in *. rewrite Vo in *. rewrite R8, R10, R10', R11. cbn [mbind res_bind].
  rewrite demand_all_true; [done|]. rewrite R5, R8', R9, R9', R9''.
  repeat (apply list.Forall_cons; split); try (cbn; by rewrite ?bool_decide_true).
  simpl. destruct (0 <? _); [by apply py_eq_int_sym|done].
Qed.

(** * The theorems *)

(** C5: the release policies form signed chains. However the commits of any
    number of writers interleave, each reading a snapshot that may be stale when
    it writes (release_policy.py, [compare_and_swap]): the rows of a workflow
    are numbered 1, 2, ... without gap, each supersedes the one before it by an
    admitted change of mode, the first from "absent"; every row carries two
    receipts which, when it was committed, verified: each signed by the one
    trusted key of its owner, alive and authorised for that receipt, and in the
    window of the canary. The owner's receipt was signed for exactly this row
    and names the canary receipt by its id and hash; the canary receipt agrees
    with it on what it admits, but not on the workspace, which nothing compares
    ([ReleaseSample.canary_of_another_workspace]). No owner's receipt is used
    twice; a canary receipt may serve several rows. *)
Theorem policies_form_signed_chains rows : rtc policy_step [] rows ->
  (forall ws kind, chained 0 "absent" (history ws kind rows))
  /\ Forall signed rows /\ NoDup (map dp_owner_receipt_id rows).
Proof. intros R. destruct (reachable_policies_ok _ R) as [C S N]. done. Qed.

(** A committed policy is the current one and verifies again.  A commit
    succeeds only if the snapshot it decided on was the current row; the row it
    returns is what [read_current] then reads, and [verify_process_signature]
    accepts it, under the registry of keys it was committed with, at any later
    time at which its two receipts still verify, the time of the commit
    included.  (Under another registry the row is refused, whatever its receipts
    are worth: the digest of the registry is stored with it.) *)
Theorem committed_policy_reverifies seen rows owner canary registry digest now p rows' :
  rtc policy_step [] rows -> seen `prefix_of` rows ->
  compare_and_swap jsonb_octets seen owner canary registry digest now rows = (Ok p, rows') ->
  read_current seen (dp_workspace_id p) (dp_workflow_kind p) = read_current rows (dp_workspace_id p) (dp_workflow_kind p)
  /\ read_current rows' (dp_workspace_id p) (dp_workflow_kind p) = Some p
  /\ (exists v, verify_process_signature p registry digest now = Ok v)
  /\ forall now' vo vc, verify_owner_decision owner registry digest now' = Ok vo ->
       verify_owner_decision canary registry digest now' = Ok vc ->
       verify_process_signature p registry digest now' = Ok (vo, vc).
Proof.
  intros R Hs (-> & vo & vc & payload & policy & C)%swap_commits. pose proof (reachable_policies_ok _ R) as Hok.
  destruct (commits_chain _ _ _ _ _ _ _ _ _ _ _ _ C Hs Hok) as [E _]. split_and!; [done| | |].
  - unfold read_current. rewrite List.filter_app. simpl.
    rewrite (proj2 (of_workflow_spec _ _ p)) by done. rewrite foldl_app. simpl.
    apply newer_chained. fold (read_current rows (dp_workspace_id p) (dp_workflow_kind p)). rewrite <- E. apply C.
  - exists (vo, vc). eapply commits_reverify; [done|apply C..].
  - intros now' vo' vc' Eo Ec. by eapply commits_reverify.
Qed.

Lemma entry_is k v w : (x ← py_sub k v; Ok (py_eq x w)) = Ok true -> exists x, py_sub k v = Ok x /\ py_eq x w = true.
Proof. intros E. bind_inv E. injection E as E. eauto. Qed.
Lemma entry_str k v s : (x ← py_sub k v; Ok (py_eq x (PStr s))) = Ok true -> py_sub k v = Ok (PStr s).
Proof. by intros (x & Hx & ->%py_eq_text_r)%entry_is. Qed.

(** What [verify_process_signature] has read back. *)
Lemma process_signature_authorises p registry digest now v :
  verify_process_signature p registry digest now = Ok v ->
  exists owner canary payload policy, dp_owner_receipt p = Some owner /\ dp_canary_receipt p = Some canary
    /\ in_force owner canary registry digest (c_time now) /\ authorises owner canary p payload policy.
Proof.
  unfold verify_process_signature. destruct (dp_owner_receipt p) as [owner|]; [|done].
  destruct (dp_canary_receipt p) as [canary|]; [|done]. destruct (has_process_signature p); [|done].
  intros E. bind_inv E. bind_inv E. bind_inv E. destruct a1.
  destruct (verified_pair _ _ _ _ _ _ _ _ Ha Ha0 Ha1) as (payload & policy & mode & [Hf Ht Hp Hc Hy _]).
  apply verify_fields in Ha as (Ro & _). rewrite Ro, Hp in E. cbn [mbind res_bind] in E.
  do 15 (bind_inv E).
  apply demand_all_Ok in Ha15.
  repeat match goal with H : Forall _ (_ :: _) |- _ => apply list.Forall_cons in H as [? H] end. simpl in *. subst a1 a2 a3 a6.
  apply entry_str in Ha, Ha2, Ha6. apply entry_is in Ha3. destruct Hc as [C1 C2 C3 C4 C5 C6 C7 C8 C9].
  assert (mode = dp_mode p) as -> by congruence. assert (a7 = policy) as -> by congruence. bool_prop. subst a9.
  exists owner, canary, payload, policy. split_and!; try done. split; try done. by exists a8.
Qed.

(** C6: an admission rests on signatures that hold when it is made.  Whenever
    [evaluate] (durable_workflow_policy.py) answers a decision for a policy of
    the table, whatever that row holds, the two receipts it carries are, at that
    moment, signed by trusted keys that are neither expired nor revoked, the
    canary's window is open, and together they authorise exactly the row's
    workspace, kind, revision, mode and document; the decision is for that
    workflow and has the row's mode and revision.  Every other row is refused. *)
Theorem admission_fails_closed p workspace_id workflow_kind registry digest now d :
  evaluate (Some p) workspace_id workflow_kind registry digest now = Ok d ->
  dp_workspace_id p = workspace_id /\ dp_workflow_kind p = workflow_kind
  /\ ad_mode d = dp_mode p /\ ad_revision d = dp_revision p /\ ad_policy_hash d = Some (dp_policy_hash p)
  /\ exists owner canary payload policy, dp_owner_receipt p = Some owner /\ dp_canary_receipt p = Some canary
       /\ in_force owner canary registry digest (c_time now) /\ authorises owner canary p payload policy.
Proof.
  unfold evaluate. intros E. destruct (bool_decide (dp_workspace_id p = _)) eqn:Ew; [|done].
  destruct (bool_decide (dp_workflow_kind p = _)) eqn:Ek; [|done]. cbn [negb] in E. bool_prop.
  repeat (bind_inv E). injection E as <-. split_and!; try done.
  match goal with H : unavailable _ = Ok _ |- _ => rename H into V end.
  unfold unavailable in V. destruct (verify_process_signature _ _ _ _) as [v|[]] eqn:Ev; try done;
    [|by repeat break_in V].
  by eapply process_signature_authorises.
Qed.
End runs.

(** * The theorems on a concrete table *)

Lemma rows1_step : policy_step toy_octets [] rows1.
Proof.
  exists [], shadow1, canary1, registry1, registry_digest, ten, policy1. split; [done|]. vm_compute. reflexivity.
Qed.
Lemma rows2_step : policy_step toy_octets rows1 rows2.
Proof.
  exists rows1, enforce1, canary1, registry1, registry_digest, ten, policy2. split; [done|]. vm_compute. reflexivity.
Qed.
Lemma rows2_reachable : rtc (policy_step toy_octets) [] rows2.
Proof. eapply rtc_l; [exact rows1_step|]. apply rtc_once. exact rows2_step. Qed.

Lemma policies_form_signed_chains_witness :
  chained 0 "absent" (history "w1" "execution" rows2) /\ length (history "w1" "execution" rows2) = 2%nat.
Proof.
  split; [exact (proj1 (policies_form_signed_chains toy_octets rows2 rows2_reachable) "w1" "execution")|].
  by vm_compute.
Defined.

Lemma committed_policy_reverifies_witness :
  read_current rows2 "w1" "execution" = Some policy2
  /\ exists v, verify_process_signature policy2 registry1 registry_digest ten = Ok v.
Proof.
  destruct (committed_policy_reverifies toy_octets rows1 rows1 enforce1 canary1 registry1 registry_digest ten policy2 rows2)
    as (_ & E & V & _).
  - exact (rtc_once _ _ rows1_step).
  - done.
  - vm_compute. reflexivity.
  - split; [exact E|exact V].
Defined.

Definition decided : DurableWorkflowAdmissionDecision := Eval vm_compute in
  match evaluate (Some policy2) "w1" "execution" registry1 registry_digest ten with Ok d => d | Raise _ => disabled_decision end.
Lemma admission_fails_closed_witness :
  ad_mode decided = "enforced" /\ exists payload policy, authorises enforce1 canary1 policy2 payload policy.
Proof.
  split; [reflexivity|].
  destruct (admission_fails_closed policy2 "w1" "execution" registry1 registry_digest ten decided)
    as (_ & _ & _ & _ & _ & owner & canary & payload & policy & Ho & Hc & _ & A).
  - vm_compute. reflexivity.
  - exists payload, policy. injection Ho as <-. injection Hc as <-. exact A.
Defined.
