(* ===== verification/IncidentModels.v ===== *)
(** The contracts of the runtime database incidents
    (runtime_database_incident_core/models.py and closure_receipts.py): the
    permits and receipts with their validation, the state of an incident and
    its JSON form.  Times are instants in microseconds; the values of a receipt
    are JSON values, as they are read back from the journal. *)
From S2P Require Import Prelude PyDict PyStr PyVal PyJson PyTime.

(** [datetime.fromisoformat]: the instant, and whether the text names a
    timezone. *)
Class IsoReader : Type := { fromisoformat : string -> option (Z * bool) }.

(** [utc_now()] at the instant [t]. *)
Definition utc_now (t : Z) : string := replace "+00:00" "Z" (isoformat t).

(** ** Small checks *)

Definition blank (s : string) : bool := bool_decide (strip s = "").
Definition _required_text (values : list (string * string)) : list string :=
  map fst (List.filter (fun kv => blank kv.2) values).
Definition texts_missing (name : string) (l : list string) : list string :=
  if bool_decide (l = []) || existsb blank l then [name] else [].
(** [", ".join(sorted(set(missing)))] *)
Definition sorted_names (l : list string) : string :=
  join ", " (dkeys (sort_keys (map (fun k => (k, tt)) (remove_dups l)))).
Definition require (ok : bool) (msg : string) : res unit := if ok then Ok tt else Raise (ValueError msg).
Definition require_complete (what : string) (missing : list string) : res unit :=
  require (bool_decide (missing = [])) (what +:+ " is missing required fields: " +:+ sorted_names missing).

Definition is_hex_text (s : string) : bool := str_forall is_hex s.
Definition length_is (n : nat) (s : string) : bool := Nat.eqb (String.length s) n.
Definition hex_exact (n : nat) (s : string) : bool := length_is n s && is_hex_text s.
Definition _validate_sha256 (value field_name : string) : res unit :=
  require (hex_exact 64 (lower (strip value))) (field_name +:+ "_must_be_sha256").
Fixpoint validate_digests (l : list (string * string)) : res unit :=
  match l with
  | [] => Ok tt
  | (name, v) :: r => _ ← _validate_sha256 v name; validate_digests r
  end.

(** [len(set(l)) == len(l)] *)
Definition unique (l : list string) : bool := Nat.eqb (length (remove_dups l)) (length l).
Definition subset (l k : list string) : bool := forallb (fun x => bool_decide (x ∈ k)) l.
(** [marker in s] *)
Definition contains (marker s : string) : bool :=
  match String.index 0 marker s with Some _ => true | None => false end.
Definition exact_text (s : string) : bool :=
  negb (contains "*" s) && str_forall (fun c => negb (is_space c)) s.

Definition str_list (l : list string) : pyval := PList (map PStr l).

Section receipts.
Context `{IsoReader}.

Definition _parse_timestamp (value field_name : string) : res Z :=
  match fromisoformat (replace "Z" "+00:00" (strip value)) with
  | Some (t, true) => Ok t
  | Some (_, false) => Raise (ValueError (field_name +:+ "_must_include_timezone"))
  | None => Raise (ValueError (field_name +:+ "_must_be_iso8601"))
  end.

Definition minutes (n : Z) : Z := n * 60 * MICROS.

(** * Permits *)

Record IncidentDiagnosticPermit : Type := mkDiagnostic {
  dg_permit_id : string;
  dg_source_commit : string;
  dg_allowed_operation_keys : list string;
  dg_test_evidence_paths : list string;
  dg_capture_evidence_id : string;
  dg_budget_sha256 : string;
  dg_expires_at : string;
  dg_owner : string;
}.

Definition OBSERVER_START : string := "postgres_signal_observer_start@sha256:".
Definition IDENTITY_RELOAD : string := "postgres_identity_logging_reload@sha256:".
Definition key_of (prefix key : string) : bool :=
  starts_with prefix key
  && hex_exact 64 (String.substring (String.length prefix) (String.length key - String.length prefix) key).
Definition diagnostic_key (key : string) : bool := key_of OBSERVER_START key || key_of IDENTITY_RELOAD key.

Definition validate_diagnostic (p : IncidentDiagnosticPermit) (now : Z) : res unit :=
  _ ← require_complete "Incident diagnostic permit"
        (_required_text [("permit_id", dg_permit_id p); ("source_commit", dg_source_commit p);
                         ("capture_evidence_id", dg_capture_evidence_id p); ("budget_sha256", dg_budget_sha256 p);
                         ("expires_at", dg_expires_at p); ("owner", dg_owner p)]
         ++ texts_missing "allowed_operation_keys" (dg_allowed_operation_keys p)
         ++ texts_missing "test_evidence_paths" (dg_test_evidence_paths p));
  _ ← require (hex_exact 64 (dg_budget_sha256 p)) "diagnostic_budget_sha256_invalid";
  let n := String.length (dg_source_commit p) in
  _ ← require (is_hex_text (dg_source_commit p) && Nat.leb 8 n && Nat.leb n 64) "diagnostic_source_commit_invalid";
  _ ← require (Nat.leb (length (dg_allowed_operation_keys p)) 2) "diagnostic_operation_key_limit_exceeded";
  _ ← require (unique (dg_allowed_operation_keys p)) "diagnostic_operation_keys_must_be_unique";
  _ ← require (forallb diagnostic_key (dg_allowed_operation_keys p)) "diagnostic_operation_key_not_allowed";
  expires_at ← _parse_timestamp (dg_expires_at p) "diagnostic_expires_at";
  _ ← require (now <? expires_at) "diagnostic_permit_expired";
  require (expires_at <=? now + minutes 30) "diagnostic_permit_duration_exceeds_30_minutes".

Definition diagnostic_to_dict (p : IncidentDiagnosticPermit) : dict pyval :=
  [("permit_id", PStr (dg_permit_id p)); ("source_commit", PStr (dg_source_commit p));
   ("allowed_operation_keys", str_list (dg_allowed_operation_keys p));
   ("test_evidence_paths", str_list (dg_test_evidence_paths p));
   ("capture_evidence_id", PStr (dg_capture_evidence_id p)); ("budget_sha256", PStr (dg_budget_sha256 p));
   ("expires_at", PStr (dg_expires_at p)); ("owner", PStr (dg_owner p))].

Record IncidentContainmentReceipt : Type := mkContainment {
  ct_permit_id : string;
  ct_trigger_classification : string;
  ct_fix_commit : string;
  ct_allowed_operation_keys : list string;
  ct_test_evidence_paths : list string;
  ct_restore_id : string;
  ct_expires_at : string;
  ct_owner : string;
}.

(** The loop over the keys: the first one that is not exact raises. *)
Fixpoint containment_keys (l : list string) : res unit :=
  match l with
  | [] => Ok tt
  | key :: r =>
      let normalized := strip key in
      _ ← require (Nat.leb (String.length normalized) 256) "containment_operation_key_too_long";
      _ ← require (exact_text normalized) "containment_operation_keys_must_be_exact";
      containment_keys r
  end.

Definition validate_containment (p : IncidentContainmentReceipt) : res unit :=
  _ ← require_complete "Incident containment receipt"
        (_required_text [("permit_id", ct_permit_id p); ("trigger_classification", ct_trigger_classification p);
                         ("fix_commit", ct_fix_commit p); ("restore_id", ct_restore_id p);
                         ("expires_at", ct_expires_at p); ("owner", ct_owner p)]
         ++ texts_missing "allowed_operation_keys" (ct_allowed_operation_keys p)
         ++ texts_missing "test_evidence_paths" (ct_test_evidence_paths p));
  _ ← require (Nat.leb (length (ct_allowed_operation_keys p)) 64) "containment_operation_key_limit_exceeded";
  _ ← require (unique (ct_allowed_operation_keys p)) "containment_operation_keys_must_be_unique";
  _ ← containment_keys (ct_allowed_operation_keys p);
  _ ← require (hex_exact 40 (ct_fix_commit p)) "containment_fix_commit_must_be_exact";
  _ ← _parse_timestamp (ct_expires_at p) "containment_expires_at";
  Ok tt.

Definition containment_to_dict (p : IncidentContainmentReceipt) : dict pyval :=
  [("permit_id", PStr (ct_permit_id p)); ("trigger_classification", PStr (ct_trigger_classification p));
   ("fix_commit", PStr (ct_fix_commit p)); ("allowed_operation_keys", str_list (ct_allowed_operation_keys p));
   ("test_evidence_paths", str_list (ct_test_evidence_paths p)); ("restore_id", PStr (ct_restore_id p));
   ("expires_at", PStr (ct_expires_at p)); ("owner", PStr (ct_owner p))].

Record IncidentPackInstallPermitReceipt : Type := mkPackInstall {
  pi_permit_id : string;
  pi_capability_code : string;
  pi_current_version : string;
  pi_candidate_version : string;
  pi_artifact_sha256 : string;
  pi_allowed_operation_keys : list string;
  pi_preflight_evidence_paths : list string;
  pi_migration_revisions : list string;
  pi_migration_files_digest : string;
  pi_schema_mutation_required : bool;
  pi_backout_install_id : string;
  pi_backout_artifact_sha256 : string;
  pi_expires_at : string;
  pi_owner : string;
  pi_owner_authorization : string;
}.

Definition _EMPTY_MIGRATION_FILES_DIGEST : string :=
  "e3b0c44298fc1c149afbf4c8996fb92427ae41e4649b934ca495991b7852b855".
Definition INTAKE_KEY : string := "capability_install_intake:file@sha256:".
Definition JOB_KEY : string := "capability_install_job@sha256:".

Definition validate_pack_install (p : IncidentPackInstallPermitReceipt) : res unit :=
  _ ← require_complete "Pack install permit"
        (_required_text [("permit_id", pi_permit_id p); ("capability_code", pi_capability_code p);
                         ("current_version", pi_current_version p); ("candidate_version", pi_candidate_version p);
                         ("artifact_sha256", pi_artifact_sha256 p); ("migration_files_digest", pi_migration_files_digest p);
                         ("backout_install_id", pi_backout_install_id p);
                         ("backout_artifact_sha256", pi_backout_artifact_sha256 p); ("expires_at", pi_expires_at p);
                         ("owner", pi_owner p); ("owner_authorization", pi_owner_authorization p)]
         ++ texts_missing "preflight_evidence_paths" (pi_preflight_evidence_paths p)
         ++ (if existsb blank (pi_migration_revisions p) then ["migration_revisions"] else []));
  _ ← require (negb (pi_schema_mutation_required p)) "pack_install_permit_forbids_schema_mutation";
  _ ← validate_digests [("artifact_sha256", pi_artifact_sha256 p); ("migration_files_digest", pi_migration_files_digest p)];
  _ ← require (negb (bool_decide (pi_migration_revisions p = []))
               || bool_decide (lower (strip (pi_migration_files_digest p)) = _EMPTY_MIGRATION_FILES_DIGEST))
        "pack_install_permit_empty_migration_set_digest_mismatch";
  _ ← _validate_sha256 (pi_backout_artifact_sha256 p) "backout_artifact_sha256";
  let artifact_sha256 := lower (strip (pi_artifact_sha256 p)) in
  let required_keys := [INTAKE_KEY +:+ artifact_sha256; JOB_KEY +:+ artifact_sha256] in
  let keys := pi_allowed_operation_keys p in
  _ ← require (subset keys required_keys && subset required_keys keys) "pack_install_permit_operation_keys_must_be_exact";
  _ ← require (Nat.eqb (length keys) 2) "pack_install_permit_operation_keys_must_be_unique";
  _ ← _parse_timestamp (pi_expires_at p) "pack_install_permit_expires_at";
  Ok tt.

Definition pack_install_to_dict (p : IncidentPackInstallPermitReceipt) : dict pyval :=
  [("permit_id", PStr (pi_permit_id p)); ("capability_code", PStr (pi_capability_code p));
   ("current_version", PStr (pi_current_version p)); ("candidate_version", PStr (pi_candidate_version p));
   ("artifact_sha256", PStr (pi_artifact_sha256 p)); ("allowed_operation_keys", str_list (pi_allowed_operation_keys p));
   ("preflight_evidence_paths", str_list (pi_preflight_evidence_paths p));
   ("migration_revisions", str_list (pi_migration_revisions p));
   ("migration_files_digest", PStr (pi_migration_files_digest p));
   ("schema_mutation_required", PBool (pi_schema_mutation_required p));
   ("backout_install_id", PStr (pi_backout_install_id p));
   ("backout_artifact_sha256", PStr (pi_backout_artifact_sha256 p)); ("expires_at", PStr (pi_expires_at p));
   ("owner", PStr (pi_owner p)); ("owner_authorization", PStr (pi_owner_authorization p))].

Record IncidentTargetedMigrationPermitReceipt : Type := mkTargeted {
  tm_permit_id : string;
  tm_alembic_config_name : string;
  tm_revision : string;
  tm_migration_file_sha256 : string;
  tm_migration_mode : string;
  tm_created_relations : list string;
  tm_allowed_operation_key : string;
  tm_preflight_evidence_paths : list string;
  tm_expires_at : string;
  tm_owner : string;
  tm_owner_authorization : string;
}.

Definition validate_targeted (p : IncidentTargetedMigrationPermitReceipt) : res unit :=
  _ ← require_complete "Targeted migration permit"
        (_required_text [("permit_id", tm_permit_id p); ("alembic_config_name", tm_alembic_config_name p);
                         ("revision", tm_revision p); ("migration_file_sha256", tm_migration_file_sha256 p);
                         ("migration_mode", tm_migration_mode p); ("allowed_operation_key", tm_allowed_operation_key p);
                         ("expires_at", tm_expires_at p); ("owner", tm_owner p);
                         ("owner_authorization", tm_owner_authorization p)]
         ++ texts_missing "created_relations" (tm_created_relations p)
         ++ texts_missing "preflight_evidence_paths" (tm_preflight_evidence_paths p));
  _ ← _validate_sha256 (tm_migration_file_sha256 p) "migration_file_sha256";
  _ ← require (bool_decide (tm_migration_mode p = "create_only")) "targeted_migration_permit_requires_create_only";
  _ ← require (bool_decide (tm_allowed_operation_key p
                            = "alembic_upgrade:" +:+ tm_alembic_config_name p +:+ ":" +:+ tm_revision p))
        "targeted_migration_permit_operation_key_must_be_exact";
  _ ← require (forallb (fun r => exact_text (strip r)) (tm_created_relations p))
        "targeted_migration_permit_relations_must_be_exact";
  _ ← _parse_timestamp (tm_expires_at p) "targeted_migration_permit_expires_at";
  Ok tt.

Definition targeted_to_dict (p : IncidentTargetedMigrationPermitReceipt) : dict pyval :=
  [("permit_id", PStr (tm_permit_id p)); ("alembic_config_name", PStr (tm_alembic_config_name p));
   ("revision", PStr (tm_revision p)); ("migration_file_sha256", PStr (tm_migration_file_sha256 p));
   ("migration_mode", PStr (tm_migration_mode p)); ("created_relations", str_list (tm_created_relations p));
   ("allowed_operation_key", PStr (tm_allowed_operation_key p));
   ("preflight_evidence_paths", str_list (tm_preflight_evidence_paths p)); ("expires_at", PStr (tm_expires_at p));
   ("owner", PStr (tm_owner p)); ("owner_authorization", PStr (tm_owner_authorization p))].

(** * Closure *)

(** What the two close receipts are checked for alike. *)
Definition restore_unproven (restore_id : string) : bool :=
  existsb (fun marker => contains marker restore_id) ["not_required"; "not-required"; "unknown"; "unavailable"]
  || bool_decide (restore_id ∈ ["none"; "n/a"; "na"]).
Definition soak_boundaries (soak_window prefix : string) (now : Z) : res (Z * Z) :=
  match split "/" soak_window with
  | [a; b] =>
      started ← _parse_timestamp a (prefix +:+ "_soak_started_at");
      ended ← _parse_timestamp b (prefix +:+ "_soak_ended_at");
      _ ← require (started <? ended) (prefix +:+ "_soak_window_invalid");
      _ ← require (ended <=? now) (prefix +:+ "_soak_window_not_complete");
      Ok (started, ended)
  | _ => Raise (ValueError (prefix +:+ "_soak_window_invalid"))
  end.

Record IncidentCloseReceipt : Type := mkClose {
  cl_deep_trigger_classification : string;
  cl_deep_trigger_event_sha256 : string;
  cl_fix_commit : string;
  cl_containment_evidence_path : string;
  cl_containment_evidence_sha256 : string;
  cl_test_evidence_paths : list string;
  cl_test_evidence_sha256 : string;
  cl_reproduction_evidence_path : string;
  cl_reproduction_evidence_sha256 : string;
  cl_soak_window : string;
  cl_restore_id : string;
  cl_restore_evidence_path : string;
  cl_restore_evidence_sha256 : string;
  cl_resource_budget_evidence_path : string;
  cl_resource_budget_evidence_sha256 : string;
  cl_owner : string;
  cl_owner_receipt_path : string;
  cl_owner_receipt_sha256 : string;
}.

Definition validate_close (p : IncidentCloseReceipt) (now : Z) : res unit :=
  _ ← require_complete "Incident close receipt"
        (_required_text [("deep_trigger_classification", cl_deep_trigger_classification p);
                         ("deep_trigger_event_sha256", cl_deep_trigger_event_sha256 p); ("fix_commit", cl_fix_commit p);
                         ("containment_evidence_path", cl_containment_evidence_path p);
                         ("containment_evidence_sha256", cl_containment_evidence_sha256 p);
                         ("test_evidence_sha256", cl_test_evidence_sha256 p);
                         ("reproduction_evidence_path", cl_reproduction_evidence_path p);
                         ("reproduction_evidence_sha256", cl_reproduction_evidence_sha256 p);
                         ("soak_window", cl_soak_window p); ("restore_id", cl_restore_id p);
                         ("restore_evidence_path", cl_restore_evidence_path p);
                         ("restore_evidence_sha256", cl_restore_evidence_sha256 p);
                         ("resource_budget_evidence_path", cl_resource_budget_evidence_path p);
                         ("resource_budget_evidence_sha256", cl_resource_budget_evidence_sha256 p);
                         ("owner", cl_owner p); ("owner_receipt_path", cl_owner_receipt_path p);
                         ("owner_receipt_sha256", cl_owner_receipt_sha256 p)]
         ++ texts_missing "test_evidence_paths" (cl_test_evidence_paths p));
  let classification := lower (strip (cl_deep_trigger_classification p)) in
  _ ← require (negb (existsb (fun marker => contains marker classification)
                       ["unknown"; "unattributed"; "undetermined"; "unresolved"]))
        "incident_close_requires_attributed_deep_trigger";
  _ ← require (hex_exact 40 (cl_fix_commit p)) "incident_close_fix_commit_must_be_exact";
  _ ← validate_digests [("deep_trigger_event_sha256", cl_deep_trigger_event_sha256 p);
                        ("containment_evidence_sha256", cl_containment_evidence_sha256 p);
                        ("test_evidence_sha256", cl_test_evidence_sha256 p);
                        ("reproduction_evidence_sha256", cl_reproduction_evidence_sha256 p);
                        ("restore_evidence_sha256", cl_restore_evidence_sha256 p);
                        ("resource_budget_evidence_sha256", cl_resource_budget_evidence_sha256 p);
                        ("owner_receipt_sha256", cl_owner_receipt_sha256 p)];
  _ ← require (negb (restore_unproven (lower (strip (cl_restore_id p))))) "incident_close_requires_restore_evidence";
  _ ← soak_boundaries (cl_soak_window p) "incident_close" now;
  Ok tt.

Definition close_to_dict (p : IncidentCloseReceipt) : dict pyval :=
  [("deep_trigger_classification", PStr (cl_deep_trigger_classification p));
   ("deep_trigger_event_sha256", PStr (cl_deep_trigger_event_sha256 p)); ("fix_commit", PStr (cl_fix_commit p));
   ("containment_evidence_path", PStr (cl_containment_evidence_path p));
   ("containment_evidence_sha256", PStr (cl_containment_evidence_sha256 p));
   ("test_evidence_paths", str_list (cl_test_evidence_paths p)); ("test_evidence_sha256", PStr (cl_test_evidence_sha256 p));
   ("reproduction_evidence_path", PStr (cl_reproduction_evidence_path p));
   ("reproduction_evidence_sha256", PStr (cl_reproduction_evidence_sha256 p));
   ("soak_window", PStr (cl_soak_window p)); ("restore_id", PStr (cl_restore_id p));
   ("restore_evidence_path", PStr (cl_restore_evidence_path p));
   ("restore_evidence_sha256", PStr (cl_restore_evidence_sha256 p));
   ("resource_budget_evidence_path", PStr (cl_resource_budget_evidence_path p));
   ("resource_budget_evidence_sha256", PStr (cl_resource_budget_evidence_sha256 p)); ("owner", PStr (cl_owner p));
   ("owner_receipt_path", PStr (cl_owner_receipt_path p)); ("owner_receipt_sha256", PStr (cl_owner_receipt_sha256 p))].

(** ** Exhaustion of the search for the cause (closure_receipts.py) *)

Definition ATTRIBUTION_EXHAUSTION_CLASSIFICATION : string := "historical_event_irretrievable_after_bounded_search".
Definition RESIDUAL_CLOSURE_MODE : string := "residual_attribution_gap".
Definition RESIDUAL_RISK_STATEMENT : string := "event_time_sender_identity_unrecoverable".
Definition RESIDUAL_OWNER : string := "runtime-db-incident-owner".
Definition REQUIRED_SEARCHED_SOURCES : list string :=
  ["codex_tool_calls"; "docker_event_history"; "incident_journal"; "postgres_container_logs"; "postgres_file_logs";
   "runtime_core_dumps"; "signal_observer_events"; "zsh_extended_history"].

Definition canonical_receipt_sha256 (payload : dict pyval) : res string :=
  text ← json_dumps true true (PDict payload); Ok (Sha256.hexdigest (utf8 text)).

Record IncidentAttributionExhaustionReceipt : Type := mkExhaustion {
  ex_incident_id : string;
  ex_classification : string;
  ex_search_started_at : string;
  ex_search_ended_at : string;
  ex_searched_sources : list string;
  ex_evidence_bundle_path : string;
  ex_evidence_bundle_sha256 : string;
  ex_residual_risk_statement : string;
  ex_owner : string;
  ex_owner_authorization : string;
  ex_owner_authorization_path : string;
  ex_owner_authorization_sha256 : string;
  ex_search_complete : bool;
}.

Definition validate_exhaustion (p : IncidentAttributionExhaustionReceipt) (now : Z) : res unit :=
  _ ← require_complete "Attribution exhaustion receipt"
        (_required_text [("incident_id", ex_incident_id p); ("classification", ex_classification p);
                         ("search_started_at", ex_search_started_at p); ("search_ended_at", ex_search_ended_at p);
                         ("evidence_bundle_path", ex_evidence_bundle_path p);
                         ("evidence_bundle_sha256", ex_evidence_bundle_sha256 p);
                         ("residual_risk_statement", ex_residual_risk_statement p); ("owner", ex_owner p);
                         ("owner_authorization", ex_owner_authorization p);
                         ("owner_authorization_path", ex_owner_authorization_path p);
                         ("owner_authorization_sha256", ex_owner_authorization_sha256 p)]);
  _ ← require (bool_decide (ex_classification p = ATTRIBUTION_EXHAUSTION_CLASSIFICATION))
        "attribution_exhaustion_classification_invalid";
  _ ← require (bool_decide (ex_residual_risk_statement p = RESIDUAL_RISK_STATEMENT))
        "attribution_exhaustion_residual_risk_invalid";
  _ ← require (bool_decide (ex_owner p = RESIDUAL_OWNER)) "attribution_exhaustion_owner_invalid";
  _ ← require (ex_search_complete p) "attribution_exhaustion_search_incomplete";
  _ ← require (unique (ex_searched_sources p)) "attribution_exhaustion_sources_must_be_unique";
  _ ← require (subset (ex_searched_sources p) REQUIRED_SEARCHED_SOURCES
               && subset REQUIRED_SEARCHED_SOURCES (ex_searched_sources p)) "attribution_exhaustion_sources_incomplete";
  started_at ← _parse_timestamp (ex_search_started_at p) "attribution_search_started_at";
  ended_at ← _parse_timestamp (ex_search_ended_at p) "attribution_search_ended_at";
  _ ← require (started_at <? ended_at) "attribution_exhaustion_search_window_invalid";
  _ ← require (ended_at - started_at <=? minutes 30) "attribution_exhaustion_search_exceeds_30_minutes";
  _ ← require (ended_at <=? now) "attribution_exhaustion_search_not_complete";
  validate_digests [("attribution_evidence_bundle_sha256", ex_evidence_bundle_sha256 p);
                    ("attribution_owner_authorization_sha256", ex_owner_authorization_sha256 p)].

Definition exhaustion_to_dict (p : IncidentAttributionExhaustionReceipt) : dict pyval :=
  [("incident_id", PStr (ex_incident_id p)); ("classification", PStr (ex_classification p));
   ("search_started_at", PStr (ex_search_started_at p)); ("search_ended_at", PStr (ex_search_ended_at p));
   ("searched_sources", str_list (ex_searched_sources p)); ("evidence_bundle_path", PStr (ex_evidence_bundle_path p));
   ("evidence_bundle_sha256", PStr (ex_evidence_bundle_sha256 p));
   ("residual_risk_statement", PStr (ex_residual_risk_statement p)); ("owner", PStr (ex_owner p));
   ("owner_authorization", PStr (ex_owner_authorization p));
   ("owner_authorization_path", PStr (ex_owner_authorization_path p));
   ("owner_authorization_sha256", PStr (ex_owner_authorization_sha256 p));
   ("search_complete", PBool (ex_search_complete p))].

Record IncidentResidualCloseReceipt : Type := mkResidual {
  rc_closure_mode : string;
  rc_attribution_exhaustion_sha256 : string;
  rc_residual_risk_statement : string;
  rc_fix_commit : string;
  rc_containment_evidence_path : string;
  rc_containment_evidence_sha256 : string;
  rc_test_evidence_paths : list string;
  rc_test_evidence_sha256 : string;
  rc_reproduction_evidence_path : string;
  rc_reproduction_evidence_sha256 : string;
  rc_soak_window : string;
  rc_restore_id : string;
  rc_restore_evidence_path : string;
  rc_restore_evidence_sha256 : string;
  rc_resource_budget_evidence_path : string;
  rc_resource_budget_evidence_sha256 : string;
  rc_owner : string;
  rc_owner_receipt_path : string;
  rc_owner_receipt_sha256 : string;
}.

Definition validate_residual (p : IncidentResidualCloseReceipt) (now : Z) : res unit :=
  _ ← require_complete "Residual close receipt"
        (_required_text [("closure_mode", rc_closure_mode p);
                         ("attribution_exhaustion_sha256", rc_attribution_exhaustion_sha256 p);
                         ("residual_risk_statement", rc_residual_risk_statement p); ("fix_commit", rc_fix_commit p);
                         ("containment_evidence_path", rc_containment_evidence_path p);
                         ("containment_evidence_sha256", rc_containment_evidence_sha256 p);
                         ("test_evidence_sha256", rc_test_evidence_sha256 p);
                         ("reproduction_evidence_path", rc_reproduction_evidence_path p);
                         ("reproduction_evidence_sha256", rc_reproduction_evidence_sha256 p);
                         ("soak_window", rc_soak_window p); ("restore_id", rc_restore_id p);
                         ("restore_evidence_path", rc_restore_evidence_path p);
                         ("restore_evidence_sha256", rc_restore_evidence_sha256 p);
                         ("resource_budget_evidence_path", rc_resource_budget_evidence_path p);
                         ("resource_budget_evidence_sha256", rc_resource_budget_evidence_sha256 p);
                         ("owner", rc_owner p); ("owner_receipt_path", rc_owner_receipt_path p);
                         ("owner_receipt_sha256", rc_owner_receipt_sha256 p)]
         ++ texts_missing "test_evidence_paths" (rc_test_evidence_paths p));
  _ ← require (bool_decide (rc_closure_mode p = RESIDUAL_CLOSURE_MODE)) "residual_close_mode_invalid";
  _ ← require (bool_decide (rc_residual_risk_statement p = RESIDUAL_RISK_STATEMENT))
        "residual_close_risk_statement_invalid";
  _ ← require (bool_decide (rc_owner p = RESIDUAL_OWNER)) "residual_close_owner_invalid";
  _ ← require (hex_exact 40 (rc_fix_commit p)) "residual_close_fix_commit_must_be_exact";
  _ ← validate_digests [("attribution_exhaustion_sha256", rc_attribution_exhaustion_sha256 p);
                        ("containment_evidence_sha256", rc_containment_evidence_sha256 p);
                        ("test_evidence_sha256", rc_test_evidence_sha256 p);
                        ("reproduction_evidence_sha256", rc_reproduction_evidence_sha256 p);
                        ("restore_evidence_sha256", rc_restore_evidence_sha256 p);
                        ("resource_budget_evidence_sha256", rc_resource_budget_evidence_sha256 p);
                        ("owner_receipt_sha256", rc_owner_receipt_sha256 p)];
  _ ← require (negb (restore_unproven (lower (strip (rc_restore_id p))))) "residual_close_requires_restore_evidence";
  _ ← soak_boundaries (rc_soak_window p) "residual_close" now;
  Ok tt.

Definition residual_to_dict (p : IncidentResidualCloseReceipt) : dict pyval :=
  [("closure_mode", PStr (rc_closure_mode p));
   ("attribution_exhaustion_sha256", PStr (rc_attribution_exhaustion_sha256 p));
   ("residual_risk_statement", PStr (rc_residual_risk_statement p)); ("fix_commit", PStr (rc_fix_commit p));
   ("containment_evidence_path", PStr (rc_containment_evidence_path p));
   ("containment_evidence_sha256", PStr (rc_containment_evidence_sha256 p));
   ("test_evidence_paths", str_list (rc_test_evidence_paths p)); ("test_evidence_sha256", PStr (rc_test_evidence_sha256 p));
   ("reproduction_evidence_path", PStr (rc_reproduction_evidence_path p));
   ("reproduction_evidence_sha256", PStr (rc_reproduction_evidence_sha256 p));
   ("soak_window", PStr (rc_soak_window p)); ("restore_id", PStr (rc_restore_id p));
   ("restore_evidence_path", PStr (rc_restore_evidence_path p));
   ("restore_evidence_sha256", PStr (rc_restore_evidence_sha256 p));
   ("resource_budget_evidence_path", PStr (rc_resource_budget_evidence_path p));
   ("resource_budget_evidence_sha256", PStr (rc_resource_budget_evidence_sha256 p)); ("owner", PStr (rc_owner p));
   ("owner_receipt_path", PStr (rc_owner_receipt_path p)); ("owner_receipt_sha256", PStr (rc_owner_receipt_sha256 p))].
End receipts.

(** * The incident *)

Inductive IncidentState : Type := OPEN_UNATTRIBUTED | CONTAINED_PENDING_SOAK | CLOSED.
#[export] Instance IncidentState_eq_dec : EqDecision IncidentState.
Proof. solve_decision. Defined.
Definition state_value (s : IncidentState) : string :=
  match s with
  | OPEN_UNATTRIBUTED => "open_unattributed"
  | CONTAINED_PENDING_SOAK => "contained_pending_soak"
  | CLOSED => "closed"
  end.
Definition parse_state (s : string) : res IncidentState :=
  match List.find (fun x => bool_decide (state_value x = s)) [OPEN_UNATTRIBUTED; CONTAINED_PENDING_SOAK; CLOSED] with
  | Some x => Ok x
  | None => Raise (ValueError (s +:+ " is not a valid IncidentState"))
  end.

(** The optional mappings are JSON values, [PNone] when absent. *)
Record IncidentReceipt : Type := mkIncident {
  in_incident_id : string;
  in_state : IncidentState;
  in_failure_code : string;
  in_postmaster_start_time : string;
  in_first_failure_at : string;
  in_updated_at : string;
  in_evidence_count : Z;
  in_diagnostic_permit : pyval;
  in_containment_receipt : pyval;
  in_pack_install_permits : list pyval;
  in_targeted_migration_permits : list pyval;
  in_close_receipt : pyval;
}.

(** [tuple(v or ())] *)
Definition py_tuple (v : pyval) : res (list pyval) := if truthy v then py_iter v else Ok [].

Definition from_dict (payload : dict pyval) : res IncidentReceipt :=
  let text k := x ← pitem k payload; Ok (py_str x) in
  incident_id ← text "incident_id";
  state ← (s ← text "state"; parse_state s);
  failure_code ← text "failure_code";
  postmaster_start_time ← text "postmaster_start_time";
  first_failure_at ← text "first_failure_at";
  updated_at ← text "updated_at";
  evidence_count ← py_int (pget_or "evidence_count" (PInt 0) payload);
  packs ← py_tuple (pget "pack_install_permits" payload);
  targeted ← py_tuple (pget "targeted_migration_permits" payload);
  Ok (mkIncident incident_id state failure_code postmaster_start_time first_failure_at updated_at evidence_count
        (pget "diagnostic_permit" payload) (pget "containment_receipt" payload) packs targeted
        (pget "close_receipt" payload)).

Definition unless_none (k : string) (v : pyval) : dict pyval := if is_none v then [] else [(k, v)].
Definition unless_empty (k : string) (l : list pyval) : dict pyval := match l with [] => [] | _ => [(k, PList l)] end.
Definition incident_to_dict (r : IncidentReceipt) : dict pyval :=
  [("incident_id", PStr (in_incident_id r)); ("state", PStr (state_value (in_state r)));
   ("failure_code", PStr (in_failure_code r)); ("postmaster_start_time", PStr (in_postmaster_start_time r));
   ("first_failure_at", PStr (in_first_failure_at r)); ("updated_at", PStr (in_updated_at r));
   ("evidence_count", PInt (in_evidence_count r))]
  ++ unless_none "diagnostic_permit" (in_diagnostic_permit r)
  ++ unless_none "containment_receipt" (in_containment_receipt r)
  ++ unless_empty "pack_install_permits" (in_pack_install_permits r)
  ++ unless_empty "targeted_migration_permits" (in_targeted_migration_permits r)
  ++ unless_none "close_receipt" (in_close_receipt r).

Record MutationDecision : Type := mkMutation {
  md_allowed : bool;
  md_operation : string;
  md_reason : string;
  md_incident_id : option string;
  md_retry_after_seconds : Z;
  md_details : dict pyval;
}.

Lemma is_none_true v : is_none v = true -> v = PNone.
Proof. by destruct v. Qed.
Lemma state_value_inj a b : state_value a = state_value b -> a = b.
Proof. by destruct a, b. Qed.
Lemma parse_state_value st : parse_state (state_value st) = Ok st.
Proof. by destruct st. Qed.

(** An incident is read back as it was written. *)
Lemma from_dict_to_dict r : from_dict (incident_to_dict r) = Ok r.
Proof.
  destruct r as [i st f ps ff u n d c pl tl cr]. unfold incident_to_dict, from_dict, unless_none, unless_empty.
  cbn [in_incident_id in_state in_failure_code in_postmaster_start_time in_first_failure_at in_updated_at
       in_evidence_count in_diagnostic_permit in_containment_receipt in_pack_install_permits
       in_targeted_migration_permits in_close_receipt].
  destruct (is_none d) eqn:Ed; [apply is_none_true in Ed as ->|];
    (destruct (is_none c) eqn:Ec; [apply is_none_true in Ec as ->|]);
    (destruct (is_none cr) eqn:Er; [apply is_none_true in Er as ->|]);
    destruct pl as [|p pl], tl as [|q tl]; lazy -[parse_state state_value]; by rewrite parse_state_value.
Qed.
