(* ===== verification/IncidentJournal.v ===== *)
(** The journal of the runtime database incidents
    (runtime_database_incident_core/journal.py, closure_journal.py and
    closure_policy.py): the file of the current incident, replaced as a whole,
    and one append-only file of events per incident, on a file system whose
    every access may fail.

    One lock file makes the operations run one after the other; a process that
    dies gives it back.  What a failing access leaves on the disk is a [fault];
    a process that dies there leaves the same, and does nothing more.  A JSON
    file gives back the value written.  An operation reads the clock before it
    waits for the lock ([t0]) and while it holds it ([t1]). *)
From S2P Require Import Prelude PyDict PyStr PyVal PyJson PyTime IncidentModels.

Definition IncidentJournalUnavailable (what : string) : exn := OtherError "IncidentJournalUnavailable" what.
Definition IncidentTransitionError (msg : string) : exn := OtherError "IncidentTransitionError" msg.
Definition IncidentClosurePolicyError (msg : string) : exn := OtherError "IncidentClosurePolicyError" msg.

(** * The disk *)

(** The text of an event on a line of the log, or a proper prefix of it. *)
Inductive piece : Type := Whole (event : dict pyval) | Part.

(** events.jsonl: the lines, and what follows the last line end. *)
Record log : Type := mkLog { lg_lines : list (list piece); lg_tail : list piece }.
Definition empty_log : log := mkLog [] [].

Record disk : Type := mkDisk { dk_current : option (dict pyval); dk_logs : gmap string log }.

(** How an access ends: done; not at all; with a part of the text, or all of
    it but the line end, written; or all done and then an error. *)
Inductive fault : Type := Clean | Lost | Cut | Unended | Late.
#[export] Instance fault_eq_dec : EqDecision fault.
Proof. solve_decision. Defined.

Record world : Type := mkWorld { w_disk : disk; w_faults : list fault }.
Definition journal (A : Type) : Type := stres world A.

Definition next_fault : journal fault := fun w =>
  match w_faults w with
  | [] => (Ok Clean, w)
  | f :: fs => (Ok f, mkWorld (w_disk w) fs)
  end.
Definition get_disk : journal disk := fun w => (Ok (w_disk w), w).
Definition set_disk (d : disk) : journal unit := fun w => (Ok tt, mkWorld d (w_faults w)).

(** * Access to the files *)

Definition _incident_path (incident_id : string) : string :=
  take_str 20 (Sha256.hexdigest (utf8 incident_id)).

Definition _lock {A} (body : journal A) : journal A :=
  f ← next_fault;
  if bool_decide (f = Clean) then body else raise_st (IncidentJournalUnavailable "lock").

(** [except (OSError, ValueError, KeyError, TypeError)] *)
Definition unreadable (e : exn) : bool :=
  match e with TypeError _ | ValueError _ | KeyError _ => true | _ => false end.
Definition _read_current_unlocked : journal (option IncidentReceipt) :=
  f ← next_fault;
  d ← get_disk;
  match dk_current d with
  | None => mret None
  | Some payload =>
      if bool_decide (f = Clean)
      then r ← lift_res (try_except (from_dict payload) unreadable
                           (Raise (IncidentJournalUnavailable "receipt is unreadable")));
           mret (Some r)
      else raise_st (IncidentJournalUnavailable "receipt is unreadable")
  end.

Definition log_at (d : disk) (path : string) : log := default empty_log (dk_logs d !! path).
(** What an access leaves of the text of [event]. *)
Definition written (f : fault) (event : dict pyval) (l : log) : log :=
  match f with
  | Clean | Late => mkLog (lg_lines l ++ [lg_tail l ++ [Whole event]]) []
  | Lost => l
  | Cut => mkLog (lg_lines l) (lg_tail l ++ [Part])
  | Unended => mkLog (lg_lines l) (lg_tail l ++ [Whole event])
  end.
Definition _append_event_unlocked (incident_id : string) (event : dict pyval) : journal unit :=
  f ← next_fault;
  d ← get_disk;
  let path := _incident_path incident_id in
  _ ← set_disk (mkDisk (dk_current d) (<[path := written f event (log_at d path)]> (dk_logs d)));
  if bool_decide (f = Clean) then mret tt else raise_st (IncidentJournalUnavailable "event append failed").

(** [json.loads] of the lines that are not blank. *)
Definition parse_line (l : list piece) : res (list (dict pyval)) :=
  match l with
  | [] => Ok []
  | [Whole e] => Ok [e]
  | _ => Raise (ValueError "Expecting value")
  end.
Definition parse_log (l : log) : res (list (dict pyval)) :=
  es ← seq_res (map parse_line (lg_lines l ++ [lg_tail l])); Ok (concat es).
Definition _read_events_unlocked (incident_id : string) : journal (list (dict pyval)) :=
  f ← next_fault;
  d ← get_disk;
  match dk_logs d !! _incident_path incident_id, bool_decide (f = Clean) with
  | Some l, true =>
      events ← lift_res (try_except (parse_log l) unreadable
                           (Raise (IncidentJournalUnavailable "events are unreadable")));
      if bool_decide (events = []) then raise_st (IncidentJournalUnavailable "events are invalid")
      else mret events
  | _, _ => raise_st (IncidentJournalUnavailable "events are unreadable")
  end.

Definition _write_current_unlocked (receipt : IncidentReceipt) : journal unit :=
  f ← next_fault;
  d ← get_disk;
  _ ← set_disk (if bool_decide (f = Clean \/ f = Late)
                then mkDisk (Some (incident_to_dict receipt)) (dk_logs d) else d);
  if bool_decide (f = Clean) then mret tt else raise_st (IncidentJournalUnavailable "receipt write failed").

Definition current : journal (option IncidentReceipt) := _lock _read_current_unlocked.

Definition _require_current_unlocked (incident_id : string) : journal IncidentReceipt :=
  current ← _read_current_unlocked;
  match current with
  | Some r => if bool_decide (in_incident_id r = incident_id) then mret r
              else raise_st (IncidentTransitionError ("Incident " +:+ incident_id +:+ " is not current"))
  | None => raise_st (IncidentTransitionError ("Incident " +:+ incident_id +:+ " is not current"))
  end.

(** * Values *)

(** [v.get(k)] and [dict(v or {})]. *)
Definition attr_get (k : string) (v : pyval) : res pyval :=
  match v with
  | PDict d => Ok (pget k d)
  | _ => Raise (AttributeError "object has no attribute 'get'")
  end.
Definition dict_or (v : pyval) : res (dict pyval) :=
  if negb (truthy v) then Ok []
  else match v with PDict d => Ok d | _ => Raise (TypeError "object is not a mapping") end.
(** [str(v or default)] *)
Definition text_or (v : pyval) (dflt : string) : string := py_str (py_or v (PStr dflt)).

Definition ensure (ok : bool) (e : exn) : journal unit := if ok then mret tt else raise_st e.
Definition is_event (name : string) (e : dict pyval) : bool := py_eq (pget "event" e) (PStr name).
Definition event_of (name at_ : string) (fields : dict pyval) : dict pyval :=
  [("event", PStr name); ("at", PStr at_)] ++ fields.

(** [replace(r, ...)] *)
Definition revised (r : IncidentReceipt) (st : IncidentState) (at_ : string) (n : Z) (diagnostic containment : pyval)
    (packs targeted : list pyval) (close : pyval) : IncidentReceipt :=
  mkIncident (in_incident_id r) st (in_failure_code r) (in_postmaster_start_time r) (in_first_failure_at r)
    at_ n diagnostic containment packs targeted close.

(** The event is appended before the receipt is replaced. *)
Definition commit (event : dict pyval) (updated : IncidentReceipt) : journal IncidentReceipt :=
  _ ← _append_event_unlocked (in_incident_id updated) event;
  _ ← _write_current_unlocked updated;
  mret updated.

Section operations.
Context `{IsoReader}.

(** * Failures and permits (journal.py) *)

Definition _is_live_signal_observer_permit (diagnostic_permit : pyval) : bool :=
  match diagnostic_permit with
  | PDict d => match pget "allowed_operation_keys" d with
               | PList l => existsb (fun k => match k with PStr s => starts_with OBSERVER_START s | _ => false end) l
               | _ => false
               end
  | _ => false
  end.

(** [bool(v) and _parse_timestamp(str(v)) > now], where a bad text is false. *)
Definition live_until (expires_at : pyval) (now : Z) : res bool :=
  if truthy expires_at
  then try_except (t ← _parse_timestamp (py_str expires_at) "expires_at"; Ok (now <? t)) is_value_error (Ok false)
  else Ok false.

(** The permits that are still active, and the ids of the others. *)
Fixpoint _partition_active_pack_install_permits (permits : list pyval) (now : Z) : res (list pyval * list string) :=
  match permits with
  | [] => Ok ([], [])
  | permit :: r =>
      expires_at ← attr_get "expires_at" permit;
      permit_active ← live_until expires_at now;
      id ← attr_get "permit_id" permit;
      rest ← _partition_active_pack_install_permits r now;
      Ok (if permit_active : bool then (permit :: rest.1, rest.2) else (rest.1, text_or id "unknown" :: rest.2))
  end.

Definition new_incident (failure_code postmaster_start_time failure_at event_time : string) : IncidentReceipt :=
  let postmaster := str_or postmaster_start_time "unknown" in
  mkIncident ("postgres:" +:+ postmaster +:+ ":" +:+ failure_at) OPEN_UNATTRIBUTED failure_code postmaster failure_at
    event_time 1 PNone PNone [] [] PNone.
Definition failure_event (name failure_code event_time : string) (evidence : dict pyval) : dict pyval :=
  event_of name event_time [("failure_code", PStr failure_code); ("evidence", PDict evidence)].

(** A failure reopens the incident and revokes its containment, and its
    diagnostic permit unless the live observer runs under it. *)
Definition after_failure (r : IncidentReceipt) (event_time : string) : IncidentReceipt :=
  revised r OPEN_UNATTRIBUTED event_time (in_evidence_count r + 1)
    (if _is_live_signal_observer_permit (in_diagnostic_permit r) then in_diagnostic_permit r else PNone) PNone
    (in_pack_install_permits r) (in_targeted_migration_permits r) (in_close_receipt r).
Definition revocation_events (r : IncidentReceipt) (failure_code event_time : string) : res (list (dict pyval)) :=
  let revoked name v :=
    id ← attr_get "permit_id" v;
    Ok [event_of name event_time [("permit_id", id); ("failure_code", PStr failure_code)]] in
  if negb (is_none (in_containment_receipt r)) then revoked "containment_revoked_by_failure" (in_containment_receipt r)
  else if negb (is_none (in_diagnostic_permit r))
  then revoked (if _is_live_signal_observer_permit (in_diagnostic_permit r)
                then "diagnostic_permit_preserved_for_attribution_capture" else "diagnostic_permit_revoked_by_failure")
         (in_diagnostic_permit r)
  else Ok [].
Fixpoint append_all (incident_id : string) (events : list (dict pyval)) : journal unit :=
  match events with
  | [] => mret tt
  | e :: r => _ ← _append_event_unlocked incident_id e; append_all incident_id r
  end.

Definition open_incident (failure_code postmaster_start_time : string) (first_failure_at : option string)
    (evidence : dict pyval) (t0 t1 : Z) : journal IncidentReceipt :=
  let failure_at := str_or (default "" first_failure_at) (utc_now t0) in
  _lock (
    current ← _read_current_unlocked;
    let event_time := utc_now t1 in
    let opened := commit (failure_event "incident_opened" failure_code event_time evidence)
                    (new_incident failure_code postmaster_start_time failure_at event_time) in
    match current with
    | Some r =>
        if bool_decide (in_state r = CLOSED) then opened
        else
        revoked ← lift_res (revocation_events r failure_code event_time);
        _ ← append_all (in_incident_id r) revoked;
        commit (failure_event "failure_observed" failure_code event_time evidence) (after_failure r event_time)
    | None => opened
    end).

(** A permit that is held must have expired before another is recorded. *)
Definition expired_events (incident_id : string) (held : pyval) (t1 : Z) : res (list (dict pyval)) :=
  if is_none held then Ok []
  else
  expires_at ← attr_get "expires_at" held;
  existing_expiry ← _parse_timestamp (text_or expires_at "") "diagnostic_expires_at";
  id ← attr_get "permit_id" held;
  if existing_expiry <=? t1 then Ok [event_of "diagnostic_permit_expired" (utc_now t1) [("permit_id", id)]]
  else Raise (IncidentTransitionError ("Incident " +:+ incident_id +:+ " already has another diagnostic permit")).

Definition record_diagnostic_permit (incident_id : string) (diagnostic_permit : IncidentDiagnosticPermit) (t0 t1 : Z)
    : journal IncidentReceipt :=
  _ ← lift_res (validate_diagnostic diagnostic_permit t0);
  _lock (
    r ← _require_current_unlocked incident_id;
    _ ← ensure (bool_decide (in_state r = OPEN_UNATTRIBUTED))
          (IncidentTransitionError ("Incident " +:+ incident_id +:+ " must remain open for diagnostic permit"));
    let payload := PDict (diagnostic_to_dict diagnostic_permit) in
    let held := in_diagnostic_permit r in
    if py_eq held payload then mret r
    else
    let event_time := utc_now t1 in
    expired ← lift_res (expired_events incident_id held t1);
    _ ← append_all incident_id expired;
    commit (event_of "diagnostic_permit_recorded" event_time [("diagnostic_permit", payload)])
      (revised r (in_state r) event_time (in_evidence_count r) payload (in_containment_receipt r)
         (in_pack_install_permits r) (in_targeted_migration_permits r) (in_close_receipt r))).

Definition record_diagnostic_observation (incident_id permit_id observation_code : string) (evidence : dict pyval) (t1 : Z)
    : journal IncidentReceipt :=
  _ ← lift_res (require (bool_decide (observation_code = "postgres_sigquit_signal_observed"))
                  "diagnostic_observation_code_invalid");
  let exact_permit_id := strip permit_id in
  _ ← lift_res (require (negb (bool_decide (exact_permit_id = ""))) "diagnostic_observation_permit_id_required");
  _lock (
    r ← _require_current_unlocked incident_id;
    diagnostic ← lift_res (dict_or (in_diagnostic_permit r));
    _ ← ensure (py_eq (pget "permit_id" diagnostic) (PStr exact_permit_id))
          (IncidentTransitionError ("Incident " +:+ incident_id +:+ " diagnostic permit does not match"));
    permit_active ← lift_res (try_except
      (t ← _parse_timestamp (text_or (pget "expires_at" diagnostic) "") "diagnostic_expires_at"; Ok (t1 <? t))
      is_value_error (Ok false));
    _ ← ensure permit_active
          (IncidentTransitionError ("Incident " +:+ incident_id +:+ " diagnostic permit is expired"));
    let event_time := utc_now t1 in
    commit (event_of "diagnostic_observation_recorded" event_time
              [("permit_id", PStr exact_permit_id); ("observation_code", PStr observation_code); ("evidence", PDict evidence)])
      (revised r (in_state r) event_time (in_evidence_count r + 1) (in_diagnostic_permit r) (in_containment_receipt r)
         (in_pack_install_permits r) (in_targeted_migration_permits r) (in_close_receipt r))).

Definition revoke_diagnostic_permit (incident_id terminal_reason : string) (failure_code : option string) (t1 : Z)
    : journal IncidentReceipt :=
  let reason := strip terminal_reason in
  let failure := strip (default "" failure_code) in
  let failed := negb (bool_decide (failure = "")) in
  _ ← lift_res (require (negb (bool_decide (reason = ""))) "diagnostic_permit_terminal_reason_required");
  _lock (
    r ← _require_current_unlocked incident_id;
    _ ← ensure (negb (is_none (in_diagnostic_permit r)))
          (IncidentTransitionError ("Incident " +:+ incident_id +:+ " has no diagnostic permit to revoke"));
    let event_time := utc_now t1 in
    permit_id ← lift_res (attr_get "permit_id" (in_diagnostic_permit r));
    commit (event_of (if failed then "diagnostic_permit_revoked_by_failure" else "diagnostic_permit_consumed_terminal")
              event_time ([("permit_id", permit_id); ("terminal_reason", PStr reason)]
                          ++ (if failed then [("failure_code", PStr failure)] else [])))
      (revised r (in_state r) event_time (in_evidence_count r + (if failed then 1 else 0)) PNone
         (if failed then PNone else in_containment_receipt r)
         (in_pack_install_permits r) (in_targeted_migration_permits r) (in_close_receipt r))).

Definition record_diagnostic_ownership_handback (incident_id owner terminal_reason : string)
    (remaining_resources_verified : bool) (t1 : Z) : journal (dict pyval) :=
  let exact_owner := strip owner in
  let reason := strip terminal_reason in
  _ ← lift_res (require (bool_decide (exact_owner = "runtime-db-incident-owner")) "diagnostic_ownership_handback_owner_invalid");
  _ ← lift_res (require (negb (bool_decide (reason = ""))) "diagnostic_ownership_handback_reason_required");
  _ ← lift_res (require remaining_resources_verified "diagnostic_ownership_handback_resources_not_verified");
  _lock (
    r ← _require_current_unlocked incident_id;
    _ ← ensure (is_none (in_diagnostic_permit r))
          (IncidentTransitionError ("Incident " +:+ incident_id +:+ " diagnostic permit is still active"));
    let event := event_of "diagnostic_observer_ownership_handed_back" (utc_now t1)
                   [("owner_before", PStr exact_owner); ("owner_after", PStr "none"); ("terminal_reason", PStr reason);
                    ("remaining_resources_verified", PBool true)] in
    _ ← _append_event_unlocked incident_id event;
    mret event).

Definition mark_contained (incident_id : string) (containment_receipt : IncidentContainmentReceipt) (t0 t1 : Z)
    : journal IncidentReceipt :=
  _ ← lift_res (validate_containment containment_receipt);
  expires_at ← lift_res (_parse_timestamp (ct_expires_at containment_receipt) "containment_expires_at");
  _ ← lift_res (require (t0 <? expires_at) "containment_receipt_expired");
  _lock (
    r ← _require_current_unlocked incident_id;
    let payload := PDict (containment_to_dict containment_receipt) in
    match in_state r with
    | CONTAINED_PENDING_SOAK =>
        if py_eq (in_containment_receipt r) payload then mret r
        else raise_st (IncidentTransitionError ("Incident " +:+ incident_id +:+ " is already contained with another receipt"))
    | CLOSED => raise_st (IncidentTransitionError ("Incident " +:+ incident_id +:+ " cannot transition from closed to contained"))
    | OPEN_UNATTRIBUTED =>
        let event_time := utc_now t1 in
        commit (event_of "incident_contained" event_time [("containment_receipt", payload)])
          (revised r CONTAINED_PENDING_SOAK event_time (in_evidence_count r) PNone payload
             (in_pack_install_permits r) (in_targeted_migration_permits r) (in_close_receipt r))
    end).

(** The first of the permits with that id. *)
Fixpoint first_with_id (permit_id : string) (permits : list pyval) : res (option pyval) :=
  match permits with
  | [] => Ok None
  | item :: r =>
      id ← attr_get "permit_id" item;
      if bool_decide (text_or id "" = permit_id) then Ok (Some item) else first_with_id permit_id r
  end.

Definition grant_pack_install_permit (incident_id : string) (permit_receipt : IncidentPackInstallPermitReceipt) (t0 t1 : Z)
    : journal IncidentReceipt :=
  _ ← lift_res (validate_pack_install permit_receipt);
  expires_at ← lift_res (_parse_timestamp (pi_expires_at permit_receipt) "pack_install_permit_expires_at");
  _ ← lift_res (require (t0 <? expires_at) "pack_install_permit_expired");
  _lock (
    r ← _require_current_unlocked incident_id;
    _ ← ensure (negb (bool_decide (in_state r = CLOSED)))
          (IncidentTransitionError ("Incident " +:+ incident_id +:+ " is already closed"));
    let permit_payload := PDict (pack_install_to_dict permit_receipt) in
    found ← lift_res (first_with_id (pi_permit_id permit_receipt) (in_pack_install_permits r));
    match found with
    | Some item =>
        if py_eq item permit_payload then mret r
        else raise_st (IncidentTransitionError ("Permit " +:+ pi_permit_id permit_receipt +:+ " already has another receipt"))
    | None =>
        parts ← lift_res (_partition_active_pack_install_permits (in_pack_install_permits r) t1);
        _ ← ensure (Nat.ltb (length parts.1) 16) (IncidentTransitionError "pack_install_permit_limit_exceeded");
        let event_time := utc_now t1 in
        commit (event_of "pack_install_permit_granted" event_time
                  [("permit_receipt", permit_payload); ("expired_permit_ids_pruned", str_list parts.2)])
          (revised r (in_state r) event_time (in_evidence_count r) (in_diagnostic_permit r) (in_containment_receipt r)
             (parts.1 ++ [permit_payload]) (in_targeted_migration_permits r) (in_close_receipt r))
    end).

(** The permits without that id. *)
Fixpoint without_id (permit_id : string) (permits : list pyval) : res (list pyval) :=
  match permits with
  | [] => Ok []
  | item :: r =>
      id ← attr_get "permit_id" item;
      rest ← without_id permit_id r;
      Ok (if bool_decide (text_or id "" = permit_id) then rest else item :: rest)
  end.

Definition revoke_pack_install_permit (incident_id permit_id terminal_install_id terminal_status terminal_evidence_path : string)
    (t1 : Z) : journal IncidentReceipt :=
  let exact_permit_id := strip permit_id in
  let exact_install_id := strip terminal_install_id in
  let exact_evidence_path := strip terminal_evidence_path in
  _ ← lift_res (require (negb (bool_decide (exact_permit_id = ""))) "pack_install_permit_id_required");
  _ ← lift_res (require (negb (bool_decide (exact_install_id = ""))) "pack_install_terminal_install_id_required");
  _ ← lift_res (require (bool_decide (terminal_status ∈ ["succeeded"; "failed"; "cancelled"])) "pack_install_terminal_status_invalid");
  _ ← lift_res (require (negb (bool_decide (exact_evidence_path = ""))) "pack_install_terminal_evidence_path_required");
  let expected_receipt := [("permit_id", PStr exact_permit_id); ("terminal_install_id", PStr exact_install_id);
                           ("terminal_status", PStr terminal_status); ("terminal_evidence_path", PStr exact_evidence_path)] in
  _lock (
    r ← _require_current_unlocked incident_id;
    retained ← lift_res (without_id exact_permit_id (in_pack_install_permits r));
    if Nat.eqb (length retained) (length (in_pack_install_permits r))
    then
      events ← _read_events_unlocked incident_id;
      match last (List.filter (fun e => is_event "pack_install_permit_revoked" e
                                        && py_eq (pget "permit_id" e) (PStr exact_permit_id)) events) with
      | Some prior =>
          if forallb (fun kv => py_eq (pget kv.1 prior) kv.2) expected_receipt then mret r
          else raise_st (IncidentTransitionError ("Permit " +:+ exact_permit_id +:+ " was already revoked with another receipt"))
      | None => raise_st (IncidentTransitionError ("Permit " +:+ exact_permit_id +:+ " is not active"))
      end
    else
      let event_time := utc_now t1 in
      commit (event_of "pack_install_permit_revoked" event_time expected_receipt)
        (revised r (in_state r) event_time (in_evidence_count r) (in_diagnostic_permit r) (in_containment_receipt r)
           retained (in_targeted_migration_permits r) (in_close_receipt r))).

Definition grant_targeted_migration_permit (incident_id : string) (permit_receipt : IncidentTargetedMigrationPermitReceipt)
    (t0 t1 : Z) : journal IncidentReceipt :=
  _ ← lift_res (validate_targeted permit_receipt);
  expires_at ← lift_res (_parse_timestamp (tm_expires_at permit_receipt) "targeted_migration_permit_expires_at");
  _ ← lift_res (require (t0 <? expires_at) "targeted_migration_permit_expired");
  _lock (
    r ← _require_current_unlocked incident_id;
    _ ← ensure (negb (bool_decide (in_state r = CLOSED)))
          (IncidentTransitionError ("Incident " +:+ incident_id +:+ " is already closed"));
    let permit_payload := PDict (targeted_to_dict permit_receipt) in
    let existing := in_targeted_migration_permits r in
    found ← lift_res (first_with_id (tm_permit_id permit_receipt) existing);
    match found with
    | Some item =>
        if py_eq item permit_payload then mret r
        else raise_st (IncidentTransitionError ("Permit " +:+ tm_permit_id permit_receipt +:+ " already has another receipt"))
    | None =>
        _ ← ensure (Nat.ltb (length existing) 16) (IncidentTransitionError "targeted_migration_permit_limit_exceeded");
        let event_time := utc_now t1 in
        commit (event_of "targeted_migration_permit_granted" event_time [("permit_receipt", permit_payload)])
          (revised r (in_state r) event_time (in_evidence_count r) (in_diagnostic_permit r) (in_containment_receipt r)
             (in_pack_install_permits r) (existing ++ [permit_payload]) (in_close_receipt r))
    end).

(** * Closure (closure_policy.py) *)

(** [int(value)] when it is a positive integer. *)
Definition _positive_int (value : pyval) : res bool :=
  try_except (z ← py_int value; Ok (0 <? z)) is_type_or_value_error (Ok false).
Definition said (v : pyval) : bool := negb (blank (text_or v "")).
Definition and_then (a b : res bool) : res bool := x ← a; if x : bool then b else Ok false.

(** What both close receipts are compared on. *)
Record close_evidence : Type := mkEvidence {
  ce_fix_commit : string;
  ce_restore_id : string;
  ce_owner : string;
  ce_test_evidence_paths : list string;
  ce_soak_window : string;
}.
Definition of_close (p : IncidentCloseReceipt) : close_evidence :=
  mkEvidence (cl_fix_commit p) (cl_restore_id p) (cl_owner p) (cl_test_evidence_paths p) (cl_soak_window p).
Definition of_residual (p : IncidentResidualCloseReceipt) : close_evidence :=
  mkEvidence (rc_fix_commit p) (rc_restore_id p) (rc_owner p) (rc_test_evidence_paths p) (rc_soak_window p).

Definition policy (ok : bool) (msg : string) : res unit :=
  if ok then Ok tt else Raise (IncidentClosurePolicyError msg).
Definition event_at (e : dict pyval) (field : string) : res Z := _parse_timestamp (text_or (pget "at" e) "") field.

Definition latest (times : list Z) : option Z :=
  match times with [] => None | t :: r => Some (foldl Z.max t r) end.

(** The events that contained the incident with this receipt, those before
    the last reopening left out. *)
Fixpoint contained_events (containment : dict pyval) (latest_reopen_at : option Z) (events : list (dict pyval))
    : res (list (dict pyval)) :=
  match events with
  | [] => Ok []
  | e :: r =>
      if negb (is_event "incident_contained" e) || negb (py_eq (pget "containment_receipt" e) (PDict containment))
      then contained_events containment latest_reopen_at r
      else
      counts ← match latest_reopen_at with
               | None => Ok true
               | Some t => contained_at ← event_at e "incident_contained_at"; Ok (t <? contained_at)
               end;
      rest ← contained_events containment latest_reopen_at r;
      Ok (if counts : bool then e :: rest else rest)
  end.

Definition _require_common_close_evidence (current : IncidentReceipt) (close_receipt : close_evidence)
    (events : list (dict pyval)) : res (dict pyval * Z) :=
  _ ← policy (bool_decide (in_state current = CONTAINED_PENDING_SOAK))
        ("Incident " +:+ in_incident_id current +:+ " must be contained before close");
  containment ← dict_or (in_containment_receipt current);
  _ ← policy (py_eq (PStr (ce_fix_commit close_receipt)) (pget "fix_commit" containment))
        "incident_close_fix_commit_must_match_containment";
  _ ← policy (py_eq (PStr (ce_restore_id close_receipt)) (pget "restore_id" containment))
        "incident_close_restore_id_must_match_containment";
  _ ← policy (py_eq (PStr (ce_owner close_receipt)) (pget "owner" containment))
        "incident_close_owner_must_match_containment";
  paths ← py_tuple (pget "test_evidence_paths" containment);
  containment_tests ← py_set paths;
  _ ← policy (forallb (fun x => existsb (py_eq x) (map PStr (ce_test_evidence_paths close_receipt))) containment_tests)
        "incident_close_tests_must_include_containment_evidence";
  reopened ← seq_res (map (fun e => event_at e "containment_reopened_at")
                        (List.filter (is_event "containment_reopened_for_attribution") events));
  contained ← contained_events containment (latest reopened) events;
  match contained with
  | [e] =>
      contained_at ← event_at e "incident_contained_at";
      soak_started_at ← _parse_timestamp (default "" (head (split "/" (ce_soak_window close_receipt))))
                          "incident_close_soak_started_at";
      _ ← policy (contained_at <=? soak_started_at) "incident_close_soak_must_follow_containment";
      Ok (containment, contained_at)
  | _ => Raise (IncidentClosurePolicyError "incident_close_requires_exact_current_containment_event")
  end.

(** The conditions on the observation of the cause, up to the first that fails. *)
Definition is_trigger (close_receipt : IncidentCloseReceipt) (event : dict pyval) : res bool :=
  if negb (is_event "diagnostic_observation_recorded" event)
     || negb (py_eq (pget "observation_code" event) (PStr "postgres_sigquit_signal_observed"))
  then Ok false
  else
  match pget "evidence" event with
  | PDict evidence =>
      let get k := pget k evidence in
      if py_eq (get "event_context") (PStr "live_runtime")
         && py_eq (get "signal_event_sha256") (PStr (cl_deep_trigger_event_sha256 close_receipt))
         && said (get "sender_comm")
      then and_then (_positive_int (get "sender_host_pid"))
          (and_then (_positive_int (get "target_host_pid"))
          (and_then (_positive_int (get "target_postgres_pid"))
          (and_then (Ok (said (get "application_name") && py_eq (get "client_process_pid_available") (PStr "true")))
          (and_then (_positive_int (get "client_process_pid")) (Ok (said (get "signal_event_path")))))))
      else Ok false
  | _ => Ok false
  end.

Definition validate_attributable_close (current : IncidentReceipt) (close_receipt : IncidentCloseReceipt)
    (events : list (dict pyval)) : res (dict pyval) :=
  _ ← _require_common_close_evidence current (of_close close_receipt) events;
  found ← seq_res (map (is_trigger close_receipt) events);
  _ ← policy (Nat.eqb (length (List.filter (fun b => b) found)) 1) "incident_close_requires_exact_live_deep_trigger_event";
  Ok (dset "closure_mode" (PStr "attributable") (close_to_dict close_receipt)).

Definition validate_residual_close (current : IncidentReceipt) (close_receipt : IncidentResidualCloseReceipt)
    (events : list (dict pyval)) : res (dict pyval) :=
  common ← _require_common_close_evidence current (of_residual close_receipt) events;
  match List.filter (is_event "attribution_exhaustion_recorded") events with
  | [exhaustion_event] =>
      let matches :=
        match pget "attribution_exhaustion_receipt" exhaustion_event with
        | PDict exhaustion =>
            py_eq (pget "attribution_exhaustion_sha256" exhaustion_event) (PStr (rc_attribution_exhaustion_sha256 close_receipt))
            && py_eq (pget "incident_id" exhaustion) (PStr (in_incident_id current))
            && py_eq (pget "classification" exhaustion) (PStr ATTRIBUTION_EXHAUSTION_CLASSIFICATION)
            && py_eq (pget "residual_risk_statement" exhaustion) (PStr RESIDUAL_RISK_STATEMENT)
            && match pget "search_complete" exhaustion with PBool b => b | _ => false end
        | _ => false
        end in
      _ ← policy matches "residual_close_attribution_exhaustion_mismatch";
      exhaustion_at ← event_at exhaustion_event "attribution_exhaustion_recorded_at";
      _ ← policy (exhaustion_at <=? common.2) "residual_close_exhaustion_must_precede_containment";
      Ok (residual_to_dict close_receipt)
  | _ => Raise (IncidentClosurePolicyError "residual_close_requires_exact_attribution_exhaustion_event")
  end.

(** * Terminal transitions (closure_journal.py) *)

(** [file] is what the authorization path holds, if it can be read. *)
Definition reopen_for_attribution (incident_id owner authorization authorization_path authorization_sha256 reason : string)
    (file : option (list N)) (t1 : Z) : journal IncidentReceipt :=
  _ ← lift_res (require (bool_decide (owner = "runtime-db-incident-owner")) "attribution_reopen_owner_invalid");
  _ ← lift_res (require (bool_decide (reason = "containment_preceded_attribution_exhaustion")) "attribution_reopen_reason_invalid");
  _ ← lift_res (require (negb (blank authorization) && negb (blank authorization_path)) "attribution_reopen_authorization_missing");
  _ ← lift_res (require (hex_exact 64 authorization_sha256) "attribution_reopen_authorization_sha256_invalid");
  _ ← lift_res match file with
               | Some bytes => require (bool_decide (Sha256.hexdigest bytes = authorization_sha256))
                                 "attribution_reopen_authorization_sha256_mismatch"
               | None => Raise (ValueError "attribution_reopen_authorization_unavailable")
               end;
  _lock (
    r ← _require_current_unlocked incident_id;
    match in_state r with
    | OPEN_UNATTRIBUTED =>
        if is_none (in_containment_receipt r) then mret r
        else raise_st (IncidentTransitionError "Incident already open with unexpected containment projection")
    | CLOSED => raise_st (IncidentTransitionError "Closed incidents cannot be reopened for attribution")
    | CONTAINED_PENDING_SOAK =>
        events ← _read_events_unlocked incident_id;
        _ ← ensure (negb (existsb (is_event "attribution_exhaustion_recorded") events))
              (IncidentTransitionError "Attribution exhaustion already recorded");
        _ ← ensure (negb (is_none (in_containment_receipt r)))
              (IncidentTransitionError "Contained incident has no current containment receipt");
        let event_time := utc_now t1 in
        commit (event_of "containment_reopened_for_attribution" event_time
                  [("reason", PStr reason); ("owner", PStr owner); ("authorization", PStr authorization);
                   ("authorization_path", PStr authorization_path); ("authorization_sha256", PStr authorization_sha256);
                   ("revoked_containment_receipt", in_containment_receipt r)])
          (revised r OPEN_UNATTRIBUTED event_time (in_evidence_count r + 1) (in_diagnostic_permit r) PNone
             (in_pack_install_permits r) (in_targeted_migration_permits r) (in_close_receipt r))
    end).

Definition RENEWAL_SCOPE : list string :=
  ["trigger_classification"; "fix_commit"; "allowed_operation_keys"; "test_evidence_paths"; "restore_id"; "owner"].

Definition renew_containment (incident_id : string) (containment_receipt : IncidentContainmentReceipt)
    (authorization : string) (t0 t1 : Z) : journal IncidentReceipt :=
  _ ← lift_res (validate_containment containment_receipt);
  _ ← lift_res (require (negb (blank authorization)) "containment_renewal_authorization_missing");
  new_expiry ← lift_res (_parse_timestamp (ct_expires_at containment_receipt) "containment_expires_at");
  _ ← lift_res (require ((t0 <? new_expiry) && (new_expiry <=? t0 + minutes 30)) "containment_renewal_expiry_out_of_bounds");
  _lock (
    r ← _require_current_unlocked incident_id;
    _ ← ensure (negb (bool_decide (in_state r = CLOSED))) (IncidentTransitionError "Closed incidents cannot renew containment");
    _ ← ensure (bool_decide (in_state r = CONTAINED_PENDING_SOAK))
          (IncidentTransitionError "Only contained incidents can renew containment");
    previous ← lift_res (dict_or (in_containment_receipt r));
    _ ← ensure (negb (bool_decide (previous = [])))
          (IncidentTransitionError "Contained incident has no current containment receipt");
    let candidate := containment_to_dict containment_receipt in
    _ ← lift_res (require (forallb (fun k => py_eq (pget k candidate) (pget k previous)) RENEWAL_SCOPE)
                    "containment_renewal_scope_changed");
    let event_time := utc_now t1 in
    commit (event_of "containment_renewed" event_time
              [("authorization", PStr authorization); ("previous_containment_receipt", PDict previous);
               ("containment_receipt", PDict candidate)])
      (revised r (in_state r) event_time (in_evidence_count r) (in_diagnostic_permit r) (PDict candidate)
         (in_pack_install_permits r) (in_targeted_migration_permits r) (in_close_receipt r))).

Definition _finalize_close_unlocked (r : IncidentReceipt) (close_payload : dict pyval) (t1 : Z) : journal IncidentReceipt :=
  let event_time := utc_now t1 in
  commit (event_of "incident_closed" event_time
            [("closure_mode", pget "closure_mode" close_payload); ("close_receipt", PDict close_payload)])
    (revised r CLOSED event_time (in_evidence_count r) PNone PNone
       (in_pack_install_permits r) (in_targeted_migration_permits r) (PDict close_payload)).

(** [except IncidentClosurePolicyError] *)
Definition judged {A} (c : res A) : journal A :=
  lift_res (match c with
            | Raise (OtherError cls msg) =>
                if bool_decide (cls = "IncidentClosurePolicyError") then Raise (IncidentTransitionError msg) else c
            | c => c
            end).

Definition close (incident_id : string) (close_receipt : IncidentCloseReceipt) (t0 t1 : Z) : journal IncidentReceipt :=
  _ ← lift_res (validate_close close_receipt t0);
  _lock (
    r ← _require_current_unlocked incident_id;
    if bool_decide (in_state r = CLOSED)
    then if py_eq (in_close_receipt r) (PDict (dset "closure_mode" (PStr "attributable") (close_to_dict close_receipt)))
         then mret r
         else raise_st (IncidentTransitionError ("Incident " +:+ incident_id +:+ " is already closed with another receipt"))
    else
    events ← _read_events_unlocked incident_id;
    close_payload ← judged (validate_attributable_close r close_receipt events);
    _finalize_close_unlocked r close_payload t1).

Definition close_residual (incident_id : string) (close_receipt : IncidentResidualCloseReceipt) (t0 t1 : Z)
    : journal IncidentReceipt :=
  _ ← lift_res (validate_residual close_receipt t0);
  _lock (
    r ← _require_current_unlocked incident_id;
    if bool_decide (in_state r = CLOSED)
    then if py_eq (in_close_receipt r) (PDict (residual_to_dict close_receipt)) then mret r
         else raise_st (IncidentTransitionError ("Incident " +:+ incident_id +:+ " is already closed with another receipt"))
    else
    events ← _read_events_unlocked incident_id;
    close_payload ← judged (validate_residual_close r close_receipt events);
    _finalize_close_unlocked r close_payload t1).

Definition record_attribution_exhaustion (incident_id : string) (exhaustion_receipt : IncidentAttributionExhaustionReceipt)
    (t0 t1 : Z) : journal IncidentReceipt :=
  _ ← lift_res (validate_exhaustion exhaustion_receipt t0);
  _ ← lift_res (require (bool_decide (ex_incident_id exhaustion_receipt = incident_id)) "attribution_exhaustion_incident_id_mismatch");
  let payload := PDict (exhaustion_to_dict exhaustion_receipt) in
  payload_sha256 ← lift_res (canonical_receipt_sha256 (exhaustion_to_dict exhaustion_receipt));
  _lock (
    r ← _require_current_unlocked incident_id;
    _ ← ensure (bool_decide (in_state r = OPEN_UNATTRIBUTED))
          (IncidentTransitionError ("Incident " +:+ incident_id +:+ " must remain open for attribution exhaustion"));
    events ← _read_events_unlocked incident_id;
    match List.filter (is_event "attribution_exhaustion_recorded") events with
    | [] =>
        let event_time := utc_now t1 in
        commit (event_of "attribution_exhaustion_recorded" event_time
                  [("attribution_exhaustion_sha256", PStr payload_sha256); ("attribution_exhaustion_receipt", payload)])
          (revised r (in_state r) event_time (in_evidence_count r + 1) (in_diagnostic_permit r) (in_containment_receipt r)
             (in_pack_install_permits r) (in_targeted_migration_permits r) (in_close_receipt r))
    | existing :: more =>
        if bool_decide (more = [])
           && py_eq (pget "attribution_exhaustion_sha256" existing) (PStr payload_sha256)
           && py_eq (pget "attribution_exhaustion_receipt" existing) payload
        then mret r
        else raise_st (IncidentTransitionError "incident_attribution_exhaustion_already_recorded")
    end).
End operations.
