(* ===== verification/IncidentGate.v ===== *)
(** The mutation gate over the incident journal
    (runtime_database_incident_core/evaluator.py, mutation_context.py and
    classifier_bridge.py): which database mutations are admitted while an
    incident is not closed. *)
From S2P Require Import Prelude PyDict PyStr PyVal PyJson PyTime IncidentModels IncidentJournal.

(** [str(value).strip()] of the entries that have a text. *)
Definition mutation_evidence (evidence : dict pyval) : dict string :=
  foldl (fun acc kv => dset kv.1 kv.2 acc) []
    (omap (fun kv => let s := strip (py_str kv.2) in
             if is_none kv.2 || bool_decide (s = "") then None else Some (kv.1, s)) evidence).

Definition operation_name (operation : string) : string := str_or (strip operation) "unspecified_mutation".

(** [context] is the evidence of the request ([current_mutation_evidence]). *)
Definition operation_key (operation : string) (context : dict string) (evidence : dict pyval) : string :=
  let name := operation_name operation in
  let name := if starts_with "capability_install_job:" name then "capability_install_job" else name in
  let artifact_sha256 := lower (default "" (dget "artifact_sha256" (dupdate context (mutation_evidence evidence)))) in
  if bool_decide (artifact_sha256 = "") then name else name +:+ "@sha256:" +:+ artifact_sha256.

Definition decision (allowed : bool) (operation reason : string) (r : IncidentReceipt) (details : dict pyval) : MutationDecision :=
  mkMutation allowed operation reason (Some (in_incident_id r)) (if allowed then 0 else 30)
    (("incident_state", PStr (state_value (in_state r))) :: details).

Section gate.
Context `{IsoReader}.

(** [operation_key in set(permit.get("allowed_operation_keys") or ())] *)
Definition lists_key (key : string) (permit : dict pyval) : res bool :=
  keys ← py_tuple (pget "allowed_operation_keys" permit);
  allowed_keys ← py_set keys;
  Ok (existsb (py_eq (PStr key)) allowed_keys).

Definition diagnostic_decision (r : IncidentReceipt) (operation key : string) (now : Z) : res (option MutationDecision) :=
  diagnostic ← dict_or (in_diagnostic_permit r);
  if bool_decide (diagnostic = []) then Ok None
  else
  listed ← lists_key key diagnostic;
  let expires_at := pget "expires_at" diagnostic in
  permit_active ← live_until expires_at now;
  let details := [("permit_id", pget "permit_id" diagnostic); ("operation_key", PStr key)] in
  if negb listed then Ok None
  else if permit_active : bool
  then Ok (Some (decision true operation "incident_diagnostic_permit" r
                   (details ++ [("expires_at", expires_at); ("source_commit", pget "source_commit" diagnostic)])))
  else Ok (Some (decision false operation "incident_diagnostic_permit_expired" r details)).

(** The loops over the permits, the last one first. *)
Fixpoint pack_install_decision (r : IncidentReceipt) (operation key : string) (now : Z) (permits : list pyval)
    : res (option MutationDecision) :=
  match permits with
  | [] => Ok None
  | permit :: rest =>
      keys ← attr_get "allowed_operation_keys" permit;
      listed ← lists_key key [("allowed_operation_keys", keys)];
      if negb listed then pack_install_decision r operation key now rest
      else
      expires_at ← attr_get "expires_at" permit;
      permit_active ← live_until expires_at now;
      id ← attr_get "permit_id" permit;
      code ← attr_get "capability_code" permit;
      version ← attr_get "candidate_version" permit;
      let details := [("permit_id", id); ("operation_key", PStr key)] in
      Ok (Some (if permit_active : bool
                then decision true operation "owner_authorized_pack_install_permit" r
                       (details ++ [("capability_code", code); ("candidate_version", version)])
                else decision false operation "pack_install_permit_expired" r details))
  end.

Fixpoint targeted_migration_decision (r : IncidentReceipt) (operation key : string) (now : Z) (permits : list pyval)
    : res (option MutationDecision) :=
  match permits with
  | [] => Ok None
  | permit :: rest =>
      allowed ← attr_get "allowed_operation_key" permit;
      if negb (bool_decide (key = text_or allowed "")) then targeted_migration_decision r operation key now rest
      else
      expires_at ← attr_get "expires_at" permit;
      permit_active ← live_until expires_at now;
      id ← attr_get "permit_id" permit;
      revision ← attr_get "revision" permit;
      mode ← attr_get "migration_mode" permit;
      let details := [("permit_id", id); ("operation_key", PStr key)] in
      Ok (Some (if permit_active : bool
                then decision true operation "owner_authorized_targeted_migration_permit" r
                       (details ++ [("revision", revision); ("migration_mode", mode)])
                else decision false operation "targeted_migration_permit_expired" r details))
  end.

Definition containment_decision (r : IncidentReceipt) (operation key : string) (now : Z) : res MutationDecision :=
  containment ← dict_or (in_containment_receipt r);
  listed ← lists_key key containment;
  let expires_at := pget "expires_at" containment in
  permit_active ← live_until expires_at now;
  let details := [("permit_id", pget "permit_id" containment); ("operation_key", PStr key)] in
  Ok (if (permit_active : bool) && listed
      then decision true operation "containment_repair_permit" r details
      else decision false operation (if truthy expires_at && negb permit_active then "containment_repair_permit_expired"
                                     else "runtime_database_incident_contained") r details).

(** The decision on a current incident that is not closed. *)
Definition incident_decision (r : IncidentReceipt) (operation key : string) (now : Z) : res MutationDecision :=
  diagnostic ← (if bool_decide (in_state r = OPEN_UNATTRIBUTED) then diagnostic_decision r operation key now else Ok None);
  match diagnostic with
  | Some d => Ok d
  | None =>
      pack ← pack_install_decision r operation key now (rev (in_pack_install_permits r));
      match pack with
      | Some d => Ok d
      | None =>
          targeted ← targeted_migration_decision r operation key now (rev (in_targeted_migration_permits r));
          match targeted with
          | Some d => Ok d
          | None =>
              if bool_decide (in_state r = CONTAINED_PENDING_SOAK) then containment_decision r operation key now
              else Ok (decision false operation "runtime_database_incident_open" r [])
          end
      end
  end.

Definition is_unavailable (e : exn) : bool :=
  match e with OtherError cls _ => bool_decide (cls = "IncidentJournalUnavailable") | _ => false end.

Definition evaluate (operation : string) (context : dict string) (evidence : dict pyval) (now : Z) : journal MutationDecision :=
  let operation_name := operation_name operation in
  fun w =>
  match current w with
  | (Ok None, w') => (Ok (mkMutation true operation_name "allowed" None 0 []), w')
  | (Ok (Some r), w') =>
      if bool_decide (in_state r = CLOSED) then (Ok (mkMutation true operation_name "allowed" None 0 []), w')
      else (incident_decision r operation_name (operation_key operation_name context evidence) now, w')
  | (Raise e, w') =>
      if is_unavailable e
      then (Ok (mkMutation false operation_name "incident_journal_unavailable" None 30 []), w')
      else (Raise e, w')
  end.

Definition RuntimeDatabaseMutationBlocked (d : MutationDecision) : exn :=
  OtherError "RuntimeDatabaseMutationBlocked" (md_reason d).
Definition require_allowed (operation : string) (context : dict string) (evidence : dict pyval) (now : Z)
    : journal MutationDecision :=
  d ← evaluate operation context evidence now;
  if md_allowed d then mret d else raise_st (RuntimeDatabaseMutationBlocked d).

(** [record_failure] (classifier_bridge.py) *)
Definition record_failure (failure_code postmaster_start_time : string) (evidence : dict pyval) (t0 t1 : Z)
    : journal IncidentReceipt :=
  open_incident failure_code postmaster_start_time None evidence t0 t1.
End gate.
