(* ===== verification/IncidentRuns.v ===== *)
(** Runs of the incident journal.  [incident_step] is what the operations do to
    the current incident and its log when nothing fails: the abstract machine of
    an incident.  Every operation, whatever its accesses to the files do,
    follows the machine or leaves the current incident as it was
    ([exec_outcome]). *)
From S2P Require Import Prelude PyDict PyStr PyVal PyJson PyTime IncidentModels IncidentJournal.

(** * Requests *)

Inductive request : Type :=
| OpenIncident (failure_code postmaster_start_time : string) (first_failure_at : option string) (evidence : dict pyval)
| RecordDiagnosticPermit (incident_id : string) (p : IncidentDiagnosticPermit)
| RecordDiagnosticObservation (incident_id permit_id observation_code : string) (evidence : dict pyval)
| RevokeDiagnosticPermit (incident_id terminal_reason : string) (failure_code : option string)
| RecordOwnershipHandback (incident_id owner terminal_reason : string) (verified : bool)
| MarkContained (incident_id : string) (p : IncidentContainmentReceipt)
| GrantPackInstallPermit (incident_id : string) (p : IncidentPackInstallPermitReceipt)
| RevokePackInstallPermit (incident_id permit_id install_id status evidence_path : string)
| GrantTargetedMigrationPermit (incident_id : string) (p : IncidentTargetedMigrationPermitReceipt)
| ReopenForAttribution (incident_id owner authorization path sha256 reason : string) (file : option (list N))
| RenewContainment (incident_id : string) (p : IncidentContainmentReceipt) (authorization : string)
| CloseIncident (incident_id : string) (p : IncidentCloseReceipt)
| CloseResidual (incident_id : string) (p : IncidentResidualCloseReceipt)
| RecordExhaustion (incident_id : string) (p : IncidentAttributionExhaustionReceipt).

Section runs.
Context `{IsoReader}.

Definition run_request (q : request) (t0 t1 : Z) : journal unit :=
  match q with
  | OpenIncident code postmaster first ev => _ ← open_incident code postmaster first ev t0 t1; mret tt
  | RecordDiagnosticPermit i p => _ ← record_diagnostic_permit i p t0 t1; mret tt
  | RecordDiagnosticObservation i pid code ev => _ ← record_diagnostic_observation i pid code ev t1; mret tt
  | RevokeDiagnosticPermit i reason code => _ ← revoke_diagnostic_permit i reason code t1; mret tt
  | RecordOwnershipHandback i owner reason v => _ ← record_diagnostic_ownership_handback i owner reason v t1; mret tt
  | MarkContained i p => _ ← mark_contained i p t0 t1; mret tt
  | GrantPackInstallPermit i p => _ ← grant_pack_install_permit i p t0 t1; mret tt
  | RevokePackInstallPermit i pid iid st path => _ ← revoke_pack_install_permit i pid iid st path t1; mret tt
  | GrantTargetedMigrationPermit i p => _ ← grant_targeted_migration_permit i p t0 t1; mret tt
  | ReopenForAttribution i owner auth path sha reason file => _ ← reopen_for_attribution i owner auth path sha reason file t1; mret tt
  | RenewContainment i p auth => _ ← renew_containment i p auth t0 t1; mret tt
  | CloseIncident i p => _ ← close i p t0 t1; mret tt
  | CloseResidual i p => _ ← close_residual i p t0 t1; mret tt
  | RecordExhaustion i p => _ ← record_attribution_exhaustion i p t0 t1; mret tt
  end.

Record call : Type := mkCall { c_request : request; c_t0 : Z; c_t1 : Z; c_faults : list fault }.
Definition exec (c : call) (d : disk) : res unit * disk :=
  let '(r, w) := run_request (c_request c) (c_t0 c) (c_t1 c) (mkWorld d (c_faults c)) in (r, w_disk w).

Definition done {A} (r : res A) : bool := match r with Ok _ => true | Raise _ => false end.

(** The calls so far, the last one first, each with whether it returned. *)
Inductive history : list (call * bool) -> disk -> Prop :=
| history_start : history [] (mkDisk None ∅)
| history_call h d c r d' : history h d -> exec c d = (r, d') -> history ((c, done r) :: h) d'.

(** * The machine of an incident *)

Definition current_of (d : disk) : option IncidentReceipt :=
  match dk_current d with
  | Some p => match from_dict p with Ok r => Some r | Raise _ => None end
  | None => None
  end.

(** The events of a log, those with a broken line left out. *)
Definition whole (l : list piece) : list (dict pyval) := omap (fun p => match p with Whole e => Some e | Part => None end) l.
Definition events_in (l : log) : list (dict pyval) := concat (map whole (lg_lines l ++ [lg_tail l])).
Definition events_at (d : disk) (incident_id : string) : list (dict pyval) := events_in (log_at d (_incident_path incident_id)).

Definition with_permits (r : IncidentReceipt) (at_ : string) (packs targeted : list pyval) : IncidentReceipt :=
  revised r (in_state r) at_ (in_evidence_count r) (in_diagnostic_permit r) (in_containment_receipt r) packs targeted
    (in_close_receipt r).
Definition noted (r : IncidentReceipt) (at_ : string) : IncidentReceipt :=
  revised r (in_state r) at_ (in_evidence_count r + 1) (in_diagnostic_permit r) (in_containment_receipt r)
    (in_pack_install_permits r) (in_targeted_migration_permits r) (in_close_receipt r).
Definition closed (r : IncidentReceipt) (at_ : string) (payload : dict pyval) : IncidentReceipt :=
  revised r CLOSED at_ (in_evidence_count r) PNone PNone (in_pack_install_permits r) (in_targeted_migration_permits r)
    (PDict payload).
Definition closed_event (at_ : string) (payload : dict pyval) : dict pyval :=
  event_of "incident_closed" at_ [("closure_mode", pget "closure_mode" payload); ("close_receipt", PDict payload)].

(** [incident_step q es t0 t1 cur evs r]: at [t1], the request [q], checked at
    [t0], takes the current incident [cur], whose events are [es], to [r] and
    appends [evs]. *)
Inductive incident_step (es : list (dict pyval)) (t0 t1 : Z)
    : request -> option IncidentReceipt -> list (dict pyval) -> IncidentReceipt -> Prop :=
| step_open code postmaster first ev cur :
    (forall r, cur = Some r -> in_state r = CLOSED) ->
    incident_step es t0 t1 (OpenIncident code postmaster first ev) cur
      [failure_event "incident_opened" code (utc_now t1) ev]
      (new_incident code postmaster (str_or (default "" first) (utc_now t0)) (utc_now t1))
| step_failure code postmaster first ev r revoked :
    in_state r <> CLOSED -> revocation_events r code (utc_now t1) = Ok revoked ->
    incident_step es t0 t1 (OpenIncident code postmaster first ev) (Some r)
      (revoked ++ [failure_event "failure_observed" code (utc_now t1) ev]) (after_failure r (utc_now t1))
| step_diagnostic p r expired :
    in_state r = OPEN_UNATTRIBUTED -> validate_diagnostic p t0 = Ok tt ->
    expired_events (in_incident_id r) (in_diagnostic_permit r) t1 = Ok expired ->
    incident_step es t0 t1 (RecordDiagnosticPermit (in_incident_id r) p) (Some r)
      (expired ++ [event_of "diagnostic_permit_recorded" (utc_now t1) [("diagnostic_permit", PDict (diagnostic_to_dict p))]])
      (revised r (in_state r) (utc_now t1) (in_evidence_count r) (PDict (diagnostic_to_dict p)) (in_containment_receipt r)
         (in_pack_install_permits r) (in_targeted_migration_permits r) (in_close_receipt r))
| step_observation permit_id code ev r held :
    in_diagnostic_permit r = PDict held -> py_eq (pget "permit_id" held) (PStr (strip permit_id)) = true ->
    (exists t, _parse_timestamp (text_or (pget "expires_at" held) "") "diagnostic_expires_at" = Ok t /\ t1 < t) ->
    incident_step es t0 t1 (RecordDiagnosticObservation (in_incident_id r) permit_id code ev) (Some r)
      [event_of "diagnostic_observation_recorded" (utc_now t1)
         [("permit_id", PStr (strip permit_id)); ("observation_code", PStr code); ("evidence", PDict ev)]]
      (noted r (utc_now t1))
| step_revocation reason code r held failure name fields :
    in_diagnostic_permit r = PDict held -> failure = strip (default "" code) ->
    name = (if bool_decide (failure = "") then "diagnostic_permit_consumed_terminal" else "diagnostic_permit_revoked_by_failure") ->
    fields = (if bool_decide (failure = "") then [] else [("failure_code", PStr failure)]) ->
    incident_step es t0 t1 (RevokeDiagnosticPermit (in_incident_id r) reason code) (Some r)
      [event_of name (utc_now t1)
         ([("permit_id", pget "permit_id" held); ("terminal_reason", PStr (strip reason))] ++ fields)]
      (revised r (in_state r) (utc_now t1) (in_evidence_count r + (if bool_decide (failure = "") then 0 else 1)) PNone
         (if bool_decide (failure = "") then in_containment_receipt r else PNone)
         (in_pack_install_permits r) (in_targeted_migration_permits r) (in_close_receipt r))
| step_contained p r expires_at :
    in_state r = OPEN_UNATTRIBUTED -> validate_containment p = Ok tt ->
    _parse_timestamp (ct_expires_at p) "containment_expires_at" = Ok expires_at -> t0 < expires_at ->
    incident_step es t0 t1 (MarkContained (in_incident_id r) p) (Some r)
      [event_of "incident_contained" (utc_now t1) [("containment_receipt", PDict (containment_to_dict p))]]
      (revised r CONTAINED_PENDING_SOAK (utc_now t1) (in_evidence_count r) PNone (PDict (containment_to_dict p))
         (in_pack_install_permits r) (in_targeted_migration_permits r) (in_close_receipt r))
| step_pack p r expires_at active pruned :
    in_state r <> CLOSED -> validate_pack_install p = Ok tt ->
    _parse_timestamp (pi_expires_at p) "pack_install_permit_expires_at" = Ok expires_at -> t0 < expires_at ->
    first_with_id (pi_permit_id p) (in_pack_install_permits r) = Ok None ->
    _partition_active_pack_install_permits (in_pack_install_permits r) t1 = Ok (active, pruned) ->
    (length active < 16)%nat ->
    incident_step es t0 t1 (GrantPackInstallPermit (in_incident_id r) p) (Some r)
      [event_of "pack_install_permit_granted" (utc_now t1)
         [("permit_receipt", PDict (pack_install_to_dict p)); ("expired_permit_ids_pruned", str_list pruned)]]
      (with_permits r (utc_now t1) (active ++ [PDict (pack_install_to_dict p)]) (in_targeted_migration_permits r))
| step_unpack permit_id install_id status path r retained :
    without_id (strip permit_id) (in_pack_install_permits r) = Ok retained ->
    length retained <> length (in_pack_install_permits r) ->
    incident_step es t0 t1 (RevokePackInstallPermit (in_incident_id r) permit_id install_id status path) (Some r)
      [event_of "pack_install_permit_revoked" (utc_now t1)
         [("permit_id", PStr (strip permit_id)); ("terminal_install_id", PStr (strip install_id));
          ("terminal_status", PStr status); ("terminal_evidence_path", PStr (strip path))]]
      (with_permits r (utc_now t1) retained (in_targeted_migration_permits r))
| step_targeted p r expires_at :
    in_state r <> CLOSED -> validate_targeted p = Ok tt ->
    _parse_timestamp (tm_expires_at p) "targeted_migration_permit_expires_at" = Ok expires_at -> t0 < expires_at ->
    first_with_id (tm_permit_id p) (in_targeted_migration_permits r) = Ok None ->
    (length (in_targeted_migration_permits r) < 16)%nat ->
    incident_step es t0 t1 (GrantTargetedMigrationPermit (in_incident_id r) p) (Some r)
      [event_of "targeted_migration_permit_granted" (utc_now t1) [("permit_receipt", PDict (targeted_to_dict p))]]
      (with_permits r (utc_now t1) (in_pack_install_permits r)
         (in_targeted_migration_permits r ++ [PDict (targeted_to_dict p)]))
| step_reopened owner auth path sha reason file r :
    in_state r = CONTAINED_PENDING_SOAK -> existsb (is_event "attribution_exhaustion_recorded") es = false ->
    (exists bytes, file = Some bytes /\ Sha256.hexdigest bytes = sha) ->
    incident_step es t0 t1 (ReopenForAttribution (in_incident_id r) owner auth path sha reason file) (Some r)
      [event_of "containment_reopened_for_attribution" (utc_now t1)
         [("reason", PStr reason); ("owner", PStr owner); ("authorization", PStr auth); ("authorization_path", PStr path);
          ("authorization_sha256", PStr sha); ("revoked_containment_receipt", in_containment_receipt r)]]
      (revised r OPEN_UNATTRIBUTED (utc_now t1) (in_evidence_count r + 1) (in_diagnostic_permit r) PNone
         (in_pack_install_permits r) (in_targeted_migration_permits r) (in_close_receipt r))
| step_renewed p auth r previous expires_at :
    in_state r = CONTAINED_PENDING_SOAK -> in_containment_receipt r = PDict previous -> validate_containment p = Ok tt ->
    _parse_timestamp (ct_expires_at p) "containment_expires_at" = Ok expires_at -> t0 < expires_at <= t0 + minutes 30 ->
    forallb (fun k => py_eq (pget k (containment_to_dict p)) (pget k previous)) RENEWAL_SCOPE = true ->
    incident_step es t0 t1 (RenewContainment (in_incident_id r) p auth) (Some r)
      [event_of "containment_renewed" (utc_now t1)
         [("authorization", PStr auth); ("previous_containment_receipt", PDict previous);
          ("containment_receipt", PDict (containment_to_dict p))]]
      (revised r (in_state r) (utc_now t1) (in_evidence_count r) (in_diagnostic_permit r) (PDict (containment_to_dict p))
         (in_pack_install_permits r) (in_targeted_migration_permits r) (in_close_receipt r))
| step_closed p r payload :
    validate_close p t0 = Ok tt -> validate_attributable_close r p es = Ok payload ->
    incident_step es t0 t1 (CloseIncident (in_incident_id r) p) (Some r)
      [closed_event (utc_now t1) payload] (closed r (utc_now t1) payload)
| step_closed_residual p r payload :
    validate_residual p t0 = Ok tt -> validate_residual_close r p es = Ok payload ->
    incident_step es t0 t1 (CloseResidual (in_incident_id r) p) (Some r)
      [closed_event (utc_now t1) payload] (closed r (utc_now t1) payload)
| step_exhausted p r sha :
    in_state r = OPEN_UNATTRIBUTED -> validate_exhaustion p t0 = Ok tt -> ex_incident_id p = in_incident_id r ->
    canonical_receipt_sha256 (exhaustion_to_dict p) = Ok sha ->
    List.filter (is_event "attribution_exhaustion_recorded") es = [] ->
    incident_step es t0 t1 (RecordExhaustion (in_incident_id r) p) (Some r)
      [event_of "attribution_exhaustion_recorded" (utc_now t1)
         [("attribution_exhaustion_sha256", PStr sha); ("attribution_exhaustion_receipt", PDict (exhaustion_to_dict p))]]
      (noted r (utc_now t1)).

(** * The effect of a call *)

(** [d'] is [d] with the events [evs] added to the log of the incident. *)
Definition logged (d : disk) (incident_id : string) (evs : list (dict pyval)) (d' : disk) : Prop :=
  events_at d' incident_id = events_at d incident_id ++ evs
  /\ forall path, path <> _incident_path incident_id -> log_at d' path = log_at d path.

(** A request that returns without a step has nothing left to do. *)
Definition settled (q : request) (d : disk) : Prop :=
  match q with
  | OpenIncident _ _ _ _ | RevokeDiagnosticPermit _ _ _ => False
  | RevokePackInstallPermit i permit_id _ _ _ =>
      exists r retained, current_of d = Some r /\ in_incident_id r = i
        /\ without_id (strip permit_id) (in_pack_install_permits r) = Ok retained
        /\ length retained = length (in_pack_install_permits r)
  | ReopenForAttribution i _ _ _ _ _ _ => exists r, current_of d = Some r /\ in_state r = OPEN_UNATTRIBUTED
  | CloseIncident i _ | CloseResidual i _ => exists r, current_of d = Some r /\ in_state r = CLOSED
  | _ => True
  end.

Inductive outcome (q : request) (t0 t1 : Z) (clean : Prop) (d : disk) (ok : bool) (d' : disk) : Prop :=
| outcome_kept : d' = d -> (ok = true -> settled q d) -> outcome q t0 t1 clean d ok d'
| outcome_handed_back r evs : (exists i owner reason v, q = RecordOwnershipHandback i owner reason v) ->
    current_of d = Some r -> in_diagnostic_permit r = PNone ->
    evs `prefix_of` [event_of "diagnostic_observer_ownership_handed_back" (utc_now t1)
                       (match q with
                        | RecordOwnershipHandback _ owner reason _ =>
                            [("owner_before", PStr (strip owner)); ("owner_after", PStr "none");
                             ("terminal_reason", PStr (strip reason)); ("remaining_resources_verified", PBool true)]
                        | _ => []
                        end)] ->
    logged d (in_incident_id r) evs d' -> dk_current d' = dk_current d -> (clean -> ok = true) -> outcome q t0 t1 clean d ok d'
| outcome_cut evs evs' r : incident_step (events_at d (in_incident_id r)) t0 t1 q (current_of d) evs r ->
    evs' `prefix_of` evs -> logged d (in_incident_id r) evs' d' -> dk_current d' = dk_current d ->
    ok = false -> ~ clean -> outcome q t0 t1 clean d ok d'
| outcome_step evs r : incident_step (events_at d (in_incident_id r)) t0 t1 q (current_of d) evs r ->
    logged d (in_incident_id r) evs d' -> dk_current d' = Some (incident_to_dict r) ->
    (clean -> ok = true) -> outcome q t0 t1 clean d ok d'.

(** ** Accesses that only read *)

Definition clean (w : world) : Prop := Forall (fun f => f = Clean) (w_faults w).

Definition reads {A} (c : journal A) (P : disk -> A -> Prop) : Prop := forall w r w', c w = (r, w') ->
  w_disk w' = w_disk w /\ (clean w -> clean w') /\ forall a, r = Ok a -> P (w_disk w) a.

Lemma bind_reads {A B} (c : journal A) (P : disk -> A -> Prop) (k : A -> journal B) w r w' :
  reads c P -> (c ≫= k) w = (r, w') ->
  (done r = false /\ w_disk w' = w_disk w)
  \/ exists a w1, w_disk w1 = w_disk w /\ (clean w -> clean w1) /\ P (w_disk w) a /\ k a w1 = (r, w').
Proof.
  intros Hc E. destruct (c w) as [[a|e] w1] eqn:Ec.
  - right. destruct (Hc _ _ _ Ec) as (Hd & Hf & HP). rewrite (st_bind_eq _ _ _ _ _ Ec) in E. exists a, w1. auto.
  - left. destruct (Hc _ _ _ Ec) as (Hd & _). rewrite (st_bind_raise _ _ _ _ _ Ec) in E. injection E as <- <-. done.
Qed.

Lemma reads_next : reads next_fault (fun _ _ => True).
Proof.
  intros [d [|f fs]] r w' E; injection E as <- <-; simpl; (split; [done|]); split; try done.
  unfold clean. simpl. intros Hc. by apply list.Forall_cons in Hc as [_ Hc].
Qed.
Lemma reads_disk : reads get_disk (fun d a => a = d).
Proof. intros w r w' E. injection E as <- <-. split_and!; [done|done|by intros a [= <-]]. Qed.
Lemma reads_lift {A} (c : res A) : reads (lift_res c) (fun _ a => c = Ok a).
Proof. intros w r w' E. injection E as <- <-. done. Qed.
Lemma reads_ensure ok e : reads (ensure ok e) (fun _ _ => ok = true).
Proof. intros w r w' E. unfold ensure in E. destruct ok; injection E as <- <-; done. Qed.
Lemma reads_bind {A B} (c : journal A) (P : disk -> A -> Prop) (k : A -> journal B) (Q : disk -> B -> Prop) :
  reads c P -> (forall a, reads (k a) (fun d b => P d a -> Q d b)) -> reads (c ≫= k) Q.
Proof.
  intros Hc Hk w r w' E. destruct (c w) as [[a|e] w1] eqn:Ec; destruct (Hc _ _ _ Ec) as (Hd & Hf & HP).
  - rewrite (st_bind_eq _ _ _ _ _ Ec) in E. destruct (Hk a _ _ _ E) as (Hd' & Hf' & HQ).
    split_and!; [congruence|auto|]. intros b Hb. rewrite Hd in HQ. by apply (HQ b Hb), HP.
  - rewrite (st_bind_raise _ _ _ _ _ Ec) in E. injection E as <- <-. done.
Qed.
Lemma reads_ret {A} (a : A) (Q : disk -> A -> Prop) : (forall d, Q d a) -> reads (mret a) Q.
Proof. intros HQ w r w' E. injection E as <- <-. split_and!; [done|done|by intros b [= <-]]. Qed.
Lemma reads_raise {A} e (Q : disk -> A -> Prop) : reads (raise_st e) Q.
Proof. intros w r w' E. injection E as <- <-. done. Qed.

Lemma reads_current : reads _read_current_unlocked (fun d o => current_of d = o).
Proof.
  apply (reads_bind _ _ _ _ reads_next). intros f. apply (reads_bind _ (fun d a => a = d)).
  { intros w r w' E. injection E as <- <-. split_and!; [done|done|by intros a [= <-]]. }
  intros d w r w' E. destruct (dk_current d) as [p|] eqn:Ep.
  - destruct (bool_decide (f = Clean)); [|injection E as <- <-; done].
    unfold try_except in E. destruct (from_dict p) as [x|x] eqn:Ex.
    + injection E as <- <-. split_and!; try done. intros a [= <-] -> _. unfold current_of. by rewrite Ep, Ex.
    + destruct (unreadable x); injection E as <- <-; done.
  - injection E as <- <-. split_and!; try done. intros a [= <-] -> _. unfold current_of. by rewrite Ep.
Qed.

Lemma reads_required incident_id :
  reads (_require_current_unlocked incident_id) (fun d r => current_of d = Some r /\ in_incident_id r = incident_id).
Proof.
  apply (reads_bind _ _ _ _ reads_current). intros [r|]; [|apply reads_raise].
  destruct (bool_decide (in_incident_id r = incident_id)) eqn:E; [|apply reads_raise].
  apply bool_decide_eq_true in E. by apply reads_ret.
Qed.

Lemma parse_line_whole l es : parse_line l = Ok es -> es = whole l.
Proof. destruct l as [|[e|] [|? ?]]; simpl; congruence. Qed.
Lemma parse_log_whole l es : parse_log l = Ok es -> es = events_in l.
Proof.
  unfold parse_log, events_in. intros E. bind_inv E. injection E as <-. f_equal.
  apply seq_res_Forall2 in Ha. revert a Ha. induction (lg_lines l ++ [lg_tail l]) as [|x k IH]; intros a Ha.
  - by apply Forall2_nil_inv_l in Ha as ->.
  - apply Forall2_cons_inv_l in Ha as (y & a' & Hy & Ha & ->). simpl. f_equal; [by apply parse_line_whole|by apply IH].
Qed.
Lemma reads_events incident_id :
  reads (_read_events_unlocked incident_id) (fun d es => es = events_at d incident_id).
Proof.
  apply (reads_bind _ _ _ _ reads_next). intros f. apply (reads_bind _ _ _ _ reads_disk). intros d w r w' E.
  destruct (dk_logs d !! _incident_path incident_id) as [l|] eqn:El; [|injection E as <- <-; done].
  destruct (bool_decide (f = Clean)); [|injection E as <- <-; done].
  unfold try_except in E. destruct (parse_log l) as [es|x] eqn:Ex.
  - destruct (bool_decide (es = [])) eqn:Hn.
    + rewrite (st_bind_eq _ _ _ es w) in E by done. rewrite Hn in E. injection E as <- <-. done.
    + rewrite (st_bind_eq _ _ _ es w) in E by done. rewrite Hn in E. injection E as <- <-. split_and!; try done.
      intros a [= <-] -> _. unfold events_at, log_at. rewrite El. by apply parse_log_whole.
  - destruct (unreadable x); injection E as <- <-; done.
Qed.

(** ** Accesses that write *)

Lemma logged_refl d i : logged d i [] d.
Proof. split; [by rewrite app_nil_r|done]. Qed.
Lemma logged_trans d1 d2 d3 i es es' : logged d1 i es d2 -> logged d2 i es' d3 -> logged d1 i (es ++ es') d3.
Proof. intros [E1 P1] [E2 P2]. split; [by rewrite E2, E1, app_assoc|]. intros path Hp. by rewrite P2, P1. Qed.
Lemma logged_disk d i es d' c : logged d i es d' -> logged d i es (mkDisk c (dk_logs d')).
Proof. done. Qed.

Lemma events_in_written f e l : exists es, es `prefix_of` [e] /\ events_in (written f e l) = events_in l ++ es
  /\ (f = Clean \/ f = Late -> es = [e]).
Proof.
  unfold events_in. destruct f; simpl.
  1,4,5: exists [e]; split; [done|]; split; [|done].
  4: exists []; split; [apply prefix_nil|]; split; [by rewrite app_nil_r|by intros [?|?]].
  4: exists []; split; [apply prefix_nil|]; split; [|by intros [?|?]].
  all: rewrite !map_app, !concat_app; simpl; rewrite ?app_nil_r; unfold whole; rewrite ?omap_app; simpl;
    rewrite ?app_nil_r, ?app_assoc; done.
Qed.

Lemma logged_write d i f e : exists es, es `prefix_of` [e] /\ (f = Clean \/ f = Late -> es = [e])
  /\ logged d i es (mkDisk (dk_current d) (<[_incident_path i := written f e (log_at d (_incident_path i))]> (dk_logs d))).
Proof.
  destruct (events_in_written f e (log_at d (_incident_path i))) as (es & Hp & He & Hf). exists es.
  split; [done|]. split; [done|]. split.
  - unfold events_at, log_at. simpl. by rewrite lookup_insert_eq.
  - intros path Hn. unfold log_at. simpl. by rewrite lookup_insert_ne.
Qed.

Lemma next_fault_eq w : exists f w1, next_fault w = (Ok f, w1) /\ w_disk w1 = w_disk w /\ (clean w -> f = Clean /\ clean w1).
Proof.
  destruct w as [d [|f fs]]; do 2 eexists; (split; [reflexivity|]); (split; [done|]); [done|].
  unfold clean. simpl. by intros [-> ?]%list.Forall_cons.
Qed.

(** A write that is cut short leaves a part of the events, and raises. *)
Lemma append_outcome i e w r w' : _append_event_unlocked i e w = (r, w') ->
  dk_current (w_disk w') = dk_current (w_disk w)
  /\ ((r = Ok tt /\ logged (w_disk w) i [e] (w_disk w') /\ (clean w -> clean w'))
      \/ (exists x es, r = Raise x /\ es `prefix_of` [e] /\ logged (w_disk w) i es (w_disk w') /\ ~ clean w)).
Proof.
  unfold _append_event_unlocked. destruct (next_fault_eq w) as (f & w1 & Ef & Hd & Hc).
  rewrite (st_bind_eq _ _ _ _ _ Ef), (st_bind_eq get_disk _ w1 (w_disk w1) w1) by done. rewrite Hd. cbv zeta.
  erewrite st_bind_eq by reflexivity. intros E.
  destruct (logged_write (w_disk w) i f e) as (es & Hp & Hf & Hl).
  destruct (bool_decide (f = Clean)) eqn:Hb; injection E as <- <-; bool_prop; (split; [done|]).
  - left. split; [done|]. split; [|intros Hw; by apply Hc]. rewrite Hf in Hl by auto. exact Hl.
  - right. eexists _, es. split; [done|]. split; [done|]. split; [exact Hl|]. intros Hw. by apply Hb, Hc.
Qed.

Lemma append_all_outcome i es w r w' : append_all i es w = (r, w') ->
  dk_current (w_disk w') = dk_current (w_disk w)
  /\ ((r = Ok tt /\ logged (w_disk w) i es (w_disk w') /\ (clean w -> clean w'))
      \/ (exists x es', r = Raise x /\ es' `prefix_of` es /\ logged (w_disk w) i es' (w_disk w') /\ ~ clean w)).
Proof.
  revert w. induction es as [|e es IH]; intros w E; simpl in E.
  - injection E as <- <-. split; [done|]. left. split; [done|]. split; [apply logged_refl|done].
  - destruct (_append_event_unlocked i e w) as [[[]|x] w1] eqn:E1; pose proof E1 as E1';
      apply append_outcome in E1' as [Hcur [(Hr & Hl & Hc)|(x' & es1 & Hr & Hp & Hl & Hc)]]; try done.
    + rewrite (st_bind_eq _ _ _ _ _ E1) in E. apply IH in E as [Hcur' [(-> & Hl' & Hc')|(x & es' & -> & Hp & Hl' & Hc')]];
        (split; [congruence|]); [left|right].
      * split; [done|]. split; [exact (logged_trans _ _ _ _ [e] es Hl Hl')|auto].
      * exists x, (e :: es'). split; [done|]. split; [by apply prefix_cons|].
        split; [exact (logged_trans _ _ _ _ [e] es' Hl Hl')|auto].
    + rewrite (st_bind_raise _ _ _ _ _ E1) in E. injection E as <- <-. split; [done|]. right. exists x, es1.
      split; [done|]. split; [|done]. etrans; [exact Hp|]. apply prefix_cons, prefix_nil.
Qed.

Lemma write_outcome r0 w r w' : _write_current_unlocked r0 w = (r, w') ->
  dk_logs (w_disk w') = dk_logs (w_disk w)
  /\ ((dk_current (w_disk w') = Some (incident_to_dict r0) /\ (clean w -> done r = true))
      \/ (dk_current (w_disk w') = dk_current (w_disk w) /\ done r = false /\ ~ clean w)).
Proof.
  unfold _write_current_unlocked. destruct (next_fault_eq w) as (f & w1 & Ef & Hd & Hc).
  rewrite (st_bind_eq _ _ _ _ _ Ef), (st_bind_eq get_disk _ w1 (w_disk w1) w1) by done. rewrite Hd.
  erewrite st_bind_eq by reflexivity. intros E.
  destruct (bool_decide (f = Clean \/ f = Late)) eqn:Hb; destruct (bool_decide (f = Clean)) eqn:Hb';
    injection E as <- <-; bool_prop; simpl; (split; [done|]).
  - by left.
  - left. split; [done|]. intros Hw. by destruct Hb'; apply Hc.
  - subst. naive_solver.
  - right. split_and!; [done|done|]. intros Hw. by apply Hb', Hc.
Qed.

(** The events and then the receipt: all of it, or a part of the events. *)
Lemma commit_outcome evs ev r0 i w r w' : in_incident_id r0 = i ->
  (append_all i evs ≫= fun _ => commit ev r0) w = (r, w') ->
  (logged (w_disk w) i (evs ++ [ev]) (w_disk w') /\ dk_current (w_disk w') = Some (incident_to_dict r0)
   /\ (clean w -> done r = true))
  \/ (done r = false /\ ~ clean w /\ dk_current (w_disk w') = dk_current (w_disk w)
      /\ exists es, es `prefix_of` evs ++ [ev] /\ logged (w_disk w) i es (w_disk w')).
Proof.
  intros <- E. destruct (append_all (in_incident_id r0) evs w) as [[[]|x] w1] eqn:E1; pose proof E1 as E1';
    apply append_all_outcome in E1' as [Hcur [(Hr & Hl & Hc)|(x' & es & Hr & Hp & Hl & Hc)]]; try done.
  - rewrite (st_bind_eq _ _ _ _ _ E1) in E. unfold commit in E.
    destruct (_append_event_unlocked (in_incident_id r0) ev w1) as [[[]|x] w2] eqn:E2; pose proof E2 as E2';
      apply append_outcome in E2' as [Hcur2 [(Hr2 & Hl2 & Hc2)|(x' & es & Hr2 & Hp2 & Hl2 & Hn2)]]; try done.
    + rewrite (st_bind_eq _ _ _ _ _ E2) in E. pose proof (logged_trans _ _ _ _ _ _ Hl Hl2) as Hl3.
      destruct (_write_current_unlocked r0 w2) as [[[]|x] w3] eqn:E3; pose proof E3 as E3';
        apply write_outcome in E3' as [Hlogs [[Hw Ho]|(Hw & Hx & Hn)]]; try done;
        [rewrite (st_bind_eq _ _ _ _ _ E3) in E|rewrite (st_bind_raise _ _ _ _ _ E3) in E..];
        injection E as <- <-.
      1, 2: left; split; [|split; [done|auto]]; destruct (w_disk w3) as [c3 l3]; simpl in *; subst; exact Hl3.
      right. split; [done|]. split; [auto|]. split; [congruence|]. exists (evs ++ [ev]). split; [done|].
      destruct (w_disk w3) as [c3 l3]; simpl in *; subst; exact Hl3.
    + rewrite (st_bind_raise _ _ _ _ _ E2) in E. injection E as <- <-. right. split; [done|]. split; [auto|].
      split; [congruence|]. exists (evs ++ es). split; [by apply prefix_app|]. exact (logged_trans _ _ _ _ _ _ Hl Hl2).
  - rewrite (st_bind_raise _ _ _ _ _ E1) in E. injection E as <- <-. right. split; [done|]. split; [done|]. split; [done|].
    exists es. split; [|done]. by apply prefix_app_r.
Qed.

Lemma commit_finishes q t0 t1 w w1 evs ev r0 r w' :
  w_disk w1 = w_disk w -> (clean w -> clean w1) ->
  (append_all (in_incident_id r0) evs ≫= fun _ => commit ev r0) w1 = (r, w') ->
  incident_step (events_at (w_disk w) (in_incident_id r0)) t0 t1 q (current_of (w_disk w)) (evs ++ [ev]) r0 ->
  outcome q t0 t1 (clean w) (w_disk w) (done r) (w_disk w').
Proof.
  intros Hd Hc E Hs. apply commit_outcome in E as [(Hl & Hw & Ho)|(Hr & Hn & Hw & es & Hp & Hl)]; [| |done]; rewrite Hd in *.
  - eapply outcome_step; eauto.
  - eapply outcome_cut; try done. auto.
Qed.

Lemma lock_reads {A} (body : journal A) w r w' : _lock body w = (r, w') ->
  (done r = false /\ w_disk w' = w_disk w)
  \/ exists w1, w_disk w1 = w_disk w /\ (clean w -> clean w1) /\ body w1 = (r, w').
Proof.
  intros E. destruct (bind_reads _ _ _ _ _ _ reads_next E) as [?|(f & w1 & Hd & Hc & _ & E1)]; [by left|].
  destruct (bool_decide (f = Clean)); [right; eauto|]. injection E1 as <- <-. by left.
Qed.

Lemma value_ignored {A} (c : journal A) w r w' : (c ≫= fun _ => mret tt) w = (r, w') ->
  exists r0, c w = (r0, w') /\ done r = done r0.
Proof.
  intros E. destruct (c w) as [[a|e] w1] eqn:Ec.
  - rewrite (st_bind_eq _ _ _ _ _ Ec) in E. injection E as <- <-. eauto.
  - rewrite (st_bind_raise _ _ _ _ _ Ec) in E. injection E as <- <-. eauto.
Qed.

(** [reading E L] passes an access that only reads, by its lemma [L]: either
    it raises and nothing has changed, or the body goes on. *)
Ltac kept Hx := apply outcome_kept; [congruence|rewrite Hx; done].
Tactic Notation "reading" hyp(E) uconstr(L) :=
  let Hx := fresh "Hx" in let Hd := fresh "Hd" in let a := fresh "a" in let w := fresh "w" in
  let Hc := fresh "Hc" in let HP := fresh "HP" in let E' := fresh "E" in
  destruct (bind_reads _ _ _ _ _ _ L E) as [[Hx Hd]|(a & w & Hd & Hc & HP & E')];
  [kept Hx|]; clear E; rename E' into E.
Ltac locking E :=
  let Hx := fresh "Hx" in let Hd := fresh "Hd" in let w := fresh "w" in
  let Hc := fresh "Hc" in let E' := fresh "E" in
  destruct (lock_reads _ _ _ _ E) as [[Hx Hd]|(w & Hd & Hc & E')]; [kept Hx|]; clear E; rename E' into E.
(** The disks of the worlds reached are the first one. *)
Ltac same_disk :=
  repeat match goal with
  | A : w_disk ?w1 = w_disk ?w0, B : w_disk ?w2 = w_disk ?w1 |- _ => rewrite A in B
  end;
  repeat match goal with A : w_disk ?w1 = w_disk ?w0, B : context [w_disk ?w1] |- _ =>
    lazymatch B with A => fail | _ => rewrite A in B end end.
Ltac finish E evs :=
  eapply (commit_finishes _ _ _ _ _ evs); [| |exact E|];
  [congruence|tauto|].
Ltac refused E := injection E as <- <-; apply outcome_kept; [congruence|done].

Lemma open_incident_outcome code postmaster first ev t0 t1 w r w' :
  open_incident code postmaster first ev t0 t1 w = (r, w') ->
  outcome (OpenIncident code postmaster first ev) t0 t1 (clean w) (w_disk w) (done r) (w_disk w').
Proof.
  unfold open_incident. intros E. locking E. reading E reads_current. same_disk.
  destruct a as [r0|]; [destruct (bool_decide (in_state r0 = CLOSED)) eqn:Hs; bool_prop|].
  - finish E (@nil (dict pyval)). rewrite HP. apply step_open. by intros ? [= <-].
  - reading E (reads_lift _). same_disk.
    finish E a. rewrite HP. by apply step_failure.
  - finish E (@nil (dict pyval)). rewrite HP. apply step_open. done.
Qed.

Lemma record_diagnostic_permit_outcome i p t0 t1 w r w' :
  record_diagnostic_permit i p t0 t1 w = (r, w') ->
  outcome (RecordDiagnosticPermit i p) t0 t1 (clean w) (w_disk w) (done r) (w_disk w').
Proof.
  unfold record_diagnostic_permit. intros E. reading E (reads_lift _). locking E.
  reading E (reads_required i). reading E (reads_ensure _ _). same_disk. bool_prop.
  destruct HP0 as [Hcur <-]. destruct (py_eq _ _); [injection E as <- <-; apply outcome_kept; [congruence|done]|].
  reading E (reads_lift _). same_disk. destruct a.
  finish E a2. rewrite Hcur. by apply step_diagnostic.
Qed.

(** The common opening: the checks before the lock, the lock, the current
    incident of that id. *)
Ltac required E i :=
  locking E; reading E (reads_required i); same_disk;
  match goal with HP : current_of _ = Some _ /\ in_incident_id _ = i |- _ => destruct HP as [Hcur <-] end.
Ltac nothing_new E := injection E as <- <-; apply outcome_kept; [congruence|try done].

Lemma dict_or_dict v d k x : dict_or v = Ok d -> py_eq (pget k d) (PStr x) = true -> v = PDict d.
Proof. unfold dict_or. destruct (truthy v); [by destruct v; intros [= ->]|]. by intros [= <-]. Qed.

Lemma dict_or_ne v d : dict_or v = Ok d -> d <> [] -> v = PDict d.
Proof. unfold dict_or. destruct (truthy v); [by destruct v; intros [= ->]|]. by intros [= <-]. Qed.

Lemma record_diagnostic_observation_outcome i pid code ev t0 t1 w r w' :
  record_diagnostic_observation i pid code ev t1 w = (r, w') ->
  outcome (RecordDiagnosticObservation i pid code ev) t0 t1 (clean w) (w_disk w) (done r) (w_disk w').
Proof.
  unfold record_diagnostic_observation. intros E. reading E (reads_lift _). cbv zeta in E. reading E (reads_lift _).
  required E i. reading E (reads_lift _). reading E (reads_ensure _ _). reading E (reads_lift _).
  reading E (reads_ensure _ _). same_disk.
  finish E (@nil (dict pyval)). rewrite Hcur. eapply step_observation; [by eapply dict_or_dict|done|].
  match goal with HP : try_except _ _ _ = Ok ?a, Ha : ?a = true |- _ => rewrite Ha in HP; unfold try_except in HP end.
  destruct (_parse_timestamp _ _) as [t|x]; [|simpl in *; by destruct (is_value_error x)].
  exists t. split; [done|]. simpl in *. match goal with HP : Ok (t1 <? t) = Ok true |- _ => injection HP as HP; lia end.
Qed.

Lemma attr_get_dict k v x : attr_get k v = Ok x -> exists d, v = PDict d /\ x = pget k d.
Proof. destruct v; try done. intros [= <-]. eauto. Qed.

Lemma revoke_diagnostic_permit_outcome i reason code t0 t1 w r w' :
  revoke_diagnostic_permit i reason code t1 w = (r, w') ->
  outcome (RevokeDiagnosticPermit i reason code) t0 t1 (clean w) (w_disk w) (done r) (w_disk w').
Proof.
  unfold revoke_diagnostic_permit. cbv zeta. intros E. reading E (reads_lift _). required E i.
  reading E (reads_ensure _ _). reading E (reads_lift _). same_disk.
  match goal with HP : attr_get _ _ = Ok _ |- _ => apply attr_get_dict in HP as (held & Hheld & ->) end.
  finish E (@nil (dict pyval)). rewrite Hcur.
  match goal with |- context [negb ?b] => destruct b eqn:Hb end;
    (eapply (step_revocation _ _ _ _ _ _ _ (strip (default "" code)) _ _ Hheld); [done|by rewrite Hb|by rewrite Hb]) ||
    (cbn [negb]; pose proof (step_revocation (events_at (w_disk w) (in_incident_id a0)) t0 t1 reason code a0 held _ _ _ Hheld eq_refl eq_refl eq_refl) as S;
     rewrite Hb in S; exact S).
Qed.

Lemma append_then {A} i e (x : A) w r w' : (_append_event_unlocked i e ≫= fun _ => mret x) w = (r, w') ->
  dk_current (w_disk w') = dk_current (w_disk w) /\ (clean w -> done r = true)
  /\ exists es, es `prefix_of` [e] /\ logged (w_disk w) i es (w_disk w').
Proof.
  intros E. destruct (_append_event_unlocked i e w) as [r1 w1] eqn:E1; pose proof E1 as E1'.
  apply append_outcome in E1' as [Hcur [(-> & Hl & _)|(y & es & -> & Hp & Hl & Hn)]];
    [rewrite (st_bind_eq _ _ _ _ _ E1) in E|rewrite (st_bind_raise _ _ _ _ _ E1) in E]; injection E as <- <-; eauto.
  split; [done|]. split; [by intros Hw; destruct Hn|eauto].
Qed.

Lemma record_handback_outcome i owner reason v t0 t1 w r w' :
  record_diagnostic_ownership_handback i owner reason v t1 w = (r, w') ->
  outcome (RecordOwnershipHandback i owner reason v) t0 t1 (clean w) (w_disk w) (done r) (w_disk w').
Proof.
  unfold record_diagnostic_ownership_handback. cbv zeta. intros E. reading E (reads_lift _). reading E (reads_lift _).
  reading E (reads_lift _). required E i. reading E (reads_ensure _ _). same_disk.
  match goal with HP : is_none _ = true |- _ => apply is_none_true in HP; rename HP into Hn end.
  apply append_then in E as (Hw & Ho & es & Hp & Hl). same_disk.
  eapply outcome_handed_back; eauto. intros Hw0. auto 10.
Qed.

Lemma mark_contained_outcome i p t0 t1 w r w' : mark_contained i p t0 t1 w = (r, w') ->
  outcome (MarkContained i p) t0 t1 (clean w) (w_disk w) (done r) (w_disk w').
Proof.
  unfold mark_contained. intros E. reading E (reads_lift _). reading E (reads_lift _). reading E (reads_lift _).
  required E i. destruct a. destruct (_ <? _) eqn:Ht; [|done]. bool_prop.
  destruct (in_state _) eqn:Hs; [|destruct (py_eq _ _)|]; [|nothing_new E..].
  finish E (@nil (dict pyval)). rewrite Hcur. by eapply step_contained.
Qed.

Lemma grant_pack_install_outcome i p t0 t1 w r w' : grant_pack_install_permit i p t0 t1 w = (r, w') ->
  outcome (GrantPackInstallPermit i p) t0 t1 (clean w) (w_disk w) (done r) (w_disk w').
Proof.
  unfold grant_pack_install_permit. intros E. reading E (reads_lift _). reading E (reads_lift _). reading E (reads_lift _).
  required E i. reading E (reads_ensure _ _). reading E (reads_lift _). same_disk. destruct a. destruct (_ <? _) eqn:Ht; [|done].
  match goal with HP : first_with_id _ _ = Ok ?o |- _ => destruct o; [destruct (py_eq _ _); nothing_new E|] end.
  reading E (reads_lift _). reading E (reads_ensure _ _). same_disk. bool_prop.
  finish E (@nil (dict pyval)). rewrite Hcur. match goal with HP : _ = Ok ?x |- context [str_list ?x.2] => destruct x end.
  eapply step_pack; try done. by apply Nat.ltb_lt.
Qed.

Lemma revoke_pack_install_outcome i pid iid st path t0 t1 w r w' : revoke_pack_install_permit i pid iid st path t1 w = (r, w') ->
  outcome (RevokePackInstallPermit i pid iid st path) t0 t1 (clean w) (w_disk w) (done r) (w_disk w').
Proof.
  unfold revoke_pack_install_permit. cbv zeta. intros E. do 4 (reading E (reads_lift _)).
  required E i. reading E (reads_lift _). same_disk. destruct (Nat.eqb _ _) eqn:Hn.
  - reading E (reads_events _). same_disk. apply Nat.eqb_eq in Hn.
    destruct (last _); [destruct (forallb _ _)|]; injection E as <- <-; (apply outcome_kept; [congruence|]); simpl; eauto 10.
  - finish E (@nil (dict pyval)). rewrite Hcur. eapply step_unpack; [done|]. by apply Nat.eqb_neq.
Qed.

Lemma grant_targeted_outcome i p t0 t1 w r w' : grant_targeted_migration_permit i p t0 t1 w = (r, w') ->
  outcome (GrantTargetedMigrationPermit i p) t0 t1 (clean w) (w_disk w) (done r) (w_disk w').
Proof.
  unfold grant_targeted_migration_permit. intros E. do 3 (reading E (reads_lift _)).
  required E i. reading E (reads_ensure _ _). cbv zeta in E. reading E (reads_lift _). same_disk. destruct a. destruct (_ <? _) eqn:Ht; [|done].
  match goal with HP : first_with_id _ _ = Ok ?o |- _ => destruct o; [destruct (py_eq _ _); nothing_new E|] end.
  reading E (reads_ensure _ _). same_disk. bool_prop. finish E (@nil (dict pyval)). rewrite Hcur.
  eapply step_targeted; try done. by apply Nat.ltb_lt.
Qed.

Lemma reopen_outcome i owner auth path sha reason file t0 t1 w r w' :
  reopen_for_attribution i owner auth path sha reason file t1 w = (r, w') ->
  outcome (ReopenForAttribution i owner auth path sha reason file) t0 t1 (clean w) (w_disk w) (done r) (w_disk w').
Proof.
  unfold reopen_for_attribution. intros E. do 5 (reading E (reads_lift _)). required E i.
  destruct (in_state _) eqn:Hs; [destruct (is_none _); nothing_new E; simpl; eauto| |nothing_new E].
  reading E (reads_events _). reading E (reads_ensure _ _). reading E (reads_ensure _ _). same_disk. bool_prop.
  finish E (@nil (dict pyval)). rewrite Hcur. subst. eapply step_reopened; [done|done|].
  destruct file as [bytes|]; [|done]. exists bytes. split; [done|]. 
  match goal with HP : require (bool_decide (Sha256.hexdigest bytes = _)) _ = _ |- _ =>
    destruct (bool_decide (Sha256.hexdigest bytes = _)) eqn:Hb; [|done] end. by bool_prop.
Qed.

Lemma required_Ok b m u : require b m = Ok u -> b = true.
Proof. by destruct b. Qed.

Lemma renew_outcome i p auth t0 t1 w r w' : renew_containment i p auth t0 t1 w = (r, w') ->
  outcome (RenewContainment i p auth) t0 t1 (clean w) (w_disk w) (done r) (w_disk w').
Proof.
  unfold renew_containment. intros E. do 4 (reading E (reads_lift _)). required E i.
  reading E (reads_ensure _ _). reading E (reads_ensure _ _). reading E (reads_lift _). reading E (reads_ensure _ _).
  cbv zeta in E. reading E (reads_lift _). same_disk. destruct a.
  repeat match goal with HP : require ?b _ = Ok _ |- _ => apply required_Ok in HP end. bool_prop.
  finish E (@nil (dict pyval)). rewrite Hcur. eapply step_renewed; try done.
  by apply dict_or_ne.
Qed.

Lemma reads_judged {A} (c : res A) : reads (judged c) (fun _ a => c = Ok a).
Proof.
  unfold judged. intros w r w' E. injection E as <- <-. split_and!; [done|done|].
  destruct c as [a|[]]; try done; intros b; try done. by destruct (bool_decide _).
Qed.

Lemma close_outcome i p t0 t1 w r w' : close i p t0 t1 w = (r, w') ->
  outcome (CloseIncident i p) t0 t1 (clean w) (w_disk w) (done r) (w_disk w').
Proof.
  unfold close. intros E. reading E (reads_lift _). required E i. destruct a.
  destruct (bool_decide (in_state _ = CLOSED)) eqn:Hs; bool_prop.
  - destruct (py_eq _ _); injection E as <- <-; (apply outcome_kept; [congruence|]); simpl; eauto.
  - reading E (reads_events _). reading E (reads_judged _). same_disk. finish E (@nil (dict pyval)). rewrite Hcur.
    subst. by apply step_closed.
Qed.

Lemma close_residual_outcome i p t0 t1 w r w' : close_residual i p t0 t1 w = (r, w') ->
  outcome (CloseResidual i p) t0 t1 (clean w) (w_disk w) (done r) (w_disk w').
Proof.
  unfold close_residual. intros E. reading E (reads_lift _). required E i. destruct a.
  destruct (bool_decide (in_state _ = CLOSED)) eqn:Hs; bool_prop.
  - destruct (py_eq _ _); injection E as <- <-; (apply outcome_kept; [congruence|]); simpl; eauto.
  - reading E (reads_events _). reading E (reads_judged _). same_disk. finish E (@nil (dict pyval)). rewrite Hcur.
    subst. by apply step_closed_residual.
Qed.

Lemma record_exhaustion_outcome i p t0 t1 w r w' : record_attribution_exhaustion i p t0 t1 w = (r, w') ->
  outcome (RecordExhaustion i p) t0 t1 (clean w) (w_disk w) (done r) (w_disk w').
Proof.
  unfold record_attribution_exhaustion. cbv zeta. intros E. do 3 (reading E (reads_lift _)). required E i.
  reading E (reads_ensure _ _). reading E (reads_events _). same_disk. destruct a.
  match goal with HP : require _ _ = Ok _ |- _ => apply required_Ok in HP end. bool_prop. subst.
  match type of E with context [List.filter ?f ?l] => destruct (List.filter f l) eqn:Hf end.
  - finish E (@nil (dict pyval)). rewrite Hcur. by eapply step_exhausted.
  - match type of E with context [if ?b then _ else _] => destruct b end; nothing_new E.
Qed.

(** Every call follows the machine, or leaves the current incident as it was. *)
Lemma exec_outcome c d r d' : exec c d = (r, d') ->
  outcome (c_request c) (c_t0 c) (c_t1 c) (Forall (fun f => f = Clean) (c_faults c)) d (done r) d'.
Proof.
  unfold exec. destruct (run_request _ _ _ _) as [r1 w'] eqn:E. intros [= <- <-].
  change (Forall (fun f => f = Clean) (c_faults c)) with (clean (mkWorld d (c_faults c))).
  change d with (w_disk (mkWorld d (c_faults c))) at 2.
  destruct (c_request c); simpl in E; apply value_ignored in E as (r0 & E & ->).
  - by apply open_incident_outcome.
  - by apply record_diagnostic_permit_outcome.
  - by apply record_diagnostic_observation_outcome.
  - by apply revoke_diagnostic_permit_outcome.
  - by apply record_handback_outcome.
  - by apply mark_contained_outcome.
  - by apply grant_pack_install_outcome.
  - by apply revoke_pack_install_outcome.
  - by apply grant_targeted_outcome.
  - by apply reopen_outcome.
  - by apply renew_outcome.
  - by apply close_outcome.
  - by apply close_residual_outcome.
  - by apply record_exhaustion_outcome.
Qed.
End runs.
