(* ===== verification/IncidentFacts.v ===== *)
(** The invariant of the incident journal: whatever the accesses to the files
    do, the current incident reads back, and each of its permits was granted by
    a call that validated it and has not been revoked since. *)
From S2P Require Import Prelude PyDict PyStr PyVal PyJson PyTime IncidentModels IncidentJournal IncidentRuns.

Definition opens (c : call) : Prop := exists code postmaster first ev, c_request c = OpenIncident code postmaster first ev.
Definition revokes_diagnostic (i : string) (c : call) : Prop :=
  exists reason code, c_request c = RevokeDiagnosticPermit i reason code.
Definition revokes_pack (i permit_id : string) (c : call) : Prop :=
  exists pid iid st path, c_request c = RevokePackInstallPermit i pid iid st path /\ strip pid = permit_id.
Definition reopens (i : string) (c : call) : Prop :=
  exists owner auth path sha reason file, c_request c = ReopenForAttribution i owner auth path sha reason file.

(** What the request of a step is not. *)
Ltac other Eq :=
  intros; unfold opens, reopens, revokes_diagnostic, revokes_pack in *; rewrite ?Eq in *;
  try (intros ?); repeat match goal with Hx : exists _, _ |- _ => destruct Hx as [? Hx] end;
  repeat match goal with Hx : _ /\ _ |- _ => destruct Hx as [? ?] end; discriminate.

Section facts.
Context `{IsoReader}.

(** A call of [h] satisfies [P], and no call that returned after it [broken]. *)
Definition granted (h : list (call * bool)) (P broken : call -> Prop) : Prop :=
  exists h2 c ok h1, h = h2 ++ (c, ok) :: h1 /\ P c /\ forall c', (c', true) ∈ h2 -> ~ broken c'.

Lemma granted_cons h (P broken : call -> Prop) c ok :
  granted h P broken -> (ok = true -> ~ broken c) -> granted ((c, ok) :: h) P broken.
Proof.
  intros (h2 & g & gok & h1 & -> & HP & Hb) Hc. exists ((c, ok) :: h2), g, gok, h1. split; [done|]. split; [done|].
  intros c' Hin. apply list.elem_of_cons in Hin as [Hin|Hin]; [injection Hin as -> <-; auto|by apply Hb].
Qed.
Lemma granted_now h (P broken : call -> Prop) c ok : P c -> granted ((c, ok) :: h) P broken.
Proof. intros HP. exists [], c, ok, h. split; [done|]. split; [done|]. intros c' Hin. by inversion Hin. Qed.

(** Where the permits of an incident come from. *)
Definition diagnostic_from (h : list (call * bool)) (i : string) (p : IncidentDiagnosticPermit) : Prop :=
  granted h (fun c => c_request c = RecordDiagnosticPermit i p /\ validate_diagnostic p (c_t0 c) = Ok tt)
    (fun c => revokes_diagnostic i c
              \/ (opens c /\ _is_live_signal_observer_permit (PDict (diagnostic_to_dict p)) = false)).
Definition containment_from (h : list (call * bool)) (i : string) (p : IncidentContainmentReceipt) : Prop :=
  granted h (fun c => (c_request c = MarkContained i p \/ exists auth, c_request c = RenewContainment i p auth)
                      /\ validate_containment p = Ok tt)
    (fun c => opens c \/ reopens i c).
Definition pack_from (h : list (call * bool)) (i : string) (p : IncidentPackInstallPermitReceipt) : Prop :=
  granted h (fun c => c_request c = GrantPackInstallPermit i p /\ validate_pack_install p = Ok tt)
    (revokes_pack i (pi_permit_id p)).
Definition targeted_from (h : list (call * bool)) (i : string) (p : IncidentTargetedMigrationPermitReceipt) : Prop :=
  granted h (fun c => c_request c = GrantTargetedMigrationPermit i p /\ validate_targeted p = Ok tt) (fun _ => False).

Notation pack p := (PDict (pack_install_to_dict p)).
Definition has_diagnostic (h : list (call * bool)) (i : string) (st : IncidentState) (v : pyval) : Prop :=
  v = PNone \/ (st = OPEN_UNATTRIBUTED /\ exists p, v = PDict (diagnostic_to_dict p) /\ diagnostic_from h i p).
Definition has_containment (h : list (call * bool)) (i : string) (st : IncidentState) (v : pyval) : Prop :=
  match st with
  | CONTAINED_PENDING_SOAK => exists p, v = PDict (containment_to_dict p) /\ containment_from h i p
  | _ => v = PNone
  end.
Definition has_packs (h : list (call * bool)) (i : string) (l : list pyval) : Prop :=
  exists ps, l = map (fun p => pack p) ps /\ Forall (pack_from h i) ps /\ NoDup (map pi_permit_id ps) /\ (length ps <= 16)%nat.
Definition has_targeted (h : list (call * bool)) (i : string) (l : list pyval) : Prop :=
  exists ps, l = map (fun p => PDict (targeted_to_dict p)) ps /\ Forall (targeted_from h i) ps /\ (length ps <= 16)%nat.

Record incident_ok (h : list (call * bool)) (r : IncidentReceipt) : Prop := {
  io_diagnostic : has_diagnostic h (in_incident_id r) (in_state r) (in_diagnostic_permit r);
  io_containment : has_containment h (in_incident_id r) (in_state r) (in_containment_receipt r);
  io_packs : has_packs h (in_incident_id r) (in_pack_install_permits r);
  io_targeted : has_targeted h (in_incident_id r) (in_targeted_migration_permits r);
}.

Definition journal_ok (h : list (call * bool)) (d : disk) : Prop :=
  dk_current d = None \/ exists r, dk_current d = Some (incident_to_dict r) /\ incident_ok h r.

Lemma current_of_written d r : dk_current d = Some (incident_to_dict r) -> current_of d = Some r.
Proof. unfold current_of. intros ->. by rewrite from_dict_to_dict. Qed.
Lemma journal_ok_current h d r : journal_ok h d -> current_of d = Some r -> incident_ok h r.
Proof.
  intros [E|(r' & E & Hok)]; [unfold current_of; by rewrite E|]. rewrite (current_of_written _ _ E). by intros [= <-].
Qed.

(** ** A call that does not touch what it did not settle *)

Definition harmless (r : IncidentReceipt) (c : call) (ok : bool) : Prop := ok = true ->
  ~ opens c /\ ~ revokes_diagnostic (in_incident_id r) c
  /\ (reopens (in_incident_id r) c -> in_state r = OPEN_UNATTRIBUTED)
  /\ forall pid ps, in_pack_install_permits r = map (fun p => PDict (pack_install_to_dict p)) ps ->
       revokes_pack (in_incident_id r) pid c -> pid ∉ map pi_permit_id ps.

Lemma incident_ok_cons h r c ok : incident_ok h r -> harmless r c ok -> incident_ok ((c, ok) :: h) r.
Proof.
  intros [Hd Hc (ps & Ep & Fp & Np & Lp) (ts & Et & Ft & Lt)] Hh. split.
  - destruct Hd as [?|(? & p & E & G)]; [by left|]. right. split; [done|]. exists p. split; [done|]. apply granted_cons; [done|].
    intros Hok. destruct (Hh Hok) as (H1 & H2 & _). tauto.
  - unfold has_containment in *. destruct (in_state r) eqn:Es; try done. destruct Hc as (p & E & G). exists p. split; [done|].
    apply granted_cons; [done|]. intros Hok [?|Hr]; destruct (Hh Hok) as (H1 & _ & H3 & _); [done|].
    rewrite Es in H3. by specialize (H3 Hr).
  - exists ps. split_and!; try done. apply list.Forall_forall. intros p Hp. rewrite list.Forall_forall in Fp.
    apply granted_cons; [by apply Fp|]. intros Hok Hr. destruct (Hh Hok) as (_ & _ & _ & H4).
    apply (H4 _ _ Ep Hr). by apply list_elem_of_fmap_2.
  - exists ts. split_and!; try done. eapply list.Forall_impl; [exact Ft|]. intros p G. apply granted_cons; [done|]. tauto.
Qed.

(** ** The lists of permits *)

Lemma ok_bind {A B} (a : A) (k : A -> res B) : (Ok a ≫= k) = k a.
Proof. done. Qed.

Lemma dict_or_self d : dict_or (PDict d) = Ok d.
Proof. by destruct d. Qed.

Lemma text_or_str s dflt : s <> "" -> text_or (PStr s) dflt = s.
Proof. intros Hs. unfold text_or, py_or. simpl. by rewrite bool_decide_false. Qed.
Lemma text_or_empty s : text_or (PStr s) "" = s.
Proof. destruct (decide (s = "")) as [->|Hs]; [done|by apply text_or_str]. Qed.

Lemma first_with_id_cons id p ps : first_with_id id (pack p :: ps)
  = if bool_decide (pi_permit_id p = id) then Ok (Some (pack p)) else first_with_id id ps.
Proof.
  transitivity (if bool_decide (text_or (PStr (pi_permit_id p)) "" = id) then Ok (Some (pack p)) else first_with_id id ps);
    [reflexivity|by rewrite text_or_empty].
Qed.
Lemma without_id_cons id p ps : without_id id (pack p :: ps)
  = (rest ← without_id id ps; Ok (if bool_decide (pi_permit_id p = id) then rest else pack p :: rest)).
Proof.
  transitivity (rest ← without_id id ps;
    Ok (if bool_decide (text_or (PStr (pi_permit_id p)) "" = id) then rest else pack p :: rest));
    [reflexivity|by rewrite text_or_empty].
Qed.

Lemma first_with_id_none id ps : first_with_id id (map (fun p => pack p) ps) = Ok None -> id ∉ map pi_permit_id ps.
Proof.
  induction ps as [|p ps IH]; [intros _ Hin; by inversion Hin|]. cbn [map]. rewrite first_with_id_cons.
  destruct (bool_decide (pi_permit_id p = id)) eqn:E; [done|]. bool_prop. intros Hf Hin.
  apply list.elem_of_cons in Hin as [->|Hin]; [done|]. by apply IH in Hf.
Qed.

Lemma partition_sublist ps now active pruned :
  _partition_active_pack_install_permits (map (fun p => pack p) ps) now = Ok (active, pruned) ->
  exists qs, active = map (fun p => pack p) qs /\ qs `sublist_of` ps.
Proof.
  revert active pruned. induction ps as [|p ps IH]; intros active pruned; cbn [map _partition_active_pack_install_permits].
  - intros [= <- <-]. exists []. split; [done|constructor].
  - intros E. bind_inv E. bind_inv E. bind_inv E. bind_inv E. destruct a2 as [l1 l2].
    apply IH in Ha2 as (qs & -> & Hs). destruct a0; injection E as <- <-.
    + exists (p :: qs). split; [done|by constructor].
    + exists qs. split; [done|by constructor].
Qed.

Lemma without_id_filter id ps retained : without_id id (map (fun p => pack p) ps) = Ok retained ->
  exists qs, retained = map (fun p => pack p) qs /\ qs `sublist_of` ps /\ id ∉ map pi_permit_id qs.
Proof.
  revert retained. induction ps as [|p ps IH]; intros retained; cbn [map]; [|rewrite without_id_cons].
  - intros [= <-]. exists []. split; [done|]. split; [constructor|intros Hin; by inversion Hin].
  - intros E. bind_inv E. apply IH in Ha as (qs & -> & Hs & Hn).
    destruct (bool_decide (pi_permit_id p = id)) eqn:Eb; bool_prop; injection E as <-.
    + exists qs. split; [done|]. split; [by constructor|done].
    + exists (p :: qs). split; [done|]. split; [by constructor|]. simpl. rewrite list.elem_of_cons. naive_solver.
Qed.

Lemma sublist_packs (P : IncidentPackInstallPermitReceipt -> Prop) qs ps : qs `sublist_of` ps ->
  Forall P ps -> NoDup (map pi_permit_id ps) -> Forall P qs /\ NoDup (map pi_permit_id qs) /\ (length qs <= length ps)%nat.
Proof.
  intros Hs HP Hn. split_and!.
  - rewrite list.Forall_forall in *. intros x Hx. by eapply HP, elem_of_sublist.
  - eapply sublist_NoDup; [done|by apply fmap_sublist].
  - by apply sublist_length.
Qed.

(** ** The steps *)

Lemma carry_diagnostic h i st v c ok : has_diagnostic h i st v -> ~ revokes_diagnostic i c ->
  (opens c -> _is_live_signal_observer_permit v = true) -> has_diagnostic ((c, ok) :: h) i st v.
Proof.
  intros [->|(Hst & p & -> & G)] Hr Ho; [by left|]. right. split; [done|]. exists p. split; [done|]. apply granted_cons; [done|].
  intros _ [?|[Hc Hl]]; [done|]. rewrite Ho in Hl; done.
Qed.
Lemma carry_containment h i st v c ok : has_containment h i st v -> ~ opens c -> ~ reopens i c ->
  has_containment ((c, ok) :: h) i st v.
Proof.
  unfold has_containment. destruct st; try done. intros (p & -> & G) Ho Hr. exists p. split; [done|].
  apply granted_cons; [done|tauto].
Qed.
Lemma carry_packs h i l c ok : has_packs h i l -> (forall pid, ~ revokes_pack i pid c) -> has_packs ((c, ok) :: h) i l.
Proof.
  intros (ps & -> & Fp & Hn & Hl) Hr. exists ps. split_and!; try done. eapply list.Forall_impl; [exact Fp|].
  intros p G. apply granted_cons; [done|]. intros _ ?. by eapply Hr.
Qed.
Lemma carry_targeted h i l c ok : has_targeted h i l -> has_targeted ((c, ok) :: h) i l.
Proof.
  intros (ps & -> & Fp & Hl). exists ps. split_and!; try done. eapply list.Forall_impl; [exact Fp|].
  intros p G. apply granted_cons; [done|tauto].
Qed.
Lemma no_packs h i : has_packs h i [].
Proof. exists []. split_and!; [done|constructor|constructor|simpl; lia]. Qed.
Lemma no_targeted h i : has_targeted h i [].
Proof. exists []. split_and!; [done|constructor|simpl; lia]. Qed.

Lemma granted_pack h i l p c ok active pruned now :
  has_packs h i l -> c_request c = GrantPackInstallPermit i p -> validate_pack_install p = Ok tt ->
  first_with_id (pi_permit_id p) l = Ok None -> _partition_active_pack_install_permits l now = Ok (active, pruned) ->
  (length active < 16)%nat -> has_packs ((c, ok) :: h) i (active ++ [pack p]).
Proof.
  intros (ps & -> & Fp & Hn & Hl) Eq Hv Hf%first_with_id_none (qs & -> & Hs)%partition_sublist Hlen.
  destruct (sublist_packs _ _ _ Hs Fp Hn) as (Fq & Nq & Lq). exists (qs ++ [p]). split; [by rewrite map_app|].
  rewrite length_map in Hlen. split_and!.
  - apply list.Forall_app. split; [|apply list.Forall_singleton; by apply granted_now].
    eapply list.Forall_impl; [exact Fq|]. intros q G. apply granted_cons; [done|]. other Eq.
  - rewrite map_app. apply list.NoDup_app. split; [done|]. split; [|apply NoDup_singleton].
    intros x Hx. simpl. rewrite list_elem_of_singleton. intros ->. apply Hf.
    eapply elem_of_sublist; [exact Hx|]. by apply fmap_sublist.
  - rewrite length_app. simpl. lia.
Qed.

Lemma revoked_pack h i l pid iid st path c ok retained :
  has_packs h i l -> c_request c = RevokePackInstallPermit i pid iid st path -> without_id (strip pid) l = Ok retained ->
  has_packs ((c, ok) :: h) i retained.
Proof.
  intros (ps & -> & Fp & Hn & Hl) Eq (qs & -> & Hs & Hid)%without_id_filter.
  destruct (sublist_packs _ _ _ Hs Fp Hn) as (Fq & Nq & Lq). exists qs. split_and!; try done; [|lia].
  rewrite list.Forall_forall in *. intros q Hq. apply granted_cons; [by apply Fq|].
  intros _ (a & b & x & y & E & E'). rewrite Eq in E. injection E as <- _ _ _. apply Hid. rewrite E'.
  by apply list_elem_of_fmap_2.
Qed.

Lemma granted_targeted h i l p c ok :
  has_targeted h i l -> c_request c = GrantTargetedMigrationPermit i p -> validate_targeted p = Ok tt ->
  (length l < 16)%nat -> has_targeted ((c, ok) :: h) i (l ++ [PDict (targeted_to_dict p)]).
Proof.
  intros Hh Eq Hv Hlen. destruct (carry_targeted _ _ _ c ok Hh) as (ps & -> & Fp & _). exists (ps ++ [p]).
  rewrite map_app, length_app, length_map in *. split_and!; [done| |simpl; lia].
  apply list.Forall_app. split; [done|]. apply list.Forall_singleton. by apply granted_now.
Qed.

(** A permit of an open incident is not a containment, and the other way round. *)
Lemma open_containment h r : incident_ok h r -> in_state r <> CONTAINED_PENDING_SOAK -> in_containment_receipt r = PNone.
Proof. intros [_ Hc _ _]. unfold has_containment in Hc. by destruct (in_state r). Qed.
Lemma settled_diagnostic h r : incident_ok h r -> in_state r <> OPEN_UNATTRIBUTED -> in_diagnostic_permit r = PNone.
Proof. intros [[?|[? _]] _ _ _] Hn; [done|by destruct Hn]. Qed.
Lemma no_diagnostic h i st : has_diagnostic h i st PNone.
Proof. by left. Qed.

Ltac carry Eq := first
  [ apply no_diagnostic | apply no_packs | apply no_targeted | done
  | eapply carry_diagnostic; [eassumption|other Eq|other Eq]
  | eapply carry_containment; [eassumption|other Eq|other Eq]
  | eapply carry_packs; [eassumption|other Eq]
  | eapply carry_targeted; eassumption ].

Lemma step_ok es h c ok cur evs r : incident_step es (c_t0 c) (c_t1 c) (c_request c) cur evs r ->
  (forall r0, cur = Some r0 -> incident_ok h r0) -> incident_ok ((c, ok) :: h) r.
Proof.
  remember (c_request c) as q eqn:Eq. symmetry in Eq. intros S Hok.
  destruct S; try match type of Hok with forall r0, Some ?r1 = Some r0 -> _ => pose proof (Hok _ eq_refl) as I; pose proof I as [Id Ic Ip It] end; split; simpl; try carry Eq.
  - destruct (_is_live_signal_observer_permit (in_diagnostic_permit r)) eqn:El; [|apply no_diagnostic].
    eapply carry_diagnostic with (c := c) (ok := ok) in Id; [|other Eq|done].
    destruct Id as [->|[_ Id]]; [apply no_diagnostic|by right].
  - right. split; [done|]. eexists. split; [done|]. by apply granted_now.
  - unfold has_containment. rewrite (open_containment _ _ I); [|by intros Hs; rewrite (settled_diagnostic _ _ I) in * by congruence].
    destruct (bool_decide _); destruct (in_state r) eqn:Hs; try done; by rewrite (settled_diagnostic _ _ I) in * by congruence.
  - eexists. split; [done|]. apply granted_now. auto.
  - by eapply granted_pack.
  - by eapply revoked_pack.
  - by apply granted_targeted.
  - rewrite (settled_diagnostic _ _ I) by congruence. apply no_diagnostic.
  - unfold has_containment. destruct (in_state r); try done. eexists. split; [done|]. apply granted_now. eauto.
Qed.

(** ** What is reached *)

Lemma same_length_kept id ps retained : without_id id (map (fun p => pack p) ps) = Ok retained ->
  length retained = length (map (fun p => pack p) ps) -> id ∉ map pi_permit_id ps.
Proof.
  intros (qs & -> & Hs & Hid)%without_id_filter. rewrite !length_map. intros Hl.
  assert (qs = ps) as <-; [|done]. clear Hid. 
  induction Hs as [|x l k Hs IH|x l k Hs IH]; [done| |].
  - f_equal. apply IH. simpl in Hl. lia.
  - apply sublist_length in Hs. simpl in Hl. lia.
Qed.

Lemma settled_harmless d r c ok : current_of d = Some r -> (ok = true -> settled (c_request c) d) -> harmless r c ok.
Proof.
  intros Hd Hs Hok. specialize (Hs Hok). unfold opens, revokes_diagnostic, reopens, revokes_pack.
  split; [intros (? & ? & ? & ? & Eq); by rewrite Eq in Hs|].
  split; [intros (? & ? & Eq); by rewrite Eq in Hs|]. split.
  - intros (? & ? & ? & ? & ? & ? & Eq). rewrite Eq in Hs. destruct Hs as (r' & Hr & Hst). congruence.
  - intros pid ps Ep (x & ? & ? & ? & Eq & <-). rewrite Eq in Hs. destruct Hs as (r' & retained & Hr & _ & Hw & Hl).
    rewrite Hd in Hr. injection Hr as <-. rewrite Ep in *. by eapply same_length_kept.
Qed.

Lemma kept_ok h c ok d d' : journal_ok h d -> dk_current d' = dk_current d ->
  (forall r, current_of d = Some r -> harmless r c ok) -> journal_ok ((c, ok) :: h) d'.
Proof.
  intros [E|(r & E & Hr)] Hd Hh; [left; congruence|]. right. exists r. split; [congruence|].
  apply incident_ok_cons; [done|]. by apply Hh, current_of_written.
Qed.

Lemma history_ok h d : history h d -> journal_ok h d.
Proof.
  induction 1 as [|h d c r d' _ IH E]; [by left|]. apply exec_outcome in E as
    [-> Hs|r0 evs (i & owner & reason & v & Eq) _ _ _ _ Hd _|evs evs' r0 _ _ _ Hd Hr _|evs r0 S _ Hd _].
  - eapply kept_ok; [done|done|]. intros r0 Hr0. by eapply settled_harmless.
  - eapply kept_ok; [done|done|]. intros r1 Hr1. eapply settled_harmless; [exact Hr1|by rewrite Eq].
  - eapply kept_ok; [done|done|]. intros r1 _ Hok. congruence.
  - right. exists r0. split; [done|]. eapply step_ok; [exact S|]. intros r1. by apply journal_ok_current.
Qed.
End facts.
