(* ===== verification/IncidentAdmission.v ===== *)
(** What the mutation gate answers on the incidents the journal reaches: it
    never raises on them, and it admits an operation only under a permit that
    lists it and has not expired. *)
From S2P Require Import Prelude PyDict PyStr PyVal PyJson PyTime IncidentModels IncidentJournal IncidentGate IncidentRuns IncidentFacts.

Section admission.
Context `{IsoReader}.

Definition live (expires_at : string) (now : Z) : Prop :=
  exists t, _parse_timestamp expires_at "expires_at" = Ok t /\ now < t.

(** A permit of the incident, granted in [h] and not revoked since, covers the
    operation now. *)
Inductive authorised (h : list (call * bool)) (r : IncidentReceipt) (key : string) (now : Z) : Prop :=
| by_diagnostic p : in_state r = OPEN_UNATTRIBUTED -> diagnostic_from h (in_incident_id r) p ->
    key ∈ dg_allowed_operation_keys p -> live (dg_expires_at p) now -> authorised h r key now
| by_pack_install p : pack_from h (in_incident_id r) p ->
    key ∈ pi_allowed_operation_keys p -> live (pi_expires_at p) now -> authorised h r key now
| by_targeted_migration p : targeted_from h (in_incident_id r) p ->
    key = tm_allowed_operation_key p -> live (tm_expires_at p) now -> authorised h r key now
| by_containment p : in_state r = CONTAINED_PENDING_SOAK -> containment_from h (in_incident_id r) p ->
    key ∈ ct_allowed_operation_keys p -> live (ct_expires_at p) now -> authorised h r key now.

(** ** Values of the permits *)

Lemma lists_key_texts key d l : pget "allowed_operation_keys" d = str_list l -> lists_key key d = Ok (bool_decide (key ∈ l)).
Proof.
  intros E. unfold lists_key. rewrite E. destruct (py_set_texts key l) as (s & Hs & Hk). unfold str_list, py_tuple.
  destruct l as [|x l]; [by rewrite bool_decide_false by (intros Hin; inversion Hin)|]. simpl truthy. simpl py_iter.
  simpl. simpl in Hs. rewrite Hs. simpl. by rewrite <- Hk.
Qed.

Lemma live_until_text s now : exists b, live_until (PStr s) now = Ok b /\ (b = true -> live s now).
Proof.
  unfold live_until, try_except, live, py_str. destruct (truthy (PStr s)); [|by exists false].
  destruct (_parse_timestamp s "expires_at") as [t|e] eqn:Ep; simpl.
  - exists (now <? t). split; [done|]. rewrite Z.ltb_lt. eauto.
  - unfold _parse_timestamp in Ep. destruct (fromisoformat _) as [[t []]|]; [done|injection Ep as <-..]; by exists false.
Qed.

(** ** The decisions *)

Definition answers (h : list (call * bool)) (r : IncidentReceipt) (key : string) (now : Z)
    (a : res (option MutationDecision)) : Prop :=
  exists o, a = Ok o /\ forall d, o = Some d -> md_allowed d = true -> authorised h r key now.

Lemma diagnostic_answers h r operation key now : incident_ok h r -> in_state r = OPEN_UNATTRIBUTED ->
  answers h r key now (diagnostic_decision r operation key now).
Proof.
  intros [Hd _ _ _] Hs. unfold answers, diagnostic_decision. destruct Hd as [->|(_ & p & -> & G)]; [by exists None|].
  rewrite dict_or_self, ok_bind. rewrite bool_decide_false by done.
  rewrite (lists_key_texts _ _ (dg_allowed_operation_keys p)) by done. rewrite ok_bind.
  change (pget "expires_at" (diagnostic_to_dict p)) with (PStr (dg_expires_at p)).
  destruct (live_until_text (dg_expires_at p) now) as (b & -> & Hb). rewrite ok_bind.
  destruct (bool_decide (key ∈ _)) eqn:Hk; [|by exists None]. bool_prop.
  destruct b; eexists; (split; [reflexivity|]); intros d [= <-]; [|done]. intros _. by eapply by_diagnostic, Hb.
Qed.

Lemma pack_answers h r operation key now ps : Forall (pack_from h (in_incident_id r)) ps ->
  answers h r key now (pack_install_decision r operation key now (map (fun p => PDict (pack_install_to_dict p)) ps)).
Proof.
  induction 1 as [|p ps G _ IH]; [by exists None|]. unfold answers. cbn [map pack_install_decision]. unfold attr_get.
  rewrite ok_bind, (lists_key_texts _ _ (pi_allowed_operation_keys p)) by done. rewrite ok_bind.
  destruct (bool_decide (key ∈ _)) eqn:Hk; [|exact IH]. bool_prop. rewrite ok_bind.
  change (pget "expires_at" (pack_install_to_dict p)) with (PStr (pi_expires_at p)).
  destruct (live_until_text (pi_expires_at p) now) as (b & -> & Hb). rewrite !ok_bind.
  destruct b; eexists; (split; [reflexivity|]); intros d [= <-]; [|done]. intros _. by eapply by_pack_install, Hb.
Qed.

Lemma targeted_answers h r operation key now ps : Forall (targeted_from h (in_incident_id r)) ps ->
  answers h r key now (targeted_migration_decision r operation key now (map (fun p => PDict (targeted_to_dict p)) ps)).
Proof.
  induction 1 as [|p ps G _ IH]; [by exists None|]. unfold answers. cbn [map targeted_migration_decision]. unfold attr_get.
  rewrite ok_bind. change (pget "allowed_operation_key" _) with (PStr (tm_allowed_operation_key p)). rewrite text_or_empty.
  destruct (bool_decide (key = _)) eqn:Hk; [|exact IH]. bool_prop. rewrite ok_bind.
  change (pget "expires_at" (targeted_to_dict p)) with (PStr (tm_expires_at p)).
  destruct (live_until_text (tm_expires_at p) now) as (b & -> & Hb). rewrite !ok_bind.
  destruct b; eexists; (split; [reflexivity|]); intros d [= <-]; [|done]. intros _. by eapply by_targeted_migration, Hb.
Qed.

Lemma containment_answers h r operation key now : incident_ok h r -> in_state r = CONTAINED_PENDING_SOAK ->
  answers h r key now (d ← containment_decision r operation key now; Ok (Some d)).
Proof.
  intros [_ Hc _ _] Hs. unfold answers, containment_decision. unfold has_containment in Hc. rewrite Hs in Hc.
  destruct Hc as (p & -> & G). rewrite dict_or_self, ok_bind.
  rewrite (lists_key_texts _ _ (ct_allowed_operation_keys p)) by done. rewrite ok_bind.
  change (pget "expires_at" (containment_to_dict p)) with (PStr (ct_expires_at p)).
  destruct (live_until_text (ct_expires_at p) now) as (b & -> & Hb). rewrite !ok_bind.
  eexists. split; [reflexivity|]. intros d [= <-]. destruct b; [|done].
  destruct (bool_decide (key ∈ _)) eqn:Hk; [|done]. bool_prop. intros _. by eapply by_containment, Hb.
Qed.

Lemma incident_answers h r operation key now : incident_ok h r ->
  answers h r key now (d ← incident_decision r operation key now; Ok (Some d)).
Proof.
  intros I. unfold incident_decision.
  assert (answers h r key now (if bool_decide (in_state r = OPEN_UNATTRIBUTED)
            then diagnostic_decision r operation key now else Ok None)) as (o & -> & Ho).
  { destruct (bool_decide _) eqn:Hs; bool_prop; [by apply diagnostic_answers|by exists None]. }
  rewrite ok_bind. destruct o as [d|]; [by exists (Some d)|].
  destruct (io_packs _ _ I) as (ps & -> & Fp & _). rewrite <- map_rev.
  destruct (pack_answers h r operation key now (rev ps)) as (o & -> & Ho').
  { by apply Forall_rev. }
  rewrite ok_bind. destruct o as [d|]; [by exists (Some d)|].
  destruct (io_targeted _ _ I) as (ts & -> & Ft & _). rewrite <- map_rev.
  destruct (targeted_answers h r operation key now (rev ts)) as (o & -> & Ho'').
  { by apply Forall_rev. }
  rewrite ok_bind. destruct o as [d|]; [by exists (Some d)|].
  destruct (bool_decide _) eqn:Hs; bool_prop; [by apply containment_answers|].
  eexists. split; [reflexivity|]. by intros d [= <-].
Qed.

Lemma current_answers h w : journal_ok h (w_disk w) -> exists o w', current w = (o, w') /\ w_disk w' = w_disk w
  /\ match o with
     | Ok o => o = current_of (w_disk w)
     | Raise e => is_unavailable e = true /\ ~ clean w
     end.
Proof.
  intros Hj. unfold current, _lock. destruct (next_fault_eq w) as (f & w1 & Ef & Hd & Hc).
  rewrite (st_bind_eq _ _ _ _ _ Ef). destruct (bool_decide (f = Clean)) eqn:Hb; bool_prop;
    [|do 2 eexists; split; [reflexivity|]; split; [done|]; split; [done|]; intros Hw; by apply Hb, Hc].
  unfold _read_current_unlocked. destruct (next_fault_eq w1) as (f1 & w2 & Ef1 & Hd1 & Hc1).
  rewrite (st_bind_eq _ _ _ _ _ Ef1), (st_bind_eq get_disk _ w2 (w_disk w2) w2) by done. rewrite Hd1, Hd.
  destruct Hj as [En|(r & En & _)]; rewrite En.
  - do 2 eexists. split; [reflexivity|]. split; [congruence|]. unfold current_of. by rewrite En.
  - destruct (bool_decide (f1 = Clean)) eqn:Hb1; bool_prop.
    + rewrite (current_of_written _ _ En), from_dict_to_dict. do 2 eexists. split; [reflexivity|]. split; [congruence|done].
    + do 2 eexists. split; [reflexivity|]. split; [congruence|]. split; [done|]. intros Hw. apply Hb1, Hc1, Hc, Hw.
Qed.

(** [evaluate] on the disks that are reached. *)
Lemma evaluate_answers h w operation context evidence now : journal_ok h (w_disk w) ->
  exists d w', evaluate operation context evidence now w = (Ok d, w') /\ w_disk w' = w_disk w
  /\ (md_allowed d = true -> forall r, current_of (w_disk w) = Some r -> in_state r <> CLOSED ->
       authorised h r (operation_key (operation_name operation) context evidence) now)
  /\ (clean w -> (forall r, current_of (w_disk w) = Some r -> in_state r = CLOSED) -> md_allowed d = true).
Proof.
  intros Hj. unfold evaluate. destruct (current_answers h w Hj) as ([[r|]|e] & w' & -> & Hd & Ho).
  - destruct (bool_decide (in_state r = CLOSED)) eqn:Hs; bool_prop.
    + do 2 eexists. split; [reflexivity|]. split; [done|]. split; [|done]. intros _ r' Hr'. congruence.
    + pose proof (journal_ok_current _ _ r Hj (eq_sym Ho)) as I.
      destruct (incident_answers h r (operation_name operation) (operation_key (operation_name operation) context evidence) now I)
        as (o & E & Ha). destruct (incident_decision _ _ _ _) as [d|]; [|done]. injection E as <-.
      do 2 eexists. split; [reflexivity|]. split; [done|]. split.
      * intros Hal r' Hr' _. rewrite <- Ho in Hr'. injection Hr' as <-. by eapply Ha.
      * intros _ Hcl. by destruct Hs; apply Hcl.
  - do 2 eexists. split; [reflexivity|]. split; [done|]. split; [|done]. intros _ r' Hr'. congruence.
  - destruct Ho as [-> Hn]. do 2 eexists. split; [reflexivity|]. split; [done|]. split; [done|]. intros Hc. by destruct Hn.
Qed.
End admission.
