(* ===== verification/IncidentClosure.v ===== *)
(** The closing of an incident: what the journal holds of the containment that
    a close receipt is compared with. *)
From S2P Require Import Prelude PyDict PyStr PyVal PyJson PyTime IncidentModels IncidentJournal IncidentRuns IncidentFacts.

Section closure.
Context `{IsoReader}.

Definition contained_event (m : call) (p : IncidentContainmentReceipt) : dict pyval :=
  event_of "incident_contained" (utc_now (c_t1 m)) [("containment_receipt", PDict (containment_to_dict p))].

(** No call of [h] that returned recorded a failure or reopened the incident. *)
Definition unbroken (h : list (call * bool)) (i : string) : Prop :=
  forall c, (c, true) ∈ h -> ~ opens c /\ ~ reopens i c.
Definition renewed_to (h : list (call * bool)) (i : string) (p : IncidentContainmentReceipt) : Prop :=
  exists c ok auth, (c, ok) ∈ h /\ c_request c = RenewContainment i p auth.

(** The containment [p] of incident [i]: the call that contained it, with its
    event in the log, and what followed. *)
Definition contained_by (h : list (call * bool)) (es : list (dict pyval)) (i : string) (p : IncidentContainmentReceipt) : Prop :=
  exists h2 m ok h1 pm, h = h2 ++ (m, ok) :: h1 /\ c_request m = MarkContained i pm /\ contained_event m pm ∈ es
    /\ unbroken h2 i /\ (p = pm \/ renewed_to h2 i p).

Definition contained_since (h : list (call * bool)) (d : disk) : Prop := forall r,
  current_of d = Some r -> in_state r = CONTAINED_PENDING_SOAK ->
  exists p, in_containment_receipt r = PDict (containment_to_dict p)
            /\ contained_by h (events_at d (in_incident_id r)) (in_incident_id r) p.

Lemma logged_grows d j evs d' i e : logged d j evs d' -> e ∈ events_at d i -> e ∈ events_at d' i.
Proof.
  intros [E Hp] He. destruct (decide (_incident_path i = _incident_path j)) as [Ei|Hn].
  - unfold events_at in *. rewrite Ei in *. rewrite E. apply list.elem_of_app. by left.
  - unfold events_at in *. by rewrite Hp.
Qed.

Lemma contained_cons h es es' i p c ok : contained_by h es i p -> (forall e, e ∈ es -> e ∈ es') ->
  (ok = true -> ~ opens c /\ ~ reopens i c) -> contained_by ((c, ok) :: h) es' i p.
Proof.
  intros (h2 & m & mok & h1 & pm & -> & Hm & He & Hu & Hp) Hes Hc. exists ((c, ok) :: h2), m, mok, h1, pm.
  split; [done|]. split; [done|]. split; [auto|]. split.
  - intros c' [Hc'|Hc']%list.elem_of_cons; [injection Hc' as -> <-; auto|by apply Hu].
  - destruct Hp as [->|(c' & ok' & auth & Hin & Hr)]; [by left|]. right. exists c', ok', auth.
    split; [by apply list.elem_of_cons; right|done].
Qed.

Lemma contained_kept h c ok d j evs d' : contained_since h d -> logged d j evs d' -> dk_current d' = dk_current d ->
  (forall r, current_of d = Some r -> harmless r c ok) -> contained_since ((c, ok) :: h) d'.
Proof.
  intros I Hl Hd Hh r Hr Hs. assert (current_of d = Some r) as Hr' by (revert Hr; unfold current_of; by rewrite Hd).
  destruct (I r Hr' Hs) as (p & Hp & G). exists p. split; [done|]. eapply contained_cons; [exact G| |].
  - intros e. by eapply logged_grows.
  - intros Hok. destruct (Hh r Hr' Hok) as (H1 & _ & H3 & _). split; [done|]. intros Hre. specialize (H3 Hre). congruence.
Qed.

Lemma contained_step h c ok d evs d' r : journal_ok h d -> contained_since h d ->
  incident_step (events_at d (in_incident_id r)) (c_t0 c) (c_t1 c) (c_request c) (current_of d) evs r ->
  logged d (in_incident_id r) evs d' -> in_state r = CONTAINED_PENDING_SOAK ->
  exists p, in_containment_receipt r = PDict (containment_to_dict p)
            /\ contained_by ((c, ok) :: h) (events_at d' (in_incident_id r)) (in_incident_id r) p.
Proof.
  intros J I S Hl Hs.
  assert (Hev : forall e, e ∈ events_at d (in_incident_id r) -> e ∈ events_at d' (in_incident_id r))
    by (intros e; by eapply logged_grows).
  assert (Hnew : forall e, e ∈ evs -> e ∈ events_at d' (in_incident_id r))
    by (destruct Hl as [E _]; intros e He; rewrite E; apply list.elem_of_app; by right).
  clear Hl. remember (c_request c) as q eqn:Eq. symmetry in Eq. remember (current_of d) as cur eqn:Ec. symmetry in Ec.
  revert Hs Hev Hnew. destruct S; simpl; intros Hs Hev Hnew; try congruence;
    try (destruct (I _ Ec Hs) as (p0 & Hp & G); pose proof (journal_ok_current _ _ _ J Ec) as O; exists p0; split; [done|];
         eapply contained_cons; [exact G|exact Hev|intros _; split; other Eq]).
  - rewrite (settled_diagnostic h r0) in * by (congruence || by eapply journal_ok_current). done.
  - exists p. split; [done|]. exists [], c, ok, h, p. split; [done|]. split; [done|].
    split; [by apply Hnew, list_elem_of_singleton|]. split; [intros c' Hc'; by inversion Hc'|by left].
  - exists p. split; [done|]. destruct (I _ Ec Hs) as (p0 & _ & G).
    apply (contained_cons _ _ _ _ _ c ok) with (2 := Hev) in G as (h2 & m & mok & h1 & pm & E & Hm & He & Hu & _);
      [|intros _; split; other Eq].
    exists h2, m, mok, h1, pm. split_and!; try done. right. destruct h2 as [|x h2].
    + simpl in E. congruence.
    + injection E as <- _. exists c, ok, auth. split; [by apply list.elem_of_cons; left|done].
Qed.

(** ** What a close receipt was compared with *)

Lemma parse_field s a b : forall t, _parse_timestamp s a = Ok t -> _parse_timestamp s b = Ok t.
Proof. intros t. unfold _parse_timestamp. by destruct (fromisoformat _) as [[x []]|]. Qed.

Lemma policy_Ok ok msg u : policy ok msg = Ok u -> ok = true.
Proof. by destruct ok. Qed.

Lemma contained_events_in receipt reopen es : forall l, contained_events receipt reopen es = Ok l ->
  forall e, e ∈ es -> is_event "incident_contained" e = true -> py_eq (pget "containment_receipt" e) (PDict receipt) = true ->
  e ∈ l \/ exists t t', reopen = Some t /\ event_at e "incident_contained_at" = Ok t' /\ t' <= t.
Proof.
  induction es as [|x es IH]; simpl; intros l E e He Hn Hr; [by inversion He|].
  apply list.elem_of_cons in He. destruct (negb _ || _) eqn:Ex.
  - destruct He as [->|He]; [by rewrite Hn, Hr in Ex|]. by eapply IH.
  - bind_inv E. bind_inv E. injection E as <-. destruct He as [->|He].
    + destruct reopen as [t|]; [|injection Ha as <-; left; by left]. bind_inv Ha. injection Ha as <-.
      destruct (t <? a1) eqn:Ht; [left; by left|]. right. exists t, a1. split; [done|]. split; [done|]. lia.
    + destruct (IH _ Ha0 e He Hn Hr) as [Hl|Hl]; [left|by right]. destruct a; [by right|done].
Qed.

Lemma contained_events_after receipt t es : forall l, contained_events receipt (Some t) es = Ok l ->
  forall e, e ∈ l -> exists t', event_at e "incident_contained_at" = Ok t' /\ t < t'.
Proof.
  induction es as [|x es IH]; simpl; intros l E e He; [injection E as <-; by inversion He|].
  destruct (negb _ || _) eqn:Ex; [by eapply IH|]. bind_inv E. bind_inv E. injection E as <-. bind_inv Ha. injection Ha as <-.
  destruct (t <? a1) eqn:Ht; [|by eapply IH]. apply list.elem_of_cons in He as [->|He]; [|by eapply IH].
  exists a1. split; [done|]. lia.
Qed.

Lemma history_contained h d : history h d -> contained_since h d.
Proof.
  induction 1 as [|h d c r d' Hh IH E]; [done|]. pose proof (history_ok _ _ Hh) as J. apply exec_outcome in E as
    [-> Hs|r0 evs (i & owner & reason & v & Eq) _ _ _ Hl Hd _|evs evs' r0 _ _ Hl Hd Hr _|evs r0 S Hl Hd _].
  - eapply contained_kept; [done|apply (logged_refl d "")|done|]. intros r0 Hr0. by eapply settled_harmless.
  - eapply contained_kept; [done|done|done|]. intros r1 Hr1. eapply settled_harmless; [exact Hr1|by rewrite Eq].
  - eapply contained_kept; [done|done|done|]. intros r1 _ Hok. congruence.
  - intros r1 Hr1 Hs. rewrite (current_of_written _ _ Hd) in Hr1. injection Hr1 as <-. by eapply contained_step.
Qed.

Definition reads_back (t : Z) : Prop := _parse_timestamp (utc_now t) "at" = Ok t.

(** The one event a close counts is not older than the containment. *)
Lemma contained_before h es i p reopen ev t : contained_by h es i p ->
  contained_events (containment_to_dict p) reopen es = Ok [ev] -> event_at ev "incident_contained_at" = Ok t ->
  (forall m ok, (m, ok) ∈ h -> reads_back (c_t1 m)) ->
  exists h2 m ok h1 pm, h = h2 ++ (m, ok) :: h1 /\ c_request m = MarkContained i pm /\ unbroken h2 i
    /\ ((p = pm /\ c_t1 m <= t) \/ renewed_to h2 i p).
Proof.
  intros (h2 & m & ok & h1 & pm & -> & Hm & He & Hu & Hp) Hc Ht Hr. exists h2, m, ok, h1, pm.
  split; [done|]. split; [done|]. split; [done|]. destruct Hp as [->|Hp]; [left; split; [done|]|by right].
  assert (event_at (contained_event m pm) "incident_contained_at" = Ok (c_t1 m)) as Hat.
  { unfold event_at. change (pget "at" _) with (PStr (utc_now (c_t1 m))). rewrite text_or_empty. eapply parse_field.
    apply (Hr m ok), list.elem_of_app. right. by left. }
  eapply contained_events_in in He; [|exact Hc|done|apply (py_eq_refl (PDict (containment_to_dict pm)))].
  - destruct He as [He|(t1 & t2 & -> & Ht2 & Hle)].
    + apply list_elem_of_singleton in He as <-. rewrite Hat in Ht. injection Ht as <-. lia.
    + destruct (contained_events_after _ _ _ _ Hc ev) as (t3 & Ht3 & Hlt); [by left|].
      rewrite Hat in Ht2. rewrite Ht in Ht3. injection Ht2 as <-. injection Ht3 as <-. lia.
  - constructor; [apply (bool_decide_unpack (NoDup (dkeys (containment_to_dict pm)))); reflexivity|]. repeat constructor; apply list.Forall_fmap, list.Forall_true; constructor.
Qed.

(** The window of a soak, from a text of two times. *)
Definition soaked (window : string) (started ended : Z) : Prop := exists a b, split "/" window = [a; b]
  /\ _parse_timestamp a "soak_started_at" = Ok started /\ _parse_timestamp b "soak_ended_at" = Ok ended.

Lemma soak_boundaries_Ok window prefix now x : soak_boundaries window prefix now = Ok x ->
  soaked window x.1 x.2 /\ x.1 < x.2 <= now.
Proof.
  unfold soak_boundaries, soaked. destruct (split "/" window) as [|a [|b [|? ?]]]; try done. intros E.
  bind_inv E. bind_inv E. bind_inv E. bind_inv E. injection E as <-. apply required_Ok in Ha1, Ha2. simpl.
  split; [|lia]. exists a, b. split; [done|]. split; by eapply parse_field.
Qed.

Lemma tests_included l k s : py_set (map PStr l) = Ok s ->
  forallb (fun x => existsb (py_eq x) (map PStr k)) s = true -> l ⊆ k.
Proof.
  intros Es Hf x Hx. destruct (py_set_texts x l) as (s' & Es' & Hs'). rewrite Es in Es'. injection Es' as <-.
  rewrite bool_decide_true in Hs' by done. apply existsb_elem in Hs' as (y & Hy & ->%py_eq_text).
  rewrite forallb_forall in Hf. apply list_elem_of_In, Hf, existsb_elem in Hy as (z & Hz & ->%py_eq_text).
  apply list_elem_of_fmap in Hz as (u & [= ->] & Hu). done.
Qed.

(** What a close was compared with. *)
Lemma common_close r e es x p : _require_common_close_evidence r e es = Ok x ->
  in_containment_receipt r = PDict (containment_to_dict p) ->
  in_state r = CONTAINED_PENDING_SOAK /\ ce_fix_commit e = ct_fix_commit p /\ ce_restore_id e = ct_restore_id p
  /\ ce_owner e = ct_owner p /\ ct_test_evidence_paths p ⊆ ce_test_evidence_paths e
  /\ exists reopen ev started, contained_events (containment_to_dict p) reopen es = Ok [ev]
     /\ event_at ev "incident_contained_at" = Ok x.2
     /\ _parse_timestamp (default "" (head (split "/" (ce_soak_window e)))) "soak_started_at" = Ok started /\ x.2 <= started.
Proof.
  unfold _require_common_close_evidence. intros E Ep. rewrite Ep, dict_or_self, ok_bind in E. do 7 bind_inv E.
  do 2 bind_inv E. destruct a7 as [|ev [|? ?]]; try done. do 3 bind_inv E. injection E as <-.
  apply policy_Ok in Ha, Ha0, Ha1, Ha2, Ha5, Ha10. apply py_eq_text in Ha0, Ha1, Ha2. bool_prop.
  injection Ha0 as ->. injection Ha1 as ->. injection Ha2 as ->. split_and!; try done.
  - eapply tests_included; [|exact Ha5]. rewrite <- Ha4. f_equal.
    change (pget "test_evidence_paths" _) with (str_list (ct_test_evidence_paths p)) in Ha3.
    destruct (ct_test_evidence_paths p); injection Ha3 as <-; done.
  - exists (latest a6), ev, a8. split_and!; try done. by eapply parse_field.
Qed.

(** ** The closing calls *)

Definition closes (c : call) (i : string) (e : close_evidence) : Prop :=
  (exists p, c_request c = CloseIncident i p /\ e = of_close p)
  \/ (exists p, c_request c = CloseResidual i p /\ e = of_residual p).

Lemma validate_close_soak p now u : validate_close p now = Ok u ->
  exists started ended, soaked (cl_soak_window p) started ended /\ started < ended <= now.
Proof.
  unfold validate_close. intros E. do 6 bind_inv E.
  match goal with Hs : soak_boundaries _ _ _ = Ok ?x |- _ => apply soak_boundaries_Ok in Hs as [? ?]; by exists x.1, x.2 end.
Qed.
Lemma validate_residual_soak p now u : validate_residual p now = Ok u ->
  exists started ended, soaked (rc_soak_window p) started ended /\ started < ended <= now.
Proof.
  unfold validate_residual. intros E. do 8 bind_inv E.
  match goal with Hs : soak_boundaries _ _ _ = Ok ?x |- _ => apply soak_boundaries_Ok in Hs as [? ?]; by exists x.1, x.2 end.
Qed.

(** A call that closes the incident makes one of the two closing steps. *)
Lemma closing_step c i e es r evs r' : closes c i e ->
  incident_step es (c_t0 c) (c_t1 c) (c_request c) (Some r) evs r' ->
  in_incident_id r = i /\ in_state r' = CLOSED /\ in_incident_id r' = i
  /\ (exists x, _require_common_close_evidence r e es = Ok x)
  /\ exists started ended, soaked (ce_soak_window e) started ended /\ started < ended <= c_t0 c.
Proof.
  intros [(p & Eq & ->)|(p & Eq & ->)] S; rewrite Eq in S; inversion S; subst; (do 3 (split; [done|])).
  - split; [|by eapply validate_close_soak]. unfold validate_attributable_close in *.
    match goal with E : _ = Ok payload |- _ => bind_inv E; eauto end.
  - split; [|by eapply validate_residual_soak]. unfold validate_residual_close in *.
    match goal with E : _ = Ok payload |- _ => bind_inv E; eauto end.
Qed.

(** What was soaked of the containment [p]: it is held by a call of [h] that
    nothing that returned has broken since, and unless it was renewed, that
    call is not younger than the soak. *)
Definition soak_covered (h : list (call * bool)) (i : string) (p : IncidentContainmentReceipt) (started : Z) : Prop :=
  exists h2 m ok h1 pm, h = h2 ++ (m, ok) :: h1 /\ c_request m = MarkContained i pm /\ unbroken h2 i
    /\ ((p = pm /\ c_t1 m <= started) \/ renewed_to h2 i p).

Lemma closing_soaked h d c i e r evs r' : history h d -> (forall m ok, (m, ok) ∈ h -> reads_back (c_t1 m)) ->
  closes c i e -> current_of d = Some r ->
  incident_step (events_at d i) (c_t0 c) (c_t1 c) (c_request c) (Some r) evs r' ->
  exists p started ended, in_state r = CONTAINED_PENDING_SOAK /\ in_containment_receipt r = PDict (containment_to_dict p)
    /\ (ce_fix_commit e = ct_fix_commit p /\ ce_restore_id e = ct_restore_id p /\ ce_owner e = ct_owner p
         /\ ct_test_evidence_paths p ⊆ ce_test_evidence_paths e)
    /\ soaked (ce_soak_window e) started ended /\ started < ended <= c_t0 c /\ soak_covered h i p started.
Proof.
  intros Hh Hr Hc Ecur S. destruct (closing_step _ _ _ _ _ _ _ Hc S) as (<- & _ & _ & (x & Hx) & started & ended & Hw & Hlt).
  assert (in_state r = CONTAINED_PENDING_SOAK) as Hs.
  { unfold _require_common_close_evidence in Hx. bind_inv Hx. apply policy_Ok in Ha. by bool_prop. }
  destruct (history_contained _ _ Hh r Ecur Hs) as (p & Hp & G). exists p, started, ended.
  destruct (common_close _ _ _ _ _ Hx Hp) as (_ & H1 & H2 & H3 & H4 & reopen & ev & st & Hev & Hat & Hst & Hle).
  do 5 (split; [done|]). destruct (contained_before _ _ _ _ _ _ _ G Hev Hat Hr) as (h2 & m & ok & h1 & pm & -> & Hm & Hu & Hp').
  exists h2, m, ok, h1, pm. split_and!; try done. destruct Hp' as [[-> Hp']|Hp']; [left|by right]. split; [done|].
  destruct Hw as (a & b & Hab & Ha & _). rewrite Hab in Hst. simpl in Hst. rewrite Ha in Hst. injection Hst as <-. lia.
Qed.
End closure.
