(* ===== verification/IncidentSample.v ===== *)
(** A sample incident, from its failure to its closing, and what interrupted
    calls leave of it. *)
From S2P Require Import Prelude PyDict PyStr PyVal PyJson PyTime IncidentModels IncidentJournal IncidentGate IncidentRuns IncidentFacts IncidentClosure.

(** The half hours of a day, as [isoformat] writes them. *)
Definition half_hours (n : Z) : Z := n * 1800 * MICROS.
Definition sample_times : list (string * Z) :=
  Eval vm_compute in map (fun n => (isoformat (half_hours (Z.of_nat n)), half_hours (Z.of_nat n))) (seq 0 48).
#[export] Instance sample_reader : IsoReader := {
  fromisoformat s := match dget s sample_times with Some t => Some (t, true) | None => None end;
}.
Definition clock (n : Z) : string := utc_now (half_hours n).

Section sample.
Definition sample_id : string := "postgres:pm:crash-1".
Definition digest : string := Eval vm_compute in Sha256.hexdigest [].
Definition commit40 : string := Eval vm_compute in String.substring 0 40 digest.
Definition repair_key : string := "alembic_upgrade:core:rev1".

Definition sample_diagnostic : IncidentDiagnosticPermit :=
  mkDiagnostic "dp-1" commit40 [OBSERVER_START +:+ digest] ["tests/observer"] "capture-1" digest (clock 3) "runtime-db-incident-owner".
Definition sample_containment (id : string) (expires : Z) : IncidentContainmentReceipt :=
  mkContainment id "sigquit_from_host" commit40 [repair_key] ["tests/repair"] "restore-1" (clock expires) "owner".
Definition sample_close (window : string) : IncidentCloseReceipt :=
  mkClose "sigquit_from_host" digest commit40 "evidence/containment" digest ["tests/repair"; "tests/more"] digest
    "evidence/reproduction" digest window "restore-1" "evidence/restore" digest "evidence/budget" digest "owner"
    "evidence/owner" digest.
Definition sample_signal : dict pyval :=
  [("event_context", PStr "live_runtime"); ("signal_event_sha256", PStr digest); ("sender_comm", PStr "kill");
   ("sender_host_pid", PInt 7); ("target_host_pid", PStr "8"); ("target_postgres_pid", PInt 9);
   ("application_name", PStr "pgbench"); ("client_process_pid_available", PStr "true"); ("client_process_pid", PInt 10);
   ("signal_event_path", PStr "events/1")].

Definition at_ (n : Z) (q : request) (fs : list fault) : call := mkCall q (half_hours n) (half_hours n) fs.
Definition fail (n : Z) : call := at_ n (OpenIncident "postgres_sigquit" "pm" (Some "crash-1") []) [].
Definition diagnose : call := at_ 2 (RecordDiagnosticPermit sample_id sample_diagnostic) [].
Definition observe : call :=
  at_ 2 (RecordDiagnosticObservation sample_id "dp-1" "postgres_sigquit_signal_observed" sample_signal) [].
Definition contain (n : Z) (id : string) (fs : list fault) : call :=
  at_ n (MarkContained sample_id (sample_containment id 20)) fs.
Definition renew (n expires : Z) : call :=
  at_ n (RenewContainment sample_id (sample_containment "ct-2" expires) "authorized") [].
Definition close_at (n : Z) (window : string) : call := at_ n (CloseIncident sample_id (sample_close window)) [].

(** The calls one after the other, the first one first. *)
Fixpoint run (cs : list call) (s : list (call * bool) * disk) : list (call * bool) * disk :=
  match cs with
  | [] => s
  | c :: r => let '(x, d') := exec c s.2 in run r ((c, done x) :: s.1, d')
  end.
Definition start : list (call * bool) * disk := ([], mkDisk None ∅).
Lemma run_history cs s : history s.1 s.2 -> history (run cs s).1 (run cs s).2.
Proof.
  revert s. induction cs as [|c cs IH]; intros s Hs; [done|]. simpl. destruct (exec c s.2) as [x d'] eqn:E.
  apply IH. by eapply history_call.
Qed.

Lemma sample_clock (h : list (call * bool)) :
  forallb (fun m => match _parse_timestamp (utc_now (c_t1 m.1)) "at" with Ok t => Z.eqb t (c_t1 m.1) | Raise _ => false end) h = true ->
  forall m ok, (m, ok) ∈ h -> reads_back (c_t1 m).
Proof.
  intros Hh m ok Hin%list_elem_of_In. rewrite forallb_forall in Hh. specialize (Hh _ Hin). unfold reads_back. cbn [fst] in Hh.
  destruct (_parse_timestamp _ _) as [t|]; [|done]. apply Z.eqb_eq in Hh. by subst.
Qed.

Definition returned (cs : list call) : list bool := rev (map snd (run cs start).1).
Definition left (cs : list call) : disk := (run cs start).2.
Definition state_after (cs : list call) : option IncidentState := option_map in_state (current_of (left cs)).

Definition to_containment : list call := [fail 2; diagnose; observe; contain 4 "ct-1" []].
Definition soak_window : string := clock 5 +:+ "/" +:+ clock 7.

Example sample_closed : returned (to_containment ++ [close_at 8 soak_window]) = [true; true; true; true; true]
  /\ state_after (to_containment ++ [close_at 8 soak_window]) = Some CLOSED.
Proof. vm_compute. split; reflexivity. Qed.

Definition decided (cs : list call) (operation : string) (now : Z) : option (bool * string) :=
  match evaluate operation [] [] (half_hours now) (mkWorld (left cs) []) with
  | (Ok d, _) => Some (md_allowed d, md_reason d)
  | _ => None
  end.

Example sample_gate :
  decided to_containment repair_key 5 = Some (true, "containment_repair_permit")
  /\ decided to_containment repair_key 20 = Some (false, "containment_repair_permit_expired")
  /\ decided to_containment "alembic_upgrade:core:rev2" 5 = Some (false, "runtime_database_incident_contained")
  /\ decided (to_containment ++ [fail 5]) repair_key 5 = Some (false, "runtime_database_incident_open")
  /\ decided [] repair_key 5 = Some (true, "allowed").
Proof. vm_compute. auto. Qed.

(** A renewed containment is not closed: no event contained the incident with
    the renewed receipt. *)
Example renewed_not_closed : returned (to_containment ++ [renew 5 6; close_at 8 soak_window])
  = [true; true; true; true; true; false]
  /\ fst (exec (close_at 8 soak_window) (left (to_containment ++ [renew 5 6])))
     = Raise (IncidentTransitionError "incident_close_requires_exact_current_containment_event").
Proof. vm_compute. auto. Qed.

(** A containment whose receipt could not be replaced is repeated: the log has
    two events of the same containment, and the incident is not closed. *)
Example interrupted_not_closed :
  let cs := [fail 2; diagnose; observe; contain 4 "ct-1" [Clean; Clean; Clean; Lost]; contain 4 "ct-1" []] in
  returned cs = [true; true; true; false; true] /\ state_after cs = Some CONTAINED_PENDING_SOAK
  /\ fst (exec (close_at 8 soak_window) (left cs))
     = Raise (IncidentTransitionError "incident_close_requires_exact_current_containment_event").
Proof. vm_compute. auto. Qed.

(** An event that was cut short makes the log unreadable, and the next event
    joins its line. *)
Example torn_not_closed :
  let cs := [fail 2; diagnose; observe; contain 4 "ct-1" [Clean; Clean; Cut]; contain 4 "ct-1" []] in
  returned cs = [true; true; true; false; true] /\ state_after cs = Some CONTAINED_PENDING_SOAK
  /\ fst (exec (close_at 8 soak_window) (left cs)) = Raise (IncidentJournalUnavailable "events are unreadable").
Proof. vm_compute. auto. Qed.

(** A failure whose receipt could not be replaced is in the log, and the
    containment it should have revoked still admits operations. *)
Example lost_failure_admits :
  let failed := at_ 5 (OpenIncident "postgres_sigquit" "pm" None []) [Clean; Clean; Clean; Clean; Lost] in
  let cs := to_containment ++ [failed] in
  returned cs = [true; true; true; true; false]
  /\ existsb (is_event "containment_revoked_by_failure") (events_at (left cs) sample_id) = true
  /\ existsb (is_event "failure_observed") (events_at (left cs) sample_id) = true
  /\ decided cs repair_key 6 = Some (true, "containment_repair_permit").
Proof. vm_compute. auto. Qed.
End sample.
