(* ===== verification/IncidentTheorems.v ===== *)
(** What the runtime database incidents guarantee: whom the mutation gate
    admits, what a closed incident has been through, and what a call leaves on
    the disk when its accesses fail. *)
From S2P Require Import Prelude PyDict PyStr PyVal PyJson PyTime IncidentModels IncidentJournal IncidentGate IncidentRuns IncidentFacts IncidentAdmission IncidentClosure IncidentSample.

(** C7: after any calls of the journal, whatever became of their accesses to the
    files, the mutation gate answers and changes nothing. An operation it admits
    while an incident is not closed is listed by a permit of that incident that
    has not expired: a diagnostic permit while the incident is open, a
    containment while it is contained, or a pack install or migration permit; a
    call validated and granted it, and no call that returned has revoked it
    since. (A revocation whose call failed after its event was logged and before
    the receipt was replaced does not count: the gate reads the receipt only,
    and admits under the permit the log revokes,
    [IncidentSample.lost_failure_admits].) When the files can be read,
    everything is admitted while no incident is open. *)
Theorem gate_admits_only_live_permits `{IsoReader} h d fs operation context evidence now :
  history h d ->
  exists dec w', evaluate operation context evidence now (mkWorld d fs) = (Ok dec, w') /\ w_disk w' = d
  /\ (md_allowed dec = true -> forall r, current_of d = Some r -> in_state r <> CLOSED ->
      authorised h r (operation_key (operation_name operation) context evidence) now)
  /\ (Forall (fun f => f = Clean) fs -> (forall r, current_of d = Some r -> in_state r = CLOSED) -> md_allowed dec = true).
Proof. intros Hh. by apply (evaluate_answers h (mkWorld d fs)), history_ok. Qed.

Theorem gate_admits_only_live_permits_witness :
  history (run to_containment start).1 (left to_containment)
  /\ exists r, current_of (left to_containment) = Some r /\ authorised (run to_containment start).1 r repair_key (half_hours 5).
Proof.
  assert (history (run to_containment start).1 (left to_containment)) as Hh by apply run_history, history_start.
  split; [exact Hh|]. destruct (current_of (left to_containment)) as [r|] eqn:Er; [|by vm_compute in Er].
  exists r. split; [reflexivity|].
  destruct (gate_admits_only_live_permits _ _ [] repair_key [] [] (half_hours 5) Hh) as (dec & w' & E & _ & Ha & _).
  apply (f_equal fst) in E.
  assert (md_allowed dec = true) as Hd.
  { assert (forall x, fst (evaluate repair_key [] [] (half_hours 5) (mkWorld (left to_containment) [])) = Ok x -> md_allowed x = true) as Hx.
    { vm_compute. intros x Ex. injection Ex as <-. reflexivity. }
    exact (Hx _ E). }
  change repair_key with (operation_key (operation_name repair_key) [] []) at 1.
  apply (Ha Hd r Er). intros Hs. assert (option_map in_state (current_of (left to_containment)) = Some CONTAINED_PENDING_SOAK) as Hst
    by (vm_compute; reflexivity). rewrite Er in Hst. simpl in Hst. congruence.
Defined.

(** C8: a call that returns after closing an incident that was not closed leaves
    it closed, and the incident was contained: the close receipt names the fix,
    the restore and the owner of the containment and all its tests, its soak is
    over, and the incident was contained by a call since which no call that
    returned has recorded a failure or reopened the incident. Unless the
    containment was renewed after that call, the call happened before the soak
    began; after a renewal the two are not compared. (A call that failed after
    its event was logged does not count as one that recorded a failure, and the
    clock of every call reads back from its text, [reads_back].) *)
Theorem closed_after_an_unbroken_soak `{IsoReader} h d c d' i e r :
  history h d -> (forall m ok, (m, ok) ∈ h -> reads_back (c_t1 m)) ->
  closes c i e -> exec c d = (Ok tt, d') -> current_of d = Some r -> in_state r <> CLOSED ->
  (exists r', current_of d' = Some r' /\ in_incident_id r' = i /\ in_state r' = CLOSED)
  /\ exists p started ended, in_state r = CONTAINED_PENDING_SOAK
     /\ in_containment_receipt r = PDict (containment_to_dict p)
     /\ (ce_fix_commit e = ct_fix_commit p /\ ce_restore_id e = ct_restore_id p /\ ce_owner e = ct_owner p
         /\ ct_test_evidence_paths p ⊆ ce_test_evidence_paths e)
     /\ soaked (ce_soak_window e) started ended /\ started < ended <= c_t0 c /\ soak_covered h i p started.
Proof.
  intros Hh Hr Hc E Er Hn. apply exec_outcome in E as
    [-> Hs|r0 evs (i' & owner & reason & v & Eq) _ _ _ _ _ _|evs evs' r0 _ _ _ _ Ho _|evs r0 S Hl Hd _]; [| |done|].
  - specialize (Hs eq_refl). destruct Hc as [(p & Eq & _)|(p & Eq & _)]; rewrite Eq in Hs;
      destruct Hs as (r' & Hr' & Hs); congruence.
  - destruct Hc as [(p & Eq' & _)|(p & Eq' & _)]; congruence.
  - rewrite Er in S. destruct (closing_step _ _ _ _ _ _ _ Hc S) as (Hi & Hcl & Hi' & _). split.
    + exists r0. split; [by apply current_of_written|done].
    + rewrite Hi' in S. by eapply closing_soaked.
Qed.

Theorem closed_after_an_unbroken_soak_witness :
  let c := close_at 8 soak_window in
  history (run to_containment start).1 (left to_containment) /\ closes c sample_id (of_close (sample_close soak_window))
  /\ exists p started, soak_covered (run to_containment start).1 sample_id p started.
Proof.
  intros c. assert (history (run to_containment start).1 (left to_containment)) as Hh by apply run_history, history_start.
  assert (closes c sample_id (of_close (sample_close soak_window))) as Hc by (left; eexists; split; reflexivity).
  split; [exact Hh|]. split; [exact Hc|].
  assert (fst (exec c (left to_containment)) = Ok tt) as Hx by (vm_compute; reflexivity).
  destruct (exec c (left to_containment)) as [x d'] eqn:Ex. simpl in Hx. subst x.
  destruct (current_of (left to_containment)) as [r|] eqn:Er; [|by vm_compute in Er].
  destruct (closed_after_an_unbroken_soak _ _ c d' sample_id (of_close (sample_close soak_window)) r Hh) as (_ & p & started & _ & _ & _ & _ & _ & _ & Hsoak);
    [|exact Hc|exact Ex|exact Er| |by exists p, started].
  - apply sample_clock. vm_compute. reflexivity.
  - intros Hs. assert (option_map in_state (current_of (left to_containment)) = Some CONTAINED_PENDING_SOAK) as Hst
      by (vm_compute; reflexivity). rewrite Er in Hst. simpl in Hst. congruence.
Defined.

(** C18: a call changes the log of one incident only, by adding events, and it
    leaves the receipt of the current incident as it was or as the step of the
    incident makes it, never in between.  A receipt is replaced only after all
    the events of its step are in the log; the log alone grows when a call is
    cut off, which raises, or when the ownership of a diagnosis is handed back.
    When every access succeeds, a call that raises has changed nothing. *)
Theorem calls_are_atomic `{IsoReader} c d r d' :
  exec c d = (r, d') ->
  exists i evs, logged d i evs d'
  /\ ((dk_current d' = dk_current d
       /\ (evs = [] \/ done r = false \/ exists j owner reason v, c_request c = RecordOwnershipHandback j owner reason v))
      \/ (exists r0, in_incident_id r0 = i /\ dk_current d' = Some (incident_to_dict r0)
          /\ incident_step (events_at d i) (c_t0 c) (c_t1 c) (c_request c) (current_of d) evs r0))
  /\ (Forall (fun f => f = Clean) (c_faults c) -> done r = false -> d' = d).
Proof.
  intros E. apply exec_outcome in E as
    [-> Hs|r0 evs (i & owner & reason & v & Eq) Hc Hn _ Hl Hd Ho|evs evs' r0 _ _ Hl Hd Hr Hn|evs r0 S Hl Hd Ho].
  - exists "", []. split; [apply logged_refl|]. auto.
  - exists (in_incident_id r0), evs. split; [done|]. split; [left; split; [done|]; right; right; by exists i, owner, reason, v|]. intros Hcl Hr. rewrite (Ho Hcl) in Hr. done.
  - exists (in_incident_id r0), evs'. split; [done|]. split; [left; auto|]. intros Hcl _. by destruct Hn.
  - exists (in_incident_id r0), evs. split; [done|]. split; [right; eauto|]. intros Hcl Hr. rewrite (Ho Hcl) in Hr. done.
Qed.

Theorem calls_are_atomic_witness :
  let c := at_ 5 (OpenIncident "postgres_sigquit" "pm" None []) [Clean; Clean; Clean; Clean; Lost] in
  exists i evs, logged (left to_containment) i evs (exec c (left to_containment)).2.
Proof.
  intros c. destruct (exec c (left to_containment)) as [x d'] eqn:Ex.
  destruct (calls_are_atomic c _ x d' Ex) as (i & evs & Hl & _). by exists i, evs.
Defined.
