(* ===== verification/MigrationOrder.v ===== *)
(** The order of the capability migrations
    (migrations/dependency_resolver.py): the dependency graph, the search for
    cycles and the topological sort, with the state a resolver keeps from one
    call to the next. *)
From S2P Require Import Prelude PyDict PyStr PyVal PyJson.

(** What a migrations.yaml says of one capability (scanner.py). *)
Record MigrationMetadata : Type := mkMetadata {
  capability_code : string;
  db_type : string;
  revisions : list string;
  depends_on : list string;
}.

(** [self.graph] and [self.in_degree], dictionaries with a default value. *)
Record resolver : Type := mkResolver { graph : dict (list string); in_degree : dict Z }.
Definition new_resolver : resolver := mkResolver [] [].

(** [dep.split('@')[0]] *)
Definition dep_code (dep : string) : string := default "" (head (split "@" dep)).

(** * The graph *)

Definition add_node (s : resolver) (m : MigrationMetadata) : resolver :=
  mkResolver (dset (capability_code m) [] (graph s)) (dset (capability_code m) 0 (in_degree s)).
Definition add_dependency (codes : list string) (code : string) (s : resolver) (dep : string) : resolver :=
  let c := dep_code dep in
  if bool_decide (c ∈ codes)
  then mkResolver (dset c (default [] (dget c (graph s)) ++ [code]) (graph s))
                  (dset code (default 0 (dget code (in_degree s)) + 1) (in_degree s))
  else s.
Definition build_graph (metadata_list : list MigrationMetadata) (s : resolver) : resolver :=
  let codes := map capability_code metadata_list in
  foldl (fun s m => foldl (add_dependency codes (capability_code m)) s (depends_on m))
        (foldl add_node s metadata_list) metadata_list.

(** * Cycles *)

Inductive colour : Type := WHITE | GRAY | BLACK.
#[export] Instance colour_eq_dec : EqDecision colour.
Proof. solve_decision. Defined.
Record walk : Type := mkWalk { wk_graph : dict (list string); wk_colour : dict colour; wk_cycles : list (list string) }.

(** [path[path.index(node):]] *)
Fixpoint from_index (node : string) (path : list string) : res (list string) :=
  match path with
  | [] => Raise (ValueError (node +:+ " is not in list"))
  | x :: r => if bool_decide (x = node) then Ok path else from_index node r
  end.

Definition colour_of (w : walk) (node : string) : colour := default WHITE (dget node (wk_colour w)).
Definition paint (node : string) (c : colour) (w : walk) : walk :=
  mkWalk (wk_graph w) (dset node c (wk_colour w)) (wk_cycles w).
Definition touch (node : string) (w : walk) : walk :=
  mkWalk (if dmem node (wk_graph w) then wk_graph w else dset node [] (wk_graph w)) (wk_colour w) (wk_cycles w).
Definition neighbours (node : string) (w : walk) : list string := default [] (dget node (wk_graph w)).

(** [for x in l: f(x)] *)
Fixpoint for_nodes {S} (f : string -> S -> res S) (l : list string) (s : S) : res S :=
  match l with
  | [] => Ok s
  | x :: l => s ← f x s; for_nodes f l s
  end.

(** [limit] is what is left of the interpreter's recursion limit. *)
Fixpoint dfs (limit : nat) (path : list string) (node : string) (w : walk) : res walk :=
  match limit with
  | O => Raise (OtherError "RecursionError" "maximum recursion depth exceeded")
  | S limit =>
      match colour_of w node with
      | GRAY => cycle ← from_index node path; Ok (mkWalk (wk_graph w) (wk_colour w) (wk_cycles w ++ [cycle ++ [node]]))
      | BLACK => Ok w
      | WHITE =>
          let w := touch node (paint node GRAY w) in
          w ← for_nodes (dfs limit (path ++ [node])) (neighbours node w) w;
          Ok (paint node BLACK w)
      end
  end.

Definition dfs_root (limit : nat) (node : string) (w : walk) : res walk :=
  if bool_decide (colour_of w node = WHITE) then dfs limit [] node w else Ok w.
Definition detect_cycles (limit : nat) (s : resolver) : res (list (list string)) * resolver :=
  match for_nodes (dfs_root limit) (dkeys (graph s)) (mkWalk (graph s) [] []) with
  | Ok w => (Ok (wk_cycles w), mkResolver (wk_graph w) (in_degree s))
  | Raise e => (Raise e, s)
  end.

(** * Kahn's algorithm *)

Definition relax (s : dict Z * list string) (neighbor : string) : dict Z * list string :=
  let d := default 0 (dget neighbor s.1) - 1 in
  (dset neighbor d s.1, if d =? 0 then s.2 ++ [neighbor] else s.2).

(** The loop, for at most [n] nodes: the order and what is left of the queue. *)
Fixpoint kahn (n : nat) (g : dict (list string)) (degrees : dict Z) (queue result : list string)
    : dict Z * list string * list string :=
  match n, queue with
  | S n, node :: queue =>
      let '(degrees, queue) := foldl relax (degrees, queue) (default [] (dget node g)) in
      kahn n g degrees queue (result ++ [node])
  | _, _ => (degrees, queue, result)
  end.

(** [capability_map[cap]]: the last entry of that code. *)
Definition entry_of (metadata_list : list MigrationMetadata) (cap : string) : res MigrationMetadata :=
  match last (List.filter (fun m => bool_decide (capability_code m = cap)) metadata_list) with
  | Some m => Ok m
  | None => Raise (KeyError cap)
  end.

(** A node enters the queue once, so the loop ends within the number of keys. *)
Definition topological_sort (limit : nat) (metadata_list : list MigrationMetadata) (s : resolver)
    : res (list MigrationMetadata) * resolver :=
  match detect_cycles limit s with
  | (Raise e, s) => (Raise e, s)
  | (Ok (_ :: _), s) => (Raise (ValueError "Circular dependencies detected"), s)
  | (Ok [], s) =>
      let s := build_graph metadata_list s in
      let queue := dkeys (dfilter (fun _ degree => degree =? 0) (in_degree s)) in
      let '(degrees, _, result) := kahn (length (in_degree s)) (graph s) (in_degree s) queue [] in
      let s := mkResolver (graph s) degrees in
      if Nat.eqb (length result) (length metadata_list)
      then (seq_res (map (entry_of metadata_list) result), s)
      else (Raise (ValueError "Could not resolve all dependencies"), s)
  end.

(** ** A sample *)

Module OrderSample.
Definition cap (code : string) (deps : list string) : MigrationMetadata := mkMetadata code "postgres" [] deps.
Definition sorted_codes (l : list MigrationMetadata) (s : resolver) : res (list string) :=
  r ← (topological_sort 900 l s).1; Ok (map capability_code r).
Definition after (l : list MigrationMetadata) : resolver := (topological_sort 900 l new_resolver).2.

Example sorted_ex : sorted_codes [cap "c" ["b@1.0"; "a"]; cap "b" ["a@latest"; "x"]; cap "a" []] new_resolver = Ok ["a"; "b"; "c"].
Proof. vm_compute. reflexivity. Qed.
Example cyclic_ex : sorted_codes [cap "a" ["b"]; cap "b" ["a"]] new_resolver = Raise (ValueError "Could not resolve all dependencies").
Proof. vm_compute. reflexivity. Qed.
Example poisoned_ex : sorted_codes [cap "a" []; cap "b" ["a"]] (after [cap "a" ["b"]; cap "b" ["a"]])
  = Raise (ValueError "Circular dependencies detected").
Proof. vm_compute. reflexivity. Qed.
Example stale_ex : sorted_codes [cap "a" []] (after [cap "a" []; cap "b" ["a"]])
  = Raise (ValueError "Could not resolve all dependencies").
Proof. vm_compute. reflexivity. Qed.
End OrderSample.
