(* ===== verification/MigrationGraph.v ===== *)
(** The dependency graph the resolver builds, as a list of edges, what the
    topological sort makes of it, and the search for cycles: what it reports is
    a cycle of the graph, and when it reports none there is none. *)
From S2P Require Import Prelude PyDict PyStr PyVal PyJson MigrationOrder.

Definition codes (l : list MigrationMetadata) : list string := map capability_code l.

(** Every declared dependency of a listed capability on a listed one. *)
Definition edges_of (known : list string) (m : MigrationMetadata) : list (string * string) :=
  map (fun dep => (dep_code dep, capability_code m)) (List.filter (fun dep => bool_decide (dep_code dep ∈ known)) (depends_on m)).
Definition edges (l : list MigrationMetadata) : list (string * string) := concat (map (edges_of (codes l)) l).

(** [depends l a b]: in the list [l], [b] depends on [a]. *)
Definition depends (l : list MigrationMetadata) (a b : string) : Prop :=
  exists m dep, m ∈ l /\ capability_code m = b /\ dep ∈ depends_on m /\ dep_code dep = a /\ a ∈ codes l.
Definition acyclic {A} (R : A -> A -> Prop) : Prop := forall a, ~ tc R a a.

Lemma elem_of_edges l a b : (a, b) ∈ edges l <-> depends l a b.
Proof.
  unfold edges, depends, edges_of. rewrite list_elem_of_In, in_concat. split.
  - intros (x & Hx & Hab). apply list_elem_of_In, list_elem_of_fmap in Hx as (m & -> & Hm).
    apply list_elem_of_In, list_elem_of_fmap in Hab as (dep & [= -> ->] & Hdep). apply list_elem_of_In, filter_In in Hdep as [Hdep Hk].
    bool_prop. exists m, dep. split_and!; try done. by apply list_elem_of_In.
  - intros (m & dep & Hm & <- & Hdep & <- & Hk). eexists. split; [apply list_elem_of_In, list_elem_of_fmap_2, Hm|].
    apply list_elem_of_In, list_elem_of_fmap. exists dep. split; [done|]. apply list_elem_of_In, filter_In.
    split; [by apply list_elem_of_In|]. by apply bool_decide_eq_true.
Qed.

(** An order in which every source comes first has no cycle. *)
Lemma before_acyclic {A} (R : A -> A -> Prop) F : NoDup F ->
  (forall F1 x F2, F = F1 ++ x :: F2 -> forall y, R y x -> y ∈ F1) -> (forall x y, R y x -> y ∈ F) -> acyclic R.
Proof.
  intros Hd Ho Hall c Hc. assert (forall a b, tc R a b -> forall r1 r2, F = r1 ++ b :: r2 -> a ∈ r1) as Hbefore.
  { intros a b Hab. induction Hab as [a b Hab|a x b Hax Hxb IH]; intros r1 r2 Er; [by eapply Ho|].
    specialize (IH _ _ Er). apply list_elem_of_split in IH as (u & v & ->). rewrite <- app_assoc in Er.
    apply list.elem_of_app. left. by eapply Ho. }
  assert (exists b, R c b) as (b & Hb) by (inversion Hc; eauto). apply Hall in Hb as Hin.
  apply list_elem_of_split in Hin as (r1 & r2 & Er). specialize (Hbefore _ _ Hc _ _ Er). rewrite Er in Hd.
  apply list.NoDup_app in Hd as (_ & Hdis & _). apply (Hdis c Hbefore). by left.
Qed.
Lemma acyclic_flip {A} (R : A -> A -> Prop) : acyclic (flip R) -> acyclic R.
Proof.
  intros Ha c Hc. apply (Ha c). clear Ha. assert (forall a b, tc R a b -> tc (flip R) b a) as Hf; [|by apply Hf].
  intros a b Hab. induction Hab as [a b Hab|a x b Hax Hxb IH]; [by apply tc_once|]. by eapply tc_r.
Qed.

(** * Building *)

Definition targets (c : string) (E : list (string * string)) : list string := map snd (List.filter (fun e => bool_decide (e.1 = c)) E).
Definition incoming (c : string) (E : list (string * string)) : Z := Z.of_nat (length (List.filter (fun e => bool_decide (e.2 = c)) E)).

Definition add_edge (s : resolver) (e : string * string) : resolver :=
  mkResolver (dset e.1 (default [] (dget e.1 (graph s)) ++ [e.2]) (graph s))
             (dset e.2 (default 0 (dget e.2 (in_degree s)) + 1) (in_degree s)).

Lemma add_dependencies_edges known code deps s : foldl (add_dependency known code) s deps
  = foldl add_edge s (map (fun dep => (dep_code dep, code)) (List.filter (fun dep => bool_decide (dep_code dep ∈ known)) deps)).
Proof.
  revert s. induction deps as [|dep deps IH]; intros s; [done|]. simpl. rewrite IH. unfold add_dependency.
  by destruct (bool_decide (dep_code dep ∈ known)).
Qed.
Lemma build_graph_edges l s : build_graph l s = foldl add_edge (foldl add_node s l) (edges l).
Proof.
  unfold build_graph, edges. generalize (foldl add_node s l) as s0. fold (codes l). generalize (codes l) as known. intros known.
  induction l as [|m l IH]; intros s0; [done|]. simpl. rewrite foldl_app, IH. f_equal. apply add_dependencies_edges.
Qed.

Lemma foldl_add_edge_graph E s c ns : dget c (graph s) = Some ns ->
  dget c (graph (foldl add_edge s E)) = Some (ns ++ targets c E).
Proof.
  revert s ns. induction E as [|[a b] E IH]; intros s ns Hc; simpl; [by rewrite app_nil_r|]. unfold targets. simpl.
  destruct (bool_decide (a = c)) eqn:Eac; bool_prop.
  - subst. erewrite IH; [|simpl; rewrite dget_dset_eq, Hc; reflexivity]. simpl. by rewrite <- app_assoc.
  - apply IH. simpl. by rewrite dget_dset_ne by congruence.
Qed.
Lemma foldl_add_edge_degree E s c n : dget c (in_degree s) = Some n ->
  dget c (in_degree (foldl add_edge s E)) = Some (n + incoming c E).
Proof.
  revert s n. induction E as [|[a b] E IH]; intros s n Hc; simpl; [by rewrite Z.add_0_r|]. unfold incoming. simpl.
  destruct (bool_decide (b = c)) eqn:Ebc; bool_prop.
  - subst. erewrite IH; [|simpl; rewrite dget_dset_eq, Hc; reflexivity]. simpl. unfold incoming. f_equal. lia.
  - apply IH. simpl. by rewrite dget_dset_ne by congruence.
Qed.

Definition unlinked (s : resolver) (c : string) : Prop := dget c (graph s) = Some [] /\ dget c (in_degree s) = Some 0.
Lemma add_node_unlinked s m c : unlinked s c \/ c = capability_code m -> unlinked (add_node s m) c.
Proof. unfold unlinked. simpl. rewrite !dget_dset. destruct (bool_decide (c = _)) eqn:E; bool_prop; naive_solver. Qed.
Lemma foldl_add_node_get l s c : unlinked s c \/ c ∈ codes l -> unlinked (foldl add_node s l) c.
Proof.
  revert s. induction l as [|m l IH]; intros s Hc; simpl in *; [destruct Hc as [?|Hc]; [done|by inversion Hc]|].
  apply IH. rewrite list.elem_of_cons in Hc. destruct Hc as [?|[?|?]]; [left|left|by right]; apply add_node_unlinked; auto.
Qed.

(** The keys of both dictionaries. *)
Definition tidy (s : resolver) (K : list string) : Prop :=
  dict_wf (graph s) /\ dict_wf (in_degree s)
  /\ forall c, (c ∈ dkeys (graph s) <-> c ∈ K) /\ (c ∈ dkeys (in_degree s) <-> c ∈ K).

Lemma elem_of_dkeys_dset {V} k (v : V) d c : c ∈ dkeys (dset k v d) <-> c = k \/ c ∈ dkeys d.
Proof.
  rewrite dkeys_dset. unfold dmem. destruct (dget k d) eqn:E.
  - apply dget_Some_keys in E. naive_solver.
  - rewrite list.elem_of_app, list_elem_of_singleton. naive_solver.
Qed.

Lemma tidy_add_node s K m : tidy s K -> tidy (add_node s m) (capability_code m :: K).
Proof.
  intros (Hg & Hd & HK). split; [by apply dict_wf_dset|]. split; [by apply dict_wf_dset|]. intros c. simpl.
  rewrite !elem_of_dkeys_dset, list.elem_of_cons. destruct (HK c) as [-> ->]. done.
Qed.
Lemma tidy_add_edge s K e : tidy s K -> e.1 ∈ K -> e.2 ∈ K -> tidy (add_edge s e) K.
Proof.
  intros (Hg & Hd & HK) H1 H2. split; [by apply dict_wf_dset|]. split; [by apply dict_wf_dset|]. intros c. simpl.
  rewrite !elem_of_dkeys_dset. destruct (HK c) as [-> ->]. naive_solver.
Qed.
Lemma tidy_equiv s K K' : tidy s K -> (forall c, c ∈ K <-> c ∈ K') -> tidy s K'.
Proof. intros (Hg & Hd & HK) HKK. do 2 (split; [done|]). intros c. destruct (HK c). naive_solver. Qed.

Lemma edges_known l e : e ∈ edges l -> e.1 ∈ codes l /\ e.2 ∈ codes l.
Proof.
  destruct e as [a b]. rewrite elem_of_edges. intros (m & dep & Hm & <- & _ & _ & Hk). split; [done|]. simpl. by apply (list_elem_of_fmap_2 capability_code).
Qed.

(** What [build_graph] leaves in a resolver whose keys are all listed. *)
Record built (l : list MigrationMetadata) (s : resolver) : Prop := {
  bt_tidy : tidy s (codes l);
  bt_graph : forall c, c ∈ codes l -> dget c (graph s) = Some (targets c (edges l));
  bt_degree : forall c, c ∈ codes l -> dget c (in_degree s) = Some (incoming c (edges l));
}.

Lemma build_graph_built l s K : tidy s K -> (forall c, c ∈ K -> c ∈ codes l) -> built l (build_graph l s).
Proof.
  intros Ht HK. rewrite build_graph_edges. split.
  - assert (tidy (foldl add_node s l) (codes l)) as Ht'.
    { apply (tidy_equiv _ (rev (codes l) ++ K)); [|intros c; rewrite list.elem_of_app, list_elem_of_In, <- in_rev, <- list_elem_of_In; naive_solver].
      clear HK. revert s K Ht. induction l as [|m l IH]; intros s K Ht; [done|]. simpl. rewrite <- app_assoc.
      apply IH. by apply tidy_add_node. }
    generalize (fun e => edges_known l e). generalize (edges l). revert Ht'. generalize (foldl add_node s l).
    intros s0 Ht0 E. revert s0 Ht0. induction E as [|e E IH]; intros s0 Ht0 HE; [done|]. simpl. apply IH.
    + destruct (HE e) as [H1 H2]; [by left|]. by apply tidy_add_edge.
    + intros e' He'. apply HE. by right.
  - intros c Hc. apply (foldl_add_edge_graph _ _ _ []). apply foldl_add_node_get. by right.
  - intros c Hc. rewrite (foldl_add_edge_degree _ _ _ 0); [done|]. apply foldl_add_node_get. by right.
Qed.

(** * Kahn's loop *)

Definition occurrences (c : string) (l : list string) : Z := Z.of_nat (length (List.filter (fun x => bool_decide (x = c)) l)).

Lemma occurrences_cons c b l : occurrences c (b :: l) = (if bool_decide (b = c) then 1 else 0) + occurrences c l.
Proof. unfold occurrences. simpl. destruct (bool_decide (b = c)); simpl; lia. Qed.
Lemma occurrences_pos c l : c ∈ l -> 1 <= occurrences c l.
Proof.
  induction l as [|b l IH]; intros Hc; [by inversion Hc|]. rewrite occurrences_cons.
  assert (0 <= occurrences c l) by (unfold occurrences; lia).
  apply list.elem_of_cons in Hc as [<-|Hc]; [by rewrite bool_decide_true by done; lia|].
  specialize (IH Hc). destruct (bool_decide (b = c)); lia.
Qed.
Lemma occurrences_zero c l : c ∉ l -> occurrences c l = 0.
Proof.
  induction l as [|b l IH]; intros Hc; [done|]. rewrite occurrences_cons, IH, bool_decide_false; [done| |];
    intros ?; apply Hc; apply list.elem_of_cons; auto.
Qed.

(** Relaxing the targets of a node takes their number off each degree, and
    queues those that come to 0. *)
Lemma foldl_relax bs d q :
  (forall c, c ∈ bs -> exists n, dget c d = Some n /\ occurrences c bs <= n) -> exists d' qs, foldl relax (d, q) bs = (d', q ++ qs)
  /\ NoDup qs /\ (forall c n, dget c d = Some n -> dget c d' = Some (n - occurrences c bs))
  /\ (forall c, c ∈ qs <-> c ∈ bs /\ dget c d = Some (occurrences c bs)) /\ dkeys d' = dkeys d.
Proof.
  revert d q. induction bs as [|b bs IH]; intros d q Hb.
  - exists d, []. split_and!; [by rewrite app_nil_r|constructor| | |done].
    + intros c n ->. f_equal. unfold occurrences. simpl. lia.
    + intros c. split; [intros Hin; by inversion Hin|]. intros [Hin _]. by inversion Hin.
  - destruct (Hb b) as (n & Hn & Hle); [by left|]. rewrite occurrences_cons, bool_decide_true in Hle by done.
    assert (relax (d, q) b = (dset b (n - 1) d, if n - 1 =? 0 then q ++ [b] else q)) as Er by (unfold relax; simpl; by rewrite Hn).
    change (foldl relax (d, q) (b :: bs)) with (foldl relax (relax (d, q) b) bs). rewrite Er.
    destruct (IH (dset b (n - 1) d) (if n - 1 =? 0 then q ++ [b] else q)) as (d' & qs & -> & Hnd & Hd & Hq & Hk).
    { intros c Hc. rewrite dget_dset. destruct (bool_decide (c = b)) eqn:Ecb; bool_prop.
      - subst. exists (n - 1). split; [done|lia].
      - destruct (Hb c) as (m & Hm & Hle'); [by right|]. rewrite occurrences_cons, bool_decide_false in Hle' by congruence.
        exists m. split; [done|lia]. }
    assert (dkeys (dset b (n - 1) d) = dkeys d) as Ekeys by (rewrite dkeys_dset; unfold dmem; by rewrite Hn).
    assert (b ∈ bs -> 1 <= occurrences b bs) as Hpos by apply occurrences_pos.
    assert (b ∉ bs -> occurrences b bs = 0) as Hzero by apply occurrences_zero.
    exists d', ((if n - 1 =? 0 then [b] else []) ++ qs). split_and!; [by destruct (n - 1 =? 0); rewrite <- ?app_assoc| | | |congruence].
    + destruct (n - 1 =? 0) eqn:E0; [|done]. constructor; [|done]. rewrite Hq, dget_dset_eq. intros [Hin [= He]].
      specialize (Hpos Hin). lia.
    + intros c m Hm. rewrite occurrences_cons. destruct (decide (b = c)) as [<-|Hne].
      * rewrite bool_decide_true by done. rewrite Hn in Hm. injection Hm as <-.
        rewrite (Hd b (n - 1)) by apply dget_dset_eq. f_equal. lia.
      * rewrite bool_decide_false by done. rewrite (Hd c m) by (by rewrite dget_dset_ne by congruence). done.
    + intros c. rewrite list.elem_of_app, Hq, list.elem_of_cons, occurrences_cons. destruct (decide (b = c)) as [<-|Hne].
      * rewrite bool_decide_true, dget_dset_eq, Hn by done. destruct (decide (b ∈ bs)) as [Hin|Hni].
        -- specialize (Hpos Hin). destruct (n - 1 =? 0) eqn:E0; rewrite ?list_elem_of_singleton, ?list.elem_of_nil.
           ++ split; [intros _; split; [by left|f_equal; lia]|intros _; by left].
           ++ split; [intros [[]|[_ [= He]]]; split; [by left|f_equal; lia]|intros [_ [= He]]; right; split; [done|f_equal; lia]].
        -- specialize (Hzero Hni). destruct (n - 1 =? 0) eqn:E0; rewrite ?list_elem_of_singleton, ?list.elem_of_nil.
           ++ split; [intros _; split; [by left|f_equal; lia]|intros _; by left].
           ++ split; [intros [[]|[? _]]; done|intros [_ [= He]]; lia].
      * rewrite bool_decide_false, dget_dset_ne by congruence. rewrite Z.add_0_l.
        assert (c ∉ (if n - 1 =? 0 then [b] else [])) as Hno
          by (destruct (n - 1 =? 0); rewrite ?list_elem_of_singleton, ?list.elem_of_nil; congruence || tauto).
        naive_solver.
Qed.

Section kahn.
Variable (l : list MigrationMetadata).

(** The edges into [c] whose source is not in [r]. *)
Definition pending (r : list string) (c : string) : Z :=
  Z.of_nat (length (List.filter (fun e => bool_decide (e.2 = c) && bool_decide (e.1 ∉ r)) (edges l))).

Lemma pending_nil c : pending [] c = incoming c (edges l).
Proof.
  unfold pending, incoming. do 2 f_equal. apply filter_ext. intros e.
  rewrite (bool_decide_true (e.1 ∉ [])) by (intros Hin; by inversion Hin). by rewrite andb_true_r.
Qed.
Lemma pending_zero r c : pending r c = 0 <-> forall a, (a, c) ∈ edges l -> a ∈ r.
Proof.
  unfold pending. induction (edges l) as [|[x y] E IH]; simpl.
  - split; [intros _ a Hin; by inversion Hin|done].
  - destruct (bool_decide (y = c)) eqn:Ey, (bool_decide (x ∉ r)) eqn:Ex; bool_prop; simpl.
    + split; [lia|]. intros Ha. exfalso. apply Ex, Ha. subst. by left.
    + rewrite IH. split; [|intros Ha a Hin; apply Ha; by right]. intros Ha a [[= -> ->]|Hin]%list.elem_of_cons; [|by apply Ha].
      by apply dec_stable.
    + rewrite IH. split; [|intros Ha a Hin; apply Ha; by right]. by intros Ha a [[= -> ->]|Hin]%list.elem_of_cons; [|apply Ha].
    + rewrite IH. split; [|intros Ha a Hin; apply Ha; by right]. by intros Ha a [[= -> ->]|Hin]%list.elem_of_cons; [|apply Ha].
Qed.
Lemma pending_step r n c : n ∉ r -> pending (r ++ [n]) c = pending r c - occurrences c (targets n (edges l)).
Proof.
  intros Hn. unfold pending, occurrences, targets. induction (edges l) as [|[x y] E IH]; [done|]. simpl.
  destruct (decide (x = n)) as [->|Hx].
  - rewrite (bool_decide_false (n ∉ r ++ [n])) by (intros Hin; apply Hin, list.elem_of_app; right; by left).
    rewrite (bool_decide_true (n ∉ r)), (bool_decide_true (n = n)) by done. rewrite andb_false_r, andb_true_r. simpl.
    destruct (bool_decide (y = c)); simpl; lia.
  - rewrite (bool_decide_false (x = n)) by done.
    assert (bool_decide (x ∉ r ++ [n]) = bool_decide (x ∉ r)) as ->
      by (apply bool_decide_ext; rewrite list.elem_of_app, list_elem_of_singleton; naive_solver).
    destruct (bool_decide (y = c) && bool_decide (x ∉ r)); simpl; lia.
Qed.
Lemma targets_known n c : c ∈ targets n (edges l) -> c ∈ codes l /\ (n, c) ∈ edges l.
Proof.
  unfold targets. intros (e & -> & He)%list_elem_of_fmap. apply list_elem_of_In, filter_In in He as [He Hn]. bool_prop. subst.
  apply list_elem_of_In in He. split; [by apply edges_known|by destruct e].
Qed.
Lemma occurrences_pending r n c : n ∉ r -> occurrences c (targets n (edges l)) <= pending r c.
Proof. intros Hn. pose proof (pending_step r n c Hn). assert (0 <= pending (r ++ [n]) c) by (unfold pending; lia). lia. Qed.

Variable (g : dict (list string)).
Hypothesis g_targets : forall c, c ∈ codes l -> dget c g = Some (targets c (edges l)).

Record kahn_ok (d : dict Z) (q r : list string) : Prop := {
  kh_distinct : NoDup (r ++ q);
  kh_degree : forall c, c ∈ codes l -> dget c d = Some (pending r c);
  kh_queued : forall c, c ∈ r ++ q <-> c ∈ codes l /\ pending r c = 0;
  kh_order : forall r1 c r2, r = r1 ++ c :: r2 -> forall a, (a, c) ∈ edges l -> a ∈ r1;
  kh_keys : dict_wf d /\ forall c, c ∈ dkeys d <-> c ∈ codes l;
}.

Lemma kahn_step d n q r : kahn_ok d (n :: q) r ->
  exists d' q', foldl relax (d, q) (default [] (dget n g)) = (d', q') /\ kahn_ok d' q' (r ++ [n]).
Proof.
  intros [Hd Hdeg Hq Ho Hkeys].
  assert (n ∈ codes l /\ pending r n = 0) as [Hn Hn0] by (apply Hq, list.elem_of_app; right; by left).
  assert (n ∉ r) as Hnr by (apply list.NoDup_app in Hd as (_ & Hdis & _); intros Hin; apply (Hdis n Hin); by left).
  rewrite (g_targets n Hn). cbn [from_option id].
  destruct (foldl_relax (targets n (edges l)) d q) as (d' & qs & -> & Hnd & Hd' & Hqs & Ekeys).
  { intros c Hc. exists (pending r c). split; [apply Hdeg, (targets_known n), Hc|by apply occurrences_pending]. }
  exists d', (q ++ qs). split; [done|].
  assert (forall c, c ∈ qs -> c ∉ r ++ n :: q) as Hfresh.
  { intros c Hc Hin. apply Hqs in Hc as [Hc Hc']. apply Hq in Hin as [Hk H0]. rewrite Hdeg, H0 in Hc' by done.
    injection Hc' as He. pose proof (occurrences_pos _ _ Hc). lia. }
  split.
  - rewrite <- app_assoc. change ([n] ++ q ++ qs) with ((n :: q) ++ qs). rewrite app_assoc. apply list.NoDup_app.
    split; [done|]. split; [|done]. intros c Hc Hc'. by apply (Hfresh c).
  - intros c Hc. rewrite (Hd' c (pending r c)) by (by apply Hdeg). by rewrite pending_step.
  - intros c. rewrite <- app_assoc. change ([n] ++ q ++ qs) with ((n :: q) ++ qs).
    rewrite app_assoc, list.elem_of_app, Hq, Hqs, pending_step by done. split.
    + intros [[Hk H0]|[Hc Hc']].
      * split; [done|]. pose proof (occurrences_pending r n c Hnr). assert (0 <= occurrences c (targets n (edges l))) by (unfold occurrences; lia). lia.
      * destruct (targets_known _ _ Hc) as [Hk _]. split; [done|]. rewrite Hdeg in Hc' by done. injection Hc' as ->. lia.
    + intros [Hk H0]. destruct (decide (c ∈ targets n (edges l))) as [Hc|Hc].
      * right. split; [done|]. rewrite Hdeg by done. f_equal. lia.
      * left. split; [done|]. rewrite occurrences_zero in H0 by done. lia.
  - intros r1 c r2 Er a Ha. destruct (app_eq_app _ _ _ _ Er) as (k & [[-> Ek]|[-> Ek]]).
    + destruct k as [|x k]; simpl in Ek; injection Ek as Ek; subst.
      * rewrite app_nil_r in *. by apply (proj1 (pending_zero _ _) Hn0).
      * eapply Ho; [reflexivity|done].
    + destruct k as [|x k]; simpl in Ek; injection Ek as Ek; subst; [|by destruct k].
      rewrite app_nil_r. by apply (proj1 (pending_zero _ _) Hn0).
  - unfold dict_wf. by rewrite Ekeys.
Qed.

Lemma kahn_runs (K : list string) n d q r : NoDup K -> (forall c, c ∈ codes l -> c ∈ K) -> kahn_ok d q r ->
  (length K <= n + length r)%nat -> exists d' r', kahn n g d q r = (d', [], r') /\ kahn_ok d' [] r'.
Proof.
  intros HK Hsub. revert d q r. induction n as [|n IH]; intros d q r Hk Hn.
  - assert (q = []) as ->; [|by exists d, r].
    assert (length (r ++ q) <= length K)%nat as Hl.
    { apply submseteq_length, NoDup_submseteq; [apply (kh_distinct _ _ _ Hk)|]. intros c Hc. by apply Hsub, (kh_queued _ _ _ Hk). }
    rewrite length_app in Hl. destruct q; [done|simpl in *; lia].
  - destruct q as [|x q]; [by exists d, r|]. simpl. destruct (kahn_step _ _ _ _ Hk) as (d' & q' & -> & Hk').
    apply IH; [done|]. rewrite length_app. simpl. lia.
Qed.

Lemma kahn_acyclic d q r : kahn_ok d q r -> (forall c, c ∈ codes l -> c ∈ r) -> acyclic (depends l).
Proof.
  intros [Hd _ _ Ho _] Hall. apply (before_acyclic _ r).
  - by apply list.NoDup_app in Hd as (? & _ & _).
  - intros r1 c r2 Er a Ha. eapply Ho; [exact Er|]. by apply elem_of_edges.
  - intros c a (m & dep & _ & _ & _ & _ & Hk). by apply Hall.
Qed.
End kahn.

(** * Chains and cycles *)

Fixpoint chain {A} (R : A -> A -> Prop) (p : list A) : Prop :=
  match p with
  | x :: r => match r with y :: _ => R x y | [] => True end /\ chain R r
  | [] => True
  end.

Lemma chain_app {A} (R : A -> A -> Prop) p q : chain R (p ++ q) -> chain R p /\ chain R q.
Proof.
  induction p as [|x p IH]; [done|]. simpl. intros [Hx Hp]. destruct (IH Hp) as [Hp' Hq]. split; [|done].
  split; [|done]. by destruct p.
Qed.
Lemma chain_tc {A} (R : A -> A -> Prop) b : forall x y c, chain R (x :: b ++ y :: c) -> tc R x y.
Proof.
  induction b as [|z b IH]; intros x y c; simpl; intros [Hx Hc]; [by apply tc_once|]. eapply tc_l; [exact Hx|]. by eapply IH.
Qed.
Lemma chain_snoc {A} (R : A -> A -> Prop) p x y : chain R (p ++ [x]) -> R x y -> chain R (p ++ [x; y]).
Proof.
  induction p as [|z p IH]; simpl; [done|]. intros [Hz Hp] Hxy. split; [|by apply IH]. by destruct p.
Qed.

Lemma repeated_split `{EqDecision A} (l : list A) : ~ NoDup l -> exists a x b c, l = a ++ x :: b ++ x :: c.
Proof.
  induction l as [|x l IH]; intros Hn; [by destruct Hn; constructor|]. destruct (decide (x ∈ l)) as [Hx|Hx].
  - apply list_elem_of_split in Hx as (b & c & ->). by exists [], x, b, c.
  - destruct IH as (a & y & b & c & ->); [intros Hl; by apply Hn; constructor|]. by exists (x :: a), y, b, c.
Qed.

(** A finite set each of whose members has a predecessor in it holds a cycle. *)
Lemma source_or_cycle `{EqDecision A} (R : A -> A -> Prop) (X : list A) x : x ∈ X ->
  (forall x, x ∈ X -> exists y, y ∈ X /\ R y x) -> ~ acyclic R.
Proof.
  intros Hx Hpred Hac. assert (forall n, exists p, length p = S n /\ (forall y, y ∈ p -> y ∈ X) /\ chain R p) as Hpath.
  { induction n as [|n (p & Hl & Hp & Hc)].
    - exists [x]. split_and!; [done|by intros y ->%list_elem_of_singleton|done..].
    - destruct p as [|z p]; [done|]. destruct (Hpred z) as (y & Hy & Hyz); [apply Hp; by left|]. exists (y :: z :: p).
      split; [by rewrite <- Hl|]. split; [|done]. by intros u [->|Hu]%list.elem_of_cons; [|apply Hp]. }
  destruct (Hpath (length X)) as (p & Hl & Hp & Hc).
  destruct (repeated_split p) as (a & y & b & c & ->).
  { intros Hnd. assert (length p <= length X)%nat; [|lia]. by apply submseteq_length, NoDup_submseteq. }
  apply chain_app in Hc as [_ Hc]. by apply (Hac y), (chain_tc R b y y c).
Qed.

Section search.
Variable G : dict (list string).

Definition edge (x y : string) : Prop := exists ns, dget x G = Some ns /\ y ∈ ns.
Hypothesis G_closed : forall x y, edge x y -> y ∈ dkeys G.
Hypothesis G_wf : dict_wf G.

Definition is_cycle (c : list string) : Prop := chain edge c /\ exists x b, c = x :: b ++ [x].

(** [p] are the nodes on the path, [F] those that are finished, in order. *)
Record walk_ok (p F : list string) (w : walk) : Prop := {
  wo_graph : wk_graph w = G;
  wo_gray : forall x, colour_of w x = GRAY <-> x ∈ p;
  wo_black : forall x, colour_of w x = BLACK <-> x ∈ F;
  wo_distinct : NoDup (F ++ p);
  wo_known : forall x, x ∈ F ++ p -> x ∈ dkeys G;
  wo_chain : chain edge p;
  wo_cycles : Forall is_cycle (wk_cycles w);
  wo_order : wk_cycles w = [] -> forall F1 x F2, F = F1 ++ x :: F2 -> forall y, edge x y -> y ∈ F1;
}.

Definition extends (w w' : walk) : Prop := wk_cycles w `prefix_of` wk_cycles w'.

Lemma extends_refl w : extends w w.
Proof. by unfold extends. Qed.

Lemma colour_paint n c w x : colour_of (paint n c w) x = if bool_decide (x = n) then c else colour_of w x.
Proof. unfold colour_of, paint. simpl. rewrite dget_dset. by destruct (bool_decide (x = n)). Qed.

Lemma from_index_split n p : n ∈ p -> exists a b, p = a ++ n :: b /\ from_index n p = Ok (n :: b).
Proof.
  induction p as [|x p IH]; intros Hn; [by inversion Hn|]. simpl. destruct (bool_decide (x = n)) eqn:E; bool_prop.
  - subst. by exists [], p.
  - apply list.elem_of_cons in Hn as [->|Hn]; [done|]. destruct (IH Hn) as (a & b & -> & ->). by exists (x :: a), b.
Qed.

Lemma walk_enter p F w n : walk_ok p F w -> colour_of w n = WHITE -> n ∈ dkeys G -> chain edge (p ++ [n]) ->
  walk_ok (p ++ [n]) F (touch n (paint n GRAY w)).
Proof.
  intros [Hg Hgr Hbl Hd Hk _ Hcy Ho] Hw Hn Hc.
  assert (dmem n G = true) as Hm by (unfold dmem; destruct (dget n G) eqn:E; [done|by apply dget_None_keys in E]).
  assert (touch n (paint n GRAY w) = paint n GRAY w) as ->.
  { unfold touch, paint. simpl. by rewrite Hg, Hm. }
  assert (n ∉ p) as Hp by (rewrite <- Hgr; congruence). assert (n ∉ F) as HF by (rewrite <- Hbl; congruence).
  split; try done.
  - intros x. rewrite colour_paint, list.elem_of_app, list_elem_of_singleton. destruct (bool_decide (x = n)) eqn:E; bool_prop.
    + naive_solver.
    + rewrite Hgr. naive_solver.
  - intros x. rewrite colour_paint. destruct (bool_decide (x = n)) eqn:E; bool_prop; [subst; naive_solver|apply Hbl].
  - rewrite app_assoc. apply list.NoDup_app. split; [done|]. split; [|apply NoDup_singleton].
    intros x Hx ->%list_elem_of_singleton. apply list.elem_of_app in Hx. tauto.
  - intros x. rewrite app_assoc, list.elem_of_app, list_elem_of_singleton. intros [Hx| ->]; [by apply Hk|done].
Qed.

Lemma leave p F w n : walk_ok (p ++ [n]) F w -> (wk_cycles w = [] -> forall y, edge n y -> y ∈ F) ->
  walk_ok p (F ++ [n]) (paint n BLACK w).
Proof.
  intros [Hg Hgr Hbl Hd Hk Hc Hcy Ho] Hn.
  assert (n ∉ p) as Hp.
  { rewrite app_assoc in Hd. apply list.NoDup_app in Hd as (_ & Hdis & _). intros Hin. apply (Hdis n); [|by left].
    apply list.elem_of_app. by right. }
  split; try done.
  - intros x. rewrite colour_paint. destruct (bool_decide (x = n)) eqn:E; bool_prop; [subst; naive_solver|].
    rewrite Hgr, list.elem_of_app, list_elem_of_singleton. naive_solver.
  - intros x. rewrite colour_paint, list.elem_of_app, list_elem_of_singleton.
    destruct (bool_decide (x = n)) eqn:E; bool_prop; [naive_solver|]. rewrite Hbl. naive_solver.
  - rewrite <- app_assoc. by rewrite (Permutation_app_comm [n] p).
  - intros x Hx. apply Hk. rewrite !list.elem_of_app in *. naive_solver.
  - by apply chain_app in Hc as [Hc _].
  - intros H0 F1 x F2 EF y Hy. destruct (app_eq_app _ _ _ _ EF) as (k & [[-> Ek]|[-> Ek]]).
    + destruct k as [|z k]; simpl in Ek; injection Ek as Ek; subst; [rewrite app_nil_r in *; by apply Hn|].
      by eapply Ho.
    + destruct k as [|z k]; simpl in Ek; injection Ek as Ek; subst; [|by destruct k].
      rewrite app_nil_r. by apply Hn.
Qed.

Definition visits (n : string) (p F : list string) (w : walk) (r : res walk) : Prop :=
  exists w' F', r = Ok w' /\ walk_ok p F' w' /\ F ⊆ F' /\ extends w w' /\ (wk_cycles w' = [] -> n ∈ F').

Lemma for_nodes_visits f p l F w :
  (forall n F w, n ∈ l -> walk_ok p F w -> visits n p F w (f n w)) -> walk_ok p F w ->
  exists w' F', for_nodes f l w = Ok w' /\ walk_ok p F' w' /\ F ⊆ F' /\ extends w w' /\ (wk_cycles w' = [] -> l ⊆ F').
Proof.
  intros Hf. revert F w. induction l as [|n l IH]; intros F w Hw; simpl.
  - exists w, F. do 3 (split; [done|]). split; [apply extends_refl|]. intros _ x Hx. by inversion Hx.
  - destruct (Hf n F w) as (w1 & F1 & -> & Hw1 & HF1 & He1 & Hn); [by left|done|]. simpl.
    destruct (IH (fun n F w Hn => Hf n F w (list_elem_of_further _ _ _ Hn)) F1 w1 Hw1) as (w2 & F2 & -> & Hw2 & HF2 & He2 & Hl).
    exists w2, F2. split_and!; try done; [set_solver|unfold extends in *; by etrans|].
    intros H0 x [->|Hx]%list.elem_of_cons; [|by apply Hl]. apply HF2, Hn. apply prefix_nil_inv. by rewrite <- H0.
Qed.

Lemma dfs_visits limit : forall p n F w, walk_ok p F w -> chain edge (p ++ [n]) -> n ∈ dkeys G ->
  (length (dkeys G) < limit + length p)%nat -> visits n p F w (dfs limit p n w).
Proof.
  induction limit as [|limit IH]; intros p n F w Hw Hc Hn Hl.
  - exfalso. assert (length p <= length (dkeys G))%nat; [|lia]. apply submseteq_length, NoDup_submseteq.
    + apply wo_distinct in Hw. by apply list.NoDup_app in Hw as (_ & _ & ?).
    + intros x Hx. apply (wo_known _ _ _ Hw), list.elem_of_app. by right.
  - simpl. destruct (colour_of w n) eqn:Ec.
    + pose proof (walk_enter _ _ _ _ Hw Ec Hn Hc) as Hw1.
      destruct (for_nodes_visits (dfs limit (p ++ [n])) (p ++ [n]) (neighbours n (touch n (paint n GRAY w))) F (touch n (paint n GRAY w)))
        as (w2 & F2 & -> & Hw2 & HF2 & He2 & Hns); [|done|].
      * intros x F' w' Hx Hw'. unfold neighbours in Hx. rewrite (wo_graph _ _ _ Hw1) in Hx.
        assert (edge n x) as Hnx by (destruct (dget n G) as [ns|] eqn:E; [by exists ns|by inversion Hx]).
        apply IH; [done| |by eapply G_closed|rewrite length_app; simpl; lia].
        rewrite <- app_assoc. by apply chain_snoc.
      * simpl. exists (paint n BLACK w2), (F2 ++ [n]). split; [done|]. split; [|split; [set_solver|split; [done|set_solver]]].
        apply leave; [done|]. intros H0 y (ns & Hns' & Hy). apply (Hns H0). unfold neighbours.
        by rewrite (wo_graph _ _ _ Hw1), Hns'.
    + apply (wo_gray _ _ _ Hw) in Ec. destruct (from_index_split n p Ec) as (a & b & -> & ->). simpl.
      eexists _, F. split; [done|]. split; [|split; [done|split; [by eexists|by destruct (wk_cycles w)]]].
      destruct Hw as [Hg Hgr Hbl Hd Hk Hch Hcy Ho]. split; try done.
      * simpl. apply list.Forall_app. split; [done|]. apply list.Forall_singleton. split; [|by exists n, b].
        rewrite <- app_assoc in Hc. by apply chain_app in Hc as [_ Hc].
      * simpl. by destruct (wk_cycles w).
    + exists w, F. do 3 (split; [done|]). split; [apply extends_refl|]. intros _. by apply (wo_black _ _ _ Hw).
Qed.

Lemma dfs_root_visits limit n F w : walk_ok [] F w -> n ∈ dkeys G -> (length (dkeys G) < limit)%nat ->
  visits n [] F w (dfs_root limit n w).
Proof.
  intros Hw Hn Hl. unfold dfs_root. destruct (bool_decide (colour_of w n = WHITE)) eqn:Ec; bool_prop.
  - apply dfs_visits; [done|done|done|simpl; lia].
  - exists w, F. do 3 (split; [done|]). split; [apply extends_refl|]. intros _. apply (wo_black _ _ _ Hw).
    destruct (colour_of w n) eqn:E; [done| |done]. apply (wo_gray _ _ _ Hw) in E. by inversion E.
Qed.

(** The search always ends; it reports cycles, and some exactly if there is one. *)
Lemma search_complete limit : (length (dkeys G) < limit)%nat ->
  exists w, for_nodes (dfs_root limit) (dkeys G) (mkWalk G [] []) = Ok w /\ wk_graph w = G
  /\ Forall is_cycle (wk_cycles w) /\ (wk_cycles w = [] <-> acyclic edge).
Proof.
  intros Hl. destruct (for_nodes_visits (dfs_root limit) [] (dkeys G) [] (mkWalk G [] [])) as (w & F & E & Hw & _ & _ & HF).
  - intros n F w Hn Hw. by apply dfs_root_visits.
  - split; simpl; [done| | |constructor|by intros x Hx; inversion Hx|done|constructor|by intros _ []].
    + intros x. split; [done|intros Hx; by inversion Hx].
    + intros x. split; [done|intros Hx; by inversion Hx].
  - exists w. split; [done|]. split; [apply (wo_graph _ _ _ Hw)|]. split; [apply (wo_cycles _ _ _ Hw)|]. split.
    + intros H0. apply acyclic_flip, (before_acyclic _ F).
      * pose proof (wo_distinct _ _ _ Hw) as Hd. by rewrite app_nil_r in Hd.
      * intros F1 x F2 EF y. by eapply (wo_order _ _ _ Hw H0).
      * intros x y Hyx. apply (HF H0). by eapply G_closed.
    + intros Hac. pose proof (wo_cycles _ _ _ Hw) as Hcy. destruct (wk_cycles w) as [|c cs]; [done|].
      apply list.Forall_cons in Hcy as [[Hc (x & b & ->)] _]. destruct (Hac x). by apply (chain_tc edge b x x []).
Qed.
End search.

Lemma detect_cycles_spec limit s : dict_wf (graph s) -> (forall x y, edge (graph s) x y -> y ∈ dkeys (graph s)) ->
  (length (dkeys (graph s)) < limit)%nat -> exists cs, detect_cycles limit s = (Ok cs, s)
  /\ Forall (is_cycle (graph s)) cs /\ (cs = [] <-> acyclic (edge (graph s))).
Proof.
  intros Hwf Hcl Hl. destruct (search_complete (graph s) Hcl Hwf limit Hl) as (w & E & Hg & Hc & Ha). exists (wk_cycles w).
  split; [|done]. unfold detect_cycles. rewrite E, Hg. by destruct s.
Qed.
