(* ===== verification/MigrationOrderTheorems.v ===== *)
(** What the order of the capability migrations guarantees, for a fresh
    resolver and for one that is used again. *)
From S2P Require Import Prelude PyDict PyStr PyVal PyJson MigrationOrder MigrationGraph.

(** A resolver that is fresh, or whose last plan was sound, and that knows no
    capability but those of [l]. *)
Definition resolver_for (l : list MigrationMetadata) (s : resolver) : Prop :=
  exists K, tidy s K /\ K ⊆ codes l /\ (forall x y, edge (graph s) x y -> y ∈ dkeys (graph s)) /\ acyclic (edge (graph s)).

(** All the capabilities, each after those it depends on. *)
Definition order_of (l order : list MigrationMetadata) : Prop :=
  order ≡ₚ l /\ forall o1 m o2 dep, order = o1 ++ m :: o2 -> dep ∈ depends_on m ->
                 dep_code dep ∈ codes l -> dep_code dep ∈ codes o1.

Lemma new_resolver_for l : resolver_for l new_resolver.
Proof.
  exists []. split; [split_and!; [apply dict_wf_nil..|done]|]. split; [intros x Hx; by inversion Hx|].
  assert (forall x y, ~ edge [] x y) as Hno by (intros x y (ns & E & _); done). split; [intros x y He; by destruct (Hno x y)|].
  intros x Hx. inversion Hx; by eapply Hno.
Qed.
Lemma resolver_for_more l l' s : resolver_for l s -> codes l ⊆ codes l' -> resolver_for l' s.
Proof. intros (K & Ht & HK & Hc) Hl. exists K. split_and!; try done; [by etrans|apply Hc|apply Hc]. Qed.

Lemma edge_built l s a b : built l s -> edge (graph s) a b <-> depends l a b.
Proof.
  intros [(_ & _ & Ht) Hg _]. rewrite <- elem_of_edges. unfold edge. split.
  - intros (ns & E & Hb). assert (a ∈ codes l) as Ha by (apply (proj1 (proj1 (Ht a))); eapply dget_Some_keys; exact E).
    rewrite Hg in E by done. injection E as <-. apply targets_known in Hb as [_ Hb]. exact Hb.
  - intros Hab. assert (a ∈ codes l) as Ha by apply (edges_known _ _ Hab). exists (targets a (edges l)). split; [by apply Hg|].
    unfold targets. apply list_elem_of_fmap. exists (a, b). split; [done|]. apply list_elem_of_In, filter_In.
    split; [by apply list_elem_of_In|]. by apply bool_decide_eq_true.
Qed.

Lemma built_closed l s x y : built l s -> edge (graph s) x y -> y ∈ dkeys (graph s).
Proof.
  intros Hb He. apply (edge_built l s x y Hb) in He as (m & dep & Hm & <- & _). destruct Hb as [(_ & _ & Ht) _ _].
  apply (proj1 (Ht _)). by apply (list_elem_of_fmap_2 capability_code).
Qed.
Lemma acyclic_iff {A} (R Q : A -> A -> Prop) : (forall a b, R a b <-> Q a b) -> acyclic R -> acyclic Q.
Proof.
  intros HRQ Ha c Hc. apply (Ha c). clear Ha. assert (forall a b, tc Q a b -> tc R a b) as Hqr; [|by apply Hqr].
  intros a b Hab. induction Hab as [a b Hab|a x b Hax Hxb IH]; [apply tc_once|eapply tc_l; [|exact IH]]; by apply HRQ.
Qed.

Lemma keys_bounded l s K : tidy s K -> K ⊆ codes l -> (length (dkeys (graph s)) <= length (codes l))%nat.
Proof.
  intros (Hg & _ & Ht) HK. apply submseteq_length, NoDup_submseteq; [done|]. intros c Hc. by apply HK, (proj1 (Ht c)).
Qed.

Lemma entry_of_known l c : c ∈ codes l -> exists m, entry_of l c = Ok m /\ m ∈ l /\ capability_code m = c.
Proof.
  intros (m & -> & Hm)%list_elem_of_fmap. unfold entry_of.
  set (f := fun m' => bool_decide (capability_code m' = capability_code m)).
  assert (m ∈ List.filter f l) as Hin by (apply list_elem_of_In, filter_In; split; [by apply list_elem_of_In|by apply bool_decide_eq_true]).
  destruct (last (List.filter f l)) as [m'|] eqn:El; [|by apply last_None in El as El'; rewrite El' in Hin; inversion Hin].
  exists m'. split; [done|]. apply last_Some_elem_of, list_elem_of_In, filter_In in El as [Hl Hf]. unfold f in Hf. bool_prop.
  split; [by apply list_elem_of_In|done].
Qed.
Lemma entries_known l r : r ⊆ codes l -> exists order, seq_res (map (entry_of l) r) = Ok order /\ order ⊆ l /\ codes order = r.
Proof.
  induction r as [|c r IH]; intros Hr; [exists []; split_and!; try done; set_solver|].
  destruct (entry_of_known l c) as (m & Em & Hm & <-); [apply Hr; by left|]. destruct IH as (order & Eo & Ho & <-); [set_solver|].
  exists (m :: order). simpl. rewrite Em. simpl. rewrite Eo. split_and!; [done|set_solver|done].
Qed.

Lemma dkeys_dget {V} c (d : dict V) : c ∈ dkeys d -> exists v, dget c d = Some v.
Proof. intros Hc. destruct (dget c d) eqn:E; [eauto|]. by apply dget_None_keys in E. Qed.

(** Kahn's loop on what [build_graph] leaves. *)
Lemma kahn_built l s : built l s -> exists d r,
  kahn (length (in_degree s)) (graph s) (in_degree s) (dkeys (dfilter (fun _ degree => degree =? 0) (in_degree s))) [] = (d, [], r)
  /\ kahn_ok l d [] r.
Proof.
  intros [(Hwg & Hwd & Ht) Hg Hd]. apply (kahn_runs l (graph s) Hg (dkeys (in_degree s))); [done|intros c Hc; by apply (proj2 (Ht c))| |].
  - assert (forall c, c ∈ dkeys (dfilter (fun _ degree => degree =? 0) (in_degree s)) <-> dget c (in_degree s) = Some 0) as Hq.
    { intros c. split.
      - intros Hc. apply dkeys_dget in Hc as (v & Hv). rewrite dget_dfilter in Hv by done.
        destruct (dget c (in_degree s)) as [n|]; [|done]. destruct (n =? 0) eqn:E; [|done]. f_equal. lia.
      - intros Hc. eapply dget_Some_keys. rewrite dget_dfilter, Hc by done. reflexivity. }
    split; simpl.
    + by apply dict_wf_dfilter.
    + intros c Hc. rewrite Hd by done. by rewrite pending_nil.
    + intros c. rewrite Hq. split.
      * intros Hc. assert (c ∈ codes l) as Hk by (apply (proj2 (Ht c)); eapply dget_Some_keys; exact Hc). split; [done|].
        rewrite Hd in Hc by done. injection Hc as Hc. by rewrite pending_nil.
      * intros [Hk H0]. by rewrite Hd, <- pending_nil, H0 by done.
    + by intros [].
    + split; [done|]. intros c. apply (proj2 (Ht c)).
  - simpl. rewrite Nat.add_0_r. unfold dkeys. by rewrite length_map.
Qed.

Lemma pending_pos l r c : pending l r c <> 0 -> exists a, (a, c) ∈ edges l /\ a ∉ r.
Proof.
  unfold pending. induction (edges l) as [|[x y] E IH]; intros Hp; [done|]. simpl in Hp.
  destruct (bool_decide (y = c)) eqn:Ey, (bool_decide (x ∉ r)) eqn:Ex; bool_prop; simpl in Hp;
    [subst; exists x; split; [by left|done]|..]; destruct (IH Hp) as (a & Ha & Hr); exists a; split; [by right|done|by right|done|by right|done].
Qed.
(** With nothing left in the queue, what is not sorted lies on or behind a cycle. *)
Lemma kahn_complete l d r : kahn_ok l d [] r -> acyclic (depends l) -> codes l ⊆ r.
Proof.
  intros [_ _ Hq _ _] Ha c Hc. rewrite app_nil_r in Hq. destruct (decide (c ∈ r)) as [|Hn]; [done|].
  exfalso. assert (forall x, x ∈ List.filter (fun x => bool_decide (x ∉ r)) (codes l) <-> x ∈ codes l /\ x ∉ r) as HX.
  { intros x. by rewrite list_elem_of_In, filter_In, <- list_elem_of_In, bool_decide_eq_true. }
  apply (source_or_cycle (depends l) (List.filter (fun x => bool_decide (x ∉ r)) (codes l)) c); [by apply HX| |done].
  intros x [Hx Hxr]%HX. destruct (pending_pos l r x) as (a & Hax & Har); [intros H0; by apply Hxr, Hq|].
  exists a. split; [|by apply elem_of_edges]. apply HX. split; [|done]. apply (edges_known l (a, x) Hax).
Qed.

Lemma kahn_sorted l d r : kahn_ok l d [] r -> NoDup r /\ r ⊆ codes l /\ (length r = length l <-> NoDup (codes l) /\ acyclic (depends l)).
Proof.
  intros Hk. pose proof (kh_distinct _ _ _ _ Hk) as Hd. pose proof (kh_queued _ _ _ _ Hk) as Hq. rewrite app_nil_r in Hd, Hq.
  assert (r ⊆ codes l) as Hr by (intros c Hc; by apply Hq). do 2 (split; [done|]).
  assert (r ⊆+ codes l) as Hsub by (by apply NoDup_submseteq). split.
  - intros Hlen. assert (r ≡ₚ codes l) as Hp by (apply submseteq_length_Permutation; [done|]; unfold codes; rewrite length_map; lia).
    split; [by rewrite <- Hp|]. apply (kahn_acyclic _ _ _ _ Hk). intros c. by rewrite Hp.
  - intros [Hnd Ha]. apply submseteq_length in Hsub. pose proof (kahn_complete l d r Hk Ha) as Hc.
    apply NoDup_submseteq, submseteq_length in Hc; [|done]. unfold codes in *. rewrite length_map in *. lia.
Qed.

Lemma sorted_order l d r order : kahn_ok l d [] r -> NoDup (codes l) -> length r = length l -> order ⊆ l -> codes order = r -> order_of l order.
Proof.
  intros Hk Hnd Hlen Ho Er. split.
  - assert (NoDup order) by (apply (NoDup_fmap_1 capability_code); change (NoDup (codes order)); rewrite Er; apply (kahn_sorted l d r Hk)).
    apply submseteq_length_Permutation; [by apply NoDup_submseteq|]. subst r. unfold codes in Hlen. rewrite length_map in Hlen. lia.
  - intros o1 m o2 dep -> Hdep Hknown. unfold codes in Er. rewrite map_app in Er. simpl in Er.
    apply (kh_order _ _ _ _ Hk _ _ _ (eq_sym Er)), elem_of_edges. exists m, dep. split_and!; try done. set_solver.
Qed.

(** What [build_graph] leaves is sorted or refused; either way the graph stays. *)
Lemma sort_built limit l s K : tidy s K -> K ⊆ codes l -> detect_cycles limit s = (Ok [], s) -> exists s',
  tidy s' (codes l) /\ (forall x y, edge (graph s') x y <-> depends l x y) /\ (forall x y, edge (graph s') x y -> y ∈ dkeys (graph s'))
  /\ ((NoDup (codes l) /\ acyclic (depends l) /\ exists order, topological_sort limit l s = (Ok order, s') /\ order_of l order)
      \/ (~ (NoDup (codes l) /\ acyclic (depends l))
          /\ topological_sort limit l s = (Raise (ValueError "Could not resolve all dependencies"), s'))).
Proof.
  intros Ht HK Hdc. pose proof (build_graph_built l s K Ht HK) as Hb. destruct (kahn_built l _ Hb) as (d & r & Er & Hk).
  destruct (kahn_sorted l d r Hk) as (Hnd & Hr & Hlen).
  exists (mkResolver (graph (build_graph l s)) d). split_and!.
  - destruct (bt_tidy _ _ Hb) as (Hg & _ & Hkeys). destruct (kh_keys _ _ _ _ Hk) as [Hwd Hdk].
    split; [done|]. split; [done|]. intros c. split; [apply (proj1 (Hkeys c))|apply Hdk].
  - intros x y. simpl. by apply edge_built.
  - intros x y. simpl. by apply (built_closed l).
  - unfold topological_sort. rewrite Hdc, Er. destruct (Nat.eqb (length r) (length l)) eqn:E.
    + apply Nat.eqb_eq in E. destruct (proj1 Hlen E) as [Hd Ha]. left. split; [done|]. split; [done|].
      destruct (entries_known l r Hr) as (order & -> & Ho & Ec). exists order. split; [done|]. by apply (sorted_order l d r).
    + apply Nat.eqb_neq in E. right. split; [|done]. by intros Hda%Hlen.
Qed.
Lemma resolver_searched limit l s : resolver_for l s -> (length l < limit)%nat -> detect_cycles limit s = (Ok [], s).
Proof.
  intros (K & Ht & HK & Hcl & Ha) Hl. destruct (detect_cycles_spec limit s (proj1 Ht) Hcl) as (cs & E & _ & Hcs).
  - apply (Nat.le_lt_trans _ (length (codes l))); [by apply (keys_bounded l s K)|]. unfold codes. by rewrite length_map.
  - by rewrite (proj2 Hcs Ha) in E.
Qed.

(** C30: a plan of fewer capabilities than the recursion limit is always
    answered by a resolver that is fresh or whose earlier plans were sound and
    named no capability the plan does not: the answer is the capabilities
    themselves in an order in which each follows every listed capability it
    depends on, and the resolver can be used again; or, exactly when two
    entries share a code or the dependencies have a cycle, an error. *)
Theorem topological_sort_orders limit l s : resolver_for l s -> (length l < limit)%nat -> exists s',
  (NoDup (codes l) /\ acyclic (depends l) /\ resolver_for l s'
   /\ exists order, topological_sort limit l s = (Ok order, s') /\ order_of l order)
  \/ (~ (NoDup (codes l) /\ acyclic (depends l))
      /\ topological_sort limit l s = (Raise (ValueError "Could not resolve all dependencies"), s')).
Proof.
  intros Hs Hl. pose proof (resolver_searched _ _ _ Hs Hl) as Hdc. destruct Hs as (K & Ht & HK & _).
  destruct (sort_built limit l s K Ht HK Hdc) as (s' & Ht' & He & Hcl & [(Hnd & Ha & Ho)|Hbad]); exists s'; [left|by right].
  split_and!; try done. exists (codes l). split_and!; try done. by apply (acyclic_iff (depends l)); [intros a b; symmetry; apply He|].
Qed.
Lemma topological_sort_orders_witness : exists order s',
  topological_sort 900 [OrderSample.cap "b" ["a@latest"; "x"]; OrderSample.cap "a" []] new_resolver = (Ok order, s')
  /\ order_of [OrderSample.cap "b" ["a@latest"; "x"]; OrderSample.cap "a" []] order.
Proof.
  destruct (topological_sort_orders 900 [OrderSample.cap "b" ["a@latest"; "x"]; OrderSample.cap "a" []] new_resolver)
    as (s' & [(_ & _ & _ & order & E & Ho)|[_ E]]).
  - apply new_resolver_for.
  - by apply Nat.ltb_lt.
  - by exists order, s'.
  - exfalso. apply (f_equal fst) in E. vm_compute in E. discriminate E.
Defined.

(** Once a plan with a cycle has been refused, the resolver refuses every
    plan, sound or not, and never recovers: the search for cycles runs over the
    graph of the plan before, which nothing replaces any more. *)
Theorem cyclic_plan_poisons limit l s l' : resolver_for l s -> (length l < limit)%nat -> ~ acyclic (depends l) ->
  topological_sort limit l' (topological_sort limit l s).2
  = (Raise (ValueError "Circular dependencies detected"), (topological_sort limit l s).2).
Proof.
  intros Hs Hl Hc. pose proof (resolver_searched _ _ _ Hs Hl) as Hdc. destruct Hs as (K & Ht & HK & _).
  destruct (sort_built limit l s K Ht HK Hdc) as (s' & Ht' & He & Hcl & [(_ & Ha & _)|[_ ->]]); [done|]. cbn [snd].
  destruct (detect_cycles_spec limit s' (proj1 Ht') Hcl) as (cs & E & _ & Hcs).
  - apply (Nat.le_lt_trans _ (length (codes l))); [by apply (keys_bounded l s' (codes l))|]. unfold codes. by rewrite length_map.
  - unfold topological_sort. rewrite E. destruct cs; [|done]. destruct Hc.
    by apply (acyclic_iff (edge (graph s'))); [|apply Hcs].
Qed.
Lemma cyclic_plan_poisons_witness :
  topological_sort 900 [OrderSample.cap "a" []] (OrderSample.after [OrderSample.cap "a" ["b"]; OrderSample.cap "b" ["a"]])
  = (Raise (ValueError "Circular dependencies detected"), OrderSample.after [OrderSample.cap "a" ["b"]; OrderSample.cap "b" ["a"]]).
Proof.
  apply (cyclic_plan_poisons 900 [OrderSample.cap "a" ["b"]; OrderSample.cap "b" ["a"]] new_resolver).
  - apply new_resolver_for.
  - by apply Nat.ltb_lt.
  - intros Ha. apply (Ha "a"). apply (tc_l _ "a" "b" "a"); [|apply tc_once].
    + exists (OrderSample.cap "b" ["a"]), "a". split_and!; [set_solver|done|set_solver|vm_compute; reflexivity|set_solver].
    + exists (OrderSample.cap "a" ["b"]), "b". split_and!; [set_solver|done|set_solver|vm_compute; reflexivity|set_solver].
Defined.
