(* ===== verification/MigrationCatalog.v ===== *)
(** The catalog of revisions Alembic loads from the script files, and what the
    orchestrator reads off it: the ancestry of the current rows, the check that
    the catalog knows them (runtime_catalog_integrity_facade.py), and the rows
    that another row makes redundant (head_normalizer.py).  Then the readiness
    of the host resource schema (host_resources/schema_readiness.py) and the
    contract the orchestrator checks before it plans
    (orchestrator_host_resource_contract_adapter.py). *)
From S2P Require Import Prelude PyDict PyStr PyVal PyJson KnowledgeContracts.

(** * The script directory *)

(** [down_revision]: None, a string or a tuple. *)
Inductive down : Type := Base | Parent (r : string) | Merge (rs : list string).
#[export] Instance down_eq_dec : EqDecision down.
Proof. solve_decision. Defined.
Record script : Type := mkScript { revision : string; down_revision : down; branch_labels : list string; has_upgrade : bool }.

(** What a generator yields before it ends or raises. *)
Record generator : Type := mkGenerator { yields : list string; ends_with : option exn }.
Definition list_of (g : generator) : res (list string) :=
  match ends_with g with None => Ok (yields g) | Some e => Raise e end.

(** [ScriptDirectory]; [iterate_revisions] goes down to the base. *)
Record script_directory : Type := mkScripts {
  get_revision : string -> res (option script);
  iterate_revisions : string -> generator;
  walk_revisions : generator;
  get_heads : list string;
}.

(** Sets of revisions are lists; only [sorted] looks at their order. *)
Definition py_sorted (l : list string) : list string := sorted_set (fun s => [s]) l.
Definition texts (l : list string) : pyval := PList (map PStr l).
Definition nonblank (s : string) : bool := negb (bool_decide (s = "")).
Definition minus (a b : list string) : list string := List.filter (fun x => negb (member x b)) a.

(** * The ancestry of the current rows *)

(** The loop of [_get_applied_revisions]. *)
Definition ancestry (c : script_directory) (current_heads : list string) : list string :=
  foldl (fun applied head =>
           let g := iterate_revisions c head in
           let applied := applied ++ List.filter nonblank (yields g) in
           match ends_with g with None => applied | Some _ => applied ++ [head] end)
        [] current_heads.

(** The set comprehension of [_get_runtime_known_revisions]. *)
Definition known_revisions (c : script_directory) : list string :=
  match list_of (walk_revisions c) with Ok l => List.filter nonblank l | Raise _ => [] end.

Definition _format_current_revisions (revisions : list string) : pyval :=
  match remove_dups revisions with
  | [] => PNone
  | [r] => PStr r
  | _ => PStr (join ", " (py_sorted revisions))
  end.

(** [resolve_runtime_catalog_snapshot]; [applied] is what the resolver of the
    applied revisions answers. *)
Definition catalog_unreadable (db_type : string) (current_revisions : list string) : dict pyval :=
  [("status", PStr "error"); ("error", PStr ("Could not enumerate the " +:+ db_type +:+ " runtime migration catalog."));
   ("catalog_complete", PBool false); ("current_revisions", texts (py_sorted current_revisions));
   ("unresolved_current_heads", texts (py_sorted current_revisions))].
Definition heads_unresolved (db_type : string) (current_revisions unresolved : list string) : dict pyval :=
  [("status", PStr "error");
   ("error", PStr ("The " +:+ db_type +:+ " runtime migration catalog cannot resolve live heads: " +:+ join ", " unresolved));
   ("catalog_complete", PBool false); ("current_revisions", texts (py_sorted current_revisions));
   ("unresolved_current_heads", texts unresolved)].
Definition resolve_runtime_catalog_snapshot (db_type : string) (current_revisions runtime_known_revisions applied : list string)
    : dict pyval :=
  if bool_decide (runtime_known_revisions = []) then catalog_unreadable db_type current_revisions
  else
  let unresolved_current_heads := py_sorted (minus current_revisions runtime_known_revisions) in
  if negb (bool_decide (unresolved_current_heads = [])) then heads_unresolved db_type current_revisions unresolved_current_heads
  else [("status", PStr "success"); ("catalog_complete", PBool true); ("current_revisions", texts (py_sorted current_revisions));
        ("unresolved_current_heads", PList []); ("runtime_known_revisions", texts (py_sorted runtime_known_revisions));
        ("applied_revisions", texts (py_sorted applied))].

(** * Redundant rows *)

Inductive PlanStatus : Type := clean | ready | blocked_unresolved.
#[export] Instance plan_status_eq_dec : EqDecision PlanStatus.
Proof. solve_decision. Defined.
Record MigrationHeadNormalizationPlan : Type := mkPlan {
  pl_status : PlanStatus;
  current_revisions : list string;
  redundant_revisions : list string;
  retained_revisions : list string;
  unresolved_revisions : list string;
}.
#[export] Instance plan_eq_dec : EqDecision MigrationHeadNormalizationPlan.
Proof. solve_decision. Defined.

Definition resolves (c : script_directory) (r : string) : bool :=
  match ends_with (iterate_revisions c r) with None => true | Some _ => false end.
Definition ancestors_of (c : script_directory) (r : string) : list string := List.filter nonblank (yields (iterate_revisions c r)).
Definition is_redundant (c : script_directory) (current : list string) (ancestor : string) : bool :=
  existsb (fun descendant => negb (bool_decide (ancestor = descendant)) && member ancestor (ancestors_of c descendant)) current.

Definition plan_redundant_heads (c : script_directory) (rows : list string) : MigrationHeadNormalizationPlan :=
  let current := py_sorted rows in
  let unresolved := List.filter (fun d => negb (resolves c d)) current in
  if negb (bool_decide (unresolved = []))
  then mkPlan blocked_unresolved current [] current (py_sorted unresolved)
  else
  let redundant := List.filter (is_redundant c current) current in
  let retained := List.filter (fun r => negb (member r redundant)) current in
  mkPlan (if bool_decide (redundant = []) then clean else ready) current (py_sorted redundant) retained [].

Definition REQUIRED_REVISION : string := "20260604173000".
Definition UPGRADE_COMMAND : string := "alembic -c backend/alembic.postgres.ini upgrade heads".
Definition REQUIRED_TABLES : list string :=
  ["host_resource_reservations"; "host_resource_events"; "host_resource_lanes"; "host_resource_workspace_allocations";
   "host_resource_allocation_blueprints"; "host_resource_allocation_blueprint_entries";
   "host_resource_workspace_allocation_applications"].
Definition REQUIRED_INDEXES : list string :=
  ["idx_host_resource_reservations_active"; "idx_host_resource_reservations_lane_created";
   "idx_host_resource_events_reservation_time"; "idx_host_resource_events_type_time";
   "idx_host_resource_lanes_workspace_scope"; "idx_host_resource_lanes_capability_kind";
   "idx_host_resource_lanes_queue_shard"; "uq_host_resource_workspace_allocations_workspace_lane";
   "idx_host_resource_workspace_allocations_lane_state"; "idx_host_resource_workspace_allocations_workspace_state";
   "uq_host_resource_workspace_allocations_workspace_queue_family";
   "uq_host_resource_allocation_blueprint_entries_blueprint_queue_family";
   "uq_host_resource_workspace_allocation_applications_workspace_blueprint";
   "idx_host_resource_workspace_allocations_queue_family_state"; "idx_host_resource_workspace_allocations_blueprint";
   "idx_tasks_workspace_queue_running_pack"].
Definition REQUIRED_COLUMNS : dict (list string) :=
  [("host_resource_workspace_allocations",
    ["queue_shard"; "task_family"; "max_parallel_task_claims"; "share_policy"; "priority_ceiling"; "blueprint_id";
     "blueprint_entry_id"; "applied_at"; "updated_by"; "updated_at"]);
   ("host_resource_allocation_blueprints", ["blueprint_id"; "label"; "scope"; "state"; "metadata"]);
   ("host_resource_allocation_blueprint_entries",
    ["blueprint_entry_id"; "blueprint_id"; "queue_shard"; "task_family"; "max_parallel_task_claims"; "task_selectors"]);
   ("host_resource_workspace_allocation_applications", ["application_id"; "workspace_id"; "blueprint_id"; "state"; "applied_at"])].

(** [normalized.isdigit()]; the comparison is of texts. *)
Definition isdigit (s : string) : bool := nonblank s && str_forall is_digit s.
Definition text_ge (a b : string) : bool := match String.compare a b with Lt => false | _ => true end.
Definition _revision_covers_required (version_num : string) : bool :=
  let normalized := strip version_num in
  if bool_decide (normalized = REQUIRED_REVISION) then true
  else isdigit normalized && isdigit REQUIRED_REVISION && text_ge normalized REQUIRED_REVISION.

(** * The queries

    What the database holds, and how many queries it answers before one
    fails, if one does. *)
Record schema : Type := mkSchema { relations : list string; columns_at : dict (list string); version_rows : list string }.
Record probe : Type := mkProbe { pb_schema : schema; pb_connects : bool; pb_answers : option nat; pb_error : string }.

Record findings : Type := mkFindings {
  fd_tables : dict bool;
  fd_indexes : dict bool;
  fd_columns : dict (dict bool);
  fd_applied : list string;
  fd_migration_applied : bool;
}.
Definition queries (A : Type) : Type := stres (option nat * findings) A.
Definition query {A} (error : string) (answer : A) : queries A := fun '(n, fd) =>
  match n with
  | Some O => (Raise (OtherError "OperationalError" error), (n, fd))
  | Some (S n) => (Ok answer, (Some n, fd))
  | None => (Ok answer, (None, fd))
  end.
Definition find_ (f : findings -> findings) : queries unit := fun '(n, fd) => (Ok tt, (n, f fd)).
Fixpoint each {A} (f : A -> queries unit) (l : list A) : queries unit :=
  match l with
  | [] => mret tt
  | x :: l => _ ← f x; each f l
  end.

Section readiness.
Variable (s : schema) (error : string).

Definition _regclass_exists (object_name : string) : queries bool := query error (member object_name (relations s)).
Definition _table_columns (table_name : string) : queries (list string) := query error (default [] (dget table_name (columns_at s))).

Definition probe_table (table_name : string) : queries unit :=
  e ← _regclass_exists table_name;
  find_ (fun fd => mkFindings (dset table_name e (fd_tables fd)) (fd_indexes fd) (fd_columns fd) (fd_applied fd) (fd_migration_applied fd)).
Definition probe_index (index_name : string) : queries unit :=
  e ← _regclass_exists index_name;
  find_ (fun fd => mkFindings (fd_tables fd) (dset index_name e (fd_indexes fd)) (fd_columns fd) (fd_applied fd) (fd_migration_applied fd)).
Definition probe_columns (required : string * list string) : queries unit :=
  existing ← _table_columns required.1;
  find_ (fun fd => mkFindings (fd_tables fd) (fd_indexes fd)
           (dset required.1 (foldl (fun d c => dset c (member c existing) d) [] required.2) (fd_columns fd)) (fd_applied fd)
           (fd_migration_applied fd)).
Definition probe_versions : queries unit :=
  e ← _regclass_exists "alembic_version";
  if e : bool then
    rows ← query error (version_rows s);
    let applied := List.filter nonblank rows in
    find_ (fun fd => mkFindings (fd_tables fd) (fd_indexes fd) (fd_columns fd) applied (existsb _revision_covers_required applied))
  else mret tt.
Definition probe_all : queries unit :=
  _ ← each probe_table REQUIRED_TABLES;
  _ ← each probe_index REQUIRED_INDEXES;
  _ ← each probe_columns REQUIRED_COLUMNS;
  probe_versions.
End readiness.

(** * The report *)

Record readiness : Type := mkReadiness {
  rd_ready : bool;
  rd_connectable : bool;
  rd_found : findings;
  rd_missing_tables : list string;
  rd_missing_indexes : list string;
  rd_missing_columns : dict (list string);
  rd_error : option string;
}.

Definition missing_of (found : dict bool) (required : list string) : list string :=
  let absent := dkeys (dfilter (fun _ e => negb e) found) in
  if negb (bool_decide (absent = [])) then absent else if bool_decide (found = []) then required else [].
Definition missing_columns_of (found : dict (dict bool)) : dict (list string) :=
  if bool_decide (found = []) then REQUIRED_COLUMNS
  else dfilter (fun _ l => negb (bool_decide (l = []))) (map (fun kv => (kv.1, dkeys (dfilter (fun _ e => negb e) kv.2))) found).

Definition no_findings : findings := mkFindings [] [] [] [] false.
(** [str(exc)] *)
Definition exn_text (e : exn) : string :=
  match e with
  | TypeError m | ValueError m | OverflowError m | AttributeError m | InvalidTransition m | CanonicalPayloadError m
  | ReplayCompatibilityError m | DurableWorkflowConflict m | IncompatibleHistory m | ResourceBlockResumeError m _
  | OtherError _ m => m
  | KeyError k => repr_str k
  | AssertionError => ""
  end.
Definition report (connectable : bool) (fd : findings) (error : option string) : readiness :=
  let missing_tables := missing_of (fd_tables fd) REQUIRED_TABLES in
  let missing_indexes := missing_of (fd_indexes fd) REQUIRED_INDEXES in
  let missing_columns := missing_columns_of (fd_columns fd) in
  mkReadiness (connectable && bool_decide (missing_tables = []) && bool_decide (missing_indexes = [])
               && bool_decide (missing_columns = []) && fd_migration_applied fd)
    connectable fd missing_tables missing_indexes missing_columns error.
Definition check_host_resource_schema_readiness (p : probe) : readiness :=
  if pb_connects p then
    let '(r, (_, fd)) := probe_all (pb_schema p) (pb_error p) (pb_answers p, no_findings) in
    report true fd (match r with Ok _ => None | Raise e => Some (exn_text e) end)
  else report false no_findings (Some (pb_error p)).

Definition flags (d : dict bool) : pyval := PDict (map (fun kv => (kv.1, PBool kv.2)) d).
Definition report_dict (r : readiness) : dict pyval :=
  [("scope", PStr "host-resource-only"); ("ready", PBool (rd_ready r)); ("connectable", PBool (rd_connectable r));
   ("required_revision", PStr REQUIRED_REVISION); ("migration_applied", PBool (fd_migration_applied (rd_found r)));
   ("applied_revisions", texts (fd_applied (rd_found r))); ("tables", flags (fd_tables (rd_found r)));
   ("indexes", flags (fd_indexes (rd_found r)));
   ("columns", PDict (map (fun kv => (kv.1, flags kv.2)) (fd_columns (rd_found r)))); ("missing_tables", texts (rd_missing_tables r));
   ("missing_indexes", texts (rd_missing_indexes r));
   ("missing_columns", PDict (map (fun kv => (kv.1, texts kv.2)) (rd_missing_columns r)));
   ("upgrade_command", PStr UPGRADE_COMMAND); ("error", py_opt (rd_error r))].

(** * The contract *)

Definition schema_drift (error : string) (r : readiness) : option (dict pyval) :=
  Some [("status", PStr "schema_drift"); ("error", PStr error); ("host_resource_schema", PDict (report_dict r))].
Definition evaluate_host_resource_schema_contract (db_type : string) (applied_revisions : list string) (p : probe)
    : option (dict pyval) :=
  if negb (bool_decide (db_type = "postgres")) then None
  else if negb (member REQUIRED_REVISION applied_revisions) then None
  else
  let r := check_host_resource_schema_readiness p in
  if negb (rd_connectable r)
  then schema_drift "Could not verify host-resource schema readiness from the current database connection." r
  else if nonblank (default "" (rd_error r))
  then schema_drift "Could not verify host-resource schema readiness. Migration is required before continuing." r
  else if negb (rd_ready r)
  then schema_drift ("Host-resource ledger schema is partially applied. Revision " +:+ REQUIRED_REVISION
                     +:+ " is in alembic_version, but required host-resource schema objects are missing.") r
  else None.
