(* ===== verification/MigrationExecutors.v ===== *)
(** Programs over the databases under migration, and the writers of
    alembic_version.  A program is the sequence of its accesses, each one
    atomic, between which other programs and calls of the incident journal may
    run.  A transaction is one access; what the caller learns of it, and whether
    it took place, is the [oracle]'s choice.  The writers are the executor of
    one independent revision (independent_revision_executor.py), of one linear
    revision (linear_revision_executor.py), the normalizer of the current rows
    (head_normalizer.py), and the upgrade command of Alembic, run in a
    subprocess (orchestrator.py, [_run_alembic_upgrade]). *)
From stdpp Require Import gmap sorting.
From S2P Require Import Prelude PyDict PyStr PyVal PyJson PyTime KnowledgeContracts IncidentModels IncidentJournal IncidentGate MigrationCatalog.

(** What happened, in order: the mutation gate admitted an operation, on the
    journal as it then was; the upgrade function of a revision was committed. *)
Inductive entry : Type :=
| Cleared (operation : string) (context : dict string) (now : Z) (journal : disk)
| Upgraded (url revision : string).

(** The rows of alembic_version at each database, the session locks held, and
    the journal of incidents. *)
Record site : Type := mkSite {
  st_versions : gmap string (list string);
  st_locks : list (nat * (string * Z));
  st_journal : disk;
  st_log : list entry;
}.
Definition rows (w : site) (url : string) : list string := default [] (st_versions w !! url).
Definition set_rows (url : string) (l : list string) (w : site) : site :=
  mkSite (<[url := l]> (st_versions w)) (st_locks w) (st_journal w) (st_log w).
Definition note (l : list entry) (w : site) : site := mkSite (st_versions w) (st_locks w) (st_journal w) (st_log w ++ l).
Definition with_locks (l : list (nat * (string * Z))) (w : site) : site := mkSite (st_versions w) l (st_journal w) (st_log w).
Definition with_journal (d : disk) (w : site) : site := mkSite (st_versions w) (st_locks w) d (st_log w).

(** An access is done, fails without effect, or takes effect but its answer is
    lost. *)
Inductive access : Type := Served | Failed | Unanswered.
Record oracle : Type := mkOracle {
  o_access : access;
  o_error : string;
  o_now : Z;
  o_faults : list fault;
  o_probe : probe;
  o_extensions : list string;
  o_stderr : string;
}.

Inductive prog (A : Type) : Type :=
| Done (r : res A)
| Act (f : oracle -> nat -> site -> option (prog A * site)).
Arguments Done {A} r.
Arguments Act {A} f.

Section induction.
Context {A : Type} (P : prog A -> Prop).
Hypothesis done_case : forall r, P (Done r).
Hypothesis act_case : forall f, (forall o pid w q w', f o pid w = Some (q, w') -> P q) -> P (Act f).
Fixpoint prog_nested_ind (p : prog A) : P p :=
  match p with
  | Done r => done_case r
  | Act f => act_case f (fun o pid w q w' =>
      match f o pid w as a return a = Some (q, w') -> P q with
      | Some (q0, w1) => fun E : Some (q0, w1) = Some (q, w') =>
          match f_equal (fun a => match a with Some (x, _) => x | None => q end) E in _ = x return P x with eq_refl => prog_nested_ind q0 end
      | None => fun E => match (ltac:(discriminate E) : False) with end
      end)
  end.
End induction.

Fixpoint pbind {A B} (f : A -> prog B) (p : prog A) : prog B :=
  match p with
  | Done (Ok a) => f a
  | Done (Raise e) => Done (Raise e)
  | Act g => Act (fun o pid w => match g o pid w with Some (q, w) => Some (pbind f q, w) | None => None end)
  end.
#[export] Instance prog_ret : MRet prog := fun A a => Done (Ok a).
#[export] Instance prog_bind : MBind prog := fun A B f p => pbind f p.

(** [try: p except: h], and [try: p finally: q]. *)
Fixpoint ptry {A} (p : prog A) (h : exn -> prog A) : prog A :=
  match p with
  | Done (Ok a) => Done (Ok a)
  | Done (Raise e) => h e
  | Act g => Act (fun o pid w => match g o pid w with Some (q, w) => Some (ptry q h, w) | None => None end)
  end.
Fixpoint pfinally {A} (p : prog A) (q : prog unit) : prog A :=
  match p with
  | Done r => pbind (fun _ => Done r) q
  | Act g => Act (fun o pid w => match g o pid w with Some (p, w) => Some (pfinally p q, w) | None => None end)
  end.
Fixpoint peach {A B} (f : A -> prog B) (l : list A) : prog (list B) :=
  match l with
  | [] => mret []
  | x :: l => y ← f x; ys ← peach f l; mret (y :: ys)
  end.

Definition database_error (o : oracle) : exn := OtherError "OperationalError" (o_error o).
(** One access; [None] while it has to wait. *)
Definition one_access {A} (f : oracle -> nat -> site -> option (res A * site)) : prog A :=
  Act (fun o pid w => match f o pid w with Some (r, w) => Some (Done r, w) | None => None end).
Definition peek {A} (f : oracle -> site -> A) : prog A := one_access (fun o _ w => Some (Ok (f o w), w)).

(** [with connection.begin()]: an exception of the body rolls back. *)
Definition run_access {A} (body : stres site A) (o : oracle) (w : site) : res A * site :=
  match o_access o with
  | Served => transaction body w
  | Failed => (Raise (database_error o), w)
  | Unanswered => (Raise (database_error o), snd (transaction body w))
  end.
Definition txn {A} (body : stres site A) : prog A := one_access (fun o _ w => Some (run_access body o w)).

(** A program run alone, one oracle per access. *)
Fixpoint run_alone {A} (pid : nat) (p : prog A) (os : list oracle) (w : site) : option (res A * site) :=
  match p, os with
  | Done r, _ => Some (r, w)
  | Act f, o :: os => match f o pid w with Some (q, w) => run_alone pid q os w | None => None end
  | Act _, [] => None
  end.

(** * The mutation gate *)

Section gate.
Context `{IsoReader}.

(** [context] is the evidence of the request that is being served. *)
Definition gate (context : dict string) (operation : string) : prog MutationDecision :=
  one_access (fun o _ w =>
         let '(r, jw) := require_allowed operation context [] (o_now o) (mkWorld (st_journal w) (o_faults o)) in
         let w := with_journal (w_disk jw) w in
         Some (r, match r with Ok _ => note [Cleared operation context (o_now o) (st_journal w)] w | Raise _ => w end)).

Record config : Type := mkConfig { cf_name : string; cf_path : string }.
Definition upgrade_operation (c : config) (revision : string) : string := "alembic_upgrade:" +:+ cf_name c +:+ ":" +:+ revision.
(** [require_migration_execution_allowed] (execution_policy.py) *)
Definition require_migration_execution_allowed (context : dict string) (c : config) (revision : string) : prog unit :=
  _ ← gate context (upgrade_operation c revision); mret tt.

(** [require_capability_migration_plan_allowed] (capability_plan_admission.py) *)
Record CapabilityMigrationPlanAdmission : Type := mkAdmission { ad_mode : string; ad_decisions : list MutationDecision }.
Definition is_blocked (e : exn) : bool :=
  match e with OtherError cls _ => bool_decide (cls = "RuntimeDatabaseMutationBlocked") | _ => false end.
Definition require_capability_migration_plan_allowed (context : dict string) (capability_code : string) (c : config)
    (pending_revisions : list string) : prog CapabilityMigrationPlanAdmission :=
  let revisions := List.filter nonblank (map strip pending_revisions) in
  ptry (d ← gate context ("capability_migration:" +:+ strip capability_code); mret (mkAdmission "generic_capability" [d]))
    (fun e =>
       if negb (is_blocked e) || bool_decide (revisions = []) then Done (Raise e)
       else
       ds ← peach (fun r => gate context (upgrade_operation c r)) revisions;
       mret (mkAdmission "exact_per_revision" ds)).
End gate.

(** A transaction of the upgrade command: on the rows it finds, the revisions it
    runs, in order, and the rows it leaves; [None] when it fails. *)
Definition batch : Type := list string -> option (list string * list string).
(** [hashtext], the collation of the database, and the upgrade command: the
    transactions it goes through, from the rows it starts with.  They are
    several where a migration commits on its own (an [autocommit_block], as the
    ones that create indexes concurrently do). *)
Class AlembicPlatform : Type := {
  hashtext : string -> Z;
  text_le : string -> string -> bool;
  command_upgrade : script_directory -> string -> list string -> list batch;
}.

Definition RuntimeError (msg : string) : exn := OtherError "RuntimeError" msg.
Definition check_that (ok : bool) (e : exn) : res unit := if ok then Ok tt else Raise e.

Section executors.
Context `{AlembicPlatform}.

(** ** Statements *)

Definition select_versions (url : string) : stres site (list string) := gets_st (fun w => rows w url).
(** ... ORDER BY version_num *)
Definition select_ordered (url : string) : stres site (list string) :=
  gets_st (fun w => merge_sort (fun a b => text_le a b) (rows w url)).
Definition upgrade (url revision : string) : stres site unit := modify_st (note [Upgraded url revision]).
Definition insert_version (url revision : string) : stres site unit :=
  modify_st (fun w => if member revision (rows w url) then w else set_rows url (rows w url ++ [revision]) w).
(** The row count of an UPDATE or a DELETE. *)
Definition update_version (url revision parent : string) : stres site nat :=
  total_st (fun w => (length (List.filter (fun r => bool_decide (r = parent)) (rows w url)),
                      set_rows url (map (fun r => if bool_decide (r = parent) then revision else r) (rows w url)) w)).
Definition delete_versions (url : string) (revisions : list string) : stres site nat :=
  total_st (fun w => (length (List.filter (fun r => member r revisions) (rows w url)), set_rows url (minus (rows w url) revisions) w)).

(** ** The independent executor *)

Definition independent_body (url revision : string) : stres site bool :=
  current ← select_versions url;
  if member revision current then mret true
  else
  _ ← upgrade url revision;
  _ ← insert_version url revision;
  recorded ← select_versions url;
  _ ← lift_res (check_that (member revision recorded) (RuntimeError "independent_revision_receipt_not_recorded"));
  mret true.
Definition independent_checks (s : script) (rev : string) : res unit :=
  _ ← check_that (bool_decide (revision s = rev)) (ValueError "independent_revision_target_mismatch");
  _ ← check_that (bool_decide (down_revision s = Base)) (ValueError "independent_revision_requires_base_parent");
  _ ← check_that (negb (bool_decide (branch_labels s = []))) (ValueError "independent_revision_requires_branch_label");
  check_that (has_upgrade s) (ValueError "independent_revision_upgrade_missing").
Definition execute_independent_revision (s : script) (url rev : string) : prog bool :=
  _ ← Done (independent_checks s rev);
  txn (independent_body url rev).

(** ** The linear executor *)

Definition linear_checks (s : script) (rev parent : string) : res unit :=
  _ ← check_that (bool_decide (revision s = rev)) (ValueError "linear_revision_target_mismatch");
  _ ← check_that (bool_decide (down_revision s = Parent parent)) (ValueError "linear_revision_parent_mismatch");
  check_that (has_upgrade s) (ValueError "linear_revision_upgrade_missing").

(** pg_advisory_lock waits while another session holds the lock; a session that
    fails loses it. *)
Definition lock_of (url key : string) : string * Z := (url, hashtext key).
Definition lock (url key : string) : prog unit :=
  one_access (fun o pid w =>
         match o_access o with
         | Served => if existsb (fun h => bool_decide (h.2 = lock_of url key) && negb (bool_decide (h.1 = pid))) (st_locks w) then None
                     else Some (Ok tt, with_locks ((pid, lock_of url key) :: st_locks w) w)
         | _ => Some (Raise (database_error o), w)
         end).
Definition unlock (url key : string) : prog unit :=
  one_access (fun o pid w =>
         let w := with_locks (List.filter (fun h => negb (bool_decide (h = (pid, lock_of url key)))) (st_locks w)) w in
         Some (match o_access o with Served => Ok tt | _ => Raise (database_error o) end, w)).

Definition parent_changed : exn := RuntimeError "linear_revision_parent_head_changed".
(** [Some true]: the revision is there already. *)
Definition linear_precheck (url rev parent : string) : stres site bool :=
  current ← select_versions url;
  if member rev current then mret true
  else _ ← lift_res (check_that (member parent current) parent_changed); mret false.
Definition linear_record (url rev parent : string) : stres site bool :=
  present ← linear_precheck url rev parent;
  if present : bool then mret true
  else
  rowcount ← update_version url rev parent;
  _ ← lift_res (check_that (Nat.eqb rowcount 1) (RuntimeError "linear_revision_head_compare_and_swap_failed"));
  readback ← select_versions url;
  _ ← lift_res (check_that (member rev readback && negb (member parent readback))
                  (RuntimeError "linear_revision_receipt_readback_mismatch"));
  mret true.
Definition linear_steps (url rev parent : string) : prog bool :=
  _ ← txn (mret tt);
  present ← txn (linear_precheck url rev parent);
  if present : bool then mret true
  else
  _ ← txn (upgrade url rev);
  txn (linear_record url rev parent).
Definition execute_linear_revision (s : script) (url rev parent : string) : prog bool :=
  _ ← Done (linear_checks s rev parent);
  let lock_key := "alembic-linear:" +:+ parent +:+ ":" +:+ rev in
  _ ← lock url lock_key;
  pfinally (linear_steps url rev parent) (unlock url lock_key).

(** ** The normalizer *)

Definition normalization_body (c : script_directory) (url : string) (expected : MigrationHeadNormalizationPlan) : stres site unit :=
  locked_current ← select_ordered url;
  _ ← lift_res (check_that (bool_decide (plan_redundant_heads c locked_current = expected))
                  (RuntimeError "migration_head_set_changed_during_normalization"));
  rowcount ← delete_versions url (redundant_revisions expected);
  _ ← lift_res (check_that (Nat.eqb rowcount (length (redundant_revisions expected)))
                  (RuntimeError "migration_head_normalization_delete_mismatch"));
  readback ← select_ordered url;
  lift_res (check_that (bool_decide (readback = retained_revisions expected))
              (RuntimeError "migration_head_normalization_readback_mismatch")).
Definition apply_plan (c : script_directory) (url : string) (expected : MigrationHeadNormalizationPlan)
    : prog MigrationHeadNormalizationPlan :=
  if negb (bool_decide (pl_status expected = ready)) then Done (Raise (ValueError "migration_head_normalization_plan_not_ready"))
  else
  _ ← txn (normalization_body c url expected);
  mret (mkPlan clean (retained_revisions expected) [] (retained_revisions expected) []).

(** ** The upgrade command *)

Definition commit_batch (url : string) (t : batch) : stres site unit := fun w =>
  match t (rows w url) with
  | None => (Raise (OtherError "CalledProcessError" ""), w)
  | Some (rs, vs) => (Ok tt, note (map (Upgraded url) rs) (set_rows url vs w))
  end.
(** What the process wrote to its error stream, when it ends in time and with
    status 0. *)
Definition run_command (c : script_directory) (url target : string) : prog string :=
  current ← txn (select_versions url);
  _ ← peach (fun t => txn (commit_batch url t)) (command_upgrade c target current);
  peek (fun o _ => o_stderr o).

(** [re.search(r"Revision (\d+) is present more than once", stderr)] *)
Fixpoint digits (s : string) : string * string :=
  match s with
  | String c r => if is_digit c then let '(d, t) := digits r in (String c d, t) else (EmptyString, s)
  | EmptyString => (EmptyString, EmptyString)
  end.
Definition drop_prefix (p s : string) : option string :=
  if starts_with p s then Some (String.substring (String.length p) (String.length s - String.length p) s) else None.
Definition conflict_here (s : string) : option string :=
  match drop_prefix "Revision " s with
  | Some r => let '(d, t) := digits r in
              if nonblank d && starts_with " is present more than once" t then Some d else None
  | None => None
  end.
Fixpoint conflict_match (s : string) : option string :=
  match conflict_here s with
  | Some d => Some d
  | None => match s with String _ r => conflict_match r | EmptyString => None end
  end.
Definition conflicts_with (stderr target : string) : bool :=
  match conflict_match stderr with Some d => bool_decide (d = target) | None => false end.
End executors.

Example conflict_ex : conflict_match "UserWarning: Revision 20260101 is present more than once" = Some "20260101".
Proof. reflexivity. Qed.
