(* ===== verification/MigrationOrchestrator.v ===== *)
(** The orchestrator of the migrations (orchestrator.py) and the commands
    that drive it (cli.py): plans, targeted and general upgrades, and the
    normalization of the current rows. *)
From stdpp Require Import gmap sorting.
From S2P Require Import Prelude PyDict PyStr PyVal PyJson PyTime IncidentModels IncidentJournal IncidentGate KnowledgeContracts MigrationOrder MigrationCatalog MigrationExecutors.

(** What an orchestrator is built from, and what it finds outside the
    databases: the script files, the packs' migrations.yaml, the URLs. *)
Record orchestrator : Type := mkOrchestrator {
  alembic_configs : dict config;
  scripts_of : string -> option script_directory;
  scanned : list MigrationMetadata;
  session_url : string -> res string;
  sqlite_path : string;
  mutation_context : dict string;
  recursion_limit : nat;
}.

Definition status_of (d : dict pyval) : string := match dget "status" d with Some (PStr s) => s | _ => "" end.
Definition text_list (v : pyval) : list string :=
  match v with PList l => omap (fun x => match x with PStr s => Some s | _ => None end) l | _ => [] end.
Definition bad_status (status error : string) : dict pyval := [("status", PStr status); ("error", PStr error)].

(** [apply_migration_subprocess_policy] (execution_policy.py) *)
Definition apply_migration_subprocess_policy (environment : dict string) : dict string :=
  let existing := strip (default "" (dget "PGOPTIONS" environment)) in
  dset "PGOPTIONS" (strip (existing +:+ " -c lock_timeout=5000 -c statement_timeout=120000")) environment.

Section orchestrator.
Context `{IsoReader, AlembicPlatform}.
Variable (self : orchestrator).

(** ** Reading *)

Definition url_of (db_type : string) : res string :=
  if member db_type ["postgres"; "vector"] then session_url self db_type
  else if bool_decide (db_type = "sqlite") then Ok ("sqlite:///" +:+ sqlite_path self)
  else Raise (ValueError db_type).

(** Every failure is caught. *)
Definition _get_current_revisions (db_type : string) : prog (list string) :=
  match url_of db_type with
  | Raise _ => mret []
  | Ok url => peek (fun o w => match o_access o with
                               | Served => merge_sort (fun a b => text_le a b) (rows w url)
                               | _ => []
                               end)
  end.
Definition _load_script_directory (db_type : string) : prog (option script_directory) :=
  match dget db_type (alembic_configs self) with
  | None => mret None
  | Some _ => peek (fun o _ => match o_access o with Served => scripts_of self db_type | _ => None end)
  end.
Definition _get_runtime_known_revisions (db_type : string) : prog (list string) :=
  script_dir ← _load_script_directory db_type;
  mret (match script_dir with None => [] | Some c => known_revisions c end).
(** [current_heads or self._get_current_revisions(db_type)] *)
Definition _get_applied_revisions (db_type : string) (current_heads : list string) : prog (list string) :=
  current_heads ← (if bool_decide (current_heads = []) then _get_current_revisions db_type else mret current_heads);
  if bool_decide (current_heads = []) then mret []
  else
  script_dir ← _load_script_directory db_type;
  mret (match script_dir with None => current_heads | Some c => ancestry c (remove_dups current_heads) end).

Definition _strict_catalog_snapshot (db_type : string) (current_revisions : list string) : prog (dict pyval) :=
  known ← _get_runtime_known_revisions db_type;
  if bool_decide (known = []) || negb (bool_decide (minus current_revisions known = []))
  then mret (resolve_runtime_catalog_snapshot db_type current_revisions known [])
  else
  applied ← _get_applied_revisions db_type current_revisions;
  mret (resolve_runtime_catalog_snapshot db_type current_revisions known applied).

Definition _check_host_resource_schema_contract (db_type : string) (current_revisions : list string)
    : prog (option (dict pyval)) :=
  if negb (bool_decide (db_type = "postgres")) then mret None
  else
  applied ← _get_applied_revisions db_type current_revisions;
  peek (fun o _ => evaluate_host_resource_schema_contract db_type applied (o_probe o)).

Definition _get_env_requirements (db_type : string) : res (dict pyval) :=
  if member db_type ["postgres"; "vector"] then
    url ← session_url self db_type;
    Ok [("postgres_url", PStr url);
        ("environment_requirements",
         PDict [("postgres", PDict [("extensions", PList [PStr "vector"]); ("min_version", PStr "12.0")])])]
  else if bool_decide (db_type = "sqlite") then Ok [("sqlite_path", PStr (sqlite_path self))]
  else Ok [].

(** ** Validation (validator.py) *)

Definition validate_postgres_connection (postgres_url : string) : prog bool :=
  peek (fun o _ => match o_access o with Served => true | _ => false end).
Definition validate_postgres_extensions (postgres_url : string) (required : list string) : prog (dict bool) :=
  peek (fun o _ => foldl (fun d e => dset e (match o_access o with Served => member e (o_extensions o) | _ => false end) d) [] required).
Definition validate_sqlite_permissions (db_path : string) : prog bool :=
  peek (fun o _ => match o_access o with Served => true | _ => false end).
Definition text_at (k : string) (d : dict pyval) : string := match dget k d with Some (PStr s) => s | _ => "" end.
Definition required_extensions (requirements : dict pyval) : list string :=
  text_list (pget "extensions" (dict_or_empty (pget "postgres" (dict_or_empty (pget "environment_requirements" requirements))))).
Definition validate_environment (db_type : string) (requirements : dict pyval) : prog (dict bool) :=
  if member db_type ["postgres"; "vector"] then
    let postgres_url := text_at "postgres_url" requirements in
    if bool_decide (postgres_url = "") then mret [("connection", false)]
    else
    connection ← validate_postgres_connection postgres_url;
    let required := required_extensions requirements in
    if bool_decide (required = []) then mret [("connection", connection)]
    else
    ext_results ← validate_postgres_extensions postgres_url required;
    mret (dupdate [("connection", connection)] ext_results)
  else if bool_decide (db_type = "sqlite") then
    let db_path := text_at "sqlite_path" requirements in
    if bool_decide (db_path = "") then mret [("permissions", false)]
    else permissions ← validate_sqlite_permissions db_path; mret [("permissions", permissions)]
  else mret [].

Definition bools (d : dict bool) : pyval := PDict (map (fun kv => (kv.1, PBool kv.2)) d).
Definition failed_checks (d : dict bool) : list string := dkeys (dfilter (fun _ passed => negb passed) d).
Definition validation_failed (results : dict bool) : dict pyval :=
  [("status", PStr "validation_failed"); ("failed_checks", texts (failed_checks results)); ("validation_results", bools results)].

(** ** The upgrade command, admitted

    The subprocess loads the same catalog and reaches the same database. *)

Definition _run_alembic_upgrade (alembic_config : config) (target : string) : prog bool :=
  _ ← require_migration_execution_allowed (mutation_context self) alembic_config target;
  match dkeys (dfilter (fun _ c => bool_decide (cf_path c = cf_path alembic_config)) (alembic_configs self)) with
  | [db_type] =>
      ptry (c ← _load_script_directory db_type;
            match c, url_of db_type with
            | Some c, Ok url => stderr ← run_command c url target; mret (negb (conflicts_with stderr target))
            | _, _ => Done (Raise (OtherError "CalledProcessError" ""))
            end)
        (fun _ => mret false)
  | _ => Done (Raise (ValueError "Alembic config must resolve to exactly one registered database type"))
  end.

(** ** Plans *)

Definition current_fields (current applied : list string) : dict pyval :=
  [("current_revision", _format_current_revisions current); ("current_revisions", texts (py_sorted current));
   ("applied_revisions", texts (py_sorted applied))].
Definition planned (capability revision status : string) : pyval :=
  PDict [("capability", PStr capability); ("revision", PStr revision); ("status", PStr status)].

Definition _dry_run_host_catalog (db_type : string) : prog (dict pyval) :=
  script_dir ← _load_script_directory db_type;
  match script_dir with
  | None => mret (bad_status "error" ("Could not load the " +:+ db_type +:+ " migration catalog."))
  | Some c =>
      current ← _get_current_revisions db_type;
      snapshot ← _strict_catalog_snapshot db_type current;
      if negb (bool_decide (status_of snapshot = "success"))
      then mret (dupdate snapshot [("status", PStr "revision_catalog_unavailable")])
      else
      let applied := text_list (pget "applied_revisions" snapshot) in
      match list_of (walk_revisions c) with
      | Raise e => mret (bad_status "error" (exn_text e))
      | Ok walked =>
          let plan := map (fun r => planned "local_core_host" r "pending") (minus (rev walked) applied) in
          mret ([("status", PStr "success")] ++ current_fields current applied
                ++ [("migrations", PList plan); ("ignored_migrations", PList [])])
      end
  end.

(** The revisions the packs declare, in the order of their dependencies. *)
Definition declared (l : list MigrationMetadata) : list (string * string) :=
  concat (map (fun m => map (fun r => (MigrationOrder.capability_code m, r)) (MigrationOrder.revisions m)) l).
Definition in_scripts (known : list string) (r : string) : bool := bool_decide (known = []) || member r known.
Definition dry_run_report (current applied known : list string) (order : list MigrationMetadata) : dict pyval :=
  let ignored := List.filter (fun d => negb (in_scripts known d.2)) (declared order) in
  let plan := List.filter (fun d => in_scripts known d.2 && negb (member d.2 applied)) (declared order) in
  [("status", PStr "success")] ++ current_fields current applied
  ++ [("migrations", PList (map (fun d => planned d.1 d.2 "pending") plan));
      ("ignored_migrations", PList (map (fun d => planned d.1 d.2 "not_in_runtime_scripts") ignored))].
Definition no_migrations_report (current applied : list string) : dict pyval :=
  [("status", PStr "no_migrations"); ("catalog_complete", PBool true)] ++ current_fields current applied ++ [("migrations", PList [])].

(** The answer, and the dependency resolver the orchestrator keeps. *)
Definition dry_run (db_type : string) (dependency_resolver : resolver) : prog (dict pyval * resolver) :=
  if bool_decide (db_type = "vector") then r ← _dry_run_host_catalog db_type; mret (r, dependency_resolver)
  else
  let db_metadata := List.filter (fun m => bool_decide (MigrationOrder.db_type m = db_type)) (scanned self) in
  current ← _get_current_revisions db_type;
  drift ← _check_host_resource_schema_contract db_type current;
  match drift with
  | Some d => mret (d, dependency_resolver)
  | None =>
      snapshot ← _strict_catalog_snapshot db_type current;
      if negb (bool_decide (status_of snapshot = "success")) then mret (snapshot, dependency_resolver)
      else
      let applied := text_list (pget "applied_revisions" snapshot) in
      let known := text_list (pget "runtime_known_revisions" snapshot) in
      if bool_decide (db_metadata = []) then mret (no_migrations_report current applied, dependency_resolver)
      else
      let '(sorted, dependency_resolver) := topological_sort (recursion_limit self) db_metadata dependency_resolver in
      match sorted with
      | Ok order => mret (dry_run_report current applied known order, dependency_resolver)
      | Raise e => if is_value_error e
                   then mret (bad_status "error" (exn_text e), dependency_resolver)
                   else Done (Raise e)
      end
  end.

Definition symbolic (rev : string) : bool := bool_decide (rev = "") || member rev ["head"; "heads"; "base"].
Definition up_to_date (rev : string) : dict pyval :=
  [("status", PStr "up_to_date"); ("target_revision", PStr rev); ("migrations_applied", PInt 0); ("revisions", PList [])].
Definition revision_plan (rev : string) (chain : list string) : dict pyval :=
  [("status", PStr "success"); ("target_revision", PStr rev); ("migrations_pending", PInt (Z.of_nat (length chain)));
   ("revisions", texts (List.rev chain))].
Definition is_exact (target : option script) (rev : string) : bool :=
  match target with Some s => bool_decide (revision s = rev) | None => false end.

Definition plan_from (c : script_directory) (db_type rev : string) : prog (dict pyval) :=
  match get_revision c rev with
  | Raise e => mret (bad_status "invalid_revision" ("Could not resolve exact revision " +:+ rev +:+ ": " +:+ exn_text e))
  | Ok target =>
      if negb (is_exact target rev)
      then mret (bad_status "invalid_revision" ("Revision " +:+ rev +:+ " is not an exact runtime revision ID."))
      else
      current ← _get_current_revisions db_type;
      drift ← _check_host_resource_schema_contract db_type current;
      match drift with
      | Some d => mret d
      | None =>
          applied ← _get_applied_revisions db_type current;
          if member rev applied then mret (up_to_date rev)
          else
          match list_of (iterate_revisions c rev) with
          | Raise e => mret (bad_status "invalid_revision" ("Could not resolve ancestry for revision " +:+ rev +:+ ": " +:+ exn_text e))
          | Ok chain => mret (revision_plan rev (minus chain applied))
          end
      end
  end.
Definition plan_revision (db_type rev : string) : prog (dict pyval) :=
  if symbolic rev
  then mret (bad_status "invalid_revision" "An exact revision ID is required; symbolic targets are not allowed.")
  else
  match dget db_type (alembic_configs self) with
  | None => mret (bad_status "unsupported_database" ("No Alembic configuration registered for " +:+ db_type +:+ "."))
  | Some _ =>
      script_dir ← _load_script_directory db_type;
      match script_dir with
      | None => mret (bad_status "revision_catalog_unavailable" ("Could not load the " +:+ db_type +:+ " Alembic revision catalog."))
      | Some c => plan_from c db_type rev
      end
  end.

(** ** Upgrades *)

Definition failed_fields (error : string) : dict pyval :=
  [("status", PStr "failed"); ("migrations_applied", PInt 0); ("error", PStr error)].
Definition apply (db_type : string) (dry : bool) (dependency_resolver : resolver) : prog (dict pyval * resolver) :=
  if dry then dry_run db_type dependency_resolver
  else
  requirements ← Done (_get_env_requirements db_type);
  results ← validate_environment db_type requirements;
  if negb (bool_decide (failed_checks results = [])) then mret (validation_failed results, dependency_resolver)
  else
  plan ← dry_run db_type dependency_resolver;
  let '(plan_result, dependency_resolver) := plan : dict pyval * resolver in
  if negb (bool_decide (status_of plan_result = "success")) then mret (plan_result, dependency_resolver)
  else
  let migrations := match pget "migrations" plan_result with PList l => l | _ => [] end in
  if bool_decide (migrations = []) then mret ([("status", PStr "up_to_date"); ("migrations_applied", PInt 0)], dependency_resolver)
  else
  match dget db_type (alembic_configs self) with
  | None => Done (Raise (KeyError db_type))
  | Some alembic_config =>
      ptry (result ← _run_alembic_upgrade alembic_config "heads";
            mret (if result : bool
                  then [("status", PStr "completed"); ("migrations_applied", PInt (Z.of_nat (length migrations)));
                        ("results", PList (map (fun _ => PDict [("status", PStr "applied")]) migrations))]
                  else failed_fields "Alembic upgrade failed", dependency_resolver))
        (fun e => mret (failed_fields (exn_text e), dependency_resolver))
  end.

(** Which of the three ways an exact revision is executed. *)
Inductive route : Type := Independent (s : script) | Linear (s : script) (parent : string) | Command.
Definition choose_route (target : option script) (pending : Z) (current : list string) : route :=
  match target with
  | Some s =>
      match down_revision s with
      | Base => if pending =? 1 then Independent s else Command
      | Parent p => if member p current && (pending =? 1) then Linear s p else Command
      | Merge _ => Command
      end
  | None => Command
  end.
Definition execute_route (r : route) (db_type : string) (alembic_config : config) (rev : string) : prog bool :=
  match r with
  | Independent s =>
      _ ← require_migration_execution_allowed (mutation_context self) alembic_config rev;
      requirements ← Done (_get_env_requirements db_type);
      url ← Done (pitem "postgres_url" requirements);
      execute_independent_revision s (py_str url) rev
  | Linear s parent =>
      _ ← require_migration_execution_allowed (mutation_context self) alembic_config rev;
      requirements ← Done (_get_env_requirements db_type);
      url ← Done (pitem "postgres_url" requirements);
      execute_linear_revision s (py_str url) rev parent
  | Command => _run_alembic_upgrade alembic_config rev
  end.
Definition pending_of (plan : dict pyval) : Z := match pget "migrations_pending" plan with PInt n => n | _ => 0 end.
Definition execute_target (db_type rev : string) (alembic_config : config) (pending : Z) : prog bool :=
  script_dir ← _load_script_directory db_type;
  target ← Done (match script_dir with Some c => get_revision c rev | None => Ok None end);
  current ← _get_current_revisions db_type;
  execute_route (choose_route target pending current) db_type alembic_config rev.

Definition failed (rev error : string) : dict pyval :=
  [("status", PStr "failed"); ("target_revision", PStr rev); ("migrations_applied", PInt 0); ("error", PStr error)].
Definition completed (rev : string) (plan : dict pyval) : dict pyval :=
  [("status", PStr "completed"); ("target_revision", PStr rev); ("migrations_applied", PInt (pending_of plan));
   ("revisions", pget "revisions" plan)].
Definition validate_target (db_type : string) : prog (option (dict pyval)) :=
  ptry (requirements ← Done (_get_env_requirements db_type);
        results ← validate_environment db_type requirements;
        mret (if bool_decide (failed_checks results = []) then None else Some (validation_failed results)))
    (fun e => mret (Some [("status", PStr "validation_failed"); ("failed_checks", PList [PStr "environment_requirements"]);
                          ("validation_results", PDict []); ("error", PStr (exn_text e))])).
Definition apply_revision (db_type rev : string) : prog (dict pyval) :=
  plan ← plan_revision db_type rev;
  if negb (bool_decide (status_of plan = "success")) then mret plan
  else
  invalid ← validate_target db_type;
  match invalid, dget db_type (alembic_configs self) with
  | Some d, _ => mret d
  | None, None => Done (Raise (KeyError db_type))
  | None, Some alembic_config =>
      ptry (done ← execute_target db_type rev alembic_config (pending_of plan);
            mret (if done : bool then completed rev plan else failed rev "Alembic targeted upgrade failed"))
        (fun e => mret (failed rev (exn_text e)))
  end.

Definition apply_vector_revision_after_core_ready (rev : string) (dry : bool) : prog (dict pyval) :=
  if symbolic rev then mret (bad_status "invalid_revision" "An exact vector revision ID is required.")
  else
  core_scripts ← _load_script_directory "postgres";
  match core_scripts with
  | None => mret (bad_status "core_catalog_unavailable" "Core migration catalog is unavailable.")
  | Some c =>
      core_current ← _get_current_revisions "postgres";
      core_applied ← _get_applied_revisions "postgres" core_current;
      let missing_core_heads := py_sorted (minus (get_heads c) core_applied) in
      if negb (bool_decide (missing_core_heads = []))
      then mret [("status", PStr "core_not_ready"); ("missing_core_heads", texts missing_core_heads)]
      else
      result ← (if dry then plan_revision "vector" rev else apply_revision "vector" rev);
      mret (dupdate result [("core_heads_verified", texts (py_sorted (get_heads c)))])
  end.

Definition status (db_type : string) (dependency_resolver : resolver) : prog (dict pyval * resolver) :=
  current ← _get_current_revisions db_type;
  plan ← dry_run db_type dependency_resolver;
  let '(plan_result, dependency_resolver) := plan : dict pyval * resolver in
  mret ([("db_type", PStr db_type); ("current_revision", _format_current_revisions current);
         ("current_revisions", texts (py_sorted current));
         ("pending_migrations", PInt (match pget "migrations" plan_result with PList l => Z.of_nat (length l) | _ => 0 end));
         ("migration_plan", PDict plan_result)], dependency_resolver).

(** ** The commands (cli.py) *)

Definition plan_dict (p : MigrationHeadNormalizationPlan) : dict pyval :=
  [("status", PStr (match pl_status p with clean => "clean" | ready => "ready" | blocked_unresolved => "blocked_unresolved" end));
   ("current_revisions", texts (current_revisions p)); ("redundant_revisions", texts (redundant_revisions p));
   ("retained_revisions", texts (retained_revisions p)); ("unresolved_revisions", texts (unresolved_revisions p))].
Definition SystemExit (msg : string) : exn := OtherError "SystemExit" msg.
Definition normalize_heads_command (db_type : string) (apply : bool) : prog (dict pyval) :=
  if negb (bool_decide (db_type = "postgres")) then Done (Raise (SystemExit "Only PostgreSQL head normalization is supported"))
  else
  script_directory ← _load_script_directory db_type;
  match script_directory with
  | None => Done (Raise (SystemExit "Runtime migration catalog is unavailable"))
  | Some c =>
      url ← Done (session_url self "postgres");
      current ← _get_current_revisions db_type;
      let plan := plan_redundant_heads c current in
      if bool_decide (pl_status plan = blocked_unresolved) then Done (Raise (SystemExit "2"))
      else if negb apply || bool_decide (pl_status plan = clean) then mret (plan_dict plan)
      else result ← apply_plan c url plan; mret (plan_dict result)
  end.
Definition apply_command (db_type : string) (dry : bool) (rev : option string) : prog (dict pyval) :=
  let target := default "" rev in
  if dry && negb (bool_decide (target = "")) then
    (if bool_decide (db_type = "vector") then apply_vector_revision_after_core_ready target true else plan_revision db_type target)
  else if dry then r ← dry_run db_type new_resolver; mret r.1
  else if negb (bool_decide (target = "")) then
    (if bool_decide (db_type = "vector") then apply_vector_revision_after_core_ready target false else apply_revision db_type target)
  else r ← apply db_type false new_resolver; mret r.1.
Definition _result_exit_code (result : dict pyval) : Z :=
  if bool_decide (result = []) then 2
  else
  let status := match pget "status" result, pget "migration_plan" result with
                | PNone, PDict plan => status_of plan
                | _, _ => status_of result
                end in
  if member status ["success"; "completed"; "up_to_date"; "no_migrations"] then 0 else 2.
End orchestrator.
