(* ===== verification/MigrationLogic.v ===== *)
(** A logic for programs that run among others, and the writers of
    alembic_version in it.  [covered] is what the rows stand for; [later] is how
    the site may change and [sound] what is true of it throughout; [safe p Q w]
    says that [p], started at [w] or later, keeps to both whatever happens in
    between and answers with [Q].  Every writer does: the rows never cover less,
    what they cover has been run, and a revision is run when it is its turn. *)
From stdpp Require Import gmap sorting.
From S2P Require Import Prelude PyDict PyStr PyVal PyJson PyTime KnowledgeContracts IncidentModels IncidentJournal IncidentGate IncidentRuns IncidentFacts IncidentAdmission MigrationGraph MigrationCatalog MigrationExecutors.

(** [needs r x]: the script of [r] names [x] as a down revision or a
    dependency. *)
Definition covered (needs : string -> string -> Prop) (vs : list string) (x : string) : Prop :=
  exists v, v ∈ vs /\ rtc needs v x.

(** What Alembic promises of a catalog it has loaded. *)
Record catalog_ok (needs : string -> string -> Prop) (c : script_directory) : Prop := {
  co_yields : forall r x, x ∈ yields (iterate_revisions c r) -> rtc needs r x /\ x <> "";
  co_complete : forall r l x, list_of (iterate_revisions c r) = Ok l -> rtc needs r x -> x ∈ l;
  co_order : forall r l, list_of (iterate_revisions c r) = Ok l ->
    NoDup l /\ forall l1 x l2 y, l = l1 ++ x :: l2 -> tc needs x y -> y ∈ l2;
  co_script : forall q s, get_revision c q = Ok (Some s) ->
    match down_revision s with Base => True | Parent p => needs (revision s) p | Merge ps => forall p, p ∈ ps -> needs (revision s) p end;
}.

(** What a transaction of an upgrade command does to the rows: it runs
    revisions whose needs are covered, each of which takes the place of rows it
    is above. *)
Inductive upgrades (needs : string -> string -> Prop) : list string -> list string -> list string -> Prop :=
| upgrades_none vs : upgrades needs vs [] vs
| upgrades_one vs r vs1 rs vs' : (forall x, tc needs r x -> covered needs vs x) ->
    r ∈ vs1 -> (forall v, v ∈ vs1 -> v = r \/ v ∈ vs) -> (forall v, v ∈ vs -> v ∈ vs1 \/ tc needs r v) ->
    upgrades needs vs1 rs vs' -> upgrades needs vs (r :: rs) vs'.
Definition wanted (needs : string -> string -> Prop) (c : script_directory) (target r : string) : Prop :=
  if bool_decide (target = "heads") then exists h, h ∈ get_heads c /\ rtc needs h r else rtc needs target r.
(** The transactions of an upgrade: each runs wanted revisions only, on whatever
    rows cover what was covered when the one before it had committed, and once
    the last has committed everything wanted is covered. *)
Fixpoint batches_ok (needs : string -> string -> Prop) (c : script_directory) (target : string) (vs : list string) (ts : list batch) : Prop :=
  match ts with
  | [] => forall r, wanted needs c target r -> covered needs vs r
  | t :: ts => forall vs1 rs vs2, (forall x, covered needs vs x -> covered needs vs1 x) -> t vs1 = Some (rs, vs2) ->
      upgrades needs vs1 rs vs2 /\ (forall r, r ∈ rs -> wanted needs c target r) /\ batches_ok needs c target vs2 ts
  end.
Record alembic_ok `{AlembicPlatform} (needs : string -> string -> Prop) : Prop := {
  ao_acyclic : forall r, ~ tc needs r r;
  ao_command : forall c target vs, catalog_ok needs c -> batches_ok needs c target vs (command_upgrade c target vs);
}.

Section logic.
Context `{IsoReader, AlembicPlatform}.
Variables (needs : string -> string -> Prop) (w0 : site).
Notation covered := (covered needs).

Record later (w w' : site) : Prop := {
  lt_log : st_log w `prefix_of` st_log w';
  lt_rows : forall url x, covered (rows w url) x -> covered (rows w' url) x;
}.
#[export] Instance later_preorder : PreOrder later.
Proof.
  split; [by split|]. intros w1 w2 w3 [L1 R1] [L2 R2]. split; [by etrans|]. auto.
Qed.

(** An admission the journal then justified. *)
Definition admission_ok (operation : string) (context : dict string) (now : Z) (d : disk) : Prop :=
  exists h, history h d /\ forall r, current_of d = Some r -> in_state r <> CLOSED ->
    authorised h r (operation_key (operation_name operation) context []) now.
(** [target] stands for [r]. *)
Definition stands_for (target r : string) : Prop := target = "heads" \/ rtc needs target r.
Definition in_turn (url r : string) (before : list entry) : Prop :=
  (forall x, tc needs r x -> covered (rows w0 url) x \/ Upgraded url x ∈ before)
  /\ exists c target context now d, Cleared (upgrade_operation c target) context now d ∈ before /\ stands_for target r.

Record sound (w : site) : Prop := {
  so_run : forall url x, covered (rows w url) x -> covered (rows w0 url) x \/ Upgraded url x ∈ st_log w;
  so_turn : forall l1 url r l2, st_log w = l1 ++ Upgraded url r :: l2 -> in_turn url r l1;
  so_journal : exists h, history h (st_journal w);
  so_admitted : forall operation context now d, Cleared operation context now d ∈ st_log w -> admission_ok operation context now d;
}.

Fixpoint safe {A} (p : prog A) (Q : A -> site -> Prop) (w : site) : Prop :=
  match p with
  | Done (Ok a) => Q a w
  | Done (Raise _) => True
  | Act f => forall w1, later w w1 -> sound w1 -> forall o pid,
      match f o pid w1 with Some (q, w2) => later w1 w2 /\ sound w2 /\ safe q Q w2 | None => True end
  end.

Definition stable {A} (Q : A -> site -> Prop) : Prop := forall a w w', later w w' -> Q a w -> Q a w'.

Lemma safe_later {A} (p : prog A) Q w w' : stable Q -> later w w' -> safe p Q w -> safe p Q w'.
Proof.
  intros HQ Hl. destruct p as [[a|e]|f]; simpl; [by apply HQ|done|]. intros Hp w1 Hl1. apply Hp. by etrans.
Qed.
Lemma safe_weaken {A} (p : prog A) (Q Q' : A -> site -> Prop) w :
  (forall a w', later w w' -> Q a w' -> Q' a w') -> safe p Q w -> safe p Q' w.
Proof.
  revert w. induction p as [[a|e]|f IH] using prog_nested_ind; intros w HQ; simpl; [by apply HQ|done|].
  intros Hp w1 Hl1 Hs o pid. specialize (Hp w1 Hl1 Hs o pid). destruct (f o pid w1) as [[q w2]|] eqn:E; [|done].
  destruct Hp as (Hl2 & Hs2 & Hk). do 2 (split; [done|]).
  apply (IH _ _ _ _ _ E); [|done]. intros a w' Hl'. apply HQ. by do 2 (etrans; [done|]).
Qed.
Lemma safe_bind {A B} (p : prog A) (f : A -> prog B) Q w :
  safe p (fun a w => safe (f a) Q w) w -> safe (p ≫= f) Q w.
Proof.
  revert w. induction p as [[a|e]|g IH] using prog_nested_ind; intros w; [done..|]. simpl. intros Hp w1 Hl1 Hs o pid.
  specialize (Hp w1 Hl1 Hs o pid). destruct (g o pid w1) as [[q w2]|] eqn:E; [|done].
  destruct Hp as (? & ? & Hk). do 2 (split; [done|]). by apply (IH _ _ _ _ _ E).
Qed.
(** The program goes on at a later site. *)
Lemma safe_then {A B} (p : prog A) (f : A -> prog B) P Q w :
  safe p P w -> (forall a w', later w w' -> P a w' -> safe (f a) Q w') -> safe (p ≫= f) Q w.
Proof. intros Hp Hf. apply safe_bind. by eapply safe_weaken. Qed.
Lemma safe_try {A} (p : prog A) h Q w : safe p Q w -> (forall e w', later w w' -> safe (h e) Q w') -> safe (ptry p h) Q w.
Proof.
  revert w. induction p as [[a|e]|g IH] using prog_nested_ind; intros w Hp Hh; [done|by apply Hh|]. simpl. intros w1 Hl1 Hs o pid.
  specialize (Hp w1 Hl1 Hs o pid). destruct (g o pid w1) as [[q w2]|] eqn:E; [|done].
  destruct Hp as (Hl2 & ? & Hk). do 2 (split; [done|]). apply (IH _ _ _ _ _ E); [done|].
  intros e w' Hl'. apply Hh. by do 2 (etrans; [done|]).
Qed.
Lemma safe_finally {A} (p : prog A) q Q w : stable Q ->
  safe p Q w -> (forall w', later w w' -> safe q (fun _ _ => True) w') -> safe (pfinally p q) Q w.
Proof.
  intros HQ. revert w. induction p as [r|g IH] using prog_nested_ind; intros w Hp Hq.
  - change (safe (q ≫= fun _ => Done r) Q w). eapply safe_then; [by apply Hq|]. intros _ w' Hl _. by apply (safe_later (Done r) Q w).
  - simpl. intros w1 Hl1 Hs o pid. specialize (Hp w1 Hl1 Hs o pid). destruct (g o pid w1) as [[p w2]|] eqn:E; [|done].
    destruct Hp as (Hl2 & ? & Hk). do 2 (split; [done|]).
    apply (IH _ _ _ _ _ E); [done|]. intros w' Hl'. apply Hq. by do 2 (etrans; [done|]).
Qed.
Lemma safe_res {A B} (r : res A) (f : A -> prog B) Q w : (forall a, r = Ok a -> safe (f a) Q w) -> safe (Done r ≫= f) Q w.
Proof. intros Hf. destruct r; [by apply Hf|done]. Qed.

(** ** Accesses *)

Lemma safe_access {A} (f : oracle -> nat -> site -> option (res A * site)) Q w :
  (forall w1, later w w1 -> sound w1 -> forall o pid r w2, f o pid w1 = Some (r, w2) ->
     later w1 w2 /\ sound w2 /\ forall a, r = Ok a -> Q a w2) -> safe (one_access f) Q w.
Proof.
  intros Hf w1 Hl Hs o pid. destruct (f o pid w1) as [[r w2]|] eqn:E; [|done].
  destruct (Hf w1 Hl Hs o pid r w2 E) as (? & ? & HQ). do 2 (split; [done|]). destruct r; [by apply HQ|done].
Qed.
Lemma safe_peek {A} (f : oracle -> site -> A) (Q : A -> site -> Prop) w :
  (forall o w1, later w w1 -> sound w1 -> Q (f o w1) w1) -> safe (peek f) Q w.
Proof.
  intros Hf. apply safe_access. intros w1 Hl Hs o pid r w2 E. injection E as <- <-. do 2 (split; [done|]).
  intros a [= <-]. by apply Hf.
Qed.

(** A transaction keeps the site sound when its body, if it returns, does. *)
Definition leaves {A} (Q : A -> site -> Prop) (w : site) (r : res A * site) : Prop :=
  match r with (Ok a, w') => later w w' /\ sound w' /\ Q a w' | (Raise _, _) => True end.
Lemma run_access_ok {A} (body : stres site A) (Q : A -> site -> Prop) o w r w' : sound w -> leaves Q w (body w) ->
  run_access body o w = (r, w') -> later w w' /\ sound w' /\ forall a, r = Ok a -> Q a w'.
Proof.
  intros Hs Hb E. unfold run_access, transaction in E.
  destruct (body w) as [[a|e] w1], (o_access o); injection E as <- <-; simpl in *; naive_solver.
Qed.
Lemma safe_txn {A} (body : stres site A) (Q : A -> site -> Prop) w :
  (forall w1, later w w1 -> sound w1 -> leaves Q w1 (body w1)) -> safe (txn body) Q w.
Proof.
  intros Hb. apply safe_access. intros w1 Hl Hs o pid r w2 E. injection E as E. by eapply run_access_ok; [|apply Hb|].
Qed.

Lemma later_same w w' : st_log w' = st_log w -> (forall url, rows w' url = rows w url) -> later w w'.
Proof. intros El Er. split; [by rewrite El|]. intros url x. by rewrite Er. Qed.
Lemma sound_same w w' : st_log w' = st_log w -> (forall url, rows w' url = rows w url) ->
  (exists h, history h (st_journal w')) -> sound w -> sound w'.
Proof.
  intros El Er Hj [Hr Ht _ Ha]. split; [|by rewrite El|done|by rewrite El]. intros url x. rewrite Er, El. apply Hr.
Qed.
Lemma sound_locks w l : sound w -> sound (with_locks l w).
Proof. intros Hs. by apply (sound_same w); [..|apply Hs|]. Qed.

Lemma safe_lock url key Q w : (forall w', later w w' -> Q tt w') -> safe (lock url key) Q w.
Proof.
  intros HQ. apply safe_access. intros w1 Hl Hs o pid x w2 E. destruct (o_access o); [|injection E as <- <-; done..].
  destruct (existsb _ _); [done|]. injection E as <- <-. split; [by apply later_same|]. split; [by apply sound_locks|].
  intros [] _. apply HQ. etrans; [done|]. by apply later_same.
Qed.
Lemma safe_unlock url key w : safe (unlock url key) (fun _ _ => True) w.
Proof.
  apply safe_access. intros w1 Hl Hs o pid x w2 E. injection E as <- <-. split; [by apply later_same|]. split; [by apply sound_locks|].
  done.
Qed.

Lemma snoc_split {A} (l l1 l2 : list A) (x y : A) : l ++ [x] = l1 ++ y :: l2 -> (l1 = l /\ y = x) \/ exists l2', l = l1 ++ y :: l2'.
Proof.
  intros E. destruct (app_eq_app _ _ _ _ E) as ([|z k] & [[-> Ek]|[-> Ek]]); simpl in Ek.
  - injection Ek as -> _. left. by rewrite app_nil_r.
  - injection Ek as -> _. left. by rewrite app_nil_r.
  - injection Ek as -> _. right. eauto.
  - injection Ek as _ Ek. by destruct k.
Qed.
Lemma turn_snoc l e : (forall l1 url r l2, l = l1 ++ Upgraded url r :: l2 -> in_turn url r l1) ->
  (forall url r, e = Upgraded url r -> in_turn url r l) ->
  forall l1 url r l2, l ++ [e] = l1 ++ Upgraded url r :: l2 -> in_turn url r l1.
Proof. intros Hl He l1 url r l2 E. apply snoc_split in E as [[-> Ee]|(l2' & ->)]; [by apply He|by eapply Hl]. Qed.

(** The gate: an admission is noted and justified. *)
Lemma safe_gate context operation Q w :
  (forall d w', later w w' -> (exists now j, Cleared operation context now j ∈ st_log w') -> Q d w') ->
  safe (gate context operation) Q w.
Proof.
  intros HQ. apply safe_access. intros w1 Hl Hs o pid x w2 E. destruct (so_journal _ Hs) as (h & Hh).
  unfold require_allowed in E.
  destruct (evaluate_answers h (mkWorld (st_journal w1) (o_faults o)) operation context [] (o_now o)) as (d & jw & Ed & Hd & Ha & _);
    [by apply history_ok|].
  rewrite (st_bind_eq _ _ _ _ _ Ed) in E. cbn [w_disk] in Hd, Ha. destruct (md_allowed d) eqn:Hal; cbn in E; injection E as <- <-; rewrite Hd.
  - assert (later w1 (note [Cleared operation context (o_now o) (st_journal w1)] (with_journal (st_journal w1) w1))) as Hn.
    { split; [by eexists|]. done. }
    split; [done|]. split.
    + destruct Hs as [Hr Ht Hj Had]. split; simpl.
      * intros url y Hy. destruct (Hr url y Hy); [by left|]. right. apply list.elem_of_app. by left.
      * apply turn_snoc; [done|]. intros url r [=].
      * done.
      * intros op ctx now j [Hin|Hin%list_elem_of_singleton]%list.elem_of_app; [by apply Had|]. injection Hin as -> -> -> ->.
        exists h. split; [done|]. intros r Hr' Hcl. by apply Ha.
    + intros a [= <-]. apply HQ; [by etrans|]. exists (o_now o), (st_journal w1). apply list.elem_of_app. right. by left.
  - split; [by apply later_same|]. split; [|done]. apply (sound_same w1); [done|done|by exists h|done].
Qed.
End logic.

Section coverage.
Context `{IsoReader, AlembicPlatform}.
Variables (needs : string -> string -> Prop) (w0 : site).
Hypothesis alembic : alembic_ok needs.
Notation covered := (covered needs).
Notation later := (later needs).
Notation sound := (sound needs w0).
Notation safe := (safe needs w0).

(** ** Rows *)

Lemma covered_row vs v : v ∈ vs -> covered vs v.
Proof. intros Hv. exists v. split; [done|apply rtc_refl]. Qed.
Lemma covered_below vs r x : covered vs r -> rtc needs r x -> covered vs x.
Proof. intros (v & Hv & Hr) Hx. exists v. split; [done|by etrans]. Qed.
Lemma cover_grows vs vs' r x : r ∈ vs' -> (forall v, v ∈ vs -> v ∈ vs' \/ tc needs r v) -> covered vs x -> covered vs' x.
Proof.
  intros Hr Hv (v & Hin & Hx). destruct (Hv v Hin) as [?|Ht]; [by exists v|]. exists r. split; [done|].
  etrans; [|exact Hx]. by apply tc_rtc.
Qed.
Lemma cover_within vs vs' r x : (forall v, v ∈ vs' -> v = r \/ v ∈ vs) -> (forall x, tc needs r x -> covered vs x) ->
  covered vs' x -> x = r \/ covered vs x.
Proof.
  intros Hv Hr (v & Hin & Hx). destruct (Hv v Hin) as [->|?]; [|right; by exists v].
  apply rtc_tc in Hx as [->|Hx]; [by left|right; by apply Hr].
Qed.

Lemma rows_set_rows url l w url' : rows (set_rows url l w) url' = if bool_decide (url' = url) then l else rows w url'.
Proof.
  unfold rows, set_rows. simpl. destruct (bool_decide (url' = url)) eqn:E; bool_prop; [subst; by rewrite lookup_insert_eq|].
  by rewrite lookup_insert_ne by congruence.
Qed.

(** ** Steps of the site *)

Definition has_turn (url r : string) (w : site) : Prop :=
  (forall x, tc needs r x -> covered (rows w url) x)
  /\ exists c target context now d, Cleared (upgrade_operation c target) context now d ∈ st_log w /\ stands_for needs target r.
Lemma has_turn_later url r w w' : later w w' -> has_turn url r w -> has_turn url r w'.
Proof.
  intros [[l Hl] Hr] (Hx & c & t & ctx & now & d & Ha & Ht). split; [auto|]. exists c, t, ctx, now, d. split; [|done].
  rewrite Hl. apply list.elem_of_app. by left.
Qed.

Lemma commit_upgrade url r w : sound w -> has_turn url r w ->
  sound (note [Upgraded url r] w) /\ later w (note [Upgraded url r] w).
Proof.
  intros [Hr Ht Hj Ha] [Hx Hadm]. split.
  - split; simpl.
    + intros u x Hu. destruct (Hr u x Hu); [by left|]. right. apply list.elem_of_app. by left.
    + apply (turn_snoc needs w0 _ (Upgraded url r)); [done|]. intros u s [= <- <-]. split; [|done].
      intros x Hs. by apply Hr, Hx.
    + done.
    + intros op ctx now d [?|Hin%list_elem_of_singleton]%list.elem_of_app; [by apply Ha|done].
  - split; [by eexists|done].
Qed.

Definition replaces (r : string) (vs vs' : list string) : Prop :=
  r ∈ vs' /\ (forall v, v ∈ vs' -> v = r \/ v ∈ vs) /\ (forall v, v ∈ vs -> v ∈ vs' \/ tc needs r v).
Lemma record_revision url r vs w : sound w -> Upgraded url r ∈ st_log w -> (forall x, tc needs r x -> covered (rows w url) x) ->
  replaces r (rows w url) vs -> sound (set_rows url vs w) /\ later w (set_rows url vs w).
Proof.
  intros [Hr Ht Hj Ha] Hup Hx (Hin & Hw & Hg). split; split; try done.
  - intros u x. rewrite rows_set_rows. destruct (bool_decide (u = url)) eqn:E; bool_prop; [|apply Hr]. subst.
    intros [->|Hc]%(cover_within (rows w url) vs r); [right; exact Hup|by apply Hr|done|done].
  - intros u x. rewrite rows_set_rows. destruct (bool_decide (u = url)) eqn:E; bool_prop; [|done]. subst.
    by apply (cover_grows _ _ r).
Qed.
Lemma same_cover url vs w : sound w -> (forall x, covered vs x <-> covered (rows w url) x) ->
  sound (set_rows url vs w) /\ later w (set_rows url vs w).
Proof.
  intros [Hr Ht Hj Ha] Hc. split; split; try done; intros u x; rewrite rows_set_rows;
    (destruct (bool_decide (u = url)) eqn:E; bool_prop; [subst|auto]); rewrite Hc; auto.
Qed.

(** ** The executors *)

Definition has (url r : string) (w : site) : Prop := covered (rows w url) r.
Lemma has_stable url r : stable needs (fun (_ : bool) => has url r).
Proof. intros _ w w' [_ Hr]. apply Hr. Qed.

Lemma independent_leaves url r w : sound w -> has_turn url r w ->
  leaves needs w0 (fun _ : bool => has url r) w (independent_body url r w).
Proof.
  intros Hs Ht. unfold independent_body. rewrite (st_bind_eq _ _ w (rows w url) w) by done.
  destruct (member r (rows w url)) eqn:Em; unfold member in Em; bool_prop.
  { simpl. split; [done|]. split; [done|]. by apply covered_row. }
  destruct (commit_upgrade _ _ _ Hs Ht) as [Hs1 Hl1].
  rewrite (st_bind_eq _ _ w tt (note [Upgraded url r] w)) by done. set (w1 := note [Upgraded url r] w) in *.
  assert (insert_version url r w1 = (Ok tt, set_rows url (rows w url ++ [r]) w1)) as Ei.
  { unfold insert_version, modify_st. change (rows w1 url) with (rows w url). unfold member. by rewrite bool_decide_false. }
  rewrite (st_bind_eq _ _ _ _ _ Ei). set (w2 := set_rows url (rows w url ++ [r]) w1).
  assert (r ∈ rows w2 url) as Hin by (unfold w2; rewrite rows_set_rows, bool_decide_true by done; set_solver).
  rewrite (st_bind_eq _ _ w2 (rows w2 url) w2) by done. unfold member. rewrite bool_decide_true by done. simpl.
  destruct (record_revision url r (rows w url ++ [r]) w1) as [Hs2 Hl2]; [done| |apply Ht| |].
  - unfold w1. simpl. set_solver.
  - change (rows w1 url) with (rows w url). split; [set_solver|]. split; [set_solver|]. intros v Hv. left. set_solver.
  - split; [by etrans|]. split; [done|]. by apply covered_row.
Qed.
Lemma independent_safe s url r w : has_turn url r w ->
  safe (execute_independent_revision s url r) (fun _ => has url r) w.
Proof.
  intros Ht. apply safe_res. intros u _. apply safe_txn. intros w1 Hl Hs. apply independent_leaves; [done|]. by eapply has_turn_later.
Qed.

Lemma precheck_eq url r parent w : linear_precheck url r parent w
  = (if member r (rows w url) then Ok true else if member parent (rows w url) then Ok false else Raise parent_changed, w).
Proof.
  unfold linear_precheck. rewrite (st_bind_eq _ _ w (rows w url) w) by done.
  by destruct (member r (rows w url)), (member parent (rows w url)).
Qed.
Lemma linear_record_leaves url r parent w : sound w -> needs r parent -> Upgraded url r ∈ st_log w -> has_turn url r w ->
  leaves needs w0 (fun _ : bool => has url r) w (linear_record url r parent w).
Proof.
  intros Hs Hp Hup [Hx _]. unfold linear_record. pose proof (precheck_eq url r parent w) as Epre.
  destruct (member r (rows w url)) eqn:Em; unfold member in Em; bool_prop.
  { rewrite (st_bind_eq _ _ _ _ _ Epre). split; [done|]. split; [done|]. by apply covered_row. }
  destruct (member parent (rows w url)) eqn:Epar; [|by rewrite (st_bind_raise _ _ _ _ _ Epre)].
  rewrite (st_bind_eq _ _ _ _ _ Epre). unfold member in Epar. bool_prop.
  set (vs := map (fun v => if bool_decide (v = parent) then r else v) (rows w url)).
  assert (r ∈ vs) as Hin.
  { unfold vs. apply list_elem_of_fmap. exists parent. by rewrite bool_decide_true. }
  destruct (record_revision url r vs w) as [Hs' Hl']; [done|done|done| |].
  { split; [done|]. split.
    - intros v (u & -> & Hu)%list_elem_of_fmap. destruct (bool_decide (u = parent)); auto.
    - intros v Hv. destruct (decide (v = parent)) as [->|Hne]; [right; by apply tc_once|]. left. apply list_elem_of_fmap.
      exists v. by rewrite bool_decide_false. }
  rewrite (st_bind_eq (update_version url r parent) _ w (length (List.filter (fun v => bool_decide (v = parent)) (rows w url)))
             (set_rows url vs w)) by done.
  destruct (Nat.eqb (length _) 1); [|done]. rewrite (st_bind_eq _ _ _ tt (set_rows url vs w)) by done.
  rewrite (st_bind_eq _ _ _ (rows (set_rows url vs w) url) (set_rows url vs w)) by done.
  destruct (member r _ && negb _); [|done]. split; [done|]. split; [done|]. unfold has.
  rewrite rows_set_rows, bool_decide_true by done. by apply covered_row.
Qed.
Lemma linear_steps_safe url r parent w : needs r parent -> has_turn url r w ->
  safe (linear_steps url r parent) (fun _ => has url r) w.
Proof.
  intros Hp Ht. eapply (safe_then _ _ _ _ (fun _ _ => True)); [by apply safe_txn|]. intros _ w1 Hl1 _.
  eapply (safe_then _ _ _ _ (fun (b : bool) w => b = true -> has url r w)).
  { apply safe_txn. intros w2 Hl2 Hs2. rewrite precheck_eq. destruct (member r (rows w2 url)) eqn:Em; unfold member in Em; bool_prop.
    - simpl. split; [done|]. split; [done|]. intros _. by apply covered_row.
    - by destruct (member parent (rows w2 url)). }
  intros b w2 Hl2 Hb. destruct b; [by apply Hb|].
  eapply (safe_then _ _ _ _ (fun _ w => Upgraded url r ∈ st_log w)).
  { apply safe_txn. intros w3 Hl3 Hs3. simpl. destruct (commit_upgrade url r w3) as [? ?]; [done| |].
    - eapply has_turn_later; [|done]. by do 2 (etrans; [done|]).
    - split; [done|]. split; [done|]. set_solver. }
  intros _ w3 Hl3 Hup. apply safe_txn. intros w4 Hl4 Hs4. apply linear_record_leaves; try done.
  - destruct (lt_log _ _ _ Hl4) as (l & ->). apply list.elem_of_app. by left.
  - eapply has_turn_later; [|done]. by do 3 (etrans; [done|]).
Qed.
Lemma linear_checks_ok s r parent u : linear_checks s r parent = Ok u -> revision s = r /\ down_revision s = Parent parent.
Proof.
  unfold linear_checks, check_that. destruct (bool_decide (revision s = r)) eqn:E1; [|done].
  destruct (bool_decide (down_revision s = Parent parent)) eqn:E2; [|done]. by bool_prop.
Qed.
Lemma linear_safe s url r parent w : (down_revision s = Parent parent -> revision s = r -> needs r parent) -> has_turn url r w ->
  safe (execute_linear_revision s url r parent) (fun _ => has url r) w.
Proof.
  intros Hp Ht. apply safe_res. intros u [Er Ed]%linear_checks_ok.
  apply (safe_then _ _ _ _ (fun _ _ => True)); [by apply safe_lock|]. intros _ w1 Hl1 _.
  apply safe_finally; [apply has_stable| |].
  - apply linear_steps_safe; [by apply Hp|]. by eapply has_turn_later.
  - intros w' _. apply safe_unlock.
Qed.

(** ** The upgrade command *)

Definition admitted (target : string) (w : site) : Prop :=
  exists c context now d, Cleared (upgrade_operation c target) context now d ∈ st_log w.
Lemma admitted_later target w w' : later w w' -> admitted target w -> admitted target w'.
Proof.
  intros [[l Hl] _] (c & ctx & now & d & Ha). exists c, ctx, now, d. rewrite Hl. apply list.elem_of_app. by left.
Qed.
Lemma set_rows_note url vs vs' es w :
  set_rows url vs' (set_rows url vs (note es w)) = note es (set_rows url vs' w).
Proof. unfold set_rows, note. simpl. by rewrite insert_insert_eq. Qed.
Lemma note_note es es' w : note es' (note es w) = note (es ++ es') w.
Proof. unfold note. simpl. by rewrite app_assoc. Qed.

Lemma upgrades_sound url target vs rs vs' : upgrades needs vs rs vs' -> forall w, rows w url = vs -> sound w ->
  admitted target w -> (forall r, r ∈ rs -> stands_for needs target r) ->
  sound (note (map (Upgraded url) rs) (set_rows url vs' w)) /\ later w (note (map (Upgraded url) rs) (set_rows url vs' w)).
Proof.
  induction 1 as [vs|vs r vs1 rs vs' Hx Hin Hw Hg Hup IH]; intros w Er Hs Ha Hst.
  - simpl. assert (forall u, rows (note [] (set_rows url vs w)) u = rows w u) as Hr.
    { intros u. change (rows (set_rows url vs w) u = rows w u). rewrite rows_set_rows.
      destruct (bool_decide (u = url)) eqn:E; bool_prop; by subst. }
    split; [|apply later_same; [apply app_nil_r|done]].
    apply (sound_same _ _ w); [apply app_nil_r|done|apply (so_journal _ _ _ Hs)|done].
  - subst vs. assert (has_turn url r w) as Ht.
    { split; [done|]. destruct Ha as (c & ctx & now & d & Ha). exists c, target, ctx, now, d. split; [done|]. apply Hst. by left. }
    destruct (commit_upgrade _ _ _ Hs Ht) as [Hs1 Hl1].
    destruct (record_revision url r vs1 (note [Upgraded url r] w)) as [Hs2 Hl2]; [done| |done|done|].
    { apply list.elem_of_app. right. by left. }
    destruct (IH (set_rows url vs1 (note [Upgraded url r] w))) as [Hs3 Hl3]; [|done| | |].
    + by rewrite rows_set_rows, bool_decide_true.
    + by do 2 (eapply admitted_later; [done|]).
    + intros s Hsin. apply Hst. by right.
    + rewrite set_rows_note, note_note in Hs3, Hl3. split; [done|]. by do 2 (etrans; [done|]).
Qed.
Lemma wanted_stands c target r : wanted needs c target r -> stands_for needs target r.
Proof. unfold wanted, stands_for. destruct (bool_decide (target = "heads")) eqn:E; bool_prop; auto. Qed.
Lemma batch_leaves c target url t ts vs w : batches_ok needs c target vs (t :: ts) -> admitted target w -> sound w ->
  (forall x, covered vs x -> has url x w) ->
  leaves needs w0 (fun _ w' => exists vs', batches_ok needs c target vs' ts /\ forall x, covered vs' x -> has url x w') w (commit_batch url t w).
Proof.
  intros Hts Ha Hs Hvs. unfold commit_batch. destruct (t (rows w url)) as [[rs vs2]|] eqn:Et; [|done].
  destruct (Hts _ _ _ Hvs Et) as (Hup & Hw & Hok).
  destruct (upgrades_sound url target _ _ _ Hup w) as [Hs' Hl']; [done..| |].
  - intros s Hin. by eapply wanted_stands, Hw.
  - split; [done|]. split; [done|]. exists vs2. split; [done|]. intros x Hx. unfold has.
    change (covered (rows (set_rows url vs2 w) url) x). by rewrite rows_set_rows, bool_decide_true.
Qed.
Lemma batches_safe c target url ts : forall vs w, batches_ok needs c target vs ts -> admitted target w ->
  (forall x, covered vs x -> has url x w) ->
  safe (peach (fun t => txn (commit_batch url t)) ts) (fun _ w => forall r, wanted needs c target r -> has url r w) w.
Proof.
  induction ts as [|t ts IH]; intros vs w Hts Ha Hvs; [by intros r Hr; apply Hvs, Hts|].
  eapply safe_then.
  { apply safe_txn. intros w1 Hl Hs. eapply batch_leaves; [done|by eapply admitted_later|done|].
    intros x Hx. eapply lt_rows; [done|]. by apply Hvs. }
  intros a w1 Hl1 (vs' & Hok & Hvs').
  apply (safe_then _ _ _ _ (fun _ w => forall r, wanted needs c target r -> has url r w)).
  - apply (IH vs'); [done|by eapply admitted_later|done].
  - by intros ys w2 _.
Qed.
Lemma command_safe c url target w : catalog_ok needs c -> admitted target w ->
  safe (run_command c url target) (fun _ w => forall r, wanted needs c target r -> has url r w) w.
Proof.
  intros Hc Ha. apply (safe_then _ _ _ _ (fun vs w => forall x, covered vs x -> has url x w)).
  { apply safe_txn. intros w1 _ Hs. split; [done|]. by split. }
  intros vs w1 Hl1 Hvs. apply (safe_then _ _ _ _ (fun _ w => forall r, wanted needs c target r -> has url r w)).
  { apply (batches_safe _ _ _ _ vs); [by apply (ao_command _ alembic)|by eapply admitted_later|done]. }
  intros _ w2 _ Hq. apply safe_peek. intros o w3 Hl3 _ r Hr. eapply lt_rows; [done|]. by apply Hq.
Qed.

(** ** The normalizer *)

Lemma elem_of_py_sorted x l : x ∈ py_sorted l <-> x ∈ l.
Proof. unfold py_sorted, sorted_set. rewrite merge_sort_Permutation. apply elem_of_remove_dups. Qed.
Lemma elem_of_minus x a b : x ∈ minus a b <-> x ∈ a /\ x ∉ b.
Proof.
  unfold minus, member. rewrite !list_elem_of_In, filter_In, negb_true_iff, bool_decide_eq_false, list_elem_of_In. done.
Qed.
Lemma elem_of_List_filter {A} (f : A -> bool) x l : x ∈ List.filter f l <-> x ∈ l /\ f x = true.
Proof. by rewrite !list_elem_of_In, filter_In. Qed.

Lemma elem_of_ancestors c u x : catalog_ok needs c -> x ∈ ancestors_of c u -> rtc needs u x.
Proof. intros Hc [Hx _]%elem_of_List_filter. by apply (co_yields _ _ Hc). Qed.
Lemma ancestors_complete c u x : catalog_ok needs c -> resolves c u = true -> rtc needs u x -> x ∈ ancestors_of c u.
Proof.
  intros Hc Hr Hx. unfold resolves in Hr. apply elem_of_List_filter.
  assert (x ∈ yields (iterate_revisions c u)) as Hin.
  { apply (co_complete _ _ Hc u); [|done]. unfold list_of. by destruct (ends_with _). }
  split; [done|]. unfold nonblank. apply negb_true_iff, bool_decide_eq_false. by apply (co_yields _ _ Hc) in Hin as [_ ?].
Qed.
Lemma is_redundant_iff c current u : catalog_ok needs c -> (forall d, d ∈ current -> resolves c d = true) ->
  is_redundant c current u = true <-> exists d, d ∈ current /\ tc needs d u.
Proof.
  intros Hc Hres. unfold is_redundant. rewrite existsb_elem. split.
  - intros (d & Hd & [Hne Hm]%andb_prop). unfold member in Hm. bool_prop. exists d. split; [done|].
    apply (elem_of_ancestors c) in Hm; [|done]. apply rtc_tc in Hm as [->|]; done.
  - intros (d & Hd & Ht). exists d. split; [done|]. apply andb_true_intro. split.
    + apply negb_true_iff, bool_decide_eq_false. intros ->. by apply (ao_acyclic _ alembic d).
    + apply bool_decide_eq_true, ancestors_complete; [done|by apply Hres|by apply tc_rtc].
Qed.

(** Every row lies at or below one that is not redundant. *)
Lemma retained_above c current v : catalog_ok needs c -> (forall d, d ∈ current -> resolves c d = true) -> v ∈ current ->
  exists u, u ∈ current /\ is_redundant c current u = false /\ rtc needs u v.
Proof.
  intros Hc Hres Hv. set (X := List.filter (fun u => member v (ancestors_of c u)) current).
  assert (forall u, u ∈ X <-> u ∈ current /\ rtc needs u v) as HX.
  { intros u. unfold X. rewrite elem_of_List_filter. unfold member. rewrite bool_decide_eq_true. split.
    - intros [? Hm]. split; [done|]. by eapply elem_of_ancestors.
    - intros [? Ht]. split; [done|]. apply ancestors_complete; auto. }
  destruct (existsb (fun u => negb (is_redundant c current u)) X) eqn:E.
  - apply existsb_elem in E as (u & [Hu Ht]%HX & Hn). bool_prop. by exists u.
  - exfalso. apply (source_or_cycle (tc needs) X v); [by apply HX| |].
    + intros u Hu. assert (is_redundant c current u = true) as Hr.
      { rewrite existsb_none in E. specialize (E u Hu). by apply negb_false_iff in E. }
      apply (is_redundant_iff c current u) in Hr as (d & Hd & Ht); [|done..]. exists d. split; [|done].
      apply HX in Hu as [_ Hu]. apply HX. split; [done|]. etrans; [by apply tc_rtc|done].
    + intros u Hu. apply (ao_acyclic _ alembic u). assert (forall a b, tc (tc needs) a b -> tc needs a b) as Htc; [|by apply Htc].
      intros a b Hab. induction Hab; [done|by etrans].
Qed.

(** What a plan that is ready or clean says. *)
Lemma plan_resolved c rs : pl_status (plan_redundant_heads c rs) <> blocked_unresolved ->
  (forall d, d ∈ rs -> resolves c d = true)
  /\ (forall r, r ∈ redundant_revisions (plan_redundant_heads c rs) <-> r ∈ rs /\ is_redundant c (py_sorted rs) r = true)
  /\ (forall r, r ∈ retained_revisions (plan_redundant_heads c rs) <-> r ∈ rs /\ is_redundant c (py_sorted rs) r = false).
Proof.
  unfold plan_redundant_heads. set (unresolved := List.filter _ _).
  destruct (bool_decide (unresolved = [])) eqn:E; bool_prop; [|done]. intros _. simpl negb. cbv iota.
  split; [|split].
  - intros d Hd. destruct (resolves c d) eqn:Er; [done|]. assert (d ∈ unresolved) as Hu.
    { apply elem_of_List_filter. rewrite elem_of_py_sorted. by rewrite Er. }
    rewrite E in Hu. by inversion Hu.
  - intros r. simpl. rewrite elem_of_py_sorted, elem_of_List_filter, elem_of_py_sorted. done.
  - intros r. simpl. rewrite elem_of_List_filter, elem_of_py_sorted. unfold member.
    rewrite negb_true_iff, bool_decide_eq_false, elem_of_List_filter, elem_of_py_sorted.
    destruct (is_redundant _ _ r); naive_solver.
Qed.
Lemma redundant_cover c rs x : catalog_ok needs c -> pl_status (plan_redundant_heads c rs) <> blocked_unresolved ->
  covered (minus rs (redundant_revisions (plan_redundant_heads c rs))) x <-> covered rs x.
Proof.
  intros Hc Hb. destruct (plan_resolved c rs Hb) as (Hres & Hred & _).
  assert (forall d, d ∈ py_sorted rs -> resolves c d = true) as Hres' by (intros d; rewrite elem_of_py_sorted; apply Hres).
  split; [intros (v & [Hv _]%elem_of_minus & Hx); by exists v|]. intros (v & Hv & Hx).
  destruct (retained_above c (py_sorted rs) v Hc Hres') as (u & Hu & Hn & Hr); [by apply elem_of_py_sorted|].
  rewrite elem_of_py_sorted in Hu. exists u. split; [|by etrans]. apply elem_of_minus. split; [done|].
  intros [_ ?]%Hred. congruence.
Qed.

Lemma select_ordered_elem url w x : x ∈ merge_sort (fun a b => text_le a b) (rows w url) <-> x ∈ rows w url.
Proof. by rewrite merge_sort_Permutation. Qed.

Lemma normalization_result c url expected w w' : normalization_body c url expected w = (Ok tt, w') ->
  plan_redundant_heads c (merge_sort (fun a b => text_le a b) (rows w url)) = expected
  /\ w' = set_rows url (minus (rows w url) (redundant_revisions expected)) w
  /\ merge_sort (fun a b => text_le a b) (rows w' url) = retained_revisions expected.
Proof.
  unfold normalization_body. set (locked := merge_sort (fun a b => text_le a b) (rows w url)).
  rewrite (st_bind_eq (select_ordered url) _ w locked w) by done.
  destruct (bool_decide (plan_redundant_heads c locked = expected)) eqn:E; bool_prop; [|done].
  rewrite (st_bind_eq _ _ w tt w) by done. set (vs := minus (rows w url) (redundant_revisions expected)).
  rewrite (st_bind_eq (delete_versions _ _) _ w (length (List.filter (fun r => member r (redundant_revisions expected)) (rows w url)))
             (set_rows url vs w)) by done.
  destruct (Nat.eqb _ _); [|done]. rewrite (st_bind_eq _ _ _ tt (set_rows url vs w)) by done.
  rewrite (st_bind_eq (select_ordered url) _ _ (merge_sort (fun a b => text_le a b) (rows (set_rows url vs w) url)) (set_rows url vs w)) by done.
  destruct (bool_decide (merge_sort _ _ = _)) eqn:Em; bool_prop; [|done]. intros En. injection En as <-. done.
Qed.
Lemma locked_cover c url expected w x : catalog_ok needs c -> pl_status expected = ready ->
  plan_redundant_heads c (merge_sort (fun a b => text_le a b) (rows w url)) = expected ->
  covered (minus (rows w url) (redundant_revisions expected)) x <-> covered (rows w url) x.
Proof.
  intros Hc Hst E. set (locked := merge_sort (fun a b => text_le a b) (rows w url)) in *.
  pose proof (redundant_cover c locked x Hc) as Hrc. rewrite E, Hst in Hrc. specialize (Hrc ltac:(done)).
  transitivity (covered (minus locked (redundant_revisions expected)) x).
  - split; intros (v & [Hv Hn]%elem_of_minus & Hx); exists v; (split; [|done]); apply elem_of_minus; (split; [|done]);
      by apply select_ordered_elem.
  - rewrite Hrc. split; intros (v & Hv & Hx); exists v; (split; [|done]); by apply select_ordered_elem.
Qed.
Lemma normalization_leaves c url expected w : catalog_ok needs c -> pl_status expected = ready -> sound w ->
  leaves needs w0 (fun _ _ => True) w (normalization_body c url expected w).
Proof.
  intros Hc Hst Hs. destruct (normalization_body c url expected w) as [[[]|e] w'] eqn:E; [|done].
  apply normalization_result in E as (Ee & -> & _).
  destruct (same_cover url (minus (rows w url) (redundant_revisions expected)) w Hs) as [? ?]; [|done].
  intros x. by apply (locked_cover c).
Qed.
Lemma apply_plan_safe c url expected w : catalog_ok needs c -> safe (apply_plan c url expected) (fun _ _ => True) w.
Proof.
  intros Hc. unfold apply_plan. destruct (bool_decide (pl_status expected = ready)) eqn:E; bool_prop; [|done]. simpl negb. cbv iota.
  apply (safe_then _ _ _ _ (fun _ _ => True)); [|by intros]. apply safe_txn. intros w1 Hl Hs.
  by apply normalization_leaves.
Qed.
End coverage.
