(* ===== verification/MigrationRuns.v ===== *)
(** The orchestrator keeps to the logic of [MigrationLogic]: its plans are about
    what is covered, and an upgrade that it calls completed has left its target
    covered.  Then commands running next to each other and to the incident
    journal: a schedule starts them, serves their accesses one at a time, and
    kills them anywhere. *)
From stdpp Require Import gmap sorting.
From S2P Require Import Prelude PyDict PyStr PyVal PyJson PyTime KnowledgeContracts IncidentModels IncidentJournal IncidentGate IncidentRuns IncidentFacts IncidentAdmission MigrationOrder MigrationGraph MigrationCatalog MigrationExecutors MigrationOrchestrator MigrationLogic.

(** The catalogs an orchestrator may load are lawful. *)
Definition catalogs_ok (needs : string -> string -> Prop) (self : orchestrator) : Prop :=
  forall db_type c, scripts_of self db_type = Some c -> catalog_ok needs c.

Section upgrades.
Context `{IsoReader, AlembicPlatform}.
Variables (needs : string -> string -> Prop) (w0 : site) (self : orchestrator).
Hypothesis alembic : alembic_ok needs.
Hypothesis catalogs : catalogs_ok needs self.
Notation covered := (covered needs).
Notation later := (later needs).
Notation safe := (safe needs w0).
Notation stable := (stable needs).

(** [x] is covered in the database of [db_type]. *)
Definition at_db (db_type x : string) (w : site) : Prop := exists url, url_of self db_type = Ok url /\ covered (rows w url) x.
Lemma at_db_later db_type x w w' : later w w' -> at_db db_type x w -> at_db db_type x w'.
Proof. intros [_ Hr] (url & Hu & Hx). exists url. auto. Qed.
Definition all_at (db_type : string) (l : list string) (w : site) : Prop := forall x, x ∈ l -> at_db db_type x w.
Lemma all_at_later db_type l w w' : later w w' -> all_at db_type l w -> all_at db_type l w'.
Proof. intros Hl Ha x Hx. by eapply at_db_later, Ha. Qed.

(** ** Reading *)

Lemma current_safe db_type w : safe (_get_current_revisions self db_type) (fun l w => all_at db_type l w) w.
Proof.
  unfold _get_current_revisions. destruct (url_of self db_type) as [url|e] eqn:Eu; [|by intros x Hx; inversion Hx].
  apply safe_peek. intros o w1 _ _ x Hx. destruct (o_access o); [|by inversion Hx..].
  rewrite merge_sort_Permutation in Hx. exists url. split; [done|]. by apply covered_row.
Qed.
Lemma load_safe db_type w : safe (_load_script_directory self db_type) (fun oc _ => forall c, oc = Some c -> scripts_of self db_type = Some c) w.
Proof.
  unfold _load_script_directory. destruct (dget db_type (alembic_configs self)); [|done].
  apply safe_peek. intros o w1 _ _ sd. by destruct (o_access o).
Qed.
Lemma known_safe db_type w : safe (_get_runtime_known_revisions self db_type) (fun _ _ => True) w.
Proof. eapply safe_then; [apply load_safe|]. done. Qed.

Lemma ancestry_covered c heads db_type w : catalog_ok needs c -> all_at db_type heads w -> all_at db_type (ancestry c heads) w.
Proof.
  intros Hc. unfold ancestry. match goal with |- context [foldl ?f [] heads] => set (g := f) end.
  assert (forall acc, all_at db_type acc w -> all_at db_type heads w -> all_at db_type (foldl g acc heads) w) as Hg;
    [|apply Hg; intros x Hx; inversion Hx].
  induction heads as [|h heads IH]; intros acc Hacc Hh; [done|]. simpl. apply IH; unfold g.
  - assert (at_db db_type h w) as (url & Hu & Hch) by (apply Hh; by left).
    assert (all_at db_type (acc ++ List.filter nonblank (yields (iterate_revisions c h))) w) as Ha.
    { intros x [?|[Hx _]%elem_of_List_filter]%list.elem_of_app; [by apply Hacc|]. exists url. split; [done|].
      eapply covered_below; [done|]. by apply (co_yields _ _ Hc). }
    destruct (ends_with _); [|done]. intros x [?|Hx%list_elem_of_singleton]%list.elem_of_app; [by apply Ha|]. subst. by exists url.
  - intros x Hx. apply Hh. by right.
Qed.
Lemma applied_safe db_type heads w : all_at db_type heads w ->
  safe (_get_applied_revisions self db_type heads) (fun l w => all_at db_type l w) w.
Proof.
  intros Hh. unfold _get_applied_revisions. apply (safe_then _ _ _ _ (fun l w => all_at db_type l w)).
  { destruct (bool_decide (heads = [])); [apply current_safe|done]. }
  intros l w1 Hl Ha. destruct (bool_decide (l = [])); [by intros x Hx; inversion Hx|].
  eapply safe_then; [apply load_safe|]. intros oc w2 Hl2 Hc. simpl. destruct oc as [c|]; [|by eapply all_at_later].
  apply ancestry_covered; [by eapply catalogs, Hc|]. intros x Hx. rewrite elem_of_remove_dups in Hx.
  by eapply at_db_later, Ha.
Qed.
Lemma snapshot_status db_type current known applied : status_of (resolve_runtime_catalog_snapshot db_type current known applied) <> "completed".
Proof. unfold resolve_runtime_catalog_snapshot. by repeat break. Qed.
Lemma snapshot_safe db_type heads w : all_at db_type heads w ->
  safe (_strict_catalog_snapshot self db_type heads) (fun d _ => status_of d <> "completed") w.
Proof.
  intros Hh. eapply safe_then; [apply known_safe|]. intros known w1 Hl _. destruct (_ || _); [apply snapshot_status|].
  eapply safe_then; [apply applied_safe; by eapply all_at_later|]. intros applied w2 _ _. apply snapshot_status.
Qed.
Lemma contract_safe db_type heads w : all_at db_type heads w ->
  safe (_check_host_resource_schema_contract self db_type heads) (fun o _ => forall d, o = Some d -> status_of d = "schema_drift") w.
Proof.
  intros Hh. unfold _check_host_resource_schema_contract. destruct (negb _); [done|].
  eapply safe_then; [by apply applied_safe|]. intros applied w1 _ _. apply safe_peek. intros o w2 _ _ d.
  unfold evaluate_host_resource_schema_contract, schema_drift. repeat break; [done|done|by intros [= <-]..|done].
Qed.
Lemma validate_safe db_type requirements w : safe (validate_environment db_type requirements) (fun _ _ => True) w.
Proof.
  assert (forall A (f : oracle -> site -> A) w, safe (peek f) (fun _ _ => True) w) as Hpeek by (intros; by apply safe_peek).
  unfold validate_environment. destruct (member db_type _); [|destruct (bool_decide (db_type = "sqlite")); [|done]].
  - destruct (bool_decide _); [done|]. eapply safe_then; [apply Hpeek|]. intros connection w1 _ _.
    cbv zeta. match goal with |- context [if bool_decide ?P then _ else _] => destruct (bool_decide P) end; [done|].
    eapply safe_then; [apply Hpeek|]. done.
  - destruct (bool_decide _); [done|]. eapply safe_then; [apply Hpeek|]. done.
Qed.

(** ** Plans *)

Lemma host_catalog_safe db_type w : safe (_dry_run_host_catalog self db_type) (fun d _ => status_of d <> "completed") w.
Proof.
  eapply safe_then; [apply load_safe|]. intros [c|] w1 _ _; [|done]. eapply safe_then; [apply current_safe|]. intros l w2 _ Ha.
  eapply safe_then; [by apply snapshot_safe|]. intros d w3 _ _. destruct (negb _); [|by repeat break].
  simpl. unfold status_of. by rewrite dget_dset_eq.
Qed.
Lemma dry_run_safe db_type rs w : safe (dry_run self db_type rs) (fun r _ => status_of r.1 <> "completed") w.
Proof.
  unfold dry_run. destruct (bool_decide (db_type = "vector")).
  { eapply safe_then; [apply host_catalog_safe|]. done. }
  eapply safe_then; [apply current_safe|]. intros l w1 _ Ha. eapply safe_then; [by apply contract_safe|].
  intros [d|] w2 Hl2 Hd; [simpl; by rewrite (Hd d eq_refl)|].
  eapply safe_then; [apply snapshot_safe; by eapply all_at_later|]. intros d w3 _ Hs.
  destruct (negb _); [done|]. by repeat break.
Qed.

(** What a plan for one revision says: the revision is covered, or it is
    pending and, when alone, all it needs is covered. *)
Definition plan_says (db_type rev : string) (d : dict pyval) (w : site) : Prop :=
  status_of d <> "completed" /\ (status_of d = "up_to_date" -> at_db db_type rev w)
  /\ (status_of d = "success" -> pending_of d = 1 -> forall x, tc needs rev x -> at_db db_type x w).
Lemma plan_says_later db_type rev d w w' : later w w' -> plan_says db_type rev d w -> plan_says db_type rev d w'.
Proof. intros Hl (Hc & Hu & Hs). split; [done|]. split; intros; eapply at_db_later; eauto. Qed.

Lemma alone_in_chain c rev chain applied x : catalog_ok needs c -> list_of (iterate_revisions c rev) = Ok chain ->
  rev ∉ applied -> length (minus chain applied) = 1%nat -> tc needs rev x -> x ∈ applied.
Proof.
  intros Hc Ec Hr Hlen Hx. assert (rev ∈ minus chain applied) as Hin.
  { apply elem_of_minus. split; [|done]. by apply (co_complete _ _ Hc _ _ _ Ec). }
  destruct (decide (x ∈ applied)) as [|Hn]; [done|]. assert (x ∈ minus chain applied) as Hin'.
  { apply elem_of_minus. split; [|done]. apply (co_complete _ _ Hc _ _ _ Ec). by apply tc_rtc. }
  destruct (minus chain applied) as [|a [|]]; try done. apply list_elem_of_singleton in Hin as ->, Hin' as ->.
  by destruct (ao_acyclic _ alembic a).
Qed.
Lemma plan_from_safe c db_type rev w : catalog_ok needs c -> safe (plan_from self c db_type rev) (plan_says db_type rev) w.
Proof.
  intros Hc. unfold plan_from. destruct (get_revision c rev); [|done]. destruct (negb _); [done|].
  eapply safe_then; [apply current_safe|]. intros l w1 _ Ha. eapply safe_then; [by apply contract_safe|].
  intros [d|] w2 Hl2 Hd; [simpl; specialize (Hd d eq_refl); unfold plan_says; by rewrite Hd|].
  eapply safe_then; [apply applied_safe; by eapply all_at_later|]. intros applied w3 Hl3 Hap.
  destruct (member rev applied) eqn:Em; unfold member in Em; bool_prop.
  { simpl. split; [done|]. split; [|done]. intros _. by apply Hap. }
  destruct (list_of (iterate_revisions c rev)) as [chain|e] eqn:Ec; [|done]. simpl. do 2 (split; [done|]). intros _ Hp x Hx.
  apply Hap, (alone_in_chain c rev chain applied x); try done. unfold pending_of in Hp. simpl in Hp. lia.
Qed.
Lemma plan_safe db_type rev w : safe (plan_revision self db_type rev) (plan_says db_type rev) w.
Proof.
  unfold plan_revision. destruct (symbolic rev); [done|]. destruct (dget db_type _); [|done].
  eapply safe_then; [apply load_safe|]. intros [sd|] w1 _ Hc; [|done]. apply plan_from_safe. by eapply catalogs, Hc.
Qed.

(** ** Upgrades *)

Lemma require_safe context c rev w : safe (require_migration_execution_allowed context c rev) (fun _ w => admitted rev w) w.
Proof.
  apply (safe_then _ _ _ _ (fun _ w => admitted rev w)); [|done].
  apply safe_gate. intros d w' _ (now & j & Ha). by exists c, context, now, j.
Qed.

(** Every revision the command is asked for. *)
Definition wanted_at (db_type target : string) (w : site) : Prop :=
  exists c, scripts_of self db_type = Some c /\ forall r, wanted needs c target r -> at_db db_type r w.
Lemma dget_kept {V} (P : string -> V -> bool) k v d : dget k d = Some v -> P k v = true -> k ∈ dkeys (dfilter P d).
Proof.
  intros E HP. induction d as [|[k' v'] d IH]; [done|]. simpl in *. destruct (bool_decide (k = k')) eqn:Ek; bool_prop.
  - injection E as ->. subst. rewrite HP. by left.
  - destruct (P k' v'); [right|]; by apply IH.
Qed.
Lemma run_upgrade_safe cfg target w :
  safe (_run_alembic_upgrade self cfg target)
    (fun b w => b = true -> forall db_type, dget db_type (alembic_configs self) = Some cfg -> wanted_at db_type target w) w.
Proof.
  unfold _run_alembic_upgrade. eapply safe_then; [apply require_safe|]. intros u w1 _ Ha.
  destruct (dkeys _) as [|db [|]] eqn:Ek; [done| |done]. apply safe_try; [|done].
  eapply safe_then; [apply load_safe|]. intros [sd|] w2 Hl2 Hc; [|done]. specialize (Hc sd eq_refl).
  destruct (url_of self db) as [url|] eqn:Eu; [|done].
  eapply safe_then; [apply (command_safe needs w0 alembic); [by eapply catalogs|by eapply admitted_later]|].
  intros stderr w3 _ Hw _ db_type Ed.
  apply (dget_kept (fun _ k => bool_decide (cf_path k = cf_path cfg))) in Ed; [|by apply bool_decide_eq_true].
  rewrite Ek in Ed. apply list_elem_of_singleton in Ed as ->. exists sd. split; [done|]. intros r Hr. exists url.
  split; [done|]. by apply Hw.
Qed.

Lemma postgres_url_of db_type requirements v : _get_env_requirements self db_type = Ok requirements ->
  pitem "postgres_url" requirements = Ok v -> url_of self db_type = Ok (py_str v).
Proof.
  assert (forall a b : dict pyval, Ok a = Ok b -> a = b) as Hok by (intros a b E; congruence).
  unfold _get_env_requirements, url_of. destruct (member db_type ["postgres"; "vector"]).
  - destruct (session_url self db_type) as [url|e]; [|done]. intros <-%Hok E2.
    change (Ok (PStr url) = Ok v) in E2. by injection E2 as <-.
  - destruct (bool_decide (db_type = "sqlite")); intros <-%Hok E2; discriminate E2.
Qed.

(** The executors are called on what the plan has found. *)
Definition planned_needs (db_type rev : string) (pending : Z) (w : site) : Prop :=
  pending = 1 -> forall x, tc needs rev x -> at_db db_type x w.
Lemma route_has_turn db_type rev url w : url_of self db_type = Ok url -> planned_needs db_type rev 1 w -> admitted rev w ->
  has_turn needs url rev w.
Proof.
  intros Eu Hn (c & ctx & now & d & Ha). split.
  - intros x Hx. destruct (Hn eq_refl x Hx) as (url' & Eu' & Hc). congruence.
  - exists c, rev, ctx, now, d. split; [done|]. right. done.
Qed.

Lemma executor_requirements {A} db_type (f : string -> prog A) Q w :
  (forall url, url_of self db_type = Ok url -> safe (f url) Q w) ->
  safe (requirements ← Done (_get_env_requirements self db_type); url ← Done (pitem "postgres_url" requirements); f (py_str url)) Q w.
Proof.
  intros Hf. apply safe_res. intros requirements E1. apply safe_res. intros v E2. apply Hf. by eapply postgres_url_of.
Qed.
Lemma independent_route_safe s db_type cfg rev w : planned_needs db_type rev 1 w ->
  safe (execute_route self (Independent s) db_type cfg rev) (fun b w => b = true -> at_db db_type rev w) w.
Proof.
  intros Hn. eapply safe_then; [apply require_safe|]. intros u w1 Hl1 Ha. apply (executor_requirements db_type (fun url => execute_independent_revision s url rev)).
  intros url Eu.
  eapply safe_weaken; [|apply (independent_safe needs w0 alembic); eapply (route_has_turn db_type); [done| |done]].
  - intros b w' _ Hh _. by exists url.
  - intros _ x Hx. by eapply at_db_later, Hn.
Qed.
Lemma linear_route_safe c q s parent db_type cfg rev w : catalog_ok needs c -> get_revision c q = Ok (Some s) ->
  down_revision s = Parent parent -> planned_needs db_type rev 1 w ->
  safe (execute_route self (Linear s parent) db_type cfg rev) (fun b w => b = true -> at_db db_type rev w) w.
Proof.
  intros Hc Eq Ed Hn. eapply safe_then; [apply require_safe|]. intros u w1 Hl1 Ha. apply (executor_requirements db_type (fun url => execute_linear_revision s url rev parent)).
  intros url Eu.
  eapply safe_weaken; [|apply (linear_safe needs w0 alembic); [|eapply (route_has_turn db_type); [done| |done]]].
  - intros b w' _ Hh _. by exists url.
  - intros _ <-. pose proof (co_script _ _ Hc _ _ Eq) as Hs. by rewrite Ed in Hs.
  - intros _ x Hx. by eapply at_db_later, Hn.
Qed.
Lemma wanted_self c rev : rev <> "heads" -> wanted needs c rev rev.
Proof. intros Hn. unfold wanted. by rewrite bool_decide_false. Qed.

Lemma target_safe db_type rev cfg pending w : rev <> "heads" -> dget db_type (alembic_configs self) = Some cfg ->
  planned_needs db_type rev pending w ->
  safe (execute_target self db_type rev cfg pending) (fun b w => b = true -> at_db db_type rev w) w.
Proof.
  intros Hrev Ecfg Hn. eapply safe_then; [apply load_safe|]. intros oc w1 Hl1 Hc. apply safe_res. intros target Et.
  eapply (safe_then _ _ _ _ (fun _ _ => True)); [eapply safe_weaken; [|apply current_safe]; done|]. intros current w2 Hl2 _.
  assert (planned_needs db_type rev pending w2) as Hn2.
  { intros Hp x Hx. eapply at_db_later; [|by apply Hn]. by etrans. }
  assert (safe (execute_route self Command db_type cfg rev) (fun b w => b = true -> at_db db_type rev w) w2) as Hcmd.
  { eapply safe_weaken; [|apply run_upgrade_safe]. intros b w' _ Hw Hb. destruct (Hw Hb _ Ecfg) as (c & _ & Hall).
    by apply Hall, wanted_self. }
  unfold choose_route. destruct target as [s|]; [|done]. destruct (down_revision s) as [|p|] eqn:Ed; [| |done].
  - destruct (pending =? 1) eqn:Ep; bool_prop; [|done]. subst. by apply independent_route_safe.
  - destruct (member p current && (pending =? 1)) eqn:Ep; [|done]. bool_prop. subst.
    destruct oc as [c|]; [|done]. eapply linear_route_safe; [by eapply catalogs, Hc|done..].
Qed.

(** The answer to a targeted upgrade: completed, or up to date, means covered. *)
Definition answered (db_type rev : string) (d : dict pyval) (w : site) : Prop :=
  status_of d = "completed" \/ status_of d = "up_to_date" -> at_db db_type rev w.
Lemma validate_target_safe db_type w :
  safe (validate_target self db_type) (fun o _ => forall d, o = Some d -> status_of d = "validation_failed") w.
Proof.
  apply safe_try; [|by intros e w' _ d [= <-]]. apply safe_res. intros requirements _.
  eapply safe_then; [apply validate_safe|]. intros results w1 _ _ d. by destruct (bool_decide _); [|intros [= <-]].
Qed.
Lemma apply_revision_safe db_type rev w : rev <> "heads" -> safe (apply_revision self db_type rev) (answered db_type rev) w.
Proof.
  intros Hrev. eapply safe_then; [apply plan_safe|]. intros plan w1 Hl1 Hp. destruct (bool_decide (status_of plan = "success")) eqn:Es; bool_prop.
  - eapply safe_then; [apply validate_target_safe|]. intros [d|] w2 Hl2 Hd.
    { simpl. specialize (Hd d eq_refl). unfold answered. rewrite Hd. by intros [|]. }
    destruct (dget db_type (alembic_configs self)) as [cfg|] eqn:Ec; [|done].
    apply safe_try; [|by intros e w' _ [|]].
    eapply safe_then; [apply target_safe; [done|done|]|].
    + intros Hpe x Hx. eapply at_db_later; [done|]. by apply Hp.
    + intros b w3 _ Hb. destruct b; [|by intros [|]]. intros _. by apply Hb.
  - destruct Hp as (Hc & Hu & _). by intros [?|?%Hu].
Qed.

Lemma status_of_dset k v d : k <> "status" -> status_of (dset k v d) = status_of d.
Proof. intros Hk. unfold status_of. by rewrite dget_dset_ne. Qed.
Lemma vector_safe rev w : safe (apply_vector_revision_after_core_ready self rev false) (answered "vector" rev) w.
Proof.
  unfold apply_vector_revision_after_core_ready. destruct (symbolic rev) eqn:Es; [by intros [|]|].
  eapply safe_then; [apply load_safe|]. intros [c|] w1 _ _; [|by intros [|]].
  eapply safe_then; [apply current_safe|]. intros l w2 _ Ha. eapply safe_then; [by apply applied_safe|]. intros applied w3 _ _.
  destruct (negb _); [by intros [|]|]. eapply safe_then; [apply apply_revision_safe|].
  - intros ->. by vm_compute in Es.
  - intros d w4 _ Hd. simpl. unfold answered. by rewrite status_of_dset.
Qed.
Lemma vector_plan_safe rev w : safe (apply_vector_revision_after_core_ready self rev true) (fun _ _ => True) w.
Proof.
  unfold apply_vector_revision_after_core_ready. destruct (symbolic rev) eqn:Es; [done|].
  eapply safe_then; [apply load_safe|]. intros [c|] w1 _ _; [|done].
  eapply safe_then; [apply current_safe|]. intros l w2 _ Ha. eapply safe_then; [by apply applied_safe|]. intros applied w3 _ _.
  destruct (negb _); [done|]. eapply safe_then; [apply plan_safe|]. done.
Qed.

(** The answer to a general upgrade. *)
Definition answered_heads (db_type : string) (d : dict pyval) (w : site) : Prop :=
  status_of d = "completed" -> wanted_at db_type "heads" w.
Lemma apply_safe db_type rs w : safe (apply self db_type false rs) (fun r w => answered_heads db_type r.1 w) w.
Proof.
  assert (forall d w, status_of d <> "completed" -> answered_heads db_type d w) as Hno by (intros d w' Hd Hc; by destruct Hd).
  apply safe_res. intros requirements _. eapply safe_then; [apply validate_safe|]. intros results w1 _ _.
  destruct (negb _); [by apply Hno|]. eapply safe_then; [apply dry_run_safe|]. intros [plan rs'] w2 _ Hp. cbn [fst] in Hp.
  destruct (negb _); [by apply Hno|]. cbv zeta. match goal with |- context [if bool_decide ?P then _ else _] => destruct (bool_decide P) end; [by apply Hno|].
  destruct (dget db_type (alembic_configs self)) as [cfg|] eqn:Ec; [|done]. apply safe_try; [|by intros e w' _; apply Hno].
  eapply safe_then; [apply run_upgrade_safe|]. intros b w3 _ Hb. destruct b; [|by apply Hno]. intros _. by eapply Hb.
Qed.
Lemma status_safe db_type rs w : safe (status self db_type rs) (fun _ _ => True) w.
Proof.
  eapply safe_then; [apply current_safe|]. intros l w1 _ _. eapply safe_then; [apply dry_run_safe|]. by intros [d rs'].
Qed.
Lemma normalize_safe db_type b w : safe (normalize_heads_command self db_type b) (fun _ _ => True) w.
Proof.
  unfold normalize_heads_command. destruct (negb _); [done|]. eapply safe_then; [apply load_safe|].
  intros [c|] w1 _ Hc; [|done]. apply safe_res. intros url _. eapply safe_then; [apply current_safe|]. intros l w2 _ _.
  destruct (bool_decide _); [done|]. destruct (_ || _); [done|].
  eapply safe_then; [apply (apply_plan_safe needs w0 alembic); by eapply catalogs, Hc|]. done.
Qed.
End upgrades.

Lemma admission_safe `{IsoReader, AlembicPlatform} needs w0 context code cfg pending w :
  safe needs w0 (require_capability_migration_plan_allowed context code cfg pending) (fun _ _ => True) w.
Proof.
  apply safe_try.
  - eapply (safe_then _ _ _ _ (fun _ _ => True)); [by apply safe_gate|done].
  - intros e w1 _. destruct (_ || _); [done|]. eapply (safe_then _ _ _ _ (fun _ _ => True)); [|done].
    generalize (List.filter nonblank (map strip pending)) as rs. intros rs. revert w1.
    induction rs as [|r rs IH]; intros w1; [done|]. eapply (safe_then _ _ _ _ (fun _ _ => True)); [by apply safe_gate|].
    intros d w2 _ _. eapply (safe_then _ _ _ _ (fun _ _ => True)); [apply IH|done].
Qed.

Inductive job : Type :=
| ApplyCommand (self : orchestrator) (db_type : string) (dry : bool) (rev : option string)
| StatusCommand (self : orchestrator) (db_type : string)
| NormalizeHeads (self : orchestrator) (db_type : string) (apply : bool)
| AdmitPlan (context : dict string) (capability_code : string) (c : config) (pending : list string).

Record system : Type := mkSystem { sy_site : site; sy_jobs : list (job * prog (dict pyval)) }.
Inductive event : Type :=
| Starts (j : job)
| Accesses (i : nat) (o : oracle)
| Killed (i : nat)
| Reports (c : call).

Section runs.
Context `{IsoReader, AlembicPlatform}.

Definition program (j : job) : prog (dict pyval) :=
  match j with
  | ApplyCommand self db_type dry rev => apply_command self db_type dry rev
  | StatusCommand self db_type => r ← status self db_type new_resolver; mret r.1
  | NormalizeHeads self db_type apply => normalize_heads_command self db_type apply
  | AdmitPlan context code c pending => _ ← require_capability_migration_plan_allowed context code c pending; mret []
  end.

Definition process_killed : res (dict pyval) := Raise (OtherError "SystemExit" "killed").
Definition run_event (e : event) (s : system) : option system :=
  match e with
  | Starts j => Some (mkSystem (sy_site s) (sy_jobs s ++ [(j, program j)]))
  | Accesses i o =>
      match sy_jobs s !! i with
      | Some (j, Act f) =>
          match f o i (sy_site s) with
          | Some (q, w) => Some (mkSystem w (<[i := (j, q)]> (sy_jobs s)))
          | None => None
          end
      | _ => None
      end
  | Killed i =>
      match sy_jobs s !! i with
      | Some (j, Act _) =>
          Some (mkSystem (with_locks (List.filter (fun h => negb (Nat.eqb h.1 i)) (st_locks (sy_site s))) (sy_site s))
                  (<[i := (j, Done process_killed)]> (sy_jobs s)))
      | _ => None
      end
  | Reports c => Some (mkSystem (with_journal (snd (exec c (st_journal (sy_site s)))) (sy_site s)) (sy_jobs s))
  end.
Fixpoint run_events (es : list event) (s : system) : option system :=
  match es with
  | [] => Some s
  | e :: es => match run_event e s with Some s => run_events es s | None => None end
  end.

Variable (needs : string -> string -> Prop).
Definition job_ok (j : job) : Prop :=
  match j with
  | ApplyCommand self _ _ _ | StatusCommand self _ | NormalizeHeads self _ _ => catalogs_ok needs self
  | AdmitPlan _ _ _ _ => True
  end.
Definition event_ok (e : event) : Prop := match e with Starts j => job_ok j | _ => True end.
Definition sys_step (s s' : system) : Prop := exists e, event_ok e /\ run_event e s = Some s'.

(** Nothing has happened yet. *)
Record initial (w : site) : Prop := { in_log : st_log w = []; in_disk : st_journal w = mkDisk None ∅ }.
Definition reaches (w0 : site) (s : system) : Prop := rtc sys_step (mkSystem w0 []) s.

Lemma run_events_reaches es s s' : Forall event_ok es -> run_events es s = Some s' -> rtc sys_step s s'.
Proof.
  revert s. induction es as [|e es IH]; intros s Hes; [intros Er; injection Er as <-; apply rtc_refl|]. apply Forall_cons in Hes as [He Hes]. simpl.
  destruct (run_event e s) as [s1|] eqn:E; [|done]. intros Hr. eapply rtc_l; [by exists e|]. by apply IH.
Qed.

(** ** The claims of the answers *)

Definition claim (j : job) (d : dict pyval) (w : site) : Prop :=
  match j with
  | ApplyCommand self db_type false (Some rev) =>
      if bool_decide (rev = "") then answered_heads needs self db_type d w else answered needs self db_type rev d w
  | ApplyCommand self db_type false None => answered_heads needs self db_type d w
  | _ => True
  end.
Lemma claim_stable j : stable needs (claim j).
Proof.
  intros d w w' Hl. unfold claim. repeat break; try done.
  - intros Hc Hs. destruct (Hc Hs) as (c & Ec & Hr). exists c. split; [done|]. intros r Hw. by eapply at_db_later, Hr.
  - intros Ha Hs. eapply at_db_later; [done|]. by apply Ha.
  - intros Hc Hs. destruct (Hc Hs) as (c & Ec & Hr). exists c. split; [done|]. intros r Hw. by eapply at_db_later, Hr.
Qed.

Hypothesis alembic : alembic_ok needs.
Variable (w0 : site).
Notation safe := (safe needs w0).

Lemma general_safe self db_type w : catalogs_ok needs self ->
  safe (r ← apply self db_type false new_resolver; mret r.1) (answered_heads needs self db_type) w.
Proof. intros Hc. eapply safe_then; [by apply apply_safe|]. done. Qed.
Lemma targeted_safe self db_type rev w : catalogs_ok needs self -> rev <> "" ->
  safe (apply_command self db_type false (Some rev)) (answered needs self db_type rev) w.
Proof.
  intros Hc Hr. unfold apply_command. cbn [default from_option id andb]. rewrite bool_decide_false by done. cbn [negb].
  destruct (bool_decide (db_type = "vector")) eqn:Ev; bool_prop; [subst; by apply vector_safe|].
  destruct (decide (rev = "heads")) as [->|Hn]; [by intros [|]|by apply apply_revision_safe].
Qed.
Lemma program_safe j w : job_ok j -> safe (program j) (claim j) w.
Proof.
  assert (forall A (p : prog A) Q w, safe p Q w -> safe p (fun _ _ => True) w) as Hweak
    by (intros A p Q w' Hp; by eapply safe_weaken; [|exact Hp]).
  destruct j as [self db dry rev|self db|self db b|]; intros Hj; cbn [program claim].
  - destruct dry.
    + unfold apply_command. cbn [andb]. destruct (negb _); [destruct (bool_decide (db = "vector"))|].
      * by apply vector_plan_safe.
      * eapply Hweak. by apply plan_safe.
      * eapply safe_then; [by apply dry_run_safe|]. done.
    + destruct rev as [rev|]; [destruct (decide (rev = "")) as [->|Hr]|].
      * by apply general_safe.
      * eapply safe_weaken; [|by apply targeted_safe]. intros d w' _ Ha. unfold claim. by rewrite bool_decide_false.
      * by apply general_safe.
  - eapply safe_then; [by apply status_safe|]. done.
  - by apply normalize_safe.
  - eapply safe_then; [apply admission_safe|]. done.
Qed.

(** ** The invariant of the runs *)

Record system_ok (s : system) : Prop := {
  sk_sound : sound needs w0 (sy_site s);
  sk_jobs : Forall (fun jp => safe jp.2 (claim jp.1) (sy_site s)) (sy_jobs s);
}.
Lemma initial_sound : initial w0 -> sound needs w0 w0.
Proof.
  intros [El Ej]. split; [by left| | |].
  - intros l1 url r l2 E. rewrite El in E. by destruct l1.
  - exists []. rewrite Ej. constructor.
  - intros op ctx now d Hin. rewrite El in Hin. by inversion Hin.
Qed.
Lemma jobs_later js w w' : later needs w w' -> Forall (fun jp => safe jp.2 (claim jp.1) w) js ->
  Forall (fun jp : job * prog (dict pyval) => safe jp.2 (claim jp.1) w') js.
Proof. intros Hl Hj. eapply Forall_impl; [exact Hj|]. intros jp. apply safe_later; [apply claim_stable|done]. Qed.
Lemma event_step_ok s s' : system_ok s -> sys_step s s' -> system_ok s' /\ later needs (sy_site s) (sy_site s').
Proof.
  intros [Hs Hj] (e & He & E). destruct e as [j|i o|i|c]; simpl in E.
  - injection E as <-. split; [split|done]; [done|]. apply Forall_app. split; [done|]. apply Forall_singleton. by apply program_safe.
  - destruct (sy_jobs s !! i) as [[j [|f]]|] eqn:Ei; [done| |done].
    pose proof (Forall_lookup_1 _ _ _ _ Hj Ei) as Hp. simpl in Hp.
    specialize (Hp (sy_site s) (reflexivity _) Hs o i). destruct (f o i (sy_site s)) as [[q w]|] eqn:Ef; [|done].
    injection E as <-. simpl. destruct Hp as (Hl & Hs' & Hk). split; [split|done]; [done|].
    apply Forall_insert; [by eapply jobs_later|done].
  - destruct (sy_jobs s !! i) as [[j [|f]]|] eqn:Ei; [done| |done]. injection E as <-.
    assert (later needs (sy_site s) (with_locks (List.filter (fun h => negb (Nat.eqb h.1 i)) (st_locks (sy_site s))) (sy_site s))) as Hl
      by (by apply later_same).
    split; [split|done]; simpl; [by apply sound_locks|]. apply Forall_insert; [by eapply jobs_later|done].
  - injection E as <-. assert (later needs (sy_site s) (with_journal (snd (exec c (st_journal (sy_site s)))) (sy_site s))) as Hl
      by (by apply later_same).
    split; [split|done]; simpl; [|by eapply jobs_later]. apply (sound_same _ _ (sy_site s)); [done|done| |done].
    destruct (so_journal _ _ _ Hs) as (h & Hh). destruct (exec c (st_journal (sy_site s))) as [r d'] eqn:Ee.
    exists ((c, done r) :: h). by eapply history_call.
Qed.
Lemma reaches_ok s : initial w0 -> reaches w0 s -> system_ok s.
Proof.
  intros Hi Hr. assert (system_ok (mkSystem w0 [])) as Hs0 by (split; [by apply initial_sound|constructor]).
  unfold reaches in Hr. revert Hs0. induction Hr as [s|s1 s2 s3 Hst _ IH]; intros Hs; [done|].
  apply IH. by destruct (event_step_ok _ _ Hs Hst).
Qed.
Lemma runs_later s s' : system_ok s -> rtc sys_step s s' -> later needs (sy_site s) (sy_site s').
Proof.
  intros Hs Hr. revert Hs. induction Hr as [s|s s1 s' Hst _ IH]; intros Hs; [done|].
  destruct (event_step_ok _ _ Hs Hst) as [Hs1 Hl]. etrans; [done|by apply IH].
Qed.
End runs.
