(* ===== verification/MigrationSample.v ===== *)
(** A catalog of six revisions, an upgrade command over it that does what
    Alembic promises, and schedules of commands to try the theorems on. *)
From stdpp Require Import gmap sorting.
From S2P Require Import Prelude PyDict PyStr PyVal PyJson PyTime IncidentModels IncidentJournal IncidentGate IncidentRuns IncidentFacts IncidentAdmission IncidentClosure IncidentSample KnowledgeContracts MigrationOrder MigrationCatalog MigrationExecutors MigrationOrchestrator MigrationLogic MigrationRuns.

(** [rev1] and [rev2] follow [a], [m] merges them; [j] follows [i], which is a
    branch of its own. *)
Definition parents (r : string) : list string :=
  default [] (dget r [("rev1", ["a"]); ("rev2", ["a"]); ("m", ["rev1"; "rev2"]); ("j", ["i"])]).
Definition sample_needs (r x : string) : Prop := x ∈ parents r.
Definition table : dict (list string) :=
  [("a", ["a"]); ("rev1", ["rev1"; "a"]); ("rev2", ["rev2"; "a"]); ("m", ["m"; "rev2"; "rev1"; "a"]); ("i", ["i"]); ("j", ["j"; "i"])].
(** A revision and all it needs, the last first. *)
Definition line_of (r : string) : list string := default [r] (dget r table).

(** ** The ancestry is computed *)

Fixpoint closed_under (l : list string) : bool :=
  match l with
  | [] => true
  | x :: l => negb (member x l) && forallb (fun p => member p l) (parents x) && closed_under l
  end.
Lemma closed_tc l l1 x l2 y : closed_under l = true -> l = l1 ++ x :: l2 -> tc sample_needs x y -> y ∈ l2.
Proof.
  intros Hc -> Ht. assert (closed_under (x :: l2) = true) as Hx.
  { revert Hc. induction l1 as [|z l1 IH]; [done|]. simpl. intros Hc. bool_prop. by apply IH. }
  clear Hc l1. revert l2 Hx. induction Ht as [x y Hy|x z y Hz Hzy IH]; intros l2 Hx; simpl in Hx; bool_prop;
    match goal with H : forallb _ _ = true |- _ => rewrite forallb_forall in H; rename H into Hp end.
  - specialize (Hp y (proj1 (list_elem_of_In _ _) Hy)). unfold member in Hp. by bool_prop.
  - specialize (Hp z (proj1 (list_elem_of_In _ _) Hz)). unfold member in Hp. bool_prop.
    apply list_elem_of_split in Hp as (k1 & k2 & ->). apply list.elem_of_app. right. right. apply IH.
    match goal with H : closed_under _ = true |- _ => revert H end. clear. induction k1 as [|u k1 IH]; [done|].
    simpl. intros Hc. bool_prop. by apply IH.
Qed.
Lemma line_closed r : closed_under (line_of r) = true.
Proof.
  unfold line_of. destruct (dget r table) as [l|] eqn:E.
  - simpl in E. repeat case_bool_decide; subst; try done; by injection E as <-.
  - simpl. unfold parents. simpl in *. repeat case_bool_decide; subst; done.
Qed.
Lemma line_head r : exists l, line_of r = r :: l.
Proof.
  unfold line_of. destruct (dget r table) as [l|] eqn:E; [|by exists []]. simpl in E.
  repeat case_bool_decide; subst; try done; injection E as <-; by eexists.
Qed.
Lemma line_in_table r x : x ∈ line_of r -> rtc sample_needs r x.
Proof.
  assert (forall u v, v ∈ parents u -> sample_needs u v) as Hs by done.
  assert (sample_needs "rev1" "a" /\ sample_needs "rev2" "a" /\ sample_needs "m" "rev1" /\ sample_needs "m" "rev2" /\ sample_needs "j" "i")
    as (H1 & H2 & H3 & H4 & H5) by (split_and!; apply Hs; vm_compute; set_solver).
  unfold line_of. destruct (dget r table) as [l|] eqn:E; [|intros ->%list_elem_of_singleton; done].
  change (x ∈ l -> rtc sample_needs r x). simpl in E.
  repeat case_bool_decide; subst; try done; injection E as <-; rewrite !list.elem_of_cons, list.elem_of_nil;
    intros Hx; repeat destruct Hx as [->|Hx]; try done; try apply rtc_refl; try (by apply rtc_once); eapply rtc_l; eauto using rtc_once.
Qed.
Lemma line_complete r x : rtc sample_needs r x -> x ∈ line_of r.
Proof.
  destruct (line_head r) as (l & E). intros [->|Ht]%rtc_tc; rewrite E; [by left|]. right.
  eapply (closed_tc (line_of r) []); [apply line_closed|exact E|done].
Qed.
Lemma line_iff r x : x ∈ line_of r <-> rtc sample_needs r x.
Proof. split; [apply line_in_table|apply line_complete]. Qed.
Lemma sample_acyclic r : ~ tc sample_needs r r.
Proof.
  intros Ht. destruct (line_head r) as (l & E). pose proof (line_closed r) as Hc. rewrite E in Hc.
  pose proof (closed_tc _ [] r l r Hc eq_refl Ht) as Hin. simpl in Hc. bool_prop. unfold member in *. by bool_prop.
Qed.

(** ** The catalog *)

Definition known : list string := dkeys table.
Definition cannot_locate (r : string) : exn := OtherError "CommandError" ("Can't locate revision identified by " +:+ r).
Definition scripts : dict script :=
  [("a", mkScript "a" Base [] true); ("rev1", mkScript "rev1" (Parent "a") [] true); ("rev2", mkScript "rev2" (Parent "a") [] true);
   ("m", mkScript "m" (Merge ["rev1"; "rev2"]) [] true); ("i", mkScript "i" Base ["pack"] true);
   ("j", mkScript "j" (Parent "i") [] true)].
Definition sample_scripts : script_directory := {|
  get_revision r := match dget r scripts with Some s => Ok (Some s) | None => Raise (cannot_locate r) end;
  iterate_revisions r := if member r known then mkGenerator (line_of r) None else mkGenerator [] (Some (cannot_locate r));
  walk_revisions := mkGenerator ["m"; "rev2"; "rev1"; "a"; "j"; "i"] None;
  get_heads := ["m"; "j"];
|}.

Lemma closed_nodup l : closed_under l = true -> NoDup l.
Proof.
  induction l as [|x l IH]; [constructor|]. simpl. intros Hc. bool_prop. constructor; [|by apply IH].
  unfold member in *. by bool_prop.
Qed.
Lemma sample_catalog_ok : catalog_ok sample_needs sample_scripts.
Proof.
  split; simpl.
  - intros r x. destruct (member r known) eqn:Em; [|intros Hx; by inversion Hx]. simpl. intros Hx. split; [by apply line_iff|].
    unfold member in Em. bool_prop. assert (forallb (fun r => forallb nonblank (line_of r)) known = true) as Hn by (vm_compute; reflexivity).
    rewrite forallb_forall in Hn. specialize (Hn r (proj1 (list_elem_of_In _ _) Em)). rewrite forallb_forall in Hn.
    specialize (Hn x (proj1 (list_elem_of_In _ _) Hx)). intros ->. done.
  - intros r l x. destruct (member r known); [|done]. intros [= <-] Hx. by apply line_iff.
  - intros r l. destruct (member r known); [|done]. intros [= <-]. split; [apply closed_nodup, line_closed|].
    intros l1 x l2 y E Ht. eapply closed_tc; [apply line_closed|exact E|exact Ht].
  - intros q s. unfold sample_needs. repeat case_bool_decide; subst; intros E; try discriminate E; injection E as <-;
      try exact I; simpl; [set_solver|set_solver| |set_solver]. intros p Hp. exact Hp.
Qed.

(** ** The upgrade command *)

Definition coveredb (vs : list string) (x : string) : bool := existsb (fun v => member x (line_of v)) vs.
Fixpoint run_line (vs l : list string) : list string * list string :=
  match l with
  | [] => ([], vs)
  | r :: l => if coveredb vs r then run_line vs l
              else let '(rs, vs) := run_line (minus vs (parents r) ++ [r]) l in (r :: rs, vs)
  end.
Fixpoint hash (s : string) : Z := match s with String c r => Z.of_N (code c) + 31 * hash r | EmptyString => 0 end.
Definition targets_of (c : script_directory) (target : string) : list string :=
  if bool_decide (target = "heads") then get_heads c else [target].
Definition upward (ts : list string) : list string := concat (map (fun t => rev (line_of t)) ts).
#[export] Instance sample_platform : AlembicPlatform := {
  hashtext := hash;
  text_le := String.leb;
  command_upgrade c target vs :=
    if forallb (fun t => member t known) (targets_of c target)
    then map (fun r vs => Some (run_line vs [r])) (List.filter (fun r => negb (coveredb vs r)) (upward (targets_of c target)))
    else [fun _ => None];
}.

Lemma coveredb_iff vs x : coveredb vs x = true <-> covered sample_needs vs x.
Proof.
  unfold coveredb. rewrite existsb_elem. split; intros (v & Hv & Hx); exists v; (split; [done|]).
  - apply line_iff. unfold member in Hx. by bool_prop.
  - by apply bool_decide_eq_true, line_iff.
Qed.
Lemma run_line_upgrades vs r rs vs' : run_line vs [r] = (rs, vs') -> (forall x, tc sample_needs r x -> covered sample_needs vs x) ->
  upgrades sample_needs vs rs vs' /\ rs ⊆ [r] /\ covered sample_needs vs' r /\ forall x, covered sample_needs vs x -> covered sample_needs vs' x.
Proof.
  simpl. destruct (coveredb vs r) eqn:Ec.
  - apply coveredb_iff in Ec. intros [= <- <-] _. split; [apply upgrades_none|]. split; [set_solver|]. by split.
  - set (vs2 := minus vs (parents r) ++ [r]). intros [= <- <-] Hup. fold vs2.
    assert (r ∈ vs2) as Hr by (apply list.elem_of_app; right; by left).
    assert (forall v, v ∈ vs -> v ∈ vs2 \/ tc sample_needs r v) as Hg.
    { intros v Hv. destruct (decide (v ∈ parents r)) as [Hp|Hp]; [right; by apply tc_once|left].
      apply list.elem_of_app. left. by apply elem_of_minus. }
    split_and!; [|done|by apply covered_row|intros x; by apply (cover_grows _ _ _ r)].
    apply (upgrades_one _ _ _ vs2); [done..| |done|apply upgrades_none].
    intros v [[? _]%elem_of_minus|Hv%list_elem_of_singleton]%list.elem_of_app; auto.
Qed.
Lemma sample_batches c target l : forall vs, (forall r, r ∈ l -> wanted sample_needs c target r) ->
  (forall l1 r l2 x, l = l1 ++ r :: l2 -> tc sample_needs r x -> x ∈ l1 \/ covered sample_needs vs x) ->
  (forall r, wanted sample_needs c target r -> r ∈ l \/ covered sample_needs vs r) ->
  batches_ok sample_needs c target vs (map (fun r vs => Some (run_line vs [r])) l).
Proof.
  induction l as [|r l IH]; intros vs Hw Hup Hall; [by intros r [Hr|]%Hall; [inversion Hr|]|].
  intros vs1 rs vs2 Hvs [= E]. destruct (run_line_upgrades _ _ _ _ E) as (Hu & Hs & Hr & Hg).
  { intros x Ht. apply Hvs. by destruct (Hup [] r l x eq_refl Ht) as [Hx|]; [inversion Hx|]. }
  split; [done|]. split; [intros y Hy; apply Hw; set_solver|]. apply IH.
  - intros y Hy. apply Hw. by right.
  - intros l1 y l2 x -> Ht. destruct (Hup (r :: l1) y l2 x eq_refl Ht) as [[->|?]%list.elem_of_cons|?]; auto.
  - intros y [[->|?]%list.elem_of_cons|?]%Hall; auto.
Qed.

Definition in_order (l : list string) : Prop := forall l1 r l2 x, l = l1 ++ r :: l2 -> tc sample_needs r x -> x ∈ l1.
Lemma in_order_app l l' : in_order l -> in_order l' -> in_order (l ++ l').
Proof.
  intros Hl Hl' l1 r l2 x E Ht. apply app_eq_inv in E as [(k & -> & Ek)|(k & -> & ->)].
  - destruct k as [|z k]; simpl in Ek.
    + assert (x ∈ @nil string) as Hx; [|by inversion Hx]. eapply (Hl' []); [symmetry; exact Ek|done].
    + injection Ek as -> ->. by eapply Hl.
  - apply list.elem_of_app. right. by eapply Hl'.
Qed.
Lemma filter_in_order (f : string -> bool) l l1 r l2 x : List.filter f l = l1 ++ r :: l2 -> in_order l -> tc sample_needs r x ->
  f x = true -> x ∈ l1.
Proof.
  revert l1. assert (forall k, List.filter f l = k ++ r :: l2 -> exists a b, l = a ++ r :: b /\ List.filter f a = k) as Hsplit.
  { induction l as [|y l IH]; simpl; intros k E; [by destruct k|]. destruct (f y) eqn:Ey.
    - destruct k as [|z k]; simpl in E; injection E as ->; [by exists [], l|]. intros. destruct (IH k) as (a & b & -> & Ea); [done|].
      exists (z :: a), b. simpl. by rewrite Ey, Ea.
    - destruct (IH k E) as (a & b & -> & Ea). exists (y :: a), b. simpl. by rewrite Ey. }
  intros l1 E Ho Ht Hx. destruct (Hsplit l1 E) as (a & b & El & <-). apply elem_of_List_filter. split; [by eapply Ho|done].
Qed.
Lemma in_order_line r : in_order (rev (line_of r)).
Proof.
  intros l1 y l2 x E Ht. assert (line_of r = rev l2 ++ y :: rev l1) as E'.
  { rewrite <- (rev_involutive (line_of r)), E, rev_app_distr. simpl. by rewrite <- app_assoc. }
  pose proof (closed_tc _ _ _ _ _ (line_closed r) E' Ht) as Hx. by rewrite list_elem_of_In, <- in_rev, <- list_elem_of_In in Hx.
Qed.
Lemma in_order_upward ts : in_order (upward ts).
Proof.
  induction ts as [|t ts IH]; [intros [|] r l2 x E; done|]. apply in_order_app; [apply in_order_line|done].
Qed.
Lemma elem_of_upward ts x : x ∈ upward ts <-> exists t, t ∈ ts /\ rtc sample_needs t x.
Proof.
  unfold upward. rewrite list_elem_of_In, in_concat. split.
  - intros (l & Hl & Hx). apply list_elem_of_In, list_elem_of_fmap in Hl as (t & -> & Ht). exists t. split; [done|].
    apply line_iff, list_elem_of_In. by apply in_rev.
  - intros (t & Ht & Hx). exists (rev (line_of t)). split; [by apply list_elem_of_In, (list_elem_of_fmap_2 (fun t => rev (line_of t)))|].
    apply in_rev. rewrite rev_involutive. by apply list_elem_of_In, line_iff.
Qed.
Lemma sample_wanted c target r : wanted sample_needs c target r <-> r ∈ upward (targets_of c target).
Proof.
  rewrite elem_of_upward. unfold wanted, targets_of. destruct (bool_decide (target = "heads")); [done|].
  split; [intros Hr; exists target; split; [by left|done]|intros (t & Ht%list_elem_of_singleton & Hr); by subst].
Qed.
Lemma sample_alembic_ok : alembic_ok sample_needs.
Proof.
  split; [apply sample_acyclic|]. intros c target vs _. simpl. destruct (forallb _ _); [|by intros vs1 rs vs2 _ [=]].
  assert (forall r, r ∈ List.filter (fun r => negb (coveredb vs r)) (upward (targets_of c target))
                    <-> r ∈ upward (targets_of c target) /\ ~ covered sample_needs vs r) as Hf.
  { intros r. rewrite elem_of_List_filter, negb_true_iff, <- coveredb_iff. destruct (coveredb vs r); naive_solver. }
  apply sample_batches.
  - by intros r [Hr _]%Hf; apply sample_wanted.
  - intros l1 r l2 x El Ht. destruct (coveredb vs x) eqn:Ex; [right; by apply coveredb_iff|left].
    eapply filter_in_order; [done|apply in_order_upward|done|]. simpl. by rewrite Ex.
  - intros r Hr. destruct (coveredb vs r) eqn:Er; [right; by apply coveredb_iff|left]. apply Hf. split; [by apply sample_wanted|].
    rewrite <- coveredb_iff. congruence.
Qed.

(** ** Schedules *)

Definition core_url : string := "postgresql://postgres".
Definition served (n : Z) : oracle :=
  mkOracle Served "" (half_hours n) [] (mkProbe (mkSchema [] [] []) true None "") ["vector"] "".
Definition lost (n : Z) : oracle :=
  mkOracle Failed "connection refused" (half_hours n) [] (mkProbe (mkSchema [] [] []) true None "") ["vector"] "".
Definition pack (code : string) (revs : list string) : MigrationMetadata := mkMetadata code "postgres" revs [].
Definition sample_self (packs : list MigrationMetadata) : orchestrator := {|
  alembic_configs := [("postgres", mkConfig "core" "/srv/core.ini"); ("vector", mkConfig "vectors" "/srv/vectors.ini")];
  scripts_of _ := Some sample_scripts;
  scanned := packs;
  session_url db_type := Ok ("postgresql://" +:+ db_type);
  sqlite_path := "/srv/data/mindscape.db";
  mutation_context := [];
  recursion_limit := 900;
|}.
Lemma sample_catalogs packs : catalogs_ok sample_needs (sample_self packs).
Proof. intros db_type c [= <-]. apply sample_catalog_ok. Qed.

Definition holds (vs : list string) : site := mkSite {[core_url := vs]} [] (mkDisk None ∅) [].
Definition begin_at (vs : list string) : system := mkSystem (holds vs) [].
Lemma holds_initial vs : initial (holds vs).
Proof. by split. Qed.
Definition upgrade_to (rev : string) : job := ApplyCommand (sample_self []) "postgres" false (Some rev).
Definition serve (i n : nat) : list event := repeat (Accesses i (served 5)) n.
Definition answers_of (s : system) : list (option string) :=
  map (fun jp => match jp.2 with Done (Ok d) => Some (status_of d) | Done (Raise _) => Some "raised" | Act _ => None end) (sy_jobs s).
Definition runs_of (s : system) : list string :=
  omap (fun e => match e with Upgraded _ r => Some r | _ => None end) (st_log (sy_site s)).
(** What a schedule leaves: the rows, the revisions run, the answers. *)
Definition outcome (vs : list string) (es : list event) : option (list string * list string * list (option string)) :=
  s ← run_events es (begin_at vs); Some (rows (sy_site s) core_url, runs_of s, answers_of s).

(** Two children of one applied revision, upgraded next to each other: both
    are run, one is recorded; asked for again, the other is run again. *)
Definition siblings : list event :=
  [Starts (upgrade_to "rev1"); Starts (upgrade_to "rev2")] ++ serve 0 14 ++ serve 1 14 ++ serve 0 2 ++ serve 1 2.
Example sibling_not_recorded : outcome ["a"] siblings
  = Some (["rev1"], ["rev1"; "rev2"], [Some "completed"; Some "failed"]).
Proof. vm_compute. reflexivity. Qed.
Example sibling_run_twice : outcome ["a"] (siblings ++ Starts (upgrade_to "rev2") :: serve 2 14)
  = Some (["rev1"; "rev2"], ["rev1"; "rev2"; "rev2"], [Some "completed"; Some "failed"; Some "completed"]).
Proof. vm_compute. reflexivity. Qed.
(** Killed between the upgrade and its record. *)
Example killed_run_twice :
  outcome ["a"] (Starts (upgrade_to "rev1") :: serve 0 14 ++ [Killed 0; Starts (upgrade_to "rev1")] ++ serve 1 16)
  = Some (["rev1"], ["rev1"; "rev1"], [Some "raised"; Some "completed"]).
Proof. vm_compute. reflexivity. Qed.
(** A branch that has gone on is taken for one that was never applied. *)
Example branch_run_twice :
  outcome [] ([Starts (upgrade_to "i"); Starts (upgrade_to "i")] ++ serve 1 10 ++ serve 0 11
              ++ Starts (upgrade_to "j") :: serve 2 16 ++ serve 1 1)
  = Some (["j"; "i"], ["i"; "j"; "i"], [Some "completed"; Some "completed"; Some "completed"]).
Proof. vm_compute. reflexivity. Qed.

(** A merge and what it needs go through the upgrade command, one transaction
    each; one that is cut off keeps those that have committed. *)
Example command_ex : outcome ["rev1"; "i"] (Starts (upgrade_to "m") :: serve 0 15)
  = Some (["i"; "m"], ["rev2"; "m"], [Some "completed"]).
Proof. vm_compute. reflexivity. Qed.
Example command_cut_off : outcome ["rev1"; "i"] (Starts (upgrade_to "m") :: serve 0 13 ++ [Accesses 0 (lost 5)])
  = Some (["rev1"; "i"; "rev2"], ["rev2"], [Some "failed"]).
Proof. vm_compute. reflexivity. Qed.

(** A general upgrade counts the revisions of the packs only: the heads of the
    catalog are pending, and it calls the database up to date. *)
Definition general (packs : list MigrationMetadata) (dry : bool) : job := ApplyCommand (sample_self packs) "postgres" dry None.
Example host_revisions_skipped : outcome ["a"] (Starts (general [pack "p" ["a"]] false) :: serve 0 7)
  = Some (["a"], [], [Some "up_to_date"]).
Proof. vm_compute. reflexivity. Qed.
(** A database that cannot be read is reported as a complete catalog with
    nothing applied. *)
Definition pending_of_job (s : system) : list string :=
  concat (map (fun jp => match jp.2 with
                         | Done (Ok d) => match pget "migrations" d with
                                          | PList l => map (fun m => text_at "revision" (dict_or_empty m)) l
                                          | _ => []
                                          end
                         | _ => []
                         end) (sy_jobs s)).
Example unreadable_is_empty :
  (s ← run_events (Starts (general [pack "p" ["a"]] true) :: map (Accesses 0) [lost 5; lost 5; served 5; served 5; lost 5])
         (begin_at ["a"]); Some (answers_of s, pending_of_job s)) = Some ([Some "success"], ["a"]).
Proof. vm_compute. reflexivity. Qed.

(** The normalizer compares the order of the database with its own. *)
Definition other_collation : AlembicPlatform := {|
  hashtext := hash;
  text_le a b := String.leb b a;
  command_upgrade := @command_upgrade sample_platform;
|}.
Definition redundant_rows : site := holds ["a"; "i"; "rev1"].
Definition normalized (P : AlembicPlatform) : option (option (list string) * list string) :=
  match run_alone 0 (@apply_plan P sample_scripts core_url (plan_redundant_heads sample_scripts (rows redundant_rows core_url)))
          [served 5] redundant_rows with
  | Some (r, w) => Some (match r with Ok p => Some (retained_revisions p) | Raise _ => None end, rows w core_url)
  | None => None
  end.
Example normalized_ex : normalized sample_platform = Some (Some ["i"; "rev1"], ["i"; "rev1"]).
Proof. vm_compute. reflexivity. Qed.
Example collation_blocks : normalized other_collation = Some (None, ["a"; "i"; "rev1"]).
Proof. vm_compute. reflexivity. Qed.

(** A schema that is complete, below a head whose name is not a number. *)
Definition complete (version_rows : list string) : probe :=
  mkProbe (mkSchema ("alembic_version" :: REQUIRED_TABLES ++ REQUIRED_INDEXES) REQUIRED_COLUMNS version_rows) true None "".
Example numeric_head : evaluate_host_resource_schema_contract "postgres" [REQUIRED_REVISION] (complete ["20260701000000"]) = None.
Proof. vm_compute. reflexivity. Qed.
Example named_head : option_map status_of
    (evaluate_host_resource_schema_contract "postgres" [REQUIRED_REVISION] (complete ["add_lane_notes"])) = Some "schema_drift".
Proof. vm_compute. reflexivity. Qed.

(** While an incident is contained, the permit names the revision it admits. *)
Definition contained_upgrade : list event := map Reports to_containment ++ Starts (upgrade_to "rev1") :: serve 0 16.
Example contained_ex : outcome ["a"] contained_upgrade = Some (["rev1"], ["rev1"], [Some "completed"])
  /\ outcome ["a"] (map Reports to_containment ++ Starts (upgrade_to "rev2") :: serve 0 10) = Some (["a"], [], [Some "failed"]).
Proof. vm_compute. done. Qed.
