(* ===== verification/MigrationTheorems.v ===== *)
(** What the database migrations guarantee, however the commands interleave and
    wherever they are cut off; and what one command does when nothing runs next
    to it: the plan of a revision is exactly what is missing, and the normalizer
    removes exactly the rows that say nothing. *)
From stdpp Require Import gmap sorting.
From S2P Require Import Prelude PyDict PyStr PyVal PyJson PyTime KnowledgeContracts IncidentModels IncidentJournal IncidentGate IncidentRuns IncidentFacts IncidentAdmission IncidentSample MigrationOrder MigrationGraph MigrationCatalog MigrationExecutors MigrationOrchestrator MigrationLogic MigrationRuns MigrationSample.

(** C19: whatever commands of the migration runner work on lawful catalogs
    ([catalogs_ok]), next to each other and to the incident journal, whichever
    of their accesses fail or lose their answer, and wherever they are killed:
    what the rows of alembic_version cover has been covered from the start or
    its upgrade was committed, and they never cover less than before. A
    transaction is one access; the upgrade command of alembic is a sequence of
    transactions that obeys [alembic_ok]; nothing else writes alembic_version. *)
Theorem covered_means_run `{IsoReader, AlembicPlatform} needs w0 s s' :
  alembic_ok needs -> initial w0 -> reaches needs w0 s -> rtc (sys_step needs) s s' ->
  (forall url x, covered needs (rows (sy_site s) url) x ->
     covered needs (rows w0 url) x \/ Upgraded url x ∈ st_log (sy_site s))
  /\ (forall url x, covered needs (rows (sy_site s) url) x -> covered needs (rows (sy_site s') url) x).
Proof.
  intros Ha Hi Hr Hss. pose proof (reaches_ok needs Ha w0 s Hi Hr) as Hok. split.
  - apply (sk_sound _ _ _ Hok).
  - apply (runs_later needs Ha w0 s s' Hok Hss).
Qed.

Lemma sample_reaches vs es s : Forall (event_ok sample_needs) es -> run_events es (begin_at vs) = Some s -> reaches sample_needs (holds vs) s.
Proof. apply run_events_reaches. Qed.
Ltac sample_schedule :=
  cbv [siblings contained_upgrade serve repeat app map to_containment]; repeat (apply Forall_cons; split); try exact I;
  try apply sample_catalogs; try apply Forall_nil; try exact I.
Lemma siblings_ok : Forall (event_ok sample_needs) siblings.
Proof. sample_schedule. Qed.
Lemma contained_ok : Forall (event_ok sample_needs) contained_upgrade.
Proof. sample_schedule. Qed.

(** The system a schedule leads to. *)
Definition leaves_at (vs : list string) (es : list event) : system := default (begin_at vs) (run_events es (begin_at vs)).
Lemma leaves_reached vs es : Forall (event_ok sample_needs) es -> (if run_events es (begin_at vs) then true else false) = true ->
  reaches sample_needs (holds vs) (leaves_at vs es).
Proof.
  intros Hok Hr. unfold leaves_at. destruct (run_events es (begin_at vs)) as [s|] eqn:E; [|done]. by apply (sample_reaches vs es).
Qed.

Lemma covered_means_run_witness :
  let s := leaves_at ["a"] siblings in
  reaches sample_needs (holds ["a"]) s
  /\ (covered sample_needs (rows (holds ["a"]) core_url) "rev1" \/ Upgraded core_url "rev1" ∈ st_log (sy_site s)).
Proof.
  intros s. assert (reaches sample_needs (holds ["a"]) s) as Hr by (apply leaves_reached; [apply siblings_ok|vm_compute; reflexivity]).
  split; [exact Hr|]. destruct (covered_means_run sample_needs (holds ["a"]) s s sample_alembic_ok (holds_initial ["a"]) Hr) as [Hc _].
  - apply rtc_refl.
  - apply Hc. apply covered_row. assert (rows (sy_site s) core_url = ["rev1"]) as -> by (vm_compute; reflexivity). by left.
Defined.

(** C20: an upgrade function is committed (as a whole: what a migration commits
    on its own before it fails is not counted) only after everything its
    revision needs is covered or was committed, and after the mutation gate has admitted
    an upgrade whose target needs that revision or that is to all heads; if an
    incident was open then, one of its permits, granted and not revoked by a
    call of the journal that returned, listed that upgrade and had not expired.
    The commands, catalogs and accesses are those of [reaches], as above. *)
Theorem upgrades_run_in_turn `{IsoReader, AlembicPlatform} needs w0 s l1 url r l2 :
  alembic_ok needs -> initial w0 -> reaches needs w0 s -> st_log (sy_site s) = l1 ++ Upgraded url r :: l2 ->
  (forall x, tc needs r x -> covered needs (rows w0 url) x \/ Upgraded url x ∈ l1)
  /\ exists c target context now d h, Cleared (upgrade_operation c target) context now d ∈ l1
     /\ (target = "heads" \/ rtc needs target r) /\ history h d
     /\ forall i, current_of d = Some i -> in_state i <> CLOSED ->
          authorised h i (operation_key (operation_name (upgrade_operation c target)) context []) now.
Proof.
  intros Ha Hi Hr El. destruct (sk_sound _ _ _ (reaches_ok needs Ha w0 s Hi Hr)) as [_ Ht _ Had].
  destruct (Ht _ _ _ _ El) as [Hx (c & target & context & now & d & Hin & Hst)]. split; [done|].
  destruct (Had (upgrade_operation c target) context now d) as (h & Hh & Hp).
  { rewrite El. apply list.elem_of_app. by left. }
  by exists c, target, context, now, d, h.
Qed.
Lemma upgrades_run_in_turn_witness :
  exists l1 l2 c target context now d, st_log (sy_site (leaves_at ["a"] contained_upgrade)) = l1 ++ Upgraded core_url "rev1" :: l2
  /\ Cleared (upgrade_operation c target) context now d ∈ l1 /\ option_map in_state (current_of d) = Some CONTAINED_PENDING_SOAK.
Proof.
  set (s := leaves_at ["a"] contained_upgrade).
  assert (reaches sample_needs (holds ["a"]) s) as Hr by (apply leaves_reached; [apply contained_ok|vm_compute; reflexivity]).
  set (l1 := take 1 (st_log (sy_site s))).
  assert (st_log (sy_site s) = l1 ++ [Upgraded core_url "rev1"]) as El by (vm_compute; reflexivity).
  destruct (upgrades_run_in_turn sample_needs (holds ["a"]) s l1 core_url "rev1" [] sample_alembic_ok (holds_initial ["a"]) Hr El)
    as (_ & c & target & context & now & d & h & Hin & _).
  exists l1, [], c, target, context, now, d. split; [exact El|]. split; [exact Hin|].
  assert (forallb (fun e => match e with
                            | Cleared _ _ _ d => bool_decide (option_map in_state (current_of d) = Some CONTAINED_PENDING_SOAK)
                            | _ => false
                            end) l1 = true) as Hall by (vm_compute; reflexivity).
  rewrite forallb_forall in Hall. apply list_elem_of_In, Hall in Hin. by apply bool_decide_eq_true in Hin.
Defined.


(** ** Programs run alone, every access served *)

Definition all_served (os : list oracle) : Prop := Forall (fun o => o_access o = Served) os.
Definition alone {A} (p : prog A) (Q : A -> site -> Prop) (w : site) : Prop :=
  forall pid os a w', all_served os -> run_alone pid p os w = Some (Ok a, w') -> Q a w'.

Lemma run_alone_bind {A B} pid (p : prog A) (f : A -> prog B) os w r w' : all_served os ->
  run_alone pid (p ≫= f) os w = Some (Ok r, w') ->
  exists a os1 os2 w1, all_served os1 /\ all_served os2 /\ run_alone pid p os1 w = Some (Ok a, w1) /\ run_alone pid (f a) os2 w1 = Some (Ok r, w').
Proof.
  revert os w. induction p as [[a|e]|g IH] using prog_nested_ind; intros os w Hos E.
  - exists a, [], os, w. split; [apply Forall_nil_2|]. done.
  - by destruct os.
  - simpl in E. destruct os as [|o os]; [done|]. destruct (g o pid w) as [[q w1]|] eqn:Eg; [|done].
    apply Forall_cons in Hos as [Ho Hos]. destruct (IH _ _ _ _ _ Eg _ _ Hos E) as (a & os1 & os2 & w2 & H1 & H2 & E1 & E2).
    exists a, (o :: os1), os2, w2. split; [by constructor|]. split; [done|]. split; [|done]. simpl. by rewrite Eg.
Qed.
Lemma alone_then {A B} (p : prog A) (f : A -> prog B) P Q w :
  alone p P w -> (forall a w', P a w' -> alone (f a) Q w') -> alone (p ≫= f) Q w.
Proof.
  intros Hp Hf pid os b w' Hos E. apply run_alone_bind in E as (a & os1 & os2 & w1 & H1 & H2 & E1 & E2); [|done].
  exact (Hf a w1 (Hp pid os1 a w1 H1 E1) pid os2 b w' H2 E2).
Qed.
Lemma alone_peek {A} (f : oracle -> site -> A) (Q : A -> site -> Prop) w :
  (forall o, o_access o = Served -> Q (f o w) w) -> alone (peek f) Q w.
Proof.
  intros Hf pid os a w' Hos E. destruct os as [|o os]; [done|]. apply Forall_cons in Hos as [Ho _]. simpl in E.
  destruct os; injection E as <- <-; by apply Hf.
Qed.
Lemma alone_ret {A} (a : A) (Q : A -> site -> Prop) w : Q a w -> alone (mret a) Q w.
Proof. intros HQ pid os b w' _ E. destruct os; by injection E as <- <-. Qed.

(** ** The plan of a revision *)

Lemma text_list_texts l : text_list (texts l) = l.
Proof. unfold text_list, texts. induction l as [|x l IH]; [done|]. simpl. by f_equal. Qed.

Section plans.
Context `{IsoReader, AlembicPlatform}.
Variables (needs : string -> string -> Prop) (self : orchestrator) (db_type url : string) (c : script_directory) (w : site).
Hypothesis alembic : alembic_ok needs.
Hypothesis lawful : catalog_ok needs c.
Hypothesis at_url : url_of self db_type = Ok url.
Hypothesis loads : dget db_type (alembic_configs self) <> None /\ scripts_of self db_type = Some c.
Hypothesis rows_resolve : forall v, v ∈ rows w url -> resolves c v = true.

Lemma current_alone : alone (_get_current_revisions self db_type) (fun l w' => w' = w /\ forall x, x ∈ l <-> x ∈ rows w url) w.
Proof.
  unfold _get_current_revisions. rewrite at_url. apply alone_peek. intros o ->. split; [done|]. intros x. by rewrite merge_sort_Permutation.
Qed.
Lemma load_alone : alone (_load_script_directory self db_type) (fun oc w' => w' = w /\ oc = Some c) w.
Proof.
  unfold _load_script_directory. destruct loads as [Hn Hs]. destruct (dget db_type _); [|done]. apply alone_peek. by intros o ->.
Qed.
Lemma elem_of_ancestry heads x : (forall v, v ∈ heads -> resolves c v = true) ->
  x ∈ ancestry c heads <-> covered needs heads x.
Proof.
  intros Hres. unfold ancestry. match goal with |- context [foldl ?f [] heads] => set (g := f) end.
  assert (forall acc, x ∈ foldl g acc heads <-> x ∈ acc \/ covered needs heads x) as Hg.
  { induction heads as [|h heads IH]; intros acc; simpl.
    - split; [by left|]. intros [?|(v & Hv & _)]; [done|by inversion Hv].
    - rewrite IH by (intros v Hv; apply Hres; by right). unfold g.
      assert (resolves c h = true) as Hh by (apply Hres; by left).
      assert (x ∈ List.filter nonblank (yields (iterate_revisions c h)) <-> rtc needs h x) as Ha.
      { split; [by apply elem_of_ancestors|by apply ancestors_complete]. }
      unfold resolves in Hh. destruct (ends_with _); [done|]. rewrite list.elem_of_app, Ha. split.
      + intros [[?|?]|(v & Hv & Hx)]; [by left|right; exists h; split; [by left|done]|right; exists v; split; [by right|done]].
      + intros [?|(v & [->|Hv]%list.elem_of_cons & Hx)]; [by left; left|by left; right|right; by exists v]. }
  rewrite Hg. split; [intros [Hx|]; [by inversion Hx|done]|by right].
Qed.
Lemma applied_alone heads : (forall x, x ∈ heads <-> x ∈ rows w url) ->
  alone (_get_applied_revisions self db_type heads) (fun l w' => w' = w /\ forall x, x ∈ l <-> covered needs (rows w url) x) w.
Proof.
  intros Hh. unfold _get_applied_revisions. eapply (alone_then _ _ (fun l w' => w' = w /\ forall x, x ∈ l <-> x ∈ rows w url)).
  { destruct (bool_decide (heads = [])); [apply current_alone|by apply alone_ret]. }
  intros l w1 [-> Hl]. destruct (bool_decide (l = [])) eqn:E; bool_prop.
  - apply alone_ret. split; [done|]. intros x. split; [intros Hx; by inversion Hx|]. intros (v & Hv & _). apply Hl in Hv.
    subst. by inversion Hv.
  - eapply alone_then; [apply load_alone|]. intros oc w1 [-> ->]. apply alone_ret. split; [done|]. intros x.
    assert (forall v, v ∈ remove_dups l <-> v ∈ rows w url) as Hd by (intros v; by rewrite elem_of_remove_dups, Hl).
    rewrite elem_of_ancestry by (intros v Hv; by apply rows_resolve, Hd).
    split; intros (v & Hv & Hx); exists v; (split; [|done]); by apply Hd.
Qed.
Lemma contract_alone heads : (forall x, x ∈ heads <-> x ∈ rows w url) ->
  alone (_check_host_resource_schema_contract self db_type heads)
    (fun o w' => w' = w /\ forall d, o = Some d -> status_of d = "schema_drift") w.
Proof.
  intros Hh. unfold _check_host_resource_schema_contract. destruct (negb _); [by apply alone_ret|].
  eapply alone_then; [by apply applied_alone|]. intros applied w1 [-> _]. apply alone_peek. intros o _. split; [done|]. intros d.
  unfold evaluate_host_resource_schema_contract, schema_drift. repeat break; [done|done|by intros [= <-]..|done].
Qed.

(** What is missing of a revision, each after what it needs. *)
Record missing (rev : string) (l : list string) : Prop := {
  ms_distinct : NoDup l;
  ms_exact : forall x, x ∈ l <-> rtc needs rev x /\ ~ covered needs (rows w url) x;
  ms_order : forall l1 x l2 y, l = l1 ++ x :: l2 -> tc needs x y -> y ∈ l1 \/ covered needs (rows w url) y;
}.
Lemma minus_split a b l1 x l2 : minus a b = l1 ++ x :: l2 -> exists a1 a2, a = a1 ++ x :: a2 /\ l2 = minus a2 b /\ l1 = minus a1 b.
Proof.
  revert l1. induction a as [|y a IH]; intros l1; [by destruct l1|]. simpl. destruct (negb (member y b)) eqn:E.
  - destruct l1 as [|z l1]; intros Es; injection Es as -> Es.
    + by exists [], a.
    + destruct (IH _ Es) as (a1 & a2 & -> & -> & ->). exists (z :: a1), a2. simpl. by rewrite E.
  - intros Es. destruct (IH _ Es) as (a1 & a2 & -> & -> & ->). exists (y :: a1), a2. simpl. by rewrite E.
Qed.
Lemma chain_missing rev chain applied : list_of (iterate_revisions c rev) = Ok chain ->
  (forall x, x ∈ applied <-> covered needs (rows w url) x) -> missing rev (List.rev (minus chain applied)).
Proof.
  intros Ec Hap. destruct (co_order _ _ lawful _ _ Ec) as [Hnd Ho].
  assert (forall x, x ∈ chain <-> rtc needs rev x) as Hch.
  { intros x. split; [|by apply (co_complete _ _ lawful)]. intros Hx. apply (co_yields _ _ lawful).
    unfold list_of in Ec. destruct (ends_with _); [done|]. by injection Ec as ->. }
  split.
  - apply NoDup_ListNoDup, NoDup_rev, NoDup_ListNoDup. unfold minus. apply NoDup_ListNoDup, List.NoDup_filter. by apply NoDup_ListNoDup.
  - intros x. rewrite list_elem_of_In, <- in_rev, <- list_elem_of_In, elem_of_minus, Hch, Hap. done.
  - intros l1 x l2 y E Ht. assert (minus chain applied = List.rev l2 ++ x :: List.rev l1) as E'.
    { rewrite <- (rev_involutive (minus chain applied)), E, rev_app_distr. simpl. by rewrite <- app_assoc. }
    apply minus_split in E' as (a1 & a2 & -> & E2 & _). destruct (decide (y ∈ applied)) as [Hy|Hy]; [right; by apply Hap|left].
    rewrite list_elem_of_In, in_rev, <- list_elem_of_In, E2. apply elem_of_minus. split; [|done]. by eapply Ho.
Qed.

Definition plan_is (rev : string) (d : dict pyval) (w' : site) : Prop :=
  w' = w /\ (status_of d = "up_to_date" -> covered needs (rows w url) rev)
  /\ (status_of d = "success" -> missing rev (text_list (pget "revisions" d)) /\ ~ covered needs (rows w url) rev).
Lemma plan_from_alone rev : alone (plan_from self c db_type rev) (plan_is rev) w.
Proof.
  unfold plan_from. destruct (get_revision c rev); [|by apply alone_ret]. destruct (negb _); [by apply alone_ret|].
  eapply alone_then; [apply current_alone|]. intros l w1 [-> Hl]. eapply alone_then; [by apply contract_alone|].
  intros o w1 [-> Hd]. destruct o as [d|]; [apply alone_ret; unfold plan_is; by rewrite (Hd d eq_refl)|].
  eapply alone_then; [by apply applied_alone|]. intros applied w1 [-> Hap].
  destruct (member rev applied) eqn:Em; unfold member in Em; bool_prop.
  { apply alone_ret. split; [done|]. split; [|done]. intros _. by apply Hap. }
  destruct (list_of (iterate_revisions c rev)) as [chain|e] eqn:Ec; [|by apply alone_ret].
  apply alone_ret. split; [done|]. split; [done|]. intros _. split; [|by rewrite <- Hap].
  change (pget "revisions" (revision_plan rev (minus chain applied))) with (texts (List.rev (minus chain applied))).
  rewrite text_list_texts. by apply chain_missing.
Qed.
End plans.

(** Run alone on a database that can be read, whose rows the catalog
    knows, the plan of a revision lists exactly the revisions it needs that the
    rows do not cover, itself included, once each and each after those it needs;
    it is up to date only when the rows cover it; and planning changes nothing. *)
Theorem plan_is_what_is_missing `{IsoReader, AlembicPlatform} needs self db_type url c w rev pid os d w' :
  alembic_ok needs -> catalog_ok needs c -> url_of self db_type = Ok url -> scripts_of self db_type = Some c ->
  (forall v, v ∈ rows w url -> resolves c v = true) ->
  all_served os -> run_alone pid (plan_revision self db_type rev) os w = Some (Ok d, w') ->
  w' = w /\ (status_of d = "up_to_date" -> covered needs (rows w url) rev)
  /\ (status_of d = "success" -> missing needs url w rev (text_list (pget "revisions" d)) /\ ~ covered needs (rows w url) rev).
Proof.
  intros Ha Hc Hu Hs Hres Hos E. unfold plan_revision in E.
  assert (forall m, alone (mret (bad_status "invalid_revision" m)) (plan_is needs url w rev) w) as Hinv by (intros m; by apply alone_ret).
  destruct (symbolic rev); [by eapply Hinv|].
  destruct (dget db_type (alembic_configs self)) as [cfg|] eqn:Ec;
    [|by eapply (alone_ret (bad_status "unsupported_database" _) (plan_is needs url w rev))].
  eapply (alone_then _ _ (fun oc w' => w' = w /\ oc = Some c) (plan_is needs url w rev)); [| |exact Hos|exact E].
  - apply load_alone. by rewrite Ec.
  - intros oc w1 [-> ->]. apply plan_from_alone; try done. by rewrite Ec.
Qed.
Lemma plan_is_what_is_missing_witness :
  let d := match run_alone 0 (plan_revision (sample_self []) "postgres" "m") (repeat (served 5) 7) (holds ["rev1"; "i"]) with
           | Some (Ok d, _) => d | _ => [] end in
  text_list (pget "revisions" d) = ["rev2"; "m"] /\ missing sample_needs core_url (holds ["rev1"; "i"]) "m" ["rev2"; "m"].
Proof.
  intros d. assert (text_list (pget "revisions" d) = ["rev2"; "m"]) as El by (vm_compute; reflexivity). split; [exact El|].
  assert (status_of d = "success") as Es by (vm_compute; reflexivity).
  destruct (run_alone 0 (plan_revision (sample_self []) "postgres" "m") (repeat (served 5) 7) (holds ["rev1"; "i"]))
    as [[[d'|e] w']|] eqn:E; [|by vm_compute in E|by vm_compute in E].
  assert (d = d') as Ed by reflexivity.
  destruct (plan_is_what_is_missing sample_needs (sample_self []) "postgres" core_url sample_scripts (holds ["rev1"; "i"]) "m" 0
              (repeat (served 5) 7) d' w' sample_alembic_ok sample_catalog_ok eq_refl eq_refl) as (_ & _ & Hs).
  - intros v Hv. assert (forallb (resolves sample_scripts) (rows (holds ["rev1"; "i"]) core_url) = true) as Hr by (vm_compute; reflexivity).
    rewrite forallb_forall in Hr. by apply Hr, list_elem_of_In.
  - repeat (apply Forall_cons; split; [done|]). apply Forall_nil_2.
  - exact E.
  - rewrite <- Ed, El in Hs. by apply Hs.
Defined.

(** ** The normalizer *)

Lemma run_access_cases {A} (body : stres site A) o w r w' : run_access body o w = (r, w') ->
  (w' = w /\ exists e, r = Raise e) \/ exists a, body w = (Ok a, w') /\ (r = Ok a \/ exists e, r = Raise e).
Proof.
  unfold run_access, transaction. destruct (body w) as [[a|e] w1], (o_access o); intros [= <- <-]; eauto 6.
Qed.

Section normalizer.
Context `{AlembicPlatform}.
Variables (needs : string -> string -> Prop) (c : script_directory).
Hypothesis alembic : alembic_ok needs.
Hypothesis lawful : catalog_ok needs c.

Lemma blocked_iff rs : pl_status (plan_redundant_heads c rs) = blocked_unresolved <-> exists r, r ∈ rs /\ resolves c r = false.
Proof.
  split.
  - unfold plan_redundant_heads. set (unresolved := List.filter _ _).
    destruct (bool_decide (unresolved = [])) eqn:E; bool_prop; [by simpl; destruct (bool_decide _)|]. intros _.
    destruct unresolved as [|r l] eqn:Eu; [done|]. assert (r ∈ r :: l) as Hr by left. rewrite <- Eu in Hr.
    apply elem_of_List_filter in Hr as [Hr Hn]. exists r. rewrite elem_of_py_sorted in Hr. split; [done|]. by apply negb_true_iff.
  - intros (r & Hr & Hn). destruct (decide (pl_status (plan_redundant_heads c rs) = blocked_unresolved)) as [|Hb]; [done|].
    destruct (plan_resolved c rs Hb) as (Hres & _). rewrite Hres in Hn by done. done.
Qed.
Lemma retained_facts rs : pl_status (plan_redundant_heads c rs) <> blocked_unresolved ->
  (forall r, r ∈ retained_revisions (plan_redundant_heads c rs) <-> r ∈ rs /\ forall d, d ∈ rs -> ~ tc needs d r)
  /\ (forall x, covered needs (retained_revisions (plan_redundant_heads c rs)) x <-> covered needs rs x).
Proof.
  intros Hb. destruct (plan_resolved c rs Hb) as (Hres & Hred & Hret).
  assert (forall d, d ∈ py_sorted rs -> resolves c d = true) as Hres' by (intros d; rewrite elem_of_py_sorted; apply Hres).
  assert (forall r, is_redundant c (py_sorted rs) r = false <-> forall d, d ∈ rs -> ~ tc needs d r) as Hn.
  { intros r. pose proof (is_redundant_iff needs alembic c (py_sorted rs) r lawful Hres') as Hiff.
    destruct (is_redundant c (py_sorted rs) r).
    - split; [done|]. intros Hno. destruct (proj1 Hiff eq_refl) as (d & Hd & Ht). rewrite elem_of_py_sorted in Hd. by destruct (Hno d Hd).
    - split; [|done]. intros _ d Hd Ht. assert (false = true) as Hf; [|done]. apply Hiff. exists d. by rewrite elem_of_py_sorted. }
  split; [intros r; by rewrite Hret, Hn|]. intros x. rewrite <- (redundant_cover needs alembic c rs x lawful Hb).
  assert (forall v, v ∈ retained_revisions (plan_redundant_heads c rs) <-> v ∈ minus rs (redundant_revisions (plan_redundant_heads c rs))) as Hm.
  { intros v. rewrite Hret, elem_of_minus, Hred. destruct (is_redundant c (py_sorted rs) v); naive_solver. }
  split; intros (v & Hv & Hx); exists v; (split; [by apply Hm|done]).
Qed.

Lemma apply_plan_run url plan o pid w r w' : run_alone pid (apply_plan c url plan) [o] w = Some (r, w') ->
  (w' = w /\ forall p, r <> Ok p)
  \/ (pl_status plan = ready /\ normalization_body c url plan w = (Ok tt, w')
      /\ forall p, r = Ok p -> retained_revisions p = retained_revisions plan).
Proof.
  unfold apply_plan. destruct (bool_decide (pl_status plan = ready)) eqn:Est; bool_prop; simpl negb; cbv iota;
    [|intros E; left; by injection E as <- <-].
  intros E. simpl in E. destruct (run_access (normalization_body c url plan) o w) as [x w1] eqn:Er.
  apply run_access_cases in Er as [(-> & e & ->)|([] & Eb & [->|(e & ->)])]; injection E as <- <-.
  - by left.
  - right. do 2 (split; [done|]). by intros p [= <-].
  - by right.
Qed.
Lemma applied_cover url plan w w' : pl_status plan = ready -> normalization_body c url plan w = (Ok tt, w') ->
  (forall u x, covered needs (rows w' u) x <-> covered needs (rows w u) x) /\ rows w' url ≡ₚ retained_revisions plan.
Proof.
  intros Hst (Ee & -> & Eret)%normalization_result. split.
  - intros u x. rewrite rows_set_rows. destruct (bool_decide (u = url)) eqn:Eu; bool_prop; [subst|done].
    by apply (locked_cover needs alembic c).
  - rewrite <- Eret. by rewrite merge_sort_Permutation.
Qed.
End normalizer.

(** C29: the normalizer refuses rows the catalog cannot resolve; otherwise what
    it retains covers what the rows covered, no retained revision needs another,
    and every set of rows that covers as much contains them all.  Applying a
    plan, wherever its one transaction ends, changes what no database covers;
    when it returns, the rows are the retained ones. *)
Theorem normalization_keeps_coverage `{AlembicPlatform} needs c rs :
  alembic_ok needs -> catalog_ok needs c ->
  let plan := plan_redundant_heads c rs in
  (pl_status plan = blocked_unresolved <-> exists r, r ∈ rs /\ resolves c r = false)
  /\ (pl_status plan <> blocked_unresolved ->
      (forall x, covered needs (retained_revisions plan) x <-> covered needs rs x)
      /\ (forall a b, a ∈ retained_revisions plan -> b ∈ retained_revisions plan -> ~ tc needs a b)
      /\ (forall vs, vs ⊆ rs -> (forall x, covered needs rs x -> covered needs vs x) -> retained_revisions plan ⊆ vs))
  /\ (forall url o pid w r w', run_alone pid (apply_plan c url plan) [o] w = Some (r, w') ->
      (forall u x, covered needs (rows w' u) x <-> covered needs (rows w u) x)
      /\ (forall p, r = Ok p -> rows w' url ≡ₚ retained_revisions plan /\ retained_revisions p = retained_revisions plan)).
Proof.
  intros Ha Hc plan. split; [by apply (blocked_iff c rs)|]. split.
  - intros Hb. destruct (retained_facts needs c Ha Hc rs Hb) as [Hr Hcov]. split; [done|]. split.
    + intros a b Hra Hrb. apply Hr in Hra as [Hra _], Hrb as [_ Hrb]. by apply Hrb.
    + intros vs Hvs Hall r Hrr. apply Hr in Hrr as [Hin Hno]. destruct (Hall r) as (v & Hv & Hx); [by apply covered_row|].
      apply rtc_tc in Hx as [->|Ht]; [done|]. by destruct (Hno v (Hvs v Hv)).
  - intros url o pid w r w' [(-> & Hno)|(Hst & Eb & Hp)]%apply_plan_run.
    + split; [done|]. intros p Ep. by destruct (Hno p).
    + destruct (applied_cover needs c Ha Hc url plan w w' Hst Eb) as [Hcov Hrows]. split; [done|]. auto.
Qed.
Lemma normalization_keeps_coverage_witness :
  let plan := plan_redundant_heads sample_scripts ["a"; "i"; "rev1"] in
  retained_revisions plan = ["i"; "rev1"] /\ covered sample_needs ["i"; "rev1"] "a".
Proof.
  intros plan. assert (retained_revisions plan = ["i"; "rev1"]) as El by (vm_compute; reflexivity). split; [exact El|].
  destruct (normalization_keeps_coverage sample_needs sample_scripts ["a"; "i"; "rev1"] sample_alembic_ok sample_catalog_ok)
    as (_ & Hp & _).
  destruct Hp as [Hcov _]; [by vm_compute|]. fold plan in Hcov. rewrite El in Hcov. apply Hcov, covered_row. by left.
Defined.
